(* ===== verification/_CoqProject ===== *)
-Q . S2P
Prelude.v
Pmm.v
PageAlloc.v
Vmm.v
Heap.v
Pipe.v
Futex.v
Net.v
Firewall.v
Tmpfs.v
Memfs.v
Vfs.v
VfsTree.v
Fat32.v
Fat32Volume.v
Fat32Files.v
Fat32Shim.v
Fat32Session.v
Signals.v
PageFault.v
Tcp.v
Sched.v
LibcString.v
Malloc.v
LibcStdlib.v
Printf.v
Stdio.v
UserPage.v
UserSpace.v
Elf.v
Fork.v
UserMem.v
Bignum.v
P256.v
Rsa.v
Csprng.v
Rtc.v
Cron.v
Tarfs.v
