(* ===== verification/Prelude.v ===== *)
(** * LestraOS: a verification library

    LestraOS is a small x86-64 operating system: a kernel (src/kernel), a libc
    (src/libc) and user programs (src/user).  This library models the parts of
    it that carry its own logic as executable definitions translated from the C
    source, and proves what makes them correct.  C's unsigned integers are [Z]
    with the wrap-around written out ([u32], [u64], [swrap] below), arrays are
    lists indexed by [Z], structs are records, and a function that changes a
    static variable takes the state and returns it.  Functions that sleep or
    wait are cut where they call the scheduler or poll: the state then holds
    what the kernel holds at that point, and the continuation is a definition of
    its own.

    ** The files and the source they model

    - [Prelude] (this file): integers and bit operations, C arrays, loops with
      their induction rules, the alignment macros of include/lestra/types.h.
    - [Pmm]: kernel/mm/pmm.c, the bitmap allocator of physical pages with
      reference counts, boot-time initialisation and reserved ranges.
    - [PageAlloc]: the interface [PageAllocator] (operations and laws) through
      which the page tables use an allocator, and the instance for [Pmm];
      [PageReclaim] and [PageMarker] add what the rollback of mmap and fork need.
    - [Vmm]: kernel/mm/vmm.c, four-level page tables in physical memory, over
      any allocator of the interface.
    - [PageFault]: kernel/mm/page_fault.c, copy-on-write, stack growth, demand
      paging and the signals of a fault; over [Vmm] and [Signals].
    - [Heap]: kernel/mm/heap.c, kmalloc and its free list.
    - [Pipe]: kernel/exec/pipe.c; [Futex]: kernel/exec/futex.c with the access
      checks of include/lestra/uaccess.h; [Signals]: kernel/exec/signals.c.
    - [Sched]: kernel/sched/scheduler.c, the process table, scheduling, fork,
      exit and wait; over [Signals] and [Pipe], with the loader, the address
      spaces, the heap and the files as the operations of the class [Machine].
    - [Net]: the wire formats of kernel/net/net.c and include/lestra/net.h (byte
      order, Internet checksum, ARP cache, DNS names); [Firewall]:
      kernel/net/firewall.c; [Tcp]: kernel/net/tcp.c over [Net].
    - [Tmpfs]: kernel/fs/tmpfs.c, the memory file system.
    - [Memfs]: the table of files, the child lists and the path functions of
      kernel/fs/vfs.c, with the changed root; [Vfs]: the vfs_ calls and
      initrd_load, with procfs, devfs and the disk file systems as the operations
      of the class [Mounted]; [VfsTree]: what the calls do to the tree of names.
    - [Fat32]: kernel/fs/fat32.c over any block device ([BlockDev]); [Fat32Volume]: the
      FAT, clusters and chains of a volume on a disk that keeps the laws of disks
      ([LawfulDisk]); [Fat32Files]: files, directory entries and their
      properties; [Fat32Shim]: kernel/fs/fat32_shim.c, the descriptors over it, whose
      close and open are in [Fat32Session].
    - [LibcString]: libc/src/string.c over a memory of bytes; [Malloc]: the heap
      of libc/src/stdlib.c, over the class [Malloc.Kernel] (what sys_brk
      promises); [LibcStdlib]: the rest of stdlib.c (atoi, rand, atexit, exit).
    - [Printf]: vsnprintf and its conversions, libc/src/stdio.c; [Stdio]: the
      streams of that file, over the class [Stdio.Kernel] (what reading and
      writing a descriptor does).
    - [UserPage]: lemmas on mapping fresh pages, shared by what follows;
      [UserSpace] and [Elf]: kernel/exec/elf.c, the address space of a program and
      its loader; [Fork]: the memory part of proc_fork in kernel/sched/scheduler.c.
    - [UserMem]: the memory system calls of kernel/syscall/syscall.c (brk, mmap,
      munmap) over [Vmm]; its instance [brk_kernel] of [Malloc.Kernel] puts the
      library's heap on the page tables.
    - [Bignum]: numbers as byte arrays; over it [P256], kernel/net/p256.c, and
      [Rsa], kernel/net/rsa.c.  [Csprng]: kernel/net/csprng.c and entropy.c.
    - [Rtc]: kernel/drivers/clock/rtc.c, the clock chip and the calendar; [Cron]:
      kernel/sys/cron.c, the table of timed tasks, over [Rtc].
    - [Tarfs]: kernel/fs/tar_extract.c, the archive file system.

    ** What the theorems show

    - Memory: over any sequence of calls a page in use is never handed out
      again, the first fit is chosen, contiguous runs are contiguous, and the
      counters follow the bitmap ([Pmm]); a mapping changes the translation of
      its page only and destroying an address space frees nothing else ([Vmm]);
      a copy-on-write fault gives a private copy ([PageFault]); heap blocks tile
      the heap and live blocks do not overlap ([Heap]).
    - Communication: a pipe is a FIFO under every interleaving and a sleeper
      faces an empty or full ring ([Pipe]); a wake-up wakes exactly the first
      waiters of its word ([Futex]); handlers return to the interrupted
      registers, and SIGKILL and SIGSTOP can be neither blocked nor caught
      ([Signals]).
    - Processes: [pick_next] is the best task in priority and cyclic order,
      equal priorities are served in turn, the process table stays well formed
      from boot on, and fork copies its caller ([Sched]).
    - Network: names, headers and segments survive encoding and parsing, a
      packet with its checksum verifies ([Net], [Tcp]); a filter decision is
      that of the first matching rule, and the packet is counted once
      ([Firewall]); over segments that carry the peer's bytes and fit the buffer,
      calls and ticks TCP delivers these bytes in order and once ([Tcp]).
    - Files: what is written is read back, and the tables stay consistent
      ([Tmpfs]); the calls on paths act on one tree of names, slots and child
      lists and the resolver being its representation, and a write reads back
      as far as the array goes ([VfsTree]); with a changed root every path
      resolves below it, though not the place of a new file ([Memfs]).  On a FAT32
      volume with clusters of one sector a write over the clusters of a file reads
      back and a closed file of the root opens as it was, while the search for free clusters gives one cluster for ever
      ([Fat32Files], [Fat32Session]).
    - User memory: malloc refines first fit and free coalescing over segments
      that tile the heap, strdup copies, and the heap is safe over any run of
      calls ([Malloc]); atoi is the number its text denotes cut to int
      ([LibcStdlib]), strlcat stays in its bounds ([LibcString]); mmap maps
      fresh zeroed pages or takes back what it mapped, munmap undoes it, and growing the break gives the
      heap what it relies on ([UserMem]).
    - Output and streams: vsnprintf writes the text its format and arguments stand
      for as far as there is room, and atoi reads back what it prints ([Printf]); a
      stream is a queue in front of its file in either direction, whatever
      parts the kernel moves at a time ([Stdio]).
    - Programs: a new address space is a private copy of the boot tables closed to
      the user ([UserSpace]), loading an image puts its segments, zeros and a stack
      there and nothing else ([Elf]), and fork copies the parent's pages to fresh
      ones while parent and kernel keep theirs ([Fork]).
    - Cryptography: a product modulo m is right after exactly a * b / m
      subtractions ([Bignum], [P256]); point multiplication is double-and-add with
      the code's formulas, with which the self-test and every key exchange fail
      ([P256]); an RSA check uses the wrong power ([Rsa]); the block cipher is
      AES-256 of FIPS 197, and the generator its counter mode ([Csprng]).
    - Time: what the clock chip holds is what the readers give in each format,
      and the day number counts the days of the Gregorian calendar ([Rtc]); a task runs
      once in each ticked minute its schedule selects, a printed schedule parses back ([Cron]).
    - Archives: every file of an archive is found by its path or through links and
      reads back, and reading any archive ends ([Tarfs]).

    Where the code does not do what it means to, a theorem states what it does
    instead: a full futex bucket strands its waiter, closing a pipe strands its
    reader, a DNS pointer can loop for ever, TCP acknowledges segments it drops
    and aborts idle connections, a child runs as root and closes the pipes of
    its parent, zombies of a dead parent stay, a directory
    moved below itself is gone, a task in a tie starves, requests
    near 2^64 pass the heap's bounds check, munmap frees kernel pages of the
    identity map, memory system calls return their errors as positive numbers,
    and others described at their place.

    ** Fuel

    Loops over arrays run for the length of the array ([for_loop], [for_each],
    [find_from]).  The others take fuel: [FOLD_FUEL] rounds fold a 32-bit
    checksum, proved to be enough; the scan of the heap's free list takes one
    more than the number of blocks and never runs out in a reachable heap;
    [WAKE_FUEL] covers the slots of a bucket; the DNS encoder takes the length
    of the name, and for the decoder the theorem is that no fuel is enough on a
    pointer loop.  The loops of the string functions take one more than the
    length of the string they scan, and [Malloc.list_fuel] is one more than the
    number of block headers; both are proved to be enough.  The fuel of a modular
    product is the number of subtractions, which [Bignum.mod_mul_ok] gives exactly.
    A format takes one round for each of its characters, and a loop over a stream
    one more than the bytes it has left ([Stdio.rounds]).  A path takes a round for
    each of its characters; a FAT32 file or directory takes one for each sector, and
    only a chain that is a loop runs out of the fuel given to the others.

    ** Not modelled

    Device drivers, interrupt and descriptor tables, the context switch and
    system call entry (hardware and assembly); the desktop, shell, speech and
    language-model programs; TLS, SSH, Wi-Fi and packages (sessions over
    devices and ciphers); sockets and HTTP;
    procfs and devfs; ext2, whose every reading of an inode or group descriptor
    writes whole sectors over a smaller buffer; the
    dynamic linker and foreign binaries, elf_exec; the background services other than cron; the other wrappers of system calls and
    the error texts of the libc; the dispatch
    of system calls other than the three memory calls.  Messages to the log are
    left out everywhere.  Pids are taken to stay below 2^31. *)

From stdpp Require Export base list list_numbers option numbers.
From Stdlib Require Export ZArith Lia Bool.

Open Scope Z_scope.

#[global] Arguments Z.add : simpl never.
#[global] Arguments Z.sub : simpl never.
#[global] Arguments Z.mul : simpl never.
#[global] Arguments Z.pow : simpl never.
#[global] Arguments Z.div : simpl never.
#[global] Arguments Z.modulo : simpl never.

(** [lia] with division and remainder by constants. *)
Ltac zlia := Z.to_euclidean_division_equations; lia.

(** Equalities between boolean comparisons. *)
Ltac blia :=
  apply eq_true_iff_eq;
  rewrite ?andb_true_iff, ?orb_true_iff, ?negb_true_iff, ?andb_false_iff,
    ?Z.leb_le, ?Z.ltb_lt, ?Z.eqb_eq, ?Z.leb_gt, ?Z.ltb_ge, ?Z.eqb_neq; lia.

(** ** Machine-width integers

    C's unsigned integers are [Z] reduced modulo their width; a signed
    [w]-bit value is the two's complement reading of its low [w] bits. *)

Definition wrap (w z : Z) : Z := z mod 2 ^ w.
Definition swrap (w z : Z) : Z :=
  (z + 2 ^ (w - 1)) mod 2 ^ w - 2 ^ (w - 1).

Arguments wrap : simpl never.
Arguments swrap : simpl never.

Abbreviation u8 := (wrap 8).
Abbreviation u16 := (wrap 16).
Abbreviation u32 := (wrap 32).
Abbreviation u64 := (wrap 64).
Abbreviation s32 := (swrap 32).
Abbreviation s64 := (swrap 64).

Lemma wrap_range w z : 0 <= w -> 0 <= wrap w z < 2 ^ w.
Proof. intros; apply Z.mod_pos_bound, Z.pow_pos_nonneg; lia. Qed.

Lemma wrap_small w z : 0 <= z < 2 ^ w -> wrap w z = z.
Proof. apply Z.mod_small. Qed.

Lemma wrap_wrap w z : 0 <= w -> wrap w (wrap w z) = wrap w z.
Proof. intros; apply wrap_small, wrap_range; lia. Qed.

Lemma swrap_small w z : 0 < w -> - 2 ^ (w - 1) <= z < 2 ^ (w - 1) -> swrap w z = z.
Proof.
  intros Hw Hz. unfold swrap.
  assert (2 ^ w = 2 * 2 ^ (w - 1)) as E
    by (rewrite <- Z.pow_succ_r by lia; f_equal; lia).
  rewrite Z.mod_small; lia.
Qed.

Lemma swrap_range w z : 0 < w -> - 2 ^ (w - 1) <= swrap w z < 2 ^ (w - 1).
Proof.
  intros Hw. unfold swrap.
  assert (2 ^ w = 2 * 2 ^ (w - 1)) as E
    by (rewrite <- Z.pow_succ_r by lia; f_equal; lia).
  pose proof (Z.mod_pos_bound (z + 2 ^ (w - 1)) (2 ^ w)).
  assert (0 < 2 ^ (w - 1)) by (apply Z.pow_pos_nonneg; lia). lia.
Qed.

(** ** Bits of words *)

Definition bit (n : Z) : Z := Z.shiftl 1 n.

Lemma bit_testbit n m : 0 <= n -> Z.testbit (bit n) m = bool_decide (n = m).
Proof.
  intros Hn. unfold bit. rewrite Z.shiftl_1_l.
  case_bool_decide; subst.
  - apply Z.pow2_bits_true; lia.
  - destruct (decide (0 <= m)); [apply Z.pow2_bits_false; lia|].
    apply Z.testbit_neg_r; lia.
Qed.

(** A [w]-bit word and its bits above [w]. *)
Lemma testbit_high w z i : 0 <= z < 2 ^ w -> w <= i -> Z.testbit z i = false.
Proof.
  intros Hz Hi. destruct (decide (0 <= w)).
  - rewrite <- (Z.mod_small z (2 ^ w)) by lia. apply Z.mod_pow2_bits_high; lia.
  - rewrite Z.pow_neg_r in Hz by lia. lia.
Qed.

Lemma word_ext w x y :
  0 <= w -> 0 <= x < 2 ^ w -> 0 <= y < 2 ^ w ->
  (forall i, 0 <= i < w -> Z.testbit x i = Z.testbit y i) -> x = y.
Proof.
  intros Hw Hx Hy H. apply Z.bits_inj'. intros i Hi.
  destruct (decide (i < w)); [apply H; lia|].
  rewrite !(testbit_high w) by lia. done.
Qed.

Lemma word_of_bits w z :
  0 <= w -> 0 <= z -> (forall i, w <= i -> Z.testbit z i = false) -> z < 2 ^ w.
Proof.
  intros Hw Hz H. destruct (decide (z = 0)) as [->|Hne].
  { apply Z.pow_pos_nonneg; lia. }
  apply Z.log2_lt_pow2; [lia|].
  destruct (decide (Z.log2 z < w)); [done|].
  specialize (H (Z.log2 z)). rewrite Z.bit_log2 in H by lia. discriminate H; lia.
Qed.

(** [x | (1 << n)] and [x & ~(1 << n)] *)
Definition set_bit (x n : Z) : Z := Z.lor x (bit n).
Definition clear_bit (x n : Z) : Z := Z.land x (Z.lnot (bit n)).
Definition test_bit (x n : Z) : bool := negb (Z.land (Z.shiftr x n) 1 =? 0).

Lemma test_bit_testbit x n : 0 <= n -> test_bit x n = Z.testbit x n.
Proof.
  intros Hn. unfold test_bit.
  change 1 with (Z.ones 1). rewrite Z.land_ones, Z.shiftr_div_pow2 by lia.
  change (2 ^ 1) with 2. rewrite <- Z.testbit_spec' by lia.
  by destruct (Z.testbit x n).
Qed.

Lemma set_bit_spec x n m :
  0 <= n -> Z.testbit (set_bit x n) m = Z.testbit x m || bool_decide (n = m).
Proof. intros. unfold set_bit. by rewrite Z.lor_spec, bit_testbit by lia. Qed.

Lemma clear_bit_spec x n m :
  0 <= n -> 0 <= m ->
  Z.testbit (clear_bit x n) m = Z.testbit x m && negb (bool_decide (n = m)).
Proof. intros. unfold clear_bit. by rewrite Z.land_spec, Z.lnot_spec, bit_testbit by lia. Qed.

Lemma set_bit_range w x n :
  0 <= n < w -> 0 <= x < 2 ^ w -> 0 <= set_bit x n < 2 ^ w.
Proof.
  intros Hn Hx.
  assert (0 <= set_bit x n).
  { apply Z.lor_nonneg; split; [lia|]. unfold bit. apply Z.shiftl_nonneg; lia. }
  split; [done|]. apply word_of_bits; [lia..|]. intros i Hi.
  rewrite set_bit_spec, (testbit_high w) by lia. simpl. case_bool_decide; [lia|done].
Qed.

Lemma clear_bit_range w x n :
  0 <= w -> 0 <= n -> 0 <= x < 2 ^ w -> 0 <= clear_bit x n < 2 ^ w.
Proof.
  intros Hw Hn Hx.
  assert (0 <= clear_bit x n) by (apply Z.land_nonneg; lia).
  split; [done|]. apply word_of_bits; [lia..|]. intros i Hi.
  rewrite clear_bit_spec, (testbit_high w) by lia. done.
Qed.

(** Adding a part below the alignment is an or. *)
Lemma lor_low a b k : 0 <= k -> a mod 2 ^ k = 0 -> 0 <= b < 2 ^ k -> Z.lor a b = a + b.
Proof.
  intros Hk Ha Hb. assert (Z.land a b = 0) as E.
  { apply Z.bits_inj'. intros i Hi. rewrite Z.land_spec, Z.bits_0. destruct (decide (i < k)).
    - rewrite <- (Z.mod_pow2_bits_low a k i), Ha, Z.bits_0 by lia. done.
    - rewrite (testbit_high k b) by lia. apply andb_false_r. }
  rewrite <- Z.lxor_lor by done. symmetry. by apply Z.add_nocarry_lxor.
Qed.

Lemma wrap_add_l w a b : wrap w (wrap w a + b) = wrap w (a + b).
Proof. unfold wrap. by rewrite Zplus_mod_idemp_l. Qed.

Lemma wrap_sub_l w a b : wrap w (wrap w a - b) = wrap w (a - b).
Proof. unfold wrap. by rewrite Zminus_mod_idemp_l. Qed.

Lemma wrap_add_r w a b : wrap w (a + wrap w b) = wrap w (a + b).
Proof. unfold wrap. by rewrite Zplus_mod_idemp_r. Qed.

Create HintDb words.
#[export] Hint Resolve wrap_range set_bit_range clear_bit_range : words.

(** ** Alignment macros of include/lestra/types.h *)

Definition PAGE_SIZE : Z := 4096.

Definition ALIGN_UP (x align : Z) : Z := Z.land (u64 (x + align - 1)) (Z.lnot (align - 1)).
Definition ALIGN_DOWN (x align : Z) : Z := Z.land x (Z.lnot (align - 1)).

Lemma land_lnot_ones x k : 0 <= k -> Z.land x (Z.lnot (2 ^ k - 1)) = x / 2 ^ k * 2 ^ k.
Proof.
  intros Hk. replace (2 ^ k - 1) with (Z.ones k) by (rewrite Z.ones_equiv; lia).
  rewrite <- Z.ldiff_land, Z.ldiff_ones_r, Z.shiftl_mul_pow2, Z.shiftr_div_pow2 by lia.
  done.
Qed.

Lemma ALIGN_DOWN_page x : ALIGN_DOWN x PAGE_SIZE = x / PAGE_SIZE * PAGE_SIZE.
Proof. apply (land_lnot_ones x 12). lia. Qed.

Lemma ALIGN_UP_page x :
  0 <= x <= 2 ^ 64 - PAGE_SIZE -> ALIGN_UP x PAGE_SIZE = (x + 4095) / PAGE_SIZE * PAGE_SIZE.
Proof.
  unfold ALIGN_UP, PAGE_SIZE. intros Hx. rewrite wrap_small by lia.
  replace (x + 4096 - 1) with (x + 4095) by lia. apply (land_lnot_ones _ 12). lia.
Qed.

(** ** Arrays indexed by C integers

    [l.[i]] and [l.[i <- x]] are C's [l[i]] and [l[i] = x].  Outside the
    array C's behaviour is undefined; here a read gives the inhabitant and
    a write does nothing, and the components prove their indices in range. *)

Declare Scope c_scope.
Delimit Scope c_scope with C.

Section arrays.
Context {A : Type} `{Inhabited A}.
Implicit Types (l : list A) (i j : Z) (x : A).

Definition len l : Z := Z.of_nat (length l).
Definition geti l i : A := l !!! Z.to_nat i.
Definition seti l i x : list A := <[Z.to_nat i := x]> l.
Definition alti (f : A -> A) l i : list A := seti l i (f (geti l i)).

Lemma len_nonneg l : 0 <= len l.
Proof. unfold len; lia. Qed.

Lemma len_seti l i x : len (seti l i x) = len l.
Proof. unfold len, seti. by rewrite length_insert. Qed.

Lemma geti_lookup l i : 0 <= i < len l -> l !! Z.to_nat i = Some (geti l i).
Proof.
  unfold len, geti. intros Hi. apply list_lookup_lookup_total_lt. lia.
Qed.

Lemma geti_seti_eq l i x : 0 <= i < len l -> geti (seti l i x) i = x.
Proof.
  unfold len, geti, seti. intros Hi. apply list_lookup_total_insert_eq. lia.
Qed.

Lemma geti_seti_ne l i j x : 0 <= i -> 0 <= j -> i <> j -> geti (seti l i x) j = geti l j.
Proof. unfold geti, seti. intros. apply list_lookup_total_insert_ne. lia. Qed.

Lemma geti_seti l i j x :
  0 <= i -> 0 <= j -> i < len l ->
  geti (seti l i x) j = if decide (i = j) then x else geti l j.
Proof. intros. case_decide; subst; [apply geti_seti_eq|apply geti_seti_ne]; lia. Qed.

Lemma list_ext_geti l1 l2 :
  len l1 = len l2 -> (forall i, 0 <= i < len l1 -> geti l1 i = geti l2 i) -> l1 = l2.
Proof.
  intros Hl Hg. apply (list_eq_same_length _ _ (length l1)); [unfold len in Hl; lia|done|].
  intros n x y Hn Hx Hy. specialize (Hg (Z.of_nat n)).
  unfold geti, len in Hg. rewrite Nat2Z.id in Hg.
  rewrite (list_lookup_total_correct _ _ _ Hx), (list_lookup_total_correct _ _ _ Hy) in Hg.
  apply Hg. lia.
Qed.

Lemma seti_id l i : 0 <= i < len l -> seti l i (geti l i) = l.
Proof.
  intros Hi. apply list_ext_geti; rewrite len_seti; [done|].
  intros j Hj. rewrite geti_seti by lia. case_decide; by subst.
Qed.

Lemma geti_app l1 l2 i :
  0 <= i -> geti (l1 ++ l2) i = if decide (i < len l1) then geti l1 i else geti l2 (i - len l1).
Proof.
  unfold geti, len. intros Hi. case_decide.
  - rewrite lookup_total_app_l by lia. done.
  - rewrite lookup_total_app_r by lia. f_equal. lia.
Qed.

Lemma geti_replicate n x i : 0 <= i < Z.of_nat n -> geti (replicate n x) i = x.
Proof. unfold geti. intros. apply lookup_total_replicate_2. lia. Qed.
End arrays.

Notation "l .[ i ]" := (geti l i) (at level 1, left associativity, format "l .[ i ]") : c_scope.
Notation "l .[ i <- x ]" := (seti l i x)
  (at level 1, left associativity, format "l .[ i  <-  x ]") : c_scope.
Open Scope c_scope.

Create Rewrite HintDb arr.
#[export] Hint Rewrite @len_seti : arr.
#[export] Hint Rewrite @geti_seti_eq @geti_seti_ne using lia : arr.

Lemma len_app {A} (l1 l2 : list A) : len (l1 ++ l2) = len l1 + len l2.
Proof. unfold len. rewrite length_app. lia. Qed.
Lemma len_cons {A} (x : A) l : len (x :: l) = 1 + len l.
Proof. unfold len. simpl. lia. Qed.
Lemma len_nil {A} : len (@nil A) = 0.
Proof. done. Qed.

Create Rewrite HintDb lens.
#[export] Hint Rewrite @len_app @len_cons @len_nil : lens.

Lemma len_fmap {A B} (f : A -> B) l : len (f <$> l) = len l.
Proof. unfold len. by rewrite length_fmap. Qed.

Lemma geti_fmap {A B} `{Inhabited A, Inhabited B} (f : A -> B) l i : 0 <= i < len l -> (f <$> l).[i] = f l.[i].
Proof.
  intros Hi. pose proof (geti_lookup l i Hi) as E. unfold geti at 1.
  rewrite list_lookup_total_alt, list_lookup_fmap, E. done.
Qed.

(** ** Parts of arrays: memcpy *)

(** [bytes] copied over [data] from offset [pos]. *)
Definition splice {A} (data : list A) (pos : Z) (bytes : list A) : list A :=
  take (Z.to_nat pos) data ++ bytes ++ drop (Z.to_nat (pos + len bytes)) data.

Definition slice {A} (data : list A) (pos count : Z) : list A :=
  take (Z.to_nat count) (drop (Z.to_nat pos) data).

Lemma len_splice {A} (d : list A) p b : 0 <= p -> p + len b <= len d -> len (splice d p b) = len d.
Proof.
  intros Hp Hb. unfold splice, len in *. rewrite !length_app, length_take, length_drop. lia.
Qed.

Lemma geti_splice {A} `{Inhabited A} (d : list A) p b i :
  0 <= p -> 0 <= i -> p + len b <= len d ->
  (splice d p b).[i] = if decide (p <= i < p + len b) then b.[i - p] else d.[i].
Proof.
  intros Hp Hi Hb. unfold splice. unfold len in *.
  assert (len (take (Z.to_nat p) d) = p) as E by (unfold len; rewrite length_take; lia).
  rewrite geti_app by lia. rewrite E. destruct (decide (i < p)).
  { rewrite decide_False by lia. unfold geti. by rewrite lookup_total_take_lt by lia. }
  rewrite geti_app by lia. unfold len. destruct (decide (i - p < Z.of_nat (length b))).
  { by rewrite decide_True by lia. }
  rewrite decide_False by lia. unfold geti. rewrite lookup_total_drop. f_equal. lia.
Qed.

Lemma len_slice {A} (d : list A) p n : 0 <= p -> 0 <= n -> p + n <= len d -> len (slice d p n) = n.
Proof. intros. unfold slice, len in *. rewrite length_take, length_drop. lia. Qed.

Lemma geti_slice {A} `{Inhabited A} (d : list A) p n i : 0 <= p -> 0 <= i < n -> p + n <= len d -> (slice d p n).[i] = d.[p + i].
Proof.
  intros Hp Hi Hn. unfold slice, geti, len in *. rewrite lookup_total_take_lt by lia.
  rewrite lookup_total_drop. f_equal. lia.
Qed.

Lemma slice_splice {A} `{Inhabited A} (d : list A) p b : 0 <= p -> p + len b <= len d -> slice (splice d p b) p (len b) = b.
Proof.
  intros Hp Hb. apply list_ext_geti; rewrite len_slice by (try apply len_nonneg; rewrite ?len_splice; lia);
    [done|]. intros i Hi. rewrite geti_slice by (rewrite ?len_splice; lia).
  rewrite geti_splice, decide_True by lia. f_equal. lia.
Qed.

Lemma splice_nil {A} (d : list A) p : 0 <= p -> splice d p [] = d.
Proof. intros Hp. unfold splice. rewrite len_nil, Z.add_0_r. apply take_drop. Qed.

(** ** Loops

    [for_loop body n i s] is [for (; n steps; i++) s = body], where the
    body may leave the loop ([Stop]). *)

Inductive ctl (S R : Type) : Type :=
| Next (s : S)
| Stop (r : R).
Arguments Next {S R} s.
Arguments Stop {S R} r.

Section loops.
Context {S R : Type} (body : Z -> S -> ctl S R).

Fixpoint for_loop (n : nat) (i : Z) (s : S) : ctl S R :=
  match n with
  | O => Next s
  | Datatypes.S n' =>
      match body i s with
      | Next s' => for_loop n' (i + 1) s'
      | Stop r => Stop r
      end
  end.

(** The rule for loops: an invariant of the state and a postcondition of
    every way to leave the loop early. *)
Lemma for_loop_ind (I : Z -> S -> Prop) (Q : R -> Prop) n i s :
  I i s ->
  (forall j t, i <= j < i + Z.of_nat n -> I j t ->
     match body j t with Next t' => I (j + 1) t' | Stop r => Q r end) ->
  match for_loop n i s with
  | Next t => I (i + Z.of_nat n) t
  | Stop r => Q r
  end.
Proof.
  revert i s. induction n as [|n IH]; intros i s HI Hb; simpl.
  { by rewrite Z.add_0_r. }
  pose proof (Hb i s ltac:(lia) HI) as Hi.
  destruct (body i s) as [s'|r]; [|done].
  replace (i + Z.of_nat (Datatypes.S n)) with (i + 1 + Z.of_nat n) by lia.
  apply IH; [done|]. intros j t Hj. apply Hb. lia.
Qed.

Lemma for_loop_app n m i s :
  for_loop (n + m) i s =
  match for_loop n i s with
  | Next t => for_loop m (i + Z.of_nat n) t
  | Stop r => Stop r
  end.
Proof.
  revert i s. induction n as [|n IH]; intros i s; simpl.
  { by rewrite Z.add_0_r. }
  destruct (body i s) as [s'|r]; [|done]. rewrite IH.
  destruct (for_loop n (i + 1) s'); [|done]. f_equal. lia.
Qed.
End loops.

(** A loop that never leaves early. *)
Fixpoint for_each {S : Type} (body : Z -> S -> S) (n : nat) (i : Z) (s : S) : S :=
  match n with
  | O => s
  | Datatypes.S n' => for_each body n' (i + 1) (body i s)
  end.

Lemma for_each_ind {S} (body : Z -> S -> S) (I : Z -> S -> Prop) n i s :
  I i s ->
  (forall j t, i <= j < i + Z.of_nat n -> I j t -> I (j + 1) (body j t)) ->
  I (i + Z.of_nat n) (for_each body n i s).
Proof.
  revert i s. induction n as [|n IH]; intros i s HI Hb; simpl.
  { by rewrite Z.add_0_r. }
  replace (i + Z.of_nat (Datatypes.S n)) with (i + 1 + Z.of_nat n) by lia.
  apply IH; [apply Hb; [lia|done]|]. intros j t Hj. apply Hb. lia.
Qed.

(** First index in [i, i + n) whose test holds: [for (...) if (p(i)) break]. *)
Fixpoint find_from (p : Z -> bool) (n : nat) (i : Z) : option Z :=
  match n with
  | O => None
  | Datatypes.S n' => if p i then Some i else find_from p n' (i + 1)
  end.

Lemma find_from_Some p n i j :
  find_from p n i = Some j <->
  i <= j < i + Z.of_nat n /\ p j = true /\ forall k, i <= k < j -> p k = false.
Proof.
  revert i. induction n as [|n IH]; intros i; simpl.
  { split; [done|lia]. }
  destruct (p i) eqn:E.
  - split.
    + intros [= <-]. split_and!; [lia..|done|intros; lia].
    + intros (Hj & Hp & Hn). f_equal. destruct (decide (i = j)); [done|].
      rewrite Hn in E by lia. done.
  - rewrite IH. split; intros (Hj & Hp & Hn).
    + split_and!; [lia..|done|]. intros k Hk.
      destruct (decide (k = i)) as [->|]; [done|]. apply Hn. lia.
    + assert (i <> j) by congruence. split_and!; [lia..|done|]. intros; apply Hn; lia.
Qed.

Lemma find_from_None p n i :
  find_from p n i = None <-> forall k, i <= k < i + Z.of_nat n -> p k = false.
Proof.
  revert i. induction n as [|n IH]; intros i; simpl.
  { split; [intros; lia|done]. }
  destruct (p i) eqn:E.
  - split; [done|]. intros Hn. rewrite Hn in E by lia. done.
  - rewrite IH. split; intros Hn k Hk.
    + destruct (decide (k = i)) as [->|]; [done|]. apply Hn. lia.
    + apply Hn. lia.
Qed.

(** Number of [k] in [i, i + n) that satisfy a test. *)
Fixpoint count_from (p : Z -> bool) (n : nat) (i : Z) : Z :=
  match n with
  | O => 0
  | Datatypes.S n' => Z.b2z (p i) + count_from p n' (i + 1)
  end.

Lemma count_from_range p n i : 0 <= count_from p n i <= Z.of_nat n.
Proof.
  revert i. induction n as [|n IH]; intros i; simpl; [lia|].
  specialize (IH (i + 1)). destruct (p i); simpl; lia.
Qed.

Lemma count_from_zero p n i : (forall k, i <= k < i + Z.of_nat n -> p k = false) -> count_from p n i = 0.
Proof.
  revert i. induction n as [|n IH]; intros i H; simpl; [done|].
  rewrite H, IH by (try lia; intros; apply H; lia). done.
Qed.

Lemma count_from_ext p q n i :
  (forall k, i <= k < i + Z.of_nat n -> p k = q k) -> count_from p n i = count_from q n i.
Proof.
  revert i. induction n as [|n IH]; intros i H; simpl; [done|].
  rewrite H, IH; [done| |lia]. intros; apply H; lia.
Qed.

(** Changing the test at one index of the range changes the count there. *)
Lemma count_from_update p q n i j :
  i <= j < i + Z.of_nat n ->
  (forall k, i <= k < i + Z.of_nat n -> k <> j -> p k = q k) ->
  count_from q n i = count_from p n i + Z.b2z (q j) - Z.b2z (p j).
Proof.
  revert i. induction n as [|n IH]; intros i Hj H; simpl; [lia|].
  destruct (decide (i = j)) as [->|Hne].
  - rewrite (count_from_ext p q); [lia|]. intros; apply H; lia.
  - rewrite (H i), (IH (i + 1)) by (try lia; intros; apply H; lia). lia.
Qed.

Lemma count_from_pos p n i j :
  i <= j < i + Z.of_nat n -> p j = true -> 0 < count_from p n i.
Proof.
  revert i. induction n as [|n IH]; intros i Hj Hp; simpl; [lia|].
  pose proof (count_from_range p n (i + 1)).
  destruct (decide (i = j)) as [->|]; [rewrite Hp; simpl; lia|].
  pose proof (IH (i + 1) ltac:(lia) Hp). destruct (p i); simpl; lia.
Qed.
