(* ===== verification/Pmm.v ===== *)
(** * Physical page allocator: kernel/mm/pmm.c

    The bitmap of 64-bit words, the counters, the reference-count array and
    the protected ranges are the fields of [pmm]; each function of pmm.c is
    the definition of the same name. *)

From S2P Require Import Prelude.

(** ** State *)

Record mmap_entry := { mm_base : Z; mm_length : Z; mm_type : Z }.
Definition MMAP_USABLE : Z := 1.

Record pmm := mkPmm {
  bitmap : list Z;                 (* uint64_t words *)
  bitmap_size : Z;                 (* bytes *)
  total_pages : Z;
  used_pages : Z;
  highest_pfn : Z;
  phys_refcount : option (list Z); (* NULL before pmm_init *)
  refcount_size : Z;               (* bytes *)
  pmm_kernel : Z * Z;              (* [start, end) *)
  pmm_bitmap : Z * Z;
  pmm_refcount : Z * Z;
}.

Definition with_bitmap (st : pmm) (b : list Z) : pmm :=
  mkPmm b (bitmap_size st) (total_pages st) (used_pages st) (highest_pfn st)
    (phys_refcount st) (refcount_size st) (pmm_kernel st) (pmm_bitmap st) (pmm_refcount st).
Definition with_used (st : pmm) (u : Z) : pmm :=
  mkPmm (bitmap st) (bitmap_size st) (total_pages st) u (highest_pfn st)
    (phys_refcount st) (refcount_size st) (pmm_kernel st) (pmm_bitmap st) (pmm_refcount st).
Definition with_refcount (st : pmm) (rc : option (list Z)) : pmm :=
  mkPmm (bitmap st) (bitmap_size st) (total_pages st) (used_pages st) (highest_pfn st)
    rc (refcount_size st) (pmm_kernel st) (pmm_bitmap st) (pmm_refcount st).

(** ** Operations *)

Definition in_range (r : Z * Z) (phys : Z) : bool := (r.1 <=? phys) && (phys <? r.2).

Definition pmm_is_protected (st : pmm) (phys : Z) : bool :=
  in_range (pmm_kernel st) phys || in_range (pmm_bitmap st) phys
  || in_range (pmm_refcount st) phys.

Definition addr_to_pfn (addr : Z) : Z := addr / PAGE_SIZE.
Definition pfn_to_idx (pfn : Z) : Z := pfn / 64.
Definition pfn_to_bit (pfn : Z) : Z := pfn mod 64.

Definition bitmap_test (st : pmm) (pfn : Z) : bool :=
  if highest_pfn st <=? pfn then true
  else test_bit (bitmap st).[pfn_to_idx pfn] (pfn_to_bit pfn).

Definition bitmap_set (st : pmm) (pfn : Z) : pmm :=
  if highest_pfn st <=? pfn then st
  else with_bitmap st
         (alti (fun w => set_bit w (pfn_to_bit pfn)) (bitmap st) (pfn_to_idx pfn)).

Definition bitmap_clear (st : pmm) (pfn : Z) : pmm :=
  if highest_pfn st <=? pfn then st
  else with_bitmap st
         (alti (fun w => clear_bit w (pfn_to_bit pfn)) (bitmap st) (pfn_to_idx pfn)).

Definition inc_used (st : pmm) (n : Z) : pmm := with_used st (u64 (used_pages st + n)).

(** [if (phys_refcount) phys_refcount[pfn] = v] *)
Definition set_refcount (st : pmm) (pfn v : Z) : pmm :=
  match phys_refcount st with
  | Some rc => with_refcount st (Some rc.[pfn <- v])
  | None => st
  end.

(** [if (!bitmap_test(pfn)) { bitmap_set(pfn); used_pages++; }] *)
Definition mark_pfn (st : pmm) (pfn : Z) : pmm :=
  if bitmap_test st pfn then st else inc_used (bitmap_set st pfn) 1.
Definition unmark_pfn (st : pmm) (pfn : Z) : pmm :=
  if bitmap_test st pfn then inc_used (bitmap_clear st pfn) (-1) else st.

(** Iterations of [for (pfn = s; pfn < e && pfn < highest_pfn; pfn++)]. *)
Definition region_len (st : pmm) (s e : Z) : nat := Z.to_nat (Z.min e (highest_pfn st) - s).

Definition mark_region (st : pmm) (start fin : Z) : pmm :=
  if fin <=? start then st
  else
    let start_pfn := addr_to_pfn (ALIGN_DOWN start PAGE_SIZE) in
    let end_pfn := addr_to_pfn (ALIGN_UP fin PAGE_SIZE) in
    for_each (fun pfn st => mark_pfn st pfn) (region_len st start_pfn end_pfn) start_pfn st.

Definition free_region (st : pmm) (start fin : Z) : pmm :=
  if fin <=? start then st
  else
    let start_pfn := addr_to_pfn (ALIGN_DOWN start PAGE_SIZE) in
    let end_pfn := addr_to_pfn (ALIGN_UP fin PAGE_SIZE) in
    for_each (fun pfn st => unmark_pfn st pfn) (region_len st start_pfn end_pfn) start_pfn st.

Definition highest_addr_of (mmap : list mmap_entry) : Z :=
  foldl (fun hi e =>
           if (mm_type e =? MMAP_USABLE) && (hi <? u64 (mm_base e + mm_length e))
           then u64 (mm_base e + mm_length e) else hi) 0 mmap.

(** [kernel_start] and [kernel_end] are the linker symbols [__kernel_start]
    and [__kernel_end]. *)
Definition pmm_init (mmap : list mmap_entry) (kernel_start kernel_end : Z) : pmm :=
  let hp := highest_addr_of mmap / PAGE_SIZE in
  let bsize := ALIGN_UP (hp / 8) PAGE_SIZE in
  let words := replicate (Z.to_nat (bsize / 8)) (2 ^ 64 - 1) in
  let st0 := mkPmm words bsize hp hp hp None 0 (kernel_start, kernel_end) (0, 0) (0, 0) in
  let st1 := foldl (fun st e =>
                      if (mm_type e =? MMAP_USABLE) && (0 <? mm_length e)
                      then free_region st (mm_base e) (u64 (mm_base e + mm_length e))
                      else st) st0 mmap in
  let rsize := ALIGN_UP (u64 (hp * 4)) PAGE_SIZE in
  let bitmap_end := u64 (kernel_end + bsize) in
  let refcount_end := u64 (bitmap_end + rsize) in
  let st2 := mkPmm (bitmap st1) bsize hp (used_pages st1) hp
               (Some (replicate (Z.to_nat (rsize / 4)) 0)) rsize
               (kernel_start, kernel_end) (kernel_end, bitmap_end) (bitmap_end, refcount_end) in
  let kernel_phys_end := ALIGN_UP (u64 (kernel_end + bsize + rsize)) PAGE_SIZE in
  bitmap_set (mark_region st2 kernel_start kernel_phys_end) 0.

Definition pmm_mark_used (st : pmm) (phys : Z) : pmm :=
  let pfn := addr_to_pfn phys in
  if highest_pfn st <=? pfn then st else set_refcount (mark_pfn st pfn) pfn 1.

(** The inner loop of [pmm_alloc_page], over the bits of word [idx]. *)
Definition alloc_page_bit (idx bit : Z) (st : pmm) : ctl pmm (pmm * Z) :=
  let pfn := idx * 64 + bit in
  if highest_pfn st <=? pfn then Stop (st, 0)
  else if bitmap_test st pfn then Next st
  else
    let candidate := u64 (pfn * PAGE_SIZE) in
    if pmm_is_protected st candidate then Next (mark_pfn st pfn)
    else Stop (set_refcount (inc_used (bitmap_set st pfn) 1) pfn 1, candidate).

Definition alloc_page_word (idx : Z) (st : pmm) : ctl pmm (pmm * Z) :=
  if (bitmap st).[idx] =? 2 ^ 64 - 1 then Next st
  else for_loop (alloc_page_bit idx) 64 0 st.

Definition pmm_alloc_page (st : pmm) : pmm * Z :=
  match for_loop alloc_page_word (Z.to_nat (bitmap_size st / 8)) 0 st with
  | Next st' => (st', 0)
  | Stop r => r
  end.

Definition claim_run (start count : Z) (st : pmm) : pmm :=
  for_each (fun i st => set_refcount (bitmap_set st (start + i)) (start + i) 1)
    (Z.to_nat count) 0 st.

Definition alloc_pages_step (count pfn : Z) (s : pmm * Z * Z) : ctl (pmm * Z * Z) (pmm * Z) :=
  let '(st, found, start_pfn) := s in
  if bitmap_test st pfn then Next (st, 0, start_pfn)
  else
    let candidate := u64 (pfn * PAGE_SIZE) in
    if pmm_is_protected st candidate then Next (mark_pfn st pfn, 0, start_pfn)
    else
      let start_pfn := if found =? 0 then pfn else start_pfn in
      let found := found + 1 in
      if count <=? found
      then Stop (inc_used (claim_run start_pfn count st) count, u64 (start_pfn * PAGE_SIZE))
      else Next (st, found, start_pfn).

Definition pmm_alloc_pages (st : pmm) (count : Z) : pmm * Z :=
  if count =? 0 then (st, 0)
  else if count =? 1 then pmm_alloc_page st
  else if highest_pfn st <? count then (st, 0)
  else
    match for_loop (alloc_pages_step count) (Z.to_nat (highest_pfn st - 1)) 1 (st, 0, 0) with
    | Next (st', _, _) => (st', 0)
    | Stop r => r
    end.

Definition pmm_free_page (st : pmm) (addr : Z) : pmm :=
  if addr =? 0 then st
  else
    let pfn := addr_to_pfn addr in
    if (pfn <? highest_pfn st) && bitmap_test st pfn
    then set_refcount (inc_used (bitmap_clear st pfn) (-1)) pfn 0
    else st.

Definition pmm_free_pages (st : pmm) (addr count : Z) : pmm :=
  if (addr =? 0) || (count =? 0) then st
  else for_each (fun i st => pmm_free_page st (u64 (addr + i * PAGE_SIZE))) (Z.to_nat count) 0 st.

Definition pmm_get_total (st : pmm) : Z := u64 (total_pages st * PAGE_SIZE).
Definition pmm_get_used (st : pmm) : Z := u64 (used_pages st * PAGE_SIZE).
Definition pmm_get_free (st : pmm) : Z := u64 ((total_pages st - used_pages st) * PAGE_SIZE).

Definition pmm_reserve_region (st : pmm) (start fin : Z) : pmm := mark_region st start fin.

Definition pmm_refcount_inc (st : pmm) (addr : Z) : pmm :=
  match phys_refcount st with
  | None => st
  | Some rc =>
      if addr =? 0 then st
      else
        let pfn := addr_to_pfn addr in
        if pfn <? highest_pfn st
        then with_refcount st (Some (alti (fun c => u32 (c + 1)) rc pfn)) else st
  end.

Definition pmm_refcount_dec (st : pmm) (addr : Z) : pmm * Z :=
  match phys_refcount st with
  | None => (st, 0)
  | Some rc =>
      if addr =? 0 then (st, 0)
      else
        let pfn := addr_to_pfn addr in
        if (pfn <? highest_pfn st) && (0 <? rc.[pfn])
        then (with_refcount st (Some rc.[pfn <- rc.[pfn] - 1]), rc.[pfn] - 1)
        else (st, 0)
  end.

Definition pmm_refcount_get (st : pmm) (addr : Z) : Z :=
  match phys_refcount st with
  | None => 0
  | Some rc =>
      if addr =? 0 then 0
      else
        let pfn := addr_to_pfn addr in
        if pfn <? highest_pfn st then rc.[pfn] else 0
  end.

(** ** Well-formedness *)

Record pmm_wf (st : pmm) : Prop := {
  wf_hp : 0 <= highest_pfn st < 2 ^ 52;
  wf_cover : highest_pfn st <= 64 * len (bitmap st);
  wf_size : len (bitmap st) = bitmap_size st / 8;
  wf_words : forall i, 0 <= i < len (bitmap st) -> 0 <= (bitmap st).[i] < 2 ^ 64;
  wf_total : total_pages st = highest_pfn st;
  wf_used : 0 <= used_pages st < 2 ^ 64;
  wf_rc : forall rc, phys_refcount st = Some rc -> highest_pfn st <= len rc;
}.

(** Fields no operation changes after [pmm_init]. *)
Record same_layout (st st' : pmm) : Prop := {
  sl_hp : highest_pfn st' = highest_pfn st;
  sl_size : bitmap_size st' = bitmap_size st;
  sl_total : total_pages st' = total_pages st;
  sl_rsize : refcount_size st' = refcount_size st;
  sl_kernel : pmm_kernel st' = pmm_kernel st;
  sl_bitmap : pmm_bitmap st' = pmm_bitmap st;
  sl_refcount : pmm_refcount st' = pmm_refcount st;
}.

#[export] Instance same_layout_preorder : PreOrder same_layout.
Proof.
  split; [by constructor|].
  intros a b c [] []; constructor; congruence.
Qed.

Lemma same_layout_protected st st' phys :
  same_layout st st' -> pmm_is_protected st' phys = pmm_is_protected st phys.
Proof. intros []. unfold pmm_is_protected. congruence. Qed.

Lemma pfn_split p : 0 <= p -> p = 64 * pfn_to_idx p + pfn_to_bit p /\ 0 <= pfn_to_bit p < 64 /\ 0 <= pfn_to_idx p.
Proof. unfold pfn_to_idx, pfn_to_bit. intros. zlia. Qed.

Lemma pfn_idx_range st p :
  pmm_wf st -> 0 <= p < highest_pfn st -> 0 <= pfn_to_idx p < len (bitmap st).
Proof. intros [] Hp. unfold pfn_to_idx. zlia. Qed.

(** The word at the page's index with the page's bit changed by [f]. *)
Lemma update_word_test st f b p q :
  pmm_wf st -> 0 <= p < highest_pfn st -> 0 <= q < highest_pfn st ->
  (forall w m, 0 <= m -> Z.testbit (f w (pfn_to_bit p)) m =
                         if decide (pfn_to_bit p = m) then b else Z.testbit w m) ->
  bitmap_test (with_bitmap st (alti (fun w => f w (pfn_to_bit p)) (bitmap st) (pfn_to_idx p))) q
  = if decide (p = q) then b else bitmap_test st q.
Proof.
  intros Hwf Hp Hq Hf. unfold bitmap_test, alti. simpl.
  rewrite (proj2 (Z.leb_gt _ _)) by lia.
  pose proof (pfn_split p) as (Ep & Bp & Ip); [lia|].
  pose proof (pfn_split q) as (Eq & Bq & Iq); [lia|].
  pose proof (pfn_idx_range st p Hwf Hp). pose proof (pfn_idx_range st q Hwf Hq).
  rewrite !test_bit_testbit by lia. rewrite geti_seti by lia.
  destruct (decide (p = q)) as [->|Hne].
  - rewrite decide_True by done. rewrite Hf by lia. by rewrite decide_True.
  - case_decide as Hi; [|done]. rewrite Hf by lia.
    rewrite decide_False by lia. by rewrite <- Hi.
Qed.

Lemma bitmap_test_set st p q :
  pmm_wf st -> 0 <= p < highest_pfn st -> 0 <= q < highest_pfn st ->
  bitmap_test (bitmap_set st p) q = if decide (p = q) then true else bitmap_test st q.
Proof.
  intros Hwf Hp Hq. unfold bitmap_set. rewrite (proj2 (Z.leb_gt _ _)) by lia.
  apply (update_word_test st set_bit); [done..|]. intros w m Hm.
  pose proof (pfn_split p) as (? & ? & ?); [lia|].
  rewrite set_bit_spec by lia. case_decide; case_bool_decide; try done; by rewrite ?orb_true_r, ?orb_false_r.
Qed.

Lemma bitmap_test_clear st p q :
  pmm_wf st -> 0 <= p < highest_pfn st -> 0 <= q < highest_pfn st ->
  bitmap_test (bitmap_clear st p) q = if decide (p = q) then false else bitmap_test st q.
Proof.
  intros Hwf Hp Hq. unfold bitmap_clear. rewrite (proj2 (Z.leb_gt _ _)) by lia.
  apply (update_word_test st clear_bit); [done..|]. intros w m Hm.
  pose proof (pfn_split p) as (? & ? & ?); [lia|].
  rewrite clear_bit_spec by lia. case_decide; case_bool_decide; try done; by rewrite ?andb_true_r, ?andb_false_r.
Qed.

Lemma bitmap_test_out st p : highest_pfn st <= p -> bitmap_test st p = true.
Proof. intros. unfold bitmap_test. by rewrite (proj2 (Z.leb_le _ _)). Qed.

Lemma bitmap_test_free_lt st p : bitmap_test st p = false -> p < highest_pfn st.
Proof.
  intros H. destruct (decide (p < highest_pfn st)); [done|].
  rewrite bitmap_test_out in H by lia. done.
Qed.

(** A write of a word that stays a 64-bit word keeps the state well-formed. *)
Lemma with_bitmap_wf st f i :
  pmm_wf st -> 0 <= i ->
  (forall w, 0 <= w < 2 ^ 64 -> 0 <= f w < 2 ^ 64) ->
  pmm_wf (with_bitmap st (alti f (bitmap st) i)).
Proof.
  intros [] Hi Hf. unfold alti. constructor; simpl; autorewrite with arr; try done.
  intros j Hj. destruct (decide (i = j)) as [->|].
  - rewrite geti_seti_eq by done. by apply Hf, wf_words0.
  - rewrite geti_seti_ne by lia. by apply wf_words0.
Qed.

Lemma bitmap_set_wf st p : pmm_wf st -> 0 <= p -> pmm_wf (bitmap_set st p).
Proof.
  intros Hwf Hp. unfold bitmap_set. case_match; [done|].
  pose proof (pfn_split p Hp) as (? & ? & ?).
  apply with_bitmap_wf; [done|lia|]. intros. apply set_bit_range; lia.
Qed.

Lemma bitmap_clear_wf st p : pmm_wf st -> 0 <= p -> pmm_wf (bitmap_clear st p).
Proof.
  intros Hwf Hp. unfold bitmap_clear. case_match; [done|].
  pose proof (pfn_split p Hp) as (? & ? & ?).
  apply with_bitmap_wf; [done|lia|]. intros. apply clear_bit_range; lia.
Qed.

Lemma inc_used_wf st n : pmm_wf st -> pmm_wf (inc_used st n).
Proof. intros []. constructor; simpl; try done. apply wrap_range. lia. Qed.

Lemma set_refcount_wf st p v : pmm_wf st -> pmm_wf (set_refcount st p v).
Proof.
  intros Hwf. unfold set_refcount. destruct (phys_refcount st) as [rc|] eqn:E; [|done].
  destruct Hwf. constructor; simpl; try done. intros rc' [= <-]. autorewrite with arr. eauto.
Qed.

(** ** Accounting

    [n_used] counts the set bits below [highest_pfn]; [drift] is what the
    counter [used_pages] differs from it by. *)

Definition n_used (st : pmm) : Z := count_from (bitmap_test st) (Z.to_nat (highest_pfn st)) 0.
Definition drift (st : pmm) : Z := u64 (used_pages st - n_used st).

Lemma n_used_update st st' p b :
  pmm_wf st -> highest_pfn st' = highest_pfn st -> 0 <= p < highest_pfn st ->
  (forall q, 0 <= q < highest_pfn st ->
     bitmap_test st' q = if decide (p = q) then b else bitmap_test st q) ->
  n_used st' = n_used st + Z.b2z b - Z.b2z (bitmap_test st p).
Proof.
  intros [] Hh Hp Ht. unfold n_used. rewrite Hh.
  rewrite (count_from_update (bitmap_test st) _ _ _ p) by
    (try lia; intros k Hk Hne; rewrite Ht by lia; by rewrite decide_False by done).
  rewrite Ht by lia. by rewrite decide_True.
Qed.

(** [marks P st st']: [st'] is [st] with exactly the pages of [P] marked used
    as well, and the counter moved along. *)
Record marks (P : Z -> bool) (st st' : pmm) : Prop := {
  mk_wf : pmm_wf st';
  mk_layout : same_layout st st';
  mk_test : forall q, 0 <= q < highest_pfn st -> bitmap_test st' q = bitmap_test st q || P q;
  mk_drift : drift st' = drift st;
  mk_rc : phys_refcount st' = phys_refcount st;
}.

Lemma marks_ext P Q st st' :
  (forall q, 0 <= q < highest_pfn st -> bitmap_test st q || P q = bitmap_test st q || Q q) ->
  marks P st st' -> marks Q st st'.
Proof. intros E []. constructor; try done. intros q Hq. rewrite <- E by done. auto. Qed.

Lemma marks_refl st : pmm_wf st -> marks (fun _ => false) st st.
Proof. intros. constructor; try done. intros. by rewrite orb_false_r. Qed.

Lemma marks_trans P Q st st1 st2 :
  marks P st st1 -> marks Q st1 st2 -> marks (fun q => P q || Q q) st st2.
Proof.
  intros [] []. constructor; try done; [by etrans| |congruence|congruence].
  intros q Hq. pose proof (sl_hp _ _ mk_layout0).
  rewrite mk_test1, mk_test0 by lia. by rewrite orb_assoc.
Qed.

Lemma bitmap_set_layout st p : same_layout st (bitmap_set st p).
Proof. unfold bitmap_set. case_match; by constructor. Qed.
Lemma bitmap_clear_layout st p : same_layout st (bitmap_clear st p).
Proof. unfold bitmap_clear. case_match; by constructor. Qed.
Lemma inc_used_layout st n : same_layout st (inc_used st n).
Proof. by constructor. Qed.
Lemma set_refcount_layout st p v : same_layout st (set_refcount st p v).
Proof. unfold set_refcount. case_match; by constructor. Qed.

Lemma inc_used_test st n q : bitmap_test (inc_used st n) q = bitmap_test st q.
Proof. done. Qed.
Lemma set_refcount_test st p v q : bitmap_test (set_refcount st p v) q = bitmap_test st q.
Proof. unfold set_refcount. by case_match. Qed.
Lemma set_refcount_rc st p v :
  phys_refcount (set_refcount st p v) = (fun rc => rc.[p <- v]) <$> phys_refcount st.
Proof. unfold set_refcount. by destruct (phys_refcount st) eqn:E; simpl; rewrite ?E. Qed.
Lemma set_refcount_used st p v : used_pages (set_refcount st p v) = used_pages st.
Proof. unfold set_refcount. by case_match. Qed.
Lemma set_refcount_hp st p v : highest_pfn (set_refcount st p v) = highest_pfn st.
Proof. unfold set_refcount. by case_match. Qed.

Create HintDb pmm.
#[export] Hint Resolve bitmap_set_wf bitmap_clear_wf inc_used_wf set_refcount_wf
  bitmap_set_layout bitmap_clear_layout inc_used_layout set_refcount_layout : pmm.

Lemma set_refcount_drift st p v : drift (set_refcount st p v) = drift st.
Proof.
  unfold drift, n_used. rewrite set_refcount_used, set_refcount_hp.
  do 2 f_equal. apply count_from_ext. intros. apply set_refcount_test.
Qed.

Lemma bitmap_set_rc st p : phys_refcount (bitmap_set st p) = phys_refcount st.
Proof. unfold bitmap_set. by case_match. Qed.
Lemma bitmap_clear_rc st p : phys_refcount (bitmap_clear st p) = phys_refcount st.
Proof. unfold bitmap_clear. by case_match. Qed.
Lemma bitmap_set_used st p : used_pages (bitmap_set st p) = used_pages st.
Proof. unfold bitmap_set. by case_match. Qed.
Lemma bitmap_clear_used st p : used_pages (bitmap_clear st p) = used_pages st.
Proof. unfold bitmap_clear. by case_match. Qed.

Lemma drift_move st st' d :
  used_pages st' = u64 (used_pages st + d) -> n_used st' = n_used st + d -> drift st' = drift st.
Proof. unfold drift. intros -> ->. rewrite wrap_sub_l. f_equal. lia. Qed.

(** Marking a free page, and freeing a used one. *)
Lemma set_free_marks st p :
  pmm_wf st -> 0 <= p -> bitmap_test st p = false ->
  marks (Z.eqb p) st (inc_used (bitmap_set st p) 1).
Proof.
  intros Hwf Hp Hf. pose proof (bitmap_test_free_lt st p Hf).
  assert (forall q, 0 <= q < highest_pfn st ->
            bitmap_test (inc_used (bitmap_set st p) 1) q
            = if decide (p = q) then true else bitmap_test st q) as Ht
    by (intros; rewrite inc_used_test; apply bitmap_test_set; done || lia).
  constructor.
  - auto with pmm.
  - by etrans; [|apply inc_used_layout]; auto with pmm.
  - intros q Hq. rewrite Ht by done. case_decide.
    + subst. by rewrite Z.eqb_refl, orb_true_r.
    + by rewrite (proj2 (Z.eqb_neq p q)), orb_false_r.
  - apply drift_move with 1; [by simpl; rewrite bitmap_set_used|].
    rewrite (n_used_update st _ p true); try done; [|apply bitmap_set_layout].
    rewrite Hf. simpl. lia.
  - simpl. apply bitmap_set_rc.
Qed.

Lemma mark_pfn_marks st p : pmm_wf st -> 0 <= p -> marks (Z.eqb p) st (mark_pfn st p).
Proof.
  intros Hwf Hp. unfold mark_pfn. destruct (bitmap_test st p) eqn:E.
  - eapply marks_ext, marks_refl; [|done]. intros q Hq. rewrite orb_false_r.
    destruct (Z.eqb_spec p q); [subst; by rewrite E|by rewrite orb_false_r].
  - by apply set_free_marks.
Qed.

Lemma mark_region_marks st s e :
  pmm_wf st -> 0 <= s -> s < e ->
  marks (fun q => (s / PAGE_SIZE <=? q) && (q <? addr_to_pfn (ALIGN_UP e PAGE_SIZE))) st
    (mark_region st s e).
Proof.
  intros Hwf Hs He. unfold mark_region. rewrite (proj2 (Z.leb_gt _ _)) by lia.
  set (b := addr_to_pfn (ALIGN_UP e PAGE_SIZE)). unfold addr_to_pfn. rewrite ALIGN_DOWN_page.
  unfold PAGE_SIZE. rewrite Z.div_mul by lia.
  set (a := s / 4096). assert (0 <= a) by (subst a; zlia).
  pose proof (for_each_ind (fun pfn st => mark_pfn st pfn)
    (fun j t => marks (fun q => (a <=? q) && (q <? j)) st t) (region_len st a b) a st) as L.
  simpl in L. eapply marks_ext, L; clear L.
  - intros q Hq. unfold region_len. destruct (bitmap_test st q); [done|]. simpl. blia.
  - eapply marks_ext, marks_refl; [|done]. intros q Hq. f_equal. blia.
  - intros j t Hj Ht. pose proof (mk_wf _ _ _ Ht).
    eapply marks_ext, marks_trans; [|apply Ht|apply mark_pfn_marks; [done|lia]].
    intros q Hq. f_equal. blia.
Qed.

(** Freeing: [unmarks P st st'] is the counterpart of [marks]. *)
Record unmarks (P : Z -> bool) (st st' : pmm) : Prop := {
  um_wf : pmm_wf st';
  um_layout : same_layout st st';
  um_test : forall q, 0 <= q < highest_pfn st -> bitmap_test st' q = bitmap_test st q && negb (P q);
  um_drift : drift st' = drift st;
  um_rc : phys_refcount st' = phys_refcount st;
}.

Lemma unmarks_ext P Q st st' :
  (forall q, 0 <= q < highest_pfn st -> P q = Q q) -> unmarks P st st' -> unmarks Q st st'.
Proof. intros E []. constructor; try done. intros q Hq. rewrite <- E by done. auto. Qed.

Lemma unmarks_refl st : pmm_wf st -> unmarks (fun _ => false) st st.
Proof. intros. constructor; try done. intros. by rewrite andb_true_r. Qed.

Lemma unmarks_trans P Q st st1 st2 :
  unmarks P st st1 -> unmarks Q st1 st2 -> unmarks (fun q => P q || Q q) st st2.
Proof.
  intros [? L1 T1 ? ?] [? L2 T2 ? ?]. constructor; try done; [by etrans| |congruence|congruence].
  intros q Hq. pose proof (sl_hp _ _ L1).
  rewrite T2, T1 by lia. by rewrite negb_orb, andb_assoc.
Qed.

Lemma clear_used_unmarks st p :
  pmm_wf st -> 0 <= p < highest_pfn st -> bitmap_test st p = true ->
  unmarks (Z.eqb p) st (inc_used (bitmap_clear st p) (-1)).
Proof.
  intros Hwf Hp Hf.
  assert (forall q, 0 <= q < highest_pfn st ->
            bitmap_test (inc_used (bitmap_clear st p) (-1)) q
            = if decide (p = q) then false else bitmap_test st q) as Ht
    by (intros; rewrite inc_used_test; apply bitmap_test_clear; done || lia).
  constructor.
  - apply inc_used_wf, bitmap_clear_wf; done || lia.
  - by etrans; [|apply inc_used_layout]; auto with pmm.
  - intros q Hq. rewrite Ht by done. case_decide.
    + subst. by rewrite Z.eqb_refl, andb_false_r.
    + by rewrite (proj2 (Z.eqb_neq p q)), andb_true_r.
  - apply drift_move with (-1); [by simpl; rewrite bitmap_clear_used|].
    rewrite (n_used_update st _ p false); try done; [|apply bitmap_clear_layout].
    rewrite Hf. simpl. lia.
  - simpl. apply bitmap_clear_rc.
Qed.

Lemma unmark_pfn_unmarks st p :
  pmm_wf st -> 0 <= p < highest_pfn st -> unmarks (Z.eqb p) st (unmark_pfn st p).
Proof.
  intros Hwf Hp. unfold unmark_pfn. destruct (bitmap_test st p) eqn:E.
  - by apply clear_used_unmarks.
  - constructor; try done. intros q Hq. destruct (Z.eqb_spec p q); [by subst; rewrite E|].
    by rewrite andb_true_r.
Qed.

Lemma free_region_unmarks st s e :
  pmm_wf st -> 0 <= s -> s < e ->
  unmarks (fun q => (s / PAGE_SIZE <=? q) && (q <? addr_to_pfn (ALIGN_UP e PAGE_SIZE))) st
    (free_region st s e).
Proof.
  intros Hwf Hs He. unfold free_region. rewrite (proj2 (Z.leb_gt _ _)) by lia.
  set (b := addr_to_pfn (ALIGN_UP e PAGE_SIZE)). unfold addr_to_pfn. rewrite ALIGN_DOWN_page.
  unfold PAGE_SIZE. rewrite Z.div_mul by lia.
  set (a := s / 4096). assert (0 <= a) by (subst a; zlia).
  pose proof (for_each_ind (fun pfn st => unmark_pfn st pfn)
    (fun j t => unmarks (fun q => (a <=? q) && (q <? j)) st t) (region_len st a b) a st) as L.
  simpl in L. eapply unmarks_ext, L; clear L.
  - intros q Hq. unfold region_len. blia.
  - eapply unmarks_ext, unmarks_refl; [|done]. intros q Hq. symmetry. blia.
  - intros j t Hj Ht. pose proof (um_wf _ _ _ Ht). pose proof (sl_hp _ _ (um_layout _ _ _ Ht)).
    unfold region_len in Hj.
    eapply unmarks_ext, unmarks_trans; [|apply Ht|apply unmark_pfn_unmarks; [done|lia]].
    intros q Hq. blia.
Qed.

(** ** Allocation of one page *)

Definition pfn_protected (st : pmm) (p : Z) : bool := pmm_is_protected st (p * PAGE_SIZE).

(** The pages below [n] were looked at: none was available, and the free ones
    among them, all protected, are marked used. *)
Record scanned (st : pmm) (n : Z) (t : pmm) : Prop := {
  sc_marks : marks (fun q => pfn_protected st q && (q <? n)) st t;
  sc_none : forall q, 0 <= q < n -> q < highest_pfn st -> bitmap_test st q || pfn_protected st q = true;
}.

(** What an allocation that finds page [p] does to the state. *)
Record claimed (st : pmm) (p : Z) (st' : pmm) : Prop := {
  cl_wf : pmm_wf st';
  cl_layout : same_layout st st';
  cl_range : 0 <= p < highest_pfn st;
  cl_free : bitmap_test st p = false;
  cl_unprotected : pfn_protected st p = false;
  cl_first : forall q, 0 <= q < p -> bitmap_test st q || pfn_protected st q = true;
  cl_test : forall q, 0 <= q < highest_pfn st ->
    bitmap_test st' q = bitmap_test st q || (p =? q) || (pfn_protected st q && (q <? p));
  cl_drift : drift st' = drift st;
  cl_rc : phys_refcount st' = (fun rc => rc.[p <- 1]) <$> phys_refcount st;
}.

Definition alloc_post (st : pmm) (r : pmm * Z) : Prop :=
  (exists p, r.2 = p * PAGE_SIZE /\ claimed st p r.1) \/ (r.2 = 0 /\ scanned st (highest_pfn st) r.1).

Lemma scanned_test st n t q :
  scanned st n t -> n <= q < highest_pfn st -> 0 <= q -> bitmap_test t q = bitmap_test st q.
Proof.
  intros Hs Hq H0. rewrite (mk_test _ _ _ (sc_marks _ _ _ Hs)) by lia.
  rewrite (proj2 (Z.ltb_ge q n)) by lia. by rewrite andb_false_r, orb_false_r.
Qed.

(** Stepping over a page that is not available. *)
Lemma scanned_step st n t t' :
  scanned st n t -> 0 <= n ->
  (n < highest_pfn st -> bitmap_test st n || pfn_protected st n = true) ->
  marks (fun q => pfn_protected st q && (n =? q)) t t' ->
  scanned st (n + 1) t'.
Proof.
  intros [Hm Hn] H0 Hb Ht. constructor.
  - eapply marks_ext, marks_trans, Ht; [|exact Hm]. intros q Hq. f_equal.
    destruct (pfn_protected st q); [simpl|done]. blia.
  - intros q Hq ?. destruct (decide (q = n)) as [->|]; [auto|apply Hn; lia].
Qed.

Lemma scanned_all st n m t :
  scanned st n t -> 0 <= n <= m ->
  (forall q, n <= q < m -> q < highest_pfn st -> bitmap_test st q = true) -> scanned st m t.
Proof.
  intros [Hm Hn] Hnm Hall. constructor.
  - eapply marks_ext, Hm. intros q Hq. destruct (bitmap_test st q) eqn:E; [done|].
    assert (~ (n <= q < m)) by (intros Hr; rewrite Hall in E by lia; done).
    destruct (pfn_protected st q); [simpl; blia|done].
  - intros q Hq ?. destruct (decide (q < n)); [apply Hn; lia|]. rewrite Hall by lia. done.
Qed.

Lemma pfn_addr st p : pmm_wf st -> 0 <= p < highest_pfn st -> u64 (p * PAGE_SIZE) = p * PAGE_SIZE.
Proof. intros [] Hp. apply wrap_small. unfold PAGE_SIZE. lia. Qed.

Lemma alloc_page_bit_spec st idx bit t :
  pmm_wf st -> 0 <= idx -> 0 <= bit < 64 -> scanned st (idx * 64 + bit) t ->
  match alloc_page_bit idx bit t with
  | Next t' => scanned st (idx * 64 + (bit + 1)) t'
  | Stop r => alloc_post st r
  end.
Proof.
  intros Hwf Hi Hb Hs. unfold alloc_page_bit. set (p := idx * 64 + bit) in *.
  replace (idx * 64 + (bit + 1)) with (p + 1) by lia. assert (0 <= p) by lia.
  pose proof (sc_marks _ _ _ Hs) as Hm. pose proof (mk_layout _ _ _ Hm) as Hl.
  pose proof (mk_wf _ _ _ Hm) as Hwt.
  destruct (Z.leb_spec (highest_pfn t) p) as [Hhp|Hhp]; rewrite (sl_hp _ _ Hl) in Hhp.
  { right. split; [done|]. constructor; [eapply marks_ext, Hm|].
    - intros q Hq. do 2 f_equal. blia.
    - intros q Hq _. apply (sc_none _ _ _ Hs); lia. }
  assert (bitmap_test t p = bitmap_test st p) as Htp by (eapply scanned_test; [done|lia..]).
  destruct (bitmap_test t p) eqn:E.
  { apply (scanned_all st p); [done|lia|]. intros q Hq _.
    by replace q with p by lia. }
  rewrite (pfn_addr st), (same_layout_protected st t) by (done || lia).
  fold (pfn_protected st p). destruct (pfn_protected st p) eqn:Epr.
  - eapply scanned_step; [done..|intros; by rewrite Epr, orb_true_r|].
    eapply marks_ext, mark_pfn_marks; [|done..].
    intros q _. f_equal. destruct (Z.eqb_spec p q); [by subst; rewrite Epr|by rewrite andb_false_r].
  - left. exists p. split; [done|].
    destruct (set_free_marks t p Hwt) as [? ? Ht Hd Hr]; [lia|done|].
    constructor; simpl; auto with pmm lia.
    + etrans; [exact Hl|]. etrans; [|apply set_refcount_layout]. done.
    + intros q Hq. apply (sc_none _ _ _ Hs); lia.
    + intros q Hq. pose proof (sl_hp _ _ Hl). rewrite set_refcount_test, Ht by lia.
      rewrite (mk_test _ _ _ Hm) by done.
      rewrite <- !orb_assoc. f_equal. apply orb_comm.
    + by rewrite set_refcount_drift, Hd, (mk_drift _ _ _ Hm).
    + by rewrite set_refcount_rc, Hr, (mk_rc _ _ _ Hm).
Qed.

Lemma alloc_page_word_spec st idx t :
  pmm_wf st -> 0 <= idx < len (bitmap st) -> scanned st (idx * 64) t ->
  match alloc_page_word idx t with
  | Next t' => scanned st ((idx + 1) * 64) t'
  | Stop r => alloc_post st r
  end.
Proof.
  intros Hwf Hi Hs. unfold alloc_page_word. destruct (_ =? _) eqn:E.
  - apply (scanned_all st (idx * 64)); [done|lia|]. intros q Hq Hh.
    rewrite <- (scanned_test st (idx * 64) t q Hs) by lia.
    pose proof (sc_marks _ _ _ Hs) as Hm. pose proof (sl_hp _ _ (mk_layout _ _ _ Hm)).
    unfold bitmap_test. rewrite (proj2 (Z.leb_gt _ _)) by lia.
    apply Z.eqb_eq in E. replace (pfn_to_idx q) with idx by (unfold pfn_to_idx; zlia).
    pose proof (pfn_split q) as (? & ? & ?); [lia|].
    rewrite test_bit_testbit, E by lia.
    change (2 ^ 64 - 1) with (Z.ones 64). apply Z.ones_spec_low. lia.
  - pose proof (for_loop_ind (alloc_page_bit idx) (fun b t => scanned st (idx * 64 + b) t)
      (alloc_post st) 64 0 t) as L.
    replace ((idx + 1) * 64) with (idx * 64 + (0 + Z.of_nat 64)) by lia.
    apply L; clear L; [by rewrite Z.add_0_r|]. intros b u Hb Hu.
    by apply alloc_page_bit_spec; [|lia..|].
Qed.

Lemma pmm_alloc_page_post st : pmm_wf st -> alloc_post st (pmm_alloc_page st).
Proof.
  intros Hwf. unfold pmm_alloc_page.
  pose proof (for_loop_ind alloc_page_word (fun i t => scanned st (i * 64) t)
    (alloc_post st) (Z.to_nat (bitmap_size st / 8)) 0 st) as L.
  rewrite <- (wf_size st Hwf) in *. pose proof (len_nonneg (bitmap st)).
  assert (scanned st 0 st) as H0.
  { constructor; [|lia]. eapply marks_ext, marks_refl; [|done]. intros q Hq.
    rewrite (proj2 (Z.ltb_ge _ _)) by lia. by rewrite andb_false_r. }
  ospecialize (L H0 _).
  { intros i u Hi Hu. apply alloc_page_word_spec; [done|lia|done]. }
  destruct (for_loop _ _ _ _) as [t|r]; [|done]. right. split; [done|]. simpl.
  destruct L as [Hm Hn]. pose proof (wf_cover st Hwf). constructor.
  - eapply marks_ext, Hm. intros q Hq. do 2 f_equal. blia.
  - intros q Hq _. apply Hn; lia.
Qed.

(** ** Allocation of a contiguous run *)

Definition in_run (s n q : Z) : bool := (s <=? q) && (q <? s + n).

(** The reference counts of the run set to 1, the others kept. *)
Definition rc_run (s n : Z) (st st' : pmm) : Prop :=
  match phys_refcount st, phys_refcount st' with
  | Some rc, Some rc' =>
      len rc' = len rc /\
      forall q, 0 <= q < len rc -> rc'.[q] = if in_run s n q then 1 else rc.[q]
  | None, None => True
  | _, _ => False
  end.

Record run_claimed (st : pmm) (s n : Z) (st' : pmm) : Prop := {
  rn_wf : pmm_wf st';
  rn_layout : same_layout st st';
  rn_test : forall q, 0 <= q < highest_pfn st -> bitmap_test st' q = bitmap_test st q || in_run s n q;
  rn_count : n_used st' = n_used st + n;
  rn_used : used_pages st' = used_pages st;
  rn_rc : rc_run s n st st';
}.

Lemma run_claimed_nil st s : pmm_wf st -> run_claimed st s 0 st.
Proof.
  intros Hwf. constructor; try done; [| lia|].
  - intros q _. unfold in_run. destruct (bitmap_test st q); [done|]. simpl. blia.
  - unfold rc_run. destruct (phys_refcount st); [|done]. split; [done|].
    intros q _. unfold in_run. replace (_ && _) with false; [done|]. symmetry. blia.
Qed.

Lemma rc_run_set st t s n :
  pmm_wf st -> 0 <= s -> 0 <= n -> s + n < highest_pfn st -> rc_run s n st t ->
  rc_run s (n + 1) st (set_refcount (bitmap_set t (s + n)) (s + n) 1).
Proof.
  intros Hwf Hs Hn Hh. unfold rc_run. rewrite set_refcount_rc, bitmap_set_rc.
  destruct (phys_refcount st) as [rc|] eqn:E, (phys_refcount t) as [rc'|]; try done; simpl.
  intros [Hl Hq]. pose proof (wf_rc st Hwf rc E). rewrite len_seti. split; [done|].
  intros q Hr. rewrite geti_seti by lia. case_decide.
  - subst. replace (in_run s (n + 1) (s + n)) with true; [done|]. unfold in_run. symmetry. blia.
  - rewrite Hq by done. replace (in_run s (n + 1) q) with (in_run s n q); [done|]. unfold in_run. blia.
Qed.

Lemma run_claimed_step st t s n :
  pmm_wf st -> 0 <= s -> 0 <= n -> s + n < highest_pfn st ->
  bitmap_test st (s + n) = false -> run_claimed st s n t ->
  run_claimed st s (n + 1) (set_refcount (bitmap_set t (s + n)) (s + n) 1).
Proof.
  intros Hwf Hs Hn Hh Hf [Hwt Hl Ht Hc Hu Hr]. pose proof (sl_hp _ _ Hl).
  assert (forall q, 0 <= q < highest_pfn st ->
    bitmap_test (set_refcount (bitmap_set t (s + n)) (s + n) 1) q
    = if decide (s + n = q) then true else bitmap_test t q) as Ht'.
  { intros q Hq. rewrite set_refcount_test. apply bitmap_test_set; done || lia. }
  constructor.
  - apply set_refcount_wf, bitmap_set_wf; done || lia.
  - etrans; [exact Hl|]. etrans; [apply bitmap_set_layout|apply set_refcount_layout].
  - intros q Hq. rewrite Ht', Ht by done. case_decide.
    + subst. unfold in_run. destruct (bitmap_test st (s + n)); [done|]. simpl. blia.
    + f_equal. unfold in_run. blia.
  - rewrite (n_used_update t _ (s + n) true), Hc; [|done| |lia|intros; apply Ht'; lia].
    + rewrite Ht, Hf by lia. replace (in_run s n (s + n)) with false; [simpl; lia|].
      unfold in_run. symmetry. blia.
    + by rewrite set_refcount_hp, (sl_hp _ _ (bitmap_set_layout _ _)).
  - by rewrite set_refcount_used, bitmap_set_used.
  - by apply rc_run_set.
Qed.

Lemma claim_run_spec st s n :
  pmm_wf st -> 0 <= s -> 0 <= n -> s + n <= highest_pfn st ->
  (forall q, s <= q < s + n -> bitmap_test st q = false) ->
  run_claimed st s n (claim_run s n st).
Proof.
  intros Hwf Hs Hn Hh Hf. unfold claim_run.
  pose proof (for_each_ind
    (fun i st => set_refcount (bitmap_set st (s + i)) (s + i) 1)
    (fun j t => run_claimed st s j t) (Z.to_nat n) 0 st) as L.
  replace (0 + Z.of_nat (Z.to_nat n)) with n in L by lia. apply L.
  - by apply run_claimed_nil.
  - intros j t Hj Ht. apply run_claimed_step; [done|lia..|apply Hf; lia|done].
Qed.

(** The state of the scan for a run of [count] pages, at page [p]. *)
Record scanning (st : pmm) (count p : Z) (s : pmm * Z * Z) : Prop := {
  sg_marks : marks (fun q => pfn_protected st q && in_run 1 (p - 1) q) st s.1.1;
  sg_found : 0 <= s.1.2 < count;
  sg_start : s.1.2 = 0 \/ (s.2 = p - s.1.2 /\ 1 <= s.2);
  sg_run : forall q, p - s.1.2 <= q < p -> bitmap_test st q || pfn_protected st q = false;
  sg_edge : p - s.1.2 = 1 \/
            (1 < p - s.1.2 /\ bitmap_test st (p - s.1.2 - 1) || pfn_protected st (p - s.1.2 - 1) = true);
  sg_none : forall a, 1 <= a -> a + count <= p ->
    exists q, a <= q < a + count /\ bitmap_test st q || pfn_protected st q = true;
}.

(** Outcome of [pmm_alloc_pages] for two pages or more. *)
Definition alloc_run_post (st : pmm) (count : Z) (r : pmm * Z) : Prop :=
  (exists s t, r.2 = s * PAGE_SIZE /\ 1 <= s /\ s + count <= highest_pfn st /\
     (forall q, in_run s count q = true -> bitmap_test st q || pfn_protected st q = false) /\
     marks (fun q => pfn_protected st q && in_run 1 (s + count - 2) q) st t /\
     r.1 = inc_used (claim_run s count t) count)
  \/ (r.2 = 0 /\ marks (fun q => pfn_protected st q && in_run 1 (highest_pfn st - 1) q) st r.1 /\
      forall a, 1 <= a -> a + count <= highest_pfn st ->
        exists q, in_run a count q = true /\ bitmap_test st q || pfn_protected st q = true).

Lemma scanning_blocked st count p t start found t' :
  scanning st count p (t, found, start) -> 1 <= p < highest_pfn st ->
  bitmap_test st p || pfn_protected st p = true ->
  marks (fun q => pfn_protected st q && (p =? q)) t t' ->
  0 < count -> scanning st count (p + 1) (t', 0, start).
Proof.
  intros [Hm Hf Hs Hr He Hn] Hp Hb Ht Hc; simpl in *. constructor; simpl; try lia.
  - eapply marks_ext, marks_trans, Ht; [|exact Hm]. intros q Hq. f_equal.
    destruct (pfn_protected st q); [|done]. simpl. unfold in_run. blia.
  - right. replace (p + 1 - 0 - 1) with p by lia. split; [lia|done].
  - intros a Ha Hq. destruct (decide (a + count <= p)); [by apply Hn|].
    exists p. split; [lia|done].
Qed.

Lemma alloc_pages_step_spec st count p t found start :
  pmm_wf st -> 2 <= count -> 1 <= p < highest_pfn st ->
  scanning st count p (t, found, start) ->
  match alloc_pages_step count p (t, found, start) with
  | Next s' => scanning st count (p + 1) s'
  | Stop r => alloc_run_post st count r
  end.
Proof.
  intros Hwf Hc Hp Hs. pose proof Hs as [Hm Hf Hst Hr He Hn]; simpl in *.
  pose proof (mk_layout _ _ _ Hm) as Hl. pose proof (mk_wf _ _ _ Hm) as Hwt.
  assert (bitmap_test t p = bitmap_test st p) as Htp.
  { rewrite (mk_test _ _ _ Hm) by lia. replace (in_run 1 (p - 1) p) with false.
    - by rewrite andb_false_r, orb_false_r. - unfold in_run. symmetry. blia. }
  unfold alloc_pages_step. rewrite Htp. destruct (bitmap_test st p) eqn:E.
  { eapply scanning_blocked; [done..|by rewrite E| |lia].
    eapply marks_ext, marks_refl; [|done]. intros q Hq. rewrite orb_false_r.
    destruct (Z.eqb_spec p q); [subst; by rewrite Htp|by rewrite andb_false_r, orb_false_r]. }
  rewrite (pfn_addr st), (same_layout_protected st t) by (done || lia).
  fold (pfn_protected st p). destruct (pfn_protected st p) eqn:Epr.
  { eapply scanning_blocked; [done..|by rewrite Epr, orb_true_r| |lia].
    eapply marks_ext, mark_pfn_marks; [|done|lia]. intros q _. f_equal.
    destruct (Z.eqb_spec p q); [by subst; rewrite Epr|by rewrite andb_false_r]. }
  set (start' := if found =? 0 then p else start).
  assert (start' = p - found /\ 1 <= start') as [Hs' Hs1].
  { subst start'. destruct (Z.eqb_spec found 0); lia. }
  assert (forall q, start' <= q < p + 1 -> bitmap_test st q || pfn_protected st q = false) as Hav.
  { intros q Hq. destruct (decide (q = p)) as [->|]; [by rewrite E, Epr|apply Hr; lia]. }
  destruct (Z.leb_spec count (found + 1)) as [Hle|Hlt].
  - left. exists start', t. simpl. rewrite (pfn_addr st) by (done || lia).
    split_and!; [done..|lia| |eapply marks_ext, Hm|done].
    + intros q Hq. apply Hav. unfold in_run in Hq. lia.
    + intros q Hq. do 2 f_equal. unfold in_run. blia.
  - constructor; simpl; try lia.
    + eapply marks_ext, Hm. intros q Hq. f_equal.
      destruct (decide (q = p)) as [->|]; [by rewrite Epr|]. f_equal. unfold in_run. blia.
    + intros q Hq. apply Hav. lia.
    + by replace (p + 1 - (found + 1)) with (p - found) by lia.
    + intros a Ha Hq. destruct (decide (a + count <= p)); [by apply Hn|].
      exists (p - found - 1). destruct He as [He|[He1 He2]]; [lia|]. split; [lia|done].
Qed.

Lemma pmm_alloc_pages_post st count :
  pmm_wf st -> 2 <= count <= highest_pfn st -> alloc_run_post st count (pmm_alloc_pages st count).
Proof.
  intros Hwf Hc. unfold pmm_alloc_pages.
  rewrite (proj2 (Z.eqb_neq count 0)), (proj2 (Z.eqb_neq count 1)), (proj2 (Z.ltb_ge _ _)) by lia.
  pose proof (for_loop_ind (alloc_pages_step count) (scanning st count) (alloc_run_post st count)
    (Z.to_nat (highest_pfn st - 1)) 1 (st, 0, 0)) as L.
  ospecialize (L _ _).
  - constructor; simpl; try lia. eapply marks_ext, marks_refl; [|done]. intros q Hq.
    replace (in_run 1 (1 - 1) q) with false; [by rewrite andb_false_r|].
    unfold in_run. symmetry. blia.
  - intros j [[t f] s] Hj Ht. apply alloc_pages_step_spec; done || lia.
  - destruct (for_loop _ _ _ _) as [[[t f] s]|r]; [|done]. right.
    replace (1 + Z.of_nat _) with (highest_pfn st) in L by lia.
    destruct L as [Hm _ _ _ _ Hn]; simpl in *. split_and!; [done..|].
    intros a Ha Hh. destruct (Hn a) as (q & Hq & Hb); [lia..|]. exists q.
    split; [unfold in_run; lia|done].
Qed.

(** ** Sequences of operations *)

Inductive pmm_op :=
| OAlloc
| OAllocPages (count : Z)
| OFree (addr : Z)
| OFreePages (addr count : Z)
| OMarkUsed (phys : Z)
| OReserve (start fin : Z)
| ORefInc (addr : Z)
| ORefDec (addr : Z).

(** The call and the address it returns (0 for the void functions). *)
Definition pmm_exec (o : pmm_op) (st : pmm) : pmm * Z :=
  match o with
  | OAlloc => pmm_alloc_page st
  | OAllocPages n => pmm_alloc_pages st n
  | OFree a => (pmm_free_page st a, 0)
  | OFreePages a n => (pmm_free_pages st a n, 0)
  | OMarkUsed a => (pmm_mark_used st a, 0)
  | OReserve s e => (pmm_reserve_region st s e, 0)
  | ORefInc a => (pmm_refcount_inc st a, 0)
  | ORefDec a => ((pmm_refcount_dec st a).1, 0)
  end.

(** Arguments are unsigned. *)
Definition op_args (o : pmm_op) : Prop :=
  match o with
  | OAlloc => True
  | OAllocPages n => 0 <= n
  | OFree a | OMarkUsed a | ORefInc a | ORefDec a => 0 <= a
  | OFreePages a n => 0 <= a /\ 0 <= n
  | OReserve s e => 0 <= s /\ 0 <= e
  end.

(** The pages an operation hands to its caller, given what it returned, and
    the pages it is asked to free. *)
Definition grants (o : pmm_op) (ret q : Z) : Prop :=
  match o with
  | OAlloc => ret <> 0 /\ q = ret / PAGE_SIZE
  | OAllocPages n => ret <> 0 /\ in_run (ret / PAGE_SIZE) n q = true
  | _ => False
  end.

Definition op_frees (o : pmm_op) (q : Z) : Prop :=
  match o with
  | OFree a => addr_to_pfn a = q
  | OFreePages a n => exists i, 0 <= i < n /\ addr_to_pfn (u64 (a + i * PAGE_SIZE)) = q
  | _ => False
  end.

(** What every operation guarantees. *)
Record op_ok (st : pmm) (frees grant : Z -> Prop) (st' : pmm) : Prop := {
  ok_wf : pmm_wf st';
  ok_layout : same_layout st st';
  ok_drift : drift st' = drift st;
  ok_kept : forall q, 0 <= q < highest_pfn st ->
    bitmap_test st q = true -> ~ frees q -> bitmap_test st' q = true;
  ok_grant : forall q, grant q ->
    0 <= q < highest_pfn st /\ bitmap_test st q = false /\ pfn_protected st q = false /\
    bitmap_test st' q = true;
}.

Lemma marks_op_ok P st st' grant frees :
  marks P st st' -> (forall q, ~ grant q) -> op_ok st frees grant st'.
Proof.
  intros [] Hg. constructor; try done.
  - intros q Hq Hu _. by rewrite mk_test0, Hu by done.
  - intros q Hq. by destruct (Hg q).
Qed.

Lemma free_page_ok st a :
  pmm_wf st -> 0 <= a -> op_ok st (fun q => addr_to_pfn a = q) (fun _ => False) (pmm_free_page st a).
Proof.
  intros Hwf Ha.
  assert (op_ok st (fun q => addr_to_pfn a = q) (fun _ => False) st) as Hid by (by constructor).
  unfold pmm_free_page. destruct (Z.eqb_spec a 0); [done|].
  destruct (_ && _) eqn:E; [|done]. apply andb_true_iff in E as [Hlt%Z.ltb_lt Hu].
  destruct (clear_used_unmarks st (addr_to_pfn a) Hwf) as [W L T D R];
    [unfold addr_to_pfn, PAGE_SIZE in *; zlia|done|].
  constructor; [auto with pmm|by etrans; [|apply set_refcount_layout]
               |by rewrite set_refcount_drift| |done].
  intros q Hq Ht Hf. rewrite set_refcount_test, T, Ht by done. simpl.
  by rewrite (proj2 (Z.eqb_neq _ _)).
Qed.

Lemma free_pages_ok st a n :
  pmm_wf st -> 0 <= a -> 0 <= n ->
  op_ok st (op_frees (OFreePages a n)) (fun _ => False) (pmm_free_pages st a n).
Proof.
  intros Hwf Ha Hn. unfold pmm_free_pages. case_match; [by constructor|].
  pose proof (for_each_ind (fun i st => pmm_free_page st (u64 (a + i * PAGE_SIZE)))
    (fun j t => op_ok st (op_frees (OFreePages a j)) (fun _ => False) t) (Z.to_nat n) 0 st) as L.
  replace (0 + Z.of_nat (Z.to_nat n)) with n in L by lia. apply L; clear L; [by constructor|].
  intros j t Hj [W La D K _].
  destruct (free_page_ok t (u64 (a + j * PAGE_SIZE)) W) as [W' La' D' K' _];
    [by apply wrap_range|].
  constructor; [done|by etrans|by rewrite D'| |done].
  intros q Hq Hu Hf. pose proof (sl_hp _ _ La). apply K'; [lia| |].
  - apply K; [done..|]. intros (i & Hi & E). apply Hf. exists i. split; [lia|done].
  - intros E. apply Hf. exists j. split; [lia|done].
Qed.

Lemma with_refcount_ok st rc rc' frees :
  pmm_wf st -> phys_refcount st = Some rc -> len rc' = len rc ->
  op_ok st frees (fun _ => False) (with_refcount st (Some rc')).
Proof.
  intros Hwf E Hl. pose proof (wf_rc st Hwf rc E). destruct Hwf.
  constructor; try done. constructor; try done. simpl. intros ? [= <-]. lia.
Qed.

Lemma alloc_page_ok st :
  pmm_wf st ->
  let '(st', a) := pmm_alloc_page st in
  op_ok st (fun _ => False) (grants OAlloc a) st'.
Proof.
  intros Hwf. pose proof (pmm_alloc_page_post st Hwf) as Hp.
  destruct (pmm_alloc_page st) as [st' a]. destruct Hp as [(p & Ha & Hc)|[Ha Hs]]; simpl in *; subst a.
  - destruct Hc. constructor; try done.
    + intros q Hq Hu _. by rewrite cl_test0, Hu by done.
    + intros q [_ ->]. rewrite Z.div_mul by done. split_and!; try done; try lia.
      rewrite cl_test0, Z.eqb_refl by lia. by rewrite orb_true_r.
  - eapply marks_op_ok; [apply Hs|]. by intros q [].
Qed.

Lemma alloc_pages_ok st n :
  pmm_wf st -> 0 <= n ->
  let '(st', a) := pmm_alloc_pages st n in
  op_ok st (fun _ => False) (grants (OAllocPages n) a) st'.
Proof.
  intros Hwf Hn. destruct (decide (n <= 1 \/ highest_pfn st < n)) as [Hs|Hs].
  - unfold pmm_alloc_pages.
    destruct (Z.eqb_spec n 0); [constructor; try done; by intros q []|].
    destruct (Z.eqb_spec n 1) as [->|].
    + pose proof (alloc_page_ok st Hwf) as Hp. destruct (pmm_alloc_page st) as [st' a].
      destruct Hp as [W L D K G]. constructor; try done. intros q [Ha Hq]. apply G.
      split; [done|]. unfold in_run in Hq. lia.
    + rewrite (proj2 (Z.ltb_lt _ _)) by lia. constructor; try done; by intros q [].
  - pose proof (pmm_alloc_pages_post st n Hwf ltac:(lia)) as Hp.
    destruct (pmm_alloc_pages st n) as [st' a].
    destruct Hp as [(s & t & Ha & H1 & Hh & Hav & Hm & Hr)|(Ha & Hm & _)]; simpl in *; subst a.
    2: { eapply marks_op_ok; [apply Hm|]. by intros q []. }
    pose proof (mk_layout _ _ _ Hm) as Hl. pose proof (sl_hp _ _ Hl).
    assert (forall q, in_run s n q = true -> bitmap_test t q = false) as Hf.
    { intros q Hq. pose proof (Hav q Hq) as [E1 E2]%orb_false_iff.
      rewrite (mk_test _ _ _ Hm), E1, E2 by (unfold in_run in Hq; lia). done. }
    destruct (claim_run_spec t s n (mk_wf _ _ _ Hm)) as [W L T C U R]; [lia..| |].
    { intros q Hq. apply Hf. unfold in_run. lia. }
    subst st'. constructor.
    + by apply inc_used_wf.
    + etrans; [exact Hl|]. etrans; [exact L|apply inc_used_layout].
    + rewrite <- (mk_drift _ _ _ Hm). apply drift_move with n; [simpl; by rewrite U|].
      rewrite <- C. done.
    + intros q Hq Hu _. rewrite inc_used_test, T, (mk_test _ _ _ Hm), Hu by lia. done.
    + intros q [_ Hq]. rewrite Z.div_mul in Hq by done.
      pose proof (Hav q Hq) as [E1 E2]%orb_false_iff. split_and!; try done.
      1,2: unfold in_run in Hq; lia.
      rewrite inc_used_test, T, Hq by (unfold in_run in Hq; lia). by rewrite orb_true_r.
Qed.

Lemma pmm_exec_ok st o :
  pmm_wf st -> op_args o ->
  let '(st', a) := pmm_exec o st in op_ok st (op_frees o) (grants o a) st'.
Proof.
  intros Hwf Ho. destruct o as [|n|a|a n|a|s e|a|a]; simpl in *.
  - apply alloc_page_ok, Hwf.
  - by apply alloc_pages_ok.
  - by apply free_page_ok.
  - apply free_pages_ok; done || lia.
  - unfold pmm_mark_used. case_match; [by constructor|].
    destruct (mark_pfn_marks st (addr_to_pfn a) Hwf) as [W L T D R];
      [unfold addr_to_pfn, PAGE_SIZE; zlia|].
    constructor; [by apply set_refcount_wf|by etrans; [|apply set_refcount_layout]
                 |by rewrite set_refcount_drift| |done].
    intros q Hq Hu _. by rewrite set_refcount_test, T, Hu by done.
  - unfold pmm_reserve_region. destruct (decide (e <= s)).
    + unfold mark_region. rewrite (proj2 (Z.leb_le _ _)) by done. by constructor.
    + eapply marks_op_ok; [apply mark_region_marks; done || lia|]. by intros q [].
  - unfold pmm_refcount_inc. destruct (phys_refcount st) as [rc|] eqn:E; [|by constructor].
    repeat case_match; try by constructor.
    eapply with_refcount_ok; [done..|]. unfold alti. by autorewrite with arr.
  - unfold pmm_refcount_dec. destruct (phys_refcount st) as [rc|] eqn:E; [|by constructor].
    destruct (a =? 0); [by constructor|]. destruct (_ && _); [|by constructor]. simpl.
    eapply with_refcount_ok; [done..|]. by autorewrite with arr.
Qed.

Fixpoint pmm_run (ops : list pmm_op) (st : pmm) : pmm * list (pmm_op * Z) :=
  match ops with
  | [] => (st, [])
  | o :: ops =>
      let '(st1, a) := pmm_exec o st in
      let '(st2, tr) := pmm_run ops st1 in
      (st2, (o, a) :: tr)
  end.

Lemma pmm_run_ok ops st :
  pmm_wf st -> Forall op_args ops ->
  let '(st', tr) := pmm_run ops st in
  pmm_wf st' /\ same_layout st st' /\ drift st' = drift st /\
  forall p, 0 <= p < highest_pfn st -> bitmap_test st p = true ->
    Forall (fun o => ~ op_frees o p) ops ->
    bitmap_test st' p = true /\ Forall (fun e => ~ grants e.1 e.2 p) tr.
Proof.
  revert st. induction ops as [|o ops IH]; intros st Hwf Ha; simpl.
  { split_and!; try done. }
  inversion_clear Ha as [|? ? Ho Hops].
  pose proof (pmm_exec_ok st o Hwf Ho) as E. destruct (pmm_exec o st) as [st1 a].
  destruct E as [W L D K G]. specialize (IH st1 W Hops).
  destruct (pmm_run ops st1) as [st2 tr]. destruct IH as (W2 & L2 & D2 & H2).
  split_and!; [done|by etrans|congruence|].
  intros p Hp Hu Hf. inversion_clear Hf as [|? ? Hfo Hfops].
  destruct (H2 p) as [Hu2 Hg]; [rewrite (sl_hp _ _ L); lia|by apply K|done|].
  split; [done|]. constructor; [|done]. simpl. intros Hgr. apply G in Hgr as (_ & E & _). congruence.
Qed.

(** C1: a page in use is never granted again before it is freed.  Whatever
    sequence of allocator calls is made, as long as none of them frees page
    [p], page [p] stays marked used and no allocation, of one page or of a
    contiguous run, hands it out. *)
Theorem pmm_no_double_allocation (st : pmm) (ops : list pmm_op) (p : Z) :
  pmm_wf st -> Forall op_args ops ->
  0 <= p < highest_pfn st -> bitmap_test st p = true ->
  Forall (fun o => ~ op_frees o p) ops ->
  bitmap_test (pmm_run ops st).1 p = true /\
  Forall (fun e => ~ grants e.1 e.2 p) (pmm_run ops st).2.
Proof.
  intros Hwf Ha Hp Hu Hf. pose proof (pmm_run_ok ops st Hwf Ha) as H.
  destruct (pmm_run ops st). destruct H as (_ & _ & _ & H). auto.
Qed.

(** [pmm_alloc_page] is first fit over the available pages: it returns
    the lowest page that is free and outside the kernel, bitmap and refcount
    ranges, marks it used with reference count 1, and touches no other page
    except protected ones below it, which it marks used; it returns 0 only
    when no page but page 0 is available. *)
Theorem pmm_alloc_page_first_fit (st : pmm) :
  pmm_wf st ->
  (exists p, (pmm_alloc_page st).2 = p * PAGE_SIZE /\ claimed st p (pmm_alloc_page st).1) \/
  ((pmm_alloc_page st).2 = 0 /\ scanned st (highest_pfn st) (pmm_alloc_page st).1).
Proof. apply pmm_alloc_page_post. Qed.

(** [pmm_alloc_pages] of two pages or more returns a run of pages that
    were all free and unprotected, now all used with reference count 1; it
    fails exactly when no such run exists above page 0. *)
Theorem pmm_alloc_pages_contiguous (st : pmm) (n : Z) :
  pmm_wf st -> 2 <= n <= highest_pfn st ->
  let r := pmm_alloc_pages st n in
  (exists s, r.2 = s * PAGE_SIZE /\ 1 <= s /\ s + n <= highest_pfn st /\ rc_run s n st r.1 /\
     forall q, in_run s n q = true ->
       bitmap_test st q = false /\ pfn_protected st q = false /\ bitmap_test r.1 q = true)
  \/ (r.2 = 0 /\ forall s, 1 <= s -> s + n <= highest_pfn st ->
        exists q, in_run s n q = true /\ bitmap_test st q || pfn_protected st q = true).
Proof.
  intros Hwf Hn. cbv zeta. pose proof (pmm_alloc_pages_post st n Hwf Hn) as Hp.
  destruct (pmm_alloc_pages st n) as [st' a].
  destruct Hp as [(s & t & Ha & H1 & Hh & Hav & Hm & Hr)|(Ha & _ & Hno)]; simpl in *;
    [left|by right]. subst.
  pose proof (sl_hp _ _ (mk_layout _ _ _ Hm)) as Et.
  assert (forall q, in_run s n q = true -> 0 <= q < highest_pfn st) as Hrange
    by (unfold in_run; intros; lia).
  destruct (claim_run_spec t s n (mk_wf _ _ _ Hm)) as [W L T C U R]; [lia..| |].
  { intros q Hq. destruct (orb_false_elim _ _ (Hav q ltac:(unfold in_run; lia))) as [E1 E2].
    rewrite (mk_test _ _ _ Hm), E1, E2 by lia. done. }
  exists s. split_and!; [done..| |].
  - unfold rc_run in *. by rewrite (mk_rc _ _ _ Hm) in R.
  - intros q Hq. pose proof (Hrange q Hq). pose proof (Hav q Hq) as [E1 E2]%orb_false_iff.
    rewrite inc_used_test, T, Hq by lia. split_and!; [done..|by rewrite orb_true_r].
Qed.

(** accounting.  The difference between the counter [used_pages] and the
    number of set bits is the same after any sequence of calls; when the two
    agree at the start, [pmm_get_free] reports exactly the clear bits. *)
Theorem pmm_accounting (st : pmm) (ops : list pmm_op) :
  pmm_wf st -> Forall op_args ops ->
  let st' := (pmm_run ops st).1 in
  drift st' = drift st /\
  (used_pages st = n_used st ->
   pmm_get_free st' = (highest_pfn st - n_used st') * PAGE_SIZE).
Proof.
  intros Hwf Ha. pose proof (pmm_run_ok ops st Hwf Ha) as H.
  destruct (pmm_run ops st) as [st' tr]; simpl. destruct H as (W & L & D & _).
  split; [done|]. intros E. assert (drift st = 0) as D0.
  { unfold drift. by rewrite E, Z.sub_diag. }
  rewrite D0 in D. pose proof (sl_hp _ _ L). pose proof (sl_total _ _ L).
  pose proof (wf_hp st Hwf). pose proof (wf_total st Hwf). pose proof (wf_used st' W).
  assert (0 <= n_used st' <= highest_pfn st) as Hn.
  { unfold n_used. pose proof (count_from_range (bitmap_test st') (Z.to_nat (highest_pfn st')) 0). lia. }
  assert (used_pages st' = n_used st') as Eu.
  { unfold drift, wrap in D. apply Z.mod_divide in D as [k Hk]; [|done]. nia. }
  unfold pmm_get_free. rewrite Eu.
  replace (total_pages st') with (highest_pfn st) by congruence.
  apply wrap_small. unfold PAGE_SIZE. lia.
Qed.

(** ** Initialisation *)

Definition entry_ok (e : mmap_entry) : Prop :=
  0 <= mm_base e /\ 0 <= mm_length e /\ mm_base e + mm_length e <= 2 ^ 64 - PAGE_SIZE.

(** Page [q] has a byte in [s, e). *)
Definition overlaps (s e q : Z) : bool := (s / PAGE_SIZE <=? q) && (q <? (e + 4095) / PAGE_SIZE).

Definition usable (mmap : list mmap_entry) (q : Z) : bool :=
  existsb (fun e => (mm_type e =? MMAP_USABLE) && (0 <? mm_length e)
                    && overlaps (mm_base e) (mm_base e + mm_length e) q) mmap.

Definition pmm_metadata_end (st : pmm) (kernel_end : Z) : Z :=
  kernel_end + bitmap_size st + refcount_size st.

Lemma usable_free_fold mmap st :
  pmm_wf st -> Forall entry_ok mmap ->
  unmarks (usable mmap) st
    (foldl (fun st e =>
       if (mm_type e =? MMAP_USABLE) && (0 <? mm_length e)
       then free_region st (mm_base e) (u64 (mm_base e + mm_length e)) else st) st mmap).
Proof.
  revert st. induction mmap as [|e mmap IH]; intros st Hwf Ho; simpl; [by apply unmarks_refl|].
  inversion_clear Ho as [|? ? [Hb [Hl He]] Hos]. unfold PAGE_SIZE in He.
  assert (unmarks (fun q => (mm_type e =? MMAP_USABLE) && (0 <? mm_length e)
            && overlaps (mm_base e) (mm_base e + mm_length e) q) st
            (if (mm_type e =? MMAP_USABLE) && (0 <? mm_length e)
             then free_region st (mm_base e) (u64 (mm_base e + mm_length e)) else st)) as H1.
  { destruct (_ && _) eqn:E; [|by apply unmarks_refl].
    rewrite wrap_small by lia. apply andb_true_iff in E as [_ E%Z.ltb_lt].
    eapply unmarks_ext, free_region_unmarks; [|done|lia..].
    intros q Hq. simpl. unfold overlaps, addr_to_pfn.
    rewrite ALIGN_UP_page by (unfold PAGE_SIZE; lia). unfold PAGE_SIZE. by rewrite Z.div_mul. }
  eapply unmarks_trans; [exact H1|]. apply IH; [apply H1|done].
Qed.

Lemma highest_addr_range mmap : 0 <= highest_addr_of mmap < 2 ^ 64.
Proof.
  unfold highest_addr_of.
  match goal with |- 0 <= foldl ?f 0 _ < _ => set (g := f) end.
  cut (forall a, 0 <= a < 2 ^ 64 -> 0 <= foldl g a mmap < 2 ^ 64); [intros H; apply H; lia|].
  induction mmap as [|e mmap IH]; intros a Ha; simpl; [done|].
  apply IH. unfold g. case_match; [|done]. apply wrap_range. lia.
Qed.

(** The size of the bitmap pmm.c computes covers every page. *)
Definition bitmap_covers (hp : Z) : bool := hp <=? 8 * ALIGN_UP (hp / 8) PAGE_SIZE.

Lemma bitmap_bytes hp :
  0 <= hp < 2 ^ 52 -> ALIGN_UP (hp / 8) PAGE_SIZE = (hp / 8 + 4095) / 4096 * 4096.
Proof. intros. apply ALIGN_UP_page. unfold PAGE_SIZE. zlia. Qed.

Definition pmm_boot (hp kernel_start kernel_end : Z) : pmm :=
  let bsize := ALIGN_UP (hp / 8) PAGE_SIZE in
  mkPmm (replicate (Z.to_nat (bsize / 8)) (2 ^ 64 - 1)) bsize hp hp hp None 0
    (kernel_start, kernel_end) (0, 0) (0, 0).

Lemma pmm_boot_spec hp ks ke :
  0 <= hp < 2 ^ 52 -> bitmap_covers hp = true ->
  pmm_wf (pmm_boot hp ks ke) /\ drift (pmm_boot hp ks ke) = 0 /\
  forall q, 0 <= q -> bitmap_test (pmm_boot hp ks ke) q = true.
Proof.
  intros Hh Hc%Z.leb_le. pose proof (bitmap_bytes hp Hh) as Hb. rewrite Hb in Hc.
  set (n := (hp / 8 + 4095) / 4096) in *. assert (0 <= n) by (subst n; zlia).
  assert (forall i, 0 <= i < 512 * n -> (bitmap (pmm_boot hp ks ke)).[i] = 2 ^ 64 - 1) as Hw.
  { intros i Hi. simpl. rewrite Hb. apply geti_replicate.
    replace (n * 4096 / 8) with (512 * n) by zlia. lia. }
  assert (len (bitmap (pmm_boot hp ks ke)) = 512 * n) as Hl.
  { unfold len. simpl. rewrite length_replicate, Hb.
    replace (n * 4096 / 8) with (512 * n) by zlia. lia. }
  assert (forall q, 0 <= q -> bitmap_test (pmm_boot hp ks ke) q = true) as Ht.
  { intros q Hq. unfold bitmap_test. destruct (Z.leb_spec (highest_pfn (pmm_boot hp ks ke)) q); [done|].
    simpl in *. pose proof (pfn_split q Hq) as (? & ? & ?).
    rewrite Hw by lia. rewrite test_bit_testbit by lia.
    change (2 ^ 64 - 1) with (Z.ones 64). apply Z.ones_spec_low. lia. }
  split_and!; [| |done].
  - constructor; try done; rewrite ?Hl; simpl; try lia.
    + rewrite Hb. zlia.
    + intros i Hi. rewrite Hw by lia. lia.
  - unfold drift, n_used. rewrite (count_from_ext _ (fun _ => true)) by (intros; apply Ht; lia).
    simpl. replace (count_from _ _ _) with hp; [by rewrite Z.sub_diag|].
    rewrite <- (Z2Nat.id hp) at 1 by lia. generalize (Z.to_nat hp) as k, 0.
    induction k as [|k IH]; intros z; [done|]. simpl. rewrite <- (IH (z + 1)). lia.
Qed.

Definition install_refcount (st : pmm) (ke : Z) : pmm :=
  let hp := highest_pfn st in
  let rsize := ALIGN_UP (u64 (hp * 4)) PAGE_SIZE in
  let bitmap_end := u64 (ke + bitmap_size st) in
  mkPmm (bitmap st) (bitmap_size st) (total_pages st) (used_pages st) hp
    (Some (replicate (Z.to_nat (rsize / 4)) 0)) rsize (pmm_kernel st) (ke, bitmap_end)
    (bitmap_end, u64 (bitmap_end + rsize)).

Lemma refcount_bytes hp :
  0 <= hp < 2 ^ 52 -> ALIGN_UP (u64 (hp * 4)) PAGE_SIZE = (hp * 4 + 4095) / 4096 * 4096.
Proof. intros. rewrite wrap_small by lia. apply ALIGN_UP_page. unfold PAGE_SIZE. lia. Qed.

Lemma install_refcount_wf st ke : pmm_wf st -> pmm_wf (install_refcount st ke).
Proof.
  intros []. constructor; try done. simpl. intros ? [= <-].
  unfold len. rewrite length_replicate, refcount_bytes by lia. zlia.
Qed.

(** The stages of [pmm_init]. *)
Lemma pmm_init_stages mmap ks ke :
  pmm_init mmap ks ke =
  let hp := highest_addr_of mmap / PAGE_SIZE in
  let st1 := foldl (fun st e =>
       if (mm_type e =? MMAP_USABLE) && (0 <? mm_length e)
       then free_region st (mm_base e) (u64 (mm_base e + mm_length e)) else st)
       (pmm_boot hp ks ke) mmap in
  let st2 := mkPmm (bitmap st1) (ALIGN_UP (hp / 8) PAGE_SIZE) hp (used_pages st1) hp
       (phys_refcount (install_refcount (pmm_boot hp ks ke) ke))
       (refcount_size (install_refcount (pmm_boot hp ks ke) ke))
       (ks, ke) (pmm_bitmap (install_refcount (pmm_boot hp ks ke) ke))
       (pmm_refcount (install_refcount (pmm_boot hp ks ke) ke)) in
  bitmap_set (mark_region st2 ks
    (ALIGN_UP (u64 (ke + bitmap_size st2 + refcount_size st2)) PAGE_SIZE)) 0.
Proof. done. Qed.

Record init_ok (mmap : list mmap_entry) (ks ke : Z) (st : pmm) : Prop := {
  in_wf : pmm_wf st;
  in_hp : highest_pfn st = highest_addr_of mmap / PAGE_SIZE;
  in_test : forall q, 0 <= q < highest_pfn st ->
    bitmap_test st q = (q =? 0) || overlaps ks (pmm_metadata_end st ke) q || negb (usable mmap q);
  in_protected : forall q, 0 <= q < highest_pfn st -> pfn_protected st q = true -> bitmap_test st q = true;
  in_drift : drift st = if (0 <? highest_pfn st) && usable mmap 0
                           && negb (overlaps ks (pmm_metadata_end st ke) 0)
                        then u64 (-1) else 0;
}.

Lemma bitmap_set0_drift st :
  pmm_wf st ->
  drift (bitmap_set st 0) =
    if (0 <? highest_pfn st) && negb (bitmap_test st 0) then u64 (drift st - 1) else drift st.
Proof.
  intros Hwf. pose proof (wf_hp st Hwf). destruct (Z.ltb_spec 0 (highest_pfn st)); simpl.
  - assert (n_used (bitmap_set st 0) = n_used st + Z.b2z true - Z.b2z (bitmap_test st 0)) as E.
    { apply (n_used_update st _ 0); [done|apply bitmap_set_layout|lia|].
      intros. apply bitmap_test_set; done || lia. }
    unfold drift. rewrite bitmap_set_used, E. destruct (bitmap_test st 0); simpl.
    + f_equal. lia.
    + rewrite wrap_sub_l. f_equal. lia.
  - unfold bitmap_set. by rewrite (proj2 (Z.leb_le _ _)) by lia.
Qed.

Lemma pmm_init_ok mmap ks ke :
  Forall entry_ok mmap -> bitmap_covers (highest_addr_of mmap / PAGE_SIZE) = true ->
  0 <= ks < ke -> ke < 2 ^ 63 ->
  init_ok mmap ks ke (pmm_init mmap ks ke).
Proof.
  intros Hm Hc Hk Hke. pose proof (highest_addr_range mmap) as Hr.
  set (hp := highest_addr_of mmap / PAGE_SIZE) in *.
  assert (0 <= hp < 2 ^ 52) as Hh by (subst hp; unfold PAGE_SIZE; zlia).
  destruct (pmm_boot_spec hp ks ke Hh Hc) as (W0 & D0 & T0).
  destruct (usable_free_fold mmap _ W0 Hm) as [W1 L1 T1 D1 _].
  rewrite pmm_init_stages. cbv zeta. fold hp. simpl bitmap_size.
  set (st1 := foldl _ (pmm_boot hp ks ke) mmap) in *.
  set (st2 := mkPmm _ _ _ _ _ _ _ _ _ _).
  assert (st2 = install_refcount st1 ke) as E2.
  { subst st2. unfold install_refcount.
    by rewrite (sl_hp _ _ L1), (sl_size _ _ L1), (sl_total _ _ L1), (sl_kernel _ _ L1). }
  assert (pmm_wf st2) as W2 by (rewrite E2; by apply install_refcount_wf).
  assert (forall q, bitmap_test st2 q = bitmap_test st1 q) as T2 by (intros; by rewrite E2).
  assert (drift st2 = 0) as D2 by (rewrite <- D0, <- D1, E2; done).
  set (B := ALIGN_UP (hp / 8) PAGE_SIZE) in *.
  set (R := refcount_size st2).
  assert (0 <= B < 2 ^ 51 /\ 0 <= R < 2 ^ 55) as [HB HR].
  { subst B R st2. cbn [refcount_size install_refcount highest_pfn pmm_boot].
    rewrite bitmap_bytes, refcount_bytes by done. zlia. }
  set (ph := pmm_metadata_end st2 ke).
  assert (ph = ke + B + R) as Eph by done.
  replace (u64 (ke + B + R)) with ph by (rewrite wrap_small; lia).
  pose proof (mark_region_marks st2 ks (ALIGN_UP ph PAGE_SIZE) W2) as M.
  assert (ALIGN_UP ph PAGE_SIZE = (ph + 4095) / PAGE_SIZE * PAGE_SIZE) as Ea
    by (apply ALIGN_UP_page; unfold PAGE_SIZE; lia).
  rewrite Ea in *. unfold PAGE_SIZE in M.
  specialize (M ltac:(lia) ltac:(zlia)). fold PAGE_SIZE in M.
  destruct M as [W3 L3 T3 D3 _]. set (st3 := mark_region st2 ks _) in *.
  assert (forall q, 0 <= q < hp ->
    bitmap_test st3 q = overlaps ks ph q || negb (usable mmap q)) as T3'.
  { intros q Hq. rewrite T3, T2, T1, T0 by (done || lia). rewrite orb_comm. f_equal.
    unfold overlaps, addr_to_pfn. rewrite ALIGN_UP_page by (unfold PAGE_SIZE; zlia).
    unfold PAGE_SIZE. rewrite Z.div_mul by done. f_equal. blia || (f_equal; zlia). }
  pose proof (sl_hp _ _ L3) as H3. simpl in H3.
  assert (highest_pfn (bitmap_set st3 0) = hp) as H4
    by (rewrite (sl_hp _ _ (bitmap_set_layout st3 0)); done).
  assert (pmm_metadata_end (bitmap_set st3 0) ke = ph) as Hme.
  { pose proof (bitmap_set_layout st3 0) as L4. unfold pmm_metadata_end.
    by rewrite (sl_size _ _ L4), (sl_rsize _ _ L4), (sl_size _ _ L3), (sl_rsize _ _ L3). }
  assert (forall q, 0 <= q < hp -> bitmap_test (bitmap_set st3 0) q
            = (q =? 0) || overlaps ks ph q || negb (usable mmap q)) as T4.
  { intros q Hq. rewrite bitmap_test_set, T3' by (done || lia).
    case_decide; [by subst|]. by rewrite (proj2 (Z.eqb_neq q 0)) by lia. }
  constructor; rewrite ?H4, ?Hme; try done.
  - by apply bitmap_set_wf.
  - intros q Hq Hp. rewrite T4 by done.
    replace (overlaps ks ph q) with true; [by rewrite orb_true_r|]. symmetry.
    unfold pfn_protected in Hp.
    rewrite (same_layout_protected st2) in Hp
      by (etrans; [exact L3|apply bitmap_set_layout]).
    unfold pmm_is_protected, in_range in Hp. simpl in Hp. fold B R in Hp.
    change (ALIGN_UP (u64 (hp * 4)) PAGE_SIZE) with R in Hp.
    rewrite (wrap_small 64 (ke + B)), (wrap_small 64 (ke + B + R)) in Hp by lia.
    unfold overlaps, PAGE_SIZE in *. rewrite Eph. zlia.
  - rewrite bitmap_set0_drift by done. rewrite D3, D2, H3.
    destruct (Z.ltb_spec 0 hp); [|done]. simpl. rewrite T3' by lia.
    rewrite negb_orb, negb_involutive, andb_comm. done.
Qed.

(** [pmm_init] leaves a well-formed state in which a page is free exactly
    when it lies in a usable entry of the memory map, is not page 0 and does
    not meet the kernel image, the bitmap or the refcount array; every
    protected page is used.  The counter [used_pages] is one short of the
    number of used pages when page 0 was usable, because [bitmap_set(0)] does
    not count it. *)
Theorem pmm_init_correct (mmap : list mmap_entry) (kernel_start kernel_end : Z) :
  Forall entry_ok mmap -> bitmap_covers (highest_addr_of mmap / PAGE_SIZE) = true ->
  0 <= kernel_start < kernel_end -> kernel_end < 2 ^ 63 ->
  init_ok mmap kernel_start kernel_end (pmm_init mmap kernel_start kernel_end).
Proof. apply pmm_init_ok. Qed.

(** the bitmap [pmm_init] lays out is too small for its pages exactly when
    the page count is not a multiple of 8 and its eighth, rounded down, is a
    multiple of 4096: the division truncates before [ALIGN_UP]. *)
Theorem pmm_init_bitmap_size (mmap : list mmap_entry) (kernel_start kernel_end : Z) :
  let st := pmm_init mmap kernel_start kernel_end in
  let hp := highest_addr_of mmap / PAGE_SIZE in
  64 * (bitmap_size st / 8) < hp <-> (hp / 8) mod 4096 = 0 /\ hp mod 8 <> 0.
Proof.
  cbv zeta. assert (bitmap_size (pmm_init mmap kernel_start kernel_end)
    = ALIGN_UP (highest_addr_of mmap / PAGE_SIZE / 8) PAGE_SIZE) as ->.
  { rewrite pmm_init_stages. cbv zeta. rewrite (sl_size _ _ (bitmap_set_layout _ _)).
    unfold mark_region. case_match; [done|].
    match goal with |- bitmap_size (for_each ?b ?n ?i ?s) = _ =>
      apply (for_each_ind b (fun _ t => bitmap_size t = bitmap_size s) n i s) end; [done|].
    intros j t _ <-. unfold mark_pfn. case_match; [done|].
    apply (sl_size _ _ (bitmap_set_layout t j)). }
  pose proof (highest_addr_range mmap) as Hr.
  set (hp := highest_addr_of mmap / PAGE_SIZE).
  assert (0 <= hp < 2 ^ 52) as Hh by (subst hp; unfold PAGE_SIZE; zlia).
  clearbody hp. rewrite (bitmap_bytes _ Hh). zlia.
Qed.

(** ** A 2 MB machine *)

Definition demo_map : list mmap_entry :=
  [ {| mm_base := 0; mm_length := 0x9F000; mm_type := 1 |};
    {| mm_base := 0xF0000; mm_length := 0x10000; mm_type := 2 |};
    {| mm_base := 0x100000; mm_length := 0x100000; mm_type := 1 |} ].
Definition demo : pmm := pmm_init demo_map 0x100000 0x120000.

Lemma demo_map_ok : Forall entry_ok demo_map.
Proof. by repeat constructor. Qed.

Lemma demo_ok : init_ok demo_map 0x100000 0x120000 demo.
Proof. apply pmm_init_ok; [apply demo_map_ok|done|lia|lia]. Qed.

Definition demo_ops : list pmm_op := [OAlloc; OAllocPages 3; OFree 0x5000; OMarkUsed 0x8000; OAlloc].

Lemma pmm_no_double_allocation_witness :
  (pmm_run demo_ops demo).2
    = [(OAlloc, 0x1000); (OAllocPages 3, 0x2000); (OFree 0x5000, 0); (OMarkUsed 0x8000, 0); (OAlloc, 0x5000)] /\
  bitmap_test (pmm_run demo_ops demo).1 0x100 = true /\
  Forall (fun e => ~ grants e.1 e.2 0x100) (pmm_run demo_ops demo).2.
Proof.
  split; [by vm_compute|].
  apply (pmm_no_double_allocation demo demo_ops 0x100 (in_wf _ _ _ _ demo_ok)).
  - by repeat constructor.
  - by split; vm_compute.
  - by vm_compute.
  - repeat constructor; by vm_compute.
Defined.

Lemma pmm_alloc_page_first_fit_witness :
  (pmm_alloc_page demo).2 = 0x1000 /\
  ((exists p, (pmm_alloc_page demo).2 = p * PAGE_SIZE /\ claimed demo p (pmm_alloc_page demo).1) \/
   ((pmm_alloc_page demo).2 = 0 /\ scanned demo (highest_pfn demo) (pmm_alloc_page demo).1)).
Proof.
  split; [by vm_compute|].
  exact (pmm_alloc_page_first_fit demo (in_wf _ _ _ _ demo_ok)).
Defined.

Lemma demo_run_bounds : 2 <= 0x9E <= highest_pfn demo.
Proof. by split; vm_compute. Qed.

Lemma pmm_alloc_pages_contiguous_witness :
  (pmm_alloc_pages demo 0x9E).2 = 0x1000 /\
  (let r := pmm_alloc_pages demo 0x9E in
   (exists s, r.2 = s * PAGE_SIZE /\ 1 <= s /\ s + 0x9E <= highest_pfn demo /\ rc_run s 0x9E demo r.1 /\
      forall q, in_run s 0x9E q = true ->
        bitmap_test demo q = false /\ pfn_protected demo q = false /\ bitmap_test r.1 q = true)
   \/ (r.2 = 0 /\ forall s, 1 <= s -> s + 0x9E <= highest_pfn demo ->
         exists q, in_run s 0x9E q = true /\ bitmap_test demo q || pfn_protected demo q = true)).
Proof.
  split; [by vm_compute|].
  exact (pmm_alloc_pages_contiguous demo 0x9E (in_wf _ _ _ _ demo_ok) demo_run_bounds).
Defined.

Lemma pmm_accounting_witness :
  drift demo = 2 ^ 64 - 1 /\ 
  (drift (pmm_run demo_ops demo).1 = drift demo /\
   (used_pages demo = n_used demo ->
    pmm_get_free (pmm_run demo_ops demo).1
    = (highest_pfn demo - n_used (pmm_run demo_ops demo).1) * PAGE_SIZE)).
Proof.
  split; [by vm_compute|].
  apply (pmm_accounting demo demo_ops (in_wf _ _ _ _ demo_ok)). by repeat constructor.
Defined.

Lemma pmm_init_correct_witness :
  usable demo_map 0 = true /\ init_ok demo_map 0x100000 0x120000 demo.
Proof.
  split; [by vm_compute|].
  apply pmm_init_correct; [apply demo_map_ok|done|lia|lia].
Defined.
