(* ===== verification/PageAlloc.v ===== *)
(** * What paging needs of the page allocator

    The class states the promises of mm/pmm.c that mm/vmm.c and
    mm/page_fault.c rely on; [pmm_allocator] discharges them with the model of
    pmm.c.  Addresses of pages are multiples of 4096 below 2^52, the values a
    page-table entry can hold. *)

From S2P Require Import Prelude Pmm.

Definition PTE_PHYS_MASK : Z := 0x000FFFFFFFFFF000.

Definition is_page (p : Z) : Prop := 0 <= p < 2 ^ 52 /\ p mod 4096 = 0.

Lemma mask_spec e : 0 <= e -> Z.land e PTE_PHYS_MASK = e / 4096 mod 2 ^ 40 * 4096.
Proof.
  intros He. change PTE_PHYS_MASK with (Z.shiftl (Z.ones 40) 12). change 4096 with (2 ^ 12).
  rewrite <- Z.shiftr_div_pow2, <- Z.shiftl_mul_pow2, <- Z.land_ones by lia.
  apply Z.bits_inj'. intros i Hi.
  rewrite Z.land_spec, !Z.shiftl_spec by lia. destruct (decide (i < 12)).
  { rewrite !(Z.testbit_neg_r _ (i - 12)) by lia. apply andb_false_r. }
  rewrite Z.land_spec, Z.shiftr_spec by lia. do 2 f_equal. lia.
Qed.

Lemma is_page_mask p : is_page p <-> 0 <= p /\ Z.land p PTE_PHYS_MASK = p.
Proof.
  unfold is_page. split.
  - intros [Hp Hm]. split; [lia|]. rewrite mask_spec by lia.
    rewrite Z.mod_small by (change (2 ^ 52) with (2 ^ 40 * 4096) in Hp; zlia). zlia.
  - intros [Hp Hm]. rewrite mask_spec in Hm by done. change (2 ^ 52) with (2 ^ 40 * 4096).
    pose proof (Z.mod_pos_bound (p / 4096) (2 ^ 40)). zlia.
Qed.

Lemma is_page_masked e : 0 <= e -> is_page (Z.land e PTE_PHYS_MASK).
Proof.
  intros He. apply is_page_mask. split; [by apply Z.land_nonneg; left|].
  by rewrite <- Z.land_assoc, Z.land_diag.
Qed.

Class PageAllocator (A : Type) := {
  alloc_page : A -> A * Z;
  free_page : A -> Z -> A;
  ref_dec : A -> Z -> A * Z;
  ref_get : A -> Z -> Z;
  allocator_ok : A -> Prop;
  in_use : A -> Z -> Prop;
  avail : A -> Z;     (* number of pages that can be allocated *)
  alloc_page_law a : allocator_ok a ->
    let '(a', p) := alloc_page a in
    allocator_ok a' /\ (forall q, is_page q -> in_use a q -> in_use a' q) /\
    (forall q, is_page q -> q <> p -> ref_get a' q = ref_get a q) /\
    (p = 0 \/ is_page p /\ p <> 0 /\ ~ in_use a p /\ in_use a' p /\ ref_get a' p = 1) /\
    (0 < avail a -> p <> 0 /\ avail a' = avail a - 1);
  free_page_law a p : allocator_ok a -> is_page p ->
    allocator_ok (free_page a p) /\
    forall q, is_page q -> q <> p ->
      (in_use (free_page a p) q <-> in_use a q) /\ ref_get (free_page a p) q = ref_get a q;
  ref_dec_law a p : allocator_ok a -> is_page p ->
    let '(a', n) := ref_dec a p in
    allocator_ok a' /\ (forall q, is_page q -> in_use a' q <-> in_use a q) /\
    n = Z.max 0 (ref_get a p - 1) /\ ref_get a' p = n /\
    forall q, is_page q -> q <> p -> ref_get a' q = ref_get a q;
}.

(** ** The instance *)

Record pmm_allocator_ok (st : pmm) : Prop := {
  pa_wf : pmm_wf st;
  pa_hp : highest_pfn st <= 2 ^ 40;
  pa_rc : exists rc, phys_refcount st = Some rc /\ forall i, 0 <= i < highest_pfn st -> 0 <= rc.[i] < 2 ^ 32;
  pa_zero : bitmap_test st 0 = true;
}.

Definition page_in_use (st : pmm) (p : Z) : Prop := bitmap_test st (addr_to_pfn p) = true.

Lemma page_pfn p q : is_page p -> is_page q -> p <> q -> addr_to_pfn p <> addr_to_pfn q.
Proof. unfold is_page, addr_to_pfn, PAGE_SIZE. intros. zlia. Qed.

Lemma page_pfn_range p : is_page p -> 0 <= addr_to_pfn p < 2 ^ 40.
Proof. unfold is_page, addr_to_pfn, PAGE_SIZE. change (2 ^ 52) with (2 ^ 40 * 4096). intros. zlia. Qed.

(** [pmm_refcount_get] through the reference-count array. *)
Definition rc_at (st : pmm) (pfn : Z) : Z :=
  match phys_refcount st with Some rc => if pfn <? highest_pfn st then rc.[pfn] else 0 | None => 0 end.

Lemma refcount_get_rc st p : is_page p -> p <> 0 -> pmm_refcount_get st p = rc_at st (addr_to_pfn p).
Proof. intros Hp Hz. unfold pmm_refcount_get, rc_at. by rewrite (proj2 (Z.eqb_neq p 0)). Qed.

Lemma refcount_get_ext st st' p :
  is_page p -> (p <> 0 -> rc_at st' (addr_to_pfn p) = rc_at st (addr_to_pfn p)) ->
  pmm_refcount_get st' p = pmm_refcount_get st p.
Proof.
  intros Hp H. destruct (decide (p = 0)) as [->|Hz]; [unfold pmm_refcount_get; by repeat case_match|].
  by rewrite !refcount_get_rc, H.
Qed.

Lemma rc_at_update st st' pfn x q :
  same_layout st st' -> pmm_wf st -> 0 <= pfn -> 0 <= q ->
  phys_refcount st' = (fun rc => rc.[pfn <- x]) <$> phys_refcount st ->
  rc_at st' q = if decide (pfn = q /\ phys_refcount st <> None /\ q < highest_pfn st) then x else rc_at st q.
Proof.
  intros Hl Hwf Hp Hq E. unfold rc_at. rewrite E, (sl_hp _ _ Hl).
  destruct (phys_refcount st) as [rc|] eqn:Er; simpl; [|by rewrite decide_False by naive_solver].
  pose proof (wf_rc st Hwf rc Er). destruct (Z.ltb_spec q (highest_pfn st)).
  - destruct (decide (pfn = q)) as [->|]; [rewrite decide_True by done; rewrite geti_seti_eq by lia; done|].
    rewrite decide_False by naive_solver. by rewrite geti_seti_ne by lia.
  - by rewrite decide_False by lia.
Qed.

Lemma pmm_allocator_ok_step st st' :
  pmm_allocator_ok st -> pmm_wf st' -> same_layout st st' -> bitmap_test st' 0 = true ->
  (phys_refcount st' = phys_refcount st \/ exists p x, 0 <= p /\ 0 <= x < 2 ^ 32 /\
     phys_refcount st' = (fun rc => rc.[p <- x]) <$> phys_refcount st) ->
  pmm_allocator_ok st'.
Proof.
  intros [W H (rc & Er & Hr) Z] W' L Z' Hrc. pose proof (sl_hp _ _ L).
  constructor; [done|lia| |done]. destruct Hrc as [E|(p & x & Hp & Hx & E)]; rewrite E, Er; simpl.
  - exists rc. split; [done|]. intros i Hi. apply Hr. lia.
  - eexists. split; [done|]. intros i Hi. pose proof (wf_rc st W rc Er).
    destruct (decide (p = i)) as [->|]; [rewrite geti_seti_eq by lia; lia|].
    rewrite geti_seti_ne by lia. apply Hr. lia.
Qed.

Lemma marks_ok P st st' : pmm_allocator_ok st -> marks P st st' -> pmm_allocator_ok st' /\
  (forall q, is_page q -> page_in_use st q -> page_in_use st' q) /\ forall q, rc_at st' q = rc_at st q.
Proof.
  intros Ha M. pose proof M as [W L T D R]. pose proof (sl_hp _ _ L).
  assert (forall q, 0 <= q -> bitmap_test st q = true -> bitmap_test st' q = true) as Hu.
  { intros q Hq Hb. destruct (decide (q < highest_pfn st)); [|apply bitmap_test_out; lia].
    by rewrite T, Hb by lia. }
  split; [|split].
  - apply (pmm_allocator_ok_step st); [done..|apply Hu; [lia|apply Ha]|by left].
  - intros q Hq Hb. apply Hu; [|done]. pose proof (page_pfn_range q Hq). lia.
  - intros q. unfold rc_at. by rewrite R, H.
Qed.

(** Pages that are neither used nor protected. *)
Definition page_free (st : pmm) (p : Z) : bool := negb (bitmap_test st p || pfn_protected st p).
Definition pmm_avail (st : pmm) : Z := count_from (page_free st) (Z.to_nat (highest_pfn st)) 0.

Lemma pmm_avail_alloc st p st' : claimed st p st' -> pmm_avail st' = pmm_avail st - 1.
Proof.
  intros [W L [R1 R2] F U _ T _ _]. pose proof (sl_hp _ _ L) as E. unfold pmm_avail. rewrite E.
  assert (forall q, pfn_protected st' q = pfn_protected st q) as Hp by (intros q; by apply same_layout_protected).
  rewrite (count_from_update (page_free st) (page_free st') _ 0 p) by
    (try lia; intros k Hk Hne; unfold page_free; rewrite Hp, T, (proj2 (Z.eqb_neq p k)) by lia;
     destruct (bitmap_test st k), (pfn_protected st k); simpl; by rewrite ?orb_true_r).
  unfold page_free. rewrite Hp, T, F, U, Z.eqb_refl by lia. simpl. lia.
Qed.

Lemma pmm_avail_scanned st t : scanned st (highest_pfn st) t -> pmm_avail st = 0.
Proof.
  intros [_ Hn]. apply count_from_zero. intros k Hk. unfold page_free. by rewrite Hn by lia.
Qed.

Lemma pmm_alloc_page_law st : pmm_allocator_ok st ->
  let '(st', p) := pmm_alloc_page st in
  pmm_allocator_ok st' /\ (forall q, is_page q -> page_in_use st q -> page_in_use st' q) /\
  (forall q, is_page q -> q <> p -> pmm_refcount_get st' q = pmm_refcount_get st q) /\
  (p = 0 \/ is_page p /\ p <> 0 /\ ~ page_in_use st p /\ page_in_use st' p /\ pmm_refcount_get st' p = 1) /\
  (0 < pmm_avail st -> p <> 0 /\ pmm_avail st' = pmm_avail st - 1).
Proof.
  intros Ha. pose proof (pmm_alloc_page_post st (pa_wf st Ha)) as Hpost.
  destruct (pmm_alloc_page st) as [st' a]. destruct Hpost as [(p & E & Hcl)|[E Hsc]]; simpl in *; subst a.
  2: { pose proof (pmm_avail_scanned st st' Hsc) as Hav. destruct Hsc as [M _]. destruct (marks_ok _ _ _ Ha M) as (H1 & H2 & H3). split; [done|]. split; [done|]. split; [|split; [by left|lia]].
       intros q Hq _. by apply refcount_get_ext. }
  pose proof (pmm_avail_alloc st p st' Hcl) as Hav. destruct Hcl as [W L [R1 R2] F U _ T D RC].
  pose proof (sl_hp _ _ L) as Hhp. pose proof (pa_hp st Ha) as H40.
  assert (0 < p) as Hp0. { destruct (decide (p = 0)) as [->|]; [|lia]. by rewrite (pa_zero st Ha) in F. }
  assert (is_page (p * PAGE_SIZE)) as Hpage.
  { split; unfold PAGE_SIZE; [change (2 ^ 52) with (2 ^ 40 * 4096); lia|zlia]. }
  assert (addr_to_pfn (p * PAGE_SIZE) = p) as Epfn by by apply Z.div_mul.
  assert (forall q, 0 <= q -> bitmap_test st q = true -> bitmap_test st' q = true) as Hu.
  { intros q Hq Hb. destruct (decide (q < highest_pfn st)); [|apply bitmap_test_out; lia]. by rewrite T, Hb by lia. }
  destruct (pa_rc st Ha) as (rc & Erc & _).
  assert (forall q, 0 <= q -> rc_at st' q = if decide (p = q) then 1 else rc_at st q) as Hrc.
  { intros q Hq. rewrite (rc_at_update st st' p 1 q) by (done || lia || apply Ha).
    rewrite Erc. repeat case_decide; naive_solver lia. }
  split; [|split; [|split; [|split]]].
  - apply (pmm_allocator_ok_step st); [done..|apply Hu; [lia|apply Ha]|]. right. exists p, 1. split; [lia|]. by split; [lia|].
  - intros q Hq Hb. apply Hu; [|done]. pose proof (page_pfn_range q Hq). lia.
  - intros q Hq Hne. apply refcount_get_ext; [done|]. intros _. pose proof (page_pfn_range q Hq).
    rewrite Hrc, decide_False; [done| |lia]. rewrite <- Epfn at 1. apply page_pfn; [done|done|congruence].
  - right. split; [done|]. split; [unfold PAGE_SIZE; lia|]. unfold page_in_use. rewrite Epfn.
    split; [by rewrite F|]. split; [rewrite T, Z.eqb_refl, orb_true_r by lia; done|].
    rewrite refcount_get_rc, Epfn, Hrc, decide_True by (done || unfold PAGE_SIZE; lia). done.
  - intros _. split; [unfold PAGE_SIZE; lia|done].
Qed.

Lemma pmm_free_page_law st p : pmm_allocator_ok st -> is_page p ->
  pmm_allocator_ok (pmm_free_page st p) /\
  forall q, is_page q -> q <> p ->
    (page_in_use (pmm_free_page st p) q <-> page_in_use st q) /\
    pmm_refcount_get (pmm_free_page st p) q = pmm_refcount_get st q.
Proof.
  intros Ha Hp. unfold pmm_free_page. destruct (Z.eqb_spec p 0) as [|Hz]; [done|].
  destruct (_ && _) eqn:E; [|done]. apply andb_true_iff in E as [Hlt%Z.ltb_lt Hb].
  pose proof (page_pfn_range p Hp) as Hr. pose proof (pa_wf st Ha) as Hwf.
  assert (0 < addr_to_pfn p) as Hp0 by (destruct Hp; unfold addr_to_pfn, PAGE_SIZE; zlia).
  destruct (clear_used_unmarks st (addr_to_pfn p) Hwf) as [W L T D RC]; [lia|done|].
  set (st1 := inc_used _ _) in *. set (st2 := set_refcount st1 _ 0).
  pose proof (sl_hp _ _ L) as Hhp.
  assert (same_layout st st2) as L2 by (etrans; [exact L|apply set_refcount_layout]).
  assert (phys_refcount st2 = (fun rc => rc.[addr_to_pfn p <- 0]) <$> phys_refcount st) as RC2
    by (unfold st2; by rewrite set_refcount_rc, RC).
  assert (forall q, 0 <= q -> q <> addr_to_pfn p -> bitmap_test st2 q = bitmap_test st q) as HT.
  { intros q Hq Hne. unfold st2. rewrite set_refcount_test. destruct (decide (q < highest_pfn st)).
    - rewrite T by lia. by rewrite (proj2 (Z.eqb_neq _ _)), andb_true_r by done.
    - by rewrite !bitmap_test_out by lia. }
  split.
  - apply (pmm_allocator_ok_step st); [done|by apply set_refcount_wf|done|rewrite HT by lia; apply Ha|].
    right. exists (addr_to_pfn p), 0. split; [lia|]. by split; [lia|].
  - intros q Hq Hne. pose proof (page_pfn_range q Hq). pose proof (page_pfn p q Hp Hq ltac:(done)).
    split; [unfold page_in_use; by rewrite HT by lia|]. apply refcount_get_ext; [done|]. intros _.
    rewrite (rc_at_update st st2 (addr_to_pfn p) 0) by (done || lia). by rewrite decide_False by naive_solver.
Qed.

Lemma pmm_refcount_dec_law st p : pmm_allocator_ok st -> is_page p ->
  let '(st', n) := pmm_refcount_dec st p in
  pmm_allocator_ok st' /\ (forall q, is_page q -> page_in_use st' q <-> page_in_use st q) /\
  n = Z.max 0 (pmm_refcount_get st p - 1) /\ pmm_refcount_get st' p = n /\
  forall q, is_page q -> q <> p -> pmm_refcount_get st' q = pmm_refcount_get st q.
Proof.
  intros Ha Hp. destruct (pa_rc st Ha) as (rc & Erc & Hrc). pose proof (page_pfn_range p Hp) as Hr.
  assert (pmm_refcount_get st p = if (p =? 0) then 0 else rc_at st (addr_to_pfn p)) as Eg.
  { destruct (Z.eqb_spec p 0) as [->|]; [unfold pmm_refcount_get; by case_match|by apply refcount_get_rc]. }
  unfold pmm_refcount_dec. rewrite Erc. rewrite Eg. unfold rc_at at 1. rewrite Erc.
  destruct (Z.eqb_spec p 0) as [->|Hz]; [done|]. destruct (Z.ltb_spec (addr_to_pfn p) (highest_pfn st)) as [Hlt|Hge].
  2: { simpl. rewrite Eg. unfold rc_at. rewrite Erc, (proj2 (Z.ltb_ge _ _)) by done. done. }
  pose proof (Hrc (addr_to_pfn p) ltac:(lia)) as Hv. destruct (Z.ltb_spec 0 rc.[addr_to_pfn p]) as [H0|H0]; simpl.
  2: { rewrite Eg. split; [done|]. split; [done|]. unfold rc_at. rewrite Erc, (proj2 (Z.ltb_lt _ _)) by done.
       split; [lia|]. split; [lia|done]. }
  set (st2 := with_refcount st _).
  assert (same_layout st st2) as L by by constructor. pose proof (pa_wf st Ha) as Hwf.
  assert (phys_refcount st2 = (fun rc' => rc'.[addr_to_pfn p <- rc.[addr_to_pfn p] - 1]) <$> phys_refcount st) as RC2
    by (by rewrite Erc).
  assert (forall q, is_page q -> q <> 0 -> pmm_refcount_get st2 q =
    if decide (q = p) then rc.[addr_to_pfn p] - 1 else pmm_refcount_get st q) as HG.
  { intros q Hq Hqz. pose proof (page_pfn_range q Hq). rewrite !refcount_get_rc by done.
    rewrite (rc_at_update st st2 (addr_to_pfn p) (rc.[addr_to_pfn p] - 1)) by (done || lia).
    rewrite Erc. destruct (decide (q = p)) as [->|Hne]; [by rewrite decide_True|].
    pose proof (page_pfn p q Hp Hq ltac:(done)). by rewrite decide_False by naive_solver. }
  split; [|split; [done|]].
  - apply (pmm_allocator_ok_step st); [done| |done|apply Ha|].
    + destruct Hwf as [? ? ? ? ? ? Hl]. constructor; try done. simpl. intros ? [= <-]. autorewrite with arr. by apply Hl.
    + right. exists (addr_to_pfn p), (rc.[addr_to_pfn p] - 1). split; [lia|]. by split; [lia|].
  - rewrite (HG p) by done. rewrite decide_True by done. split; [lia|]. split; [done|].
    intros q Hq Hne. destruct (decide (q = 0)) as [->|]; [unfold pmm_refcount_get; by repeat case_match|].
    rewrite HG by done. by rewrite decide_False.
Qed.

Lemma pmm_refcount_inc_ok st p : pmm_allocator_ok st -> is_page p ->
  pmm_allocator_ok (pmm_refcount_inc st p) /\ forall q, page_in_use (pmm_refcount_inc st p) q <-> page_in_use st q.
Proof.
  intros Ha Hp. destruct (pa_rc st Ha) as (rc & Erc & Hrc). pose proof (page_pfn_range p Hp) as Hr.
  unfold pmm_refcount_inc. rewrite Erc. destruct (p =? 0); [done|]. destruct (Z.ltb_spec (addr_to_pfn p) (highest_pfn st)); [|done].
  split; [|done]. destruct (pa_wf st Ha) as [? ? ? ? ? ? Hl]. apply (pmm_allocator_ok_step st); [done| |by constructor|apply Ha|].
  - constructor; try done. simpl. intros ? [= <-]. unfold alti. autorewrite with arr. by apply Hl.
  - right. exists (addr_to_pfn p), (u32 (rc.[addr_to_pfn p] + 1)). split; [lia|]. split; [by apply wrap_range|]. by rewrite Erc.
Qed.

#[export] Instance pmm_allocator : PageAllocator pmm := {
  alloc_page := pmm_alloc_page;
  free_page := pmm_free_page;
  ref_dec := pmm_refcount_dec;
  ref_get := pmm_refcount_get;
  allocator_ok := pmm_allocator_ok;
  in_use := page_in_use;
  avail := pmm_avail;
  alloc_page_law := pmm_alloc_page_law;
  free_page_law := pmm_free_page_law;
  ref_dec_law := pmm_refcount_dec_law;
}.

(** ** Giving pages back

    The pages that the allocator manages, which it keeps, are free once they are
    given back. *)
Class PageReclaim (A : Type) `{PageAllocator A} := {
  managed : A -> Z -> Prop;
  alloc_managed a : allocator_ok a -> let '(a', p) := alloc_page a in
    (p = 0 \/ managed a' p) /\ forall q, managed a q -> managed a' q;
  free_managed a p q : managed a q -> managed (free_page a p) q;
  ref_dec_managed a p q : managed a q -> managed (ref_dec a p).1 q;
  reclaim_law a p : allocator_ok a -> is_page p -> managed a p -> ~ in_use (free_page a p) p;
}.

Definition pmm_managed (st : pmm) (p : Z) : Prop := 0 < addr_to_pfn p < highest_pfn st.

Lemma pmm_alloc_managed st : pmm_allocator_ok st -> let '(st', p) := pmm_alloc_page st in
  (p = 0 \/ pmm_managed st' p) /\ forall q, pmm_managed st q -> pmm_managed st' q.
Proof.
  intros Ha. pose proof (pmm_alloc_page_post st (pa_wf st Ha)) as Hpost. unfold pmm_managed.
  destruct (pmm_alloc_page st) as [st' a]. destruct Hpost as [(p & E & [W L [R1 R2] F U _ T D RC])|[E [[_ L] _]]]; cbn [fst snd] in *; subst a;
    rewrite (sl_hp _ _ L); (split; [|done]); [|by left].
  destruct (decide (p = 0)) as [->|]; [by rewrite (pa_zero st Ha) in F|]. right.
  unfold addr_to_pfn. rewrite Z.div_mul by done. lia.
Qed.

Lemma pmm_free_page_hp st p : highest_pfn (pmm_free_page st p) = highest_pfn st.
Proof. unfold pmm_free_page. repeat case_match; try done. rewrite set_refcount_hp. unfold bitmap_clear. simpl. by case_match. Qed.

Lemma pmm_refcount_dec_hp st p : highest_pfn (pmm_refcount_dec st p).1 = highest_pfn st.
Proof. unfold pmm_refcount_dec. by repeat case_match. Qed.

Lemma pmm_reclaim_law st p :
  pmm_allocator_ok st -> is_page p -> pmm_managed st p -> ~ page_in_use (pmm_free_page st p) p.
Proof.
  intros Ha Hp [H0 Hlt]. unfold pmm_free_page. destruct (Z.eqb_spec p 0) as [->|Hz]; [done|].
  rewrite (proj2 (Z.ltb_lt _ _)) by done. cbn [andb]. unfold page_in_use.
  destruct (bitmap_test st (addr_to_pfn p)) eqn:E; [|by rewrite E].
  rewrite set_refcount_test, inc_used_test, bitmap_test_clear by (lia || apply Ha). by rewrite decide_True.
Qed.

Lemma pmm_free_managed st p q : pmm_managed st q -> pmm_managed (pmm_free_page st p) q.
Proof. unfold pmm_managed. by rewrite pmm_free_page_hp. Qed.

Lemma pmm_dec_managed st p q : pmm_managed st q -> pmm_managed (pmm_refcount_dec st p).1 q.
Proof. unfold pmm_managed. by rewrite pmm_refcount_dec_hp. Qed.

#[export] Instance pmm_reclaim : PageReclaim pmm := {
  managed := pmm_managed;
  alloc_managed := pmm_alloc_managed;
  free_managed := pmm_free_managed;
  ref_dec_managed := pmm_dec_managed;
  reclaim_law := pmm_reclaim_law;
}.

(** ** Marking pages used

    What fork needs besides: marking a page that is in use changes no page. *)
Class PageMarker (A : Type) `{PageAllocator A} := {
  mark_used : A -> Z -> A;
  mark_used_law a p : allocator_ok a -> is_page p -> in_use a p ->
    allocator_ok (mark_used a p) /\ (forall q, is_page q -> in_use (mark_used a p) q <-> in_use a q) /\
    avail (mark_used a p) = avail a;
}.

Lemma pmm_mark_used_law st p : pmm_allocator_ok st -> is_page p -> page_in_use st p ->
  pmm_allocator_ok (pmm_mark_used st p) /\ (forall q, is_page q -> page_in_use (pmm_mark_used st p) q <-> page_in_use st q) /\
  pmm_avail (pmm_mark_used st p) = pmm_avail st.
Proof.
  intros Ha Hp Hu. pose proof (page_pfn_range p Hp) as Hr. unfold pmm_mark_used. destruct (Z.leb_spec (highest_pfn st) (addr_to_pfn p)); [done|].
  unfold page_in_use in Hu. unfold mark_pfn. rewrite Hu. set (st' := set_refcount st _ 1).
  assert (L : same_layout st st') by apply set_refcount_layout.
  assert (T : forall q, bitmap_test st' q = bitmap_test st q) by (intros q; apply set_refcount_test).
  split; [|split].
  - apply (pmm_allocator_ok_step st); [done|apply set_refcount_wf, Ha|done|rewrite T; apply Ha|].
    right. exists (addr_to_pfn p), 1. split; [lia|]. split; [lia|]. apply set_refcount_rc.
  - intros q _. unfold page_in_use. by rewrite T.
  - unfold pmm_avail. rewrite (sl_hp _ _ L). apply count_from_ext. intros k _. unfold page_free. rewrite T. unfold pfn_protected. by rewrite (same_layout_protected _ _ _ L).
Qed.

#[export] Instance pmm_marker : PageMarker pmm := {
  mark_used := pmm_mark_used;
  mark_used_law := pmm_mark_used_law;
}.
