(* ===== verification/Vmm.v ===== *)
(** * Virtual memory: mm/vmm.c

    Physical memory is the function [pm] from the addresses of 64-bit words to
    their values; page tables live in it, as in the identity-mapped memory of
    the kernel.  The page allocator is any [PageAllocator].  TLB invalidation,
    SMAP toggling and messages have no effect on this state. *)

From S2P Require Import Prelude Pmm PageAlloc.

(** ** include/lestra/mm.h *)

Definition PAGE_PRESENT : Z := 0x001.
Definition PAGE_WRITABLE : Z := 0x002.
Definition PAGE_USER : Z := 0x004.
Definition PAGE_HUGE : Z := 0x080.
Definition PAGE_COW : Z := 0x200.
Definition PAGE_NX : Z := Z.shiftl 1 63.

Definition has (e f : Z) : bool := negb (Z.land e f =? 0).

(** ** State *)

Record vm (A : Type) := mkVm { pa : A; pm : Z -> Z }.
Arguments mkVm {A}.
Arguments pa {A}.
Arguments pm {A}.

(** [&table[i]] for a table of 64-bit entries. *)
Definition slot (table i : Z) : Z := table + 8 * i.

Definition mset (m : Z -> Z) (a v : Z) : Z -> Z := fun x => if x =? a then v else m x.

(** [memset(p, 0, PAGE_SIZE)], and [memcpy(dst, src, PAGE_SIZE)] *)
Definition in_page (p x : Z) : bool := (p <=? x) && (x <? p + PAGE_SIZE).
Definition zero_page (m : Z -> Z) (p : Z) : Z -> Z := fun x => if in_page p x then 0 else m x.
Definition copy_page (m : Z -> Z) (dst src : Z) : Z -> Z := fun x => if in_page dst x then m (x - dst + src) else m x.

(** Index of an address in the table of a level: 3 for the PML4, 0 for the PT. *)
Definition idx (level : Z) (virt : Z) : Z := Z.land (Z.shiftr virt (12 + 9 * level)) 0x1FF.

Definition frame_of (e : Z) : Z := Z.land e PTE_PHYS_MASK.

Inductive pt_level := LEVEL_PT | LEVEL_PD | LEVEL_PDPT.

Definition get_pte_level (m : Z -> Z) (pml4 virt : Z) : option (Z * pt_level) :=
  let e4 := m (slot pml4 (idx 3 virt)) in
  if negb (has e4 PAGE_PRESENT) then None
  else
    let pdpt := frame_of e4 in
    let e3 := m (slot pdpt (idx 2 virt)) in
    if negb (has e3 PAGE_PRESENT) then None
    else if has e3 PAGE_HUGE then Some (slot pdpt (idx 2 virt), LEVEL_PDPT)
    else
      let pd := frame_of e3 in
      let e2 := m (slot pd (idx 1 virt)) in
      if negb (has e2 PAGE_PRESENT) then None
      else if has e2 PAGE_HUGE then Some (slot pd (idx 1 virt), LEVEL_PD)
      else Some (slot (frame_of e2) (idx 0 virt), LEVEL_PT).

Section operations.
Context {A : Type} `{PageAllocator A}.
Implicit Types (s : vm A) (virt paddr flags : Z).

Definition set_pm s (m : Z -> Z) : vm A := mkVm (pa s) m.
Definition write s (a v : Z) : vm A := set_pm s (mset (pm s) a v).
Definition pa_free s (p : Z) : vm A := mkVm (free_page (pa s) p) (pm s).

(** "if (is_user) *e |= PAGE_USER" *)
Definition or_user s (e : Z) (is_user : bool) : vm A :=
  if is_user then write s e (Z.lor (pm s e) PAGE_USER) else s.

(** The entry [e] of an upper table: a new, zeroed table when it is not
    present; false for the early return of an allocation that fails. *)
Definition map_table s (e : Z) (is_user : bool) (table_flags : Z) : vm A * bool :=
  if negb (has (pm s e) PAGE_PRESENT) then
    let '(a, p) := alloc_page (pa s) in
    if p =? 0 then (mkVm a (pm s), false)
    else
      let s := mkVm a (zero_page (pm s) p) in
      (or_user (write s e (Z.lor p table_flags)) e is_user, true)
  else (or_user s e is_user, true).

(** A table of 512 entries that map the 2 MB from [base] on. *)
Definition fill_pt (m : Z -> Z) (pt base flags : Z) : Z -> Z :=
  for_each (fun i m => mset m (slot pt i) (Z.lor (u64 (base + i * PAGE_SIZE)) flags)) 512 0 (zero_page m pt).

Definition split_huge s (e : Z) (is_user : bool) : vm A * bool :=
  let old_entry := pm s e in
  let huge_base := Z.land old_entry PTE_PHYS_MASK in
  let huge_flags := Z.land (Z.land old_entry (Z.lnot PTE_PHYS_MASK)) (Z.lnot PAGE_HUGE) in
  let huge_flags := Z.land huge_flags (Z.lnot PAGE_USER) in
  let '(a, p) := alloc_page (pa s) in
  if p =? 0 then (mkVm a (pm s), false)
  else
    let s := mkVm a (fill_pt (pm s) p huge_base huge_flags) in
    let entry := Z.lor (Z.lor p (Z.land (Z.land old_entry (Z.lnot PAGE_HUGE)) (Z.lnot PTE_PHYS_MASK))) PAGE_PRESENT in
    (or_user (write s e entry) e is_user, true).

(** The end of [vmm_map_page]: the entry of the page itself. *)
Definition set_leaf s (e paddr flags : Z) : vm A :=
  let old := pm s e in
  let entry := Z.lor (Z.lor paddr flags) PAGE_PRESENT in
  if has old PAGE_PRESENT && (frame_of old =? paddr) then write s e entry
  else
    let s := if has old PAGE_PRESENT && has old PAGE_USER then
               let '(a, n) := ref_dec (pa s) (frame_of old) in
               let s := mkVm a (pm s) in
               if n =? 0 then pa_free s (frame_of old) else s
             else s in
    write s e entry.

Definition vmm_map_page s (pml4 : Z) virt paddr flags : vm A :=
  let is_user := has flags PAGE_USER in
  let table_flags := Z.lor PAGE_PRESENT PAGE_WRITABLE in
  let table_flags := if is_user then Z.lor table_flags PAGE_USER else table_flags in
  let e4 := slot pml4 (idx 3 virt) in
  let '(s, ok) := map_table s e4 is_user table_flags in
  if negb ok then s
  else
    let e3 := slot (frame_of (pm s e4)) (idx 2 virt) in
    let '(s, ok) := map_table s e3 is_user table_flags in
    if negb ok then s
    else if has (pm s e3) PAGE_HUGE then s
    else
      let e2 := slot (frame_of (pm s e3)) (idx 1 virt) in
      let '(s, ok) := if has (pm s e2) PAGE_HUGE then split_huge s e2 is_user else (s, true) in
      if negb ok then s
      else
        let '(s, ok) := map_table s e2 is_user table_flags in
        if negb ok then s
        else set_leaf s (slot (frame_of (pm s e2)) (idx 0 virt)) paddr flags.

Definition vmm_unmap_page s (pml4 : Z) virt : vm A :=
  match get_pte_level (pm s) pml4 virt with
  | Some (pte, _) =>
      if has (pm s pte) PAGE_PRESENT then
        if has (pm s pte) PAGE_HUGE then s else write s pte 0
      else s
  | None => s
  end.

Definition vmm_get_phys s (pml4 : Z) virt : Z :=
  match get_pte_level (pm s) pml4 virt with
  | Some (pte, level) =>
      let e := pm s pte in
      if has e PAGE_PRESENT then
        if has e PAGE_HUGE then
          let entry := Z.land e 0x000FFFFFFFFFF000 in
          match level with
          | LEVEL_PDPT => Z.lor (Z.land entry (Z.lnot 0x3FFFFFFF)) (Z.land virt 0x3FFFFFFF)
          | _ => Z.lor (Z.land entry (Z.lnot 0x1FFFFF)) (Z.land virt 0x1FFFFF)
          end
        else Z.lor (Z.land e PTE_PHYS_MASK) (Z.land virt 0xFFF)
      else 0
  | None => 0
  end.

Definition vmm_create_address_space s : vm A * Z :=
  let '(a, p) := alloc_page (pa s) in
  if p =? 0 then (mkVm a (pm s), 0) else (mkVm a (zero_page (pm s) p), p).

(** The entries [lo .. 511] of a table that are present and, except in the
    PML4 and the PT, no huge page; [body] gets the frame of each. *)
Definition each_entry (lo : Z) (skip_huge : bool) (body : Z -> vm A -> vm A) (table : Z) s : vm A :=
  for_each (fun i s =>
    let e := pm s (slot table i) in
    if negb (has e PAGE_PRESENT) then s
    else if skip_huge && has e PAGE_HUGE then s
    else body (frame_of e) s) (Z.to_nat (512 - lo)) lo s.

Definition free_leaf (page : Z) s : vm A :=
  let '(a, n) := ref_dec (pa s) page in
  if n =? 0 then pa_free (mkVm a (pm s)) page else mkVm a (pm s).

Definition free_pt (pt : Z) s : vm A := pa_free (each_entry 0 false free_leaf pt s) pt.
Definition free_pd (pd : Z) s : vm A := pa_free (each_entry 0 true free_pt pd s) pd.
Definition free_pdpt_subtree (pdpt : Z) s : vm A := pa_free (each_entry 0 true free_pd pdpt s) pdpt.

Definition vmm_destroy_address_space s (pml4 : Z) : vm A :=
  if pml4 =? 0 then s else pa_free (each_entry 4 false free_pdpt_subtree pml4 s) pml4.

(** [vmm_alloc_page] with its static [next_virt], for the tables at [boot_pml4]. *)
Definition VMM_ALLOC_REGION_START : Z := 0x80000000.
Definition VMM_ALLOC_REGION_END : Z := 0xC0000000.

Definition vmm_alloc_page s (boot_pml4 next_virt flags : Z) : vm A * Z * Z :=
  let '(a, phys) := alloc_page (pa s) in
  let s := mkVm a (pm s) in
  if phys =? 0 then (s, next_virt, 0)
  else if VMM_ALLOC_REGION_END <=? next_virt then (s, next_virt, 0)
  else (vmm_map_page s boot_pml4 next_virt phys flags, next_virt + PAGE_SIZE, next_virt).

Definition vmm_free_page_ptr s (boot_pml4 ptr : Z) : vm A :=
  if ptr =? 0 then s
  else
    let phys := vmm_get_phys s boot_pml4 ptr in
    if phys =? 0 then s else vmm_unmap_page (pa_free s phys) boot_pml4 ptr.

Definition vmm_map_region s (boot_pml4 virt phys pages flags : Z) : vm A :=
  for_each (fun i s => vmm_map_page s boot_pml4 (u64 (virt + i * PAGE_SIZE)) (u64 (phys + i * PAGE_SIZE)) flags)
    (Z.to_nat pages) 0 s.
End operations.

(** ** Entries *)

(** What a walk looks at in an entry. *)
Definition view (e : Z) : bool * bool * Z := (has e PAGE_PRESENT, has e PAGE_HUGE, frame_of e).

Lemma view_inv e e' : view e = view e' ->
  has e PAGE_PRESENT = has e' PAGE_PRESENT /\ has e PAGE_HUGE = has e' PAGE_HUGE /\ frame_of e = frame_of e'.
Proof. by intros [= ]. Qed.

Lemma has_lor a b f : has (Z.lor a b) f = has a f || has b f.
Proof.
  unfold has. rewrite Z.land_lor_distr_l.
  destruct (Z.eqb_spec (Z.lor (Z.land a f) (Z.land b f)) 0) as [E|E]; rewrite Z.lor_eq_0_iff in E.
  - destruct E as [-> ->]. done.
  - destruct (Z.eqb_spec (Z.land a f) 0), (Z.eqb_spec (Z.land b f) 0); done || tauto.
Qed.

Lemma has_land e g f : Z.land g f = 0 -> has (Z.land e g) f = false.
Proof. intros E. unfold has. by rewrite <- Z.land_assoc, E, Z.land_0_r. Qed.

Lemma has_land_id e g f : Z.land g f = f -> has (Z.land e g) f = has e f.
Proof. intros E. unfold has. by rewrite <- Z.land_assoc, E. Qed.

(** A page address has no flag bits. *)
Lemma page_flags p f : is_page p -> Z.land PTE_PHYS_MASK f = 0 -> has p f = false.
Proof. intros [_ <-]%is_page_mask. apply has_land. Qed.

Lemma page_frame p f : is_page p -> Z.land f PTE_PHYS_MASK = 0 -> frame_of (Z.lor p f) = p.
Proof. intros [_ E]%is_page_mask Hf. unfold frame_of. by rewrite Z.land_lor_distr_l, E, Hf, Z.lor_0_r. Qed.

Lemma view_or_user e : view (Z.lor e PAGE_USER) = view e.
Proof.
  unfold view. rewrite !has_lor. change (has PAGE_USER PAGE_PRESENT) with false. change (has PAGE_USER PAGE_HUGE) with false.
  rewrite !orb_false_r. f_equal. unfold frame_of. rewrite Z.land_lor_distr_l. apply Z.lor_0_r.
Qed.

Lemma lor_word a b : 0 <= a < 2 ^ 64 -> 0 <= b < 2 ^ 64 -> 0 <= Z.lor a b < 2 ^ 64.
Proof.
  intros Ha Hb. assert (0 <= Z.lor a b) by (apply Z.lor_nonneg; lia). split; [done|].
  apply word_of_bits; [lia|done|]. intros i Hi. by rewrite Z.lor_spec, !(testbit_high 64) by lia.
Qed.

Lemma land_word a b : 0 <= a < 2 ^ 64 -> 0 <= Z.land a b < 2 ^ 64.
Proof.
  intros Ha. assert (0 <= Z.land a b) by (apply Z.land_nonneg; lia). split; [done|].
  apply word_of_bits; [lia|done|]. intros i Hi. by rewrite Z.land_spec, (testbit_high 64) by lia.
Qed.

Lemma page_word p : is_page p -> 0 <= p < 2 ^ 64.
Proof. intros [Hp _]. lia. Qed.

(** ** Slots *)

Definition index_ok (i : Z) : Prop := 0 <= i < 512.

Lemma in_page_spec p x : in_page p x = true <-> p <= x < p + 4096.
Proof. unfold in_page, PAGE_SIZE. rewrite andb_true_iff, Z.leb_le, Z.ltb_lt. done. Qed.

Lemma slot_in t i : index_ok i -> in_page t (slot t i) = true.
Proof. unfold index_ok, slot. rewrite in_page_spec. lia. Qed.

Lemma slot_out t z i : is_page t -> is_page z -> t <> z -> index_ok i -> in_page z (slot t i) = false.
Proof.
  unfold is_page, index_ok, slot. intros Ht Hz Hne Hi. apply not_true_iff_false. rewrite in_page_spec. zlia.
Qed.

Lemma slot_inj t u i j : is_page t -> is_page u -> index_ok i -> index_ok j -> slot t i = slot u j -> t = u /\ i = j.
Proof. unfold is_page, index_ok, slot. intros. zlia. Qed.

Lemma idx_ok l v : index_ok (idx l v).
Proof.
  unfold idx, index_ok. change 0x1FF with (Z.ones 9). rewrite Z.land_ones by lia. by apply Z.mod_pos_bound.
Qed.

Lemma idx_div l v : 0 <= l -> idx l v = v / 2 ^ (12 + 9 * l) mod 512.
Proof. intros Hl. unfold idx. change 0x1FF with (Z.ones 9). by rewrite Z.land_ones, Z.shiftr_div_pow2 by lia. Qed.

Lemma idx_align l v : 0 <= l -> idx l (v / 4096 * 4096) = idx l v.
Proof.
  intros Hl. rewrite !idx_div by lia.
  replace (2 ^ (12 + 9 * l)) with (4096 * 2 ^ (9 * l)) by (rewrite Z.pow_add_r by lia; done).
  rewrite <- !Z.div_div by (apply Z.pow_pos_nonneg || done; lia). by rewrite Z.div_mul.
Qed.

Lemma idx_page l v w : 0 <= l -> v / 4096 = w / 4096 -> idx l v = idx l w.
Proof. intros Hl E. rewrite <- (idx_align l v), <- (idx_align l w), E by done. done. Qed.

(** The indices determine the page of a 48-bit address. *)
Lemma idx_inj v w :
  0 <= v < 2 ^ 48 -> 0 <= w < 2 ^ 48 ->
  idx 0 v = idx 0 w -> idx 1 v = idx 1 w -> idx 2 v = idx 2 w -> idx 3 v = idx 3 w -> v / 4096 = w / 4096.
Proof.
  intros Hv Hw. rewrite !idx_div by lia.
  change (2 ^ (12 + 9 * 0)) with 4096. change (2 ^ (12 + 9 * 1)) with 2097152.
  change (2 ^ (12 + 9 * 2)) with 1073741824. change (2 ^ (12 + 9 * 3)) with 549755813888.
  change (2 ^ 48) with 281474976710656 in *. zlia.
Qed.

(** ** Tables by their path from the root

    A path lists the indices from the last one up; the empty path is the PML4. *)

Definition child (depth : nat) (e : Z) : option Z :=
  if has e PAGE_PRESENT && negb (negb (depth =? 0)%nat && has e PAGE_HUGE) then Some (frame_of e) else None.

Fixpoint tab (m : Z -> Z) (root : Z) (path : list Z) : option Z :=
  match path with
  | [] => Some root
  | i :: up => t ← tab m root up; child (length up) (m (slot t i))
  end.

Definition path_ok (path : list Z) : Prop := Forall index_ok path /\ (length path <= 3)%nat.

Definition path3 (v : Z) : list Z := [idx 3 v].
Definition path2 (v : Z) : list Z := idx 2 v :: path3 v.
Definition path1 (v : Z) : list Z := idx 1 v :: path2 v.

Lemma path1_page v w : v / 4096 = w / 4096 -> path1 v = path1 w.
Proof. intros E. unfold path1, path2, path3. by rewrite !(idx_page _ v w) by (lia || done). Qed.

Lemma path_ok_cons i up : path_ok (i :: up) -> path_ok up /\ index_ok i /\ (length up <= 2)%nat.
Proof. intros [H Hl]. apply Forall_cons_1 in H as [Hi Hu]. simpl in Hl. split; [split; [done|lia]|]. split; [done|lia]. Qed.

Lemma path1_ok v : path_ok (path1 v).
Proof. split; [|simpl; lia]. repeat (apply Forall_cons; [apply idx_ok|]). by apply Forall_nil. Qed.

Lemma child_view d e e' : view e = view e' -> child d e = child d e'.
Proof. unfold view, child. by intros [= -> -> ->]. Qed.

(** The translation an entry gives at a level. *)
Definition leaf_phys (e : Z) (level : pt_level) (virt : Z) : Z :=
  if has e PAGE_PRESENT then
    if has e PAGE_HUGE then
      match level with
      | LEVEL_PDPT => Z.lor (Z.land (frame_of e) (Z.lnot 0x3FFFFFFF)) (Z.land virt 0x3FFFFFFF)
      | _ => Z.lor (Z.land (frame_of e) (Z.lnot 0x1FFFFF)) (Z.land virt 0x1FFFFF)
      end
    else Z.lor (frame_of e) (Z.land virt 0xFFF)
  else 0.

Lemma leaf_phys_view e e' l v : view e = view e' -> leaf_phys e l v = leaf_phys e' l v.
Proof. unfold view, leaf_phys. by intros [= -> -> ->]. Qed.

(** [vmm_get_phys] by the deepest table there is. *)
Definition phys_of (m : Z -> Z) (root virt : Z) : Z :=
  match tab m root (path1 virt) with
  | Some pt => leaf_phys (m (slot pt (idx 0 virt))) LEVEL_PT virt
  | None =>
      match tab m root (path2 virt) with
      | Some pd => leaf_phys (m (slot pd (idx 1 virt))) LEVEL_PD virt
      | None =>
          match tab m root (path3 virt) with
          | Some pdpt => leaf_phys (m (slot pdpt (idx 2 virt))) LEVEL_PDPT virt
          | None => 0
          end
      end
  end.

Lemma get_phys_tab {A} (s : vm A) root v : vmm_get_phys s root v = phys_of (pm s) root v.
Proof.
  unfold vmm_get_phys, phys_of, get_pte_level, path1, path2, path3, leaf_phys. cbn [tab length mbind option_bind].
  unfold child. cbn [Nat.eqb negb andb].
  destruct (has (pm s (slot root (idx 3 v))) PAGE_PRESENT); cbn [negb andb mbind option_bind]; [|done].
  set (e3 := pm s (slot (frame_of _) (idx 2 v))).
  destruct (has e3 PAGE_PRESENT) eqn:P3; cbn [negb andb mbind option_bind]; [|done].
  destruct (has e3 PAGE_HUGE) eqn:H3; cbn [negb andb mbind option_bind].
  { fold e3. rewrite P3, H3. done. }
  set (e2 := pm s (slot (frame_of e3) (idx 1 v))).
  destruct (has e2 PAGE_PRESENT) eqn:P2; cbn [negb andb]; [|done].
  destruct (has e2 PAGE_HUGE) eqn:H2; cbn [negb andb]; [|done].
  fold e2. rewrite P2, H2. done.
Qed.

(** ** Invariant *)

(** The frame a user page maps through entry [j] of the page table at [up]. *)
Definition uleaf (m : Z -> Z) (root : Z) (up : list Z) (j : Z) : option Z :=
  pt ← tab m root up;
  let e := m (slot pt j) in if has e PAGE_PRESENT && has e PAGE_USER then Some (frame_of e) else None.

Definition pt_path (up : list Z) (j : Z) : Prop := path_ok up /\ length up = 3%nat /\ index_ok j.

Section invariant.
Context {A : Type} `{PageAllocator A}.
Implicit Types (s : vm A).

(** The tables below [root] form a tree of pages in use; what user entries map
    is in use, no table, and mapped once. *)
Record vm_ok s (root : Z) : Prop := {
  vo_word : forall x, 0 <= pm s x < 2 ^ 64;
  vo_alloc : allocator_ok (pa s);
  vo_tab : forall P t, path_ok P -> tab (pm s) root P = Some t -> is_page t /\ in_use (pa s) t;
  vo_inj : forall P Q t, path_ok P -> path_ok Q ->
    tab (pm s) root P = Some t -> tab (pm s) root Q = Some t -> P = Q;
  vo_huge : forall P t i, path_ok (i :: P) -> length P = 2%nat -> tab (pm s) root P = Some t ->
    has (pm s (slot t i)) PAGE_HUGE = true -> frame_of (pm s (slot t i)) mod 2 ^ 21 = 0;
  vo_user : forall P j p, pt_path P j -> uleaf (pm s) root P j = Some p ->
    in_use (pa s) p /\ forall Q, path_ok Q -> tab (pm s) root Q <> Some p;
  vo_sole : forall P j Q k p, pt_path P j -> pt_path Q k ->
    uleaf (pm s) root P j = Some p -> uleaf (pm s) root Q k = Some p -> P = Q /\ j = k;
}.

(** Entry [i] of the table at [up] is a huge page. *)
Definition huge_at (m : Z -> Z) (root i : Z) (up : list Z) : bool :=
  match tab m root up with
  | Some t => let e := m (slot t i) in has e PAGE_PRESENT && has e PAGE_HUGE
  | None => false
  end.

(** A page in use that is no table. *)
Definition data_page (root : Z) s (q : Z) : Prop :=
  is_page q /\ in_use (pa s) q /\ forall Q, path_ok Q -> tab (pm s) root Q <> Some q.

(** Steps that only build tables: every translation stays. *)
Record tables_kept (root : Z) s s' : Prop := {
  tk_ok : vm_ok s' root;
  tk_phys : forall v, phys_of (pm s') root v = phys_of (pm s) root v;
  tk_use : forall q, is_page q -> in_use (pa s) q -> in_use (pa s') q;
  tk_tab : forall P t, path_ok P -> tab (pm s) root P = Some t -> tab (pm s') root P = Some t;
  tk_new : forall P t, path_ok P -> tab (pm s') root P = Some t -> tab (pm s) root P = Some t \/ ~ in_use (pa s) t;
  tk_user : forall P j, pt_path P j -> uleaf (pm s') root P j = uleaf (pm s) root P j;
  tk_huge : forall P i, path_ok (i :: P) -> huge_at (pm s') root i P = true -> huge_at (pm s) root i P = true;
  tk_mem : forall q x, data_page root s q -> in_page q x = true -> pm s' x = pm s x;
  tk_entry : forall P t j, pt_path P j -> tab (pm s) root P = Some t -> pm s' (slot t j) = pm s (slot t j);
}.

Lemma tables_kept_refl root s : vm_ok s root -> tables_kept root s s.
Proof. intros Hs. constructor; try done. intros. by left. Qed.

Lemma tables_kept_trans root s1 s2 s3 :
  vm_ok s1 root -> tables_kept root s1 s2 -> tables_kept root s2 s3 -> tables_kept root s1 s3.
Proof.
  intros H1 [O2 P2 U2 T2 N2 L2 G2 M2 E2] [O3 P3 U3 T3 N3 L3 G3 M3 E3]. constructor; auto.
  - intros v. by rewrite P3.
  - intros P t HP Ht. destruct (N3 P t HP Ht) as [Ht2|Hn]; [by apply N2|]. right. intros Hu. apply Hn, U2; [|done].
    by apply (vo_tab _ _ O3 P t).
  - intros P j Hp. by rewrite L3, L2.
  - intros q x Hd Hx. rewrite (M3 q x), (M2 q x); [done..| |done]. destruct Hd as (Hq & Hu & Hn).
    split; [done|]. split; [by apply U2|]. intros Q HQ Ht. destruct (N2 Q q HQ Ht); [by apply (Hn Q)|done].
  - intros P t j HP Ht. rewrite (E3 P t j), (E2 P t j); [done..|]. apply T2; [apply HP|done].
Qed.

(** ** Writing an entry of an upper table *)

Lemma tab_view (m m' : Z -> Z) root P :
  (forall x, view (m' x) = view (m x)) -> tab m' root P = tab m root P.
Proof.
  intros Hv. induction P as [|i up IH]; [done|]. simpl. rewrite IH.
  destruct (tab m root up) as [t|]; [|done]. simpl. apply child_view, Hv.
Qed.

Lemma phys_of_view (m m' : Z -> Z) root v :
  (forall x, view (m' x) = view (m x)) -> phys_of m' root v = phys_of m root v.
Proof.
  intros Hv. unfold phys_of. rewrite !(tab_view m m') by done. repeat case_match; try done; by apply leaf_phys_view.
Qed.

Lemma or_user_kept root s P t i b :
  vm_ok s root -> path_ok (i :: P) -> tab (pm s) root P = Some t -> tables_kept root s (or_user s (slot t i) b).
Proof.
  intros Hs HP Ht. unfold or_user. destruct b; [|by apply tables_kept_refl].
  destruct (path_ok_cons _ _ HP) as (HP' & Hi & Hl). destruct (vo_tab s root Hs P t HP' Ht) as [Hpt _].
  set (s' := write _ _ _).
  assert (forall x, view (pm s' x) = view (pm s x)) as Hv.
  { intros x. simpl. unfold mset. destruct (Z.eqb_spec x (slot t i)) as [->|]; [apply view_or_user|done]. }
  assert (forall Q, tab (pm s') root Q = tab (pm s) root Q) as HT by (intros Q; by apply tab_view).
  assert (forall Q j, pt_path Q j -> uleaf (pm s') root Q j = uleaf (pm s) root Q j) as HU.
  { intros Q j (HQ & HlQ & Hj). unfold uleaf. rewrite HT. destruct (tab (pm s) root Q) as [u|] eqn:Eu; [|done]. simpl.
    unfold mset. destruct (Z.eqb_spec (slot u j) (slot t i)) as [E|]; [|done].
    apply slot_inj in E as [-> _]; [|by apply (vo_tab s root Hs Q)|done..].
    assert (Q = P) as -> by (by apply (vo_inj s root Hs Q P t)). lia. }
  assert (vm_ok s' root) as Hs'.
  { destruct Hs as [W Al T I G U S]. constructor; try done.
    - intros x. simpl. unfold mset. destruct (x =? _); [|done]. apply lor_word; [done|]. unfold PAGE_USER. lia.
    - intros Q u HQ. rewrite HT. by apply T.
    - intros Q R u HQ HR. rewrite !HT. by apply I.
    - intros Q u j HQ HlQ. rewrite HT. intros Hu.
      destruct (view_inv _ _ (Hv (slot u j))) as (_ & E2 & E3). rewrite E2, E3. by apply (G Q u j).
    - intros Q j p HQ. rewrite (HU Q j HQ). intros Hp. destruct (U Q j p HQ Hp) as [H1 H2].
      split; [done|]. intros R HR. rewrite HT. by apply H2.
    - intros Q j R k p HQ HR. rewrite (HU Q j HQ), (HU R k HR). by apply S. }
  constructor; try done.
  - intros v. by apply phys_of_view.
  - intros Q u HQ. by rewrite HT.
  - intros Q u HQ. rewrite HT. by left.
  - intros Q j HQ. unfold huge_at. rewrite HT. destruct (tab (pm s) root Q); [|done].
    by destruct (view_inv _ _ (Hv (slot z j))) as (-> & -> & _).
  - intros q x (Hq & _ & Hn) Hx. simpl. unfold mset. destruct (Z.eqb_spec x (slot t i)) as [->|]; [|done].
    rewrite slot_out in Hx; [done|done|done| |done]. intros ->. by apply (Hn P).
  - intros Q u j (HQ & HlQ & Hj) Hu. simpl. unfold mset. destruct (Z.eqb_spec (slot u j) (slot t i)) as [E|]; [|done].
    apply slot_inj in E as [-> _]; [|by apply (vo_tab s root Hs Q)|done..].
    assert (Q = P) as -> by (by apply (vo_inj s root Hs Q P t)). lia.
Qed.

(** ** Hanging a new table [z] under entry [i] of the table [t] at [P] *)

Record grows (root : Z) s s' (P : list Z) (t i z : Z) : Prop := {
  gr_path : path_ok (i :: P);
  gr_tab : tab (pm s) root P = Some t;
  gr_none : child (length P) (pm s (slot t i)) = None;
  gr_page : is_page z;
  gr_fresh : ~ in_use (pa s) z;
  gr_used : in_use (pa s') z;
  gr_alloc : allocator_ok (pa s');
  gr_mono : forall q, is_page q -> in_use (pa s) q -> in_use (pa s') q;
  gr_word : forall x, 0 <= pm s' x < 2 ^ 64;
  gr_other : forall x, in_page z x = false -> x <> slot t i -> pm s' x = pm s x;
  gr_entry : view (pm s' (slot t i)) = (true, false, z);
  gr_upper : (length P < 2)%nat ->
    (forall j, index_ok j -> pm s' (slot z j) = 0) /\ has (pm s (slot t i)) PAGE_PRESENT = false;
  gr_leaf : length P = 2%nat -> forall j, index_ok j -> has (pm s' (slot z j)) PAGE_USER = false;
  gr_phys : length P = 2%nat -> forall v, idx 1 v = i ->
    leaf_phys (pm s' (slot z (idx 0 v))) LEVEL_PT v = leaf_phys (pm s (slot t i)) LEVEL_PD v;
}.

Section grow.
Context (root : Z) (s s' : vm A) (P : list Z) (t i z : Z).
Hypothesis Hs : vm_ok s root.
Hypothesis G : grows root s s' P t i z.

Lemma grow_not_table Q : path_ok Q -> tab (pm s) root Q <> Some z.
Proof. intros HQ Hz. apply (gr_fresh _ _ _ _ _ _ _ G). by apply (vo_tab s root Hs Q z). Qed.

Lemma grow_tab_page Q u : path_ok Q -> tab (pm s) root Q = Some u -> is_page u /\ u <> z.
Proof.
  intros HQ Hu. split; [by apply (vo_tab s root Hs Q u)|]. intros ->. by apply (grow_not_table Q).
Qed.

Lemma grow_slot Q u j : path_ok Q -> index_ok j -> tab (pm s) root Q = Some u ->
  j :: Q <> i :: P -> pm s' (slot u j) = pm s (slot u j).
Proof.
  intros HQ Hj Hu Hne. destruct (grow_tab_page Q u HQ Hu) as [Hpu Huz]. destruct G as [HP Ht ? Hz].
  destruct (path_ok_cons _ _ HP) as (HP' & Hi & _).
  apply (gr_other _ _ _ _ _ _ _ G); [by apply slot_out|]. intros E.
  apply slot_inj in E as [-> ->]; [|done|by apply (vo_tab s root Hs P)|done..]. apply Hne. f_equal. by apply (vo_inj s root Hs Q P t).
Qed.

Lemma grow_tab Q : path_ok Q ->
  tab (pm s') root Q = if decide (Q = i :: P) then Some z else tab (pm s) root Q.
Proof.
  induction Q as [|j up IH]; intros HQ; [done|]. destruct (path_ok_cons _ _ HQ) as (Hup & Hj & Hl).
  simpl. rewrite (IH Hup). destruct (gr_tab _ _ _ _ _ _ _ G). destruct (decide (up = i :: P)) as [->|Hne].
  - simpl in Hl. destruct (gr_upper _ _ _ _ _ _ _ G) as [H0 _]; [lia|]. cbn [mbind option_bind]. rewrite H0 by done.
    rewrite decide_False by (intros E; apply (f_equal length) in E; simpl in E; lia).
    pose proof (gr_none _ _ _ _ _ _ _ G) as Hn. simpl. rewrite (gr_tab _ _ _ _ _ _ _ G). cbn [mbind option_bind].
    by rewrite Hn.
  - destruct (tab (pm s) root up) as [u|] eqn:Eu; cbn [mbind option_bind].
    2: { rewrite decide_False; [done|]. intros [= -> ->]. pose proof (gr_tab _ _ _ _ _ _ _ G). congruence. }
    case_decide as E.
    + injection E as -> ->. rewrite (gr_tab _ _ _ _ _ _ _ G) in Eu. injection Eu as <-.
      pose proof (gr_entry _ _ _ _ _ _ _ G) as [= E1 E2 E3]. unfold child. rewrite E1, E2, E3. by rewrite andb_false_r.
    + f_equal. by rewrite (grow_slot up u j).
Qed.

Lemma grow_uleaf Q j : pt_path Q j -> uleaf (pm s') root Q j = uleaf (pm s) root Q j.
Proof.
  intros (HQ & HlQ & Hj). unfold uleaf. rewrite (grow_tab Q HQ). case_decide as E.
  - subst Q. simpl in HlQ. cbn [mbind option_bind]. rewrite (gr_leaf _ _ _ _ _ _ _ G), andb_false_r by (done || lia).
    simpl. pose proof (gr_tab _ _ _ _ _ _ _ G) as ->. cbn [mbind option_bind].
    by rewrite (gr_none _ _ _ _ _ _ _ G).
  - destruct (tab (pm s) root Q) as [u|] eqn:Eu; [|done]. cbn [mbind option_bind]. rewrite (grow_slot Q u j); [done..|].
    intros E2. apply (f_equal length) in E2. pose proof (gr_path _ _ _ _ _ _ _ G) as [_ Hl]. simpl in *. lia.
Qed.

Lemma grow_ok : vm_ok s' root.
Proof.
  pose proof (vo_tab s root Hs) as T. pose proof (vo_inj s root Hs) as I. constructor.
  - apply G.
  - apply G.
  - intros Q u HQ. rewrite (grow_tab Q HQ). case_decide; [intros [= <-]; split; apply G|].
    intros Hu. destruct (T Q u HQ Hu). split; [done|]. by apply (gr_mono _ _ _ _ _ _ _ G).
  - intros Q R u HQ HR. rewrite (grow_tab Q HQ), (grow_tab R HR). do 2 case_decide; subst; try done; intros Hu Hv.
    + injection Hu as <-. by apply grow_not_table in Hv.
    + injection Hv as <-. by apply grow_not_table in Hu.
    + by apply (I Q R u).
  - intros Q u j HQ HlQ. destruct (path_ok_cons _ _ HQ) as (HQ' & Hj & _). rewrite (grow_tab Q HQ'). case_decide as E.
    + subst Q. intros [= <-]. simpl in HlQ. destruct (gr_upper _ _ _ _ _ _ _ G) as [H0 _]; [lia|]. by rewrite H0.
    + intros Hu. destruct (decide (j :: Q = i :: P)) as [[= -> ->]|Hne].
      * rewrite (gr_tab _ _ _ _ _ _ _ G) in Hu. injection Hu as <-.
        pose proof (gr_entry _ _ _ _ _ _ _ G) as [= E1 E2 E3]. by rewrite E2.
      * rewrite (grow_slot Q u j) by done. by apply (vo_huge s root Hs Q u j).
  - intros Q j p HQ. rewrite (grow_uleaf Q j HQ). intros Hp. destruct (vo_user s root Hs Q j p HQ Hp) as [Hu Hn].
    assert (is_page p) as Hpp.
    { unfold uleaf in Hp. destruct (tab (pm s) root Q); [|done]. simpl in Hp. case_match; [|done]. injection Hp as <-.
      apply is_page_masked, (vo_word s root Hs). }
    split; [by apply (gr_mono _ _ _ _ _ _ _ G)|]. intros R HR. rewrite (grow_tab R HR). case_decide; [|by apply Hn].
    intros [= ->]. by apply (gr_fresh _ _ _ _ _ _ _ G).
  - intros Q j R k p HQ HR. rewrite (grow_uleaf Q j HQ), (grow_uleaf R k HR). by apply (vo_sole s root Hs).
Qed.

Lemma grow_here : tab (pm s) root (i :: P) = None.
Proof. cbn [tab]. rewrite (gr_tab _ _ _ _ _ _ _ G). apply (gr_none _ _ _ _ _ _ _ G). Qed.

Lemma grow_phys v : phys_of (pm s') root v = phys_of (pm s) root v.
Proof.
  pose proof (path1_ok v) as H1. destruct (path_ok_cons _ _ H1) as (H2 & _). destruct (path_ok_cons _ _ H2) as (H3 & _).
  pose proof (gr_tab _ _ _ _ _ _ _ G) as Ht. pose proof (gr_none _ _ _ _ _ _ _ G) as Hn.
  pose proof (gr_upper _ _ _ _ _ _ _ G) as Hup. pose proof (gr_phys _ _ _ _ _ _ _ G) as Hph.
  assert (forall l e w, e = 0 -> leaf_phys e l w = 0) as H0 by (by intros l e w ->).
  assert (forall l w, has (pm s (slot t i)) PAGE_PRESENT = false -> leaf_phys (pm s (slot t i)) l w = 0) as H0'
    by (intros l w E; unfold leaf_phys; by rewrite E).
  unfold phys_of. rewrite (grow_tab _ H1), (grow_tab _ H2), (grow_tab _ H3).
  destruct (decide (path1 v = i :: P)) as [E1|N1].
  { injection E1 as Ei EP.  assert (tab (pm s) root (path1 v) = None) as -> by (unfold path1; rewrite Ei, EP; exact grow_here).
    rewrite EP, Ht. rewrite Hph by (by rewrite <- ?EP). by rewrite Ei. }
  destruct (tab (pm s) root (path1 v)) as [pt|] eqn:T1.
  { rewrite (grow_slot (path1 v) pt); [done|done|apply idx_ok|done|]. intros E. apply (f_equal length) in E.
    pose proof (gr_path _ _ _ _ _ _ _ G) as [_ Hl]. simpl in *. lia. }
  destruct (decide (path2 v = i :: P)) as [E2|N2].
  { injection E2 as Ei EP.  assert (tab (pm s) root (path2 v) = None) as -> by (unfold path2; rewrite Ei, EP; exact grow_here).
    destruct Hup as [Hz Hnp]; [rewrite <- EP; simpl; lia|]. rewrite H0 by (apply Hz, idx_ok). by rewrite EP, Ht, Ei, H0'. }
  destruct (tab (pm s) root (path2 v)) as [pd|] eqn:T2.
  { rewrite (grow_slot (path2 v) pd); [done|done|apply idx_ok|done|done]. }
  destruct (decide (path3 v = i :: P)) as [E3|N3].
  { injection E3 as Ei EP.  assert (tab (pm s) root (path3 v) = None) as -> by (unfold path3; rewrite Ei, EP; exact grow_here).
    destruct Hup as [Hz Hnp]; [rewrite <- EP; simpl; lia|]. by rewrite H0 by (apply Hz, idx_ok). }
  destruct (tab (pm s) root (path3 v)) as [pdpt|] eqn:T3; [|done].
  rewrite (grow_slot (path3 v) pdpt); [done|done|apply idx_ok|done|done].
Qed.

Lemma grow_kept : tables_kept root s s'.
Proof.
  constructor; [apply grow_ok|apply grow_phys|apply G| | |apply grow_uleaf| | |].
  - intros Q u HQ Hu. rewrite (grow_tab Q HQ). case_decide; [|done]. subst Q. by rewrite grow_here in Hu.
  - intros Q u HQ. rewrite (grow_tab Q HQ). case_decide; [|by left]. intros [= <-]. right. apply G.
  - intros Q j HQ. destruct (path_ok_cons _ _ HQ) as (HQ' & Hj & HlQ). unfold huge_at. rewrite (grow_tab Q HQ').
    case_decide as E.
    + subst Q. simpl in HlQ. destruct (gr_upper _ _ _ _ _ _ _ G) as [H0 _]; [lia|]. by rewrite H0.
    + destruct (tab (pm s) root Q) as [u|] eqn:Eu; [|done]. destruct (decide (j :: Q = i :: P)) as [[= -> ->]|Hne].
      * rewrite (gr_tab _ _ _ _ _ _ _ G) in Eu. injection Eu as <-.
        pose proof (gr_entry _ _ _ _ _ _ _ G) as [= E1 E2 E3]. by rewrite E1, E2.
      * by rewrite (grow_slot Q u j).
  - intros q x (Hq & Hu & Hn) Hx. destruct (path_ok_cons _ _ (gr_path _ _ _ _ _ _ _ G)) as (HP & Hi & _).
    pose proof (gr_tab _ _ _ _ _ _ _ G) as Ht. apply (gr_other _ _ _ _ _ _ _ G).
    + apply not_true_iff_false. rewrite in_page_spec in Hx |- *. pose proof (gr_page _ _ _ _ _ _ _ G).
      assert (q <> z) by (intros ->; by apply (gr_fresh _ _ _ _ _ _ _ G)). unfold is_page in *. zlia.
    + intros ->. rewrite slot_out in Hx; [done|by apply (vo_tab s root Hs P)|done| |done]. intros ->. by apply (Hn P).
  - intros Q u j (HQ & HlQ & Hj) Hu. apply (grow_slot Q u j); [done..|]. intros E. apply (f_equal length) in E.
    pose proof (gr_path _ _ _ _ _ _ _ G) as [_ Hl]. simpl in *. lia.
Qed.
End grow.

(** ** The table-building steps of [vmm_map_page] *)

Lemma alloc_only_kept root s a :
  vm_ok s root -> allocator_ok a -> (forall q, is_page q -> in_use (pa s) q -> in_use a q) ->
  tables_kept root s (mkVm a (pm s)).
Proof.
  intros [W Al T I Hg U S] Ha Hm. constructor; [|done|exact Hm|done|by left|done|done|done|done]. constructor; try done.
  - intros P t HP Ht. destruct (T P t HP Ht). auto.
  - intros P j p HP Hp. destruct (U P j p HP Hp) as [H1 H2]. split; [|exact H2]. apply Hm; [|done].
    unfold uleaf in Hp. simpl in Hp. destruct (tab (pm s) root P); [|done]. simpl in Hp. case_match; [|done]. injection Hp as <-.
    apply is_page_masked, W.
Qed.

(** Flags without address bits, present and not huge: those of a table. *)
Definition table_flags_ok (f : Z) : Prop :=
  0 <= f < 2 ^ 64 /\ Z.land f PTE_PHYS_MASK = 0 /\ has f PAGE_PRESENT = true /\ has f PAGE_HUGE = false.

Lemma view_table z f : is_page z -> table_flags_ok f -> view (Z.lor z f) = (true, false, z).
Proof.
  intros Hz (_ & Hm & Hp & Hh). unfold view. rewrite !has_lor, Hp, Hh, page_frame by done.
  rewrite !(page_flags z) by done. done.
Qed.

Lemma write_grows root s P t i z a m v :
  vm_ok s root -> path_ok (i :: P) -> tab (pm s) root P = Some t -> child (length P) (pm s (slot t i)) = None ->
  is_page z -> ~ in_use (pa s) z -> in_use a z -> allocator_ok a ->
  (forall q, is_page q -> in_use (pa s) q -> in_use a q) ->
  (forall x, 0 <= m x < 2 ^ 64) -> (forall x, in_page z x = false -> m x = pm s x) ->
  0 <= v < 2 ^ 64 -> view v = (true, false, z) ->
  ((length P < 2)%nat -> (forall j, index_ok j -> m (slot z j) = 0) /\ has (pm s (slot t i)) PAGE_PRESENT = false) ->
  (length P = 2%nat -> forall j, index_ok j -> has (m (slot z j)) PAGE_USER = false) ->
  (length P = 2%nat -> forall v, idx 1 v = i ->
    leaf_phys (m (slot z (idx 0 v))) LEVEL_PT v = leaf_phys (pm s (slot t i)) LEVEL_PD v) ->
  grows root s (write (mkVm a m) (slot t i) v) P t i z.
Proof.
  intros Hs HP Ht Hn Hz Hf Hu Ha Hm Hw Ho Hv Hvv Hup Hlf Hph.
  destruct (path_ok_cons _ _ HP) as (HP' & Hi & _). destruct (vo_tab s root Hs P t HP' Ht) as [Hpt Htu].
  assert (t <> z) as Htz by (by intros ->).
  assert (forall j, index_ok j -> slot z j <> slot t i) as Hne.
  { intros j Hj E. by apply slot_inj in E as [-> _]. }
  assert (forall x, x <> slot t i -> mset m (slot t i) v x = m x) as Hms.
  { intros x Hx. unfold mset. by rewrite (proj2 (Z.eqb_neq _ _)). }
  assert (mset m (slot t i) v (slot t i) = v) as Hme by (unfold mset; by rewrite Z.eqb_refl).
  constructor; simpl; try done.
  - intros x. unfold mset. by destruct (x =? _).
  - intros x Hx Hxt. rewrite Hms by done. by apply Ho.
  - by rewrite Hme.
  - intros HlP. destruct (Hup HlP) as [H0 H1]. split; [|done]. intros j Hj. rewrite Hms by (by apply Hne). by apply H0.
  - intros HlP j Hj. rewrite Hms by (by apply Hne). by apply Hlf.
  - intros HlP w Hw'. rewrite Hms by (apply Hne, idx_ok). by apply Hph.
Qed.

Lemma mset_same m x v : mset m x v x = v.
Proof. unfold mset. by rewrite Z.eqb_refl. Qed.

Lemma or_user_view s e b : view (pm (or_user s e b) e) = view (pm s e).
Proof. unfold or_user. destruct b; [|done]. simpl. rewrite mset_same. apply view_or_user. Qed.

Lemma or_user_pa s e b : pa (or_user s e b) = pa s.
Proof. by destruct b. Qed.

Lemma zero_page_word (m : Z -> Z) z : (forall x, 0 <= m x < 2 ^ 64) -> forall x, 0 <= zero_page m z x < 2 ^ 64.
Proof. intros Hm x. unfold zero_page. destruct (in_page z x); [lia|apply Hm]. Qed.

Lemma zero_page_in m z j : index_ok j -> zero_page m z (slot z j) = 0.
Proof. intros Hj. unfold zero_page. by rewrite slot_in. Qed.

Lemma zero_page_out m z x : in_page z x = false -> zero_page m z x = m x.
Proof. intros E. unfold zero_page. by rewrite E. Qed.

Lemma map_table_spec root s P t i b tf :
  vm_ok s root -> path_ok (i :: P) -> tab (pm s) root P = Some t -> table_flags_ok tf ->
  let e := slot t i in
  let '(s', ok) := map_table s e b tf in
  tables_kept root s s' /\
  (has (pm s e) PAGE_PRESENT = true \/ 0 < avail (pa s) -> ok = true /\ avail (pa s) - 1 <= avail (pa s')) /\
  (ok = true -> has (pm s' e) PAGE_PRESENT = true /\
     has (pm s' e) PAGE_HUGE = has (pm s e) PAGE_PRESENT && has (pm s e) PAGE_HUGE).
Proof.
  intros Hs HP Ht Htf e. unfold map_table.
  assert (forall s, view (pm (or_user s e b) e) = view (pm s e)) as Hv by (intros; apply or_user_view).
  destruct (has (pm s e) PAGE_PRESENT) eqn:Ep; simpl.
  { split; [by apply (or_user_kept root s P t i)|]. rewrite or_user_pa. split; [intros; split; [done|lia]|].
    intros _. destruct (view_inv _ _ (Hv s)) as (E1 & E2 & _). by rewrite E1, E2. }
  pose proof (alloc_page_law (pa s) (vo_alloc s root Hs)) as Hal. destruct (alloc_page (pa s)) as [a z].
  destruct Hal as (Ha & Hm & _ & Hz & Hav). destruct (Z.eqb_spec z 0) as [->|Hz0].
  { split; [by apply alloc_only_kept|]. split; [intros [Hp|Hp]; [by rewrite Hp in Ep|by destruct (Hav Hp)]|done]. }
  destruct Hz as [|(Hpz & _ & Hf & Hu & _)]; [done|].
  assert (child (length P) (pm s e) = None) as Hn by (unfold child; by rewrite Ep).
  assert (grows root s (write (mkVm a (zero_page (pm s) z)) e (Z.lor z tf)) P t i z) as G.
  { apply write_grows; try done.
    - apply zero_page_word, Hs.
    - intros x. apply zero_page_out.
    - apply lor_word; [by apply page_word|apply Htf].
    - by apply view_table.
    - intros _. split; [|done]. intros j. apply zero_page_in.
    - intros _ j Hj. by rewrite zero_page_in.
    - intros _ v Hv'. rewrite zero_page_in by apply idx_ok. unfold leaf_phys. fold e. by rewrite Ep. }
  set (s1 := write _ _ _) in *. pose proof (grow_kept root s s1 P t i z Hs G) as K.
  split; [|split].
  - apply (tables_kept_trans root s s1); [done|done|]. apply (or_user_kept root s1 P t i); [apply K|done|].
    apply K; [by destruct (path_ok_cons _ _ HP)|done].
  - intros [Hp|Hp]; [by rewrite Hp in Ep|]. destruct (Hav Hp). split; [done|]. rewrite or_user_pa. simpl. lia.
  - intros _. destruct (view_inv _ _ (Hv s1)) as (E1 & E2 & _). rewrite E1, E2.
    destruct (view_inv _ _ (eq_trans (gr_entry _ _ _ _ _ _ _ G) (eq_sym (view_table z tf Hpz Htf)))) as (F1 & F2 & _).
    fold e in F1, F2. rewrite F1, F2. pose proof (view_table z tf Hpz Htf) as [= G1 G2 _]. by rewrite G1, G2.
Qed.

Lemma fill_pt_spec m pt base fl :
  (forall x, 0 <= m x < 2 ^ 64) -> 0 <= fl < 2 ^ 64 -> is_page pt ->
  let m' := fill_pt m pt base fl in
  (forall j, index_ok j -> m' (slot pt j) = Z.lor (u64 (base + j * PAGE_SIZE)) fl) /\
  (forall x, in_page pt x = false -> m' x = m x) /\ (forall x, 0 <= m' x < 2 ^ 64).
Proof.
  intros Hm Hfl Hpt. unfold fill_pt.
  pose proof (for_each_ind (fun i m => mset m (slot pt i) (Z.lor (u64 (base + i * PAGE_SIZE)) fl))
    (fun k m' => (forall j, 0 <= j < k -> m' (slot pt j) = Z.lor (u64 (base + j * PAGE_SIZE)) fl) /\
      (forall x, in_page pt x = false -> m' x = m x) /\ (forall x, 0 <= m' x < 2 ^ 64))
    512 0 (zero_page m pt)) as L.
  apply L; clear L.
  - split; [lia|]. split; [apply zero_page_out|by apply zero_page_word].
  - intros k m' Hk (H1 & H2 & H3). split; [|split].
    + intros j Hj. unfold mset. destruct (Z.eqb_spec (slot pt j) (slot pt k)) as [E|Hne].
      * apply slot_inj in E as [_ ->]; [done|done|done|unfold index_ok; lia|unfold index_ok; lia].
      * apply H1. assert (j <> k) by congruence. lia.
    + intros x Hx. unfold mset. destruct (Z.eqb_spec x (slot pt k)) as [->|]; [|by apply H2].
      rewrite slot_in in Hx; [done|unfold index_ok; lia].
    + intros x. unfold mset. destruct (x =? _); [|done]. apply lor_word; [by apply wrap_range|done].
Qed.

Lemma huge_sub_page base j : is_page base -> base mod 2 ^ 21 = 0 -> index_ok j -> is_page (base + j * 4096).
Proof.
  unfold is_page, index_ok. change (2 ^ 52) with 4503599627370496. change (2 ^ 21) with 2097152.
  intros [H1 H2] Hb Hj. split; zlia.
Qed.

(** A 2 MB page and the page table [split_huge] makes of it translate alike. *)
Lemma split_phys base fl old v :
  base = frame_of old -> 0 <= old < 2 ^ 64 -> base mod 2 ^ 21 = 0 -> has old PAGE_HUGE = true ->
  has fl PAGE_PRESENT = has old PAGE_PRESENT -> has fl PAGE_HUGE = false -> Z.land fl PTE_PHYS_MASK = 0 ->
  leaf_phys (Z.lor (u64 (base + idx 0 v * PAGE_SIZE)) fl) LEVEL_PT v = leaf_phys old LEVEL_PD v.
Proof.
  intros Eb Ho Hb Hh Hp Hhf Hm. 
  assert (is_page base) as Hpb by (subst base; apply is_page_masked; lia).
  pose proof (huge_sub_page base (idx 0 v) Hpb Hb (idx_ok 0 v)) as Hpn. change (2 ^ 21) with 2097152 in Hb.
  unfold PAGE_SIZE. rewrite wrap_small by (apply page_word, Hpn).
  unfold leaf_phys. rewrite !has_lor, Hp, Hhf, !(page_flags _ _ Hpn), Hh by done. cbn [orb].
  destruct (has old PAGE_PRESENT); [|done]. rewrite page_frame by done. rewrite <- Eb.
  change 0x1FFFFF with (2 ^ 21 - 1). rewrite land_lnot_ones by lia.
  replace (2 ^ 21 - 1) with (Z.ones 21) by done. change 0xFFF with (Z.ones 12).
  rewrite !Z.land_ones by lia. rewrite (lor_low _ _ 12), (lor_low _ _ 21); rewrite ?idx_div by lia;
    change (2 ^ (12 + 9 * 0)) with 4096; change (2 ^ 21) with 2097152; change (2 ^ 12) with 4096; try lia.
  - zlia.
  - by rewrite Z_mod_mult.
  - apply Z.mod_pos_bound. lia.
  - destruct Hpb. zlia.
  - apply Z.mod_pos_bound. lia.
Qed.

Lemma split_huge_spec root s P t i b :
  vm_ok s root -> path_ok (i :: P) -> length P = 2%nat -> tab (pm s) root P = Some t ->
  has (pm s (slot t i)) PAGE_HUGE = true ->
  let e := slot t i in
  let '(s', ok) := split_huge s e b in
  tables_kept root s s' /\
  (0 < avail (pa s) -> ok = true /\ avail (pa s) - 1 <= avail (pa s')) /\
  (ok = true -> has (pm s' e) PAGE_PRESENT = true /\ has (pm s' e) PAGE_HUGE = false).
Proof.
  intros Hs HP HlP Ht Hh e. unfold split_huge. pose proof (vo_word s root Hs e) as Hw. fold e in Hh.
  set (old := pm s e) in *. set (fl := Z.land (Z.land (Z.land old _) _) _).
  assert (0 <= fl < 2 ^ 64) as Hfl by (by do 3 apply land_word).
  assert (has fl PAGE_USER = false) as Hfu by (by apply has_land).
  assert (has fl PAGE_HUGE = false) as Hfh.
  { unfold fl. rewrite has_land_id by done. by apply has_land. }
  assert (has fl PAGE_PRESENT = has old PAGE_PRESENT) as Hfp by (unfold fl; by rewrite !has_land_id).
  assert (Z.land fl PTE_PHYS_MASK = 0) as Hfm.
  { unfold fl. rewrite <- !Z.land_assoc. apply Z.land_0_r. }
  pose proof (alloc_page_law (pa s) (vo_alloc s root Hs)) as Hal. destruct (alloc_page (pa s)) as [a z].
  destruct Hal as (Ha & Hm & _ & Hz & Hav). destruct (Z.eqb_spec z 0) as [->|Hz0].
  { split; [by apply alloc_only_kept|]. split; [intros Hp; by destruct (Hav Hp)|done]. }
  destruct Hz as [|(Hpz & _ & Hf & Hu & _)]; [done|].
  set (v := Z.lor (Z.lor z _) PAGE_PRESENT).
  destruct (fill_pt_spec (pm s) z (Z.land old PTE_PHYS_MASK) fl (vo_word s root Hs) Hfl Hpz) as (F1 & F2 & F3).
  set (m := fill_pt _ _ _ _) in *.
  assert (view v = (true, false, z)) as Hv.
  { unfold v. rewrite <- Z.lor_assoc. apply view_table; [done|]. split; [apply lor_word; [by do 2 apply land_word|unfold PAGE_PRESENT; lia]|].
    rewrite Z.land_lor_distr_l, <- !Z.land_assoc, !has_lor. split; [by rewrite Z.land_0_r|]. split; [apply orb_true_r|].
    by rewrite has_land. }
  assert (grows root s (write (mkVm a m) e v) P t i z) as G.
  { apply write_grows; try done.
    - unfold child. fold e old. rewrite HlP, Hh. cbn. by rewrite andb_false_r.
    - unfold v. rewrite <- Z.lor_assoc. apply lor_word; [by apply page_word|]. apply lor_word; [by do 2 apply land_word|unfold PAGE_PRESENT; lia].
    - lia.
    - intros _ j Hj. rewrite F1 by done. rewrite has_lor, Hfu, orb_false_r.
      assert (is_page (Z.land old PTE_PHYS_MASK + j * 4096)) as Hpj
        by (apply huge_sub_page; [apply is_page_masked; lia|by apply (vo_huge s root Hs P t i)|done]).
      unfold PAGE_SIZE. rewrite wrap_small by (apply page_word, Hpj). by apply page_flags.
    - intros _ w _. rewrite F1 by apply idx_ok. fold e old.
      apply split_phys; try done. by apply (vo_huge s root Hs P t i). }
  set (s1 := write _ _ _) in *. pose proof (grow_kept root s s1 P t i z Hs G) as K.
  split; [|split].
  - apply (tables_kept_trans root s s1); [done|done|]. apply (or_user_kept root s1 P t i); [apply K|done|].
    apply K; [by destruct (path_ok_cons _ _ HP)|done].
  - intros Hp. destruct (Hav Hp). split; [done|]. rewrite or_user_pa. simpl. lia.
  - intros _. destruct (view_inv _ _ (or_user_view s1 e b)) as (E1 & E2 & _). rewrite E1, E2.
    change (pm s1 e) with (mset m e v e). rewrite mset_same. pose proof Hv as [= G1 G2 _]. by rewrite G1, G2.
Qed.

(** ** The entry of the page *)

Section leaf.
Context (root : Z) (s : vm A) (v pt : Z).
Hypothesis Hs : vm_ok s root.
Hypothesis Hpt : tab (pm s) root (path1 v) = Some pt.
Context (a : A) (entry : Z).
Hypothesis Ha : allocator_ok a.
Hypothesis Htab : forall Q t, path_ok Q -> tab (pm s) root Q = Some t -> in_use a t.
Hypothesis Huse : forall Q k p, pt_path Q k -> (Q, k) <> (path1 v, idx 0 v) ->
  uleaf (pm s) root Q k = Some p -> in_use a p.
Hypothesis Hentry : 0 <= entry < 2 ^ 64.
Hypothesis Hnew : has entry PAGE_PRESENT && has entry PAGE_USER = true ->
  in_use a (frame_of entry) /\ (forall Q, path_ok Q -> tab (pm s) root Q <> Some (frame_of entry)) /\
  (forall Q k, pt_path Q k -> uleaf (pm s) root Q k = Some (frame_of entry) -> (Q, k) = (path1 v, idx 0 v)).

Let e : Z := slot pt (idx 0 v).
Let s' : vm A := mkVm a (mset (pm s) e entry).

Lemma leaf_slot Q u j : path_ok Q -> index_ok j -> tab (pm s) root Q = Some u ->
  (Q, j) <> (path1 v, idx 0 v) -> pm s' (slot u j) = pm s (slot u j).
Proof.
  intros HQ Hj Hu Hne. simpl. unfold mset. destruct (Z.eqb_spec (slot u j) e) as [E|]; [|done].
  apply slot_inj in E as [-> ->]; [|by apply (vo_tab s root Hs Q)|by apply (vo_tab s root Hs _ _ (path1_ok v))|done|apply idx_ok].
  exfalso. apply Hne. f_equal. by apply (vo_inj s root Hs Q (path1 v) pt HQ (path1_ok v)).
Qed.

Lemma leaf_tab Q : path_ok Q -> tab (pm s') root Q = tab (pm s) root Q.
Proof.
  induction Q as [|j up IH]; intros HQ; [done|]. destruct (path_ok_cons _ _ HQ) as (Hup & Hj & Hl). cbn [tab].
  rewrite (IH Hup). destruct (tab (pm s) root up) as [u|] eqn:Eu; [|done]. cbn [mbind option_bind]. f_equal.
  apply (leaf_slot up); try done. intros [= -> _]. simpl in Hl. lia.
Qed.

Lemma leaf_uleaf Q k : pt_path Q k -> (Q, k) <> (path1 v, idx 0 v) -> uleaf (pm s') root Q k = uleaf (pm s) root Q k.
Proof.
  intros (HQ & HlQ & Hk) Hne. unfold uleaf. rewrite (leaf_tab Q HQ). destruct (tab (pm s) root Q) as [u|] eqn:Eu; [|done].
  cbn [mbind option_bind]. by rewrite (leaf_slot Q).
Qed.

Lemma leaf_entry : pm s' e = entry.
Proof. apply mset_same. Qed.

Lemma leaf_uleaf_here : uleaf (pm s') root (path1 v) (idx 0 v) =
  if has entry PAGE_PRESENT && has entry PAGE_USER then Some (frame_of entry) else None.
Proof.
  unfold uleaf. rewrite (leaf_tab _ (path1_ok v)), Hpt. cbn [mbind option_bind]. fold e. by rewrite leaf_entry.
Qed.

Lemma leaf_write_ok : vm_ok s' root.
Proof.
  pose proof (leaf_slot) as HS. constructor.
  - intros x. simpl. unfold mset. destruct (x =? e); [done|apply Hs].
  - done.
  - intros Q t HQ. rewrite (leaf_tab Q HQ). intros Ht. split; [by apply (vo_tab s root Hs Q t)|by apply (Htab Q)].
  - intros Q R t HQ HR. rewrite (leaf_tab Q HQ), (leaf_tab R HR). by apply (vo_inj s root Hs).
  - intros Q t j HQ HlQ. destruct (path_ok_cons _ _ HQ) as (HQ' & Hj & _). rewrite (leaf_tab Q HQ'). intros Ht.
    rewrite (HS Q) by (done || (intros [= -> _]; done)). by apply (vo_huge s root Hs Q t j).
  - intros Q k p HQ. destruct (decide ((Q, k) = (path1 v, idx 0 v))) as [[= -> ->]|Hne].
    + rewrite leaf_uleaf_here. destruct (_ && _) eqn:E; [|done]. intros [= <-]. destruct (Hnew eq_refl) as (H1 & H2 & _).
      split; [done|]. intros R HR. rewrite (leaf_tab R HR). by apply H2.
    + rewrite (leaf_uleaf Q k HQ Hne). intros Hp. split; [by apply (Huse Q k)|]. intros R HR. rewrite (leaf_tab R HR).
      by apply (vo_user s root Hs Q k p).
  - assert (forall Q k p, pt_path Q k -> (Q, k) <> (path1 v, idx 0 v) -> uleaf (pm s') root (path1 v) (idx 0 v) = Some p ->
      uleaf (pm s) root Q k = Some p -> False) as Hx.
    { intros Q k p HQ Hne. rewrite leaf_uleaf_here. destruct (_ && _) eqn:E; [|done]. intros [= <-] Hp.
      destruct (Hnew eq_refl) as (_ & _ & H3). by apply Hne, H3. }
    intros Q j R k p HQ HR Hp Hq. destruct (decide ((Q, j) = (path1 v, idx 0 v))) as [[= -> ->]|HneQ],
      (decide ((R, k) = (path1 v, idx 0 v))) as [[= -> ->]|HneR]; [done| | |].
    + rewrite (leaf_uleaf R k HR HneR) in Hq. by destruct (Hx R k p).
    + rewrite (leaf_uleaf Q j HQ HneQ) in Hp. by destruct (Hx Q j p).
    + rewrite (leaf_uleaf Q j HQ HneQ) in Hp. rewrite (leaf_uleaf R k HR HneR) in Hq. by apply (vo_sole s root Hs Q j R k p).
Qed.

Lemma leaf_phys_here w : w / 4096 = v / 4096 -> phys_of (pm s') root w = leaf_phys entry LEVEL_PT w.
Proof.
  intros E. unfold phys_of. rewrite (path1_page w v E), (idx_page 0 w v) by (lia || done).
  rewrite (leaf_tab _ (path1_ok v)), Hpt. fold e. by rewrite leaf_entry.
Qed.

Lemma leaf_phys_other w : (path1 w, idx 0 w) <> (path1 v, idx 0 v) -> phys_of (pm s') root w = phys_of (pm s) root w.
Proof.
  intros Hne. pose proof (path1_ok w) as H1. destruct (path_ok_cons _ _ H1) as (H2 & _). destruct (path_ok_cons _ _ H2) as (H3 & _).
  unfold phys_of. rewrite (leaf_tab _ H1), (leaf_tab _ H2), (leaf_tab _ H3).
  destruct (tab (pm s) root (path1 w)) eqn:T1; [rewrite (leaf_slot (path1 w)) by (done || apply idx_ok); done|].
  destruct (tab (pm s) root (path2 w)) eqn:T2; [rewrite (leaf_slot (path2 w)) by (done || apply idx_ok); done|].
  destruct (tab (pm s) root (path3 w)) eqn:T3; [|done]. by rewrite (leaf_slot (path3 w)) by (done || apply idx_ok).
Qed.
End leaf.

Lemma uleaf_page root s Q j p : vm_ok s root -> uleaf (pm s) root Q j = Some p -> is_page p.
Proof.
  intros Hs. unfold uleaf. destruct (tab (pm s) root Q); [|done]. simpl. case_match; [|done]. intros [= <-].
  apply is_page_masked, (vo_word s root Hs).
Qed.

(** What the page mapped at [v] may be: a user page is in use, no table, and
    not mapped elsewhere in the tree. *)
Definition may_map root s (v paddr flags : Z) : Prop :=
  is_page paddr /\ 0 <= flags < 2 ^ 64 /\ Z.land flags PTE_PHYS_MASK = 0 /\ has flags PAGE_HUGE = false /\
  (has flags PAGE_USER = true ->
   in_use (pa s) paddr /\ (forall Q, path_ok Q -> tab (pm s) root Q <> Some paddr) /\
   forall Q k, pt_path Q k -> uleaf (pm s) root Q k = Some paddr -> (Q, k) = (path1 v, idx 0 v)).

Lemma leaf_entry_view paddr flags :
  is_page paddr -> 0 <= flags < 2 ^ 64 -> Z.land flags PTE_PHYS_MASK = 0 -> has flags PAGE_HUGE = false ->
  let entry := Z.lor (Z.lor paddr flags) PAGE_PRESENT in
  0 <= entry < 2 ^ 64 /\ view entry = (true, false, paddr) /\ has entry PAGE_USER = has flags PAGE_USER.
Proof.
  intros Hp Hf Hm Hh entry. unfold entry. rewrite <- Z.lor_assoc. split; [|split].
  - apply lor_word; [by apply page_word|apply lor_word; [done|unfold PAGE_PRESENT; lia]].
  - apply view_table; [done|]. split; [apply lor_word; [done|unfold PAGE_PRESENT; lia]|].
    rewrite Z.land_lor_distr_l, Hm, !has_lor, Hh. split; [done|]. split; [apply orb_true_r|done].
  - by rewrite !has_lor, (page_flags paddr), orb_false_r.
Qed.

Lemma phys_entry entry paddr v : is_page paddr -> view entry = (true, false, paddr) ->
  leaf_phys entry LEVEL_PT v = paddr + v mod 4096.
Proof.
  intros [Hp Hm] [= E1 E2 E3]. unfold leaf_phys. rewrite E1, E2, E3.
  change 0xFFF with (Z.ones 12). rewrite Z.land_ones by lia. change (2 ^ 12) with 4096.
  apply (lor_low _ _ 12); [lia|done|]. change (2 ^ 12) with 4096. by apply Z.mod_pos_bound.
Qed.

Lemma set_leaf_spec root s v pt paddr flags :
  vm_ok s root -> tab (pm s) root (path1 v) = Some pt -> may_map root s v paddr flags ->
  let s' := set_leaf s (slot pt (idx 0 v)) paddr flags in
  vm_ok s' root /\ (forall w, w / 4096 = v / 4096 -> phys_of (pm s') root w = paddr + w mod 4096) /\
  (forall w, (path1 w, idx 0 w) <> (path1 v, idx 0 v) -> phys_of (pm s') root w = phys_of (pm s) root w) /\
  forall q x, data_page root s q -> in_page q x = true -> pm s' x = pm s x.
Proof.
  intros Hs Hpt (Hp & Hf & Hm & Hh & Hu) s'.
  destruct (leaf_entry_view paddr flags Hp Hf Hm Hh) as (Hw & Hv & Hue). pose proof (fun w => phys_entry _ _ w Hp Hv) as Hph.
  destruct (view_inv (Z.lor (Z.lor paddr flags) PAGE_PRESENT) (Z.lor paddr 1)) as (_ & _ & Hfr).
  { rewrite Hv. symmetry. apply view_table; [done|]. by repeat split. }
  rewrite (page_frame paddr 1) in Hfr by done. set (e := slot pt (idx 0 v)) in *.
  assert (forall a, allocator_ok a ->
      (forall Q t, path_ok Q -> tab (pm s) root Q = Some t -> in_use a t) ->
      (forall Q k p, pt_path Q k -> (Q, k) <> (path1 v, idx 0 v) -> uleaf (pm s) root Q k = Some p -> in_use a p) ->
      (has flags PAGE_USER = true -> in_use a paddr) ->
      let t := write (mkVm a (pm s)) e (Z.lor (Z.lor paddr flags) PAGE_PRESENT) in
      vm_ok t root /\ (forall w, w / 4096 = v / 4096 -> phys_of (pm t) root w = paddr + w mod 4096) /\
      (forall w, (path1 w, idx 0 w) <> (path1 v, idx 0 v) -> phys_of (pm t) root w = phys_of (pm s) root w) /\
      forall q x, data_page root s q -> in_page q x = true -> pm t x = pm s x) as HW.
  { intros a Ha Ht Hl Hpu t. split; [|split; [|split]].
    - apply (leaf_write_ok root s v pt); try done. rewrite Hue, Hfr. intros [_ Hfu]%andb_true_iff.
      destruct (Hu Hfu) as (_ & H2 & H3). split; [auto|done].
    - intros w E. rewrite <- Hph. by apply (leaf_phys_here root s v pt).
    - intros w Hne. by apply (leaf_phys_other root s v pt).
    - intros q x (Hq & _ & Hn) Hx. simpl. unfold mset. destruct (Z.eqb_spec x e) as [->|]; [|done]. exfalso.
      unfold e in Hx. rewrite slot_out in Hx; [done|by apply (vo_tab s root Hs _ _ (path1_ok v))|done| |apply idx_ok].
      intros ->. by apply (Hn (path1 v) (path1_ok v)). }
  unfold s', set_leaf. destruct (has (pm s e) PAGE_PRESENT && (frame_of (pm s e) =? paddr)) eqn:E1.
  { apply (HW (pa s)); [apply Hs|intros; by apply (vo_tab s root Hs Q)|intros; by apply (vo_user s root Hs Q k)|]. intros Hfu. by apply Hu. }
  destruct (has (pm s e) PAGE_PRESENT && has (pm s e) PAGE_USER) eqn:E2.
  2: { apply (HW (pa s)); [apply Hs|intros; by apply (vo_tab s root Hs Q)|intros; by apply (vo_user s root Hs Q k)|]. intros Hfu. by apply Hu. }
  set (old := frame_of (pm s e)) in *.
  assert (is_page old) as Hpo by (apply is_page_masked, (vo_word s root Hs)).
  assert (uleaf (pm s) root (path1 v) (idx 0 v) = Some old) as Hul
    by (unfold uleaf; rewrite Hpt; cbn [mbind option_bind]; fold e; by rewrite E2).
  assert (pt_path (path1 v) (idx 0 v)) as Hpp by (split; [apply path1_ok|split; [done|apply idx_ok]]).
  destruct (vo_user s root Hs _ _ _ Hpp Hul) as [_ Hnt].
  assert (old <> paddr) as Hne.
  { apply andb_true_iff in E2 as [E2 _]. rewrite E2 in E1. by apply Z.eqb_neq in E1. }
  pose proof (ref_dec_law (pa s) old (vo_alloc s root Hs) Hpo) as Hd. destruct (ref_dec (pa s) old) as [a n].
  destruct Hd as (Ha & Hin & _).
  assert (exists a', allocator_ok a' /\ (forall q, is_page q -> q <> old -> in_use (pa s) q -> in_use a' q) /\
    (if n =? 0 then pa_free (mkVm a (pm s)) old else mkVm a (pm s)) = mkVm a' (pm s)) as (a' & Ha' & Hin' & ->).
  { destruct (n =? 0).
    - destruct (free_page_law a old Ha Hpo) as [H1 H2]. exists (free_page a old). split; [done|]. split; [|done].
      intros q Hq Hqo Huq. apply H2; [done|done|]. by apply Hin.
    - exists a. split; [done|]. split; [|done]. intros q Hq _ Huq. by apply Hin. }
  apply (HW a'); [done| | |].
  - intros Q t HQ Ht. destruct (vo_tab s root Hs Q t HQ Ht). apply Hin'; [done|intros ->; by apply (Hnt Q)|done].
  - intros Q k p HQ Hqk Hpq. destruct (vo_user s root Hs Q k p HQ Hpq) as [H1 _].
    apply Hin'; [by apply (uleaf_page root s Q k)| |done]. intros ->. apply Hqk.
    destruct (vo_sole s root Hs Q k (path1 v) (idx 0 v) old HQ Hpp Hpq Hul). by subst.
  - intros Hfu. apply Hin'; [done|done|]. by apply Hu.
Qed.

(** ** [vmm_map_page] *)

Lemma may_map_kept root s s' v paddr flags :
  tables_kept root s s' -> may_map root s v paddr flags -> may_map root s' v paddr flags.
Proof.
  intros [O _ U _ N L _ _ _] (Hp & Hf & Hm & Hh & Hu). do 4 (split; [done|]). intros Hfu. destruct (Hu Hfu) as (H1 & H2 & H3).
  split; [by apply U|]. split.
  - intros Q HQ Ht. destruct (N Q paddr HQ Ht) as [Ht'|Hn]; [by apply (H2 Q)|done].
  - intros Q k HQ. rewrite (L Q k HQ). by apply H3.
Qed.

Lemma data_page_kept root s s' q : tables_kept root s s' -> data_page root s q -> data_page root s' q.
Proof.
  intros K (Hq & Hu & Hn). split; [done|]. split; [by apply (tk_use _ _ _ K)|].
  intros Q HQ Ht. destruct (tk_new _ _ _ K Q q HQ Ht); [by apply (Hn Q)|done].
Qed.

(** The tables down to the page directory of [v], or the early return. *)
Definition pd_walk s (root v : Z) (is_user : bool) (tf : Z) : vm A * option Z :=
  let e4 := slot root (idx 3 v) in
  let '(s, ok) := map_table s e4 is_user tf in
  if negb ok then (s, None)
  else
    let e3 := slot (frame_of (pm s e4)) (idx 2 v) in
    let '(s, ok) := map_table s e3 is_user tf in
    if negb ok then (s, None)
    else if has (pm s e3) PAGE_HUGE then (s, None) else (s, Some (frame_of (pm s e3))).

(** The tables down to the page table of [v], the part of [vmm_map_page] before
    the entry is set. *)
Definition map_walk s (root v : Z) (is_user : bool) (tf : Z) : vm A * option Z :=
  match pd_walk s root v is_user tf with
  | (s, None) => (s, None)
  | (s, Some pd) =>
      let e2 := slot pd (idx 1 v) in
      let '(s, ok) := if has (pm s e2) PAGE_HUGE then split_huge s e2 is_user else (s, true) in
      if negb ok then (s, None)
      else
        let '(s, ok) := map_table s e2 is_user tf in
        if negb ok then (s, None) else (s, Some (frame_of (pm s e2)))
  end.

Lemma map_page_walk s root v paddr flags :
  vmm_map_page s root v paddr flags =
    let u := has flags PAGE_USER in
    let tf := Z.lor PAGE_PRESENT PAGE_WRITABLE in
    match map_walk s root v u (if u then Z.lor tf PAGE_USER else tf) with
    | (s, Some pt) => set_leaf s (slot pt (idx 0 v)) paddr flags
    | (s, None) => s
    end.
Proof. unfold vmm_map_page, map_walk, pd_walk. cbv zeta. by repeat case_match; simplify_eq/=. Qed.

Lemma tab_child m root i up t : tab m root up = Some t ->
  has (m (slot t i)) PAGE_PRESENT = true -> (length up = 0%nat \/ has (m (slot t i)) PAGE_HUGE = false) ->
  tab m root (i :: up) = Some (frame_of (m (slot t i))).
Proof.
  intros Ht Hp Hh. cbn [tab]. rewrite Ht. cbn [mbind option_bind]. unfold child. rewrite Hp.
  destruct Hh as [->| ->]; [done|]. by rewrite andb_false_r.
Qed.

(** What a walk to the table at a path [P] gives: only tables were built, with [n]
    pages left and no 1 GB page in the way there is a result, and of [k] pages no more are taken. *)
Record walk_ok (root : Z) s (v n k : Z) (P : list Z) (r : vm A * option Z) : Prop := {
  wk_kept : tables_kept root s r.1;
  wk_tab : forall t, r.2 = Some t -> tab (pm r.1) root P = Some t;
  wk_some : n <= avail (pa s) -> huge_at (pm s) root (idx 2 v) (path3 v) = false -> r.2 <> None;
  wk_avail : k <= avail (pa s) -> avail (pa s) - k <= avail (pa r.1);
}.

Lemma pd_walk_spec root s v u tf :
  vm_ok s root -> table_flags_ok tf -> walk_ok root s v 2 2 (path2 v) (pd_walk s root v u tf).
Proof.
  intros Hs Htf. unfold pd_walk. destruct (path_ok_cons _ _ (path1_ok v)) as (H2 & _). destruct (path_ok_cons _ _ H2) as (H3 & _).
  pose proof (map_table_spec root s [] root (idx 3 v) u tf Hs H3 eq_refl Htf) as M1. cbv zeta in M1.
  destruct (map_table s (slot root (idx 3 v)) u tf) as [s1 ok1]. destruct M1 as (K1 & A1 & E1).
  destruct ok1; cbn [negb]; [|split; cbn [fst snd]; [done|done|intros Ha; destruct A1; [by right; lia|done]..]].
  destruct (E1 eq_refl) as [P1 _]. pose proof (tk_ok _ _ _ K1) as O1.
  pose proof (tab_child (pm s1) root (idx 3 v) [] root eq_refl P1 ltac:(by left)) as T1.
  set (pdpt := frame_of (pm s1 (slot root (idx 3 v)))) in *.
  pose proof (map_table_spec root s1 (path3 v) pdpt (idx 2 v) u tf O1 H2 T1 Htf) as M2. cbv zeta in M2.
  destruct (map_table s1 (slot pdpt (idx 2 v)) u tf) as [s2 ok2]. destruct M2 as (K2 & A2 & E2).
  pose proof (tables_kept_trans root s s1 s2 Hs K1 K2) as K12.
  destruct ok2; cbn [negb];
    [|split; cbn [fst snd]; [done|done|intros Ha; destruct A1; [by right; lia|]; destruct A2; [by right; lia|done]..]].
  destruct (E2 eq_refl) as [P2 Hh2]. pose proof (tk_tab _ _ _ K2 _ _ H3 T1) as T1'.
  assert (2 <= avail (pa s) -> avail (pa s) - 2 <= avail (pa s2)) as Hav.
  { intros Ha. destruct A1; [by right; lia|]. destruct A2; [by right; lia|]. lia. }
  destruct (has (pm s2 (slot pdpt (idx 2 v))) PAGE_HUGE) eqn:EH; (split; cbn [fst snd]; [done| | |done]); [done| | |done].
  - intros _ Hg. exfalso. apply not_true_iff_false in Hg. apply Hg, (tk_huge _ _ _ K1); [done|].
    unfold huge_at. change [idx 3 v] with (path3 v) in T1. by rewrite T1, <- Hh2.
  - intros t [= <-]. apply (tab_child (pm s2) root (idx 2 v) (path3 v) pdpt T1' P2). by right.
Qed.

Lemma map_walk_spec root s v u tf :
  vm_ok s root -> table_flags_ok tf -> walk_ok root s v 3 4 (path1 v) (map_walk s root v u tf).
Proof.
  intros Hs Htf. unfold map_walk. pose proof (path1_ok v) as H1. destruct (path_ok_cons _ _ H1) as (H2 & _).
  pose proof (pd_walk_spec root s v u tf Hs Htf) as W. destruct (pd_walk s root v u tf) as [s2 [pd|]]; destruct W as [K2 T2 N2 A2]; cbn [fst snd] in *.
  2: { split; cbn [fst snd]; [done|done| |]; intros Ha; [apply N2|specialize (A2 ltac:(lia))]; lia. }
  specialize (T2 pd eq_refl). pose proof (tk_ok _ _ _ K2) as O2.
  set (r3 := if has (pm s2 (slot pd (idx 1 v))) PAGE_HUGE then split_huge s2 (slot pd (idx 1 v)) u else (s2, true)).
  assert (tables_kept root s2 r3.1 /\ (0 < avail (pa s2) -> r3.2 = true /\ avail (pa s2) - 1 <= avail (pa r3.1) /\
      (has (pm r3.1 (slot pd (idx 1 v))) PAGE_PRESENT = true \/ 0 < avail (pa r3.1))) /\
    (r3.2 = true -> has (pm r3.1 (slot pd (idx 1 v))) PAGE_HUGE = false)) as (K3 & A3 & E3).
  { subst r3. destruct (has (pm s2 (slot pd (idx 1 v))) PAGE_HUGE) eqn:EH2; cbn [fst snd].
    - pose proof (split_huge_spec root s2 (path2 v) pd (idx 1 v) u O2 H1 eq_refl T2 EH2) as M3. cbv zeta in M3.
      destruct (split_huge s2 _ u) as [s3 ok3]. destruct M3 as (K3 & A3 & E3). cbn [fst snd]. split; [done|]. split; [|intros ->; by apply E3].
      intros Ha. destruct (A3 Ha) as [-> ?]. split; [done|]. split; [done|]. left. by apply E3.
    - split; [by apply tables_kept_refl|]. split; [|done]. intros Ha. split; [done|]. split; [lia|by right]. }
  destruct r3 as [s3 ok3]. cbn [fst snd] in *. pose proof (tables_kept_trans root s s2 s3 Hs K2 K3) as K13.
  assert (Hpos : forall k, 3 <= k -> k <= avail (pa s) -> 0 < avail (pa s2)) by (intros k Hk Ha; specialize (A2 ltac:(lia)); lia).
  destruct ok3; cbn [negb]; [|split; cbn [fst snd]; [done|done|intros Ha; by destruct (A3 ltac:(eapply Hpos; [|exact Ha]; lia))..]].
  pose proof (tk_ok _ _ _ K3) as O3. pose proof (tk_tab _ _ _ K3 _ _ H2 T2) as T2'.
  pose proof (map_table_spec root s3 (path2 v) pd (idx 1 v) u tf O3 H1 T2' Htf) as M4. cbv zeta in M4.
  destruct (map_table s3 (slot pd (idx 1 v)) u tf) as [s4 ok4]. destruct M4 as (K4 & A4 & E4).
  pose proof (tables_kept_trans root s s3 s4 Hs K13 K4) as K14.
  assert (4 <= avail (pa s) -> avail (pa s) - 4 <= avail (pa s4)) as Hav.
  { intros Ha. specialize (A2 ltac:(lia)). destruct A3 as (_ & ? & ?); [lia|]. destruct A4; [done|]. lia. }
  assert (3 <= avail (pa s) -> ok4 = true) as Hok.
  { intros Ha. destruct A3 as (_ & _ & ?); [by eapply Hpos; [|exact Ha]|]. by apply A4. }
  destruct ok4; cbn [negb]; (split; cbn [fst snd]; [done| | |done]); [|done|done|intros Ha; by specialize (Hok Ha)].
  intros pt [= <-]. destruct (E4 eq_refl) as [P4 Hh4]. rewrite (E3 eq_refl), andb_false_r in Hh4.
  apply (tab_child (pm s4) root (idx 1 v) (path2 v) pd); [by apply (tk_tab _ _ _ K4)|done|by right].
Qed.

Lemma other_page v w : 0 <= v < 2 ^ 48 -> 0 <= w < 2 ^ 48 -> w / 4096 <> v / 4096 -> (path1 w, idx 0 w) <> (path1 v, idx 0 v).
Proof. intros Hv Hw Hne [= E1 E2 E3 E0]. by apply Hne, idx_inj. Qed.

Lemma get_pte_inv m root v p l : get_pte_level m root v = Some (p, l) ->
  (l = LEVEL_PT /\ exists pt, tab m root (path1 v) = Some pt /\ p = slot pt (idx 0 v)) \/
  (l <> LEVEL_PT /\ has (m p) PAGE_HUGE = true).
Proof.
  unfold get_pte_level, path1, path2, path3. cbn [tab length mbind option_bind]. unfold child. cbn [Nat.eqb negb andb].
  destruct (has (m (slot root (idx 3 v))) PAGE_PRESENT); cbn [negb andb mbind option_bind]; [|done].
  set (e3 := m (slot (frame_of _) (idx 2 v))).
  destruct (has e3 PAGE_PRESENT); cbn [negb andb mbind option_bind]; [|done].
  destruct (has e3 PAGE_HUGE) eqn:H3; cbn [negb andb mbind option_bind]; [intros [= <- <-]; by right|].
  set (e2 := m (slot (frame_of e3) (idx 1 v))).
  destruct (has e2 PAGE_PRESENT); cbn [negb andb]; [|done].
  destruct (has e2 PAGE_HUGE) eqn:H2; cbn [negb andb]; [intros [= <- <-]; by right|].
  intros [= <- <-]. left. split; [done|]. by eexists.
Qed.

Lemma vmm_map_page_ok root s v paddr flags :
  vm_ok s root -> 0 <= v < 2 ^ 48 -> may_map root s v paddr flags ->
  let s' := vmm_map_page s root v paddr flags in
  vm_ok s' root /\
  (forall w, 0 <= w < 2 ^ 48 -> w / 4096 <> v / 4096 -> vmm_get_phys s' root w = vmm_get_phys s root w) /\
  ((forall w, w / 4096 = v / 4096 -> vmm_get_phys s' root w = paddr + w mod 4096) \/
   forall w, vmm_get_phys s' root w = vmm_get_phys s root w) /\
  (3 <= avail (pa s) -> huge_at (pm s) root (idx 2 v) (path3 v) = false ->
   forall w, w / 4096 = v / 4096 -> vmm_get_phys s' root w = paddr + w mod 4096) /\
  forall q x, data_page root s q -> in_page q x = true -> pm s' x = pm s x.
Proof.
  intros Hs Hv Hm s'. unfold s'. rewrite map_page_walk. cbv zeta.
  set (u := has flags PAGE_USER). set (tf := if u then _ else _).
  assert (table_flags_ok tf) as Htf by (unfold tf; destruct u; by repeat split).
  pose proof (map_walk_spec root s v u tf Hs Htf) as W. destruct (map_walk s root v u tf) as [s1 [pt|]].
  - destruct W as [K T _ _]. cbn [fst snd] in *. specialize (T pt eq_refl).
    destruct (set_leaf_spec root s1 v pt paddr flags (tk_ok _ _ _ K) T (may_map_kept root s s1 v paddr flags K Hm)) as (O & P & Q & M).
    assert (forall w, w / 4096 = v / 4096 -> vmm_get_phys (set_leaf s1 (slot pt (idx 0 v)) paddr flags) root w = paddr + w mod 4096) as P'
      by (intros w E; rewrite get_phys_tab; by apply P).
    split; [done|]. split; [intros w Hw Hne; rewrite !get_phys_tab, Q by (by apply other_page); apply K|].
    split; [by left|]. split; [done|]. intros q x Hd Hx. rewrite (M q x); [by apply (tk_mem _ _ _ K q)| |done].
    by apply (data_page_kept root s).
  - destruct W as [K _ N _]. cbn [fst snd] in *. split; [apply K|]. split; [intros w _ _; rewrite !get_phys_tab; apply K|].
    split; [right; intros w; rewrite !get_phys_tab; apply K|]. split; [intros Ha Hg; by destruct (N Ha Hg)|apply K].
Qed.

(** C2: [vmm_map_page] maps exactly one page. Building the missing tables and
    splitting a 2 MB page on the way changes no translation, so that every
    other page of the address space translates as before, and the page itself
    translates to [paddr] or, when the call gave up, as before; with three
    pages left to allocate and no 1 GB page in the way it does not give up.
    The tree of tables stays well-formed: no table is shared, freed or mapped
    as a user page; no page in use except tables is written. *)
Theorem vmm_map_page_correct root s v paddr flags :
  vm_ok s root -> 0 <= v < 2 ^ 48 -> may_map root s v paddr flags ->
  let s' := vmm_map_page s root v paddr flags in
  vm_ok s' root /\
  (forall w, 0 <= w < 2 ^ 48 -> w / 4096 <> v / 4096 -> vmm_get_phys s' root w = vmm_get_phys s root w) /\
  ((forall w, w / 4096 = v / 4096 -> vmm_get_phys s' root w = paddr + w mod 4096) \/
   forall w, vmm_get_phys s' root w = vmm_get_phys s root w) /\
  (3 <= avail (pa s) -> huge_at (pm s) root (idx 2 v) (path3 v) = false ->
   forall w, w / 4096 = v / 4096 -> vmm_get_phys s' root w = paddr + w mod 4096) /\
  forall q x, data_page root s q -> in_page q x = true -> pm s' x = pm s x.
Proof. apply vmm_map_page_ok. Qed.

(** [vmm_unmap_page] removes the translation of a 4 KB page, leaves every
    other page of the address space alone and does nothing to a huge page. *)
Theorem vmm_unmap_page_correct root s v :
  vm_ok s root -> 0 <= v < 2 ^ 48 ->
  let s' := vmm_unmap_page s root v in
  vm_ok s' root /\
  (forall w, 0 <= w < 2 ^ 48 -> w / 4096 <> v / 4096 -> vmm_get_phys s' root w = vmm_get_phys s root w) /\
  (forall p l, get_pte_level (pm s) root v = Some (p, l) ->
     if has (pm s p) PAGE_HUGE then s' = s else vmm_get_phys s' root v = 0).
Proof.
  intros Hs Hv s'. unfold s', vmm_unmap_page.
  destruct (get_pte_level (pm s) root v) as [[p l]|] eqn:E; [|done].
  assert (forall q l', Some (p, l) = Some (q, l') -> q = p) as Hq by (by intros q l' [= -> _]).
  destruct (has (pm s p) PAGE_PRESENT) eqn:Ep.
  2: { split; [done|]. split; [done|]. intros q l' [= <- <-]. destruct (has (pm s p) PAGE_HUGE); [done|].
       unfold vmm_get_phys. by rewrite E, Ep. }
  destruct (has (pm s p) PAGE_HUGE) eqn:Eh.
  { split; [done|]. split; [done|]. intros q l' Hql. by rewrite (Hq q l' Hql), Eh. }
  destruct (get_pte_inv _ _ _ _ _ E) as [(-> & pt & Hpt & ->)|[_ Hh]]; [|congruence].
  assert (vm_ok (write s (slot pt (idx 0 v)) 0) root /\ phys_of (pm (write s (slot pt (idx 0 v)) 0)) root v = 0 /\
    forall w, (path1 w, idx 0 w) <> (path1 v, idx 0 v) ->
      phys_of (pm (write s (slot pt (idx 0 v)) 0)) root w = phys_of (pm s) root w) as (O & P & Q).
  { split; [|split].
    - apply (leaf_write_ok root s v pt Hs Hpt (pa s) 0); [apply Hs| | |done|done].
      + intros R t HR Ht. by apply (vo_tab s root Hs R).
      + intros R k p HR _ Hp. by apply (vo_user s root Hs R k).
    - by apply (leaf_phys_here root s v pt Hs Hpt (pa s) 0).
    - intros w Hne. by apply (leaf_phys_other root s v pt Hs Hpt (pa s)). }
  split; [done|]. split.
  - intros w Hw Hne. rewrite !get_phys_tab. apply Q. by apply other_page.
  - intros q l' Hql. rewrite (Hq q l' Hql), Eh, get_phys_tab. apply P.
Qed.
End invariant.

(** ** Destroying an address space *)

Section destroy.
Context {A : Type} `{PageAllocator A}.
Implicit Types (s : vm A).

(** The pages [free_pt], [free_pd] and [free_pdpt_subtree] let go of. *)
Definition of_table (lo : Z) (skip_huge : bool) (sub : Z -> Z -> Prop) (m : Z -> Z) (t p : Z) : Prop :=
  exists i, lo <= i < 512 /\ let e := m (slot t i) in
    has e PAGE_PRESENT = true /\ (skip_huge = true -> has e PAGE_HUGE = false) /\ sub (frame_of e) p.
Definition of_pt (m : Z -> Z) (t p : Z) : Prop := p = t \/ of_table 0 false (fun f p => p = f) m t p.
Definition of_pd (m : Z -> Z) (t p : Z) : Prop := p = t \/ of_table 0 true (of_pt m) m t p.
Definition of_pdpt (m : Z -> Z) (t p : Z) : Prop := p = t \/ of_table 0 true (of_pd m) m t p.

(** Only the pages of [R] change hands; memory stays. *)
Definition spares (R : Z -> Prop) s s' : Prop :=
  pm s' = pm s /\ (allocator_ok (pa s) -> allocator_ok (pa s') /\
    forall q, is_page q -> ~ R q -> (in_use (pa s') q <-> in_use (pa s) q) /\ ref_get (pa s') q = ref_get (pa s) q).

Lemma spares_trans (R : Z -> Prop) s1 s2 s3 : spares R s1 s2 -> spares R s2 s3 -> spares R s1 s3.
Proof.
  intros [E1 H1] [E2 H2]. split; [congruence|]. intros Ha. destruct (H1 Ha) as [Ha2 P1]. destruct (H2 Ha2) as [Ha3 P2].
  split; [done|]. intros q Hq Hn. destruct (P1 q Hq Hn) as [I1 R1], (P2 q Hq Hn) as [I2 R2]. rewrite I2, R2. done.
Qed.

Lemma spares_weaken (R Q : Z -> Prop) s s' : (forall p, R p -> Q p) -> spares R s s' -> spares Q s s'.
Proof. intros HRQ [E HS]. split; [done|]. intros Ha. destruct (HS Ha) as [Ha' P]. split; [done|]. auto. Qed.

Lemma pa_free_spares s p : is_page p -> spares (fun q => q = p) s (pa_free s p).
Proof.
  intros Hp. split; [done|]. intros Ha. destruct (free_page_law (pa s) p Ha Hp) as [Ha' P]. split; [done|].
  intros q Hq Hn. by apply P.
Qed.

Lemma free_leaf_spares s p : is_page p -> spares (fun q => q = p) s (free_leaf p s).
Proof.
  intros Hp. unfold free_leaf. destruct (ref_dec (pa s) p) as [a n] eqn:E.
  assert (spares (fun q => q = p) s (mkVm a (pm s))) as H1.
  { split; [done|]. intros Ha. pose proof (ref_dec_law (pa s) p Ha Hp) as L. rewrite E in L.
    destruct L as (Ha' & Hu & _ & _ & Hr). split; [done|]. intros q Hq Hn. by split; [apply Hu|apply Hr]. }
  destruct (n =? 0); [|done]. eapply spares_trans; [exact H1|]. by apply pa_free_spares.
Qed.

Lemma each_entry_spares lo skip body sub t s :
  0 <= lo < 512 ->
  (forall e u, pm u = pm s -> spares (sub (frame_of e)) u (body (frame_of e) u)) ->
  spares (of_table lo skip sub (pm s) t) s (each_entry lo skip body t s).
Proof.
  intros Hlo Hb. unfold each_entry.
  match goal with |- spares ?R _ (for_each ?b ?n ?i ?s0) => apply (for_each_ind b (fun _ u => spares R s0 u) n i s0) end.
  { split; [done|]. by intros Ha. }
  intros i u Hi Hu. pose proof (proj1 Hu) as Eu. rewrite Eu.
  destruct (has _ PAGE_PRESENT) eqn:Ep; simpl; [|done].
  destruct (skip && has _ PAGE_HUGE) eqn:Eh; [done|].
  eapply spares_trans; [exact Hu|]. eapply spares_weaken; [|by apply Hb].
  intros p Hp. exists i. split; [lia|]. split; [done|]. split; [|done]. intros ->. by destruct (has _ PAGE_HUGE).
Qed.

Lemma table_spares lo skip body sub t s :
  0 <= lo < 512 -> is_page t ->
  (forall e u, pm u = pm s -> spares (sub (frame_of e)) u (body (frame_of e) u)) ->
  spares (fun p => p = t \/ of_table lo skip sub (pm s) t p) s (pa_free (each_entry lo skip body t s) t).
Proof.
  intros Hlo Ht Hb. pose proof (each_entry_spares lo skip body sub t s Hlo Hb) as H1.
  eapply spares_trans; [eapply spares_weaken, H1; by right|]. eapply spares_weaken, pa_free_spares; [by left|done].
Qed.

Lemma free_pt_spares t s : is_page t -> (forall e, is_page (frame_of e)) -> spares (of_pt (pm s) t) s (free_pt t s).
Proof.
  intros Ht Hf. unfold free_pt, of_pt. apply table_spares; [lia|done|]. intros e u _. apply free_leaf_spares, Hf.
Qed.

Lemma free_pd_spares t s : is_page t -> (forall e, is_page (frame_of e)) -> spares (of_pd (pm s) t) s (free_pd t s).
Proof.
  intros Ht Hf. unfold free_pd, of_pd. apply table_spares; [lia|done|]. intros e u <-. by apply free_pt_spares.
Qed.

Lemma free_pdpt_spares t s : is_page t -> (forall e, is_page (frame_of e)) -> spares (of_pdpt (pm s) t) s (free_pdpt_subtree t s).
Proof.
  intros Ht Hf. unfold free_pdpt_subtree, of_pdpt. apply table_spares; [lia|done|]. intros e u <-. by apply free_pd_spares.
Qed.

(** [vmm_destroy_address_space] lets go only of the PML4 and of the
    tables and pages below its entries 4 to 511: every other page, in
    particular all that hangs under the shared entries 0 to 3, keeps its
    place and its reference count, and no memory is written. *)
Theorem vmm_destroy_spares s root :
  is_page root -> (forall x, 0 <= pm s x) -> allocator_ok (pa s) ->
  let s' := vmm_destroy_address_space s root in
  pm s' = pm s /\ allocator_ok (pa s') /\
  forall q, is_page q -> q <> root -> ~ of_table 4 false (of_pdpt (pm s)) (pm s) root q ->
    (in_use (pa s') q <-> in_use (pa s) q) /\ ref_get (pa s') q = ref_get (pa s) q.
Proof.
  intros Hr Hw Ha s'. unfold s', vmm_destroy_address_space. destruct (root =? 0); [by split|].
  assert (forall e, is_page (frame_of e)) as Hf.
  { intros e. unfold frame_of. apply is_page_mask. split; [apply Z.land_nonneg; right; unfold PTE_PHYS_MASK; lia|].
    by rewrite <- Z.land_assoc, Z.land_diag. }
  destruct (table_spares 4 false free_pdpt_subtree (of_pdpt (pm s)) root s ltac:(lia) Hr) as [H1 H2].
  { intros e u <-. by apply free_pdpt_spares. }
  split; [done|]. destruct (H2 Ha) as [H3 H4]. split; [done|]. intros q Hq Hne Hn. apply H4; [done|]. by intros [->|].
Qed.

(** When the 1 GB region for kernel pages is used up, [vmm_alloc_page]
    returns NULL after it has taken a page from the allocator, and never
    gives the page back. *)
Theorem vmm_alloc_page_leaks s root next flags :
  allocator_ok (pa s) -> 0 < avail (pa s) -> VMM_ALLOC_REGION_END <= next ->
  let '(s', next', ret) := vmm_alloc_page s root next flags in
  ret = 0 /\ next' = next /\ exists p, is_page p /\ ~ in_use (pa s) p /\ in_use (pa s') p.
Proof.
  intros Ha Hav Hn. unfold vmm_alloc_page. pose proof (alloc_page_law (pa s) Ha) as L.
  destruct (alloc_page (pa s)) as [a p]. destruct L as (_ & _ & _ & Hp & Hz). destruct (Hz Hav) as [Hp0 _].
  rewrite (proj2 (Z.eqb_neq p 0)), (proj2 (Z.leb_le _ _)) by done.
  split; [done|]. split; [done|]. exists p. destruct Hp as [|(? & ? & ? & ? & _)]; [done|]. done.
Qed.
End destroy.

(** ** A machine with a 2 MB page *)

Lemma demo_allocator_ok : pmm_allocator_ok demo.
Proof.
  constructor; [exact (in_wf _ _ _ _ demo_ok)|by vm_compute| |by vm_compute].
  exists (default [] (phys_refcount demo)). split; [by vm_compute|].
  assert (Forall (fun x => 0 <= x < 2 ^ 32) (default [] (phys_refcount demo))) as HF.
  { apply (bool_decide_unpack _). by vm_compute. }
  intros i Hi. rewrite Forall_lookup in HF. apply (HF (Z.to_nat i)), geti_lookup.
  assert (highest_pfn demo <= len (default [] (phys_refcount demo))) by (by vm_compute). lia.
Qed.

(** The tables at 0x100000, 0x101000 and 0x102000, in the kernel's memory, map
    the first 2 MB with one huge page. *)
Definition demo_mem : Z -> Z :=
  mset (mset (mset (fun _ => 0) 0x100000 0x101003) 0x101000 0x102003) 0x102000 0x83.
Definition demo_vm : vm pmm := mkVm demo demo_mem.

Lemma demo_tab P t : path_ok P -> tab demo_mem 0x100000 P = Some t ->
  (P = [] /\ t = 0x100000) \/ (P = [0] /\ t = 0x101000) \/ (P = [0; 0] /\ t = 0x102000).
Proof.
  revert t. induction P as [|i up IH]; intros t HP; [intros [= <-]; by left|].
  destruct (path_ok_cons _ _ HP) as (Hup & Hi & Hl). unfold index_ok in Hi. cbn [tab].
  destruct (tab demo_mem 0x100000 up) as [u|] eqn:Eu; [|done]. cbn [mbind option_bind].
  assert (forall a, a = slot u i -> demo_mem a = if a =? 0x102000 then 0x83 else if a =? 0x101000 then 0x102003
    else if a =? 0x100000 then 0x101003 else 0) as Hm by done.
  rewrite (Hm _ eq_refl). unfold slot.
  destruct (IH u Hup eq_refl) as [[-> ->]|[[-> ->]|[-> ->]]].
  - destruct (Z.eqb_spec (0x100000 + 8 * i) 0x102000); [lia|]. destruct (Z.eqb_spec (0x100000 + 8 * i) 0x101000); [lia|].
    destruct (Z.eqb_spec (0x100000 + 8 * i) 0x100000); [|done]. intros [= <-]. right. left. split; [f_equal; lia|done].
  - destruct (Z.eqb_spec (0x101000 + 8 * i) 0x102000); [lia|]. destruct (Z.eqb_spec (0x101000 + 8 * i) 0x101000).
    + intros [= <-]. right. right. split; [f_equal; lia|done].
    + destruct (Z.eqb_spec (0x101000 + 8 * i) 0x100000); [lia|done].
  - destruct (Z.eqb_spec (0x102000 + 8 * i) 0x102000); [done|]. destruct (Z.eqb_spec (0x102000 + 8 * i) 0x101000); [lia|].
    destruct (Z.eqb_spec (0x102000 + 8 * i) 0x100000); [lia|done].
Qed.

Lemma demo_tables_ok (a : pmm) : pmm_allocator_ok a -> (forall q, is_page q -> page_in_use demo q -> page_in_use a q) ->
  vm_ok (mkVm a demo_mem) 0x100000.
Proof.
  intros Ha Hin. constructor.
  - intros x. simpl. unfold demo_mem, mset. repeat case_match; lia.
  - exact Ha.
  - intros P t HP Ht. destruct (demo_tab P t HP Ht) as [[_ ->]|[[_ ->]|[_ ->]]]; (split; [by split; [lia|]|apply Hin; [by split; [lia|]|by vm_compute]]).
  - intros P Q t HP HQ Ht Hu. destruct (demo_tab P t HP Ht) as [[-> ->]|[[-> ->]|[-> ->]]],
      (demo_tab Q _ HQ Hu) as [[-> E]|[[-> E]|[-> E]]]; done.
  - intros P t i HP HlP Ht. destruct (path_ok_cons _ _ HP) as (HP' & Hi & _). unfold index_ok in Hi.
    destruct (demo_tab P t HP' Ht) as [[-> ->]|[[-> ->]|[-> ->]]]; [done|done|]. simpl. unfold slot, demo_mem, mset.
    destruct (Z.eqb_spec (0x102000 + 8 * i) 0x102000); [done|]. destruct (Z.eqb_spec (0x102000 + 8 * i) 0x101000); [lia|].
    destruct (Z.eqb_spec (0x102000 + 8 * i) 0x100000); [lia|done].
  - intros P j p (HP & HlP & _). unfold uleaf. destruct (tab (pm (mkVm a demo_mem)) 0x100000 P) as [t|] eqn:Et; [|done].
    by destruct (demo_tab P t HP Et) as [[-> _]|[[-> _]|[-> _]]].
  - intros P j Q k p (HP & HlP & _) _. unfold uleaf at 1. destruct (tab (pm (mkVm a demo_mem)) 0x100000 P) as [t|] eqn:Et; [|done].
    by destruct (demo_tab P t HP Et) as [[-> _]|[[-> _]|[-> _]]].
Qed.

Lemma demo_vm_ok : vm_ok demo_vm 0x100000.
Proof. by apply demo_tables_ok; [apply demo_allocator_ok|]. Qed.

Lemma vmm_map_page_correct_witness :
  vmm_get_phys demo_vm 0x100000 0x5123 = 0x5123 /\
  vmm_get_phys (vmm_map_page demo_vm 0x100000 0x5123 0x110000 7) 0x100000 0x5123 = 0x110123 /\
  vmm_get_phys (vmm_map_page demo_vm 0x100000 0x5123 0x110000 7) 0x100000 0x6123 = 0x6123.
Proof.
  split; [by vm_compute|].
  destruct (vmm_map_page_correct 0x100000 demo_vm 0x5123 0x110000 7 demo_vm_ok) as (_ & H1 & _ & H2 & _); [lia| |].
  { split; [by split; [lia|]|]. split; [lia|]. do 2 (split; [done|]). intros _. split; [by vm_compute|]. split.
    - intros Q HQ Ht. by destruct (demo_tab Q _ HQ Ht) as [[_ ?]|[[_ ?]|[_ ?]]].
    - intros Q k (HQ & HlQ & _). unfold uleaf. destruct (tab (pm demo_vm) 0x100000 Q) as [t|] eqn:Et; [|done].
      by destruct (demo_tab Q t HQ Et) as [[-> _]|[[-> _]|[-> _]]]. }
  split.
  - apply H2; by vm_compute.
  - rewrite H1; [by vm_compute|lia|by vm_compute].
Defined.

Lemma vmm_unmap_page_correct_witness :
  vmm_unmap_page demo_vm 0x100000 0x5000 = demo_vm.
Proof.
  destruct (vmm_unmap_page_correct 0x100000 demo_vm 0x5000 demo_vm_ok) as (_ & _ & H); [lia|].
  apply (H 0x102000 LEVEL_PD). by vm_compute.
Defined.

Lemma vmm_destroy_spares_witness :
  page_in_use (pa (vmm_destroy_address_space demo_vm 0x100000)) 0x101000.
Proof.
  destruct (vmm_destroy_spares demo_vm 0x100000) as (_ & _ & Hq);
    [by split; [lia|]|intros x; apply (vo_word _ _ demo_vm_ok)|exact demo_allocator_ok|].
  apply (Hq 0x101000); [by split; [lia|]|done| |by vm_compute].
  intros (i & Hi & Hp & _). revert Hp. simpl. unfold slot, demo_mem, mset.
  destruct (Z.eqb_spec (0x100000 + 8 * i) 0x102000); [lia|]. destruct (Z.eqb_spec (0x100000 + 8 * i) 0x101000); [lia|].
  destruct (Z.eqb_spec (0x100000 + 8 * i) 0x100000); [lia|done].
Defined.

Lemma vmm_alloc_page_leaks_witness :
  (vmm_alloc_page demo_vm 0x100000 VMM_ALLOC_REGION_END 3).2 = 0.
Proof.
  pose proof (vmm_alloc_page_leaks demo_vm 0x100000 VMM_ALLOC_REGION_END 3 demo_allocator_ok) as L.
  destruct (vmm_alloc_page demo_vm 0x100000 VMM_ALLOC_REGION_END 3) as [[s' n] r]. apply L; [by vm_compute|done].
Defined.
