(* ===== verification/Heap.v ===== *)
(** * Kernel heap: kernel/mm/heap.c

    The block headers are a map from their address, the free list is threaded
    through the headers by [hb_next] (0 for NULL) and new blocks are cut from
    [heap_next].  [hdata] holds the payload bytes that [kcalloc] and
    [krealloc] write. *)

From S2P Require Import Prelude Pmm.
From stdpp Require Import gmap.
Open Scope Z_scope.

(** ** State *)

Record heap_block := mkBlock {
  hb_size : Z;        (* total size including the header *)
  hb_next : Z;        (* next free block *)
  hb_free : bool;
}.

#[export] Instance heap_block_inhabited : Inhabited heap_block := populate (mkBlock 0 0 false).

Definition HDR : Z := 24. (* sizeof(struct heap_block) *)

Record heap := mkHeap {
  blocks : gmap Z heap_block;
  free_list : Z;
  heap_next : Z;
  kernel_heap_start : Z;
  kernel_heap_end : Z;
  hdata : gmap Z Z;
}.

Definition hdr (h : heap) (a : Z) : heap_block := default inhabitant (blocks h !! a).
Definition put (h : heap) (a : Z) (b : heap_block) : heap :=
  mkHeap (<[a := b]> (blocks h)) (free_list h) (heap_next h) (kernel_heap_start h)
    (kernel_heap_end h) (hdata h).
Definition with_list (h : heap) (l : Z) : heap :=
  mkHeap (blocks h) l (heap_next h) (kernel_heap_start h) (kernel_heap_end h) (hdata h).
Definition with_next (h : heap) (n : Z) : heap :=
  mkHeap (blocks h) (free_list h) n (kernel_heap_start h) (kernel_heap_end h) (hdata h).
Definition with_data (h : heap) (d : gmap Z Z) : heap :=
  mkHeap (blocks h) (free_list h) (heap_next h) (kernel_heap_start h) (kernel_heap_end h) d.
Definition set_next (b : heap_block) (n : Z) : heap_block := mkBlock (hb_size b) n (hb_free b).

(** ** Operations *)

Definition MiB : Z := 1024 * 1024.
Definition KERNEL_HEAP_SIZE : Z := 0x20000000.
Definition KASLR_HEAP_MIN : Z := 64 * MiB.
Definition KASLR_HEAP_RANGE : Z := 192 * MiB.

(** [tsc] is what [rdtsc] returned. *)
Definition heap_slide (tsc : Z) : Z :=
  let t := Z.lxor tsc (Z.shiftr tsc 33) in
  let t := u64 (t * 0xff51afd7ed558ccd) in
  let t := Z.lxor t (Z.shiftr t 33) in
  ALIGN_DOWN (Z.land t (KASLR_HEAP_RANGE - 1)) (2 * MiB).

Definition heap_init (tsc : Z) (st : pmm) : heap * pmm :=
  let start := KASLR_HEAP_MIN + heap_slide tsc in
  let fin := start + KERNEL_HEAP_SIZE in
  (mkHeap ∅ 0 start start fin ∅, pmm_reserve_region st start fin).

(** The walk of the free list: [None] when the fuel runs out, [Some None] at
    the end of the list, otherwise the block taken and its predecessor. *)
Fixpoint find_block (fuel : nat) (h : heap) (total prev curr : Z) : option (option (Z * Z)) :=
  match fuel with
  | O => None
  | S fuel =>
      if curr =? 0 then Some None
      else
        let b := hdr h curr in
        if hb_free b && (total <=? hb_size b) then Some (Some (prev, curr))
        else find_block fuel h total curr (hb_next b)
  end.

(** Unlinking [curr], marking it used and splitting it. *)
Definition take_block (h : heap) (total prev curr : Z) : heap :=
  let b := hdr h curr in
  let h := if prev =? 0 then with_list h (hb_next b)
           else put h prev (set_next (hdr h prev) (hb_next b)) in
  if u64 (total + HDR + 16) <=? hb_size b then
    let nb := curr + total in
    let h := put h nb (mkBlock (hb_size b - total) (free_list h) true) in
    put (with_list h nb) curr (mkBlock total 0 false)
  else put h curr (mkBlock (hb_size b) 0 false).

Definition kmalloc_total (size : Z) : Z := u64 (HDR + ALIGN_UP size 16).

Definition bump (h : heap) (total : Z) : heap * Z :=
  if kernel_heap_end h <? u64 (heap_next h + total) then (h, 0)
  else
    let a := heap_next h in
    (with_next (put h a (mkBlock total 0 false)) (u64 (a + total)), a + HDR).

(** A pointer is its address, 0 for NULL; [None] is a walk that does not end. *)
Definition kmalloc (h : heap) (size : Z) : option (heap * Z) :=
  if size =? 0 then Some (h, 0)
  else
    let total := kmalloc_total size in
    match find_block (S (base.size (blocks h))) h total 0 (free_list h) with
    | None => None
    | Some (Some (prev, curr)) => Some (take_block h total prev curr, curr + HDR)
    | Some None => Some (bump h total)
    end.

Fixpoint fill (d : gmap Z Z) (a : Z) (bytes : list Z) : gmap Z Z :=
  match bytes with
  | [] => d
  | x :: bytes => fill (<[a := x]> d) (a + 1) bytes
  end.
Definition load (d : gmap Z Z) (a : Z) (n : nat) : list Z :=
  (fun i => default 0 (d !! i)) <$> seqZ a (Z.of_nat n).

Definition SIZE_MAX : Z := 2 ^ 64 - 1.

Definition kcalloc (h : heap) (count size : Z) : option (heap * Z) :=
  if negb (count =? 0) && (SIZE_MAX / count <? size) then Some (h, 0)
  else
    let total := u64 (count * size) in
    match kmalloc h total with
    | None => None
    | Some (h, p) =>
        if p =? 0 then Some (h, 0)
        else Some (with_data h (fill (hdata h) p (replicate (Z.to_nat total) 0)), p)
    end.

Definition kfree (h : heap) (ptr : Z) : heap :=
  if ptr =? 0 then h
  else
    let a := ptr - HDR in
    let b := hdr h a in
    if hb_free b then h
    else
      let b := mkBlock (hb_size b) (hb_next b) true in
      let h := put h a b in
      let nb := hdr h (hb_next b) in
      let b := if negb (hb_next b =? 0) && hb_free nb && (a + hb_size b =? hb_next b)
               then mkBlock (hb_size b + hb_size nb) (hb_next nb) true else b in
      with_list (put h a (set_next b (free_list h))) a.

Definition krealloc (h : heap) (ptr size : Z) : option (heap * Z) :=
  if ptr =? 0 then kmalloc h size
  else if size =? 0 then Some (kfree h ptr, 0)
  else
    let b := hdr h (ptr - HDR) in
    if u64 (HDR + size) <=? hb_size b then Some (h, ptr)
    else
      match kmalloc h size with
      | None => None
      | Some (h', p) =>
          if p =? 0 then Some (h', 0)
          else
            let n := hb_size (hdr h' (ptr - HDR)) - HDR in
            Some (kfree (with_data h' (fill (hdata h') p (load (hdata h') ptr (Z.to_nat n)))) ptr, p)
      end.

Definition ksize (h : heap) (ptr : Z) : Z :=
  if ptr =? 0 then 0 else hb_size (hdr h (ptr - HDR)) - HDR.

Definition heap_get_used (h : heap) : Z := heap_next h - kernel_heap_start h.

(** ** Invariant *)

Inductive chain (bs : gmap Z heap_block) : Z -> list Z -> Prop :=
| chain_nil : chain bs 0 []
| chain_cons a b l : a <> 0 -> bs !! a = Some b -> chain bs (hb_next b) l -> chain bs a (a :: l).

(** The blocks, given by their sizes, tile [start, next) without overlap. *)
Record geom (sz : gmap Z Z) (start next : Z) : Prop := {
  ge_range : forall a s, sz !! a = Some s -> start <= a /\ HDR <= s /\ a + s <= next;
  ge_disjoint : forall a1 s1 a2 s2, sz !! a1 = Some s1 -> sz !! a2 = Some s2 -> a1 < a2 -> a1 + s1 <= a2;
  ge_tiled : forall a s, sz !! a = Some s -> a + s = next \/ is_Some (sz !! (a + s));
  ge_first : start < next -> is_Some (sz !! start);
}.

Record heap_wf (h : heap) (fl : list Z) : Prop := {
  hw_chain : chain (blocks h) (free_list h) fl;
  hw_nodup : NoDup fl;
  hw_free : forall a, a ∈ fl <-> exists b, blocks h !! a = Some b /\ hb_free b = true;
  hw_used : forall a b, blocks h !! a = Some b -> hb_free b = false -> hb_next b = 0;
  hw_geom : geom (hb_size <$> blocks h) (kernel_heap_start h) (heap_next h);
  hw_bounds : 0 < kernel_heap_start h <= heap_next h /\ heap_next h <= kernel_heap_end h < 2 ^ 62;
}.

(** ** Lists of headers *)

Lemma chain_frame bs bs' a l :
  chain bs a l -> (forall x, x ∈ l -> bs' !! x = bs !! x) -> chain bs' a l.
Proof.
  intros Hc. induction Hc as [|a b l Ha Hb Hc IH]; intros Hf; [constructor|].
  econstructor; [done|rewrite Hf by set_solver; done|]. apply IH. set_solver.
Qed.

Lemma chain_head bs a l x : chain bs a (x :: l) -> a = x /\ x <> 0 /\
  exists b, bs !! x = Some b /\ chain bs (hb_next b) l.
Proof. inversion_clear 1. eauto. Qed.

Lemma chain_in bs a l x : chain bs a l -> x ∈ l -> x <> 0 /\ is_Some (bs !! x).
Proof.
  induction 1 as [|a b l Ha Hb Hc IH]; [set_solver|].
  intros [->|Hx]%elem_of_cons; eauto.
Qed.

Lemma chain_length bs a l : chain bs a l -> NoDup l -> (length l <= size bs)%nat.
Proof.
  intros Hc Hn. rewrite <- (size_dom bs), <- (size_list_to_set (C:=gset Z) l) by done.
  apply subseteq_size. intros x Hx%elem_of_list_to_set.
  apply elem_of_dom. by eapply chain_in.
Qed.

(** Unlinking the element after the prefix [l1]. *)
Lemma chain_unlink bs a l1 p c l2 bp bc :
  chain bs a (l1 ++ p :: c :: l2) -> NoDup (l1 ++ p :: c :: l2) ->
  bs !! p = Some bp -> bs !! c = Some bc ->
  chain (<[p := set_next bp (hb_next bc)]> bs) a (l1 ++ p :: l2).
Proof.
  revert a. induction l1 as [|x l1 IH]; intros a Hc Hn Hp Hcc; simpl in *.
  - apply chain_head in Hc as (-> & Hp0 & b & Hb & Hc). simplify_eq.
    apply chain_head in Hc as (Ec & Hc0 & b' & Hb' & Hc). simplify_eq.
    econstructor; [done|apply lookup_insert_eq|]. simpl.
    eapply chain_frame; [exact Hc|]. intros x Hx. apply lookup_insert_ne.
    apply NoDup_cons in Hn as [Hn _]. set_solver.
  - apply chain_head in Hc as (-> & Hx0 & b & Hb & Hc). apply NoDup_cons in Hn as [Hx Hn].
    econstructor; [done| |by apply IH]. rewrite lookup_insert_ne; [done|]. set_solver.
Qed.

(** ** The free-list walk *)

Lemma hdr_lookup h a b : blocks h !! a = Some b -> hdr h a = b.
Proof. unfold hdr. by intros ->. Qed.

Definition fits (h : heap) (total a : Z) : bool := hb_free (hdr h a) && (total <=? hb_size (hdr h a)).

Definition last_or (d : Z) (l : list Z) : Z := default d (last l).

Lemma find_block_spec fuel h total prev curr l :
  chain (blocks h) curr l -> (length l < fuel)%nat ->
  (find_block fuel h total prev curr = Some None /\ forall x, x ∈ l -> fits h total x = false) \/
  (exists l1 c l2, l = l1 ++ c :: l2 /\ fits h total c = true /\
     (forall x, x ∈ l1 -> fits h total x = false) /\
     find_block fuel h total prev curr = Some (Some (last_or prev l1, c))).
Proof.
  revert prev curr l. induction fuel as [|fuel IH]; intros prev curr l Hc Hl; [lia|].
  destruct Hc as [|a b l Ha Hb Hc]; simpl.
  { left. split; [done|set_solver]. }
  rewrite (proj2 (Z.eqb_neq a 0)) by done. change (hb_free _ && _) with (fits h total a).
  destruct (fits h total a) eqn:E.
  { right. exists [], a, l. split_and!; try done. set_solver. }
  rewrite (hdr_lookup _ _ _ Hb). simpl in Hl.
  destruct (IH a (hb_next b) l Hc ltac:(lia)) as [[-> Hno]|(l1 & c & l2 & -> & Hf & Hno & ->)].
  - left. split; [done|]. intros x [->|Hx]%elem_of_cons; auto.
  - right. exists (a :: l1), c, l2. split_and!; try done.
    + intros x [->|Hx]%elem_of_cons; auto.
    + unfold last_or. rewrite last_cons. by destruct (last l1).
Qed.

(** ** Geometry *)

Lemma geom_split sz start next c s t :
  geom sz start next -> sz !! c = Some s -> HDR <= t -> HDR <= s - t ->
  geom (<[c := t]> (<[c + t := s - t]> sz)) start next.
Proof.
  intros [R D T F] Hc Ht Hs. pose proof (R c s Hc) as Rc.
  assert (forall a b, sz !! a = Some b -> c < a -> c + s <= a) as Dc by eauto.
  assert (forall a b, sz !! a = Some b -> a < c -> a + b <= c) as Da by eauto.
  assert (forall a, is_Some (sz !! a) -> is_Some (<[c:=t]> (<[c + t:=s - t]> sz) !! a)) as Hm
    by (intros a Ha; rewrite !lookup_insert_is_Some'; auto).
  assert (forall a s', <[c:=t]> (<[c + t:=s - t]> sz) !! a = Some s' ->
    (a = c /\ s' = t) \/ (a = c + t /\ s' = s - t) \/
    (sz !! a = Some s' /\ ((a < c /\ a + s' <= c) \/ c + s <= a))) as Cases.
  { intros a s'. rewrite !lookup_insert. repeat case_decide; intros E; simplify_eq; [auto..|].
    right; right. split; [done|]. destruct (Z.lt_trichotomy a c) as [Hl|[->|Hl]]; [|done|]; eauto. }
  unfold HDR in *. constructor; unfold HDR in *.
  - intros a b [[-> ->]|[[-> ->]|[E _]]]%Cases; [lia..|]. by apply R in E.
  - intros a1 s1 a2 s2 [[-> ->]|[[-> ->]|[E1 C1]]]%Cases [[-> ->]|[[-> ->]|[E2 C2]]]%Cases Hlt;
      try lia. eauto.
  - intros a b [[-> ->]|[[-> ->]|[E _]]]%Cases.
    + right. rewrite !lookup_insert_is_Some'. auto.
    + replace (c + t + (s - t)) with (c + s) by lia. destruct (T c s Hc); auto.
    + destruct (T a b E); auto.
  - auto.
Qed.

Lemma geom_bump sz start next t :
  geom sz start next -> start <= next -> HDR <= t -> geom (<[next := t]> sz) start (next + t).
Proof.
  intros [R D T F] Hn Ht. unfold HDR in *.
  assert (forall a s, sz !! a = Some s -> a < next) as Hlt.
  { intros a s Ha. apply R in Ha. unfold HDR in *. lia. }
  constructor; unfold HDR in *.
  - intros a s. rewrite lookup_insert. case_decide; intros E; simplify_eq; [lia|].
    apply R in E. unfold HDR in *. lia.
  - intros a1 s1 a2 s2. rewrite !lookup_insert.
    repeat case_decide; intros E1 E2 Ha; simplify_eq; [lia| | |by eauto].
    + apply Hlt in E2. lia.
    + apply R in E1. unfold HDR in *. lia.
  - intros a s. rewrite (lookup_insert _ _ a). case_decide; intros E; simplify_eq; [by left|].
    right. rewrite lookup_insert_is_Some'. destruct (T a s E) as [->|]; auto.
  - intros _. rewrite lookup_insert_is_Some'. destruct (decide (start = next)); [auto|].
    right. apply F. lia.
Qed.

Lemma size_set_next (bs : gmap Z heap_block) p b n :
  bs !! p = Some b -> hb_size <$> (<[p := set_next b n]> bs) = hb_size <$> bs.
Proof.
  intros Hp. rewrite fmap_insert. simpl. apply insert_id. by rewrite lookup_fmap, Hp.
Qed.

(** ** Taking a block *)

(** [bs1]: the headers after the unlink, [a1] the new head of the list. *)
Lemma unlink_spec h fl l1 c l2 bc :
  heap_wf h fl -> fl = l1 ++ c :: l2 -> blocks h !! c = Some bc ->
  let prev := last_or 0 l1 in
  let h1 := if prev =? 0 then with_list h (hb_next bc)
            else put h prev (set_next (hdr h prev) (hb_next bc)) in
  chain (blocks h1) (free_list h1) (l1 ++ l2) /\
  hb_size <$> blocks h1 = hb_size <$> blocks h /\
  (forall a, hb_free <$> blocks h1 !! a = hb_free <$> blocks h !! a) /\
  (forall a, a ∉ l1 -> blocks h1 !! a = blocks h !! a) /\
  heap_next h1 = heap_next h /\ kernel_heap_start h1 = kernel_heap_start h /\
  kernel_heap_end h1 = kernel_heap_end h /\ hdata h1 = hdata h.
Proof.
  intros [Hc Hn Hf Hu _ _] -> Hbc. cbv zeta.
  destruct l1 as [|p l1 _] using rev_ind; simpl in *.
  - apply chain_head in Hc as (Hh & _ & b & Hb & Hc). simplify_eq. done.
  - unfold last_or. rewrite last_snoc. simpl. rewrite <- !app_assoc in *. simpl in *.
    pose proof (chain_in _ _ _ p Hc ltac:(set_solver)) as [Hp [bp Hbp]].
    rewrite (proj2 (Z.eqb_neq p 0)), (hdr_lookup _ _ _ Hbp) by done. simpl.
    split_and!; try done.
    + by eapply chain_unlink.
    + by apply size_set_next.
    + intros a. rewrite lookup_insert. case_decide; [|done]. subst. by rewrite Hbp.
    + intros a Ha. apply lookup_insert_ne. set_solver.
Qed.

Record taken (h : heap) (c total : Z) (h' : heap) : Prop := {
  tk_block : exists b, blocks h' !! c = Some b /\ hb_free b = false /\ total <= hb_size b;
  tk_free : exists b, blocks h !! c = Some b /\ hb_free b = true;
  tk_live : forall a b, blocks h !! a = Some b -> hb_free b = false -> blocks h' !! a = Some b;
  tk_new : forall a b, blocks h' !! a = Some b -> hb_free b = false -> a = c \/ blocks h !! a = Some b;
  tk_data : hdata h' = hdata h;
  tk_region : kernel_heap_start h' = kernel_heap_start h /\ kernel_heap_end h' = kernel_heap_end h;
}.

Lemma take_block_spec h fl l1 c l2 total :
  heap_wf h fl -> fl = l1 ++ c :: l2 -> fits h total c = true -> HDR <= total ->
  exists fl', heap_wf (take_block h total (last_or 0 l1) c) fl' /\
              taken h c total (take_block h total (last_or 0 l1) c).
Proof.
  intros Hwf Hfl Hfit Ht.
  assert (exists bc, blocks h !! c = Some bc /\ hb_free bc = true) as (bc & Hbc & Hfc)
    by (apply (hw_free _ _ Hwf); subst; set_solver).
  unfold fits in Hfit. rewrite (hdr_lookup _ _ _ Hbc), Hfc in Hfit. simpl in Hfit. apply Z.leb_le in Hfit.
  pose proof (unlink_spec h fl l1 c l2 bc Hwf Hfl Hbc) as U. cbv zeta in U.
  unfold take_block. rewrite (hdr_lookup _ _ _ Hbc).
  set (h1 := if _ =? 0 then _ else _) in *.
  destruct U as (Hc1 & Hs1 & Hf1 & Hk1 & En & Es & Ee & Ed).
  destruct Hwf as [Hc Hn Hf Hu Hg Hb]. subst fl.
  assert (c ∉ l1 ++ l2 /\ NoDup (l1 ++ l2)) as [Hcn Hn'].
  { apply NoDup_app in Hn as (N1 & N12 & N2). apply NoDup_cons in N2 as [N2 N3].
    split; [set_solver|]. apply NoDup_app. split_and!; [done|set_solver|done]. }
  assert (blocks h1 !! c = Some bc) as Hbc1 by (rewrite Hk1; [done|set_solver]).
  assert (forall a, a <> c -> a ∈ l1 ++ l2 <-> exists b, blocks h1 !! a = Some b /\ hb_free b = true) as Hf'.
  { intros a Ha. assert (a ∈ l1 ++ l2 <-> a ∈ l1 ++ c :: l2) as -> by set_solver.
    rewrite Hf. specialize (Hf1 a).
    split; intros (b & Hb' & Hfb); rewrite Hb' in Hf1; simpl in Hf1.
    - destruct (blocks h1 !! a) as [b1|]; [|done]. exists b1. split; [done|]. simpl in Hf1. congruence.
    - destruct (blocks h !! a) as [b1|]; [|done]. exists b1. split; [done|]. simpl in Hf1. congruence. }
  assert (forall a b, a <> c -> blocks h1 !! a = Some b -> hb_free b = false -> blocks h !! a = Some b) as Hold.
  { intros a b Hne Hb' Hfb. rewrite <- Hk1; [done|]. intros Ha.
    destruct (proj1 (Hf' a Hne)) as (b1 & Hb1 & ?); [set_solver|]. congruence. }
  assert (forall a b, blocks h !! a = Some b -> hb_free b = false -> a <> c /\ blocks h1 !! a = Some b) as Hlive.
  { intros a b Hb' Hfb. split; [congruence|]. rewrite Hk1; [done|]. intros Ha.
    destruct (proj1 (Hf a)) as (b1 & Hb1 & ?); [set_solver|]. congruence. }
  pose proof (ge_range _ _ _ Hg c (hb_size bc)) as Rc. rewrite lookup_fmap, Hbc in Rc.
  specialize (Rc eq_refl). unfold HDR in *.
  rewrite wrap_small by lia.
  destruct (Z.leb_spec (total + 24 + 16) (hb_size bc)) as [Hsplit|Hsplit].
  - set (nb := c + total).
    assert (blocks h !! nb = None) as Hnb.
    { destruct (blocks h !! nb) as [b|] eqn:E; [|done]. exfalso.
      assert (c + hb_size bc <= nb); [|subst nb; lia].
      eapply (ge_disjoint _ _ _ Hg c _ nb (hb_size b)); rewrite ?lookup_fmap, ?Hbc, ?E; try done.
      subst nb. lia. }
    assert (nb <> c) by (subst nb; lia).
    assert (nb ∉ l1 ++ l2) as Hnl.
    { intros Hin. apply Hf' in Hin as (b & Hb' & _); [|done].
      specialize (Hf1 nb). rewrite Hb', Hnb in Hf1. done. }
    exists (nb :: l1 ++ l2). split.
    + constructor; simpl; rewrite ?En, ?Es, ?Ee; try done.
      * econstructor; [subst nb; lia|rewrite lookup_insert_ne by done; apply lookup_insert_eq|].
        simpl. eapply chain_frame; [exact Hc1|]. intros x Hx.
        rewrite !lookup_insert_ne; [done|set_solver..].
      * by apply NoDup_cons.
      * intros a. destruct (decide (a = c)) as [->|Hne].
        -- split; [intros [Hx|?]%elem_of_cons; congruence|]. intros (b & Hb' & Hfb).
           rewrite lookup_insert_eq in Hb'. by simplify_eq.
        -- rewrite elem_of_cons, Hf' by done. rewrite lookup_insert_ne by done.
           rewrite lookup_insert. case_decide; [|naive_solver]. split; [intros _|by intros _; left].
           eexists; split; [done|done].
      * intros a b. rewrite !lookup_insert. repeat case_decide; intros E Hfb; simplify_eq; try done.
        apply (Hu a); [|done]. apply Hold; congruence.
      * rewrite !fmap_insert, Hs1. simpl. apply geom_split; [done| |unfold HDR; lia..].
        by rewrite lookup_fmap, Hbc.
    + constructor; simpl.
      * exists (mkBlock total 0 false). rewrite lookup_insert_eq. split_and!; done.
      * eauto.
      * intros a b Hb' Hfb. destruct (Hlive a b) as []; [done..|].
        rewrite !lookup_insert_ne; congruence.
      * intros a b. rewrite !lookup_insert. repeat case_decide; [auto|intros; by simplify_eq|]. eauto.
      * done.
      * done.
  - exists (l1 ++ l2). split.
    + constructor; simpl; rewrite ?En, ?Es, ?Ee; try done.
      * eapply chain_frame; [exact Hc1|]. intros x Hx. apply lookup_insert_ne. set_solver.
      * intros a. destruct (decide (a = c)) as [->|Hne].
        -- split; [done|]. intros (b & Hb' & Hfb). rewrite lookup_insert_eq in Hb'. by simplify_eq.
        -- rewrite Hf' by done. by rewrite lookup_insert_ne.
      * intros a b. rewrite lookup_insert. case_decide; intros E Hfb; simplify_eq; [done|].
        apply (Hu a); [|done]. apply Hold; congruence.
      * rewrite fmap_insert, Hs1. simpl. rewrite insert_id; [done|]. by rewrite lookup_fmap, Hbc.
    + constructor; simpl.
      * exists (mkBlock (hb_size bc) 0 false). rewrite lookup_insert_eq. split_and!; done.
      * eauto.
      * intros a b Hb' Hfb. destruct (Hlive a b) as []; [done..|]. by rewrite lookup_insert_ne.
      * intros a b. rewrite lookup_insert. case_decide; [auto|]. eauto.
      * done.
      * done.
Qed.

(** ** kmalloc *)

Definition live (h : heap) (a : Z) (b : heap_block) : Prop :=
  blocks h !! a = Some b /\ hb_free b = false.

(** Requests below this bound do not overflow the size computation. *)
Definition max_request : Z := 2 ^ 61.

Lemma kmalloc_total_val size :
  0 <= size <= max_request -> kmalloc_total size = HDR + (size + 15) / 16 * 16.
Proof.
  unfold max_request, kmalloc_total, ALIGN_UP, HDR. intros Hs.
  rewrite (wrap_small 64 (size + 16 - 1)) by lia.
  change (16 - 1) with (2 ^ 4 - 1). rewrite land_lnot_ones by lia. change (2 ^ 4) with 16.
  replace (size + 16 - 1) with (size + 15) by lia. apply wrap_small. zlia.
Qed.

Record kmalloc_post (h : heap) (size : Z) (h' : heap) (p : Z) : Prop := {
  km_live : forall a b, live h a b -> live h' a b;
  km_data : hdata h' = hdata h;
  km_region : kernel_heap_start h' = kernel_heap_start h /\ kernel_heap_end h' = kernel_heap_end h;
  km_block : p <> 0 ->
    (exists b, live h' (p - HDR) b /\ HDR + size <= hb_size b) /\
    (forall b, ~ live h (p - HDR) b) /\
    (forall a b, live h' a b -> a = p - HDR \/ live h a b);
  km_fail : p = 0 -> h' = h /\
    (size = 0 \/ ((forall a, fits h (kmalloc_total size) a = true -> blocks h !! a = None) /\
                  kernel_heap_end h < heap_next h + kmalloc_total size));
}.

Lemma bump_spec h fl total :
  heap_wf h fl -> HDR <= total < 2 ^ 62 -> heap_next h + total <= kernel_heap_end h ->
  heap_wf (bump h total).1 fl /\ (bump h total).2 = heap_next h + HDR /\
  (bump h total).1 = with_next (put h (heap_next h) (mkBlock total 0 false)) (heap_next h + total) /\
  blocks h !! heap_next h = None.
Proof.
  intros [Hc Hn Hf Hu Hg Hb] Ht He. unfold HDR in Ht.
  assert (blocks h !! heap_next h = None) as Hnone.
  { destruct (blocks h !! heap_next h) as [b|] eqn:E; [|done]. exfalso.
    pose proof (ge_range _ _ _ Hg (heap_next h) (hb_size b)) as R.
    rewrite lookup_fmap, E in R. specialize (R eq_refl). unfold HDR in R. lia. }
  unfold bump. rewrite wrap_small by lia. rewrite (proj2 (Z.ltb_ge _ _)) by lia. simpl.
  split_and!; try done. constructor; simpl; try done.
  - eapply chain_frame; [exact Hc|]. intros x Hx. apply lookup_insert_ne.
    pose proof (chain_in _ _ _ x Hc Hx) as [_ [b Hx']]. congruence.
  - intros a. rewrite Hf. rewrite lookup_insert. case_decide; [|done]. subst a. rewrite Hnone.
    split; intros (b & Hb' & Hfb); by simplify_eq.
  - intros a b. rewrite lookup_insert. case_decide; intros; simplify_eq; [done|eauto].
  - rewrite fmap_insert. apply geom_bump; [done|lia|unfold HDR; lia].
  - lia.
Qed.

Lemma kmalloc_spec h fl size :
  heap_wf h fl -> 0 <= size <= max_request ->
  exists h' p fl', kmalloc h size = Some (h', p) /\ heap_wf h' fl' /\ kmalloc_post h size h' p.
Proof.
  intros Hwf Hsz. unfold kmalloc. destruct (Z.eqb_spec size 0) as [->|Hne].
  { exists h, 0, fl. split_and!; [done..|]. constructor; try done. auto. }
  pose proof (kmalloc_total_val size Hsz) as Et. set (total := kmalloc_total size) in *.
  assert (HDR + size <= total < 2 ^ 62) as Ht.
  { unfold max_request, HDR in *. zlia. }
  pose proof (hw_bounds _ _ Hwf) as Hb.
  destruct (find_block_spec (S (base.size (blocks h))) h total 0 (free_list h) fl)
    as [[-> Hno]|(l1 & c & l2 & Hfl & Hfit & _ & ->)].
  { apply Hwf. }
  { pose proof (chain_length _ _ _ (hw_chain _ _ Hwf) (hw_nodup _ _ Hwf)). lia. }
  - destruct (decide (heap_next h + total <= kernel_heap_end h)) as [Hle|Hgt].
    + destruct (bump_spec h fl total Hwf) as (Hwf' & Ep & Eh & Hnone);
        [unfold HDR in *; lia|done|].
      exists (bump h total).1, (bump h total).2, fl. split_and!; [by destruct (bump h total)|done|].
      rewrite Ep, Eh. unfold HDR in *. constructor; simpl; try done; [| |intros; exfalso; lia].
      * intros a b [Ha Hf]. split; [|done]. simpl. rewrite lookup_insert_ne; [done|]. congruence.
      * intros _. rewrite Z.add_simpl_r. split_and!.
        -- exists (mkBlock total 0 false). split; [|cbn [hb_size]; unfold HDR; lia]. split; [|done]. apply lookup_insert_eq.
        -- intros b [Hb' _]. congruence.
        -- intros a b [Ha Hf]. simpl in Ha. rewrite lookup_insert in Ha.
           case_decide; [by left|]. right. done.
    + exists h, 0, fl. split_and!; [|done|].
      { unfold bump. rewrite wrap_small by (unfold HDR in *; lia). by rewrite (proj2 (Z.ltb_lt _ _)) by lia. }
      constructor; try done. intros _. split; [done|]. right. split; [|lia].
      intros a Ha. destruct (blocks h !! a) as [b|] eqn:E; [|done].
      assert (a ∈ fl) as Hin.
      { apply (hw_free _ _ Hwf). exists b. split; [done|].
        unfold fits in Ha. rewrite (hdr_lookup _ _ _ E) in Ha. by destruct (hb_free b). }
      rewrite Hno in Ha; done.
  - destruct (take_block_spec h fl l1 c l2 total Hwf Hfl Hfit) as (fl' & Hwf' & Ht'); [lia|].
    assert (0 < c) as Hc0.
    { destruct (tk_free _ _ _ _ Ht') as (b & Hcb & _).
      pose proof (ge_range _ _ _ (hw_geom _ _ Hwf) c (hb_size b)) as R.
      rewrite lookup_fmap, Hcb in R. specialize (R eq_refl). lia. }
    exists (take_block h total (last_or 0 l1) c), (c + HDR), fl'. split_and!; [done..|].
    destruct Ht' as [(b & Hb1 & Hb2 & Hb3) (b0 & Hb01 & Hb02) Hl Hn Hd Hr].
    unfold HDR in *. constructor; try done; [| |intros; exfalso; lia].
    + intros a b' [Ha Hf]. split; eauto.
    + intros _. rewrite Z.add_simpl_r. split_and!.
      * exists b. split; [done|unfold HDR; lia].
      * intros b' [Hb' Hf]. congruence.
      * intros a b' [Ha Hf]. destruct (Hn a b' Ha Hf); [by left|right; done].
Qed.

(** ** kfree *)

Lemma live_range h fl a b :
  heap_wf h fl -> live h a b ->
  kernel_heap_start h <= a /\ HDR <= hb_size b /\ a + hb_size b <= heap_next h /\ 0 < a.
Proof.
  intros Hwf [Ha _]. pose proof (hw_bounds _ _ Hwf).
  pose proof (ge_range _ _ _ (hw_geom _ _ Hwf) a (hb_size b)) as R.
  rewrite lookup_fmap, Ha in R. specialize (R eq_refl). lia.
Qed.

(** The block of [ptr] pushed on the free list, nothing merged. *)
Definition push_free (h : heap) (ptr : Z) : heap :=
  with_list (put h (ptr - HDR) (mkBlock (hb_size (hdr h (ptr - HDR))) (free_list h) true)) (ptr - HDR).

Lemma with_list_list h x y : with_list (with_list h x) y = with_list h y.
Proof. done. Qed.

Lemma kfree_live h fl p b :
  heap_wf h fl -> live h (p - HDR) b ->
  kfree h p = push_free h p /\ heap_wf (push_free h p) (p - HDR :: fl).
Proof.
  intros Hwf Hl. pose proof (live_range h fl _ b Hwf Hl) as Hr. destruct Hl as [Hb Hf].
  pose proof Hwf as [Hc Hn Hfr Hu Hg Hbd].
  assert (p - HDR ∉ fl) as Hnin.
  { intros Hin. apply Hfr in Hin as (b' & ? & ?). congruence. }
  split.
  - unfold kfree, push_free. rewrite (proj2 (Z.eqb_neq p 0)) by (unfold HDR in *; lia).
    rewrite (hdr_lookup _ _ _ Hb), Hf. simpl. rewrite (Hu _ _ Hb Hf). simpl.
    unfold with_list, put, set_next. simpl. by rewrite insert_insert_eq.
  - unfold push_free. rewrite (hdr_lookup _ _ _ Hb). constructor; simpl; try done.
    + econstructor; [lia|apply lookup_insert_eq|]. simpl.
      eapply chain_frame; [exact Hc|]. intros x Hx. apply lookup_insert_ne. congruence.
    + by apply NoDup_cons.
    + intros a. rewrite elem_of_cons, Hfr, lookup_insert. case_decide as E.
      * subst a. split; [intros _; by eexists|auto].
      * split; [intros [->|?]|]; auto. done.
    + intros a b'. rewrite lookup_insert. case_decide; intros; simplify_eq. eauto.
    + rewrite fmap_insert. simpl. rewrite insert_id; [done|]. by rewrite lookup_fmap, Hb.
Qed.

(** ** Payload bytes *)

Lemma fill_lookup d a bytes x :
  fill d a bytes !! x = if decide (a <= x < a + len bytes) then bytes !! Z.to_nat (x - a) else d !! x.
Proof.
  revert d a. induction bytes as [|y bytes IH]; intros d a; simpl.
  { unfold len. simpl. case_decide; [lia|done]. }
  rewrite IH. unfold len in *. simpl. rewrite lookup_insert.
  destruct (decide (x = a)) as [->|Hne].
  - rewrite (decide_False (P := _ <= _ < _)) by lia. rewrite !decide_True by lia.
    by rewrite Z.sub_diag.
  - rewrite (decide_False (P := a = x)) by done. repeat case_decide; try lia; [|done].
    replace (Z.to_nat (x - a)) with (S (Z.to_nat (x - (a + 1)))) by lia. done.
Qed.

Lemma len_load d a n : len (load d a n) = Z.of_nat n.
Proof. unfold len, load. rewrite length_fmap, length_seqZ. lia. Qed.

Lemma load_lookup d a n i :
  0 <= i < Z.of_nat n -> load d a n !! Z.to_nat i = Some (default 0 (d !! (a + i))).
Proof.
  intros Hi. unfold load. rewrite list_lookup_fmap.
  rewrite lookup_seqZ_lt by lia. simpl. do 2 f_equal. f_equal. lia.
Qed.

(** Distinct live blocks do not overlap. *)
Lemma live_disjoint h fl a1 b1 a2 b2 :
  heap_wf h fl -> live h a1 b1 -> live h a2 b2 -> a1 <> a2 ->
  a1 + hb_size b1 <= a2 \/ a2 + hb_size b2 <= a1.
Proof.
  intros Hwf [H1 _] [H2 _] Hne. pose proof (ge_disjoint _ _ _ (hw_geom _ _ Hwf)) as D.
  assert (forall a b, blocks h !! a = Some b -> (hb_size <$> blocks h) !! a = Some (hb_size b)) as L
    by (intros a b E; by rewrite lookup_fmap, E).
  destruct (decide (a1 < a2)); [left|right]; (eapply D; [by apply L..|lia]).
Qed.

Lemma with_data_wf h fl d : heap_wf h fl -> heap_wf (with_data h d) fl.
Proof. by intros []. Qed.

(** What [krealloc] promises: the old contents, and nobody else disturbed. *)
Record krealloc_post (h : heap) (ptr : Z) (b : heap_block) (size : Z) (h' : heap) (p : Z) : Prop := {
  kr_region : kernel_heap_start h' = kernel_heap_start h /\ kernel_heap_end h' = kernel_heap_end h;
  kr_fail : p = 0 -> h' = h;
  kr_block : p <> 0 -> exists b', live h' (p - HDR) b' /\ HDR + size <= hb_size b';
  kr_data : p <> 0 -> forall i, 0 <= i < Z.min size (hb_size b - HDR) ->
    default 0 (hdata h' !! (p + i)) = default 0 (hdata h !! (ptr + i));
  kr_others : forall a c, live h a c -> a <> ptr - HDR ->
    live h' a c /\ forall x, a <= x < a + hb_size c -> hdata h' !! x = hdata h !! x;
}.

Lemma krealloc_spec h fl ptr b size :
  heap_wf h fl -> live h (ptr - HDR) b -> 0 < size <= max_request ->
  exists h' p fl', krealloc h ptr size = Some (h', p) /\ heap_wf h' fl' /\
                   krealloc_post h ptr b size h' p.
Proof.
  intros Hwf Hl Hsz. pose proof (live_range h fl _ b Hwf Hl) as Hr.
  unfold krealloc. rewrite (proj2 (Z.eqb_neq ptr 0)), (proj2 (Z.eqb_neq size 0)) by (unfold HDR in *; lia).
  rewrite (hdr_lookup _ _ _ (proj1 Hl)). rewrite wrap_small by (unfold max_request, HDR in *; lia).
  destruct (Z.leb_spec (HDR + size) (hb_size b)) as [Hfit|Hfit].
  { exists h, ptr, fl. split_and!; [done..|]. constructor; try done.
    eauto. }
  destruct (kmalloc_spec h fl size Hwf) as (h1 & p & fl1 & -> & Hwf1 & [Kl Kd Kr Kb Kf]); [lia|].
  destruct (Z.eqb_spec p 0) as [->|Hp].
  { exists h1, 0, fl1. split_and!; [done..|]. destruct (Kf eq_refl) as [-> _]. by constructor. }
  rewrite (hdr_lookup _ _ _ (proj1 (Kl _ _ Hl))).
  set (n := Z.to_nat (hb_size b - HDR)).
  set (d := fill (hdata h1) p (load (hdata h1) ptr n)).
  assert (live (with_data h1 d) (ptr - HDR) b) as Hl2 by (apply Kl, Hl).
  destruct (kfree_live _ fl1 ptr b (with_data_wf _ _ d Hwf1) Hl2) as [-> Hwf2].
  exists (push_free (with_data h1 d) ptr), p, (ptr - HDR :: fl1).
  destruct (Kb Hp) as ((b' & Hb' & Hs') & Hnew & _).
  assert (p - HDR <> ptr - HDR) as Hne by (intros E; rewrite E in Hnew; by destruct (Hnew b)).
  split_and!; [done..|]. unfold HDR in *. constructor; [done|done| | |].
  - intros _. exists b'. split; [|unfold HDR; lia]. destruct Hb' as [Hb1 Hb2].
    split; [|done]. simpl. unfold HDR in *. rewrite lookup_insert_ne by done. done.
  - intros _ i Hi. simpl. unfold d. rewrite fill_lookup, len_load.
    rewrite decide_True by (unfold n, HDR in *; lia).
    replace (p + i - p) with i by lia. rewrite load_lookup by (unfold n, HDR in *; lia). simpl.
    by rewrite Kd.
  - intros a c Hc Ha. split.
    + destruct (Kl a c Hc) as [H1 H2]. split; [|done]. simpl. unfold HDR in *.
      rewrite lookup_insert_ne by congruence. done.
    + intros x Hx. simpl. unfold d. rewrite fill_lookup, len_load.
      rewrite decide_False; [by rewrite Kd|]. intros Hin.
      assert (a <> p - 24) by (intros ->; by destruct (Hnew c)).
      destruct (live_disjoint h1 fl1 a c (p - 24) b' Hwf1 (Kl _ _ Hc) Hb'); [done|unfold n in *; lia..].
Qed.

(** ** The heap base *)

Lemma heap_slide_slot tsc :
  exists k, heap_slide tsc = k * (2 * MiB) /\ (0 <= k < 32 \/ 64 <= k < 96).
Proof.
  unfold heap_slide. cbv zeta.
  set (t := Z.lxor (u64 _) _).
  change (KASLR_HEAP_RANGE - 1) with (Z.lor (2 ^ 27) (Z.ones 26)).
  change (2 * MiB) with (2 ^ 21).
  unfold ALIGN_DOWN. rewrite land_lnot_ones by lia. rewrite Z.land_lor_distr_r.
  rewrite Z.land_ones by lia.
  assert (Z.land t (2 ^ 27) = 0 \/ Z.land t (2 ^ 27) = 2 ^ 27) as Hb.
  { destruct (Z.testbit t 27) eqn:E; [right|left]; apply Z.bits_inj'; intros n Hn;
      rewrite Z.land_spec, ?Z.bits_0; destruct (decide (n = 27)) as [->|];
      rewrite ?E, ?Z.pow2_bits_true, ?(Z.pow2_bits_false 27 n) by lia; by rewrite ?andb_false_r. }
  pose proof (Z.mod_pos_bound t (2 ^ 26) ltac:(lia)) as Hm.
  assert (Z.lor (Z.land t (2 ^ 27)) (t mod 2 ^ 26) = Z.land t (2 ^ 27) + t mod 2 ^ 26) as ->.
  { rewrite Z.add_nocarry_lor; [done|]. apply Z.bits_inj'. intros n Hn.
    rewrite Z.land_spec, Z.bits_0. destruct (decide (n < 26)).
    - rewrite Z.land_spec, (Z.pow2_bits_false 27 n) by lia. by rewrite andb_false_r.
    - rewrite (testbit_high 26 (t mod 2 ^ 26)) by lia. by rewrite andb_false_r. }
  set (m := t mod 2 ^ 26) in *. exists ((Z.land t (2 ^ 27) + m) / 2 ^ 21). split; [done|].
  destruct Hb as [->| ->]; zlia.
Qed.

Lemma heap_init_wf tsc st : heap_wf (heap_init tsc st).1 [].
Proof.
  destruct (heap_slide_slot tsc) as (k & Hk & Hr). unfold heap_init, KASLR_HEAP_MIN, KERNEL_HEAP_SIZE, MiB in *.
  simpl. constructor; simpl.
  - constructor.
  - constructor.
  - intros a. split; [set_solver|]. intros (b & Hb & _). by rewrite lookup_empty in Hb.
  - intros a b. by rewrite lookup_empty.
  - rewrite fmap_empty. constructor; intros *; rewrite ?lookup_empty; done || lia.
  - lia.
Qed.

(** ** Every reachable heap *)

Inductive heap_step : heap -> heap -> Prop :=
| step_kmalloc h size h' p :
    0 <= size <= max_request -> kmalloc h size = Some (h', p) -> heap_step h h'
| step_kcalloc h count size h' p :
    0 <= count -> 0 <= size -> count * size <= max_request ->
    kcalloc h count size = Some (h', p) -> heap_step h h'
| step_krealloc h ptr b size h' p :
    live h (ptr - HDR) b -> 0 < size <= max_request -> krealloc h ptr size = Some (h', p) -> heap_step h h'
| step_kfree h ptr b : live h (ptr - HDR) b -> heap_step h (kfree h ptr)
| step_write h a b x v :   (* a client writes into its block *)
    live h a b -> a + HDR <= x < a + hb_size b -> heap_step h (with_data h (<[x := v]> (hdata h))).

Lemma heap_step_wf h h' fl : heap_wf h fl -> heap_step h h' ->
  (exists fl', heap_wf h' fl') /\ kernel_heap_start h' = kernel_heap_start h /\
  kernel_heap_end h' = kernel_heap_end h.
Proof.
  intros Hwf Hs. destruct Hs as [h size h' p Hsz E|h n size h' p Hn Hs Hsz E|h ptr b size h' p Hl Hsz E|h ptr b Hl|h a b x v Hl Hx].
  - destruct (kmalloc_spec h fl size Hwf Hsz) as (h1 & p1 & fl1 & E1 & W1 & K). simplify_eq.
    split; [eauto|apply K].
  - unfold kcalloc in E. case_match; [simplify_eq; by eauto|].
    assert (0 <= u64 (n * size) <= max_request) as Ht
      by (rewrite wrap_small by (unfold max_request in *; nia); nia).
    destruct (kmalloc_spec h fl _ Hwf Ht) as (h1 & p1 & fl1 & E1 & W1 & K).
    rewrite E1 in E. case_match; simplify_eq; (split; [|apply K]); [by eauto|].
    exists fl1. by apply with_data_wf.
  - destruct (krealloc_spec h fl ptr b size Hwf Hl Hsz) as (h1 & p1 & fl1 & E1 & W1 & K). simplify_eq.
    split; [eauto|apply K].
  - destruct (kfree_live h fl ptr b Hwf Hl) as [-> W]. split; [by eexists|done].
  - split; [|done]. exists fl. by apply with_data_wf.
Qed.

Lemma heap_reachable_wf tsc st h :
  rtc heap_step (heap_init tsc st).1 h ->
  (exists fl, heap_wf h fl) /\
  kernel_heap_start h = kernel_heap_start (heap_init tsc st).1 /\
  kernel_heap_end h = kernel_heap_end (heap_init tsc st).1.
Proof.
  apply (rtc_ind_r (fun h => (exists fl, heap_wf h fl) /\
    kernel_heap_start h = kernel_heap_start (heap_init tsc st).1 /\
    kernel_heap_end h = kernel_heap_end (heap_init tsc st).1)).
  - split; [|done]. eexists. apply heap_init_wf.
  - intros h1 h2 _ Hs ((fl & W) & E1 & E2). rewrite <- E1, <- E2. by eapply heap_step_wf.
Qed.

(** C4: safety of the heap.  From [heap_init], whatever sequence of kmalloc,
    kcalloc, krealloc (of requests below 2^61 bytes), kfree of live blocks and
    writes into live blocks is executed,
    the free list stays a finite list of exactly the free blocks, the blocks
    tile the used part of the heap, live blocks lie in the heap region and
    never overlap, and the next kmalloc terminates. *)
Theorem heap_reachable_safe (tsc : Z) (st : pmm) (h : heap) :
  rtc heap_step (heap_init tsc st).1 h ->
  (exists fl, heap_wf h fl) /\
  (forall a b, live h a b ->
     kernel_heap_start (heap_init tsc st).1 <= a /\ a + hb_size b <= kernel_heap_end (heap_init tsc st).1) /\
  (forall a1 b1 a2 b2, live h a1 b1 -> live h a2 b2 -> a1 <> a2 ->
     a1 + hb_size b1 <= a2 \/ a2 + hb_size b2 <= a1) /\
  (forall size, 0 <= size <= max_request -> is_Some (kmalloc h size)).
Proof.
  intros Hr. destruct (heap_reachable_wf tsc st h Hr) as ([fl Hwf] & <- & <-).
  split_and!; [eauto| | |].
  - intros a b Hl. pose proof (live_range h fl a b Hwf Hl). pose proof (hw_bounds _ _ Hwf). lia.
  - intros. by eapply live_disjoint.
  - intros size Hs. destruct (kmalloc_spec h fl size Hwf Hs) as (? & ? & ? & -> & _). eauto.
Qed.

(** krealloc of a live block terminates and keeps the heap well-formed.
    A non-NULL result is a live block of at least the new size holding the
    old contents (up to the shorter of the two sizes); every other live block
    and its bytes are untouched; NULL means nothing changed. *)
Theorem krealloc_preserves (h : heap) (fl : list Z) (ptr : Z) (b : heap_block) (size : Z) :
  heap_wf h fl -> live h (ptr - HDR) b -> 0 < size <= max_request ->
  exists h' p fl', krealloc h ptr size = Some (h', p) /\ heap_wf h' fl' /\ krealloc_post h ptr b size h' p.
Proof. apply krealloc_spec. Qed.

(** kfree of a live block pushes it on the free list and nothing else:
    used blocks have a NULL link, so the coalescing branch is never taken. *)
Theorem kfree_never_coalesces (h : heap) (fl : list Z) (ptr : Z) (b : heap_block) :
  heap_wf h fl -> live h (ptr - HDR) b ->
  kfree h ptr = push_free h ptr /\ heap_wf (kfree h ptr) (ptr - HDR :: fl) /\
  kfree (kfree h ptr) ptr = kfree h ptr.
Proof.
  intros Hwf Hl. destruct (kfree_live h fl ptr b Hwf Hl) as [E W]. rewrite E.
  split_and!; [done..|]. unfold kfree. case_match; [done|].
  unfold push_free at 1. unfold hdr. simpl. by rewrite lookup_insert_eq.
Qed.

(** a request that overflows the bounds check.  [heap_next + total] wraps
    past 2^64, so kmalloc of [2^64 - heap_next] bytes succeeds on every heap:
    it returns a non-NULL pointer and moves [heap_next] below the heap. *)
Theorem kmalloc_overflow (h : heap) (fl : list Z) :
  heap_wf h fl -> 64 <= heap_next h ->
  exists h', kmalloc h (2 ^ 64 - heap_next h) = Some (h', heap_next h + HDR) /\ heap_next h' < 64.
Proof.
  intros Hwf Hn. pose proof (hw_bounds _ _ Hwf) as Hb. unfold kmalloc.
  rewrite (proj2 (Z.eqb_neq _ 0)) by lia.
  set (s := 2 ^ 64 - heap_next h).
  assert (kmalloc_total s = HDR + (s + 15) / 16 * 16) as Et.
  { unfold kmalloc_total, ALIGN_UP. replace (s + 16 - 1) with (s + 15) by lia.
    rewrite (wrap_small 64 (s + 15)) by lia. change (16 - 1) with (2 ^ 4 - 1).
    rewrite land_lnot_ones by lia. change (2 ^ 4) with 16. apply wrap_small. unfold HDR. zlia. }
  set (total := kmalloc_total s) in *. unfold HDR in Et.
  assert (s + 24 <= total <= s + 39) as Ht by zlia.
  destruct (find_block_spec (S (base.size (blocks h))) h total 0 (free_list h) fl)
    as [[-> _]|(l1 & c & l2 & Hfl & Hfit & _ & _)].
  { apply Hwf. }
  { pose proof (chain_length _ _ _ (hw_chain _ _ Hwf) (hw_nodup _ _ Hwf)). lia. }
  - unfold bump. replace (u64 (heap_next h + total)) with (heap_next h + total - 2 ^ 64).
    2: { unfold wrap. apply Z.mod_unique_pos with 1; lia. }
    rewrite (proj2 (Z.ltb_ge _ _)) by lia. eexists. split; [done|]. simpl. lia.
  - exfalso. assert (c ∈ fl) as Hin by (subst; set_solver).
    apply (hw_free _ _ Hwf) in Hin as (b & Hcb & Hf).
    unfold fits in Hfit. rewrite (hdr_lookup _ _ _ Hcb), Hf in Hfit. apply Z.leb_le in Hfit.
    pose proof (ge_range _ _ _ (hw_geom _ _ Hwf) c (hb_size b)) as R.
    rewrite lookup_fmap, Hcb in R. specialize (R eq_refl). lia.
Qed.

(** the randomised heap base.  The heap starts at 64 MB plus one of 64
    (not 96) multiples of 2 MB, since the mask [192 MiB - 1] has bit 26 clear;
    its 512 MB are reserved in the page allocator, which from then on never
    grants one of its pages unless that page is explicitly freed. *)
Theorem heap_region_reserved (tsc : Z) (st : pmm) (ops : list pmm_op) (q : Z) :
  pmm_wf st -> Forall op_args ops -> Forall (fun o => ~ op_frees o q) ops ->
  let h := (heap_init tsc st).1 in
  let st' := (heap_init tsc st).2 in
  (exists k, kernel_heap_start h = 64 * MiB + k * (2 * MiB) /\ (0 <= k < 32 \/ 64 <= k < 96)) /\
  kernel_heap_end h = kernel_heap_start h + 512 * MiB /\
  (kernel_heap_start h / PAGE_SIZE <= q < kernel_heap_end h / PAGE_SIZE -> q < highest_pfn st ->
   bitmap_test st' q = true /\ Forall (fun e => ~ grants e.1 e.2 q) (pmm_run ops st').2).
Proof.
  intros Hwf Ho Hf. cbv zeta. destruct (heap_slide_slot tsc) as (k & Hk & Hr).
  unfold heap_init. cbn [fst snd kernel_heap_start kernel_heap_end].
  set (s := KASLR_HEAP_MIN + heap_slide tsc). set (e := s + KERNEL_HEAP_SIZE).
  assert (s = 64 * MiB + k * (2 * MiB)) as Es by (subst s; rewrite Hk; unfold KASLR_HEAP_MIN; lia).
  split_and!; [by exists k|done|]. intros Hq Hh. unfold pmm_reserve_region, MiB, PAGE_SIZE in *.
  assert (0 <= s /\ s < e /\ e = s + 0x20000000) as (H0 & Hse & Ee)
    by (unfold KERNEL_HEAP_SIZE in *; lia).
  destruct (mark_region_marks st s e Hwf H0 Hse) as [W L T D R].
  assert (bitmap_test (mark_region st s e) q = true) as Hu.
  { rewrite T by zlia. unfold addr_to_pfn. rewrite ALIGN_UP_page by (unfold PAGE_SIZE; lia).
    unfold PAGE_SIZE. rewrite Z.div_mul by lia.
    replace (_ && _) with true; [by rewrite orb_true_r|]. symmetry.
    apply andb_true_iff. rewrite Z.leb_le, Z.ltb_lt. zlia. }
  split; [done|].
  pose proof (pmm_run_ok ops _ W Ho) as Hrun. destruct (pmm_run ops (mark_region st s e)) as [st2 tr].
  destruct Hrun as (_ & _ & _ & Hrun). apply Hrun; [rewrite (sl_hp _ _ L); zlia|done|done].
Qed.

(** ** A heap in use *)

Definition demo_heap0 : heap := (heap_init 0 demo).1.
Definition or_else (h : heap) (r : option (heap * Z)) : heap := match r with Some (h', _) => h' | None => h end.
Definition demo_heap1 : heap := or_else demo_heap0 (kmalloc demo_heap0 100).
Definition demo_heap2 : heap := or_else demo_heap1 (kmalloc demo_heap1 40).
Definition demo_heap3 : heap := kfree demo_heap2 0x4000018.
Definition demo_heap : heap := or_else demo_heap3 (kmalloc demo_heap3 8).

Lemma demo_heap_steps : rtc heap_step demo_heap0 demo_heap.
Proof.
  eapply rtc_l; [apply (step_kmalloc _ 100 demo_heap1 0x4000018); [by split; vm_compute|by vm_compute]|].
  eapply rtc_l; [apply (step_kmalloc _ 40 demo_heap2 0x40000a0); [by split; vm_compute|by vm_compute]|].
  eapply rtc_l; [apply (step_kfree _ 0x4000018 (mkBlock 136 0 false)); split; by vm_compute|].
  eapply rtc_l; [apply (step_kmalloc _ 8 demo_heap 0x4000018); [by split; vm_compute|by vm_compute]|].
  apply rtc_refl.
Qed.

Lemma demo_heap_wf : exists fl, heap_wf demo_heap fl.
Proof. apply (heap_reachable_wf 0 demo demo_heap demo_heap_steps). Qed.

Definition demo_block : heap_block := mkBlock 40 0 false.
Lemma demo_block_live : live demo_heap (0x4000018 - HDR) demo_block.
Proof. by split; vm_compute. Qed.

Lemma heap_reachable_safe_witness :
  rtc heap_step demo_heap0 demo_heap /\ is_Some (kmalloc demo_heap 16).
Proof.
  split; [apply demo_heap_steps|].
  apply (heap_reachable_safe 0 demo demo_heap demo_heap_steps). by split; vm_compute.
Defined.

Lemma krealloc_preserves_witness :
  live demo_heap (0x4000018 - HDR) demo_block /\
  exists h' p fl', krealloc demo_heap 0x4000018 200 = Some (h', p) /\ heap_wf h' fl' /\
                   krealloc_post demo_heap 0x4000018 demo_block 200 h' p.
Proof.
  split; [apply demo_block_live|]. destruct demo_heap_wf as [fl Hwf].
  apply (krealloc_preserves demo_heap fl 0x4000018 demo_block 200 Hwf demo_block_live).
  by split; vm_compute.
Defined.

Lemma kfree_never_coalesces_witness :
  live demo_heap (0x4000018 - HDR) demo_block /\
  kfree demo_heap 0x4000018 = push_free demo_heap 0x4000018.
Proof.
  split; [apply demo_block_live|]. destruct demo_heap_wf as [fl Hwf].
  apply (kfree_never_coalesces demo_heap fl 0x4000018 demo_block Hwf demo_block_live).
Defined.

Lemma kmalloc_overflow_witness :
  heap_next demo_heap = 0x40000D0 /\
  exists h', kmalloc demo_heap (2 ^ 64 - heap_next demo_heap) = Some (h', heap_next demo_heap + HDR)
             /\ heap_next h' < 64.
Proof.
  split; [by vm_compute|]. destruct demo_heap_wf as [fl Hwf].
  apply (kmalloc_overflow demo_heap fl Hwf). by vm_compute.
Defined.

(** A machine of 65 MB, whose last megabyte is the start of the heap. *)
Definition demo65_map : list mmap_entry := [ {| mm_base := 0; mm_length := 0x4100000; mm_type := 1 |} ].
Definition demo65 : pmm := pmm_init demo65_map 0x100000 0x120000.

Lemma demo65_ok : init_ok demo65_map 0x100000 0x120000 demo65.
Proof. apply pmm_init_ok; [by repeat constructor|done|lia|lia]. Qed.

Lemma heap_region_reserved_witness :
  Forall op_args demo_ops /\
  bitmap_test (heap_init 0 demo65).2 0x4000 = true /\
  Forall (fun e => ~ grants e.1 e.2 0x4000) (pmm_run demo_ops (heap_init 0 demo65).2).2.
Proof.
  assert (Forall op_args demo_ops) as Ho by (by repeat constructor).
  split; [exact Ho|].
  apply (heap_region_reserved 0 demo65 demo_ops 0x4000 (in_wf _ _ _ _ demo65_ok) Ho).
  - repeat constructor; by vm_compute.
  - by split; vm_compute.
  - rewrite (in_hp _ _ _ _ demo65_ok). by vm_compute.
Defined.
