(* ===== verification/Pipe.v ===== *)
(** * Pipes: kernel/exec/pipe.c

    A call that blocks is cut at [task_block()]: the state holds what the
    kernel holds while the caller sleeps, and the call continues, when the
    task is unblocked, from the continuation the model returns.  The calls of
    [task_unblock_pid] are returned as the list of the pids woken. *)

From S2P Require Import Prelude.

(** ** State *)

Definition MAX_PIPES : Z := 16.
Definition PIPE_BUF_SIZE : Z := 4096.
Definition PIPE_FD_BASE : Z := 200.
Definition MAX_PIPE_FDS : Z := 32.

Record pipe := mkPipe {
  p_in_use : bool;
  p_buf : list Z;
  read_pos : Z;
  write_pos : Z;
  bytes_available : Z;
  read_open : bool;
  write_open : bool;
  read_waiter : Z;    (* pid, 0 = none *)
  write_waiter : Z;
}.

Record pipe_fd := mkFd { f_in_use : bool; pipe_idx : Z; is_write_end : bool }.

(** [memset(&pipes[pi], 0, sizeof(pipes[pi]))] *)
Definition zero_pipe : pipe :=
  mkPipe false (replicate (Z.to_nat PIPE_BUF_SIZE) 0) 0 0 0 false false 0 0.
Definition zero_fd : pipe_fd := mkFd false 0 false.

#[export] Instance pipe_inhabited : Inhabited pipe := populate zero_pipe.
#[export] Instance pipe_fd_inhabited : Inhabited pipe_fd := populate zero_fd.

Record pstate := mkPs { pipes : list pipe; pipe_fds : list pipe_fd }.

Definition init_pstate : pstate :=
  mkPs (replicate (Z.to_nat MAX_PIPES) zero_pipe) (replicate (Z.to_nat MAX_PIPE_FDS) zero_fd).

Definition set_in_use (p : pipe) (u : bool) : pipe :=
  mkPipe u (p_buf p) (read_pos p) (write_pos p) (bytes_available p) (read_open p) (write_open p)
    (read_waiter p) (write_waiter p).
Definition set_open (p : pipe) (r w : bool) : pipe :=
  mkPipe (p_in_use p) (p_buf p) (read_pos p) (write_pos p) (bytes_available p) r w
    (read_waiter p) (write_waiter p).
Definition set_waiters (p : pipe) (r w : Z) : pipe :=
  mkPipe (p_in_use p) (p_buf p) (read_pos p) (write_pos p) (bytes_available p) (read_open p)
    (write_open p) r w.
Definition set_fd_in_use (f : pipe_fd) (u : bool) : pipe_fd := mkFd u (pipe_idx f) (is_write_end f).

Definition with_pipe (s : pstate) (i : Z) (p : pipe) : pstate :=
  mkPs (pipes s).[i <- p] (pipe_fds s).
Definition with_fd (s : pstate) (i : Z) (f : pipe_fd) : pstate :=
  mkPs (pipes s) (pipe_fds s).[i <- f].

(** ** Operations *)

Definition pipe_is_pipe_fd (s : pstate) (fd : Z) : bool :=
  (PIPE_FD_BASE <=? fd) && (fd <? PIPE_FD_BASE + MAX_PIPE_FDS)
  && f_in_use (pipe_fds s).[fd - PIPE_FD_BASE].

(** The loop of [pipe_create] over the descriptors: the state is the table
    with [rfd] and [wfd], -1 while unset; [Stop] is the [break]. *)
Definition create_step (pi i : Z) (t : pstate * Z * Z) : ctl (pstate * Z * Z) (pstate * Z * Z) :=
  let '(s, rfd, wfd) := t in
  if f_in_use (pipe_fds s).[i] then Next t
  else if rfd <? 0 then Next (with_fd s i (mkFd true pi false), i + PIPE_FD_BASE, wfd)
  else if wfd <? 0 then Stop (with_fd s i (mkFd true pi true), rfd, i + PIPE_FD_BASE)
  else Next t.

(** Result: the new state and [Some (fds[0], fds[1])], or [None] for -1. *)
Definition pipe_create (s : pstate) : pstate * option (Z * Z) :=
  match find_from (fun i => negb (p_in_use (pipes s).[i])) (Z.to_nat MAX_PIPES) 0 with
  | None => (s, None)
  | Some pi =>
      let s := with_pipe s pi (set_open (set_in_use zero_pipe true) true true) in
      let '(s, rfd, wfd) :=
        match for_loop (create_step pi) (Z.to_nat MAX_PIPE_FDS) 0 (s, -1, -1) with
        | Next t | Stop t => t
        end in
      if (rfd <? 0) || (wfd <? 0) then
        let s := if 0 <=? rfd
                 then with_fd s (rfd - PIPE_FD_BASE)
                        (set_fd_in_use (pipe_fds s).[rfd - PIPE_FD_BASE] false)
                 else s in
        (with_pipe s pi (set_in_use (pipes s).[pi] false), None)
      else (s, Some (rfd, wfd))
  end.

Definition pipe_create2 (s : pstate) (flags : Z) : pstate * option (Z * Z) := pipe_create s.

(** One byte out of the ring. *)
Definition read_byte (p : pipe) : pipe * Z :=
  (mkPipe (p_in_use p) (p_buf p) ((read_pos p + 1) mod PIPE_BUF_SIZE) (write_pos p)
     (bytes_available p - 1) (read_open p) (write_open p) (read_waiter p) (write_waiter p),
   (p_buf p).[read_pos p]).

(** One byte into the ring. *)
Definition write_byte (p : pipe) (b : Z) : pipe :=
  mkPipe (p_in_use p) (p_buf p).[write_pos p <- b] (read_pos p)
    ((write_pos p + 1) mod PIPE_BUF_SIZE) (bytes_available p + 1) (read_open p) (write_open p)
    (read_waiter p) (write_waiter p).

(** Where a call stands: it returned a value, or sleeps in [task_block()]. *)
Inductive outcome (A : Type) :=
| Ret (v : A)
| Sleep.
Arguments Ret {A} v.
Arguments Sleep {A}.

(** [pipe_read] from its [while] on: the bytes copied and the pids woken. *)
Definition read_loop (s : pstate) (pi pid count : Z) : pstate * outcome (list Z) * list Z :=
  let p := (pipes s).[pi] in
  if bytes_available p =? 0 then
    if negb (write_open p) then (s, Ret [], [])
    else (with_pipe s pi (set_waiters p pid (write_waiter p)), Sleep, [])
  else
    let to_read := Z.min count (bytes_available p) in
    let '(p, out) :=
      for_each (fun _ '(p, out) => let '(p, b) := read_byte p in (p, out ++ [b]))
        (Z.to_nat to_read) 0 (p, []) in
    if 0 <? write_waiter p
    then (with_pipe s pi (set_waiters p (read_waiter p) 0), Ret out, [write_waiter p])
    else (with_pipe s pi p, Ret out, []).

(** The error returns are values below 0. *)
Definition pipe_read (s : pstate) (fd pid count : Z) : (Z + (pstate * outcome (list Z) * list Z)) :=
  if negb (pipe_is_pipe_fd s fd) then inl (-1)
  else
    let pfd := (pipe_fds s).[fd - PIPE_FD_BASE] in
    if is_write_end pfd then inl (-1)
    else inr (read_loop s (pipe_idx pfd) pid count).

(** A reader unblocked: [p->read_waiter = 0] and back to the [while]. *)
Definition read_resume (s : pstate) (pi pid count : Z) : pstate * outcome (list Z) * list Z :=
  let p := (pipes s).[pi] in
  read_loop (with_pipe s pi (set_waiters p 0 (write_waiter p))) pi pid count.

(** The loop of [pipe_write]: [inl n] is a return value, [inr rest] sleeps with
    the bytes still to write. *)
Fixpoint write_loop (s : pstate) (pi pid written : Z) (bytes : list Z) {struct bytes}
  : pstate * (Z + list Z) * list Z :=
  match bytes with
  | [] => (s, inl written, [])
  | b :: rest =>
      let p := (pipes s).[pi] in
      if PIPE_BUF_SIZE <=? bytes_available p then
        if negb (read_open p) then (s, inl (-32), [])
        else (with_pipe s pi (set_waiters p (read_waiter p) pid), inr bytes, [])
      else
        let p := write_byte p b in
        if 0 <? read_waiter p then
          let '(s, r, w) :=
            write_loop (with_pipe s pi (set_waiters p 0 (write_waiter p))) pi pid (written + 1) rest in
          (s, r, read_waiter p :: w)
        else write_loop (with_pipe s pi p) pi pid (written + 1) rest
  end.

Definition pipe_write (s : pstate) (fd pid : Z) (bytes : list Z)
  : (Z + (pstate * (Z + list Z) * list Z)) :=
  if negb (pipe_is_pipe_fd s fd) then inl (-1)
  else
    let pfd := (pipe_fds s).[fd - PIPE_FD_BASE] in
    if negb (is_write_end pfd) then inl (-1)
    else if negb (read_open (pipes s).[pipe_idx pfd]) then inl (-32)
    else inr (write_loop s (pipe_idx pfd) pid 0 bytes).

(** A writer unblocked: [p->write_waiter = 0] and back to the inner [while]. *)
Definition write_resume (s : pstate) (pi pid written : Z) (rest : list Z)
  : pstate * (Z + list Z) * list Z :=
  let p := (pipes s).[pi] in
  write_loop (with_pipe s pi (set_waiters p (read_waiter p) 0)) pi pid written rest.

Definition pipe_close (s : pstate) (fd : Z) : pstate * Z :=
  if negb (pipe_is_pipe_fd s fd) then (s, -1)
  else
    let i := fd - PIPE_FD_BASE in
    let pfd := (pipe_fds s).[i] in
    let p := (pipes s).[pipe_idx pfd] in
    let p := if is_write_end pfd then set_open p (read_open p) false
             else set_open p false (write_open p) in
    let s := with_fd s i (set_fd_in_use pfd false) in
    let p := if negb (read_open p) && negb (write_open p) then set_in_use p false else p in
    (with_pipe s (pipe_idx pfd) p, 0).

Definition pipe_bytes_available (s : pstate) (fd : Z) : Z :=
  if negb (pipe_is_pipe_fd s fd) then -1
  else bytes_available (pipes s).[pipe_idx (pipe_fds s).[fd - PIPE_FD_BASE]].

(** ** The ring as a queue *)

Record pipe_wf (p : pipe) : Prop := {
  pw_len : len (p_buf p) = PIPE_BUF_SIZE;
  pw_rpos : 0 <= read_pos p < PIPE_BUF_SIZE;
  pw_avail : 0 <= bytes_available p <= PIPE_BUF_SIZE;
  pw_wpos : write_pos p = (read_pos p + bytes_available p) mod PIPE_BUF_SIZE;
}.

(** The bytes in the pipe, oldest first. *)
Definition contents (p : pipe) : list Z :=
  (fun i => (p_buf p).[(read_pos p + i) mod PIPE_BUF_SIZE]) <$> seqZ 0 (bytes_available p).

Lemma len_contents p : pipe_wf p -> len (contents p) = bytes_available p.
Proof. intros []. unfold len, contents. rewrite length_fmap, length_seqZ. lia. Qed.

Lemma zero_pipe_wf : pipe_wf zero_pipe.
Proof. by constructor. Qed.

Lemma write_pos_range p : pipe_wf p -> 0 <= write_pos p < PIPE_BUF_SIZE.
Proof. intros []. rewrite pw_wpos0. by apply Z.mod_pos_bound. Qed.

Lemma seqZ_snoc a n : 0 <= n -> seqZ a (n + 1) = seqZ a n ++ [a + n].
Proof. intros. rewrite seqZ_app by lia. done. Qed.

Lemma seqZ_shift a n : seqZ (a + 1) n = Z.add 1 <$> seqZ a n.
Proof. rewrite fmap_add_seqZ. f_equal. lia. Qed.

Lemma read_byte_spec p :
  pipe_wf p -> 0 < bytes_available p ->
  pipe_wf (read_byte p).1 /\ contents p = (read_byte p).2 :: contents (read_byte p).1.
Proof.
  intros [Hl Hr Ha Hw] Hp. unfold PIPE_BUF_SIZE in *. split.
  - constructor; simpl; unfold PIPE_BUF_SIZE; [done|zlia|lia|]. rewrite Hw. zlia.
  - unfold contents. simpl. unfold PIPE_BUF_SIZE.
    replace (bytes_available p) with (Z.succ (bytes_available p - 1)) at 1 by lia.
    rewrite seqZ_cons by lia. rewrite fmap_cons. f_equal.
    + f_equal. rewrite Z.mod_small; lia.
    + replace (Z.succ 0) with (0 + 1) by lia. replace (Z.pred _) with (bytes_available p - 1) by lia.
      rewrite seqZ_shift, <- list_fmap_compose.
      apply list_fmap_ext. intros i x Hx. simpl. f_equal. zlia.
Qed.

Lemma write_byte_spec p b :
  pipe_wf p -> bytes_available p < PIPE_BUF_SIZE ->
  pipe_wf (write_byte p b) /\ contents (write_byte p b) = contents p ++ [b].
Proof.
  intros Hwf Hp. pose proof (write_pos_range p Hwf) as Hwr.
  destruct Hwf as [Hl Hr Ha Hw]. unfold PIPE_BUF_SIZE in *. split.
  - constructor; simpl; unfold PIPE_BUF_SIZE; autorewrite with arr; [done|lia|lia|]. rewrite Hw. zlia.
  - unfold contents. simpl. unfold PIPE_BUF_SIZE. rewrite seqZ_snoc, fmap_app by lia. f_equal.
    + apply list_fmap_ext. intros i x Hx%lookup_seqZ. rewrite geti_seti_ne; zlia || done.
    + simpl. rewrite Z.add_0_l, <- Hw. f_equal. apply geti_seti_eq. lia.
Qed.

(** Bytes leave in the order they came: [n] of them, from the front. *)
Lemma read_bytes_spec n p out :
  pipe_wf p -> 0 <= Z.of_nat n <= bytes_available p ->
  let r := for_each (fun _ '(p, out) => let '(p, b) := read_byte p in (p, out ++ [b])) n 0 (p, out) in
  pipe_wf r.1 /\ r.2 ++ contents r.1 = out ++ contents p /\ length r.2 = (length out + n)%nat /\
  bytes_available r.1 = bytes_available p - Z.of_nat n /\
  p_in_use r.1 = p_in_use p /\ read_open r.1 = read_open p /\ write_open r.1 = write_open p /\
  read_waiter r.1 = read_waiter p /\ write_waiter r.1 = write_waiter p.
Proof.
  generalize 0 at 2 as i. revert p out. induction n as [|n IH]; intros p out i Hwf Hn; cbv zeta; simpl.
  { rewrite Z.sub_0_r, Nat.add_0_r. done. }
  destruct (read_byte_spec p Hwf) as [W E]; [lia|].
  assert (bytes_available (read_byte p).1 = bytes_available p - 1) as Eb by done.
  specialize (IH (read_byte p).1 (out ++ [(read_byte p).2]) (i + 1) W ltac:(lia)). cbv zeta in IH.
  destruct IH as (W2 & E2 & L2 & A2 & ? & ? & ? & ? & ?). rewrite length_app in L2. simpl in *.
  split_and!; try done; try lia. by rewrite E2, E, <- app_assoc.
Qed.

(** ** Well-formed tables *)

Record ps_wf (s : pstate) : Prop := {
  ps_pipes : len (pipes s) = MAX_PIPES;
  ps_fds : len (pipe_fds s) = MAX_PIPE_FDS;
  ps_pipe : forall i, 0 <= i < MAX_PIPES -> pipe_wf (pipes s).[i];
  ps_fd : forall i, 0 <= i < MAX_PIPE_FDS -> f_in_use (pipe_fds s).[i] = true ->
    0 <= pipe_idx (pipe_fds s).[i] < MAX_PIPES /\
    p_in_use (pipes s).[pipe_idx (pipe_fds s).[i]] = true;
}.

(** Replacing an in-use pipe by a well-formed pipe that is in use. *)
Lemma with_pipe_wf s i p :
  ps_wf s -> 0 <= i < MAX_PIPES -> pipe_wf p -> (p_in_use (pipes s).[i] = true -> p_in_use p = true) ->
  ps_wf (with_pipe s i p).
Proof.
  intros [Hp Hf Hw Hi] Hr Hwp Hu. constructor; simpl; autorewrite with arr; try done.
  - intros j Hj. rewrite geti_seti by lia. case_decide; [done|auto].
  - intros j Hj Hin. destruct (Hi j Hj Hin) as [Hb Hpu]. split; [done|].
    rewrite geti_seti by lia. case_decide; [subst; auto|done].
Qed.

Lemma set_waiters_wf p r w : pipe_wf p -> pipe_wf (set_waiters p r w).
Proof. by intros []. Qed.
Lemma set_waiters_contents p r w : contents (set_waiters p r w) = contents p.
Proof. done. Qed.

(** A sleeping reader faces an empty pipe, a sleeping writer a full one. *)
Definition sleepers_ok (p : pipe) : Prop :=
  (0 < read_waiter p -> bytes_available p = 0) /\
  (0 < write_waiter p -> bytes_available p = PIPE_BUF_SIZE).

Record read_post (p : pipe) (pid count : Z) (p' : pipe) (r : outcome (list Z)) (woken : list Z) : Prop := {
  rp_wf : pipe_wf p';
  rp_frame : p_in_use p' = p_in_use p /\ read_open p' = read_open p /\ write_open p' = write_open p;
  rp_fifo : match r with
            | Ret out => contents p = out ++ contents p' /\
                         len out = Z.min count (bytes_available p)
            | Sleep => contents p' = contents p /\ bytes_available p = 0 /\ write_open p = true /\
                       read_waiter p' = pid
            end;
  rp_eof : r = Ret [] -> 0 < count -> bytes_available p = 0 /\ write_open p = false;
  rp_woken : woken = if (0 <? bytes_available p) && (0 <? write_waiter p) then [write_waiter p] else [];
  rp_sleepers : sleepers_ok p -> sleepers_ok p';
}.

Lemma geti_with_pipe s i p :
  ps_wf s -> 0 <= i < MAX_PIPES -> (pipes (with_pipe s i p)).[i] = p.
Proof. intros [Hp _ _ _] Hi. simpl. apply geti_seti_eq. lia. Qed.

Lemma with_pipe_id s i : ps_wf s -> 0 <= i < MAX_PIPES -> with_pipe s i (pipes s).[i] = s.
Proof.
  intros [Hp _ _ _] Hi. destruct s as [ps fs]. unfold with_pipe. simpl in *. f_equal.
  apply seti_id. lia.
Qed.

Lemma read_loop_spec s pi pid count :
  ps_wf s -> 0 <= pi < MAX_PIPES -> 0 <= count ->
  exists p', (read_loop s pi pid count).1.1 = with_pipe s pi p' /\ read_post (pipes s).[pi] pid count p' (read_loop s pi pid count).1.2 (read_loop s pi pid count).2.
Proof.
  intros Hs Hpi Hc. pose proof (ps_pipe s Hs pi Hpi) as Hwf.
  unfold read_loop. set (p := (pipes s).[pi]) in *.
  destruct (Z.eqb_spec (bytes_available p) 0) as [H0|H0].
  - destruct (write_open p) eqn:Ew; simpl.
    + eexists. split; [done|]. constructor; try done; try (by apply set_waiters_wf).
      * by rewrite H0.
      * intros [Hr Hw]. split; [done|]. simpl. auto.
    + exists p. split; [by rewrite with_pipe_id|]. constructor; try done.
      * split; [done|]. unfold len. simpl. lia.
      * by rewrite H0.
  - pose proof (pw_avail p Hwf) as Ha.
    pose proof (read_bytes_spec (Z.to_nat (Z.min count (bytes_available p))) p [] Hwf ltac:(lia)) as R.
    cbv zeta in R. destruct (for_each _ _ _ _) as [p1 out]. simpl in R.
    destruct R as (W & Eo & El & Ea & Hu & Hro & Hwo & Hrw & Hww). rewrite Hww, Hrw.
    assert (len out = Z.min count (bytes_available p)) as Hlo by (unfold len; lia).
    assert (0 < count -> out <> []) as Hne by (intros ? ->; unfold len in Hlo; simpl in Hlo; lia).
    destruct (Z.ltb_spec 0 (write_waiter p)) as [Hlt|Hlt]; simpl;
      (eexists; split; [done|]); constructor; simpl; try done.
    all: try (by apply set_waiters_wf).
    all: try (intros [= ->] ?; by destruct Hne).
    all: try (rewrite (proj2 (Z.ltb_lt 0 (bytes_available p))) by lia; simpl).
    all: try (rewrite (proj2 (Z.ltb_lt 0 (write_waiter p))) by lia; done).
    all: try (rewrite (proj2 (Z.ltb_ge 0 (write_waiter p))) by lia; done).
    all: intros [Hr Hw]; unfold sleepers_ok; simpl; rewrite ?Hrw, ?Hww, ?Ea; split; lia.
Qed.

(** How much of [bytes] fits into the ring. *)
Definition room (p : pipe) : nat := Z.to_nat (PIPE_BUF_SIZE - bytes_available p).

Record write_post (p : pipe) (pid written : Z) (bytes : list Z) (p' : pipe) (r : Z + list Z)
    (woken : list Z) : Prop := {
  wp_wf : pipe_wf p';
  wp_frame : p_in_use p' = p_in_use p /\ read_open p' = read_open p /\ write_open p' = write_open p;
  wp_fifo : contents p' = contents p ++ take (room p) bytes;
  wp_result : r = if decide (length bytes <= room p)%nat then inl (written + len bytes)
                  else if read_open p then inr (drop (room p) bytes) else inl (-32);
  wp_sleep : forall rest, r = inr rest -> write_waiter p' = pid /\ bytes_available p' = PIPE_BUF_SIZE;
  wp_woken : woken = if (0 <? bytes_available p' - bytes_available p) && (0 <? read_waiter p)
                     then [read_waiter p] else [];
  wp_sleepers : sleepers_ok p -> sleepers_ok p';
}.

Lemma bytes_available_le p p' xs :
  pipe_wf p -> pipe_wf p' -> contents p' = contents p ++ xs ->
  bytes_available p' = bytes_available p + len xs.
Proof.
  intros H H' E. apply (f_equal len) in E. rewrite len_contents in E by done.
  rewrite E, <- len_contents by done. unfold len. rewrite length_app. lia.
Qed.

Lemma with_pipe_twice s i p q : with_pipe (with_pipe s i p) i q = with_pipe s i q.
Proof. unfold with_pipe, seti. simpl. by rewrite list_insert_insert_eq. Qed.

(** One byte written and the reader woken, ahead of the rest. *)
Lemma write_post_cons p pid written b bytes p1 p' r woken :
  pipe_wf p -> bytes_available p < PIPE_BUF_SIZE ->
  p1 = (if 0 <? read_waiter p then set_waiters (write_byte p b) 0 (write_waiter p)
        else write_byte p b) ->
  write_post p1 pid (written + 1) bytes p' r woken ->
  write_post p pid written (b :: bytes) p' r
    (if 0 <? read_waiter p then read_waiter p :: woken else woken).
Proof.
  intros Hwf Hr E1 [W F Q R Sl K L]. destruct (write_byte_spec p b Hwf Hr) as [W1 C1].
  pose proof (pw_avail p Hwf) as Ha. pose proof (pw_avail p' W) as Ha'.
  assert (p_in_use p1 = p_in_use p /\ read_open p1 = read_open p /\ write_open p1 = write_open p /\
    bytes_available p1 = bytes_available p + 1 /\ contents p1 = contents p ++ [b] /\ pipe_wf p1 /\
    read_waiter p1 <= 0 /\ write_waiter p1 = write_waiter p)
    as (Hu & Hro & Hwo & Hba & Hct & Hw1 & Hrw & Hww).
  { subst p1. destruct (Z.ltb_spec 0 (read_waiter p)); simpl; rewrite ?set_waiters_contents;
      split_and!; try done; try lia. by apply set_waiters_wf. }
  assert (room p = S (room p1)) as Erm by (unfold room; lia).
  pose proof (bytes_available_le p1 p' _ Hw1 W Q) as Hba'. pose proof (len_nonneg (take (room p1) bytes)).
  rewrite Hu, Hro, Hwo in F. constructor; try done.
  - by rewrite Q, Hct, Erm, <- app_assoc.
  - rewrite Erm, R, Hro. unfold len. simpl. repeat case_decide; try lia; try done. apply (f_equal inl); lia.
  - rewrite (proj2 (Z.ltb_lt 0 (bytes_available p' - bytes_available p))) by lia. simpl.
    rewrite K. rewrite (proj2 (Z.ltb_ge 0 (read_waiter p1))) by lia. rewrite andb_false_r. done.
  - intros [Hs1 Hs2]. apply L. split; [lia|]. rewrite Hww. intros H0. specialize (Hs2 H0). lia.
Qed.

Lemma write_loop_spec s pi pid written bytes :
  ps_wf s -> 0 <= pi < MAX_PIPES ->
  exists p', (write_loop s pi pid written bytes).1.1 = with_pipe s pi p' /\
    write_post (pipes s).[pi] pid written bytes p'
      (write_loop s pi pid written bytes).1.2 (write_loop s pi pid written bytes).2.
Proof.
  revert s written. induction bytes as [|b bytes IH]; intros s written Hs Hpi; simpl;
    pose proof (ps_pipe s Hs pi Hpi) as Hwf; pose proof (pw_avail _ Hwf) as Ha.
  { exists (pipes s).[pi]. split; [by rewrite with_pipe_id|]. constructor; try done.
    - by rewrite take_nil, app_nil_r.
    - rewrite decide_True by (simpl; lia). unfold len. simpl. f_equal. lia.
    - by rewrite Z.sub_diag. }
  set (p := (pipes s).[pi]) in *. destruct (Z.leb_spec PIPE_BUF_SIZE (bytes_available p)) as [Hf|Hf].
  - assert (room p = 0%nat) as Hz by (unfold room; lia).
    destruct (read_open p) eqn:Er; simpl.
    + eexists. split; [done|]. constructor; rewrite ?Hz, ?Er; simpl; try done.
      * by apply set_waiters_wf.
      * by rewrite set_waiters_contents, app_nil_r.
      * intros rest [= <-]. split; [done|lia].
      * by rewrite Z.sub_diag.
      * intros [Hr Hw]. split; simpl; [done|lia].
    + exists p. split; [by rewrite with_pipe_id|]. constructor; rewrite ?Hz, ?Er; simpl; try done.
      * by rewrite app_nil_r.
      * by rewrite Z.sub_diag.
  - destruct (write_byte_spec p b Hwf Hf) as [W1 C1].
    set (p1 := if 0 <? read_waiter p then set_waiters (write_byte p b) 0 (write_waiter p)
               else write_byte p b).
    assert (pipe_wf p1) as Hp1
      by (subst p1; destruct (0 <? read_waiter p); [by apply set_waiters_wf|done]).
    assert (ps_wf (with_pipe s pi p1)) as Hs1.
    { apply with_pipe_wf; try done. subst p1. by destruct (0 <? read_waiter p). }
    destruct (IH (with_pipe s pi p1) (written + 1) Hs1 Hpi) as (p' & E & P).
    rewrite geti_with_pipe in P by done. rewrite with_pipe_twice in E.
    exists p'. pose proof (write_post_cons p pid written b bytes p1 p' _ _ Hwf Hf eq_refl P) as Q.
    subst p1. simpl in *.
    destruct (0 <? read_waiter p); simpl in *;
      destruct (write_loop _ pi pid (written + 1) bytes) as [[s' r] w]; done.
Qed.

(** ** Descriptors and pipes *)

Definition used (s : pstate) (i : Z) : Prop := 0 <= i < MAX_PIPE_FDS /\ f_in_use (pipe_fds s).[i] = true.

Definition end_open (p : pipe) (w : bool) : bool := if w then write_open p else read_open p.

(** Descriptors and pipe ends correspond one to one. *)
Record fds_ok (s : pstate) : Prop := {
  fo_wf :> ps_wf s;
  fo_uniq : forall i j, used s i -> used s j -> pipe_idx (pipe_fds s).[i] = pipe_idx (pipe_fds s).[j] ->
    is_write_end (pipe_fds s).[i] = is_write_end (pipe_fds s).[j] -> i = j;
  fo_open : forall i, used s i ->
    end_open (pipes s).[pipe_idx (pipe_fds s).[i]] (is_write_end (pipe_fds s).[i]) = true;
  fo_owner : forall pi w, 0 <= pi < MAX_PIPES -> p_in_use (pipes s).[pi] = true ->
    end_open (pipes s).[pi] w = true ->
    exists i, used s i /\ pipe_idx (pipe_fds s).[i] = pi /\ is_write_end (pipe_fds s).[i] = w;
  fo_live : forall pi, 0 <= pi < MAX_PIPES -> p_in_use (pipes s).[pi] = true ->
    read_open (pipes s).[pi] || write_open (pipes s).[pi] = true;
}.

Lemma init_fds_ok : fds_ok init_pstate.
Proof.
  assert (forall i, 0 <= i < MAX_PIPES -> (pipes init_pstate).[i] = zero_pipe) as Hp
    by (intros; apply geti_replicate; unfold MAX_PIPES in *; lia).
  assert (forall i, 0 <= i < MAX_PIPE_FDS -> (pipe_fds init_pstate).[i] = zero_fd) as Hf
    by (intros; apply geti_replicate; unfold MAX_PIPE_FDS in *; lia).
  assert (forall i, ~ used init_pstate i) as Hn by (intros i [Hi Hu]; rewrite Hf in Hu; done).
  constructor; try (by intros ? []%Hn || by intros ?? []%Hn).
  - constructor; try done.
    + intros. rewrite Hp by done. apply zero_pipe_wf.
    + intros i Hi Hu. by destruct (Hn i).
  - intros pi w Hpi. by rewrite Hp.
  - intros pi Hpi. by rewrite Hp.
Qed.

Lemma used_range s i : ps_wf s -> used s i -> 0 <= pipe_idx (pipe_fds s).[i] < MAX_PIPES /\
  p_in_use (pipes s).[pipe_idx (pipe_fds s).[i]] = true.
Proof. intros [_ _ _ H] [Hi Hu]. auto. Qed.

Lemma is_pipe_fd_used s fd : pipe_is_pipe_fd s fd = true <-> used s (fd - PIPE_FD_BASE).
Proof.
  unfold pipe_is_pipe_fd, used. rewrite !andb_true_iff, Z.leb_le, Z.ltb_lt.
  unfold PIPE_FD_BASE, MAX_PIPE_FDS. intuition lia.
Qed.

(** Reads and writes leave the descriptors and the open ends alone. *)
Lemma fds_ok_with_pipe s pi p :
  fds_ok s -> 0 <= pi < MAX_PIPES -> pipe_wf p ->
  p_in_use p = p_in_use (pipes s).[pi] -> read_open p = read_open (pipes s).[pi] ->
  write_open p = write_open (pipes s).[pi] -> fds_ok (with_pipe s pi p).
Proof.
  intros [W U O Ow L] Hpi Hp Eu Er Ew.
  assert (forall j, 0 <= j < MAX_PIPES -> p_in_use (pipes (with_pipe s pi p)).[j] = p_in_use (pipes s).[j] /\
    (forall w, end_open (pipes (with_pipe s pi p)).[j] w = end_open (pipes s).[j] w)) as Hj.
  { intros j Hj. simpl. pose proof (ps_pipes s W). rewrite geti_seti by lia.
    case_decide; [subst j|done]. split; [done|]. by intros []. }
  constructor.
  - apply with_pipe_wf; try done. by rewrite Eu.
  - done.
  - intros i Hi. destruct (used_range s i W Hi) as [Hr _]. simpl pipe_fds.
    rewrite (proj2 (Hj _ Hr)). by apply O.
  - intros j w Hr. rewrite (proj1 (Hj _ Hr)), (proj2 (Hj _ Hr)). by apply Ow.
  - intros j Hr. specialize (L j Hr). destruct (Hj j Hr) as [Hu He].
    rewrite Hu. intros HL. specialize (L HL). rewrite <- L. f_equal; [apply (He false)|apply (He true)].
Qed.

Definition RFD (pi : Z) : pipe_fd := mkFd true pi false.
Definition WFD (pi : Z) : pipe_fd := mkFd true pi true.

Definition fd_free (s : pstate) (i : Z) : Prop := 0 <= i < MAX_PIPE_FDS /\ f_in_use (pipe_fds s).[i] = false.

Lemma create_loop_spec s pi :
  len (pipe_fds s) = MAX_PIPE_FDS ->
  match for_loop (create_step pi) (Z.to_nat MAX_PIPE_FDS) 0 (s, -1, -1) with
  | Stop (s', r, w) => exists a b, fd_free s a /\ fd_free s b /\ a < b /\
      r = a + PIPE_FD_BASE /\ w = b + PIPE_FD_BASE /\ s' = with_fd (with_fd s a (RFD pi)) b (WFD pi)
  | Next (s', r, w) =>
      w = -1 /\ ((r = -1 /\ s' = s /\ forall i, ~ fd_free s i) \/
                 exists a, fd_free s a /\ r = a + PIPE_FD_BASE /\ s' = with_fd s a (RFD pi) /\
                           forall i, fd_free s i -> i = a)
  end.
Proof.
  intros Hl.
  pose proof (for_loop_ind (create_step pi)
    (fun i '(s', r, w) =>
      w = -1 /\ ((r = -1 /\ s' = s /\ forall k, fd_free s k -> i <= k) \/
                 exists a, fd_free s a /\ a < i /\ r = a + PIPE_FD_BASE /\ s' = with_fd s a (RFD pi) /\
                           forall k, fd_free s k -> k < i -> k = a))
    (fun '(s', r, w) => exists a b, fd_free s a /\ fd_free s b /\ a < b /\
      r = a + PIPE_FD_BASE /\ w = b + PIPE_FD_BASE /\ s' = with_fd (with_fd s a (RFD pi)) b (WFD pi))
    (Z.to_nat MAX_PIPE_FDS) 0 (s, -1, -1)) as H.
  cbv beta iota in H. ospecialize (H _ _).
  - split; [done|]. left. split_and!; try done. by intros k [Hk _]; lia.
  - intros j [[s' r] w] Hj [-> [(-> & -> & Hk)|(a & Ha & Haj & -> & -> & Hk)]]; unfold create_step.
    + destruct (f_in_use (pipe_fds s).[j]) eqn:E; simpl.
      * split; [done|]. left. split_and!; try done. intros k Hf. destruct (decide (k = j)) as [->|].
        { destruct Hf as [_ Hf]. congruence. }
        specialize (Hk k Hf). lia.
      * split; [done|]. right. exists j. split_and!; try done; try (unfold MAX_PIPE_FDS in *; lia).
        intros k Hf Hlt. specialize (Hk k Hf). lia.
    + assert (fd_free s j -> j <> a -> f_in_use (pipe_fds (with_fd s a (RFD pi))).[j] = false) as Hfj.
      { intros [? Hu] Hne. destruct Ha. simpl. rewrite geti_seti_ne by lia. done. }
      destruct Ha as [Har Hau].
      destruct (f_in_use (pipe_fds (with_fd s a (RFD pi))).[j]) eqn:E; simpl.
      * split; [done|]. right. exists a. split_and!; try done; [lia|]. intros k Hf Hlt.
        destruct (decide (k = j)) as [->|]; [|apply Hk; [done|lia]].
        destruct (decide (j = a)); [done|]. by discriminate Hfj.
      * unfold PIPE_FD_BASE. rewrite (proj2 (Z.ltb_ge (a + 200) 0)) by lia. simpl.
        exists a, j. simpl in E. rewrite geti_seti_ne in E by lia.
        split_and!; try done; unfold MAX_PIPE_FDS in *; lia.
  - change (0 + Z.of_nat (Z.to_nat MAX_PIPE_FDS)) with MAX_PIPE_FDS in H.
    destruct (for_loop _ _ _ _) as [[[s' r] w]|[[s' r] w]]; [|done].
    destruct H as [-> [(-> & -> & Hk)|(a & Ha & Haj & -> & -> & Hk)]]; (split; [done|]).
    + left. split_and!; try done. intros i Hi. specialize (Hk i Hi). destruct Hi. lia.
    + right. exists a. split_and!; try done. intros i Hi. apply Hk; [done|]. destruct Hi; lia.
Qed.

(** What [pipe_create] makes of a free slot. *)
Definition fresh_pipe : pipe := set_open (set_in_use zero_pipe true) true true.

Lemma fresh_pipe_wf u : pipe_wf (set_in_use fresh_pipe u).
Proof. by constructor. Qed.

Definition two_fds (s : pstate) (pi a b : Z) : pstate :=
  with_fd (with_fd (with_pipe s pi fresh_pipe) a (RFD pi)) b (WFD pi).

Lemma pipe_create_cases s :
  ps_wf s ->
  (pipe_create s = (s, None) /\ forall pi, 0 <= pi < MAX_PIPES -> p_in_use (pipes s).[pi] = true) \/
  exists pi, 0 <= pi < MAX_PIPES /\ p_in_use (pipes s).[pi] = false /\
    ((exists a b, fd_free s a /\ fd_free s b /\ a < b /\
        pipe_create s = (two_fds s pi a b, Some (a + PIPE_FD_BASE, b + PIPE_FD_BASE))) \/
     ((forall i j, fd_free s i -> fd_free s j -> i = j) /\ (pipe_create s).2 = None /\
      pipes (pipe_create s).1 = (pipes s).[pi <- set_in_use fresh_pipe false] /\
      (pipe_fds (pipe_create s).1 = pipe_fds s \/
       exists a, fd_free s a /\ pipe_fds (pipe_create s).1 = (pipe_fds s).[a <- mkFd false pi false]))).
Proof.
  intros [Hp Hf _ _]. unfold pipe_create. destruct (find_from _ _ _) as [pi|] eqn:E.
  - apply find_from_Some in E as (Hr & Hu & _). apply negb_true_iff in Hu. right. exists pi.
    change (0 + Z.of_nat (Z.to_nat MAX_PIPES)) with MAX_PIPES in Hr.
    split; [done|]. split; [done|]. change (set_open (set_in_use zero_pipe true) true true) with fresh_pipe.
    pose proof (create_loop_spec (with_pipe s pi fresh_pipe) pi Hf) as C.
    destruct (for_loop _ _ _ _) as [[[s' r] w]|[[s' r] w]].
    + destruct C as [-> [(-> & -> & Hn)|(a & Ha & -> & -> & Hn)]]; right.
      * split; [intros i j Hi; by destruct (Hn i)|]. split; [done|]. split; [|by left].
        simpl. rewrite geti_seti_eq by lia. unfold seti. by rewrite list_insert_insert_eq.
      * split; [intros i j Hi Hj; by rewrite (Hn i Hi), (Hn j Hj)|].
        rewrite orb_true_r. split; [done|].
        destruct Ha as [Har Hau]. unfold PIPE_FD_BASE. rewrite (proj2 (Z.leb_le 0 (a + 200))) by lia.
        simpl. replace (a + 200 - 200) with a by lia. split.
        -- rewrite geti_seti_eq by lia. unfold seti. by rewrite list_insert_insert_eq.
        -- right. exists a. split; [done|]. rewrite geti_seti_eq by lia.
           unfold seti. by rewrite list_insert_insert_eq.
    + destruct C as (a & b & Ha & Hb & Hab & -> & -> & ->). left. exists a, b.
      split; [done|]. split; [done|]. split; [done|].
      assert (0 <= a) by (destruct Ha; lia). unfold PIPE_FD_BASE.
      rewrite (proj2 (Z.ltb_ge (a + 200) 0)), (proj2 (Z.ltb_ge (b + 200) 0)) by lia. done.
  - left. split; [done|]. intros pi Hpi. pose proof (proj1 (find_from_None _ _ _) E pi) as H.
    apply negb_false_iff, H. done.
Qed.

(** Two states with the same live descriptors and pipes. *)
Record same_live (s s' : pstate) : Prop := {
  sl_fd : forall i, 0 <= i < MAX_PIPE_FDS -> f_in_use (pipe_fds s').[i] = f_in_use (pipe_fds s).[i] /\
    (f_in_use (pipe_fds s).[i] = true -> (pipe_fds s').[i] = (pipe_fds s).[i]);
  sl_pipe : forall i, 0 <= i < MAX_PIPES -> p_in_use (pipes s').[i] = p_in_use (pipes s).[i] /\
    (p_in_use (pipes s).[i] = true -> (pipes s').[i] = (pipes s).[i]);
}.

Lemma same_live_refl s : same_live s s.
Proof. by constructor. Qed.

Lemma create_failed_same_live s :
  ps_wf s -> (pipe_create s).2 = None -> ps_wf (pipe_create s).1 /\ same_live s (pipe_create s).1.
Proof.
  intros Hs E. destruct (pipe_create_cases s Hs) as [[-> _]|(pi & Hpi & Hu & [C|C])].
  - split; [done|apply same_live_refl].
  - destruct C as (a & b & _ & _ & _ & C). by rewrite C in E.
  - destruct C as (_ & _ & Ep & Ef). destruct Hs as [Hp Hf Hw Hi].
    assert (forall i, 0 <= i < MAX_PIPES ->
      (pipes (pipe_create s).1).[i] = if decide (pi = i) then set_in_use fresh_pipe false else (pipes s).[i])
      as Gp by (intros; rewrite Ep, geti_seti by lia; done).
    assert (len (pipe_fds (pipe_create s).1) = len (pipe_fds s) /\
      forall i, 0 <= i < MAX_PIPE_FDS ->
        f_in_use (pipe_fds (pipe_create s).1).[i] = f_in_use (pipe_fds s).[i] /\
        (f_in_use (pipe_fds s).[i] = true -> (pipe_fds (pipe_create s).1).[i] = (pipe_fds s).[i]))
      as [Gl Gf].
    { destruct Ef as [->|(a & [Ha Hau] & ->)]; autorewrite with arr; [done|]. split; [done|].
      intros i Hr. rewrite geti_seti by lia. case_decide; [subst; by rewrite Hau|done]. }
    split.
    + constructor; [rewrite Ep; by autorewrite with arr|by rewrite Gl| |].
      * intros i Hr. rewrite Gp by done. case_decide; [apply fresh_pipe_wf|auto].
      * intros i Hr Hin. rewrite (proj1 (Gf i Hr)) in Hin. rewrite (proj2 (Gf i Hr) Hin).
        destruct (Hi i Hr Hin). split; [done|]. rewrite Gp by done. case_decide; [congruence|done].
    + constructor; [apply Gf|]. intros i Hr. rewrite Gp by done. case_decide; [|done].
      subst i. by rewrite Hu.
Qed.

Lemma same_live_fds_ok s s' : fds_ok s -> ps_wf s' -> same_live s s' -> fds_ok s'.
Proof.
  intros [W U O Ow L] W' [Sf Sp].
  assert (forall i, used s' i <-> used s i) as Hus.
  { intros i. unfold used. split; intros [Hr Hi]; (split; [done|]); rewrite <- Hi;
      [symmetry|]; by apply Sf. }
  assert (forall i, used s i -> (pipe_fds s').[i] = (pipe_fds s).[i]) as Hfe by (intros i [Hr Hi]; by apply Sf).
  constructor; [done| | | |].
  - intros i j Hi%Hus Hj%Hus. rewrite !Hfe by done. by apply U.
  - intros i Hi%Hus. rewrite Hfe by done. destruct (used_range s i W Hi) as [Hr Hin].
    rewrite (proj2 (Sp _ Hr)) by done. by apply O.
  - intros pi w Hr Hin. rewrite (proj1 (Sp _ Hr)) in Hin. rewrite (proj2 (Sp _ Hr)) by done. intros He.
    destruct (Ow pi w Hr Hin He) as (i & Hi & E1 & E2). exists i.
    rewrite Hfe by done. split; [by apply Hus|done].
  - intros pi Hr Hin. rewrite (proj1 (Sp _ Hr)) in Hin. rewrite (proj2 (Sp _ Hr)) by done. by apply L.
Qed.

Lemma two_fds_lookup s pi a b i :
  ps_wf s -> fd_free s a -> fd_free s b -> a < b -> 0 <= i < MAX_PIPE_FDS ->
  (pipe_fds (two_fds s pi a b)).[i] =
    if decide (i = a) then RFD pi else if decide (i = b) then WFD pi else (pipe_fds s).[i].
Proof.
  intros [_ Hf _ _] [Ha _] [Hb _] Hab Hi. simpl.
  rewrite geti_seti by (autorewrite with arr; lia). repeat case_decide; subst; try lia; try done;
    rewrite geti_seti by lia; case_decide; done || lia.
Qed.

Lemma two_fds_pipe s pi a b j :
  ps_wf s -> 0 <= pi < MAX_PIPES -> 0 <= j < MAX_PIPES ->
  (pipes (two_fds s pi a b)).[j] = if decide (pi = j) then fresh_pipe else (pipes s).[j].
Proof. intros [Hp _ _ _] Hpi Hj. simpl. rewrite geti_seti by lia. done. Qed.

Lemma two_fds_ok s pi a b :
  fds_ok s -> 0 <= pi < MAX_PIPES -> p_in_use (pipes s).[pi] = false ->
  fd_free s a -> fd_free s b -> a < b -> fds_ok (two_fds s pi a b).
Proof.
  intros [W U O Ow L] Hpi Hu Ha Hb Hab. set (s' := two_fds s pi a b).
  assert (forall i, 0 <= i < MAX_PIPE_FDS -> (pipe_fds s').[i] =
    if decide (i = a) then RFD pi else if decide (i = b) then WFD pi else (pipe_fds s).[i]) as Gf
    by (intros; by apply two_fds_lookup).
  assert (forall j, 0 <= j < MAX_PIPES ->
    (pipes s').[j] = if decide (pi = j) then fresh_pipe else (pipes s).[j]) as Gp
    by (intros; by apply two_fds_pipe).
  assert (forall i, used s i -> pipe_idx (pipe_fds s).[i] <> pi) as Hne
    by (intros i Hi E; destruct (used_range s i W Hi); congruence).
  assert (forall i, used s' i -> i = a \/ i = b \/ (i <> a /\ i <> b /\ used s i)) as Hus.
  { intros i [Hr Hi]. rewrite Gf in Hi by done. destruct (decide (i = a)); [auto|].
    destruct (decide (i = b)); [auto|]. right. right. done. }
  assert (forall i, used s i -> i <> a /\ i <> b /\ used s' i) as Hkeep.
  { intros i [Hr Hi]. assert (i <> a /\ i <> b) as [] by (destruct Ha, Hb; split; congruence).
    split; [done|]. split; [done|]. split; [done|]. rewrite Gf by done. by repeat case_decide. }
  destruct Ha as [Har Hau], Hb as [Hbr Hbu].
  constructor.
  - destruct W as [Hp Hf Hw Hi]. constructor; simpl; autorewrite with arr; try done.
    + intros j Hj. rewrite geti_seti by lia. case_decide; [apply (fresh_pipe_wf true)|auto].
    + intros i Hr Hin. pose proof (Gf i Hr) as E. simpl in E, Hin. rewrite E in Hin. rewrite E.
      repeat case_decide; simpl; try (split; [done|]; by rewrite geti_seti_eq by lia).
      destruct (Hi i Hr Hin). split; [done|]. rewrite geti_seti by lia. case_decide; [congruence|done].
  - intros i j Hi Hj. destruct (Hus i Hi) as [->|[->|(? & ? & Hi')]], (Hus j Hj) as [->|[->|(? & ? & Hj')]];
      rewrite ?(Gf a), ?(Gf b) by done; repeat (rewrite decide_True by lia || rewrite decide_False by lia);
      try done; try (rewrite (Gf i) by (by destruct Hi')); try (rewrite (Gf j) by (by destruct Hj'));
      intros E1 E2; repeat case_decide; try lia.
    all: try discriminate; try (exfalso; by apply (Hne j)); try (exfalso; by apply (Hne i)). by apply U.
  - intros i Hi. destruct (Hus i Hi) as [->|[->|(? & ? & Hi')]]; rewrite Gf by (by destruct Hi);
      repeat case_decide; try lia; cbn [pipe_idx is_write_end RFD WFD].
    1,2: by rewrite Gp, decide_True.
    destruct (used_range s i W Hi'). rewrite Gp, decide_False by (try done; by apply not_eq_sym, Hne). auto.
  - intros j w Hj. rewrite Gp by done. case_decide.
    + subst j. intros _ _. destruct w; [exists b|exists a]; (split; [split; [done|]|]);
        rewrite Gf by done; repeat case_decide; try lia; done.
    + intros Hin He. destruct (Ow j w Hj Hin He) as (i & Hi & E1 & E2). exists i.
      destruct (Hkeep i Hi) as (? & ? & Hi'). split; [done|]. destruct Hi as [Hr _].
      rewrite Gf by done. by repeat (rewrite decide_False by lia).
  - intros j Hj. rewrite Gp by done. case_decide; [done|auto].
Qed.

Lemma pipe_create_fds_ok s : fds_ok s -> fds_ok (pipe_create s).1.
Proof.
  intros Hs. destruct (pipe_create_cases s Hs) as [[-> _]|(pi & Hpi & Hu & [C|C])]; [done| |].
  - destruct C as (a & b & Ha & Hb & Hab & ->). by apply two_fds_ok.
  - destruct (create_failed_same_live s Hs) as [W' S]; [apply C|]. by apply (same_live_fds_ok s).
Qed.

Lemma bool_neq_negb (x y : bool) : x <> y -> x = negb y.
Proof. by destruct x, y. Qed.

(** What closing one end leaves of a pipe. *)
Definition close_end (p : pipe) (w : bool) : pipe :=
  let p := if w then set_open p (read_open p) false else set_open p false (write_open p) in
  if negb (read_open p) && negb (write_open p) then set_in_use p false else p.

Lemma pipe_close_eq s fd :
  pipe_is_pipe_fd s fd = true ->
  let i := fd - PIPE_FD_BASE in let q := pipe_idx (pipe_fds s).[i] in
  pipe_close s fd =
    (with_pipe (with_fd s i (set_fd_in_use (pipe_fds s).[i] false)) q
       (close_end (pipes s).[q] (is_write_end (pipe_fds s).[i])), 0).
Proof. intros H. unfold pipe_close. rewrite H. simpl. reflexivity. Qed.

Lemma close_end_wf p w : pipe_wf p -> pipe_wf (close_end p w).
Proof. intros []. unfold close_end. by destruct w; simpl; case_match; constructor. Qed.

Lemma close_end_spec p w :
  p_in_use p = true ->
  (forall w', end_open (close_end p w) w' = end_open p w' && negb (Bool.eqb w w')) /\
  p_in_use (close_end p w) = end_open p (negb w) /\ contents (close_end p w) = contents p /\
  (read_waiter (close_end p w), write_waiter (close_end p w)) = (read_waiter p, write_waiter p).
Proof.
  destruct p. simpl. intros ->. unfold close_end.
  destruct w; simpl; destruct read_open0, write_open0; simpl; split_and!; try done; by intros [].
Qed.

Lemma pipe_close_fds_ok s fd : fds_ok s -> fds_ok (pipe_close s fd).1.
Proof.
  intros Hs. destruct (pipe_is_pipe_fd s fd) eqn:E.
  2:{ unfold pipe_close. by rewrite E. }
  rewrite (pipe_close_eq s fd E). cbv zeta. simpl fst.
  apply is_pipe_fd_used in E. set (i := fd - PIPE_FD_BASE) in *. set (q := pipe_idx (pipe_fds s).[i]).
  set (w := is_write_end (pipe_fds s).[i]).
  destruct Hs as [W U O Ow L]. destruct (used_range s i W E) as [Hq Hqu]. fold q in Hq, Hqu.
  destruct (close_end_spec (pipes s).[q] w Hqu) as (Ce & Cu & _).
  pose proof (close_end_wf _ w (ps_pipe s W q Hq)) as Cw. set (p' := close_end _ _) in *.
  pose proof (ps_pipes s W) as Hp. pose proof (ps_fds s W) as Hf. destruct E as [Hir Hiu].
  set (s' := with_pipe _ q p').
  assert (forall j, 0 <= j < MAX_PIPES -> (pipes s').[j] = if decide (q = j) then p' else (pipes s).[j]) as Gp
    by (intros; simpl; rewrite geti_seti by lia; done).
  assert (forall j, used s' j -> j <> i /\ used s j) as Hus.
  { intros j [Hr Hj]. simpl in Hj. rewrite geti_seti in Hj by lia. case_decide; [done|]. split; [lia|done]. }
  assert (forall j, j <> i -> 0 <= j < MAX_PIPE_FDS -> (pipe_fds s').[j] = (pipe_fds s).[j]) as Gf.
  { intros j Hj Hr. simpl. rewrite geti_seti_ne by lia. done. }
  assert (forall j, used s j -> j <> i -> pipe_idx (pipe_fds s).[j] = q -> is_write_end (pipe_fds s).[j] = negb w) as Ho.
  { intros j Hj Hne Eq. destruct (bool_dec (is_write_end (pipe_fds s).[j]) w) as [Ew|Ew].
    - exfalso. apply Hne, U; [done|by split|done|done].
    - by apply bool_neq_negb. }
  assert (forall j, used s j -> j <> i -> pipe_idx (pipe_fds s).[j] = q -> p_in_use p' = true) as Hlive.
  { intros j Hj Hne Eq. rewrite Cu, <- (Ho j Hj Hne Eq), <- Eq. by apply O. }
  constructor.
  - destruct W as [_ _ Hw Hi]. constructor; simpl; autorewrite with arr; try done.
    + intros j Hj. rewrite geti_seti by lia. case_decide; auto.
    + intros j Hr Hin. destruct (Hus j) as [Hne Hj]; [by split|]. rewrite geti_seti_ne by lia.
      destruct (Hi j Hr (proj2 Hj)) as [Hx Hy]. split; [done|].
      rewrite geti_seti by lia. case_decide; [by apply (Hlive j)|done].
  - intros j k [Hj Uj]%Hus [Hk Uk]%Hus. rewrite !Gf by (done || apply Uj || apply Uk). by apply U.
  - intros j [Hj Uj]%Hus. rewrite Gf by (done || apply Uj). destruct (used_range s j W Uj) as [Hx _].
    rewrite Gp by done. case_decide as Eq; [|by apply O].
    rewrite Ce, (Ho j Uj Hj) by done. rewrite <- (Ho j Uj Hj) by done. rewrite Eq, O by done.
    rewrite (Ho j Uj Hj) by done. by destruct w.
  - intros j w' Hj. rewrite Gp by done. case_decide as Eq.
    + subst j. intros Hin. rewrite Ce, andb_true_iff. intros [He Hn].
      destruct (Ow q w' Hq Hqu He) as (k & Uk & E1 & E2). exists k.
      assert (k <> i) as Hne by (intros ->; fold w in E2; rewrite E2 in Hn; by destruct w').
      destruct Uk as [Hr Uk]. unfold used. rewrite Gf by done. done.
    + intros Hin He. destruct (Ow j w' Hj Hin He) as (k & Uk & E1 & E2). exists k.
      assert (k <> i) as Hne by (intros ->; done).
      destruct Uk as [Hr Uk]. unfold used. rewrite Gf by done. done.
  - intros j Hj. rewrite Gp by done. case_decide as Eq; [|auto].
    rewrite Cu. pose proof (Ce true) as Et. pose proof (Ce false) as Ef. cbn [end_open] in Et, Ef.
    rewrite Et, Ef. destruct w; simpl; intros ->; by rewrite ?orb_true_r.
Qed.

(** ** Interleaved calls

    The calls of all the tasks, cut where they block: [CReadMore] and
    [CWriteMore] are a reader and a writer going on after [task_block()]. *)

Inductive call :=
| CCreate
| CRead (fd pid count : Z)
| CReadMore (pi pid count : Z)
| CWrite (fd pid : Z) (bytes : list Z)
| CWriteMore (pi pid written : Z) (rest : list Z)
| CClose (fd : Z).

Definition call_ok (c : call) : Prop :=
  match c with
  | CRead _ _ count => 0 <= count
  | CReadMore pi _ count => 0 <= pi < MAX_PIPES /\ 0 <= count
  | CWriteMore pi _ _ _ => 0 <= pi < MAX_PIPES
  | _ => True
  end.

Definition exec (s : pstate) (c : call) : pstate :=
  match c with
  | CCreate => (pipe_create s).1
  | CRead fd pid count => match pipe_read s fd pid count with inl _ => s | inr r => r.1.1 end
  | CReadMore pi pid count => (read_resume s pi pid count).1.1
  | CWrite fd pid bytes => match pipe_write s fd pid bytes with inl _ => s | inr r => r.1.1 end
  | CWriteMore pi pid written rest => (write_resume s pi pid written rest).1.1
  | CClose fd => (pipe_close s fd).1
  end.

Definition run (s : pstate) (cs : list call) : pstate := fold_left exec cs s.

Definition fd_pipe (s : pstate) (fd : Z) : Z := pipe_idx (pipe_fds s).[fd - PIPE_FD_BASE].

(** The bytes a call takes out of pipe [pi], and those it puts in. *)
Definition delivered (pi : Z) (s : pstate) (c : call) : list Z :=
  let out q r := if q =? pi then match r with Ret out => out | Sleep => [] end else [] in
  match c with
  | CRead fd pid count => match pipe_read s fd pid count with inl _ => [] | inr r => out (fd_pipe s fd) r.1.2 end
  | CReadMore q pid count => out q (read_resume s q pid count).1.2
  | _ => []
  end.

Definition accepted (pi : Z) (s : pstate) (c : call) : list Z :=
  let inp q bytes := if q =? pi then take (room (pipes s).[pi]) bytes else [] in
  match c with
  | CWrite fd pid bytes => match pipe_write s fd pid bytes with inl _ => [] | inr _ => inp (fd_pipe s fd) bytes end
  | CWriteMore q pid written rest => inp q rest
  | _ => []
  end.

Fixpoint got (pi : Z) (s : pstate) (cs : list call) : list Z :=
  match cs with [] => [] | c :: cs => delivered pi s c ++ got pi (exec s c) cs end.
Fixpoint sent (pi : Z) (s : pstate) (cs : list call) : list Z :=
  match cs with [] => [] | c :: cs => accepted pi s c ++ sent pi (exec s c) cs end.

Lemma pipe_read_inr s fd pid count r :
  ps_wf s -> pipe_read s fd pid count = inr r ->
  0 <= fd_pipe s fd < MAX_PIPES /\ r = read_loop s (fd_pipe s fd) pid count.
Proof.
  unfold pipe_read. intros Hs H. destruct (pipe_is_pipe_fd s fd) eqn:E; [|done].
  apply is_pipe_fd_used, used_range in E as [E _]; [|done]. simpl in H.
  destruct (is_write_end _); [done|]. by injection H as <-.
Qed.

Lemma pipe_write_inr s fd pid bytes r :
  ps_wf s -> pipe_write s fd pid bytes = inr r ->
  0 <= fd_pipe s fd < MAX_PIPES /\ r = write_loop s (fd_pipe s fd) pid 0 bytes.
Proof.
  unfold pipe_write. intros Hs H. destruct (pipe_is_pipe_fd s fd) eqn:E; [|done].
  apply is_pipe_fd_used, used_range in E as [E _]; [|done]. simpl in H.
  destruct (is_write_end _); [|done]. simpl in H. destruct (read_open _); [|done]. by injection H as <-.
Qed.

(** A pipe changed in place: what every call but create and close does. *)
Lemma reset_waiters_ok s pi r w :
  fds_ok s -> 0 <= pi < MAX_PIPES -> fds_ok (with_pipe s pi (set_waiters (pipes s).[pi] r w)).
Proof. intros Hs Hpi. apply fds_ok_with_pipe; try done. by apply set_waiters_wf, (ps_pipe s Hs). Qed.

Definition all_sleepers_ok (s : pstate) : Prop :=
  forall pi, 0 <= pi < MAX_PIPES -> sleepers_ok (pipes s).[pi].

(** One call on pipe [q]: its effect on the tables and on the queue [pi]. *)
Record in_place (s s' : pstate) (q : Z) (out inp : list Z) : Prop := {
  ip_ok : fds_ok s -> fds_ok s';
  ip_fifo : contents (pipes s).[q] ++ inp = out ++ contents (pipes s').[q];
  ip_other : forall pi, 0 <= pi < MAX_PIPES -> pi <> q -> (pipes s').[pi] = (pipes s).[pi];
  ip_sleepers : sleepers_ok (pipes s).[q] -> sleepers_ok (pipes s').[q];
}.

Lemma read_in_place s q pid count :
  fds_ok s -> 0 <= q < MAX_PIPES -> 0 <= count ->
  in_place s (read_loop s q pid count).1.1 q
    (match (read_loop s q pid count).1.2 with Ret out => out | Sleep => [] end) [].
Proof.
  intros Hs Hq Hc. destruct (read_loop_spec s q pid count Hs Hq Hc) as (p' & -> & [W F Q _ _ S]).
  constructor.
  - intros _. apply fds_ok_with_pipe; naive_solver.
  - rewrite geti_with_pipe, app_nil_r by (done || apply Hs).
    destruct (read_loop _ _ _ _).1.2; [apply Q|]. symmetry. apply Q.
  - intros pi Hpi Hne. simpl. apply geti_seti_ne; lia.
  - rewrite geti_with_pipe by (done || apply Hs). done.
Qed.

Lemma write_in_place s q pid written bytes :
  fds_ok s -> 0 <= q < MAX_PIPES ->
  in_place s (write_loop s q pid written bytes).1.1 q [] (take (room (pipes s).[q]) bytes).
Proof.
  intros Hs Hq. destruct (write_loop_spec s q pid written bytes Hs Hq) as (p' & -> & [W F Q _ _ _ S]).
  constructor.
  - intros _. apply fds_ok_with_pipe; naive_solver.
  - rewrite geti_with_pipe by (done || apply Hs). done.
  - intros pi Hpi Hne. simpl. apply geti_seti_ne; lia.
  - rewrite geti_with_pipe by (done || apply Hs). done.
Qed.

(** The wake-up step in front of a continued call. *)
Lemma in_place_resume s r w q s' out inp :
  fds_ok s -> 0 <= q < MAX_PIPES ->
  (sleepers_ok (pipes s).[q] -> sleepers_ok (set_waiters (pipes s).[q] r w)) ->
  in_place (with_pipe s q (set_waiters (pipes s).[q] r w)) s' q out inp -> in_place s s' q out inp.
Proof.
  intros Hs Hq Hsl [A B C D]. rewrite geti_with_pipe in B, D by (done || apply Hs). constructor.
  - intros _. by apply A, reset_waiters_ok.
  - done.
  - intros pi Hpi Hne. rewrite C by done. simpl. apply geti_seti_ne; lia.
  - auto.
Qed.

Definition queue_step (s : pstate) (c : call) : Prop :=
  forall pi, 0 <= pi < MAX_PIPES ->
    contents (pipes s).[pi] ++ accepted pi s c = delivered pi s c ++ contents (pipes (exec s c)).[pi].

Definition exec_post (s : pstate) (c : call) : Prop :=
  fds_ok (exec s c) /\ (all_sleepers_ok s -> all_sleepers_ok (exec s c)) /\
  (c <> CCreate -> queue_step s c).

Lemma exec_in_place s c q out inp :
  fds_ok s -> in_place s (exec s c) q out inp ->
  (forall pi, delivered pi s c = if q =? pi then out else []) ->
  (forall pi, accepted pi s c = if q =? pi then inp else []) -> exec_post s c.
Proof.
  intros Hs [A B C D] Hd Ha. split; [by apply A|]. split.
  - intros Hsl pi Hpi. destruct (decide (pi = q)) as [->|Hne]; [by apply D, Hsl|].
    rewrite C by done. by apply Hsl.
  - intros _ pi Hpi. rewrite Hd, Ha. destruct (Z.eqb_spec q pi) as [->|Hne]; [done|].
    rewrite C by lia. by rewrite app_nil_r.
Qed.

Lemma exec_idle s c :
  fds_ok s -> exec s c = s -> (forall pi, delivered pi s c = []) -> (forall pi, accepted pi s c = []) ->
  exec_post s c.
Proof.
  intros Hs E Hd Ha. split; [by rewrite E|]. split; [by rewrite E|].
  intros _ pi Hpi. by rewrite Hd, Ha, E, app_nil_r.
Qed.

Lemma exec_read s fd pid count : fds_ok s -> 0 <= count -> exec_post s (CRead fd pid count).
Proof.
  intros Hs Hc. destruct (pipe_read s fd pid count) as [e|r] eqn:E.
  - apply exec_idle; simpl; rewrite ?E; done.
  - destruct (pipe_read_inr s fd pid count r Hs E) as [Hq ->].
    eapply exec_in_place; simpl; rewrite ?E; [done|by apply read_in_place|done|].
    intros pi. by case_match.
Qed.

Lemma exec_read_more s q pid count :
  fds_ok s -> 0 <= q < MAX_PIPES -> 0 <= count -> exec_post s (CReadMore q pid count).
Proof.
  intros Hs Hq Hc. eapply exec_in_place; [done| |done|intros pi; simpl; by case_match].
  simpl. unfold read_resume. apply (in_place_resume _ 0 (write_waiter (pipes s).[q])); [done|done| |].
  - intros [Hr Hw]. split; simpl; [lia|apply Hw].
  - apply read_in_place; try done. by apply reset_waiters_ok.
Qed.

Lemma exec_write s fd pid bytes : fds_ok s -> exec_post s (CWrite fd pid bytes).
Proof.
  intros Hs. destruct (pipe_write s fd pid bytes) as [e|r] eqn:E.
  - apply exec_idle; simpl; rewrite ?E; done.
  - destruct (pipe_write_inr s fd pid bytes r Hs E) as [Hq ->].
    apply (exec_in_place _ _ (fd_pipe s fd) [] (take (room (pipes s).[fd_pipe s fd]) bytes)); try done.
    + simpl. rewrite E. by apply write_in_place.
    + intros pi. simpl. by case_match.
    + intros pi. simpl. rewrite E. by destruct (Z.eqb_spec (fd_pipe s fd) pi) as [<-|].
Qed.

Lemma exec_write_more s q pid written rest :
  fds_ok s -> 0 <= q < MAX_PIPES -> exec_post s (CWriteMore q pid written rest).
Proof.
  intros Hs Hq. apply (exec_in_place _ _ q [] (take (room (pipes s).[q]) rest)); try done.
  - simpl. unfold write_resume. apply (in_place_resume _ (read_waiter (pipes s).[q]) 0); [done|done| |].
    { intros [Hr Hw]. split; simpl; [apply Hr|lia]. }
    set (r := read_waiter _).
    assert (room (pipes s).[q] =
      room (pipes (with_pipe s q (set_waiters (pipes s).[q] r 0))).[q]) as ->
      by (rewrite geti_with_pipe; done || apply Hs).
    apply write_in_place; [by apply reset_waiters_ok|done].
  - intros pi. simpl. by case_match.
  - intros pi. simpl. by destruct (Z.eqb_spec q pi) as [<-|].
Qed.

Lemma exec_create s : fds_ok s -> exec_post s CCreate.
Proof.
  intros Hs. split; [by apply pipe_create_fds_ok|]. split; [|done]. intros Hsl j Hj. simpl.
  destruct (pipe_create_cases s Hs) as [[-> _]|(pi & Hpi & Hu & [C|C])]; [by apply Hsl| |].
  - destruct C as (a & b & Ha & Hb & Hab & ->). simpl fst. rewrite two_fds_pipe by (done || apply Hs).
    case_decide; [by split|by apply Hsl].
  - destruct C as (_ & _ & -> & _). pose proof (ps_pipes s Hs). rewrite geti_seti by lia.
    case_decide; [by split|by apply Hsl].
Qed.

Lemma exec_close s fd : fds_ok s -> exec_post s (CClose fd).
Proof.
  intros Hs. destruct (pipe_is_pipe_fd s fd) eqn:E.
  2:{ apply exec_idle; try done. simpl. unfold pipe_close. by rewrite E. }
  pose proof (pipe_close_eq s fd E) as Ec. apply is_pipe_fd_used, used_range in E as [Hq Hu]; [|apply Hs].
  cbv zeta in Ec. fold (fd_pipe s fd) in *. set (q := fd_pipe s fd) in *.
  set (w := is_write_end _) in Ec.
  destruct (close_end_spec (pipes s).[q] w Hu) as (_ & _ & Cc & Cw). injection Cw as Cr Cw.
  pose proof (ps_pipes s Hs) as Hp.
  assert (pipes (exec s (CClose fd)) = (pipes s).[q <- close_end (pipes s).[q] w]) as Ep
    by (simpl; by rewrite Ec).
  apply (exec_in_place _ _ q [] []); try done; try (intros pi; by destruct (q =? pi)).
  constructor.
  - intros _. by apply pipe_close_fds_ok.
  - rewrite Ep, geti_seti_eq by lia. by rewrite Cc, app_nil_r.
  - intros pi Hpi Hne. rewrite Ep. apply geti_seti_ne; lia.
  - rewrite Ep, geti_seti_eq by lia. intros [H1 H2].
    assert (bytes_available (close_end (pipes s).[q] w) = bytes_available (pipes s).[q]) as Eb
      by (unfold close_end; destruct w; simpl; by case_match).
    split; by rewrite ?Cr, ?Cw, Eb.
Qed.

Lemma exec_spec s c : fds_ok s -> call_ok c -> exec_post s c.
Proof.
  intros Hs. destruct c; simpl; intros Hc.
  - by apply exec_create.
  - by apply exec_read.
  - destruct Hc. by apply exec_read_more.
  - by apply exec_write.
  - by apply exec_write_more.
  - by apply exec_close.
Qed.

Lemma run_ok s cs :
  fds_ok s -> Forall call_ok cs ->
  fds_ok (run s cs) /\ (all_sleepers_ok s -> all_sleepers_ok (run s cs)).
Proof.
  intros Hs Hcs. revert s Hs. induction Hcs as [|c cs Hc _ IH]; intros s Hs; simpl; [done|].
  destruct (exec_spec s c Hs Hc) as (H1 & H2 & _). destruct (IH _ H1) as [H3 H4]. auto.
Qed.

(** ** Properties *)

(** A pipe with a descriptor for each end: fd 200 reads, fd 201 writes. *)
Definition demo_pipe : pstate := (pipe_create init_pstate).1.

Lemma demo_pipe_ok : fds_ok demo_pipe.
Proof. apply pipe_create_fds_ok, init_fds_ok. Qed.

(** C5: over any interleaving of the calls of any tasks, blocked readers and
    writers included, a pipe is a FIFO: what was in it followed by every byte
    accepted is every byte delivered followed by what is in it.  No byte is
    lost, duplicated, reordered or moved to another pipe, and the ring never
    holds more than 4096. *)
Theorem pipe_fifo s cs pi :
  fds_ok s -> Forall call_ok cs -> Forall (fun c => c <> CCreate) cs -> 0 <= pi < MAX_PIPES ->
  contents (pipes s).[pi] ++ sent pi s cs = got pi s cs ++ contents (pipes (run s cs)).[pi] /\
  len (contents (pipes (run s cs)).[pi]) <= PIPE_BUF_SIZE.
Proof.
  intros Hs Hcs Hn Hpi. split.
  - revert s Hs. induction Hcs as [|c cs Hc _ IH]; intros s Hs; simpl; [by rewrite app_nil_r|].
    apply Forall_cons_1 in Hn as [Hn1 Hn2]. destruct (exec_spec s c Hs Hc) as (H1 & _ & H3).
    rewrite app_assoc, (H3 Hn1 pi Hpi), <- !app_assoc. f_equal. by apply IH.
  - destruct (run_ok s cs Hs Hcs) as [Hr _]. pose proof (ps_pipe _ Hr pi Hpi) as Hw.
    pose proof (pw_avail _ Hw). rewrite (len_contents _ Hw). lia.
Qed.

Definition demo_calls : list call :=
  [CWrite 201 7 [1; 2; 3]; CRead 200 8 2; CWrite 201 7 [4]; CRead 200 8 9; CRead 200 9 5;
   CWrite 201 7 [5; 6]; CReadMore 0 9 5; CClose 201; CRead 200 8 3].

Lemma pipe_fifo_witness :
  sent 0 demo_pipe demo_calls = [1; 2; 3; 4; 5; 6] /\
  contents (pipes demo_pipe).[0] ++ sent 0 demo_pipe demo_calls =
    got 0 demo_pipe demo_calls ++ contents (pipes (run demo_pipe demo_calls)).[0].
Proof.
  split; [by vm_compute|].
  apply (pipe_fifo demo_pipe demo_calls 0 demo_pipe_ok).
  - by repeat constructor.
  - by repeat constructor.
  - by split.
Defined.

Lemma fd_base i : i + PIPE_FD_BASE - PIPE_FD_BASE = i.
Proof. lia. Qed.

Lemma free_not_pipe_fd s i : fd_free s i -> pipe_is_pipe_fd s (i + PIPE_FD_BASE) = false.
Proof.
  intros [_ Hu]. apply not_true_iff_false. rewrite is_pipe_fd_used, fd_base. intros [_ H]. congruence.
Qed.

Lemma two_fds_keep s pi a b i :
  ps_wf s -> 0 <= pi < MAX_PIPES -> p_in_use (pipes s).[pi] = false ->
  fd_free s a -> fd_free s b -> a < b -> used s i ->
  used (two_fds s pi a b) i /\ (pipe_fds (two_fds s pi a b)).[i] = (pipe_fds s).[i] /\
  (pipes (two_fds s pi a b)).[pipe_idx (pipe_fds s).[i]] = (pipes s).[pipe_idx (pipe_fds s).[i]].
Proof.
  intros W Hpi Hu Ha Hb Hab Hi. destruct (used_range s i W Hi) as [Hq Hqu].
  assert (i <> a /\ i <> b) as [] by (destruct Ha, Hb, Hi; split; congruence).
  assert ((pipe_fds (two_fds s pi a b)).[i] = (pipe_fds s).[i]) as E
    by (destruct Hi; rewrite two_fds_lookup by done; by rewrite !decide_False).
  split; [|split; [done|]].
  - unfold used. rewrite E. done.
  - rewrite two_fds_pipe, decide_False by (done || congruence). done.
Qed.

(** [pipe_create] returns two descriptors that were free, for the two
    ends of an empty pipe nobody uses or waits on, and leaves every other live
    descriptor and pipe alone; it fails only without a free pipe or a second
    free descriptor, and then nothing live has changed and nothing leaks. *)
Theorem pipe_create_correct s :
  fds_ok s ->
  fds_ok (pipe_create s).1 /\
  (forall r w, (pipe_create s).2 = Some (r, w) ->
    r < w /\ pipe_is_pipe_fd s r = false /\ pipe_is_pipe_fd s w = false /\
    pipe_is_pipe_fd (pipe_create s).1 r = true /\ pipe_is_pipe_fd (pipe_create s).1 w = true /\
    exists pi, fd_pipe (pipe_create s).1 r = pi /\ fd_pipe (pipe_create s).1 w = pi /\
      p_in_use (pipes s).[pi] = false /\ (pipes (pipe_create s).1).[pi] = fresh_pipe /\
      contents fresh_pipe = [] /\
      forall fd, pipe_is_pipe_fd s fd = true ->
        pipe_is_pipe_fd (pipe_create s).1 fd = true /\ fd_pipe (pipe_create s).1 fd = fd_pipe s fd /\
        (pipes (pipe_create s).1).[fd_pipe s fd] = (pipes s).[fd_pipe s fd]) /\
  ((pipe_create s).2 = None ->
    same_live s (pipe_create s).1 /\
    ((forall pi, 0 <= pi < MAX_PIPES -> p_in_use (pipes s).[pi] = true) \/
     (forall i j, fd_free s i -> fd_free s j -> i = j))).
Proof.
  intros Hs. split; [by apply pipe_create_fds_ok|]. split.
  - intros r w E. destruct (pipe_create_cases s Hs) as [[C _]|(pi & Hpi & Hu & [C|C])].
    + by rewrite C in E.
    + destruct C as (a & b & Ha & Hb & Hab & C). rewrite C in E |- *. injection E as <- <-. simpl fst.
      pose proof (fun i => two_fds_lookup s pi a b i Hs Ha Hb Hab) as Gf.
      assert (b <> a) as Hba by lia. pose proof Ha as [Har _]. pose proof Hb as [Hbr _].
      split; [lia|]. do 2 (split; [by apply free_not_pipe_fd|]).
      split; [apply is_pipe_fd_used; rewrite fd_base; split; [done|]; by rewrite Gf, decide_True|].
      split; [apply is_pipe_fd_used; rewrite fd_base; split; [done|];
              by rewrite Gf, decide_False, decide_True|].
      exists pi. unfold fd_pipe. rewrite !fd_base.
      split; [by rewrite Gf, decide_True|]. split; [by rewrite Gf, decide_False, decide_True|].
      split; [done|]. split; [by rewrite two_fds_pipe, decide_True by (done || apply Hs)|].
      split; [done|]. intros fd Hfd%is_pipe_fd_used.
      destruct (two_fds_keep s pi a b _ Hs Hpi Hu Ha Hb Hab Hfd) as (K1 & K2 & K3).
      split; [by apply is_pipe_fd_used|]. rewrite K2. done.
    + destruct C as (_ & C & _). by rewrite C in E.
  - intros E. split; [apply (create_failed_same_live s Hs E)|].
    destruct (pipe_create_cases s Hs) as [[_ C]|(pi & Hpi & Hu & [C|C])]; [by left| |right; apply C].
    destruct C as (a & b & _ & _ & _ & C). by rewrite C in E.
Qed.

Lemma pipe_create_correct_witness :
  (pipe_create init_pstate).2 = Some (200, 201) /\ fds_ok (pipe_create init_pstate).1.
Proof.
  split; [by vm_compute|]. apply (pipe_create_correct init_pstate init_fds_ok).
Defined.

(** C6: in every state the calls of any tasks can reach from boot, live
    descriptors and pipe ends correspond one to one, a registered sleeper
    faces an empty ring (a reader) or a full one (a writer), a write that stores
    a byte wakes the registered reader, and a read of a non-empty ring wakes
    the registered writer. *)
Theorem pipe_wakeups cs pi pid :
  Forall call_ok cs -> 0 <= pi < MAX_PIPES ->
  let s := run init_pstate cs in
  fds_ok s /\ sleepers_ok (pipes s).[pi] /\
  (forall written bytes, bytes <> [] -> bytes_available (pipes s).[pi] < PIPE_BUF_SIZE ->
     0 < read_waiter (pipes s).[pi] ->
     (write_loop s pi pid written bytes).2 = [read_waiter (pipes s).[pi]]) /\
  (forall count, 0 <= count -> 0 < bytes_available (pipes s).[pi] -> 0 < write_waiter (pipes s).[pi] ->
     (read_loop s pi pid count).2 = [write_waiter (pipes s).[pi]]).
Proof.
  intros Hcs Hpi s. destruct (run_ok init_pstate cs init_fds_ok Hcs) as [Hs Hsl]. fold s in Hs, Hsl.
  split; [done|]. split; [|split].
  - apply Hsl; [|done]. intros j Hj. unfold init_pstate. cbn [pipes].
    rewrite geti_replicate by (unfold MAX_PIPES in *; lia). by split.
  - intros written bytes Hne Hr Hw.
    destruct (write_loop_spec s pi pid written bytes Hs Hpi) as (p' & _ & P). rewrite (wp_woken _ _ _ _ _ _ _ P).
    pose proof (bytes_available_le _ _ _ (ps_pipe s Hs pi Hpi) (wp_wf _ _ _ _ _ _ _ P) (wp_fifo _ _ _ _ _ _ _ P)) as E.
    rewrite (proj2 (Z.ltb_lt 0 (read_waiter _))) by done.
    rewrite (proj2 (Z.ltb_lt 0 (_ - _))); [done|]. rewrite E. unfold room, len in *.
    rewrite length_take. destruct bytes; [done|]. simpl length. lia.
  - intros count Hc Ha Hw. destruct (read_loop_spec s pi pid count Hs Hpi Hc) as (p' & _ & P).
    rewrite (rp_woken _ _ _ _ _ _ P).
    by rewrite (proj2 (Z.ltb_lt 0 (write_waiter _))), (proj2 (Z.ltb_lt 0 (bytes_available _))) by done.
Qed.

Lemma pipe_wakeups_witness :
  let s := run init_pstate [CCreate; CRead 200 8 2] in
  read_waiter (pipes s).[0] = 8 /\ (write_loop s 0 7 0 [1; 2; 3]).2 = [8].
Proof.
  split; [by vm_compute|].
  apply (pipe_wakeups [CCreate; CRead 200 8 2] 0 7); [by repeat constructor|by split|done| |];
    by vm_compute.
Defined.

(** closing the write end strands a sleeping reader.  [pipe_close] wakes
    nobody: afterwards the reader is still registered, it would return 0
    (end of file) if it ran, but no descriptor can write to its pipe, so no
    call of this file wakes it. *)
Theorem pipe_close_strands_reader s fd pid :
  fds_ok s -> pipe_is_pipe_fd s fd = true -> is_write_end (pipe_fds s).[fd - PIPE_FD_BASE] = true ->
  read_waiter (pipes s).[fd_pipe s fd] = pid -> 0 < pid ->
  sleepers_ok (pipes s).[fd_pipe s fd] ->
  read_waiter (pipes (pipe_close s fd).1).[fd_pipe s fd] = pid /\
  (forall count, (read_resume (pipe_close s fd).1 (fd_pipe s fd) pid count).1.2 = Ret []) /\
  (forall fd' w bytes r, pipe_write (pipe_close s fd).1 fd' w bytes = inr r ->
     fd_pipe (pipe_close s fd).1 fd' <> fd_pipe s fd).
Proof.
  intros Hs E Hw Hr Hpid [Hsl _]. rewrite Hr in Hsl. specialize (Hsl Hpid).
  pose proof (pipe_close_fds_ok s fd Hs) as Hs'. pose proof (pipe_close_eq s fd E) as Ec. cbv zeta in Ec.
  fold (fd_pipe s fd) in Ec. rewrite Hw in Ec. apply is_pipe_fd_used, used_range in E as [Hq Hu]; [|apply Hs].
  fold (fd_pipe s fd) in Hq, Hu. set (q := fd_pipe s fd) in *. pose proof (ps_pipes s Hs) as Hp.
  assert ((pipes (pipe_close s fd).1).[q] = close_end (pipes s).[q] true) as Eq
    by (rewrite Ec; simpl; by rewrite geti_seti_eq by lia).
  destruct (close_end_spec (pipes s).[q] true Hu) as (Ce & _ & _ & Cw). injection Cw as Cr Cw.
  assert (write_open (close_end (pipes s).[q] true) = false) as Ew 
    by (etransitivity; [apply (Ce true)|apply andb_false_r]).
  assert (bytes_available (close_end (pipes s).[q] true) = 0) as Eb
    by (rewrite <- Hsl; unfold close_end; simpl; by case_match).
  split; [by rewrite Eq, Cr|]. split.
  - intros count. unfold read_resume, read_loop. rewrite geti_with_pipe by (done || apply Hs').
    rewrite Eq. simpl. by rewrite Eb, Ew.
  - intros fd' w bytes r Hwr Hc. unfold pipe_write in Hwr.
    destruct (pipe_is_pipe_fd (pipe_close s fd).1 fd') eqn:E'; [|done].
    apply is_pipe_fd_used in E'. pose proof (fo_open _ Hs' _ E') as O. fold (fd_pipe (pipe_close s fd).1 fd') in O.
    destruct (is_write_end (pipe_fds (pipe_close s fd).1).[fd' - PIPE_FD_BASE]); [|done].
    rewrite Hc, Eq in O. cbn [end_open] in O. congruence.
Qed.

Lemma pipe_close_strands_reader_witness :
  read_waiter (pipes (pipe_close (exec demo_pipe (CRead 200 8 5)) 201).1).[0] = 8.
Proof.
  apply (pipe_close_strands_reader (exec demo_pipe (CRead 200 8 5)) 201 8); try by vm_compute.
  - by apply (exec_spec demo_pipe (CRead 200 8 5) demo_pipe_ok).
Defined.
