(* ===== verification/Futex.v ===== *)
(** * Futexes: kernel/exec/futex.c and the word accessors of uaccess.h

    A waiter that blocks is cut at [task_block()]; nothing of
    [futex_dispatch] runs after it but [return 0].  The calls of
    [task_unblock] are returned as the list of the tasks woken.  User memory is
    the argument [mem], the value of the word at an address. *)

From stdpp Require Import sets.
From S2P Require Import Prelude.

(** ** kernel/include/lestra/uaccess.h *)

Definition access_ok (addr size : Z) : bool :=
  if addr =? 0 then false
  else if 0xFFFF800000000000 <=? addr then false
  else if u64 (addr + size) <? addr then false
  else if 0x00007FFFFFFFFFFF <? u64 (addr + size) then false
  else true.

Definition get_user (mem : Z -> Z) (up : Z) : option Z :=
  if access_ok up 4 then Some (mem up) else None.

(** ** State *)

Definition FUTEX_WAIT : Z := 0.
Definition FUTEX_WAKE : Z := 1.
Definition FUTEX_WAIT_BITSET : Z := 9.
Definition FUTEX_WAKE_BITSET : Z := 10.
Definition FUTEX_PRIVATE_FLAG : Z := 128.
Definition FUTEX_CLOCK_REALTIME : Z := 256.
Definition MAX_FUTEX_WAITERS : Z := 256.
Definition FUTEX_HASH_BUCKETS : Z := 64.

Record futex_waiter := mkWaiter {
  in_use : bool;
  uaddr : Z;
  task : Z;
  expected_val : Z;
  bitset : Z;
  w_pid : Z;
}.

Definition zero_waiter : futex_waiter := mkWaiter false 0 0 0 0 0.
#[export] Instance futex_waiter_inhabited : Inhabited futex_waiter := populate zero_waiter.

Record fstate := mkFs { futex_waiters : list futex_waiter; futex_buckets : list (list Z) }.

Definition init_fstate : fstate :=
  mkFs (replicate (Z.to_nat MAX_FUTEX_WAITERS) zero_waiter)
       (replicate (Z.to_nat FUTEX_HASH_BUCKETS) (replicate 8 0)).

Definition release (w : futex_waiter) : futex_waiter :=
  mkWaiter false (uaddr w) (task w) (expected_val w) (bitset w) (w_pid w).

(** ** Operations *)

Definition futex_hash (uaddr : Z) : Z :=
  let v := Z.shiftr uaddr 12 in
  let v := Z.lxor v (Z.shiftr v 16) in
  let v := Z.lxor v (Z.shiftr v 8) in
  v mod FUTEX_HASH_BUCKETS.

Definition alloc_waiter (s : fstate) : option Z :=
  find_from (fun i => negb (in_use (futex_waiters s).[i])) (Z.to_nat MAX_FUTEX_WAITERS) 0.

Definition slot (s : fstate) (bucket i : Z) : Z := (futex_buckets s).[bucket].[i].

Definition set_slot (s : fstate) (bucket i v : Z) : fstate :=
  mkFs (futex_waiters s) (futex_buckets s).[bucket <- (futex_buckets s).[bucket].[i <- v]].

Definition bucket_add (s : fstate) (bucket idx : Z) : fstate :=
  match find_from (fun i => slot s bucket i =? 0) 8 0 with
  | Some i => set_slot s bucket i (idx + 1)
  | None => s
  end.

Definition bucket_remove (s : fstate) (bucket idx : Z) : fstate :=
  let target := idx + 1 in
  match find_from (fun i => slot s bucket i =? target) 8 0 with
  | Some i => set_slot s bucket i 0
  | None => s
  end.

Definition set_waiter (s : fstate) (i : Z) (w : futex_waiter) : fstate :=
  mkFs (futex_waiters s).[i <- w] (futex_buckets s).

Inductive fresult :=
| FRet (v : Z)
| FBlock.       (* in task_block(), then return 0 *)

(** The cases FUTEX_WAIT and FUTEX_WAIT_BITSET, for the task [cur] of pid [pid]. *)
Definition futex_wait (s : fstate) (mem : Z -> Z) (cur pid addr val bits : Z) : fstate * fresult :=
  match get_user mem addr with
  | None => (s, FRet (-14))
  | Some kuval =>
      if negb (kuval =? val) then (s, FRet (-11))
      else
        match alloc_waiter s with
        | None => (s, FRet (-12))
        | Some i =>
            let s := set_waiter s i (mkWaiter true addr cur val bits pid) in
            (bucket_add s (futex_hash addr) i, FBlock)
        end
  end.

(** One wake-up of the loops: [in_use = 0] and out of the bucket. *)
Definition wake_one (bucket : Z) (s : fstate) (idx : Z) : fstate :=
  bucket_remove (set_waiter s idx (release (futex_waiters s).[idx])) bucket idx.

(** The loops of FUTEX_WAKE and FUTEX_WAKE_BITSET; [m] is the condition on the
    waiter.  [i--] undoes the loop's [i++], so the slot is looked at again. *)
Fixpoint wake_loop (fuel : nat) (s : fstate) (bucket : Z) (m : futex_waiter -> bool)
    (limit i woken : Z) (tasks : list Z) : option (fstate * Z * list Z) :=
  match fuel with
  | O => None
  | S fuel =>
      if (i <? 8) && (woken <? limit) then
        let idx := slot s bucket i in
        if idx =? 0 then wake_loop fuel s bucket m limit (i + 1) woken tasks
        else
          let idx := idx - 1 in
          let w := (futex_waiters s).[idx] in
          if m w then
            wake_loop fuel (wake_one bucket s idx) bucket m limit i (woken + 1) (tasks ++ [task w])
          else wake_loop fuel s bucket m limit (i + 1) woken tasks
      else Some (s, woken, tasks)
  end.

Definition wakes (addr : Z) (w : futex_waiter) : bool := in_use w && (uaddr w =? addr).
Definition wakes_bitset (addr val3 : Z) (w : futex_waiter) : bool :=
  in_use w && (uaddr w =? addr) && negb (Z.land (bitset w) val3 =? 0).

(** Enough for any bucket: [wake_loop_spec]. *)
Definition WAKE_FUEL : nat := 17.

Definition futex_wake (s : fstate) (m : futex_waiter -> bool) (addr val : Z)
  : option (fstate * fresult * list Z) :=
  match wake_loop WAKE_FUEL s (futex_hash addr) m (s32 val) 0 0 [] with
  | Some (s, woken, tasks) => Some (s, FRet woken, tasks)
  | None => None
  end.

(** [uaddr2] and [timeout] are ignored by the code. *)
Definition futex_dispatch (s : fstate) (mem : Z -> Z) (cur pid addr op val val3 : Z)
  : option (fstate * fresult * list Z) :=
  if addr =? 0 then Some (s, FRet (-14), [])
  else if negb (access_ok addr 4) then Some (s, FRet (-14), [])
  else
    let op_clean := Z.land op (Z.lnot FUTEX_PRIVATE_FLAG) in
    let op_clean := Z.land op_clean (Z.lnot FUTEX_CLOCK_REALTIME) in
    if op_clean =? FUTEX_WAIT then
      let '(s, r) := futex_wait s mem cur pid addr val 0xFFFFFFFF in Some (s, r, [])
    else if op_clean =? FUTEX_WAIT_BITSET then
      let '(s, r) := futex_wait s mem cur pid addr val (if val3 =? 0 then 0xFFFFFFFF else val3) in
      Some (s, r, [])
    else if op_clean =? FUTEX_WAKE then futex_wake s (wakes addr) addr val
    else if op_clean =? FUTEX_WAKE_BITSET then futex_wake s (wakes_bitset addr val3) addr val
    else Some (s, FRet (-38), []).

(** ** Invariant

    A bucket holds only registered waiters that hash to it, each once. *)

Definition in_bucket (b i : Z) : Prop := 0 <= b < FUTEX_HASH_BUCKETS /\ 0 <= i < 8.

Record fs_shape (s : fstate) : Prop := {
  fs_waiters : len (futex_waiters s) = MAX_FUTEX_WAITERS;
  fs_buckets : len (futex_buckets s) = FUTEX_HASH_BUCKETS;
  fs_bucket : forall b, 0 <= b < FUTEX_HASH_BUCKETS -> len (futex_buckets s).[b] = 8;
}.

Record fs_ok (s : fstate) : Prop := {
  fs_shaped :> fs_shape s;
  fs_slot : forall b i, in_bucket b i -> slot s b i <> 0 ->
    1 <= slot s b i <= MAX_FUTEX_WAITERS /\
    in_use (futex_waiters s).[slot s b i - 1] = true /\
    futex_hash (uaddr (futex_waiters s).[slot s b i - 1]) = b;
  fs_inj : forall b i j, in_bucket b i -> in_bucket b j -> slot s b i <> 0 ->
    slot s b i = slot s b j -> i = j;
}.

Lemma slot_set_slot s b i v b' j :
  fs_shape s -> in_bucket b i -> in_bucket b' j ->
  slot (set_slot s b i v) b' j = if decide (b' = b /\ j = i) then v else slot s b' j.
Proof.
  intros [Hw Hb Hl] [Hbr Hir] [Hbr' Hjr]. unfold slot, set_slot. simpl.
  rewrite geti_seti by lia. destruct (decide (b = b')) as [->|Hne].
  - rewrite geti_seti by (rewrite ?Hl; lia). repeat case_decide; naive_solver.
  - rewrite decide_False by naive_solver. done.
Qed.

Lemma set_slot_shape s b i v : fs_shape s -> in_bucket b i -> fs_shape (set_slot s b i v).
Proof.
  intros [Hw Hb Hl] [Hbr Hir]. constructor; simpl; autorewrite with arr; try done.
  intros b' Hb'. rewrite geti_seti by lia. case_decide; autorewrite with arr; auto.
Qed.

Lemma set_waiter_shape s i w : fs_shape s -> fs_shape (set_waiter s i w).
Proof. intros [Hw Hb Hl]. constructor; simpl; autorewrite with arr; done. Qed.

Lemma geti_set_waiter s i w j :
  fs_shape s -> 0 <= i < MAX_FUTEX_WAITERS -> 0 <= j ->
  (futex_waiters (set_waiter s i w)).[j] = if decide (i = j) then w else (futex_waiters s).[j].
Proof. intros [Hw _ _] Hi Hj. simpl. apply geti_seti; lia. Qed.

Lemma futex_hash_range a : 0 <= futex_hash a < FUTEX_HASH_BUCKETS.
Proof. by apply Z.mod_pos_bound. Qed.

Lemma init_fs_ok : fs_ok init_fstate.
Proof.
  assert (forall b, 0 <= b < FUTEX_HASH_BUCKETS -> (futex_buckets init_fstate).[b] = replicate 8 0) as Hb.
  { intros b Hb. apply geti_replicate. unfold FUTEX_HASH_BUCKETS in *. lia. }
  assert (forall b i, in_bucket b i -> slot init_fstate b i = 0) as Hz.
  { intros b i [Hbr Hi]. unfold slot. rewrite Hb by done. apply geti_replicate. lia. }
  constructor.
  - constructor; try done. intros b Hbr. by rewrite Hb.
  - intros b i Hr. by rewrite Hz.
  - intros b i j Hr. by rewrite Hz.
Qed.

(** ** Waking *)

(** The waiter at slot [i] of a bucket leaves it. *)
Record woken_at (s s' : fstate) (b i : Z) : Prop := {
  wa_shape : fs_shape s';
  wa_slot : forall b' j, in_bucket b' j ->
    slot s' b' j = if decide (b' = b /\ j = i) then 0 else slot s b' j;
  wa_waiter : forall k, 0 <= k ->
    (futex_waiters s').[k] =
      if decide (slot s b i - 1 = k) then release (futex_waiters s).[k] else (futex_waiters s).[k];
}.

Lemma wake_one_spec s b i :
  fs_ok s -> in_bucket b i -> slot s b i <> 0 ->
  woken_at s (wake_one b s (slot s b i - 1)) b i.
Proof.
  intros Hs Hi Hne. destruct (fs_slot s Hs b i Hi Hne) as (Hr & _ & _).
  set (idx := slot s b i - 1) in *. set (s1 := set_waiter s idx (release (futex_waiters s).[idx])).
  assert (fs_shape s1) as Hs1 by apply set_waiter_shape, Hs.
  unfold wake_one. fold s1. unfold bucket_remove.
  assert (find_from (fun k => slot s1 b k =? idx + 1) 8 0 = Some i) as ->.
  { apply find_from_Some. destruct Hi as [Hb Hi]. split; [lia|].
    change (slot s1) with (slot s). split; [subst idx; lia|]. intros k Hk.
    apply Z.eqb_neq. intros E. assert (i = k); [|lia].
    apply (fs_inj s Hs b); try done; [split; [done|lia]|subst idx; lia]. }
  constructor.
  - by apply set_slot_shape.
  - intros b' j Hj. change (slot s b' j) with (slot s1 b' j). by apply slot_set_slot.
  - intros k Hk. change (futex_waiters (set_slot s1 b i 0)) with (futex_waiters s1). unfold s1.
    rewrite geti_set_waiter by (try apply Hs; lia). fold idx. case_decide as E; [by rewrite E|done].
Qed.

Lemma woken_at_ok s s' b i : fs_ok s -> in_bucket b i -> slot s b i <> 0 -> woken_at s s' b i -> fs_ok s'.
Proof.
  intros Hs Hi Hne [Sh Sl Wt]. constructor; [done| |].
  - intros b' j Hj. rewrite Sl by done. case_decide as Hd; [done|]. intros Hne'.
    destruct (fs_slot s Hs b' j Hj Hne') as (Hr & Hu & Hh). rewrite Wt by lia.
    assert (slot s b i - 1 <> slot s b' j - 1) as Hd'.
    { intros E. assert (slot s b i = slot s b' j) as E' by lia. apply Hd.
      destruct (fs_slot s Hs b i Hi Hne) as (_ & _ & Hb). rewrite E' in Hb.
      assert (b' = b) as -> by congruence. split; [done|]. symmetry. by apply (fs_inj s Hs b). }
    by rewrite decide_False.
  - intros b' j k Hj Hk. rewrite !Sl by done.
    repeat case_decide; intros Hn E; try congruence. by apply (fs_inj s Hs b').
Qed.

(** The waiters of bucket [b] from slot [i] on that [m] selects, in order. *)
Definition hits (s : fstate) (b : Z) (m : futex_waiter -> bool) (i : Z) : list Z :=
  filter (fun k => m (futex_waiters s).[k] = true)
    (Z.pred <$> filter (fun e => e <> 0) (slot s b <$> seqZ i (8 - i))).

Lemma hits_step s b m i :
  i < 8 ->
  hits s b m i =
    (if decide (slot s b i <> 0 /\ m (futex_waiters s).[slot s b i - 1] = true)
     then [slot s b i - 1] else []) ++ hits s b m (i + 1).
Proof.
  intros Hi. unfold hits. replace (8 - i) with (Z.succ (8 - (i + 1))) by lia.
  rewrite seqZ_cons by lia. replace (Z.succ i) with (i + 1) by lia.
  replace (Z.pred (Z.succ (8 - (i + 1)))) with (8 - (i + 1)) by lia.
  rewrite fmap_cons, filter_cons. destruct (decide (slot s b i <> 0)) as [Hne|Hz].
  - rewrite fmap_cons, filter_cons. replace (Z.pred (slot s b i)) with (slot s b i - 1) by lia.
    repeat case_decide; naive_solver.
  - rewrite decide_False by naive_solver. done.
Qed.

Lemma hits_end s b m : hits s b m 8 = [].
Proof. done. Qed.

Lemma hits_ext s s' b m i :
  (forall j, i <= j < 8 -> slot s' b j = slot s b j /\
     (slot s b j <> 0 -> m (futex_waiters s').[slot s b j - 1] = m (futex_waiters s).[slot s b j - 1])) ->
  hits s' b m i = hits s b m i.
Proof.
  remember (Z.to_nat (8 - i)) as n eqn:En. revert i En. induction n as [|n IH]; intros i En H.
  { unfold hits. by replace (seqZ i (8 - i)) with (@nil Z) by (symmetry; apply seqZ_nil; lia). }
  rewrite (hits_step s'), (hits_step s) by lia. rewrite IH by (try lia; intros; apply H; lia).
  destruct (H i ltac:(lia)) as [-> Hm].
  destruct (decide (slot s b i = 0)) as [Hz|Hne]; [by rewrite !decide_False by tauto|].
  by rewrite Hm.
Qed.

Lemma hits_woken s s' b i m :
  fs_ok s -> in_bucket b i -> slot s b i <> 0 -> woken_at s s' b i ->
  hits s' b m i = hits s b m (i + 1).
Proof.
  intros Hs Hi Hne [_ Sl Wt]. rewrite hits_step by (destruct Hi; lia).
  assert (slot s' b i = 0) as Hz by (rewrite Sl by done; by rewrite decide_True).
  rewrite decide_False by (intros [? _]; done). apply hits_ext. intros j Hj.
  assert (in_bucket b j) as Hj' by (destruct Hi; split; [done|lia]).
  rewrite Sl by done. rewrite decide_False by lia. split; [done|]. intros Hnj.
  destruct (fs_slot s Hs b j Hj' Hnj) as (Hr & _). rewrite Wt by lia.
  rewrite decide_False; [done|]. intros E. assert (i = j); [|lia]. apply (fs_inj s Hs b); try done. lia.
Qed.

Lemma hits_elem s b m i k :
  k ∈ hits s b m i ->
  exists j, i <= j < 8 /\ slot s b j <> 0 /\ k = slot s b j - 1 /\ m (futex_waiters s).[k] = true.
Proof.
  unfold hits. rewrite list_elem_of_filter, list_elem_of_fmap. intros (Hm & e & -> & He).
  apply list_elem_of_filter in He as [Hne He]. apply list_elem_of_fmap in He as (j & -> & Hj).
  apply elem_of_seqZ in Hj. exists j. split; [lia|]. split; [done|]. by split; [lia|].
Qed.

(** The state after the waiters [ks] were woken. *)
Record woke (s s' : fstate) (ks : list Z) : Prop := {
  wk_ok : fs_ok s';
  wk_waiter : forall k, 0 <= k ->
    (futex_waiters s').[k] = if decide (k ∈ ks) then release (futex_waiters s).[k] else (futex_waiters s).[k];
  wk_slot : forall b j, in_bucket b j ->
    slot s' b j = if decide (slot s b j <> 0 /\ slot s b j - 1 ∈ ks) then 0 else slot s b j;
}.

Lemma woke_nil s : fs_ok s -> woke s s [].
Proof.
  intros Hs. constructor; [done|by intros|]. intros b j Hj. rewrite decide_False; [done|].
  intros [_ H]. by apply elem_of_nil in H.
Qed.

Lemma woke_cons s s1 s' b i ks :
  fs_ok s -> in_bucket b i -> slot s b i <> 0 -> woken_at s s1 b i -> woke s1 s' ks ->
  woke s s' (slot s b i - 1 :: ks).
Proof.
  intros Hs Hi Hne [_ Sl Wt] [Ok Wk Sk]. constructor; [done| |].
  - intros k Hk. rewrite Wk, Wt by done. destruct (decide (slot s b i - 1 = k)) as [E|E].
    + rewrite (decide_True (P := k ∈ _ :: _)) by (subst k; by left). by case_decide.
    + apply decide_ext. rewrite elem_of_cons. split; [by right|]. by intros [?|?].
  - intros b' j Hj. rewrite Sk, Sl by done.
    destruct (decide (b' = b /\ j = i)) as [[-> ->]|Hd].
    { rewrite decide_False by (intros [? _]; done). rewrite decide_True; [done|]. split; [done|]. by left. }
    destruct (decide (slot s b' j = 0)) as [Hz|Hnz]; [by rewrite !decide_False by (intros [? _]; done)|].
    assert (slot s b' j - 1 <> slot s b i - 1) as Hx.
    { intros E. assert (slot s b i = slot s b' j) as E' by lia. apply Hd.
      destruct (fs_slot s Hs b i Hi Hne) as (_ & _ & Hb). rewrite E' in Hb.
      destruct (fs_slot s Hs b' j Hj Hnz) as (_ & _ & Hb').
      assert (b' = b) as -> by congruence. split; [done|]. symmetry. by apply (fs_inj s Hs b). }
    apply decide_ext. rewrite elem_of_cons. split; [intros [? ?]; by auto|]. by intros [? [?|?]].
Qed.

Definition wake_post (s : fstate) (ks : list Z) (woken : Z) (tasks : list Z)
    (r : option (fstate * Z * list Z)) : Prop :=
  exists s', woke s s' ks /\
    r = Some (s', woken + len ks, tasks ++ ((fun k => task (futex_waiters s).[k]) <$> ks)).

Lemma wake_loop_spec fuel s b m limit i woken tasks :
  fs_ok s -> 0 <= b < FUTEX_HASH_BUCKETS -> 0 <= i <= 8 ->
  (Z.to_nat (8 - i) + length (hits s b m i) < fuel)%nat ->
  wake_post s (take (Z.to_nat (limit - woken)) (hits s b m i)) woken tasks
    (wake_loop fuel s b m limit i woken tasks).
Proof.
  revert s i woken tasks. induction fuel as [|fuel IH]; intros s i woken tasks Hs Hb Hi Hf; [lia|].
  assert (forall r, r = Some (s, woken, tasks) -> wake_post s [] woken tasks r) as Hend.
  { intros r ->. exists s. split; [by apply woke_nil|]. rewrite app_nil_r. unfold len. simpl.
    by rewrite Z.add_0_r. }
  simpl. destruct (Z.ltb_spec i 8) as [H8|H8]; simpl.
  2:{ replace i with 8 by lia. rewrite hits_end, take_nil. by apply Hend. }
  destruct (Z.ltb_spec woken limit) as [Hl|Hl]; simpl.
  2:{ replace (Z.to_nat (limit - woken)) with 0%nat by lia. by apply Hend. }
  assert (in_bucket b i) as Hbi by (split; [done|lia]).
  rewrite hits_step in Hf |- * by lia. destruct (Z.eqb_spec (slot s b i) 0) as [Hz|Hne].
  { rewrite decide_False in Hf |- * by naive_solver. apply IH; [done|done|lia|]. simpl in Hf. lia. }
  destruct (m (futex_waiters s).[slot s b i - 1]) eqn:Em.
  2:{ rewrite decide_False in Hf |- * by (intros [_ ?]; congruence). apply IH; [done|done|lia|]. simpl in Hf. lia. }
  rewrite decide_True in Hf |- * by done. pose proof (wake_one_spec s b i Hs Hbi Hne) as W.
  set (s1 := wake_one _ _ _) in *. pose proof (woken_at_ok s s1 b i Hs Hbi Hne W) as Hs1.
  destruct (IH s1 i (woken + 1) (tasks ++ [task (futex_waiters s).[slot s b i - 1]]) Hs1 Hb Hi)
    as (s' & Wk & E).
  { rewrite (hits_woken s s1 b i m) by done. rewrite length_app in Hf. simpl in Hf. lia. }
  rewrite (hits_woken s s1 b i m) in Wk, E by done. rewrite E.
  replace (Z.to_nat (limit - woken)) with (S (Z.to_nat (limit - (woken + 1)))) by lia. simpl.
  exists s'. split; [by apply (woke_cons s s1)|]. f_equal. f_equal; [f_equal|].
  - unfold len. simpl. lia.
  - rewrite fmap_cons, <- app_assoc. simpl. do 2 f_equal. apply list_fmap_ext. intros n0 k Hk.
    apply list_elem_of_lookup_2 in Hk. rewrite (wa_waiter _ _ _ _ W); [by case_decide|].
    apply elem_of_take in Hk as (n & Hk & _). apply list_elem_of_lookup_2, hits_elem in Hk as (j & Hj & Hnj & Ek & _).
    destruct (fs_slot s Hs b j) as (Hr & _); [split; [done|lia]|done|lia].
Qed.

Lemma hits_length s b m i : (length (hits s b m i) <= Z.to_nat (8 - i))%nat.
Proof.
  unfold hits. etransitivity; [apply length_filter|]. rewrite length_fmap.
  etransitivity; [apply length_filter|]. by rewrite length_fmap, length_seqZ.
Qed.

Lemma futex_wake_spec s m addr val :
  fs_ok s ->
  let ks := take (Z.to_nat (s32 val)) (hits s (futex_hash addr) m 0) in
  exists s', woke s s' ks /\
    futex_wake s m addr val = Some (s', FRet (len ks), (fun k => task (futex_waiters s).[k]) <$> ks).
Proof.
  intros Hs ks. pose proof (hits_length s (futex_hash addr) m 0).
  destruct (wake_loop_spec WAKE_FUEL s (futex_hash addr) m (s32 val) 0 0 []) as (s' & W & E);
    [done|apply futex_hash_range|lia|unfold WAKE_FUEL; lia|].
  rewrite Z.sub_0_r in W, E. exists s'. split; [done|]. unfold futex_wake. by rewrite E.
Qed.

(** ** Waiting *)

Definition bucket_full (s : fstate) (b : Z) : Prop := forall i, 0 <= i < 8 -> slot s b i <> 0.

Definition new_waiter (s : fstate) (i cur pid addr val bits : Z) : fstate :=
  set_waiter s i (mkWaiter true addr cur val bits pid).

Record waits (s s' : fstate) (i cur pid addr val bits : Z) : Prop := {
  wt_ok : fs_ok s';
  wt_new : 0 <= i < MAX_FUTEX_WAITERS /\ in_use (futex_waiters s).[i] = false;
  wt_waiter : forall k, 0 <= k -> (futex_waiters s').[k] =
    if decide (i = k) then mkWaiter true addr cur val bits pid else (futex_waiters s).[k];
  wt_slot : (bucket_full s (futex_hash addr) /\ forall b j, slot s' b j = slot s b j) \/
    exists j, 0 <= j < 8 /\ slot s (futex_hash addr) j = 0 /\
      forall b k, in_bucket b k ->
        slot s' b k = if decide (b = futex_hash addr /\ k = j) then i + 1 else slot s b k;
}.

Lemma free_not_queued s i b j :
  fs_ok s -> in_bucket b j -> in_use (futex_waiters s).[i] = false -> 0 <= i -> slot s b j <> i + 1.
Proof.
  intros Hs Hj Hu Hi E. destruct (fs_slot s Hs b j Hj) as (_ & U & _); [lia|].
  rewrite E, Z.add_simpl_r in U. congruence.
Qed.

Lemma new_waiter_ok s i cur pid addr val bits :
  fs_ok s -> 0 <= i < MAX_FUTEX_WAITERS -> in_use (futex_waiters s).[i] = false ->
  fs_ok (new_waiter s i cur pid addr val bits).
Proof.
  intros Hs Hi Hu. constructor.
  - apply set_waiter_shape, Hs.
  - intros b j Hj Hne. change (slot (new_waiter _ _ _ _ _ _ _)) with (slot s) in *.
    pose proof (free_not_queued s i b j Hs Hj Hu) as Hq.
    destruct (fs_slot s Hs b j Hj Hne) as (Hr & HU & Hh). split; [done|].
    unfold new_waiter. rewrite geti_set_waiter by (try apply Hs; lia). by rewrite decide_False by lia.
  - apply (fs_inj s Hs).
Qed.

Lemma futex_wait_blocks s i cur pid addr val bits :
  fs_ok s -> 0 <= i < MAX_FUTEX_WAITERS -> in_use (futex_waiters s).[i] = false ->
  waits s (bucket_add (new_waiter s i cur pid addr val bits) (futex_hash addr) i) i cur pid addr val bits.
Proof.
  intros Hs Hi Hu. set (s1 := new_waiter s i cur pid addr val bits). set (b0 := futex_hash addr).
  pose proof (new_waiter_ok s i cur pid addr val bits Hs Hi Hu) as Hs1. fold s1 in Hs1.
  assert (forall k, 0 <= k -> (futex_waiters s1).[k] =
    if decide (i = k) then mkWaiter true addr cur val bits pid else (futex_waiters s).[k]) as Hw
    by (intros; apply geti_set_waiter; [apply Hs|lia..]).
  unfold bucket_add. destruct (find_from _ _ _) as [j|] eqn:E.
  - apply find_from_Some in E as (Hj & Hz%Z.eqb_eq & _). change (slot s1) with (slot s) in Hz.
    assert (in_bucket b0 j) as Hbj by (split; [apply futex_hash_range|lia]).
    assert (forall b k, in_bucket b k -> slot (set_slot s1 b0 j (i + 1)) b k =
      if decide (b = b0 /\ k = j) then i + 1 else slot s b k) as Hsl
      by (intros; change (slot s) with (slot s1); apply slot_set_slot; try done; apply Hs1).
    constructor; [|done|done|right; exists j; split; [lia|done]]. constructor.
    + apply set_slot_shape; [apply Hs1|done].
    + intros b k Hk. rewrite Hsl by done. change (futex_waiters (set_slot s1 b0 j (i + 1))) with (futex_waiters s1).
      destruct (decide (b = b0 /\ k = j)) as [[-> ->]|Hd].
      * intros _. rewrite Z.add_simpl_r, Hw, decide_True by (done || lia). split; [lia|done].
      * by apply (fs_slot s1 Hs1).
    + intros b k l Hk Hl. rewrite !Hsl by done.
      pose proof (free_not_queued s i b k Hs Hk Hu). pose proof (free_not_queued s i b l Hs Hl Hu).
      repeat case_decide; intros; try lia. by apply (fs_inj s Hs b).
  - constructor; [done|done|done|left]. split; [|done]. intros k Hk.
    pose proof (proj1 (find_from_None _ _ _) E k ltac:(lia)) as Hz. by apply Z.eqb_neq in Hz.
Qed.

Lemma futex_wait_cases s mem cur pid addr val bits :
  fs_ok s ->
  (get_user mem addr = None /\ futex_wait s mem cur pid addr val bits = (s, FRet (-14))) \/
  (exists v, get_user mem addr = Some v /\ v <> val /\
     futex_wait s mem cur pid addr val bits = (s, FRet (-11))) \/
  (get_user mem addr = Some val /\
   (forall i, 0 <= i < MAX_FUTEX_WAITERS -> in_use (futex_waiters s).[i] = true) /\
   futex_wait s mem cur pid addr val bits = (s, FRet (-12))) \/
  (get_user mem addr = Some val /\
   exists i s', waits s s' i cur pid addr val bits /\
     futex_wait s mem cur pid addr val bits = (s', FBlock)).
Proof.
  intros Hs. unfold futex_wait. destruct (get_user mem addr) as [v|]; [|by left].
  right. destruct (Z.eqb_spec v val) as [->|Hne]; simpl.
  2:{ left. by exists v. }
  right. destruct (alloc_waiter s) as [i|] eqn:E.
  - right. split; [done|]. apply find_from_Some in E as (Hi & Hu%negb_true_iff & _).
    change (0 + Z.of_nat (Z.to_nat MAX_FUTEX_WAITERS)) with MAX_FUTEX_WAITERS in Hi.
    exists i. eexists. split; [|done]. by apply futex_wait_blocks.
  - left. split; [done|]. split; [|done]. intros i Hi.
    pose proof (proj1 (find_from_None _ _ _) E i ltac:(done)) as Hz. by apply negb_false_iff in Hz.
Qed.

Lemma find_from_le p n i j : find_from p n i = Some j -> forall k, i <= k < i + Z.of_nat n -> p k = true -> j <= k.
Proof.
  rewrite find_from_Some. intros (Hj & _ & H) k Hk Hp. destruct (decide (j <= k)); [done|].
  rewrite H in Hp by lia. done.
Qed.

(** A waiter that got a slot is among those a wake-up of its word looks at. *)
Lemma waits_hit s s' i cur pid addr val bits m :
  fs_ok s -> waits s s' i cur pid addr val bits -> ~ bucket_full s (futex_hash addr) ->
  m (mkWaiter true addr cur val bits pid) = true -> i ∈ hits s' (futex_hash addr) m 0.
Proof.
  intros Hs [Ok [Hi _] Wt [[Hf _]|(j & Hj & _ & Sl)]] Hn Hm; [done|].
  set (b := futex_hash addr) in *. assert (in_bucket b j) as Hbj by (split; [apply futex_hash_range|lia]).
  unfold hits. apply list_elem_of_filter. rewrite Wt, decide_True by (done || lia). split; [done|].
  apply list_elem_of_fmap. exists (i + 1). split; [lia|]. apply list_elem_of_filter. split; [lia|].
  apply list_elem_of_fmap. exists j. rewrite elem_of_seqZ. split; [|lia].
  rewrite Sl by done. by rewrite decide_True.
Qed.

Definition op_clean (op : Z) : Z :=
  Z.land (Z.land op (Z.lnot FUTEX_PRIVATE_FLAG)) (Z.lnot FUTEX_CLOCK_REALTIME).

Lemma access_ok_nonzero a n : access_ok a n = true -> (a =? 0) = false.
Proof. unfold access_ok. by destruct (a =? 0). Qed.

Lemma dispatch_wake s mem cur pid addr op val val3 :
  access_ok addr 4 = true -> op_clean op = FUTEX_WAKE ->
  futex_dispatch s mem cur pid addr op val val3 = futex_wake s (wakes addr) addr val.
Proof.
  intros Ha Ho. unfold futex_dispatch. rewrite (access_ok_nonzero _ _ Ha), Ha. simpl.
  fold (op_clean op). by rewrite Ho.
Qed.

Lemma dispatch_wait s mem cur pid addr op val val3 :
  access_ok addr 4 = true -> op_clean op = FUTEX_WAIT ->
  futex_dispatch s mem cur pid addr op val val3 =
    (let '(s, r) := futex_wait s mem cur pid addr val 0xFFFFFFFF in Some (s, r, [])).
Proof.
  intros Ha Ho. unfold futex_dispatch. rewrite (access_ok_nonzero _ _ Ha), Ha. simpl.
  fold (op_clean op). by rewrite Ho.
Qed.

(** The state after any call, by the kind of change it makes. *)
Lemma dispatch_cases s mem cur pid addr op val val3 :
  fs_ok s ->
  exists s' r tasks, futex_dispatch s mem cur pid addr op val val3 = Some (s', r, tasks) /\
    (s' = s \/ (exists i bits, waits s s' i cur pid addr val bits) \/
     (exists m n, woke s s' (take n (hits s (futex_hash addr) m 0)))).
Proof.
  intros Hs. unfold futex_dispatch. fold (op_clean op).
  destruct (addr =? 0); [by eauto 10|]. destruct (access_ok addr 4); [|by eauto 10]. simpl.
  assert (forall bits, exists s' r, futex_wait s mem cur pid addr val bits = (s', r) /\
    (s' = s \/ exists i, waits s s' i cur pid addr val bits)) as Hw.
  { intros bits. destruct (futex_wait_cases s mem cur pid addr val bits Hs)
      as [[_ ->]|[(v & _ & _ & ->)|[(_ & _ & ->)|(_ & i & s' & W & ->)]]]; eauto 10. }
  assert (forall m, exists s' r tasks, futex_wake s m addr val = Some (s', r, tasks) /\
    exists n, woke s s' (take n (hits s (futex_hash addr) m 0))) as Hk.
  { intros m. destruct (futex_wake_spec s m addr val Hs) as (s' & W & ->). eauto 10. }
  destruct (_ =? FUTEX_WAIT).
  { destruct (Hw 0xFFFFFFFF) as (s' & r & -> & H). do 3 eexists. split; [done|]. naive_solver. }
  destruct (_ =? FUTEX_WAIT_BITSET).
  { destruct (Hw (if val3 =? 0 then 0xFFFFFFFF else val3)) as (s' & r & -> & H).
    do 3 eexists. split; [done|]. naive_solver. }
  destruct (_ =? FUTEX_WAKE).
  { destruct (Hk (wakes addr)) as (s' & r & ts & -> & n & H). do 3 eexists. split; [done|]. eauto. }
  destruct (_ =? FUTEX_WAKE_BITSET); [|by eauto 10].
  destruct (Hk (wakes_bitset addr val3)) as (s' & r & ts & -> & n & H). do 3 eexists. split; [done|]. eauto.
Qed.

Lemma dispatch_ok s mem cur pid addr op val val3 s' r tasks :
  fs_ok s -> futex_dispatch s mem cur pid addr op val val3 = Some (s', r, tasks) -> fs_ok s'.
Proof.
  intros Hs E. destruct (dispatch_cases s mem cur pid addr op val val3 Hs) as (s1 & r1 & t1 & E1 & C).
  rewrite E1 in E. injection E as -> -> ->.
  destruct C as [->|[(i & bits & W)|(m & n & W)]]; [done|apply W|apply W].
Qed.

(** ** Properties *)

(** C7: FUTEX_WAKE terminates, wakes the first [val] (as a signed int) waiters
    of the word in the order of their slots, returns how many it woke, frees
    those waiters and their slots, and changes no other waiter or slot. *)
Theorem futex_wake_correct s mem cur pid addr op val val3 :
  fs_ok s -> access_ok addr 4 = true -> op_clean op = FUTEX_WAKE ->
  let ks := take (Z.to_nat (s32 val)) (hits s (futex_hash addr) (wakes addr) 0) in
  exists s', futex_dispatch s mem cur pid addr op val val3 =
      Some (s', FRet (len ks), (fun k => task (futex_waiters s).[k]) <$> ks) /\
    fs_ok s' /\
    (forall k, k ∈ ks -> in_use (futex_waiters s).[k] = true /\ uaddr (futex_waiters s).[k] = addr) /\
    (forall k, 0 <= k -> (futex_waiters s').[k] =
       if decide (k ∈ ks) then release (futex_waiters s).[k] else (futex_waiters s).[k]) /\
    (forall b j, in_bucket b j -> slot s' b j =
       if decide (slot s b j <> 0 /\ slot s b j - 1 ∈ ks) then 0 else slot s b j).
Proof.
  intros Hs Ha Ho ks. destruct (futex_wake_spec s (wakes addr) addr val Hs) as (s' & [W1 W2 W3] & E).
  exists s'. rewrite dispatch_wake by done. split; [done|]. split; [done|]. split; [|by split].
  intros k Hk. apply elem_of_take in Hk as (n & Hk & _).
  apply list_elem_of_lookup_2, hits_elem in Hk as (j & _ & _ & _ & Hm).
  unfold wakes in Hm. apply andb_true_iff in Hm as [? ?%Z.eqb_eq]. done.
Qed.

Definition demo_mem : Z -> Z := fun _ => 7.

(** Three tasks wait: two on the word at 0x1000, one on 0x2000. *)
Definition demo_futex : fstate :=
  let wait s t a := (futex_wait s demo_mem t t a 7 0xFFFFFFFF).1 in
  wait (wait (wait init_fstate 11 0x1000) 12 0x2000) 13 0x1000.

Lemma demo_futex_ok : fs_ok demo_futex.
Proof.
  assert (forall s t a, fs_ok s -> fs_ok (futex_wait s demo_mem t t a 7 0xFFFFFFFF).1) as H.
  { intros s t a Hs. destruct (futex_wait_cases s demo_mem t t a 7 0xFFFFFFFF Hs)
      as [[_ ->]|[(v & _ & _ & ->)|[(_ & _ & ->)|(_ & i & s' & W & ->)]]]; [done..|apply W]. }
  apply H, H, H, init_fs_ok.
Qed.

Lemma futex_wake_correct_witness :
  exists s', futex_dispatch demo_futex demo_mem 14 14 0x1000 129 1 0 = Some (s', FRet 1, [11]) /\ fs_ok s'.
Proof.
  destruct (futex_wake_correct demo_futex demo_mem 14 14 0x1000 129 1 0 demo_futex_ok) as (s' & E & Ok & _);
    [by vm_compute..|].
  exists s'. split; [|exact Ok]. rewrite E. vm_compute. reflexivity.
Defined.

(** FUTEX_WAIT blocks only if the word holds the expected value; otherwise
    it returns -EAGAIN, and -ENOMEM only when all 256 waiters are taken, with
    nothing changed.  When it blocks, the task is registered in a waiter that
    was free and every other waiter and slot is as before. *)
Theorem futex_wait_correct s mem cur pid addr op val val3 :
  fs_ok s -> access_ok addr 4 = true -> op_clean op = FUTEX_WAIT ->
  exists s' r, futex_dispatch s mem cur pid addr op val val3 = Some (s', r, []) /\ fs_ok s' /\
    (mem addr <> val <-> r = FRet (-11)) /\
    (forall e, r = FRet e -> s' = s) /\
    (r = FRet (-12) -> forall i, 0 <= i < MAX_FUTEX_WAITERS -> in_use (futex_waiters s).[i] = true) /\
    (r = FBlock -> exists i, in_use (futex_waiters s).[i] = false /\
       (forall k, 0 <= k -> (futex_waiters s').[k] =
          if decide (i = k) then mkWaiter true addr cur val 0xFFFFFFFF pid else (futex_waiters s).[k]) /\
       (forall b j, in_bucket b j -> slot s b j <> 0 -> slot s' b j = slot s b j)) /\
    (r = FRet (-11) \/ r = FRet (-12) \/ r = FBlock).
Proof.
  intros Hs Ha Ho. rewrite dispatch_wait by done.
  assert (get_user mem addr = Some (mem addr)) as Hg by (unfold get_user; by rewrite Ha).
  destruct (futex_wait_cases s mem cur pid addr val 0xFFFFFFFF Hs)
    as [[C _]|[(v & C & Hv & ->)|[(C & Hall & ->)|(C & i & s' & W & ->)]]];
    rewrite Hg in C; try done; injection C as C; do 2 eexists; (split; [done|]).
  - split; [done|]. split; [by subst v|]. split_and!; try done. by left.
  - split; [done|]. split; [split; [done|by intros [=]]|]. split_and!; try done. by right; left.
  - destruct W as [Ok [Hi Hu] Wt Sl]. split; [done|]. split; [split; [done|by intros [=]]|].
    split_and!; try done; [|by right; right]. intros _. exists i. split; [done|]. split; [done|].
    intros b j Hj Hne. destruct Sl as [[_ Sl]|(k & Hk & Hz & Sl)]; [done|].
    rewrite Sl by done. rewrite decide_False; [done|]. intros [-> ->]. done.
Qed.

Lemma futex_wait_correct_witness :
  exists s' r, futex_dispatch demo_futex demo_mem 14 14 0x1000 0 7 0 = Some (s', r, []) /\ fs_ok s' /\ r = FBlock.
Proof.
  destruct (futex_wait_correct demo_futex demo_mem 14 14 0x1000 0 7 0 demo_futex_ok)
    as (s' & r & E & Ok & _ & _ & _ & _ & Hr); [by vm_compute..|].
  exists s', r. split; [exact E|]. split; [exact Ok|].
  assert (exists s1, futex_dispatch demo_futex demo_mem 14 14 0x1000 0 7 0 = Some (s1, FBlock, [])) as [s1 E1]
    by (eexists; vm_compute; reflexivity).
  rewrite E1 in E. injection E as _ <-. reflexivity.
Defined.

(** a wait that blocks while its bucket has a free slot is woken by the
    next FUTEX_WAKE of at least 8 on its word. *)
Theorem futex_wait_wake s s1 mem cur pid addr op val val3 cur2 pid2 op2 val2 :
  fs_ok s -> access_ok addr 4 = true -> op_clean op = FUTEX_WAIT -> op_clean op2 = FUTEX_WAKE ->
  ~ bucket_full s (futex_hash addr) ->
  futex_dispatch s mem cur pid addr op val val3 = Some (s1, FBlock, []) ->
  8 <= s32 val2 ->
  exists s2 n tasks, futex_dispatch s1 mem cur2 pid2 addr op2 val2 0 = Some (s2, FRet n, tasks) /\
    cur ∈ tasks.
Proof.
  intros Hs Ha Ho Ho2 Hn E H8. rewrite dispatch_wait in E by done.
  destruct (futex_wait_cases s mem cur pid addr val 0xFFFFFFFF Hs)
    as [[_ C]|[(v & _ & _ & C)|[(_ & _ & C)|(_ & i & s' & W & C)]]]; rewrite C in E; try discriminate.
  injection E as ->. rewrite dispatch_wake by done.
  destruct (futex_wake_spec s1 (wakes addr) addr val2 (wt_ok _ _ _ _ _ _ _ _ W)) as (s2 & _ & ->).
  do 3 eexists. split; [done|].
  pose proof (hits_length s1 (futex_hash addr) (wakes addr) 0). rewrite take_ge by lia.
  assert (i ∈ hits s1 (futex_hash addr) (wakes addr) 0) as Hi.
  { apply (waits_hit s s1 i cur pid addr val 0xFFFFFFFF); try done. unfold wakes. simpl. apply Z.eqb_refl. }
  apply list_elem_of_fmap. exists i. split; [|done].
  rewrite (wt_waiter _ _ _ _ _ _ _ _ W); [by rewrite decide_True|].
  pose proof (wt_new _ _ _ _ _ _ _ _ W). lia.
Qed.

Definition demo_futex4 : fstate := (futex_wait demo_futex demo_mem 14 14 0x1000 7 0xFFFFFFFF).1.

Lemma futex_wait_wake_witness :
  exists s2 n tasks, futex_dispatch demo_futex4 demo_mem 15 15 0x1000 1 100 0 = Some (s2, FRet n, tasks) /\
    14 ∈ tasks.
Proof.
  apply (futex_wait_wake demo_futex demo_futex4 demo_mem 14 14 0x1000 0 7 0 15 15 1 100 demo_futex_ok);
    try (vm_compute; congruence).
  intros H. apply (H 7); [lia|]. vm_compute. reflexivity.
Defined.

(** A sequence of calls by any tasks, with user memory as it is at each. *)
Record fcall := mkCall { c_mem : Z -> Z; c_cur : Z; c_pid : Z; c_addr : Z; c_op : Z; c_val : Z; c_val3 : Z }.

Definition fstep (s : fstate) (c : fcall) : fstate :=
  match futex_dispatch s (c_mem c) (c_cur c) (c_pid c) (c_addr c) (c_op c) (c_val c) (c_val3 c) with
  | Some (s', _, _) => s'
  | None => s
  end.

Definition stranded (k cur : Z) (s : fstate) : Prop :=
  fs_ok s /\ in_use (futex_waiters s).[k] = true /\ task (futex_waiters s).[k] = cur /\
  forall b j, in_bucket b j -> slot s b j <> k + 1.

Lemma stranded_not_hit k cur s b m : stranded k cur s -> 0 <= b < FUTEX_HASH_BUCKETS -> k ∉ hits s b m 0.
Proof.
  intros (_ & _ & _ & H) Hb (j & Hj & _ & E & _)%hits_elem. apply (H b j); [by split|lia].
Qed.

Lemma fstep_stranded k cur s c : 0 <= k -> stranded k cur s -> stranded k cur (fstep s c).
Proof.
  intros Hk St. pose proof St as (Hs & Hu & Ht & Hq). unfold fstep.
  destruct (dispatch_cases s (c_mem c) (c_cur c) (c_pid c) (c_addr c) (c_op c) (c_val c) (c_val3 c) Hs)
    as (s' & r & ts & -> & [->|[(i & bits & W)|(m & n & W)]]); [done| |].
  - destruct W as [Ok [Hi Hf] Wt Sl]. assert (i <> k) as Hik by (intros ->; congruence).
    split; [done|]. rewrite Wt by done. rewrite decide_False by done. split; [done|]. split; [done|].
    intros b j Hj. destruct Sl as [[_ ->]|(l & _ & _ & Sl)]; [by apply Hq|].
    rewrite Sl by done. case_decide; [lia|by apply Hq].
  - destruct W as [Ok Wk Sk]. split; [done|]. rewrite Wk by done. rewrite decide_False.
    + split; [done|]. split; [done|]. intros b j Hj. rewrite Sk by done. case_decide; [lia|by apply Hq].
    + intros (n' & Hn & _)%elem_of_take. apply list_elem_of_lookup_2 in Hn.
      by apply (stranded_not_hit k cur s (futex_hash (c_addr c)) m St (futex_hash_range _)).
Qed.

(** [bucket_add] drops a waiter silently when the bucket's eight slots are
    taken, and FUTEX_WAIT blocks all the same: the task sleeps in a waiter that
    no later sequence of calls wakes or frees. *)
Theorem futex_full_bucket_strands s s1 mem cur pid addr op val val3 :
  fs_ok s -> access_ok addr 4 = true -> op_clean op = FUTEX_WAIT ->
  bucket_full s (futex_hash addr) ->
  futex_dispatch s mem cur pid addr op val val3 = Some (s1, FBlock, []) ->
  exists k, 0 <= k /\ in_use (futex_waiters s).[k] = false /\
    forall calls, let s2 := fold_left fstep calls s1 in
      in_use (futex_waiters s2).[k] = true /\ task (futex_waiters s2).[k] = cur /\
      forall b m, 0 <= b < FUTEX_HASH_BUCKETS -> k ∉ hits s2 b m 0.
Proof.
  intros Hs Ha Ho Hf E. rewrite dispatch_wait in E by done.
  destruct (futex_wait_cases s mem cur pid addr val 0xFFFFFFFF Hs)
    as [[_ C]|[(v & _ & _ & C)|[(_ & _ & C)|(_ & k & s' & W & C)]]]; rewrite C in E; try discriminate.
  injection E as ->. destruct W as [Ok [Hk Hu] Wt Sl]. exists k. split; [lia|]. split; [done|].
  assert (stranded k cur s1) as St.
  { split; [done|]. rewrite Wt, decide_True by (done || lia). split; [done|]. split; [done|].
    destruct Sl as [[_ Sl]|(j & Hj & Hz & _)]; [|by destruct (Hf j)].
    intros b j Hj. rewrite Sl. apply free_not_queued; try done. lia. }
  intros calls. assert (stranded k cur (fold_left fstep calls s1)) as St2.
  { clear - St Hk. revert s1 St. induction calls as [|c calls IH]; intros s1 St; [done|].
    simpl. apply IH, fstep_stranded; [lia|done]. }
  cbv zeta. split; [apply St2|]. split; [apply St2|]. intros b m Hb. by apply (stranded_not_hit k cur).
Qed.

(** Eight tasks wait on the word at 0x1000. *)
Definition full_futex : fstate :=
  fold_left (fun s t => (futex_wait s demo_mem t t 0x1000 7 0xFFFFFFFF).1) [1; 2; 3; 4; 5; 6; 7; 8] init_fstate.

Lemma full_futex_ok : fs_ok full_futex.
Proof.
  unfold full_futex. generalize init_fs_ok. generalize init_fstate. generalize [1; 2; 3; 4; 5; 6; 7; 8].
  intros ts. induction ts as [|t ts IH]; intros s Hs; [done|]. simpl. apply IH.
  destruct (futex_wait_cases s demo_mem t t 0x1000 7 0xFFFFFFFF Hs)
    as [[_ ->]|[(v & _ & _ & ->)|[(_ & _ & ->)|(_ & i & s' & W & ->)]]]; [done..|apply W].
Qed.

Lemma futex_full_bucket_strands_witness :
  exists s1, futex_dispatch full_futex demo_mem 9 9 0x1000 0 7 0 = Some (s1, FBlock, []) /\
  exists k, 0 <= k /\ in_use (futex_waiters full_futex).[k] = false /\
    forall calls, let s2 := fold_left fstep calls s1 in
      in_use (futex_waiters s2).[k] = true /\ task (futex_waiters s2).[k] = 9 /\
      forall b m, 0 <= b < FUTEX_HASH_BUCKETS -> k ∉ hits s2 b m 0.
Proof.
  exists (futex_wait full_futex demo_mem 9 9 0x1000 7 0xFFFFFFFF).1. split; [vm_compute; reflexivity|].
  apply (futex_full_bucket_strands full_futex (futex_wait full_futex demo_mem 9 9 0x1000 7 0xFFFFFFFF).1
           demo_mem 9 9 0x1000 0 7 0 full_futex_ok); [vm_compute; reflexivity..| |vm_compute; reflexivity].
  intros i Hi. assert (i = 0 \/ i = 1 \/ i = 2 \/ i = 3 \/ i = 4 \/ i = 5 \/ i = 6 \/ i = 7) as H by lia.
  repeat (destruct H as [->|H]; [vm_compute; discriminate|]). subst i. vm_compute. discriminate.
Defined.
