(* ===== verification/Net.v ===== *)
(** * Packets: kernel/net/net.c and kernel/include/lestra/net.h

    Byte order, IPv4 addresses, the Internet checksum, the ARP cache and the
    encoding of DNS names.  A packet is the list of its bytes. *)

From S2P Require Import Prelude.

(** ** Byte order: net.h *)

Definition htons16 (v : Z) : Z := u16 (Z.lor (Z.shiftr v 8) (Z.shiftl v 8)).
Definition ntohs16 (v : Z) : Z := htons16 v.

(** A 16-bit load on x86-64. *)
Definition load16 (l : list Z) (i : Z) : Z := Z.lor l.[i] (Z.shiftl l.[i + 1] 8).

(** ** IPv4 addresses: net.h *)

Record ipv4_addr := mkIp { ip0 : Z; ip1 : Z; ip2 : Z; ip3 : Z }.
Definition IP_ZERO : ipv4_addr := mkIp 0 0 0 0.
#[export] Instance ipv4_addr_inhabited : Inhabited ipv4_addr := populate IP_ZERO.
#[export] Instance ipv4_addr_eq_dec : EqDecision ipv4_addr.
Proof. solve_decision. Defined.

Definition ipv4_eq (a b : ipv4_addr) : bool :=
  (ip0 a =? ip0 b) && (ip1 a =? ip1 b) && (ip2 a =? ip2 b) && (ip3 a =? ip3 b).
Definition ipv4_is_zero (a : ipv4_addr) : bool :=
  (ip0 a =? 0) && (ip1 a =? 0) && (ip2 a =? 0) && (ip3 a =? 0).

Lemma ipv4_eq_spec a b : ipv4_eq a b = bool_decide (a = b).
Proof.
  apply eq_bool_prop_intro. rewrite bool_decide_spec, Is_true_true.
  unfold ipv4_eq. rewrite !andb_true_iff, !Z.eqb_eq. destruct a, b; simpl. split.
  - by intros [[[-> ->] ->] ->].
  - by intros [= -> -> -> ->].
Qed.

Definition is_byte (b : Z) : Prop := 0 <= b < 256.

Lemma lor_high_low a b : 0 <= b < 256 -> Z.lor (Z.shiftl a 8) b = 256 * a + b.
Proof.
  intros Hb. rewrite Z.shiftl_mul_pow2 by lia. change (2 ^ 8) with 256.
  rewrite <- Z.add_lor_land. rewrite (Z.mul_comm a 256).
  enough (Z.land (256 * a) b = 0) by lia.
  apply Z.bits_inj'. intros n Hn. rewrite Z.land_spec, Z.bits_0.
  destruct (decide (n < 8)).
  - change 256 with (2 ^ 8). rewrite Z.mul_comm, Z.mul_pow2_bits_low by lia. done.
  - rewrite (testbit_high 8 b) by lia. apply andb_false_r.
Qed.

Lemma htons16_bytes hi lo : is_byte hi -> is_byte lo -> htons16 (Z.lor (Z.shiftl hi 8) lo) = 256 * lo + hi.
Proof.
  unfold is_byte. intros Hh Hl. unfold htons16. rewrite lor_high_low by done.
  rewrite Z.shiftr_div_pow2 by lia. change (2 ^ 8) with 256.
  replace ((256 * hi + lo) / 256) with hi by zlia.
  rewrite Z.lor_comm, lor_high_low by done. unfold wrap. change (2 ^ 16) with 65536. zlia.
Qed.

(** The wire order of a 16-bit field. *)
Lemma ntohs16_load16 l i :
  is_byte l.[i] -> is_byte l.[i + 1] -> ntohs16 (load16 l i) = 256 * l.[i] + l.[i + 1].
Proof. intros. unfold ntohs16, load16. rewrite Z.lor_comm. by apply htons16_bytes. Qed.

(** ** The Internet checksum *)

(** The loop over the 16-bit words and the odd last byte. *)
Fixpoint sum_words (sum : Z) (data : list Z) : Z :=
  match data with
  | a :: b :: rest => sum_words (u32 (sum + Z.lor (Z.shiftl a 8) b)) rest
  | [a] => u32 (sum + Z.shiftl a 8)
  | [] => sum
  end.

(** [while (sum >> 16) sum = (sum & 0xFFFF) + (sum >> 16);] *)
Fixpoint fold_sum (fuel : nat) (sum : Z) : option Z :=
  if Z.shiftr sum 16 =? 0 then Some sum
  else match fuel with
       | O => None
       | S fuel => fold_sum fuel (u32 (Z.land sum 0xFFFF + Z.shiftr sum 16))
       end.

(** Two rounds fold any 32-bit sum: [fold_sum_spec]. *)
Definition FOLD_FUEL : nat := 2.

Definition inet_checksum (data : list Z) (init_sum : Z) : option Z :=
  match fold_sum FOLD_FUEL (sum_words init_sum data) with
  | Some sum => Some (u16 (Z.lnot sum))
  | None => None
  end.

Definition ip_checksum (data : list Z) : option Z := inet_checksum data 0.

Definition l4_pseudo_checksum (src dst : ipv4_addr) (proto : Z) (l4 : list Z) : option Z :=
  let sum := 0 in
  let sum := sum + Z.lor (Z.shiftl (ip0 src) 8) (ip1 src) in
  let sum := sum + Z.lor (Z.shiftl (ip2 src) 8) (ip3 src) in
  let sum := sum + Z.lor (Z.shiftl (ip0 dst) 8) (ip1 dst) in
  let sum := sum + Z.lor (Z.shiftl (ip2 dst) 8) (ip3 dst) in
  let sum := sum + proto in
  let sum := sum + len l4 in
  inet_checksum l4 sum.

(** ** The ARP cache *)

Definition ARP_CACHE_SIZE : Z := 8.

Record arp_entry := mkArp { a_valid : bool; a_ip : ipv4_addr; a_mac : Z }.
#[export] Instance arp_entry_inhabited : Inhabited arp_entry := populate (mkArp false IP_ZERO 0).

(** A MAC address is its 48-bit number; [MAC_ZERO] is 0. *)
Definition arp_lookup (cache : list arp_entry) (ip : ipv4_addr) : Z :=
  match find_from (fun i => a_valid cache.[i] && ipv4_eq (a_ip cache.[i]) ip)
          (Z.to_nat ARP_CACHE_SIZE) 0 with
  | Some i => a_mac cache.[i]
  | None => 0
  end.

(** One step of the scan: [Stop None] after an update in place, [Stop (Some i)]
    at the first invalid entry. *)
Definition arp_scan (cache : list arp_entry) (ip : ipv4_addr) (i : Z) (_ : unit) : ctl unit (Z * bool) :=
  if negb (a_valid cache.[i]) then Stop (i, true)
  else if ipv4_eq (a_ip cache.[i]) ip then Stop (i, false)
  else Next ().

Definition arp_cache_add (cache : list arp_entry) (ip : ipv4_addr) (mac : Z) : list arp_entry :=
  if ipv4_is_zero ip then cache
  else
    match for_loop (arp_scan cache ip) (Z.to_nat ARP_CACHE_SIZE) 0 () with
    | Stop (i, false) => cache.[i <- mkArp true (a_ip cache.[i]) mac]
    | Stop (i, true) => cache.[i <- mkArp true ip mac]
    | Next _ => cache
    end.

(** ** DNS names *)

Definition DOT : Z := 46.
Definition DNS_MAX_NAME : Z := 256.

Fixpoint take_label (name : list Z) : list Z :=
  match name with
  | [] => []
  | c :: rest => if c =? DOT then [] else c :: take_label rest
  end.

Fixpoint drop_label (name : list Z) : list Z :=
  match name with
  | [] => []
  | c :: rest => if c =? DOT then name else drop_label rest
  end.

Definition skip_dot (name : list Z) : list Z :=
  match name with c :: rest => if c =? DOT then rest else name | [] => [] end.

(** [dns_encode_name]: [out] holds the bytes written; [None] is -1. *)
Fixpoint encode_loop (fuel : nat) (outsz : Z) (out name : list Z) : option (option (list Z)) :=
  match name with
  | [] => Some (Some (out ++ [0]))
  | _ :: _ =>
      match fuel with
      | O => None
      | S fuel =>
          let label := take_label name in
          let labellen := len label in
          if (63 <? labellen) || (labellen =? 0) then Some None
          else if outsz - 1 <? len out + 1 + labellen then Some None
          else encode_loop fuel outsz (out ++ labellen :: label) (skip_dot (drop_label name))
      end
  end.

Definition dns_encode_name (outsz : Z) (name : list Z) : option (option (list Z)) :=
  encode_loop (length name) outsz [] name.

(** The copy of one label of [n] bytes at offset [p]: [None] is the return of -1. *)
Fixpoint copy_label (data : list Z) (outsz : Z) (n : nat) (p : Z) (out : list Z) : option (list Z) :=
  match n with
  | O => Some out
  | S n =>
      if len data <=? p then None
      else copy_label data outsz n (p + 1) (if len out + 1 <? outsz then out ++ [data.[p]] else out)
  end.

(** [dns_decode_name] at offset [p]: [inr (consumed, out)] is a result, [inl e]
    an error return.  The loop of the code has no bound of its own. *)
Fixpoint dns_decode_name (fuel : nat) (data : list Z) (outsz p : Z) (out : list Z)
    (followed_ptr : bool) (total_consumed : Z) : option (Z + Z * list Z) :=
  match fuel with
  | O => None
  | S fuel =>
      if (p <? 0) || (len data <=? p) then Some (inl (-1))
      else
        let l := data.[p] in
        if l =? 0 then
          Some (inr (if followed_ptr then total_consumed else p + 1, out))
        else if Z.land l 0xC0 =? 0xC0 then
          if len data <=? p + 1 then Some (inl (-1))
          else
            let off := u16 (Z.lor (Z.shiftl (Z.land l 0x3F) 8) data.[p + 1]) in
            if len data <=? off then Some (inl (-1))
            else dns_decode_name fuel data outsz off out true
                   (if followed_ptr then total_consumed else p + 2)
        else
          let p := p + 1 in
          match copy_label data outsz (Z.to_nat l) p out with
          | None => Some (inl (-1))
          | Some out =>
              let p := p + l in
              let out := if len out + 1 <? outsz then out ++ [DOT] else out in
              dns_decode_name fuel data outsz p out followed_ptr total_consumed
          end
  end.

(** The walk over the answers in [net_resolve]: [None] is a hang, [Some None]
    the return of 0, [Some (Some ip)] an address. *)
Fixpoint parse_answers (fuel n : nat) (data : list Z) (q : Z) : option (option ipv4_addr) :=
  match n with
  | O => Some None
  | S n =>
      match dns_decode_name fuel data DNS_MAX_NAME q [] false 0 with
      | None => None
      | Some (inl _) => Some None
      | Some (inr (consumed, _)) =>
          let q := q + consumed in
          if len data <? q + 10 then Some None
          else
            let qtype := Z.lor (Z.shiftl data.[q] 8) data.[q + 1] in
            let rdlen := Z.lor (Z.shiftl data.[q + 8] 8) data.[q + 9] in
            let q := q + 10 in
            if (qtype =? 1) && (rdlen =? 4) then
              if len data <? q + 4 then Some None
              else Some (Some (mkIp data.[q] data.[q + 1] data.[q + 2] data.[q + 3]))
            else parse_answers fuel n data (q + rdlen)
      end
  end.

Definition DNS_HDR : Z := 12.   (* sizeof(struct dns_hdr) *)

(** [net_resolve] from the received reply [rbuf[0 .. rlen)] on. *)
Definition net_resolve_reply (fuel : nat) (data : list Z) : option (option ipv4_addr) :=
  if len data <? DNS_HDR then Some None
  else if negb (load16 data 0 =? htons16 0x4242) then Some None
  else
    let ancount := ntohs16 (load16 data 6) in
    if ancount =? 0 then Some None
    else
      match dns_decode_name fuel data DNS_MAX_NAME DNS_HDR [] false 0 with
      | None => None
      | Some (inl _) => Some None
      | Some (inr (consumed, _)) =>
          parse_answers fuel (Z.to_nat ancount) data (DNS_HDR + consumed + 4)
      end.

(** ** DNS names: round trip, bounds, termination *)

Definition label_ok (l : list Z) : Prop := l <> [] /\ len l <= 63 /\ DOT ∉ l.
#[export] Instance label_ok_dec l : Decision (label_ok l).
Proof. unfold label_ok. apply _. Defined.

(** The dotted form of a list of labels, its wire form, and the form
    [dns_decode_name] writes. *)
Fixpoint dotted (labels : list (list Z)) : list Z :=
  match labels with
  | [] => []
  | [l] => l
  | l :: ls => l ++ DOT :: dotted ls
  end.

Definition wire (labels : list (list Z)) : list Z := concat ((fun l => len l :: l) <$> labels) ++ [0].
Definition text (labels : list (list Z)) : list Z := concat ((fun l => l ++ [DOT]) <$> labels).

Lemma take_label_app l rest : DOT ∉ l -> take_label (l ++ DOT :: rest) = l /\ take_label l = l.
Proof.
  induction l as [|c l IH]; intros H; simpl; [done|].
  apply not_elem_of_cons in H as [Hc H]. rewrite (proj2 (Z.eqb_neq c DOT)) by congruence.
  by destruct (IH H) as [-> ->].
Qed.

Lemma drop_label_app l rest : DOT ∉ l -> drop_label (l ++ DOT :: rest) = DOT :: rest /\ drop_label l = [].
Proof.
  induction l as [|c l IH]; intros H; simpl; [done|].
  apply not_elem_of_cons in H as [Hc H]. rewrite (proj2 (Z.eqb_neq c DOT)) by congruence.
  by destruct (IH H) as [-> ->].
Qed.

Lemma take_drop_label name : take_label name ++ drop_label name = name.
Proof. induction name as [|c name IH]; simpl; [done|]. case_match; simpl; by rewrite ?IH. Qed.

Lemma skip_drop_label_length name :
  take_label name <> [] -> (length (skip_dot (drop_label name)) < length name)%nat.
Proof.
  intros H. pose proof (f_equal length (take_drop_label name)) as E. rewrite length_app in E.
  assert (length (skip_dot (drop_label name)) <= length (drop_label name))%nat.
  { destruct (drop_label name); simpl; [lia|]. case_match; simpl; lia. }
  destruct (take_label name); [done|]. simpl in E. lia.
Qed.

Lemma len_pos_nonnil (l : list Z) : (len l =? 0) = false -> l <> [].
Proof. by intros H ->. Qed.

(** The encoder terminates and writes at most [outsz] bytes. *)
Lemma encode_loop_bound fuel outsz out name :
  (length name <= fuel)%nat -> len out <= outsz - 1 ->
  exists r, encode_loop fuel outsz out name = Some r /\ forall e, r = Some e -> len e <= outsz.
Proof.
  revert out name. induction fuel as [|fuel IH]; intros out [|c name] Hf Ho; simpl in Hf; try lia.
  1,2: eexists; split; [done|]; intros e [= <-]; autorewrite with lens; lia.
  cbn [encode_loop]. set (n := c :: name) in *.
  destruct (len (take_label n) =? 0) eqn:E0; rewrite ?orb_true_r, ?orb_false_r; [by eexists|].
  destruct (63 <? _); [by eexists|].
  destruct (Z.ltb_spec (outsz - 1) (len out + 1 + len (take_label n))); [by eexists|].
  pose proof (skip_drop_label_length n (len_pos_nonnil _ E0)) as Hl. change (length n) with (S (length name)) in Hl.
  apply IH; [lia|]. autorewrite with lens. lia.
Qed.

Lemma len_wire_pos labels : 1 <= len (wire labels).
Proof.
  unfold wire. rewrite len_app. pose proof (len_nonneg (concat ((fun l => len l :: l) <$> labels))).
  change (len [0]) with 1. lia.
Qed.

Lemma encode_dotted fuel outsz out labels :
  Forall label_ok labels -> (length (dotted labels) <= fuel)%nat -> len out + len (wire labels) <= outsz ->
  encode_loop fuel outsz out (dotted labels) = Some (Some (out ++ wire labels)).
Proof.
  intros Hl. revert fuel out. induction Hl as [|l labels (Hne & H63 & Hd) Hls IH]; intros fuel out Hf Ho.
  { by destruct fuel. }
  assert (wire (l :: labels) = (len l :: l) ++ wire labels) as Ew by (unfold wire; simpl; by rewrite <- app_assoc).
  rewrite Ew in Ho |- *. autorewrite with lens in Ho. pose proof (len_nonneg (wire labels)).
  pose proof (len_wire_pos labels).
  assert (take_label (dotted (l :: labels)) = l /\ skip_dot (drop_label (dotted (l :: labels))) = dotted labels /\
    (length (dotted labels) < length (dotted (l :: labels)))%nat /\ dotted (l :: labels) <> []) as (Et & Es & Hlt & Hnn).
  { destruct labels as [|l2 labels].
    - simpl. destruct (take_label_app l [] Hd) as [_ ->]. destruct (drop_label_app l [] Hd) as [_ ->].
      split_and!; try done. destruct l; [done|simpl; lia].
    - change (dotted (l :: l2 :: labels)) with (l ++ DOT :: dotted (l2 :: labels)).
      destruct (take_label_app l (dotted (l2 :: labels)) Hd) as [-> _].
      destruct (drop_label_app l (dotted (l2 :: labels)) Hd) as [-> _].
      split_and!; try done; [rewrite length_app; simpl; lia|by destruct l]. }
  destruct fuel as [|fuel]; [lia|].
  destruct (dotted (l :: labels)) as [|c rest] eqn:E; [done|]. cbn [encode_loop].
  rewrite Et, Es. assert (len l <> 0) by (destruct l; [done|unfold len; simpl; lia]).
  rewrite (proj2 (Z.ltb_ge 63 (len l))), (proj2 (Z.eqb_neq (len l) 0)) by lia. simpl orb. cbv iota.
  rewrite (proj2 (Z.ltb_ge _ _)) by lia. rewrite IH by (autorewrite with lens; lia).
  by rewrite <- app_assoc.
Qed.

Lemma copy_label_spec data outsz pre l post out :
  data = pre ++ l ++ post -> len out + len l < outsz ->
  copy_label data outsz (length l) (len pre) out = Some (out ++ l).
Proof.
  revert pre out. induction l as [|c l IH]; intros pre out Hd Ho; simpl; [by rewrite app_nil_r|].
  autorewrite with lens in Ho. pose proof (len_nonneg l). pose proof (len_nonneg post).
  assert (data.[len pre] = c) as ->.
  { rewrite Hd, geti_app, decide_False by (try apply len_nonneg; lia). by rewrite Z.sub_diag. }
  rewrite (proj2 (Z.leb_gt _ _)) by (rewrite Hd; autorewrite with lens; lia).
  rewrite (proj2 (Z.ltb_lt _ _)) by lia.
  replace (len pre + 1) with (len (pre ++ [c])) by (autorewrite with lens; lia).
  rewrite IH by (try (autorewrite with lens; lia); by rewrite Hd, <- app_assoc). by rewrite <- app_assoc.
Qed.

Lemma land_small_label n : 0 <= n <= 63 -> Z.land n 0xC0 = 0.
Proof.
  intros Hn. apply Z.bits_inj'. intros i Hi. rewrite Z.land_spec, Z.bits_0.
  destruct (decide (i < 6)).
  - change 0xC0 with (3 * 2 ^ 6). rewrite Z.mul_pow2_bits_low by lia. apply andb_false_r.
  - by rewrite (testbit_high 6 n) by lia.
Qed.

Lemma decode_wire fuel data outsz pre labels post out followed total :
  Forall label_ok labels -> data = pre ++ wire labels ++ post ->
  len out + len (text labels) < outsz -> (length labels < fuel)%nat ->
  dns_decode_name fuel data outsz (len pre) out followed total =
    Some (inr (if followed then total else len pre + len (wire labels), out ++ text labels)).
Proof.
  intros Hl. revert fuel pre out. induction Hl as [|l labels (Hne & H63 & Hd) Hls IH]; intros fuel pre out Ed Ho Hf;
    (destruct fuel as [|fuel]; [simpl in Hf; lia|]); cbn [dns_decode_name]; pose proof (len_nonneg pre);
    pose proof (len_nonneg post).
  { rewrite (proj2 (Z.ltb_ge _ _)) by lia. rewrite (proj2 (Z.leb_gt _ _)) by (rewrite Ed; unfold wire; simpl; autorewrite with lens; lia).
    assert (data.[len pre] = 0) as ->
      by (rewrite Ed, geti_app, decide_False by lia; by rewrite Z.sub_diag).
    simpl. unfold text. simpl. by rewrite app_nil_r. }
  assert (wire (l :: labels) = (len l :: l) ++ wire labels) as Ew by (unfold wire; simpl; by rewrite <- app_assoc).
  assert (text (l :: labels) = l ++ [DOT] ++ text labels) as Et by (unfold text; simpl; by rewrite <- app_assoc).
  rewrite Ew in *. rewrite Et in *. autorewrite with lens in Ho. pose proof (len_nonneg (text labels)).
  pose proof (len_nonneg (wire labels)). pose proof (len_nonneg l).
  assert (len l <> 0) by (destruct l; [done|unfold len; simpl; lia]).
  rewrite (proj2 (Z.ltb_ge _ _)) by lia. rewrite (proj2 (Z.leb_gt _ _)) by (rewrite Ed; autorewrite with lens; lia).
  assert (data.[len pre] = len l) as ->
    by (rewrite Ed, geti_app, decide_False by lia; by rewrite Z.sub_diag).
  simpl orb. cbv iota. rewrite (proj2 (Z.eqb_neq _ 0)) by done. rewrite land_small_label by lia. simpl Z.eqb. cbv iota.
  replace (len pre + 1) with (len (pre ++ [len l])) by (autorewrite with lens; lia).
  assert (Z.to_nat (len l) = length l) as -> by (unfold len; lia).
  rewrite (copy_label_spec data outsz (pre ++ [len l]) l (wire labels ++ post)) by
    (try lia; by rewrite Ed, <- !app_assoc).
  rewrite (proj2 (Z.ltb_lt _ _)) by (autorewrite with lens; lia).
  replace (len (pre ++ [len l]) + len l) with (len (pre ++ len l :: l)) by (autorewrite with lens; lia).
  rewrite IH; [|by rewrite Ed, <- !app_assoc|autorewrite with lens; lia|simpl in Hf; lia].
  rewrite <- !app_assoc. do 3 f_equal. case_match; [done|]. autorewrite with lens. lia.
Qed.

Lemma decode_self_pointer fuel data outsz q out followed total :
  0 <= q -> q + 1 < len data -> Z.land data.[q] 0xC0 = 0xC0 ->
  u16 (Z.lor (Z.shiftl (Z.land data.[q] 0x3F) 8) data.[q + 1]) = q ->
  dns_decode_name fuel data outsz q out followed total = None.
Proof.
  intros Hq Hl Hc Ho. revert followed total. induction fuel as [|fuel IH]; intros followed total; [done|].
  cbn [dns_decode_name]. rewrite (proj2 (Z.ltb_ge q 0)), (proj2 (Z.leb_gt (len data) q)) by lia.
  destruct (Z.eqb_spec data.[q] 0) as [E|E]; [rewrite E in Hc; by vm_compute in Hc|].
  rewrite Hc, Ho, Z.eqb_refl. simpl orb. cbv iota.
  rewrite (proj2 (Z.leb_gt _ _)), (proj2 (Z.leb_gt (len data) q)) by lia. apply IH.
Qed.

(** ** The checksum *)

Lemma shiftr16 s : Z.shiftr s 16 = s / 65536.
Proof. by rewrite Z.shiftr_div_pow2. Qed.
Lemma land_ffff s : Z.land s 0xFFFF = s mod 65536.
Proof. change 0xFFFF with (Z.ones 16). by rewrite Z.land_ones. Qed.

Lemma fold_sum_spec s :
  0 <= s < 2 ^ 32 ->
  exists r, fold_sum FOLD_FUEL s = Some r /\ 0 <= r < 65536 /\ (r - s) mod 65535 = 0 /\ (r = 0 <-> s = 0).
Proof.
  intros Hs. unfold FOLD_FUEL. cbn [fold_sum]. unfold wrap. rewrite !shiftr16, !land_ffff.
  rewrite (Z.mod_small (s mod 65536 + s / 65536)) by zlia.
  set (s1 := s mod 65536 + s / 65536). assert (s1 = s - 65535 * (s / 65536)) as E1 by (subst s1; zlia).
  assert (0 <= s1 <= 0x1FFFE) as H1 by (subst s1; zlia).
  destruct (Z.eqb_spec (s / 65536) 0) as [E|E].
  { exists s. split; [done|]. zlia. }
  destruct (Z.eqb_spec (s1 / 65536) 0) as [E2|E2].
  { exists s1. split; [done|]. zlia. }
  rewrite (Z.mod_small (s1 mod 65536 + s1 / 65536)) by zlia.
  rewrite (proj2 (Z.eqb_eq ((s1 mod 65536 + s1 / 65536) / 65536) 0)) by zlia.
  eexists. split; [done|]. zlia.
Qed.

(** The 16-bit words of a byte list, an odd last byte padded with 0. *)
Fixpoint words16 (data : list Z) : list Z :=
  match data with
  | a :: b :: rest => (256 * a + b) :: words16 rest
  | [a] => [256 * a]
  | [] => []
  end.

Definition zsum (l : list Z) : Z := foldr Z.add 0 l.

Lemma bytes_ind (P : list Z -> Prop) :
  P [] -> (forall a, P [a]) -> (forall a b l, P l -> P (a :: b :: l)) -> forall l, P l.
Proof.
  intros H0 H1 H2 l. enough (P l /\ forall a, P (a :: l)) by tauto.
  induction l as [|a l [IH1 IH2]]; auto.
Qed.

Lemma words16_range data : Forall is_byte data -> 0 <= zsum (words16 data) <= 32768 * (len data + 1).
Proof.
  induction data as [|a|a b data IH] using bytes_ind; intros H; autorewrite with lens; simpl.
  - unfold zsum. simpl. lia.
  - apply Forall_cons_1 in H as [Ha _]. unfold is_byte in Ha. unfold zsum. simpl. lia.
  - apply Forall_cons_1 in H as [Ha H]. apply Forall_cons_1 in H as [Hb H]. specialize (IH H).
    unfold is_byte in *. unfold zsum in *. simpl. lia.
Qed.

Lemma sum_words_spec sum data :
  Forall is_byte data -> 0 <= sum -> sum + 32768 * (len data + 1) < 2 ^ 32 ->
  sum_words sum data = sum + zsum (words16 data).
Proof.
  revert sum. induction data as [|a|a b data IH] using bytes_ind; intros sum H H0 Hs;
    autorewrite with lens in Hs; simpl.
  - unfold zsum. simpl. lia.
  - apply Forall_cons_1 in H as [Ha _]. unfold is_byte in Ha. rewrite Z.shiftl_mul_pow2 by lia.
    rewrite wrap_small by lia. unfold zsum. simpl. lia.
  - apply Forall_cons_1 in H as [Ha H]. apply Forall_cons_1 in H as [Hb H]. unfold is_byte in Ha, Hb.
    rewrite lor_high_low by lia. pose proof (len_nonneg data). rewrite wrap_small by lia.
    rewrite IH by (try done; lia). unfold zsum. simpl. lia.
Qed.

Lemma words16_app l1 l2 : len l1 mod 2 = 0 -> words16 (l1 ++ l2) = words16 l1 ++ words16 l2.
Proof.
  induction l1 as [|a|a b l1 IH] using bytes_ind; autorewrite with lens; intros H; [done|by vm_compute in H|].
  simpl. f_equal. apply IH. zlia.
Qed.

Lemma zsum_app l1 l2 : zsum (l1 ++ l2) = zsum l1 + zsum l2.
Proof. unfold zsum. induction l1 as [|x l1 IH]; simpl; lia. Qed.

(** The checksum as a number: the complement of the folded sum. *)
Lemma inet_checksum_spec data init :
  Forall is_byte data -> 0 <= init -> init + 32768 * (len data + 1) < 2 ^ 32 ->
  exists r, inet_checksum data init = Some (65535 - r) /\ 0 <= r < 65536 /\
    (r - (init + zsum (words16 data))) mod 65535 = 0 /\ (r = 0 <-> init + zsum (words16 data) = 0).
Proof.
  intros Hb Hi Hl. pose proof (words16_range data Hb). unfold inet_checksum. rewrite sum_words_spec by done.
  destruct (fold_sum_spec (init + zsum (words16 data))) as (r & -> & Hr & Hm & Hz); [lia|].
  exists r. split; [|done]. f_equal. unfold wrap, Z.lnot. change (2 ^ 16) with 65536. zlia.
Qed.

(** ** The ARP cache *)

(** Valid entries come first: [arp_cache_add] is the only writer. *)
Record arp_ok (cache : list arp_entry) : Prop := {
  ar_len : len cache = ARP_CACHE_SIZE;
  ar_prefix : forall i j, 0 <= i <= j -> j < ARP_CACHE_SIZE -> a_valid cache.[j] = true -> a_valid cache.[i] = true;
  ar_uniq : forall i j, 0 <= i < ARP_CACHE_SIZE -> 0 <= j < ARP_CACHE_SIZE ->
    a_valid cache.[i] = true -> a_valid cache.[j] = true -> a_ip cache.[i] = a_ip cache.[j] -> i = j;
}.

Definition arp_hit (cache : list arp_entry) (ip : ipv4_addr) (i : Z) : Prop :=
  0 <= i < ARP_CACHE_SIZE /\ a_valid cache.[i] = true /\ a_ip cache.[i] = ip.

Lemma arp_lookup_hit cache ip i : arp_ok cache -> arp_hit cache ip i -> arp_lookup cache ip = a_mac cache.[i].
Proof.
  intros [_ _ U] (Hi & Hv & He). unfold arp_lookup. destruct (find_from _ _ _) as [j|] eqn:E.
  - apply find_from_Some in E as (Hj & [Hjv Hje]%andb_true_iff & _).
    change (0 + Z.of_nat (Z.to_nat ARP_CACHE_SIZE)) with ARP_CACHE_SIZE in Hj.
    rewrite ipv4_eq_spec in Hje. apply bool_decide_eq_true in Hje.
    by rewrite (U i j) by congruence.
  - pose proof (proj1 (find_from_None _ _ _) E i ltac:(done)) as H. cbv beta in H.
    rewrite Hv, He, ipv4_eq_spec, bool_decide_true in H by done. done.
Qed.

Lemma arp_lookup_miss cache ip : (forall i, ~ arp_hit cache ip i) -> arp_lookup cache ip = 0.
Proof.
  intros H. unfold arp_lookup. destruct (find_from _ _ _) as [j|] eqn:E; [|done].
  apply find_from_Some in E as (Hj & [Hjv Hje]%andb_true_iff & _).
  rewrite ipv4_eq_spec in Hje. apply bool_decide_eq_true in Hje. by destruct (H j).
Qed.

Lemma arp_hit_dec cache ip : (exists i, arp_hit cache ip i) \/ (forall i, ~ arp_hit cache ip i).
Proof.
  destruct (find_from (fun i => a_valid cache.[i] && ipv4_eq (a_ip cache.[i]) ip) (Z.to_nat ARP_CACHE_SIZE) 0)
    as [i|] eqn:E.
  - apply find_from_Some in E as (Hi & [Hv He]%andb_true_iff & _).
    rewrite ipv4_eq_spec in He. apply bool_decide_eq_true in He. left. by exists i.
  - right. intros i (Hi & Hv & He). pose proof (proj1 (find_from_None _ _ _) E i ltac:(done)) as H. cbv beta in H.
    rewrite Hv, He, ipv4_eq_spec, bool_decide_true in H by done. done.
Qed.

Lemma arp_scan_spec cache ip :
  match for_loop (arp_scan cache ip) (Z.to_nat ARP_CACHE_SIZE) 0 () with
  | Stop (i, false) => arp_hit cache ip i
  | Stop (i, true) => 0 <= i < ARP_CACHE_SIZE /\ a_valid cache.[i] = false /\
      forall k, 0 <= k < i -> a_valid cache.[k] = true /\ a_ip cache.[k] <> ip
  | Next _ => forall k, 0 <= k < ARP_CACHE_SIZE -> a_valid cache.[k] = true /\ a_ip cache.[k] <> ip
  end.
Proof.
  pose proof (for_loop_ind (arp_scan cache ip)
    (fun i _ => forall k, 0 <= k < i -> a_valid cache.[k] = true /\ a_ip cache.[k] <> ip)
    (fun '(i, e) => if e then 0 <= i < ARP_CACHE_SIZE /\ a_valid cache.[i] = false /\
       forall k, 0 <= k < i -> a_valid cache.[k] = true /\ a_ip cache.[k] <> ip else arp_hit cache ip i)
    (Z.to_nat ARP_CACHE_SIZE) 0 ()) as H.
  change (0 + Z.of_nat (Z.to_nat ARP_CACHE_SIZE)) with ARP_CACHE_SIZE in H.
  ospecialize (H _ _).
  - intros k Hk. lia.
  - intros j t Hj Hk. unfold arp_scan. destruct (a_valid cache.[j]) eqn:Ev; simpl; [|done].
    rewrite ipv4_eq_spec. case_bool_decide as He; [by split|].
    intros k Hk'. destruct (decide (k = j)) as [->|]; [done|]. apply Hk. lia.
  - destruct (for_loop _ _ _ _) as [t|[i []]]; done.
Qed.

Lemma arp_add_cases cache ip mac :
  arp_ok cache -> ip <> IP_ZERO ->
  (exists i, arp_hit cache ip i /\ arp_cache_add cache ip mac = cache.[i <- mkArp true ip mac]) \/
  (exists i, 0 <= i < ARP_CACHE_SIZE /\ a_valid cache.[i] = false /\ (forall k, ~ arp_hit cache ip k) /\
     (forall k, 0 <= k < i -> a_valid cache.[k] = true) /\
     arp_cache_add cache ip mac = cache.[i <- mkArp true ip mac]) \/
  ((forall k, 0 <= k < ARP_CACHE_SIZE -> a_valid cache.[k] = true) /\ (forall k, ~ arp_hit cache ip k) /\
   arp_cache_add cache ip mac = cache).
Proof.
  intros Hc Hz. unfold arp_cache_add.
  assert (ipv4_is_zero ip = false) as ->.
  { apply not_true_iff_false. intros H. apply Hz. change (ipv4_is_zero ip) with (ipv4_eq ip IP_ZERO) in H.
    rewrite ipv4_eq_spec in H. by apply bool_decide_eq_true in H. }
  pose proof (arp_scan_spec cache ip) as H. destruct (for_loop _ _ _ _) as [t|[i []]].
  - right; right. split_and!; [by intros; apply H| |done]. intros k (Hk & Hv & He). by apply (H k).
  - destruct H as (Hi & Hv & Hp). right; left. exists i. split; [done|]. split; [done|].
    split; [|split; [by intros; apply Hp|done]].
    intros k (Hk & Hkv & He). destruct (decide (k < i)) as [Hlt|]; [apply (Hp k); [lia|done]|].
    rewrite (ar_prefix cache Hc i k) in Hv; [done|lia..|done].
  - left. exists i. split; [done|]. destruct H as (_ & _ & <-). done.
Qed.

Lemma arp_set_ok cache ip mac i :
  arp_ok cache -> 0 <= i < ARP_CACHE_SIZE -> (forall k, 0 <= k < i -> a_valid cache.[k] = true) ->
  (forall k, k <> i -> ~ arp_hit cache ip k) -> arp_ok cache.[i <- mkArp true ip mac].
Proof.
  intros [Hl Hp Hu] Hi Hb Hn.
  assert (forall k, 0 <= k -> cache.[i <- mkArp true ip mac].[k] =
    if decide (i = k) then mkArp true ip mac else cache.[k]) as G by (intros; apply geti_seti; lia).
  constructor; [by autorewrite with arr| |].
  - intros j k Hj Hk. rewrite !G by lia. destruct (decide (i = j)), (decide (i = k)); simpl; try done.
    + intros _. apply Hb. lia.
    + by apply Hp.
  - intros j k Hj Hk. rewrite !G by lia. destruct (decide (i = j)), (decide (i = k)); simpl; intros H1 H2 E.
    + lia.
    + exfalso. by apply (Hn k); [lia|].
    + exfalso. by apply (Hn j); [lia|].
    + by apply Hu.
Qed.

Lemma arp_add_ok cache ip mac : arp_ok cache -> arp_ok (arp_cache_add cache ip mac).
Proof.
  intros Hc. pose proof Hc as [Hl Hp Hu]. destruct (decide (ip = IP_ZERO)) as [->|Hz]; [done|].
  destruct (arp_add_cases cache ip mac Hc Hz) as [(i & (Hi & Hv & He) & ->)|[(i & Hi & Hv & Hn & Hb & ->)|(_ & _ & ->)]].
  - apply arp_set_ok; [done|done| |].
    + intros k Hk. apply (Hp k i); [lia|lia|done].
    + intros k Hk (Hr & Hkv & Hke). apply Hk, Hu; congruence.
  - by apply arp_set_ok.
  - done.
Qed.

Lemma arp_add_other cache ip mac ip' i :
  arp_ok cache -> ip <> ip' -> arp_hit (arp_cache_add cache ip mac) ip' i <-> arp_hit cache ip' i.
Proof.
  intros Hc Hne. pose proof (ar_len _ Hc) as Hl. destruct (decide (ip = IP_ZERO)) as [->|Hz]; [done|].
  unfold arp_hit.
  destruct (arp_add_cases cache ip mac Hc Hz) as [(k & (Hi & Hv & He) & ->)|[(k & Hi & Hv & Hn & Hb & ->)|(_ & _ & ->)]];
    [| |done]; (split; intros (Hr & H1 & H2); (split; [done|])); rewrite geti_seti in * by lia;
    case_decide; subst; simpl in *; by try congruence.
Qed.

Lemma arp_add_other_mac cache ip mac ip' i :
  arp_ok cache -> ip <> ip' -> arp_hit cache ip' i ->
  a_mac (arp_cache_add cache ip mac).[i] = a_mac cache.[i].
Proof.
  intros Hc Hne (Hr & H1 & H2). pose proof (ar_len _ Hc) as Hl. destruct (decide (ip = IP_ZERO)) as [->|Hz]; [done|].
  destruct (arp_add_cases cache ip mac Hc Hz) as [(k & (Hi & Hv & He) & ->)|[(k & Hi & Hv & Hn & Hb & ->)|(_ & _ & ->)]];
    [| |done]; rewrite geti_seti by lia; case_decide; subst; simpl in *; by try congruence.
Qed.

(** ** Properties *)

Lemma text_dotted labels : labels <> [] -> text labels = dotted labels ++ [DOT].
Proof.
  induction labels as [|l [|l2 labels] IH]; intros H; [done|by unfold text; simpl; rewrite app_nil_r|].
  change (text (l :: l2 :: labels)) with ((l ++ [DOT]) ++ text (l2 :: labels)).
  rewrite IH by done. change (dotted (l :: l2 :: labels)) with (l ++ DOT :: dotted (l2 :: labels)).
  by rewrite <- !app_assoc.
Qed.

(** C8: DNS names round trip.  A name of labels of 1 to 63 bytes that fits is
    encoded, and wherever the encoding stands in a packet it decodes to the
    name with a final dot, consuming exactly its bytes. *)
Theorem dns_name_roundtrip labels outsz outsz2 pre post fuel :
  labels <> [] -> Forall label_ok labels -> len (wire labels) <= outsz ->
  len (dotted labels) + 1 < outsz2 -> (length labels < fuel)%nat ->
  dns_encode_name outsz (dotted labels) = Some (Some (wire labels)) /\
  dns_decode_name fuel (pre ++ wire labels ++ post) outsz2 (len pre) [] false 0 =
    Some (inr (len pre + len (wire labels), dotted labels ++ [DOT])).
Proof.
  intros Hn Hl Ho H2 Hf. split.
  - unfold dns_encode_name. by rewrite (encode_dotted _ outsz []) by (done || lia).
  - rewrite (decode_wire fuel _ outsz2 pre labels post) by
      (try done; rewrite text_dotted by done; autorewrite with lens; lia).
    by rewrite text_dotted.
Qed.

(** "ab.c" *)
Lemma dns_name_roundtrip_witness :
  dns_encode_name 256 [97; 98; 46; 99] = Some (Some [2; 97; 98; 1; 99; 0]) /\
  dns_decode_name 5 [7; 2; 97; 98; 1; 99; 0; 9] 64 1 [] false 0 = Some (inr (7, [97; 98; 46; 99; 46])).
Proof.
  apply (dns_name_roundtrip [[97; 98]; [99]] 256 64 [7] [9] 5); try done; try (simpl; lia).
  by apply (bool_decide_unpack _).
Defined.

(** [dns_encode_name] terminates and never writes past its buffer. *)
Theorem dns_encode_bounded name outsz :
  1 <= outsz ->
  exists r, dns_encode_name outsz name = Some r /\ forall e, r = Some e -> len e <= outsz.
Proof. intros Ho. apply encode_loop_bound; [done|]. rewrite len_nil. lia. Qed.

Lemma dns_encode_bounded_witness :
  exists r, dns_encode_name 8 [97; 46; 98] = Some r /\ forall e, r = Some e -> len e <= 8.
Proof. apply (dns_encode_bounded [97; 46; 98] 8). lia. Defined.

(** [dns_decode_name] does not terminate on a compression pointer that
    points to itself, wherever it stands in the packet: no number of rounds
    of its loop reaches a return. *)
Theorem dns_decode_pointer_loop data q outsz :
  0 <= q -> q + 1 < len data -> Z.land data.[q] 0xC0 = 0xC0 ->
  Z.lor (Z.shiftl (Z.land data.[q] 0x3F) 8) data.[q + 1] = q -> q < 2 ^ 14 ->
  forall fuel, dns_decode_name fuel data outsz q [] false 0 = None.
Proof.
  intros Hq Hl Hc Ho Hb fuel. apply decode_self_pointer; try done. rewrite Ho. apply wrap_small. lia.
Qed.

(** A response whose question name, at offset 12, is the pointer 0xC00C. *)
Definition evil_packet : list Z := [1; 2; 0x81; 0x80; 0; 1; 0; 1; 0; 0; 0; 0; 0xC0; 0x0C; 0; 1; 0; 1].

Lemma dns_decode_pointer_loop_witness :
  ~ exists fuel, dns_decode_name fuel evil_packet 256 12 [] false 0 <> None.
Proof. intros [fuel H]. apply H, (dns_decode_pointer_loop evil_packet 12 256); by vm_compute. Defined.

(** a packet whose 16-bit checksum field, at an even offset, holds
    [inet_checksum] of the packet with that field zero passes the receiver's
    check: the checksum of the whole is 0. *)
Theorem inet_checksum_verifies pre post init :
  Forall is_byte pre -> Forall is_byte post -> len pre mod 2 = 0 ->
  0 <= init < 2 ^ 20 -> len pre + len post < 65536 ->
  exists c, inet_checksum (pre ++ [0; 0] ++ post) init = Some c /\
    inet_checksum (pre ++ [c / 256; c mod 256] ++ post) init = Some 0.
Proof.
  intros Hb1 Hb2 He Hi Hl.
  assert (forall x y, is_byte x -> is_byte y -> Forall is_byte (pre ++ [x; y] ++ post) /\
    len (pre ++ [x; y] ++ post) = len pre + len post + 2 /\
    zsum (words16 (pre ++ [x; y] ++ post)) = zsum (words16 pre) + (256 * x + y) + zsum (words16 post)) as Hx.
  { intros x y Hx Hy. split_and!.
    - apply Forall_app. split; [done|]. by apply Forall_cons; [|apply Forall_cons].
    - autorewrite with lens. lia.
    - rewrite words16_app, zsum_app by done. unfold zsum. simpl. lia. }
  destruct (Hx 0 0) as (B0 & L0 & Z0); [by split..|].
  destruct (inet_checksum_spec _ init B0) as (r & -> & Hr & Hm & Hz); [lia..|]. eexists. split; [done|].
  destruct (Hx ((65535 - r) / 256) ((65535 - r) mod 256)) as (B1 & L1 & Z1); [unfold is_byte; zlia..|].
  destruct (inet_checksum_spec _ init B1) as (r' & -> & Hr' & Hm' & Hz'); [lia..|].
  f_equal. rewrite Z1 in Hm', Hz'. rewrite Z0 in Hm, Hz.
  replace (256 * ((65535 - r) / 256) + (65535 - r) mod 256) with (65535 - r) in * by zlia.
  pose proof (words16_range pre Hb1). pose proof (words16_range post Hb2). zlia.
Qed.

Lemma inet_checksum_verifies_witness :
  inet_checksum [0x45; 0; 0; 0; 0; 17] 0 = Some 0xBAEE /\ inet_checksum [0x45; 0; 0xBA; 0xEE; 0; 17] 0 = Some 0.
Proof.
  split; [by vm_compute|].
  destruct (inet_checksum_verifies [0x45; 0] [0; 17] 0) as (c & E & V);
    [by repeat constructor..|done|lia|by vm_compute|].
  vm_compute in E. injection E as <-. exact V.
Defined.

(** [arp_cache_add] binds the address: if it has an entry or the cache a
    free one, the next [arp_lookup] finds the new MAC, otherwise the cache is
    unchanged; no other address's binding changes, and the cache stays without
    holes and duplicates. *)
Theorem arp_cache_binds cache ip mac :
  arp_ok cache -> ip <> IP_ZERO ->
  arp_ok (arp_cache_add cache ip mac) /\
  ((exists k, 0 <= k < ARP_CACHE_SIZE /\ (a_valid cache.[k] = false \/ arp_hit cache ip k)) ->
   arp_lookup (arp_cache_add cache ip mac) ip = mac) /\
  ((forall k, 0 <= k < ARP_CACHE_SIZE -> a_valid cache.[k] = true /\ a_ip cache.[k] <> ip) ->
   arp_cache_add cache ip mac = cache) /\
  forall ip', ip' <> ip -> arp_lookup (arp_cache_add cache ip mac) ip' = arp_lookup cache ip'.
Proof.
  intros Hc Hz. pose proof (arp_add_ok cache ip mac Hc) as Hok. pose proof (ar_len _ Hc) as Hl.
  split; [done|]. split; [|split].
  - intros (k & Hk & Hh).
    destruct (arp_add_cases cache ip mac Hc Hz) as [(i & (Hi & Hv & He) & E)|[(i & Hi & Hv & Hn & Hb & E)|(Hv & Hn & E)]].
    1,2: rewrite (arp_lookup_hit _ ip i Hok); rewrite E; [by rewrite geti_seti_eq by lia|];
      unfold arp_hit; by rewrite geti_seti_eq by lia.
    destruct Hh as [Hh|Hh]; [|by destruct (Hn k)]. rewrite Hv in Hh by done. done.
  - intros Hf. destruct (arp_add_cases cache ip mac Hc Hz) as [(i & (Hi & Hv & He) & E)|[(i & Hi & Hv & Hn & Hb & E)|(Hv & Hn & E)]].
    + by destruct (Hf i Hi).
    + destruct (Hf i Hi). congruence.
    + done.
  - intros ip' Hne. destruct (arp_hit_dec cache ip') as [[i Hh]|Hn].
    + rewrite (arp_lookup_hit cache ip' i Hc Hh), (arp_lookup_hit _ ip' i Hok) by (by apply arp_add_other).
      by apply (arp_add_other_mac cache ip mac ip').
    + rewrite !arp_lookup_miss; [done|done|]. intros i Hi%arp_add_other; [by apply (Hn i)|done|done].
Qed.

Definition demo_arp : list arp_entry :=
  arp_cache_add (replicate 8 (mkArp false IP_ZERO 0)) (mkIp 10 0 0 1) 0xAA.

Lemma arp_cache_binds_witness :
  arp_lookup (arp_cache_add demo_arp (mkIp 10 0 0 2) 0xBB) (mkIp 10 0 0 2) = 0xBB.
Proof.
  apply (arp_cache_binds demo_arp (mkIp 10 0 0 2) 0xBB).
  - apply arp_add_ok. constructor; [done| |].
    + intros i j Hi Hj. rewrite !geti_replicate by (unfold ARP_CACHE_SIZE in *; lia). done.
    + intros i j Hi Hj. rewrite !geti_replicate by (unfold ARP_CACHE_SIZE in *; lia). done.
  - done.
  - exists 1. split; [by split|]. left. by vm_compute.
Defined.

(** The offset a decoded name ends at is past the offset it starts at. *)
Lemma decode_consumed fuel data outsz p out followed total c out' :
  Forall is_byte data -> 0 <= p ->
  dns_decode_name fuel data outsz p out followed total = Some (inr (c, out')) ->
  if followed then c = total else p + 1 <= c.
Proof.
  intros Hb. revert p out followed total. induction fuel as [|fuel IH]; intros p out followed total Hp; [done|].
  cbn [dns_decode_name]. destruct ((p <? 0) || (len data <=? p)) eqn:Er; [done|].
  apply orb_false_iff in Er as [_ Er%Z.leb_gt].
  destruct (data.[p] =? 0); [intros [= <- _]; by destruct followed; [|lia]|].
  destruct (_ =? 0xC0).
  - destruct (len data <=? p + 1); [done|]. destruct (len data <=? _); [done|].
    intros E%IH; [destruct followed; [done|lia]|]. apply wrap_range. lia.
  - assert (0 <= data.[p]).
    { rewrite Forall_lookup in Hb. apply (Hb (Z.to_nat p)). apply geti_lookup. lia. }
    destruct (copy_label _ _ _ _ _); [|done]. intros E%IH; [|lia]. destruct followed; [done|lia].
Qed.

(** [net_resolve] adds the offset [dns_decode_name] returns, which counts
    from the start of the packet, to a pointer that already stands at the
    name.  On every reply to one question with one A record, its walk starts 12
    bytes too far and never finds the address. *)
Theorem net_resolve_misses_answer hdr labels qtail answer fuel ip :
  Forall is_byte (hdr ++ wire labels ++ qtail ++ answer) -> Forall label_ok labels ->
  len hdr = DNS_HDR -> len qtail = 4 -> len answer = 16 -> 256 * hdr.[6] + hdr.[7] = 1 ->
  len (text labels) < DNS_MAX_NAME -> (length labels < fuel)%nat ->
  net_resolve_reply fuel (hdr ++ wire labels ++ qtail ++ answer) <> Some (Some ip).
Proof.
  intros Hb Hl Hh Hq Ha Hc Ht Hf. set (data := hdr ++ wire labels ++ qtail ++ answer) in *.
  unfold net_resolve_reply. unfold DNS_HDR in *.
  assert (len data = 32 + len (wire labels)) as Hd by (subst data; autorewrite with lens; lia).
  pose proof (len_nonneg (wire labels)).
  rewrite (proj2 (Z.ltb_ge _ _)) by lia. destruct (negb _); [done|].
  assert (forall i, 0 <= i < 12 -> data.[i] = hdr.[i]) as Hi
    by (intros i Hi; subst data; rewrite geti_app, decide_True by lia; done).
  assert (forall i, 0 <= i < len data -> is_byte data.[i]) as Hbi.
  { intros i Hi'. rewrite Forall_lookup in Hb. apply (Hb (Z.to_nat i)). by apply geti_lookup. }
  rewrite ntohs16_load16 by (apply Hbi; lia). rewrite !Hi by lia. change (6 + 1) with 7. rewrite Hc.
  change (1 =? 0) with false. cbv iota. change (Z.to_nat 1) with 1%nat.
  rewrite <- Hh at 1. rewrite (decode_wire fuel data DNS_MAX_NAME hdr labels (qtail ++ answer)) by done.
  cbv iota. rewrite Hh. cbn [parse_answers].
  destruct (dns_decode_name fuel data DNS_MAX_NAME _ _ _ _) as [[e|[c out]]|] eqn:E; [done| |done].
  apply decode_consumed in E; [|done|lia]. rewrite (proj2 (Z.ltb_lt _ _)) by lia. done.
Qed.

(** The reply for "ab.c": one question, one A record 93.184.216.34. *)
Definition reply_hdr : list Z := [0x42; 0x42; 0x81; 0x80; 0; 1; 0; 1; 0; 0; 0; 0].
Definition reply_answer : list Z := [0xC0; 12; 0; 1; 0; 1; 0; 0; 1; 44; 0; 4; 93; 184; 216; 34].

Lemma net_resolve_misses_answer_witness :
  net_resolve_reply 5 (reply_hdr ++ wire [[97; 98]; [99]] ++ [0; 1; 0; 1] ++ reply_answer) = Some None /\
  net_resolve_reply 5 (reply_hdr ++ wire [[97; 98]; [99]] ++ [0; 1; 0; 1] ++ reply_answer) <>
    Some (Some (mkIp 93 184 216 34)).
Proof.
  split; [by vm_compute|].
  apply (net_resolve_misses_answer reply_hdr [[97; 98]; [99]] [0; 1; 0; 1] reply_answer 5); try done.
  - repeat constructor; by vm_compute.
  - by apply (bool_decide_unpack _).
  - simpl. lia.
Defined.
