(* ===== verification/Firewall.v ===== *)
(** * Packet firewall: kernel/net/firewall.c

    A packet is the list of its bytes from the IP header on.  Printing is left
    out; [fw_list_rules] and [fw_status] only print. *)

From S2P Require Import Prelude Net.

(** ** State *)

Definition FW_MAX_RULES : Z := 32.
Definition IP_PROTO_ICMP : Z := 1.
Definition IP_PROTO_TCP : Z := 6.
Definition IP_PROTO_UDP : Z := 17.

Inductive fw_action := FW_ACCEPT | FW_DROP | FW_REJECT.
#[export] Instance fw_action_eq_dec : EqDecision fw_action.
Proof. solve_decision. Defined.
Inductive fw_proto := FW_PROTO_ANY | FW_PROTO_TCP | FW_PROTO_UDP | FW_PROTO_ICMP.

Record fw_rule := mkRule {
  r_in_use : bool;
  r_name : list Z;              (* the bytes before the NUL *)
  r_action : fw_action;
  r_proto : fw_proto;
  src_ip : ipv4_addr; src_mask : ipv4_addr;
  dst_ip : ipv4_addr; dst_mask : ipv4_addr;
  src_port : Z; dst_port : Z;
  direction : Z;                (* 0 = in, 1 = out, 2 = both *)
  logged : bool;
  match_count : Z;
}.

Definition zero_rule : fw_rule :=
  mkRule false [] FW_ACCEPT FW_PROTO_ANY IP_ZERO IP_ZERO IP_ZERO IP_ZERO 0 0 0 false 0.
#[export] Instance fw_rule_inhabited : Inhabited fw_rule := populate zero_rule.

Record fw_stats := mkStats {
  total_in : Z; total_out : Z; dropped_in : Z; dropped_out : Z;
  rejected_in : Z; accepted_in : Z; accepted_out : Z;
}.

Record fw := mkFw {
  rules : list fw_rule;
  stats : fw_stats;
  default_in_policy : fw_action;
  default_out_policy : fw_action;
  fw_initialized : bool;
}.

Definition with_rules (s : fw) (r : list fw_rule) : fw :=
  mkFw r (stats s) (default_in_policy s) (default_out_policy s) (fw_initialized s).
Definition with_stats (s : fw) (t : fw_stats) : fw :=
  mkFw (rules s) t (default_in_policy s) (default_out_policy s) (fw_initialized s).

Definition set_use (r : fw_rule) (u : bool) : fw_rule :=
  mkRule u (r_name r) (r_action r) (r_proto r) (src_ip r) (src_mask r) (dst_ip r) (dst_mask r)
    (src_port r) (dst_port r) (direction r) (logged r) (match_count r).
Definition set_count (r : fw_rule) (c : Z) : fw_rule :=
  mkRule (r_in_use r) (r_name r) (r_action r) (r_proto r) (src_ip r) (src_mask r) (dst_ip r) (dst_mask r)
    (src_port r) (dst_port r) (direction r) (logged r) c.

(** ** Operations *)

Definition ip_to_u32 (a : ipv4_addr) : Z :=
  Z.lor (Z.lor (Z.lor (Z.shiftl (ip0 a) 24) (Z.shiftl (ip1 a) 16)) (Z.shiftl (ip2 a) 8)) (ip3 a).

Definition fw_init (s : fw) : fw :=
  mkFw (replicate (Z.to_nat FW_MAX_RULES) zero_rule) (mkStats 0 0 0 0 0 0 0) FW_ACCEPT FW_ACCEPT true.

Definition ensure_init (s : fw) : fw := if fw_initialized s then s else fw_init s.

Definition fw_add_rule (s : fw) (name : list Z) (action : fw_action) (proto : fw_proto)
    (sip smask dip dmask : ipv4_addr) (sport dport dir : Z) (log : bool) : fw * Z :=
  let s := ensure_init s in
  match find_from (fun i => negb (r_in_use (rules s).[i])) (Z.to_nat FW_MAX_RULES) 0 with
  | None => (s, -1)
  | Some slot =>
      let r := mkRule true (take 31 name) action proto sip smask dip dmask sport dport dir log 0 in
      (with_rules s (rules s).[slot <- r], slot)
  end.

(** [strcmp] is 0 exactly when the bytes before the NULs are equal. *)
Definition fw_remove_rule (s : fw) (name : list Z) : fw * Z :=
  match find_from (fun i => r_in_use (rules s).[i] && bool_decide (r_name (rules s).[i] = name))
          (Z.to_nat FW_MAX_RULES) 0 with
  | Some i => (with_rules s (rules s).[i <- set_use (rules s).[i] false], 0)
  | None => (s, -1)
  end.

Definition fw_remove_rule_by_id (s : fw) (id : Z) : fw * Z :=
  if (id <? 0) || (FW_MAX_RULES <=? id) then (s, -1)
  else if negb (r_in_use (rules s).[id]) then (s, -1)
  else (with_rules s (rules s).[id <- set_use (rules s).[id] false], 0).

Definition fw_flush (s : fw) : fw := with_rules s (replicate (Z.to_nat FW_MAX_RULES) zero_rule).

Definition fw_set_default (s : fw) (dir : Z) (action : fw_action) : fw :=
  if dir =? 0 then mkFw (rules s) (stats s) action (default_out_policy s) (fw_initialized s)
  else mkFw (rules s) (stats s) (default_in_policy s) action (fw_initialized s).

Definition fw_get_stats (s : fw) : fw_stats := stats s.

(** The fields of the IP header. *)
Definition pkt_proto (pkt : list Z) : Z := pkt.[9].
Definition pkt_src (pkt : list Z) : ipv4_addr := mkIp pkt.[12] pkt.[13] pkt.[14] pkt.[15].
Definition pkt_dst (pkt : list Z) : ipv4_addr := mkIp pkt.[16] pkt.[17] pkt.[18] pkt.[19].
Definition pkt_l4 (pkt : list Z) : Z := Z.land pkt.[0] 0x0F * 4.

(** "Check source IP (with mask)", and the same for the destination. *)
Definition addr_matches (rip rmask ip : ipv4_addr) : bool :=
  ipv4_is_zero rip
  || (Z.land (ip_to_u32 ip) (ip_to_u32 rmask) =? Z.land (ip_to_u32 rip) (ip_to_u32 rmask)).

Definition proto_matches (p : fw_proto) (proto : Z) : bool :=
  match p with
  | FW_PROTO_ANY => true
  | FW_PROTO_TCP => proto =? IP_PROTO_TCP
  | FW_PROTO_UDP => proto =? IP_PROTO_UDP
  | FW_PROTO_ICMP => proto =? IP_PROTO_ICMP
  end.

(** TCP and UDP both have the ports in the first four bytes. *)
Definition ports_match (r : fw_rule) (pkt : list Z) : bool :=
  if (src_port r =? 0) && (dst_port r =? 0) then true
  else if negb (pkt_proto pkt =? IP_PROTO_TCP) && negb (pkt_proto pkt =? IP_PROTO_UDP) then false
  else
    let pkt_sport := ntohs16 (load16 pkt (pkt_l4 pkt)) in
    let pkt_dport := ntohs16 (load16 pkt (pkt_l4 pkt + 2)) in
    if negb (src_port r =? 0) && negb (src_port r =? pkt_sport) then false
    else if negb (dst_port r =? 0) && negb (dst_port r =? pkt_dport) then false
    else true.

Definition rule_matches (r : fw_rule) (pkt : list Z) (dir : Z) : bool :=
  if negb (direction r =? 2) && negb (direction r =? dir) then false
  else if negb (proto_matches (r_proto r) (pkt_proto pkt)) then false
  else if negb (addr_matches (src_ip r) (src_mask r) (pkt_src pkt)) then false
  else if negb (addr_matches (dst_ip r) (dst_mask r) (pkt_dst pkt)) then false
  else ports_match r pkt.

Definition count_total (t : fw_stats) (dir : Z) : fw_stats :=
  if dir =? 0
  then mkStats (u64 (total_in t + 1)) (total_out t) (dropped_in t) (dropped_out t) (rejected_in t) (accepted_in t) (accepted_out t)
  else mkStats (total_in t) (u64 (total_out t + 1)) (dropped_in t) (dropped_out t) (rejected_in t) (accepted_in t) (accepted_out t).

Definition count_action (t : fw_stats) (dir : Z) (a : fw_action) : fw_stats :=
  match a with
  | FW_ACCEPT =>
      if dir =? 0
      then mkStats (total_in t) (total_out t) (dropped_in t) (dropped_out t) (rejected_in t) (u64 (accepted_in t + 1)) (accepted_out t)
      else mkStats (total_in t) (total_out t) (dropped_in t) (dropped_out t) (rejected_in t) (accepted_in t) (u64 (accepted_out t + 1))
  | FW_DROP =>
      if dir =? 0
      then mkStats (total_in t) (total_out t) (u64 (dropped_in t + 1)) (dropped_out t) (rejected_in t) (accepted_in t) (accepted_out t)
      else mkStats (total_in t) (total_out t) (dropped_in t) (u64 (dropped_out t + 1)) (rejected_in t) (accepted_in t) (accepted_out t)
  | FW_REJECT =>
      mkStats (total_in t) (total_out t) (dropped_in t) (dropped_out t) (u64 (rejected_in t + 1)) (accepted_in t) (accepted_out t)
  end.

(** One iteration of the walk over the rules. *)
Definition check_rule (pkt : list Z) (dir i : Z) (s : fw) : ctl fw (fw * fw_action) :=
  let r := (rules s).[i] in
  if negb (r_in_use r) then Next s
  else if rule_matches r pkt dir then
    let s := with_rules s (rules s).[i <- set_count r (u64 (match_count r + 1))] in
    Stop (with_stats s (count_action (stats s) dir (r_action r)), r_action r)
  else Next s.

Definition fw_check (s : fw) (pkt : list Z) (dir : Z) : fw * fw_action :=
  let s := ensure_init s in
  let s := with_stats s (count_total (stats s) dir) in
  match for_loop (check_rule pkt dir) (Z.to_nat FW_MAX_RULES) 0 s with
  | Stop r => r
  | Next s =>
      let dflt := if dir =? 0 then default_in_policy s else default_out_policy s in
      (with_stats s (count_action (stats s) dir dflt), dflt)
  end.

(** ** Specification of a match *)

(** The rule's address selects the packet's: equal where the mask has a 1. *)
Definition addr_selects (rip rmask ip : ipv4_addr) : Prop :=
  rip = IP_ZERO \/
  forall i, 0 <= i < 32 -> Z.testbit (ip_to_u32 rmask) i = true ->
    Z.testbit (ip_to_u32 ip) i = Z.testbit (ip_to_u32 rip) i.

Definition port_selects (rport field : Z) : Prop := rport = 0 \/ rport = field.

Definition be16 (pkt : list Z) (i : Z) : Z := 256 * pkt.[i] + pkt.[i + 1].

Definition proto_number (p : fw_proto) : Z :=
  match p with FW_PROTO_ANY => 0 | FW_PROTO_TCP => 6 | FW_PROTO_UDP => 17 | FW_PROTO_ICMP => 1 end.

Record selects (r : fw_rule) (pkt : list Z) (dir : Z) : Prop := {
  se_dir : direction r = 2 \/ direction r = dir;
  se_proto : r_proto r = FW_PROTO_ANY \/ pkt_proto pkt = proto_number (r_proto r);
  se_src : addr_selects (src_ip r) (src_mask r) (pkt_src pkt);
  se_dst : addr_selects (dst_ip r) (dst_mask r) (pkt_dst pkt);
  se_ports : (src_port r = 0 /\ dst_port r = 0) \/
    ((pkt_proto pkt = 6 \/ pkt_proto pkt = 17) /\
     port_selects (src_port r) (be16 pkt (pkt_l4 pkt)) /\
     port_selects (dst_port r) (be16 pkt (pkt_l4 pkt + 2)));
}.

(** ** Matching refines its specification *)

Definition ip_ok (a : ipv4_addr) : Prop := is_byte (ip0 a) /\ is_byte (ip1 a) /\ is_byte (ip2 a) /\ is_byte (ip3 a).

Lemma ip_to_u32_val a : ip_ok a -> ip_to_u32 a = 256 * (256 * (256 * ip0 a + ip1 a) + ip2 a) + ip3 a.
Proof.
  intros (H0 & H1 & H2 & H3). unfold ip_to_u32.
  rewrite <- (lor_high_low _ (ip3 a)), <- (lor_high_low _ (ip2 a)), <- (lor_high_low _ (ip1 a)) by done.
  by rewrite !Z.shiftl_lor, !Z.shiftl_shiftl by lia.
Qed.

Lemma ip_to_u32_range a : ip_ok a -> 0 <= ip_to_u32 a < 2 ^ 32.
Proof. intros H. rewrite ip_to_u32_val by done. destruct H as (? & ? & ? & ?). unfold is_byte in *. lia. Qed.

Lemma addr_matches_spec rip rmask ip :
  ip_ok rip -> ip_ok rmask -> ip_ok ip -> addr_matches rip rmask ip = true <-> addr_selects rip rmask ip.
Proof.
  intros Hr Hm Hi. unfold addr_matches, addr_selects. change (ipv4_is_zero rip) with (ipv4_eq rip IP_ZERO).
  rewrite orb_true_iff, ipv4_eq_spec, bool_decide_eq_true, Z.eqb_eq. apply or_iff_compat_l.
  pose proof (ip_to_u32_range _ Hr). pose proof (ip_to_u32_range _ Hm). pose proof (ip_to_u32_range _ Hi).
  split.
  - intros E i Hi32 Hmi. apply (f_equal (fun z => Z.testbit z i)) in E. rewrite !Z.land_spec, Hmi, !andb_true_r in E. done.
  - intros E. apply Z.bits_inj'. intros i Hi0. rewrite !Z.land_spec.
    destruct (decide (i < 32)); [|by rewrite !(testbit_high 32 (ip_to_u32 rmask)), !andb_false_r by lia].
    destruct (Z.testbit (ip_to_u32 rmask) i) eqn:Em; rewrite ?andb_false_r, ?andb_true_r; [|done]. by apply E.
Qed.

Record pkt_ok (pkt : list Z) : Prop := {
  pk_bytes : forall i, 0 <= i < len pkt -> is_byte pkt.[i];
  pk_len : 20 <= len pkt;
  pk_ports : pkt_proto pkt = 6 \/ pkt_proto pkt = 17 -> pkt_l4 pkt + 4 <= len pkt;
}.

Lemma pkt_l4_range pkt : 0 <= pkt_l4 pkt.
Proof. unfold pkt_l4. change 0x0F with (Z.ones 4). rewrite Z.land_ones by lia. zlia. Qed.

Record rule_ok (r : fw_rule) : Prop := {
  ro_ips : ip_ok (src_ip r) /\ ip_ok (src_mask r) /\ ip_ok (dst_ip r) /\ ip_ok (dst_mask r);
  ro_name : len (r_name r) <= 31;
}.

Lemma ports_match_spec r pkt :
  pkt_ok pkt ->
  ports_match r pkt = true <->
  (src_port r = 0 /\ dst_port r = 0) \/
  ((pkt_proto pkt = 6 \/ pkt_proto pkt = 17) /\
   port_selects (src_port r) (be16 pkt (pkt_l4 pkt)) /\ port_selects (dst_port r) (be16 pkt (pkt_l4 pkt + 2))).
Proof.
  intros [Hb Hl Hp]. unfold ports_match, port_selects, IP_PROTO_TCP, IP_PROTO_UDP. pose proof (pkt_l4_range pkt).
  destruct (Z.eqb_spec (src_port r) 0), (Z.eqb_spec (dst_port r) 0); simpl andb; cbv iota; [by split; [left|]|..];
    (destruct (Z.eqb_spec (pkt_proto pkt) 6), (Z.eqb_spec (pkt_proto pkt) 17); simpl andb; cbv iota;
     [lia|specialize (Hp ltac:(lia))|specialize (Hp ltac:(lia))|split; [done|lia]]);
    rewrite !ntohs16_load16 by (apply Hb; lia); unfold be16;
    repeat match goal with |- context [?a =? ?b] => destruct (Z.eqb_spec a b) end; simpl; (split; [|lia]);
    try done; intros _; right; (split; [lia|]); (split; lia).
Qed.

Lemma rule_matches_spec r pkt dir :
  rule_ok r -> pkt_ok pkt -> rule_matches r pkt dir = true <-> selects r pkt dir.
Proof.
  intros [(Hs & Hsm & Hd & Hdm) _] Hp. unfold rule_matches.
  assert (ip_ok (pkt_src pkt) /\ ip_ok (pkt_dst pkt)) as [Hps Hpd].
  { destruct Hp as [Hb Hl _]. unfold ip_ok, pkt_src, pkt_dst. simpl. split_and!; apply Hb; lia. }
  pose proof (addr_matches_spec _ _ _ Hs Hsm Hps) as Es. pose proof (addr_matches_spec _ _ _ Hd Hdm Hpd) as Ed.
  pose proof (ports_match_spec r pkt Hp) as Ep.
  assert (proto_matches (r_proto r) (pkt_proto pkt) = true <->
    (r_proto r = FW_PROTO_ANY \/ pkt_proto pkt = proto_number (r_proto r))) as Eq.
  { destruct (r_proto r); simpl; rewrite ?Z.eqb_eq; unfold IP_PROTO_TCP, IP_PROTO_UDP, IP_PROTO_ICMP;
      split; intros; naive_solver. }
  assert (negb (negb (direction r =? 2) && negb (direction r =? dir)) = true <->
    (direction r = 2 \/ direction r = dir)) as Edir.
  { rewrite negb_true_iff, andb_false_iff, !negb_false_iff, !Z.eqb_eq. done. }
  destruct (negb (direction r =? 2) && negb (direction r =? dir)); simpl in *.
  { split; [done|]. intros [H _ _ _ _]. by apply Edir in H. }
  destruct (proto_matches _ _); simpl; [|split; [done|]; intros [_ H _ _ _]; by apply Eq in H].
  destruct (addr_matches (src_ip r) _ _); simpl; [|split; [done|]; intros [_ _ H _ _]; by apply Es in H].
  destruct (addr_matches (dst_ip r) _ _); simpl; [|split; [done|]; intros [_ _ _ H _]; by apply Ed in H].
  rewrite Ep. split; [|by intros []]. intros H. constructor; [by apply Edir|by apply Eq|by apply Es|by apply Ed|done].
Qed.

(** ** Invariant *)

Record fw_ok (s : fw) : Prop := {
  fo_len : len (rules s) = FW_MAX_RULES;
  fo_rules : forall i, 0 <= i < FW_MAX_RULES -> rule_ok (rules s).[i];
}.

Lemma zero_rule_ok : rule_ok zero_rule.
Proof. by repeat constructor. Qed.

Lemma zero_rules_ok s : rules s = replicate (Z.to_nat FW_MAX_RULES) zero_rule -> fw_ok s.
Proof.
  intros E. constructor; rewrite E; [done|]. intros i Hi.
  rewrite geti_replicate by (unfold FW_MAX_RULES in *; lia). apply zero_rule_ok.
Qed.

Lemma set_rule_ok s i r : fw_ok s -> 0 <= i < FW_MAX_RULES -> rule_ok r -> fw_ok (with_rules s (rules s).[i <- r]).
Proof.
  intros [Hl Hr] Hi Ho. constructor; simpl; autorewrite with arr; [done|]. intros j Hj.
  rewrite geti_seti by lia. case_decide; auto.
Qed.

Lemma ensure_init_ok s : fw_ok s -> fw_ok (ensure_init s).
Proof. intros H. unfold ensure_init. case_match; [done|]. by apply zero_rules_ok. Qed.

(** The rule [fw_check] applies: the first in use that selects the packet. *)
Definition first_match (s : fw) (pkt : list Z) (dir i : Z) : Prop :=
  0 <= i < FW_MAX_RULES /\ r_in_use (rules s).[i] = true /\ selects (rules s).[i] pkt dir /\
  forall k, 0 <= k < i -> r_in_use (rules s).[k] = true -> ~ selects (rules s).[k] pkt dir.

Definition no_match (s : fw) (pkt : list Z) (dir : Z) : Prop :=
  forall k, 0 <= k < FW_MAX_RULES -> r_in_use (rules s).[k] = true -> ~ selects (rules s).[k] pkt dir.

Definition count_rule (r : fw_rule) : fw_rule := set_count r (u64 (match_count r + 1)).

Lemma check_loop_spec s pkt dir :
  fw_ok s -> pkt_ok pkt ->
  match for_loop (check_rule pkt dir) (Z.to_nat FW_MAX_RULES) 0 s with
  | Stop (s', a) => exists i, first_match s pkt dir i /\ a = r_action (rules s).[i] /\
      s' = with_stats (with_rules s (rules s).[i <- count_rule (rules s).[i]]) (count_action (stats s) dir a)
  | Next s' => s' = s /\ no_match s pkt dir
  end.
Proof.
  intros Hs Hp.
  pose proof (for_loop_ind (check_rule pkt dir)
    (fun i s' => s' = s /\ forall k, 0 <= k < i -> r_in_use (rules s).[k] = true -> ~ selects (rules s).[k] pkt dir)
    (fun '(s', a) => exists i, first_match s pkt dir i /\ a = r_action (rules s).[i] /\
      s' = with_stats (with_rules s (rules s).[i <- count_rule (rules s).[i]]) (count_action (stats s) dir a))
    (Z.to_nat FW_MAX_RULES) 0 s) as H.
  change (0 + Z.of_nat (Z.to_nat FW_MAX_RULES)) with FW_MAX_RULES in H. apply H; clear H.
  - split; [done|lia].
  - intros j t Hj [-> Hk]. unfold check_rule. pose proof (fo_rules s Hs j Hj) as Hr.
    destruct (r_in_use (rules s).[j]) eqn:Eu; simpl.
    2:{ split; [done|]. intros k Hkj Hu. destruct (decide (k = j)) as [->|]; [congruence|]. apply Hk; [lia|done]. }
    pose proof (rule_matches_spec (rules s).[j] pkt dir Hr Hp) as Hm.
    destruct (rule_matches _ _ _).
    + exists j. split; [|done]. split; [done|]. split; [done|]. split; [by apply Hm|done].
    + split; [done|]. intros k Hkj Hu. destruct (decide (k = j)) as [->|]; [intros H; by apply Hm in H|].
      apply Hk; [lia|done].
Qed.

Lemma fw_check_cases s pkt dir :
  fw_ok s -> pkt_ok pkt ->
  let s0 := with_stats (ensure_init s) (count_total (stats (ensure_init s)) dir) in
  (exists i, first_match s0 pkt dir i /\
     fw_check s pkt dir =
       (with_stats (with_rules s0 (rules s0).[i <- count_rule (rules s0).[i]])
          (count_action (stats s0) dir (r_action (rules s0).[i])), r_action (rules s0).[i])) \/
  (no_match s0 pkt dir /\
   let a := if dir =? 0 then default_in_policy s0 else default_out_policy s0 in
   fw_check s pkt dir = (with_stats s0 (count_action (stats s0) dir a), a)).
Proof.
  intros Hs Hp s0. assert (fw_ok s0) as Hs0 by (destruct (ensure_init_ok s Hs); by constructor).
  pose proof (check_loop_spec s0 pkt dir Hs0 Hp) as H. unfold fw_check. cbv zeta. fold s0.
  destruct (for_loop _ _ _ _) as [s'|[s' a]].
  - destruct H as [-> H]. by right.
  - destruct H as (i & H & -> & ->). left. by exists i.
Qed.

(** The statistics [t'] are [t] after one more packet in direction [dir] with
    the verdict [a]: one more in the total of its direction and one more in the
    counter of its verdict (rejected packets have one for both directions). *)
Definition bump (b : bool) (x : Z) : Z := if b then u64 (x + 1) else x.

Record counted_once (t t' : fw_stats) (dir : Z) (a : fw_action) : Prop := {
  co_total_in : total_in t' = bump (bool_decide (dir = 0)) (total_in t);
  co_total_out : total_out t' = bump (bool_decide (dir <> 0)) (total_out t);
  co_accepted_in : accepted_in t' = bump (bool_decide (a = FW_ACCEPT /\ dir = 0)) (accepted_in t);
  co_accepted_out : accepted_out t' = bump (bool_decide (a = FW_ACCEPT /\ dir <> 0)) (accepted_out t);
  co_dropped_in : dropped_in t' = bump (bool_decide (a = FW_DROP /\ dir = 0)) (dropped_in t);
  co_dropped_out : dropped_out t' = bump (bool_decide (a = FW_DROP /\ dir <> 0)) (dropped_out t);
  co_rejected : rejected_in t' = bump (bool_decide (a = FW_REJECT)) (rejected_in t);
}.

Lemma count_once t dir a : counted_once t (count_action (count_total t dir) dir a) dir a.
Proof.
  unfold count_total, count_action, bump. destruct a, (Z.eqb_spec dir 0); constructor; case_bool_decide; naive_solver.
Qed.

(** ** Sequences of calls *)

Inductive fw_op :=
| OpInit
| OpAdd (name : list Z) (a : fw_action) (p : fw_proto) (sip smask dip dmask : ipv4_addr)
    (sport dport dir : Z) (log : bool)
| OpRemove (name : list Z)
| OpRemoveId (id : Z)
| OpFlush
| OpDefault (dir : Z) (a : fw_action)
| OpCheck (pkt : list Z) (dir : Z).

Definition op_ok (o : fw_op) : Prop :=
  match o with
  | OpAdd _ _ _ sip smask dip dmask _ _ _ _ => ip_ok sip /\ ip_ok smask /\ ip_ok dip /\ ip_ok dmask
  | OpCheck pkt _ => pkt_ok pkt
  | _ => True
  end.

Definition fw_exec (s : fw) (o : fw_op) : fw :=
  match o with
  | OpInit => fw_init s
  | OpAdd n a p sip sm dip dm sp dp d l => (fw_add_rule s n a p sip sm dip dm sp dp d l).1
  | OpRemove n => (fw_remove_rule s n).1
  | OpRemoveId i => (fw_remove_rule_by_id s i).1
  | OpFlush => fw_flush s
  | OpDefault d a => fw_set_default s d a
  | OpCheck pkt d => (fw_check s pkt d).1
  end.

(** Packets seen and packets given a verdict. *)
Definition balance (t : fw_stats) : Z :=
  u64 (total_in t + total_out t -
       (accepted_in t + accepted_out t + dropped_in t + dropped_out t + rejected_in t)).

Lemma balance_step t dir a : balance (count_action (count_total t dir) dir a) = balance t.
Proof.
  destruct t. unfold balance, count_total, count_action, wrap. simpl.
  destruct a, (dir =? 0); simpl; change (2 ^ 64) with 18446744073709551616; zlia.
Qed.

Definition fw_inv (s : fw) : Prop := fw_ok s /\ balance (stats s) = 0.

Lemma remove_at_ok s i : fw_ok s -> 0 <= i < FW_MAX_RULES -> fw_ok (with_rules s (rules s).[i <- set_use (rules s).[i] false]).
Proof. intros Hs Hi. apply set_rule_ok; try done. by destruct (fo_rules s Hs i Hi). Qed.

Lemma find_rule_range p j : find_from p (Z.to_nat FW_MAX_RULES) 0 = Some j -> 0 <= j < FW_MAX_RULES.
Proof. by intros (Hj & _)%find_from_Some. Qed.

Lemma fw_exec_inv s o : fw_inv s -> op_ok o -> fw_inv (fw_exec s o).
Proof.
  intros [Hs Hb] Ho. assert (fw_inv (ensure_init s)) as [Hs1 Hb1].
  { split; [by apply ensure_init_ok|]. unfold ensure_init. by case_match. }
  destruct o; simpl in Ho |- *.
  - split; [by apply zero_rules_ok|done].
  - unfold fw_add_rule. destruct (find_from _ _ _) as [i|] eqn:E; [|done].
    apply find_rule_range in E. split; [|done]. apply set_rule_ok; try done. constructor; [done|].
    simpl. unfold len. rewrite length_take. lia.
  - unfold fw_remove_rule. destruct (find_from _ _ _) as [i|] eqn:E; [|done].
    apply find_rule_range in E. split; [by apply remove_at_ok|done].
  - unfold fw_remove_rule_by_id. destruct (_ || _) eqn:E; [done|].
    destruct (r_in_use _); [|done]. split; [|done]. apply remove_at_ok; [done|].
    apply orb_false_iff in E as [?%Z.ltb_ge ?%Z.leb_gt]. lia.
  - split; [by apply zero_rules_ok|done].
  - unfold fw_set_default. destruct Hs as [? ?]. case_match; (split; [by constructor|done]).
  - pose proof (balance_step (stats (ensure_init s)) dir) as Hbs.
    destruct (fw_check_cases s pkt dir Hs Ho) as [(i & Hi & ->)|[_ ->]]; simpl.
    + split; [|by etransitivity; [apply Hbs|]]. destruct Hi as (Hr & _).
      destruct (set_rule_ok (ensure_init s) i (count_rule (rules (ensure_init s)).[i]) Hs1 Hr) as [? ?]; [|by constructor].
      by destruct (fo_rules _ Hs1 i Hr).
    + split; [destruct Hs1; by constructor|by etransitivity; [apply Hbs|]].
Qed.

Lemma fw_run_inv s os : fw_inv s -> Forall op_ok os -> fw_inv (fold_left fw_exec os s).
Proof.
  intros Hs Ho. revert s Hs. induction Ho as [|o os Ho _ IH]; intros s Hs; [done|]. simpl.
  by apply IH, fw_exec_inv.
Qed.

(** ** Properties *)

(** C9: [fw_check] is first match: its verdict is the action of the first
    rule in use that selects the packet (direction, protocol, masked addresses,
    big-endian ports), or the default of the direction when none does; it
    changes no rule but that rule's match count, and no policy, and counts the
    packet once in the statistics, by its direction and its verdict. *)
Theorem fw_check_first_match s pkt dir :
  fw_ok s -> fw_initialized s = true -> pkt_ok pkt ->
  let s' := (fw_check s pkt dir).1 in
  (default_in_policy s', default_out_policy s') = (default_in_policy s, default_out_policy s) /\
  counted_once (stats s) (stats s') dir (fw_check s pkt dir).2 /\
  ((exists i, first_match s pkt dir i /\ (fw_check s pkt dir).2 = r_action (rules s).[i] /\
      rules s' = (rules s).[i <- count_rule (rules s).[i]]) \/
   (no_match s pkt dir /\ rules s' = rules s /\
      (fw_check s pkt dir).2 = if dir =? 0 then default_in_policy s else default_out_policy s)).
Proof.
  intros Hs Hi Hp s'. subst s'. assert (ensure_init s = s) as E by (unfold ensure_init; by rewrite Hi).
  destruct (fw_check_cases s pkt dir Hs Hp) as [(i & Hf & ->)|[Hn ->]]; rewrite E in *; simpl.
  - split; [done|]. split; [apply count_once|]. left. by exists i.
  - split; [done|]. split; [apply count_once|]. by right.
Qed.

(** An initialised table with two rules: drop inbound TCP from 10.0.0.0/8 to
    port 22, reject everything else from 10.0.0.0/8. *)
Definition demo_ops : list fw_op :=
  [OpInit;
   OpAdd [115; 115; 104] FW_DROP FW_PROTO_TCP (mkIp 10 0 0 0) (mkIp 255 0 0 0) IP_ZERO IP_ZERO 0 22 0 false;
   OpAdd [108; 97; 110] FW_REJECT FW_PROTO_ANY (mkIp 10 0 0 0) (mkIp 255 0 0 0) IP_ZERO IP_ZERO 0 0 2 false].

Definition demo_fw : fw :=
  fold_left fw_exec demo_ops (mkFw (replicate 32 zero_rule) (mkStats 0 0 0 0 0 0 0) FW_ACCEPT FW_ACCEPT false).

(** 10.1.2.3 port 4096 to 10.0.0.9 port 22, TCP. *)
Definition demo_pkt : list Z :=
  [0x45; 0; 0; 24; 0; 0; 0; 0; 64; 6; 0; 0; 10; 1; 2; 3; 10; 0; 0; 9; 16; 0; 0; 22].

Lemma demo_ops_ok : Forall op_ok demo_ops.
Proof. repeat constructor; by vm_compute. Qed.

Lemma demo_fw_inv : fw_inv demo_fw.
Proof. apply fw_run_inv; [|apply demo_ops_ok]. split; [by apply zero_rules_ok|by vm_compute]. Qed.

Lemma bytes_ok l : Forall is_byte l -> forall i, 0 <= i < len l -> is_byte l.[i].
Proof.
  intros H i Hi. rewrite Forall_lookup in H. apply (H (Z.to_nat i)). by apply geti_lookup.
Qed.

Lemma demo_pkt_ok : pkt_ok demo_pkt.
Proof.
  constructor; [|by vm_compute|by vm_compute]. apply bytes_ok. repeat constructor; by vm_compute.
Qed.

Lemma fw_check_first_match_witness :
  (fw_check demo_fw demo_pkt 0).2 = FW_DROP /\
  (default_in_policy (fw_check demo_fw demo_pkt 0).1, default_out_policy (fw_check demo_fw demo_pkt 0).1) =
  (default_in_policy demo_fw, default_out_policy demo_fw) /\
  dropped_in (stats (fw_check demo_fw demo_pkt 0).1) = 1.
Proof.
  destruct (fw_check_first_match demo_fw demo_pkt 0 (proj1 demo_fw_inv) eq_refl demo_pkt_ok) as (E & C & _).
  split; [by vm_compute|]. split; [exact E|]. rewrite (co_dropped_in _ _ _ _ C). by vm_compute.
Defined.

(** accounting.  After any sequence of calls every packet counted on
    entry is counted by exactly one verdict: the two totals agree modulo
    2^64, and every rule still has a name of at most 31 bytes. *)
Theorem fw_accounting s os :
  fw_inv s -> Forall op_ok os ->
  let t := fw_get_stats (fold_left fw_exec os s) in
  u64 (total_in t + total_out t) =
  u64 (accepted_in t + accepted_out t + dropped_in t + dropped_out t + rejected_in t).
Proof.
  intros Hs Ho. destruct (fw_run_inv s os Hs Ho) as [_ Hb]. unfold fw_get_stats, balance, wrap in *. cbv zeta.
  change (2 ^ 64) with 18446744073709551616 in *. zlia.
Qed.

Lemma fw_accounting_witness :
  let t := fw_get_stats (fold_left fw_exec [OpCheck demo_pkt 0; OpCheck demo_pkt 1] demo_fw) in
  total_in t = 1 /\ total_out t = 1 /\
  u64 (total_in t + total_out t) =
  u64 (accepted_in t + accepted_out t + dropped_in t + dropped_out t + rejected_in t).
Proof.
  split; [by vm_compute|]. split; [by vm_compute|].
  apply (fw_accounting demo_fw [OpCheck demo_pkt 0; OpCheck demo_pkt 1] demo_fw_inv).
  constructor; [apply demo_pkt_ok|]. constructor; [apply demo_pkt_ok|constructor].
Defined.

(** rule names are cut at 31 bytes on the way in but compared whole on
    the way out: whatever calls were made, [fw_remove_rule] never finds a rule
    by a longer name, not even one just added under it; a rule just added is
    removed by its index. *)
Theorem fw_remove_long_name s os name a p sip sm dip dm sp dp d l :
  fw_inv s -> Forall op_ok os -> op_ok (OpAdd name a p sip sm dip dm sp dp d l) -> 31 < len name ->
  let s1 := fold_left fw_exec os s in
  let r := fw_add_rule s1 name a p sip sm dip dm sp dp d l in
  fw_remove_rule r.1 name = (r.1, -1) /\
  (0 <= r.2 -> (fw_remove_rule_by_id r.1 r.2).2 = 0 /\
     forall i, 0 <= i < FW_MAX_RULES ->
       r_in_use (rules (fw_remove_rule_by_id r.1 r.2).1).[i] = r_in_use (rules (ensure_init s1)).[i]).
Proof.
  intros Hs Ho Ha Hl s1 r. pose proof (fw_run_inv s os Hs Ho) as Hs1. fold s1 in Hs1.
  assert (fw_inv r.1) as [[Hrl Hr] _] by (subst r; apply (fw_exec_inv s1 (OpAdd name a p sip sm dip dm sp dp d l) Hs1 Ha)).
  split.
  - unfold fw_remove_rule. destruct (find_from _ _ _) as [i|] eqn:E; [|done].
    apply find_from_Some in E as (Hi & [_ Hn]%andb_true_iff & _). apply bool_decide_eq_true in Hn.
    pose proof (ro_name _ (Hr i ltac:(done))) as H31. rewrite Hn in H31. lia.
  - subst r. pose proof (ensure_init_ok s1 (proj1 Hs1)) as [El _]. unfold fw_add_rule.
    destruct (find_from _ _ _) as [i|] eqn:E; [|simpl; lia]. intros _. simpl.
    apply find_from_Some in E as (Hi & Hu%negb_true_iff & _).
    change (0 + Z.of_nat (Z.to_nat FW_MAX_RULES)) with FW_MAX_RULES in Hi.
    unfold fw_remove_rule_by_id. rewrite (proj2 (Z.ltb_ge i 0)), (proj2 (Z.leb_gt FW_MAX_RULES i)) by lia. simpl.
    rewrite geti_seti_eq by lia. simpl. split; [done|]. intros k Hk.
    rewrite geti_seti by (autorewrite with arr; lia). case_decide; [by subst|]. by rewrite geti_seti_ne by lia.
Qed.

Lemma fw_remove_long_name_witness :
  let r := fw_add_rule demo_fw (replicate 40 97) FW_DROP FW_PROTO_ANY IP_ZERO IP_ZERO IP_ZERO IP_ZERO 0 0 2 false in
  r.2 = 2 /\ fw_remove_rule r.1 (replicate 40 97) = (r.1, -1).
Proof.
  split; [by vm_compute|].
  apply (fw_remove_long_name demo_fw [] (replicate 40 97) FW_DROP FW_PROTO_ANY IP_ZERO IP_ZERO IP_ZERO IP_ZERO 0 0 2 false);
    [apply demo_fw_inv|constructor|repeat split; by vm_compute|by vm_compute].
Defined.
