(* ===== verification/Tmpfs.v ===== *)
(** * The /tmp file system: kernel/fs/tmpfs.c

    Paths and names are the bytes before the NUL; a path argument is an option,
    [None] for NULL.  A file's buffer is the list of the 65536 bytes kmalloc
    returned for it; what kmalloc answers, and the bytes it leaves there, is
    the argument [fresh].  [memcpy] and [memset] are [splice]. *)

From S2P Require Import Prelude.

(** ** kernel/include/lestra/tmpfs.h, vfs.h, types.h *)

Definition TMPFS_FD_BASE : Z := 500.
Definition TMPFS_MAX_OPEN : Z := 100.
Definition TMPFS_MAX_FILES : Z := 64.
Definition TMPFS_MAX_FILE_SIZE : Z := 64 * 1024.
Definition O_CREAT : Z := 0x0010.
Definition O_TRUNC : Z := 0x0020.
Definition O_APPEND : Z := 0x0040.
Definition EFAULT : Z := -14.
Definition MAX_NAME_LEN : Z := 64.
Definition has (flags f : Z) : bool := negb (Z.land flags f =? 0).

(** "/tmp", "/tmp/" *)
Definition TMP : list Z := [47; 116; 109; 112].
Definition TMP_SLASH : list Z := TMP ++ [47].

(** ** State *)

Record tmpfs_inode := mkInode {
  i_used : bool;
  i_name : list Z;
  i_size : Z;
  i_data : option (list Z);
  i_refcount : Z;
}.

Record tmpfs_open_file := mkOpen {
  o_used : bool;
  inode_idx : Z;
  o_pos : Z;
  o_flags : Z;
  is_dir : bool;
}.

Definition zero_inode : tmpfs_inode := mkInode false [] 0 None 0.
Definition zero_open : tmpfs_open_file := mkOpen false 0 0 0 false.
#[export] Instance tmpfs_inode_inhabited : Inhabited tmpfs_inode := populate zero_inode.
#[export] Instance tmpfs_open_file_inhabited : Inhabited tmpfs_open_file := populate zero_open.

Record tmpfs := mkTmpfs { inodes : list tmpfs_inode; opens : list tmpfs_open_file }.

Definition set_inode (s : tmpfs) (i : Z) (n : tmpfs_inode) : tmpfs := mkTmpfs (inodes s).[i <- n] (opens s).
Definition set_open (s : tmpfs) (i : Z) (o : tmpfs_open_file) : tmpfs := mkTmpfs (inodes s) (opens s).[i <- o].

Definition with_size (n : tmpfs_inode) (sz : Z) : tmpfs_inode :=
  mkInode (i_used n) (i_name n) sz (i_data n) (i_refcount n).
Definition with_refcount (n : tmpfs_inode) (r : Z) : tmpfs_inode :=
  mkInode (i_used n) (i_name n) (i_size n) (i_data n) r.
Definition with_data (n : tmpfs_inode) (d : option (list Z)) : tmpfs_inode :=
  mkInode (i_used n) (i_name n) (i_size n) d (i_refcount n).
Definition with_pos (o : tmpfs_open_file) (p : Z) : tmpfs_open_file :=
  mkOpen (o_used o) (inode_idx o) p (o_flags o) (is_dir o).

(** ** Operations *)

Definition tmpfs_init (s : tmpfs) : tmpfs :=
  mkTmpfs (replicate (Z.to_nat TMPFS_MAX_FILES) zero_inode) (replicate (Z.to_nat TMPFS_MAX_OPEN) zero_open).

Definition tmpfs_is_tmpfs_fd (fd : Z) : bool := (TMPFS_FD_BASE <=? fd) && (fd <? TMPFS_FD_BASE + TMPFS_MAX_OPEN).

(** [if (strncmp(p, "/tmp/", 5) == 0) p += 5;] *)
Definition strip_tmp (path : list Z) : list Z :=
  if bool_decide (take 5 path = TMP_SLASH) then drop 5 path else path.

Definition find_inode (s : tmpfs) (path : option (list Z)) : option Z :=
  match path with
  | None => None
  | Some path =>
      if negb (bool_decide (take 5 path = TMP_SLASH)) && bool_decide (path = TMP) then None
      else find_from (fun i => i_used (inodes s).[i] && bool_decide (i_name (inodes s).[i] = strip_tmp path))
             (Z.to_nat TMPFS_MAX_FILES) 0
  end.

Definition alloc_inode (s : tmpfs) (fresh : option (list Z)) (path : list Z) : tmpfs * option Z :=
  match find_from (fun i => negb (i_used (inodes s).[i])) (Z.to_nat TMPFS_MAX_FILES) 0 with
  | None => (s, None)
  | Some i =>
      let name := take 63 (strip_tmp path) in
      match fresh with
      | None => (set_inode s i (mkInode false name 0 None 0), None)
      | Some d => (set_inode s i (mkInode true name 0 (Some d) 0), Some i)
      end
  end.

Definition free_open (s : tmpfs) : option Z :=
  find_from (fun i => negb (o_used (opens s).[i])) (Z.to_nat TMPFS_MAX_OPEN) 0.

(** The last part of [tmpfs_open], for the inode [idx]. *)
Definition open_inode (s : tmpfs) (idx flags : Z) : tmpfs * Z :=
  let n := (inodes s).[idx] in
  let s := if has flags O_TRUNC && bool_decide (i_data n <> None) then set_inode s idx (with_size n 0) else s in
  match free_open s with
  | None => (s, -1)
  | Some i =>
      let n := (inodes s).[idx] in
      let pos := if has flags O_APPEND then i_size n else 0 in
      let s := set_open s i (mkOpen true idx pos flags false) in
      (set_inode s idx (with_refcount n (i_refcount n + 1)), i + TMPFS_FD_BASE)
  end.

Definition tmpfs_open (s : tmpfs) (fresh : option (list Z)) (path : option (list Z)) (flags : Z) : tmpfs * Z :=
  if match path with Some p => bool_decide (p = TMP) || bool_decide (p = TMP_SLASH) | None => false end then
    match free_open s with
    | Some i => (set_open s i (mkOpen true (-1) 0 flags true), i + TMPFS_FD_BASE)
    | None => (s, -1)
    end
  else
    match find_inode s path with
    | Some idx => open_inode s idx flags
    | None =>
        if has flags O_CREAT then
          (* [alloc_inode] reads the path; no caller passes NULL *)
          match alloc_inode s fresh (default [] path) with
          | (s, None) => (s, -1)
          | (s, Some idx) => open_inode s idx flags
          end
        else (s, -1)
    end.

(** "fd < 0 || fd >= TMPFS_MAX_OPEN || !tmpfs_opens[fd].used" *)
Definition bad_fd (s : tmpfs) (fd : Z) : bool :=
  (fd <? 0) || (TMPFS_MAX_OPEN <=? fd) || negb (o_used (opens s).[fd]).

(** "idx < 0 || !tmpfs_inodes[idx].used" *)
Definition bad_inode (s : tmpfs) (idx : Z) : bool := (idx <? 0) || negb (i_used (inodes s).[idx]).

Definition tmpfs_close (s : tmpfs) (fd : Z) : tmpfs * Z :=
  let fd := fd - TMPFS_FD_BASE in
  if bad_fd s fd then (s, -1)
  else
    let o := (opens s).[fd] in
    let shut := mkOpen false (inode_idx o) (o_pos o) (o_flags o) false in
    if is_dir o then (set_open s fd shut, 0)
    else
      let idx := inode_idx o in
      let s := if (0 <=? idx) && (idx <? TMPFS_MAX_FILES) && i_used (inodes s).[idx]
               then set_inode s idx (with_refcount (inodes s).[idx] (i_refcount (inodes s).[idx] - 1))
               else s in
      (set_open s fd shut, 0).

(** The bytes copied to the caller come with the return value. *)
Definition tmpfs_read (s : tmpfs) (fd : Z) (buf : bool) (count : Z) : tmpfs * Z * list Z :=
  let fd := fd - TMPFS_FD_BASE in
  if bad_fd s fd then (s, -1, [])
  else if negb buf then (s, - EFAULT, [])
  else
    let o := (opens s).[fd] in
    if bad_inode s (inode_idx o) then (s, -1, [])
    else
      let ino := (inodes s).[inode_idx o] in
      if i_size ino <=? o_pos o then (s, 0, [])
      else
        let avail := i_size ino - o_pos o in
        let count := if avail <? count then avail else count in
        (set_open s fd (with_pos o (u64 (o_pos o + count))), s64 count,
         slice (default [] (i_data ino)) (o_pos o) count).

Definition tmpfs_write (s : tmpfs) (fd : Z) (buf : option (list Z)) (count : Z) : tmpfs * Z :=
  let fd := fd - TMPFS_FD_BASE in
  if bad_fd s fd then (s, -1)
  else
    match buf with
    | None => (s, - EFAULT)
    | Some bytes =>
        let idx := inode_idx (opens s).[fd] in
        if bad_inode s idx then (s, -1)
        else
          let ino := (inodes s).[idx] in
          let s := if has (o_flags (opens s).[fd]) O_APPEND
                   then set_open s fd (with_pos (opens s).[fd] (i_size ino)) else s in
          let pos := o_pos (opens s).[fd] in
          let count := if TMPFS_MAX_FILE_SIZE <? u64 (pos + count)
                       then (if pos <? TMPFS_MAX_FILE_SIZE then TMPFS_MAX_FILE_SIZE - pos else 0)
                       else count in
          if count =? 0 then (s, 0)
          else
            let ino := with_data ino (option_map (fun d => splice d pos (take (Z.to_nat count) bytes)) (i_data ino)) in
            let pos := u64 (pos + count) in
            let s := set_open s fd (with_pos (opens s).[fd] pos) in
            (set_inode s idx (if i_size ino <? pos then with_size ino pos else ino), s64 count)
    end.

Definition tmpfs_lseek (s : tmpfs) (fd offset whence : Z) : tmpfs * Z :=
  let fd := fd - TMPFS_FD_BASE in
  if bad_fd s fd then (s, -1)
  else
    let o := (opens s).[fd] in
    if bad_inode s (inode_idx o) then (s, -1)
    else
      let seek base :=
        let new_off := s64 (base + offset) in
        if new_off <? 0 then (s, -1) else (set_open s fd (with_pos o new_off), s32 new_off) in
      if whence =? 0 then seek 0
      else if whence =? 1 then seek (s64 (o_pos o))
      else if whence =? 2 then seek (s64 (i_size (inodes s).[inode_idx o]))
      else (s, -1).

Definition tmpfs_read_at (s : tmpfs) (fd : Z) (buf : bool) (count offset : Z) : Z * list Z :=
  let fd := fd - TMPFS_FD_BASE in
  if bad_fd s fd then (-1, [])
  else if negb buf then (- EFAULT, [])
  else
    let idx := inode_idx (opens s).[fd] in
    if bad_inode s idx then (-1, [])
    else
      let ino := (inodes s).[idx] in
      if i_size ino <=? u64 offset then (0, [])
      else
        let avail := i_size ino - u64 offset in
        let count := if avail <? count then avail else count in
        (s32 count, slice (default [] (i_data ino)) (u64 offset) count).

Definition tmpfs_unlink (s : tmpfs) (path : option (list Z)) : tmpfs * Z :=
  match find_inode s path with
  | None => (s, -1)
  | Some idx =>
      if 0 <? i_refcount (inodes s).[idx] then (s, -1)
      else (set_inode s idx (mkInode false [] 0 None (i_refcount (inodes s).[idx])), 0)
  end.

(** The two fields set, [mode] and [size]. *)
Definition S_IFDIR : Z := 0x4000.
Definition S_IFREG : Z := 0x8000.

Definition tmpfs_stat (s : tmpfs) (path : option (list Z)) (st : bool) : Z * option (Z * Z) :=
  match path with
  | None => (-1, None)
  | Some p =>
      if negb st then (-1, None)
      else if bool_decide (p = TMP) || bool_decide (p = TMP_SLASH)
      then (0, Some (Z.lor S_IFDIR 0x1ED, 0))
      else match find_inode s path with
           | None => (-1, None)
           | Some idx => (0, Some (Z.lor S_IFREG 0x1A4, i_size (inodes s).[idx]))
           end
  end.

(** The bytes between the old and the new length are cleared either way. *)
Definition resize (n : tmpfs_inode) (new_len : Z) : tmpfs_inode :=
  let old_len := i_size n in
  let zeros a b := option_map (fun d => splice d a (replicate (Z.to_nat (b - a)) 0)) (i_data n) in
  let n := if old_len <? new_len then with_data n (zeros old_len new_len)
           else if new_len <? old_len then with_data n (zeros new_len old_len) else n in
  with_size n new_len.

(** Positions past the new end move back to it. *)
Definition clip_pos (idx new_len : Z) (o : tmpfs_open_file) : tmpfs_open_file :=
  if o_used o && (inode_idx o =? idx) && (new_len <? o_pos o) then with_pos o new_len else o.

Definition do_truncate (s : tmpfs) (idx new_len : Z) : tmpfs :=
  mkTmpfs (inodes s).[idx <- resize (inodes s).[idx] new_len] (clip_pos idx new_len <$> opens s).

Definition tmpfs_truncate (s : tmpfs) (path : option (list Z)) (length : Z) : tmpfs * Z :=
  match path with
  | None => (s, -1)
  | Some _ =>
      if (length <? 0) || (TMPFS_MAX_FILE_SIZE <? length) then (s, -1)
      else match find_inode s path with
           | None => (s, -1)
           | Some idx => if negb (i_used (inodes s).[idx]) then (s, -1) else (do_truncate s idx length, 0)
           end
  end.

Definition tmpfs_ftruncate (s : tmpfs) (fd length : Z) : tmpfs * Z :=
  if (length <? 0) || (TMPFS_MAX_FILE_SIZE <? length) then (s, -1)
  else
    let fd := fd - TMPFS_FD_BASE in
    if bad_fd s fd then (s, -1)
    else if is_dir (opens s).[fd] then (s, -1)
    else
      let idx := inode_idx (opens s).[fd] in
      if (idx <? 0) || (TMPFS_MAX_FILES <=? idx) || negb (i_used (inodes s).[idx]) then (s, -1)
      else (do_truncate s idx length, 0).

(** The walk of [tmpfs_readdir]: [seen] files passed, [Stop i] the one at the cursor. *)
Definition readdir_step (s : tmpfs) (cursor i seen : Z) : ctl Z Z :=
  if negb (i_used (inodes s).[i]) then Next seen
  else if seen =? cursor then Stop i
  else Next (seen + 1).

(** Result: the new cursor [entry->inode] and [entry->name]. *)
Definition tmpfs_readdir (s : tmpfs) (fd : Z) (entry_inode : Z) : option (Z * list Z) :=
  let slot := fd - TMPFS_FD_BASE in
  if bad_fd s slot then None
  else if negb (is_dir (opens s).[slot]) then None
  else
    let cursor := s32 entry_inode in
    if cursor <? 0 then None
    else
      match for_loop (readdir_step s cursor) (Z.to_nat TMPFS_MAX_FILES) 0 0 with
      | Stop i => Some (u32 (cursor + 1), take 63 (i_name (inodes s).[i]))
      | Next _ => None
      end.

(** ** Invariant *)

(** Descriptor [j] is open on the file [i]. *)
Definition refers (s : tmpfs) (i j : Z) : bool :=
  o_used (opens s).[j] && negb (is_dir (opens s).[j]) && (inode_idx (opens s).[j] =? i).

Definition refs (s : tmpfs) (i : Z) : Z := count_from (refers s i) (Z.to_nat TMPFS_MAX_OPEN) 0.

Record inode_ok (n : tmpfs_inode) : Prop := {
  io_data : exists d, i_data n = Some d /\ len d = TMPFS_MAX_FILE_SIZE;
  io_size : 0 <= i_size n <= TMPFS_MAX_FILE_SIZE;
  io_name : len (i_name n) <= 63;
}.

Record open_ok (ins : list tmpfs_inode) (o : tmpfs_open_file) : Prop := {
  oo_pos : 0 <= o_pos o < 2 ^ 63;
  oo_dir : is_dir o = true -> inode_idx o = -1;
  oo_file : is_dir o = false -> 0 <= inode_idx o < TMPFS_MAX_FILES /\ i_used ins.[inode_idx o] = true;
}.

(** The buffers are whole, open descriptors refer to live files, and a file's
    reference count is the number of descriptors open on it. *)
Record tm_ok (s : tmpfs) : Prop := {
  tm_inodes : len (inodes s) = TMPFS_MAX_FILES;
  tm_opens : len (opens s) = TMPFS_MAX_OPEN;
  tm_inode : forall i, 0 <= i < TMPFS_MAX_FILES -> i_used (inodes s).[i] = true -> inode_ok (inodes s).[i];
  tm_open : forall j, 0 <= j < TMPFS_MAX_OPEN -> o_used (opens s).[j] = true -> open_ok (inodes s) (opens s).[j];
  tm_refs : forall i, 0 <= i < TMPFS_MAX_FILES -> i_used (inodes s).[i] = true ->
    i_refcount (inodes s).[i] = refs s i;
}.

Lemma refs_ext s s' i :
  (forall j, 0 <= j < TMPFS_MAX_OPEN -> refers s' i j = refers s i j) -> refs s' i = refs s i.
Proof. intros H. apply count_from_ext. intros j Hj. apply H. unfold TMPFS_MAX_OPEN in *. lia. Qed.

(** Changing a file in place: its buffer, size or name. *)
Lemma set_inode_ok s i n :
  tm_ok s -> 0 <= i < TMPFS_MAX_FILES -> i_used (inodes s).[i] = true ->
  i_used n = true -> inode_ok n -> i_refcount n = i_refcount (inodes s).[i] -> tm_ok (set_inode s i n).
Proof.
  intros [Li Lo In Op Re] Hi Hu Hn Hok Hr. constructor; simpl; autorewrite with arr; try done.
  - intros j Hj. rewrite geti_seti by lia. case_decide; auto.
  - intros j Hj Hju. destruct (Op j Hj Hju) as [P D F]. constructor; [done|done|].
    intros Hd. destruct (F Hd) as [F1 F2]. split; [done|]. simpl. rewrite geti_seti by lia. by case_decide.
  - intros j Hj. rewrite geti_seti by lia. case_decide as E; [subst; intros _; rewrite Hr; by apply Re|].
    by apply Re.
Qed.

(** Moving a descriptor's position. *)
Lemma move_pos_ok s j p :
  tm_ok s -> 0 <= j < TMPFS_MAX_OPEN -> o_used (opens s).[j] = true -> 0 <= p < 2 ^ 63 ->
  tm_ok (set_open s j (with_pos (opens s).[j] p)).
Proof.
  intros [Li Lo In Op Re] Hj Hu Hp. constructor; simpl; autorewrite with arr; try done.
  - intros k Hk. rewrite geti_seti by lia. case_decide; [|apply Op; done].
    intros _. by destruct (Op j Hj Hu) as [P D F].
  - intros i Hi Hiu. rewrite Re by done. symmetry. apply refs_ext. intros k Hk. unfold refers. simpl.
    rewrite geti_seti by lia. by case_decide; subst.
Qed.

Lemma bad_fd_false s fd : bad_fd s fd = false <-> 0 <= fd < TMPFS_MAX_OPEN /\ o_used (opens s).[fd] = true.
Proof.
  unfold bad_fd. rewrite !orb_false_iff, Z.ltb_ge, Z.leb_gt, negb_false_iff. lia || tauto.
Qed.

(** A descriptor that passes the two guards is open on a live file. *)
Lemma guards_file s j :
  tm_ok s -> bad_fd s j = false -> bad_inode s (inode_idx (opens s).[j]) = false ->
  0 <= j < TMPFS_MAX_OPEN /\ open_ok (inodes s) (opens s).[j] /\ is_dir (opens s).[j] = false /\
  0 <= inode_idx (opens s).[j] < TMPFS_MAX_FILES /\
  i_used (inodes s).[inode_idx (opens s).[j]] = true /\ inode_ok (inodes s).[inode_idx (opens s).[j]].
Proof.
  intros Hs [Hj Hu]%bad_fd_false Hb. unfold bad_inode in Hb. apply orb_false_iff in Hb as [Hb Hiu%negb_false_iff].
  apply Z.ltb_ge in Hb. pose proof (tm_open s Hs j Hj Hu) as Ho.
  destruct (is_dir (opens s).[j]) eqn:Ed; [rewrite (oo_dir _ _ Ho Ed) in Hb; lia|].
  destruct (oo_file _ _ Ho Ed) as [Hi Hiu']. split_and!; try done; try lia. by apply (tm_inode s Hs).
Qed.

Lemma find_inode_spec s path i :
  find_inode s path = Some i -> 0 <= i < TMPFS_MAX_FILES /\ i_used (inodes s).[i] = true /\
    exists p, path = Some p /\ i_name (inodes s).[i] = strip_tmp p.
Proof.
  unfold find_inode. destruct path as [p|]; [|done]. destruct (_ && _); [done|].
  intros (Hi & [Hu Hn]%andb_true_iff & _)%find_from_Some. apply bool_decide_eq_true in Hn.
  split; [done|]. split; [done|]. by exists p.
Qed.

(** ** Every call keeps the invariant *)

Lemma find_file_range p j : find_from p (Z.to_nat TMPFS_MAX_FILES) 0 = Some j -> 0 <= j < TMPFS_MAX_FILES.
Proof. by intros (Hj & _)%find_from_Some. Qed.

Lemma free_open_spec s j : free_open s = Some j -> 0 <= j < TMPFS_MAX_OPEN /\ o_used (opens s).[j] = false.
Proof. unfold free_open. intros (Hj & Hu%negb_true_iff & _)%find_from_Some. done. Qed.

Lemma trunc_ok s i : tm_ok s -> 0 <= i < TMPFS_MAX_FILES -> i_used (inodes s).[i] = true ->
  tm_ok (set_inode s i (with_size (inodes s).[i] 0)).
Proof.
  intros Hs Hi Hu. apply set_inode_ok; try done. destruct (tm_inode s Hs i Hi Hu) as [D _ N].
  constructor; simpl; [done|unfold TMPFS_MAX_FILE_SIZE; lia|done].
Qed.

(** A new descriptor on a live file, with its reference counted. *)
Lemma add_open_ok s i j p f :
  tm_ok s -> 0 <= i < TMPFS_MAX_FILES -> i_used (inodes s).[i] = true ->
  0 <= j < TMPFS_MAX_OPEN -> o_used (opens s).[j] = false -> 0 <= p < 2 ^ 63 ->
  tm_ok (set_inode (set_open s j (mkOpen true i p f false)) i
           (with_refcount (inodes s).[i] (i_refcount (inodes s).[i] + 1))).
Proof.
  intros [Li Lo In Op Re] Hi Hu Hj Hju Hp. constructor; simpl; autorewrite with arr; try done.
  - intros k Hk. rewrite geti_seti by lia. case_decide as E; [subst|by apply In].
    intros _. by destruct (In k Hk Hu).
  - intros k Hk. rewrite geti_seti by lia. case_decide as E; intros Hku.
    + constructor; simpl; [done|done|]. intros _. split; [done|]. rewrite geti_seti_eq by lia. done.
    + destruct (Op k Hk Hku) as [P D F]. constructor; [done|done|]. intros Hd. destruct (F Hd).
      split; [done|]. simpl. rewrite geti_seti by lia. by case_decide.
  - intros k Hk Hku.
    assert (i_used (inodes s).[k] = true) as Hks by (rewrite geti_seti in Hku by lia; by case_decide; subst).
    set (s' := set_inode _ _ _).
    assert (refs s' k = refs s k + Z.b2z (refers s' k j) - Z.b2z (refers s k j)) as ->.
    { apply count_from_update; [unfold TMPFS_MAX_OPEN in *; lia|]. intros l Hl Hne. unfold refers. simpl.
      by rewrite geti_seti_ne by lia. }
    unfold refers at 1 2. simpl. rewrite Hju, !(geti_seti_eq (opens s)) by lia. simpl.
    rewrite geti_seti by lia. case_decide as E.
    + subst k. rewrite Z.eqb_refl. simpl. rewrite Re by done. lia.
    + rewrite (proj2 (Z.eqb_neq i k)) by done. simpl. rewrite Re by done. lia.
Qed.

Lemma open_inode_ok s i f : tm_ok s -> 0 <= i < TMPFS_MAX_FILES -> i_used (inodes s).[i] = true ->
  tm_ok (open_inode s i f).1.
Proof.
  intros Hs Hi Hu. unfold open_inode.
  match goal with |- context [free_open ?x] => set (s1 := x) end.
  assert (tm_ok s1 /\ i_used (inodes s1).[i] = true) as [Hs1 Hu1].
  { pose proof (tm_inodes s Hs). subst s1. case_match; [|done]. split; [by apply trunc_ok|].
    simpl. by rewrite geti_seti_eq by lia. }
  destruct (free_open s1) as [j|] eqn:E; [|done]. apply free_open_spec in E as [Hj Hju]. simpl.
  apply add_open_ok; try done. case_match; [|lia].
  pose proof (io_size _ (tm_inode s1 Hs1 i Hi Hu1)). unfold TMPFS_MAX_FILE_SIZE in *. lia.
Qed.

Lemma refs_zero s i : refs s i = 0 -> forall j, 0 <= j < TMPFS_MAX_OPEN -> refers s i j = false.
Proof.
  intros H j Hj. apply not_true_iff_false. intros Hr.
  pose proof (count_from_pos (refers s i) (Z.to_nat TMPFS_MAX_OPEN) 0 j ltac:(unfold TMPFS_MAX_OPEN in *; lia) Hr).
  unfold refs in H. lia.
Qed.

Lemma refs_nonneg s i : 0 <= refs s i.
Proof. pose proof (count_from_range (refers s i) (Z.to_nat TMPFS_MAX_OPEN) 0). unfold refs. lia. Qed.

Lemma refs_unused s i : tm_ok s -> i_used (inodes s).[i] = false -> refs s i = 0.
Proof.
  intros Hs Hu. apply count_from_zero. intros j Hj. unfold refers. apply not_true_iff_false.
  intros [[Hju Hd%negb_true_iff]%andb_true_iff He%Z.eqb_eq]%andb_true_iff.
  destruct (oo_file _ _ (tm_open s Hs j ltac:(unfold TMPFS_MAX_OPEN in *; lia) Hju) Hd). congruence.
Qed.

Lemma add_file_ok s i n :
  tm_ok s -> 0 <= i < TMPFS_MAX_FILES -> i_used (inodes s).[i] = false ->
  inode_ok n -> i_refcount n = 0 -> tm_ok (set_inode s i n).
Proof.
  intros Hs Hi Hu Hok Hr. pose proof (refs_unused s i Hs Hu) as Hz. destruct Hs as [Li Lo In Op Re].
  constructor; simpl; autorewrite with arr; try done.
  - intros k Hk. rewrite geti_seti by lia. case_decide; [done|by apply In].
  - intros k Hk Hku. destruct (Op k Hk Hku) as [P D F]. constructor; [done|done|]. intros Hd. destruct (F Hd) as [F1 F2].
    split; [done|]. rewrite geti_seti by lia. case_decide; [congruence|done].
  - intros k Hk. rewrite geti_seti by lia. case_decide as E; [subst; intros _; by rewrite Hr, <- Hz|]. by apply Re.
Qed.

(** What kmalloc answers: NULL or a whole buffer. *)
Definition fresh_ok (fresh : option (list Z)) : Prop := forall d, fresh = Some d -> len d = TMPFS_MAX_FILE_SIZE.

(** A slot that is not in use may hold anything. *)
Lemma set_unused_ok s i n :
  tm_ok s -> 0 <= i < TMPFS_MAX_FILES -> refs s i = 0 -> i_used n = false -> tm_ok (set_inode s i n).
Proof.
  intros [Li Lo In Op Re] Hi Hz Hn. constructor; simpl; autorewrite with arr; try done.
  - intros k Hk. rewrite geti_seti by lia. case_decide; [congruence|by apply In].
  - intros k Hk Hku. destruct (Op k Hk Hku) as [P D F]. constructor; [done|done|]. intros Hd. destruct (F Hd) as [F1 F2].
    split; [done|]. rewrite geti_seti by lia. case_decide as E; [|done].
    pose proof (refs_zero s i Hz k Hk) as Hrf. unfold refers in Hrf. rewrite Hku, Hd, E, Z.eqb_refl in Hrf. done.
  - intros k Hk. rewrite geti_seti by lia. case_decide as E; [congruence|]. by apply Re.
Qed.

Lemma new_inode_ok p d : len d = TMPFS_MAX_FILE_SIZE -> inode_ok (mkInode true (take 63 p) 0 (Some d) 0).
Proof.
  intros Hd. constructor; simpl; [by exists d|unfold TMPFS_MAX_FILE_SIZE; lia|].
  unfold len. rewrite length_take. lia.
Qed.

Lemma alloc_inode_cases s fresh path :
  (alloc_inode s fresh path).2 = None /\
    ((alloc_inode s fresh path).1 = s \/
     exists i n, 0 <= i < TMPFS_MAX_FILES /\ i_used (inodes s).[i] = false /\ i_used n = false /\
       (alloc_inode s fresh path).1 = set_inode s i n) \/
  exists i d, 0 <= i < TMPFS_MAX_FILES /\ i_used (inodes s).[i] = false /\ fresh = Some d /\
    alloc_inode s fresh path = (set_inode s i (mkInode true (take 63 (strip_tmp path)) 0 (Some d) 0), Some i).
Proof.
  unfold alloc_inode. destruct (find_from _ _ _) as [i|] eqn:E; [|left; split; [done|by left]].
  apply find_from_Some in E as (Hi & Hu%negb_true_iff & _). destruct fresh as [d|].
  - right. by exists i, d.
  - left. split; [done|]. right. eexists i, _. split; [done|]. split; [done|]. by split; [|done].
Qed.

Lemma tmpfs_open_ok s fresh path flags : tm_ok s -> fresh_ok fresh -> tm_ok (tmpfs_open s fresh path flags).1.
Proof.
  intros Hs Hf. unfold tmpfs_open. case_match.
  { destruct (free_open s) as [j|] eqn:E; [|done]. apply free_open_spec in E as [Hj Hju]. simpl.
    destruct Hs as [Li Lo In Op Re]. constructor; simpl; autorewrite with arr; try done.
    - intros k Hk. rewrite geti_seti by lia. case_decide; [intros _; by constructor|by apply Op].
    - intros i Hi Hu. rewrite Re by done. symmetry. apply refs_ext. intros k Hk. unfold refers. simpl.
      rewrite geti_seti by lia. case_decide; [subst; rewrite Hju; done|done]. }
  destruct (find_inode s path) as [i|] eqn:E.
  { apply find_inode_spec in E as (Hi & Hu & _). by apply open_inode_ok. }
  destruct (has _ _); [|done].
  destruct (alloc_inode_cases s fresh (default [] path)) as [[E1 [E2|(i & n & Hi & Hu & Hn & E2)]]|(i & d & Hi & Hu & -> & E2)].
  - destruct (alloc_inode _ _ _) as [s1 []]; simpl in *; by subst.
  - destruct (alloc_inode _ _ _) as [s1 []]; simpl in *; [done|]. subst s1.
    apply set_unused_ok; try done. by apply refs_unused.
  - rewrite E2. pose proof (tm_inodes s Hs). apply open_inode_ok; [|done|simpl; by rewrite geti_seti_eq by lia].
    apply add_file_ok; try done. by apply new_inode_ok, Hf.
Qed.

Lemma close_open_ok s j o :
  tm_ok s -> 0 <= j < TMPFS_MAX_OPEN -> o_used (opens s).[j] = true -> o_used o = false ->
  is_dir (opens s).[j] = true -> tm_ok (set_open s j o).
Proof.
  intros [Li Lo In Op Re] Hj Hu Ho Hd. constructor; simpl; autorewrite with arr; try done.
  - intros k Hk. rewrite geti_seti by lia. case_decide; [congruence|by apply Op].
  - intros i Hi Hiu. rewrite Re by done. symmetry. apply refs_ext. intros k Hk. unfold refers. simpl.
    rewrite geti_seti by lia. case_decide; [subst; by rewrite Ho, Hd, andb_false_r|done].
Qed.

Lemma close_file_ok s j o :
  tm_ok s -> 0 <= j < TMPFS_MAX_OPEN -> o_used (opens s).[j] = true -> o_used o = false ->
  is_dir (opens s).[j] = false ->
  let i := inode_idx (opens s).[j] in
  tm_ok (set_open (set_inode s i (with_refcount (inodes s).[i] (i_refcount (inodes s).[i] - 1))) j o).
Proof.
  intros [Li Lo In Op Re] Hj Hu Ho Hd i. destruct (oo_file _ _ (Op j Hj Hu) Hd) as [Hi Hiu]. fold i in Hi, Hiu.
  constructor; simpl; autorewrite with arr; try done.
  - intros k Hk. rewrite geti_seti by lia. case_decide as E; [subst|by apply In]. intros _. by destruct (In i Hi Hiu).
  - intros k Hk. rewrite geti_seti by lia. case_decide as E; [congruence|]. intros Hku.
    destruct (Op k Hk Hku) as [P D F]. constructor; [done|done|]. intros Hkd. destruct (F Hkd).
    split; [done|]. rewrite geti_seti by lia. by case_decide.
  - intros k Hk Hku.
    assert (i_used (inodes s).[k] = true) as Hks by (rewrite geti_seti in Hku by lia; by case_decide; subst).
    set (s' := set_open _ _ _).
    assert (refs s' k = refs s k + Z.b2z (refers s' k j) - Z.b2z (refers s k j)) as ->.
    { apply count_from_update; [unfold TMPFS_MAX_OPEN in *; lia|]. intros l Hl Hne. unfold refers. simpl.
      by rewrite geti_seti_ne by lia. }
    unfold refers at 1 2. simpl. rewrite Hu, Hd, !(geti_seti_eq (opens s)), Ho by lia. simpl. fold i.
    rewrite geti_seti by lia. case_decide as E.
    + subst k. rewrite Z.eqb_refl. simpl. rewrite Re by done. lia.
    + rewrite (proj2 (Z.eqb_neq i k)) by done. simpl. rewrite Re by done. lia.
Qed.

Lemma tmpfs_close_ok s fd : tm_ok s -> tm_ok (tmpfs_close s fd).1.
Proof.
  intros Hs. unfold tmpfs_close. destruct (bad_fd _ _) eqn:E; [done|]. apply bad_fd_false in E as [Hj Hu].
  set (j := fd - TMPFS_FD_BASE) in *. destruct (is_dir _) eqn:Ed; simpl; [by apply close_open_ok|].
  destruct (oo_file _ _ (tm_open s Hs j Hj Hu) Ed) as [Hi Hiu].
  rewrite (proj2 (Z.leb_le 0 _)), (proj2 (Z.ltb_lt _ TMPFS_MAX_FILES)), Hiu by lia. simpl.
  by apply close_file_ok.
Qed.

Lemma tmpfs_read_ok s fd buf count : tm_ok s -> 0 <= count -> tm_ok (tmpfs_read s fd buf count).1.1.
Proof.
  intros Hs Hc. unfold tmpfs_read. destruct (bad_fd _ _) eqn:E; [done|]. destruct buf; [|done]. simpl.
  destruct (bad_inode _ _) eqn:Eb; [done|]. destruct (guards_file s _ Hs E Eb) as (Hj & Ho & Hd & Hi & Hu & Hn).
  destruct (Z.leb_spec (i_size (inodes s).[inode_idx (opens s).[fd - TMPFS_FD_BASE]]) (o_pos (opens s).[fd - TMPFS_FD_BASE])); [done|].
  simpl. pose proof (io_size _ Hn) as Hsz. pose proof (oo_pos _ _ Ho). unfold TMPFS_MAX_FILE_SIZE in *.
  apply move_pos_ok; try done; [by apply bad_fd_false in E as [_ ?]|]. case_match; rewrite wrap_small; lia.
Qed.

Lemma tmpfs_lseek_ok s fd offset whence : tm_ok s -> tm_ok (tmpfs_lseek s fd offset whence).1.
Proof.
  intros Hs. unfold tmpfs_lseek. destruct (bad_fd _ _) eqn:E; [done|]. destruct (bad_inode _ _) eqn:Eb; [done|].
  apply bad_fd_false in E as [Hj Hu].
  assert (forall base, tm_ok (if s64 (base + offset) <? 0 then (s, -1)
    else (set_open s (fd - TMPFS_FD_BASE) (with_pos (opens s).[fd - TMPFS_FD_BASE] (s64 (base + offset))),
          s32 (s64 (base + offset)))).1) as H.
  { intros base. destruct (Z.ltb_spec (s64 (base + offset)) 0); [done|]. apply move_pos_ok; try done.
    pose proof (swrap_range 64 (base + offset)). lia. }
  cbv zeta. repeat (destruct (whence =? _); [apply H|]). done.
Qed.

Lemma resize_ok n k : inode_ok n -> 0 <= k <= TMPFS_MAX_FILE_SIZE -> inode_ok (resize n k).
Proof.
  intros [(d & Hd & Ld) Hs Hn] Hk. unfold resize.
  assert (forall a b, 0 <= a -> a <= b <= TMPFS_MAX_FILE_SIZE ->
    len (splice d a (replicate (Z.to_nat (b - a)) 0)) = TMPFS_MAX_FILE_SIZE) as Hsp.
  { intros a b Ha Hb. rewrite len_splice; [done|lia|]. unfold len at 1. rewrite length_replicate. lia. }
  destruct (Z.ltb_spec (i_size n) k); [|destruct (Z.ltb_spec k (i_size n))]; constructor; simpl; try done;
    rewrite Hd; simpl; eexists; (split; [done|]); try done; apply Hsp; lia.
Qed.

Lemma do_truncate_ok s i k : tm_ok s -> 0 <= i < TMPFS_MAX_FILES -> i_used (inodes s).[i] = true ->
  0 <= k <= TMPFS_MAX_FILE_SIZE -> tm_ok (do_truncate s i k).
Proof.
  intros Hs Hi Hu Hk. pose proof Hs as [Li Lo In Op Re].
  assert (tm_ok (set_inode s i (resize (inodes s).[i] k))) as [Li1 Lo1 In1 Op1 Re1].
  { apply set_inode_ok; try done; [|apply resize_ok; [by apply In|done]|]; unfold resize; by repeat case_match. }
  assert (forall j, 0 <= j < TMPFS_MAX_OPEN -> (opens (do_truncate s i k)).[j] = clip_pos i k (opens s).[j]) as G
    by (intros; apply geti_fmap; lia).
  constructor; [done|simpl; by rewrite len_fmap|done| |].
  - intros j Hj. rewrite G by done. intros Hju.
    assert (o_used (opens s).[j] = true) as Hjs by (revert Hju; unfold clip_pos; by case_match).
    specialize (Op1 j Hj Hjs). simpl in Op1 |- *. unfold clip_pos. case_match; [|done].
    destruct Op1 as [P D F]. constructor; simpl; [unfold TMPFS_MAX_FILE_SIZE in *; lia|done|done].
  - intros j Hj Hju. etransitivity; [apply (Re1 j Hj Hju)|]. symmetry. apply refs_ext. intros l Hl. unfold refers.
    rewrite G by done. unfold clip_pos. by case_match.
Qed.

Lemma tmpfs_truncate_ok s path k : tm_ok s -> tm_ok (tmpfs_truncate s path k).1.
Proof.
  intros Hs. unfold tmpfs_truncate. destruct path as [p|]; [|done]. destruct (_ || _) eqn:Er; [done|].
  apply orb_false_iff in Er as [H1%Z.ltb_ge H2%Z.ltb_ge].
  destruct (find_inode s (Some p)) as [i|] eqn:E; [|done]. apply find_inode_spec in E as (Hi & Hu & _).
  rewrite Hu. simpl. by apply do_truncate_ok.
Qed.

Lemma tmpfs_ftruncate_ok s fd k : tm_ok s -> tm_ok (tmpfs_ftruncate s fd k).1.
Proof.
  intros Hs. unfold tmpfs_ftruncate. destruct ((k <? 0) || _) eqn:Er; [done|].
  apply orb_false_iff in Er as [H1%Z.ltb_ge H2%Z.ltb_ge].
  destruct (bad_fd _ _); [done|]. destruct (is_dir _); [done|]. destruct (_ || negb _) eqn:Eb; [done|]. simpl.
  apply orb_false_iff in Eb as [[H3%Z.ltb_ge H4%Z.leb_gt]%orb_false_iff Hu%negb_false_iff]. by apply do_truncate_ok.
Qed.

Lemma tmpfs_unlink_ok s path : tm_ok s -> tm_ok (tmpfs_unlink s path).1.
Proof.
  intros Hs. unfold tmpfs_unlink. destruct (find_inode s path) as [i|] eqn:E; [|done].
  apply find_inode_spec in E as (Hi & Hu & _). destruct (Z.ltb_spec 0 (i_refcount (inodes s).[i])); [done|].
  apply set_unused_ok; try done. pose proof (tm_refs s Hs i Hi Hu). pose proof (refs_nonneg s i). lia.
Qed.

(** What a write of [bytes] does to the descriptor [j] and its file. *)
Definition write_pos (s : tmpfs) (j : Z) : Z :=
  if has (o_flags (opens s).[j]) O_APPEND then i_size (inodes s).[inode_idx (opens s).[j]] else o_pos (opens s).[j].

Definition write_count (pos n : Z) : Z := Z.max 0 (Z.min n (TMPFS_MAX_FILE_SIZE - pos)).

Record written (s s' : tmpfs) (j p : Z) (bytes : list Z) : Prop := {
  wr_ok : tm_ok s';
  wr_open : forall k, 0 <= k < TMPFS_MAX_OPEN -> (opens s').[k] =
    if decide (j = k) then with_pos (opens s).[k] (p + len bytes) else (opens s).[k];
  wr_other : forall k, 0 <= k < TMPFS_MAX_FILES -> k <> inode_idx (opens s).[j] -> (inodes s').[k] = (inodes s).[k];
  wr_file : let n := (inodes s).[inode_idx (opens s).[j]] in let n' := (inodes s').[inode_idx (opens s).[j]] in
    i_used n' = true /\ i_name n' = i_name n /\
    i_size n' = (if decide (bytes = []) then i_size n else Z.max (i_size n) (p + len bytes)) /\
    i_data n' = option_map (fun d => splice d p bytes) (i_data n);
}.

Lemma with_pos_id o : with_pos o (o_pos o) = o.
Proof. by destruct o. Qed.

(** The O_APPEND adjustment. *)
Lemma append_pos s j :
  tm_ok s -> bad_fd s j = false -> bad_inode s (inode_idx (opens s).[j]) = false ->
  let s1 := if has (o_flags (opens s).[j]) O_APPEND
            then set_open s j (with_pos (opens s).[j] (i_size (inodes s).[inode_idx (opens s).[j]])) else s in
  tm_ok s1 /\ inodes s1 = inodes s /\ 0 <= write_pos s j < 2 ^ 63 /\
  (forall k, 0 <= k < TMPFS_MAX_OPEN -> (opens s1).[k] =
     if decide (j = k) then with_pos (opens s).[k] (write_pos s j) else (opens s).[k]).
Proof.
  intros Hs E Eb. destruct (guards_file s j Hs E Eb) as (Hj & Ho & Hd & Hi & Hu & Hn). pose proof (tm_opens s Hs).
  pose proof (io_size _ Hn). pose proof (oo_pos _ _ Ho). unfold TMPFS_MAX_FILE_SIZE in *.
  unfold write_pos. destruct (has _ _); cbv zeta.
  - split; [apply move_pos_ok; [done|done|by apply bad_fd_false in E as [_ ?]|lia]|]. split; [done|]. split; [lia|].
    intros k Hk. simpl. rewrite geti_seti by lia. by case_decide; subst.
  - split; [done|]. split; [done|]. split; [done|]. intros k Hk. case_decide; [subst; by rewrite with_pos_id|done].
Qed.

Lemma data_written n p b :
  inode_ok n -> 0 <= p -> p + len b <= TMPFS_MAX_FILE_SIZE -> i_used n = true ->
  let n1 := with_data n (option_map (fun d => splice d p b) (i_data n)) in
  let n2 := if i_size n1 <? p + len b then with_size n1 (p + len b) else n1 in
  inode_ok n2 /\ i_used n2 = true /\ i_name n2 = i_name n /\ i_refcount n2 = i_refcount n /\
  i_size n2 = Z.max (i_size n) (p + len b) /\ i_data n2 = option_map (fun d => splice d p b) (i_data n).
Proof.
  intros [(d & Hd & Ld) Hs Hn] Hp Hb Hu. cbv zeta. pose proof (len_nonneg b).
  assert (len (splice d p b) = TMPFS_MAX_FILE_SIZE) as Hl by (rewrite len_splice; lia).
  simpl. destruct (Z.ltb_spec (i_size n) (p + len b)); split_and!; simpl; try done; try lia;
    constructor; simpl; rewrite ?Hd; simpl; try done; try lia; by eexists.
Qed.

Lemma tmpfs_write_spec s j bytes :
  tm_ok s -> bad_fd s j = false -> bad_inode s (inode_idx (opens s).[j]) = false -> len bytes < 2 ^ 63 ->
  let p := write_pos s j in let n := write_count p (len bytes) in
  exists s', tmpfs_write s (j + TMPFS_FD_BASE) (Some bytes) (len bytes) = (s', n) /\
    written s s' j p (take (Z.to_nat n) bytes).
Proof.
  intros Hs E Eb Hl p n. destruct (guards_file s j Hs E Eb) as (Hj & Ho & Hd & Hi & Hu & Hn).
  destruct (append_pos s j Hs E Eb) as (Hs1 & Ei & Hp & G). fold p in Hp, G. pose proof (len_nonneg bytes).
  unfold tmpfs_write. replace (j + TMPFS_FD_BASE - TMPFS_FD_BASE) with j by lia. rewrite E, Eb.
  set (s1 := if has _ _ then _ else s) in *.
  set (i := inode_idx (opens s).[j]) in *. assert (o_pos (opens s1).[j] = p) as -> by (rewrite G by done; by rewrite decide_True).
  cbv zeta. rewrite (wrap_small 64 (p + len bytes)) by lia.
  assert ((if TMPFS_MAX_FILE_SIZE <? p + len bytes
           then if p <? TMPFS_MAX_FILE_SIZE then TMPFS_MAX_FILE_SIZE - p else 0 else len bytes) = n) as ->.
  { unfold n, write_count. repeat case_match; lia. }
  assert (0 <= n <= len bytes) as Hnr by (unfold n, write_count; lia).
  assert (len (take (Z.to_nat n) bytes) = n) as Hlt by (unfold len in *; rewrite length_take; lia).
  destruct (Z.eqb_spec n 0) as [Hz|Hz].
  - exists s1. split; [by rewrite Hz|]. rewrite Hz in *. change (take (Z.to_nat 0) bytes) with (@nil Z). constructor; try done.
    + intros k Hk. rewrite G by done. by rewrite len_nil, Z.add_0_r.
    + intros k Hk _. by rewrite Ei.
    + cbv zeta. fold i. rewrite Ei. split_and!; try done. destruct (i_data _); [|done]. simpl.
      f_equal. symmetry. apply splice_nil. lia.
  - assert (n <= TMPFS_MAX_FILE_SIZE - p) as Hfit by (unfold n, write_count in *; lia).
    unfold TMPFS_MAX_FILE_SIZE in Hfit. rewrite (wrap_small 64 (p + n)), (swrap_small 64 n) by lia.
    eexists. split; [done|].
    destruct (data_written (inodes s).[i] p (take (Z.to_nat n) bytes) Hn) as (D1 & D2 & D3 & D4 & D5 & D6);
      [lia|rewrite Hlt; unfold TMPFS_MAX_FILE_SIZE; lia|done|]. rewrite Hlt in *.
    pose proof (tm_opens s1 Hs1) as Lo. pose proof (tm_inodes s1 Hs1) as Li.
    assert (o_used (opens s1).[j] = true) as Hju
      by (rewrite G by done; rewrite decide_True by done; by apply bad_fd_false in E as [_ ?]).
    constructor.
    + apply set_inode_ok; try done.
      * apply move_pos_ok; try done. lia.
      * simpl. by rewrite Ei.
      * rewrite D4. simpl. by rewrite Ei.
    + intros k Hk. simpl. rewrite geti_seti by lia. case_decide; [subst k|rewrite G by done; by rewrite decide_False].
      rewrite G by done. rewrite decide_True by done. by rewrite Hlt.
    + intros k Hk Hne. simpl. rewrite geti_seti_ne by lia. by rewrite Ei.
    + cbv zeta. fold i. simpl inodes. rewrite geti_seti_eq by lia. split; [done|]. split; [done|].
      split; [|done]. etransitivity; [apply D5|]. rewrite Hlt. rewrite decide_False; [done|]. intros Hnil. rewrite Hnil in Hlt.
      by rewrite len_nil in Hlt.
Qed.

(** ** Sequences of calls *)

Inductive tm_op :=
| TOpen (fresh : option (list Z)) (path : option (list Z)) (flags : Z)
| TClose (fd : Z)
| TRead (fd : Z) (buf : bool) (count : Z)
| TWrite (fd : Z) (buf : option (list Z))
| TLseek (fd offset whence : Z)
| TUnlink (path : option (list Z))
| TTruncate (path : option (list Z)) (length : Z)
| TFtruncate (fd length : Z).

(** kmalloc answers NULL or a whole buffer; counts are below 2^63. *)
Definition tm_op_ok (o : tm_op) : Prop :=
  match o with
  | TOpen fresh _ _ => fresh_ok fresh
  | TRead _ _ count => 0 <= count
  | TWrite _ (Some b) => len b < 2 ^ 63
  | _ => True
  end.

Definition tm_exec (s : tmpfs) (o : tm_op) : tmpfs :=
  match o with
  | TOpen fresh path flags => (tmpfs_open s fresh path flags).1
  | TClose fd => (tmpfs_close s fd).1
  | TRead fd buf count => (tmpfs_read s fd buf count).1.1
  | TWrite fd buf => (tmpfs_write s fd buf (len (default [] buf))).1
  | TLseek fd offset whence => (tmpfs_lseek s fd offset whence).1
  | TUnlink path => (tmpfs_unlink s path).1
  | TTruncate path k => (tmpfs_truncate s path k).1
  | TFtruncate fd k => (tmpfs_ftruncate s fd k).1
  end.

Lemma tmpfs_write_ok s fd buf :
  tm_ok s -> (forall b, buf = Some b -> len b < 2 ^ 63) -> tm_ok (tmpfs_write s fd buf (len (default [] buf))).1.
Proof.
  intros Hs Hb. destruct (bad_fd s (fd - TMPFS_FD_BASE)) eqn:E; [unfold tmpfs_write; by rewrite E|].
  destruct buf as [b|]; [|unfold tmpfs_write; by rewrite E].
  destruct (bad_inode s (inode_idx (opens s).[fd - TMPFS_FD_BASE])) eqn:Eb; [unfold tmpfs_write; by rewrite E, Eb|].
  destruct (tmpfs_write_spec s (fd - TMPFS_FD_BASE) b Hs E Eb (Hb b eq_refl)) as (s' & Ew & [W _ _ _]).
  replace (fd - TMPFS_FD_BASE + TMPFS_FD_BASE) with fd in Ew by lia. simpl. by rewrite Ew.
Qed.

Lemma tm_exec_ok s o : tm_ok s -> tm_op_ok o -> tm_ok (tm_exec s o).
Proof.
  intros Hs Ho. destruct o; simpl in *.
  - by apply tmpfs_open_ok.
  - by apply tmpfs_close_ok.
  - by apply tmpfs_read_ok.
  - apply tmpfs_write_ok; [done|]. intros b ->. done.
  - by apply tmpfs_lseek_ok.
  - by apply tmpfs_unlink_ok.
  - by apply tmpfs_truncate_ok.
  - by apply tmpfs_ftruncate_ok.
Qed.

Lemma tm_run_ok s os : tm_ok s -> Forall tm_op_ok os -> tm_ok (fold_left tm_exec os s).
Proof.
  intros Hs Ho. revert s Hs. induction Ho as [|o os Ho _ IH]; intros s Hs; [done|]. by apply IH, tm_exec_ok.
Qed.

Lemma tmpfs_init_ok s : tm_ok (tmpfs_init s).
Proof.
  assert (forall i, 0 <= i < TMPFS_MAX_FILES -> (inodes (tmpfs_init s)).[i] = zero_inode) as Hi
    by (intros; apply geti_replicate; unfold TMPFS_MAX_FILES in *; lia).
  assert (forall i, 0 <= i < TMPFS_MAX_OPEN -> (opens (tmpfs_init s)).[i] = zero_open) as Ho
    by (intros; apply geti_replicate; unfold TMPFS_MAX_OPEN in *; lia).
  constructor; try done.
  - intros i Hr. by rewrite Hi.
  - intros j Hr. by rewrite Ho.
  - intros i Hr. by rewrite Hi.
Qed.

(** ** Properties *)

Definition no_fs : tmpfs := mkTmpfs [] [].
Definition fresh_buf : list Z := replicate (Z.to_nat TMPFS_MAX_FILE_SIZE) 0xCC.

(** "/tmp/a" *)
Definition path_a : list Z := TMP_SLASH ++ [97].
Definition demo_fs : tmpfs :=
  fold_left tm_exec [TOpen (Some fresh_buf) (Some path_a) (Z.lor 3 O_CREAT)] (tmpfs_init no_fs).

Lemma fresh_buf_ok : fresh_ok (Some fresh_buf).
Proof. intros d [= <-]. unfold len, fresh_buf. rewrite length_replicate. by apply Z2Nat.id. Qed.

Lemma demo_fs_ok : tm_ok demo_fs.
Proof. apply tm_run_ok; [apply tmpfs_init_ok|]. constructor; [apply fresh_buf_ok|constructor]. Qed.

(** write then read.  A write to an open file stores the bytes that fit
    below 64 KB at the descriptor's position (the end of the file under
    O_APPEND) and returns their number; reading that range back gives exactly
    them; the size grows to cover them and no other file changes. *)
Theorem tmpfs_write_read s j bytes :
  tm_ok s -> bad_fd s j = false -> bad_inode s (inode_idx (opens s).[j]) = false -> len bytes < 2 ^ 63 ->
  let i := inode_idx (opens s).[j] in
  let p := write_pos s j in
  let n := write_count p (len bytes) in
  let r := tmpfs_write s (j + TMPFS_FD_BASE) (Some bytes) (len bytes) in
  r.2 = n /\
  tmpfs_read_at r.1 (j + TMPFS_FD_BASE) true n p = (n, take (Z.to_nat n) bytes) /\
  o_pos (opens r.1).[j] = p + n /\
  (0 < n -> i_size (inodes r.1).[i] = Z.max (i_size (inodes s).[i]) (p + n)) /\
  (forall k, 0 <= k < TMPFS_MAX_FILES -> k <> i -> (inodes r.1).[k] = (inodes s).[k]).
Proof.
  intros Hs E Eb Hl i p n r. destruct (guards_file s j Hs E Eb) as (Hj & Ho & Hd & Hi & Hu & Hn).
  fold i in Hi, Hu, Hn.
  destruct (append_pos s j Hs E Eb) as (_ & _ & Hp & _). fold p in Hp. pose proof (len_nonneg bytes).
  destruct (tmpfs_write_spec s j bytes Hs E Eb Hl) as (s' & Ew & [Wok Wo Wn Wf]).
  subst r. rewrite Ew. fold p n i in Wo, Wn, Wf |- *. simpl fst. simpl snd. cbv zeta in Wf.
  assert (0 <= n <= len bytes /\ n <= TMPFS_MAX_FILE_SIZE /\ (0 < n -> p + n <= TMPFS_MAX_FILE_SIZE)) as (Hn1 & Hn2 & Hn3)
    by (unfold n, write_count, TMPFS_MAX_FILE_SIZE in *; lia).
  assert (len (take (Z.to_nat n) bytes) = n) as Hlt by (unfold len in *; rewrite length_take; lia).
  rewrite Hlt in *. destruct Wf as (Fu & _ & Fs & Fd). specialize (Wo j Hj) as Woj. rewrite decide_True in Woj by done.
  split; [done|]. split; [|split; [by rewrite Woj|split; [|done]]].
  - unfold tmpfs_read_at. replace (j + TMPFS_FD_BASE - TMPFS_FD_BASE) with j by lia.
    unfold bad_fd, bad_inode in *. rewrite Woj. simpl. fold i. rewrite Fu. apply bad_fd_false in E as [_ Eu].
    rewrite Eu, (proj2 (Z.ltb_ge j 0)), (proj2 (Z.leb_gt TMPFS_MAX_OPEN j)), (proj2 (Z.ltb_ge i 0)) by lia. simpl.
    unfold wrap. rewrite (Z.mod_small p) by lia.
    destruct (Z.leb_spec (i_size (inodes s').[i]) p) as [Hsz|Hsz].
    { assert (n = 0) as ->; [|done]. destruct (decide (n = 0)) as [|Hz]; [done|].
      rewrite Fs, decide_False in Hsz; [lia|]. intros Hnil. rewrite Hnil, len_nil in Hlt. lia. }
    assert ((i_size (inodes s').[i] - p <? n) = false) as ->.
    { apply Z.ltb_ge. destruct (decide (n = 0)) as [|Hz]; [lia|].
      rewrite Fs, decide_False; [lia|]. intros Hnil. rewrite Hnil, len_nil in Hlt. lia. }
    unfold TMPFS_MAX_FILE_SIZE in *. rewrite (swrap_small 32 n) by lia. f_equal.
    destruct (decide (n = 0)) as [->|Hz]; [done|].
    destruct (io_data _ Hn) as (d & Hdd & Ld). rewrite Fd, Hdd. simpl.
    rewrite <- Hlt at 2. rewrite slice_splice by (rewrite ?Hlt, ?Ld; unfold TMPFS_MAX_FILE_SIZE; lia). done.
  - intros Hpos. rewrite Fs, decide_False; [done|]. intros Hnil. rewrite Hnil, len_nil in Hlt. lia.
Qed.

Lemma tmpfs_write_read_witness :
  let p := write_pos demo_fs 0 in let n := write_count p (len [1; 2; 3]) in
  let r := tmpfs_write demo_fs (0 + TMPFS_FD_BASE) (Some [1; 2; 3]) (len [1; 2; 3]) in
  p = 0 /\ n = 3 /\
  tmpfs_read_at r.1 (0 + TMPFS_FD_BASE) true n p = (n, take (Z.to_nat n) [1; 2; 3]).
Proof.
  split; [vm_compute; reflexivity|]. split; [vm_compute; reflexivity|].
  apply (tmpfs_write_read demo_fs 0 [1; 2; 3] demo_fs_ok); vm_compute; reflexivity.
Defined.

(** C10: over any sequence of calls from [tmpfs_init] the tables stay well
    formed (whole buffers, sizes in range, descriptors on live files, reference
    counts that count the open descriptors), so [tmpfs_unlink] succeeds exactly
    on an existing file with no open descriptor, and then frees its slot. *)
Theorem tmpfs_reachable s os path :
  Forall tm_op_ok os ->
  let t := fold_left tm_exec os (tmpfs_init s) in
  tm_ok t /\
  ((tmpfs_unlink t path).2 = 0 <->
   exists i, find_inode t path = Some i /\ forall j, 0 <= j < TMPFS_MAX_OPEN -> refers t i j = false) /\
  (forall i, find_inode t path = Some i -> (tmpfs_unlink t path).2 = 0 ->
     i_used (inodes (tmpfs_unlink t path).1).[i] = false).
Proof.
  intros Ho t. assert (tm_ok t) as Ht by (apply tm_run_ok; [apply tmpfs_init_ok|done]).
  split; [done|]. unfold tmpfs_unlink. destruct (find_inode t path) as [i|] eqn:E.
  2:{ split; [split; [done|intros (i & [=] & _)]|done]. }
  pose proof (find_inode_spec t path i E) as (Hi & Hu & _). pose proof (tm_refs t Ht i Hi Hu) as Hr.
  pose proof (tm_inodes t Ht). destruct (Z.ltb_spec 0 (i_refcount (inodes t).[i])) as [Hlt|Hle].
  - split; [|done]. split; [done|]. intros (k & [= <-] & Hk). exfalso.
    assert (refs t i = 0); [|lia]. apply count_from_zero. intros j Hj. apply Hk. unfold TMPFS_MAX_OPEN in *. lia.
  - split.
    + split; [|done]. intros _. exists i. split; [done|]. apply refs_zero. pose proof (refs_nonneg t i). lia.
    + intros k [= <-] _. simpl. by rewrite geti_seti_eq by lia.
Qed.

Lemma tmpfs_reachable_witness :
  (tmpfs_unlink (fold_left tm_exec [TOpen (Some fresh_buf) (Some path_a) 0x13; TClose 500] (tmpfs_init no_fs))
     (Some path_a)).2 = 0.
Proof.
  apply (tmpfs_reachable no_fs [TOpen (Some fresh_buf) (Some path_a) 0x13; TClose 500] (Some path_a)).
  - constructor; [exact fresh_buf_ok|]. constructor; [exact I|constructor].
  - exists 0. split; [vm_compute; reflexivity|]. intros j Hj.
    match goal with |- refers ?t 0 j = false => assert (refs t 0 = 0) as Hz by (vm_compute; reflexivity) end.
    exact (refs_zero _ 0 Hz j Hj).
Defined.

(** a NULL buffer is answered with success.  [EFAULT] is already negative
    in types.h, so [return -EFAULT] returns 14 from read, pread and write on
    every open descriptor, with nothing transferred. *)
Theorem tmpfs_null_buffer s j count offset :
  bad_fd s j = false ->
  tmpfs_read s (j + TMPFS_FD_BASE) false count = (s, 14, []) /\
  tmpfs_write s (j + TMPFS_FD_BASE) None count = (s, 14) /\
  tmpfs_read_at s (j + TMPFS_FD_BASE) false count offset = (14, []).
Proof.
  intros E. unfold tmpfs_read, tmpfs_write, tmpfs_read_at.
  replace (j + TMPFS_FD_BASE - TMPFS_FD_BASE) with j by lia. rewrite E. done.
Qed.

Lemma tmpfs_null_buffer_witness : tmpfs_write demo_fs (0 + TMPFS_FD_BASE) None 5 = (demo_fs, 14).
Proof. apply (tmpfs_null_buffer demo_fs 0 5 0). vm_compute. reflexivity. Defined.

(** Opening with O_TRUNC and no O_APPEND. *)
Lemma open_trunc s i j d :
  tm_ok s -> 0 <= i < TMPFS_MAX_FILES -> i_used (inodes s).[i] = true -> i_data (inodes s).[i] = Some d ->
  free_open s = Some j ->
  let s1 := (open_inode s i O_TRUNC).1 in
  tm_ok s1 /\ 0 <= j < TMPFS_MAX_OPEN /\ (opens s1).[j] = mkOpen true i 0 O_TRUNC false /\
  i_used (inodes s1).[i] = true /\ i_size (inodes s1).[i] = 0 /\ i_data (inodes s1).[i] = Some d.
Proof.
  intros Hs Hi Hu Hd Hj s1. assert (tm_ok s1) as Hs1 by (by apply open_inode_ok). split; [done|].
  pose proof (free_open_spec s j Hj) as [Hjr _]. split; [done|].
  pose proof (tm_inodes s Hs). pose proof (tm_opens s Hs).
  assert (s1 = set_inode (set_open (set_inode s i (with_size (inodes s).[i] 0)) j (mkOpen true i 0 O_TRUNC false)) i
    (with_refcount (with_size (inodes s).[i] 0) (i_refcount (inodes s).[i] + 1))) as ->.
  { subst s1. unfold open_inode. rewrite bool_decide_true by (by rewrite Hd).
    change (has O_TRUNC O_TRUNC) with true. change (has O_TRUNC O_APPEND) with false. cbn [andb]. cbv iota.
    change (free_open (set_inode s i (with_size (inodes s).[i] 0))) with (free_open s). rewrite Hj. simpl.
    by rewrite geti_seti_eq by lia. }
  simpl. rewrite !geti_seti_eq by (autorewrite with arr; lia). done.
Qed.

Lemma slice_hole (d : list Z) k b : 0 <= k < len d -> slice (splice d k [b]) 0 (k + 1) = take (Z.to_nat k) d ++ [b].
Proof.
  intros Hk. unfold slice, splice. rewrite drop_0.
  assert (length (take (Z.to_nat k) d) = Z.to_nat k) as E by (rewrite length_take; unfold len in Hk; lia).
  replace (Z.to_nat (k + 1)) with (length (take (Z.to_nat k) d) + 1)%nat by lia.
  rewrite take_app_add. done.
Qed.

(** O_TRUNC and seeking past the end do not clear the buffer.  Truncate a
    file on open, seek to [k], write one byte, and the file reads as the first
    [k] bytes it held before, followed by that byte. *)
Theorem tmpfs_hole_leaks s i j k b d :
  tm_ok s -> 0 <= i < TMPFS_MAX_FILES -> i_used (inodes s).[i] = true -> i_data (inodes s).[i] = Some d ->
  free_open s = Some j -> 0 <= k < TMPFS_MAX_FILE_SIZE ->
  let s1 := (open_inode s i O_TRUNC).1 in
  let s2 := (tmpfs_lseek s1 (j + TMPFS_FD_BASE) k 0).1 in
  let s3 := (tmpfs_write s2 (j + TMPFS_FD_BASE) (Some [b]) 1).1 in
  i_size (inodes s1).[i] = 0 /\
  tmpfs_read_at s3 (j + TMPFS_FD_BASE) true (k + 1) 0 = (k + 1, take (Z.to_nat k) d ++ [b]).
Proof.
  intros Hs Hi Hu Hd Hj Hk s1 s2 s3.
  destruct (open_trunc s i j d Hs Hi Hu Hd Hj) as (Hs1 & Hjr & Ho1 & Hu1 & Hz1 & Hd1). fold s1 in Hs1, Ho1, Hu1, Hz1, Hd1.
  split; [done|]. unfold TMPFS_MAX_FILE_SIZE in Hk. pose proof (tm_opens s1 Hs1) as Lo.
  assert (bad_fd s1 j = false) as B1 by (apply bad_fd_false; by rewrite Ho1).
  assert (s2 = set_open s1 j (mkOpen true i k O_TRUNC false)) as E2.
  { subst s2. unfold tmpfs_lseek. replace (j + TMPFS_FD_BASE - TMPFS_FD_BASE) with j by lia.
    rewrite B1, Ho1. unfold bad_inode. simpl. rewrite Hu1, (proj2 (Z.ltb_ge i 0)) by lia. simpl.
    rewrite (swrap_small 64 (0 + k)) by lia. by rewrite (proj2 (Z.ltb_ge (0 + k) 0)) by lia. }
  assert (tm_ok s2) as Hs2 by (apply tmpfs_lseek_ok; done).
  assert ((opens s2).[j] = mkOpen true i k O_TRUNC false) as Ho2 by (rewrite E2; simpl; by rewrite geti_seti_eq by lia).
  assert (inodes s2 = inodes s1) as Ei by (by rewrite E2).
  assert (bad_fd s2 j = false) as B2 by (apply bad_fd_false; by rewrite Ho2).
  assert (write_pos s2 j = k) as Ep by (unfold write_pos; by rewrite Ho2).
  assert (write_count k 1 = 1) as En by (unfold write_count, TMPFS_MAX_FILE_SIZE; lia).
  destruct (tmpfs_write_spec s2 j [b] Hs2 B2) as (s3' & Ew & [Wok Wo Wn Wf]); [|done|].
  { unfold bad_inode. rewrite Ho2. simpl. rewrite Ei, Hu1, (proj2 (Z.ltb_ge i 0)) by lia. done. }
  change (len [b]) with 1 in Ew, Wo, Wf. rewrite Ep, En in *. change (take (Z.to_nat 1) [b]) with [b] in *.
  change (len [b]) with 1 in *. assert (s3' = s3) as -> by (subst s3; by rewrite Ew).
  rewrite Ho2, Ei in Wf. cbv zeta in Wf. simpl inode_idx in Wf. destruct Wf as (Fu & _ & Fs & Fd).
  rewrite decide_False in Fs by done. rewrite Hz1 in Fs. rewrite Hd1 in Fd. simpl in Fd.
  specialize (Wo j Hjr). rewrite decide_True, Ho2 in Wo by done.
  unfold tmpfs_read_at. replace (j + TMPFS_FD_BASE - TMPFS_FD_BASE) with j by lia.
  rewrite (proj2 (bad_fd_false s3 j)) by (by rewrite Wo). rewrite Wo. unfold bad_inode. simpl.
  rewrite Fu, Fs, Fd, (proj2 (Z.ltb_ge i 0)) by lia. change (u64 0) with 0. simpl.
  rewrite (proj2 (Z.leb_gt (Z.max 0 (k + 1)) 0)), (proj2 (Z.ltb_ge (Z.max 0 (k + 1) - 0) (k + 1))) by lia.
  rewrite swrap_small by lia. f_equal. apply slice_hole.
  destruct (io_data _ (tm_inode s Hs i Hi Hu)) as (d' & Hd' & Ld). rewrite Hd in Hd'. injection Hd' as <-.
  rewrite Ld. unfold TMPFS_MAX_FILE_SIZE. lia.
Qed.

(** The file "a" held "secret" when it was truncated. *)
Definition secret_fs : tmpfs :=
  fold_left tm_exec [TWrite 500 (Some [115; 101; 99; 114; 101; 116]); TClose 500] demo_fs.

Lemma tmpfs_hole_leaks_witness :
  let s1 := (open_inode secret_fs 0 O_TRUNC).1 in
  let s2 := (tmpfs_lseek s1 (0 + TMPFS_FD_BASE) 6 0).1 in
  let s3 := (tmpfs_write s2 (0 + TMPFS_FD_BASE) (Some [33]) 1).1 in
  exists d, take 6 d = [115; 101; 99; 114; 101; 116] /\
    tmpfs_read_at s3 (0 + TMPFS_FD_BASE) true (6 + 1) 0 = (6 + 1, take (Z.to_nat 6) d ++ [33]).
Proof.
  assert (tm_ok secret_fs) as Hs.
  { apply tm_run_ok; [apply demo_fs_ok|]. constructor; [|constructor; [exact I|constructor]]. vm_compute. reflexivity. }
  assert (i_used (inodes secret_fs).[0] = true) as Hu by (vm_compute; reflexivity).
  assert (0 <= 0 < TMPFS_MAX_FILES) as H0 by (by split).
  exists (default [] (i_data (inodes secret_fs).[0])). split; [vm_compute; reflexivity|].
  destruct (tmpfs_hole_leaks secret_fs 0 0 6 33 (default [] (i_data (inodes secret_fs).[0])) Hs H0 Hu) as [_ E].
  - destruct (io_data _ (tm_inode secret_fs Hs 0 H0 Hu)) as (d & Ed & _). rewrite Ed. reflexivity.
  - vm_compute. reflexivity.
  - by split.
  - exact E.
Defined.


(** file names are cut at 63 bytes when a file is created but compared
    whole when it is looked up: a longer name is never found, so every
    successful open of it with O_CREAT takes one more of the 64 slots and the
    file cannot be opened again, inspected or removed by its name. *)
Theorem tmpfs_long_name s fresh p flags :
  tm_ok s -> fresh_ok fresh -> 63 < len (strip_tmp p) -> p <> TMP -> p <> TMP_SLASH ->
  let r := tmpfs_open s fresh (Some p) flags in
  find_inode r.1 (Some p) = None /\ tmpfs_unlink r.1 (Some p) = (r.1, -1) /\
  tmpfs_stat r.1 (Some p) true = (-1, None) /\
  (0 <= r.2 -> exists i, 0 <= i < TMPFS_MAX_FILES /\ i_used (inodes s).[i] = false /\ i_used (inodes r.1).[i] = true).
Proof.
  intros Hs Hf Hl H1 H2 r.
  assert (forall t, tm_ok t -> find_inode t (Some p) = None) as Hn.
  { intros t Ht. destruct (find_inode t (Some p)) as [i|] eqn:E; [|done].
    apply find_inode_spec in E as (Hi & Hu & q & [= <-] & En). pose proof (io_name _ (tm_inode t Ht i Hi Hu)) as H63.
    rewrite En in H63. lia. }
  assert (tm_ok r.1) as Hr by (by apply tmpfs_open_ok). specialize (Hn r.1 Hr) as Hnr. split; [done|].
  split; [unfold tmpfs_unlink; by rewrite Hnr|]. split.
  { unfold tmpfs_stat. rewrite !bool_decide_false by done. cbn [negb orb]. by rewrite Hnr. }
  subst r. unfold tmpfs_open. rewrite !bool_decide_false by done. simpl orb. cbv iota. rewrite (Hn s Hs).
  destruct (has flags O_CREAT); [|simpl; lia].
  destruct (alloc_inode_cases s fresh (default [] (Some p))) as [[E1 _]|(i & d & Hi & Hu & -> & E2)].
  { destruct (alloc_inode _ _ _) as [s1 []]; simpl in *; [done|lia]. }
  rewrite E2. set (n := mkInode _ _ _ _ _). pose proof (tm_inodes s Hs) as Li. intros _. exists i. split; [done|]. split; [done|].
  unfold open_inode. simpl. rewrite geti_seti_eq by lia.
  destruct (_ && _); destruct (free_open _); simpl; by rewrite !geti_seti_eq by (autorewrite with arr; lia).
Qed.

Lemma tmpfs_long_name_witness :
  let r := tmpfs_open (tmpfs_init no_fs) (Some fresh_buf) (Some (replicate 70 97)) O_CREAT in
  r.2 = 500 /\ find_inode r.1 (Some (replicate 70 97)) = None.
Proof.
  split; [vm_compute; reflexivity|].
  apply (tmpfs_long_name (tmpfs_init no_fs) (Some fresh_buf) (replicate 70 97) O_CREAT (tmpfs_init_ok no_fs) fresh_buf_ok);
    vm_compute; try reflexivity; discriminate.
Defined.
