(* ===== verification/Memfs.v ===== *)
(** * The tree of files in memory: kernel/fs/vfs.c, first part

    The table of 64 entries, the lists of children and the resolution of
    paths.  A path or name is the list of its characters; of the array of children
    the list keeps the first num_children.  [lookup] walks down a list of names: what
    the resolver makes of a path ([resolve_render]), and with which the effect
    of adding, removing and moving entries is stated. *)

From stdpp Require Import list.
From S2P Require Import Prelude Tmpfs.

(** ** kernel/include/lestra/vfs.h *)

Definition MAX_FILES : Z := 64.
Definition MAX_FILE_SIZE : Z := 65536.
Definition MAX_PATH_LEN : Z := 256.
Definition MAX_CHILDREN : Z := 64.
Definition ROOT_IDX : Z := 0.
Definition SLASH : Z := 47.
Definition DOT : list Z := [46].
Definition DOTDOT : list Z := [46; 46].

(** ** State *)

Record mem_file := mkFile {
  f_name : list Z;
  f_data : list Z;
  f_size : Z;
  f_exists : bool;
  f_mode : Z;
  f_uid : Z;
  f_gid : Z;
  f_dir : bool;
  f_parent : Z;
  f_children : list Z;
}.

Definition zero_file : mem_file := mkFile [] (replicate (Z.to_nat MAX_FILE_SIZE) 0) 0 false 0 0 0 false 0 [].
#[export] Instance mem_file_inhabited : Inhabited mem_file := populate zero_file.

Record memfs := mkMemfs { fs_files : list mem_file; fs_offsets : list Z; fs_flags : list Z; fs_num_files : Z }.

Definition file (s : memfs) (i : Z) : mem_file := (fs_files s).[i].
Definition set_file (s : memfs) (i : Z) (f : mem_file) : memfs :=
  mkMemfs (fs_files s).[i <- f] (fs_offsets s) (fs_flags s) (fs_num_files s).
Definition set_offset (s : memfs) (i v : Z) : memfs := mkMemfs (fs_files s) (fs_offsets s).[i <- v] (fs_flags s) (fs_num_files s).
Definition set_fflags (s : memfs) (i v : Z) : memfs := mkMemfs (fs_files s) (fs_offsets s) (fs_flags s).[i <- v] (fs_num_files s).
Definition set_num (s : memfs) (n : Z) : memfs := mkMemfs (fs_files s) (fs_offsets s) (fs_flags s) (s32 n).

Definition with_children (f : mem_file) (l : list Z) : mem_file :=
  mkFile (f_name f) (f_data f) (f_size f) (f_exists f) (f_mode f) (f_uid f) (f_gid f) (f_dir f) (f_parent f) l.
Definition with_place (f : mem_file) (n : list Z) (p : Z) : mem_file :=
  mkFile n (f_data f) (f_size f) (f_exists f) (f_mode f) (f_uid f) (f_gid f) (f_dir f) p (f_children f).
Definition with_contents (f : mem_file) (d : list Z) (sz : Z) : mem_file :=
  mkFile (f_name f) d sz (f_exists f) (f_mode f) (f_uid f) (f_gid f) (f_dir f) (f_parent f) (f_children f).
Definition with_meta (f : mem_file) (m u g : Z) : mem_file :=
  mkFile (f_name f) (f_data f) (f_size f) (f_exists f) m u g (f_dir f) (f_parent f) (f_children f).
(** "exists = 0; num_children = 0" *)
Definition dropped (f : mem_file) : mem_file :=
  mkFile (f_name f) (f_data f) (f_size f) false (f_mode f) (f_uid f) (f_gid f) (f_dir f) (f_parent f) [].

Definition in_range (i : Z) : bool := (0 <=? i) && (i <? MAX_FILES).

(** ** Children *)

Definition memfs_find_child (s : memfs) (dir : Z) (name : list Z) : option Z :=
  if negb (in_range dir) || negb (f_exists (file s dir)) then None
  else find (fun c => in_range c && f_exists (file s c) && bool_decide (f_name (file s c) = name)) (f_children (file s dir)).

Definition memfs_add_child (s : memfs) (dir child : Z) : memfs * Z :=
  if negb (in_range dir) || negb (f_dir (file s dir)) then (s, -1)
  else
    let l := f_children (file s dir) in
    if MAX_CHILDREN <=? len l then (s, -1)
    else if existsb (Z.eqb child) l then (s, 0)
    else (set_file s dir (with_children (file s dir) (l ++ [child])), 0).

(** The first occurrence goes, what follows moves down. *)
Fixpoint take_out (child : Z) (l : list Z) : list Z :=
  match l with [] => [] | c :: l => if c =? child then l else c :: take_out child l end.

Definition memfs_remove_child (s : memfs) (dir child : Z) : memfs :=
  if negb (in_range dir) || negb (f_dir (file s dir)) then s
  else set_file s dir (with_children (file s dir) (take_out child (f_children (file s dir)))).

Definition memfs_alloc_slot (s : memfs) : option Z :=
  find_from (fun i => negb (f_exists (file s i))) (Z.to_nat MAX_FILES) 0.

(** A new entry; its data are what the slot holds. *)
Definition fill_slot (s : memfs) (slot : Z) (name : list Z) (dir : bool) (mode uid gid parent : Z) : memfs :=
  set_file s slot (mkFile (take 63 name) (f_data (file s slot)) 0 true mode uid gid dir parent []).

(** ** Entries that come, go and move *)

(** A new entry in the list of its parent; a list that refuses is not noticed. *)
Definition new_entry (m : memfs) (slot : Z) (name : list Z) (dir : bool) (mode uid gid parent : Z) : memfs :=
  let m := fill_slot m slot name dir mode uid gid parent in
  let '(m, _) := memfs_add_child m parent slot in
  set_num m (fs_num_files m + 1).

(** The entry leaves its list and its slot. *)
Definition drop_entry (m : memfs) (idx : Z) : memfs :=
  let parent := f_parent (file m idx) in
  let m := if in_range parent then memfs_remove_child m parent idx else m in
  set_num (set_file m idx (dropped (file m idx))) (fs_num_files m - 1).

(** From "Save old state for rollback" on; [replaced] is the entry that made room, with its slot. *)
Definition reparent (m : memfs) (old_idx new_parent : Z) (base : list Z) (replaced : option (Z * mem_file)) : memfs * Z :=
  let saved_name := f_name (file m old_idx) in
  let saved_parent := f_parent (file m old_idx) in
  let m := if in_range saved_parent then memfs_remove_child m saved_parent old_idx else m in
  let m := set_file m old_idx (with_place (file m old_idx) (take 63 base) new_parent) in
  let '(m, r) := memfs_add_child m new_parent old_idx in
  if r <? 0 then
    let m := set_file m old_idx (with_place (file m old_idx) (take 63 saved_name) saved_parent) in
    let m := if in_range saved_parent then fst (memfs_add_child m saved_parent old_idx) else m in
    match replaced with
    | None => (m, -1)
    | Some (new_idx, saved) =>
        let m := set_file m new_idx saved in
        let m := if in_range (f_parent saved) then fst (memfs_add_child m (f_parent saved) new_idx) else m in
        (set_num m (fs_num_files m + 1), -1)
    end
  else (m, 0).

(** ** Paths *)

(** Up to [n] characters of a component, and what follows. *)
Fixpoint scan (n : nat) (p : list Z) : list Z * list Z :=
  match n, p with
  | S n, c :: q => if c =? SLASH then ([], p) else let '(t, r) := scan n q in (c :: t, r)
  | _, _ => ([], p)
  end.

Definition skip_one (p : list Z) : list Z := match p with c :: q => if c =? SLASH then q else p | [] => [] end.
Fixpoint skip_slashes (p : list Z) : list Z := match p with c :: q => if c =? SLASH then skip_slashes q else p | [] => [] end.

(** One component from the directory [cur]. *)
Definition enter (s : memfs) (cur : Z) (comp : list Z) : option Z :=
  if bool_decide (comp = DOT) then Some cur
  else if bool_decide (comp = DOTDOT) then
    if negb (cur =? ROOT_IDX) then
      let par := f_parent (file s cur) in
      if in_range par && f_exists (file s par) then Some par else Some cur
    else Some cur
  else memfs_find_child s cur comp.

(** A round takes at least one character of the path. *)
Fixpoint resolve_loop (fuel : nat) (s : memfs) (cur : Z) (p : list Z) : option Z :=
  match fuel, p with
  | _, [] => Some cur
  | O, _ => None
  | S fuel, _ =>
      let '(comp, p) := scan 63 p in
      let p := skip_one p in
      if len comp =? 0 then resolve_loop fuel s cur p
      else next ← enter s cur comp; resolve_loop fuel s next p
  end.

Definition memfs_resolve_path_raw (s : memfs) (path : list Z) : option Z :=
  match path with
  | [] => None
  | c :: p => if negb (c =? SLASH) then None else resolve_loop (length p) s ROOT_IDX p
  end.

(** The number of components, of any length. *)
Fixpoint count_components (inside : bool) (p : list Z) : Z :=
  match p with
  | [] => 0
  | c :: q => if c =? SLASH then count_components false q else (if inside then 0 else 1) + count_components true q
  end.

(** The stack of components, the top last. *)
Fixpoint stack_loop (fuel : nat) (root_depth : Z) (stack : list (list Z)) (p : list Z) : list (list Z) :=
  match fuel, skip_slashes p with
  | S fuel, (_ :: _) as p =>
      let '(tok, p) := scan 63 p in
      let stack :=
        if bool_decide (tok = DOT) then stack
        else if bool_decide (tok = DOTDOT) then if root_depth <? len stack then removelast stack else stack
        else if len stack <? 64 then stack ++ [tok] else stack in
      stack_loop fuel root_depth stack p
  | _, _ => stack
  end.

Fixpoint join_loop (stack : list (list Z)) (path : list Z) : list Z :=
  match stack with
  | [] => path
  | t :: rest =>
      if MAX_PATH_LEN <=? len path + len t then path
      else
        let path := path ++ t in
        match rest with
        | [] => path
        | _ => if MAX_PATH_LEN <=? len path + 1 then path else join_loop rest (path ++ [SLASH])
        end
  end.

(** The fields of the current process that the file system reads. *)
Record cred := mkCred { c_root : list Z; c_uid : Z; c_gid : Z }.

Definition chroot_path (root path : list Z) : option (list Z) :=
  if MAX_PATH_LEN <=? len root + len path then None
  else
    let combined := (if List.last root 0 =? SLASH then removelast root else root) ++ path in
    let stack := stack_loop (length combined) (count_components false root) [] combined in
    Some (join_loop stack [SLASH]).

Section current.
Context (task_current : option cred).

Definition memfs_resolve_path (s : memfs) (path : list Z) : option Z :=
  match path with
  | [] => None
  | c :: _ =>
      if negb (c =? SLASH) then None
      else
        match task_current with
        | None => memfs_resolve_path_raw s path
        | Some p =>
            if bool_decide (c_root p = []) || bool_decide (c_root p = [SLASH]) then memfs_resolve_path_raw s path
            else eff_path ← chroot_path (c_root p) path; memfs_resolve_path_raw s eff_path
        end
  end.

(** The place of the last slash. *)
Fixpoint last_slash (p : list Z) (i last : Z) : Z :=
  match p with [] => last | c :: q => last_slash q (i + 1) (if c =? SLASH then i else last) end.

(** The parent and the base name, in a buffer of 64 bytes. *)
Definition memfs_split_path (s : memfs) (path : list Z) : option (Z * list Z) :=
  match path with
  | [] => None
  | c :: p =>
      if negb (c =? SLASH) || bool_decide (p = []) then None
      else
        let ls := last_slash path 0 0 in
        let base := drop (Z.to_nat (ls + 1)) path in
        if len base <=? 0 then None
        else
          let base := take 63 base in
          let parent_len := if ls =? 0 then 1 else ls in
          let parent_len := if MAX_PATH_LEN <=? parent_len then MAX_PATH_LEN - 1 else parent_len in
          let parent_path := take (Z.to_nat parent_len) path in
          if bool_decide (parent_path = [SLASH]) then Some (ROOT_IDX, base)
          else parent ← memfs_resolve_path s parent_path; Some (parent, base)
  end.
End current.

(** ** Walking down *)

Fixpoint lookup (s : memfs) (d : Z) (ns : list (list Z)) : option Z :=
  match ns with [] => Some d | n :: ns => c ← memfs_find_child s d n; lookup s c ns end.

Lemma lookup_app s d ns ms : lookup s d (ns ++ ms) = c ← lookup s d ns; lookup s c ms.
Proof.
  revert d. induction ns as [|n ns IH]; intros d; [done|]. cbn [app lookup]. destruct (memfs_find_child s d n); [apply IH|done].
Qed.

Lemma lookup_name_snoc s d ns n : lookup s d (ns ++ [n]) = c ← lookup s d ns; memfs_find_child s c n.
Proof.
  rewrite lookup_app. destruct (lookup s d ns) as [c|]; [|done]. cbn [mbind option_bind lookup]. by destruct (memfs_find_child s c n).
Qed.

(** Names as a path has them, and the path with these names. *)
Record good_name (n : list Z) : Prop := {
  gn_some : n <> [];
  gn_len : len n <= 63;
  gn_slash : Forall (fun c => c <> SLASH) n;
  gn_dot : n <> DOT;
  gn_dotdot : n <> DOTDOT;
}.

Definition render (ns : list (list Z)) : list Z :=
  match ns with [] => [SLASH] | _ => concat ((fun n => SLASH :: n) <$> ns) end.

(** *** The tokens of a path *)

(** What the loops over a path make of it: components cut at 63 characters. *)
Fixpoint tokens (p acc : list Z) : list (list Z) :=
  match p with
  | [] => if len acc =? 0 then [] else [acc]
  | c :: q =>
      if c =? SLASH then if len acc =? 0 then tokens q [] else acc :: tokens q []
      else if 62 <=? len acc then (acc ++ [c]) :: tokens q []
      else tokens q (acc ++ [c])
  end.

Lemma tokens_skip_one p : tokens (skip_one p) [] = tokens p [].
Proof. destruct p as [|c q]; [done|]. cbn [skip_one tokens]. destruct (c =? SLASH) eqn:E; [done|]. cbn [tokens]. by rewrite E. Qed.

Lemma tokens_skip_slashes p : tokens (skip_slashes p) [] = tokens p [].
Proof.
  induction p as [|c q IH]; [done|]. cbn [skip_slashes tokens]. destruct (c =? SLASH) eqn:E; [exact IH|]. cbn [tokens]. by rewrite E.
Qed.

(** A component that is not empty. *)
Definition some_token (t : list Z) : list (list Z) := if len t =? 0 then [] else [t].

Lemma some_token_cons c t : some_token (c :: t) = [c :: t].
Proof. unfold some_token. rewrite len_cons. pose proof (len_nonneg t). by rewrite (proj2 (Z.eqb_neq _ 0)) by lia. Qed.

Lemma tokens_scan n p acc t r : scan (S n) p = (t, r) -> len acc + Z.of_nat (S n) = 63 ->
  tokens p acc = some_token (acc ++ t) ++ tokens (skip_one r) [].
Proof.
  revert n acc t r. induction p as [|c q IH]; intros n acc t r E Hn.
  { injection E as <- <-. cbn [skip_one tokens]. rewrite !app_nil_r. done. }
  cbn [scan] in E. cbn [tokens]. destruct (c =? SLASH) eqn:Ec.
  { injection E as <- <-. cbn [skip_one]. rewrite Ec, app_nil_r. unfold some_token. by destruct (len acc =? 0). }
  destruct (scan n q) as [t' r'] eqn:Es. injection E as <- <-. destruct n as [|n].
  - rewrite (proj2 (Z.leb_le 62 (len acc))) by lia. assert (t' = [] /\ r' = q) as [-> ->] by (destruct q; by injection Es as <- <-).
    rewrite tokens_skip_one. unfold some_token. rewrite len_app, len_cons, len_nil. pose proof (len_nonneg acc). by rewrite (proj2 (Z.eqb_neq _ 0)) by lia.
  - rewrite (proj2 (Z.leb_gt 62 (len acc))) by lia. rewrite (IH n (acc ++ [c]) t' r' Es); [by rewrite <- app_assoc|].
    rewrite len_app, len_cons. change (len []) with 0. lia.
Qed.

Lemma scan_length n p t r : scan n p = (t, r) -> (length t + length r = length p)%nat.
Proof.
  revert n t r. induction p as [|c q IH]; intros n t r E; [by destruct n; injection E as <- <-|]. destruct n as [|n]; [by injection E as <- <-|].
  cbn [scan] in E. destruct (c =? SLASH); [by injection E as <- <-|]. destruct (scan n q) as [t' r'] eqn:Es. injection E as <- <-. cbn. specialize (IH _ _ _ Es). lia.
Qed.

Lemma skip_one_length p : (length (skip_one p) <= length p)%nat.
Proof. destruct p as [|c q]; cbn; [lia|]. destruct (c =? SLASH); cbn; lia. Qed.

Lemma scan_nil n c p r : scan (S n) (c :: p) = ([], r) -> c = SLASH /\ r = c :: p.
Proof.
  cbn [scan]. destruct (Z.eqb_spec c SLASH) as [Ec|]; [by intros [= <-]|]. by destruct (scan n p).
Qed.

(** A round shortens the path. *)
Lemma scan_round c p t r : scan 63 (c :: p) = (t, r) -> (length (skip_one r) <= length p)%nat.
Proof.
  intros E. destruct t as [|d t].
  - destruct (scan_nil _ _ _ _ E) as [-> ->]. cbn [skip_one]. by rewrite Z.eqb_refl.
  - pose proof (scan_length _ _ _ _ E) as L. cbn in L. pose proof (skip_one_length r). lia.
Qed.

Fixpoint walk (s : memfs) (d : Z) (ts : list (list Z)) : option Z :=
  match ts with [] => Some d | t :: ts => c ← enter s d t; walk s c ts end.

Lemma walk_app s d ts us : walk s d (ts ++ us) = c ← walk s d ts; walk s c us.
Proof. revert d. induction ts as [|t ts IH]; intros d; [done|]. cbn [app walk]. destruct (enter s d t); [apply IH|done]. Qed.

Lemma resolve_loop_walk fuel s d p : (length p <= fuel)%nat -> resolve_loop fuel s d p = walk s d (tokens p []).
Proof.
  revert d p. induction fuel as [|fuel IH]; intros d p Hl; destruct p as [|c p]; try done; [cbn in Hl; lia|].
  cbn [resolve_loop]. destruct (scan 63 (c :: p)) as [t r] eqn:E. pose proof (scan_round _ _ _ _ E) as Hr. cbn [length] in Hl.
  rewrite (tokens_scan 62 (c :: p) [] t r E eq_refl). cbn [app]. unfold some_token. destruct (len t =? 0); [apply IH; lia|].
  cbn [app walk]. destruct (enter s d t) as [x|]; [|done]. cbn [mbind option_bind]. apply IH. lia.
Qed.

Lemma resolve_raw_walk s p : memfs_resolve_path_raw s (SLASH :: p) = walk s ROOT_IDX (tokens p []).
Proof. cbn [memfs_resolve_path_raw]. change (negb (SLASH =? SLASH)) with false. by apply resolve_loop_walk. Qed.

(** *** Names *)

Lemma tokens_name n acc p : Forall (fun c => c <> SLASH) n -> 0 < len acc + len n <= 63 ->
  match p with c :: _ => c = SLASH | [] => True end -> tokens (n ++ p) acc = (acc ++ n) :: tokens p [].
Proof.
  intros Hn. revert acc. induction Hn as [|c n Hc Hn IH]; intros acc Hl Hp.
  { change (len []) with 0 in Hl. cbn [app]. rewrite app_nil_r. destruct p as [|c p]; cbn [tokens]; [by rewrite (proj2 (Z.eqb_neq (len acc) 0)) by lia|]. subst c.
    rewrite Z.eqb_refl. by rewrite (proj2 (Z.eqb_neq (len acc) 0)) by lia. }
  rewrite len_cons in Hl. cbn [app tokens]. rewrite (proj2 (Z.eqb_neq c SLASH) Hc). pose proof (len_nonneg n). pose proof (len_nonneg acc).
  destruct (Z.leb_spec 62 (len acc)).
  - assert (n = []) as -> by (apply length_zero_iff_nil; unfold len in *; lia). cbn [app].
    destruct p as [|d p]; [done|]. subst d. cbn [tokens]. by rewrite Z.eqb_refl.
  - rewrite IH; [by rewrite <- app_assoc| |done]. rewrite len_app, len_cons. change (len []) with 0. lia.
Qed.

Lemma tokens_names ns : Forall good_name ns -> tokens (concat ((fun n => SLASH :: n) <$> ns)) [] = ns.
Proof.
  induction 1 as [|n ns Hn Hns IH]; [done|]. cbn [fmap list_fmap concat app tokens]. rewrite Z.eqb_refl. change (len [] =? 0) with true. cbn iota.
  rewrite tokens_name; [by rewrite IH|apply Hn| |by destruct ns].
  pose proof (gn_len n Hn). change (len []) with 0. pose proof (gn_some n Hn). destruct n; [done|]. rewrite len_cons in *. pose proof (len_nonneg n). lia.
Qed.

Lemma enter_name s d n : good_name n -> enter s d n = memfs_find_child s d n.
Proof. intros [_ _ _ H1 H2]. unfold enter. by rewrite (bool_decide_eq_false_2 _ H1), (bool_decide_eq_false_2 _ H2). Qed.

Lemma walk_names s d ns : Forall good_name ns -> walk s d ns = lookup s d ns.
Proof.
  intros H. revert d. induction H as [|n ns Hn Hns IH]; intros d; [done|]. cbn [walk lookup]. rewrite enter_name by done. by destruct (memfs_find_child s d n); [apply IH|].
Qed.

Lemma render_tokens ns : Forall good_name ns -> exists p, render ns = SLASH :: p /\ tokens p [] = ns.
Proof.
  intros H. destruct ns as [|n ns]; [by exists []|]. pose proof (tokens_names (n :: ns) H) as E. eexists. split; [done|].
  cbn [fmap list_fmap concat app tokens] in E. by rewrite Z.eqb_refl in E.
Qed.

Lemma resolve_raw_render s ns : Forall good_name ns -> memfs_resolve_path_raw s (render ns) = lookup s ROOT_IDX ns.
Proof.
  intros H. destruct (render_tokens ns H) as (p & -> & E). by rewrite resolve_raw_walk, E, walk_names.
Qed.

(** ** Changing the root directory *)

(** One component on the stack. *)
Definition push (root_depth : Z) (stack : list (list Z)) (tok : list Z) : list (list Z) :=
  if bool_decide (tok = DOT) then stack
  else if bool_decide (tok = DOTDOT) then if root_depth <? len stack then removelast stack else stack
  else if len stack <? 64 then stack ++ [tok] else stack.

Lemma skip_slashes_length p : (length (skip_slashes p) <= length p)%nat.
Proof. induction p as [|c q IH]; cbn; [lia|]. destruct (c =? SLASH); cbn; lia. Qed.

Lemma skip_slashes_head p c q : skip_slashes p = c :: q -> c <> SLASH.
Proof. induction p as [|d p IH]; [done|]. cbn [skip_slashes]. destruct (Z.eqb_spec d SLASH); [exact IH|]. by intros [= <- _]. Qed.

Lemma stack_loop_tokens fuel rd stack p : (length p <= fuel)%nat -> stack_loop fuel rd stack p = foldl (push rd) stack (tokens p []).
Proof.
  revert stack p. induction fuel as [|fuel IH]; intros stack p Hl.
  { assert (p = []) as -> by (apply length_zero_iff_nil; lia). done. }
  cbn [stack_loop]. rewrite <- (tokens_skip_slashes p). destruct (skip_slashes p) as [|c q] eqn:E; [done|].
  pose proof (skip_slashes_length p) as L. rewrite E in L. cbn [length] in L. destruct (scan 63 (c :: q)) as [t r] eqn:Es.
  pose proof (scan_length _ _ _ _ Es) as Ls. cbn [length] in Ls. rewrite (tokens_scan 62 (c :: q) [] t r Es eq_refl). cbn [app].
  destruct t as [|d t]; [destruct (scan_nil _ _ _ _ Es) as [-> _]; by apply skip_slashes_head in E|].
  rewrite some_token_cons. cbn [app foldl]. rewrite tokens_skip_one. cbn [length] in Ls. apply IH. lia.
Qed.

(** A token is a name, but for the dots. *)
Record token (t : list Z) : Prop := { tk_some : t <> []; tk_len : len t <= 63; tk_slash : Forall (fun c => c <> SLASH) t }.

Lemma good_token t : good_name t -> token t.
Proof. intros [? ? ? ? ?]. by constructor. Qed.

Lemma tokens_ok p acc : len acc <= 62 -> Forall (fun c => c <> SLASH) acc -> Forall token (tokens p acc).
Proof.
  assert (He : forall a, len a <= 62 -> Forall (fun c => c <> SLASH) a -> Forall token (if len a =? 0 then [] else [a])).
  { intros a Ha Hs. destruct a as [|x a]; [done|]. rewrite (proj2 (Z.eqb_neq _ 0)) by (rewrite len_cons; pose proof (len_nonneg a); lia).
    constructor; [|done]. constructor; [done|lia|done]. }
  revert acc. induction p as [|c q IH]; intros acc Hl Hs; cbn [tokens]; [by apply He|].
  destruct (Z.eqb_spec c SLASH) as [->|Hc].
  - specialize (He acc Hl Hs). destruct (len acc =? 0); [|inversion He; constructor; [done|]]; apply IH; done.
  - assert (Hs' : Forall (fun c => c <> SLASH) (acc ++ [c])) by (apply Forall_app; split; [done|by repeat constructor]).
    assert (Hl' : len (acc ++ [c]) = len acc + 1) by (rewrite len_app; done).
    destruct (Z.leb_spec 62 (len acc)); [|apply IH; [lia|done]]. constructor; [|by apply IH]. constructor; [by destruct acc|lia|done].
Qed.

Lemma tokens_app p q acc : tokens (p ++ SLASH :: q) acc = tokens p acc ++ tokens q [].
Proof.
  revert acc. induction p as [|c p IH]; intros acc; cbn [app tokens]; [rewrite Z.eqb_refl; by destruct (len acc =? 0)|].
  rewrite !IH. by repeat case_match.
Qed.

(** The room a path with these components takes. *)
Fixpoint cost (ts : list (list Z)) : Z := match ts with [] => 0 | t :: ts => len t + 1 + cost ts end.

Lemma cost_nonneg ts : 0 <= cost ts.
Proof. induction ts as [|t ts IH]; cbn [cost]; [lia|]. pose proof (len_nonneg t). lia. Qed.

Lemma len_concat ns : len (concat ((fun n => SLASH :: n) <$> ns)) = cost ns.
Proof. induction ns as [|n ns IH]; [done|]. cbn [fmap list_fmap concat cost app]. rewrite len_cons, len_app, IH. lia. Qed.

(** The joined path has the components of the stack, as far as there is room. *)
Lemma join_loop_ok ts path : Forall token ts ->
  exists k q, join_loop ts path = path ++ q /\ tokens q [] = take k ts /\
    forall j, (j <= length ts)%nat -> len path + cost (take j ts) <= 256 -> (j <= k)%nat.
Proof.
  intros H. revert path. induction H as [|t ts [T1 T2 T3] Hts IH]; intros path; [by exists 0%nat, []; rewrite app_nil_r|]. cbn [join_loop].
  assert (Ht1 : tokens t [] = [t]).
  { rewrite <- (app_nil_r t) at 1. rewrite (tokens_name t [] []); [done|done| |done]. change (len []) with 0. destruct t; [done|]. rewrite len_cons in *. pose proof (len_nonneg t). lia. }
  unfold MAX_PATH_LEN. destruct (Z.leb_spec 256 (len path + len t)) as [Hf|Hf].
  { exists 0%nat, []. rewrite app_nil_r. split; [done|]. split; [done|]. intros [|j] Hj Hc; [lia|]. cbn [take cost] in Hc. pose proof (cost_nonneg (take j ts)). lia. }
  destruct ts as [|u us].
  { exists 1%nat, t. split; [done|]. split; [done|]. cbn. intros; lia. }
  destruct (Z.leb_spec 256 (len (path ++ t) + 1)) as [Hg|Hg].
  { rewrite len_app in Hg. exists 1%nat, t. split; [done|]. split; [done|]. intros [|[|j]] Hj Hc; [lia|lia|]. cbn [take cost] in Hc.
    pose proof (cost_nonneg (take j us)). pose proof (len_nonneg u). lia. }
  destruct (IH ((path ++ t) ++ [SLASH])) as (k & q & -> & E & Hk). exists (S k), (t ++ SLASH :: q). rewrite <- !app_assoc. split; [done|].
  split; [rewrite tokens_app, Ht1, E; done|]. intros [|j] Hj Hc; [lia|]. apply le_n_S, Hk; [cbn in *; lia|]. rewrite !len_app. change (len [SLASH]) with 1.
  cbn [take cost] in Hc |- *. lia.
Qed.

Lemma count_components_app i n p : Forall (fun c => c <> SLASH) n -> n <> [] ->
  count_components i (n ++ p) = (if i then 0 else 1) + count_components true p.
Proof.
  intros H. revert i. induction H as [|c n Hc Hn IH]; intros i Hne; [done|]. cbn [app count_components]. rewrite (proj2 (Z.eqb_neq c SLASH) Hc).
  destruct n as [|d n]; [done|]. rewrite (IH true) by done. lia.
Qed.

Lemma count_components_names i ns : Forall good_name ns -> count_components i (concat ((fun n => SLASH :: n) <$> ns)) = len ns.
Proof.
  intros H. revert i. induction H as [|n ns Hn Hns IH]; intros i; [done|]. cbn [fmap list_fmap concat app count_components].
  rewrite Z.eqb_refl, count_components_app, IH, len_cons; [done|apply Hn|apply Hn].
Qed.

Lemma push_names rd ns stack : Forall good_name ns -> len stack + len ns <= 64 -> foldl (push rd) stack ns = stack ++ ns.
Proof.
  intros H. revert stack. induction H as [|n ns Hn Hns IH]; intros stack Hl; [by rewrite app_nil_r|]. rewrite len_cons in Hl. pose proof (len_nonneg ns).
  cbn [foldl]. unfold push at 2. rewrite (bool_decide_eq_false_2 _ (gn_dot n Hn)), (bool_decide_eq_false_2 _ (gn_dotdot n Hn)).
  rewrite (proj2 (Z.ltb_lt (len stack) 64)) by lia. rewrite IH, <- app_assoc; [done|]. rewrite len_app, len_cons. change (len []) with 0. lia.
Qed.

(** The root's components stay at the bottom of the stack. *)
Lemma push_keeps rs ts ms : Forall token ts -> Forall good_name ms -> exists ns, foldl (push (len rs)) (rs ++ ms) ts = rs ++ ns /\ Forall good_name ns.
Proof.
  intros H. revert ms. induction H as [|t ts [T1 T2 T3] Hts IH]; intros ms Hm; [by exists ms|]. cbn [foldl].
  assert (Hp : exists ns, push (len rs) (rs ++ ms) t = rs ++ ns /\ Forall good_name ns); [|destruct Hp as (ns & -> & Hns); by apply IH].
  unfold push. case_bool_decide as E1; [by exists ms|]. case_bool_decide as E2.
  - rewrite len_app. destruct (Z.ltb_spec (len rs) (len rs + len ms)) as [Hlt|]; [|by exists ms].
    destruct ms as [|m ms _] using rev_ind; [change (len []) with 0 in Hlt; lia|]. apply Forall_app in Hm as [Hm _].
    rewrite app_assoc, removelast_last. by exists ms.
  - destruct (len (rs ++ ms) <? 64); [|by exists ms]. exists (ms ++ [t]). rewrite app_assoc. split; [done|]. apply Forall_app. split; [done|]. by repeat constructor.
Qed.

Lemma render_cost ns : ns <> [] -> len (render ns) = cost ns.
Proof. intros H. destruct ns; [done|]. apply len_concat. Qed.

Lemma render_last ns : Forall good_name ns -> ns <> [] -> (List.last (render ns) 0 =? SLASH) = false.
Proof.
  intros H Hne. apply Z.eqb_neq. destruct ns as [|n ns _] using rev_ind; [done|]. apply Forall_app in H as [_ H]. inversion H as [|? ? Hn _]; subst.
  destruct (exists_last (gn_some n Hn)) as (n0 & c & E). assert (Er : exists l, render (ns ++ [n]) = l ++ [c]).
  { exists (concat ((fun n => SLASH :: n) <$> ns) ++ SLASH :: n0).
    assert (Ec : render (ns ++ [n]) = concat ((fun n => SLASH :: n) <$> (ns ++ [n]))) by (by destruct ns).
    rewrite Ec, fmap_app, concat_app. cbn [fmap list_fmap concat]. rewrite app_nil_r, <- app_assoc, E. done. }
  destruct Er as [l ->]. rewrite last_last. pose proof (gn_slash n Hn) as Hs. rewrite E in Hs. apply Forall_app in Hs as [_ Hs]. by inversion Hs.
Qed.

(** The path that is resolved instead of [SLASH :: p]: below the root whatever [p] is, and
    the joined path when [p] is a path of names. *)
Lemma chroot_path_ok rs p : Forall good_name rs -> rs <> [] -> len rs <= 64 -> len (render rs) + len (SLASH :: p) < MAX_PATH_LEN ->
  exists eff ns, chroot_path (render rs) (SLASH :: p) = Some eff /\ Forall good_name ns /\
    (forall s, memfs_resolve_path_raw s eff = lookup s ROOT_IDX (rs ++ ns)) /\
    (forall ms, Forall good_name ms -> SLASH :: p = render ms -> len rs + len ms <= 64 -> ns = ms).
Proof.
  intros Hrs Hne Hlen Hroom. unfold chroot_path, MAX_PATH_LEN in *. rewrite (proj2 (Z.leb_gt _ _)) by lia. rewrite (render_last rs Hrs Hne).
  set (combined := render rs ++ SLASH :: p). destruct (render_tokens rs Hrs) as (rp & Er & Et).
  assert (Etc : tokens combined [] = rs ++ tokens p []) by (unfold combined; rewrite Er, tokens_app; by cbn [tokens]; rewrite Z.eqb_refl, Et).
  assert (Ed : count_components false (render rs) = len rs) by (destruct rs; [done|]; by apply count_components_names).
  rewrite Ed, stack_loop_tokens, Etc, foldl_app, (push_names _ rs []) by (done || (change (len []) with 0; lia)). cbn [app].
  pose proof (tokens_ok p [] ltac:(done) (Forall_nil_2 _)) as Ht.
  destruct (push_keeps rs (tokens p []) [] Ht (Forall_nil_2 _)) as (ns & En & Hns). rewrite app_nil_r in En. rewrite En.
  assert (Hall : Forall token (rs ++ ns)) by (apply Forall_app; split; (eapply Forall_impl; [|eassumption]; apply good_token)).
  destruct (join_loop_ok (rs ++ ns) [SLASH] Hall) as (k & q & -> & Eq & Hk). pose proof (len_nonneg p). rewrite len_cons in Hroom.
  assert (Hkr : (length rs <= k)%nat).
  { apply Hk; [rewrite length_app; lia|]. rewrite take_app_length. change (len [SLASH]) with 1. rewrite render_cost in Hroom by done. lia. }
  rewrite take_app, take_ge in Eq by lia. exists ([SLASH] ++ q), (take (k - length rs) ns). split; [done|]. split; [by apply Forall_take|].
  split; [intros s; cbn [app]; rewrite resolve_raw_walk, Eq, walk_names; [done|apply Forall_app; split; [done|by apply Forall_take]]|].
  intros ms Hms Ep Hl. destruct (render_tokens ms Hms) as (p' & Ep' & Et'). rewrite Ep' in Ep. injection Ep as ->. rewrite Et', push_names in En by done.
  apply app_inv_head in En as ->. apply take_ge. apply (Nat.add_le_mono_l _ _ (length rs)).
  cut (length rs + length ns <= k)%nat; [lia|]. rewrite <- length_app. apply Hk; [lia|]. rewrite take_ge by lia. change (len [SLASH]) with 1.
  assert (Ec : cost (rs ++ ns) = cost rs + cost ns) by (clear; induction rs as [|r rs IH]; [done|]; cbn [app cost]; lia). rewrite Ec, <- render_cost by done.
  assert (Hcn : cost ns <= 1 + len p'); [|lia]. destruct ns as [|n ns']; [cbn [cost]; lia|]. rewrite <- render_cost, Ep', len_cons by done. lia.
Qed.

(** ** The tree *)

(** What the children lists hold; entries that are in no list may exist, too. *)
Record wf (s : memfs) : Prop := {
  wf_len : len (fs_files s) = MAX_FILES /\ len (fs_offsets s) = MAX_FILES /\ len (fs_flags s) = MAX_FILES;
  wf_root : f_exists (file s ROOT_IDX) = true /\ f_dir (file s ROOT_IDX) = true /\ f_parent (file s ROOT_IDX) = -1;
  wf_child d c : 0 <= d < MAX_FILES -> In c (f_children (file s d)) ->
    f_exists (file s d) = true /\ f_dir (file s d) = true /\
    0 <= c < MAX_FILES /\ f_exists (file s c) = true /\ f_parent (file s c) = d /\ good_name (f_name (file s c));
  wf_nodup d : 0 <= d < MAX_FILES -> List.NoDup (f_children (file s d));
  wf_names d c c' : 0 <= d < MAX_FILES -> In c (f_children (file s d)) -> In c' (f_children (file s d)) ->
    f_name (file s c) = f_name (file s c') -> c = c';
}.

Lemma in_range_ok i : in_range i = true <-> 0 <= i < MAX_FILES.
Proof. unfold in_range. rewrite andb_true_iff, Z.leb_le, Z.ltb_lt. done. Qed.

Lemma file_set s i j f : wf s -> 0 <= i < MAX_FILES -> 0 <= j -> file (set_file s i f) j = if decide (i = j) then f else file s j.
Proof. intros W Hi Hj. unfold file, set_file. cbn [fs_files]. apply geti_seti; rewrite ?(proj1 (wf_len s W)); lia. Qed.

Lemma find_child_some s d n c : wf s -> memfs_find_child s d n = Some c ->
  0 <= d < MAX_FILES /\ In c (f_children (file s d)) /\ f_name (file s c) = n.
Proof.
  intros W. unfold memfs_find_child. destruct (in_range d) eqn:Ed; [|done]. destruct (f_exists (file s d)); [|done]. cbn [negb orb].
  intros [Hin Hp]%find_some. split; [by apply in_range_ok|]. apply andb_true_iff in Hp as [_ Hn%bool_decide_eq_true_1]. done.
Qed.

Lemma find_child_in s d c : wf s -> 0 <= d < MAX_FILES -> In c (f_children (file s d)) -> memfs_find_child s d (f_name (file s c)) = Some c.
Proof.
  intros W Hd Hin. destruct (wf_child s W d c Hd Hin) as (He & _ & Hc & Hce & _). unfold memfs_find_child.
  rewrite (proj2 (in_range_ok d) Hd), He. cbn [negb orb].
  destruct (find _ _) as [c'|] eqn:E.
  - apply find_some in E as [Hin' Hp]. apply andb_true_iff in Hp as [_ Hn%bool_decide_eq_true_1]. f_equal. by apply (wf_names s W d).
  - pose proof (find_none _ _ E c Hin) as Hf. cbv beta in Hf. rewrite (proj2 (in_range_ok c) Hc), Hce, bool_decide_eq_true_2 in Hf by done. done.
Qed.

(** What is found in a directory, from its list. *)
Lemma find_child_iff s d n c : wf s -> 0 <= d < MAX_FILES -> memfs_find_child s d n = Some c <-> In c (f_children (file s d)) /\ f_name (file s c) = n.
Proof.
  intros W Hd. split; [by intros (_ & ? & ?)%find_child_some|]. intros [Hin <-]. by apply find_child_in.
Qed.

Lemma lookup_found s ns i : wf s -> lookup s ROOT_IDX ns = Some i -> 0 <= i < MAX_FILES /\ f_exists (file s i) = true.
Proof.
  intros W. destruct ns as [|n ns _] using rev_ind; [intros [= <-]; split; [done|by apply wf_root]|]. rewrite lookup_name_snoc.
  destruct (lookup s ROOT_IDX ns) as [d|]; [|done]. cbn [mbind option_bind]. intros (Hd & Hin & _)%find_child_some; [|done].
  destruct (wf_child s W d i Hd Hin) as (_ & _ & ? & ? & _). done.
Qed.

(** An entry has one path only. *)
Lemma lookup_unique s ns ms i : wf s -> lookup s ROOT_IDX ns = Some i -> lookup s ROOT_IDX ms = Some i -> ns = ms.
Proof.
  intros W. assert (Hroot : forall d n, memfs_find_child s d n = Some ROOT_IDX -> False).
  { intros d n (Hd & Hin & _)%find_child_some; [|done]. destruct (wf_child s W d _ Hd Hin) as (_ & _ & _ & _ & Hp & _). rewrite (proj2 (proj2 (wf_root s W))) in Hp. lia. }
  revert ms i. induction ns as [|n ns IH] using rev_ind; intros ms i.
  - intros [= <-]. destruct ms as [|m ms _] using rev_ind; [done|]. rewrite lookup_name_snoc. destruct (lookup s ROOT_IDX ms); [|done]. by intros ?%Hroot.
  - rewrite lookup_name_snoc. destruct (lookup s ROOT_IDX ns) as [d|] eqn:E1; [|done]. cbn [mbind option_bind]. intros F1.
    destruct ms as [|m ms _] using rev_ind; [intros [= <-]; by apply Hroot in F1|]. rewrite lookup_name_snoc.
    destruct (lookup s ROOT_IDX ms) as [d'|] eqn:E2; [|done]. cbn [mbind option_bind]. intros F2.
    destruct (find_child_some s d n i W F1) as (Hd & Hin & <-). destruct (find_child_some s d' m i W F2) as (Hd' & Hin' & <-).
    destruct (wf_child s W d i Hd Hin) as (_ & _ & _ & _ & <- & _). destruct (wf_child s W d' i Hd' Hin') as (_ & _ & _ & _ & <- & _).
    by rewrite (IH ms (f_parent (file s i)) eq_refl E2).
Qed.

Lemma lookup_prefix_none s d ns ms : lookup s d ns = None -> lookup s d (ns ++ ms) = None.
Proof. intros E. by rewrite lookup_app, E. Qed.

Lemma find_child_none s d n : wf s -> f_children (file s d) = [] -> memfs_find_child s d n = None.
Proof. intros W E. destruct (memfs_find_child s d n) as [c|] eqn:F; [|done]. apply find_child_some in F as (_ & Hin & _); [|done]. by rewrite E in Hin. Qed.

Lemma prefix_last {A} (l p : list A) n : l `prefix_of` p ++ [n] -> l `prefix_of` p \/ l = p ++ [n].
Proof.
  intros [k E]. destruct k as [|m k _] using rev_ind; [right; by rewrite app_nil_r in E|left].
  rewrite app_assoc in E. apply app_inj_tail in E as [-> _]. by exists k.
Qed.

Section changes.
Context (s s' : memfs) (W : wf s) (pd : list (list Z)) (d : Z) (nm : list Z).
Context (Hd : lookup s ROOT_IDX pd = Some d).

(** A new entry. *)
Lemma lookup_added slot : lookup s ROOT_IDX (pd ++ [nm]) = None -> (forall p, lookup s ROOT_IDX p <> Some slot) ->
  (forall n, memfs_find_child s' slot n = None) ->
  (forall x n, x <> slot -> memfs_find_child s' x n = if bool_decide (x = d) && bool_decide (n = nm) then Some slot else memfs_find_child s x n) ->
  forall p, lookup s' ROOT_IDX p = if decide (p = pd ++ [nm]) then Some slot else lookup s ROOT_IDX p.
Proof.
  intros Hnone Hfree Hslot Hfind p. induction p as [|n p IH] using rev_ind; [by destruct pd|]. rewrite lookup_name_snoc, IH. clear IH.
  destruct (decide (p = pd ++ [nm])) as [->|Hp].
  { cbn [mbind option_bind]. rewrite Hslot, (lookup_prefix_none _ _ _ _ Hnone). case_decide as E; [|done].
    apply (f_equal length) in E. rewrite !length_app in E. cbn in E. lia. }
  rewrite lookup_name_snoc. destruct (lookup s ROOT_IDX p) as [x|] eqn:Ex; cbn [mbind option_bind].
  - assert (x <> slot) by (by intros ->; apply Hfree in Ex). rewrite Hfind by done.
    destruct (decide (p ++ [n] = pd ++ [nm])) as [E|E].
    + apply app_inj_tail in E as [-> ->]. rewrite Hd in Ex. injection Ex as <-. by rewrite !bool_decide_eq_true_2.
    + destruct (bool_decide (x = d)) eqn:Bx; [|done]. apply bool_decide_eq_true_1 in Bx as ->. rewrite (lookup_unique s p pd d W Ex Hd) in E.
      rewrite (bool_decide_eq_false_2 (n = nm)); [done|]. by intros ->.
  - case_decide as E; [|done]. apply app_inj_tail in E as [-> ->]. congruence.
Qed.

(** An entry that is taken away with all below it. *)
Lemma lookup_removed idx : lookup s ROOT_IDX (pd ++ [nm]) = Some idx ->
  (forall x n, x <> idx -> memfs_find_child s' x n = if bool_decide (x = d) && bool_decide (n = nm) then None else memfs_find_child s x n) ->
  forall p, lookup s' ROOT_IDX p = if decide (pd ++ [nm] `prefix_of` p) then None else lookup s ROOT_IDX p.
Proof.
  intros Hidx Hfind p. induction p as [|n p IH] using rev_ind.
  { cbn [lookup]. case_decide as E; [|done]. apply prefix_nil_inv in E. by destruct pd. }
  rewrite lookup_name_snoc, IH. clear IH. destruct (decide (pd ++ [nm] `prefix_of` p)) as [Hp|Hp].
  { rewrite decide_True; [done|]. by apply prefix_app_r. }
  rewrite lookup_name_snoc. destruct (lookup s ROOT_IDX p) as [x|] eqn:Ex; cbn [mbind option_bind]; [|by case_decide].
  assert (x <> idx). { intros ->. apply Hp. by rewrite (lookup_unique s p _ idx W Ex Hidx). }
  rewrite Hfind by done. destruct (decide (pd ++ [nm] `prefix_of` p ++ [n])) as [[?|E]%prefix_last|E]; [done| |].
  - apply app_inj_tail in E as [-> ->]. rewrite Hd in Ex. injection Ex as <-. by rewrite !bool_decide_eq_true_2.
  - destruct (bool_decide (x = d)) eqn:Bx; [|done]. apply bool_decide_eq_true_1 in Bx as ->. rewrite (lookup_unique s p pd d W Ex Hd) in E.
    rewrite (bool_decide_eq_false_2 (n = nm)); [done|]. intros ->. by apply E.
Qed.

(** An entry that moves to the directory [d2] under the name [nn]. *)
Lemma lookup_moved idx qd d2 nn : lookup s ROOT_IDX (pd ++ [nm]) = Some idx -> lookup s ROOT_IDX qd = Some d2 ->
  lookup s ROOT_IDX (qd ++ [nn]) = None -> ~ pd ++ [nm] `prefix_of` qd ->
  (forall x n, memfs_find_child s' x n = if bool_decide (x = d2) && bool_decide (n = nn) then Some idx
     else if bool_decide (x = d) && bool_decide (n = nm) then None else memfs_find_child s x n) ->
  (forall r, lookup s' ROOT_IDX ((qd ++ [nn]) ++ r) = lookup s ROOT_IDX ((pd ++ [nm]) ++ r)) /\
  (forall p, ~ qd ++ [nn] `prefix_of` p -> lookup s' ROOT_IDX p = if decide (pd ++ [nm] `prefix_of` p) then None else lookup s ROOT_IDX p).
Proof.
  intros Hidx Hd2 Hnone Hout Hfind.
  assert (Hother : forall p, ~ qd ++ [nn] `prefix_of` p -> lookup s' ROOT_IDX p = if decide (pd ++ [nm] `prefix_of` p) then None else lookup s ROOT_IDX p).
  { intros p. induction p as [|n p IH] using rev_ind; intros Hq.
    { cbn [lookup]. case_decide as E; [|done]. apply prefix_nil_inv in E. by destruct pd. }
    rewrite lookup_name_snoc, IH by (intros Hq'; by apply Hq, prefix_app_r). clear IH.
    destruct (decide (pd ++ [nm] `prefix_of` p)) as [Hp|Hp]; [rewrite decide_True; [done|by apply prefix_app_r]|].
    rewrite lookup_name_snoc. destruct (lookup s ROOT_IDX p) as [x|] eqn:Ex; cbn [mbind option_bind]; [|by case_decide]. rewrite Hfind.
    rewrite (bool_decide_decide (x = d2)). destruct (decide (x = d2)) as [->|].
    { rewrite (lookup_unique s p qd d2 W Ex Hd2) in *. rewrite (bool_decide_eq_false_2 (n = nn)) by (by intros ->; apply Hq). cbn [andb].
      destruct (bool_decide (d2 = d)) eqn:Bx.
      - apply bool_decide_eq_true_1 in Bx as ->. rewrite (lookup_unique s qd pd d W Hd2 Hd) in *. cbn [andb].
        case_bool_decide as Bn; [subst n; by rewrite decide_True|]. rewrite decide_False; [done|].
        intros [?|E]%prefix_last; [done|]. by apply app_inj_tail in E as [_ ->].
      - cbn [andb]. apply bool_decide_eq_false_1 in Bx. rewrite decide_False; [done|].
        intros [?|E]%prefix_last; [done|]. apply app_inj_tail in E as [-> ->]. congruence. }
    cbn [andb]. destruct (bool_decide (x = d)) eqn:Bx; cbn [andb].
    - apply bool_decide_eq_true_1 in Bx as ->. rewrite (lookup_unique s p pd d W Ex Hd) in *.
      case_bool_decide as Bn; [subst n; by rewrite decide_True|]. rewrite decide_False; [done|].
      intros [?|E]%prefix_last; [done|]. by apply app_inj_tail in E as [_ ->].
    - apply bool_decide_eq_false_1 in Bx. rewrite decide_False; [done|]. intros [?|E]%prefix_last; [done|]. apply app_inj_tail in E as [-> ->]. congruence. }
  split; [|exact Hother]. intros r. induction r as [|n r IH] using rev_ind.
  - rewrite !app_nil_r, Hidx, lookup_name_snoc, Hother.
    + rewrite decide_False by done. rewrite Hd2. cbn [mbind option_bind]. rewrite Hfind. by rewrite (bool_decide_eq_true_2 (d2 = d2)), (bool_decide_eq_true_2 (nn = nn)).
    + intros [k E]. apply (f_equal length) in E. rewrite !length_app in E. cbn in E. lia.
  - rewrite !app_assoc, !(lookup_name_snoc _ _ (_ ++ r)), IH. destruct (lookup s ROOT_IDX ((pd ++ [nm]) ++ r)) as [x|] eqn:Ex; [|done]. cbn [mbind option_bind]. rewrite Hfind.
    rewrite (bool_decide_eq_false_2 (x = d2)); [|intros ->; apply Hout; rewrite (lookup_unique s qd _ d2 W Hd2 Ex); by apply prefix_app_r].
    rewrite (bool_decide_eq_false_2 (x = d)); [done|]. intros ->. pose proof (lookup_unique s _ _ d W Hd Ex) as E. apply (f_equal length) in E. rewrite !length_app in E. cbn in E. lia.
Qed.
End changes.

(** ** What the operations on entries and lists do *)

Lemma set_file_lens s i f : len (fs_files (set_file s i f)) = len (fs_files s) /\
  fs_offsets (set_file s i f) = fs_offsets s /\ fs_flags (set_file s i f) = fs_flags s.
Proof. cbn. by rewrite len_seti. Qed.

(** An entry that is in no list. *)
Definition unlisted (s : memfs) (i : Z) : Prop := forall d, 0 <= d < MAX_FILES -> ~ In i (f_children (file s d)).

Lemma free_unlisted s i : wf s -> f_exists (file s i) = false -> unlisted s i /\ i <> ROOT_IDX.
Proof.
  intros W Hi. split; [|intros ->; by rewrite (proj1 (wf_root s W)) in Hi].
  intros d Hd Hin. destruct (wf_child s W d i Hd Hin) as (_ & _ & _ & He & _). congruence.
Qed.

(** An entry that is in no list may change, as long as it keeps its children or loses them. *)
Lemma set_unlisted s i f : wf s -> 0 <= i < MAX_FILES -> i <> ROOT_IDX -> unlisted s i ->
  f_children f = [] \/ f_children f = f_children (file s i) /\ f_exists f = f_exists (file s i) /\ f_dir f = f_dir (file s i) ->
  wf (set_file s i f) /\ (forall d n, d <> i -> memfs_find_child (set_file s i f) d n = memfs_find_child s d n) /\
  (forall d, 0 <= d < MAX_FILES -> d <> i -> f_children (file (set_file s i f) d) = f_children (file s d)).
Proof.
  intros W Hi Hr Hu Hf. assert (Hfile : forall j, 0 <= j -> file (set_file s i f) j = if decide (i = j) then f else file s j) by (intros; by apply file_set).
  assert (Hch : forall d c, 0 <= d < MAX_FILES -> In c (f_children (file (set_file s i f) d)) -> In c (f_children (file s d)) /\ c <> i /\
    f_exists (file (set_file s i f) d) = f_exists (file s d) /\ f_dir (file (set_file s i f) d) = f_dir (file s d)).
  { intros d c Hd. rewrite Hfile by lia. destruct (decide (i = d)) as [<-|]; [destruct Hf as [->|(-> & -> & ->)]; [done|]|];
      (intros Hin; split; [done|]; split; [|done]; intros ->; by apply (Hu _ Hd)). }
  assert (Hc : forall d c, 0 <= d < MAX_FILES -> In c (f_children (file s d)) -> 0 <= c /\ file (set_file s i f) c = file s c).
  { intros d c Hd Hin. destruct (wf_child s W d c Hd Hin) as (_ & _ & Hcr & _). split; [lia|]. rewrite Hfile by lia. rewrite decide_False; [done|].
    intros ->. by apply (Hu d Hd). }
  split; [constructor|split].
  - destruct (set_file_lens s i f) as (-> & -> & ->). apply W.
  - rewrite Hfile by (unfold ROOT_IDX; lia). rewrite decide_False by done. apply W.
  - intros d c Hd Hin. destruct (Hch d c Hd Hin) as (Hin' & Hci & -> & ->). rewrite (proj2 (Hc d c Hd Hin')). by apply W.
  - intros d Hd. rewrite Hfile by lia. case_decide as E; [subst d|by apply W]. destruct Hf as [->|(-> & _)]; [constructor|by apply W].
  - intros d c c' Hd Hin Hin'. destruct (Hch d c Hd Hin) as (H1 & _). destruct (Hch d c' Hd Hin') as (H2 & _).
    rewrite (proj2 (Hc d c Hd H1)), (proj2 (Hc d c' Hd H2)). by apply (wf_names s W d).
  - intros d n Hd. unfold memfs_find_child. destruct (in_range d) eqn:Er; [|done]. apply in_range_ok in Er. rewrite (Hfile d) by lia.
    rewrite decide_False by done. destruct (negb true || negb (f_exists (file s d))); [done|]. 
    assert (Hx : forall l, (forall c, In c l -> In c (f_children (file s d))) -> forall p q : Z -> bool, (forall c, In c (f_children (file s d)) -> p c = q c) -> find p l = find q l).
    { induction l as [|c l IH]; intros Hl p q Hpq; [done|]. cbn [find]. rewrite (Hpq c) by (apply Hl; by left). destruct (q c); [done|]. apply IH; [|done]. intros; apply Hl; by right. }
    apply Hx; [done|]. intros c Hin. by rewrite (proj2 (Hc d c Er Hin)).
  - intros d Hd Hne. rewrite Hfile by lia. by rewrite decide_False.
Qed.

Lemma take_out_in c l x : List.NoDup l -> In x (take_out c l) <-> In x l /\ x <> c.
Proof.
  induction 1 as [|y l Hy Hn IH]; [cbn; tauto|]. cbn [take_out]. destruct (Z.eqb_spec y c) as [->|Hyc]; cbn [In].
  - split; [intros Hx; split; [by right|by intros ->]|intros [[->|Hx] Hne]; done].
  - rewrite IH. split; [intros [->|[? ?]]; split; tauto|intros [[->|?] ?]; tauto].
Qed.

Lemma take_out_nodup c l : List.NoDup l -> List.NoDup (take_out c l).
Proof.
  induction 1 as [|y l Hy Hn IH]; [constructor|]. cbn [take_out]. destruct (y =? c); [done|]. constructor; [|done]. rewrite take_out_in by done. tauto.
Qed.

(** Changing the list of one directory. *)
Lemma relist s d l : wf s -> 0 <= d < MAX_FILES -> f_dir (file s d) = true -> f_exists (file s d) = true -> List.NoDup l ->
  (forall c, In c l -> In c (f_children (file s d)) \/ 0 <= c < MAX_FILES /\ f_exists (file s c) = true /\ f_parent (file s c) = d /\ good_name (f_name (file s c))) ->
  (forall c c', In c l -> In c' l -> f_name (file s c) = f_name (file s c') -> c = c') ->
  let s' := set_file s d (with_children (file s d) l) in
  wf s' /\ (forall x n, x <> d -> memfs_find_child s' x n = memfs_find_child s x n) /\
  (forall n c, memfs_find_child s' d n = Some c <-> In c l /\ f_name (file s c) = n) /\
  (forall x, 0 <= x -> file s' x = if decide (d = x) then with_children (file s d) l else file s x).
Proof.
  intros W Hd Hdir Hex Hnd Hl Hnames s'.
  assert (Hfile : forall j, 0 <= j -> file s' j = if decide (d = j) then with_children (file s d) l else file s j) by (intros; by apply file_set).
  assert (Hsame : forall j, 0 <= j -> f_exists (file s' j) = f_exists (file s j) /\ f_dir (file s' j) = f_dir (file s j) /\ f_parent (file s' j) = f_parent (file s j) /\ f_name (file s' j) = f_name (file s j)).
  { intros j Hj. rewrite Hfile by done. case_decide; [subst; done|done]. }
  assert (Hlok : forall c, In c l -> 0 <= c < MAX_FILES /\ f_exists (file s c) = true /\ f_parent (file s c) = d /\ good_name (f_name (file s c))).
  { intros c Hin. destruct (Hl c Hin) as [Hin'|?]; [|done]. destruct (wf_child s W d c Hd Hin') as (_ & _ & ?). done. }
  assert (W' : wf s').
  { constructor.
    - destruct (set_file_lens s d (with_children (file s d) l)) as (E1 & E2 & E3). unfold s'. rewrite E1, E2, E3. apply W.
    - destruct (Hsame ROOT_IDX ltac:(unfold ROOT_IDX; lia)) as (-> & -> & -> & _). apply W.
    - intros x c Hx. destruct (Hsame x ltac:(lia)) as (-> & -> & _ & _). rewrite (Hfile x) by lia. case_decide as E.
      + subst x. cbn [f_children with_children]. intros Hin. destruct (Hlok c Hin) as (Hc & He & Hp & Hn). destruct (Hsame c ltac:(lia)) as (-> & _ & -> & ->). done.
      + intros Hin. destruct (wf_child s W x c Hx Hin) as (H1 & H2 & Hc & H3 & H4 & H5). destruct (Hsame c ltac:(lia)) as (-> & _ & -> & ->). done.
    - intros x Hx. rewrite (Hfile x) by lia. case_decide; [done|by apply W].
    - intros x c c' Hx. rewrite (Hfile x) by lia. case_decide as E.
      + subst x. cbn [f_children with_children]. intros H1 H2. destruct (Hlok c H1) as [Hc _]. destruct (Hlok c' H2) as [Hc' _].
        destruct (Hsame c ltac:(lia)) as (_ & _ & _ & ->). destruct (Hsame c' ltac:(lia)) as (_ & _ & _ & ->). by apply Hnames.
      + intros H1 H2. destruct (wf_child s W x c Hx H1) as (_ & _ & Hc & _). destruct (wf_child s W x c' Hx H2) as (_ & _ & Hc' & _).
        destruct (Hsame c ltac:(lia)) as (_ & _ & _ & ->). destruct (Hsame c' ltac:(lia)) as (_ & _ & _ & ->). by apply (wf_names s W x). }
  assert (Hfc : forall x n c, 0 <= x < MAX_FILES -> memfs_find_child s' x n = Some c <-> In c (if decide (d = x) then l else f_children (file s x)) /\ f_name (file s c) = n).
  { intros x n c Hx. rewrite find_child_iff by done. rewrite (Hfile x) by lia.
    assert (Hn : forall c, In c (if decide (d = x) then l else f_children (file s x)) -> f_name (file s' c) = f_name (file s c)).
    { intros y Hy. apply Hsame. destruct (decide (d = x)); [destruct (Hlok y Hy); lia|]. destruct (wf_child s W x y Hx Hy) as (_ & _ & ? & _). lia. }
    destruct (decide (d = x)) as [<-|]; cbn [f_children with_children]; (split; intros [Hin <-]; split; [done|by rewrite Hn|done|by rewrite Hn]). }
  split; [done|]. split; [|split; [|done]].
  - intros x n Hne. destruct (in_range x) eqn:Er; [|unfold memfs_find_child; by rewrite Er]. apply in_range_ok in Er.
    apply option_eq. intros c. rewrite Hfc, find_child_iff by done. by rewrite decide_False by (by intros ->).
  - intros n c. rewrite Hfc by done. by rewrite decide_True.
Qed.

(** The root is in no list, so no list is full. *)
Lemma children_room s d : wf s -> 0 <= d < MAX_FILES -> len (f_children (file s d)) < MAX_CHILDREN.
Proof.
  intros W Hd. assert (Hi : incl (f_children (file s d)) (seqZ 1 63)).
  { intros c Hin. destruct (wf_child s W d c Hd Hin) as (_ & _ & Hc & _ & Hp & _). apply list_elem_of_In, elem_of_seqZ.
    destruct (decide (c = ROOT_IDX)) as [->|]; [rewrite (proj2 (proj2 (wf_root s W))) in Hp; lia|]. unfold ROOT_IDX, MAX_FILES in *. lia. }
  pose proof (NoDup_incl_length (wf_nodup s W d Hd) Hi) as L. rewrite length_seqZ in L. unfold len, MAX_CHILDREN. lia.
Qed.

Lemma detached s d c : wf s -> 0 <= d < MAX_FILES -> In c (f_children (file s d)) ->
  let s' := memfs_remove_child s d c in
  wf s' /\ unlisted s' c /\
  (forall x n, memfs_find_child s' x n = if bool_decide (x = d) && bool_decide (n = f_name (file s c)) then None else memfs_find_child s x n) /\
  (forall x, 0 <= x -> file s' x = if decide (d = x) then with_children (file s d) (take_out c (f_children (file s d))) else file s x).
Proof.
  intros W Hd Hin. destruct (wf_child s W d c Hd Hin) as (He & Hdir & Hc & Hce & Hp & Hn). unfold memfs_remove_child. rewrite (proj2 (in_range_ok d) Hd), Hdir. cbn [negb orb].
  pose proof (wf_nodup s W d Hd) as Hnd. pose proof (fun x => take_out_in c _ x Hnd) as Ht.
  destruct (relist s d (take_out c (f_children (file s d))) W Hd Hdir He (take_out_nodup c _ Hnd)) as (W' & F1 & F2 & Hf).
  { intros x [? _]%Ht. by left. } { intros x y [? _]%Ht [? _]%Ht. by apply (wf_names s W d). }
  cbv zeta. split; [done|]. split; [|split; [|done]].
  - intros x Hx. rewrite Hf by lia. destruct (decide (d = x)) as [<-|Hne]; cbn [f_children with_children]; [rewrite Ht; tauto|].
    intros Hin'. destruct (wf_child s W x c Hx Hin') as (_ & _ & _ & _ & Hp' & _). congruence.
  - intros x n. destruct (bool_decide (x = d)) eqn:Bx; [apply bool_decide_eq_true_1 in Bx as ->|apply bool_decide_eq_false_1 in Bx; by apply F1]. cbn [andb].
    apply option_eq. intros y. rewrite F2, Ht. case_bool_decide as Bn; [subst n|rewrite find_child_iff by done].
    + split; [|done]. intros [[Hy Hne] Hyn]. exfalso. apply Hne. by apply (wf_names s W d).
    + split; [tauto|]. intros [Hy Hyn]. split; [|done]. split; [done|]. intros ->. by apply Bn.
Qed.

Lemma attached s d c : wf s -> 0 <= d < MAX_FILES -> f_exists (file s d) = true -> f_dir (file s d) = true ->
  0 <= c < MAX_FILES -> unlisted s c -> f_exists (file s c) = true -> f_parent (file s c) = d -> good_name (f_name (file s c)) ->
  memfs_find_child s d (f_name (file s c)) = None ->
  exists s', memfs_add_child s d c = (s', 0) /\ wf s' /\
  (forall x n, memfs_find_child s' x n = if bool_decide (x = d) && bool_decide (n = f_name (file s c)) then Some c else memfs_find_child s x n) /\
  (forall x, 0 <= x -> file s' x = if decide (d = x) then with_children (file s d) (f_children (file s d) ++ [c]) else file s x) /\
  fs_offsets s' = fs_offsets s /\ fs_flags s' = fs_flags s /\ fs_num_files s' = fs_num_files s.
Proof.
  intros W Hd Hde Hdir Hc Hu Hce Hp Hn Hnone. unfold memfs_add_child. rewrite (proj2 (in_range_ok d) Hd), Hdir. cbn [negb orb].
  pose proof (children_room s d W Hd). rewrite (proj2 (Z.leb_gt _ _)) by lia.
  assert (Hex : existsb (Z.eqb c) (f_children (file s d)) = false).
  { apply not_true_iff_false. intros (x & Hx & E%Z.eqb_eq)%existsb_exists. subst x. by apply (Hu d). }
  rewrite Hex. assert (Hname : forall x, In x (f_children (file s d)) -> f_name (file s x) <> f_name (file s c)).
  { intros x Hx E. pose proof (find_child_in s d x W Hd Hx) as F. rewrite E in F. congruence. }
  destruct (relist s d (f_children (file s d) ++ [c]) W Hd Hdir Hde) as (W' & F1 & F2 & Hf).
  - apply NoDup_app; [by apply W|repeat constructor; intros []|]. intros x Hx [<-|[]]. by apply (Hu d).
  - intros x [Hx|[<-|[]]]%in_app_iff; [by left|by right].
  - intros x y [Hx|[<-|[]]]%in_app_iff [Hy|[<-|[]]]%in_app_iff E; try done; [by apply (wf_names s W d)|by apply Hname in Hx|symmetry in E; by apply Hname in Hy].
  - eexists. split; [done|]. split; [done|]. split; [|split; [done|done]]. intros x n.
    destruct (bool_decide (x = d)) eqn:Bx; [apply bool_decide_eq_true_1 in Bx as ->|apply bool_decide_eq_false_1 in Bx; by apply F1]. cbn [andb].
    apply option_eq. intros y. rewrite F2, in_app_iff. case_bool_decide as Bn; [subst n|rewrite find_child_iff by done].
    + split; [intros [[Hy|[<-|[]]] E]; [by apply Hname in Hy|done]|intros [= <-]]. split; [right; by left|done].
    + split; [intros [[Hy|[<-|[]]] E]; [done|by symmetry in E]|tauto].
Qed.

(** ** Paths of names, outside of a changed root *)

Definition free_root (cur : option cred) : Prop := match cur with None => True | Some p => c_root p = [] \/ c_root p = [SLASH] end.

Lemma resolve_free cur s p : free_root cur -> memfs_resolve_path cur s p = memfs_resolve_path_raw s p.
Proof.
  intros H. destruct p as [|c p]; [done|]. cbn [memfs_resolve_path]. destruct (c =? SLASH) eqn:E; cbn [negb]; [|cbn [memfs_resolve_path_raw]; by rewrite E].
  destruct cur as [q|]; [|done]. destruct H as [H|H]; rewrite H; done.
Qed.

Lemma resolve_render cur s ns : free_root cur -> Forall good_name ns -> memfs_resolve_path cur s (render ns) = lookup s ROOT_IDX ns.
Proof. intros Hc Hn. by rewrite resolve_free, resolve_raw_render. Qed.

Lemma last_slash_app a b i l : Forall (fun c => c <> SLASH) b -> last_slash (a ++ SLASH :: b) i l = i + len a.
Proof.
  intros Hb. revert i l. induction a as [|c a IH]; intros i l; cbn [app last_slash].
  - rewrite Z.eqb_refl. change (len []) with 0. generalize i at 2 3. revert i. induction Hb as [|x b Hx Hb IH]; intros i j; cbn [last_slash]; [lia|].
    rewrite (proj2 (Z.eqb_neq x SLASH) Hx). apply IH.
  - rewrite IH, len_cons. lia.
Qed.

Lemma render_snoc ns n : render (ns ++ [n]) = concat ((fun n => SLASH :: n) <$> ns) ++ SLASH :: n.
Proof.
  assert (E : render (ns ++ [n]) = concat ((fun n => SLASH :: n) <$> (ns ++ [n]))) by (by destruct ns).
  rewrite E, fmap_app, concat_app. cbn [fmap list_fmap concat]. by rewrite app_nil_r.
Qed.

Lemma split_render cur s ns n : free_root cur -> Forall good_name ns -> good_name n -> len (render (ns ++ [n])) <= MAX_PATH_LEN ->
  memfs_split_path cur s (render (ns ++ [n])) = d ← lookup s ROOT_IDX ns; Some (d, n).
Proof.
  intros Hc Hns Hn Hlen. rewrite render_snoc in Hlen |- *. set (C := concat ((fun n => SLASH :: n) <$> ns)) in *.
  assert (Hpos : 1 <= len n) by (pose proof (gn_some n Hn); destruct n; [done|]; rewrite len_cons; pose proof (len_nonneg n); lia).
  rewrite len_app, len_cons in Hlen. unfold MAX_PATH_LEN in *. pose proof (len_nonneg C). pose proof (gn_len n Hn).
  assert (Hhd : exists q, C ++ SLASH :: n = SLASH :: q /\ q <> []).
  { unfold C. destruct ns as [|m ns]; [exists n; split; [done|apply Hn]|]. cbn [fmap list_fmap concat app]. eexists. split; [done|]. intros E. apply (f_equal length) in E. rewrite !length_app in E. cbn in E. lia. }
  destruct Hhd as (q & Eq & Hq). unfold memfs_split_path. rewrite Eq. change (negb (SLASH =? SLASH)) with false. rewrite (bool_decide_eq_false_2 _ Hq). cbn [orb].
  rewrite <- Eq, last_slash_app by apply Hn. rewrite Z.add_0_l.
  assert (Eb : drop (Z.to_nat (len C + 1)) (C ++ SLASH :: n) = n).
  { rewrite drop_app, drop_ge by (unfold len; lia). cbn [app]. replace (Z.to_nat (len C + 1) - length C)%nat with 1%nat by (unfold len; lia). done. }
  cbv zeta. rewrite Eb, (proj2 (Z.leb_gt _ _)) by lia. rewrite (take_ge n) by (unfold len in *; lia).
  destruct ns as [|m ns].
  { change (len C) with 0. cbn [Z.eqb]. done. }
  assert (HC : 2 <= len C).
  { unfold C. cbn [fmap list_fmap concat]. rewrite len_app, len_cons. inversion Hns as [|? ? Hm _]; subst. pose proof (gn_some m Hm). destruct m; [done|].
    rewrite len_cons. pose proof (len_nonneg m). pose proof (len_nonneg (concat ((fun n => SLASH :: n) <$> ns))). lia. }
  rewrite (proj2 (Z.eqb_neq (len C) 0)) by lia. rewrite (proj2 (Z.leb_gt MAX_PATH_LEN (len C))) by (unfold MAX_PATH_LEN; lia).
  assert (Et : take (Z.to_nat (len C)) (C ++ SLASH :: n) = C) by (apply take_app_length'; unfold len; lia). rewrite Et.
  rewrite bool_decide_eq_false_2 by (intros E; rewrite E in HC; change (len [SLASH]) with 1 in HC; lia).
  assert (Er : C = render (m :: ns)) by done. rewrite Er. rewrite resolve_render by done. done.
Qed.

(** ** Whole operations on the tree *)

(** States that differ in contents, owners, positions and flags only. *)
Record same_tree (s s' : memfs) : Prop := {
  st_len : len (fs_files s') = len (fs_files s) /\ len (fs_offsets s') = len (fs_offsets s) /\ len (fs_flags s') = len (fs_flags s);
  st_file i : 0 <= i < MAX_FILES -> f_name (file s' i) = f_name (file s i) /\ f_exists (file s' i) = f_exists (file s i) /\
    f_dir (file s' i) = f_dir (file s i) /\ f_parent (file s' i) = f_parent (file s i) /\ f_children (file s' i) = f_children (file s i);
}.

Lemma same_tree_ok s s' : same_tree s s' -> wf s -> wf s' /\ forall ns, lookup s' ROOT_IDX ns = lookup s ROOT_IDX ns.
Proof.
  intros [(L1 & L2 & L3) F] W. assert (W' : wf s').
  { constructor.
    - rewrite L1, L2, L3. apply W.
    - destruct (F ROOT_IDX) as (_ & -> & -> & -> & _); [by split|]. apply W.
    - intros d c Hd. destruct (F d Hd) as (_ & -> & -> & _ & ->). intros Hin. destruct (wf_child s W d c Hd Hin) as (H1 & H2 & Hc & H3).
      destruct (F c Hc) as (-> & -> & _ & -> & _). done.
    - intros d Hd. destruct (F d Hd) as (_ & _ & _ & _ & ->). by apply W.
    - intros d c c' Hd. destruct (F d Hd) as (_ & _ & _ & _ & ->). intros H1 H2. destruct (wf_child s W d c Hd H1) as (_ & _ & Hc & _).
      destruct (wf_child s W d c' Hd H2) as (_ & _ & Hc' & _). destruct (F c Hc) as (-> & _). destruct (F c' Hc') as (-> & _). by apply (wf_names s W d). }
  split; [done|]. assert (Hf : forall d n, memfs_find_child s' d n = memfs_find_child s d n).
  { intros d n. destruct (in_range d) eqn:Er; [|unfold memfs_find_child; by rewrite Er]. apply in_range_ok in Er. apply option_eq. intros c.
    rewrite !find_child_iff by done. destruct (F d Er) as (_ & _ & _ & _ & ->).
    split; intros [Hin <-]; (split; [done|]); destruct (wf_child s W d c Er Hin) as (_ & _ & Hc & _); destruct (F c Hc) as (-> & _); done. }
  intros ns. generalize ROOT_IDX. induction ns as [|n ns IH]; intros d; [done|]. cbn [lookup]. rewrite Hf. by destruct (memfs_find_child s d n); [apply IH|].
Qed.

Lemma same_tree_refl s : same_tree s s.
Proof. by constructor. Qed.

Lemma same_tree_trans s1 s2 s3 : same_tree s1 s2 -> same_tree s2 s3 -> same_tree s1 s3.
Proof.
  intros [L1 F1] [L2 F2]. constructor; [by destruct L1 as (-> & -> & ->) in L2 |- *; destruct L2 as (-> & -> & ->)|].
  intros i Hi. destruct (F1 i Hi) as (<- & <- & <- & <- & <-). by apply F2.
Qed.

Lemma lookup_name s pd n i : wf s -> lookup s ROOT_IDX (pd ++ [n]) = Some i ->
  exists d, lookup s ROOT_IDX pd = Some d /\ 0 <= d < MAX_FILES /\ In i (f_children (file s d)) /\ f_name (file s i) = n /\
    f_parent (file s i) = d /\ 0 <= i < MAX_FILES /\ i <> ROOT_IDX /\ d <> i.
Proof.
  intros W E. pose proof E as E0. rewrite lookup_name_snoc in E. destruct (lookup s ROOT_IDX pd) as [d|] eqn:Ed; [|done]. cbn [mbind option_bind] in E.
  destruct (find_child_some s d n i W E) as (Hd & Hin & Hn). destruct (wf_child s W d i Hd Hin) as (_ & _ & Hi & _ & Hp & _).
  exists d. do 5 (split; [done|]). split; [done|]. split.
  - intros ->. rewrite (proj2 (proj2 (wf_root s W))) in Hp. lia.
  - intros ->. pose proof (lookup_unique s _ _ i W Ed E0) as Eq. apply (f_equal length) in Eq. rewrite length_app in Eq. cbn in Eq. lia.
Qed.

(** Where nothing changed that can be reached, nothing changed. *)
Lemma lookup_ext s s' : (forall p x n, lookup s ROOT_IDX p = Some x -> memfs_find_child s' x n = memfs_find_child s x n) ->
  forall p, lookup s' ROOT_IDX p = lookup s ROOT_IDX p.
Proof.
  intros Hf p. induction p as [|n p IH] using rev_ind; [done|]. rewrite !lookup_name_snoc, IH. destruct (lookup s ROOT_IDX p) as [x|] eqn:E; [|done]. by apply (Hf p).
Qed.

Lemma set_num_tree s n : same_tree s (set_num s n).
Proof. by constructor. Qed.

(** The files are those of [s], but for their children. *)
Definition same_files (s s' : memfs) (P : Z -> Prop) : Prop := forall j, 0 <= j -> P j -> exists l, file s' j = with_children (file s j) l.

Lemma with_place_same f : f = with_place f (f_name f) (f_parent f).
Proof. by destruct f. Qed.

Lemma with_children_same f : with_children f (f_children f) = f.
Proof. by destruct f. Qed.

Lemma drop_entry_ok s pd n i : wf s -> lookup s ROOT_IDX (pd ++ [n]) = Some i ->
  let s' := drop_entry s i in
  wf s' /\ (forall p, lookup s' ROOT_IDX p = if decide (pd ++ [n] `prefix_of` p) then None else lookup s ROOT_IDX p) /\
  same_files s s' (fun j => j <> i).
Proof.
  intros W E. destruct (lookup_name s pd n i W E) as (d & Ed & Hd & Hin & Hn & Hp & Hi & Hr & Hdi).
  unfold drop_entry. rewrite Hp, (proj2 (in_range_ok d) Hd). destruct (detached s d i W Hd Hin) as (W1 & U1 & F1 & G1). set (s1 := memfs_remove_child s d i) in *.
  destruct (set_unlisted s1 i (dropped (file s1 i)) W1 Hi Hr U1) as (W2 & F2 & _); [by left|].
  destruct (same_tree_ok _ _ (set_num_tree (set_file s1 i (dropped (file s1 i))) (fs_num_files s1 - 1)) W2) as (W3 & L3).
  cbv zeta. split; [done|]. split.
  - intros p. rewrite L3. rewrite <- Hn. apply (lookup_removed s _ W pd d (f_name (file s i)) Ed i); [by rewrite Hn|].
    intros x m Hx. rewrite F2 by done. apply F1.
  - intros j Hj Hne. change (file (set_num ?a ?b) j) with (file a j). rewrite (file_set s1 i j _ W1 Hi Hj), decide_False by done. rewrite G1 by done.
    case_decide as Ej; [subst j; by eexists|]. exists (f_children (file s j)). by rewrite with_children_same.
Qed.

(** A new entry in its slot, before it is in a list. *)
Lemma fill_slot_ok s slot f s1 : wf s -> 0 <= slot < MAX_FILES -> f_exists (file s slot) = false -> f_children f = [] ->
  fs_files s1 = fs_files (set_file s slot f) -> len (fs_offsets s1) = MAX_FILES -> len (fs_flags s1) = MAX_FILES ->
  wf s1 /\ unlisted s1 slot /\ (forall x n, x <> slot -> memfs_find_child s1 x n = memfs_find_child s x n) /\
  (forall n, memfs_find_child s1 slot n = None) /\ (forall j, 0 <= j -> file s1 j = if decide (slot = j) then f else file s j).
Proof.
  intros W Hs He Hc Ef E1 E2. destruct (free_unlisted s slot W He) as [Hu Hr].
  destruct (set_unlisted s slot f W Hs Hr Hu) as (W1 & F1 & C1); [by left|].
  assert (Hst : same_tree (set_file s slot f) s1).
  { constructor; [rewrite Ef, E1, E2; split; [done|]; split; symmetry; apply W|]. intros i Hi. unfold file. by rewrite Ef. }
  destruct (same_tree_ok _ _ Hst W1) as (W2 & _).
  assert (Hf : forall j, 0 <= j -> file s1 j = if decide (slot = j) then f else file s j).
  { intros j Hj. unfold file at 1. rewrite Ef. by apply (file_set s slot j f W). }
  assert (Hfind : forall x n, memfs_find_child s1 x n = memfs_find_child (set_file s slot f) x n).
  { intros x n. unfold memfs_find_child, file. by rewrite Ef. }
  split; [done|]. split; [|split; [|split; [|done]]].
  - intros d Hd. rewrite Hf by lia. case_decide; [rewrite Hc; by intros []|by apply Hu].
  - intros x n Hx. rewrite Hfind. by apply F1.
  - intros n. apply find_child_none; [done|]. rewrite Hf by lia. by rewrite decide_True.
Qed.

(** The entry in the list of its parent, if that is a directory. *)
Lemma created_ok s pd n d slot f s1 : wf s -> lookup s ROOT_IDX pd = Some d -> lookup s ROOT_IDX (pd ++ [n]) = None -> good_name n ->
  0 <= slot < MAX_FILES -> f_exists (file s slot) = false -> f_children f = [] -> f_exists f = true -> f_parent f = d -> f_name f = n ->
  fs_files s1 = fs_files (set_file s slot f) -> len (fs_offsets s1) = MAX_FILES -> len (fs_flags s1) = MAX_FILES ->
  let s' := fst (memfs_add_child s1 d slot) in
  wf s' /\ same_files s s' (fun j => j <> slot) /\
  if f_dir (file s d)
  then file s' slot = f /\ forall p, lookup s' ROOT_IDX p = if decide (p = pd ++ [n]) then Some slot else lookup s ROOT_IDX p
  else forall p, lookup s' ROOT_IDX p = lookup s ROOT_IDX p.
Proof.
  intros W Ed Enone Hn Hs He Hc Hex Hp Hnm Ef E1 E2. destruct (fill_slot_ok s slot f s1 W Hs He Hc Ef E1 E2) as (W1 & U1 & F1 & N1 & G1).
  destruct (lookup_found s pd d W Ed) as [Hd Hde]. assert (Hds : d <> slot) by (intros ->; congruence).
  assert (Gd : file s1 d = file s d) by (rewrite G1 by lia; by rewrite decide_False).
  assert (Gs : file s1 slot = f) by (rewrite G1 by lia; by rewrite decide_True).
  assert (Hold : same_files s s1 (fun j => j <> slot)).
  { intros j Hj Hne. exists (f_children (file s j)). rewrite G1, decide_False by done. by rewrite with_children_same. }
  destruct (f_dir (file s d)) eqn:Edir.
  - assert (Hfn : memfs_find_child s d n = None) by (by rewrite lookup_name_snoc, Ed in Enone).
    destruct (attached s1 d slot W1 Hd) as (s' & -> & W2 & F2 & G2 & _); rewrite ?Gd, ?Gs; try done; [by rewrite Hnm|by rewrite Hnm, F1|].
    cbn [fst]. split; [done|]. split.
    + intros j Hj Hne. rewrite G2 by done. case_decide as Ej; [subst j; rewrite Gd; by eexists|by apply Hold].
    + split; [rewrite G2 by lia; by rewrite decide_False|]. apply (lookup_added s s' W pd d n Ed slot Enone); [intros p E; destruct (lookup_found s p slot W E); congruence| |].
      * intros m. rewrite F2, bool_decide_eq_false_2 by done. apply N1.
      * intros x m Hx. rewrite F2, Gs, Hnm. by rewrite F1.
  - assert (Ea : memfs_add_child s1 d slot = (s1, -1)) by (unfold memfs_add_child; by rewrite Gd, Edir, orb_true_r). rewrite Ea. cbn [fst].
    split; [done|]. split; [done|]. apply lookup_ext. intros p x m Hx. apply F1. intros ->. destruct (lookup_found s p slot W Hx). congruence.
Qed.

(** An entry that is in no list, renamed. *)
Lemma placed_ok s i n p : wf s -> 0 <= i < MAX_FILES -> i <> ROOT_IDX -> unlisted s i ->
  let s' := set_file s i (with_place (file s i) n p) in
  wf s' /\ unlisted s' i /\ (forall x m, memfs_find_child s' x m = memfs_find_child s x m) /\
  (forall j, 0 <= j -> file s' j = if decide (i = j) then with_place (file s i) n p else file s j).
Proof.
  intros W Hi Hr Hu s'. destruct (set_unlisted s i (with_place (file s i) n p) W Hi Hr Hu) as (W' & F & C); [by right|]. fold s' in W', F, C.
  assert (G : forall j, 0 <= j -> file s' j = if decide (i = j) then with_place (file s i) n p else file s j) by (intros; by apply file_set).
  assert (Hc : forall d, 0 <= d < MAX_FILES -> f_children (file s' d) = f_children (file s d)).
  { intros d Hd. rewrite G by lia. by case_decide; subst. }
  split; [done|]. split; [intros d Hd; rewrite Hc by done; by apply Hu|]. split; [|done].
  intros x m. destruct (decide (x = i)) as [->|]; [|by apply F]. apply option_eq. intros c. rewrite !find_child_iff, Hc by done.
  split; intros [Hin <-]; (split; [done|]); destruct (wf_child s W i c Hi Hin) as (_ & _ & Hcr & _); rewrite G by lia; (rewrite decide_False; [done|]);
    intros ->; by apply (Hu c Hi).
Qed.

(** Where a tree goes that is moved from [po] to [pn]: below itself it is lost. *)
Definition moved {A : Type} (t : list (list Z) -> option A) (po qd : list (list Z)) (nn : list Z) (p : list (list Z)) : option A :=
  if decide (po `prefix_of` qd) then if decide (po `prefix_of` p) then None else t p
  else if decide (qd ++ [nn] `prefix_of` p) then t (po ++ drop (length (qd ++ [nn])) p)
  else if decide (po `prefix_of` p) then None else t p.

Lemma reparent_ok s pd nm idx qd d2 nn rep : wf s -> lookup s ROOT_IDX (pd ++ [nm]) = Some idx ->
  lookup s ROOT_IDX qd = Some d2 -> f_dir (file s d2) = true -> lookup s ROOT_IDX (qd ++ [nn]) = None -> good_name nn ->
  exists s', reparent s idx d2 nn rep = (s', 0) /\ wf s' /\
    (forall p, lookup s' ROOT_IDX p = moved (lookup s ROOT_IDX) (pd ++ [nm]) qd nn p) /\
    forall j, 0 <= j -> exists l n p, file s' j = with_place (with_children (file s j) l) n p.
Proof.
  intros W Eidx Eq Hdir Enone Hn. destruct (lookup_name s pd nm idx W Eidx) as (d & Ed & Hd & Hin & Hnm & Hp & Hi & Hr & Hdi).
  destruct (lookup_found s qd d2 W Eq) as [Hd2 Hd2e]. destruct (lookup_found s _ idx W Eidx) as [_ Hie].
  unfold reparent. rewrite Hp, (proj2 (in_range_ok d) Hd). destruct (detached s d idx W Hd Hin) as (W1 & U1 & F1 & G1). set (s1 := memfs_remove_child s d idx) in *.
  assert (Et : take 63 nn = nn) by (apply take_ge; pose proof (gn_len nn Hn); unfold len in *; lia). rewrite Et.
  destruct (placed_ok s1 idx nn d2 W1 Hi Hr U1) as (W2 & U2 & F2 & G2). set (s2 := set_file s1 idx _) in *.
  assert (Hsame : forall j, 0 <= j -> exists l n p, file s2 j = with_place (with_children (file s j) l) n p).
  { intros j Hj. rewrite G2 by done. case_decide as E; [subst j|]; rewrite G1 by done; (case_decide as E2; [subst|]).
    - congruence.
    - exists (f_children (file s idx)). rewrite with_children_same. by eexists _, _.
    - eexists _, _, _. exact (with_place_same _).
    - exists (f_children (file s j)), (f_name (file s j)), (f_parent (file s j)). by destruct (file s j). }
  assert (Gi : f_exists (file s2 idx) = true /\ f_name (file s2 idx) = nn /\ f_parent (file s2 idx) = d2).
  { rewrite G2 by lia. rewrite decide_True by done. cbn. split; [|done]. rewrite G1 by lia. by rewrite decide_False. }
  assert (Gd : f_exists (file s2 d2) = true /\ f_dir (file s2 d2) = true).
  { destruct (Hsame d2 ltac:(lia)) as (l & n & p & ->). done. }
  destruct Gi as (Gi1 & Gi2 & Gi3), Gd as [Gd1 Gd2].
  assert (Hnf : memfs_find_child s d2 nn = None) by (by rewrite lookup_name_snoc, Eq in Enone).
  destruct (attached s2 d2 idx W2 Hd2 Gd1 Gd2 Hi U2 Gi1 Gi3) as (s' & Ea & W3 & F3 & G3 & _); [by rewrite Gi2| |].
  { rewrite Gi2, F2, F1. by destruct (bool_decide (d2 = d) && bool_decide (nn = _)). }
  rewrite Ea. exists s'. split; [done|]. split; [done|]. split.
  - assert (Hf : forall x n, memfs_find_child s' x n = if bool_decide (x = d2) && bool_decide (n = nn) then Some idx
       else if bool_decide (x = d) && bool_decide (n = nm) then None else memfs_find_child s x n).
    { intros x n. by rewrite F3, Gi2, F2, F1, Hnm. }
    intros p. unfold moved. destruct (decide (pd ++ [nm] `prefix_of` qd)) as [Hin2|Hout].
    + assert (L1 : forall p, lookup s1 ROOT_IDX p = if decide (pd ++ [nm] `prefix_of` p) then None else lookup s ROOT_IDX p).
      { apply (lookup_removed s s1 W pd d nm Ed idx Eidx). intros x n _. by rewrite F1, Hnm. }
      rewrite <- L1. apply lookup_ext. intros p' x n Hx. rewrite F3, F2, bool_decide_eq_false_2; [done|]. intros ->.
      rewrite L1 in Hx. destruct (decide _) as [|Hnp]; [done|]. apply Hnp. by rewrite (lookup_unique s p' qd d2 W Hx Eq).
    + destruct (lookup_moved s s' W pd d nm Ed idx qd d2 nn Eidx Eq Enone Hout Hf) as [H1 H2].
      destruct (decide (qd ++ [nn] `prefix_of` p)) as [[r ->]|]; [|by apply H2]. rewrite H1. by rewrite drop_app_length.
  - intros j Hj. destruct (Hsame j Hj) as (l & n & p & E). rewrite G3 by done. case_decide as E2; [subst j|by eauto].
    exists (f_children (file s2 d2) ++ [idx]), n, p. by rewrite E.
Qed.

(** The same for an entry that no path reaches. *)
Lemma reparent_unreached s idx qd d2 nn rep : wf s -> 0 <= idx < MAX_FILES -> idx <> ROOT_IDX -> f_exists (file s idx) = true -> f_children (file s idx) = [] ->
  0 <= f_parent (file s idx) < MAX_FILES ->
  (forall p, lookup s ROOT_IDX p <> Some idx) -> (forall d, 0 <= d < MAX_FILES -> In idx (f_children (file s d)) -> f_parent (file s idx) = d) ->
  lookup s ROOT_IDX qd = Some d2 -> f_dir (file s d2) = true -> lookup s ROOT_IDX (qd ++ [nn]) = None -> good_name nn ->
  exists s', reparent s idx d2 nn rep = (s', 0) /\ wf s' /\
    (forall p, lookup s' ROOT_IDX p = if decide (p = qd ++ [nn]) then Some idx else lookup s ROOT_IDX p) /\
    forall j, 0 <= j -> exists l n p, file s' j = with_place (with_children (file s j) l) n p.
Proof.
  intros W Hi Hr He Hch Hp Hun Hlist Eq Hdir Enone Hn. destruct (lookup_found s qd d2 W Eq) as [Hd2 Hd2e].
  assert (Hdi : d2 <> idx) by (intros ->; by apply Hun in Eq). set (d := f_parent (file s idx)) in *.
  assert (H1 : let s1 := memfs_remove_child s d idx in wf s1 /\ unlisted s1 idx /\
    (forall p x n, lookup s ROOT_IDX p = Some x -> memfs_find_child s1 x n = memfs_find_child s x n) /\
    (forall j, 0 <= j -> exists l, file s1 j = with_children (file s j) l /\ (j = idx -> l = []))).
  { destruct (in_dec Z.eq_dec idx (f_children (file s d))) as [Hin|Hout].
    - destruct (detached s d idx W Hp Hin) as (W1 & U1 & F1 & G1). split; [done|]. split; [done|]. split.
      + intros p x n Hx. rewrite F1. destruct (bool_decide (x = d)) eqn:Bx; [|done]. apply bool_decide_eq_true_1 in Bx as ->. case_bool_decide as Bn; [|done].
        exfalso. apply (Hun (p ++ [n])). rewrite lookup_name_snoc, Hx, Bn. by apply find_child_in.
      + intros j Hj. rewrite G1 by done. case_decide as Ej; [subst j; eexists; split; [done|]|exists (f_children (file s j)); rewrite with_children_same; split; [done|by intros ->]].
        intros E. rewrite E, Hch in Hin. destruct Hin.
    - assert (U : unlisted s idx) by (intros x Hx Hin; apply Hout; by rewrite <- (Hlist x Hx Hin) in Hin).
      assert (E : forall l, ~ In idx l -> take_out idx l = l).
      { induction l as [|c l IH]; intros Hl; [done|]. cbn [take_out]. destruct (Z.eqb_spec c idx) as [->|]; [destruct Hl; by left|]. rewrite IH; [done|]. intros ?; apply Hl; by right. }
      assert (Es : forall j, 0 <= j -> file (memfs_remove_child s d idx) j = file s j).
      { intros j Hj. unfold memfs_remove_child. destruct (_ || _); [done|]. rewrite file_set by done. case_decide; [subst j|done]. by rewrite E, with_children_same. }
      assert (St : same_tree s (memfs_remove_child s d idx)).
      { constructor; [unfold memfs_remove_child; destruct (_ || _); [done|cbn; by rewrite len_seti]|]. intros j Hj. by rewrite Es by lia. }
      destruct (same_tree_ok _ _ St W) as [W1 _]. split; [done|]. split; [intros x Hx; rewrite Es by lia; by apply U|]. split.
      + intros p x n Hx. destruct (lookup_found s p x W Hx) as [Hxr _]. apply option_eq. intros c. rewrite !find_child_iff, Es by (done || lia).
        split; intros [Hin <-]; (split; [done|]); destruct (wf_child s W x c Hxr Hin) as (_ & _ & Hc & _); by rewrite Es by lia.
      + intros j Hj. exists (f_children (file s j)). rewrite Es, with_children_same by done. split; [done|by intros ->]. }
  cbv zeta in H1. unfold reparent. fold d. rewrite (proj2 (in_range_ok d) Hp). set (s1 := memfs_remove_child s d idx) in *. destruct H1 as (W1 & U1 & F1 & G1).
  assert (Et : take 63 nn = nn) by (apply take_ge; pose proof (gn_len nn Hn); unfold len in *; lia). rewrite Et.
  destruct (placed_ok s1 idx nn d2 W1 Hi Hr U1) as (W2 & U2 & F2 & G2). set (s2 := set_file s1 idx _) in *.
  destruct (G1 idx ltac:(lia)) as (li & Ei & Hli). specialize (Hli eq_refl). destruct (G1 d2 ltac:(lia)) as (ld & Edd & _).
  assert (Gi : file s2 idx = with_place (with_children (file s idx) []) nn d2) by (rewrite G2, Ei, Hli by lia; by rewrite decide_True).
  assert (Gd : file s2 d2 = with_children (file s d2) ld) by (rewrite G2, Edd by lia; by rewrite decide_False).
  assert (Hnf : memfs_find_child s d2 nn = None) by (by rewrite lookup_name_snoc, Eq in Enone).
  destruct (attached s2 d2 idx W2 Hd2) as (s' & Ea & W3 & F3 & G3 & _); rewrite ?Gi, ?Gd; try done; [by rewrite F2, (F1 qd)|].
  rewrite Ea. exists s'. split; [done|]. split; [done|]. split.
  - assert (L1 : forall p, lookup s2 ROOT_IDX p = lookup s ROOT_IDX p) by (apply lookup_ext; intros p x n Hx; rewrite F2; by apply (F1 p)).
    intros p. rewrite <- L1. apply (lookup_added s2 s' W2 qd d2 nn).
    + by rewrite L1.
    + by rewrite L1.
    + intros q. by rewrite L1.
    + intros n. rewrite F3, bool_decide_eq_false_2 by done. apply find_child_none; [done|]. by rewrite Gi.
    + intros x n _. by rewrite F3, Gi.
  - intros j Hj. rewrite G3 by done. case_decide as E; [subst j; rewrite Gd; eexists _, _, _; exact (with_place_same _)|]. rewrite G2 by done.
    destruct (G1 j Hj) as (l & El & _). case_decide as E2; [subst j|]; rewrite El; [by eexists _, _, _|]. eexists _, _, _. exact (with_place_same _).
Qed.

(** ** A changed root *)

(** C37: With a changed root of names every path, whatever dots it has, resolves to an entry
    below that root, and a path of names, while there is room, to the entry with these names
    there.  Splitting does not follow: the parent of a name directly below "/" is the
    true root, so what the process creates there is outside of its root. *)
Theorem chroot_contained s rs uid gid path :
  Forall good_name rs -> rs <> [] -> len rs <= 64 ->
  let cur := Some (mkCred (render rs) uid gid) in
  (forall i, memfs_resolve_path cur s path = Some i -> exists ns, Forall good_name ns /\ lookup s ROOT_IDX (rs ++ ns) = Some i) /\
  (forall ns, Forall good_name ns -> path = render ns -> len (render rs) + len path < MAX_PATH_LEN -> len rs + len ns <= 64 ->
    memfs_resolve_path cur s path = lookup s ROOT_IDX (rs ++ ns)) /\
  (forall n, good_name n -> path = render [n] -> memfs_split_path cur s path = Some (ROOT_IDX, n)).
Proof.
  intros Hrs Hne Hlen cur.
  assert (Hroot : exists c l, render rs = SLASH :: c :: l).
  { destruct rs as [|r rs]; [done|]. inversion Hrs as [|? ? Hr _]; subst. pose proof (gn_some r Hr). destruct r as [|c r]; [done|]. cbn [render fmap list_fmap concat app]. by eexists _, _. }
  destruct Hroot as (c & l & Er).
  assert (Hres : forall p, memfs_resolve_path cur s (SLASH :: p) = eff ← chroot_path (render rs) (SLASH :: p); memfs_resolve_path_raw s eff).
  { intros p. cbn [memfs_resolve_path cur c_root]. change (negb (SLASH =? SLASH)) with false. cbn iota. by rewrite !bool_decide_eq_false_2 by (by rewrite Er). }
  split; [|split].
  - intros i. destruct path as [|x p]; [done|]. destruct (Z.eqb_spec x SLASH) as [->|Hx]; [|cbn [memfs_resolve_path]; by rewrite (proj2 (Z.eqb_neq x SLASH) Hx)].
    rewrite Hres. destruct (Z.ltb_spec (len (render rs) + len (SLASH :: p)) MAX_PATH_LEN) as [Hr|Hr].
    + destruct (chroot_path_ok rs p Hrs Hne Hlen Hr) as (eff & ns & -> & Hns & Hraw & _). cbn [mbind option_bind]. rewrite Hraw. intros E. by exists ns.
    + unfold chroot_path. by rewrite (proj2 (Z.leb_le _ _)).
  - intros ns Hns -> Hr Hl. destruct (render_tokens ns Hns) as (p & Ep & _). rewrite Ep in *. rewrite Hres.
    destruct (chroot_path_ok rs p Hrs Hne Hlen Hr) as (eff & ns' & -> & _ & Hraw & Hex). cbn [mbind option_bind]. rewrite Hraw. by rewrite (Hex ns).
  - intros n Hn ->. change (render [n]) with (SLASH :: n ++ []). rewrite app_nil_r. unfold memfs_split_path. change (negb (SLASH =? SLASH)) with false. cbn [orb].
    rewrite bool_decide_eq_false_2 by apply Hn. pose proof (last_slash_app [] n 0 0 (gn_slash n Hn)) as El. cbn [app] in El. rewrite El.
    change (0 + len []) with 0. cbv zeta. change (Z.to_nat (0 + 1)) with 1%nat. cbn [drop Z.eqb]. pose proof (gn_len n Hn). pose proof (gn_some n Hn).
    assert (Hpos : 0 < len n) by (destruct n as [|x n]; [congruence|rewrite len_cons; pose proof (len_nonneg n); lia]).
    rewrite drop_0, (proj2 (Z.leb_gt (len n) 0)) by lia. rewrite (take_ge n) by (unfold len in *; lia). done.
Qed.

(** ** Examples *)

(** A table with the directories "/jail" and "/jail/etc". *)
Definition demo_dir (name : list Z) (parent : Z) (l : list Z) : mem_file := mkFile name [] 0 true 0x41ED 0 0 true parent l.
Definition JAIL : list Z := [106; 97; 105; 108].
Definition ETC : list Z := [101; 116; 99].
Definition demo_memfs : memfs :=
  mkMemfs (demo_dir [SLASH] (-1) [1] :: demo_dir JAIL 0 [2] :: demo_dir ETC 1 [] :: replicate 61 zero_file) (replicate 64 0) (replicate 64 0) 3.

(** "/../../etc" from the root "/jail" *)
Definition demo_escape : list Z := [47; 46; 46; 47; 46; 46; 47; 101; 116; 99].

Lemma chroot_contained_witness :
  memfs_resolve_path (Some (mkCred (render [JAIL]) 1000 1000)) demo_memfs demo_escape = Some 2 /\
  exists ns, Forall good_name ns /\ lookup demo_memfs ROOT_IDX ([JAIL] ++ ns) = Some 2.
Proof.
  assert (E : memfs_resolve_path (Some (mkCred (render [JAIL]) 1000 1000)) demo_memfs demo_escape = Some 2) by reflexivity.
  split; [exact E|]. assert (Hj : Forall good_name [JAIL]) by (repeat constructor; discriminate).
  exact (proj1 (chroot_contained demo_memfs [JAIL] 1000 1000 demo_escape Hj ltac:(discriminate) ltac:(vm_compute; discriminate)) 2 E).
Defined.
