(* ===== verification/Vfs.v ===== *)
(** * The virtual file system: kernel/fs/vfs.c

    The calls over the table of [Memfs], /tmp ([Tmpfs]) and the table of mounts; /proc,
    /dev and the disk file systems are the operations of the class [Mounted].
    Paths and buffers are not NULL; a read gives the bytes with the result.  A call
    that would touch memory outside the array of a file has no result ([None]).
    [task_current] is the current process, what kmalloc answers is an argument.
    vfs_lookup, vfs_register_fs and initrd_get_fs, which do nothing, and vfs_selftest are
    left out.  What the calls do is in [VfsTree]. *)

From stdpp Require Import list.
From S2P Require Import Prelude Tmpfs Memfs.

(** ** kernel/include/lestra/vfs.h, procfs.h, devfs.h *)

Definition MAX_MOUNTS : Z := 8.
Definition FS_TYPE_MEMFS : Z := 0.
Definition FS_TYPE_EXT2 : Z := 1.
Definition FS_TYPE_FAT32 : Z := 2.
Definition FT_REGULAR : Z := 1.
Definition FT_DIRECTORY : Z := 2.
Definition S_IFMT : Z := 0xF000.
Definition EROFS : Z := 30.
Definition PROCFS_FD_BASE : Z := 300.
Definition PROCFS_MAX_OPEN : Z := 100.
Definition DEVFS_FD_BASE : Z := 400.
Definition DEVFS_MAX_OPEN : Z := 100.

Record stat := mkStat { st_mode : Z; st_uid : Z; st_gid : Z; st_size : Z }.
Record dirent := mkDirent { d_inode : Z; d_type : Z; d_name : list Z }.

(** ** The other file systems *)

Class Mounted (D : Type) := {
  procfs_open : D -> list Z -> D * Z;
  procfs_close : D -> Z -> D * Z;
  procfs_read : D -> Z -> Z -> D * Z * list Z;
  devfs_open : D -> list Z -> D * Z;
  devfs_close : D -> Z -> D * Z;
  devfs_read : D -> Z -> Z -> D * Z * list Z;
  devfs_write : D -> Z -> list Z -> Z -> D * Z;
  ext2_is_mounted : D -> bool;
  ext2_is_writable : D -> bool;
  ext2_mount : D -> D * bool;
  ext2_open_file : D -> list Z -> D * Z;
  ext2_close_file : D -> Z -> D * Z;
  ext2_read_fd : D -> Z -> Z -> D * Z * list Z;
  ext2_write_fd : D -> Z -> list Z -> Z -> D * Z;
  ext2_read_at : D -> Z -> Z -> Z -> D * Z * list Z;
  ext2_write_at : D -> Z -> list Z -> Z -> Z -> D * Z;
  ext2_readdir : D -> Z -> dirent -> D * Z * dirent;
  ext2_stat_file : D -> list Z -> D * Z * stat;
  ext2_lseek : D -> Z -> Z -> Z -> D * Z;
  ext2_create_file : D -> list Z -> Z -> D * Z;
  ext2_mkdir : D -> list Z -> Z -> D * Z;
  ext2_unlink : D -> list Z -> D * Z;
  ext2_get_inode_mode : D -> list Z -> D * Z;
  ext2_read_file : D -> list Z -> option Z -> D * Z * list Z;
  ext2_write_file : D -> list Z -> list Z -> D * Z;
  fat32_is_mounted : D -> bool;
  fat32_shim_open : D -> list Z -> D * Z;
  fat32_shim_close : D -> Z -> D * Z;
  fat32_shim_read : D -> Z -> Z -> D * Z * list Z;
  fat32_shim_write : D -> Z -> list Z -> Z -> D * Z;
  fat32_shim_read_at : D -> Z -> Z -> Z -> D * Z * list Z;
  fat32_shim_readdir : D -> Z -> dirent -> D * Z * dirent;
  fat32_shim_stat : D -> list Z -> D * Z * stat;
  fat32_shim_lseek : D -> Z -> Z -> Z -> D * Z;
  fat32_unlink : D -> list Z -> D * Z;
}.

(** ** State *)

Record mount := mkMount { m_path : list Z; m_type : Z }.

Definition PROC : list Z := [47; 112; 114; 111; 99].
Definition DEV : list Z := [47; 100; 101; 118].

Definition VFS_FD_IS_EXT2 (fd : Z) : bool := (100 <=? fd) && (fd <? 100 + 16).
Definition VFS_FD_IS_FAT32 (fd : Z) : bool := (700 <=? fd) && (fd <? 700 + 16).
Definition VFS_FD_IS_PROCFS (fd : Z) : bool := (PROCFS_FD_BASE <=? fd) && (fd <? PROCFS_FD_BASE + PROCFS_MAX_OPEN).
Definition VFS_FD_IS_DEVFS (fd : Z) : bool := (DEVFS_FD_BASE <=? fd) && (fd <? DEVFS_FD_BASE + DEVFS_MAX_OPEN).
Definition VFS_FD_IS_TMPFS (fd : Z) : bool := (TMPFS_FD_BASE <=? fd) && (fd <? TMPFS_FD_BASE + TMPFS_MAX_OPEN).

Definition starts_with (prefix path : list Z) : bool := bool_decide (take (length prefix) path = prefix).
(** "/tmp" or below *)
Definition under_tmp (path : list Z) : bool :=
  starts_with TMP path && match drop 4 path with [] => true | c :: _ => c =? SLASH end.

Definition path_under_mount (path mount_path : list Z) : bool :=
  if bool_decide (mount_path = [SLASH]) then true
  else starts_with mount_path path && match drop (length mount_path) path with [] => true | c :: _ => c =? SLASH end.

Section vfs.
Context {D : Type} `{Mounted D}.
Context (task_current : option cred).

Record vfs := mkVfs { mem : memfs; mounts : list mount; tmp : tmpfs; others : D }.

Definition set_mem (v : vfs) (m : memfs) : vfs := mkVfs m (mounts v) (tmp v) (others v).
Definition set_mounts (v : vfs) (l : list mount) : vfs := mkVfs (mem v) l (tmp v) (others v).
Definition set_tmp (v : vfs) (t : tmpfs) : vfs := mkVfs (mem v) (mounts v) t (others v).
Definition set_others (v : vfs) (d : D) : vfs := mkVfs (mem v) (mounts v) (tmp v) d.

(** The results of the other file systems, with their state put back. *)
Definition in_others {R : Type} (v : vfs) (r : D * R) : vfs * R := (set_others v (fst r), snd r).
Definition in_tmp {R : Type} (v : vfs) (r : tmpfs * R) : vfs * R := (set_tmp v (fst r), snd r).
Definition in_others_read (v : vfs) (r : D * Z * list Z) : vfs * Z * list Z := (set_others v (fst (fst r)), snd (fst r), snd r).
Definition in_tmp_read (v : vfs) (r : tmpfs * Z * list Z) : vfs * Z * list Z := (set_tmp v (fst (fst r)), snd (fst r), snd r).

Definition vfs_init (v : vfs) : vfs :=
  let root := mkFile [SLASH] (replicate (Z.to_nat MAX_FILE_SIZE) 0) 0 true (Z.lor S_IFDIR 0x1ED) 0 0 true (-1) [] in
  mkVfs (mkMemfs ((replicate (Z.to_nat MAX_FILES) zero_file).[ROOT_IDX <- root])
           (replicate (Z.to_nat MAX_FILES) 0) (replicate (Z.to_nat MAX_FILES) 0) 1)
    [] (tmp v) (others v).

Definition find_mount (type : Z) (l : list mount) (path : list Z) : option Z :=
  find_from (fun i => match nth_error l (Z.to_nat i) with Some m => (m_type m =? type) && path_under_mount path (m_path m) | None => false end)
    (length l) 0.
Definition find_ext2_mount_for_path (v : vfs) (path : list Z) : option Z := find_mount FS_TYPE_EXT2 (mounts v) path.
Definition find_fat32_mount_for_path (v : vfs) (path : list Z) : option Z := find_mount FS_TYPE_FAT32 (mounts v) path.

(** "Create stub directory for the mount point" *)
Definition mount_stub (m : memfs) (target : list Z) : memfs :=
  if bool_decide (target = [SLASH]) then m
  else
    match memfs_resolve_path task_current m target with
    | Some _ => m
    | None =>
        match memfs_split_path task_current m target with
        | None => m
        | Some (parent, base) =>
            match memfs_alloc_slot m with
            | None => m
            | Some slot => new_entry m slot base true (Z.lor S_IFDIR 0x1ED) 0 0 parent
            end
        end
    end.

(** "ext2", "memfs" and "fat32" *)
Definition EXT2 : list Z := [101; 120; 116; 50].
Definition MEMFS : list Z := [109; 101; 109; 102; 115].
Definition FAT32 : list Z := [102; 97; 116; 51; 50].

Definition vfs_mount (v : vfs) (target fs_type : list Z) : vfs * Z :=
  if existsb (fun m => bool_decide (m_path m = target)) (mounts v) then (v, -1)
  else if MAX_MOUNTS <=? len (mounts v) then (v, -1)
  else
    let add v t := set_mounts v (mounts v ++ [mkMount (take 255 target) t]) in
    if bool_decide (fs_type = EXT2) then
      let '(v, ok) := if ext2_is_mounted (others v) then (v, true) else in_others v (ext2_mount (others v)) in
      if negb ok then (v, -1)
      else let v := add v FS_TYPE_EXT2 in (set_mem v (mount_stub (mem v) target), 0)
    else if bool_decide (fs_type = MEMFS) then (add v FS_TYPE_MEMFS, 0)
    else if bool_decide (fs_type = FAT32) then
      if negb (fat32_is_mounted (others v)) then (v, -1)
      else let v := add v FS_TYPE_FAT32 in (set_mem v (mount_stub (mem v) target), 0)
    else (v, -1).

(** The first mount with the path goes, the rest moves down. *)
Fixpoint unmount_first (path : list Z) (l : list mount) : option (list mount) :=
  match l with
  | [] => None
  | m :: l => if bool_decide (m_path m = path) then Some l else l ← unmount_first path l; Some (m :: l)
  end.

Definition vfs_unmount (v : vfs) (path : list Z) : vfs * Z :=
  match unmount_first path (mounts v) with Some l => (set_mounts v l, 0) | None => (v, -1) end.

Definition vfs_resolve_path (v : vfs) (path : list Z) : option Z := memfs_resolve_path task_current (mem v) path.

(** ** Opening and closing *)

(** uid and gid of a new entry *)
Definition owner : Z * Z := match task_current with Some p => (u32 (c_uid p), u32 (c_gid p)) | None => (0, 0) end.

(** Parts 1 to 4 of [vfs_open]. *)
Definition open_existing (v : vfs) (idx flags : Z) : vfs * Z :=
  let m := mem v in
  let m := if has flags O_TRUNC && negb (f_dir (file m idx)) then set_file m idx (with_contents (file m idx) (f_data (file m idx)) 0) else m in
  (set_mem v (set_fflags (set_offset m idx 0) idx flags), idx + 3).

Definition open_new (v : vfs) (path : list Z) (flags : Z) : vfs * Z :=
  match memfs_split_path task_current (mem v) path with
  | None =>
      match find_ext2_mount_for_path v path with
      | None => (v, -1)
      | Some _ =>
          let '(v, ino) := in_others v (ext2_create_file (others v) path 0) in
          if 0 <? ino then
            let '(v, efd) := in_others v (ext2_open_file (others v) path) in
            if 0 <=? efd then (v, efd + 100) else (v, -1)
          else (v, -1)
      end
  | Some (parent, base) =>
      match memfs_alloc_slot (mem v) with
      | None => (v, -1)
      | Some slot =>
          let m := fill_slot (mem v) slot base false (Z.lor S_IFREG 0x1A4) (fst owner) (snd owner) parent in
          let m := set_fflags (set_offset m slot 0) slot flags in
          let '(m, _) := memfs_add_child m parent slot in
          (set_mem v (set_num m (fs_num_files m + 1)), slot + 3)
      end
  end.

Definition open_disk (v : vfs) (path : list Z) : vfs * Z :=
  let '(v, efd) := match find_ext2_mount_for_path v path with Some _ => in_others v (ext2_open_file (others v) path) | None => (v, -1) end in
  if 0 <=? efd then (v, efd + 100)
  else
    let '(v, ffd) := match find_fat32_mount_for_path v path with Some _ => in_others v (fat32_shim_open (others v) path) | None => (v, -1) end in
    if 0 <=? ffd then (v, ffd + 700) else (v, -1).

(** [fresh] is what kmalloc answers to /tmp. *)
Definition vfs_open (fresh : option (list Z)) (v : vfs) (path : list Z) (flags : Z) : vfs * Z :=
  let '(v, pfd) := if starts_with PROC path then in_others v (procfs_open (others v) path) else (v, -1) in
  if 0 <=? pfd then (v, pfd)
  else
    let '(v, dfd) := if starts_with DEV path then in_others v (devfs_open (others v) path) else (v, -1) in
    if 0 <=? dfd then (v, dfd)
    else if under_tmp path then
      let '(v, tfd) := in_tmp v (tmpfs_open (tmp v) fresh (Some path) flags) in
      if 0 <=? tfd then (v, tfd) else (v, -1)
    else
      match memfs_resolve_path task_current (mem v) path with
      | Some idx => open_existing v idx flags
      | None => if has flags O_CREAT then open_new v path flags else open_disk v path
      end.

(** "idx < 0 || idx >= MAX_FILES || !fs_files[idx].exists" *)
Definition bad_idx (m : memfs) (idx : Z) : bool := negb (in_range idx) || negb (f_exists (file m idx)).

Definition vfs_close (v : vfs) (fd : Z) : vfs * Z :=
  if VFS_FD_IS_TMPFS fd then in_tmp v (tmpfs_close (tmp v) fd)
  else if VFS_FD_IS_PROCFS fd then in_others v (procfs_close (others v) fd)
  else if VFS_FD_IS_DEVFS fd then in_others v (devfs_close (others v) fd)
  else if VFS_FD_IS_EXT2 fd then in_others v (ext2_close_file (others v) (fd - 100))
  else if VFS_FD_IS_FAT32 fd then in_others v (fat32_shim_close (others v) (fd - 700))
  else (v, if bad_idx (mem v) (fd - 3) then -1 else 0).

(** ** Reading and writing *)

(** "memcpy" out of and into the array of a file. *)
Definition copy_out (f : mem_file) (off n : Z) : option (list Z) :=
  if MAX_FILE_SIZE <? off + n then None else Some (slice (f_data f) off n).
Definition copy_in (f : mem_file) (off n : Z) (bytes : list Z) : option (list Z) :=
  if MAX_FILE_SIZE <? off + n then None else Some (splice (f_data f) off (take (Z.to_nat n) bytes)).

Definition vfs_read (v : vfs) (fd count : Z) : option (vfs * Z * list Z) :=
  if VFS_FD_IS_TMPFS fd then Some (in_tmp_read v (tmpfs_read (tmp v) fd true count))
  else if VFS_FD_IS_PROCFS fd then Some (in_others_read v (procfs_read (others v) fd count))
  else if VFS_FD_IS_DEVFS fd then Some (in_others_read v (devfs_read (others v) fd count))
  else if VFS_FD_IS_EXT2 fd then Some (in_others_read v (ext2_read_fd (others v) (fd - 100) (s32 count)))
  else if VFS_FD_IS_FAT32 fd then Some (in_others_read v (fat32_shim_read (others v) (fd - 700) (s32 count)))
  else
    let idx := fd - 3 in
    let m := mem v in
    if bad_idx m idx || f_dir (file m idx) then Some (v, -1, [])
    else
      let off := (fs_offsets m).[idx] in
      if f_size (file m idx) <=? off then Some (v, 0, [])
      else
        let to_read := if f_size (file m idx) - off <? count then f_size (file m idx) - off else count in
        bytes ← copy_out (file m idx) off to_read;
        Some (set_mem v (set_offset m idx (u64 (off + to_read))), s64 to_read, bytes).

(** The part that [vfs_write] and [vfs_write_at] share: the new file and the count, or nothing
    when the file is full. *)
Definition put_bytes (f : mem_file) (off count : Z) (bytes : list Z) : option (option (mem_file * Z)) :=
  let count := if MAX_FILE_SIZE <? count then MAX_FILE_SIZE else count in
  let e := u64 (off + count) in
  let count := if MAX_FILE_SIZE <? e then u64 (MAX_FILE_SIZE - off) else count in
  if (MAX_FILE_SIZE <? e) && (count =? 0) then Some None
  else
    data ← copy_in f off count bytes;
    Some (Some (with_contents f data (if f_size f <? e then e else f_size f), count)).

Definition vfs_write (v : vfs) (fd : Z) (buf : list Z) (count : Z) : option (vfs * Z) :=
  if VFS_FD_IS_TMPFS fd then Some (in_tmp v (tmpfs_write (tmp v) fd (Some buf) count))
  else if VFS_FD_IS_DEVFS fd then Some (in_others v (devfs_write (others v) fd buf count))
  else if VFS_FD_IS_PROCFS fd then Some (v, - EROFS)
  else if VFS_FD_IS_EXT2 fd then Some (in_others v (ext2_write_fd (others v) (fd - 100) buf (s32 count)))
  else if VFS_FD_IS_FAT32 fd then Some (in_others v (fat32_shim_write (others v) (fd - 700) buf (s32 count)))
  else
    let idx := fd - 3 in
    let m := mem v in
    if bad_idx m idx || f_dir (file m idx) then Some (v, -1)
    else
      let off := if has (fs_flags m).[idx] O_APPEND then f_size (file m idx) else (fs_offsets m).[idx] in
      r ← put_bytes (file m idx) off count buf;
      match r with
      | None => Some (v, 0)
      | Some (f, n) => Some (set_mem v (set_offset (set_file m idx f) idx (u64 (off + n))), s64 n)
      end.

Definition vfs_lseek (v : vfs) (fd offset whence : Z) : vfs * Z :=
  if VFS_FD_IS_TMPFS fd then in_tmp v (tmpfs_lseek (tmp v) fd offset whence)
  else if VFS_FD_IS_PROCFS fd then (v, -1)
  else if VFS_FD_IS_DEVFS fd then (v, -1)
  else if VFS_FD_IS_EXT2 fd then in_others v (ext2_lseek (others v) (fd - 100) offset whence)
  else if VFS_FD_IS_FAT32 fd then in_others v (fat32_shim_lseek (others v) (fd - 700) offset whence)
  else
    let idx := fd - 3 in
    let m := mem v in
    if bad_idx m idx then (v, -1)
    else
      let seek base :=
        let new_off := s64 (base + offset) in
        if new_off <? 0 then (v, -1) else (set_mem v (set_offset m idx new_off), new_off) in
      if whence =? 0 then seek 0
      else if whence =? 1 then seek (s64 (fs_offsets m).[idx])
      else if whence =? 2 then seek (s64 (f_size (file m idx)))
      else (v, -1).

Definition vfs_read_at (v : vfs) (fd count offset : Z) : option (vfs * Z * list Z) :=
  if VFS_FD_IS_TMPFS fd then let '(r, bytes) := tmpfs_read_at (tmp v) fd true count offset in Some (v, r, bytes)
  else if VFS_FD_IS_PROCFS fd then Some (in_others_read v (procfs_read (others v) fd count))
  else if VFS_FD_IS_DEVFS fd then Some (in_others_read v (devfs_read (others v) fd count))
  else if VFS_FD_IS_EXT2 fd then Some (in_others_read v (ext2_read_at (others v) (fd - 100) (s32 count) offset))
  else if VFS_FD_IS_FAT32 fd then Some (in_others_read v (fat32_shim_read_at (others v) (fd - 700) (s32 count) offset))
  else
    let idx := fd - 3 in
    let m := mem v in
    if bad_idx m idx || f_dir (file m idx) then Some (v, -1, [])
    else if f_size (file m idx) <=? u64 offset then Some (v, 0, [])
    else
      let to_read := if f_size (file m idx) - u64 offset <? count then f_size (file m idx) - u64 offset else count in
      bytes ← copy_out (file m idx) (u64 offset) to_read;
      Some (v, s64 to_read, bytes).

(** "lseek + write and restore pos" *)
Definition write_seeking {X : Type} (lseek : X -> Z -> Z -> X * Z) (write : X -> X * Z) (x : X) (offset : Z) : X * Z :=
  let '(x, cur) := lseek x 0 1 in
  if cur <? 0 then (x, -1)
  else
    let '(x, rc) := lseek x offset 0 in
    if rc <? 0 then (x, -1)
    else
      let '(x, n) := write x in
      let '(x, _) := lseek x cur 0 in
      (x, n).

Definition vfs_write_at (v : vfs) (fd : Z) (buf : list Z) (count offset : Z) : option (vfs * Z) :=
  if VFS_FD_IS_TMPFS fd then
    Some (in_tmp v (write_seeking (fun t off wh => tmpfs_lseek t fd off wh) (fun t => tmpfs_write t fd (Some buf) count) (tmp v) offset))
  else if VFS_FD_IS_PROCFS fd then Some (v, - EROFS)
  else if VFS_FD_IS_DEVFS fd then Some (in_others v (devfs_write (others v) fd buf count))
  else if VFS_FD_IS_EXT2 fd then Some (in_others v (ext2_write_at (others v) (fd - 100) buf (s32 count) offset))
  else if VFS_FD_IS_FAT32 fd then
    Some (in_others v (write_seeking (fun d off wh => fat32_shim_lseek d (fd - 700) off wh)
      (fun d => fat32_shim_write d (fd - 700) buf (s32 count)) (others v) offset))
  else
    let idx := fd - 3 in
    let m := mem v in
    if bad_idx m idx || f_dir (file m idx) then Some (v, -1)
    else
      r ← put_bytes (file m idx) (u64 offset) count buf;
      match r with None => Some (v, 0) | Some (f, n) => Some (set_mem v (set_file m idx f), s64 n) end.

(** The child of [dir] at the cursor. *)
Definition list_child (m : memfs) (dir : Z) (entry : dirent) : option dirent :=
  let cursor := s32 (d_inode entry) in
  if (cursor <? 0) || (len (f_children (file m dir)) <=? cursor) then None
  else
    let c := (f_children (file m dir)).[cursor] in
    if negb (in_range c) || negb (f_exists (file m c)) then None
    else Some (mkDirent (u32 (cursor + 1)) (if f_dir (file m c) then FT_DIRECTORY else FT_REGULAR) (take 63 (f_name (file m c)))).

(** The entry is as it was when the result is -1. *)
Definition vfs_readdir (v : vfs) (fd : Z) (entry : dirent) : vfs * Z * dirent :=
  if VFS_FD_IS_TMPFS fd then
    match tmpfs_readdir (tmp v) fd (d_inode entry) with
    | Some (inode, name) => (v, 0, mkDirent inode FT_REGULAR name)
    | None => (v, -1, entry)
    end
  else if VFS_FD_IS_EXT2 fd then let '(d, r, e) := ext2_readdir (others v) (fd - 100) entry in (set_others v d, r, e)
  else if VFS_FD_IS_FAT32 fd then let '(d, r, e) := fat32_shim_readdir (others v) (fd - 700) entry in (set_others v d, r, e)
  else
    let idx := fd - 3 in
    let dir := if negb (bad_idx (mem v) idx) && f_dir (file (mem v) idx) then idx else ROOT_IDX in
    match list_child (mem v) dir entry with Some e => (v, 0, e) | None => (v, -1, entry) end.

(** ** Names *)

Definition is_absolute (path : list Z) : bool := match path with c :: _ => c =? SLASH | [] => false end.

(** "ext2_mkdir" for a path the table does not take *)
Definition mkdir_disk (v : vfs) (path : list Z) (mode : Z) : vfs * Z :=
  match find_ext2_mount_for_path v path with
  | Some _ =>
      if ext2_is_mounted (others v) then
        let '(v, ino) := in_others v (ext2_mkdir (others v) path (u16 (Z.land mode 0x1FF))) in (v, if 0 <? ino then 0 else -1)
      else (v, -1)
  | None => (v, -1)
  end.

Definition vfs_mkdir (v : vfs) (path : list Z) (mode : Z) : vfs * Z :=
  if negb (is_absolute path) then (v, -1)
  else
    match memfs_resolve_path task_current (mem v) path with
    | Some _ => (v, -1)
    | None =>
        match memfs_split_path task_current (mem v) path with
        | None => mkdir_disk v path mode
        | Some (parent, base) =>
            if negb (f_dir (file (mem v) parent)) then (v, -1)
            else
              match memfs_alloc_slot (mem v) with
              | None => mkdir_disk v path mode
              | Some slot =>
                  let dir_mode := Z.lor S_IFDIR (if mode =? 0 then 0x1ED else Z.land mode 0x1FF) in
                  (set_mem v (new_entry (mem v) slot base true dir_mode (fst owner) (snd owner) parent), 0)
              end
        end
    end.

Definition vfs_create (fresh : option (list Z)) (v : vfs) (path : list Z) (mode : Z) : vfs * Z :=
  vfs_open fresh v path (Z.lor O_CREAT (Z.land mode 0x1FF)).

(** An operation of ext2 on a path that a mount of it covers *)
Definition on_ext2 {R : Type} (v : vfs) (path : list Z) (no : R) (op : D -> D * R) : vfs * R :=
  match find_ext2_mount_for_path v path with
  | Some _ => if ext2_is_mounted (others v) then in_others v (op (others v)) else (v, no)
  | None => (v, no)
  end.

Definition fat32_covers (v : vfs) (path : list Z) : bool :=
  match find_fat32_mount_for_path v path with Some _ => fat32_is_mounted (others v) | None => false end.

Definition stat_pair (r : D * Z * stat) : D * (Z * stat) := (fst (fst r), (snd (fst r), snd r)).

(** The result and the record, which is [st] where nothing is written to it. *)
Definition vfs_stat (v : vfs) (path : list Z) (st : stat) : vfs * (Z * stat) :=
  match memfs_resolve_path task_current (mem v) path with
  | Some idx =>
      let f := file (mem v) idx in
      (v, (0, mkStat (f_mode f) (f_uid f) (f_gid f) (if f_dir f then 0 else f_size f)))
  | None =>
      match (if under_tmp path then snd (tmpfs_stat (tmp v) (Some path) true) else None) with
      | Some (mode, size) => (v, (0, mkStat mode 0 0 size))
      | None =>
          if fat32_covers v path then in_others v (stat_pair (fat32_shim_stat (others v) path))
          else on_ext2 v path (-1, st) (fun d => stat_pair (ext2_stat_file d path))
      end
  end.

Definition ext2_unlink_result (path : list Z) (d : D) : D * Z :=
  let '(d, r) := ext2_unlink d path in (d, if 0 <? r then 0 else -1).

Definition vfs_unlink (v : vfs) (path : list Z) : vfs * Z :=
  if negb (is_absolute path) then (v, -1)
  else
    match memfs_resolve_path task_current (mem v) path with
    | Some idx =>
        if idx =? ROOT_IDX then (v, -1)
        else if f_dir (file (mem v) idx) && (0 <? len (f_children (file (mem v) idx))) then (v, -1)
        else (set_mem v (drop_entry (mem v) idx), 0)
    | None =>
        let '(v, r) := if under_tmp path then in_tmp v (tmpfs_unlink (tmp v) (Some path)) else (v, -1) in
        if r =? 0 then (v, 0)
        else
          let name := skip_slashes path in
          let '(v, r) := if fat32_covers v path && forallb (fun c => negb (c =? SLASH)) name
                         then in_others v (fat32_unlink (others v) name) else (v, -1) in
          if r =? 0 then (v, 0) else on_ext2 v path (-1) (ext2_unlink_result path)
    end.

(** The loop of "read+unlink+recreate+write"; [km] says whether kmalloc gives a buffer. *)
Definition chmod_ext2 (km : bool) (path : list Z) (mode : Z) (d : D) : D * Z :=
  if negb (ext2_is_writable d) then (d, -1)
  else
    let '(d, cur_mode) := ext2_get_inode_mode d path in
    if negb (Z.land cur_mode S_IFMT =? S_IFREG) then (d, -1)
    else
      let '(d, sz, _) := ext2_read_file d path None in
      let sz := if sz <? 0 then 0 else sz in
      if (0 <? sz) && negb km then (d, -1)
      else
        let '(d, r, contents) := if 0 <? sz then ext2_read_file d path (Some (u32 sz)) else (d, 0, []) in
        if r <? 0 then (d, -1)
        else
          let '(d, r) := ext2_unlink d path in
          if r <=? 0 then (d, -1)
          else
            let new_mode := u16 (Z.lor (Z.land cur_mode S_IFMT) (Z.land mode 0xFFF)) in
            let '(d, ino) := ext2_create_file d path new_mode in
            if ino =? 0 then (d, -1)
            else
              let '(d, _) := if 0 <? sz then ext2_write_file d path contents else (d, 0) in
              (d, 0).

Definition vfs_chmod (km : bool) (v : vfs) (path : list Z) (mode : Z) : vfs * Z :=
  if negb (is_absolute path) then (v, -1)
  else
    match memfs_resolve_path task_current (mem v) path with
    | None => on_ext2 v path (-1) (chmod_ext2 km path mode)
    | Some idx =>
        let f := file (mem v) idx in
        (set_mem v (set_file (mem v) idx (with_meta f (Z.lor (Z.land (f_mode f) S_IFMT) (Z.land mode 0x1FF)) (f_uid f) (f_gid f))), 0)
    end.

Definition vfs_chown (v : vfs) (path : list Z) (uid gid : Z) : vfs * Z :=
  if negb (is_absolute path) then (v, -1)
  else
    match memfs_resolve_path task_current (mem v) path with
    | Some idx => (set_mem v (set_file (mem v) idx (with_meta (file (mem v) idx) (f_mode (file (mem v) idx)) uid gid)), 0)
    | None => (v, if under_tmp path then 0 else -1)
    end.

(** The bytes between the old and the new length are cleared either way. *)
Definition set_length (m : memfs) (idx new_len : Z) : memfs :=
  let f := file m idx in
  let old_len := f_size f in
  let zeros a b := splice (f_data f) a (replicate (Z.to_nat (b - a)) 0) in
  let data := if old_len <? new_len then zeros old_len new_len else if new_len <? old_len then zeros new_len old_len else f_data f in
  let m := set_file m idx (with_contents f data new_len) in
  if new_len <? (fs_offsets m).[idx] then set_offset m idx new_len else m.

(** No result when the old size is beyond the array. *)
Definition memfs_truncate (v : vfs) (idx length : Z) : option (vfs * Z) :=
  if f_dir (file (mem v) idx) then Some (v, -1)
  else if MAX_FILE_SIZE <? f_size (file (mem v) idx) then None
  else Some (set_mem v (set_length (mem v) idx length), 0).

Definition vfs_truncate (v : vfs) (path : list Z) (length : Z) : option (vfs * Z) :=
  if negb (is_absolute path) || (length <? 0) then Some (v, -1)
  else if under_tmp path then Some (in_tmp v (tmpfs_truncate (tmp v) (Some path) length))
  else if MAX_FILE_SIZE <? length then Some (v, -1)
  else
    match memfs_resolve_path task_current (mem v) path with
    | Some idx => memfs_truncate v idx length
    | None => Some (v, -1)
    end.

Definition vfs_ftruncate (v : vfs) (fd length : Z) : option (vfs * Z) :=
  if length <? 0 then Some (v, -1)
  else if VFS_FD_IS_TMPFS fd then Some (in_tmp v (tmpfs_ftruncate (tmp v) fd length))
  else if MAX_FILE_SIZE <? length then Some (v, -1)
  else if VFS_FD_IS_PROCFS fd || VFS_FD_IS_DEVFS fd || VFS_FD_IS_EXT2 fd || VFS_FD_IS_FAT32 fd then Some (v, -1)
  else if bad_idx (mem v) (fd - 3) then Some (v, -1)
  else memfs_truncate v (fd - 3) length.

Definition vfs_rmdir (v : vfs) (path : list Z) : vfs * Z :=
  if negb (is_absolute path) then (v, -1)
  else
    match memfs_resolve_path task_current (mem v) path with
    | None => on_ext2 v path (-1) (ext2_unlink_result path)
    | Some idx =>
        if idx =? ROOT_IDX then (v, -1)
        else if negb (f_dir (file (mem v) idx)) then (v, -1)
        else if 0 <? len (f_children (file (mem v) idx)) then (v, -1)
        else (set_mem v (drop_entry (mem v) idx), 0)
    end.

(** ** Renaming *)

Definition rename_mem (m : memfs) (old_idx : Z) (newpath : list Z) : memfs * Z :=
  if old_idx =? ROOT_IDX then (m, -1)
  else
    match memfs_split_path task_current m newpath with
    | None => (m, -1)
    | Some (new_parent, base) =>
        if negb (f_dir (file m new_parent)) then (m, -1)
        else
          match memfs_resolve_path task_current m newpath with
          | None => reparent m old_idx new_parent base None
          | Some new_idx =>
              if new_idx =? ROOT_IDX then (m, -1)
              else if f_dir (file m old_idx) && negb (f_dir (file m new_idx)) then (m, -1)
              else if f_dir (file m old_idx) && f_dir (file m new_idx) && (0 <? len (f_children (file m new_idx))) then (m, -1)
              else
                let saved := file m new_idx in
                reparent (drop_entry m new_idx) old_idx new_parent base (Some (new_idx, saved))
          end
    end.

(** What is at the new path, as far as it can be kept; [km] says whether kmalloc gives a buffer. *)
Definition save_ext2 (km : bool) (path : list Z) (d : D) : D * option (Z * list Z) :=
  let '(d, mode) := ext2_get_inode_mode d path in
  let '(d, sz, _) := ext2_read_file d path None in
  if sz <=? 0 then (d, Some (mode, []))
  else if negb km then (d, None)
  else
    let '(d, r, contents) := ext2_read_file d path (Some (u32 sz)) in
    (d, if r <? 0 then None else Some (mode, contents)).

Definition restore_ext2 (path : list Z) (saved : option (Z * list Z)) (d : D) : D :=
  match saved with
  | None => d
  | Some (mode, contents) =>
      let '(d, rino) := ext2_create_file d path (if mode =? 0 then 0x81A4 else mode) in
      if negb (rino =? 0) && negb (bool_decide (contents = [])) then fst (ext2_write_file d path contents) else d
  end.

(** The contents of the old path, or a failure. *)
Definition load_ext2 (km : bool) (path : list Z) (d : D) : D * option (list Z) :=
  let '(d, sz, _) := ext2_read_file d path None in
  if sz <=? 0 then (d, Some [])
  else if negb km then (d, None)
  else
    let '(d, r, contents) := ext2_read_file d path (Some (u32 sz)) in
    (d, if r <? 0 then None else Some contents).

Definition rename_ext2 (km_old km_new : bool) (oldpath newpath : list Z) (d : D) : D * Z :=
  let '(d, old_mode) := ext2_get_inode_mode d oldpath in
  if negb (Z.land old_mode S_IFMT =? S_IFREG) then (d, -1)
  else
    let '(d, loaded) := load_ext2 km_old oldpath d in
    match loaded with
    | None => (d, -1)
    | Some contents =>
        let '(d, mode) := ext2_get_inode_mode d newpath in
        let '(d, saved, gone) :=
          if mode =? 0 then (d, None, true)
          else
            let '(d, saved) := save_ext2 km_new newpath d in
            let '(d, r) := ext2_unlink d newpath in (d, saved, 0 <? r) in
        if negb gone then (d, -1)
        else
          let '(d, ino) := ext2_create_file d newpath old_mode in
          if ino =? 0 then (restore_ext2 newpath saved d, -1)
          else
            let '(d, wr) := if bool_decide (contents = []) then (d, 0) else ext2_write_file d newpath contents in
            if wr <? 0 then (restore_ext2 newpath saved (fst (ext2_unlink d newpath)), -1)
            else (fst (ext2_unlink d oldpath), 0)
    end.

Definition vfs_rename (km_old km_new : bool) (v : vfs) (oldpath newpath : list Z) : vfs * Z :=
  if negb (is_absolute oldpath) || negb (is_absolute newpath) then (v, -1)
  else if bool_decide (oldpath = newpath) then (v, 0)
  else
    match memfs_resolve_path task_current (mem v) oldpath with
    | Some old_idx => let '(m, r) := rename_mem (mem v) old_idx newpath in (set_mem v m, r)
    | None =>
        on_ext2 v oldpath (-1) (fun d =>
          match find_ext2_mount_for_path v newpath with None => (d, -1) | Some _ => rename_ext2 km_old km_new oldpath newpath d end)
    end.

Definition vfs_get_mount (v : vfs) (idx : Z) : option mount :=
  if (idx <? 0) || (len (mounts v) <=? idx) then None else nth_error (mounts v) (Z.to_nat idx).
Definition vfs_get_mount_count (v : vfs) : Z := len (mounts v).

(** ** The initial files

    [junk] is what basename_buf holds where the code reads it unset. *)

Fixpoint cstr (l : list Z) : list Z := match l with c :: l => if c =? 0 then [] else c :: cstr l | [] => [] end.

Definition read_u32 (data : list Z) (p : Z) : Z := data.[p] + data.[p + 1] * 0x100 + data.[p + 2] * 0x10000 + data.[p + 3] * 0x1000000.

Record place := mkPlace { p_mem : memfs; p_dir : Z; p_base : list Z; p_parent : Z }.

(** The walk over the path; it stops where no slot is left for a directory. *)
Fixpoint initrd_walk (fuel : nat) (p : list Z) (w : place) : place :=
  match fuel, p with
  | S fuel, _ :: _ =>
      let '(comp, p) := scan 63 p in
      match p with
      | c :: q =>
          if c =? SLASH then
            match memfs_find_child (p_mem w) (p_dir w) comp with
            | Some child => initrd_walk fuel q (mkPlace (p_mem w) child (p_base w) (p_parent w))
            | None =>
                match memfs_alloc_slot (p_mem w) with
                | None => w
                | Some slot =>
                    let m := new_entry (p_mem w) slot comp true (Z.lor S_IFDIR 0x1ED) 0 0 (p_dir w) in
                    initrd_walk fuel q (mkPlace m slot (p_base w) (p_parent w))
                end
            end
          else initrd_walk fuel p (mkPlace (p_mem w) (p_dir w) comp (p_dir w))
      | [] => mkPlace (p_mem w) (p_dir w) comp (p_dir w)
      end
  | _, _ => w
  end.

(** One file of the image at [ptr]: the place of the next one. *)
Definition initrd_file (junk data : list Z) (m : memfs) (ptr : Z) : option (memfs * Z) :=
  if len data <? ptr + MAX_NAME_LEN + 4 then None
  else
    let raw_name := cstr (take 63 (drop (Z.to_nat ptr) data)) in
    let full_path := match raw_name with c :: _ => if c =? SLASH then raw_name else SLASH :: take 62 raw_name | [] => [SLASH] end in
    let file_size := read_u32 data (ptr + MAX_NAME_LEN) in
    let ptr := ptr + MAX_NAME_LEN + 4 in
    let w := initrd_walk (length full_path) (drop 1 full_path) (mkPlace m ROOT_IDX junk ROOT_IDX) in
    let m := p_mem w in
    if bool_decide (drop 1 full_path = []) then Some (m, ptr + file_size)
    else
      match memfs_alloc_slot m with
      | None => Some (m, ptr + file_size)
      | Some slot =>
          let n := if MAX_FILE_SIZE <? file_size then MAX_FILE_SIZE else file_size in
          if len data <? ptr + n then None
          else
            let d := splice (f_data (file m slot)) 0 (slice data ptr n) in
            let m := set_file m slot (mkFile (take 63 (p_base w)) d file_size true (Z.lor S_IFREG 0x1A4) 0 0 false (p_parent w) []) in
            let m := set_fflags (set_offset m slot 0) slot 0 in
            let '(m, _) := memfs_add_child m (p_parent w) slot in
            Some (set_num m (fs_num_files m + 1), ptr + n)
      end.

Fixpoint initrd_loop (n : nat) (junk data : list Z) (m : memfs) (ptr : Z) : option memfs :=
  match n with
  | O => Some m
  | S n => '(m, ptr) ← initrd_file junk data m ptr; initrd_loop n junk data m ptr
  end.

(** No result where the code reads beyond the image. *)
Definition initrd_load (junk data : list Z) (v : vfs) : option vfs :=
  if len data <? 4 then Some v
  else
    m ← initrd_loop (Z.to_nat (Z.min (read_u32 data 0) MAX_FILES)) junk data (mem v) 4;
    Some (set_mem v m).
End vfs.
