(* ===== verification/VfsTree.v ===== *)
(** * What the virtual file system promises

    The calls of [Vfs] on names are those of a tree of nodes ([vfs_refines_tree]), and what
    is written is read back, within the array of a file ([vfs_write_read]).  The tree
    is a function of lists of names; [tree_step] gives its rules, [simulated] says that a
    call follows them. *)

From stdpp Require Import list.
From S2P Require Import Prelude Tmpfs Memfs Vfs.

(** ** The specification: a tree of nodes *)

Record node := mkNode { n_dir : bool; n_mode : Z; n_uid : Z; n_gid : Z; n_bytes : list Z }.
Definition tree : Type := list (list Z) -> option node.

Definition same (t t' : tree) : Prop := forall p, t p = t' p.
Definition put (t : tree) (p : list (list Z)) (nd : node) : tree := fun q => if decide (q = p) then Some nd else t q.
(** Without the node [p] and all below it *)
Definition cut (t : tree) (p : list (list Z)) : tree := fun q => if decide (p `prefix_of` q) then None else t q.
Definition childless (t : tree) (p : list (list Z)) : Prop := forall n, t (p ++ [n]) = None.

Definition dir_at (t : tree) (p : list (list Z)) : Prop := exists nd, t p = Some nd /\ n_dir nd = true.
Definition file_at (t : tree) (p : list (list Z)) : Prop := exists nd, t p = Some nd /\ n_dir nd = false.

Inductive op :=
  | OCreat (p : list (list Z)) (flags : Z)
  | OMkdir (p : list (list Z)) (mode : Z)
  | OUnlink (p : list (list Z))
  | ORmdir (p : list (list Z))
  | ORename (p q : list (list Z))
  | OChmod (p : list (list Z)) (mode : Z)
  | OChown (p : list (list Z)) (uid gid : Z).

Definition with_bytes (nd : node) (l : list Z) : node := mkNode (n_dir nd) (n_mode nd) (n_uid nd) (n_gid nd) l.

(** One call, with [room] for a new node: 0 or -1, and the new tree. *)
Inductive tree_step (own : Z * Z) (room : bool) (t : tree) : op -> Z -> tree -> Prop :=
  | T_open p flags nd : t p = Some nd ->
      tree_step own room t (OCreat p flags) 0 (put t p (if has flags O_TRUNC && negb (n_dir nd) then with_bytes nd [] else nd))
  | T_creat pd n flags : room = true -> dir_at t pd -> t (pd ++ [n]) = None ->
      tree_step own room t (OCreat (pd ++ [n]) flags) 0 (put t (pd ++ [n]) (mkNode false (Z.lor S_IFREG 0x1A4) (fst own) (snd own) []))
  | T_creat_lost pd n flags : room = true -> file_at t pd ->
      tree_step own room t (OCreat (pd ++ [n]) flags) 0 t
  | T_creat_no pd n flags : t (pd ++ [n]) = None -> t pd = None \/ room = false ->
      tree_step own room t (OCreat (pd ++ [n]) flags) (-1) t
  | T_mkdir pd n mode : room = true -> dir_at t pd -> t (pd ++ [n]) = None ->
      tree_step own room t (OMkdir (pd ++ [n]) mode) 0
        (put t (pd ++ [n]) (mkNode true (Z.lor S_IFDIR (if mode =? 0 then 0x1ED else Z.land mode 0x1FF)) (fst own) (snd own) []))
  | T_mkdir_exists p mode : t p <> None -> tree_step own room t (OMkdir p mode) (-1) t
  | T_mkdir_no pd n mode : t (pd ++ [n]) = None -> ~ dir_at t pd \/ room = false -> tree_step own room t (OMkdir (pd ++ [n]) mode) (-1) t
  | T_unlink p : p <> [] -> t p <> None -> childless t p -> tree_step own room t (OUnlink p) 0 (cut t p)
  | T_unlink_no p : p = [] \/ t p = None \/ ~ childless t p -> tree_step own room t (OUnlink p) (-1) t
  | T_rmdir p : p <> [] -> dir_at t p -> childless t p -> tree_step own room t (ORmdir p) 0 (cut t p)
  | T_rmdir_no p : p = [] \/ ~ dir_at t p \/ ~ childless t p -> tree_step own room t (ORmdir p) (-1) t
  | T_rename_same p : tree_step own room t (ORename p p) 0 t
  | T_rename p qd nn : p <> [] -> t p <> None -> p <> qd ++ [nn] -> dir_at t qd ->
      (t (qd ++ [nn]) = None \/ file_at t p \/ dir_at t p /\ dir_at t (qd ++ [nn]) /\ childless t (qd ++ [nn])) ->
      tree_step own room t (ORename p (qd ++ [nn])) 0 (moved t p qd nn)
  | T_rename_no p q : p <> q ->
      (p = [] \/ t p = None \/ q = [] \/ (exists qd nn, q = qd ++ [nn] /\ ~ dir_at t qd) \/
       dir_at t p /\ file_at t q \/ dir_at t p /\ t q <> None /\ ~ childless t q) ->
      tree_step own room t (ORename p q) (-1) t
  | T_chmod p mode nd : t p = Some nd ->
      tree_step own room t (OChmod p mode) 0 (put t p (mkNode (n_dir nd) (Z.lor (Z.land (n_mode nd) S_IFMT) (Z.land mode 0x1FF)) (n_uid nd) (n_gid nd) (n_bytes nd)))
  | T_chmod_no p mode : t p = None -> tree_step own room t (OChmod p mode) (-1) t
  | T_chown p uid gid nd : t p = Some nd ->
      tree_step own room t (OChown p uid gid) 0 (put t p (mkNode (n_dir nd) (n_mode nd) uid gid (n_bytes nd)))
  | T_chown_no p uid gid : t p = None -> tree_step own room t (OChown p uid gid) (-1) t.

(** ** The table holds a tree *)

Definition node_of (f : mem_file) : node :=
  mkNode (f_dir f) (f_mode f) (f_uid f) (f_gid f) (if f_dir f then [] else slice (f_data f) 0 (f_size f)).
Definition view (m : memfs) : tree := fun p => i ← Memfs.lookup m ROOT_IDX p; Some (node_of (file m i)).

Lemma view_some m p i : Memfs.lookup m ROOT_IDX p = Some i -> view m p = Some (node_of (file m i)).
Proof. intros E. unfold view. by rewrite E. Qed.

Lemma view_none m p : view m p = None <-> Memfs.lookup m ROOT_IDX p = None.
Proof. unfold view. by destruct (Memfs.lookup m ROOT_IDX p). Qed.

Lemma dir_at_view m p i : Memfs.lookup m ROOT_IDX p = Some i -> (f_dir (file m i) = true -> dir_at (view m) p) /\ (f_dir (file m i) = false -> file_at (view m) p /\ ~ dir_at (view m) p).
Proof.
  intros E. apply view_some in E. split; intros Hd; [by eexists|]. split; [by eexists|]. intros (nd & E' & Hn). rewrite E in E'. injection E' as <-. cbn in Hn. congruence.
Qed.

Lemma childless_view m p i : wf m -> Memfs.lookup m ROOT_IDX p = Some i -> childless (view m) p <-> f_children (file m i) = [].
Proof.
  intros W E. destruct (lookup_found m p i W E) as [Hi _]. split.
  - intros Hc. destruct (f_children (file m i)) as [|c l] eqn:El; [done|]. specialize (Hc (f_name (file m c))). apply view_none in Hc.
    rewrite lookup_name_snoc, E in Hc. cbn [mbind option_bind] in Hc. rewrite find_child_in in Hc; [done|done|done|rewrite El; by left].
  - intros El n. apply view_none. rewrite lookup_name_snoc, E. by apply find_child_none.
Qed.

Lemma node_of_children f l : node_of (with_children f l) = node_of f.
Proof. done. Qed.
Lemma node_of_place f n p : node_of (with_place f n p) = node_of f.
Proof. done. Qed.

Section refinement.
Context {D : Type} `{Mounted D} (cur : option cred) (Hcur : free_root cur).
Implicit Types (v : @vfs D) (m : memfs).

(** No disk is mounted. *)
Definition no_disk v : Prop := Forall (fun mt => m_type mt = FS_TYPE_MEMFS) (mounts v).

Lemma find_mount_none type l path : Forall (fun mt => m_type mt = FS_TYPE_MEMFS) l -> type <> FS_TYPE_MEMFS -> find_mount type l path = None.
Proof.
  intros Hl Ht. apply find_from_None. intros k _. destruct (nth_error l (Z.to_nat k)) as [mt|] eqn:E; [|done].
  apply nth_error_In in E. rewrite List.Forall_forall in Hl. rewrite (Hl _ E). by rewrite (proj2 (Z.eqb_neq _ _)) by done.
Qed.

Lemma on_ext2_none {R} v path (no : R) op0 : no_disk v -> on_ext2 v path no op0 = (v, no).
Proof. intros Hn. unfold on_ext2, find_ext2_mount_for_path. by rewrite find_mount_none. Qed.

Definition routed (path : list Z) : bool := starts_with PROC path || starts_with DEV path || under_tmp path.

(** A path of names that the table gets. *)
Record fits (p : list (list Z)) : Prop := {
  fit_names : Forall good_name p;
  fit_len : len (render p) <= MAX_PATH_LEN;
  fit_routed : routed (render p) = false;
}.

Lemma set_mem_same v : set_mem v (mem v) = v.
Proof. by destruct v. Qed.

Lemma absolute_render p : is_absolute (render p) = true.
Proof. by destruct p. Qed.

Lemma render_inj p q : Forall good_name p -> Forall good_name q -> render p = render q -> p = q.
Proof.
  intros Hp Hq E. destruct (render_tokens p Hp) as (rp & Ep & <-). destruct (render_tokens q Hq) as (rq & Eq & <-). rewrite Ep, Eq in E. by injection E as ->.
Qed.

Lemma alloc_slot_some m i : memfs_alloc_slot m = Some i -> 0 <= i < MAX_FILES /\ f_exists (file m i) = false.
Proof.
  intros (Hi & E & _)%find_from_Some. split; [unfold MAX_FILES in *; lia|]. by apply negb_true_iff in E.
Qed.

Definition room (m : memfs) : bool := match memfs_alloc_slot m with Some _ => true | None => false end.

Definition exec v (o : op) : vfs * Z :=
  match o with
  | OCreat p flags => let '(v, r) := vfs_open cur None v (render p) (Z.lor flags O_CREAT) in (v, if r <? 0 then -1 else 0)
  | OMkdir p mode => vfs_mkdir cur v (render p) mode
  | OUnlink p => vfs_unlink cur v (render p)
  | ORmdir p => vfs_rmdir cur v (render p)
  | ORename p q => vfs_rename cur true true v (render p) (render q)
  | OChmod p mode => vfs_chmod cur true v (render p) mode
  | OChown p uid gid => vfs_chown cur v (render p) uid gid
  end.

(** The call is a step of the tree. *)
Definition simulated v (o : op) : Prop :=
  exists m' r, exec v o = (set_mem v m', r) /\ wf m' /\
    exists t', tree_step (owner cur) (room (mem v)) (view (mem v)) o r t' /\ same (view m') t'.

Lemma content_sim m m' p i : wf m -> same_tree m m' -> Memfs.lookup m ROOT_IDX p = Some i ->
  (forall j, 0 <= j < MAX_FILES -> j <> i -> node_of (file m' j) = node_of (file m j)) ->
  wf m' /\ same (view m') (put (view m) p (node_of (file m' i))).
Proof.
  intros W St E Hj. destruct (same_tree_ok m m' St W) as [W' L]. split; [done|]. intros q. unfold view, put. rewrite L.
  case_decide as Eq; [subst q; by rewrite E|]. destruct (Memfs.lookup m ROOT_IDX q) as [j|] eqn:Ej; [|done]. cbn [mbind option_bind].
  rewrite Hj; [done|by apply (lookup_found m q)|]. intros ->. apply Eq. by apply (lookup_unique m q p i).
Qed.

(** A change of one file's contents, owner and mode. *)
Lemma set_file_tree m i f : wf m -> 0 <= i < MAX_FILES -> f_name f = f_name (file m i) -> f_exists f = f_exists (file m i) -> f_dir f = f_dir (file m i) ->
  f_parent f = f_parent (file m i) -> f_children f = f_children (file m i) ->
  same_tree m (set_file m i f) /\ (forall j, 0 <= j -> file (set_file m i f) j = if decide (i = j) then f else file m j).
Proof.
  intros W Hi E1 E2 E3 E4 E5. assert (G : forall j, 0 <= j -> file (set_file m i f) j = if decide (i = j) then f else file m j) by (intros; by apply file_set).
  split; [|done]. constructor; [cbn; by rewrite len_seti|]. intros j Hj. rewrite G by lia. by case_decide; subst.
Qed.

Lemma has_creat flags : has (Z.lor flags O_CREAT) O_CREAT = true /\ has (Z.lor flags O_CREAT) O_TRUNC = has flags O_TRUNC.
Proof.
  unfold has. rewrite !Z.land_lor_distr_l. change (Z.land O_CREAT O_CREAT) with 16. change (Z.land O_CREAT O_TRUNC) with 0. rewrite Z.lor_0_r. split; [|done].
  apply negb_true_iff, Z.eqb_neq. intros [_ E]%Z.lor_eq_0_iff. done.
Qed.

Lemma meta_sim v p i (mo u g : Z) : wf (mem v) -> Memfs.lookup (mem v) ROOT_IDX p = Some i ->
  let m' := set_file (mem v) i (with_meta (file (mem v) i) mo u g) in
  wf m' /\ same (view m') (put (view (mem v)) p (node_of (with_meta (file (mem v) i) mo u g))).
Proof.
  intros W E. destruct (lookup_found (mem v) p i W E) as [Hi _].
  destruct (set_file_tree (mem v) i (with_meta (file (mem v) i) mo u g) W Hi) as [St G]; try done.
  assert (Ei : file (set_file (mem v) i (with_meta (file (mem v) i) mo u g)) i = with_meta (file (mem v) i) mo u g) by (rewrite G by lia; by rewrite decide_True).
  destruct (content_sim (mem v) _ p i W St E) as [W' S]; [|rewrite Ei in S; done].
  intros j Hj Hne. rewrite G by lia. by rewrite decide_False by congruence.
Qed.

Lemma chmod_sim v p mode : no_disk v -> fits p -> wf (mem v) -> simulated v (OChmod p mode).
Proof.
  intros Hn [Hp _ _] W. unfold simulated, exec, vfs_chmod. rewrite absolute_render, resolve_render by done. cbn [negb].
  destruct (Memfs.lookup (mem v) ROOT_IDX p) as [i|] eqn:E.
  - eexists _, 0. split; [done|]. destruct (meta_sim v p i (Z.lor (Z.land (f_mode (file (mem v) i)) S_IFMT) (Z.land mode 0x1FF)) (f_uid (file (mem v) i)) (f_gid (file (mem v) i)) W E) as [W' S].
    split; [exact W'|]. eexists. split; [|exact S]. exact (T_chmod _ _ (view (mem v)) p mode _ (view_some _ _ _ E)).
  - rewrite on_ext2_none by done. exists (mem v), (-1). rewrite set_mem_same. split; [done|]. split; [done|]. exists (view (mem v)). split; [|done]. constructor. by apply view_none.
Qed.

Lemma chown_sim v p uid gid : fits p -> wf (mem v) -> simulated v (OChown p uid gid).
Proof.
  intros [Hp _ Hr] W. unfold simulated, exec, vfs_chown. rewrite absolute_render, resolve_render by done. cbn [negb].
  destruct (Memfs.lookup (mem v) ROOT_IDX p) as [i|] eqn:E.
  - eexists _, 0. split; [done|]. destruct (meta_sim v p i (f_mode (file (mem v) i)) uid gid W E) as [W' S].
    split; [exact W'|]. eexists. split; [|exact S]. exact (T_chown _ _ (view (mem v)) p uid gid _ (view_some _ _ _ E)).
  - assert (Et : under_tmp (render p) = false) by (unfold routed in Hr; by apply orb_false_iff in Hr as [_ ?]). rewrite Et.
    exists (mem v), (-1). rewrite set_mem_same. split; [done|]. split; [done|]. exists (view (mem v)). split; [|done]. constructor. by apply view_none.
Qed.

Lemma open_fits fresh v p flags : fits p -> vfs_open cur fresh v (render p) flags =
  match Memfs.lookup (mem v) ROOT_IDX p with
  | Some idx => open_existing v idx flags
  | None => if has flags O_CREAT then open_new cur v (render p) flags else open_disk v (render p)
  end.
Proof.
  intros [Hp _ Hr]. unfold routed in Hr. apply orb_false_iff in Hr as [[Er1 Er2]%orb_false_iff Er3].
  unfold vfs_open. rewrite Er1. cbn [Z.leb Z.compare]. rewrite Er2. cbn [Z.leb Z.compare]. rewrite Er3. by rewrite resolve_render.
Qed.

(** Views of states with the same files at the same places. *)
Lemma view_files m m' (P : Z -> Prop) (t : list (list Z) -> option Z) p :
  Memfs.lookup m' ROOT_IDX p = t p -> (forall i, t p = Some i -> 0 <= i /\ node_of (file m' i) = node_of (file m i)) -> view m' p = i ← t p; Some (node_of (file m i)).
Proof. intros E Hf. unfold view. rewrite E. destruct (t p) as [i|]; [|done]. cbn [mbind option_bind]. by destruct (Hf i) as [_ ->]. Qed.

Lemma same_files_node m m' P j : same_files m m' P -> 0 <= j -> P j -> node_of (file m' j) = node_of (file m j).
Proof. intros Hs Hj HP. by destruct (Hs j Hj HP) as [l ->]. Qed.

Lemma created_view m pd n d slot f m1 : wf m -> Memfs.lookup m ROOT_IDX pd = Some d -> Memfs.lookup m ROOT_IDX (pd ++ [n]) = None -> good_name n ->
  memfs_alloc_slot m = Some slot -> f_children f = [] -> f_exists f = true -> f_parent f = d -> f_name f = n ->
  fs_files m1 = fs_files (set_file m slot f) -> len (fs_offsets m1) = MAX_FILES -> len (fs_flags m1) = MAX_FILES ->
  let m' := fst (memfs_add_child m1 d slot) in
  wf (set_num m' (fs_num_files m' + 1)) /\
  same (view (set_num m' (fs_num_files m' + 1))) (if f_dir (file m d) then put (view m) (pd ++ [n]) (node_of f) else view m).
Proof.
  intros W Ed En Hn Ea Hc He Hp Hnm Ef E1 E2. destruct (alloc_slot_some m slot Ea) as [Hs Hfree].
  destruct (created_ok m pd n d slot f m1 W Ed En Hn Hs Hfree Hc He Hp Hnm Ef E1 E2) as (W' & Hsf & Hl). set (m' := fst _) in *.
  destruct (same_tree_ok _ _ (set_num_tree m' (fs_num_files m' + 1)) W') as [W2 L2]. cbv zeta. split; [done|]. intros q.
  assert (Hold : forall i, Memfs.lookup m ROOT_IDX q = Some i -> node_of (file m' i) = node_of (file m i)).
  { intros i Hi. destruct (lookup_found m q i W Hi) as [Hir Hie]. eapply same_files_node; [exact Hsf|lia|]. intros ->. congruence. }
  unfold view at 1. rewrite L2. change (file (set_num m' ?n)) with (file m'). destruct (f_dir (file m d)).
  - destruct Hl as [Hfs Hl]. rewrite Hl. unfold put. case_decide as Eq; [cbn [mbind option_bind]; by rewrite Hfs|]. unfold view.
    destruct (Memfs.lookup m ROOT_IDX q) as [i|]; [|done]. cbn [mbind option_bind]. by rewrite Hold.
  - rewrite Hl. unfold view. destruct (Memfs.lookup m ROOT_IDX q) as [i|]; [|done]. cbn [mbind option_bind]. by rewrite Hold.
Qed.

Lemma put_here m p i : wf m -> Memfs.lookup m ROOT_IDX p = Some i -> same (view m) (put (view m) p (node_of (file m i))).
Proof. intros W E q. unfold put. case_decide as Eq; [subst q; by apply view_some|done]. Qed.

Lemma open_existing_sim v p i flags : wf (mem v) -> Memfs.lookup (mem v) ROOT_IDX p = Some i ->
  exists m', open_existing v i flags = (set_mem v m', i + 3) /\ wf m' /\
    same (view m') (put (view (mem v)) p (let nd := node_of (file (mem v) i) in if has flags O_TRUNC && negb (n_dir nd) then with_bytes nd [] else nd)).
Proof.
  intros W E. destruct (lookup_found (mem v) p i W E) as [Hi _]. unfold open_existing. set (m := mem v) in *.
  set (m1 := if has flags O_TRUNC && negb (f_dir (file m i)) then set_file m i (with_contents (file m i) (f_data (file m i)) 0) else m).
  eexists. split; [done|].
  assert (H1 : same_tree m m1 /\ (forall j, 0 <= j -> j <> i -> file m1 j = file m j) /\
    node_of (file m1 i) = if has flags O_TRUNC && negb (f_dir (file m i)) then with_bytes (node_of (file m i)) [] else node_of (file m i)).
  { unfold m1. destruct (has flags O_TRUNC && negb (f_dir (file m i))) eqn:Et; [|split; [apply same_tree_refl|done]].
    destruct (set_file_tree m i (with_contents (file m i) (f_data (file m i)) 0) W Hi) as [St G]; try done. split; [done|]. split.
    - intros j Hj Hne. rewrite G by done. by rewrite decide_False by congruence.
    - rewrite G by lia. rewrite decide_True by done. unfold node_of, with_bytes. cbn. apply andb_true_iff in Et as [_ ->%negb_true_iff]. done. }
  destruct H1 as (St & Ho & Hnode).
  destruct (content_sim m (set_fflags (set_offset m1 i 0) i flags) p i W) as [W' S]; [|done| |].
  - eapply same_tree_trans; [exact St|]. constructor; [cbn; by rewrite !len_seti|done].
  - intros j Hj Hne. change (file (set_fflags _ _ _) j) with (file m1 j). by rewrite Ho by (done || lia).
  - split; [done|]. change (file (set_fflags (set_offset m1 i 0) i flags) i) with (file m1 i) in S. by rewrite Hnode in S.
Qed.

Lemma not_dir_at m p i : Memfs.lookup m ROOT_IDX p = Some i -> f_dir (file m i) = false -> ~ dir_at (view m) p.
Proof. intros E Ed. by apply (dir_at_view m p i E). Qed.
Lemma not_dir_none t p : t p = None -> ~ dir_at t p.
Proof. intros E (nd & E' & _). congruence. Qed.

Lemma creat_sim v p flags : no_disk v -> fits p -> wf (mem v) -> simulated v (OCreat p flags).
Proof.
  intros Hn Hf W. pose proof Hf as [Hp Hlen _]. unfold simulated, exec. rewrite open_fits by done. destruct (has_creat flags) as [Hc Ht]. rewrite Hc.
  destruct (Memfs.lookup (mem v) ROOT_IDX p) as [i|] eqn:E.
  { destruct (open_existing_sim v p i (Z.lor flags O_CREAT) W E) as (m' & -> & W' & S). destruct (lookup_found (mem v) p i W E) as [Hi _].
    rewrite (proj2 (Z.ltb_ge (i + 3) 0)) by lia. eexists _, _. split; [done|]. split; [done|]. eexists. split; [|exact S]. rewrite Ht. apply T_open. by apply view_some. }
  destruct p as [|n pd _] using rev_ind; [done|]. apply Forall_app in Hp as [Hpd Hnn]. inversion Hnn as [|? ? Hg _]; subst.
  unfold open_new. rewrite split_render by done. pose proof (proj2 (view_none _ _) E) as Ev.
  destruct (Memfs.lookup (mem v) ROOT_IDX pd) as [d|] eqn:Ed; cbn [mbind option_bind].
  2: { unfold find_ext2_mount_for_path. rewrite find_mount_none by done. exists (mem v), (-1). rewrite set_mem_same. split; [done|]. split; [done|]. exists (view (mem v)). split; [|done].
       apply T_creat_no; [done|]. left. by apply view_none. }
  destruct (memfs_alloc_slot (mem v)) as [slot|] eqn:Ea.
  2: { exists (mem v), (-1). rewrite set_mem_same. split; [done|]. split; [done|]. exists (view (mem v)). split; [|done]. apply T_creat_no; [done|]. right. unfold room. by rewrite Ea. }
  destruct (alloc_slot_some _ _ Ea) as [Hs _]. set (f := mkFile (take 63 n) (f_data (file (mem v) slot)) 0 true (Z.lor S_IFREG 0x1A4) (fst (owner cur)) (snd (owner cur)) false d []).
  set (m1 := set_fflags (set_offset _ slot 0) slot (Z.lor flags O_CREAT)).
  destruct (created_view (mem v) pd n d slot f m1 W Ed E Hg Ea) as [W' S]; try done.
  { cbn. apply take_ge. pose proof (gn_len n Hg). unfold len in *. lia. }
  { cbn. rewrite len_seti. apply W. } { cbn. rewrite len_seti. apply W. }
  destruct (memfs_add_child m1 d slot) as [m' r]. cbn [fst] in *. rewrite (proj2 (Z.ltb_ge (slot + 3) 0)) by lia. eexists _, _. split; [done|]. split; [exact W'|].
  assert (Hroom : room (mem v) = true) by (unfold room; by rewrite Ea). destruct (dir_at_view (mem v) pd d Ed) as [D1 D2].
  destruct (f_dir (file (mem v) d)); eexists; (split; [|exact S]).
  - apply T_creat; [done|by apply D1|done].
  - apply T_creat_lost; [done|by apply D2].
Qed.

Lemma mkdir_sim v p mode : no_disk v -> fits p -> wf (mem v) -> simulated v (OMkdir p mode).
Proof.
  intros Hn Hf W. pose proof Hf as [Hp Hlen _]. unfold simulated, exec, vfs_mkdir. rewrite absolute_render, resolve_render by done. cbn [negb].
  destruct (Memfs.lookup (mem v) ROOT_IDX p) as [i|] eqn:E.
  { exists (mem v), (-1). rewrite set_mem_same. split; [done|]. split; [done|]. exists (view (mem v)). split; [|done]. apply T_mkdir_exists. by rewrite (view_some _ _ _ E). }
  destruct p as [|n pd _] using rev_ind; [done|]. apply Forall_app in Hp as [Hpd Hnn]. inversion Hnn as [|? ? Hg _]; subst.
  rewrite split_render by done. pose proof (proj2 (view_none _ _) E) as Ev.
  assert (Hno : forall w, ~ dir_at (view (mem v)) pd \/ room (mem v) = false -> w = (v, -1) ->
    exists m' r, w = (set_mem v m', r) /\ wf m' /\ exists t', tree_step (owner cur) (room (mem v)) (view (mem v)) (OMkdir (pd ++ [n]) mode) r t' /\ same (view m') t').
  { intros w Hw ->. exists (mem v), (-1). rewrite set_mem_same. split; [done|]. split; [done|]. exists (view (mem v)). split; [|done]. by apply T_mkdir_no. }
  assert (Hd : forall path mo, mkdir_disk v path mo = (v, -1)) by (intros; unfold mkdir_disk, find_ext2_mount_for_path; by rewrite find_mount_none).
  destruct (Memfs.lookup (mem v) ROOT_IDX pd) as [d|] eqn:Ed; cbn [mbind option_bind]; [|apply Hno; [left; by apply not_dir_none, view_none|by rewrite Hd]].
  destruct (f_dir (file (mem v) d)) eqn:Edir; cbn [negb]; [|apply Hno; [left; by eapply not_dir_at|done]].
  destruct (memfs_alloc_slot (mem v)) as [slot|] eqn:Ea; [|apply Hno; [right; unfold room; by rewrite Ea|by rewrite Hd]]. clear Hno.
  destruct (alloc_slot_some _ _ Ea) as [Hs _]. set (dm := Z.lor S_IFDIR (if mode =? 0 then 0x1ED else Z.land mode 0x1FF)).
  set (f := mkFile (take 63 n) (f_data (file (mem v) slot)) 0 true dm (fst (owner cur)) (snd (owner cur)) true d []).
  destruct (created_view (mem v) pd n d slot f (set_file (mem v) slot f) W Ed E Hg Ea) as [W' S]; try done; [|apply W|apply W|].
  { cbn. apply take_ge. pose proof (gn_len n Hg). unfold len in *. lia. }
  unfold new_entry, fill_slot. fold f. destruct (memfs_add_child (set_file (mem v) slot f) d slot) as [m' r]. cbn [fst] in *. rewrite Edir in S.
  eexists _, _. split; [done|]. split; [exact W'|]. eexists. split; [|exact S]. apply T_mkdir; [unfold room; by rewrite Ea|by apply (dir_at_view _ _ _ Ed)|done].
Qed.

Lemma dropped_view m pd n i : wf m -> Memfs.lookup m ROOT_IDX (pd ++ [n]) = Some i ->
  wf (drop_entry m i) /\ same (view (drop_entry m i)) (cut (view m) (pd ++ [n])).
Proof.
  intros W E. destruct (drop_entry_ok m pd n i W E) as (W' & L & F). split; [done|]. intros q. unfold view, cut. rewrite L. case_decide as Eq; [done|].
  destruct (Memfs.lookup m ROOT_IDX q) as [j|] eqn:Ej; [|done]. cbn [mbind option_bind]. destruct (lookup_found m q j W Ej) as [Hj _].
  rewrite (same_files_node _ _ _ _ F); [done|lia|]. intros ->. apply Eq. by rewrite (lookup_unique m q _ i W Ej E).
Qed.

Lemma children_dir m i : wf m -> 0 <= i < MAX_FILES -> f_dir (file m i) = false -> f_children (file m i) = [].
Proof.
  intros W Hi Hd. destruct (f_children (file m i)) as [|c l] eqn:E; [done|]. destruct (wf_child m W i c Hi) as (_ & Hd' & _); [rewrite E; by left|congruence].
Qed.

Lemma nonempty_len {A} (l : list A) : (0 <? len l) = negb (bool_decide (length l = 0%nat)).
Proof. destruct l; [done|]. rewrite len_cons. pose proof (len_nonneg l). rewrite (proj2 (Z.ltb_lt _ _)) by lia. done. Qed.

Lemma childless_len m p i : wf m -> Memfs.lookup m ROOT_IDX p = Some i ->
  (0 <? len (f_children (file m i))) = false <-> childless (view m) p.
Proof.
  intros W E. rewrite (childless_view m p i W E), nonempty_len, negb_false_iff, bool_decide_eq_true. apply length_zero_iff_nil.
Qed.

(** Removing the entry of the path, in unlink and rmdir. *)
Lemma drop_sim v p i o : wf (mem v) -> Memfs.lookup (mem v) ROOT_IDX p = Some i -> i <> ROOT_IDX ->
  (p <> [] -> tree_step (owner cur) (room (mem v)) (view (mem v)) o 0 (cut (view (mem v)) p)) ->
  exists m' r, (set_mem v (drop_entry (mem v) i), 0) = (set_mem v m', r) /\ wf m' /\
    exists t', tree_step (owner cur) (room (mem v)) (view (mem v)) o r t' /\ same (view m') t'.
Proof.
  intros W E Hr Hs. destruct p as [|n pd _] using rev_ind; [by injection E as <-|]. destruct (dropped_view (mem v) pd n i W E) as [W' S].
  eexists _, _. split; [done|]. split; [exact W'|]. eexists. split; [|exact S]. apply Hs. by destruct pd.
Qed.

Lemma stays_sim v o : wf (mem v) -> tree_step (owner cur) (room (mem v)) (view (mem v)) o (-1) (view (mem v)) ->
  exists m' r, (v, -1) = (set_mem v m', r) /\ wf m' /\ exists t', tree_step (owner cur) (room (mem v)) (view (mem v)) o r t' /\ same (view m') t'.
Proof. intros W Hs. exists (mem v), (-1). rewrite set_mem_same. split; [done|]. split; [done|]. by exists (view (mem v)). Qed.

Lemma root_path m p : wf m -> Memfs.lookup m ROOT_IDX p = Some ROOT_IDX -> p = [].
Proof. intros W E. by apply (lookup_unique m p [] ROOT_IDX). Qed.

Lemma unlink_sim v p : no_disk v -> fits p -> wf (mem v) -> simulated v (OUnlink p).
Proof.
  intros Hn [Hp _ Hr] W. unfold simulated, exec, vfs_unlink. rewrite absolute_render, resolve_render by done. cbn [negb].
  destruct (Memfs.lookup (mem v) ROOT_IDX p) as [i|] eqn:E.
  - destruct (Z.eqb_spec i ROOT_IDX) as [->|Hne]; [apply stays_sim; [done|]; apply T_unlink_no; left; by apply (root_path (mem v))|].
    pose proof (childless_len _ _ _ W E) as Hc. destruct (lookup_found (mem v) p i W E) as [Hi _].
    destruct (f_dir (file (mem v) i) && (0 <? len (f_children (file (mem v) i)))) eqn:Eb.
    + apply stays_sim; [done|]. apply T_unlink_no. right. right. intros Hl%Hc. by rewrite Hl, andb_false_r in Eb.
    + apply (drop_sim v p i _ W E Hne). intros Hpn. apply T_unlink; [done|by rewrite (view_some _ _ _ E)|]. apply Hc.
      destruct (f_dir (file (mem v) i)) eqn:Ed; [done|]. by rewrite (children_dir (mem v) i).
  - unfold routed in Hr. apply orb_false_iff in Hr as [_ Et]. rewrite Et. cbn [Z.eqb]. unfold fat32_covers, find_fat32_mount_for_path. rewrite find_mount_none by done. cbn [andb Z.eqb].
    rewrite on_ext2_none by done. apply stays_sim; [done|]. apply T_unlink_no. right. left. by apply view_none.
Qed.

Lemma rmdir_sim v p : no_disk v -> fits p -> wf (mem v) -> simulated v (ORmdir p).
Proof.
  intros Hn [Hp _ _] W. unfold simulated, exec, vfs_rmdir. rewrite absolute_render, resolve_render by done. cbn [negb].
  destruct (Memfs.lookup (mem v) ROOT_IDX p) as [i|] eqn:E.
  - destruct (Z.eqb_spec i ROOT_IDX) as [->|Hne]; [apply stays_sim; [done|]; apply T_rmdir_no; left; by apply (root_path (mem v))|].
    pose proof (childless_len _ _ _ W E) as Hc. destruct (f_dir (file (mem v) i)) eqn:Ed; cbn [negb].
    2: { apply stays_sim; [done|]. apply T_rmdir_no. right. left. by eapply not_dir_at. }
    destruct (0 <? len (f_children (file (mem v) i))) eqn:El.
    + apply stays_sim; [done|]. apply T_rmdir_no. right. right. by intros Hl%Hc.
    + apply (drop_sim v p i _ W E Hne). intros Hpn. apply T_rmdir; [done|by apply (dir_at_view _ _ _ E)|by apply Hc].
  - rewrite on_ext2_none by done. apply stays_sim; [done|]. apply T_rmdir_no. right. left. by apply not_dir_none, view_none.
Qed.

(** Views of a moved entry. *)
Lemma moved_view m m' (L : list (list Z) -> option Z) po qd nn :
  wf m -> (forall p, Memfs.lookup m ROOT_IDX p = L p) -> (forall p, Memfs.lookup m' ROOT_IDX p = moved L po qd nn p) ->
  (forall j, 0 <= j -> exists l n p, file m' j = with_place (with_children (file m j) l) n p) ->
  same (view m') (moved (view m) po qd nn).
Proof.
  intros W HL HL' Hf q.
  assert (Hv : forall p, (i ← L p; Some (node_of (file m' i))) = view m p).
  { intros p. unfold view. rewrite HL. destruct (L p) as [i|] eqn:E; [|done]. cbn [mbind option_bind]. rewrite <- HL in E. destruct (lookup_found m p i W E) as [Hi _].
    destruct (Hf i ltac:(lia)) as (l & n & p' & ->). done. }
  unfold view at 1. rewrite HL'. unfold moved. by repeat case_decide; rewrite ?Hv.
Qed.

Lemma prefix_longer {A} (l k : list A) x : ~ l ++ x :: k `prefix_of` l.
Proof. intros [r E]. apply (f_equal length) in E. rewrite !length_app in E. cbn in E. lia. Qed.

(** What is at the new path does not matter for where the old one goes. *)
Lemma moved_cut (t : tree) p qd nn : ~ qd ++ [nn] `prefix_of` p -> same (moved (cut t (qd ++ [nn])) p qd nn) (moved t p qd nn).
Proof.
  intros Hq r. unfold moved, cut. destruct (decide (p `prefix_of` qd)) as [Hp|Hp].
  - destruct (decide (p `prefix_of` r)) as [|Hr]; [done|]. rewrite decide_False; [done|]. intros Hqr. apply Hr.
    etransitivity; [|exact Hqr]. by apply prefix_app_r.
  - destruct (decide (qd ++ [nn] `prefix_of` r)) as [[k ->]|]; [|done]. rewrite drop_app_length. rewrite decide_False; [done|]. intros Hqp.
    destruct (prefix_weak_total _ _ _ Hqp (prefix_app_r _ _ _ (reflexivity p))) as [|[?|E]%prefix_last]; [done|done|]. by apply Hq; rewrite E.
Qed.

Lemma rename_over_sim m p qd nn old new d2 : wf m -> good_name nn -> p <> qd ++ [nn] -> old <> ROOT_IDX ->
  Memfs.lookup m ROOT_IDX p = Some old -> Memfs.lookup m ROOT_IDX qd = Some d2 -> f_dir (file m d2) = true ->
  Memfs.lookup m ROOT_IDX (qd ++ [nn]) = Some new ->
  (qd ++ [nn] `prefix_of` p -> f_dir (file m old) = false) ->
  exists m', reparent (drop_entry m new) old d2 nn (Some (new, file m new)) = (m', 0) /\ wf m' /\ same (view m') (moved (view m) p qd nn).
Proof.
  intros W Hn Hpq Hr Ep Eq Edir Enew Hfile. destruct (dropped_view m qd nn new W Enew) as [W1 V1]. destruct (drop_entry_ok m qd nn new W Enew) as (_ & L1 & F1).
  set (m1 := drop_entry m new) in *. destruct (lookup_found m qd d2 W Eq) as [Hd2 _].
  assert (Hd2n : d2 <> new) by (intros ->; apply (prefix_longer qd [] nn); pose proof (lookup_unique m qd _ new W Eq Enew) as Ex; by exists []; rewrite app_nil_r).
  assert (Eq1 : Memfs.lookup m1 ROOT_IDX qd = Some d2) by (rewrite L1; by rewrite decide_False by apply prefix_longer).
  assert (En1 : Memfs.lookup m1 ROOT_IDX (qd ++ [nn]) = None) by (rewrite L1; by rewrite decide_True).
  assert (Ed1 : f_dir (file m1 d2) = true) by (destruct (F1 d2 ltac:(lia) Hd2n) as [l ->]; done).
  destruct (decide (qd ++ [nn] `prefix_of` p)) as [Hin|Hout].
  - assert (Hold : old <> new) by (intros ->; apply Hpq; by apply (lookup_unique m p _ new W)). specialize (Hfile Hin).
    destruct p as [|nm pd _] using rev_ind; [by injection Ep as <-|]. destruct (lookup_name m pd nm old W Ep) as (d & Edd & Hd & Hdin & Hnm & Hpar & Hi & _).
    destruct (F1 old ltac:(lia) Hold) as [lo Eo]. destruct (lookup_found m _ old W Ep) as [_ Hoe].
    destruct (reparent_unreached m1 old qd d2 nn (Some (new, file m new)) W1 Hi Hr) as (m' & E & W' & L' & F'); try done.
    + by rewrite Eo.
    + apply children_dir; [done|done|by rewrite Eo].
    + rewrite Eo. cbn. by rewrite Hpar.
    + intros p' E'. rewrite L1 in E'. case_decide as Ec; [done|]. apply Ec. by rewrite (lookup_unique m p' _ old W E' Ep).
    + intros x Hx Hxin. by destruct (wf_child m1 W1 x old Hx Hxin) as (_ & _ & _ & _ & ? & _).
    + exists m'. split; [exact E|]. split; [done|]. intros r. unfold moved. rewrite decide_False.
      2: { intros Hc. apply (prefix_longer qd [] nn). by etransitivity. }
      unfold view at 1. rewrite L'. assert (Hnode : forall j, 0 <= j -> j <> new -> node_of (file m' j) = node_of (file m j)).
      { intros j Hj Hne. destruct (F' j Hj) as (l & n & p' & ->). destruct (F1 j Hj Hne) as [l' ->]. done. }
      case_decide as Er.
      * subst r. rewrite decide_True by done. rewrite drop_ge, app_nil_r, (view_some _ _ _ Ep) by done. cbn [mbind option_bind]. by rewrite Hnode by lia.
      * rewrite L1. case_decide as Erq.
        { destruct Erq as [k ->]. rewrite drop_app_length. symmetry. apply view_none. rewrite lookup_app, Ep. cbn [mbind option_bind].
          destruct k as [|x k]; [by rewrite app_nil_r in Er|]. cbn [Memfs.lookup]. by rewrite find_child_none by (done || by apply children_dir). }
        rewrite decide_False; [|intros Hc; apply Erq; by etransitivity]. unfold view. destruct (Memfs.lookup m ROOT_IDX r) as [j|] eqn:Ej; [|done]. cbn [mbind option_bind].
        destruct (lookup_found m r j W Ej). rewrite Hnode; [done|lia|]. intros ->. apply Erq. by rewrite (lookup_unique m r _ new W Ej Enew).
  - destruct p as [|nm pd _] using rev_ind; [by injection Ep as <-|].
    assert (Ep1 : Memfs.lookup m1 ROOT_IDX (pd ++ [nm]) = Some old) by (rewrite L1; by rewrite decide_False).
    destruct (reparent_ok m1 pd nm old qd d2 nn (Some (new, file m new)) W1 Ep1 Eq1 Ed1 En1 Hn) as (m' & E & W' & L' & F').
    exists m'. split; [exact E|]. split; [done|]. intros r. rewrite (moved_view m1 m' (Memfs.lookup m1 ROOT_IDX) _ _ _ W1 (fun _ => eq_refl) L' F' r).
    rewrite <- (moved_cut (view m)) by done. unfold moved. by repeat case_decide; rewrite ?V1.
Qed.

Lemma rename_sim v p q : no_disk v -> fits p -> fits q -> wf (mem v) -> simulated v (ORename p q).
Proof.
  intros Hn [Hp _ _] [Hq Hlen _] W. unfold simulated, exec, vfs_rename. rewrite !absolute_render, resolve_render by done. cbn [negb orb].
  case_bool_decide as Epq; [apply render_inj in Epq as ->; [|done|done]; exists (mem v), 0; rewrite set_mem_same; split; [done|]; split; [done|]; exists (view (mem v)); split; [apply T_rename_same|done]|].
  assert (Hne : p <> q) by (by intros ->). clear Epq.
  destruct (Memfs.lookup (mem v) ROOT_IDX p) as [old|] eqn:Ep.
  2: { rewrite on_ext2_none by done. apply stays_sim; [done|]. apply T_rename_no; [done|]. right. left. by apply view_none. }
  set (m := mem v) in *.
  assert (Hno : forall o, rename_mem cur m old (render q) = (m, -1) -> tree_step (owner cur) (room m) (view m) o (-1) (view m) ->
    exists m' r, (let '(m0, r0) := rename_mem cur m old (render q) in (set_mem v m0, r0)) = (set_mem v m', r) /\ wf m' /\
      exists t', tree_step (owner cur) (room m) (view m) o r t' /\ same (view m') t').
  { intros o -> Hs. unfold m. rewrite set_mem_same. by apply stays_sim. }
  destruct (Z.eqb_spec old ROOT_IDX) as [->|Hr].
  { apply Hno; [done|]. apply T_rename_no; [done|]. left. by apply (root_path m). }
  assert (Hpn : p <> []) by (intros ->; injection Ep as <-; done).
  assert (E1 : (old =? ROOT_IDX) = false) by (by apply Z.eqb_neq).
  destruct q as [|nn qd _] using rev_ind.
  { apply Hno; [unfold rename_mem; by rewrite E1|]. apply T_rename_no; [done|]. right. right. by left. }
  pose proof Hq as Hq0. apply Forall_app in Hq as [Hqd Hnn]. inversion Hnn as [|? ? Hg _]; subst.
  unfold rename_mem in *. rewrite E1, split_render, resolve_render in * by done.
  assert (Hqno : ~ dir_at (view m) qd -> tree_step (owner cur) (room m) (view m) (ORename p (qd ++ [nn])) (-1) (view m)).
  { intros Hd. apply T_rename_no; [done|]. right. right. right. left. by exists qd, nn. }
  destruct (Memfs.lookup m ROOT_IDX qd) as [d2|] eqn:Eq; cbn [mbind option_bind] in *; [|apply Hno; [done|]; by apply Hqno, not_dir_none, view_none].
  destruct (f_dir (file m d2)) eqn:Ed2; cbn [negb] in *; [|apply Hno; [done|]; apply Hqno; by eapply not_dir_at].
  destruct (dir_at_view m p old Ep) as [Pd Pf]. destruct (dir_at_view m qd d2 Eq) as [Qd _]. specialize (Qd Ed2).
  assert (Hpv : view m p <> None) by (by rewrite (view_some _ _ _ Ep)).
  destruct (Memfs.lookup m ROOT_IDX (qd ++ [nn])) as [new|] eqn:En.
  2: { destruct p as [|nm pd _] using rev_ind; [done|]. destruct (reparent_ok m pd nm old qd d2 nn None W Ep Eq Ed2 En Hg) as (m' & -> & W' & L' & F').
       exists m', 0. split; [done|]. split; [done|]. eexists. split; [|by apply (moved_view m m' _ _ _ _ W (fun _ => eq_refl) L' F')].
       apply T_rename; try done. left. by apply view_none. }
  assert (Hnr : (new =? ROOT_IDX) = false) by (apply Z.eqb_neq; intros ->; apply (root_path m) in En; [by destruct qd|done]). rewrite Hnr in *.
  destruct (dir_at_view m _ new En) as [Nd Nf]. pose proof (childless_len m _ new W En) as Hcl.
  destruct (f_dir (file m old)) eqn:Edo; cbn [andb] in *.
  - destruct (f_dir (file m new)) eqn:Edn; cbn [negb andb] in *.
    2: { apply Hno; [done|]. apply T_rename_no; [done|]. right. right. right. right. left. split; [by apply Pd|by apply Nf]. }
    destruct (0 <? len (f_children (file m new))) eqn:El.
    { apply Hno; [done|]. apply T_rename_no; [done|]. do 5 right. split; [by apply Pd|]. split; [by rewrite (view_some _ _ _ En)|]. by intros Hc%Hcl. }
    destruct (rename_over_sim m p qd nn old new d2 W Hg Hne Hr Ep Eq Ed2 En) as (m' & -> & W' & S).
    { intros [k Ek]. exfalso. destruct k as [|x k]; [by rewrite app_nil_r in Ek|]. pose proof (proj1 Hcl eq_refl x) as Hx. apply view_none in Hx.
      rewrite Ek in Ep. change (x :: k) with ([x] ++ k) in Ep. by rewrite app_assoc, lookup_prefix_none in Ep. }
    exists m', 0. split; [done|]. split; [done|]. eexists. split; [|exact S]. apply T_rename; try done. right. right. split; [by apply Pd|]. split; [by apply Nd|by apply Hcl].
  - destruct (rename_over_sim m p qd nn old new d2 W Hg Hne Hr Ep Eq Ed2 En) as (m' & -> & W' & S); [done|].
    exists m', 0. split; [done|]. split; [done|]. eexists. split; [|exact S]. apply T_rename; try done. right. left. by apply Pf.
Qed.

(** ** Runs *)

Definition op_fits (o : op) : Prop :=
  match o with
  | OCreat p _ | OMkdir p _ | OUnlink p | ORmdir p | OChmod p _ | OChown p _ _ => fits p
  | ORename p q => fits p /\ fits q
  end.

Lemma exec_sim v o : no_disk v -> op_fits o -> wf (mem v) -> simulated v o.
Proof.
  intros Hn Ho W. destruct o; cbn [op_fits] in Ho.
  - by apply creat_sim.
  - by apply mkdir_sim.
  - by apply unlink_sim.
  - by apply rmdir_sim.
  - destruct Ho. by apply rename_sim.
  - by apply chmod_sim.
  - by apply chown_sim.
Qed.

(** The results of the calls, each with whether a slot was free before it. *)
Fixpoint run v (ops : list op) : vfs * list (bool * Z) :=
  match ops with
  | [] => (v, [])
  | o :: ops => let '(v', r) := exec v o in let '(v'', rs) := run v' ops in (v'', (room (mem v), r) :: rs)
  end.

Inductive tree_run (own : Z * Z) : tree -> list op -> list (bool * Z) -> tree -> Prop :=
  | run_nil t t' : same t' t -> tree_run own t [] [] t'
  | run_cons t t1 t2 t' o ops free r rs : tree_step own free t o r t1 -> same t2 t1 -> tree_run own t2 ops rs t' ->
      tree_run own t (o :: ops) ((free, r) :: rs) t'.

(** The tree of one empty directory. *)
Definition root_tree : tree := fun p => if decide (p = []) then Some (mkNode true (Z.lor S_IFDIR 0x1ED) 0 0 []) else None.

Lemma init_ok v : wf (mem (vfs_init v)) /\ no_disk (vfs_init v) /\ same (view (mem (vfs_init v))) root_tree.
Proof.
  set (root := mkFile [SLASH] (replicate (Z.to_nat MAX_FILE_SIZE) 0) 0 true (Z.lor S_IFDIR 0x1ED) 0 0 true (-1) []). set (m := mem (vfs_init v)).
  assert (Hf : forall i, 0 <= i < MAX_FILES -> file m i = if decide (ROOT_IDX = i) then root else zero_file).
  { intros i Hi. change (file m i) with ((replicate (Z.to_nat MAX_FILES) zero_file).[ROOT_IDX <- root].[i]). unfold MAX_FILES in *.
    rewrite geti_seti by (unfold ROOT_IDX, len; rewrite ?length_replicate; lia). case_decide; [done|]. by rewrite geti_replicate by lia. }
  assert (Hc : forall i, 0 <= i < MAX_FILES -> f_children (file m i) = []) by (intros i Hi; rewrite Hf by done; by case_decide).
  assert (W : wf m).
  { constructor.
    - split; [|split]; [change (len (replicate (Z.to_nat MAX_FILES) zero_file).[ROOT_IDX <- root] = MAX_FILES); by rewrite len_seti|done|done].
    - rewrite Hf by done. by rewrite decide_True.
    - intros d c Hd. by rewrite Hc.
    - intros d Hd. rewrite Hc by done. constructor.
    - intros d c c' Hd. by rewrite Hc. }
  split; [exact W|]. split; [constructor|]. intros p. unfold root_tree. case_decide as E.
  - subst p. unfold view. cbn [Memfs.lookup mbind option_bind]. rewrite Hf by done. by rewrite decide_True.
  - apply view_none. destruct p as [|n p]; [done|]. cbn [Memfs.lookup]. by rewrite find_child_none by (done || by apply Hc).
Qed.

Lemma run_sim v ops t : no_disk v -> Forall op_fits ops -> wf (mem v) -> same (view (mem v)) t ->
  let '(v', rs) := run v ops in wf (mem v') /\ no_disk v' /\ tree_run (owner cur) (view (mem v)) ops rs (view (mem v')).
Proof.
  intros Hn Ho. revert v t Hn. induction Ho as [|o ops Hop Ho IH]; intros v t Hn W Ht; cbn [run].
  { split; [done|]. split; [done|]. by constructor. }
  destruct (exec_sim v o Hn Hop W) as (m' & r & -> & W' & t' & Hs & St). specialize (IH (set_mem v m') t' Hn W' St).
  destruct (run (set_mem v m') ops) as [v'' rs]. destruct IH as (W'' & Hn' & Hr). split; [done|]. split; [done|]. by econstructor.
Qed.

(** C35: Over any sequence of open with O_CREAT, mkdir, unlink, rmdir, rename, chmod and
    chown on paths of names, the 64 slots, their lists of children and the resolver are
    one tree of nodes: each call returns what the tree's rules say and changes the tree
    by them alone, and a call fails for lack of room only when no slot is free.  The
    rules are those of the code: a file created below a file is lost, a file replaces a
    directory with all that is in it, and a directory moved below itself is gone. *)
Theorem vfs_refines_tree v0 ops :
  Forall op_fits ops ->
  let '(v, rs) := run (vfs_init v0) ops in
  exists t, same t root_tree /\ tree_run (owner cur) t ops rs (view (mem v)) /\ wf (mem v).
Proof.
  intros Ho. destruct (init_ok v0) as (W & Hn & Hs). pose proof (run_sim (vfs_init v0) ops _ Hn Ho W Hs) as R.
  destruct (run (vfs_init v0) ops) as [v rs]. destruct R as (W' & _ & Hr). by exists (view (mem (vfs_init v0))).
Qed.

(** ** Contents *)

(** A descriptor of a file of the table, with its file, position and flags. *)
Record opened v (fd off : Z) (f : mem_file) : Prop := {
  op_range : 3 <= fd < 3 + MAX_FILES;
  op_file : file (mem v) (fd - 3) = f /\ f_exists f = true /\ f_dir f = false;
  op_data : len (f_data f) = MAX_FILE_SIZE;
  op_size : 0 <= f_size f <= MAX_FILE_SIZE;
  op_off : off = if has (fs_flags (mem v)).[fd - 3] O_APPEND then f_size f else (fs_offsets (mem v)).[fd - 3];
}.

Lemma memfs_fd fd : 3 <= fd < 3 + MAX_FILES ->
  VFS_FD_IS_TMPFS fd = false /\ VFS_FD_IS_PROCFS fd = false /\ VFS_FD_IS_DEVFS fd = false /\ VFS_FD_IS_EXT2 fd = false /\ VFS_FD_IS_FAT32 fd = false.
Proof.
  unfold VFS_FD_IS_TMPFS, VFS_FD_IS_PROCFS, VFS_FD_IS_DEVFS, VFS_FD_IS_EXT2, VFS_FD_IS_FAT32, MAX_FILES, TMPFS_FD_BASE, PROCFS_FD_BASE, DEVFS_FD_BASE. intros Hf.
  rewrite !(proj2 (Z.leb_gt _ _)) by lia. done.
Qed.

(** A write that ends within the array, and one that does not. *)
Lemma put_bytes_ok f off bytes : len (f_data f) = MAX_FILE_SIZE -> 0 <= off -> 0 < len bytes <= MAX_FILE_SIZE -> off < MAX_FILE_SIZE ->
  let n := Z.min (len bytes) (MAX_FILE_SIZE - off) in
  put_bytes f off (len bytes) bytes =
    Some (Some (with_contents f (splice (f_data f) off (take (Z.to_nat n) bytes)) (Z.max (f_size f) (off + len bytes)), n)).
Proof.
  intros Hd Ho Hl Hm. unfold put_bytes, copy_in. unfold MAX_FILE_SIZE in *. rewrite (proj2 (Z.ltb_ge 65536 (len bytes))) by lia.
  rewrite (wrap_small 64 (off + len bytes)) by lia. cbv zeta.
  assert (Es : (if f_size f <? off + len bytes then off + len bytes else f_size f) = Z.max (f_size f) (off + len bytes)) by (destruct (Z.ltb_spec (f_size f) (off + len bytes)); lia).
  destruct (Z.ltb_spec 65536 (off + len bytes)).
  - rewrite (wrap_small 64 (65536 - off)) by lia. rewrite (proj2 (Z.eqb_neq (65536 - off) 0)) by lia. cbn [andb].
    rewrite (proj2 (Z.ltb_ge 65536 (off + (65536 - off)))) by lia. cbn [mbind option_bind]. rewrite Es, Z.min_r by lia. done.
  - cbn [andb]. rewrite (proj2 (Z.ltb_ge 65536 (off + len bytes))) by lia. cbn [mbind option_bind]. rewrite Es, Z.min_l by lia. done.
Qed.

Lemma vfs_write_file v fd off f bytes : wf (mem v) -> opened v fd off f -> 0 <= off < MAX_FILE_SIZE -> 0 < len bytes <= MAX_FILE_SIZE ->
  let n := Z.min (len bytes) (MAX_FILE_SIZE - off) in
  let f' := with_contents f (splice (f_data f) off (take (Z.to_nat n) bytes)) (Z.max (f_size f) (off + len bytes)) in
  vfs_write v fd bytes (len bytes) = Some (set_mem v (set_offset (set_file (mem v) (fd - 3) f') (fd - 3) (off + n)), n).
Proof.
  intros W [Hfd (Hf & He & Hdir) Hd Hs Eo] Ho Hl. destruct (memfs_fd fd Hfd) as (E1 & E2 & E3 & E4 & E5). unfold vfs_write. rewrite E1, E2, E3, E4, E5. cbv zeta.
  unfold bad_idx. rewrite (proj2 (in_range_ok (fd - 3))) by (unfold MAX_FILES in *; lia). rewrite Hf, He, Hdir. cbn [negb orb]. rewrite <- Eo.
  rewrite put_bytes_ok by (done || lia). cbn [mbind option_bind]. unfold MAX_FILE_SIZE in *. rewrite swrap_small, wrap_small by lia. done.
Qed.

(** C36: A write of at most 65536 bytes at the position of a file puts them there, up to the
    end of the array, and returns their number.  When it ends within the array the
    bytes read back at that offset, no other byte of the file and no other file changes.
    When it does not, the size still becomes offset plus count, more than the array
    has: the next read of the whole file leaves the array. *)
Theorem vfs_write_read v fd off f bytes :
  wf (mem v) -> opened v fd off f -> 0 <= off < MAX_FILE_SIZE -> 0 < len bytes <= MAX_FILE_SIZE ->
  exists v', vfs_write v fd bytes (len bytes) = Some (v', Z.min (len bytes) (MAX_FILE_SIZE - off)) /\
    (off + len bytes <= MAX_FILE_SIZE ->
      vfs_read_at v' fd (len bytes) off = Some (v', len bytes, bytes) /\
      f_size (file (mem v') (fd - 3)) = Z.max (f_size f) (off + len bytes) /\
      (forall i, 0 <= i < MAX_FILE_SIZE -> ~ off <= i < off + len bytes -> (f_data (file (mem v') (fd - 3))).[i] = (f_data f).[i]) /\
      (forall j, 0 <= j -> j <> fd - 3 -> file (mem v') j = file (mem v) j)) /\
    (MAX_FILE_SIZE < off + len bytes ->
      f_size (file (mem v') (fd - 3)) = off + len bytes /\ vfs_read_at v' fd (off + len bytes) 0 = None).
Proof.
  intros W Hop Ho Hl. rewrite (vfs_write_file v fd off f bytes W Hop Ho Hl). destruct Hop as [Hfd (Hf & He & Hdir) Hd Hs Eo]. set (n := Z.min _ _).
  set (f' := with_contents f _ _). eexists. split; [done|]. assert (Hi : 0 <= fd - 3 < MAX_FILES) by lia.
  assert (Hfile : forall j, 0 <= j -> file (mem (set_mem v (set_offset (set_file (mem v) (fd - 3) f') (fd - 3) (off + n)))) j = if decide (fd - 3 = j) then f' else file (mem v) j).
  { intros j Hj. exact (file_set (mem v) (fd - 3) j f' W Hi Hj). }
  assert (Hself : file (mem (set_mem v (set_offset (set_file (mem v) (fd - 3) f') (fd - 3) (off + n)))) (fd - 3) = f') by (rewrite Hfile by lia; by rewrite decide_True).
  set (v' := set_mem v _) in *. destruct (memfs_fd fd Hfd) as (E1 & E2 & E3 & E4 & E5).
  assert (Hread : forall count o, vfs_read_at v' fd count o =
    if f_size f' <=? u64 o then Some (v', 0, [])
    else let to_read := if f_size f' - u64 o <? count then f_size f' - u64 o else count in bytes ← copy_out f' (u64 o) to_read; Some (v', s64 to_read, bytes)).
  { intros count o. unfold vfs_read_at. rewrite E1, E2, E3, E4, E5. cbv zeta. unfold bad_idx. rewrite (proj2 (in_range_ok (fd - 3)) Hi), Hself. unfold f' at 1 2. cbn [f_exists f_dir with_contents]. by rewrite He, Hdir. }
  assert (Hsz : f_size f' = Z.max (f_size f) (off + len bytes)) by done. unfold MAX_FILE_SIZE in *. split; intros Hend.
  - assert (En : n = len bytes) by (unfold n; lia). split; [|split; [by rewrite Hself|split]].
    + rewrite Hread, Hsz, wrap_small by lia. rewrite (proj2 (Z.leb_gt _ off)) by lia. rewrite (proj2 (Z.ltb_ge _ (len bytes))) by lia. cbv zeta.
      unfold copy_out, MAX_FILE_SIZE. rewrite (proj2 (Z.ltb_ge 65536 _)) by lia. cbn [mbind option_bind]. rewrite swrap_small by lia. do 2 f_equal.
      unfold f'. cbn [f_data with_contents]. rewrite En, take_ge by (unfold len; lia). apply slice_splice; lia.
    + intros i Hi' Hout. rewrite Hself. unfold f'. cbn [f_data with_contents]. rewrite En, take_ge by (unfold len; lia). rewrite geti_splice by lia. by rewrite decide_False by lia.
    + intros j Hj Hne. rewrite Hfile by done. by rewrite decide_False by congruence.
  - split; [rewrite Hself, Hsz; lia|]. rewrite Hread, Hsz, Z.max_r by lia. rewrite wrap_small by lia. rewrite (proj2 (Z.leb_gt _ 0)), Z.sub_0_r, (proj2 (Z.ltb_ge _ _)) by lia.
    cbv zeta. unfold copy_out, MAX_FILE_SIZE. by rewrite (proj2 (Z.ltb_lt 65536 _)) by lia.
Qed.
End refinement.

(** ** Examples *)

(** A machine without other file systems. *)
#[export] Instance no_others : Mounted unit := {
  procfs_open d _ := (d, -1); procfs_close d _ := (d, -1); procfs_read d _ _ := (d, -1, []);
  devfs_open d _ := (d, -1); devfs_close d _ := (d, -1); devfs_read d _ _ := (d, -1, []); devfs_write d _ _ _ := (d, -1);
  ext2_is_mounted _ := false; ext2_is_writable _ := false; ext2_mount d := (d, false);
  ext2_open_file d _ := (d, -1); ext2_close_file d _ := (d, -1); ext2_read_fd d _ _ := (d, -1, []); ext2_write_fd d _ _ _ := (d, -1);
  ext2_read_at d _ _ _ := (d, -1, []); ext2_write_at d _ _ _ _ := (d, -1); ext2_readdir d _ e := (d, -1, e);
  ext2_stat_file d _ := (d, -1, mkStat 0 0 0 0); ext2_lseek d _ _ _ := (d, -1); ext2_create_file d _ _ := (d, 0); ext2_mkdir d _ _ := (d, 0);
  ext2_unlink d _ := (d, -1); ext2_get_inode_mode d _ := (d, 0); ext2_read_file d _ _ := (d, -1, []); ext2_write_file d _ _ := (d, -1);
  fat32_is_mounted _ := false; fat32_shim_open d _ := (d, -1); fat32_shim_close d _ := (d, -1); fat32_shim_read d _ _ := (d, -1, []);
  fat32_shim_write d _ _ _ := (d, -1); fat32_shim_read_at d _ _ _ := (d, -1, []); fat32_shim_readdir d _ e := (d, -1, e);
  fat32_shim_stat d _ := (d, -1, mkStat 0 0 0 0); fat32_shim_lseek d _ _ _ := (d, -1); fat32_unlink d _ := (d, -1);
}.

Definition demo_vfs : @vfs unit := mkVfs (mkMemfs [] [] [] 0) [] (mkTmpfs [] []) tt.
Definition A_ : list Z := [97].
Definition B_ : list Z := [98].
Definition F_ : list Z := [102].

(** mkdir /a, creat /a/f, rename /a to /b, rmdir /b (not empty), unlink /b/f, rmdir /b, mkdir /f/a (no /f). *)
Definition demo_ops : list op :=
  [OMkdir [A_] 0; OCreat [A_; F_] 0; ORename [A_] [B_]; ORmdir [B_]; OUnlink [B_; F_]; ORmdir [B_]; OMkdir [F_; A_] 0].

Lemma fits_demo : Forall op_fits demo_ops.
Proof.
  assert (Hn : good_name A_ /\ good_name B_ /\ good_name F_) by (split; [|split]; (constructor; [discriminate|vm_compute; discriminate|repeat constructor; discriminate|discriminate|discriminate])).
  destruct Hn as (Ha & Hb & Hf). repeat constructor; try assumption; try (vm_compute; discriminate).
Qed.

Lemma vfs_refines_tree_witness :
  snd (run None (vfs_init demo_vfs) demo_ops) = [(true, 0); (true, 0); (true, 0); (true, -1); (true, 0); (true, 0); (true, -1)] /\
  exists t (v : @vfs unit), same t root_tree /\ tree_run (0, 0) t demo_ops (snd (run None (vfs_init demo_vfs) demo_ops)) (view (mem v)).
Proof.
  split; [vm_compute; reflexivity|]. pose proof (vfs_refines_tree None I demo_vfs demo_ops fits_demo) as R.
  destruct (run None (vfs_init demo_vfs) demo_ops) as [v rs]. destruct R as (t & Ht & Hr & _). exists t, v. split; [exact Ht|exact Hr].
Defined.

(** creat /f: descriptor 4 *)
Definition demo_open : @vfs unit := fst (run None (vfs_init demo_vfs) [OCreat [F_] 0]).

Lemma demo_open_wf : wf (mem demo_open).
Proof.
  assert (Ho : Forall op_fits [OCreat [F_] 0]).
  { constructor; [|constructor]. constructor; [|vm_compute; discriminate|reflexivity]. constructor; [|constructor].
    constructor; [discriminate|vm_compute; discriminate|repeat constructor; discriminate|discriminate|discriminate]. }
  destruct (init_ok demo_vfs) as (W & Hn & Hs). pose proof (run_sim None I (vfs_init demo_vfs) _ _ Hn Ho W Hs) as R. unfold demo_open.
  destruct (run None (vfs_init demo_vfs) [OCreat [F_] 0]) as [v rs]. apply R.
Qed.

Lemma vfs_write_read_witness : exists v', vfs_write demo_open 4 [1; 2; 3] 3 = Some (v', 3) /\ vfs_read_at v' 4 3 0 = Some (v', 3, [1; 2; 3]).
Proof.
  destruct (vfs_write_read demo_open 4 0 (file (mem demo_open) 1) [1; 2; 3] demo_open_wf) as (v' & E & R & _).
  - constructor; [vm_compute; split; congruence| |vm_compute; reflexivity|vm_compute; split; congruence|vm_compute; reflexivity].
    split; [exact (eq_refl (file (mem demo_open) 1))|]. split; vm_compute; reflexivity.
  - vm_compute; split; congruence.
  - vm_compute; split; congruence.
  - exists v'. split; [exact E|]. apply R. vm_compute. discriminate.
Defined.

(** An image with the file "/a/f" of the bytes 1, 2, 3: "a" is made a directory. *)
Definition demo_image : list Z := [1; 0; 0; 0] ++ [47; 97; 47; 102] ++ replicate 60 0 ++ [3; 0; 0; 0] ++ [1; 2; 3].

Example initrd_demo :
  (v ← initrd_load [] demo_image (vfs_init demo_vfs);
   i ← vfs_resolve_path None v [47; 97; 47; 102];
   '(_, n, bytes) ← vfs_read v (i + 3) 10;
   Some (i, n, bytes)) = Some (2, 3, [1; 2; 3]).
Proof. vm_compute. reflexivity. Qed.
