(* ===== verification/Fat32.v ===== *)
(** * The FAT32 file system: kernel/fs/fat32.c

    The disk is a parameter: [BlockDev] is the pair of function pointers.  A result
    below 0 of fat32_read_fn is [None]; the bytes come with any other result.  A
    function that leaves one of its arrays, divides by 0 or loops for ever has no result
    ([None]); the sector buffers are filled before each use, so they are values here.
    [fuel] bounds the loops over chains that nothing else bounds. *)

From S2P Require Import Prelude.

Class BlockDev (D : Type) := {
  blk_read : D -> Z -> Z -> option (list Z);
  blk_write : D -> Z -> list Z -> D * bool;
}.

Definition FAT32_MAX_FILES : Z := 64.

Record fat32_bpb := mkBpb {
  bytes_per_sector : Z; sectors_per_cluster : Z; reserved_sectors : Z; fat_offset : Z; data_offset : Z;
  root_cluster : Z; cluster_size : Z; total_clusters : Z; fat_size_sectors : Z }.

Record fat32_dirent := mkDe { de_name : list Z; de_attr : Z; de_cluster : Z; de_size : Z; de_dir : bool }.

(** Words in a buffer. *)
Definition get16 (b : list Z) (p : Z) : Z := b.[p] + b.[p + 1] * 0x100.
Definition get32 (b : list Z) (p : Z) : Z := b.[p] + b.[p + 1] * 0x100 + b.[p + 2] * 0x10000 + b.[p + 3] * 0x1000000.
Definition put32 (v : Z) : list Z := [v mod 0x100; v / 0x100 mod 0x100; v / 0x10000 mod 0x100; v / 0x1000000 mod 0x100].

(** "cluster >= 2 && cluster < 0x0FFFFFF8" *)
Definition in_chain (cluster : Z) : bool := (2 <=? cluster) && (cluster <? 0x0FFFFFF8).

(** ** Directory entries *)

Fixpoint cstr (l : list Z) : list Z := match l with c :: l => if c =? 0 then [] else c :: cstr l | [] => [] end.
Fixpoint until (stop : Z) (l : list Z) : list Z := match l with c :: l => if c =? stop then [] else c :: until stop l | [] => [] end.

(** strchr: what follows the first [stop], if there is one. *)
Fixpoint after (stop : Z) (l : list Z) : option (list Z) := match l with c :: l => if c =? stop then Some l else after stop l | [] => None end.

Definition parse_dirent (raw : list Z) : Z + fat32_dirent :=
  if raw.[0] =? 0 then inl (-1)
  else if raw.[0] =? 0xE5 then inl (-2)
  else if raw.[11] =? 0x0F then inl (-3)
  else
    let base := until 32 (take 8 raw) in
    let ext := until 32 (slice raw 8 3) in
    let name := if raw.[8] =? 32 then base else base ++ 46 :: ext in
    let cluster := Z.lor (Z.lor (Z.lor (Z.shiftl raw.[20] 16) (u32 (Z.shiftl raw.[21] 24))) raw.[26]) (Z.shiftl raw.[27] 8) in
    let size := Z.lor (Z.lor (Z.lor raw.[28] (Z.shiftl raw.[29] 8)) (Z.shiftl raw.[30] 16)) (u32 (Z.shiftl raw.[31] 24)) in
    inr (mkDe (cstr name) raw.[11] cluster size (negb (Z.land raw.[11] 0x10 =? 0))).

Definition pad (n : nat) (l : list Z) : list Z := take n l ++ replicate (n - length l) 32.

Definition format_83_name (name : list Z) : list Z :=
  match after 46 name with
  | Some ext => pad 8 (until 46 name) ++ pad 3 ext
  | None => pad 8 name ++ replicate 3 32
  end.

Definition build_raw_entry (de : fat32_dirent) : list Z :=
  let byte v i := Z.land (Z.shiftr v i) 0xFF in
  format_83_name (de_name de) ++
  [de_attr de; 0; 0; 0x00; 0x60; 0x21; 0x46; 0x21; 0x46;
   byte (de_cluster de) 16; byte (de_cluster de) 24; 0x00; 0x60; 0x21; 0x46;
   byte (de_cluster de) 0; byte (de_cluster de) 8;
   byte (de_size de) 0; byte (de_size de) 8; byte (de_size de) 16; byte (de_size de) 24].

(** The entries of a buffer, at most [max]. *)
Fixpoint parse_entries (n : nat) (buf : list Z) (off max : Z) : list fat32_dirent :=
  match n with
  | O => []
  | S n =>
      if (len buf <? off + 32) || (max <=? 0) then []
      else
        let entry := slice buf off 32 in
        if entry.[0] =? 0 then []
        else if (entry.[0] =? 0xE5) || (entry.[11] =? 0x0F) || negb (Z.land entry.[11] 8 =? 0) then parse_entries n buf (off + 32) max
        else
          match parse_dirent entry with
          | inr de => de :: parse_entries n buf (off + 32) (max - 1)
          | inl _ => parse_entries n buf (off + 32) max
          end
  end.
Definition parse_dir_entries (buf : list Z) (max : Z) : list fat32_dirent := parse_entries (length buf) buf 0 max.

Section fat32.
Context {D : Type} `{BlockDev D}.

Record fat32 := mkFat { dev : D; writable : bool; bpb : fat32_bpb; num_fats : Z; mounted : bool }.

Definition set_dev (s : fat32) (d : D) : fat32 := mkFat d (writable s) (bpb s) (num_fats s) (mounted s).

(** ** Sectors *)

Definition read_sectors (s : fat32) (lba count : Z) : option (list Z) := blk_read (dev s) lba count.
Definition read_sector (s : fat32) (lba : Z) : option (list Z) := read_sectors s lba 1.

Definition write_sectors (s : fat32) (lba : Z) (data : list Z) : fat32 * Z :=
  if negb (writable s) then (s, -1)
  else let '(d, ok) := blk_write (dev s) lba data in (set_dev s d, if ok then 0 else -1).

(** ** The FAT *)

Definition fat_byte (s : fat32) (cluster : Z) : Z := u32 (fat_offset (bpb s) + cluster * 4).

Definition fat_get (s : fat32) (cluster : Z) : Z :=
  if cluster <? 2 then 0x0FFFFFFF
  else
    match read_sector s (fat_byte s cluster / 512) with
    | None => 0x0FFFFFFF
    | Some buf => Z.land (get32 buf (fat_byte s cluster mod 512)) 0x0FFFFFFF
    end.

Definition fat_set (s : fat32) (cluster value : Z) : fat32 * Z :=
  if (cluster <? 2) || negb (writable s) then (s, -1)
  else
    let fat_sec := fat_byte s cluster / 512 in
    match read_sector s fat_sec with
    | None => (s, -1)
    | Some buf =>
        let buf := splice buf (fat_byte s cluster mod 512) (put32 value) in
        let '(s, r) := write_sectors s fat_sec buf in
        if r <? 0 then (s, -1)
        else if (2 <=? num_fats s) && (0 <? fat_size_sectors (bpb s)) then
          (fst (write_sectors s (u32 (fat_sec + fat_size_sectors (bpb s))) buf), 0)
        else (s, 0)
    end.

(** The free entries of one sector of the FAT. *)
Fixpoint alloc_entries (n : nat) (total : Z) (buf : list Z) (i cluster_base : Z) : option Z :=
  match n with
  | O => None
  | S n =>
      let cluster := u32 (cluster_base + i) in
      if u32 (2 + total) <=? cluster then None
      else if Z.land (get32 buf (i * 4)) 0x0FFFFFFF =? 0 then Some cluster
      else alloc_entries n total buf (i + 1) cluster_base
  end.

Fixpoint alloc_scan (n : nat) (s : fat32) (sec fat_start_sec : Z) : option Z :=
  match n with
  | O => None
  | S n =>
      match read_sector s sec with
      | None => alloc_scan n s (sec + 1) fat_start_sec
      | Some buf =>
          match alloc_entries 128 (total_clusters (bpb s)) buf 0 (u32 ((sec - fat_start_sec) * 128 + 2)) with
          | Some cluster => Some cluster
          | None => alloc_scan n s (sec + 1) fat_start_sec
          end
      end
  end.

Definition fat32_alloc_cluster (s : fat32) : fat32 * Z :=
  if negb (writable s) then (s, 0)
  else
    let fat_start_sec := fat_offset (bpb s) / 512 in
    let fat_end_sec := u32 (fat_start_sec + fat_size_sectors (bpb s)) in
    match alloc_scan (Z.to_nat (fat_end_sec - fat_start_sec)) s fat_start_sec fat_start_sec with
    | None => (s, 0)
    | Some cluster => let '(s, r) := fat_set s cluster 0x0FFFFFF8 in if r <? 0 then (s, 0) else (s, cluster)
    end.

Fixpoint fat32_free_chain (fuel : nat) (s : fat32) (cluster : Z) : option fat32 :=
  if negb (in_chain cluster) then Some s
  else
    match fuel with
    | O => None
    | S fuel => let next := fat_get s cluster in fat32_free_chain fuel (fst (fat_set s cluster 0)) next
    end.

Definition cluster_to_offset (s : fat32) (cluster : Z) : Z :=
  u64 (data_offset (bpb s) + u32 (cluster - 2) * cluster_size (bpb s)).
Definition cluster_sector (s : fat32) (cluster : Z) : Z := u32 (cluster_to_offset s cluster / 512).

Definition read_cluster (s : fat32) (cluster : Z) : option (list Z) :=
  read_sectors s (cluster_sector s cluster) (cluster_size (bpb s) / 512).

Fixpoint zero_sectors (n : nat) (s : fat32) (sec : Z) : fat32 * Z :=
  match n with
  | O => (s, 0)
  | S n => let '(s, r) := write_sectors s sec (replicate 512 0) in if r <? 0 then (s, -1) else zero_sectors n s (u32 (sec + 1))
  end.
Definition zero_cluster (s : fat32) (cluster : Z) : fat32 * Z :=
  zero_sectors (Z.to_nat (cluster_size (bpb s) / 512)) s (cluster_sector s cluster).

(** ** Directories *)

(** As many whole clusters as fit; a round takes at least a sector of the buffer. *)
Fixpoint read_chain (n : nat) (s : fat32) (cluster : Z) (buf : list Z) (bufsize : Z) : option (list Z) :=
  match n with
  | O => Some buf
  | S n =>
      if negb (in_chain cluster) then Some buf
      else if bufsize <? len buf + cluster_size (bpb s) then Some buf
      else data ← read_cluster s cluster; read_chain n s (fat_get s cluster) (buf ++ data) bufsize
  end.
Definition read_dir_cluster_chain (s : fat32) (start_cluster bufsize : Z) : option (list Z) :=
  read_chain (Z.to_nat (bufsize / 512)) s start_cluster [] bufsize.

Definition DIR_BUF : Z := 16 * 512 * 4.
Definition LIST_BUF : Z := 8 * 512 * 4.

(** The first slot whose entry is not in use, or the end of the buffer. *)
Definition dir_end (buf : list Z) : Z :=
  default (len buf) (Z.mul 32 <$> find_from (fun k => buf.[32 * k] =? 0) (Z.to_nat (len buf / 32)) 0).

Definition find_slot (p : Z -> bool) (end_off : Z) : option Z :=
  Z.mul 32 <$> find_from (fun k => p (32 * k)) (Z.to_nat (end_off / 32)) 0.

(** Back to the clusters of the directory; nothing is written from beyond the buffer. *)
Fixpoint write_back (n : nat) (s : fat32) (cluster : Z) (buf : list Z) (buf_off : Z) : option (fat32 * Z) :=
  if negb (in_chain cluster) then Some (s, 0)
  else
    match n with
    | O => None
    | S n =>
        if len buf <? buf_off + cluster_size (bpb s) then None
        else
          let '(s, r) := write_sectors s (cluster_sector s cluster) (slice buf buf_off (cluster_size (bpb s))) in
          if r <? 0 then Some (s, -1) else write_back n s (fat_get s cluster) buf (buf_off + cluster_size (bpb s))
    end.

Definition write_dir (s : fat32) (dir_cluster : Z) (buf : list Z) (off : Z) (raw_entry : list Z) : option (fat32 * Z) :=
  if len buf <? off + 32 then None
  else write_back (length buf) s dir_cluster (splice buf off raw_entry) 0.

(** A new cluster at the end of the chain: its offset in the directory, or -1. *)
Fixpoint extend_chain (fuel : nat) (s : fat32) (last_cluster clust_off : Z) : option (fat32 * Z) :=
  match fuel with
  | O => None
  | S fuel =>
      let next := fat_get s last_cluster in
      if in_chain next then extend_chain fuel s next (u32 (clust_off + cluster_size (bpb s)))
      else
        let '(s, nc) := fat32_alloc_cluster s in
        if nc =? 0 then Some (s, -1)
        else
          let '(s, r) := zero_cluster s nc in
          if r <? 0 then Some (s, -1) else Some (fst (fat_set s last_cluster nc), u32 (clust_off + cluster_size (bpb s)))
  end.

Definition write_dir_entry (fuel : nat) (s : fat32) (dir_cluster : Z) (raw_entry : list Z) (replace_name : option (list Z)) : option (fat32 * Z) :=
  if negb (writable s) || (dir_cluster <? 2) then Some (s, -1)
  else
    match read_dir_cluster_chain s dir_cluster DIR_BUF with
    | None => Some (s, -1)
    | Some buf =>
        let end_off := dir_end buf in
        match replace_name with
        | Some name =>
            match find_slot (fun off => bool_decide (slice buf off 11 = format_83_name name)) end_off with
            | Some off => write_dir s dir_cluster buf off raw_entry
            | None => Some (s, -1)
            end
        | None =>
            match find_slot (fun off => buf.[off] =? 0xE5) end_off with
            | Some off => write_dir s dir_cluster buf off raw_entry
            | None =>
                if len buf <? end_off + 32 then
                  '(s, off) ← extend_chain fuel s dir_cluster 0;
                  if off <? 0 then Some (s, -1)
                  else
                    match read_dir_cluster_chain s dir_cluster DIR_BUF with
                    | None => Some (s, -1)
                    | Some buf => write_dir s dir_cluster buf off raw_entry
                    end
                else write_dir s dir_cluster buf end_off raw_entry
            end
        end
    end.

(** ** Mounting *)

Definition unmounted (d : D) : fat32 := mkFat d false (mkBpb 0 0 0 0 0 0 0 0 0) 1 false.

(** The fields of the boot sector; a cluster of no sectors is a division by 0. *)
Definition parse_bpb (buf : list Z) : option fat32_bpb :=
  let bps := get16 buf 11 in
  let spc := buf.[13] in
  let reserved := get16 buf 14 in
  let nfats := buf.[16] in
  let fat_size := get32 buf 36 in
  let fat_off := reserved * 512 in
  let total_sec := if get32 buf 32 =? 0 then get16 buf 19 else get32 buf 32 in
  let data_sec := u32 (total_sec - reserved - fat_size * nfats) in
  if spc =? 0 then None
  else Some (mkBpb bps spc reserved fat_off (u32 (fat_off + fat_size * nfats * 512)) (get32 buf 44) (bps * spc) (data_sec / spc) fat_size).

Definition fat32_init (s : fat32) : option (fat32 * Z) :=
  let s := mkFat (dev s) false (bpb s) (num_fats s) (mounted s) in
  match read_sector s 0 with
  | None => Some (s, -1)
  | Some buf =>
      if negb ((buf.[510] =? 0x55) && (buf.[511] =? 0xAA)) then Some (s, -1)
      else if negb (get16 buf 11 =? 512) then Some (s, -1)
      else b ← parse_bpb buf; Some (mkFat (dev s) false b buf.[16] true, 0)
  end.

Definition fat32_set_write_fn (s : fat32) (write_fn : bool) : fat32 := mkFat (dev s) write_fn (bpb s) (num_fats s) (mounted s).
Definition fat32_is_writable (s : fat32) : bool := mounted s && writable s.
Definition fat32_is_mounted (s : fat32) : bool := mounted s.

(** ** Reading *)

Definition fat32_list_dir (s : fat32) (dir_cluster max : Z) : option (list fat32_dirent) :=
  if negb (mounted s) || (dir_cluster <? 2) then None
  else buf ← read_dir_cluster_chain s dir_cluster LIST_BUF; Some (parse_dir_entries buf max).
Definition fat32_list_root (s : fat32) (max : Z) : option (list fat32_dirent) :=
  if negb (mounted s) then None
  else buf ← read_dir_cluster_chain s (root_cluster (bpb s)) LIST_BUF; Some (parse_dir_entries buf max).

(** Whole clusters come into the buffer, whatever is left of the file: the count and the buffer. *)
Fixpoint read_file_loop (n : nat) (s : fat32) (cluster remaining offset : Z) (buf : list Z) (bufsize : Z) : option (Z * list Z) :=
  if negb (in_chain cluster) || (remaining <=? 0) then Some (offset, buf)
  else
    match n with
    | O => None
    | S n =>
        if bufsize <? offset + cluster_size (bpb s) then None
        else
          match read_cluster s cluster with
          | None => Some (-1, buf)
          | Some data =>
              let chunk := if remaining <? cluster_size (bpb s) then remaining else cluster_size (bpb s) in
              read_file_loop n s (fat_get s cluster) (remaining - chunk) (offset + chunk) (buf ++ data) bufsize
          end
    end.

Definition fat32_read_file (s : fat32) (first_cluster size bufsize : Z) : option (Z * list Z) :=
  if negb (mounted s) || (first_cluster <? 2) then Some (-1, [])
  else
    let to_read := if size <? bufsize then size else bufsize in
    read_file_loop (Z.to_nat (to_read / 512 + 1)) s first_cluster to_read 0 [] bufsize.

Definition find_name (l : list fat32_dirent) (name83 : list Z) : option fat32_dirent :=
  find (fun de => bool_decide (de_name de = name83)) l.
Definition fat32_lookup (s : fat32) (name83 : list Z) : option fat32_dirent :=
  if negb (mounted s) then None else l ← fat32_list_root s FAT32_MAX_FILES; find_name l name83.
Definition fat32_lookup_in_dir (s : fat32) (dir_cluster : Z) (name83 : list Z) : option fat32_dirent :=
  if negb (mounted s) || (dir_cluster <? 2) then None else l ← fat32_list_dir s dir_cluster FAT32_MAX_FILES; find_name l name83.

(** ** Writing *)

(** To the cluster of [target], with new clusters where the chain ends ([None] inside: no more). *)
Fixpoint walk_to (fuel : nat) (s : fat32) (cur clust_byte target : Z) : option (fat32 * option (Z * Z)) :=
  let next_byte := u32 (clust_byte + cluster_size (bpb s)) in
  if target <? next_byte then Some (s, Some (cur, clust_byte))
  else
    match fuel with
    | O => None
    | S fuel =>
        let next := fat_get s cur in
        if in_chain next then walk_to fuel s next next_byte target
        else
          let '(s, nc) := fat32_alloc_cluster s in
          if nc =? 0 then Some (s, None)
          else
            let '(s, r) := zero_cluster s nc in
            if r <? 0 then Some (s, None) else walk_to fuel (fst (fat_set s cur nc)) nc next_byte target
    end.

(** A part of a cluster goes through sec_buf2, which has 512 bytes. *)
Fixpoint write_loop (n : nat) (s : fat32) (first_cluster : Z) (buf : list Z) (offset bytes_written : Z) : option (fat32 * Z) :=
  if len buf <=? bytes_written then Some (s, bytes_written)
  else
    match n with
    | O => None
    | S n =>
        let target_byte := u32 (offset + bytes_written) in
        '(s, at_byte) ← walk_to (Z.to_nat (target_byte / 512 + 1)) s first_cluster 0 target_byte;
        match at_byte with
        | None => Some (s, bytes_written)
        | Some (cur, clust_byte) =>
            let pos_in_cluster := target_byte - clust_byte in
            let avail := cluster_size (bpb s) - pos_in_cluster in
            let to_write := if avail <? len buf - bytes_written then avail else len buf - bytes_written in
            if 512 <? cluster_size (bpb s) then None
            else
              match read_cluster s cur with
              | None => Some (s, bytes_written)
              | Some data =>
                  let '(s, r) := write_sectors s (cluster_sector s cur) (splice data pos_in_cluster (slice buf bytes_written to_write)) in
                  if r <? 0 then Some (s, bytes_written) else write_loop n s first_cluster buf offset (bytes_written + to_write)
              end
        end
    end.

(** The result with *out_cluster and *out_size, where they are set. *)
Definition fat32_write_file (s : fat32) (first_cluster size : Z) (buf : list Z) (offset : Z) : option (fat32 * Z * option (Z * Z)) :=
  let count := len buf in
  if negb (mounted s) || negb (writable s) || (count =? 0) then Some (s, 0, Some (first_cluster, size))
  else
    let finish s first_cluster :=
      let e := u32 (offset + count) in
      let new_size := if size <? e then e else size in
      '(s, n) ← write_loop (Z.to_nat (count / 512 + 2)) s first_cluster buf offset 0;
      Some (s, n, Some (first_cluster, new_size)) in
    if first_cluster =? 0 then
      let '(s, cluster) := fat32_alloc_cluster s in
      if cluster =? 0 then Some (s, -1, None)
      else let '(s, r) := zero_cluster s cluster in if r <? 0 then Some (s, -1, None) else finish s cluster
    else finish s first_cluster.

(** ** Files and directories *)

Definition fat32_create_file_in_dir (fuel : nat) (s : fat32) (dir_cluster : Z) (name83 : list Z) : option (fat32 * Z * option fat32_dirent) :=
  if negb (mounted s) || negb (writable s) then Some (s, -1, None)
  else
    match fat32_lookup_in_dir s dir_cluster name83 with
    | Some _ => Some (s, -1, None)
    | None =>
        let de := mkDe (take 12 name83) 0x20 0 0 false in
        '(s, r) ← write_dir_entry fuel s dir_cluster (build_raw_entry de) None;
        if r <? 0 then Some (s, -1, None) else Some (s, 0, Some de)
    end.
Definition fat32_create_file (fuel : nat) (s : fat32) (name83 : list Z) : option (fat32 * Z * option fat32_dirent) :=
  fat32_create_file_in_dir fuel s (root_cluster (bpb s)) name83.

Definition fat32_unlink (fuel : nat) (s : fat32) (name83 : list Z) : option (fat32 * Z) :=
  if negb (mounted s) || negb (writable s) then Some (s, -1)
  else
    match fat32_lookup s name83 with
    | None => Some (s, -1)
    | Some de =>
        if de_dir de then Some (s, -1)
        else
          s ← if 2 <=? de_cluster de then fat32_free_chain fuel s (de_cluster de) else Some s;
          '(s, r) ← write_dir_entry fuel s (root_cluster (bpb s)) ((build_raw_entry de).[0 <- 0xE5]) (Some name83);
          Some (s, if r <? 0 then -1 else 0)
    end.

(** The cluster of the directory goes out from cluster_data, which has 2048 bytes. *)
Definition fat32_mkdir (fuel : nat) (s : fat32) (name83 : list Z) : option (fat32 * Z * option fat32_dirent) :=
  if negb (mounted s) || negb (writable s) then Some (s, -1, None)
  else
    match fat32_lookup s name83 with
    | Some _ => Some (s, -1, None)
    | None =>
        let '(s, new_cluster) := fat32_alloc_cluster s in
        if new_cluster =? 0 then Some (s, -1, None)
        else
          let '(s, r) := zero_cluster s new_cluster in
          if r <? 0 then Some (fst (fat_set s new_cluster 0), -1, None)
          else
            let dot := build_raw_entry (mkDe [46] 0x10 new_cluster 0 true) in
            let dotdot := build_raw_entry (mkDe [46; 46] 0x10 (root_cluster (bpb s)) 0 true) in
            let cluster_data := dot ++ dotdot ++ replicate (2048 - 64) 0 in
            if 2048 <? cluster_size (bpb s) then None
            else
              let '(s, r) := write_sectors s (cluster_sector s new_cluster) (slice cluster_data 0 (cluster_size (bpb s))) in
              if r <? 0 then Some (fst (fat_set s new_cluster 0), -1, None)
              else
                let de := mkDe (take 12 name83) 0x10 new_cluster 0 true in
                '(s, r) ← write_dir_entry fuel s (root_cluster (bpb s)) (build_raw_entry de) None;
                if r <? 0 then Some (fst (fat_set s new_cluster 0), -1, None) else Some (s, 0, Some de)
    end.

Definition with_extent (de : fat32_dirent) (cluster size : Z) : fat32_dirent := mkDe (de_name de) (de_attr de) cluster size (de_dir de).

Definition fat32_update_entry_size (fuel : nat) (s : fat32) (name83 : list Z) (new_size : Z) : option (fat32 * Z) :=
  if negb (mounted s) || negb (writable s) then Some (s, -1)
  else
    match fat32_lookup s name83 with
    | None => Some (s, -1)
    | Some de => write_dir_entry fuel s (root_cluster (bpb s)) (build_raw_entry (with_extent de (de_cluster de) new_size)) (Some name83)
    end.

Definition fat32_update_entry (fuel : nat) (s : fat32) (name83 : list Z) (new_cluster new_size : Z) : option (fat32 * Z) :=
  if negb (mounted s) || negb (writable s) then Some (s, -1)
  else
    match fat32_lookup s name83 with
    | None => Some (s, -1)
    | Some de => write_dir_entry fuel s (root_cluster (bpb s)) (build_raw_entry (with_extent de new_cluster new_size)) (Some name83)
    end.

Definition fat32_update_entry_in_dir (fuel : nat) (s : fat32) (dir_cluster : Z) (name83 : list Z) (new_cluster new_size : Z) : option (fat32 * Z) :=
  if negb (mounted s) || negb (writable s) || (dir_cluster <? 2) then Some (s, -1)
  else
    match fat32_lookup_in_dir s dir_cluster name83 with
    | None => Some (s, -1)
    | Some de => write_dir_entry fuel s dir_cluster (build_raw_entry (with_extent de new_cluster new_size)) (Some name83)
    end.
End fat32.
