(* ===== verification/Fat32Volume.v ===== *)
(** * What the FAT32 functions do to a volume

    Over a disk that keeps the laws of a disk: the FAT as a function of the cluster, chains
    with their contents, what reading and writing files does to them, what the search for
    free clusters finds, and directories as lists of entries. *)

From S2P Require Import Prelude Fat32.

(** ** Disks *)

(** The bytes of a disk, and what its sectors give and take. *)
Class LawfulDisk (D : Type) `{BlockDev D} := {
  image : D -> list Z;
  read_law d lba n : 0 <= lba -> 0 <= n -> 512 * (lba + n) <= len (image d) -> blk_read d lba n = Some (slice (image d) (512 * lba) (512 * n));
  write_law d lba data : 0 <= lba -> 512 * lba + len data <= len (image d) -> len data mod 512 = 0 ->
    exists d', blk_write d lba data = (d', true) /\ image d' = splice (image d) (512 * lba) data;
}.

Lemma len_put32 v : len (put32 v) = 4.
Proof. done. Qed.

Lemma get32_put32 v : 0 <= v < 2 ^ 32 -> get32 (put32 v) 0 = v.
Proof.
  intros Hv. unfold get32, put32, geti. cbn [Z.to_nat Z.add lookup_total list_lookup_total Pos.to_nat Pos.iter_op Nat.add Pos.add Pos.succ].
  change (v mod 256 + v / 256 mod 256 * 256 + v / 65536 mod 256 * 65536 + v / 16777216 mod 256 * 16777216 = v).
  replace (v / 65536) with (v / 256 / 256) by (rewrite Z.div_div by lia; reflexivity). replace (v / 16777216) with (v / 256 / 256 / 256) by (rewrite !Z.div_div by lia; reflexivity).
  set (a := v / 256). set (b := a / 256). set (c := b / 256). pose proof (Z.div_mod v 256) as E1. pose proof (Z.div_mod a 256) as E2. pose proof (Z.div_mod b 256) as E3.
  fold a in E1. fold b in E2. fold c in E3. rewrite (Z.mod_small c 256) by (subst a b c; zlia). lia.
Qed.

Lemma get32_slice b p n q : 0 <= p -> 0 <= q -> q + 4 <= n -> p + n <= len b -> get32 (slice b p n) q = get32 b (p + q).
Proof. intros. unfold get32. rewrite !geti_slice by lia. by rewrite !Z.add_assoc. Qed.

Lemma get32_splice_in b p x q : 0 <= p -> p <= q -> q + 4 <= p + len x -> p + len x <= len b -> get32 (splice b p x) q = get32 x (q - p).
Proof. intros. unfold get32. rewrite !geti_splice by lia. rewrite !decide_True by lia. by rewrite <- !Z.add_sub_swap. Qed.

Lemma get32_splice_out b p x q : 0 <= p -> 0 <= q -> q + 4 <= p \/ p + len x <= q -> p + len x <= len b -> get32 (splice b p x) q = get32 b q.
Proof. intros. unfold get32. rewrite !geti_splice by lia. by rewrite !decide_False by lia. Qed.

Section volume.
Context {D : Type} `{LawfulDisk D}.
Implicit Types s : @fat32 D.

Abbreviation img s := (image (dev s)).

(** A mounted volume with a write function; the FAT has an entry for each cluster. *)
Record volume s : Prop := {
  v_mounted : mounted s = true;
  v_writable : writable s = true;
  v_cluster : 512 <= cluster_size (bpb s) /\ cluster_size (bpb s) mod 512 = 0;
  v_fat : 0 < fat_offset (bpb s) /\ fat_offset (bpb s) mod 512 = 0;
  v_fats : 1 <= num_fats s /\ 0 <= fat_size_sectors (bpb s);
  v_data : fat_offset (bpb s) + num_fats s * (512 * fat_size_sectors (bpb s)) <= data_offset (bpb s) < 2 ^ 32 /\ data_offset (bpb s) mod 512 = 0;
  v_total : 0 <= total_clusters (bpb s) /\ 2 + total_clusters (bpb s) <= 128 * fat_size_sectors (bpb s) /\ 2 + total_clusters (bpb s) < 0x0FFFFFF8;
  v_image : data_offset (bpb s) + total_clusters (bpb s) * cluster_size (bpb s) <= len (img s) < 2 ^ 41;
}.

(** Nothing but the bytes of the disk changes. *)
Record same_volume s s' : Prop := {
  sv_bpb : bpb s' = bpb s; sv_fats : num_fats s' = num_fats s; sv_mounted : mounted s' = mounted s;
  sv_writable : writable s' = writable s; sv_len : len (img s') = len (img s) }.

#[export] Instance same_volume_refl : Reflexive same_volume.
Proof. by constructor. Qed.
#[export] Instance same_volume_trans : Transitive same_volume.
Proof. intros a b c [] []. constructor; congruence. Qed.

Lemma volume_same s s' : volume s -> same_volume s s' -> volume s'.
Proof. intros [] [E1 E2 E3 E4 E5]. constructor; rewrite ?E1, ?E2, ?E3, ?E4, ?E5; done. Qed.

Definition valid s c : Prop := 2 <= c < 2 + total_clusters (bpb s).

(** The entry of the FAT, the bytes of a cluster. *)
Definition entry s (c : Z) : Z := get32 (img s) (fat_offset (bpb s) + 4 * c).
Definition next s (c : Z) : Z := Z.land (entry s c) 0x0FFFFFFF.
Definition place s (c : Z) : Z := data_offset (bpb s) + (c - 2) * cluster_size (bpb s).
Definition cluster s (c : Z) : list Z := slice (img s) (place s c) (cluster_size (bpb s)).

Lemma place_ok s c : volume s -> valid s c -> 0 <= data_offset (bpb s) <= place s c /\ place s c + cluster_size (bpb s) <= len (img s) /\ place s c mod 512 = 0.
Proof.
  intros V Hc. unfold place. destruct (v_cluster s V), (v_data s V), (v_fat s V), (v_fats s V), (v_total s V), (v_image s V). unfold valid in Hc.
  split; [nia|]. split; [nia|]. rewrite Z.add_mod, Z.mul_mod by done.
  replace (data_offset (bpb s) mod 512) with 0 by lia. replace (cluster_size (bpb s) mod 512) with 0 by lia. by rewrite Z.mul_0_r.
Qed.

Lemma places_apart s c c' : volume s -> c <> c' -> place s c + cluster_size (bpb s) <= place s c' \/ place s c' + cluster_size (bpb s) <= place s c.
Proof. intros V Hc. unfold place. destruct (v_cluster s V). nia. Qed.

(** The first FAT lies before the data. *)
Lemma fat_area s e : volume s -> 0 <= e < 128 * fat_size_sectors (bpb s) -> 0 <= fat_offset (bpb s) + 4 * e /\ fat_offset (bpb s) + 4 * e + 4 <= data_offset (bpb s) <= len (img s).
Proof. intros V He. destruct (v_cluster s V), (v_data s V), (v_fat s V), (v_fats s V), (v_total s V), (v_image s V). nia. Qed.

(** ** Sectors *)

Lemma write_sectors_ok s lba data : volume s -> 0 <= lba -> 512 * lba + len data <= len (img s) -> len data mod 512 = 0 ->
  exists s', write_sectors s lba data = (s', 0) /\ same_volume s s' /\ img s' = splice (img s) (512 * lba) data.
Proof.
  intros V Hl Hd Hm. unfold write_sectors. rewrite (v_writable s V). cbn [negb]. destruct (write_law (dev s) lba data Hl Hd Hm) as (d' & -> & E).
  exists (set_dev s d'). split; [done|]. split; [|exact E]. constructor; try done. cbn [dev set_dev]. rewrite E, len_splice by lia. done.
Qed.

Lemma read_sectors_ok s lba n : 0 <= lba -> 0 <= n -> 512 * (lba + n) <= len (img s) -> read_sectors s lba n = Some (slice (img s) (512 * lba) (512 * n)).
Proof. apply read_law. Qed.

Lemma cluster_sector_ok s c : volume s -> valid s c -> 512 * cluster_sector s c = place s c /\ 0 <= cluster_sector s c.
Proof.
  intros V Hc. destruct (place_ok s c V Hc) as (Hp & Hl & Hm). unfold cluster_sector, cluster_to_offset.
  destruct (v_data s V), (v_total s V), (v_image s V), (v_cluster s V). unfold valid in Hc. rewrite (wrap_small 32 (c - 2)) by lia. fold (place s c).
  rewrite (wrap_small 64) by lia. rewrite wrap_small by zlia. zlia.
Qed.

Lemma read_cluster_ok s c : volume s -> valid s c -> read_cluster s c = Some (cluster s c).
Proof.
  intros V Hc. destruct (place_ok s c V Hc) as (Hp & Hl & Hm), (cluster_sector_ok s c V Hc) as [Es Hs], (v_cluster s V) as [Hc1 Hc2].
  unfold read_cluster, cluster. assert (Ec : 512 * (cluster_size (bpb s) / 512) = cluster_size (bpb s)) by zlia.
  rewrite read_sectors_ok by lia. by rewrite Es, Ec.
Qed.

Lemma len_cluster s c : volume s -> valid s c -> len (cluster s c) = cluster_size (bpb s).
Proof. intros V Hc. destruct (place_ok s c V Hc) as (Hp & Hl & Hm), (v_cluster s V). unfold cluster. rewrite len_slice by lia. done. Qed.

(** Writing a cluster changes this cluster only. *)
Record wrote s s' (c : Z) (data : list Z) : Prop := {
  w_same : same_volume s s';
  w_entry : forall e, 0 <= e < 128 * fat_size_sectors (bpb s) -> entry s' e = entry s e;
  w_cluster : forall c', valid s c' -> cluster s' c' = if decide (c' = c) then data else cluster s c';
}.

Lemma slice_splice_out {A} `{Inhabited A} (d : list A) p b q n : 0 <= p -> 0 <= q -> 0 <= n -> q + n <= p \/ p + len b <= q -> p + len b <= len d -> q + n <= len d ->
  slice (splice d p b) q n = slice d q n.
Proof.
  intros. apply list_ext_geti; rewrite len_slice by (rewrite ?len_splice; lia); [by rewrite len_slice by lia|]. intros i Hi.
  rewrite !geti_slice by (rewrite ?len_splice; lia). rewrite geti_splice by lia. by rewrite decide_False by lia.
Qed.

Lemma splice_at s s' c data : volume s -> valid s c -> same_volume s s' -> len data = cluster_size (bpb s) -> img s' = splice (img s) (place s c) data -> wrote s s' c data.
Proof.
  intros V Hc Hs Hd E. destruct (place_ok s c V Hc) as (Hp & Hl & Hm), (v_cluster s V). constructor; [done| |].
  - intros e He. destruct (fat_area s e V He). unfold entry. rewrite (sv_bpb _ _ Hs), E. apply get32_splice_out; lia.
  - intros c' Hc'. destruct (place_ok s c' V Hc') as (Hp' & Hl' & _). unfold cluster. assert (Ep : place s' c' = place s c') by (unfold place; by rewrite (sv_bpb _ _ Hs)).
    rewrite Ep, (sv_bpb _ _ Hs), E. case_decide as Hcc.
    + subst c'. rewrite <- Hd. apply slice_splice; lia.
    + destruct (places_apart s c c' V ltac:(done)); apply slice_splice_out; lia.
Qed.

Lemma write_cluster_ok s c data : volume s -> valid s c -> len data = cluster_size (bpb s) ->
  exists s', write_sectors s (cluster_sector s c) data = (s', 0) /\ wrote s s' c data.
Proof.
  intros V Hc Hd. destruct (place_ok s c V Hc) as (Hp & Hl & Hm), (cluster_sector_ok s c V Hc) as [Es Hs], (v_cluster s V).
  destruct (write_sectors_ok s (cluster_sector s c) data V) as (s' & E & Hv & Ei); [lia|lia|by rewrite Hd|].
  exists s'. split; [done|]. apply splice_at; try done. by rewrite Ei, Es.
Qed.

(** ** The FAT *)

Lemma fat_byte_ok s e : volume s -> 0 <= e < 128 * fat_size_sectors (bpb s) ->
  fat_byte s e = fat_offset (bpb s) + 4 * e /\ 0 <= fat_byte s e / 512 /\ 512 * (fat_byte s e / 512) + fat_byte s e mod 512 = fat_offset (bpb s) + 4 * e /\
  0 <= fat_byte s e mod 512 /\ fat_byte s e mod 512 + 4 <= 512 /\
  fat_offset (bpb s) <= 512 * (fat_byte s e / 512) /\ 512 * (fat_byte s e / 512) + 512 <= fat_offset (bpb s) + 512 * fat_size_sectors (bpb s).
Proof.
  intros V He. destruct (fat_area s e V He), (v_data s V), (v_fat s V). unfold fat_byte. rewrite wrap_small by lia. zlia.
Qed.

Lemma fat_end s : volume s -> fat_offset (bpb s) + 512 * fat_size_sectors (bpb s) <= data_offset (bpb s) <= len (img s).
Proof. intros V. destruct (v_data s V), (v_fats s V), (v_image s V), (v_total s V), (v_cluster s V). nia. Qed.

Lemma fat_get_ok s c : volume s -> 2 <= c < 128 * fat_size_sectors (bpb s) -> fat_get s c = next s c.
Proof.
  intros V Hc. unfold fat_get, read_sector. rewrite (proj2 (Z.ltb_ge c 2)) by lia. destruct (fat_byte_ok s c V ltac:(lia)) as (E & H1 & H2 & H3 & H4 & H5 & H6).
  pose proof (fat_end s V). rewrite read_sectors_ok by lia. rewrite get32_slice by lia. unfold next, entry. by rewrite H2.
Qed.

Lemma valid_fat s c : volume s -> valid s c -> 2 <= c < 128 * fat_size_sectors (bpb s).
Proof. intros V Hc. destruct (v_total s V). unfold valid in Hc. lia. Qed.

(** Writing an entry changes this entry only, and no cluster. *)
Record linked s s' (c value : Z) : Prop := {
  l_same : same_volume s s';
  l_entry : forall e, 0 <= e < 128 * fat_size_sectors (bpb s) -> entry s' e = if decide (e = c) then value else entry s e;
  l_cluster : forall c', valid s c' -> cluster s' c' = cluster s c';
}.

Lemma cluster_kept s s' : volume s -> same_volume s s' -> (forall i, data_offset (bpb s) <= i < len (img s) -> (img s').[i] = (img s).[i]) ->
  forall c, valid s c -> cluster s' c = cluster s c.
Proof.
  intros V Hs Hi c Hc. destruct (place_ok s c V Hc) as (Hp & Hl & _), (v_cluster s V). unfold cluster. assert (Ep : place s' c = place s c) by (unfold place; by rewrite (sv_bpb _ _ Hs)).
  rewrite Ep, (sv_bpb _ _ Hs). pose proof (sv_len _ _ Hs). apply list_ext_geti; rewrite len_slice by lia; [by rewrite len_slice by lia|].
  intros i Hr. rewrite !geti_slice by lia. apply Hi. lia.
Qed.

Lemma fat_set_ok s c value : volume s -> 2 <= c < 128 * fat_size_sectors (bpb s) -> 0 <= value < 2 ^ 32 ->
  exists s', fat_set s c value = (s', 0) /\ linked s s' c value.
Proof.
  intros V Hc Hv. unfold fat_set, read_sector. rewrite (proj2 (Z.ltb_ge c 2)) by lia. rewrite (v_writable s V). cbn [negb orb].
  destruct (fat_byte_ok s c V ltac:(lia)) as (E & H1 & H2 & H3 & H4 & H5 & H6). pose proof (fat_end s V) as Hend. set (sec := fat_byte s c / 512) in *. set (off := fat_byte s c mod 512) in *.
  rewrite read_sectors_ok by lia. set (buf := splice _ off (put32 value)).
  assert (Hb0 : len (slice (img s) (512 * sec) (512 * 1)) = 512) by (rewrite len_slice; lia).
  assert (Hb : len buf = 512) by (unfold buf; rewrite len_splice; rewrite ?len_put32, ?Hb0; lia).
  destruct (write_sectors_ok s sec buf V) as (s1 & -> & Hs1 & Ei1); [lia|lia|by rewrite Hb|]. cbn [Z.ltb Z.compare].
  assert (L1 : linked s s1 c value).
  { constructor; [done| |].
    - intros e He. destruct (fat_area s e V He). unfold entry. rewrite (sv_bpb _ _ Hs1), Ei1. destruct (decide (512 * sec <= fat_offset (bpb s) + 4 * e < 512 * sec + 512)) as [Hin|Hout].
      + destruct (fat_byte_ok s e V He) as (_ & _ & _ & _ & _ & _ & _). destruct (v_fat s V) as [_ Hm].
        assert (fat_offset (bpb s) + 4 * e + 4 <= 512 * sec + 512) by zlia.
        rewrite get32_splice_in by (rewrite ?Hb; lia). unfold buf. case_decide as Ec.
        * subst e. rewrite get32_splice_in by (rewrite ?len_put32; lia). replace (fat_offset (bpb s) + 4 * c - 512 * sec - off) with 0 by lia. by apply get32_put32.
        * rewrite get32_splice_out by (rewrite ?len_put32; lia). rewrite get32_slice by lia. f_equal. lia.
      + rewrite decide_False by (intros ->; lia). destruct (v_fat s V) as [_ Hm]. apply get32_splice_out; rewrite ?Hb; try lia. zlia.
    - apply cluster_kept; [done|done|]. intros i Hi. rewrite Ei1, geti_splice by (rewrite ?Hb; lia). by rewrite decide_False by (rewrite ?Hb; lia). }
  destruct ((2 <=? num_fats s) && (0 <? fat_size_sectors (bpb s))) eqn:Em; [|rewrite (sv_fats _ _ Hs1), (sv_bpb _ _ Hs1), Em; by exists s1].
  rewrite (sv_fats _ _ Hs1), (sv_bpb _ _ Hs1), Em. apply andb_true_iff in Em as [Em1%Z.leb_le Em2%Z.ltb_lt]. pose proof (volume_same _ _ V Hs1) as V1.
  destruct (v_data s V) as [Hdata _], (v_image s V) as [Him1 Him2]. rewrite wrap_small by nia.
  destruct (write_sectors_ok s1 (sec + fat_size_sectors (bpb s)) buf V1) as (s2 & -> & Hs2 & Ei2); [lia|rewrite Hb, (sv_len _ _ Hs1); nia|by rewrite Hb|].
  exists s2. split; [done|]. constructor; [by transitivity s1| |].
  - intros e He. rewrite <- (l_entry _ _ _ _ L1 e He). unfold entry. rewrite (sv_bpb _ _ Hs2), (sv_bpb _ _ Hs1), Ei2. destruct (fat_area s e V He).
    apply get32_splice_out; rewrite ?Hb, ?(sv_len _ _ Hs1); try lia; nia.
  - intros c' Hc'. rewrite <- (l_cluster _ _ _ _ L1 c' Hc'). apply cluster_kept; [done|done| |unfold valid; by rewrite (sv_bpb _ _ Hs1)]. intros i Hi. rewrite (sv_bpb _ _ Hs1) in Hi.
    rewrite (sv_len _ _ Hs1) in Hi. rewrite Ei2, geti_splice by (rewrite ?Hb, ?(sv_len _ _ Hs1); nia). by rewrite decide_False by (rewrite ?Hb; nia).
Qed.

(** ** Free clusters *)

(** The search takes entry [e] of the FAT for the one of cluster [e + 2]. *)
Definition free s (e : Z) : Prop := Z.land (entry s e) 0x0FFFFFFF = 0.
#[export] Instance free_dec s e : Decision (free s e).
Proof. unfold free. apply _. Defined.

Lemma alloc_entries_spec n total buf i base : 0 <= i -> 0 <= base -> base + i + Z.of_nat n < 2 ^ 32 -> 0 <= total -> 2 + total < 2 ^ 32 ->
  match alloc_entries n total buf i base with
  | Some c => exists j, i <= j < i + Z.of_nat n /\ c = base + j /\ c < 2 + total /\ Z.land (get32 buf (j * 4)) 0x0FFFFFFF = 0 /\
      forall k, i <= k < j -> Z.land (get32 buf (k * 4)) 0x0FFFFFFF <> 0
  | None => forall k, i <= k < i + Z.of_nat n -> base + k < 2 + total -> Z.land (get32 buf (k * 4)) 0x0FFFFFFF <> 0
  end.
Proof.
  intros Hi Hb Hn Ht Ht2. revert i Hi Hn. induction n as [|n IH]; intros i Hi Hn; cbn [alloc_entries]; [lia|].
  rewrite !wrap_small by lia. destruct (Z.leb_spec (2 + total) (base + i)) as [Hl|Hl]; [lia|].
  destruct (Z.eqb_spec (Z.land (get32 buf (i * 4)) 0x0FFFFFFF) 0) as [Hz|Hz]; [exists i; repeat split; lia|].
  specialize (IH (i + 1) ltac:(lia) ltac:(lia)). destruct (alloc_entries n total buf (i + 1) base) as [c|].
  - destruct IH as (j & Hj & Hc & Hct & Hf & Hk). exists j. split; [lia|]. do 3 (split; [done|]). intros k Hk'. destruct (decide (k = i)) as [->|]; [done|]. apply Hk. lia.
  - intros k Hk Hkt. destruct (decide (k = i)) as [->|]; [done|]. apply IH; lia.
Qed.

Lemma fat_sector s k : volume s -> 0 <= k < fat_size_sectors (bpb s) ->
  exists buf, read_sector s (fat_offset (bpb s) / 512 + k) = Some buf /\ forall i, 0 <= i < 128 -> get32 buf (i * 4) = entry s (128 * k + i).
Proof.
  intros V Hk. pose proof (fat_end s V). destruct (v_fat s V) as [Hf Hm]. assert (E : 512 * (fat_offset (bpb s) / 512) = fat_offset (bpb s)) by zlia.
  unfold read_sector. rewrite read_sectors_ok by lia. eexists. split; [done|]. intros i Hi. rewrite get32_slice by lia. unfold entry. f_equal. lia.
Qed.

Lemma alloc_scan_spec n s k : volume s -> 0 <= k -> k + Z.of_nat n <= fat_size_sectors (bpb s) ->
  match alloc_scan n s (fat_offset (bpb s) / 512 + k) (fat_offset (bpb s) / 512) with
  | Some c => 128 * k <= c - 2 /\ c < 2 + total_clusters (bpb s) /\ free s (c - 2) /\ forall e, 128 * k <= e < c - 2 -> ~ free s e
  | None => forall e, 128 * k <= e < 128 * (k + Z.of_nat n) -> e < total_clusters (bpb s) -> ~ free s e
  end.
Proof.
  intros V. revert k. induction n as [|n IH]; intros k Hk Hn; cbn [alloc_scan]; [lia|].
  destruct (fat_sector s k V ltac:(lia)) as (buf & -> & Hbuf). pose proof (fat_end s V). destruct (v_data s V) as [Hd _], (v_fat s V) as [Hf0 Hfm], (v_total s V) as (Ht0 & Ht1 & Ht2).
  replace (fat_offset (bpb s) / 512 + k - fat_offset (bpb s) / 512) with k by lia. rewrite (wrap_small 32) by lia.
  pose proof (alloc_entries_spec 128 (total_clusters (bpb s)) buf 0 (k * 128 + 2) ltac:(lia) ltac:(lia) ltac:(lia) Ht0 ltac:(lia)) as A.
  destruct (alloc_entries 128 (total_clusters (bpb s)) buf 0 (k * 128 + 2)) as [c|].
  - destruct A as (j & Hj & Hc & Hct & Hf & Hlow). rewrite Hbuf in Hf by lia. split; [lia|]. split; [lia|]. unfold free. split; [replace (c - 2) with (128 * k + j) by lia; done|].
    intros e He. specialize (Hlow (e - 128 * k) ltac:(lia)). rewrite Hbuf in Hlow by lia. by replace (128 * k + (e - 128 * k)) with e in Hlow by lia.
  - specialize (IH (k + 1) ltac:(lia) ltac:(lia)). rewrite <- Z.add_assoc.
    assert (Hlow : forall e, 128 * k <= e < 128 * (k + 1) -> e < total_clusters (bpb s) -> ~ free s e).
    { intros e He Het. specialize (A (e - 128 * k) ltac:(lia) ltac:(lia)). rewrite Hbuf in A by lia. unfold free. by replace (128 * k + (e - 128 * k)) with e in A by lia. }
    destruct (alloc_scan n s _ _) as [c|].
    + destruct IH as (I1 & I2 & I3 & I4). split; [lia|]. do 2 (split; [done|]). intros e He. destruct (decide (e < 128 * (k + 1))); [apply Hlow; lia|apply I4; lia].
    + intros e He Het. destruct (decide (e < 128 * (k + 1))); [apply Hlow; lia|apply IH; lia].
Qed.

(** What the search finds, without what it does. *)
Definition found s (c : Z) : Prop := valid s c /\ free s (c - 2) /\ forall e, 0 <= e < c - 2 -> ~ free s e.

Lemma found_unique s c c' : found s c -> found s c' -> c = c'.
Proof.
  unfold found, valid. intros (V1 & F1 & L1) (V2 & F2 & L2). destruct (decide (c < c')); [by destruct (L2 (c - 2)); [lia|]|].
  destruct (decide (c' < c)); [by destruct (L1 (c' - 2)); [lia|]|lia].
Qed.

Lemma fat_alloc_ok s : volume s ->
  (exists c s', fat32_alloc_cluster s = (s', c) /\ found s c /\ linked s s' c 0x0FFFFFF8) \/
  (fat32_alloc_cluster s = (s, 0) /\ forall e, 0 <= e < total_clusters (bpb s) -> ~ free s e).
Proof.
  intros V. unfold fat32_alloc_cluster. rewrite (v_writable s V). cbn [negb]. pose proof (fat_end s V). destruct (v_data s V) as [Hd _], (v_fat s V) as [Hf0 Hfm], (v_total s V) as (Ht0 & Ht1 & Ht2), (v_fats s V).
  rewrite (wrap_small 32) by zlia. replace (fat_offset (bpb s) / 512 + fat_size_sectors (bpb s) - fat_offset (bpb s) / 512) with (fat_size_sectors (bpb s)) by lia.
  pose proof (alloc_scan_spec (Z.to_nat (fat_size_sectors (bpb s))) s 0 V ltac:(lia) ltac:(lia)) as A. rewrite Z.add_0_r in A.
  destruct (alloc_scan _ s _ _) as [c|].
  - left. destruct A as (I1 & I2 & I3 & I4). assert (Hv : valid s c) by (unfold valid; lia). pose proof (valid_fat s c V Hv).
    destruct (fat_set_ok s c 0x0FFFFFF8 V ltac:(lia) ltac:(lia)) as (s' & -> & L). exists c, s'. split; [done|]. split; [|done]. split; [done|]. split; [done|]. intros e He. apply I4. lia.
  - right. split; [done|]. intros e He. apply A; lia.
Qed.

Lemma zero_sectors_ok n s c k : volume s -> valid s c -> 0 <= k -> 512 * (k + Z.of_nat n) = cluster_size (bpb s) ->
  exists s', zero_sectors n s (cluster_sector s c + k) = (s', 0) /\ same_volume s s' /\
    img s' = splice (img s) (place s c + 512 * k) (replicate (512 * n) 0).
Proof.
  revert s k. induction n as [|n IH]; intros s k V Hc Hk Hn; cbn [zero_sectors].
  { exists s. split; [done|]. split; [done|]. rewrite Nat.mul_0_r. cbn [replicate]. destruct (place_ok s c V Hc). by rewrite splice_nil by lia. }
  destruct (place_ok s c V Hc) as (Hp & Hl & Hm), (cluster_sector_ok s c V Hc) as [Es Hs]. assert (Hz : len (replicate 512 0 : list Z) = 512) by done.
  destruct (v_image s V). destruct (write_sectors_ok s (cluster_sector s c + k) (replicate 512 0) V) as (s1 & -> & Hs1 & Ei1); [lia|rewrite Hz; lia|done|]. cbn [Z.ltb Z.compare].
  pose proof (volume_same _ _ V Hs1) as V1. assert (Hc1 : valid s1 c) by (unfold valid; by rewrite (sv_bpb _ _ Hs1)).
  assert (Ec : cluster_sector s1 c = cluster_sector s c) by (unfold cluster_sector, cluster_to_offset; by rewrite (sv_bpb _ _ Hs1)).
  assert (Ep : place s1 c = place s c) by (unfold place; by rewrite (sv_bpb _ _ Hs1)).
  destruct (IH s1 (k + 1) V1 Hc1 ltac:(lia) ltac:(rewrite (sv_bpb _ _ Hs1); lia)) as (s2 & E2 & Hs2 & Ei2). rewrite (wrap_small 32) by lia.
  replace (cluster_sector s c + k + 1) with (cluster_sector s1 c + (k + 1)) by lia. exists s2. split; [done|]. split; [by transitivity s1|].
  rewrite Ei2, Ei1, Ep. pose proof (sv_len _ _ Hs1) as El. rewrite Ei1 in El.
  assert (Hln : forall m, len (replicate m 0 : list Z) = Z.of_nat m) by (intros; unfold len; by rewrite length_replicate).
  apply list_ext_geti; [rewrite !len_splice; rewrite ?El, ?Hln; lia|]. intros i Hi. rewrite !len_splice in Hi by (rewrite ?El, ?Hln; lia). 
  rewrite (geti_splice (splice _ _ _)) by (rewrite ?El, ?Hln; lia). rewrite !geti_splice by (rewrite ?Hln; lia). rewrite !Hln.
  repeat case_decide; try lia; rewrite ?geti_replicate by lia; done.
Qed.

Lemma zero_cluster_ok s c : volume s -> valid s c ->
  exists s', zero_cluster s c = (s', 0) /\ wrote s s' c (replicate (Z.to_nat (cluster_size (bpb s))) 0).
Proof.
  intros V Hc. destruct (v_cluster s V) as [H1 H2]. unfold zero_cluster.
  destruct (zero_sectors_ok (Z.to_nat (cluster_size (bpb s) / 512)) s c 0 V Hc ltac:(lia) ltac:(zlia)) as (s' & E & Hs & Ei). rewrite Z.add_0_r in E.
  exists s'. split; [done|]. assert (En : (512 * Z.to_nat (cluster_size (bpb s) / 512))%nat = Z.to_nat (cluster_size (bpb s))) by zlia.
  apply splice_at; try done; [unfold len; rewrite length_replicate; lia|]. by rewrite Ei, En, Z.mul_0_r, Z.add_0_r.
Qed.

(** ** Chains *)

Inductive chain s : Z -> list Z -> Prop :=
| chain_end c : in_chain c = false -> chain s c []
| chain_link c cs : valid s c -> chain s (next s c) cs -> chain s c (c :: cs).

Lemma valid_in_chain s c : volume s -> valid s c -> in_chain c = true.
Proof. intros V Hc. destruct (v_total s V). unfold valid in Hc. unfold in_chain. apply andb_true_iff. split; [apply Z.leb_le|apply Z.ltb_lt]; lia. Qed.

Lemma fat_chain_valid s c cs : chain s c cs -> Forall (valid s) cs.
Proof. induction 1; by constructor. Qed.

Lemma fat_chain_det s c cs cs' : volume s -> chain s c cs -> chain s c cs' -> cs = cs'.
Proof.
  intros V C. revert cs'. induction C as [c E|c cs Hc C IH]; intros cs' C'; inversion C' as [c' E'|c' cs'' Hc' C'']; subst; [done| | |].
  - by rewrite (valid_in_chain s c V Hc') in E.
  - by rewrite (valid_in_chain s c V Hc) in E'.
  - f_equal. by apply IH.
Qed.

(** A chain that ends visits no cluster twice. *)
Lemma fat_chain_suffix s c cs x : chain s c cs -> x ∈ cs -> exists l, chain s x (x :: l) /\ (length l < length cs)%nat.
Proof.
  induction 1 as [|c cs Hc C IH]; intros Hx; [by apply not_elem_of_nil in Hx|]. apply elem_of_cons in Hx as [->|Hx].
  - exists cs. split; [by constructor|simpl; lia].
  - destruct (IH Hx) as (l & Hl & Hll). exists l. split; [done|simpl; lia].
Qed.

Lemma fat_chain_nodup s c cs : volume s -> chain s c cs -> NoDup cs.
Proof.
  intros V C. induction C as [|c cs Hc C IH]; [constructor|]. constructor; [|done]. intros Hin.
  destruct (fat_chain_suffix _ _ _ _ C Hin) as (l & Hl & Hll). pose proof (fat_chain_det _ _ _ _ V Hl (chain_link _ _ _ Hc C)) as E. injection E as ->. lia.
Qed.

Lemma fat_chain_ext s s' c cs : same_volume s s' -> (forall x, x ∈ cs -> next s' x = next s x) -> chain s c cs -> chain s' c cs.
Proof.
  intros Hs He C. induction C as [c E|c cs Hc C IH]; [by constructor|]. constructor; [unfold valid; by rewrite (sv_bpb _ _ Hs)|].
  rewrite He by apply list_elem_of_here. apply IH. intros x Hx. apply He. by apply list_elem_of_further.
Qed.

(** The bytes of a chain. *)
Definition contents s (cs : list Z) : list Z := cs ≫= cluster s.

Lemma contents_cons s c cs : contents s (c :: cs) = cluster s c ++ contents s cs.
Proof. done. Qed.

Lemma fat_len_contents s cs : volume s -> Forall (valid s) cs -> len (contents s cs) = len cs * cluster_size (bpb s).
Proof. intros V. induction 1 as [|c cs Hc Hcs IH]; [done|]. rewrite contents_cons, len_app, len_cons, len_cluster, IH by done. lia. Qed.

Lemma contents_app s cs cs' : contents s (cs ++ cs') = contents s cs ++ contents s cs'.
Proof. apply bind_app. Qed.

Lemma contents_ext s s' cs : (forall c, c ∈ cs -> cluster s' c = cluster s c) -> contents s' cs = contents s cs.
Proof.
  induction cs as [|c cs IH]; intros He; [done|]. rewrite !contents_cons, He by apply list_elem_of_here. f_equal. apply IH. intros x Hx. apply He. by apply list_elem_of_further.
Qed.

Lemma fat_read_chain_ok n s c cs buf bufsize : volume s -> chain s c cs -> (length cs <= n)%nat -> len buf + len cs * cluster_size (bpb s) <= bufsize ->
  read_chain n s c buf bufsize = Some (buf ++ contents s cs).
Proof.
  intros V C. revert n buf. induction C as [c E|c cs Hc C IH]; intros n buf Hn Hb.
  - destruct n; cbn [read_chain]; rewrite ?E; by rewrite app_nil_r.
  - destruct n as [|n]; [simpl in Hn; lia|]. cbn [read_chain length] in *. rewrite (valid_in_chain s c V Hc). cbn [negb]. rewrite len_cons in Hb. destruct (v_cluster s V). pose proof (len_nonneg cs).
    rewrite (proj2 (Z.ltb_ge _ _)) by nia. rewrite read_cluster_ok by done. cbn [mbind option_bind]. rewrite fat_get_ok by (done || by apply valid_fat).
    rewrite IH; [by rewrite contents_cons, app_assoc|lia|rewrite len_app, len_cluster by done; lia].
Qed.

Lemma read_dir_ok s c cs bufsize : volume s -> chain s c cs -> len cs * cluster_size (bpb s) <= bufsize -> read_dir_cluster_chain s c bufsize = Some (contents s cs).
Proof.
  intros V C Hb. unfold read_dir_cluster_chain. destruct (v_cluster s V). apply (fat_read_chain_ok _ s c cs []); [done|done| |done].
  pose proof (len_nonneg cs). assert (len cs <= bufsize / 512) by (apply Z.div_le_lower_bound; nia). unfold len in *. lia.
Qed.

(** ** Reading a file *)

Lemma read_file_loop_ok n s c cs remaining offset buf bufsize : volume s -> chain s c cs -> 0 <= remaining <= bufsize - offset -> 0 <= offset ->
  bufsize mod cluster_size (bpb s) = 0 -> offset mod cluster_size (bpb s) = 0 -> remaining < 512 * Z.of_nat n ->
  let n_out := Z.min remaining (len cs * cluster_size (bpb s)) in
  exists cs', cs' `prefix_of` cs /\ n_out <= len (contents s cs') <= bufsize - offset /\
    read_file_loop n s c remaining offset buf bufsize = Some (offset + n_out, buf ++ contents s cs').
Proof.
  intros V C. destruct (v_cluster s V) as [Hz1 Hz2]. set (sz := cluster_size (bpb s)) in *. revert n remaining offset buf. induction C as [c E|c cs Hc C IH]; intros n remaining offset buf Hr Ho Hb Hm Hn n_out.
  - exists []. split; [done|]. assert (n_out = 0) as -> by (unfold n_out; change (len []) with 0; lia). split; [change (len (contents s [])) with 0; lia|]. destruct n; cbn [read_file_loop]; rewrite E; cbn [negb orb]; by rewrite app_nil_r, Z.add_0_r.
  - pose proof (len_nonneg cs). destruct (Z.leb_spec remaining 0) as [Hz|Hpos].
    + exists []. split; [apply prefix_nil|]. assert (n_out = 0) as -> by (unfold n_out; rewrite len_cons; nia). split; [change (len (contents s [])) with 0; lia|].
      destruct n; cbn [read_file_loop]; rewrite (proj2 (Z.leb_le _ _) Hz), orb_true_r; by rewrite app_nil_r, Z.add_0_r.
    + destruct n as [|n]; [lia|]. cbn [read_file_loop]. rewrite (valid_in_chain s c V Hc), (proj2 (Z.leb_gt _ _) Hpos). cbn [negb orb]. fold sz.
      assert (Hfit : offset + sz <= bufsize).
      { pose proof (Z.div_mod bufsize sz ltac:(lia)) as E1. pose proof (Z.div_mod offset sz ltac:(lia)) as E2. rewrite Hb in E1. rewrite Hm in E2. assert (offset / sz < bufsize / sz) by (apply Z.mul_lt_mono_pos_l with sz; lia). nia. }
      rewrite (proj2 (Z.ltb_ge _ _)) by lia. rewrite read_cluster_ok by done. cbv zeta. rewrite fat_get_ok by (done || by apply valid_fat).
      pose proof (len_cluster s c V Hc) as Hlc. fold sz in Hlc. destruct (Z.ltb_spec remaining sz) as [Hlt|Hge].
      * exists [c]. split; [exists cs; done|]. rewrite contents_cons, len_app, Hlc. change (contents s []) with (@nil Z). change (len []) with 0; rewrite app_nil_r.
        assert (n_out = remaining) as -> by (unfold n_out; rewrite len_cons; nia). split; [lia|]. replace (remaining - remaining) with 0 by lia.
        destruct n; cbn [read_file_loop]; by rewrite orb_true_r.
      * destruct (IH n (remaining - sz) (offset + sz) (buf ++ cluster s c) ltac:(lia) ltac:(lia) Hb) as (cs' & Hp & Hl & ->); [rewrite Z.add_mod, Hm, Z.mod_same by lia; done|lia|].
        exists (c :: cs'). split; [by apply prefix_cons|]. rewrite contents_cons, len_app, Hlc. unfold n_out. rewrite len_cons. split; [lia|]. rewrite app_assoc. do 2 f_equal. nia.
Qed.

Lemma contents_prefix s cs cs' n : cs' `prefix_of` cs -> Z.of_nat n <= len (contents s cs') -> take n (contents s cs') = take n (contents s cs).
Proof. intros [k ->] Hn. rewrite contents_app, take_app_le by (unfold len in Hn; lia). done. Qed.

(** What comes into a buffer of whole clusters. *)
Lemma fat32_read_file_ok s c cs size bufsize : volume s -> chain s c cs -> cs <> [] -> 0 <= size -> 0 <= bufsize -> bufsize mod cluster_size (bpb s) = 0 ->
  let n := Z.min (Z.min size bufsize) (len cs * cluster_size (bpb s)) in
  exists buf, fat32_read_file s c size bufsize = Some (n, buf) /\ n <= len buf <= bufsize /\ take (Z.to_nat n) buf = take (Z.to_nat n) (contents s cs).
Proof.
  intros V C Hne Hs Hb Hm n. unfold fat32_read_file. rewrite (v_mounted s V). assert (Hc : valid s c) by (inversion C; subst; done). unfold valid in Hc.
  rewrite (proj2 (Z.ltb_ge c 2)) by lia. cbn [negb orb]. assert (Emin : (if size <? bufsize then size else bufsize) = Z.min size bufsize) by (destruct (Z.ltb_spec size bufsize); lia). rewrite Emin.
  destruct (read_file_loop_ok (Z.to_nat (Z.min size bufsize / 512 + 1)) s c cs (Z.min size bufsize) 0 [] bufsize V C ltac:(lia) ltac:(lia) Hm) as (cs' & Hp & Hl & ->);
    [by rewrite Zmod_0_l|zlia|]. exists (contents s cs'). split; [done|]. fold n in Hl. split; [lia|]. apply contents_prefix; [done|]. pose proof (len_nonneg cs). destruct (v_cluster s V). unfold n in *. lia.
Qed.
End volume.
