(* ===== verification/Fat32Files.v ===== *)
(** * Files and directories of a FAT32 volume

    Writing over the clusters of a file, the entries of a directory and their bytes, and
    the properties of kernel/fs/fat32.c. *)

From S2P Require Import Prelude Fat32 Fat32Volume.

Lemma splice_splice {A} `{Inhabited A} (d : list A) p x y : 0 <= p -> p + len x + len y <= len d -> splice (splice d p x) (p + len x) y = splice d p (x ++ y).
Proof.
  intros Hp Hl. pose proof (len_nonneg x). pose proof (len_nonneg y). assert (Hs : len (splice d p x) = len d) by (apply len_splice; lia).
  apply list_ext_geti; [rewrite !len_splice; rewrite ?len_app, ?Hs; lia|]. intros i Hi. rewrite len_splice in Hi by (rewrite ?Hs; lia). rewrite Hs in Hi.
  rewrite (geti_splice (splice _ _ _)) by (rewrite ?Hs; lia). rewrite !geti_splice by (rewrite ?len_app; lia). rewrite len_app.
  repeat case_decide; try lia; rewrite ?geti_app by lia; repeat case_decide; try lia; f_equal; lia.
Qed.

(** ** Entries and their bytes *)

(** What a name has: no space, dot or slash. *)
Definition plain (c : Z) : Prop := 0 < c < 256 /\ c <> 32 /\ c <> 46 /\ c <> 47.

(** A name as the disk can hold it: a base, and behind a dot an extension that may be empty. *)
Record good_83 (base ext : list Z) : Prop := {
  g_base : (1 <= length base <= 8)%nat; g_ext : (length ext <= 3)%nat;
  g_plain : Forall plain base /\ Forall plain ext; g_used : base.[0] <> 0xE5 }.
Definition join83 (base ext : list Z) : list Z := if bool_decide (ext = []) then base else base ++ 46 :: ext.

Lemma until_none c l : Forall (fun x => x <> c) l -> until c l = l.
Proof. induction 1 as [|x l Hx Hl IH]; [done|]. cbn [until]. rewrite (proj2 (Z.eqb_neq x c) Hx). by rewrite IH. Qed.
Lemma until_stop c l r : Forall (fun x => x <> c) l -> until c (l ++ c :: r) = l.
Proof. induction 1 as [|x l Hx Hl IH]; cbn [until app]; [by rewrite Z.eqb_refl|]. rewrite (proj2 (Z.eqb_neq x c) Hx). by rewrite IH. Qed.
Lemma after_none c l : Forall (fun x => x <> c) l -> after c l = None.
Proof. induction 1 as [|x l Hx Hl IH]; [done|]. cbn [after]. by rewrite (proj2 (Z.eqb_neq x c) Hx). Qed.
Lemma after_stop c l r : Forall (fun x => x <> c) l -> after c (l ++ c :: r) = Some r.
Proof. induction 1 as [|x l Hx Hl IH]; cbn [after app]; [by rewrite Z.eqb_refl|]. by rewrite (proj2 (Z.eqb_neq x c) Hx). Qed.

Lemma plain_not l c : c = 0 \/ c = 32 \/ c = 46 \/ c = 47 -> Forall plain l -> Forall (fun x => x <> c) l.
Proof. intros Hc. induction 1 as [|x l [Hx1 [Hx2 [Hx3 Hx4]]] Hl IH]; constructor; [lia|done]. Qed.

Lemma pad_short n l : (length l <= n)%nat -> pad n l = l ++ replicate (n - length l) 32.
Proof. intros Hl. unfold pad. by rewrite take_ge by done. Qed.
Lemma len_pad n l : len (pad n l) = Z.of_nat n.
Proof. unfold pad, len. rewrite length_app, length_take, length_replicate. lia. Qed.

Lemma until_pad n l : (length l <= n)%nat -> Forall plain l -> until 32 (pad n l) = l.
Proof.
  intros Hl Hp. rewrite pad_short by done. pose proof (plain_not l 32 ltac:(auto) Hp). destruct (n - length l)%nat; cbn [replicate]; [rewrite app_nil_r; by apply until_none|by apply until_stop].
Qed.

Lemma format_join base ext : good_83 base ext -> format_83_name (join83 base ext) = pad 8 base ++ pad 3 ext.
Proof.
  intros [Hb He [Hpb Hpe] _]. unfold format_83_name, join83. pose proof (plain_not base 46 ltac:(auto) Hpb). case_bool_decide as E.
  - subst ext. by rewrite after_none.
  - by rewrite after_stop, until_stop.
Qed.

Lemma byte_bit v k j : 0 <= k -> Z.testbit (Z.land (Z.shiftr v k) 0xFF) j = (0 <=? j) && (j <? 8) && Z.testbit v (j + k).
Proof.
  intros Hk. change 0xFF with (Z.ones 8). rewrite Z.land_spec. destruct (Z.leb_spec 0 j); [|by rewrite !Z.testbit_neg_r by done].
  rewrite Z.shiftr_spec, Z.testbit_ones_nonneg by lia. rewrite andb_comm. by destruct (j <? 8).
Qed.

(** The four bytes of a word, in any order and with the high one cut at 32 bits. *)
Lemma word_bytes v : 0 <= v < 2 ^ 32 ->
  Z.lor (Z.lor (Z.lor (Z.shiftl (Z.land (Z.shiftr v 16) 0xFF) 16) (u32 (Z.shiftl (Z.land (Z.shiftr v 24) 0xFF) 24))) (Z.land (Z.shiftr v 0) 0xFF)) (Z.shiftl (Z.land (Z.shiftr v 8) 0xFF) 8) = v /\
  Z.lor (Z.lor (Z.lor (Z.land (Z.shiftr v 0) 0xFF) (Z.shiftl (Z.land (Z.shiftr v 8) 0xFF) 8)) (Z.shiftl (Z.land (Z.shiftr v 16) 0xFF) 16)) (u32 (Z.shiftl (Z.land (Z.shiftr v 24) 0xFF) 24)) = v.
Proof.
  intros Hv. split.
  all: apply Z.bits_inj'; intros i Hi; unfold wrap; rewrite !Z.lor_spec, !Z.testbit_mod_pow2, !Z.shiftl_spec, !byte_bit by lia.
  all: destruct (Z.testbit v i) eqn:E; [assert (i < 32) by (destruct (Z.ltb_spec i 32); [done|]; by rewrite (testbit_high 32) in E by lia)|].
  all: rewrite ?Z.sub_add, ?Z.add_0_r, E, ?andb_false_r, ?andb_true_r; try done.
  all: destruct (Z.leb_spec 0 (i - 16)), (Z.ltb_spec (i - 16) 8), (Z.ltb_spec i 32), (Z.leb_spec 0 (i - 24)), (Z.ltb_spec (i - 24) 8), (Z.leb_spec 0 i), (Z.ltb_spec i 8), (Z.leb_spec 0 (i - 8)), (Z.ltb_spec (i - 8) 8); try done; lia.
Qed.

Record good_entry (base ext : list Z) (de : fat32_dirent) : Prop := {
  e_name : good_83 base ext /\ de_name de = join83 base ext;
  e_attr : 0 <= de_attr de < 256 /\ de_attr de <> 0x0F /\ Z.land (de_attr de) 8 = 0;
  e_dir : de_dir de = negb (Z.land (de_attr de) 0x10 =? 0);
  e_cluster : 0 <= de_cluster de < 2 ^ 32;
  e_size : 0 <= de_size de < 2 ^ 32;
}.

Lemma raw_parts base ext de : good_entry base ext de -> exists tail, build_raw_entry de = (pad 8 base ++ pad 3 ext) ++ tail /\ len tail = 21 /\
  tail = [de_attr de; 0; 0; 0x00; 0x60; 0x21; 0x46; 0x21; 0x46; Z.land (Z.shiftr (de_cluster de) 16) 0xFF; Z.land (Z.shiftr (de_cluster de) 24) 0xFF; 0x00; 0x60; 0x21; 0x46;
    Z.land (Z.shiftr (de_cluster de) 0) 0xFF; Z.land (Z.shiftr (de_cluster de) 8) 0xFF; Z.land (Z.shiftr (de_size de) 0) 0xFF; Z.land (Z.shiftr (de_size de) 8) 0xFF;
    Z.land (Z.shiftr (de_size de) 16) 0xFF; Z.land (Z.shiftr (de_size de) 24) 0xFF].
Proof. intros [[G E] _ _ _ _]. unfold build_raw_entry. rewrite E, format_join by done. eexists. split; [reflexivity|]. split; reflexivity. Qed.

Lemma raw_bytes base ext de : good_entry base ext de ->
  len (build_raw_entry de) = 32 /\ slice (build_raw_entry de) 0 11 = format_83_name (de_name de) /\
  (build_raw_entry de).[0] = base.[0] /\ (build_raw_entry de).[11] = de_attr de /\ parse_dirent (build_raw_entry de) = inr de.
Proof.
  intros Ge. destruct (raw_parts base ext de Ge) as (tail & Er & Ht & Etail). destruct Ge as [[G En] (Ha & Ha2 & Ha3) Hd Hc Hs]. destruct (G) as [Hb He [Hpb Hpe] Hu].
  set (raw := build_raw_entry de) in *. assert (Hp : len (pad 8 base ++ pad 3 ext) = 11) by (rewrite len_app, !len_pad; done).
  assert (Htail : forall i, 0 <= i < 21 -> raw.[11 + i] = tail.[i]). { intros i Hi. rewrite Er, geti_app by lia. rewrite Hp, decide_False by lia. f_equal. lia. }
  assert (H0 : raw.[0] = base.[0]). { rewrite Er, <- app_assoc, geti_app by lia. rewrite len_pad, decide_True by lia. rewrite pad_short, geti_app by (done || lia). unfold len. by rewrite decide_True by lia. }
  assert (H8 : raw.[8] = if bool_decide (ext = []) then 32 else ext.[0]).
  { rewrite Er, <- app_assoc, geti_app by lia. rewrite len_pad, decide_False by lia. change (8 - Z.of_nat 8) with 0. rewrite geti_app by lia. rewrite len_pad, decide_True by lia. rewrite pad_short by done.
    destruct ext as [|x ext]; done. }
  assert (Hbase : 0 < base.[0] < 256). { destruct base as [|b0 base]; [simpl in Hb; lia|]. inversion Hpb as [|? ? [P _]]; subst. exact P. }
  assert (Hl : len raw = 32) by (rewrite Er, len_app, Hp, Ht; done).
  assert (Hs11 : slice raw 0 11 = format_83_name (de_name de)). { rewrite En, format_join by done. unfold slice. rewrite Z2Nat.inj_0, drop_0, Er. apply take_app_length'. unfold len in Hp. lia. }
  split; [done|]. split; [done|]. split; [done|]. pose proof (Htail 0 ltac:(lia)) as H11. rewrite Etail in H11. change (11 + 0) with 11 in H11. split; [exact H11|].
  unfold parse_dirent. rewrite H0, H8, H11. rewrite (proj2 (Z.eqb_neq base.[0] 0)) by lia. rewrite (proj2 (Z.eqb_neq _ 0xE5)) by done.
  change ([de_attr de; 0; 0; 0; 96; 33; 70; 33; 70; _; _; _; _; _; _; _; _; _; _; _; _].[0]) with (de_attr de).
  rewrite (proj2 (Z.eqb_neq (de_attr de) 0x0F)) by done.
  assert (T8 : take 8 raw = pad 8 base). { rewrite Er, <- app_assoc. apply take_app_length'. pose proof (len_pad 8 base). unfold len in *. lia. }
  assert (S3 : slice raw 8 3 = pad 3 ext). { unfold slice. rewrite Er, <- app_assoc. change (Z.to_nat 8) with 8%nat. rewrite drop_app_length' by (pose proof (len_pad 8 base); unfold len in *; lia).
    apply take_app_length'. pose proof (len_pad 3 ext). unfold len in *. lia. }
  rewrite T8, S3, !until_pad by (done || lia).
  assert (T : forall i v, 0 <= i < 21 -> tail.[i] = v -> raw.[11 + i] = v) by (intros i v Hi <-; by apply Htail). rewrite Etail in T.
  pose proof (T 9 (Z.land (Z.shiftr (de_cluster de) 16) 0xFF) ltac:(lia) eq_refl : raw.[20] = _) as T20.
  pose proof (T 10 (Z.land (Z.shiftr (de_cluster de) 24) 0xFF) ltac:(lia) eq_refl : raw.[21] = _) as T21.
  pose proof (T 15 (Z.land (Z.shiftr (de_cluster de) 0) 0xFF) ltac:(lia) eq_refl : raw.[26] = _) as T26.
  pose proof (T 16 (Z.land (Z.shiftr (de_cluster de) 8) 0xFF) ltac:(lia) eq_refl : raw.[27] = _) as T27.
  pose proof (T 17 (Z.land (Z.shiftr (de_size de) 0) 0xFF) ltac:(lia) eq_refl : raw.[28] = _) as T28.
  pose proof (T 18 (Z.land (Z.shiftr (de_size de) 8) 0xFF) ltac:(lia) eq_refl : raw.[29] = _) as T29.
  pose proof (T 19 (Z.land (Z.shiftr (de_size de) 16) 0xFF) ltac:(lia) eq_refl : raw.[30] = _) as T30.
  pose proof (T 20 (Z.land (Z.shiftr (de_size de) 24) 0xFF) ltac:(lia) eq_refl : raw.[31] = _) as T31.
  rewrite T20, T21, T26, T27, T28, T29, T30, T31.
  destruct (word_bytes (de_cluster de) Hc) as [-> _]. destruct (word_bytes (de_size de) Hs) as [_ ->]. rewrite <- Hd. f_equal. destruct de as [nm at_ cl sz dd]. cbn in *. f_equal.
  subst nm. unfold join83. pose proof (plain_not base 0 ltac:(auto) Hpb) as P0. pose proof (plain_not ext 0 ltac:(auto) Hpe) as P1.
  assert (Cs : forall l, Forall (fun x => x <> 0) l -> cstr l = l). { clear. induction 1 as [|x l Hx Hl IH]; [done|]. cbn [cstr]. rewrite (proj2 (Z.eqb_neq x 0) Hx). by rewrite IH. }
  case_bool_decide as E; [by apply Cs|]. destruct ext as [|x ext]; [done|]. inversion Hpe as [|? ? (_ & Hx & _)]; subst. cbn [geti]. change ((x :: ext).[0]) with x. rewrite (proj2 (Z.eqb_neq x 32)) by done.
  apply Cs. apply Forall_app. split; [done|]. constructor; [done|done].
Qed.

Section files.
Context {D : Type} `{LawfulDisk D}.
Implicit Types s : @fat32 D.

Lemma geti_contents s cs i : volume s -> Forall (valid s) cs -> 0 <= i < len cs * cluster_size (bpb s) ->
  (contents s cs).[i] = (cluster s cs.[i / cluster_size (bpb s)]).[i mod cluster_size (bpb s)].
Proof.
  intros V Hf. destruct (v_cluster s V) as [Hz _]. set (sz := cluster_size (bpb s)) in *. revert i. induction Hf as [|c cs Hc Hf IH]; intros i Hi; [change (len []) with 0 in Hi; lia|].
  rewrite contents_cons, geti_app by lia. rewrite (len_cluster s c V Hc). fold sz. rewrite len_cons in Hi. case_decide as Hlt.
  - rewrite Z.div_small, Z.mod_small by lia. done.
  - replace i with ((i - sz) + 1 * sz) at 2 3 by lia. rewrite Z.div_add, Z.mod_add by lia. rewrite IH by lia. f_equal. f_equal.
    pose proof (Z.div_pos (i - sz) sz). unfold geti. rewrite Z2Nat.inj_add by lia. change (Z.to_nat 1) with 1%nat. by rewrite Nat.add_comm.
Qed.

(** The clusters of a file hold other bytes, the rest of the volume is the same. *)
Record rewrote s s' (cs : list Z) (data : list Z) : Prop := {
  r_same : same_volume s s';
  r_entry : forall e, 0 <= e < 128 * fat_size_sectors (bpb s) -> entry s' e = entry s e;
  r_contents : contents s' cs = data;
  r_other : forall c, valid s c -> c ∉ cs -> cluster s' c = cluster s c;
}.

Lemma write_part s s' cs k p x : volume s -> Forall (valid s) cs -> NoDup cs -> 0 <= k < len cs -> 0 <= p -> p + len x <= cluster_size (bpb s) ->
  wrote s s' cs.[k] (splice (cluster s cs.[k]) p x) -> rewrote s s' cs (splice (contents s cs) (k * cluster_size (bpb s) + p) x).
Proof.
  intros V Hf Hnd Hk Hp Hx [Hs He Hcl]. destruct (v_cluster s V) as [Hz _]. set (sz := cluster_size (bpb s)) in *. pose proof (len_nonneg x).
  assert (Hin : forall j, 0 <= j < len cs -> valid s cs.[j]).
  { intros j Hj. rewrite Forall_lookup in Hf. apply (Hf (Z.to_nat j)). by apply geti_lookup. }
  constructor; [done|done| |].
  - pose proof (volume_same _ _ V Hs) as V'. assert (Hf' : Forall (valid s') cs) by (eapply Forall_impl; [|exact Hf]; intros c; unfold valid; by rewrite (sv_bpb _ _ Hs)).
    assert (El : len (contents s cs) = len cs * sz) by (by apply fat_len_contents). assert (El' : len (contents s' cs) = len cs * sz) by (rewrite fat_len_contents by done; by rewrite (sv_bpb _ _ Hs)).
    apply list_ext_geti; [rewrite len_splice; rewrite ?El, ?El'; nia|]. rewrite El'. intros i Hi.
    rewrite geti_splice by (rewrite ?El; nia). rewrite !geti_contents by (rewrite ?(sv_bpb _ _ Hs); done). rewrite (sv_bpb _ _ Hs). fold sz.
    pose proof (Z.div_mod i sz ltac:(lia)) as Ei. pose proof (Z.mod_pos_bound i sz ltac:(lia)). set (q := i / sz) in *. set (r := i mod sz) in *.
    assert (Hq : 0 <= q < len cs) by nia. rewrite Hcl by (by apply Hin). case_decide as Eq.
    + assert (q = k) as ->. { apply (NoDup_lookup cs (Z.to_nat q) (Z.to_nat k) cs.[k]) in Hnd; [lia|rewrite <- Eq; by apply geti_lookup|by apply geti_lookup]. }
      rewrite geti_splice by (rewrite ?(len_cluster s _ V (Hin k Hk)); lia). repeat case_decide; try lia; f_equal; lia.
    + rewrite decide_False; [done|]. intros Hr. apply Eq. f_equal. nia.
  - intros c Hc Hnin. rewrite Hcl by done. rewrite decide_False; [done|]. intros ->. apply Hnin. apply (list_elem_of_lookup_2 cs (Z.to_nat k) cs.[k]). by apply geti_lookup.
Qed.

Lemma rewrote_next s s' cs data : rewrote s s' cs data -> volume s -> forall c cs', chain s c cs' -> chain s' c cs'.
Proof.
  intros R V c cs' C. apply (fat_chain_ext s); [apply R| |done]. intros x Hx. pose proof (fat_chain_valid _ _ _ C) as Hf. rewrite Forall_forall in Hf.
  unfold next. rewrite (r_entry _ _ _ _ R); [done|]. pose proof (valid_fat s x V (Hf x (proj1 (list_elem_of_In _ _) Hx))). lia.
Qed.

Lemma walk_to_ok fuel s c cs b target : volume s -> chain s c cs -> 0 <= b <= target -> target < b + len cs * cluster_size (bpb s) -> target + cluster_size (bpb s) < 2 ^ 32 ->
  target - b < Z.of_nat fuel * cluster_size (bpb s) ->
  let k := (target - b) / cluster_size (bpb s) in walk_to fuel s c b target = Some (s, Some (cs.[k], b + k * cluster_size (bpb s))).
Proof.
  intros V C. destruct (v_cluster s V) as [Hz _]. set (sz := cluster_size (bpb s)) in *. revert fuel b. induction C as [c E|c cs Hc C IH]; intros fuel b Hb Ht Hw Hf k; [change (len []) with 0 in Ht; lia|].
  assert (Ew : walk_to fuel s c b target = if target <? b + sz then Some (s, Some (c, b)) else walk_to fuel s c b target).
  { destruct fuel; cbn [walk_to]; fold sz; rewrite (wrap_small 32 (b + sz)) by lia; by destruct (target <? b + sz). }
  rewrite Ew. destruct (Z.ltb_spec target (b + sz)) as [Hlt|Hge].
  { assert (k = 0) as -> by (unfold k; apply Z.div_small; lia). by rewrite Z.mul_0_l, Z.add_0_r. }
  destruct fuel as [|fuel]; [lia|]. cbn [walk_to]. fold sz. rewrite (wrap_small 32 (b + sz)) by lia. rewrite (proj2 (Z.ltb_ge _ _)) by lia. rewrite fat_get_ok by (done || by apply valid_fat).
  rewrite len_cons in Ht. assert (Hne : cs <> []) by (intros ->; change (len []) with 0 in Ht; lia). assert (Hn : in_chain (next s c) = true).
  { inversion C as [|? ? Hv _]; subst; [done|]. by apply (valid_in_chain s). }
  rewrite Hn. rewrite IH by lia. assert (Ek : k = (target - (b + sz)) / sz + 1).
  { unfold k. replace (target - b) with (target - (b + sz) + 1 * sz) by lia. by rewrite Z.div_add by lia. }
  pose proof (Z.div_pos (target - (b + sz)) sz ltac:(lia) ltac:(lia)). rewrite Ek. do 4 f_equal; [|lia]. unfold geti. rewrite Z2Nat.inj_add by lia. change (Z.to_nat 1) with 1%nat. by rewrite Nat.add_comm.
Qed.

(** Clusters of one sector: what a write over a chain does from byte [b] of its buffer on. *)
Lemma fat_write_loop_ok n s c cs buf offset b : volume s -> chain s c cs -> cluster_size (bpb s) = 512 -> 0 <= offset -> 0 <= b <= len buf ->
  offset + len buf <= len cs * 512 -> offset + len buf + 512 < 2 ^ 32 -> b = len buf \/ (offset + len buf) / 512 + 1 - (offset + b) / 512 <= Z.of_nat n ->
  exists s', write_loop n s c buf offset b = Some (s', len buf) /\ rewrote s s' cs (splice (contents s cs) (offset + b) (drop (Z.to_nat b) buf)).
Proof.
  intros V C Ez Ho Hb Hl Hw. revert s b V C Ez Hb. induction n as [|n IH]; intros s b V C Ez Hb Hn.
  all: pose proof (fat_chain_valid _ _ _ C) as Hf; pose proof (fat_len_contents s cs V Hf) as Hlc; rewrite Ez in Hlc.
  all: assert (Hend : b = len buf -> exists s', Some (s, b) = Some (s', len buf) /\ rewrote s s' cs (splice (contents s cs) (offset + b) (drop (Z.to_nat b) buf))).
  1, 3: intros ->; exists s; split; [done|]; constructor; [done|done| |done]; rewrite drop_ge by (unfold len; lia); by rewrite splice_nil by lia.
  - cbn [write_loop]. assert (b = len buf) as Eb by (destruct Hn; [done|zlia]). rewrite (proj2 (Z.leb_le _ _)) by lia. by apply Hend.
  - cbn [write_loop]. destruct (Z.leb_spec (len buf) b) as [Hle|Hlt]; [apply Hend; lia|]. clear Hend. destruct Hn as [->|Hn]; [lia|].
    rewrite (wrap_small 32) by lia. set (t := offset + b) in *. rewrite (walk_to_ok _ s c cs 0 t V C) by (rewrite ?Ez; zlia). rewrite Z.sub_0_r, Ez, Z.add_0_l. cbv zeta. cbn [mbind option_bind]. rewrite Ez.
    pose proof (Z.div_mod t 512 ltac:(lia)) as Et. pose proof (Z.mod_pos_bound t 512 ltac:(lia)). set (k := t / 512) in *. assert (Hk : 0 <= k < len cs) by lia.
    replace (t - k * 512) with (t mod 512) by lia. set (p := t mod 512) in *. cbn [Z.ltb Z.compare Pos.compare Pos.compare_cont]. cbv iota.
    assert (Hv : valid s cs.[k]) by (rewrite Forall_lookup in Hf; apply (Hf (Z.to_nat k)); by apply geti_lookup). rewrite read_cluster_ok by done.
    set (w := if 512 - p <? len buf - b then 512 - p else len buf - b). assert (Ew : w = Z.min (512 - p) (len buf - b)) by (unfold w; destruct (Z.ltb_spec (512 - p) (len buf - b)); lia). clearbody w.
    assert (Hx : len (slice buf b w) = w) by (apply len_slice; lia). pose proof (len_cluster s _ V Hv) as Hlk. rewrite Ez in Hlk.
    destruct (write_cluster_ok s cs.[k] (splice (cluster s cs.[k]) p (slice buf b w)) V Hv) as (s1 & -> & W); [rewrite len_splice; rewrite ?Hx, ?Hlk, ?Ez; lia|]. cbn [Z.ltb Z.compare].
    pose proof (write_part s s1 cs k p (slice buf b w) V Hf (fat_chain_nodup _ _ _ V C) Hk ltac:(lia) ltac:(rewrite Hx, Ez; lia) W) as R. rewrite Ez in R. replace (k * 512 + p) with t in R by lia.
    pose proof (volume_same _ _ V (r_same _ _ _ _ R)) as V1. pose proof (rewrote_next _ _ _ _ R V _ _ C) as C1. pose proof (sv_bpb _ _ (r_same _ _ _ _ R)) as Eb.
    destruct (IH s1 (b + w) V1 C1 ltac:(by rewrite Eb) ltac:(lia)) as (s2 & -> & R2).
    { destruct (decide (w = len buf - b)); [left; lia|]. right. assert (w = 512 - p) as -> by lia. replace (offset + (b + (512 - p))) with (t mod 512 + (k + 1) * 512 - p) by (fold p; lia).
      fold p. replace (p + (k + 1) * 512 - p) with ((k + 1) * 512) by lia. rewrite Z.div_mul by lia. lia. }
    exists s2. split; [done|]. constructor.
    + transitivity s1; [apply R|apply R2].
    + intros e He. rewrite (r_entry _ _ _ _ R2) by (by rewrite Eb). by apply R.
    + rewrite (r_contents _ _ _ _ R2), (r_contents _ _ _ _ R). replace (offset + (b + w)) with (t + len (slice buf b w)) by (rewrite Hx; lia).
      rewrite splice_splice; [|lia|rewrite Hx, Hlc; unfold len; rewrite length_drop; unfold len in *; lia]. f_equal. unfold slice. rewrite Z2Nat.inj_add by lia. rewrite <- drop_drop. apply take_drop.
    + intros x Hvx Hnin. rewrite (r_other _ _ _ _ R2); [by apply R|unfold valid; by rewrite Eb|done].
Qed.

Lemma fat32_write_file_ok s c cs size buf offset : volume s -> chain s c cs -> cluster_size (bpb s) = 512 -> 0 <= offset -> 0 < len buf ->
  offset + len buf <= len cs * 512 -> offset + len buf + 512 < 2 ^ 32 ->
  exists s', fat32_write_file s c size buf offset = Some (s', len buf, Some (c, Z.max size (offset + len buf))) /\ rewrote s s' cs (splice (contents s cs) offset buf).
Proof.
  intros V C Ez Ho Hp Hl Hw. unfold fat32_write_file. rewrite (v_mounted s V), (v_writable s V), (proj2 (Z.eqb_neq (len buf) 0)) by lia. cbn [negb orb].
  assert (Hc : valid s c). { inversion C; subst; [change (len []) with 0 in Hl; lia|done]. } unfold valid in Hc. rewrite (proj2 (Z.eqb_neq c 0)) by lia.
  destruct (fat_write_loop_ok (Z.to_nat (len buf / 512 + 2)) s c cs buf offset 0 V C Ez Ho ltac:(lia) Hl Hw) as (s' & -> & R); [right; zlia|].
  exists s'. cbn [mbind option_bind]. rewrite (wrap_small 32) by lia. rewrite Z.add_0_r in R. split; [|done]. do 4 f_equal. destruct (Z.ltb_spec size (offset + len buf)); lia.
Qed.

(** ** Directories *)

Definition ent (buf : list Z) (k : Z) : list Z := slice buf (32 * k) 32.
Definition skipped (e : list Z) : bool := (e.[0] =? 0xE5) || (e.[11] =? 0x0F) || negb (Z.land e.[11] 8 =? 0).

(** Entry [k] of a directory is the first with this name, on the disk and in a listing. *)
Record slot (buf : list Z) (k : Z) (base ext : list Z) (de : fat32_dirent) : Prop := {
  s_range : 0 <= k < 64 /\ 32 * k + 32 <= len buf;
  s_before : forall j, 0 <= j < k -> buf.[32 * j] <> 0 /\ slice buf (32 * j) 11 <> format_83_name (join83 base ext) /\
    (skipped (ent buf j) = true \/ forall d, parse_dirent (ent buf j) = inr d -> de_name d <> join83 base ext);
  s_name : slice buf (32 * k) 11 = format_83_name (join83 base ext);
  s_used : buf.[32 * k] <> 0;
  s_listed : skipped (ent buf k) = false;
  s_entry : parse_dirent (ent buf k) = inr de;
  s_good : good_entry base ext de;
}.

Lemma ent_first buf j : 0 <= j -> 32 * j + 32 <= len buf -> (ent buf j).[0] = buf.[32 * j].
Proof. intros Hj Hl. unfold ent. rewrite geti_slice by lia. f_equal. lia. Qed.

Lemma find_entries n buf j max k base ext de : slot buf k base ext de -> 0 <= j <= k -> k - j < max -> k - j < Z.of_nat n ->
  find_name (parse_entries n buf (32 * j) max) (join83 base ext) = Some de.
Proof.
  intros [[Hk Hl] Hbefore _ Hu Hli He [[_ En] _ _ _ _]]. revert j max. induction n as [|n IH]; intros j max Hj Hm Hn; [lia|]. cbn [parse_entries].
  rewrite (proj2 (Z.ltb_ge (len buf) _)) by lia. rewrite (proj2 (Z.leb_gt max 0)) by lia. cbn [orb]. fold (ent buf j). fold (skipped (ent buf j)). rewrite ent_first by lia.
  replace (32 * j + 32) with (32 * (j + 1)) by lia. destruct (decide (j = k)) as [->|Hne].
  - rewrite (proj2 (Z.eqb_neq _ 0) Hu). rewrite Hli, He. unfold find_name. cbn [find]. by rewrite bool_decide_true by done.
  - destruct (Hbefore j ltac:(lia)) as (Hu0 & _ & Hd). rewrite (proj2 (Z.eqb_neq _ 0) Hu0). destruct (skipped (ent buf j)); [apply IH; lia|].
    destruct Hd as [?|Hd]; [done|]. destruct (parse_dirent (ent buf j)) as [e|d]; [apply IH; lia|]. unfold find_name. cbn [find]. rewrite bool_decide_false by (by apply Hd). apply IH; lia.
Qed.

Lemma lookup_slot s ds buf k base ext de : volume s -> chain s (root_cluster (bpb s)) ds -> contents s ds = buf -> len buf <= LIST_BUF -> slot buf k base ext de ->
  fat32_lookup_in_dir s (root_cluster (bpb s)) (join83 base ext) = Some de /\ fat32_lookup s (join83 base ext) = Some de.
Proof.
  intros V C Eb Hl Sl. pose proof (s_range _ _ _ _ _ Sl) as [Hk Hkl]. assert (Hr : 2 <= root_cluster (bpb s)).
  { inversion C as [c E|c cs Hv]; subst; [change (len (contents s [])) with 0 in Hkl; lia|]. unfold valid in *. lia. }
  assert (El : parse_dir_entries buf FAT32_MAX_FILES = parse_entries (length buf) buf (32 * 0) 64) by done.
  assert (Hread : read_dir_cluster_chain s (root_cluster (bpb s)) LIST_BUF = Some buf).
  { rewrite <- Eb. apply read_dir_ok; [done|done|]. rewrite <- (fat_len_contents s ds V (fat_chain_valid _ _ _ C)). by rewrite Eb. }
  pose proof (find_entries (length buf) buf 0 64 k base ext de Sl ltac:(lia) ltac:(lia) ltac:(unfold len in *; lia)) as F. rewrite <- El in F.
  unfold fat32_lookup_in_dir, fat32_lookup, fat32_list_dir, fat32_list_root. rewrite (v_mounted s V), (proj2 (Z.ltb_ge _ 2)) by lia. cbn [negb orb]. rewrite Hread. cbn [mbind option_bind]. done.
Qed.

Lemma write_back_ok n s c cs buf off : volume s -> chain s c cs -> (length cs <= n)%nat -> 0 <= off -> len buf = off + len cs * cluster_size (bpb s) ->
  exists s', write_back n s c buf off = Some (s', 0) /\ rewrote s s' cs (drop (Z.to_nat off) buf).
Proof.
  intros V C. revert s c cs off V C. induction n as [|n IH]; intros s c cs off V C Hn Ho Hl; destruct C as [c E|c cs Hc C].
  1, 3: exists s; cbn [write_back]; rewrite E; cbn [negb]; split; [done|]; constructor; [done|done| |done]; change (len []) with 0 in Hl; by rewrite drop_ge by (unfold len in Hl; lia).
  { simpl in Hn. lia. }
  rewrite len_cons in Hl. destruct (v_cluster s V) as [Hz _]. pose proof (len_nonneg cs). cbn [write_back]. rewrite (valid_in_chain s c V Hc). cbn [negb]. rewrite (proj2 (Z.ltb_ge _ _)) by nia.
  set (x := slice buf off _). assert (Hx : len x = cluster_size (bpb s)) by (apply len_slice; nia).
  destruct (write_cluster_ok s c x V Hc Hx) as (s1 & -> & [Hs He Hcl]). cbn [Z.ltb Z.compare]. pose proof (volume_same _ _ V Hs) as V1. pose proof (sv_bpb _ _ Hs) as Eb.
  assert (C1 : chain s1 (next s c) cs).
  { apply (fat_chain_ext s); [done| |done]. intros y Hy. unfold next. rewrite He; [done|]. pose proof (fat_chain_valid _ _ _ C) as Hf. rewrite Forall_forall in Hf. pose proof (valid_fat s y V (Hf y (proj1 (list_elem_of_In _ _) Hy))). lia. }
  assert (Eg : fat_get s1 c = next s c). { pose proof (valid_fat s c V Hc). rewrite fat_get_ok by (rewrite ?Eb; done). unfold next. rewrite He by lia. done. }
  rewrite Eg, Eb. destruct (IH s1 (next s c) cs (off + cluster_size (bpb s)) V1 C1) as (s2 & -> & R); [simpl in Hn; lia|lia|rewrite Eb; lia|].
  pose proof (fat_chain_nodup _ _ _ V (chain_link _ _ _ Hc C)) as Hnd. pose proof (NoDup_cons_1_1 _ _ Hnd) as Hnin.
  exists s2. split; [done|]. constructor.
  - transitivity s1; [done|apply R].
  - intros e Hr. rewrite (r_entry _ _ _ _ R) by (by rewrite Eb). by apply He.
  - rewrite contents_cons, (r_contents _ _ _ _ R), (r_other _ _ _ _ R) by (done || unfold valid; by rewrite Eb). rewrite Hcl by done. rewrite decide_True by done.
    unfold x, slice. rewrite Z2Nat.inj_add by lia. rewrite <- drop_drop. apply take_drop.
  - intros y Hy Hyn. apply not_elem_of_cons in Hyn as [Hyc Hyn]. rewrite (r_other _ _ _ _ R) by (done || unfold valid; by rewrite Eb). rewrite Hcl by done. by rewrite decide_False.
Qed.

Lemma dir_end_after buf k : 0 <= k -> 32 * k + 32 <= len buf -> (forall j, 0 <= j <= k -> buf.[32 * j] <> 0) -> 32 * k + 32 <= dir_end buf.
Proof.
  intros Hk Hl Hu. unfold dir_end. destruct (find_from _ _ _) as [j|] eqn:E; cbn [fmap option_fmap option_map default]; [|lia].
  unfold id. apply find_from_Some in E as (Hj & Hz%Z.eqb_eq & _). destruct (decide (j <= k)); [by destruct (Hu j ltac:(lia))|lia].
Qed.

(** An entry is replaced in its slot. *)
Lemma replace_entry_ok fuel s ds buf k base ext de raw : volume s -> chain s (root_cluster (bpb s)) ds -> contents s ds = buf -> len buf <= DIR_BUF -> slot buf k base ext de -> len raw = 32 ->
  exists s', write_dir_entry fuel s (root_cluster (bpb s)) raw (Some (join83 base ext)) = Some (s', 0) /\ rewrote s s' ds (splice buf (32 * k) raw).
Proof.
  intros V C Eb Hl Sl Hraw. pose proof (s_range _ _ _ _ _ Sl) as [Hk Hkl]. assert (Hr : 2 <= root_cluster (bpb s)).
  { inversion C as [c E|c cs Hv]; subst; [change (len (contents s [])) with 0 in Hkl; lia|]. unfold valid in *. lia. }
  pose proof (fat_len_contents s ds V (fat_chain_valid _ _ _ C)) as Hlc. rewrite Eb in Hlc. unfold write_dir_entry. rewrite (v_writable s V), (proj2 (Z.ltb_ge _ 2)) by lia. cbn [negb orb].
  rewrite (read_dir_ok s _ ds DIR_BUF V C) by lia. rewrite Eb. cbv zeta.
  assert (Hend : 32 * k + 32 <= dir_end buf).
  { apply dir_end_after; [lia|done|]. intros j Hj. destruct (decide (j = k)) as [->|]; [exact (s_used _ _ _ _ _ Sl)|]. by apply (s_before _ _ _ _ _ Sl j); lia. }
  assert (Hfind : find_slot (fun off => bool_decide (slice buf off 11 = format_83_name (join83 base ext))) (dir_end buf) = Some (32 * k)).
  { unfold find_slot. rewrite (proj2 (find_from_Some _ _ _ k)); [done|]. split; [zlia|]. split; [apply bool_decide_eq_true; exact (s_name _ _ _ _ _ Sl)|].
    intros j Hj. apply bool_decide_eq_false. apply (s_before _ _ _ _ _ Sl j). lia. }
  rewrite Hfind. unfold write_dir. rewrite (proj2 (Z.ltb_ge _ _)) by lia. destruct (v_cluster s V) as [Hz _].
  destruct (write_back_ok (length buf) s _ ds (splice buf (32 * k) raw) 0 V C) as (s' & E & R); [unfold len in *; nia|lia|rewrite len_splice by lia; lia|]. exists s'. by rewrite E.
Qed.

Lemma slot_replaced buf k base ext de de' : slot buf k base ext de -> good_entry base ext de' -> slot (splice buf (32 * k) (build_raw_entry de')) k base ext de'.
Proof.
  intros Sl G. pose proof (s_range _ _ _ _ _ Sl) as [Hk Hkl]. destruct (raw_bytes base ext de' G) as (Hlen & R11 & R0 & Hat & Hp). pose proof (e_name _ _ _ G) as [[Hb _ [Hpb _] Hu] En].
  set (buf' := splice _ _ _). assert (Hl : len buf' = len buf) by (apply len_splice; lia). assert (Hent : ent buf' k = build_raw_entry de') by (unfold ent; replace 32 with (len (build_raw_entry de')) at 2; apply slice_splice; lia).
  assert (Hout : forall p n, 0 <= p -> 0 <= n -> p + n <= 32 * k -> slice buf' p n = slice buf p n) by (intros; apply slice_splice_out; lia).
  assert (Hbase : plain base.[0]). { destruct base as [|b0 base]; [simpl in Hb; lia|]. by inversion Hpb. }
  constructor.
  - rewrite Hl. done.
  - intros j Hj. pose proof (s_before _ _ _ _ _ Sl j Hj) as (B1 & B2 & B3). unfold ent. rewrite !Hout by lia. split; [|split; [exact B2|exact B3]]. unfold buf'. rewrite geti_splice by lia. by rewrite decide_False by lia.
  - rewrite <- En, <- R11, <- Hent. unfold ent. unfold slice. rewrite Z2Nat.inj_0, drop_0, take_take. done.
  - rewrite <- ent_first, Hent, R0 by lia. destruct Hbase. lia.
  - rewrite Hent. unfold skipped. rewrite R0, Hat. destruct (e_attr _ _ _ G) as (_ & Ha1 & Ha2). rewrite (proj2 (Z.eqb_neq _ 0xE5)), (proj2 (Z.eqb_neq _ 0x0F)) by done. by rewrite Ha2.
  - by rewrite Hent.
  - done.
Qed.

Lemma with_extent_good base ext de c sz : good_entry base ext de -> 0 <= c < 2 ^ 32 -> 0 <= sz < 2 ^ 32 -> good_entry base ext (with_extent de c sz).
Proof. intros [? ? ? ? ?] Hc Hz. by constructor. Qed.

(** The entry of a file gets a new first cluster and size. *)
Lemma update_entry_ok fuel s ds buf k base ext de c sz : volume s -> chain s (root_cluster (bpb s)) ds -> contents s ds = buf -> len buf <= LIST_BUF -> slot buf k base ext de ->
  0 <= c < 2 ^ 32 -> 0 <= sz < 2 ^ 32 ->
  exists s' buf', fat32_update_entry fuel s (join83 base ext) c sz = Some (s', 0) /\ rewrote s s' ds buf' /\ len buf' = len buf /\ slot buf' k base ext (with_extent de c sz).
Proof.
  intros V C Eb Hl Sl Hc Hz. pose proof (with_extent_good base ext de c sz (s_good _ _ _ _ _ Sl) Hc Hz) as G. destruct (raw_bytes base ext _ G) as (Hlen & _).
  destruct (lookup_slot s ds buf k base ext de V C Eb Hl Sl) as [_ Lk]. unfold fat32_update_entry. rewrite (v_mounted s V), (v_writable s V), Lk. cbn [negb orb].
  destruct (replace_entry_ok fuel s ds buf k base ext de (build_raw_entry (with_extent de c sz)) V C Eb ltac:(unfold DIR_BUF, LIST_BUF in *; lia) Sl Hlen) as (s' & E & R).
  eexists s', _. split; [exact E|]. split; [exact R|]. pose proof (s_range _ _ _ _ _ Sl) as [_ Hkl]. pose proof (s_range _ _ _ _ _ Sl) as [Hk _].
  split; [apply len_splice; lia|]. eapply slot_replaced; done.
Qed.

(** ** Properties *)

(** C38: A cluster [c] is allocated when entry [c - 2] of the FAT is the first that is 0,
    whatever the entry of [c] itself holds; the entry of [c] becomes the end of a chain
    and [c - 2] stays as it is.  So every later allocation gives [c] again until
    something else fills entry [c - 2]: the second cluster of a new file is its first, its
    chain a loop.  The search fails exactly when no entry below the number of
    clusters is 0. *)
Theorem fat32_alloc_repeats s : volume s ->
  (exists c s', fat32_alloc_cluster s = (s', c) /\ found s c /\ linked s s' c 0x0FFFFFF8 /\
    (forall s1, same_volume s s1 -> (forall e, 0 <= e <= c - 2 -> entry s1 e = entry s e) -> snd (fat32_alloc_cluster s1) = c) /\
    (exists s1 s2, fat32_alloc_cluster s' = (s1, c) /\ fat_set s1 c c = (s2, 0) /\ next s2 c = c)) \/
  (fat32_alloc_cluster s = (s, 0) /\ forall e, 0 <= e < total_clusters (bpb s) -> ~ free s e).
Proof.
  intros V. destruct (fat_alloc_ok s V) as [(c & s' & E & F & L)|[E N]]; [left|by right].
  assert (Hagain : forall s1, same_volume s s1 -> (forall e, 0 <= e <= c - 2 -> entry s1 e = entry s e) -> exists s2, fat32_alloc_cluster s1 = (s2, c) /\ linked s1 s2 c 0x0FFFFFF8).
  { intros s1 Hs He. assert (F1 : found s1 c).
    { destruct F as (Hv & Hf & Hl). unfold valid in Hv. split; [unfold valid; by rewrite (sv_bpb _ _ Hs)|]. unfold free in *. split; [by rewrite He by lia|]. intros e Hr. rewrite He by lia. by apply Hl. }
    destruct (fat_alloc_ok s1 (volume_same _ _ V Hs)) as [(c1 & s2 & E1 & F2 & L2)|[_ N1]].
    - assert (c1 = c) as -> by (by apply (found_unique s1)). by exists s2.
    - destruct F1 as (Hv & Hf & _). unfold valid in Hv. by destruct (N1 (c - 2)); [lia|]. }
  pose proof (l_same _ _ _ _ L) as Hs. destruct F as (Hv & Hf & Hl) eqn:EF. pose proof (valid_fat s c V Hv) as Hcf. assert (Hc : 2 <= c < 2 ^ 28) by (destruct (v_total s V); unfold valid in Hv; lia).
  assert (Hkeep : forall e, 0 <= e <= c - 2 -> entry s' e = entry s e) by (intros e He; rewrite (l_entry _ _ _ _ L) by lia; by rewrite decide_False by lia).
  exists c, s'. split; [done|]. split; [done|]. split; [done|]. split.
  - intros s1 Hs1 He. destruct (Hagain s1 Hs1 He) as (s2 & -> & _). done.
  - destruct (Hagain s' Hs Hkeep) as (s1 & E1 & L1). pose proof (volume_same _ _ V (transitivity Hs (l_same _ _ _ _ L1))) as V1. pose proof (sv_bpb _ _ (transitivity Hs (l_same _ _ _ _ L1))) as Eb.
    destruct (fat_set_ok s1 c c V1) as (s2 & E2 & L2); [by rewrite Eb|lia|]. exists s1, s2. split; [done|]. split; [done|].
    unfold next. rewrite (l_entry _ _ _ _ L2) by (rewrite Eb; lia). rewrite decide_True by done. change 0x0FFFFFFF with (Z.ones 28). rewrite Z.land_ones, Z.mod_small by lia. done.
Qed.

(** C39: Where a cluster is one sector, a write over the clusters of a file returns its
    count and reads back, what stands before it too; the FAT and every other cluster
    stay.  Where a cluster is more, any write goes beyond the sector buffer,
    and reading into a buffer smaller than a cluster leaves that buffer. *)
Theorem fat32_write_read s c cs size buf offset bufsize :
  volume s -> chain s c cs -> 0 <= offset -> 0 < len buf -> offset + len buf <= len cs * cluster_size (bpb s) -> offset + len buf + cluster_size (bpb s) < 2 ^ 32 ->
  (cluster_size (bpb s) = 512 -> offset + len buf <= bufsize -> bufsize mod 512 = 0 ->
    exists s' b, fat32_write_file s c size buf offset = Some (s', len buf, Some (c, Z.max size (offset + len buf))) /\
      chain s' c cs /\ (forall x, valid s x -> next s' x = next s x) /\ (forall x, valid s x -> x ∉ cs -> cluster s' x = cluster s x) /\
      fat32_read_file s' c (offset + len buf) bufsize = Some (offset + len buf, b) /\
      slice b offset (len buf) = buf /\ slice b 0 offset = slice (contents s cs) 0 offset) /\
  (512 < cluster_size (bpb s) -> fat32_write_file s c size buf offset = None) /\
  (0 < size -> 0 < bufsize < cluster_size (bpb s) -> fat32_read_file s c size bufsize = None).
Proof.
  intros V C Ho Hp Hl Hw. destruct (v_cluster s V) as [Hz _]. assert (Hne : cs <> []) by (intros ->; change (len []) with 0 in Hl; lia).
  assert (Hc : valid s c) by (inversion C; subst; done). pose proof (fat_len_contents s cs V (fat_chain_valid _ _ _ C)) as Hlc. split; [|split].
  - intros Ez Hb Hm. rewrite Ez in *. destruct (fat32_write_file_ok s c cs size buf offset V C Ez Ho Hp Hl Hw) as (s' & E & R).
    pose proof (volume_same _ _ V (r_same _ _ _ _ R)) as V'. pose proof (rewrote_next _ _ _ _ R V _ _ C) as C'. pose proof (sv_bpb _ _ (r_same _ _ _ _ R)) as Eb.
    destruct (fat32_read_file_ok s' c cs (offset + len buf) bufsize V' C' Hne ltac:(lia) ltac:(lia)) as (b & Er & Hlb & Et); [by rewrite Eb, Ez|]. rewrite Eb, Ez in Er, Hlb, Et.
    replace (Z.min (Z.min (offset + len buf) bufsize) (len cs * 512)) with (offset + len buf) in Er, Hlb, Et by lia. rewrite (r_contents _ _ _ _ R) in Et.
    exists s', b. split; [done|]. split; [done|]. split; [|split; [apply R|split; [done|]]].
    { intros x Hx. unfold next. rewrite (r_entry _ _ _ _ R); [done|]. pose proof (valid_fat s x V Hx). lia. }
    assert (Hget : forall i, 0 <= i < offset + len buf -> b.[i] = (splice (contents s cs) offset buf).[i]).
    { intros i Hi. assert (Ei : (take (Z.to_nat (offset + len buf)) b).[i] = (take (Z.to_nat (offset + len buf)) (splice (contents s cs) offset buf)).[i]) by (by rewrite Et).
      unfold geti in *. rewrite !lookup_total_take_lt in Ei by lia. done. }
    split; apply list_ext_geti; rewrite !len_slice by lia; try done; intros i Hi; rewrite !geti_slice, Hget, geti_splice by lia; case_decide; try lia; f_equal; lia.
  - intros Hbig. unfold fat32_write_file. rewrite (v_mounted s V), (v_writable s V), (proj2 (Z.eqb_neq (len buf) 0)) by lia. cbn [negb orb]. unfold valid in Hc. rewrite (proj2 (Z.eqb_neq c 0)) by lia.
    destruct (Z.to_nat (len buf / 512 + 2)) as [|n] eqn:En; [zlia|]. cbn [write_loop]. rewrite (proj2 (Z.leb_gt (len buf) 0)), Z.add_0_r by lia. rewrite (wrap_small 32 offset) by lia.
    assert (Hfu : offset < (offset / 512 + 1) * 512 /\ 0 <= offset / 512) by zlia. assert (offset < (offset / 512 + 1) * cluster_size (bpb s)) by (eapply Z.lt_le_trans; [apply Hfu|apply Z.mul_le_mono_nonneg_l; lia]).
    rewrite (walk_to_ok _ s c cs 0 offset V C) by lia. cbn [mbind option_bind]. by rewrite (proj2 (Z.ltb_lt 512 _)) by exact Hbig.
  - intros Hsz Hb. unfold fat32_read_file. unfold valid in Hc. rewrite (v_mounted s V), (proj2 (Z.ltb_ge c 2)) by lia. cbn [negb orb]. set (r := if size <? bufsize then size else bufsize).
    assert (Hr : 0 < r) by (unfold r; destruct (size <? bufsize); lia). destruct (Z.to_nat (r / 512 + 1)) as [|n] eqn:En; [zlia|]. cbn [read_file_loop]. rewrite (valid_in_chain s c V Hc), (proj2 (Z.leb_gt r 0)) by lia. cbn [negb orb].
    by rewrite (proj2 (Z.ltb_lt _ _)) by lia.
Qed.
End files.

(** ** Examples *)

(** A disk that is its bytes. *)
#[export] Instance byte_disk : BlockDev (list Z) := {
  blk_read d lba n := if (0 <=? lba) && (512 * (lba + n) <=? len d) then Some (slice d (512 * lba) (512 * n)) else None;
  blk_write d lba data := if (0 <=? lba) && (512 * lba + len data <=? len d) then (splice d (512 * lba) data, true) else (d, false);
}.

#[export] Instance byte_disk_lawful : LawfulDisk (list Z).
Proof.
  refine {| image d := d |}.
  - intros d lba n Hl Hn Hb. cbn [blk_read byte_disk]. by rewrite (proj2 (Z.leb_le _ _) Hl), (proj2 (Z.leb_le _ _) Hb).
  - intros d lba data Hl Hb Hm. cbn [blk_write byte_disk]. rewrite (proj2 (Z.leb_le _ _) Hl), (proj2 (Z.leb_le _ _) Hb). by eexists.
Defined.

(** Twelve clusters of a sector: the root in cluster 2, the file HI.T in 3 and 4. *)
Definition demo_entry : fat32_dirent := mkDe [72; 73; 46; 84] 0x20 3 600 false.
Definition demo_boot : list Z :=
  splice (splice (splice (splice (splice (replicate 512 0) 11 [0; 2; 1; 1; 0; 1]) 32 (put32 14)) 36 (put32 1)) 44 (put32 2)) 510 [0x55; 0xAA].
Definition demo_fat : list Z := splice (replicate 512 0) 0 ([0x0FFFFFF8; 0x0FFFFFFF; 0x0FFFFFF8; 4; 0x0FFFFFF8] ≫= put32).
Definition demo_disk : list Z := demo_boot ++ demo_fat ++ build_raw_entry demo_entry ++ replicate 480 0 ++ replicate 600 7 ++ replicate (512 * 11 - 600) 0.
Definition demo_volume : @fat32 (list Z) := mkFat demo_disk true (mkBpb 512 1 1 512 1024 2 512 12 1) 1 true.

Example demo_init : ('(s, r) ← fat32_init (unmounted demo_disk); Some (bpb s, num_fats s, mounted s, r)) = Some (bpb demo_volume, 1, true, 0).
Proof. vm_compute. reflexivity. Qed.

Lemma demo_volume_ok : volume demo_volume.
Proof. constructor; try reflexivity; vm_compute; repeat split; congruence. Qed.

Lemma demo_chain : chain demo_volume 3 [3; 4].
Proof.
  assert (E3 : next demo_volume 3 = 4) by (vm_compute; reflexivity). assert (E4 : next demo_volume 4 = 0x0FFFFFF8) by (vm_compute; reflexivity).
  constructor; [split; vm_compute; congruence|]. rewrite E3. constructor; [split; vm_compute; congruence|]. rewrite E4. by constructor.
Qed.

Lemma fat32_alloc_repeats_witness : exists c s' s1, fat32_alloc_cluster demo_volume = (s', c) /\ fat32_alloc_cluster s' = (s1, c) /\ c = 7.
Proof.
  destruct (fat32_alloc_repeats demo_volume demo_volume_ok) as [(c & s' & E & _ & _ & _ & s1 & _ & E1 & _)|[E _]].
  - exists c, s', s1. split; [exact E|]. split; [exact E1|]. apply (f_equal snd) in E. vm_compute in E. symmetry. exact E.
  - apply (f_equal snd) in E. vm_compute in E. discriminate E.
Defined.

Lemma fat32_write_read_witness : exists s' b, fat32_write_file demo_volume 3 600 [1; 2; 3] 511 = Some (s', 3, Some (3, 600)) /\
  fat32_read_file s' 3 514 1024 = Some (514, b) /\ slice b 511 3 = [1; 2; 3].
Proof.
  destruct (fat32_write_read demo_volume 3 [3; 4] 600 [1; 2; 3] 511 1024 demo_volume_ok demo_chain) as (W & _); [lia|reflexivity|vm_compute; discriminate|vm_compute; reflexivity|].
  destruct (W eq_refl) as (s' & b & E & _ & _ & _ & Er & Eb & _); [vm_compute; discriminate|reflexivity|]. exists s', b. split; [exact E|]. split; [exact Er|exact Eb].
Defined.

(** A new file of 612 bytes: the chain of cluster 7 is a loop, the last 100 bytes stand first. *)
Example new_file_loops :
  ('(s, n, outs) ← fat32_write_file demo_volume 0 0 (replicate 512 1 ++ replicate 100 2) 0;
   '(c, size) ← outs; '(m, b) ← fat32_read_file s c size 4096;
   Some (n, c, fat_get s c, m, take 1 b, slice b 512 1)) = Some (612, 7, 7, 612, [2], [2]).
Proof. vm_compute. reflexivity. Qed.
