(* ===== verification/Fat32Shim.v ===== *)
(** * Descriptors over FAT32: kernel/fs/fat32_shim.c

    The functions the virtual file system calls: a descriptor caches its file, closing
    writes the cache back.  What kmalloc gives, with its contents, is the argument
    [fresh]; full_path is only for messages and left out, as is fat32_dir_callback, which
    does nothing.  [None] is as in [Fat32]. *)

From stdpp Require Import list.
From S2P Require Import Prelude Tmpfs Memfs Vfs Fat32.

Definition MAX_FAT32_FDS : Z := 16.
Definition FAT32_MAX_FILE : Z := 64 * 1024.
Definition FAT32_MAX_DIR_ENTRIES : Z := 128.

Record fat32_open_file := mkFile32 {
  of_used : bool; of_dir : bool; of_offset : Z; of_size : Z; of_dirty : bool; of_first : Z; of_parent : Z;
  of_data : list Z; of_cache : option (list dirent); of_name : list Z }.
Definition zero_of : fat32_open_file := mkFile32 false false 0 0 false 0 0 [] None [].
#[export] Instance open_file_inhabited : Inhabited fat32_open_file := populate zero_of.

#[export] Instance dirent_inhabited : Inhabited dirent := populate (mkDirent 0 0 []).

Definition with_offset (f : fat32_open_file) (o : Z) : fat32_open_file :=
  mkFile32 (of_used f) (of_dir f) o (of_size f) (of_dirty f) (of_first f) (of_parent f) (of_data f) (of_cache f) (of_name f).

(** The cache after a write. *)
Definition with_cached (f : fat32_open_file) (o sz : Z) (d : list Z) : fat32_open_file :=
  mkFile32 (of_used f) (of_dir f) o sz true (of_first f) (of_parent f) d (of_cache f) (of_name f).

(** The slot after a close. *)
Definition closed (f : fat32_open_file) (first : Z) : fat32_open_file := mkFile32 false false 0 0 false first (of_parent f) [] None (of_name f).

Definition to_dirent (e : fat32_dirent) : dirent := mkDirent (de_cluster e) (if de_dir e then FT_DIRECTORY else FT_REGULAR) (de_name e).

Section shim.
Context {D : Type} `{BlockDev D}.

Record shim := mkShim { fs : @fat32 D; fds : list fat32_open_file }.

Definition set_fs (s : shim) (f : fat32) : shim := mkShim f (fds s).
Definition set_fd (s : shim) (i : Z) (f : fat32_open_file) : shim := mkShim (fs s) (fds s).[i <- f].

Definition fat32_alloc_fd (s : shim) : option Z := find_from (fun i => negb (of_used (fds s).[i])) (Z.to_nat MAX_FAT32_FDS) 0.
Definition fat32_get_root_cluster (s : shim) : Z := root_cluster (bpb (fs s)).

(** ** Paths *)

Definition is_root (path : list Z) : bool := bool_decide (path = [SLASH]) || bool_decide (path = []).

Fixpoint resolve_tokens (fuel : nat) (s : shim) (cur : Z) (tok : list Z) : option Z :=
  match fuel, tok with
  | S fuel, _ :: _ =>
      let name := until SLASH tok in
      next ← (if bool_decide (name = []) then Some cur
              else
                de ← fat32_lookup_in_dir (fs s) cur name;
                if negb (de_dir de) || (de_cluster de <? 2) then None else Some (de_cluster de));
      match after SLASH tok with
      | None => Some next
      | Some rest => resolve_tokens fuel s next (skip_slashes rest)
      end
  | _, _ => Some cur
  end.

Definition resolve_cluster_for_dir (s : shim) (dir_path : list Z) : option Z :=
  if is_root dir_path then Some (fat32_get_root_cluster s)
  else
    let p := skip_slashes (take (Z.to_nat (MAX_PATH_LEN - 1)) dir_path) in
    resolve_tokens (length p) s (fat32_get_root_cluster s) p.

Fixpoint trim_slashes (n : nat) (l : list Z) : list Z :=
  match n with
  | O => l
  | S n => if (1 <? len l) && (l.[len l - 1] =? SLASH) then trim_slashes n (removelast l) else l
  end.

Definition resolve_parent_cluster (s : shim) (path : list Z) : option (Z * list Z) :=
  if is_root path then Some (fat32_get_root_cluster s, [])
  else
    let tmp := take (Z.to_nat (MAX_PATH_LEN - 1)) path in
    let tmp := trim_slashes (length tmp) tmp in
    let slash := last_slash tmp 0 (-1) in
    if slash <? 0 then Some (fat32_get_root_cluster s, take 12 tmp)
    else
      let name := take 12 (drop (Z.to_nat (slash + 1)) tmp) in
      let dir_path := if slash =? 0 then [SLASH] else take (Z.to_nat slash) tmp in
      parent ← resolve_cluster_for_dir s dir_path;
      Some (parent, name).

(** ** Opening *)

(** The slot that lists a directory; [f] is what it holds before kmalloc. *)
Definition open_dir (fresh : option (list Z)) (s : shim) (slot : Z) (f : fat32_open_file) (first : Z) (l : list fat32_dirent) : shim * Z :=
  match fresh with
  | None => (set_fd s slot f, -1)
  | Some _ => (set_fd s slot (mkFile32 true true 0 0 false first (of_parent f) [] (Some (map to_dirent l)) (of_name f)), slot)
  end.

Definition open_root (fresh : option (list Z)) (s : shim) : shim * Z :=
  match fat32_alloc_fd s with
  | None => (s, -1)
  | Some slot =>
      let root := fat32_get_root_cluster s in
      let l := match fat32_list_dir (fs s) root FAT32_MAX_DIR_ENTRIES with
               | Some l => l
               | None => default [] (fat32_list_root (fs s) FAT32_MAX_DIR_ENTRIES)
               end in
      open_dir fresh s slot (mkFile32 false false 0 0 false 0 root [] None [SLASH]) 0 l
  end.

Definition fat32_shim_open (fresh : option (list Z)) (s : shim) (path : list Z) : option (shim * Z) :=
  if negb (fat32_is_mounted (fs s)) then Some (s, -1)
  else if is_root path then Some (open_root fresh s)
  else
    match resolve_parent_cluster s path with
    | None => Some (s, -1)
    | Some (parent, name83) =>
        if bool_decide (name83 = []) then Some (s, -1)
        else
          match fat32_alloc_fd s with
          | None => Some (s, -1)
          | Some slot =>
              let found := fat32_lookup_in_dir (fs s) parent name83 in
              let f := mkFile32 false false 0 0 false 0 parent [] None name83 in
              let file de fresh :=
                match fresh with
                | None => Some (set_fd s slot f, -1)
                | Some junk =>
                    '(n, bytes) ← match de with Some de => fat32_read_file (fs s) (de_cluster de) (de_size de) FAT32_MAX_FILE | None => Some (0, []) end;
                    let first := match de with Some de => de_cluster de | None => 0 end in
                    Some (set_fd s slot (mkFile32 true false 0 (if n <? 0 then 0 else n) false first parent (splice junk 0 bytes) None name83), slot)
                end in
              match found with
              | None => if fat32_is_writable (fs s) then file None fresh else Some (s, -1)
              | Some de =>
                  if de_dir de then
                    Some (open_dir fresh s slot f (de_cluster de) (default [] (fat32_list_dir (fs s) (de_cluster de) FAT32_MAX_DIR_ENTRIES)))
                  else file (Some de) fresh
              end
          end
    end.

Definition fat32_shim_create (fuel : nat) (fresh : option (list Z)) (s : shim) (path : list Z) : option (shim * Z) :=
  if negb (fat32_is_writable (fs s)) then Some (s, -1)
  else
    match resolve_parent_cluster s path with
    | None => Some (s, -1)
    | Some (parent, name83) =>
        if bool_decide (name83 = []) then Some (s, -1)
        else
          '(f, rc, _) ← (if parent =? fat32_get_root_cluster s then fat32_create_file fuel (fs s) name83
                         else fat32_create_file_in_dir fuel (fs s) parent name83);
          if rc <? 0 then Some (set_fs s f, -1) else fat32_shim_open fresh (set_fs s f) path
    end.

(** ** Open files *)

Definition bad_file (s : shim) (fd : Z) : bool := (fd <? 0) || (MAX_FAT32_FDS <=? fd) || negb (of_used (fds s).[fd]).

(** memcpy from and to the cache. *)
Definition cached (f : fat32_open_file) (off n : Z) : option (list Z) :=
  if (off <? 0) || (len (of_data f) <? off + n) then None else Some (slice (of_data f) off n).

Definition fat32_shim_read (s : shim) (fd count : Z) : option (shim * Z * list Z) :=
  let f := (fds s).[fd] in
  if bad_file s fd || of_dir f then Some (s, -1, [])
  else if count <=? 0 then Some (s, 0, [])
  else
    let avail := s32 (of_size f - of_offset f) in
    if avail <=? 0 then Some (s, 0, [])
    else
      let count := if avail <? count then avail else count in
      bytes ← cached f (of_offset f) count;
      Some (set_fd s fd (with_offset f (s32 (of_offset f + count))), count, bytes).

Definition fat32_shim_write (s : shim) (fd : Z) (buf : list Z) (count : Z) : option (shim * Z) :=
  let f := (fds s).[fd] in
  if bad_file s fd || of_dir f then Some (s, -1)
  else if count <=? 0 then Some (s, 0)
  else if negb (fat32_is_writable (fs s)) then Some (s, -1)
  else
    let e := s32 (of_offset f + count) in
    let full := FAT32_MAX_FILE <? e in
    let count := if full then s32 (FAT32_MAX_FILE - of_offset f) else count in
    let e := if full then FAT32_MAX_FILE else e in
    if full && (count <=? 0) then Some (s, 0)
    else if (of_offset f <? 0) || (len (of_data f) <? of_offset f + count) then None
    else
      let d := splice (of_data f) (of_offset f) (take (Z.to_nat count) buf) in
      Some (set_fd s fd (with_cached f e (if of_size f <? e then e else of_size f) d), count).

(** The first cluster of the file after its cache went to the disk. *)
Definition flush (fuel : nat) (s : shim) (f : fat32_open_file) : option (shim * Z) :=
  '(d, written, outs) ← fat32_write_file (fs s) (of_first f) 0 (take (Z.to_nat (of_size f)) (of_data f)) 0;
  let '(new_cluster, new_size) := default (of_first f, of_size f) outs in
  if written <? 0 then Some (set_fs s d, of_first f)
  else
    '(d, upd) ← (if of_parent f =? root_cluster (bpb d) then
                   '(d, upd) ← fat32_update_entry fuel d (of_name f) new_cluster new_size;
                   if upd <? 0 then fat32_update_entry_size fuel d (of_name f) new_size else Some (d, upd)
                 else fat32_update_entry_in_dir fuel d (of_parent f) (of_name f) new_cluster new_size);
    Some (set_fs s d, if upd =? 0 then new_cluster else of_first f).

Definition fat32_shim_close (fuel : nat) (s : shim) (fd : Z) : option (shim * Z) :=
  let f := (fds s).[fd] in
  if bad_file s fd then Some (s, -1)
  else
    '(s, first) ← (if of_dirty f && negb (of_dir f) && fat32_is_writable (fs s) then flush fuel s f else Some (s, of_first f));
    Some (set_fd s fd (closed f first), 0).

Definition fat32_shim_readdir (s : shim) (fd : Z) (entry : dirent) : Z * dirent :=
  let f := (fds s).[fd] in
  if bad_file s fd then (-1, entry)
  else
    match of_dir f, of_cache f with
    | true, Some l =>
        let idx := s32 (d_inode entry) in
        if (idx <? 0) || (len l <=? idx) then (-1, entry)
        else let e := l.[idx] in (0, mkDirent (idx + 1) (d_type e) (d_name e))
    | _, _ => (-1, entry)
    end.

Definition fat32_shim_stat (s : shim) (path : list Z) (st : stat) : Z * stat :=
  if negb (fat32_is_mounted (fs s)) then (-1, st)
  else if is_root path then (0, mkStat (Z.lor S_IFDIR 0x1ED) 0 0 0)
  else
    match '(parent, name83) ← resolve_parent_cluster s path; fat32_lookup_in_dir (fs s) parent name83 with
    | None => (-1, st)
    | Some de => (0, if de_dir de then mkStat (Z.lor S_IFDIR 0x1ED) 0 0 0 else mkStat (Z.lor S_IFREG 0x1A4) 0 0 (de_size de))
    end.

Definition fat32_shim_file_size (s : shim) (fd : Z) : Z :=
  if bad_file s fd || of_dir (fds s).[fd] then -1 else of_size (fds s).[fd].

Definition fat32_shim_lseek (s : shim) (fd offset whence : Z) : shim * Z :=
  let f := (fds s).[fd] in
  if bad_file s fd || of_dir f then (s, -1)
  else
    let base := if whence =? 0 then Some 0 else if whence =? 1 then Some (of_offset f) else if whence =? 2 then Some (of_size f) else None in
    match base with
    | None => (s, -1)
    | Some base =>
        let new_off := s64 (base + offset) in
        if new_off <? 0 then (s, -1) else (set_fd s fd (with_offset f (s32 new_off)), s32 new_off)
    end.

Definition fat32_shim_read_at (s : shim) (fd count offset : Z) : option (Z * list Z) :=
  let f := (fds s).[fd] in
  if bad_file s fd || of_dir f then Some (-1, [])
  else if count <=? 0 then Some (0, [])
  else if offset <? 0 then Some (-1, [])
  else if u64 (of_size f) <=? offset then Some (0, [])
  else
    let avail := s32 (of_size f - s32 offset) in
    let count := if avail <? count then avail else count in
    bytes ← cached f offset count;
    Some (count, bytes).
End shim.
