(* ===== verification/Fat32Session.v ===== *)
(** * What a descriptor of a FAT32 file keeps

    Closing a descriptor and opening the file again: the cache of the first is that of
    the second. *)

From stdpp Require Import list.
From S2P Require Import Prelude Tmpfs Memfs Vfs Fat32 Fat32Volume Fat32Files Fat32Shim.

Lemma last_slash_plain l i z : Forall plain l -> last_slash l i z = z.
Proof. intros Hl. revert i. induction Hl as [|c l (_ & _ & _ & Hc) Hl IH]; intros i; [done|]. cbn [last_slash]. unfold SLASH. rewrite (proj2 (Z.eqb_neq c 47) Hc). apply IH. Qed.

Section session.
Context {D : Type} `{LawfulDisk D}.
Implicit Types s : @shim D.

(** The names of files in the root. *)
Lemma join_shape base ext : good_83 base ext -> join83 base ext <> [] /\ (length (join83 base ext) <= 12)%nat /\
  last_slash (join83 base ext) 1 0 = 0 /\ (join83 base ext).[len (join83 base ext) - 1] <> SLASH.
Proof.
  intros [Hb He [Hpb Hpe] _]. assert (Hlast : forall l, (1 <= length l)%nat -> Forall plain l -> l.[len l - 1] <> SLASH).
  { intros l Hl Hp. rewrite Forall_lookup in Hp. destruct (Hp (Z.to_nat (len l - 1)) l.[len l - 1]) as (_ & _ & _ & Hs); [apply geti_lookup; unfold len; lia|]. exact Hs. }
  unfold join83. case_bool_decide as E.
  - split; [intros ->; simpl in Hb; lia|]. split; [lia|]. split; [by apply last_slash_plain|apply Hlast; [lia|done]].
  - destruct ext as [|x ext]; [done|]. split; [by destruct base|]. split; [rewrite length_app; simpl in *; lia|]. split.
    + revert Hpb. clear -Hpe. generalize 1. induction base as [|c l IH]; intros i Hp; cbn [app].
      * change (last_slash (46 :: x :: ext) i 0) with (last_slash (x :: ext) (i + 1) 0). by apply last_slash_plain.
      * cbn [last_slash]. inversion Hp as [|? ? (_ & _ & _ & Hc) Hl]; subst. unfold SLASH. rewrite (proj2 (Z.eqb_neq c 47) Hc). by apply IH.
    + assert (El : (base ++ 46 :: x :: ext).[len (base ++ 46 :: x :: ext) - 1] = (x :: ext).[len (x :: ext) - 1]).
      { rewrite len_app, !len_cons. pose proof (len_nonneg ext). rewrite geti_app by (pose proof (len_nonneg base); lia). rewrite decide_False by lia.
        replace (len base + (1 + (1 + len ext)) - 1 - len base) with (1 + len ext) by lia. unfold geti. rewrite Z2Nat.inj_add by lia. change (Z.to_nat 1) with 1%nat. cbn [Nat.add lookup_total list_lookup_total].
        replace (1 + len ext - 1) with (len ext) by lia. done. }
      rewrite El. apply Hlast; [simpl; lia|done].
Qed.

Lemma resolve_root_file s base ext : good_83 base ext -> resolve_parent_cluster s (SLASH :: join83 base ext) = Some (fat32_get_root_cluster s, join83 base ext).
Proof.
  intros G. destruct (join_shape base ext G) as (Hne & Hl & Hs & Hlast). set (n := join83 base ext) in *. unfold resolve_parent_cluster.
  assert (Hr : is_root (SLASH :: n) = false). { unfold is_root. rewrite !bool_decide_false; [done|done|]. by destruct n. } rewrite Hr.
  assert (Et : take (Z.to_nat (MAX_PATH_LEN - 1)) (SLASH :: n) = SLASH :: n) by (apply take_ge; change (Z.to_nat (MAX_PATH_LEN - 1)) with 255%nat; simpl; lia). rewrite Et.
  assert (Etr : trim_slashes (length (SLASH :: n)) (SLASH :: n) = SLASH :: n).
  { cbn [length trim_slashes]. rewrite len_cons. assert (Hp : 0 < len n) by (destruct n; [done|rewrite len_cons; pose proof (len_nonneg n); lia]).
    replace (1 + len n - 1) with (1 + (len n - 1)) by lia. assert (Eg : (SLASH :: n).[1 + (len n - 1)] = n.[len n - 1]) by (unfold geti; by rewrite Z2Nat.inj_add by lia).
    rewrite Eg, (proj2 (Z.eqb_neq _ _) Hlast), andb_false_r. done. }
  rewrite Etr. change (last_slash (SLASH :: n) 0 (-1)) with (last_slash n 1 0). rewrite Hs. cbn [Z.ltb Z.compare Z.eqb].
  change (drop (Z.to_nat (0 + 1)) (SLASH :: n)) with n. rewrite (take_ge n 12) by lia. done.
Qed.

(** A file of the volume: its slot in the root, its clusters, its bytes. *)
Record file_at (d : @fat32 D) (ds cs : list Z) (k : Z) (base ext : list Z) (size : Z) : Prop := {
  f_volume : volume d;
  f_sector : cluster_size (bpb d) = 512;
  f_root : chain d (root_cluster (bpb d)) ds /\ len (contents d ds) <= LIST_BUF;
  f_slot : exists de, slot (contents d ds) k base ext de /\ de_dir de = false /\ chain d (de_cluster de) cs /\ cs <> [] /\ de_size de = size;
  f_apart : forall c, c ∈ cs -> c ∉ ds;
  f_length : 0 <= size <= FAT32_MAX_FILE /\ size <= len cs * 512;
}.

Lemma alloc_fd_ok s fd : 0 <= fd < MAX_FAT32_FDS -> of_used (fds s).[fd] = false ->
  exists i, fat32_alloc_fd s = Some i /\ 0 <= i < MAX_FAT32_FDS /\ of_used (fds s).[i] = false.
Proof.
  intros Hf Hu. unfold fat32_alloc_fd. destruct (find_from _ _ _) as [i|] eqn:E.
  - apply find_from_Some in E as (Hi & Hn & _). apply negb_true_iff in Hn. exists i. split; [done|]. split; [unfold MAX_FAT32_FDS in *; lia|done].
  - rewrite find_from_None in E. specialize (E fd ltac:(unfold MAX_FAT32_FDS in *; lia)). cbn beta in E. by rewrite Hu in E.
Qed.

(** Opening gives a slot with the first bytes of the file. *)
Lemma fat_open_ok s ds cs k base ext size fd junk : file_at (fs s) ds cs k base ext size -> 0 <= fd < MAX_FAT32_FDS -> of_used (fds s).[fd] = false -> len (fds s) = MAX_FAT32_FDS ->
  len junk = FAT32_MAX_FILE ->
  exists i f, fat32_shim_open (Some junk) s (SLASH :: join83 base ext) = Some (set_fd s i f, i) /\ 0 <= i < MAX_FAT32_FDS /\ of_used (fds s).[i] = false /\
    of_used f = true /\ of_dir f = false /\ of_size f = size /\ len (of_data f) = FAT32_MAX_FILE /\ take (Z.to_nat size) (of_data f) = take (Z.to_nat size) (contents (fs s) cs).
Proof.
  intros [V Ez [Cr Hlr] (de & Sl & Hd & C & Hne & Hsz) Hap [Hs1 Hs2]] Hf Hu Hlf Hj. pose proof (e_name _ _ _ (s_good _ _ _ _ _ Sl)) as [G En]. destruct (join_shape base ext G) as (Hnn & _).
  destruct (alloc_fd_ok s fd Hf Hu) as (i & Ei & Hi & Hui). unfold fat32_shim_open. unfold fat32_is_mounted. rewrite (v_mounted _ V). cbn [negb].
  assert (Hr : is_root (SLASH :: join83 base ext) = false) by (unfold is_root; rewrite !bool_decide_false; [done|done|by destruct (join83 base ext)]). rewrite Hr, resolve_root_file by done.
  rewrite bool_decide_false by done. rewrite Ei. destruct (lookup_slot _ ds _ k base ext de V Cr eq_refl Hlr Sl) as [Lk _]. cbv zeta. unfold fat32_get_root_cluster. rewrite Lk, Hd.
  destruct (fat32_read_file_ok (fs s) (de_cluster de) cs (de_size de) FAT32_MAX_FILE V C Hne) as (b & Er & Hlb & Et); [lia|done|by rewrite Ez|].
  rewrite Ez, Hsz in Er, Hlb, Et. replace (Z.min (Z.min size FAT32_MAX_FILE) (len cs * 512)) with size in Er, Hlb, Et by lia. rewrite Hsz, Er. cbn [mbind option_bind].
  eexists i, _. split; [reflexivity|]. do 4 (split; [done|]). cbn [of_size of_data]. rewrite (proj2 (Z.ltb_ge size 0)) by lia. split; [done|].
  split; [rewrite len_splice by lia; done|]. rewrite <- Et. unfold splice. rewrite Z2Nat.inj_0, take_0, app_nil_l. apply take_app_le. unfold len in Hlb. lia.
Qed.

(** The slot of an open file: its cache is what a close makes the file, or is the file. *)
Record opened s (fd : Z) (ds cs : list Z) (k : Z) (base ext : list Z) (size : Z) : Prop := {
  o_fd : 0 <= fd < MAX_FAT32_FDS /\ len (fds s) = MAX_FAT32_FDS /\ of_used (fds s).[fd] = true /\ of_dir (fds s).[fd] = false;
  o_file : file_at (fs s) ds cs k base ext size;
  o_first : chain (fs s) (of_first (fds s).[fd]) cs;
  o_place : of_parent (fds s).[fd] = root_cluster (bpb (fs s)) /\ of_name (fds s).[fd] = join83 base ext;
  o_data : len (of_data (fds s).[fd]) = FAT32_MAX_FILE;
  o_size : 0 <= of_size (fds s).[fd] <= FAT32_MAX_FILE /\ of_size (fds s).[fd] <= len cs * 512;
  o_clean : of_dirty (fds s).[fd] = false -> of_size (fds s).[fd] = size /\ take (Z.to_nat size) (of_data (fds s).[fd]) = take (Z.to_nat size) (contents (fs s) cs);
}.

Lemma chain_first d c c' cs : chain d c cs -> chain d c' cs -> cs <> [] -> c = c'.
Proof. intros C C' Hne. inversion C; subst; [done|]. by inversion C'. Qed.

Lemma rewrote_trans (d d1 d2 : @fat32 D) cs ds x y : volume d -> (forall c, c ∈ cs -> c ∉ ds) -> Forall (valid d) cs -> rewrote d d1 cs x -> rewrote d1 d2 ds y ->
  same_volume d d2 /\ contents d2 cs = x /\ contents d2 ds = y /\ (forall c l, chain d c l -> chain d2 c l) /\ (forall c, valid d c -> c ∉ cs -> c ∉ ds -> cluster d2 c = cluster d c).
Proof.
  intros V Hap Hv R1 R2. pose proof (volume_same _ _ V (r_same _ _ _ _ R1)) as V1. pose proof (sv_bpb _ _ (r_same _ _ _ _ R1)) as Eb.
  split; [transitivity d1; [apply R1|apply R2]|]. split.
  { rewrite <- (r_contents _ _ _ _ R1). apply contents_ext. intros c Hc. apply (r_other _ _ _ _ R2); [|by apply Hap]. unfold valid. rewrite Eb. rewrite Forall_forall in Hv. apply Hv. by apply list_elem_of_In. }
  split; [apply R2|]. split; [intros c l C; by eapply rewrote_next; [exact R2|done|]; eapply rewrote_next; [exact R1|done|]|].
  intros c Hc H1 H2. rewrite (r_other _ _ _ _ R2); [by apply R1|unfold valid; by rewrite Eb|done].
Qed.

(** What goes to the disk when a dirty slot is closed. *)
Lemma fat_flush_ok fuel s fd ds cs k base ext size : opened s fd ds cs k base ext size ->
  exists s', flush fuel s (fds s).[fd] = Some (s', of_first (fds s).[fd]) /\ fds s' = fds s /\ file_at (fs s') ds cs k base ext (of_size (fds s).[fd]) /\
    take (Z.to_nat (of_size (fds s).[fd])) (contents (fs s') cs) = take (Z.to_nat (of_size (fds s).[fd])) (of_data (fds s).[fd]) /\
    same_volume (fs s) (fs s') /\ (forall c, valid (fs s) c -> c ∉ cs -> c ∉ ds -> cluster (fs s') c = cluster (fs s) c).
Proof.
  intros [Hfd F C [Ep En] Hd [Hz1 Hz2] _]. set (f := (fds s).[fd]) in *. destruct F as [V Ez [Cr Hlr] (de & Sl & Hdir & Cf & Hne & Hsz) Hap Hlen]. pose proof (fat_chain_valid _ _ _ C) as Hv.
  pose proof (fat_len_contents _ cs V Hv) as Hlc. rewrite Ez in Hlc. set (w := take (Z.to_nat (of_size f)) (of_data f)). assert (Hw : len w = of_size f) by (unfold w, len in *; rewrite length_take; lia).
  assert (W : exists d outs, fat32_write_file (fs s) (of_first f) 0 w 0 = Some (d, of_size f, Some (of_first f, of_size f)) /\ rewrote (fs s) d cs (splice (contents (fs s) cs) 0 w) /\ outs = tt).
  { destruct (decide (of_size f = 0)) as [E0|E0].
    - exists (fs s), tt. split; [|split; [|done]].
      + unfold fat32_write_file. rewrite Hw, E0. cbn [Z.eqb]. by rewrite orb_true_r.
      + assert (w = []) as -> by (apply nil_length_inv; unfold len in Hw; lia). constructor; [done|done|by rewrite splice_nil by lia|done].
    - destruct (fat32_write_file_ok (fs s) (of_first f) cs 0 w 0 V C Ez) as (d & E & R); [lia|lia|lia|unfold FAT32_MAX_FILE in *; lia|]. exists d, tt. rewrite E, Hw. split; [|done]. do 4 f_equal. lia. }
  destruct W as (d & _ & E & R & _). pose proof (volume_same _ _ V (r_same _ _ _ _ R)) as V1. pose proof (sv_bpb _ _ (r_same _ _ _ _ R)) as Eb.
  pose proof (rewrote_next _ _ _ _ R V _ _ Cr) as Cr1. assert (Eds : contents d ds = contents (fs s) ds).
  { apply contents_ext. intros c Hc. apply (r_other _ _ _ _ R); [|intros Hc2; by apply (Hap c)]. pose proof (fat_chain_valid _ _ _ Cr) as Hvr. rewrite Forall_forall in Hvr. apply Hvr. by apply list_elem_of_In. }
  assert (Hfirst : de_cluster de = of_first f) by (by eapply chain_first). assert (Hc0 : 0 <= of_first f < 2 ^ 32) by (rewrite <- Hfirst; apply (e_cluster _ _ _ (s_good _ _ _ _ _ Sl))).
  rewrite <- Eb in Cr1. destruct (update_entry_ok fuel d ds _ k base ext de (of_first f) (of_size f) V1 Cr1 Eds Hlr Sl Hc0 ltac:(unfold FAT32_MAX_FILE in *; lia)) as (d2 & buf' & E2 & R2 & Hlb & Sl2).
  destruct (rewrote_trans _ _ _ cs ds _ _ V Hap Hv R R2) as (Hs & E3 & E4 & E5 & E6). pose proof (sv_bpb _ _ Hs) as Eb2.
  unfold flush. fold w. rewrite E. cbn [mbind option_bind default]. rewrite (proj2 (Z.ltb_ge (of_size f) 0)) by lia. rewrite Ep, Eb, Z.eqb_refl, En. unfold id. cbv iota beta. rewrite E2. cbn [mbind option_bind Z.ltb Z.compare Z.eqb].
  eexists. split; [reflexivity|]. cbn [fds set_fs fs]. split; [done|]. split.
  { constructor; [by apply (volume_same (fs s))|by rewrite Eb2| | |done|lia].
    - rewrite Eb2, E4, Hlb. split; [by apply E5|done].
    - exists (with_extent de (of_first f) (of_size f)). rewrite E4. split; [done|]. split; [done|]. split; [by apply E5|done]. }
  split; [|by split]. rewrite E3. unfold splice. rewrite Z2Nat.inj_0, take_0, app_nil_l. rewrite take_app_le by (unfold len in Hw; lia). unfold w. rewrite take_take. f_equal. lia.
Qed.

(** C40: On a volume with clusters of one sector (512 bytes), a file of the root
    directory with an 8.3 name and clusters enough that is closed and opened again
    reads as before through its new descriptor: any bytes at any position.  The
    close writes the
    cache over the clusters of the file and its size into its entry in the root and
    touches no other cluster and no other descriptor. *)
Theorem fat32_close_open fuel s fd ds cs k base ext size junk :
  opened s fd ds cs k base ext size -> len junk = FAT32_MAX_FILE ->
  exists s1 s2 fd2, fat32_shim_close fuel s fd = Some (s1, 0) /\ fat32_shim_open (Some junk) s1 (SLASH :: join83 base ext) = Some (s2, fd2) /\ 0 <= fd2 /\
    (forall count offset, fat32_shim_read_at s2 fd2 count offset = fat32_shim_read_at s fd count offset) /\
    (forall c, valid (fs s) c -> c ∉ cs -> c ∉ ds -> cluster (fs s2) c = cluster (fs s) c) /\
    (forall i, 0 <= i -> i <> fd -> i <> fd2 -> (fds s2).[i] = (fds s).[i]).
Proof.
  intros O Hj. destruct (o_fd _ _ _ _ _ _ _ _ O) as (Hfd & Hlf & Hu & Hdir). set (f := (fds s).[fd]) in *. pose proof (o_file _ _ _ _ _ _ _ _ O) as F.
  assert (Hbad : bad_file s fd = false). { unfold bad_file. fold f. rewrite Hu, (proj2 (Z.ltb_ge fd 0)), (proj2 (Z.leb_gt MAX_FAT32_FDS fd)) by lia. done. }
  assert (Hclose : exists s0 first, fat32_shim_close fuel s fd = Some (set_fd s0 fd (closed f first), 0) /\ fds s0 = fds s /\ file_at (fs s0) ds cs k base ext (of_size f) /\
    take (Z.to_nat (of_size f)) (contents (fs s0) cs) = take (Z.to_nat (of_size f)) (of_data f) /\ (forall c, valid (fs s) c -> c ∉ cs -> c ∉ ds -> cluster (fs s0) c = cluster (fs s) c)).
  { unfold fat32_shim_close. rewrite Hbad. fold f. destruct (of_dirty f) eqn:Edi.
    - destruct (fat_flush_ok fuel s fd ds cs k base ext size O) as (s' & E & Hf & F' & Et & _ & Hc). fold f in E, F', Et. exists s', (of_first f). rewrite Hdir. unfold fat32_is_writable. rewrite (v_mounted _ (f_volume _ _ _ _ _ _ _ F)), (v_writable _ (f_volume _ _ _ _ _ _ _ F)). cbn [andb negb].
      rewrite E. done.
    - destruct (o_clean _ _ _ _ _ _ _ _ O Edi) as [E1 E2]. fold f in E1, E2. exists s, (of_first f). cbn [andb]. rewrite E1. split; [done|]. split; [done|]. split; [done|]. split; [by symmetry|done]. }
  destruct Hclose as (s0 & first & E & Ef & F0 & Et & Hc). set (s1 := set_fd s0 fd (closed f first)) in *.
  assert (Hu1 : of_used (fds s1).[fd] = false) by (unfold s1; cbn [fds set_fd]; rewrite geti_seti_eq by (rewrite Ef; lia); done).
  destruct (fat_open_ok s1 ds cs k base ext (of_size f) fd junk F0 Hfd Hu1 ltac:(unfold s1; cbn [fds set_fd]; by rewrite len_seti, Ef) Hj) as (i & f2 & Eo & Hi & Hui & Hu2 & Hd2 & Hs2 & Hl2 & Et2).
  exists s1, (set_fd s1 i f2), i. split; [done|]. split; [done|]. split; [lia|]. assert (Hf2 : (fds (set_fd s1 i f2)).[i] = f2).
  { cbn [fds set_fd]. apply geti_seti_eq. unfold s1. cbn [fds set_fd]. rewrite len_seti, Ef. lia. }
  split; [|split; [exact Hc|]].
  - intros count offset. unfold fat32_shim_read_at, bad_file. rewrite Hf2. fold f. rewrite Hu, Hu2, Hdir, Hd2, Hs2. rewrite (proj2 (Z.ltb_ge i 0)), (proj2 (Z.ltb_ge fd 0)), (proj2 (Z.leb_gt MAX_FAT32_FDS i)), (proj2 (Z.leb_gt MAX_FAT32_FDS fd)) by lia. cbn [negb orb].
    destruct (count <=? 0) eqn:E1; [done|]. destruct (offset <? 0) eqn:E2; [done|]. destruct (u64 (of_size f) <=? offset) eqn:E3; [done|]. apply Z.leb_gt in E1, E3. apply Z.ltb_ge in E2.
    destruct (o_size _ _ _ _ _ _ _ _ O) as [Hz1 Hz2]. fold f in Hz1, Hz2. unfold FAT32_MAX_FILE in *. rewrite wrap_small in E3 by lia. rewrite !(swrap_small 32) by (rewrite ?(swrap_small 32); lia). cbv zeta.
    set (n := if of_size f - offset <? count then of_size f - offset else count). assert (Hn : 0 <= n <= of_size f - offset) by (unfold n; destruct (Z.ltb_spec (of_size f - offset) count); lia).
    pose proof (o_data _ _ _ _ _ _ _ _ O) as Hd. fold f in Hd. unfold FAT32_MAX_FILE in Hd. unfold cached. rewrite Hl2, Hd, (proj2 (Z.ltb_ge offset 0)), (proj2 (Z.ltb_ge 65536 _)) by lia. cbn [orb mbind option_bind]. do 2 f_equal.
    assert (Esl : forall l : list Z, slice l offset n = slice (take (Z.to_nat (of_size f)) l) offset n).
    { intros l. unfold slice. rewrite !take_drop_commute, take_take. do 2 f_equal. lia. }
    rewrite (Esl (of_data f2)), (Esl (of_data f)), Et2. unfold s1. cbn [fs set_fd]. by rewrite Et.
  - intros j Hj0 Hj1 Hj2. cbn [fds set_fd]. rewrite geti_seti_ne by (unfold MAX_FAT32_FDS in *; lia). unfold s1. cbn [fds set_fd]. rewrite geti_seti_ne by (unfold MAX_FAT32_FDS in *; lia). by rewrite Ef.
Qed.
End session.

(** ** Example *)

(** HI.T is open in slot 0; its 600 bytes were written over with nines. *)
Definition demo_slot : fat32_open_file := mkFile32 true false 0 600 true 3 2 (replicate (Z.to_nat FAT32_MAX_FILE) 9) None [72; 73; 46; 84].
Definition demo_shim : @shim (list Z) := mkShim demo_volume (demo_slot :: replicate 15 zero_of).

Lemma demo_root : chain demo_volume 2 [2].
Proof. assert (E : next demo_volume 2 = 0x0FFFFFF8) by (vm_compute; reflexivity). constructor; [split; vm_compute; congruence|]. rewrite E. by constructor. Qed.

Lemma demo_good : good_entry [72; 73] [84] demo_entry.
Proof.
  constructor; [split; [|reflexivity]|split; [split|split]|reflexivity|split|split]; try (vm_compute; congruence); try reflexivity.
  constructor; [simpl; lia|simpl; lia|split; repeat constructor; vm_compute; congruence|vm_compute; congruence].
Qed.

Lemma demo_slot_ok : slot (contents demo_volume [2]) 0 [72; 73] [84] demo_entry.
Proof.
  constructor; [split; [lia|vm_compute; congruence]|lia|vm_compute; reflexivity|vm_compute; congruence|vm_compute; reflexivity|vm_compute; reflexivity|exact demo_good].
Qed.

Lemma demo_opened : opened demo_shim 0 [2] [3; 4] 0 [72; 73] [84] 600.
Proof.
  constructor.
  - split; [unfold MAX_FAT32_FDS; lia|]. split; [reflexivity|]. split; reflexivity.
  - constructor; [exact demo_volume_ok|reflexivity| | | |].
    + split; [exact demo_root|]. vm_compute. congruence.
    + exists demo_entry. split; [exact demo_slot_ok|]. split; [reflexivity|]. split; [exact demo_chain|]. split; [discriminate|reflexivity].
    + intros c Hc Hd. apply list_elem_of_singleton in Hd as ->. apply list_elem_of_In in Hc. simpl in Hc. lia.
    + unfold FAT32_MAX_FILE, len. simpl. lia.
  - exact demo_chain.
  - split; reflexivity.
  - change (of_data (fds demo_shim).[0]) with (replicate (Z.to_nat FAT32_MAX_FILE) 9). unfold len. rewrite length_replicate. unfold FAT32_MAX_FILE. lia.
  - change (of_size (fds demo_shim).[0]) with 600. unfold FAT32_MAX_FILE, len. simpl. lia.
  - discriminate.
Qed.

Lemma fat32_close_open_witness : exists s1 s2 fd2, fat32_shim_close 1 demo_shim 0 = Some (s1, 0) /\
  fat32_shim_open (Some (replicate (Z.to_nat FAT32_MAX_FILE) 0)) s1 [47; 72; 73; 46; 84] = Some (s2, fd2) /\
  forall count offset, fat32_shim_read_at s2 fd2 count offset = fat32_shim_read_at demo_shim 0 count offset.
Proof.
  destruct (fat32_close_open 1 demo_shim 0 [2] [3; 4] 0 [72; 73] [84] 600 (replicate (Z.to_nat FAT32_MAX_FILE) 0) demo_opened) as (s1 & s2 & fd2 & E1 & E2 & _ & E3 & _).
  - unfold len. rewrite length_replicate. unfold FAT32_MAX_FILE. lia.
  - exists s1, s2, fd2. split; [exact E1|]. split; [exact E2|exact E3].
Defined.
