(* ===== verification/Signals.v ===== *)
(** * Signals: kernel/exec/signals.c

    The process table holds the fields the signal code uses; of the saved
    registers the record names the four it changes and keeps the others in
    [cs_other].  User memory is a function from addresses to bytes; whether
    kmalloc succeeds is an argument; [proc_exit] is an outcome. *)

From S2P Require Import Prelude Futex.

(** ** kernel/include/lestra/sched.h *)

Definition MAX_PROCS : Z := 32.
Definition MAX_SIGNALS : Z := 32.
Definition PROC_FREE : Z := 0.
Definition PROC_RUNNABLE : Z := 1.
Definition PROC_BLOCKED : Z := 3.
Definition PROC_ZOMBIE : Z := 4.

Definition SIGKILL : Z := 9.
Definition SIGCHLD : Z := 17.
Definition SIGCONT : Z := 18.
Definition SIGSTOP : Z := 19.
Definition SIGURG : Z := 23.

Record cpu_state := mkCpu { rdi : Z; rip : Z; rflags : Z; rsp : Z; cs_other : list Z }.

Record sigaction_entry := mkAct { sa_handler : Z; sa_flags : Z; sa_mask : Z }.
#[export] Instance sigaction_entry_inhabited : Inhabited sigaction_entry := populate (mkAct 0 0 0).

Record process := mkProc {
  pid : Z;
  p_state : Z;
  saved_state : option cpu_state;
  sigactions : list sigaction_entry;
  signal_pending : Z;
  signal_blocked : Z;
  pre_signal_state : option cpu_state;
  in_signal_handler : bool;
}.
#[export] Instance process_inhabited : Inhabited process := populate (mkProc 0 0 None [] 0 0 None false).

(** [current] is the index of the running process, [None] for NULL. *)
Record sys := mkSys { procs : list process; current : option Z; mem : Z -> Z }.

Definition set_proc (s : sys) (i : Z) (p : process) : sys := mkSys (procs s).[i <- p] (current s) (mem s).
Definition set_mem (s : sys) (m : Z -> Z) : sys := mkSys (procs s) (current s) m.

Definition with_actions (p : process) (a : list sigaction_entry) : process :=
  mkProc (pid p) (p_state p) (saved_state p) a (signal_pending p) (signal_blocked p) (pre_signal_state p) (in_signal_handler p).
Definition with_pending (p : process) (m : Z) : process :=
  mkProc (pid p) (p_state p) (saved_state p) (sigactions p) m (signal_blocked p) (pre_signal_state p) (in_signal_handler p).
Definition with_blocked (p : process) (m : Z) : process :=
  mkProc (pid p) (p_state p) (saved_state p) (sigactions p) (signal_pending p) m (pre_signal_state p) (in_signal_handler p).
Definition with_state (p : process) (st : Z) : process :=
  mkProc (pid p) st (saved_state p) (sigactions p) (signal_pending p) (signal_blocked p) (pre_signal_state p) (in_signal_handler p).
Definition with_handler (p : process) (saved pre : option cpu_state) (h : bool) : process :=
  mkProc (pid p) (p_state p) saved (sigactions p) (signal_pending p) (signal_blocked p) pre h.

(** ** User memory: uaccess.h *)

(** [memcpy] of [bytes] to address [a]; addresses wrap at 2^64. *)
Definition store (m : Z -> Z) (a : Z) (bytes : list Z) : Z -> Z :=
  fun x => let k := u64 (x - a) in if k <? len bytes then bytes.[k] else m x.

Definition copy_to_user (m : Z -> Z) (dst : Z) (bytes : list Z) : option (Z -> Z) :=
  if dst =? 0 then None
  else if 0xFFFF800000000000 <=? dst then None
  else Some (store m dst bytes).

(** A little-endian 64-bit word. *)
Fixpoint le_bytes (n : nat) (v : Z) : list Z :=
  match n with O => [] | S n => v mod 256 :: le_bytes n (v / 256) end.
Fixpoint le_value (l : list Z) : Z :=
  match l with [] => 0 | b :: l => b + 256 * le_value l end.

Definition load64 (m : Z -> Z) (a : Z) : Z := le_value ((fun i => m (u64 (a + i))) <$> seqZ 0 8).

Definition copy_words_from_user (m : Z -> Z) (src n : Z) : option (list Z) :=
  if src =? 0 then None
  else if 0xFFFF800000000000 <=? src then None
  else Some ((fun i => load64 m (u64 (src + 8 * i))) <$> seqZ 0 n).

Definition put_user (m : Z -> Z) (v up : Z) : option (Z -> Z) :=
  if access_ok up 8 then Some (store m up (le_bytes 8 v)) else None.

(** ** Operations *)

Definition signal_sigaction (s : sys) (signum act oldact : Z) : sys * Z :=
  if (signum <? 1) || (MAX_SIGNALS <=? signum) then (s, -22)
  else if (signum =? SIGKILL) || (signum =? SIGSTOP) then (s, -22)
  else
    match current s with
    | None => (s, -1)
    | Some c =>
        let p := (procs s).[c] in
        let old := (sigactions p).[signum] in
        let kern_old := le_bytes 8 (sa_handler old) ++ le_bytes 8 (sa_flags old) ++ le_bytes 8 0
                        ++ le_bytes 8 (sa_mask old) in
        match (if oldact =? 0 then Some s
               else if negb (access_ok oldact 32) then None
               else set_mem s <$> copy_to_user (mem s) oldact kern_old) with
        | None => (s, -14)
        | Some s =>
            if act =? 0 then (s, 0)
            else if negb (access_ok act 32) then (s, -14)
            else
              match copy_words_from_user (mem s) act 4 with
              | None => (s, -14)
              | Some k =>
                  (set_proc s c (with_actions p (sigactions p).[signum <- mkAct k.[0] k.[1] k.[3]]), 0)
              end
        end
    end.

Definition find_by_pid (s : sys) (pid_ : Z) : option Z :=
  find_from (fun i => negb (p_state (procs s).[i] =? PROC_FREE) && (pid (procs s).[i] =? pid_)) (Z.to_nat MAX_PROCS) 0.

(** "signal_pending |= 1ULL << sig", and a blocked process becomes runnable. *)
Definition post_signal (p : process) (sig : Z) : process :=
  let p := with_pending p (set_bit (signal_pending p) sig) in
  if p_state p =? PROC_BLOCKED then with_state p PROC_RUNNABLE else p.

Definition kill_step (sig i : Z) (s : sys) : sys :=
  let p := (procs s).[i] in
  if negb (p_state p =? PROC_FREE) && negb (p_state p =? PROC_ZOMBIE) then
    if negb (sig =? 0) then set_proc s i (post_signal p sig) else s
  else s.

Definition signal_kill (s : sys) (pid_ sig : Z) : sys * Z :=
  if (sig <? 0) || (MAX_SIGNALS <=? sig) then (s, -22)
  else if 0 <? pid_ then
    match find_by_pid s pid_ with
    | None => (s, -3)
    | Some i => if sig =? 0 then (s, 0) else (set_proc s i (post_signal (procs s).[i] sig), 0)
    end
  else (for_each (kill_step sig) (Z.to_nat MAX_PROCS) 0 s, 0).

Definition unblockable : Z := Z.lor (bit SIGKILL) (bit SIGSTOP).

Definition signal_sigprocmask (s : sys) (how set oldset : Z) : sys * Z :=
  match current s with
  | None => (s, -1)
  | Some c =>
      let p := (procs s).[c] in
      match (if oldset =? 0 then Some s
             else if negb (access_ok oldset 8) then None
             else set_mem s <$> copy_to_user (mem s) oldset (le_bytes 8 (signal_blocked p))) with
      | None => (s, -14)
      | Some s =>
          if set =? 0 then (s, 0)
          else if negb (access_ok set 8) then (s, -14)
          else
            match copy_words_from_user (mem s) set 1 with
            | None => (s, -14)
            | Some k =>
                let m := k.[0] in
                let apply b := (set_proc s c (with_blocked p (Z.land b (Z.lnot unblockable))), 0) in
                if how =? 0 then apply (Z.lor (signal_blocked p) m)
                else if how =? 1 then apply (Z.land (signal_blocked p) (Z.lnot m))
                else if how =? 2 then apply m
                else (s, -22)
            end
      end
  end.

Definition sig_trampoline_code : list Z :=
  [0x48; 0xc7; 0xc0; 0x1b; 0x00; 0x00; 0x00; 0x0f; 0x05; 0xcc; 0xcc; 0xcc; 0xcc; 0xcc; 0xcc; 0x00].

Inductive delivery :=
| Resume               (* back to user code *)
| Exit (status : Z).   (* proc_exit *)

(** The lowest set bit from 1 on; 1 when there is none below 32. *)
Definition pick_signal (deliverable : Z) : Z :=
  default 1 (find_from (fun i => test_bit deliverable i) (Z.to_nat (MAX_SIGNALS - 1)) 1).

(** [pre_signal_state = NULL]: kmalloc failed, or the copy was freed. *)
Definition drop_pre (s : sys) (c : Z) : sys :=
  let p := (procs s).[c] in set_proc s c (with_handler p (saved_state p) None (in_signal_handler p)).

(** The end of [signal_check_and_deliver]: the frame for [handler] on the stack. *)
Definition enter_handler (s : sys) (c signum handler : Z) (st : cpu_state) : sys :=
  let p := (procs s).[c] in
  let old_rsp := rsp st in
  let tramp_addr := Z.land (u64 (old_rsp - 128 - 16)) (Z.lnot 0xF) in
  let ret_addr_slot := u64 (tramp_addr - 8) in
  match copy_to_user (mem s) tramp_addr sig_trampoline_code with
  | None => drop_pre s c
  | Some m =>
      match put_user m tramp_addr ret_addr_slot with
      | None => drop_pre (set_mem s m) c
      | Some m =>
          let st' := mkCpu signum handler (clear_bit (rflags st) 8) ret_addr_slot (cs_other st) in
          set_proc (set_mem s m) c (with_handler p (Some st') (Some st) true)
      end
  end.

Definition signal_check_and_deliver (s : sys) (kmalloc_ok : bool) : sys * delivery :=
  match current s with
  | None => (s, Resume)
  | Some c =>
      let p := (procs s).[c] in
      match saved_state p with
      | None => (s, Resume)
      | Some st =>
          if in_signal_handler p then (s, Resume)
          else if signal_pending p =? 0 then (s, Resume)
          else
            let deliverable := Z.land (signal_pending p) (Z.lnot (signal_blocked p)) in
            if deliverable =? 0 then (s, Resume)
            else
              let signum := pick_signal deliverable in
              let s := set_proc s c (with_pending p (clear_bit (signal_pending p) signum)) in
              let handler := sa_handler (sigactions p).[signum] in
              if handler =? 0 then
                if (signum =? SIGCHLD) || (signum =? SIGCONT) || (signum =? SIGURG) then (s, Resume)
                else (s, Exit (128 + signum))
              else if handler =? 1 then (s, Resume)
              else if negb kmalloc_ok then (drop_pre s c, Resume)
              else (enter_handler s c signum handler st, Resume)
      end
  end.

(** The result is [None] for -22. *)
Definition signal_sigreturn (s : sys) (kmalloc_ok : bool) : sys * option delivery :=
  match current s with
  | None => (s, None)
  | Some c =>
      let p := (procs s).[c] in
      match pre_signal_state p with
      | Some pre =>
          if in_signal_handler p then
            let s := set_proc s c (with_handler p (Some pre) None false) in
            let '(s, d) := signal_check_and_deliver s kmalloc_ok in (s, Some d)
          else (s, None)
      | None => (s, None)
      end
  end.

Definition signal_send_to_process (s : sys) (i signum : Z) : sys :=
  if (signum <? 1) || (MAX_SIGNALS <=? signum) then s
  else set_proc s i (post_signal (procs s).[i] signum).

(** ** Choosing the signal *)

Lemma pick_signal_spec d :
  (exists i, 1 <= i < MAX_SIGNALS /\ Z.testbit d i = true) ->
  1 <= pick_signal d < MAX_SIGNALS /\ Z.testbit d (pick_signal d) = true /\
  forall i, 1 <= i < pick_signal d -> Z.testbit d i = false.
Proof.
  intros (i & Hi & Hb). unfold pick_signal. destruct (find_from _ _ _) as [k|] eqn:E; simpl.
  - apply find_from_Some in E as (Hk & Ht & Hn). rewrite test_bit_testbit in Ht by lia.
    split; [unfold MAX_SIGNALS in *; lia|]. split; [done|]. intros j Hj.
    specialize (Hn j Hj). by rewrite test_bit_testbit in Hn by lia.
  - exfalso. pose proof (proj1 (find_from_None _ _ _) E i ltac:(unfold MAX_SIGNALS in *; lia)) as H.
    cbv beta in H. rewrite test_bit_testbit in H by lia. congruence.
Qed.

(** Signal [i] is pending and not blocked. *)
Definition deliverable (p : process) (i : Z) : Prop :=
  Z.testbit (signal_pending p) i = true /\ Z.testbit (signal_blocked p) i = false.

Lemma deliverable_bit p i :
  0 <= i -> Z.testbit (Z.land (signal_pending p) (Z.lnot (signal_blocked p))) i = true <-> deliverable p i.
Proof. intros Hi. unfold deliverable. by rewrite Z.land_spec, Z.lnot_spec, andb_true_iff, negb_true_iff by lia. Qed.

(** The first deliverable signal. *)
Definition first_signal (p : process) (n : Z) : Prop :=
  1 <= n < MAX_SIGNALS /\ deliverable p n /\ forall i, 1 <= i < n -> ~ deliverable p i.

Lemma pick_first p n :
  first_signal p n -> pick_signal (Z.land (signal_pending p) (Z.lnot (signal_blocked p))) = n /\
    Z.land (signal_pending p) (Z.lnot (signal_blocked p)) <> 0.
Proof.
  intros (Hn & Hd & Hm). set (d := Z.land _ _).
  destruct (pick_signal_spec d) as (H1 & H2 & H3); [exists n; split; [done|]; apply deliverable_bit; [lia|done]|].
  apply deliverable_bit in H2; [|lia]. split.
  - destruct (Z.lt_trichotomy (pick_signal d) n) as [Hlt|[He|Hgt]]; [by destruct (Hm (pick_signal d)); [lia|]|done|].
    apply deliverable_bit in Hd; [|lia]. fold d in Hd. rewrite H3 in Hd by lia. done.
  - intros E. apply deliverable_bit in Hd; [|lia]. fold d in Hd. by rewrite E, Z.bits_0 in Hd.
Qed.

(** The first part of [signal_check_and_deliver], up to the handler. *)
Definition take_signal (s : sys) (c n : Z) : sys :=
  set_proc s c (with_pending (procs s).[c] (clear_bit (signal_pending (procs s).[c]) n)).

Definition dispatch (s : sys) (c n : Z) (st : cpu_state) (kmalloc_ok : bool) : sys * delivery :=
  let handler := sa_handler (sigactions (procs s).[c]).[n] in
  let s := take_signal s c n in
  if handler =? 0 then
    if (n =? SIGCHLD) || (n =? SIGCONT) || (n =? SIGURG) then (s, Resume) else (s, Exit (128 + n))
  else if handler =? 1 then (s, Resume)
  else if negb kmalloc_ok then (drop_pre s c, Resume)
  else (enter_handler s c n handler st, Resume).

Lemma check_delivers s c st n k :
  current s = Some c -> saved_state (procs s).[c] = Some st -> in_signal_handler (procs s).[c] = false ->
  first_signal (procs s).[c] n -> signal_check_and_deliver s k = dispatch s c n st k.
Proof.
  intros Hc Hst Hh Hf. unfold signal_check_and_deliver. rewrite Hc, Hst, Hh.
  destruct (pick_first _ _ Hf) as [Ep Ez].
  destruct (Z.eqb_spec (signal_pending (procs s).[c]) 0) as [E0|_]; [by rewrite E0, Z.land_0_l in Ez|].
  rewrite (proj2 (Z.eqb_neq _ 0)) by done. by rewrite Ep.
Qed.

Lemma check_idle s c k :
  current s = Some c -> in_signal_handler (procs s).[c] = true \/ Z.land (signal_pending (procs s).[c]) (Z.lnot (signal_blocked (procs s).[c])) = 0 ->
  signal_check_and_deliver s k = (s, Resume).
Proof.
  intros Hc H. unfold signal_check_and_deliver. rewrite Hc. destruct (saved_state _); [|done].
  destruct H as [->|E]; [done|]. rewrite E. by repeat case_match.
Qed.

(** ** Invariant: SIGKILL and SIGSTOP *)

Record proc_ok (p : process) : Prop := {
  po_len : len (sigactions p) = MAX_SIGNALS;
  po_blocked : Z.testbit (signal_blocked p) SIGKILL = false /\ Z.testbit (signal_blocked p) SIGSTOP = false;
  po_handler : sa_handler (sigactions p).[SIGKILL] = 0 /\ sa_handler (sigactions p).[SIGSTOP] = 0;
}.

Record sys_ok (s : sys) : Prop := {
  so_len : len (procs s) = MAX_PROCS;
  so_proc : forall i, 0 <= i < MAX_PROCS -> proc_ok (procs s).[i];
  so_current : forall c, current s = Some c -> 0 <= c < MAX_PROCS;
}.

Lemma set_proc_ok s i p : sys_ok s -> 0 <= i < MAX_PROCS -> proc_ok p -> sys_ok (set_proc s i p).
Proof.
  intros [L P C] Hi Hp. constructor; simpl; autorewrite with arr; try done. intros j Hj.
  rewrite geti_seti by lia. case_decide; auto.
Qed.

Lemma set_mem_ok s m : sys_ok s -> sys_ok (set_mem s m).
Proof. by intros []. Qed.

Lemma post_signal_ok p n : proc_ok p -> proc_ok (post_signal p n).
Proof. intros []. unfold post_signal. by case_match. Qed.

Lemma take_signal_ok s c n : sys_ok s -> 0 <= c < MAX_PROCS -> sys_ok (take_signal s c n).
Proof. intros Hs Hc. apply set_proc_ok; try done. by destruct (so_proc s Hs c Hc). Qed.

Lemma drop_pre_ok s c : sys_ok s -> 0 <= c < MAX_PROCS -> sys_ok (drop_pre s c).
Proof. intros Hs Hc. apply set_proc_ok; try done. by destruct (so_proc s Hs c Hc). Qed.

Lemma enter_handler_ok s c n h st : sys_ok s -> 0 <= c < MAX_PROCS -> sys_ok (enter_handler s c n h st).
Proof.
  intros Hs Hc. unfold enter_handler. destruct (copy_to_user _ _ _); [|by apply drop_pre_ok].
  destruct (put_user _ _ _); [|apply drop_pre_ok; [by apply set_mem_ok|done]].
  apply set_proc_ok; [by apply set_mem_ok|done|].
  by destruct (so_proc s Hs c Hc).
Qed.

Lemma check_ok s k : sys_ok s -> sys_ok (signal_check_and_deliver s k).1.
Proof.
  intros Hs. unfold signal_check_and_deliver. destruct (current s) as [c|] eqn:Ec; [|done].
  pose proof (so_current s Hs c Ec) as Hc. destruct (saved_state _) as [st|]; [|done].
  destruct (in_signal_handler _); [done|]. destruct (_ =? 0); [done|]. destruct (_ =? 0); [done|]. cbv zeta.
  match goal with |- context [set_proc s c (with_pending ?p (clear_bit ?q ?n))] =>
    pose proof (take_signal_ok s c n Hs Hc) as Ht; unfold take_signal in Ht end.
  repeat case_match; simpl; try done; [by apply drop_pre_ok|by apply enter_handler_ok].
Qed.

Lemma sigaction_ok s n a o : sys_ok s -> sys_ok (signal_sigaction s n a o).1.
Proof.
  intros Hs. unfold signal_sigaction. destruct ((n <? 1) || _) eqn:En; [done|].
  destruct ((n =? SIGKILL) || _) eqn:Ek; [done|]. apply orb_false_iff in Ek as [Ek%Z.eqb_neq Es%Z.eqb_neq].
  apply orb_false_iff in En as [E1%Z.ltb_ge E2%Z.leb_gt].
  destruct (current s) as [c|] eqn:Ec; [|done]. pose proof (so_current s Hs c Ec) as Hc. cbv zeta.
  match goal with |- context [match ?x with Some _ => _ | None => _ end] => destruct x as [s1|] eqn:Eo end; [|done].
  assert (sys_ok s1) as Hs1.
  { destruct (o =? 0); [by injection Eo as <-|]. destruct (negb (access_ok o _)); [done|].
    destruct (copy_to_user _ _ _); simpl in Eo; [|done]. injection Eo as <-. by apply set_mem_ok. }
  destruct (a =? 0); [done|]. destruct (negb (access_ok a 32)); [done|]. destruct (copy_words_from_user _ _ _); [|done].
  apply set_proc_ok; [done|done|]. destruct (so_proc s Hs c Hc) as [L B [H9 H19]].
  constructor; simpl; [by autorewrite with arr|done|]. unfold SIGKILL, SIGSTOP, MAX_SIGNALS in *.
  rewrite !geti_seti_ne by lia. done.
Qed.

Lemma unblockable_bits b : Z.testbit (Z.land b (Z.lnot unblockable)) SIGKILL = false /\
  Z.testbit (Z.land b (Z.lnot unblockable)) SIGSTOP = false.
Proof. rewrite !Z.land_spec, !Z.lnot_spec by done. split; apply andb_false_r. Qed.

Lemma sigprocmask_ok s h a o : sys_ok s -> sys_ok (signal_sigprocmask s h a o).1.
Proof.
  intros Hs. unfold signal_sigprocmask.
  destruct (current s) as [c|] eqn:Ec; [|done]. pose proof (so_current s Hs c Ec) as Hc. cbv zeta.
  match goal with |- context [match ?x with Some _ => _ | None => _ end] => destruct x as [s1|] eqn:Eo end; [|done].
  assert (sys_ok s1) as Hs1.
  { destruct (o =? 0); [by injection Eo as <-|]. destruct (negb (access_ok o _)); [done|].
    destruct (copy_to_user _ _ _); simpl in Eo; [|done]. injection Eo as <-. by apply set_mem_ok. }
  destruct (a =? 0); [done|]. destruct (negb (access_ok a 8)); [done|]. destruct (copy_words_from_user _ _ _) as [k|]; [|done].
  assert (forall b, sys_ok (set_proc s1 c (with_blocked (procs s).[c] (Z.land b (Z.lnot unblockable))))) as Hb.
  { intros b. apply set_proc_ok; [done|done|]. destruct (so_proc s Hs c Hc) as [L B H].
    constructor; simpl; [done|apply unblockable_bits|done]. }
  repeat (destruct (h =? _); [apply Hb|]). done.
Qed.

Lemma kill_ok s p n : sys_ok s -> sys_ok (signal_kill s p n).1.
Proof.
  intros Hs. unfold signal_kill. destruct (_ || _); [done|]. destruct (0 <? p).
  - destruct (find_by_pid s p) as [i|] eqn:E; [|done]. destruct (n =? 0); [done|].
    apply find_from_Some in E as (Hi & _). apply set_proc_ok; [done|done|]. by apply post_signal_ok, so_proc.
  - cbn [fst]. apply (for_each_ind (kill_step n) (fun _ t => sys_ok t)); [done|]. intros j t Hj Ht. unfold kill_step.
    destruct (negb _ && _); [|done]. destruct (negb _); [|done].
    apply set_proc_ok; [done|done|]. by apply post_signal_ok, so_proc.
Qed.

Lemma send_ok s i n : sys_ok s -> 0 <= i < MAX_PROCS -> sys_ok (signal_send_to_process s i n).
Proof.
  intros Hs Hi. unfold signal_send_to_process. case_match; [done|]. apply set_proc_ok; [done|done|].
  by apply post_signal_ok, so_proc.
Qed.

Lemma sigreturn_ok s k : sys_ok s -> sys_ok (signal_sigreturn s k).1.
Proof.
  intros Hs. unfold signal_sigreturn. destruct (current s) as [c|] eqn:Ec; [|done].
  pose proof (so_current s Hs c Ec) as Hc. destruct (pre_signal_state _) as [pre|]; [|done].
  destruct (in_signal_handler _); [|done].
  set (s1 := set_proc _ _ _). assert (sys_ok s1) as Hs1.
  { apply set_proc_ok; [done|done|]. by destruct (so_proc s Hs c Hc). }
  pose proof (check_ok s1 k Hs1) as Hc1. by destruct (signal_check_and_deliver s1 k).
Qed.

(** Every call of this file, and user code changing its memory and registers. *)
Inductive sig_op :=
| OAction (signum act oldact : Z)
| OKill (pid sig : Z)
| OMask (how set oldset : Z)
| OReturn (kmalloc_ok : bool)
| OCheck (kmalloc_ok : bool)
| OSend (i signum : Z)
| OUser (c : Z) (m : Z -> Z) (st : option cpu_state).

Definition sig_op_ok (o : sig_op) : Prop :=
  match o with OSend i _ => 0 <= i < MAX_PROCS | OUser c _ _ => 0 <= c < MAX_PROCS | _ => True end.

(** Process [c] runs: other memory, other registers. *)
Definition user_step (s : sys) (c : Z) (m : Z -> Z) (st : option cpu_state) : sys :=
  let p := (procs s).[c] in
  let s := mkSys (procs s) (Some c) m in
  set_proc s c (with_handler p st (pre_signal_state p) (in_signal_handler p)).

Definition sig_exec (s : sys) (o : sig_op) : sys :=
  match o with
  | OAction n a old => (signal_sigaction s n a old).1
  | OKill p n => (signal_kill s p n).1
  | OMask h a old => (signal_sigprocmask s h a old).1
  | OReturn k => (signal_sigreturn s k).1
  | OCheck k => (signal_check_and_deliver s k).1
  | OSend i n => signal_send_to_process s i n
  | OUser c m st => user_step s c m st
  end.

Lemma user_step_ok s c m st : sys_ok s -> 0 <= c < MAX_PROCS -> sys_ok (user_step s c m st).
Proof.
  intros Hs Hc. apply set_proc_ok; [|done|].
  - destruct Hs. constructor; [done|done|]. by intros c' [= <-].
  - by destruct (so_proc s Hs c Hc).
Qed.

Lemma sig_run_ok s os : sys_ok s -> Forall sig_op_ok os -> sys_ok (fold_left sig_exec os s).
Proof.
  intros Hs Ho. revert s Hs. induction Ho as [|o os Ho _ IH]; intros s Hs; [done|]. simpl. apply IH.
  destruct o; simpl in *; [by apply sigaction_ok|by apply kill_ok|by apply sigprocmask_ok|by apply sigreturn_ok
    |by apply check_ok|by apply send_ok|by apply user_step_ok].
Qed.

(** ** The handler's frame *)

Lemma store_in m a l x : 0 <= a <= x -> x < a + len l -> a + len l <= 2 ^ 64 -> store m a l x = l.[x - a].
Proof.
  intros Ha Hx Hl. unfold store. rewrite wrap_small by lia. by rewrite (proj2 (Z.ltb_lt _ _)) by lia.
Qed.

Lemma store_out m a l x : 0 <= a -> a + len l <= 2 ^ 64 -> 0 <= x < 2 ^ 64 -> x < a \/ a + len l <= x -> store m a l x = m x.
Proof.
  intros Ha Hl Hx Ho. pose proof (len_nonneg l). unfold store. rewrite (proj2 (Z.ltb_ge _ _)); [done|].
  unfold wrap. change (2 ^ 64) with 18446744073709551616 in *.
  destruct (decide (a <= x)); [rewrite Z.mod_small by lia; lia|].
  replace (x - a) with (x - a + 18446744073709551616 + (-1) * 18446744073709551616) by lia.
  rewrite Z_mod_plus_full, Z.mod_small by lia. lia.
Qed.

Lemma le_bytes_length n v : length (le_bytes n v) = n.
Proof. revert v. induction n as [|n IH]; intros v; simpl; by rewrite ?IH. Qed.

Lemma le_value_bytes n v : 0 <= v < 256 ^ Z.of_nat n -> le_value (le_bytes n v) = v.
Proof.
  revert v. induction n as [|n IH]; intros v Hv; cbn [le_bytes le_value].
  { change (256 ^ Z.of_nat 0) with 1 in Hv. lia. }
  replace (256 ^ Z.of_nat (S n)) with (256 * 256 ^ Z.of_nat n) in Hv
    by (rewrite Nat2Z.inj_succ, Z.pow_succ_r by lia; done).
  rewrite IH by zlia. zlia.
Qed.

Lemma load64_store m a v : 0 <= a -> a + 8 <= 2 ^ 64 -> 0 <= v < 2 ^ 64 -> load64 (store m a (le_bytes 8 v)) a = v.
Proof.
  intros Ha Hl Hv. unfold load64.
  assert (len (le_bytes 8 v) = 8) as H8 by (unfold len; by rewrite le_bytes_length).
  etransitivity; [|apply (le_value_bytes 8); by change (256 ^ Z.of_nat 8) with (2 ^ 64)]. f_equal.
  apply list_ext_geti; rewrite len_fmap; [unfold len; rewrite length_seqZ; by rewrite le_bytes_length|].
  assert (len (seqZ 0 8) = 8) as Hs by done. rewrite Hs. intros i Hi.
  rewrite geti_fmap by (rewrite Hs; lia).
  assert ((seqZ 0 8).[i] = i) as -> .
  { assert (i = 0 \/ i = 1 \/ i = 2 \/ i = 3 \/ i = 4 \/ i = 5 \/ i = 6 \/ i = 7) as H by lia.
    by repeat (destruct H as [->|H]; [done|]); subst i. }
  rewrite wrap_small, store_in by lia. f_equal. lia.
Qed.

(** What the handler finds when it starts, for a stack pointer [sp]. *)
Record frame (m m' : Z -> Z) (sp : Z) (n handler : Z) (st st' : cpu_state) : Prop := {
  fr_rip : rip st' = handler /\ rdi st' = n /\ cs_other st' = cs_other st;
  fr_align : rsp st' mod 16 = 8;
  fr_return : exists tramp, load64 m' (rsp st') = tramp /\
    forall i, 0 <= i < 16 -> m' (tramp + i) = sig_trampoline_code.[i];
  fr_stack : forall x, sp - 128 <= x < 2 ^ 64 -> m' x = m x;
  fr_trap : Z.testbit (rflags st') 8 = false;
}.

Lemma tramp_align sp : 256 <= sp < 0x7FFFFFFFFFFF ->
  let t := Z.land (u64 (sp - 128 - 16)) (Z.lnot 0xF) in t mod 16 = 0 /\ sp - 160 <= t <= sp - 144.
Proof.
  intros Hs. cbv zeta. rewrite wrap_small by lia. change 0xF with (2 ^ 4 - 1).
  rewrite land_lnot_ones by lia. change (2 ^ 4) with 16. zlia.
Qed.

Lemma access_ok_low a n : 0 < a -> 0 <= n -> a + n <= 0x7FFFFFFFFFFF -> access_ok a n = true.
Proof.
  intros Ha Hn Hl. unfold access_ok. rewrite wrap_small by lia.
  rewrite (proj2 (Z.eqb_neq a 0)), (proj2 (Z.leb_gt _ a)), (proj2 (Z.ltb_ge (a + n) a)), (proj2 (Z.ltb_ge _ (a + n))) by lia.
  done.
Qed.

Lemma enter_handler_frame s c n h st :
  0 <= c < len (procs s) -> 256 <= rsp st < 0x7FFFFFFFFFFF ->
  exists st' m', enter_handler s c n h st =
      set_proc (set_mem s m') c (with_handler (procs s).[c] (Some st') (Some st) true) /\
    frame (mem s) m' (rsp st) n h st st'.
Proof.
  intros Hc Hsp. destruct (tramp_align (rsp st) Hsp) as [Ha Ht]. unfold enter_handler.
  set (t := Z.land _ _) in *.
  unfold copy_to_user. rewrite (proj2 (Z.eqb_neq t 0)), (proj2 (Z.leb_gt _ t)) by lia. cbv iota.
  unfold put_user. rewrite (wrap_small 64 (t - 8)) by lia. rewrite access_ok_low by lia.
  do 2 eexists. split; [done|]. set (m1 := store (mem s) t sig_trampoline_code).
  assert (len (le_bytes 8 t) = 8) as H8 by (unfold len; by rewrite le_bytes_length).
  assert (len sig_trampoline_code = 16) as H16 by done.
  constructor; cbn [rip rdi rsp rflags cs_other]; try done.
  - zlia.
  - exists t. split; [apply load64_store; lia|]. intros i Hi.
    rewrite store_out by (rewrite ?H8; lia). subst m1. rewrite store_in by (rewrite ?H16; lia). f_equal. lia.
  - intros x Hx. rewrite store_out by (rewrite ?H8; lia). subst m1. by rewrite store_out by (rewrite ?H16; lia).
  - rewrite clear_bit_spec by lia. apply andb_false_r.
Qed.

(** ** Theorems *)

Lemma set_proc_get s c p : 0 <= c < len (procs s) -> (procs (set_proc s c p)).[c] = p.
Proof. intros Hc. simpl. by rewrite geti_seti_eq. Qed.

Lemma set_proc_set s c p q : set_proc (set_proc s c p) c q = set_proc s c q.
Proof. unfold set_proc, seti. simpl. by rewrite list_insert_insert_eq. Qed.

(** The restored process: signal [n] no longer pending, memory [m]. *)
Definition handled (s : sys) (c n : Z) (m : Z -> Z) : sys := drop_pre (set_mem (take_signal s c n) m) c.

Lemma sigreturn_restores s c n st h m st' k :
  current s = Some c -> 0 <= c < len (procs s) -> saved_state (procs s).[c] = Some st ->
  in_signal_handler (procs s).[c] = false -> 256 <= rsp st < 0x7FFFFFFFFFFF ->
  signal_sigreturn (user_step (enter_handler (take_signal s c n) c n h st) c m st') k =
    (let '(t, d) := signal_check_and_deliver (handled s c n m) k in (t, Some d)).
Proof.
  intros Hc Hr Hst Hh Hsp.
  destruct (enter_handler_frame (take_signal s c n) c n h st) as (st1 & m1 & -> & _); [by simpl; autorewrite with arr|done|].
  assert (0 <= c < len (procs (take_signal s c n))) as Hr' by (by simpl; autorewrite with arr).
  unfold signal_sigreturn, user_step. cbn [current set_proc procs mem set_mem].
  rewrite !geti_seti_eq by (autorewrite with arr; lia). cbn [pre_signal_state in_signal_handler with_handler].
  set (x := set_proc _ _ _). assert (x = handled s c n m) as ->; [|done].
  unfold x, handled, drop_pre, take_signal, set_proc, set_mem, seti. cbn [procs current mem].
  rewrite !list_insert_insert_eq. fold (seti (procs s) c). rewrite Hc. f_equal. f_equal.
  change (<[Z.to_nat c:=?p]> ?l) with (seti l c p). rewrite !geti_seti_eq by lia.
  unfold with_handler, with_pending. cbn. by rewrite Hst, Hh.
Qed.

(** C11: A signal with a handler interrupts the process and is undone by
    sigreturn. Delivery starts the handler with the signal number in rdi, a
    stack pointer of 8 modulo 16 whose top word is the address of the 16
    trampoline bytes, everything from 128 bytes below the old stack pointer
    upwards untouched and the trap flag clear. Whatever the handler then did
    to memory and registers, sigreturn behaves exactly as a delivery check in
    the interrupted state with this one signal no longer pending; when no other
    signal is deliverable the process is back in its saved registers. *)
Theorem signal_roundtrip s c st n :
  let p := (procs s).[c] in
  let h := sa_handler (sigactions p).[n] in
  current s = Some c -> 0 <= c < len (procs s) -> saved_state p = Some st -> in_signal_handler p = false ->
  first_signal p n -> 2 <= h -> 256 <= rsp st < 0x7FFFFFFFFFFF ->
  exists s1, signal_check_and_deliver s true = (s1, Resume) /\
    (exists st1, saved_state (procs s1).[c] = Some st1 /\ in_signal_handler (procs s1).[c] = true /\
       frame (mem s) (mem s1) (rsp st) n h st st1) /\
    forall m st' k,
      signal_sigreturn (user_step s1 c m st') k =
        (let '(t, d) := signal_check_and_deliver (handled s c n m) k in (t, Some d)) /\
      ((forall i, i <> n -> 0 <= i -> ~ deliverable p i) ->
       let t := (signal_sigreturn (user_step s1 c m st') k).1 in
       (signal_sigreturn (user_step s1 c m st') k).2 = Some Resume /\ mem t = m /\
       saved_state (procs t).[c] = Some st /\ in_signal_handler (procs t).[c] = false /\
       signal_pending (procs t).[c] = clear_bit (signal_pending p) n).
Proof.
  intros p h Hc Hr Hst Hh Hf H2 Hsp. exists (enter_handler (take_signal s c n) c n h st). split.
  { rewrite (check_delivers s c st n) by done. unfold dispatch. fold p h.
    rewrite (proj2 (Z.eqb_neq h 0)), (proj2 (Z.eqb_neq h 1)) by lia. done. }
  split.
  { destruct (enter_handler_frame (take_signal s c n) c n h st) as (st1 & m1 & -> & Hfr); [by simpl; autorewrite with arr|done|].
    exists st1. rewrite set_proc_get by (simpl; by autorewrite with arr). done. }
  intros m st' k. assert (H := sigreturn_restores s c n st h m st' k Hc Hr Hst Hh Hsp). split; [exact H|].
  intros Hno. assert (0 <= c < len (procs (set_mem (take_signal s c n) m))) as Hr' by (simpl; by autorewrite with arr).
  assert (signal_check_and_deliver (handled s c n m) k = (handled s c n m, Resume)) as E.
  { apply (check_idle _ c); [done|]. right. unfold handled, drop_pre. rewrite set_proc_get by done.
    cbn [signal_pending signal_blocked with_handler]. change (procs (set_mem ?x m)) with (procs x).
    unfold take_signal. rewrite set_proc_get by done. cbn [signal_pending signal_blocked with_pending].
    apply Z.bits_inj'. intros i Hi. rewrite Z.bits_0, Z.land_spec, Z.lnot_spec, clear_bit_spec by (destruct Hf; lia).
    case_bool_decide; [by rewrite andb_false_r|]. rewrite andb_true_r. apply not_true_is_false.
    rewrite andb_true_iff, negb_true_iff. by apply Hno. }
  rewrite H, E. simpl. rewrite !geti_seti_eq by (autorewrite with arr; done). simpl. done.
Qed.

(** A process with a handler for 10 and a pending 10 and 12. *)
Definition sig_proc0 : process :=
  mkProc 7 PROC_RUNNABLE (Some (mkCpu 1 0x401000 0x302 0x7FFF1008 []))
    ((replicate 32 (mkAct 0 0 0)).[10 <- mkAct 0x402000 0 0]) (bit 10) 0 None false.
Definition sig_sys0 : sys := mkSys (replicate 32 (mkProc 0 0 None (replicate 32 (mkAct 0 0 0)) 0 0 None false)).[3 <- sig_proc0]
  (Some 3) (fun _ => 0).

Lemma first_signal0 : first_signal sig_proc0 10.
Proof.
  split; [unfold MAX_SIGNALS; lia|]. split; [done|]. intros i Hi [Hb _].
  change (Z.testbit (bit 10) i = true) in Hb. rewrite bit_testbit in Hb by lia. case_bool_decide; [lia|done].
Qed.

Lemma signal_roundtrip_witness :
  (signal_sigreturn (user_step (signal_check_and_deliver sig_sys0 true).1 3 (fun _ => 1) None) true).2 = Some Resume.
Proof.
  destruct (signal_roundtrip sig_sys0 3 (mkCpu 1 0x401000 0x302 0x7FFF1008 []) 10) as (s1 & E & _ & H);
    [done|done|done|done|exact first_signal0|by vm_compute|by vm_compute|].
  rewrite E. destruct (H (fun _ => 1) None true) as [_ H2]. apply H2. clear. intros i Hi H0 [Hb _].
  change (Z.testbit (bit 10) i = true) in Hb. rewrite bit_testbit in Hb by lia. case_bool_decide; [lia|done].
Defined.

(** Delivery takes the lowest signal that is pending and not blocked and
    only that one: its pending bit is cleared and every other bit and every
    other process stays as it was; with the default action the process exits
    with 128 plus the signal, unless it is SIGCHLD, SIGCONT or SIGURG; an
    ignored signal is dropped. With nothing deliverable, nothing changes. *)
Theorem signal_delivery s c st k :
  current s = Some c -> 0 <= c < len (procs s) -> saved_state (procs s).[c] = Some st ->
  in_signal_handler (procs s).[c] = false ->
  let p := (procs s).[c] in
  let t := (signal_check_and_deliver s k).1 in
  ((forall i, 0 <= i -> ~ deliverable p i) -> signal_check_and_deliver s k = (s, Resume)) /\
  forall n, first_signal p n ->
    let h := sa_handler (sigactions p).[n] in
    (signal_check_and_deliver s k).2 =
      (if decide (h = 0 /\ n <> SIGCHLD /\ n <> SIGCONT /\ n <> SIGURG) then Exit (128 + n) else Resume) /\
    (forall i, 0 <= i -> Z.testbit (signal_pending (procs t).[c]) i = Z.testbit (signal_pending p) i && negb (bool_decide (n = i))) /\
    (forall i, 0 <= i -> i <> c -> (procs t).[i] = (procs s).[i]) /\
    (h = 0 \/ h = 1 -> mem t = mem s /\ saved_state (procs t).[c] = Some st /\ in_signal_handler (procs t).[c] = false).
Proof.
  intros Hc Hr Hst Hh p t. split.
  { intros Hno. apply (check_idle s c); [done|]. right. apply Z.bits_inj'. intros i Hi. rewrite Z.bits_0.
    apply not_true_is_false. rewrite deliverable_bit by done. by apply Hno. }
  intros n Hf h. unfold t. rewrite (check_delivers s c st n) by done. unfold dispatch. fold p h.
  assert (0 <= n) as Hn by (destruct Hf; lia).
  assert (forall q, signal_pending q = clear_bit (signal_pending p) n ->
    forall i, 0 <= i -> Z.testbit (signal_pending q) i = Z.testbit (signal_pending p) i && negb (bool_decide (n = i))) as Hp.
  { intros q -> i Hi. by apply clear_bit_spec. }
  assert (forall i q, 0 <= i -> i <> c -> (procs s).[c <- q].[i] = (procs s).[i]) as Ho by (intros; apply geti_seti_ne; lia).
  assert ((procs (take_signal s c n)).[c] = with_pending p (clear_bit (signal_pending p) n)) as Et by by apply set_proc_get.
  assert (0 <= c < len (procs (take_signal s c n))) as Hr' by (by simpl; autorewrite with arr).
  destruct (Z.eqb_spec h 0) as [E0|E0].
  { destruct ((n =? SIGCHLD) || (n =? SIGCONT) || (n =? SIGURG)) eqn:Ei; cbn [fst snd]; rewrite Et.
    - rewrite !orb_true_iff, !Z.eqb_eq in Ei. rewrite decide_False by tauto. split; [done|]. split; [by apply Hp|].
      split; [by intros; apply Ho|done].
    - rewrite !orb_false_iff, !Z.eqb_neq in Ei. rewrite decide_True by tauto. split; [done|]. split; [by apply Hp|].
      split; [by intros; apply Ho|done]. }
  rewrite decide_False by tauto. destruct (Z.eqb_spec h 1) as [E1|E1]; cbn [fst snd].
  { rewrite Et. split; [done|]. split; [by apply Hp|]. split; [by intros; apply Ho|done]. }
  destruct k; cbn [negb fst snd]; (split; [done|]); (split; [|split; [|lia]]).
  - apply Hp. unfold enter_handler. repeat case_match; unfold drop_pre; rewrite set_proc_get by done; exact (f_equal signal_pending Et).
  - intros i Hi Hne. unfold enter_handler. repeat case_match; simpl; rewrite !geti_seti_ne by lia; done.
  - apply Hp. unfold drop_pre. rewrite set_proc_get by done. exact (f_equal signal_pending Et).
  - intros i Hi Hne. simpl. rewrite !geti_seti_ne by lia. done.
Qed.

Lemma signal_delivery_witness : (signal_check_and_deliver
  (set_proc sig_sys0 3 (with_pending sig_proc0 (bit 9))) true).2 = Exit 137.
Proof.
  set (s := set_proc _ _ _).
  assert (first_signal (procs s).[3] 9) as Hf.
  { split; [unfold MAX_SIGNALS; lia|]. split; [done|]. intros i Hi [Hb _].
    change (Z.testbit (bit 9) i = true) in Hb. rewrite bit_testbit in Hb by lia. case_bool_decide; [lia|done]. }
  rewrite (proj1 (proj2 (signal_delivery s 3 (mkCpu 1 0x401000 0x302 0x7FFF1008 []) true
    eq_refl ltac:(by vm_compute) eq_refl eq_refl) 9 Hf)). done.
Defined.

(** C12: SIGKILL and SIGSTOP can be neither blocked nor caught. Over any
    sequence of calls by any process, with any arguments and any user memory,
    every process keeps both unblocked and without a handler, and a pending SIGKILL that no lower-numbered deliverable signal precedes ends
    the process with status 137 at its next check outside a handler; SIGSTOP
    likewise with 147. *)
Theorem sigkill_unstoppable s os c st k n :
  sys_ok s -> Forall sig_op_ok os -> n = SIGKILL \/ n = SIGSTOP ->
  let t := fold_left sig_exec os s in
  let p := (procs t).[c] in
  (forall i, 0 <= i < MAX_PROCS ->
    Z.testbit (signal_blocked (procs t).[i]) n = false /\ sa_handler (sigactions (procs t).[i]).[n] = 0) /\
  (current t = Some c -> saved_state p = Some st -> in_signal_handler p = false ->
   Z.testbit (signal_pending p) n = true -> (forall i, 1 <= i < n -> ~ deliverable p i) ->
   (signal_check_and_deliver t k).2 = Exit (128 + n)).
Proof.
  intros Hs Ho Hn t p. pose proof (sig_run_ok s os Hs Ho) as Ht. fold t in Ht. split.
  { intros i Hi. destruct (so_proc t Ht i Hi) as [_ [] []]. by destruct Hn as [->| ->]. }
  intros Hc Hst Hh Hb Hl.
  destruct (so_proc t Ht c (so_current t Ht c Hc)) as [_ [B9 B19] [H9 H19]]. fold p in B9, B19, H9, H19.
  assert (first_signal p n) as Hf.
  { split; [unfold SIGKILL, SIGSTOP, MAX_SIGNALS in *; lia|]. split; [|done]. split; [done|]. by destruct Hn as [->| ->]. }
  rewrite (check_delivers t c st n) by done. unfold dispatch. fold p. by destruct Hn as [->| ->]; rewrite ?H9, ?H19.
Qed.

Lemma sig_sys0_ok : sys_ok sig_sys0.
Proof.
  constructor; [done| |by intros c [= <-]]. intros i Hi. unfold sig_sys0. cbn [procs].
  rewrite geti_seti by (first [lia|unfold MAX_PROCS in Hi; lia|by vm_compute]). case_decide; [by repeat split|]. rewrite geti_replicate by (unfold MAX_PROCS in Hi; lia). by repeat split.
Qed.

Lemma sigkill_unstoppable_witness :
  (signal_check_and_deliver (fold_left sig_exec
     [OUser 3 (fun _ => 255) (Some (mkCpu 1 0x401000 0x302 0x7FFF1008 []));
      OMask 2 0x500000 0; OAction 9 0x500000 0; OCheck true; OKill 7 9] sig_sys0) true).2 = Exit 137.
Proof.
  refine (proj2 (sigkill_unstoppable _ _ 3 (mkCpu 1 0x401000 0x302 0x7FFF1008 []) _ SIGKILL _ _ _) _ _ _ _ _);
    [exact sig_sys0_ok|repeat (apply Forall_cons; [by vm_compute|]); by apply Forall_nil|by left
    |by vm_compute|by vm_compute|by vm_compute|by vm_compute|].
  intros i Hi [Hp Hb]. assert (i = 1 \/ i = 2 \/ i = 3 \/ i = 4 \/ i = 5 \/ i = 6 \/ i = 7 \/ i = 8) as H by (unfold SIGKILL in Hi; lia).
  revert Hp. by repeat (destruct H as [->|H]; [by vm_compute|]); subst i; vm_compute.
Defined.

(** Process [c] is in a handler. *)
Definition handling (c : Z) (s : sys) : Prop :=
  0 <= c < len (procs s) /\ in_signal_handler (procs s).[c] = true.

Lemma set_proc_handling c s i p :
  0 <= i -> (in_signal_handler (procs s).[i] = true -> in_signal_handler p = true) -> handling c s -> handling c (set_proc s i p).
Proof.
  intros Hi H [Hr Hh]. split; simpl; autorewrite with arr; [done|].
  destruct (decide (i = c)) as [->|]; [rewrite geti_seti_eq by done; auto|by rewrite geti_seti_ne by lia].
Qed.

Lemma post_signal_handling p n : in_signal_handler (post_signal p n) = in_signal_handler p.
Proof. unfold post_signal. by case_match. Qed.

Lemma check_handling c s k : (forall i, current s = Some i -> 0 <= i) -> handling c s -> handling c (signal_check_and_deliver s k).1.
Proof.
  intros Hcur Hh. unfold signal_check_and_deliver. destruct (current s) as [i|] eqn:Ec; [|done]. specialize (Hcur i eq_refl).
  destruct (saved_state _); [|done]. destruct (in_signal_handler (procs s).[i]) eqn:Ei; [done|].
  assert (forall t, handling c t -> handling c (drop_pre t i)) as Hd by (intros t Ht; by apply set_proc_handling).
  assert (forall n, handling c (take_signal s i n)) as Ht by (intros n; by apply set_proc_handling).
  destruct (_ =? 0); [done|]. destruct (_ =? 0); [done|]. cbv zeta. unfold take_signal in Ht.
  destruct (_ =? 0); [case_match; apply Ht|]. destruct (_ =? 1); [apply Ht|]. destruct k; [|apply Hd, Ht]. simpl.
  assert (forall t m, handling c t -> handling c (set_mem t m)) as Hm by done.
  unfold enter_handler. repeat case_match; [apply set_proc_handling; [done|done|]|apply Hd|apply Hd]; try apply Hm; apply Ht.
Qed.

(** The operations of this file except sigreturn, sigaction and sigprocmask. *)
Definition no_return (o : sig_op) : Prop :=
  match o with OReturn _ | OAction _ _ _ | OMask _ _ _ => False | o => sig_op_ok o end.

Lemma exec_handling c s o : sys_ok s -> no_return o -> handling c s -> handling c (sig_exec s o).
Proof.
  intros Hs Ho Hh. destruct o as [| p n| | |k|i n|i m st]; try done; simpl in *.
  - unfold signal_kill. destruct (_ || _); [done|]. destruct (0 <? p).
    + destruct (find_by_pid s p) as [i|] eqn:E; [|done]. destruct (n =? 0); [done|].
      apply find_from_Some in E as (Hi & _). apply set_proc_handling; [lia|by rewrite post_signal_handling|done].
    + cbn [fst]. apply (for_each_ind (kill_step n) (fun _ t => handling c t)); [done|]. intros j t Hj Ht. unfold kill_step.
      destruct (negb _ && _); [|done]. destruct (negb _); [|done].
      apply set_proc_handling; [lia|by rewrite post_signal_handling|done].
  - apply check_handling; [intros i Hi; pose proof (so_current s Hs i Hi); lia|done].
  - unfold signal_send_to_process. case_match; [done|].
    apply set_proc_handling; [lia|by rewrite post_signal_handling|done].
  - unfold user_step. apply set_proc_handling; [lia|done|done].
Qed.

(** Inside a handler a process cannot be killed: until it calls
    sigreturn, no number of kills, checks and steps of the processes makes a
    check by it deliver anything, SIGKILL included, although the pending bit
    is recorded. *)
Theorem handler_shields_sigkill s os c k :
  sys_ok s -> 0 <= c < MAX_PROCS -> in_signal_handler (procs s).[c] = true -> Forall no_return os ->
  let t := (signal_kill (fold_left sig_exec os s) (pid (procs s).[c]) SIGKILL).1 in
  current t = Some c -> signal_check_and_deliver t k = (t, Resume).
Proof.
  intros Hs Hc Hh Ho t Ht.
  assert (forall u, sys_ok u -> handling c u -> Forall no_return os ->
    sys_ok (fold_left sig_exec os u) /\ handling c (fold_left sig_exec os u)) as H.
  { clear t Ht. induction os as [|o os IH]; [done|]. intros u Hu Hcu [H1 H2]%Forall_cons_1. simpl.
    inversion Ho; subst. apply IH; [done| |by apply exec_handling|done]. apply (sig_run_ok u [o]); [done|].
    apply Forall_cons; [|by apply Forall_nil]. by destruct o. }
  destruct (H s Hs) as [H1 H2]; [split; [by rewrite (so_len s Hs)|done]|done|].
  apply (check_idle t c); [done|]. left.
  by destruct (exec_handling c _ (OKill (pid (procs s).[c]) SIGKILL) H1 I H2).
Qed.

Lemma handler_shields_sigkill_witness :
  let s := set_proc sig_sys0 3 (with_handler sig_proc0 None None true) in
  (signal_check_and_deliver (signal_kill (fold_left sig_exec [OKill 7 9; OCheck true] s) 7 9).1 true).2 = Resume.
Proof.
  cbv zeta. set (s := set_proc _ _ _).
  assert (sys_ok s) as Hs.
  { apply set_proc_ok; [exact sig_sys0_ok|by vm_compute|]. by repeat split. }
  pose proof (handler_shields_sigkill s [OKill 7 9; OCheck true] 3 true Hs) as H.
  change (pid (procs s).[3]) with 7 in H. change SIGKILL with 9 in H. rewrite H; [done|by vm_compute|by vm_compute| |by vm_compute].
  repeat (apply Forall_cons; [done|]). by apply Forall_nil.
Defined.
