(* ===== verification/PageFault.v ===== *)
(** * Page faults: mm/page_fault.c

    Copy-on-write, stack growth and demand paging over the address spaces of
    [Vmm], and SIGSEGV through [Signals].  The memory fields of struct process
    are [task]; entry [i] of [tasks] belongs to process [i] of the table. *)

From S2P Require Import Prelude Pmm PageAlloc Vmm Signals.

(** ** include/lestra/mm.h, sched.h *)

Definition USER_SPACE_START : Z := 0x0000000000400000.
Definition USER_SPACE_END : Z := 0x00007FFFFFFFFFFF.
Definition USER_STACK_TOP_DEFAULT : Z := 0x00007FFFFFE00000.

Record task := mkTask { pml4 : Z; stack_bottom : Z; brk_base : Z; brk : Z }.
#[export] Instance task_inhabited : Inhabited task := populate (mkTask 0 0 0 0).

Record kernel (A : Type) := mkKernel { kvm : vm A; ksys : sys; tasks : list task }.
Arguments mkKernel {A}.
Arguments kvm {A}.
Arguments ksys {A}.
Arguments tasks {A}.

Inductive outcome :=
| Return              (* the faulting instruction is retried *)
| Exited (status : Z) (* proc_exit *)
| Panic.

(** ** Operations *)

Definition get_pte_in_pml4 (m : Z -> Z) (root virt : Z) : option Z :=
  let e4 := m (slot root (idx 3 virt)) in
  if negb (has e4 PAGE_PRESENT) then None
  else
    let e3 := m (slot (frame_of e4) (idx 2 virt)) in
    if negb (has e3 PAGE_PRESENT) then None
    else if has e3 PAGE_HUGE then None
    else
      let e2 := m (slot (frame_of e3) (idx 1 virt)) in
      if negb (has e2 PAGE_PRESENT) then None
      else if has e2 PAGE_HUGE then None
      else Some (slot (frame_of e2) (idx 0 virt)).

(** The walk of the copy-on-write branch, without checks. *)
Definition pt_slot (m : Z -> Z) (root virt : Z) : Z :=
  slot (frame_of (m (slot (frame_of (m (slot (frame_of (m (slot root (idx 3 virt)))) (idx 2 virt)))) (idx 1 virt)))) (idx 0 virt).

Section handler.
Context {A : Type} `{PageAllocator A}.
Implicit Types (k : kernel A).

Definition set_vm k (s : vm A) : kernel A := mkKernel s (ksys k) (tasks k).

(** The flags the copy-on-write branch keeps of an entry. *)
Definition cow_flags (e : Z) : Z := Z.lor (Z.land e 0xFFF) (Z.land e 0xFF00000000000000).
Definition writable_flags (e : Z) : Z := Z.lor (Z.land (cow_flags e) (Z.lnot PAGE_COW)) PAGE_WRITABLE.

Definition resolve_cow k (c pte fault_addr : Z) : kernel A * outcome :=
  let s := kvm k in
  let e := pm s pte in
  let old_phys := Z.land e 0x000FFFFFFFFFF000 in
  if ref_get (pa s) old_phys <=? 1 then
    (set_vm k (write s pte (Z.lor (Z.lor old_phys (Z.land (cow_flags e) (Z.lnot PAGE_COW))) PAGE_WRITABLE)), Return)
  else
    let '(a, new_phys) := alloc_page (pa s) in
    if new_phys =? 0 then (set_vm k (mkVm a (pm s)), Panic)
    else
      let m := copy_page (pm s) new_phys old_phys in
      let '(a, _) := ref_dec a old_phys in
      let page_addr := ALIGN_DOWN fault_addr PAGE_SIZE in
      let s := mkVm a m in
      (set_vm k (write s (pt_slot m (pml4 (tasks k).[c]) page_addr)
                   (Z.lor (Z.lor new_phys (writable_flags e)) PAGE_PRESENT)), Return).

(** A zeroed page mapped at the page of the fault: [None] when there is none. *)
Definition map_zeroed k (c fault_addr : Z) : kernel A * bool :=
  let s := kvm k in
  let '(a, phys) := alloc_page (pa s) in
  if phys =? 0 then (set_vm k (mkVm a (pm s)), false)
  else
    let s := mkVm a (zero_page (pm s) phys) in
    (set_vm k (vmm_map_page s (pml4 (tasks k).[c]) (ALIGN_DOWN fault_addr PAGE_SIZE) phys
                 (Z.lor (Z.lor (Z.lor PAGE_PRESENT PAGE_USER) PAGE_WRITABLE) PAGE_NX)), true).

Definition set_stack_bottom k (c b : Z) : kernel A :=
  let t := (tasks k).[c] in
  mkKernel (kvm k) (ksys k) (tasks k).[c <- mkTask (pml4 t) b (brk_base t) (brk t)].

(** Not present: "!pte || !( *pte & PAGE_PRESENT)" *)
Definition not_mapped k (c fault_addr : Z) : bool :=
  match get_pte_in_pml4 (pm (kvm k)) (pml4 (tasks k).[c]) fault_addr with
  | Some pte => negb (has (pm (kvm k) pte) PAGE_PRESENT)
  | None => true
  end.

(** "deliver SIGSEGV": [signal_kill], and [proc_exit] without a handler. *)
Definition unhandled k (c : Z) (user : bool) : kernel A * outcome :=
  if user then
    let p := (procs (ksys k)).[c] in
    let k := mkKernel (kvm k) (signal_kill (ksys k) (pid p) 11).1 (tasks k) in
    if sa_handler (sigactions (procs (ksys k)).[c]).[11] =? 0 then (k, Exited (128 + 11)) else (k, Return)
  else (k, Panic).

(** Part 4 of the handler, and what follows. *)
Definition brk_fault k (c fault_addr : Z) (user : bool) : kernel A * outcome :=
  let t := (tasks k).[c] in
  if user && negb (brk_base t =? 0) && (brk_base t <=? fault_addr) && (fault_addr <? brk t) then
    if not_mapped k c fault_addr then
      match map_zeroed k c fault_addr with
      | (k, true) => (k, Return)
      | (k, false) => unhandled k c user
      end
    else unhandled k c user
  else unhandled k c user.

(** Parts 2 and 3. *)
Definition stack_fault k (c fault_addr : Z) (user : bool) : kernel A * outcome :=
  let t := (tasks k).[c] in
  if user && (USER_SPACE_START <=? fault_addr) && (fault_addr <=? USER_SPACE_END) then
    if (fault_addr <? stack_bottom t) && (stack_bottom t - fault_addr <=? 8 * 1024 * 1024) then
      match map_zeroed k c fault_addr with
      | (k, true) => (set_stack_bottom k c (ALIGN_DOWN fault_addr PAGE_SIZE), Return)
      | (k, false) => (k, Panic)
      end
    else if (stack_bottom t <=? fault_addr) && (fault_addr <? USER_STACK_TOP_DEFAULT) && not_mapped k c fault_addr then
      match map_zeroed k c fault_addr with
      | (k, true) => (k, Return)
      | (k, false) => (k, Panic)
      end
    else brk_fault k c fault_addr user
  else brk_fault k c fault_addr user.

Definition page_fault_handler k (fault_addr error_code : Z) : kernel A * outcome :=
  let present := has error_code 1 in
  let is_write := has error_code 2 in
  let user := has error_code 4 in
  match current (ksys k) with
  | None => (k, Panic)
  | Some c =>
      let t := (tasks k).[c] in
      if present && is_write && negb (pml4 t =? 0) then
        match get_pte_in_pml4 (pm (kvm k)) (pml4 t) fault_addr with
        | Some pte =>
            if has (pm (kvm k) pte) PAGE_COW then resolve_cow k c pte fault_addr
            else stack_fault k c fault_addr user
        | None => stack_fault k c fault_addr user
        end
      else stack_fault k c fault_addr user
  end.
End handler.

(** ** Walks *)

Lemma get_pte_in_inv m root v pte :
  get_pte_in_pml4 m root v = Some pte -> exists pt, tab m root (path1 v) = Some pt /\ pte = slot pt (idx 0 v).
Proof.
  unfold get_pte_in_pml4, path1, path2, path3. cbn [tab length mbind option_bind]. unfold child. cbn [Nat.eqb negb andb].
  destruct (has (m (slot root (idx 3 v))) PAGE_PRESENT); cbn [negb andb mbind option_bind]; [|done].
  set (e3 := m (slot (frame_of _) (idx 2 v))).
  destruct (has e3 PAGE_PRESENT); cbn [negb andb mbind option_bind]; [|done].
  destruct (has e3 PAGE_HUGE); cbn [negb andb mbind option_bind]; [done|].
  set (e2 := m (slot (frame_of e3) (idx 1 v))).
  destruct (has e2 PAGE_PRESENT); cbn [negb andb]; [|done].
  destruct (has e2 PAGE_HUGE); cbn [negb andb]; [done|]. intros [= <-]. by eexists.
Qed.

Lemma pt_slot_tab m root v pt : tab m root (path1 v) = Some pt -> pt_slot m root v = slot pt (idx 0 v).
Proof.
  unfold pt_slot, path1, path2, path3. cbn [tab length mbind option_bind]. unfold child at 3.
  destruct (has (m (slot root (idx 3 v))) PAGE_PRESENT); cbn [Nat.eqb negb andb mbind option_bind]; [|done].
  unfold child at 2. destruct (_ && _); cbn [mbind option_bind]; [|done].
  unfold child. destruct (_ && _); [|done]. by intros [= <-].
Qed.

Lemma path1_align v : path1 (ALIGN_DOWN v PAGE_SIZE) = path1 v.
Proof. rewrite ALIGN_DOWN_page. apply path1_page. by rewrite Z.div_mul. Qed.

(** ** Writing a page nobody uses *)

Section proofs.
Context {A : Type} `{PageAllocator A}.
Implicit Types (s : vm A) (k : kernel A).

Lemma fresh_page_kept root s a z (m : Z -> Z) :
  vm_ok s root -> allocator_ok a -> (forall q, is_page q -> in_use (pa s) q -> in_use a q) ->
  is_page z -> ~ in_use (pa s) z -> (forall x, in_page z x = false -> m x = pm s x) ->
  (forall x, 0 <= m x < 2 ^ 64) ->
  tables_kept root s (mkVm a m) /\ forall Q, path_ok Q -> tab m root Q = tab (pm s) root Q.
Proof.
  intros Hs Ha Hm Hz Hf Ho Hw.
  assert (forall Q u j, path_ok Q -> index_ok j -> tab (pm s) root Q = Some u -> m (slot u j) = pm s (slot u j)) as HS.
  { intros Q u j HQ Hj Hu. destruct (vo_tab s root Hs Q u HQ Hu). apply Ho, slot_out; [done|done| |done]. by intros ->. }
  assert (forall Q, path_ok Q -> tab m root Q = tab (pm s) root Q) as HT.
  { induction Q as [|j up IH]; intros HQ; [done|]. destruct (path_ok_cons _ _ HQ) as (Hup & Hj & _). cbn [tab].
    rewrite (IH Hup). destruct (tab (pm s) root up) as [u|] eqn:Eu; [|done]. cbn [mbind option_bind].
    by rewrite (HS up u j). }
  assert (forall Q j, pt_path Q j -> uleaf m root Q j = uleaf (pm s) root Q j) as HU.
  { intros Q j (HQ & _ & Hj). unfold uleaf. rewrite (HT Q HQ). destruct (tab (pm s) root Q) as [u|] eqn:Eu; [|done].
    cbn [mbind option_bind]. by rewrite (HS Q u j). }
  split; [|exact HT]. constructor; try done.
  - constructor; try done.
    + intros Q u HQ. simpl. rewrite (HT Q HQ). intros Hu. destruct (vo_tab s root Hs Q u HQ Hu). auto.
    + intros Q R u HQ HR. simpl. rewrite (HT Q HQ), (HT R HR). by apply (vo_inj s root Hs).
    + intros Q u j HQ HlQ. destruct (path_ok_cons _ _ HQ) as (HQ' & Hj & _). simpl. rewrite (HT Q HQ'). intros Hu.
      rewrite (HS Q u j) by done. by apply (vo_huge s root Hs Q u j).
    + intros Q j p HQ. simpl. rewrite (HU Q j HQ). intros Hp. destruct (vo_user s root Hs Q j p HQ Hp) as [H1 H2].
      split; [apply Hm; [by apply (uleaf_page root s Q j)|done]|]. intros R HR. rewrite (HT R HR). by apply H2.
    + intros Q j R l p HQ HR. simpl. rewrite (HU Q j HQ), (HU R l HR). by apply (vo_sole s root Hs).
  - intros v. pose proof (path1_ok v) as H1. destruct (path_ok_cons _ _ H1) as (H2 & _). destruct (path_ok_cons _ _ H2) as (H3 & _).
    unfold phys_of. cbn [pm]. rewrite (HT _ H1), (HT _ H2), (HT _ H3).
    destruct (tab (pm s) root (path1 v)) eqn:T1; [by rewrite (HS (path1 v)) by (done || apply idx_ok)|].
    destruct (tab (pm s) root (path2 v)) eqn:T2; [by rewrite (HS (path2 v)) by (done || apply idx_ok)|].
    destruct (tab (pm s) root (path3 v)) eqn:T3; [|done]. by rewrite (HS (path3 v)) by (done || apply idx_ok).
  - intros Q u HQ. simpl. by rewrite (HT Q HQ).
  - intros Q u HQ. simpl. rewrite (HT Q HQ). by left.
  - intros Q j HQ. destruct (path_ok_cons _ _ HQ) as (HQ' & Hj & _). unfold huge_at. simpl. rewrite (HT Q HQ').
    destruct (tab (pm s) root Q) as [u|] eqn:Eu; [|done]. by rewrite (HS Q u j).
  - intros q x (Hq & Hu & _) Hx. apply Ho. apply not_true_iff_false. rewrite in_page_spec in Hx |- *.
    assert (q <> z) by (by intros ->). unfold is_page in *. zlia.
  - intros Q u j (HQ & _ & Hj) Hu. by apply (HS Q u j).
Qed.

(** ** Flags of a resolved copy-on-write entry *)

Lemma lor_present x : has x PAGE_PRESENT = true -> Z.lor x PAGE_PRESENT = x.
Proof.
  intros Hx. apply Z.bits_inj'. intros i Hi. rewrite Z.lor_spec. destruct (decide (i = 0)) as [->|].
  - assert (Z.testbit x 0 = true) as ->; [|done]. rewrite <- test_bit_testbit by lia. unfold test_bit. by rewrite Z.shiftr_0_r.
  - rewrite (testbit_high 1 PAGE_PRESENT) by (unfold PAGE_PRESENT; lia). apply orb_false_r.
Qed.

Lemma cow_flags_word e : 0 <= e < 2 ^ 64 -> 0 <= cow_flags e < 2 ^ 64.
Proof. intros He. apply lor_word; by apply land_word. Qed.

Lemma cow_flags_mask e : Z.land (cow_flags e) PTE_PHYS_MASK = 0.
Proof. unfold cow_flags. rewrite Z.land_lor_distr_l, <- !Z.land_assoc. change (Z.land 0xFFF PTE_PHYS_MASK) with 0.
  change (Z.land 0xFF00000000000000 PTE_PHYS_MASK) with 0. by rewrite Z.land_0_r. Qed.

Lemma has_cow_flags e f : Z.land 0xFFF f = f -> Z.land 0xFF00000000000000 f = 0 -> has (cow_flags e) f = has e f.
Proof.
  intros H1 H2. unfold cow_flags. rewrite has_lor, has_land_id, has_land by done. apply orb_false_r.
Qed.

Record cow_resolved (e e' frame : Z) : Prop := {
  cr_word : 0 <= e' < 2 ^ 64;
  cr_frame : frame_of e' = frame;
  cr_present : has e' PAGE_PRESENT = true;
  cr_writable : has e' PAGE_WRITABLE = true;
  cr_cow : has e' PAGE_COW = false;
  cr_user : has e' PAGE_USER = has e PAGE_USER;
  cr_huge : has e' PAGE_HUGE = has e PAGE_HUGE;
  cr_nx : has e' PAGE_NX = has e PAGE_NX;
  cr_52 : has e' (Z.shiftl 0xF 52) = false;
}.

Lemma cow_entry e p : is_page p -> 0 <= e < 2 ^ 64 -> cow_resolved e (Z.lor (Z.lor p (writable_flags e)) PAGE_PRESENT) p.
Proof.
  intros Hp He. unfold writable_flags. constructor.
  - repeat apply lor_word; try (by apply page_word); [by apply land_word, cow_flags_word|by vm_compute|by vm_compute].
  - rewrite <- Z.lor_assoc. apply page_frame; [done|]. rewrite !Z.land_lor_distr_l.
    rewrite (Z.land_comm (cow_flags e)), <- Z.land_assoc, cow_flags_mask. by rewrite Z.land_0_r.
  - rewrite !has_lor. by rewrite orb_true_r.
  - rewrite !has_lor. change (has PAGE_WRITABLE PAGE_WRITABLE) with true. by rewrite !orb_true_r.
  - rewrite !has_lor, (page_flags p), has_land by done. done.
  - rewrite !has_lor, (page_flags p), has_land_id, has_cow_flags by done.
    change (has PAGE_WRITABLE PAGE_USER) with false. change (has PAGE_PRESENT PAGE_USER) with false. by rewrite !orb_false_r.
  - rewrite !has_lor, (page_flags p), has_land_id, has_cow_flags by done.
    change (has PAGE_WRITABLE PAGE_HUGE) with false. change (has PAGE_PRESENT PAGE_HUGE) with false. by rewrite !orb_false_r.
  - rewrite !has_lor, (page_flags p), has_land_id by done. unfold cow_flags. rewrite has_lor, (has_land e 0xFFF), has_land_id by done.
    change (has PAGE_WRITABLE PAGE_NX) with false. change (has PAGE_PRESENT PAGE_NX) with false. by rewrite !orb_false_r.
  - rewrite !has_lor, (page_flags p), has_land_id by done. unfold cow_flags. by rewrite has_lor, !has_land.
Qed.

(** ** Copy-on-write *)

Lemma cow_leaf_view e e' p v : cow_resolved e e' p -> has e PAGE_HUGE = false -> is_page p ->
  leaf_phys e' LEVEL_PT v = p + v mod 4096.
Proof.
  intros R Hh Hp. apply phys_entry; [done|]. unfold view. by rewrite (cr_present _ _ _ R), (cr_huge _ _ _ R), (cr_frame _ _ _ R), Hh.
Qed.

(** What one entry and a fresh page change: [s1] has the fresh page written
    and [s'] the entry of [v] as well. *)
Lemma entry_replaced root s a m v pt e' new :
  vm_ok s root -> tab (pm s) root (path1 v) = Some pt -> allocator_ok a ->
  (forall q, is_page q -> in_use (pa s) q -> in_use a q) -> is_page new -> ~ in_use (pa s) new -> in_use a new ->
  (forall x, in_page new x = false -> m x = pm s x) -> (forall x, 0 <= m x < 2 ^ 64) ->
  0 <= e' < 2 ^ 64 -> view e' = (true, false, new) ->
  let s' := write (mkVm a m) (slot pt (idx 0 v)) e' in
  vm_ok s' root /\ phys_of (pm s') root v = new + v mod 4096 /\
  forall w, (path1 w, idx 0 w) <> (path1 v, idx 0 v) -> phys_of (pm s') root w = phys_of (pm s) root w.
Proof.
  intros Hs Hpt Ha Hm Hn Hf Hu Ho Hw He Hv s'.
  destruct (fresh_page_kept root s a new m Hs Ha Hm Hn Hf Ho Hw) as [K HT]. pose proof (tk_ok _ _ _ K) as O1.
  pose proof (tk_tab _ _ _ K _ _ (path1_ok v) Hpt) as Hpt1. destruct (view_inv e' (Z.lor new 1)) as (_ & _ & Efr).
  { rewrite Hv. symmetry. apply view_table; [done|]. by repeat split. }
  rewrite (page_frame new 1) in Efr by done.
  split; [|split].
  - apply (leaf_write_ok root (mkVm a m) v pt O1 Hpt1 a e'); [done| | |done|].
    + intros Q t HQ Ht. by apply (vo_tab _ root O1 Q).
    + intros Q j p HQ _ Hp. by apply (vo_user _ root O1 Q j).
    + intros _. rewrite Efr. split; [done|]. split.
      * intros Q HQ. simpl. rewrite (HT Q HQ). intros Ht. by apply Hf, (vo_tab s root Hs Q).
      * intros Q j HQ Hp. rewrite (tk_user _ _ _ K Q j HQ) in Hp. exfalso. by apply Hf, (vo_user s root Hs Q j).
  - rewrite <- (phys_entry e' new v Hn Hv). by apply (leaf_phys_here root (mkVm a m) v pt).
  - intros w Hne. etransitivity; [by apply (leaf_phys_other root (mkVm a m) v pt O1 Hpt1 a e')|]. apply K.
Qed.

(** The fault of this claim: a write to a present user page marked
    copy-on-write in the address space of the running process. *)
Record cow_fault k (c root addr ec pte e : Z) : Prop := {
  cf_current : current (ksys k) = Some c;
  cf_root : pml4 (tasks k).[c] = root /\ root <> 0;
  cf_ok : vm_ok (kvm k) root;
  cf_addr : 0 <= addr < 2 ^ 48;
  cf_code : has ec 1 = true /\ has ec 2 = true;
  cf_pte : get_pte_in_pml4 (pm (kvm k)) root addr = Some pte;
  cf_entry : e = pm (kvm k) pte;
  cf_flags : has e PAGE_PRESENT = true /\ has e PAGE_USER = true /\ has e PAGE_COW = true /\ has e PAGE_HUGE = false;
}.

Lemma cow_fault_handler k c root addr ec pte e :
  cow_fault k c root addr ec pte e -> page_fault_handler k addr ec = resolve_cow k c pte addr.
Proof.
  intros [Hc [Hr Hr0] _ _ [E1 E2] Hp -> (_ & _ & Hcow & _)]. unfold page_fault_handler.
  rewrite Hc, Hr, E1, E2, (proj2 (Z.eqb_neq root 0)), Hp, Hcow by done. done.
Qed.

Lemma cow_fault_leaf k c root addr ec pte e :
  cow_fault k c root addr ec pte e -> exists pt, tab (pm (kvm k)) root (path1 addr) = Some pt /\ pte = slot pt (idx 0 addr) /\
    is_page (frame_of e) /\ in_use (pa (kvm k)) (frame_of e) /\ 0 <= e < 2 ^ 64.
Proof.
  intros [_ _ Hs _ _ Hp -> (Pp & Pu & _)]. destruct (get_pte_in_inv _ _ _ _ Hp) as (pt & Hpt & ->). exists pt.
  split; [done|]. split; [done|]. pose proof (vo_word _ _ Hs (slot pt (idx 0 addr))) as Hw.
  split; [apply is_page_masked; lia|]. split; [|done].
  apply (vo_user _ _ Hs (path1 addr) (idx 0 addr)); [split; [apply path1_ok|split; [done|apply idx_ok]]|].
  unfold uleaf. rewrite Hpt. cbn [mbind option_bind]. by rewrite Pp, Pu.
Qed.

(** C3: A copy-on-write fault gives the process a private copy. When the page
    has more than one reference and a page can be allocated, the handler
    returns with the address mapped writable, no longer copy-on-write, to a
    page nobody used that holds the old page's words; memory changes only in
    that page and in this one entry, so that other address spaces see the old
    page unchanged; the old page has one reference less and the new page one.
    Every other address of the process translates as before. *)
Theorem cow_private k c root addr ec pte e :
  cow_fault k c root addr ec pte e ->
  let s := kvm k in let old := frame_of e in
  1 < ref_get (pa s) old -> 0 < avail (pa s) ->
  let r := page_fault_handler k addr ec in let s' := kvm r.1 in
  r.2 = Return /\ exists new e', is_page new /\ ~ in_use (pa s) new /\ in_use (pa s') new /\
    cow_resolved e e' new /\
    (forall x, pm s' x = if x =? pte then e' else if in_page new x then pm s (x - new + old) else pm s x) /\
    ref_get (pa s') new = 1 /\ ref_get (pa s') old = ref_get (pa s) old - 1 /\
    vm_ok s' root /\ vmm_get_phys s' root addr = new + addr mod 4096 /\
    forall w, 0 <= w < 2 ^ 48 -> w / 4096 <> addr / 4096 -> vmm_get_phys s' root w = vmm_get_phys s root w.
Proof.
  intros Hf s old Href Hav r. unfold r. rewrite (cow_fault_handler _ _ _ _ _ _ _ Hf).
  destruct (cow_fault_leaf _ _ _ _ _ _ _ Hf) as (pt & Hpt & Ep & Hpo & Huo & Hw).
  destruct Hf as [_ [Hr _] Hs Ha _ _ Ee (_ & _ & _ & Hh)]. unfold resolve_cow. fold s in Hpt, Ee, Hs, Huo |- *.
  rewrite <- Ee. change (Z.land e 0x000FFFFFFFFFF000) with old.
  rewrite (proj2 (Z.leb_gt _ 1)) by done.
  pose proof (alloc_page_law (pa s) (vo_alloc _ _ Hs)) as L. destruct (alloc_page (pa s)) as [a new].
  destruct L as (Ha1 & Hm & Hrk & Hnew & Hz). destruct (Hz Hav) as [Hn0 _].
  destruct Hnew as [|(Hpn & _ & Hfn & Hun & Hrn)]; [done|]. rewrite (proj2 (Z.eqb_neq new 0)) by done.
  assert (old <> new) as Hon by (by intros <-).
  pose proof (ref_dec_law a old Ha1 Hpo) as D. destruct (ref_dec a old) as [a2 n].
  destruct D as (Ha2 & Hin & -> & Hro & Hro2). cbn [fst snd kvm set_vm]. split; [done|].
  set (m := copy_page (pm s) new old). pose proof (cow_entry e new Hpn Hw) as R. set (e' := Z.lor _ PAGE_PRESENT) in *.
  assert (forall x, in_page new x = false -> m x = pm s x) as Ho.
  { intros x Hx. unfold m, copy_page. by rewrite Hx. }
  assert (forall x, 0 <= m x < 2 ^ 64) as Hwm.
  { intros x. unfold m, copy_page. destruct (in_page new x); apply (vo_word _ _ Hs). }
  assert (forall q, is_page q -> in_use (pa s) q -> in_use a2 q) as Hm2 by (intros q Hq Hu; apply Hin; auto).
  assert (in_use a2 new) as Hu2 by by apply Hin.
  destruct (fresh_page_kept root s a2 new m Hs Ha2 Hm2 Hpn Hfn Ho Hwm) as [_ HT].
  assert (pt_slot m (pml4 (tasks k).[c]) (ALIGN_DOWN addr PAGE_SIZE) = pte) as ->.
  { rewrite Hr, (pt_slot_tab _ _ _ pt) by (rewrite path1_align; rewrite HT by apply path1_ok; done). by rewrite ALIGN_DOWN_page, idx_align. }
  assert (view e' = (true, false, new)) as Hv
    by (unfold view; by rewrite (cr_present _ _ _ R), (cr_huge _ _ _ R), (cr_frame _ _ _ R), Hh).
  rewrite Ep. destruct (entry_replaced root s a2 m addr pt e' new Hs Hpt Ha2 Hm2 Hpn Hfn Hu2 Ho Hwm (cr_word _ _ _ R) Hv) as (O & P & Q).
  exists new, e'. rewrite Ep in *. split; [done|]. split; [done|]. split; [done|]. split; [done|].
  split; [intros x; unfold write, mset, m, copy_page; simpl; done|].
  split; [simpl; rewrite Hro2 by (done || congruence); done|].
  split; [simpl; rewrite Hro, (Hrk old) by done; lia|].
  split; [done|]. rewrite !get_phys_tab. split; [done|]. intros w Hww Hne. rewrite !get_phys_tab. apply Q. by apply other_page.
Qed.

(** With a single reference the page is made writable in place: only the
    entry changes, and the allocator not at all. *)
Theorem cow_sole_owner k c root addr ec pte e :
  cow_fault k c root addr ec pte e ->
  let s := kvm k in
  ref_get (pa s) (frame_of e) <= 1 ->
  let r := page_fault_handler k addr ec in let s' := kvm r.1 in
  r.2 = Return /\ pa s' = pa s /\ exists e', cow_resolved e e' (frame_of e) /\
    (forall x, pm s' x = if x =? pte then e' else pm s x) /\
    forall w, 0 <= w < 2 ^ 48 -> vmm_get_phys s' root w = vmm_get_phys s root w.
Proof.
  intros Hf s Href r. unfold r. rewrite (cow_fault_handler _ _ _ _ _ _ _ Hf).
  destruct (cow_fault_leaf _ _ _ _ _ _ _ Hf) as (pt & Hpt & Ep & Hpo & Huo & Hw).
  destruct Hf as [_ _ Hs Ha _ _ Ee (Hp & _ & _ & Hh)]. unfold resolve_cow. fold s in Hpt, Ee, Hs, Huo |- *.
  rewrite <- Ee. change (Z.land e 0x000FFFFFFFFFF000) with (frame_of e).
  rewrite (proj2 (Z.leb_le _ 1)) by done. cbn [fst snd kvm set_vm]. split; [done|]. split; [done|].
  set (e' := Z.lor (Z.lor _ _) PAGE_WRITABLE).
  assert (cow_resolved e e' (frame_of e)) as R.
  { replace e' with (Z.lor (Z.lor (frame_of e) (writable_flags e)) PAGE_PRESENT); [by apply cow_entry|].
    rewrite lor_present; [unfold e', writable_flags; by rewrite Z.lor_assoc|].
    unfold writable_flags. by rewrite !has_lor, has_land_id, has_cow_flags, Hp, orb_true_r. }
  exists e'. split; [done|]. split; [done|].
  assert (forall x, view (pm (write s pte e') x) = view (pm s x)) as Hv.
  { intros x. simpl. unfold mset. destruct (Z.eqb_spec x pte) as [->|]; [|done]. rewrite <- Ee. unfold view.
    by rewrite (cr_present _ _ _ R), (cr_huge _ _ _ R), (cr_frame _ _ _ R), Hp, Hh. }
  intros w _. rewrite !get_phys_tab. by apply phys_of_view.
Qed.

(** ** Zeroed pages *)

Lemma data_page_fresh root s a z (m : Z -> Z) :
  (forall Q, path_ok Q -> tab m root Q = tab (pm s) root Q) -> vm_ok s root -> is_page z -> ~ in_use (pa s) z -> in_use a z ->
  data_page root (mkVm a m) z.
Proof.
  intros HT Hs Hz Hf Hu. split; [done|]. split; [done|]. intros Q HQ. simpl. rewrite (HT Q HQ). intros Ht.
  by apply Hf, (vo_tab s root Hs Q).
Qed.

Lemma map_zeroed_spec k c root addr :
  pml4 (tasks k).[c] = root -> vm_ok (kvm k) root -> 0 <= addr < 2 ^ 48 -> 4 <= avail (pa (kvm k)) ->
  huge_at (pm (kvm k)) root (idx 2 addr) (path3 addr) = false ->
  let r := map_zeroed k c addr in let s' := kvm r.1 in
  r.2 = true /\ ksys r.1 = ksys k /\ tasks r.1 = tasks k /\ vm_ok s' root /\
  (forall w, 0 <= w < 2 ^ 48 -> w / 4096 <> addr / 4096 -> vmm_get_phys s' root w = vmm_get_phys (kvm k) root w) /\
  exists p, is_page p /\ ~ in_use (pa (kvm k)) p /\ vmm_get_phys s' root addr = p + addr mod 4096 /\
    forall x, in_page p x = true -> pm s' x = 0.
Proof.
  intros Hr Hs Ha Hav Hg. unfold map_zeroed. set (s := kvm k) in *. rewrite Hr.
  pose proof (alloc_page_law (pa s) (vo_alloc _ _ Hs)) as L. destruct (alloc_page (pa s)) as [a p].
  destruct L as (Ha1 & Hm & _ & Hp & Hz). destruct (Hz ltac:(lia)) as [Hp0 Hav1].
  destruct Hp as [|(Hpp & _ & Hf & Hu & _)]; [done|]. rewrite (proj2 (Z.eqb_neq p 0)) by done. cbn [fst snd kvm set_vm ksys tasks].
  destruct (fresh_page_kept root s a p (zero_page (pm s) p) Hs Ha1 Hm Hpp Hf) as [K HT];
    [intros x; apply zero_page_out|apply zero_page_word, Hs|].
  set (s1 := mkVm a _) in *. pose proof (data_page_fresh root s a p _ HT Hs Hpp Hf Hu) as Hd. fold s1 in Hd.
  set (fl := Z.lor _ PAGE_NX). set (va := ALIGN_DOWN addr PAGE_SIZE).
  assert (va = addr / 4096 * 4096) as Eva by apply ALIGN_DOWN_page.
  assert (0 <= va < 2 ^ 48 /\ va / 4096 = addr / 4096) as [Hva Evp].
  { rewrite Eva. change (2 ^ 48) with 281474976710656 in *. split; [zlia|by rewrite Z.div_mul]. }
  assert (may_map root s1 va p fl) as Hmm.
  { split; [done|]. split; [by vm_compute|]. split; [done|]. split; [done|]. intros _. destruct Hd as (_ & Hu1 & Hn).
    split; [done|]. split; [done|]. intros Q j HQ Hl. exfalso. rewrite (tk_user _ _ _ K Q j HQ) in Hl.
    by apply Hf, (vo_user s root Hs Q j). }
  destruct (vmm_map_page_ok root s1 va p fl (tk_ok _ _ _ K) Hva Hmm) as (O & P & _ & Q & M).
  split; [done|]. split; [done|]. split; [done|]. split; [done|]. split.
  - intros w Hw Hne. rewrite P by (try done; lia). rewrite !get_phys_tab. apply K.
  - exists p. split; [done|]. split; [done|]. split.
    + rewrite Q; [done|simpl; lia| |done]. unfold path3. rewrite !(idx_page _ va addr) by (lia || done). apply not_true_iff_false. intros Hh.
      apply (tk_huge _ _ _ K) in Hh; [unfold path3 in Hg; by rewrite Hg in Hh|by destruct (path_ok_cons _ _ (path1_ok addr))].
    + intros x Hx. rewrite (M p x Hd Hx). simpl. unfold zero_page. by rewrite Hx.
Qed.

(** The fault is no write to a present copy-on-write page. *)
Definition no_cow k (root addr ec : Z) : Prop :=
  has ec 1 && has ec 2 = true -> forall pte, get_pte_in_pml4 (pm (kvm k)) root addr = Some pte ->
  has (pm (kvm k) pte) PAGE_COW = false.

Lemma no_cow_handler k c root addr ec :
  current (ksys k) = Some c -> pml4 (tasks k).[c] = root -> no_cow k root addr ec ->
  page_fault_handler k addr ec = stack_fault k c addr (has ec 4).
Proof.
  intros Hc Hr Hn. unfold page_fault_handler, no_cow in *. rewrite Hc, Hr. destruct (has ec 1 && has ec 2); [|done].
  destruct (negb (root =? 0)); [|done]. destruct (get_pte_in_pml4 _ root addr) as [pte|]; [|done]. by rewrite (Hn eq_refl pte).
Qed.

Definition in_user_space (addr : Z) : Prop := USER_SPACE_START <= addr <= USER_SPACE_END.
Definition below_stack k (c addr : Z) : Prop :=
  addr < stack_bottom (tasks k).[c] /\ stack_bottom (tasks k).[c] - addr <= 8 * 1024 * 1024.

Lemma stack_fault_grow k c addr :
  in_user_space addr -> below_stack k c addr ->
  stack_fault k c addr true =
    match map_zeroed k c addr with
    | (k, true) => (set_stack_bottom k c (ALIGN_DOWN addr PAGE_SIZE), Return)
    | (k, false) => (k, Panic)
    end.
Proof.
  intros [H1 H2] [H3 H4]. unfold stack_fault. rewrite (proj2 (Z.leb_le _ addr)), (proj2 (Z.leb_le addr _)) by done.
  rewrite (proj2 (Z.ltb_lt _ _)), (proj2 (Z.leb_le _ (8 * 1024 * 1024))) by done. done.
Qed.

(** A user fault up to 8 MB below the stack is answered by a zeroed page
    at the fault, whatever was mapped there before, and the bottom of the stack
    moves down to it, and with it the 8 MB limit; every other page translates
    as before. *)
Theorem stack_growth k c root addr ec :
  current (ksys k) = Some c -> 0 <= c < len (tasks k) -> pml4 (tasks k).[c] = root -> vm_ok (kvm k) root ->
  has ec 4 = true -> no_cow k root addr ec -> in_user_space addr -> below_stack k c addr ->
  4 <= avail (pa (kvm k)) -> huge_at (pm (kvm k)) root (idx 2 addr) (path3 addr) = false ->
  let r := page_fault_handler k addr ec in let s' := kvm r.1 in
  r.2 = Return /\ stack_bottom (tasks r.1).[c] = addr / 4096 * 4096 /\ vm_ok s' root /\
  (exists p, is_page p /\ ~ in_use (pa (kvm k)) p /\ vmm_get_phys s' root addr = p + addr mod 4096 /\
     forall x, in_page p x = true -> pm s' x = 0) /\
  forall w, 0 <= w < 2 ^ 48 -> w / 4096 <> addr / 4096 -> vmm_get_phys s' root w = vmm_get_phys (kvm k) root w.
Proof.
  intros Hc Hcr Hr Hs Hu Hn Hsp Hb Hav Hg r. unfold r. rewrite (no_cow_handler k c root) by done.
  rewrite Hu, (stack_fault_grow k c addr Hsp Hb).
  assert (0 <= addr < 2 ^ 48) as Ha by (destruct Hsp; unfold USER_SPACE_START, USER_SPACE_END in *; lia).
  pose proof (map_zeroed_spec k c root addr Hr Hs Ha Hav Hg) as (E1 & E2 & E3 & O & P & Z).
  destruct (map_zeroed k c addr) as [k1 b]. cbn [fst snd] in *. subst b. cbn [fst snd kvm tasks set_stack_bottom].
  split; [done|]. split; [rewrite E3, geti_seti_eq by done; apply ALIGN_DOWN_page|]. done.
Qed.

(** A user fault never stops the kernel while a page can be allocated, and
    a process it ends had no handler for SIGSEGV and exits with 139. Without
    a free page a stack that grows panics the whole kernel. *)
Theorem user_fault_outcomes k c addr ec :
  current (ksys k) = Some c -> has ec 4 = true ->
  let r := page_fault_handler k addr ec in
  ((alloc_page (pa (kvm k))).2 <> 0 -> r.2 <> Panic) /\
  (forall st, r.2 = Exited st -> st = 139 /\ sa_handler (sigactions (procs (ksys r.1)).[c]).[11] = 0) /\
  ((alloc_page (pa (kvm k))).2 = 0 -> no_cow k (pml4 (tasks k).[c]) addr ec -> in_user_space addr -> below_stack k c addr ->
   r.2 = Panic).
Proof.
  intros Hc Hu r.
  assert (forall k, (unhandled k c true).2 <> Panic /\ forall st, (unhandled k c true).2 = Exited st ->
    st = 139 /\ sa_handler (sigactions (procs (ksys (unhandled k c true).1)).[c]).[11] = 0) as HU.
  { intros k0. unfold unhandled. destruct (Z.eqb_spec (sa_handler (sigactions (procs (ksys
      (mkKernel (kvm k0) (signal_kill (ksys k0) (pid (procs (ksys k0)).[c]) 11).1 (tasks k0)))).[c]).[11]) 0); [|done].
    split; [done|]. by intros st [= <-]. }
  assert (forall k, (alloc_page (pa (kvm k))).2 <> 0 -> (map_zeroed k c addr).2 = true) as HM.
  { intros k0 Hz. unfold map_zeroed. destruct (alloc_page (pa (kvm k0))) as [a p]. by rewrite (proj2 (Z.eqb_neq p 0)). }
  assert (forall k, (alloc_page (pa (kvm k))).2 = 0 -> (map_zeroed k c addr).2 = false) as HM0.
  { intros k0 Hz. unfold map_zeroed. destruct (alloc_page (pa (kvm k0))) as [a p]. simpl in Hz. by subst p. }
  assert (forall k, (brk_fault k c addr true).2 <> Panic /\ forall st, (brk_fault k c addr true).2 = Exited st ->
    st = 139 /\ sa_handler (sigactions (procs (ksys (brk_fault k c addr true).1)).[c]).[11] = 0) as HB.
  { intros k0. unfold brk_fault. destruct (_ && _); [|apply HU]. destruct (not_mapped k0 c addr); [|apply HU].
    destruct (map_zeroed k0 c addr) as [k1 []]; [done|apply HU]. }
  assert (forall k, ((alloc_page (pa (kvm k))).2 <> 0 -> (stack_fault k c addr true).2 <> Panic) /\
    forall st, (stack_fault k c addr true).2 = Exited st ->
    st = 139 /\ sa_handler (sigactions (procs (ksys (stack_fault k c addr true).1)).[c]).[11] = 0) as HS.
  { intros k0. pose proof (HM k0) as Hz. unfold stack_fault. destruct (_ && _); [|split; [intros _|]; apply HB].
    destruct (_ && _).
    { revert Hz. destruct (map_zeroed k0 c addr) as [k1 []]; intros Hz; [by split|]. split; [|done].
      intros Ha. pose proof (Hz Ha). done. }
    destruct (_ && _ && _); [|split; [intros _|]; apply HB].
    revert Hz. destruct (map_zeroed k0 c addr) as [k1 []]; intros Hz; [by split|]. split; [|done].
    intros Ha. pose proof (Hz Ha). done. }
  assert (forall pte, ((alloc_page (pa (kvm k))).2 <> 0 -> (resolve_cow k c pte addr).2 <> Panic) /\
    forall st, (resolve_cow k c pte addr).2 <> Exited st) as HC.
  { intros pte. unfold resolve_cow. destruct (_ <=? 1); [done|]. destruct (alloc_page (pa (kvm k))) as [a p].
    simpl. destruct (Z.eqb_spec p 0); [done|]. by destruct (ref_dec a _). }
  split; [|split].
  - intros Hz. unfold r, page_fault_handler. rewrite Hc, Hu. destruct (_ && _); [|by apply HS].
    destruct (get_pte_in_pml4 _ _ addr) as [pte|]; [|by apply HS]. destruct (has _ PAGE_COW); [by apply HC|by apply HS].
  - intros st. unfold r, page_fault_handler. rewrite Hc, Hu. destruct (_ && _); [|by apply HS].
    destruct (get_pte_in_pml4 _ _ addr) as [pte|]; [|by apply HS]. destruct (has _ PAGE_COW); [|by apply HS].
    intros E. by destruct (proj2 (HC pte) st).
  - intros Hz Hn Hsp Hb. unfold r. rewrite (no_cow_handler k c _ addr ec Hc eq_refl Hn), Hu, (stack_fault_grow k c addr Hsp Hb).
    pose proof (HM0 k Hz). by destruct (map_zeroed k c addr) as [k1 []].
Qed.
End proofs.

(** ** A process with a page shared copy-on-write *)

Definition shared_pmm : pmm := pmm_refcount_inc (pmm_refcount_inc demo 0x110000) 0x110000.

Lemma shared_pmm_ok : pmm_allocator_ok shared_pmm /\ forall q, page_in_use shared_pmm q <-> page_in_use demo q.
Proof.
  assert (is_page 0x110000) as Hp by (by split; [lia|]).
  destruct (pmm_refcount_inc_ok demo 0x110000 demo_allocator_ok Hp) as [H1 U1].
  destruct (pmm_refcount_inc_ok _ 0x110000 H1 Hp) as [H2 U2]. split; [done|]. intros q. by rewrite (U2 q), (U1 q).
Qed.

Definition page_ok (a : pmm) : Prop := pmm_allocator_ok a /\ forall q, page_in_use demo q -> page_in_use a q.

Lemma demo_page_ok : page_ok demo.
Proof. by split; [apply demo_allocator_ok|]. Qed.

Lemma shared_page_ok : page_ok shared_pmm.
Proof. destruct shared_pmm_ok as [Ha Hu]. split; [done|]. intros q. apply Hu. Qed.

(** 0x401000 is mapped to 0x110000 with the flags [fl]. *)
Definition shared_vm (a : pmm) (fl : Z) : vm pmm := vmm_map_page (mkVm a demo_mem) 0x100000 0x401000 0x110000 fl.

Lemma shared_vm_ok a fl : page_ok a -> 0 <= fl < 2 ^ 12 -> has fl PAGE_HUGE = false -> vm_ok (shared_vm a fl) 0x100000.
Proof.
  intros [Ha Hu] Hfl Hh.
  assert (vm_ok (mkVm a demo_mem) 0x100000) as Hs by (apply demo_tables_ok; [exact Ha|intros q _; apply Hu]).
  apply (vmm_map_page_ok 0x100000 _ 0x401000 0x110000 fl Hs); [lia|].
  split; [by split; [lia|]|]. split; [lia|]. split; [|split; [done|]].
  { apply Z.bits_inj'. intros i Hi. rewrite Z.land_spec, Z.bits_0. destruct (decide (i < 12)).
    - change PTE_PHYS_MASK with (Z.shiftl (Z.ones 40) 12). rewrite Z.shiftl_spec, (Z.testbit_neg_r _ (i - 12)) by lia. apply andb_false_r.
    - by rewrite (testbit_high 12 fl) by lia. }
  intros _. split; [apply Hu; by vm_compute|]. split.
  - intros Q HQ Ht. by destruct (demo_tab Q _ HQ Ht) as [[_ ?]|[[_ ?]|[_ ?]]].
  - intros Q j (HQ & HlQ & _). unfold uleaf. cbn [pm]. destruct (tab demo_mem 0x100000 Q) as [t|] eqn:Et; [|done].
    by destruct (demo_tab Q t HQ Et) as [[-> _]|[[-> _]|[-> _]]].
Qed.

(** Process 3 of the signal table runs in it. *)
Definition demo_kernel (a : pmm) (fl bottom : Z) : kernel pmm :=
  mkKernel (shared_vm a fl) sig_sys0 (replicate 32 (mkTask 0 0 0 0)).[3 <- mkTask 0x100000 bottom 0 0].

Definition demo_pte (a : pmm) (fl : Z) : Z := default 0 (get_pte_in_pml4 (pm (shared_vm a fl)) 0x100000 0x401008).

Lemma demo_cow_fault a : a = demo \/ a = shared_pmm ->
  cow_fault (demo_kernel a 0x205 0) 3 0x100000 0x401008 7 (demo_pte a 0x205) (pm (kvm (demo_kernel a 0x205 0)) (demo_pte a 0x205)).
Proof.
  intros [-> | ->]; (constructor; [reflexivity|split; [reflexivity|done]|apply shared_vm_ok; [apply demo_page_ok || apply shared_page_ok|lia|done]
    |lia|by split|by vm_compute|reflexivity|by vm_compute]).
Qed.

Lemma cow_private_witness :
  exists new, vmm_get_phys (kvm (page_fault_handler (demo_kernel shared_pmm 0x205 0) 0x401008 7).1) 0x100000 0x401008 = new + 0x401008 mod 4096 /\
    ~ in_use (pa (kvm (demo_kernel shared_pmm 0x205 0))) new.
Proof.
  destruct (cow_private _ _ _ _ _ _ _ (demo_cow_fault shared_pmm (or_intror eq_refl))) as (_ & new & e' & _ & Hf & _ & _ & _ & _ & _ & _ & Hg & _);
    [by vm_compute|by vm_compute|]. exists new. split; [exact Hg|exact Hf].
Defined.

Lemma cow_sole_owner_witness : (page_fault_handler (demo_kernel demo 0x205 0) 0x401008 7).2 = Return.
Proof.
  destruct (cow_sole_owner _ _ _ _ _ _ _ (demo_cow_fault demo (or_introl eq_refl))) as (H & _); [by vm_compute|exact H].
Defined.

Lemma fmap_some_inv {X Y} (f : X -> Y) o x y : o = Some x -> f <$> o = Some y -> f x = y.
Proof. by intros -> [= ]. Qed.

(** The page is mapped read-only, and just below the stack. *)
Lemma stack_growth_witness :
  vmm_get_phys (kvm (demo_kernel demo 5 0x402000)) 0x100000 0x401008 = 0x110008 /\
  exists p, vmm_get_phys (kvm (page_fault_handler (demo_kernel demo 5 0x402000) 0x401008 7).1) 0x100000 0x401008 = p + 0x401008 mod 4096 /\
    ~ in_use (pa (kvm (demo_kernel demo 5 0x402000))) p.
Proof.
  split; [by vm_compute|].
  destruct (stack_growth (demo_kernel demo 5 0x402000) 3 0x100000 0x401008 7) as (_ & _ & _ & (p & _ & Hf & Hg & _) & _).
  - done.
  - by vm_compute.
  - done.
  - apply shared_vm_ok; [apply demo_page_ok|lia|done].
  - done.
  - intros _ pte Hp.
    assert ((fun p => has (pm (kvm (demo_kernel demo 5 0x402000)) p) PAGE_COW) <$>
      get_pte_in_pml4 (pm (kvm (demo_kernel demo 5 0x402000))) 0x100000 0x401008 = Some false) as E by (by vm_compute).
    exact (fmap_some_inv _ _ _ _ Hp E).
  - by vm_compute.
  - by vm_compute.
  - by vm_compute.
  - by vm_compute.
  - exists p. split; [exact Hg|exact Hf].
Defined.

Lemma user_fault_outcomes_witness :
  (page_fault_handler (demo_kernel demo 5 0) 0x401008 7).2 <> Panic.
Proof. apply (user_fault_outcomes (demo_kernel demo 5 0) 3 0x401008 7); [done|done|by vm_compute]. Defined.
