(* ===== verification/Tcp.v ===== *)
(** * TCP: kernel/net/tcp.c

    The table of connections, segment building, the handling of segments over
    IPv4 and IPv6, and the retransmission timer.  The clock, the machine's
    addresses and whether a frame could be sent are arguments ([env]); frames
    handed to the IP layer are recorded in [sent].  The functions that wait are
    cut where they poll: [tcp_recv_poll], [tcp_accept_poll] and
    [tcp_connect_poll] are the bodies of their loops. *)

From S2P Require Import Prelude Net.

(** ** include/lestra/net.h *)

Inductive tcp_state_t :=
| TCP_CLOSED | TCP_SYN_SENT | TCP_SYN_RECEIVED | TCP_ESTABLISHED | TCP_FIN_WAIT_1
| TCP_FIN_WAIT_2 | TCP_CLOSE_WAIT | TCP_LAST_ACK | TCP_CLOSING | TCP_LISTEN.
#[export] Instance tcp_state_t_eq_dec : EqDecision tcp_state_t.
Proof. solve_decision. Defined.

Definition TCP_MAX_CONNS : Z := 8.
Definition RX_BUF_SIZE : Z := 8192.   (* sizeof(rx_buf) *)

Definition ipv6_addr : Type := list Z.
Definition IPV6_ZERO : ipv6_addr := replicate 16 0.
Definition ipv6_eq (a b : ipv6_addr) : bool :=
  match for_loop (fun i (_ : unit) => if negb (a.[i] =? b.[i]) then Stop () else Next ()) 16 0 () with
  | Next _ => true
  | Stop _ => false
  end.

Definition htonl32 (v : Z) : Z :=
  Z.lor (Z.lor (Z.lor (u32 (Z.shiftl (Z.land v 0xFF) 24)) (u32 (Z.shiftl (Z.land v 0xFF00) 8)))
    (Z.shiftr (Z.land v 0xFF0000) 8)) (Z.shiftr (Z.land v 0xFF000000) 24).
Definition ntohl32 (v : Z) : Z := htonl32 v.

(** Stores and loads of 16 and 32 bits on x86-64. *)
Definition store16 (v : Z) : list Z := [v mod 256; v / 256 mod 256].
Definition store32 (v : Z) : list Z := [v mod 256; v / 256 mod 256; v / 65536 mod 256; v / 16777216 mod 256].
Definition load32 (l : list Z) (i : Z) : Z :=
  Z.lor (Z.lor l.[i] (Z.shiftl l.[i + 1] 8)) (Z.lor (Z.shiftl l.[i + 2] 16) (Z.shiftl l.[i + 3] 24)).

(** [rx_buf] holds the [rx_len] bytes of the buffer, [last_seg] the
    [last_seg_len] bytes of the last segment; [accepted] is the index of the
    connection it points to. *)
Record tcp_conn := mkConn {
  in_use : bool;
  state : tcp_state_t;
  peer_ip : ipv4_addr;
  peer_ip6 : ipv6_addr;
  is_ipv6 : bool;
  peer_port : Z;
  local_port : Z;
  tx_seq : Z;
  rx_seq : Z;
  rx_buf : list Z;
  rx_closed : bool;
  tcp_connected : bool;
  tcp_connect_failed : bool;
  retransmit_count : Z;
  last_seg : list Z;
  last_seg_time : Z;
  is_server : bool;
  pending_accept : bool;
  accepted : option Z;
}.

(** [memset(c, 0, sizeof *c)] *)
Definition zero_conn : tcp_conn :=
  mkConn false TCP_CLOSED IP_ZERO IPV6_ZERO false 0 0 0 0 [] false false false 0 [] 0 false false None.
#[export] Instance tcp_conn_inhabited : Inhabited tcp_conn := populate zero_conn.

Definition set_state (c : tcp_conn) (st : tcp_state_t) : tcp_conn :=
  mkConn (in_use c) st (peer_ip c) (peer_ip6 c) (is_ipv6 c) (peer_port c) (local_port c) (tx_seq c) (rx_seq c)
    (rx_buf c) (rx_closed c) (tcp_connected c) (tcp_connect_failed c) (retransmit_count c) (last_seg c)
    (last_seg_time c) (is_server c) (pending_accept c) (accepted c).
Definition set_seqs (c : tcp_conn) (tx rx : Z) : tcp_conn :=
  mkConn (in_use c) (state c) (peer_ip c) (peer_ip6 c) (is_ipv6 c) (peer_port c) (local_port c) tx rx
    (rx_buf c) (rx_closed c) (tcp_connected c) (tcp_connect_failed c) (retransmit_count c) (last_seg c)
    (last_seg_time c) (is_server c) (pending_accept c) (accepted c).
Definition set_rx (c : tcp_conn) (buf : list Z) (closed : bool) : tcp_conn :=
  mkConn (in_use c) (state c) (peer_ip c) (peer_ip6 c) (is_ipv6 c) (peer_port c) (local_port c) (tx_seq c) (rx_seq c)
    buf closed (tcp_connected c) (tcp_connect_failed c) (retransmit_count c) (last_seg c)
    (last_seg_time c) (is_server c) (pending_accept c) (accepted c).
Definition set_conn_flags (c : tcp_conn) (connected failed : bool) : tcp_conn :=
  mkConn (in_use c) (state c) (peer_ip c) (peer_ip6 c) (is_ipv6 c) (peer_port c) (local_port c) (tx_seq c) (rx_seq c)
    (rx_buf c) (rx_closed c) connected failed (retransmit_count c) (last_seg c)
    (last_seg_time c) (is_server c) (pending_accept c) (accepted c).
Definition set_last (c : tcp_conn) (count : Z) (seg : list Z) (time : Z) : tcp_conn :=
  mkConn (in_use c) (state c) (peer_ip c) (peer_ip6 c) (is_ipv6 c) (peer_port c) (local_port c) (tx_seq c) (rx_seq c)
    (rx_buf c) (rx_closed c) (tcp_connected c) (tcp_connect_failed c) count seg
    time (is_server c) (pending_accept c) (accepted c).
Definition set_accept (c : tcp_conn) (pending : bool) (acc : option Z) : tcp_conn :=
  mkConn (in_use c) (state c) (peer_ip c) (peer_ip6 c) (is_ipv6 c) (peer_port c) (local_port c) (tx_seq c) (rx_seq c)
    (rx_buf c) (rx_closed c) (tcp_connected c) (tcp_connect_failed c) (retransmit_count c) (last_seg c)
    (last_seg_time c) (is_server c) pending acc.
Definition set_in_use (c : tcp_conn) (u : bool) : tcp_conn :=
  mkConn u (state c) (peer_ip c) (peer_ip6 c) (is_ipv6 c) (peer_port c) (local_port c) (tx_seq c) (rx_seq c)
    (rx_buf c) (rx_closed c) (tcp_connected c) (tcp_connect_failed c) (retransmit_count c) (last_seg c)
    (last_seg_time c) (is_server c) (pending_accept c) (accepted c).

(** ** State and environment *)

Record tcp := mkTcp { conns : list tcp_conn; next_local_port : Z; sent : list (Z * list Z) }.

Record env := mkEnv { now : Z; my_ip : ipv4_addr; my_ll : ipv6_addr; send_ok : bool }.

Definition set_conn (t : tcp) (i : Z) (c : tcp_conn) : tcp := mkTcp (conns t).[i <- c] (next_local_port t) (sent t).
Definition emit (t : tcp) (i : Z) (seg : list Z) : tcp := mkTcp (conns t) (next_local_port t) (sent t ++ [(i, seg)]).

(** ** Segments *)

Definition TCP_FIN : Z := 0x01.
Definition TCP_SYN : Z := 0x02.
Definition TCP_RST : Z := 0x04.
Definition TCP_PSH : Z := 0x08.
Definition TCP_ACK : Z := 0x10.
Definition TCP_HDR : Z := 20.   (* sizeof(struct tcp_hdr) *)

Definition has_flag (flags f : Z) : bool := negb (Z.land flags f =? 0).

Definition finish_sum (sum : Z) : Z := u16 (Z.lnot (default 0 (fold_sum FOLD_FUEL sum))).

(** The pseudo header in memory, then the segment. *)
Definition tcp_checksum (src dst : ipv4_addr) (seg : list Z) : Z :=
  let ph := [ip0 src; ip1 src; ip2 src; ip3 src; ip0 dst; ip1 dst; ip2 dst; ip3 dst; 0; 6] ++ store16 (htons16 (len seg)) in
  finish_sum (sum_words (sum_words 0 ph) seg).

Definition tcp_checksum6 (src dst : ipv6_addr) (seg : list Z) : Z :=
  let sum := sum_words (sum_words 0 src) dst in
  finish_sum (sum_words (u32 (sum + 6 + len seg)) seg).

Definition tcp_header (c : tcp_conn) (flags checksum : Z) : list Z :=
  store16 (htons16 (local_port c)) ++ store16 (htons16 (peer_port c)) ++
  store32 (htonl32 (tx_seq c)) ++ store32 (htonl32 (rx_seq c)) ++
  store16 (htons16 (u16 (Z.lor (Z.shiftl 5 12) flags))) ++ store16 (htons16 8192) ++
  store16 checksum ++ store16 0.

Definition seg_checksum (e : env) (c : tcp_conn) (seg : list Z) : Z :=
  if is_ipv6 c then tcp_checksum6 (my_ll e) (peer_ip6 c) seg else tcp_checksum (my_ip e) (peer_ip c) seg.

Definition build_seg (e : env) (c : tcp_conn) (flags : Z) (payload : list Z) : list Z :=
  tcp_header c flags (htons16 (seg_checksum e c (tcp_header c flags 0 ++ payload))) ++ payload.

Definition tcp_send_seg (e : env) (t : tcp) (i flags : Z) (payload : list Z) : tcp * bool :=
  let c := (conns t).[i] in
  let seg := build_seg e c flags payload in
  let c := set_last c 0 seg (now e) in
  let c := set_seqs c (u32 (tx_seq c + len payload + (if has_flag flags (Z.lor TCP_SYN TCP_FIN) then 1 else 0))) (rx_seq c) in
  (set_conn (emit t i seg) i c, send_ok e).

Definition alloc_local_port (t : tcp) : tcp * Z :=
  let p := next_local_port t in
  let n := u16 (p + 1) in
  (mkTcp (conns t) (if n <? 0x4000 then 0x4000 else n) (sent t), p).

(** ** Client calls *)

Definition all_conns : nat := Z.to_nat TCP_MAX_CONNS.

Definition tcp_get_conn (idx : Z) : option Z :=
  if (idx <? 0) || (TCP_MAX_CONNS <=? idx) then None else Some idx.

(** [tcp_connect] and [tcp_connect6] up to the wait: [addr] is the peer,
    [up] whether the interface is; the result is true when the loop starts. *)
Definition start_conn (t : tcp) (e : env) (addr : ipv4_addr + ipv6_addr) (dst_port : Z) : tcp :=
  let c := (conns t).[0] in
  let '(t, port) := alloc_local_port t in
  let v6 := match addr with inl _ => false | inr _ => true end in
  set_conn t 0
    (mkConn true (state c) (match addr with inl ip => ip | inr _ => IP_ZERO end)
       (match addr with inl _ => IPV6_ZERO | inr ip => ip end) v6 dst_port port
       (Z.lxor 0x12345 (u32 (now e))) 0 [] false false false (retransmit_count c) [] (last_seg_time c) false false None).

Definition connect_start (e : env) (t : tcp) (up : bool) (addr : ipv4_addr + ipv6_addr) (dst_port : Z) : tcp * bool :=
  if negb (bool_decide (state (conns t).[0] = TCP_CLOSED)) then (t, false)
  else if negb up then (t, false)
  else
    let t := start_conn t e addr dst_port in
    let '(t, r) := tcp_send_seg e t 0 TCP_SYN [] in
    if negb r then (t, false)
    else (set_conn t 0 (set_state (conns t).[0] TCP_SYN_SENT), true).

Definition tcp_connect (e : env) (t : tcp) (up : bool) (dst_ip : ipv4_addr) (dst_port : Z) : tcp * bool :=
  connect_start e t up (inl dst_ip) dst_port.
Definition tcp_connect6 (e : env) (t : tcp) (valid : bool) (dst_ip : ipv6_addr) (dst_port : Z) : tcp * bool :=
  connect_start e t valid (inr dst_ip) dst_port.

(** One round of the wait: [Some r] is a return; [net_tick] runs otherwise. *)
Definition tcp_connect_poll (e : env) (t : tcp) (deadline : Z) : tcp * option Z :=
  let c := (conns t).[0] in
  if now e <? deadline then
    if tcp_connected c then (t, Some 1)
    else if tcp_connect_failed c then (t, Some 0)
    else (t, None)
  else (set_conn t 0 (set_state c TCP_CLOSED), Some 0).

(** ** Calls on a connection *)

Definition tcp_send_conn (e : env) (t : tcp) (i : Z) (data : list Z) : tcp * bool :=
  if negb (bool_decide (state (conns t).[i] = TCP_ESTABLISHED)) then (t, false)
  else tcp_send_seg e t i (Z.lor TCP_PSH TCP_ACK) (take 1400 data).

(** One round of [tcp_recv_conn] for a buffer of [bufsz] bytes of which
    [copied] are filled: the bytes copied in this round, and whether the call
    returns. *)
Definition tcp_recv_poll (t : tcp) (i bufsz copied : Z) : tcp * list Z * bool :=
  let c := (conns t).[i] in
  let n := Z.min (len (rx_buf c)) (bufsz - copied) in
  let '(t, got) :=
    if 0 <? len (rx_buf c)
    then (set_conn t i (set_rx c (drop (Z.to_nat n) (rx_buf c)) (rx_closed c)), take (Z.to_nat n) (rx_buf c))
    else (t, []) in
  let copied := copied + len got in
  (t, got, rx_closed c || (bufsz <=? copied)).

Definition tcp_close_conn (e : env) (t : tcp) (i : Z) : tcp :=
  match state (conns t).[i] with
  | TCP_ESTABLISHED =>
      let t := (tcp_send_seg e t i (Z.lor TCP_FIN TCP_ACK) []).1 in
      set_conn t i (set_state (conns t).[i] TCP_FIN_WAIT_1)
  | TCP_CLOSE_WAIT =>
      let t := (tcp_send_seg e t i (Z.lor TCP_FIN TCP_ACK) []).1 in
      set_conn t i (set_state (conns t).[i] TCP_LAST_ACK)
  | _ => set_conn t i (set_state (conns t).[i] TCP_CLOSED)
  end.

Definition tcp_send (e : env) (t : tcp) (data : list Z) : tcp * bool := tcp_send_conn e t 0 data.
Definition tcp_recv_wait (t : tcp) (bufsz copied : Z) : tcp * list Z * bool := tcp_recv_poll t 0 bufsz copied.
Definition tcp_close (e : env) (t : tcp) : tcp := tcp_close_conn e t 0.

Definition tcp_is_closed (t : tcp) : bool := bool_decide (state (conns t).[0] = TCP_CLOSED).

(** ** Server calls *)

(** The scan of [tcp_listen] and [alloc_conn_slot]. *)
Definition slot_free (t : tcp) (i : Z) : bool :=
  negb (in_use (conns t).[i]) || bool_decide (state (conns t).[i] = TCP_CLOSED).
Definition alloc_conn_slot (t : tcp) : option Z := find_from (slot_free t) all_conns 0.

Definition tcp_listen (t : tcp) (port : Z) : tcp * Z :=
  match find_from (slot_free t) all_conns 0 with
  | Some i =>
      (set_conn t i (mkConn true TCP_LISTEN IP_ZERO IPV6_ZERO false 0 port 0 0 [] false false false 0 [] 0 true false None), i)
  | None => (t, -1)
  end.

(** The checks of [tcp_accept], and one round of its loop. *)
Definition tcp_accept_ok (t : tcp) (listen_idx : Z) : bool :=
  negb ((listen_idx <? 0) || (TCP_MAX_CONNS <=? listen_idx)) && is_server (conns t).[listen_idx].
Definition tcp_accept_poll (t : tcp) (listen_idx : Z) : tcp * option (option Z) :=
  let lc := (conns t).[listen_idx] in
  if pending_accept lc then (set_conn t listen_idx (set_accept lc false None), Some (accepted lc)) else (t, None).

(** ** Segments that arrive *)

Definition addr_of (c : tcp_conn) (src : ipv4_addr + ipv6_addr) : bool :=
  match src with
  | inl ip => negb (is_ipv6 c) && ipv4_eq (peer_ip c) ip
  | inr ip => is_ipv6 c && ipv6_eq (peer_ip6 c) ip
  end.

(** [find_conn] for [inl], [find_conn6] for [inr]. *)
Definition conn_matches (t : tcp) (src : ipv4_addr + ipv6_addr) (src_port dst_port i : Z) : bool :=
  let c := (conns t).[i] in
  in_use c && negb (is_server c) && addr_of c src && (peer_port c =? src_port) && (local_port c =? dst_port).
Definition find_conn (t : tcp) (src : ipv4_addr + ipv6_addr) (src_port dst_port : Z) : option Z :=
  find_from (conn_matches t src src_port dst_port) all_conns 0.
Definition find_conn6 (t : tcp) (src : ipv6_addr) (src_port dst_port : Z) : option Z := find_conn t (inr src) src_port dst_port.

Definition find_listener (t : tcp) (port : Z) : option Z :=
  find_from (fun i => let c := (conns t).[i] in in_use c && is_server c && (local_port c =? port)) all_conns 0.

Record segment := mkSeg { s_src : Z; s_dst : Z; s_seq : Z; s_ack : Z; s_flags : Z; s_data : list Z }.

(** The fields [tcp_handle] reads, [None] for its early returns. *)
Definition parse_seg (data : list Z) : option segment :=
  if len data <? TCP_HDR then None
  else
    let off_flags := ntohs16 (load16 data 12) in
    let hdr_len := Z.land (Z.shiftr off_flags 12) 0xF * 4 in
    if (hdr_len <? 20) || (len data <? hdr_len) then None
    else Some (mkSeg (ntohs16 (load16 data 0)) (ntohs16 (load16 data 2)) (ntohl32 (load32 data 4))
                 (ntohl32 (load32 data 8)) (Z.land off_flags 0x1FF) (drop (Z.to_nat hdr_len) data)).

Definition handle_rst (t : tcp) (src : ipv4_addr + ipv6_addr) (s : segment) : tcp :=
  match find_conn t src (s_src s) (s_dst s) with
  | Some i =>
      let c := set_state (conns t).[i] TCP_CLOSED in
      set_conn t i (set_last (set_conn_flags c (tcp_connected c) true) (retransmit_count c) [] (last_seg_time c))
  | None => t
  end.

Definition handle_syn (e : env) (t : tcp) (src : ipv4_addr + ipv6_addr) (s : segment) : tcp :=
  match find_listener t (s_dst s) with
  | None => t
  | Some l =>
      match alloc_conn_slot t with
      | None => t
      | Some i =>
          let nc := mkConn true TCP_CLOSED (match src with inl ip => ip | inr _ => IP_ZERO end)
            (match src with inl _ => IPV6_ZERO | inr ip => ip end) (match src with inl _ => false | inr _ => true end)
            (s_src s) (s_dst s) (Z.lxor 0x56789 (u32 (now e))) (u32 (s_seq s + 1)) [] false false false 0 [] 0 false false None in
          let t := set_conn t i nc in
          let t := (tcp_send_seg e t i (Z.lor TCP_SYN TCP_ACK) []).1 in
          let t := set_conn t i (set_state (conns t).[i] TCP_SYN_RECEIVED) in
          set_conn t l (set_accept (conns t).[l] true (Some i))
      end
  end.

Definition clear_last (c : tcp_conn) : tcp_conn := set_last c (retransmit_count c) [] (last_seg_time c).

Definition ack (e : env) (t : tcp) (i : Z) : tcp := (tcp_send_seg e t i TCP_ACK []).1.

(** The payload of an acceptable segment. *)
Definition take_payload (e : env) (t : tcp) (i : Z) (s : segment) : tcp :=
  if (0 <? len (s_data s)) && has_flag (s_flags s) (Z.lor TCP_PSH TCP_ACK) then
    let c := (conns t).[i] in
    let c := if len (rx_buf c) + len (s_data s) <=? RX_BUF_SIZE
             then set_rx c (rx_buf c ++ s_data s) (rx_closed c) else c in
    ack e (set_conn t i (set_seqs c (tx_seq c) (u32 (rx_seq c + len (s_data s))))) i
  else t.

Definition take_fin (e : env) (t : tcp) (i : Z) (s : segment) : tcp :=
  if has_flag (s_flags s) TCP_FIN then
    let c := (conns t).[i] in
    let t := ack e (set_conn t i (set_seqs c (tx_seq c) (u32 (rx_seq c + 1)))) i in
    let c := (conns t).[i] in
    match state c with
    | TCP_ESTABLISHED =>
        let c := clear_last (set_rx (set_state c TCP_CLOSE_WAIT) (rx_buf c) true) in
        let t := (tcp_send_seg e (set_conn t i c) i (Z.lor TCP_FIN TCP_ACK) []).1 in
        set_conn t i (set_state (conns t).[i] TCP_LAST_ACK)
    | TCP_FIN_WAIT_1 => set_conn t i (set_state (set_state c TCP_CLOSING) TCP_CLOSED)
    | TCP_FIN_WAIT_2 => set_conn t i (set_state c TCP_CLOSED)
    | _ => t
    end
  else t.

Definition data_state (st : tcp_state_t) : bool :=
  match st with TCP_ESTABLISHED | TCP_FIN_WAIT_1 | TCP_FIN_WAIT_2 | TCP_CLOSE_WAIT => true | _ => false end.

(** The data states; [Stop] is the early return. *)
Definition data_segment (e : env) (t : tcp) (i : Z) (s : segment) : ctl tcp tcp :=
  if data_state (state (conns t).[i]) then
    let c := (conns t).[i] in
    if negb (s_seq s =? rx_seq c) then
      let t := if has_flag (s_flags s) TCP_ACK then ack e t i else t in
      if negb (has_flag (s_flags s) TCP_FIN) then Stop t
      else Next (take_fin e (take_payload e t i s) i s)
    else Next (take_fin e (take_payload e t i s) i s)
  else Next t.

Definition last_ack (t : tcp) (i : Z) (s : segment) : tcp :=
  let c := (conns t).[i] in
  if bool_decide (state c = TCP_LAST_ACK) && has_flag (s_flags s) TCP_ACK
  then set_conn t i (clear_last (set_state c TCP_CLOSED)) else t.

Definition conn_segment (e : env) (t : tcp) (i : Z) (s : segment) : tcp :=
  let c := (conns t).[i] in
  if bool_decide (state c = TCP_SYN_SENT) && has_flag (s_flags s) TCP_SYN && has_flag (s_flags s) TCP_ACK then
    let t := ack e (set_conn t i (set_seqs c (s_ack s) (u32 (s_seq s + 1)))) i in
    let c := set_state (conns t).[i] TCP_ESTABLISHED in
    set_conn t i (clear_last (set_conn_flags c true (tcp_connect_failed c)))
  else if bool_decide (state c = TCP_SYN_RECEIVED) && has_flag (s_flags s) TCP_ACK then
    set_conn t i (clear_last (set_state c TCP_ESTABLISHED))
  else
    match data_segment e t i s with
    | Stop t => t
    | Next t => last_ack t i s
    end.

(** [tcp_handle] with an IPv4 source; [tcp_handle6] is a copy of it that differs
    in the type of the address and in [find_conn6]. *)
Definition tcp_handle (e : env) (t : tcp) (src : ipv4_addr + ipv6_addr) (data : list Z) : tcp :=
  match parse_seg data with
  | None => t
  | Some s =>
      if has_flag (s_flags s) TCP_RST then handle_rst t src s
      else if has_flag (s_flags s) TCP_SYN && negb (has_flag (s_flags s) TCP_ACK) then handle_syn e t src s
      else
        match find_conn t src (s_src s) (s_dst s) with
        | None => t
        | Some i => conn_segment e t i s
        end
  end.

Definition tcp_handle6 (e : env) (t : tcp) (src : ipv6_addr) (data : list Z) : tcp := tcp_handle e t (inr src) data.

(** ** The retransmission timer *)

Definition TCP_RETRANSMIT_TIMEOUT_MS : Z := 2000.
Definition TCP_MAX_RETRANSMITS : Z := 5.

(** [for (j = 0; j < count && rto < 30000; j++) rto *= 2;] *)
Definition rto (count : Z) : Z :=
  for_each (fun _ rto => if rto <? 30000 then rto * 2 else rto) (Z.to_nat count) 0 TCP_RETRANSMIT_TIMEOUT_MS.

(** The last segment with its checksum computed again. *)
Definition refresh (e : env) (c : tcp_conn) : list Z :=
  let zeroed := (last_seg c).[16 <- 0].[17 <- 0] in
  let sum := store16 (htons16 (seg_checksum e c zeroed)) in
  zeroed.[16 <- sum.[0]].[17 <- sum.[1]].

Definition tick_conn (e : env) (i : Z) (t : tcp) : tcp :=
  let c := (conns t).[i] in
  if negb (in_use c) then t
  else if bool_decide (state c = TCP_CLOSED) then set_conn t i (set_in_use c false)
  else if len (last_seg c) =? 0 then t
  else if rto (retransmit_count c) <=? u64 (now e - last_seg_time c) then
    if TCP_MAX_RETRANSMITS <=? retransmit_count c then
      let c := set_state c TCP_CLOSED in
      set_conn t i (set_last (set_conn_flags c (tcp_connected c) true) (retransmit_count c) [] (last_seg_time c))
    else
      let seg := refresh e c in
      set_conn (emit t i seg) i (set_last c (retransmit_count c + 1) seg (now e))
  else t.

Definition tcp_tick (e : env) (t : tcp) : tcp := for_each (tick_conn e) all_conns 0 t.

(** ** Byte order of 32-bit fields *)

Lemma land_field v k w : 0 <= k -> 0 <= w -> Z.land v (Z.shiftl (Z.ones w) k) = v / 2 ^ k mod 2 ^ w * 2 ^ k.
Proof.
  intros Hk Hw. rewrite <- Z.shiftr_div_pow2, <- Z.shiftl_mul_pow2, <- Z.land_ones by lia.
  apply Z.bits_inj'. intros i Hi. rewrite Z.land_spec, !Z.shiftl_spec by lia. destruct (decide (i < k)).
  { rewrite !(Z.testbit_neg_r _ (i - k)) by lia. apply andb_false_r. }
  rewrite Z.land_spec, Z.shiftr_spec by lia. do 2 f_equal. lia.
Qed.

Definition be32 (a b c d : Z) : Z := 16777216 * a + 65536 * b + 256 * c + d.

Lemma htonl32_bytes a b c d : is_byte a -> is_byte b -> is_byte c -> is_byte d -> htonl32 (be32 a b c d) = be32 d c b a.
Proof.
  unfold is_byte, be32. intros Ha Hb Hc Hd. unfold htonl32. set (v := _ + d).
  change 0xFF with (Z.shiftl (Z.ones 8) 0) at 1. change 0xFF00 with (Z.shiftl (Z.ones 8) 8).
  change 0xFF0000 with (Z.shiftl (Z.ones 8) 16). change 0xFF000000 with (Z.shiftl (Z.ones 8) 24).
  rewrite !land_field by lia. rewrite !Z.shiftl_mul_pow2, !Z.shiftr_div_pow2 by lia.
  change (2 ^ 0) with 1. change (2 ^ 8) with 256. change (2 ^ 16) with 65536. change (2 ^ 24) with 16777216.
  assert (v / 1 mod 256 = d) as -> by (unfold v; zlia). assert (v / 256 mod 256 = c) as -> by (unfold v; zlia).
  assert (v / 65536 mod 256 = b) as -> by (unfold v; zlia). assert (v / 16777216 mod 256 = a) as -> by (unfold v; zlia).
  rewrite !wrap_small by (change (2 ^ 32) with 4294967296; lia).
  rewrite (lor_low (d * 1 * 16777216) _ 24); [|lia|change (2 ^ 24) with 16777216; zlia|change (2 ^ 24) with 16777216; lia].
  rewrite (lor_low (_ + c * 256 * 256) _ 16); [|lia|change (2 ^ 16) with 65536; zlia|change (2 ^ 16) with 65536; zlia].
  rewrite (lor_low _ _ 8); [zlia|lia|change (2 ^ 8) with 256; zlia|change (2 ^ 8) with 256; zlia].
Qed.

Lemma be32_of v : 0 <= v < 2 ^ 32 -> exists a b c d, is_byte a /\ is_byte b /\ is_byte c /\ is_byte d /\ v = be32 a b c d.
Proof.
  intros Hv. change (2 ^ 32) with 4294967296 in Hv. unfold is_byte, be32.
  exists (v / 16777216), (v / 65536 mod 256), (v / 256 mod 256), (v mod 256). repeat split; zlia.
Qed.

Lemma store32_bytes a b c d : is_byte a -> is_byte b -> is_byte c -> is_byte d -> store32 (be32 a b c d) = [d; c; b; a].
Proof. unfold is_byte, be32, store32. intros. repeat (f_equal; [zlia|]). f_equal. zlia. Qed.

Lemma geti_app_r (pre l : list Z) k : 0 <= k -> (pre ++ l).[len pre + k] = l.[k].
Proof. intros Hk. pose proof (len_nonneg pre). rewrite geti_app, decide_False by lia. f_equal. lia. Qed.

Lemma load32_bytes a b c d pre post : is_byte a -> is_byte b -> is_byte c -> is_byte d ->
  load32 (pre ++ [a; b; c; d] ++ post) (len pre) = be32 d c b a.
Proof.
  unfold is_byte, be32. intros Ha Hb Hc Hd. unfold load32. pose proof (len_nonneg pre).
  rewrite !geti_app_r by lia. rewrite <- (Z.add_0_r (len pre)), geti_app_r by lia.
  change (([a; b; c; d] ++ post).[0]) with a. change (([a; b; c; d] ++ post).[1]) with b.
  change (([a; b; c; d] ++ post).[2]) with c. change (([a; b; c; d] ++ post).[3]) with d.
  rewrite !Z.shiftl_mul_pow2 by lia. change (2 ^ 8) with 256. change (2 ^ 16) with 65536. change (2 ^ 24) with 16777216.
  rewrite (Z.lor_comm a (b * 256)), (Z.lor_comm (c * 65536)), (Z.lor_comm (Z.lor (b * 256) a)).
  rewrite (lor_low (b * 256) a 8); [|lia|change (2 ^ 8) with 256; zlia|change (2 ^ 8) with 256; lia].
  rewrite (lor_low (d * _) _ 24); [|lia|change (2 ^ 24) with 16777216; zlia|change (2 ^ 24) with 16777216; lia].
  rewrite (lor_low _ _ 16); [lia|lia|change (2 ^ 16) with 65536; zlia|change (2 ^ 16) with 65536; lia].
Qed.

(** The field of a header: stored in network order, read back. *)
Lemma wire32 v pre post : 0 <= v < 2 ^ 32 -> ntohl32 (load32 (pre ++ store32 (htonl32 v) ++ post) (len pre)) = v.
Proof.
  intros Hv. destruct (be32_of v Hv) as (a & b & c & d & Ha & Hb & Hc & Hd & ->).
  rewrite htonl32_bytes, store32_bytes, load32_bytes by done. by apply htonl32_bytes.
Qed.

Lemma wire16 v pre post : 0 <= v < 2 ^ 16 -> ntohs16 (load16 (pre ++ store16 (htons16 v) ++ post) (len pre)) = v.
Proof.
  intros Hv. change (2 ^ 16) with 65536 in Hv. pose proof (len_nonneg pre).
  assert (is_byte (v / 256)) as Hh by (unfold is_byte; zlia). assert (is_byte (v mod 256)) as Hl by (unfold is_byte; zlia).
  assert (htons16 v = 256 * (v mod 256) + v / 256) as E.
  { rewrite <- htons16_bytes, lor_high_low by done. f_equal. zlia. }
  assert (store16 (htons16 v) = [v / 256; v mod 256]) as ->.
  { rewrite E. unfold store16, is_byte in *. f_equal; [zlia|]. f_equal. zlia. }
  assert ((pre ++ [v / 256; v mod 256] ++ post).[len pre] = v / 256) as E1.
  { rewrite geti_app, decide_False by lia. by replace (len pre - len pre) with 0 by lia. }
  assert ((pre ++ [v / 256; v mod 256] ++ post).[len pre + 1] = v mod 256) as E2.
  { rewrite geti_app, decide_False by lia. by replace (len pre + 1 - len pre) with 1 by lia. }
  rewrite ntohs16_load16, E1, E2; [zlia|by rewrite E1|by rewrite E2].
Qed.

(** ** Wire format *)

Record conn_fields_ok (c : tcp_conn) : Prop := {
  cf_local : 0 <= local_port c < 2 ^ 16;
  cf_peer : 0 <= peer_port c < 2 ^ 16;
  cf_tx : 0 <= tx_seq c < 2 ^ 32;
  cf_rx : 0 <= rx_seq c < 2 ^ 32;
}.

Lemma off_flags flags : 0 <= flags < 512 ->
  let v := u16 (Z.lor (Z.shiftl 5 12) flags) in
  0 <= v < 2 ^ 16 /\ Z.land (Z.shiftr v 12) 0xF = 5 /\ Z.land v 0x1FF = flags.
Proof.
  intros Hf v. assert (v = 5 * 4096 + flags) as ->.
  { unfold v. change (Z.shiftl 5 12) with (5 * 4096). rewrite (lor_low _ _ 12) by (try done; change (2 ^ 12) with 4096; lia).
    apply wrap_small. lia. }
  split; [lia|]. change 0xF with (Z.ones 4). change 0x1FF with (Z.ones 9). rewrite !Z.land_ones, Z.shiftr_div_pow2 by lia.
  change (2 ^ 12) with 4096. change (2 ^ 4) with 16. change (2 ^ 9) with 512. split; zlia.
Qed.

(** What [tcp_send_seg] puts on the wire is what [tcp_handle] reads: for
    every connection with 16-bit ports and 32-bit sequence numbers, every flag
    set of 9 bits and every payload, the header that is built parses to the
    ports, the sequence and acknowledgement numbers, the flags and exactly the
    payload, over IPv4 and IPv6. *)
Theorem tcp_wire_roundtrip e c flags payload :
  conn_fields_ok c -> 0 <= flags < 512 ->
  parse_seg (build_seg e c flags payload)
    = Some (mkSeg (local_port c) (peer_port c) (tx_seq c) (rx_seq c) flags payload).
Proof.
  intros [Hl Hp Ht Hr] Hf. destruct (off_flags flags Hf) as (Hv & Hoff & Hfl). unfold build_seg.
  set (ck := htons16 _). unfold tcp_header. set (v := u16 _) in *.
  set (f0 := store16 (htons16 (local_port c))). set (f1 := store16 (htons16 (peer_port c))).
  set (f2 := store32 (htonl32 (tx_seq c))). set (f3 := store32 (htonl32 (rx_seq c))). set (f4 := store16 (htons16 v)).
  set (rest := store16 (htons16 8192) ++ store16 ck ++ store16 0).
  set (data := (f0 ++ f1 ++ f2 ++ f3 ++ f4 ++ rest) ++ payload).
  assert (ntohs16 (load16 data 0) = local_port c) as E0.
  { replace data with ([] ++ f0 ++ (f1 ++ f2 ++ f3 ++ f4 ++ rest) ++ payload) by (unfold data; by rewrite <- !app_assoc).
    by apply (wire16 _ []). }
  assert (ntohs16 (load16 data 2) = peer_port c) as E1.
  { replace data with (f0 ++ f1 ++ (f2 ++ f3 ++ f4 ++ rest) ++ payload) by (unfold data; by rewrite <- !app_assoc).
    by apply (wire16 _ f0). }
  assert (ntohl32 (load32 data 4) = tx_seq c) as E2.
  { replace data with ((f0 ++ f1) ++ f2 ++ (f3 ++ f4 ++ rest) ++ payload) by (unfold data; by rewrite <- !app_assoc).
    by apply (wire32 _ (f0 ++ f1)). }
  assert (ntohl32 (load32 data 8) = rx_seq c) as E3.
  { replace data with ((f0 ++ f1 ++ f2) ++ f3 ++ (f4 ++ rest) ++ payload) by (unfold data; by rewrite <- !app_assoc).
    by apply (wire32 _ (f0 ++ f1 ++ f2)). }
  assert (ntohs16 (load16 data 12) = v) as E4.
  { replace data with ((f0 ++ f1 ++ f2 ++ f3) ++ f4 ++ rest ++ payload) by (unfold data; by rewrite <- !app_assoc).
    by apply (wire16 _ (f0 ++ f1 ++ f2 ++ f3)). }
  assert (len (f0 ++ f1 ++ f2 ++ f3 ++ f4 ++ rest) = 20) as H20 by done.
  assert (len data = 20 + len payload) as Hlen by (unfold data; rewrite len_app; lia).
  pose proof (len_nonneg payload). unfold parse_seg, TCP_HDR. rewrite E0, E1, E2, E3, E4, Hoff, Hfl, Hlen.
  rewrite (proj2 (Z.ltb_ge _ 20)) by lia. change (5 * 4) with 20. rewrite (proj2 (Z.ltb_ge (20 + _) 20)) by lia. simpl orb. cbv iota.
  done.
Qed.

Definition demo_conn (st : tcp_state_t) : tcp_conn :=
  mkConn true st (mkIp 10 0 0 2) IPV6_ZERO false 80 0x4000 1000 2000 [] false false false 0 [] 0 false false None.
Definition demo_env (t : Z) : env := mkEnv t (mkIp 10 0 0 1) IPV6_ZERO true.

Lemma tcp_wire_roundtrip_witness :
  parse_seg (build_seg (demo_env 5) (demo_conn TCP_ESTABLISHED) 0x18 [104; 105])
    = Some (mkSeg 0x4000 80 1000 2000 0x18 [104; 105]).
Proof. apply (tcp_wire_roundtrip (demo_env 5) (demo_conn TCP_ESTABLISHED) 0x18 [104; 105]); [by split|lia]. Defined.

(** ** One connection under the operations *)

Definition conn (t : tcp) (i : Z) : tcp_conn := (conns t).[i].

Definition tcp_ok (t : tcp) : Prop := len (conns t) = TCP_MAX_CONNS.
Definition slot_ok (i : Z) : Prop := 0 <= i < TCP_MAX_CONNS.

Lemma conn_set t i c j : tcp_ok t -> slot_ok i -> slot_ok j -> conn (set_conn t i c) j = if decide (i = j) then c else conn t j.
Proof. unfold tcp_ok, slot_ok. intros Ht Hi Hj. unfold conn. simpl. by rewrite geti_seti by lia. Qed.

Lemma conn_set_eq t i c : tcp_ok t -> slot_ok i -> conn (set_conn t i c) i = c.
Proof. intros Ht Hi. rewrite conn_set by done. by rewrite decide_True. Qed.

Lemma set_conn_ok t i c : tcp_ok t -> tcp_ok (set_conn t i c).
Proof. unfold tcp_ok. simpl. by autorewrite with arr. Qed.

Lemma set_conn_set t i c d : set_conn (set_conn t i c) i d = set_conn t i d.
Proof. unfold set_conn, seti. simpl. by rewrite list_insert_insert_eq. Qed.

(** The connection after a segment was sent on it. *)
Definition sent_conn (e : env) (c : tcp_conn) (flags : Z) (payload : list Z) : tcp_conn :=
  set_seqs (set_last c 0 (build_seg e c flags payload) (now e))
    (u32 (tx_seq c + len payload + (if has_flag flags (Z.lor TCP_SYN TCP_FIN) then 1 else 0))) (rx_seq c).

Lemma tcp_send_seg_eq e t i flags payload :
  tcp_send_seg e t i flags payload =
    (set_conn (emit t i (build_seg e (conn t i) flags payload)) i (sent_conn e (conn t i) flags payload), send_ok e).
Proof. done. Qed.

(** [upd i t c t']: [t'] is [t] with connection [i] changed to [c] (and frames sent). *)
Definition upd (i : Z) (t : tcp) (c : tcp_conn) (t' : tcp) : Prop :=
  tcp_ok t' /\ conn t' i = c /\ forall j, slot_ok j -> j <> i -> conn t' j = conn t j.

Lemma upd_refl i t : tcp_ok t -> upd i t (conn t i) t.
Proof. by split. Qed.

Lemma upd_set i t t' c d : slot_ok i -> upd i t c t' -> upd i t d (set_conn t' i d).
Proof.
  intros Hi (Ht & Hc & Ho). split; [by apply set_conn_ok|]. split; [by apply conn_set_eq|].
  intros j Hj Hne. rewrite conn_set, decide_False by done. by apply Ho.
Qed.

Lemma upd_send e i t t' c flags payload : slot_ok i -> upd i t c t' ->
  upd i t (sent_conn e c flags payload) (tcp_send_seg e t' i flags payload).1.
Proof.
  intros Hi (Ht & Hc & Ho). rewrite tcp_send_seg_eq, Hc. cbn [fst].
  apply (upd_set i t (emit t' i (build_seg e c flags payload)) c); [done|]. by split.
Qed.

Definition fin_conn (e : env) (c : tcp_conn) (s : segment) : tcp_conn :=
  if has_flag (s_flags s) TCP_FIN then
    let c := sent_conn e (set_seqs c (tx_seq c) (u32 (rx_seq c + 1))) TCP_ACK [] in
    match state c with
    | TCP_ESTABLISHED =>
        set_state (sent_conn e (clear_last (set_rx (set_state c TCP_CLOSE_WAIT) (rx_buf c) true))
                     (Z.lor TCP_FIN TCP_ACK) []) TCP_LAST_ACK
    | TCP_FIN_WAIT_1 | TCP_FIN_WAIT_2 => set_state c TCP_CLOSED
    | _ => c
    end
  else c.

Definition payload_conn (e : env) (c : tcp_conn) (s : segment) : tcp_conn :=
  if (0 <? len (s_data s)) && has_flag (s_flags s) (Z.lor TCP_PSH TCP_ACK) then
    let c := if len (rx_buf c) + len (s_data s) <=? RX_BUF_SIZE
             then set_rx c (rx_buf c ++ s_data s) (rx_closed c) else c in
    sent_conn e (set_seqs c (tx_seq c) (u32 (rx_seq c + len (s_data s)))) TCP_ACK []
  else c.

Definition last_ack_conn (c : tcp_conn) (s : segment) : tcp_conn :=
  if bool_decide (state c = TCP_LAST_ACK) && has_flag (s_flags s) TCP_ACK
  then clear_last (set_state c TCP_CLOSED) else c.

Definition segment_conn (e : env) (c : tcp_conn) (s : segment) : tcp_conn :=
  if bool_decide (state c = TCP_SYN_SENT) && has_flag (s_flags s) TCP_SYN && has_flag (s_flags s) TCP_ACK then
    let c := set_state (sent_conn e (set_seqs c (s_ack s) (u32 (s_seq s + 1))) TCP_ACK []) TCP_ESTABLISHED in
    clear_last (set_conn_flags c true (tcp_connect_failed c))
  else if bool_decide (state c = TCP_SYN_RECEIVED) && has_flag (s_flags s) TCP_ACK then
    clear_last (set_state c TCP_ESTABLISHED)
  else if data_state (state c) then
    if negb (s_seq s =? rx_seq c) then
      let c := if has_flag (s_flags s) TCP_ACK then sent_conn e c TCP_ACK [] else c in
      if negb (has_flag (s_flags s) TCP_FIN) then c
      else last_ack_conn (fin_conn e (payload_conn e c s) s) s
    else last_ack_conn (fin_conn e (payload_conn e c s) s) s
  else last_ack_conn c s.

Lemma take_payload_upd e i t t' c s : slot_ok i -> upd i t c t' -> upd i t (payload_conn e c s) (take_payload e t' i s).
Proof.
  intros Hi U. pose proof (proj1 (proj2 U)) as Hc. unfold take_payload, payload_conn. destruct (_ && _); [|done].
  fold (conn t' i). rewrite Hc. unfold ack. apply upd_send; [done|]. by apply (upd_set i t t' c).
Qed.

Lemma take_fin_upd e i t t' c s : slot_ok i -> upd i t c t' -> upd i t (fin_conn e c s) (take_fin e t' i s).
Proof.
  intros Hi U. pose proof (proj1 (proj2 U)) as Hc. unfold take_fin, fin_conn. destruct (has_flag _ TCP_FIN); [|done].
  fold (conn t' i). rewrite Hc. set (c1 := set_seqs c _ _).
  assert (upd i t (sent_conn e c1 TCP_ACK []) (ack e (set_conn t' i c1) i)) as U1
    by (apply upd_send; [done|by apply (upd_set i t t' c)]).
  set (t1 := ack _ _ _) in *. fold (conn t1 i). rewrite (proj1 (proj2 U1)).
  destruct (state (sent_conn e c1 TCP_ACK [])) eqn:Es; try done; try by eapply upd_set.
  set (c2 := clear_last _). assert (upd i t (sent_conn e c2 (Z.lor TCP_FIN TCP_ACK) [])
    (tcp_send_seg e (set_conn t1 i c2) i (Z.lor TCP_FIN TCP_ACK) []).1) as U2.
  { apply upd_send; [done|]. by eapply upd_set. }
  set (t2 := (tcp_send_seg _ _ _ _ _).1) in *. fold (conn t2 i). rewrite (proj1 (proj2 U2)). by eapply upd_set.
Qed.

Lemma last_ack_upd i t t' c s : slot_ok i -> upd i t c t' -> upd i t (last_ack_conn c s) (last_ack t' i s).
Proof.
  intros Hi U. pose proof (proj1 (proj2 U)) as Hc. unfold last_ack, last_ack_conn. fold (conn t' i). rewrite Hc.
  destruct (_ && _); [|done]. by eapply upd_set.
Qed.

(** A segment for connection [i] changes that connection only. *)
Lemma conn_segment_upd e t i s : tcp_ok t -> slot_ok i -> upd i t (segment_conn e (conn t i) s) (conn_segment e t i s).
Proof.
  intros Ht Hi. pose proof (upd_refl i t Ht) as U. unfold conn_segment, segment_conn. fold (conn t i).
  destruct (_ && _ && _).
  { set (c1 := set_seqs _ _ _). assert (upd i t (sent_conn e c1 TCP_ACK []) (ack e (set_conn t i c1) i)) as U1
      by (apply upd_send; [done|by eapply upd_set]).
    set (t1 := ack _ _ _) in *. fold (conn t1 i). rewrite (proj1 (proj2 U1)). by eapply upd_set. }
  destruct (_ && _); [by eapply upd_set|]. unfold data_segment. fold (conn t i).
  destruct (data_state (state (conn t i))); [|by apply last_ack_upd].
  destruct (negb (s_seq s =? rx_seq (conn t i))).
  - assert (upd i t (if has_flag (s_flags s) TCP_ACK then sent_conn e (conn t i) TCP_ACK [] else conn t i)
      (if has_flag (s_flags s) TCP_ACK then ack e t i else t)) as U1 by (destruct (has_flag _ TCP_ACK); [by apply upd_send|done]).
    destruct (negb _); [done|]. by apply last_ack_upd, take_fin_upd, take_payload_upd.
  - by apply last_ack_upd, take_fin_upd, take_payload_upd.
Qed.

(** ** What the peer sent arrives *)

Definition est (st : tcp_state_t) : bool :=
  match st with TCP_ESTABLISHED | TCP_FIN_WAIT_1 | TCP_LAST_ACK | TCP_CLOSED => true | _ => false end.

(** [n] bytes of the peer's stream from sequence number [start] on; [S] gives
    the byte of a sequence number. *)
Definition stream (S : Z -> Z) (start n : Z) : list Z := (fun k => S (u32 (start + k))) <$> seqZ 0 n.

Lemma stream_app S start n m : 0 <= n -> 0 <= m -> stream S start (n + m) = stream S start n ++ stream S (u32 (start + n)) m.
Proof.
  intros Hn Hm. unfold stream. rewrite (seqZ_app 0 n m) by lia. rewrite fmap_app. f_equal.
  rewrite Z.add_0_l. replace (seqZ n m) with (Z.add n <$> seqZ 0 m) by (rewrite fmap_add_seqZ; f_equal; lia).
  rewrite <- list_fmap_compose. apply list_fmap_ext. intros _ k _. simpl. rewrite wrap_add_l. do 2 f_equal. lia.
Qed.

(** The first [n] bytes were delivered or are in the buffer. *)
Record received (S : Z -> Z) (start : Z) (out : list Z) (n : Z) (c : tcp_conn) : Prop := {
  rc_n : 0 <= n;
  rc_bytes : out ++ rx_buf c = stream S start n;
  rc_seq : data_state (state c) = true -> rx_seq c = u32 (start + n);
  rc_est : est (state c) = true;
  rc_client : is_server c = false;
}.

(** Operations that leave the receiving side alone. *)
Record quiet (c c' : tcp_conn) : Prop := {
  qt_buf : rx_buf c' = rx_buf c;
  qt_seq : rx_seq c' = rx_seq c;
  qt_server : is_server c' = is_server c;
  qt_est : est (state c) = true -> est (state c') = true;
  qt_data : est (state c) = true -> data_state (state c') = true -> data_state (state c) = true;
}.

Lemma quiet_refl c : quiet c c.
Proof. by constructor. Qed.

Lemma quiet_trans a b c : quiet a b -> quiet b c -> quiet a c.
Proof. intros [? ? ? ? ?] [? ? ? ? ?]. constructor; try congruence; auto. Qed.

Lemma quiet_received S start out n c c' : quiet c c' -> received S start out n c -> received S start out n c'.
Proof.
  intros [B Q V E D] [N R Sq Es C]. constructor; [done|by rewrite B| |by apply E|by rewrite V].
  intros H. rewrite Q. auto.
Qed.

Lemma quiet_sent e c flags payload : quiet c (sent_conn e c flags payload).
Proof. by constructor. Qed.

Lemma quiet_closed c c' : rx_buf c' = rx_buf c -> rx_seq c' = rx_seq c -> is_server c' = is_server c ->
  state c' = TCP_CLOSED -> quiet c c'.
Proof. intros. constructor; try done; by (replace (state c') with TCP_CLOSED). Qed.

Lemma last_ack_quiet c s : quiet c (last_ack_conn c s).
Proof. unfold last_ack_conn. destruct (_ && _); [by apply quiet_closed|apply quiet_refl]. Qed.

(** A segment whose payload is the peer's bytes from its sequence number on,
    that fits the buffer if it is the next one, and that carries no payload if
    it closes the connection out of order. *)
Record honest_seg (S : Z -> Z) (c : tcp_conn) (s : segment) : Prop := {
  hs_data : s_data s = stream S (s_seq s) (len (s_data s));
  hs_fits : s_seq s = rx_seq c -> len (rx_buf c) + len (s_data s) <= RX_BUF_SIZE;
  hs_fin : s_seq s <> rx_seq c -> has_flag (s_flags s) TCP_FIN = true -> s_data s = [];
}.

Lemma fin_received S start out n e c s : received S start out n c -> received S start out n (fin_conn e c s).
Proof.
  intros [N B Q Es C]. unfold fin_conn. destruct (has_flag _ TCP_FIN); [|by constructor].
  destruct (state (sent_conn _ _ _ _)) eqn:E; simpl in E; rewrite E in Es; simpl in Es; try done; constructor; simpl; rewrite ?E; try done.
Qed.

Lemma segment_received S start out n e c s :
  received S start out n c -> honest_seg S c s -> exists n', n <= n' /\ received S start out n' (segment_conn e c s).
Proof.
  intros R [Hd Hf Hfin]. pose proof R as [N B Q Es C]. unfold segment_conn.
  destruct (bool_decide_reflect (state c = TCP_SYN_SENT)) as [E|_]; [by rewrite E in Es|].
  destruct (bool_decide_reflect (state c = TCP_SYN_RECEIVED)) as [E|_]; [by rewrite E in Es|]. simpl andb. cbv iota.
  destruct (data_state (state c)) eqn:Ed.
  2: { exists n. split; [lia|]. eapply quiet_received; [apply last_ack_quiet|done]. }
  destruct (Z.eqb_spec (s_seq s) (rx_seq c)) as [Eq|Hne]; simpl negb; cbv iota.
  - assert (exists n', n <= n' /\ received S start out n' (payload_conn e c s)) as (n' & Hn' & R').
    { unfold payload_conn. destruct (Z.ltb_spec 0 (len (s_data s))) as [Hl|]; [|by exists n; split; [lia|]].
      destruct (has_flag (s_flags s) (Z.lor TCP_PSH TCP_ACK)); simpl andb; cbv iota; [|by exists n; split; [lia|]].
      rewrite (proj2 (Z.leb_le _ RX_BUF_SIZE)) by auto. exists (n + len (s_data s)). split; [lia|].
      constructor; simpl; try done; [lia| |].
      - rewrite app_assoc, B, stream_app by lia. f_equal. rewrite Hd at 1. by rewrite Eq, (Q eq_refl).
      - intros _. rewrite (Q eq_refl), wrap_add_l. f_equal. lia. }
    exists n'. split; [done|]. eapply quiet_received; [apply last_ack_quiet|]. by apply fin_received.
  - exists n. split; [lia|]. set (c1 := if has_flag (s_flags s) TCP_ACK then _ else _).
    assert (quiet c c1) as Q1 by (unfold c1; destruct (has_flag _ TCP_ACK); [apply quiet_sent|apply quiet_refl]).
    pose proof (quiet_received S start out n c c1 Q1 R) as R1.
    destruct (has_flag (s_flags s) TCP_FIN) eqn:Ef; simpl negb; cbv iota; [|done].
    eapply quiet_received; [apply last_ack_quiet|]. apply fin_received.
    unfold payload_conn. rewrite (Hfin Hne eq_refl). done.
Qed.

(** ** Runs of the whole table *)

Inductive tcp_ev :=
| EvSegment (e : env) (src : ipv4_addr + ipv6_addr) (data : list Z)
| EvTick (e : env)
| EvSend (e : env) (i : Z) (data : list Z)
| EvRecv (i bufsz copied : Z)
| EvClose (e : env) (i : Z)
| EvConnect (e : env) (up : bool) (addr : ipv4_addr + ipv6_addr) (port : Z)
| EvConnectPoll (e : env) (deadline : Z)
| EvListen (port : Z)
| EvAccept (l : Z).

Definition ev_ok (ev : tcp_ev) : Prop :=
  match ev with
  | EvSend _ i _ | EvClose _ i | EvAccept i => slot_ok i
  | EvRecv i bufsz copied => slot_ok i /\ copied <= bufsz
  | _ => True
  end.

Definition tcp_exec (t : tcp) (ev : tcp_ev) : tcp :=
  match ev with
  | EvSegment e src data => tcp_handle e t src data
  | EvTick e => tcp_tick e t
  | EvSend e i data => (tcp_send_conn e t i data).1
  | EvRecv i b c => (tcp_recv_poll t i b c).1.1
  | EvClose e i => tcp_close_conn e t i
  | EvConnect e up a p => (connect_start e t up a p).1
  | EvConnectPoll e d => (tcp_connect_poll e t d).1
  | EvListen p => (tcp_listen t p).1
  | EvAccept l => (tcp_accept_poll t l).1
  end.

(** Bytes a call takes out of connection [i]. *)
Definition taken (i : Z) (t : tcp) (ev : tcp_ev) : list Z :=
  match ev with EvRecv j b c => if decide (j = i) then (tcp_recv_poll t j b c).1.2 else [] | _ => [] end.

Lemma all_conns_slot i : 0 <= i < 0 + Z.of_nat all_conns -> slot_ok i.
Proof. done. Qed.

Lemma find_conn_Some t src sp dp i : find_conn t src sp dp = Some i -> slot_ok i /\ conn_matches t src sp dp i = true.
Proof. intros H. apply find_from_Some in H as (Hi & Hm & _). split; [by apply all_conns_slot|done]. Qed.

Lemma alloc_Some t i : find_from (slot_free t) all_conns 0 = Some i -> slot_ok i /\ slot_free t i = true.
Proof. intros H. apply find_from_Some in H as (Hi & Hm & _). split; [by apply all_conns_slot|done]. Qed.

Lemma listener_Some t p l : find_listener t p = Some l -> slot_ok l /\ in_use (conn t l) = true /\ is_server (conn t l) = true.
Proof.
  intros H. apply find_from_Some in H as (Hi & Hm & _). cbv beta zeta in Hm. rewrite !andb_true_iff in Hm.
  destruct Hm as [[H1 H2] _]. split; [by apply all_conns_slot|done].
Qed.

(** A connection in use is not reset by others. *)
Definition live (c : tcp_conn) : Prop := in_use c = true /\ state c <> TCP_CLOSED /\ is_server c = false.

Lemma live_not_free t i : live (conn t i) -> slot_free t i = false.
Proof.
  intros (Hu & Hs & _). unfold slot_free. fold (conn t i). rewrite Hu. simpl. by apply bool_decide_eq_false.
Qed.

Lemma handle_syn_other e t src s i :
  tcp_ok t -> slot_ok i -> live (conn t i) -> tcp_ok (handle_syn e t src s) /\ conn (handle_syn e t src s) i = conn t i.
Proof.
  intros Ht Hi Hl. unfold handle_syn. destruct (find_listener t (s_dst s)) as [l|] eqn:El; [|done].
  destruct (alloc_conn_slot t) as [j|] eqn:Ej; [|done].
  destruct (listener_Some _ _ _ El) as (Hls & _ & Hsrv). destruct (alloc_Some _ _ Ej) as [Hj Hfree].
  assert (j <> i) by (intros ->; rewrite (live_not_free t i Hl) in Hfree; done).
  assert (l <> i) by (intros ->; destruct Hl as (_ & _ & Hl); congruence).
  set (nc := mkConn _ _ _ _ _ _ _ _ _ _ _ _ _ _ _ _ _ _ _).
  assert (upd j t nc (set_conn t j nc)) as U1 by (eapply upd_set; [done|by apply upd_refl]).
  pose proof (upd_send e j t _ _ (Z.lor TCP_SYN TCP_ACK) [] Hj U1) as U2. set (t2 := (tcp_send_seg _ _ _ _ _).1) in *.
  pose proof (upd_set j t t2 _ (set_state (conns t2).[j] TCP_SYN_RECEIVED) Hj U2) as (O3 & _ & H3).
  set (t3 := set_conn t2 j _) in *. split; [by apply set_conn_ok|].
  rewrite conn_set, decide_False by done. by apply H3.
Qed.

Lemma tick_conn_quiet e j t : tcp_ok t -> slot_ok j ->
  tcp_ok (tick_conn e j t) /\ forall i, slot_ok i -> quiet (conn t i) (conn (tick_conn e j t) i).
Proof.
  intros Ht Hj. unfold tick_conn. fold (conn t j).
  assert (forall c f, quiet (conn t j) c -> let t' := set_conn (mkTcp (conns t) (next_local_port t) f) j c in
    tcp_ok t' /\ forall i, slot_ok i -> quiet (conn t i) (conn t' i)) as HW.
  { intros c f Hq t'. split; [by apply set_conn_ok|]. intros i Hi. unfold t'. rewrite conn_set by done. case_decide; [by subst|apply quiet_refl]. }
  assert (tcp_ok t /\ forall i, slot_ok i -> quiet (conn t i) (conn t i)) as HId by (split; [done|]; intros; apply quiet_refl).
  destruct (negb _); [done|]. destruct (bool_decide_reflect (state (conn t j) = TCP_CLOSED)).
  { apply (HW _ (sent t)). by constructor. }
  destruct (_ =? 0); [done|]. destruct (_ <=? _); [|done].
  destruct (TCP_MAX_RETRANSMITS <=? _); [apply (HW _ (sent t)); by apply quiet_closed|].
  apply (HW _ (sent t ++ [(j, refresh e (conn t j))])). by constructor.
Qed.

Lemma tcp_tick_quiet e t i : tcp_ok t -> slot_ok i -> tcp_ok (tcp_tick e t) /\ quiet (conn t i) (conn (tcp_tick e t) i).
Proof.
  intros Ht Hi. unfold tcp_tick.
  apply (for_each_ind (tick_conn e) (fun _ t' => tcp_ok t' /\ quiet (conn t i) (conn t' i)) all_conns 0 t); [split; [done|apply quiet_refl]|].
  intros j t' Hj [Ht' Q]. destruct (tick_conn_quiet e j t' Ht' (all_conns_slot j Hj)) as [O Q'].
  split; [done|]. eapply quiet_trans; [done|]. by apply Q'.
Qed.

Lemma upd_quiet t t' i j c : slot_ok i -> upd j t c t' -> quiet (conn t j) c -> tcp_ok t' /\ quiet (conn t i) (conn t' i).
Proof.
  intros Hi (Ht & Hc & Ho) Q. split; [done|]. destruct (decide (i = j)) as [->|Hne]; [by rewrite Hc|].
  rewrite Ho by done. apply quiet_refl.
Qed.

(** The segment of the event is for connection [i]. *)
Definition routed (t : tcp) (src : ipv4_addr + ipv6_addr) (data : list Z) (i : Z) (s : segment) : Prop :=
  parse_seg data = Some s /\ has_flag (s_flags s) TCP_RST = false /\
  has_flag (s_flags s) TCP_SYN && negb (has_flag (s_flags s) TCP_ACK) = false /\
  find_conn t src (s_src s) (s_dst s) = Some i.

Lemma handle_quiet e t src data i :
  tcp_ok t -> slot_ok i -> live (conn t i) -> (forall s, ~ routed t src data i s) ->
  tcp_ok (tcp_handle e t src data) /\ quiet (conn t i) (conn (tcp_handle e t src data) i).
Proof.
  intros Ht Hi Hl Hr. assert (tcp_ok t /\ quiet (conn t i) (conn t i)) as HId by (split; [done|apply quiet_refl]).
  unfold tcp_handle. destruct (parse_seg data) as [s|] eqn:Ep; [|done].
  destruct (has_flag (s_flags s) TCP_RST) eqn:Erst.
  { unfold handle_rst. destruct (find_conn t src _ _) as [j|] eqn:Ej; [|done]. destruct (find_conn_Some _ _ _ _ _ Ej) as [Hj _].
    eapply upd_quiet; [done|eapply upd_set; [done|by apply upd_refl]|by apply quiet_closed]. }
  destruct (has_flag (s_flags s) TCP_SYN && _) eqn:Esyn.
  { destruct (handle_syn_other e t src s i Ht Hi Hl) as [O ->]. split; [done|apply quiet_refl]. }
  destruct (find_conn t src _ _) as [j|] eqn:Ej; [|done]. destruct (find_conn_Some _ _ _ _ _ Ej) as [Hj _].
  destruct (conn_segment_upd e t j s Ht Hj) as (O & _ & Ho). split; [done|].
  rewrite Ho; [apply quiet_refl|done|]. intros <-. by apply (Hr s).
Qed.

Lemma close_quiet e t j i : tcp_ok t -> slot_ok j -> slot_ok i ->
  tcp_ok (tcp_close_conn e t j) /\ quiet (conn t i) (conn (tcp_close_conn e t j) i).
Proof.
  intros Ht Hj Hi. unfold tcp_close_conn. fold (conn t j). pose proof (upd_refl j t Ht) as U0.
  pose proof (upd_send e j t t _ (Z.lor TCP_FIN TCP_ACK) [] Hj U0) as U. set (t1 := (tcp_send_seg _ _ _ _ _).1) in *.
  fold (conn t1 j). rewrite (proj1 (proj2 U)).
  destruct (state (conn t j)) eqn:Es;
    (eapply upd_quiet; [done|first [eapply upd_set; [done|exact U]|eapply upd_set; [done|exact U0]]|]);
    first [by apply quiet_closed|constructor; simpl; rewrite ?Es; done].
Qed.

Lemma recv_upd t j bufsz copied : tcp_ok t -> slot_ok j ->
  let r := tcp_recv_poll t j bufsz copied in
  upd j t (set_rx (conn t j) (drop (length r.1.2) (rx_buf (conn t j))) (rx_closed (conn t j))) r.1.1 \/ (r.1.1 = t /\ r.1.2 = []).
Proof.
  intros Ht Hj r. unfold r, tcp_recv_poll. fold (conn t j). destruct (0 <? len (rx_buf (conn t j))); [|by right].
  left. cbn [fst snd]. rewrite length_take.
  replace (drop (Z.to_nat (Z.min (len (rx_buf (conn t j))) (bufsz - copied)) `min` length (rx_buf (conn t j))) (rx_buf (conn t j)))
    with (drop (Z.to_nat (Z.min (len (rx_buf (conn t j))) (bufsz - copied))) (rx_buf (conn t j)))
    by (f_equal; unfold len; lia).
  eapply upd_set; [done|]. by apply upd_refl.
Qed.

Lemma recv_bytes t j bufsz copied : tcp_ok t -> slot_ok j ->
  let r := tcp_recv_poll t j bufsz copied in
  tcp_ok r.1.1 /\ r.1.2 ++ rx_buf (conn r.1.1 j) = rx_buf (conn t j).
Proof.
  intros Ht Hj. cbv zeta. destruct (recv_upd t j bufsz copied Ht Hj) as [(O & Hc & _)|[E1 E2]].
  - split; [done|]. rewrite Hc. cbn [rx_buf set_rx]. unfold tcp_recv_poll. fold (conn t j).
    destruct (0 <? len (rx_buf (conn t j))); [|done]. cbn [fst snd]. rewrite length_take.
    set (n := Z.to_nat _). assert (n `min` length (rx_buf (conn t j)) = n)%nat as -> by (unfold n, len; lia).
    apply take_drop.
  - by rewrite E1, E2.
Qed.

Lemma recv_quiet_other t j i bufsz copied : tcp_ok t -> slot_ok j -> slot_ok i -> j <> i ->
  quiet (conn t i) (conn (tcp_recv_poll t j bufsz copied).1.1 i).
Proof.
  intros Ht Hj Hi Hne. destruct (recv_upd t j bufsz copied Ht Hj) as [(_ & _ & Ho)|[-> _]]; [|apply quiet_refl].
  rewrite Ho by congruence. apply quiet_refl.
Qed.

(** Every event leaves the receiving side of a live connection alone, except
    its own segments and reads. *)
Lemma exec_quiet t i ev :
  tcp_ok t -> slot_ok i -> live (conn t i) -> ev_ok ev ->
  (forall e src data s, ev = EvSegment e src data -> ~ routed t src data i s) ->
  (forall b c, ev <> EvRecv i b c) ->
  tcp_ok (tcp_exec t ev) /\ quiet (conn t i) (conn (tcp_exec t ev) i).
Proof.
  intros Ht Hi Hl Hok Hr Hv. assert (tcp_ok t /\ quiet (conn t i) (conn t i)) as HId by (split; [done|apply quiet_refl]).
  assert (slot_ok 0) as H0 by done.
  destruct ev as [e src data|e|e j data|j b c|e j|e up a p|e d|p|l]; simpl in *.
  - apply handle_quiet; [done..|]. intros s. by eapply Hr.
  - by apply tcp_tick_quiet.
  - unfold tcp_send_conn. destruct (negb _); [done|].
    eapply upd_quiet; [done|apply upd_send; [done|by apply upd_refl]|apply quiet_sent].
  - destruct Hok as [Hj _]. assert (j <> i) by (intros ->; by apply (Hv b c)). split; [by apply recv_bytes|by apply recv_quiet_other].
  - by apply close_quiet.
  - unfold connect_start. fold (conn t 0). destruct (bool_decide_reflect (state (conn t 0) = TCP_CLOSED)) as [Ec|]; [|done].
    cbn [negb]. destruct up; [|done]. cbn [negb]. assert (i <> 0) as Hne by (intros ->; by destruct Hl as (_ & Hl & _)).
    set (t1 := start_conn t e a p).
    assert (tcp_ok t1 /\ forall k, slot_ok k -> k <> 0 -> conn t1 k = conn t k) as [O1 H1].
    { unfold t1, start_conn, alloc_local_port. split; [by apply set_conn_ok|]. intros k Hk Hk0. rewrite conn_set, decide_False by done. done. }
    rewrite tcp_send_seg_eq. pose proof (upd_send e 0 t1 t1 _ TCP_SYN [] H0 (upd_refl 0 t1 O1)) as U. rewrite tcp_send_seg_eq in U.
    cbn [fst] in U. set (t2 := set_conn _ 0 _) in *. destruct U as (O2 & _ & H2).
    destruct (send_ok e); cbn [negb fst]; [|by rewrite H2, H1].
    split; [by apply set_conn_ok|]. rewrite conn_set, decide_False by done. by rewrite H2, H1.
  - unfold tcp_connect_poll. fold (conn t 0). destruct (_ <? _); [by repeat case_match|]. cbn [fst].
    eapply upd_quiet; [done|eapply upd_set; [done|by apply upd_refl]|by apply quiet_closed].
  - unfold tcp_listen. destruct (find_from _ _ _) as [j|] eqn:Ej; [|done]. destruct (alloc_Some _ _ Ej) as [Hj Hfree].
    assert (j <> i) by (intros ->; rewrite (live_not_free t i Hl) in Hfree; done). cbn [fst].
    split; [by apply set_conn_ok|]. rewrite conn_set, decide_False by done. apply quiet_refl.
  - unfold tcp_accept_poll. fold (conn t l). destruct (pending_accept _); [|done]. cbn [fst].
    eapply upd_quiet; [done|eapply upd_set; [done|by apply upd_refl]|by constructor].
Qed.

(** The hypotheses on the run: connection [i] stays in use, and its segments
    are the peer's. *)
Fixpoint good_run (S : Z -> Z) (i : Z) (t : tcp) (evs : list tcp_ev) : Prop :=
  match evs with
  | [] => True
  | ev :: rest =>
      ev_ok ev /\ live (conn t i) /\
      match ev with
      | EvSegment e src data => forall s, routed t src data i s -> honest_seg S (conn t i) s
      | _ => True
      end /\ good_run S i (tcp_exec t ev) rest
  end.

Fixpoint read_all (i : Z) (t : tcp) (evs : list tcp_ev) : list Z :=
  match evs with [] => [] | ev :: rest => taken i t ev ++ read_all i (tcp_exec t ev) rest end.

Lemma routed_dec t src data i : (exists s, routed t src data i s) \/ forall s, ~ routed t src data i s.
Proof.
  unfold routed. destruct (parse_seg data) as [s|]; [|right; by intros s [? _]].
  destruct (has_flag (s_flags s) TCP_RST) eqn:E1; [right; intros s' ([= <-] & ? & _); congruence|].
  destruct (has_flag (s_flags s) TCP_SYN && negb (has_flag (s_flags s) TCP_ACK)) eqn:E2; [right; intros s' ([= <-] & _ & ? & _); congruence|].
  destruct (find_conn t src (s_src s) (s_dst s)) as [j|] eqn:E3; [|right; intros s' ([= <-] & _ & _ & ?); congruence].
  destruct (decide (j = i)) as [->|]; [left; by exists s|]. right. intros s' ([= <-] & _ & _ & ?). congruence.
Qed.

Lemma exec_received S start out n t i ev :
  tcp_ok t -> slot_ok i -> live (conn t i) -> ev_ok ev ->
  match ev with EvSegment e src data => forall s, routed t src data i s -> honest_seg S (conn t i) s | _ => True end ->
  received S start out n (conn t i) ->
  tcp_ok (tcp_exec t ev) /\ exists n', n <= n' /\ received S start (out ++ taken i t ev) n' (conn (tcp_exec t ev) i).
Proof.
  intros Ht Hi Hl Hok Hh R.
  assert ((forall e src data s, ev = EvSegment e src data -> ~ routed t src data i s) -> (forall b c, ev <> EvRecv i b c) ->
    tcp_ok (tcp_exec t ev) /\ exists n', n <= n' /\ received S start (out ++ taken i t ev) n' (conn (tcp_exec t ev) i)) as HQ.
  { intros H1 H2. destruct (exec_quiet t i ev Ht Hi Hl Hok H1 H2) as [O Q]. split; [done|]. exists n. split; [lia|].
    assert (taken i t ev = []) as ->; [|rewrite app_nil_r; by eapply quiet_received].
    destruct ev as [| | |j b c| | | | |]; try done. simpl. rewrite decide_False; [done|]. intros ->. by apply (H2 b c). }
  destruct ev as [e src data|e|e j data|j b c|e j|e up a p|e d|p|l]; try by apply HQ.
  - destruct (routed_dec t src data i) as [(s & Hs)|Hno]; [|apply HQ; [intros ? ? ? s [= <- <- <-]; apply Hno|done]].
    pose proof (Hh s Hs) as Hhs. destruct Hs as (Ep & E1 & E2 & E3). simpl. unfold tcp_handle. rewrite Ep, E1, E2, E3.
    destruct (conn_segment_upd e t i s Ht Hi) as (O & -> & _). split; [done|]. rewrite app_nil_r. by apply segment_received.
  - destruct (decide (j = i)) as [->|Hne]; [|apply HQ; [done|congruence]]. simpl. rewrite decide_True by done.
    destruct (recv_bytes t i b c Ht Hi) as [O E]. split; [done|]. exists n. split; [lia|]. destruct R as [N B Q Es C].
    assert (quiet (set_rx (conn t i) (rx_buf (conn (tcp_recv_poll t i b c).1.1 i)) (rx_closed (conn t i)))
      (conn (tcp_recv_poll t i b c).1.1 i)) as Hq.
    { destruct (recv_upd t i b c Ht Hi) as [(_ & Hc & _)|[E1 E2]]; [rewrite Hc|rewrite E1]; by constructor. }
    eapply quiet_received; [exact Hq|]. constructor; simpl; try done. rewrite <- app_assoc, E. done.
Qed.

(** C13: TCP delivers the peer's bytes in order and once. From an
    established connection with an empty buffer, over any sequence of
    segments for any connection, calls, and timer ticks, as long as connection
    [i] stays in use and each of its segments carries the peer's bytes from its
    sequence number on, fits the buffer when it is the next one, and carries no
    payload with a FIN out of order, the bytes the application has read followed
    by those in the buffer are the peer's stream from the start without gap. *)
Theorem tcp_stream_delivery S t i evs :
  tcp_ok t -> slot_ok i -> state (conn t i) = TCP_ESTABLISHED -> is_server (conn t i) = false ->
  0 <= rx_seq (conn t i) < 2 ^ 32 -> rx_buf (conn t i) = [] -> good_run S i t evs ->
  exists n, 0 <= n /\
    read_all i t evs ++ rx_buf (conn (fold_left tcp_exec evs t) i) = stream S (rx_seq (conn t i)) n.
Proof.
  intros Ht Hi Hst Hsv Hrx Hb Hg.
  assert (forall start out n t, tcp_ok t -> received S start out n (conn t i) -> good_run S i t evs ->
    exists n', n <= n' /\ received S start (out ++ read_all i t evs) n' (conn (fold_left tcp_exec evs t) i)) as H.
  { clear -Hi. induction evs as [|ev evs IH]; intros start out n t Ht R Hg; simpl.
    - exists n. rewrite app_nil_r. split; [lia|done].
    - destruct Hg as (Hok & Hl & Hh & Hg). 
      destruct (exec_received S start out n t i ev Ht Hi Hl Hok Hh R) as (O & n1 & Hn & R1).
      destruct (IH start _ n1 _ O R1 Hg) as (n' & Hn' & R'). exists n'. split; [lia|]. by rewrite app_assoc. }
  destruct (H (rx_seq (conn t i)) [] 0 t Ht) as (n & Hn & R); [|done|].
  - constructor; [lia|by rewrite Hb|rewrite Z.add_0_r; intros _; by rewrite wrap_small|by rewrite Hst|done].
  - exists n. split; [done|]. apply (rc_bytes _ _ _ _ _ R).
Qed.

(** A run with a reordered, a duplicated and two next segments, and reads. *)
Definition demo_stream (q : Z) : Z := u8 q.
Definition demo_tcp (c : tcp_conn) : tcp := mkTcp (c :: replicate 7 zero_conn) 0x4000 [].
Definition peer_env : env := mkEnv 7 (mkIp 10 0 0 2) IPV6_ZERO true.
(** The peer's segment with [n] bytes from [q] on. *)
Definition peer_seg (q n : Z) (flags : Z) : list Z :=
  build_seg peer_env (mkConn true TCP_ESTABLISHED (mkIp 10 0 0 1) IPV6_ZERO false 0x4000 80 q 1000 [] false true false 0 [] 0
    false false None) flags (stream demo_stream q n).
Definition demo_run : list tcp_ev :=
  [EvSegment (demo_env 8) (inl (mkIp 10 0 0 2)) (peer_seg 2003 2 0x18);
   EvSegment (demo_env 9) (inl (mkIp 10 0 0 2)) (peer_seg 2000 3 0x18);
   EvRecv 0 2 0; EvTick (demo_env 10);
   EvSegment (demo_env 11) (inl (mkIp 10 0 0 2)) (peer_seg 2000 3 0x18);
   EvSegment (demo_env 12) (inl (mkIp 10 0 0 2)) (peer_seg 2003 2 0x18);
   EvRecv 0 10 2].

Lemma demo_run_good : good_run demo_stream 0 (demo_tcp (demo_conn TCP_ESTABLISHED)) demo_run.
Proof.
  unfold demo_run. cbn [good_run].
  repeat match goal with
  | |- _ /\ _ => split
  | |- ev_ok _ => by vm_compute
  | |- live _ => vm_compute; split_and!; [done|discriminate|done]
  | |- True => exact I
  | |- forall s, routed _ _ _ _ s -> _ => intros s (Hp & _); vm_compute in Hp; injection Hp as <-; constructor;
      [by vm_compute|intros _; vm_compute; discriminate|intros _ Ef; vm_compute in Ef; discriminate Ef]
  end.
Qed.

Lemma tcp_stream_delivery_witness : exists n, 0 <= n /\
  read_all 0 (demo_tcp (demo_conn TCP_ESTABLISHED)) demo_run
    ++ rx_buf (conn (fold_left tcp_exec demo_run (demo_tcp (demo_conn TCP_ESTABLISHED))) 0)
  = stream demo_stream 2000 n.
Proof.
  apply (tcp_stream_delivery demo_stream (demo_tcp (demo_conn TCP_ESTABLISHED)) 0 demo_run);
    [done..|exact demo_run_good].
Defined.

(** ** Segments that do not fit *)

Lemma established_segment_upd e t i s :
  state (conn t i) = TCP_ESTABLISHED -> s_seq s = rx_seq (conn t i) -> has_flag (s_flags s) TCP_FIN = false ->
  conn_segment e t i s = last_ack (take_payload e t i s) i s.
Proof.
  intros Es Eq Ef. unfold conn_segment, data_segment. fold (conn t i). rewrite Es, Eq, Z.eqb_refl. simpl.
  unfold take_fin. by rewrite Ef.
Qed.

(** A segment that comes in order and does not fit into what is left of
    the receive buffer is dropped, but the sequence number moves past it and
    the segment sent back acknowledges it: the peer never sends those bytes
    again, and the stream has a gap. *)
Theorem tcp_overflow_loses e t src data i s :
  tcp_ok t -> slot_ok i -> routed t src data i s -> state (conn t i) = TCP_ESTABLISHED ->
  s_seq s = rx_seq (conn t i) -> 0 < len (s_data s) -> has_flag (s_flags s) (Z.lor TCP_PSH TCP_ACK) = true ->
  has_flag (s_flags s) TCP_FIN = false -> RX_BUF_SIZE < len (rx_buf (conn t i)) + len (s_data s) ->
  let t' := tcp_handle e t src data in
  let next := u32 (rx_seq (conn t i) + len (s_data s)) in
  rx_buf (conn t' i) = rx_buf (conn t i) /\ rx_seq (conn t' i) = next /\
  sent t' = sent t ++ [(i, build_seg e (set_seqs (conn t i) (tx_seq (conn t i)) next) TCP_ACK [])].
Proof.
  intros Ht Hi (Ep & Er & Esyn & Efind) Es Eq Hd Hf Hfin Hover. cbv zeta.
  assert (tcp_handle e t src data = conn_segment e t i s) as -> by (unfold tcp_handle; by rewrite Ep, Er, Esyn, Efind).
  rewrite established_segment_upd by done.
  assert (upd i t (payload_conn e (conn t i) s) (take_payload e t i s)) as U by (apply take_payload_upd; [done|by apply upd_refl]).
  assert (payload_conn e (conn t i) s
    = sent_conn e (set_seqs (conn t i) (tx_seq (conn t i)) (u32 (rx_seq (conn t i) + len (s_data s)))) TCP_ACK []) as Ec.
  { unfold payload_conn. rewrite (proj2 (Z.ltb_lt 0 _)), Hf by done. simpl. by rewrite (proj2 (Z.leb_gt _ _)) by done. }
  unfold last_ack. fold (conn (take_payload e t i s) i). rewrite (proj1 (proj2 U)), Ec.
  rewrite bool_decide_eq_false_2 by (simpl; by rewrite Es). cbn [andb].
  rewrite (proj1 (proj2 U)), Ec. split; [done|]. split; [done|].
  unfold take_payload. rewrite (proj2 (Z.ltb_lt 0 _)), Hf by done. cbn [andb]. fold (conn t i).
  rewrite (proj2 (Z.leb_gt _ _)) by done. unfold ack. rewrite tcp_send_seg_eq, conn_set_eq by done. done.
Qed.

Definition full_conn : tcp_conn := set_rx (demo_conn TCP_ESTABLISHED) (replicate 8190 0) false.

Lemma tcp_overflow_loses_witness :
  rx_buf (conn (tcp_handle (demo_env 8) (demo_tcp full_conn) (inl (mkIp 10 0 0 2)) (peer_seg 2000 3 0x18)) 0)
    = rx_buf (conn (demo_tcp full_conn) 0).
Proof.
  apply (tcp_overflow_loses (demo_env 8) (demo_tcp full_conn) (inl (mkIp 10 0 0 2)) (peer_seg 2000 3 0x18) 0
    (mkSeg 80 0x4000 2000 1000 0x18 (stream demo_stream 2000 3))); by vm_compute.
Defined.

(** ** The timer *)

(** What a tick does to one connection. *)
Definition ticked (e : env) (c : tcp_conn) : tcp_conn :=
  if negb (in_use c) then c
  else if bool_decide (state c = TCP_CLOSED) then set_in_use c false
  else if len (last_seg c) =? 0 then c
  else if rto (retransmit_count c) <=? u64 (now e - last_seg_time c) then
    if TCP_MAX_RETRANSMITS <=? retransmit_count c then
      set_last (set_conn_flags (set_state c TCP_CLOSED) (tcp_connected c) true) (retransmit_count c) [] (last_seg_time c)
    else set_last c (retransmit_count c + 1) (refresh e c) (now e)
  else c.

Lemma tick_conn_upd e j t : tcp_ok t -> slot_ok j -> upd j t (ticked e (conn t j)) (tick_conn e j t).
Proof.
  intros Ht Hj. pose proof (upd_refl j t Ht) as U. unfold tick_conn, ticked. fold (conn t j).
  destruct (negb _); [done|]. destruct (bool_decide _); [by eapply upd_set|]. destruct (_ =? 0); [done|].
  destruct (_ <=? _); [|done]. destruct (TCP_MAX_RETRANSMITS <=? _); [by eapply upd_set|].
  eapply (upd_set j t (emit t j (refresh e (conn t j)))); [done|exact U].
Qed.

Lemma tcp_tick_conn e t i : tcp_ok t -> slot_ok i -> tcp_ok (tcp_tick e t) /\ conn (tcp_tick e t) i = ticked e (conn t i).
Proof.
  intros Ht Hi. unfold tcp_tick.
  assert (let t' := for_each (tick_conn e) all_conns 0 t in
    tcp_ok t' /\ conn t' i = if i <? 0 + Z.of_nat all_conns then ticked e (conn t i) else conn t i) as [O H].
  { apply (for_each_ind (tick_conn e) (fun k t' => tcp_ok t' /\ conn t' i = if i <? k then ticked e (conn t i) else conn t i)).
    - split; [done|]. by rewrite (proj2 (Z.ltb_ge i 0)) by apply Hi.
    - intros j t' Hj [Ht' E]. destruct (tick_conn_upd e j t' Ht' (all_conns_slot j Hj)) as (O & Ej & Eo). split; [done|].
      destruct (decide (i = j)) as [->|Hne].
      { by rewrite Ej, E, Z.ltb_irrefl, (proj2 (Z.ltb_lt j (j + 1))) by lia. }
      rewrite Eo, E by done. destruct (Z.ltb_spec i j), (Z.ltb_spec i (j + 1)); done || lia. }
  split; [done|]. rewrite H. by rewrite (proj2 (Z.ltb_lt i _)) by apply Hi.
Qed.

Lemma rto_bound k : 0 <= k <= 5 -> rto k <= 32000.
Proof.
  intros Hk. assert (k = 0 \/ k = 1 \/ k = 2 \/ k = 3 \/ k = 4 \/ k = 5) as H by lia.
  destruct H as [->|[->|[->|[->|[->| ->]]]]]; by vm_compute.
Qed.

(** A segment that only acknowledges. *)
Definition pure_ack (c : tcp_conn) (s : segment) : Prop :=
  s_seq s = rx_seq c /\ s_data s = [] /\ has_flag (s_flags s) TCP_FIN = false.

Lemma pure_ack_ignored e t src data i s :
  routed t src data i s -> state (conn t i) = TCP_ESTABLISHED -> pure_ack (conn t i) s -> tcp_handle e t src data = t.
Proof.
  intros (Ep & Er & Esyn & Efind) Es (Eq & Ed & Ef). unfold tcp_handle. rewrite Ep, Er, Esyn, Efind.
  rewrite established_segment_upd by done. unfold take_payload, last_ack. rewrite Ed. cbn [andb].
  change (0 <? len []) with false. cbn [andb]. fold (conn t i). by rewrite Es.
Qed.

(** Acknowledgements of the peer and [n] ticks, each at least 32 seconds after
    the last transmission. *)
Fixpoint idle_run (i : Z) (t : tcp) (evs : list tcp_ev) (n : nat) : Prop :=
  match evs, n with
  | [], O => True
  | EvSegment e src data :: rest, _ =>
      (exists s, routed t src data i s /\ pure_ack (conn t i) s) /\ idle_run i (tcp_exec t (EvSegment e src data)) rest n
  | EvTick e :: rest, S n =>
      last_seg_time (conn t i) + 32000 <= now e < 2 ^ 64 /\ idle_run i (tcp_exec t (EvTick e)) rest n
  | _, _ => False
  end.

Record waiting (k : Z) (c : tcp_conn) : Prop := {
  wt_use : in_use c = true;
  wt_state : state c = TCP_ESTABLISHED;
  wt_seg : last_seg c <> [];
  wt_time : 0 <= last_seg_time c;
  wt_count : retransmit_count c = k;
}.

Lemma refresh_nonempty e c : last_seg c <> [] -> refresh e c <> [].
Proof.
  intros H E. apply (f_equal len) in E. unfold refresh in E. autorewrite with arr in E.
  destruct (last_seg c); [done|]. rewrite len_cons in E. pose proof (len_nonneg l). change (len []) with 0 in E. lia.
Qed.

Lemma ticked_waiting e c k : 0 <= k <= 5 -> waiting k c -> last_seg_time c + 32000 <= now e < 2 ^ 64 ->
  if decide (k < 5) then waiting (k + 1) (ticked e c)
  else state (ticked e c) = TCP_CLOSED /\ tcp_connect_failed (ticked e c) = true.
Proof.
  intros Hk [U S G T C] Hn. unfold ticked. rewrite U, S. simpl negb. cbv iota.
  rewrite (bool_decide_eq_false_2 (TCP_ESTABLISHED = TCP_CLOSED)) by done.
  rewrite (proj2 (Z.eqb_neq (len (last_seg c)) 0)).
  2: { destruct (last_seg c); [done|]. rewrite len_cons. pose proof (len_nonneg l). lia. }
  pose proof (rto_bound k Hk). rewrite C, wrap_small by lia. rewrite (proj2 (Z.leb_le (rto k) _)) by lia.
  unfold TCP_MAX_RETRANSMITS. case_decide.
  - rewrite (proj2 (Z.leb_gt 5 k)) by lia. constructor; simpl; [done|done|by apply refresh_nonempty|lia|done].
  - rewrite (proj2 (Z.leb_le 5 k)) by lia. done.
Qed.

Lemma idle_run_cons i t ev evs n : idle_run i t (ev :: evs) n ->
  (exists e src data s, ev = EvSegment e src data /\ routed t src data i s /\ pure_ack (conn t i) s /\
    idle_run i (tcp_exec t ev) evs n) \/
  (exists e n', ev = EvTick e /\ n = S n' /\ last_seg_time (conn t i) + 32000 <= now e < 2 ^ 64 /\
    idle_run i (tcp_exec t ev) evs n').
Proof.
  destruct ev; cbn [idle_run]; try done.
  - intros [(s & H1 & H2) H3]. left. by eexists _, _, _, s.
  - destruct n as [|n]; [done|]. intros [H1 H2]. right. by eexists _, n.
Qed.

Lemma exec_tick e t : tcp_exec t (EvTick e) = tcp_tick e t.
Proof. done. Qed.

Lemma fold_left_cons {A B} (f : A -> B -> A) x l a : fold_left f (x :: l) a = fold_left f l (f a x).
Proof. done. Qed.

Lemma idle_run_closes i evs : forall t n k, tcp_ok t -> slot_ok i -> 0 <= k <= 5 -> k + Z.of_nat n = 6 ->
  waiting k (conn t i) -> idle_run i t evs n ->
  exists pre post, evs = pre ++ post /\
    state (conn (fold_left tcp_exec pre t) i) = TCP_CLOSED /\ tcp_connect_failed (conn (fold_left tcp_exec pre t) i) = true.
Proof.
  induction evs as [|ev evs IH]; intros t n k Ht Hi Hk Hn W R; [destruct n; [lia|done]|].
  destruct (idle_run_cons _ _ _ _ _ R) as [(e & src & data & s & -> & Hs & Ha & R')|(e & n' & -> & -> & Ht1 & R')]; clear R.
  - assert (tcp_exec t (EvSegment e src data) = t) as E by exact (pure_ack_ignored e t src data i s Hs (wt_state _ _ W) Ha).
    rewrite E in R'. destruct (IH t n k Ht Hi Hk Hn W R') as (pre & post & -> & H).
    exists (EvSegment e src data :: pre), post. by rewrite fold_left_cons, E.
  - pose proof (ticked_waiting e (conn t i) k Hk W Ht1) as HT. destruct (tcp_tick_conn e t i Ht Hi) as [O E].
    rewrite <- E, <- exec_tick in HT. rewrite <- exec_tick in O. case_decide.
    + destruct (IH _ n' (k + 1) O Hi ltac:(lia) ltac:(lia) HT R') as (pre & post & -> & H').
      exists (EvTick e :: pre), post. by rewrite fold_left_cons.
    + exists [EvTick e], evs. by rewrite fold_left_cons.
Qed.

(** An idle connection is aborted although its peer acknowledges
    everything.  Acknowledgements do not clear the segment kept for
    retransmission (only the handshake does), so once anything was sent an
    established connection that exchanges nothing but acknowledgements is
    closed by the sixth tick that finds the timeout over. *)
Theorem tcp_idle_abort t i evs :
  tcp_ok t -> slot_ok i -> waiting 0 (conn t i) -> idle_run i t evs 6 ->
  exists pre post, evs = pre ++ post /\
    state (conn (fold_left tcp_exec pre t) i) = TCP_CLOSED /\ tcp_connect_failed (conn (fold_left tcp_exec pre t) i) = true.
Proof. intros Ht Hi W R. by apply (idle_run_closes i evs t 6 0). Qed.

(** The connection after it sent two bytes at time 100, acknowledged at once. *)
Definition talked : tcp := (tcp_send_conn (demo_env 100) (demo_tcp (demo_conn TCP_ESTABLISHED)) 0 [104; 105]).1.
Definition idle_events : list tcp_ev :=
  EvSegment (demo_env 101) (inl (mkIp 10 0 0 2)) (peer_seg 2000 0 0x10) ::
  ((fun k => EvTick (demo_env (32200 * k))) <$> seqZ 1 6).

Lemma tcp_idle_abort_witness : exists pre post, idle_events = pre ++ post /\
  state (conn (fold_left tcp_exec pre talked) 0) = TCP_CLOSED /\
  tcp_connect_failed (conn (fold_left tcp_exec pre talked) 0) = true.
Proof.
  apply (tcp_idle_abort talked 0 idle_events); [done|done|constructor; vm_compute; try done; discriminate|].
  change idle_events with (EvSegment (demo_env 101) (inl (mkIp 10 0 0 2)) (peer_seg 2000 0 0x10) ::
    [EvTick (demo_env 32200); EvTick (demo_env 64400); EvTick (demo_env 96600); EvTick (demo_env 128800);
     EvTick (demo_env 161000); EvTick (demo_env 193200)]).
  cbn [idle_run]. split.
  { exists (mkSeg 80 0x4000 2000 1000 0x10 []). vm_compute. split_and!; done. }
  repeat match goal with |- _ /\ _ => split | |- True => exact I | |- _ <= _ => vm_compute; discriminate | |- _ < _ => by vm_compute end.
Defined.
