(* ===== verification/Sched.v ===== *)
(** * Processes and scheduling: kernel/sched/scheduler.c

    The process table with the fields of [struct process]; those the signal
    code uses are a [Signals.process].  A call of [schedule()] that switches
    tasks does not come back before the task is chosen again, so the functions
    that call it are cut there: [Switched] is the switch, and what follows it
    in the function is a definition of its own.  Address spaces, the kernel
    heap, the ELF loader and the files belong to other parts; they are the
    operations of the class [Machine].  Register saving, the boot stack and the
    jump to user code are assembly. *)

From S2P Require Import Prelude Pipe Signals.

(** ** include/lestra/sched.h *)

Definition MAX_FD_PER_PROC : Z := 128.
Definition PRIO_MIN : Z := 0.
Definition PRIO_MAX : Z := 39.
Definition PRIO_DEFAULT : Z := 20.
Definition FD_UNUSED : Z := 0.
Definition FD_SPECIAL : Z := 1.
Definition FD_VFS : Z := 2.
Definition FD_PIPE : Z := 3.
Definition PROC_RUNNING : Z := 2.
Definition O_RDONLY : Z := 0x0001.
Definition O_WRONLY : Z := 0x0002.

Record fd_entry := mkFdEntry { fd_type : Z; resource : Z; offset : Z; fd_flags : Z }.
Definition free_fd : fd_entry := mkFdEntry FD_UNUSED 0 0 0.
#[export] Instance fd_entry_inhabited : Inhabited fd_entry := populate free_fd.

(** What a process inherits or sets for itself. *)
Record image := mkImage {
  name : list Z;
  fs_base : Z;
  is_linux_process : bool;
  exe_path : list Z;
  brk : Z;
  brk_base : Z;
  mmap_next_addr : Z;
  cwd : list Z;
  root : list Z;
  umask : Z;
  uid : Z;
  gid : Z;
}.

(** Its memory: [pml4] and [kernel_stack] are addresses, 0 for NULL. *)
Record space := mkSpace {
  pml4 : Z;
  kernel_stack : Z;
  kernel_stack_top : Z;
  entry_point : Z;
  user_stack_ptr : Z;
  stack_bottom : Z;
}.

Record task := mkTask {
  sig : process;
  parent_pid : Z;
  spc : space;
  exit_status : Z;
  clear_child_tid : Z;
  img : image;
  needs_kstack_free : bool;
  wake_tick : Z;
  priority : Z;
  fds : list fd_entry;
}.

(** [memset(p, 0, sizeof *p)] *)
Definition zero_process : process :=
  mkProc 0 PROC_FREE None (replicate (Z.to_nat MAX_SIGNALS) (mkAct 0 0 0)) 0 0 None false.
Definition zero_image : image := mkImage [] 0 false [] 0 0 0 [] [] 0 0 0.
Definition zero_space : space := mkSpace 0 0 0 0 0 0.
Definition zero_task : task :=
  mkTask zero_process 0 zero_space 0 0 zero_image false 0 0 (replicate (Z.to_nat MAX_FD_PER_PROC) free_fd).
#[export] Instance task_inhabited : Inhabited task := populate zero_task.

Definition state (t : task) : Z := p_state (sig t).
Definition tpid (t : task) : Z := pid (sig t).

Definition set_sig (t : task) (p : process) : task :=
  mkTask p (parent_pid t) (spc t) (exit_status t) (clear_child_tid t) (img t) (needs_kstack_free t) (wake_tick t)
    (priority t) (fds t).
Definition set_state (t : task) (st : Z) : task := set_sig t (with_state (sig t) st).
Definition set_parent (t : task) (p : Z) : task :=
  mkTask (sig t) p (spc t) (exit_status t) (clear_child_tid t) (img t) (needs_kstack_free t) (wake_tick t)
    (priority t) (fds t).
Definition set_spc (t : task) (s : space) : task :=
  mkTask (sig t) (parent_pid t) s (exit_status t) (clear_child_tid t) (img t) (needs_kstack_free t) (wake_tick t)
    (priority t) (fds t).
Definition set_exit (t : task) (status : Z) (kstack : bool) : task :=
  mkTask (sig t) (parent_pid t) (spc t) status (clear_child_tid t) (img t) kstack (wake_tick t)
    (priority t) (fds t).
Definition set_ctid (t : task) (a : Z) : task :=
  mkTask (sig t) (parent_pid t) (spc t) (exit_status t) a (img t) (needs_kstack_free t) (wake_tick t)
    (priority t) (fds t).
Definition set_img (t : task) (i : image) : task :=
  mkTask (sig t) (parent_pid t) (spc t) (exit_status t) (clear_child_tid t) i (needs_kstack_free t) (wake_tick t)
    (priority t) (fds t).
Definition set_wake (t : task) (w : Z) : task :=
  mkTask (sig t) (parent_pid t) (spc t) (exit_status t) (clear_child_tid t) (img t) (needs_kstack_free t) w
    (priority t) (fds t).
Definition set_priority (t : task) (p : Z) : task :=
  mkTask (sig t) (parent_pid t) (spc t) (exit_status t) (clear_child_tid t) (img t) (needs_kstack_free t) (wake_tick t)
    p (fds t).
Definition set_fds (t : task) (l : list fd_entry) : task :=
  mkTask (sig t) (parent_pid t) (spc t) (exit_status t) (clear_child_tid t) (img t) (needs_kstack_free t) (wake_tick t)
    (priority t) l.
Definition set_linux (i : image) (l : bool) : image :=
  mkImage (name i) (fs_base i) l (exe_path i) (brk i) (brk_base i) (mmap_next_addr i) (cwd i) (root i) (umask i)
    (uid i) (gid i).

(** ** The other parts of the kernel *)

(** [elf_load] returns the entry point, the address space and the user stack;
    the stacks of the boot process are static buffers. *)
Class Machine (M : Type) := {
  elf_load : M -> list Z -> M * option (Z * Z * Z);
  create_user_address_space : M -> M * Z;
  deep_copy_user_pages : M -> Z -> Z -> M;
  vmm_destroy_address_space : M -> Z -> M;
  kmalloc : M -> Z -> M * Z;
  kfree : M -> Z -> M;
  vfs_close : M -> Z -> M;
  pid1_kstack : Z;
  child_kstack : Z;
}.

Section sched.
Context {M : Type} `{Machine M}.

(** The static variables of scheduler.c with the parts it calls; [cur] is the
    slot of [current]. *)
Record kernel := mkKernel {
  tasks : list task;
  cur : option Z;
  next_pid : Z;
  scheduler_enabled : bool;
  wait_target : list Z;
  kpipes : pstate;
  umem : Z -> Z;
  mach : M;
}.

Definition set_tasks (k : kernel) (l : list task) : kernel :=
  mkKernel l (cur k) (next_pid k) (scheduler_enabled k) (wait_target k) (kpipes k) (umem k) (mach k).
Definition set_task (k : kernel) (i : Z) (t : task) : kernel := set_tasks k (tasks k).[i <- t].
Definition set_cur (k : kernel) (c : option Z) : kernel :=
  mkKernel (tasks k) c (next_pid k) (scheduler_enabled k) (wait_target k) (kpipes k) (umem k) (mach k).
Definition set_next_pid (k : kernel) (n : Z) : kernel :=
  mkKernel (tasks k) (cur k) n (scheduler_enabled k) (wait_target k) (kpipes k) (umem k) (mach k).
Definition set_enabled (k : kernel) (b : bool) : kernel :=
  mkKernel (tasks k) (cur k) (next_pid k) b (wait_target k) (kpipes k) (umem k) (mach k).
Definition set_wait_target (k : kernel) (i v : Z) : kernel :=
  mkKernel (tasks k) (cur k) (next_pid k) (scheduler_enabled k) (wait_target k).[i <- v] (kpipes k) (umem k) (mach k).
Definition set_pipes (k : kernel) (p : pstate) : kernel :=
  mkKernel (tasks k) (cur k) (next_pid k) (scheduler_enabled k) (wait_target k) p (umem k) (mach k).
Definition set_mach (k : kernel) (m : M) : kernel :=
  mkKernel (tasks k) (cur k) (next_pid k) (scheduler_enabled k) (wait_target k) (kpipes k) (umem k) m.

Definition tk (k : kernel) (i : Z) : task := (tasks k).[i].
Definition all_slots : nat := Z.to_nat MAX_PROCS.

(** The signal code works on the same table. *)
Definition sys_of (k : kernel) : sys := mkSys (sig <$> tasks k) (cur k) (umem k).
Definition put_sys (k : kernel) (s : sys) : kernel :=
  mkKernel (zip_with set_sig (tasks k) (procs s)) (cur k) (next_pid k) (scheduler_enabled k) (wait_target k)
    (kpipes k) (mem s) (mach k).

(** ** Slots and accessors *)

(** The slot found has its priority reset. *)
Definition find_free_proc (k : kernel) : kernel * option Z :=
  match find_from (fun i => state (tk k i) =? PROC_FREE) all_slots 0 with
  | Some i => (set_task k i (set_priority (tk k i) PRIO_DEFAULT), Some i)
  | None => (k, None)
  end.

Definition slash : list Z := [47].   (* the path of one slash *)

(** Called on a zeroed slot. *)
Definition proc_init_per_process_state (t : task) : task :=
  let i := img t in
  set_priority
    (set_exit
       (set_img t (mkImage (name i) (fs_base i) (is_linux_process i) (exe_path i) 0 0 0 slash slash 18 0 0))
       (exit_status t) false) PRIO_DEFAULT.

Definition sched_alloc_proc (k : kernel) : kernel * option Z := find_free_proc k.

Definition sched_find_by_pid_impl (k : kernel) (p : Z) : option Z :=
  find_from (fun i => negb (state (tk k i) =? PROC_FREE) && (tpid (tk k i) =? p)) all_slots 0.

Definition sched_alloc_pid (k : kernel) : kernel * Z := (set_next_pid k (next_pid k + 1), next_pid k).

Definition task_current (k : kernel) : option Z := cur k.

Definition proc_getpid (k : kernel) : Z := match cur k with Some c => tpid (tk k c) | None => 0 end.

Definition proc_is_linux_process (k : kernel) : bool :=
  match cur k with Some c => is_linux_process (img (tk k c)) | None => false end.

Definition proc_set_linux_process (k : kernel) (l : bool) : kernel :=
  match cur k with
  | Some c => set_task k c (set_img (tk k c) (set_linux (img (tk k c)) l))
  | None => k
  end.

Definition sched_set_clear_child_tid (k : kernel) (p a : Z) : kernel :=
  match sched_find_by_pid_impl k p with
  | Some i => set_task k i (set_ctid (tk k i) a)
  | None => k
  end.

Definition create_proc_pml4 (k : kernel) : kernel * Z :=
  let '(m, a) := create_user_address_space (mach k) in (set_mach k m, a).

(** ** Descriptor tables *)

Definition fd_table_init (t : task) : task :=
  let fds := replicate (Z.to_nat MAX_FD_PER_PROC) free_fd in
  set_fds t fds.[0 <- mkFdEntry FD_SPECIAL 0 0 O_RDONLY].[1 <- mkFdEntry FD_SPECIAL 1 0 O_WRONLY]
              .[2 <- mkFdEntry FD_SPECIAL 2 0 O_WRONLY].

Definition fd_table_copy (parent child : task) : task :=
  set_fds child (for_each (fun i l => l.[i <- (fds parent).[i]]) (Z.to_nat MAX_FD_PER_PROC) 0 (fds child)).

Definition close_fd (p i : Z) (k : kernel) : kernel :=
  let f := (fds (tk k p)).[i] in
  if fd_type f =? FD_UNUSED then k
  else
    let k :=
      if fd_type f =? FD_VFS then set_mach k (vfs_close (mach k) (resource f))
      else if fd_type f =? FD_PIPE then set_pipes k (pipe_close (kpipes k) (resource f)).1
      else k in
    set_task k p (set_fds (tk k p) (fds (tk k p)).[i <- free_fd]).

Definition fd_table_close_all (k : kernel) (p : Z) : kernel :=
  for_each (close_fd p) (Z.to_nat MAX_FD_PER_PROC) 0 k.

Definition destroy_space (k : kernel) (s : space) : kernel :=
  if negb (pml4 s =? 0) then set_mach k (vmm_destroy_address_space (mach k) (pml4 s)) else k.

(** Static stacks are not heap blocks. *)
Definition free_kstack (k : kernel) (s : space) : kernel :=
  if negb (kernel_stack s =? 0) && negb (kernel_stack s =? pid1_kstack) && negb (kernel_stack s =? child_kstack)
  then set_mach k (kfree (mach k) (kernel_stack s)) else k.

(** The resources of a process that nobody needs any more. *)
Definition proc_reap (k : kernel) (p : Z) : kernel :=
  let k := fd_table_close_all k p in
  let s := spc (tk k p) in
  set_task (free_kstack (destroy_space k s) s) p
    (set_spc (tk k p) (mkSpace 0 0 (kernel_stack_top s) (entry_point s) (user_stack_ptr s) (stack_bottom s))).

(** ** Creating processes *)

Definition KSTACK : Z := 16384.
Definition STACK_BOTTOM : Z := 0x00007FFFFFE00000 - 256 * 1024.

(** The registers of a fresh process: [cs_other] holds rax, rbx, rcx, rdx, rsi,
    rbp, r8 to r15, int_no, err_code, cs, ss, fs_base, gs_base, kgs_base and
    krsp in this order. *)
Record user_regs := mkRegs {
  g_rip : Z; g_rflags : Z; g_rsp : Z; g_rbx : Z; g_rbp : Z; g_r12 : Z; g_r13 : Z; g_r14 : Z; g_r15 : Z
}.

Definition create_cpu (entry stack : Z) : cpu_state :=
  mkCpu 0 entry 0x202 stack [0; 0; 0; 0; 0; 0; 0; 0; 0; 0; 0; 0; 0; 0; 0; 0; 0x23; 0x1B; 0; 0; 0; 0].

(** [(rflags | 0x200) & ~0x3000] *)
Definition fork_cpu (g : user_regs) : cpu_state :=
  mkCpu 0 (g_rip g) (Z.land (Z.lor (g_rflags g) 0x200) (Z.lnot 0x3000)) (g_rsp g)
    [0; g_rbx g; 0; 0; 0; g_rbp g; 0; 0; 0; 0; g_r12 g; g_r13 g; g_r14 g; g_r15 g; 0; 0; 0x23; 0x1B; 0; 0; 0; 0].

(** [memset], the per-process state, the pid and the name: the result is a
    RUNNABLE task. *)
Definition fresh_task (p parent : Z) (nm : list Z) : task :=
  let t := proc_init_per_process_state zero_task in
  let i := img t in
  let t := set_img t (mkImage (take 31 nm) (fs_base i) (is_linux_process i) (exe_path i) (brk i) (brk_base i)
                        (mmap_next_addr i) (cwd i) (root i) (umask i) (uid i) (gid i)) in
  let s := sig t in
  set_parent (set_sig t (mkProc p PROC_RUNNABLE (saved_state s) (sigactions s) (signal_pending s) (signal_blocked s)
                          (pre_signal_state s) (in_signal_handler s))) parent.

Definition set_saved (t : task) (c : cpu_state) : task :=
  let s := sig t in
  set_sig t (mkProc (pid s) (p_state s) (Some c) (sigactions s) (signal_pending s) (signal_blocked s)
               (pre_signal_state s) (in_signal_handler s)).

Definition proc_create (k : kernel) (nm elf_data : list Z) : kernel * Z :=
  let '(k, slot) := find_free_proc k in
  match slot with
  | None => (k, -1)
  | Some i =>
      let '(k, p) := sched_alloc_pid k in
      let k := set_task k i (fresh_task p (proc_getpid k) nm) in
      let '(m, r) := elf_load (mach k) elf_data in
      let k := set_mach k m in
      match r with
      | None => (set_task k i (set_state (tk k i) PROC_FREE), -1)
      | Some (entry, pml4_, stack) =>
          let '(m, ks) := kmalloc (mach k) KSTACK in
          let k := set_mach k m in
          if ks =? 0 then
            let k := set_task k i (set_spc (tk k i) (mkSpace pml4_ 0 0 entry stack STACK_BOTTOM)) in
            let k := set_mach k (vmm_destroy_address_space (mach k) pml4_) in
            (set_task k i (set_state (tk k i) PROC_FREE), -1)
          else
            let t := set_spc (tk k i) (mkSpace pml4_ ks (ks + KSTACK) entry stack STACK_BOTTOM) in
            let t := fd_table_init (set_saved t (create_cpu entry stack)) in
            (set_task k i t, p)
      end
  end.

(** What the child takes over from its parent; [uid] and [gid] stay 0. *)
Definition inherit (parent child : task) : task :=
  let pi := img parent in let ci := img child in
  let t := set_img child
    (mkImage (name ci) (fs_base pi) (is_linux_process pi) (exe_path pi) (brk pi) (brk_base pi) (mmap_next_addr pi)
       (cwd pi) (root pi) (umask pi) (uid ci) (gid ci)) in
  set_sig (set_priority t (priority parent)) (with_actions (sig t) (sigactions (sig parent))).

Definition proc_fork (k : kernel) (g : user_regs) : kernel * Z :=
  match cur k with
  | None => (k, -1)
  | Some c =>
      let '(k, slot) := find_free_proc k in
      match slot with
      | None => (k, -1)
      | Some i =>
          let '(k, p) := sched_alloc_pid k in
          let parent := tk k c in
          let k := set_task k i (inherit parent (fresh_task p (tpid parent) (name (img parent)))) in
          let '(k, a) := create_proc_pml4 k in
          if a =? 0 then (set_task k i (set_state (tk k i) PROC_FREE), -1)
          else
            let k := set_mach k (deep_copy_user_pages (mach k) (pml4 (spc parent)) a) in
            let bottom := stack_bottom (spc parent) in
            let '(m, ks) := kmalloc (mach k) KSTACK in
            let k := set_mach k m in
            if ks =? 0 then
              let k := set_task k i (set_spc (tk k i) (mkSpace a 0 0 0 0 bottom)) in
              let k := set_mach k (vmm_destroy_address_space (mach k) a) in
              (set_task k i (set_state (tk k i) PROC_FREE), -1)
            else
              let t := set_spc (tk k i) (mkSpace a ks (ks + KSTACK) 0 0 bottom) in
              let t := fd_table_copy parent (set_saved t (fork_cpu g)) in
              (set_task k i t, p)
      end
  end.

(** ** Scheduling *)

Definition ready (k : kernel) (i : Z) : bool := state (tk k i) =? PROC_RUNNABLE.

Definition start_slot (k : kernel) : Z := match cur k with Some c => c + 1 | None => 0 end.

Definition pick_step (k : kernel) (i : Z) (best : option Z) : option Z :=
  let idx := (start_slot k + i) mod MAX_PROCS in
  if negb (ready k idx) then best
  else
    match best with
    | None => Some idx
    | Some b => if priority (tk k idx) <? priority (tk k b) then Some idx else best
    end.

Definition pick_next (k : kernel) : option Z := for_each (pick_step k) all_slots 0 None.

(** Whether the call comes back at once, or switches to another task. *)
Inductive cut := Returned | Switched.

Definition switch_to (k : kernel) (n : Z) : kernel :=
  let k := match cur k with
           | Some c => if state (tk k c) =? PROC_RUNNING then set_task k c (set_state (tk k c) PROC_RUNNABLE) else k
           | None => k
           end in
  let k := set_cur k (Some n) in
  set_task k n (set_state (tk k n) PROC_RUNNING).

Definition schedule (k : kernel) : kernel * cut :=
  if negb (scheduler_enabled k) then (k, Returned)
  else
    match pick_next k with
    | None => (k, Returned)
    | Some n => if decide (cur k = Some n) then (k, Returned) else (switch_to k n, Switched)
    end.

(** ** Blocking *)

(** After [schedule()] in [task_block]. *)
Definition task_block_resume (k : kernel) : kernel :=
  match cur k with
  | Some c => if state (tk k c) =? PROC_BLOCKED then set_task k c (set_state (tk k c) PROC_RUNNING) else k
  | None => k
  end.

Definition task_block (k : kernel) : kernel * cut :=
  match cur k with
  | None => (k, Returned)
  | Some c =>
      let '(k, r) := schedule (set_task k c (set_state (tk k c) PROC_BLOCKED)) in
      match r with
      | Switched => (k, Switched)
      | Returned => (task_block_resume k, Returned)
      end
  end.

Definition unblock_slot (k : kernel) (i : Z) : kernel :=
  if state (tk k i) =? PROC_BLOCKED then set_task k i (set_state (tk k i) PROC_RUNNABLE) else k.

(** [task] is a slot, [None] for NULL. *)
Definition task_unblock (k : kernel) (task : option Z) : kernel :=
  match task with Some i => unblock_slot k i | None => k end.

Definition task_unblock_pid (k : kernel) (p : Z) : kernel :=
  match sched_find_by_pid_impl k p with Some i => unblock_slot k i | None => k end.

(** The signed difference [(int64_t)(now - deadline) >= 0]. *)
Definition due (now deadline : Z) : bool := 0 <=? swrap 64 (u64 (now - deadline)).

(** [task_sleep] up to its loop: the deadline, or [None] if it yields. *)
Definition task_sleep_start (k : kernel) (now ms : Z) : kernel * option Z :=
  match cur k with
  | None => (k, None)
  | Some c =>
      if ms =? 0 then (if scheduler_enabled k then ((schedule k).1, None) else (k, None))
      else let d := u64 (now + ms) in (set_task k c (set_wake (tk k c) d), Some d)
  end.

Inductive sleep_step := SleepDone | SleepHalt | SleepAgain | SleepSwitched.

(** One round of the loop; [SleepHalt] is [sti; hlt]. *)
Definition task_sleep_round (k : kernel) (now deadline : Z) : kernel * sleep_step :=
  match cur k with
  | None => (k, SleepDone)
  | Some c =>
      if due now deadline then (set_task k c (set_state (set_wake (tk k c) 0) PROC_RUNNING), SleepDone)
      else
        let '(k, r) := schedule (set_task k c (set_state (tk k c) PROC_BLOCKED)) in
        match r with
        | Switched => (k, SleepSwitched)
        | Returned => (k, if state (tk k c) =? PROC_BLOCKED then SleepHalt else SleepAgain)
        end
  end.

Definition task_set_priority (k : kernel) (p : Z) : kernel :=
  match cur k with
  | None => k
  | Some c =>
      let p := if p <? PRIO_MIN then PRIO_MIN else p in
      let p := if PRIO_MAX <? p then PRIO_MAX else p in
      set_task k c (set_priority (tk k c) p)
  end.

Definition wakeup_step (now i : Z) (k : kernel) : kernel :=
  let t := tk k i in
  if negb (state t =? PROC_BLOCKED) then k
  else if 0 <? (wait_target k).[i] then
    match sched_find_by_pid_impl k (wait_target k).[i] with
    | Some j =>
        if state (tk k j) =? PROC_ZOMBIE
        then set_wait_target (set_task k i (set_state t PROC_RUNNABLE)) i 0 else k
    | None => k
    end
  else if negb (wake_tick t =? 0) && due now (wake_tick t) then set_task k i (set_state t PROC_RUNNABLE)
  else k.

Definition sched_check_wakeups (k : kernel) (now : Z) : kernel := for_each (wakeup_step now) all_slots 0 k.

(** ** Exit and wait *)

Definition reparent_step (dead i : Z) (k : kernel) : kernel :=
  let t := tk k i in
  if (state t =? PROC_FREE) || (state t =? PROC_ZOMBIE) then k
  else if parent_pid t =? dead then set_task k i (set_parent t 1) else k.

(** SIGCHLD for the parent. *)
Definition notify_parent (k : kernel) (c : Z) : kernel :=
  if 0 <? parent_pid (tk k c) then put_sys k (signal_kill (sys_of k) (parent_pid (tk k c)) SIGCHLD).1 else k.

Definition proc_exit (k : kernel) (status : Z) : kernel * cut :=
  match cur k with
  | None => (k, Returned)
  | Some c =>
      let k := fd_table_close_all k c in
      let k := for_each (reparent_step (tpid (tk k c))) all_slots 0 k in
      let k := notify_parent k c in
      let k := set_task k c (set_state (set_exit (tk k c) status true) PROC_ZOMBIE) in
      schedule (task_unblock_pid k (parent_pid (tk k c)))
  end.

(** The exit status of a zombie, its pid, and the slot made free. *)
Definition collect (k : kernel) (i : Z) : kernel * Z * option Z :=
  let st := exit_status (tk k i) in
  let p := tpid (tk k i) in
  let k := proc_reap k i in
  (set_task k i (set_state (tk k i) PROC_FREE), p, Some st).

(** The status is [None] when it is not written. *)
Definition proc_wait (k : kernel) (p : Z) : kernel * Z * option Z :=
  match cur k with
  | None => (k, -1, None)
  | Some c =>
      match find_from (fun i => (tpid (tk k i) =? p) && (parent_pid (tk k i) =? tpid (tk k c))) all_slots 0 with
      | Some i => if state (tk k i) =? PROC_ZOMBIE then collect k i else (k, 0, None)
      | None => (k, -1, None)
      end
  end.

(** The scan of [proc_wait_blocking]: [Stop] is the slot of a zombie. *)
Definition wait_scan_step (k : kernel) (me p i : Z) (found : bool) : ctl bool Z :=
  let t := tk k i in
  if parent_pid t =? me then
    if (0 <? p) && negb (tpid t =? p) then Next found
    else if state t =? PROC_ZOMBIE then Stop i
    else if negb (state t =? PROC_FREE) then Next true
    else Next found
  else Next found.

Inductive wait_result := WaitRet (v : Z) (status : option Z) | WaitSwitched.

(** After [schedule()]. *)
Definition proc_wait_resume (k : kernel) (p : Z) : kernel * wait_result :=
  match cur k with
  | None => (k, WaitRet (-1) None)
  | Some c => let '(k, v, st) := proc_wait (set_wait_target k c 0) p in (k, WaitRet v st)
  end.

Definition proc_wait_blocking (k : kernel) (p : Z) : kernel * wait_result :=
  match cur k with
  | None => (k, WaitRet (-1) None)
  | Some c =>
      match for_loop (wait_scan_step k (tpid (tk k c)) p) all_slots 0 false with
      | Stop i => let '(k, v, st) := collect k i in (k, WaitRet v st)
      | Next false => (k, WaitRet (-1) None)
      | Next true =>
          let k := set_task k c (set_state (tk k c) PROC_BLOCKED) in
          let k := set_wait_target k c (if 0 <? p then p else -1) in
          let '(k, r) := schedule k in
          match r with
          | Switched => (k, WaitSwitched)
          | Returned => proc_wait_resume k p
          end
      end
  end.

(** ** Starting *)

Definition sched_init (k : kernel) : kernel :=
  mkKernel (replicate (Z.to_nat MAX_PROCS) zero_task) None 1 false (replicate (Z.to_nat MAX_PROCS) 0)
    (kpipes k) (umem k) (mach k).

Definition sched_enable (k : kernel) : kernel := set_enabled k true.
Definition sched_disable (k : kernel) : kernel := set_enabled k false.

(** Up to the jump to user code; the result is the slot. *)
Definition sched_start_first (k : kernel) (nm elf_data : list Z) : kernel * option Z :=
  let '(k, p) := proc_create k nm elf_data in
  if p <? 0 then (k, None)
  else
    match sched_find_by_pid_impl k p with
    | None => (k, None)
    | Some i =>
        let k := set_cur k (Some i) in
        let k := set_task k i (set_state (tk k i) PROC_RUNNING) in
        let k := sched_enable k in
        let s := spc (tk k i) in
        let k := free_kstack k s in
        (set_task k i (set_spc (tk k i) (mkSpace (pml4 s) pid1_kstack (pid1_kstack + KSTACK) (entry_point s)
                                          (user_stack_ptr s) (stack_bottom s))), Some i)
    end.

(** ** The rest *)

Definition sched_get_proc_info (k : kernel) (idx : Z) : option (Z * list Z * Z) :=
  if (idx <? 0) || (MAX_PROCS <=? idx) then None
  else if state (tk k idx) =? PROC_FREE then None
  else Some (tpid (tk k idx), take 31 (name (img (tk k idx))), state (tk k idx)).

Definition sched_tick (k : kernel) (now : Z) : kernel :=
  if scheduler_enabled k then (schedule (sched_check_wakeups k now)).1 else k.

Definition sched_yield (k : kernel) : kernel := if scheduler_enabled k then (schedule k).1 else k.

Definition sched_kill_and_unload (k : kernel) (p status : Z) : kernel :=
  match sched_find_by_pid_impl k p with
  | Some i => set_task k i (set_state (set_exit (tk k i) status (needs_kstack_free (tk k i))) PROC_ZOMBIE)
  | None => k
  end.

Definition sched_clone_thread : Z := -1.

(** ** Slots *)

Definition slot (i : Z) : Prop := 0 <= i < MAX_PROCS.
Definition live (t : task) : Prop := state t <> PROC_FREE /\ state t <> PROC_ZOMBIE.

(** The shape of a task. *)
Definition task_ok (t : task) : Prop := len (fds t) = MAX_FD_PER_PROC /\ len (sigactions (sig t)) = MAX_SIGNALS.

(** The table: sizes, pids of its own for every process, and at most the
    current process RUNNING. *)
Record sched_ok (k : kernel) : Prop := {
  so_tasks : len (tasks k) = MAX_PROCS;
  so_wait : len (wait_target k) = MAX_PROCS;
  so_cur : forall c, cur k = Some c -> slot c;
  so_task : forall i, slot i -> task_ok (tk k i);
  so_pid : forall i, slot i -> state (tk k i) <> PROC_FREE -> 1 <= tpid (tk k i) < next_pid k;
  so_next : 1 <= next_pid k;
  so_inj : forall i j, slot i -> slot j -> state (tk k i) <> PROC_FREE -> state (tk k j) <> PROC_FREE ->
    tpid (tk k i) = tpid (tk k j) -> i = j;
  so_run : forall i, slot i -> state (tk k i) = PROC_RUNNING -> cur k = Some i;
}.

Lemma tk_set k i j t : len (tasks k) = MAX_PROCS -> slot i -> slot j -> tk (set_task k i t) j = if decide (i = j) then t else tk k j.
Proof. unfold slot. intros Hl Hi Hj. unfold tk. simpl. by rewrite geti_seti by lia. Qed.

Lemma tk_set_eq k i t : len (tasks k) = MAX_PROCS -> slot i -> tk (set_task k i t) i = t.
Proof. intros. rewrite tk_set by done. by rewrite decide_True. Qed.

Lemma tk_set_ne k i j t : len (tasks k) = MAX_PROCS -> slot i -> slot j -> i <> j -> tk (set_task k i t) j = tk k j.
Proof. intros. rewrite tk_set by done. by rewrite decide_False. Qed.

Lemma find_slot p i : find_from p all_slots 0 = Some i -> slot i /\ p i = true.
Proof. intros H'. apply find_from_Some in H' as (Hi & Hp & _). by split. Qed.

(** ** Changes the invariants allow *)

Record keeps (t t' : task) : Prop := {
  kp_pid : tpid t' = tpid t;
  kp_ok : task_ok t -> task_ok t';
  kp_run : state t' = PROC_RUNNING -> state t = PROC_RUNNING;
  kp_free : state t = PROC_FREE -> state t' = PROC_FREE;
  kp_zombie : state t = PROC_ZOMBIE -> state t' = PROC_ZOMBIE /\ parent_pid t' = parent_pid t;
}.

Lemma keeps_refl t : keeps t t.
Proof. by constructor. Qed.

Lemma keeps_trans a b c : keeps a b -> keeps b c -> keeps a c.
Proof.
  intros [p1 o1 r1 f1 z1] [p2 o2 r2 f2 z2]. constructor; [congruence|auto|auto|auto|].
  intros Hz. destruct (z1 Hz) as [Hb Ep]. destruct (z2 Hb). split; congruence.
Qed.

(** A change of state of a live task. *)
Lemma keeps_state t st : live t -> st <> PROC_RUNNING -> keeps t (set_state t st).
Proof. intros [Hf Hz] Hr. constructor; try done; intros; contradiction. Qed.

Lemma blocked_live t : state t = PROC_BLOCKED -> live t.
Proof. intros E. unfold live. by rewrite E. Qed.

(** An invariant of the kernel: what the operations may do to it. *)
Class KernelInv (I : kernel -> Prop) : Prop := {
  ki_ok : forall k, I k -> sched_ok k;
  ki_ext : forall k k', I k -> tasks k' = tasks k -> cur k' = cur k -> next_pid k' = next_pid k ->
    len (wait_target k') = len (wait_target k) -> I k';
  ki_keeps : forall k i t, I k -> slot i -> keeps (tk k i) t -> I (set_task k i t);
  ki_switch : forall k n, I k -> slot n -> state (tk k n) = PROC_RUNNABLE -> I (switch_to k n);
  ki_run : forall k c t, I k -> cur k = Some c -> live (tk k c) -> keeps (tk k c) t -> I (set_task k c (set_state t PROC_RUNNING));
  ki_fresh : forall k i t, I k -> slot i -> state (tk k i) = PROC_FREE -> tpid t = next_pid k -> task_ok t ->
    state t = PROC_RUNNABLE -> I (set_task (set_next_pid k (next_pid k + 1)) i t);
  ki_collect : forall k c i t, I k -> cur k = Some c -> live (tk k c) -> slot i -> state (tk k i) = PROC_ZOMBIE ->
    parent_pid (tk k i) = tpid (tk k c) -> task_ok t -> state t = PROC_FREE -> I (set_task k i t);
}.

Lemma set_task_inv k i t :
  sched_ok k -> slot i -> task_ok t ->
  (state t <> PROC_FREE -> tpid t = tpid (tk k i) /\ state (tk k i) <> PROC_FREE) ->
  (state t = PROC_RUNNING -> cur k = Some i) -> sched_ok (set_task k i t).
Proof.
  intros [T W C K P N J R] Hi Hok Hpid Hrun. constructor; try done.
  - simpl. by autorewrite with arr.
  - intros j Hj. rewrite tk_set by done. case_decide; [done|by apply K].
  - intros j Hj. rewrite tk_set by done. case_decide; [subst|by apply P]. intros Hf.
    destruct (Hpid Hf) as [-> Hf']. by apply P.
  - intros a b Ha Hb. rewrite !tk_set by done. repeat case_decide; subst; try done.
    + intros Hf Hf' E. destruct (Hpid Hf) as [Ep Hfi]. exfalso. apply H1. apply J; try done. congruence.
    + intros Hf Hf' E. destruct (Hpid Hf') as [Ep Hfi]. exfalso. apply H0. apply J; try done. congruence.
    + by apply J.
  - intros j Hj. rewrite tk_set by done. case_decide; [subst; done|by apply R].
Qed.

#[export] Instance sched_ok_inv : KernelInv sched_ok.
Proof.
  constructor; [done|..].
  - intros k k' [T W C K P N J R] Et Ec En Ew. unfold tk in *.
    constructor; unfold tk; rewrite ?Et, ?Ec, ?En, ?Ew; done.
  - intros k i t Hk Hi Hkp. apply set_task_inv; try done.
    + apply Hkp. by apply so_task.
    + intros Hf. split; [apply Hkp|]. intros E. by apply Hf, Hkp.
    + intros Hr. apply so_run; [done..|]. by apply Hkp.
  - intros k n Hk Hn Hst. unfold switch_to.
    assert (exists k1, sched_ok k1 /\ (forall i, slot i -> state (tk k1 i) <> PROC_RUNNING) /\ state (tk k1 n) = PROC_RUNNABLE /\
      (match cur k with
       | Some c => if state (tk k c) =? PROC_RUNNING then set_task k c (set_state (tk k c) PROC_RUNNABLE) else k
       | None => k end) = k1) as (k1 & Hk1 & Hnr & Hst1 & ->).
    { eexists. split_and!; [| | |reflexivity].
      - destruct (cur k) as [c|] eqn:Ec; [|done]. pose proof (so_cur k Hk c Ec). destruct (Z.eqb_spec (state (tk k c)) PROC_RUNNING) as [E|]; [|done].
        apply set_task_inv; try done; [by apply (so_task k Hk)|]. intros _. split; [done|]. by rewrite E.
      - intros i Hi Hr. destruct (cur k) as [c|] eqn:Ec.
        + pose proof (so_cur k Hk c Ec). destruct (Z.eqb_spec (state (tk k c)) PROC_RUNNING) as [E|E].
          * rewrite tk_set in Hr by (by try apply so_tasks). case_decide; [done|]. pose proof (so_run k Hk i Hi Hr). congruence.
          * pose proof (so_run k Hk i Hi Hr). congruence.
        + pose proof (so_run k Hk i Hi Hr). congruence.
      - destruct (cur k) as [c|] eqn:Ec; [|done]. pose proof (so_cur k Hk c Ec).
        destruct (Z.eqb_spec (state (tk k c)) PROC_RUNNING); [|done]. rewrite tk_set by (by try apply so_tasks). by case_decide. }
    set (k2 := set_cur k1 (Some n)). assert (sched_ok k2) as Hk2.
    { destruct Hk1 as [T W C K P N J R]. constructor; try done; [by intros c [= <-]|]. intros i Hi Hr. by destruct (Hnr i Hi). }
    apply set_task_inv; try done; [by apply (so_task k2 Hk2)|]. intros _. split; [done|]. change (tk k2 n) with (tk k1 n). by rewrite Hst1.
  - intros k c t Hk Hc [Hl1 Hl2] Hkp. pose proof (so_cur k Hk c Hc). apply set_task_inv; try done.
    + by apply Hkp, so_task.
    + intros _. split; [by apply Hkp|done].
  - intros k i t [T W C K P N J R] Hi Hf Hp Hok Hst. constructor; simpl; try done; [by autorewrite with arr| | |lia|..].
    + intros j Hj. change (task_ok (tk (set_task k i t) j)). rewrite tk_set by done. case_decide; [done|by apply K].
    + intros j Hj. change (tk _ j) with (tk (set_task k i t) j). rewrite tk_set by done. case_decide; [lia|].
      intros Hs. specialize (P j Hj Hs). lia.
    + intros a b Ha Hb. change (tk (set_task _ i t)) with (tk (set_task k i t)). rewrite !tk_set by done.
      repeat case_decide; subst; try done; intros Hs Hs' E.
      * specialize (P b Hb Hs'). lia.
      * specialize (P a Ha Hs). lia.
      * by apply J.
    + intros j Hj. change (tk _ j) with (tk (set_task k i t) j). rewrite tk_set by done. case_decide; [by rewrite Hst|by apply R].
  - intros k c i t Hk Hc Hl Hi Hz Hp Hok Hf. apply set_task_inv; try done; by rewrite Hf.
Qed.

Lemma keeps_live t t' : keeps t t' -> live t' -> live t.
Proof. intros K [H1 H2]. split; intros E; [by apply H1, K|by apply H2, K]. Qed.

(** A zombie whose parent, with pid [pp], is no live process. *)
Record lost (z pp : Z) (k : kernel) : Prop := {
  lo_len : len (tasks k) = MAX_PROCS;
  lo_zombie : slot z /\ state (tk k z) = PROC_ZOMBIE /\ parent_pid (tk k z) = pp;
  lo_old : pp < next_pid k;
  lo_dead : forall i, slot i -> live (tk k i) -> tpid (tk k i) <> pp;
}.

Definition orphan (z pp : Z) (k : kernel) : Prop := sched_ok k /\ lost z pp k.

Lemma lost_set z pp k i t :
  lost z pp k -> slot i -> (i = z -> state t = PROC_ZOMBIE /\ parent_pid t = pp) -> (live t -> tpid t <> pp) ->
  lost z pp (set_task k i t).
Proof.
  intros [L (Z & Zs & Zp) Po D] Hi Hz Hl. constructor; try done; simpl.
  - by autorewrite with arr.
  - split; [done|]. change (tk _ z) with (tk (set_task k i t) z). rewrite tk_set by done. case_decide; [by apply Hz|done].
  - intros j Hj. change (tk _ j) with (tk (set_task k i t) j). rewrite tk_set by done. case_decide; [done|by apply D].
Qed.

Lemma lost_keeps z pp k i t : lost z pp k -> slot i -> keeps (tk k i) t -> lost z pp (set_task k i t).
Proof.
  intros Hk Hi Hkp. destruct (lo_zombie _ _ _ Hk) as (Z & Zs & Zp). apply lost_set; try done.
  - intros ->. rewrite <- Zp. by apply Hkp.
  - intros Hl. rewrite (kp_pid _ _ Hkp). apply Hk; [done|]. by eapply keeps_live.
Qed.

(** A live task is not the zombie. *)
Lemma lost_live z pp k i t :
  lost z pp k -> slot i -> live (tk k i) -> tpid t = tpid (tk k i) -> lost z pp (set_task k i t).
Proof.
  intros Hk Hi Hl Hp. apply lost_set; try done.
  - intros ->. destruct (lo_zombie _ _ _ Hk) as (_ & E & _). by destruct Hl.
  - intros _. rewrite Hp. by apply Hk.
Qed.

Lemma running_live t st : state t = st -> st <> PROC_FREE -> st <> PROC_ZOMBIE -> live t.
Proof. intros <-. by split. Qed.

Lemma lost_switch z pp k n : lost z pp k -> (forall c, cur k = Some c -> slot c) -> slot n ->
  state (tk k n) = PROC_RUNNABLE -> lost z pp (switch_to k n).
Proof.
  intros Hk Hc Hn Hst. unfold switch_to. set (k1 := match cur k with Some c => _ | None => _ end).
  assert (lost z pp k1 /\ state (tk k1 n) = PROC_RUNNABLE) as [Hk1 Hst1].
  { unfold k1. destruct (cur k) as [c|]; [|done]. destruct (Z.eqb_spec (state (tk k c)) PROC_RUNNING) as [E|]; [|done].
    split; [apply lost_live; [done|by apply Hc|by eapply running_live|done]|].
    rewrite tk_set by (by try apply Hk; auto). by case_decide. }
  apply (lost_live z pp (set_cur k1 (Some n))); [by destruct Hk1|done| |done]. by eapply running_live.
Qed.

#[export] Instance orphan_inv z pp : KernelInv (orphan z pp).
Proof.
  constructor; [by intros k []|..].
  - intros k k' [O [L Z P D]] Et Ec En Ew. split; [by apply (ki_ext k)|].
    unfold tk in *. constructor; unfold tk; by rewrite ?Et, ?En.
  - intros k i t [O L] Hi Hkp. split; [by apply ki_keeps|by apply lost_keeps].
  - intros k n [O L] Hn Hst. split; [by apply ki_switch|apply lost_switch; try done; apply O].
  - intros k c t [O L] Hc Hl Hkp. split; [by apply ki_run|]. apply lost_live; [done|by apply O|done|apply Hkp].
  - intros k i t [O L] Hi Hf Hp Hok Hst. split; [by apply ki_fresh|]. destruct (lo_zombie _ _ _ L) as (Z & Zs & Zp).
    apply (lost_set z pp (set_next_pid k (next_pid k + 1))); [|done|intros ->; by rewrite Zs in Hf|].
    + destruct L as [L ? P D]. constructor; try done. simpl. lia.
    + intros _. pose proof (lo_old _ _ _ L). lia.
  - intros k c i t [O L] Hc Hl Hi Hz Hp Hok Hf. split; [by eapply ki_collect|].
    apply lost_set; [done..| |].
    + intros ->. destruct (lo_zombie _ _ _ L) as (_ & _ & Zp). exfalso. apply (lo_dead _ _ _ L c); [by apply O|done|congruence].
    + intros [Hl' _]. by destruct Hl'.
Qed.

(** ** Which task is next *)

(** The slot [i] places after [current]. *)
Definition nth_slot (k : kernel) (i : Z) : Z := (start_slot k + i) mod MAX_PROCS.

Lemma nth_slot_range k i : slot (nth_slot k i).
Proof. unfold slot, nth_slot, MAX_PROCS. apply Z.mod_pos_bound. lia. Qed.

(** Slot [j] places after the current one is ready and first among those of the
    best priority in the next [n] places. *)
Definition best_of (k : kernel) (n j : Z) : Prop :=
  0 <= j < n /\ ready k (nth_slot k j) = true /\
  forall i, 0 <= i < n -> ready k (nth_slot k i) = true ->
    priority (tk k (nth_slot k j)) < priority (tk k (nth_slot k i)) \/
    (priority (tk k (nth_slot k j)) = priority (tk k (nth_slot k i)) /\ j <= i).

Definition pick_inv (k : kernel) (n : Z) (best : option Z) : Prop :=
  match best with
  | None => forall i, 0 <= i < n -> ready k (nth_slot k i) = false
  | Some b => exists j, b = nth_slot k j /\ best_of k n j
  end.

Lemma pick_next_inv k : pick_inv k MAX_PROCS (pick_next k).
Proof.
  change MAX_PROCS with (0 + Z.of_nat all_slots). unfold pick_next.
  apply (for_each_ind (pick_step k) (pick_inv k)); [intros i Hi; lia|].
  intros n best Hn Hb. unfold pick_step. fold (nth_slot k n). destruct (ready k (nth_slot k n)) eqn:Er; simpl negb; cbv iota.
  - destruct best as [b|].
    + destruct Hb as (j & -> & Hj & Hr & Hm). destruct (Z.ltb_spec (priority (tk k (nth_slot k n))) (priority (tk k (nth_slot k j)))) as [Hlt|Hge].
      * exists n. split; [done|]. split; [lia|]. split; [done|]. intros i Hi Hri. destruct (decide (i = n)) as [->|]; [right; lia|].
        left. destruct (Hm i ltac:(lia) Hri); lia.
      * exists j. split; [done|]. split; [lia|]. split; [done|]. intros i Hi Hri. destruct (decide (i = n)) as [->|]; [|apply Hm; [lia|done]].
        destruct (decide (priority (tk k (nth_slot k j)) = priority (tk k (nth_slot k n)))); [right; lia|left; lia].
    + exists n. split; [done|]. split; [lia|]. split; [done|]. intros i Hi Hri. destruct (decide (i = n)) as [->|]; [right; lia|].
      rewrite Hb in Hri by lia. done.
  - destruct best as [b|].
    + destruct Hb as (j & -> & Hj & Hr & Hm). exists j. split; [done|]. split; [lia|]. split; [done|].
      intros i Hi Hri. apply Hm; [|done]. assert (i <> n) by congruence. lia.
    + intros i Hi. destruct (decide (i = n)) as [->|]; [done|]. apply Hb. lia.
Qed.

Lemma pick_next_ready k n : pick_next k = Some n -> slot n /\ state (tk k n) = PROC_RUNNABLE.
Proof.
  intros E. pose proof (pick_next_inv k) as P. rewrite E in P. destruct P as (j & -> & _ & Hr & _).
  split; [apply nth_slot_range|]. by apply Z.eqb_eq.
Qed.

Lemma best_unique k n i j : best_of k n i -> best_of k n j -> i = j.
Proof. intros (Hi & Ri & Mi) (Hj & Rj & Mj). specialize (Mi j Hj Rj). specialize (Mj i Hi Ri). lia. Qed.

(** Every slot is some place after the current one. *)
Definition place (k : kernel) (i : Z) : Z := (i - start_slot k) mod MAX_PROCS.

Lemma nth_place k i : slot i -> 0 <= place k i < MAX_PROCS /\ nth_slot k (place k i) = i.
Proof. unfold slot, place, nth_slot, MAX_PROCS. intros Hi. split; zlia. Qed.

Lemma pick_next_iff k n :
  pick_next k = Some n <->
  slot n /\ ready k n = true /\
  forall i, slot i -> ready k i = true ->
    priority (tk k n) < priority (tk k i) \/ (priority (tk k n) = priority (tk k i) /\ place k n <= place k i).
Proof.
  pose proof (pick_next_inv k) as P. split.
  - intros E. rewrite E in P. destruct P as (j & -> & Hj & Hr & Hm). split; [apply nth_slot_range|]. split; [done|].
    intros i Hi Hri. destruct (nth_place k i Hi) as [Hp Ep]. pose proof (Hm (place k i) Hp ltac:(by rewrite Ep)) as Hc. rewrite Ep in Hc.
    assert (place k (nth_slot k j) = j) as ->; [|done]. unfold place, nth_slot, MAX_PROCS in *. zlia.
  - intros (Hn & Hr & Hm). destruct (nth_place k n Hn) as [Hp Ep]. destruct (pick_next k) as [m|].
    + destruct P as (j & -> & Hb). f_equal. rewrite <- Ep. f_equal. apply (best_unique k MAX_PROCS); [done|]. split; [done|].
      rewrite Ep. split; [done|]. intros i Hi Hri. pose proof (Hm _ (nth_slot_range k i) Hri) as Hc.
      assert (place k (nth_slot k i) = i) as Epi by (unfold place, nth_slot, MAX_PROCS in *; zlia). by rewrite Epi in Hc.
    + simpl in P. rewrite <- Ep, P in Hr by done. done.
Qed.

(** [pick_next] chooses, among all RUNNABLE processes, one with the
    smallest priority value, and among those the first one after the current
    process in cyclic order; it finds none exactly when no process is
    RUNNABLE. *)
Theorem pick_next_best k n :
  pick_next k = Some n <->
  slot n /\ ready k n = true /\
  forall i, slot i -> ready k i = true ->
    priority (tk k n) < priority (tk k i) \/ (priority (tk k n) = priority (tk k i) /\ place k n <= place k i).
Proof. apply pick_next_iff. Qed.

(** ** The operations keep the invariants *)

Section operations.
Context (I : kernel -> Prop) `{!KernelInv I}.

(** Steps that create, collect and switch to nothing. *)
Record calm (k k' : kernel) : Prop := {
  cm_inv : I k';
  cm_cur : cur k' = cur k;
  cm_keeps : forall i, slot i -> keeps (tk k i) (tk k' i);
  cm_live : forall i, slot i -> live (tk k i) -> live (tk k' i);
}.

Lemma calm_refl k : I k -> calm k k.
Proof. intros. constructor; [done|done|intros; apply keeps_refl|done]. Qed.

Lemma calm_trans a b c : calm a b -> calm b c -> calm a c.
Proof.
  intros [i1 c1 k1 l1] [i2 c2 k2 l2]. constructor; [done|congruence| |auto].
  intros i Hi. eapply keeps_trans; eauto.
Qed.

Lemma calm_ext k k' : I k -> tasks k' = tasks k -> cur k' = cur k -> next_pid k' = next_pid k ->
  len (wait_target k') = len (wait_target k) -> calm k k'.
Proof.
  intros Hk Et Ec En Ew. constructor; [by apply (ki_ext k)|done|..]; unfold tk; rewrite Et; [|done].
  intros. apply keeps_refl.
Qed.

Lemma calm_set k i t : I k -> slot i -> keeps (tk k i) t -> (live (tk k i) -> live t) -> calm k (set_task k i t).
Proof.
  intros Hk Hi Hkp Hl. pose proof (so_tasks k (ki_ok k Hk)). constructor; [by apply ki_keeps|done|..]; intros j Hj;
    rewrite tk_set by done; case_decide; subst; try done; apply keeps_refl.
Qed.

Lemma calm_for_each body n i k : I k -> (forall j t, i <= j < i + Z.of_nat n -> I t -> calm t (body j t)) ->
  calm k (for_each body n i k).
Proof.
  intros Hk Hb. apply (for_each_ind body (fun _ t => calm k t)); [by apply calm_refl|].
  intros j t Hj C. eapply calm_trans; [exact C|]. apply Hb; [done|apply C].
Qed.

Lemma calm_close_fd p i k : I k -> slot p -> calm k (close_fd p i k).
Proof.
  intros Hk Hp. unfold close_fd. destruct (_ =? FD_UNUSED); [by apply calm_refl|].
  set (k1 := if fd_type _ =? FD_VFS then _ else _).
  assert (calm k k1) as C1 by (unfold k1; repeat case_match; first [by apply calm_refl|by apply calm_ext]).
  eapply calm_trans; [exact C1|]. apply calm_set; [apply C1|done| |done].
  constructor; try done. intros [Hf Ha]. split; [|done]. simpl. by autorewrite with arr.
Qed.

Lemma calm_close_all p k : I k -> slot p -> calm k (fd_table_close_all k p).
Proof. intros Hk Hp. apply calm_for_each; [done|]. intros. by apply calm_close_fd. Qed.

Lemma calm_destroy k s : I k -> calm k (destroy_space k s).
Proof. intros Hk. unfold destroy_space. destruct (negb _); [by apply calm_ext|by apply calm_refl]. Qed.

Lemma calm_free_kstack k s : I k -> calm k (free_kstack k s).
Proof. intros Hk. unfold free_kstack. destruct (_ && _); [by apply calm_ext|by apply calm_refl]. Qed.

Lemma calm_reap p k : I k -> slot p -> calm k (proc_reap k p).
Proof.
  intros Hk Hp. unfold proc_reap. pose proof (calm_close_all p k Hk Hp) as C1. revert C1.
  generalize (fd_table_close_all k p). intros k1 C1. eapply calm_trans; [exact C1|].
  pose proof (calm_destroy k1 (spc (tk k1 p)) (cm_inv _ _ C1)) as C2.
  pose proof (calm_free_kstack _ (spc (tk k1 p)) (cm_inv _ _ C2)) as C3.
  eapply calm_trans; [exact C2|]. eapply calm_trans; [exact C3|].
  set (k3 := free_kstack _ _) in *. assert (tk k3 p = tk k1 p) as E.
  { unfold k3, free_kstack, destroy_space. by repeat case_match. }
  apply calm_set; [apply C3|done|rewrite E; by constructor|by rewrite E].
Qed.

Lemma calm_unblock k i : I k -> slot i -> calm k (unblock_slot k i).
Proof.
  intros Hk Hi. unfold unblock_slot. destruct (Z.eqb_spec (state (tk k i)) PROC_BLOCKED) as [E|]; [|by apply calm_refl].
  apply calm_set; [done..|apply keeps_state; [by apply blocked_live|done]|by intros _].
Qed.

Lemma calm_reparent dead i k : I k -> slot i -> calm k (reparent_step dead i k).
Proof.
  intros Hk Hi. unfold reparent_step. destruct (Z.eqb_spec (state (tk k i)) PROC_FREE); [by apply calm_refl|].
  destruct (Z.eqb_spec (state (tk k i)) PROC_ZOMBIE); [by apply calm_refl|]. simpl.
  destruct (_ =? _); [|by apply calm_refl]. apply calm_set; [done..|by constructor|done].
Qed.

Lemma slot_all i : 0 <= i < 0 + Z.of_nat all_slots -> slot i.
Proof. done. Qed.

(** A signal for one process. *)
Lemma put_sys_set k i p : put_sys k (set_proc (sys_of k) i p) = set_task k i (set_sig (tk k i) p).
Proof.
  unfold put_sys, set_task, set_tasks, sys_of, tk. simpl. f_equal. unfold seti, geti.
  apply list_eq. intros j. rewrite lookup_zip_with. destruct (decide (Z.to_nat i = j)) as [<-|Hne].
  - destruct (tasks k !! Z.to_nat i) as [t|] eqn:E.
    + simpl. rewrite !list_lookup_insert_eq by (rewrite ?length_fmap; by eapply lookup_lt_Some).
      by rewrite (list_lookup_total_correct _ _ _ E).
    + simpl. symmetry. apply lookup_ge_None in E. by apply lookup_ge_None; rewrite length_insert.
  - rewrite !list_lookup_insert_ne, list_lookup_fmap by done. destruct (tasks k !! j) as [t|]; [|done]. simpl. by destruct t.
Qed.

Lemma calm_signal k p : I k -> 0 < p -> calm k (put_sys k (signal_kill (sys_of k) p SIGCHLD).1).
Proof.
  intros Hk Hp. assert (put_sys k (sys_of k) = k) as Eid.
  { destruct k. unfold put_sys, sys_of. simpl. f_equal. apply list_eq. intros j.
    rewrite lookup_zip_with, list_lookup_fmap. by destruct (_ !! j) as [[]|]. }
  unfold signal_kill. simpl. rewrite (proj2 (Z.ltb_lt 0 p)) by done.
  destruct (find_by_pid (sys_of k) p) as [i|] eqn:E; cbn [fst]; [|rewrite Eid; by apply calm_refl].
  apply find_from_Some in E as (Hi & Hm & _). rewrite put_sys_set. pose proof (slot_all i Hi) as Hs.
  assert ((sig <$> tasks k).[i] = sig (tk k i)) as Es by (apply geti_fmap; rewrite (so_tasks k (ki_ok k Hk)); done).
  simpl in *. rewrite Es in *. apply calm_set; [done..| |].
  - unfold post_signal. simpl. destruct (Z.eqb_spec (p_state (sig (tk k i))) PROC_BLOCKED) as [Eb|]; constructor; try done;
      unfold state; intros Est; rewrite Est in Eb; done.
  - unfold post_signal. simpl. unfold live, state. destruct (Z.eqb_spec (p_state (sig (tk k i))) PROC_BLOCKED); [by intros _|done].
Qed.

Lemma inv_schedule k : I k -> I (schedule k).1.
Proof.
  intros Hk. unfold schedule. destruct (negb _); [done|]. destruct (pick_next k) as [n|] eqn:E; [|done].
  case_decide; [done|]. apply pick_next_ready in E as [Hn Hs]. by apply ki_switch.
Qed.

(** [current] runs: it is neither free nor a zombie. *)
Definition running (k : kernel) (c : Z) : Prop := cur k = Some c /\ live (tk k c).

Lemma running_slot k c : I k -> running k c -> slot c.
Proof. intros Hk [Hc _]. by apply (so_cur k (ki_ok k Hk)). Qed.

Lemma calm_running k k' c : I k -> calm k k' -> running k c -> running k' c.
Proof.
  intros Hk C R. pose proof (running_slot k c Hk R). destruct R as [Hc Hl]. split; [by rewrite (cm_cur _ _ C)|by apply (cm_live _ _ C)].
Qed.

Lemma calm_block k c : I k -> running k c -> calm k (set_task k c (set_state (tk k c) PROC_BLOCKED)).
Proof. intros Hk R. apply calm_set; [done|by eapply running_slot|by apply keeps_state; [apply R|]|done]. Qed.

Lemma inv_block_resume k : I k -> I (task_block_resume k).
Proof.
  intros Hk. unfold task_block_resume. destruct (cur k) as [c|] eqn:Ec; [|done].
  destruct (Z.eqb_spec (state (tk k c)) PROC_BLOCKED) as [E|]; [|done].
  apply ki_run; [done..|by apply blocked_live|apply keeps_refl].
Qed.

Lemma inv_task_block k c : I k -> running k c -> I (task_block k).1.
Proof.
  intros Hk R. unfold task_block. rewrite (proj1 R). pose proof (inv_schedule _ (cm_inv _ _ (calm_block k c Hk R))) as Hs.
  destruct (schedule _) as [k1 []]; [by apply inv_block_resume|done].
Qed.

Lemma inv_task_sleep_start k now ms : I k -> I (task_sleep_start k now ms).1.
Proof.
  intros Hk. unfold task_sleep_start. destruct (cur k) as [c|] eqn:Ec; [|done].
  destruct (ms =? 0); [destruct (scheduler_enabled k); [by apply inv_schedule|done]|].
  apply ki_keeps; [done|by apply (so_cur k (ki_ok k Hk))|by constructor].
Qed.

Lemma inv_task_sleep_round k c now d : I k -> running k c -> I (task_sleep_round k now d).1.
Proof.
  intros Hk R. unfold task_sleep_round. rewrite (proj1 R). destruct (due now d).
  - apply ki_run; [done|apply R..|]. by constructor.
  - pose proof (inv_schedule _ (cm_inv _ _ (calm_block k c Hk R))) as Hs. by destruct (schedule _) as [k1 []].
Qed.

Lemma inv_set_priority k p : I k -> I (task_set_priority k p).
Proof.
  intros Hk. unfold task_set_priority. destruct (cur k) as [c|] eqn:Ec; [|done].
  apply ki_keeps; [done|by apply (so_cur k (ki_ok k Hk))|by constructor].
Qed.

Lemma find_pid_slot k p i : sched_find_by_pid_impl k p = Some i -> slot i /\ state (tk k i) <> PROC_FREE /\ tpid (tk k i) = p.
Proof.
  intros E. apply find_slot in E as [Hs Hm]. apply andb_true_iff in Hm as [H1 H2]. split; [done|]. split; [|by apply Z.eqb_eq].
  by apply negb_true_iff, Z.eqb_neq in H1.
Qed.

Lemma calm_wakeup now i k : I k -> slot i -> calm k (wakeup_step now i k).
Proof.
  intros Hk Hi. unfold wakeup_step. destruct (Z.eqb_spec (state (tk k i)) PROC_BLOCKED) as [E|]; [|by apply calm_refl].
  assert (calm k (set_task k i (set_state (tk k i) PROC_RUNNABLE))) as C.
  { apply calm_set; [done..|apply keeps_state; [by apply blocked_live|done]|by intros _]. }
  cbn [negb]. destruct (0 <? _).
  - destruct (sched_find_by_pid_impl _ _); [|by apply calm_refl]. destruct (_ =? PROC_ZOMBIE); [|by apply calm_refl].
    eapply calm_trans; [exact C|]. apply calm_ext; [apply C|done..|]. simpl. by autorewrite with arr.
  - destruct (_ && _); [done|by apply calm_refl].
Qed.

Lemma calm_wakeups k now : I k -> calm k (sched_check_wakeups k now).
Proof. intros Hk. apply calm_for_each; [done|]. intros. by apply calm_wakeup. Qed.

Lemma calm_unblock_pid k p : I k -> calm k (task_unblock_pid k p).
Proof.
  intros Hk. unfold task_unblock_pid. destruct (sched_find_by_pid_impl k p) as [i|] eqn:E; [|by apply calm_refl].
  apply find_pid_slot in E as [Hs _]. by apply calm_unblock.
Qed.

Lemma calm_notify k c : I k -> calm k (notify_parent k c).
Proof.
  intros Hk. unfold notify_parent. destruct (Z.ltb_spec 0 (parent_pid (tk k c))); [by apply calm_signal|by apply calm_refl].
Qed.

(** The part of [proc_exit] before the process turns into a zombie. *)
Lemma calm_exit k c : I k -> slot c -> let k1 := fd_table_close_all k c in
  calm k (notify_parent (for_each (reparent_step (tpid (tk k1 c))) all_slots 0 k1) c).
Proof.
  intros Hk Hc. cbv zeta. pose proof (calm_close_all c k Hk Hc) as C1. revert C1. generalize (fd_table_close_all k c). intros k1 C1.
  pose proof (calm_for_each (reparent_step (tpid (tk k1 c))) all_slots 0 k1 (cm_inv _ _ C1)
    (fun j t Hj Ht => calm_reparent (tpid (tk k1 c)) j t Ht (slot_all j Hj))) as C2.
  revert C2. generalize (for_each (reparent_step (tpid (tk k1 c))) all_slots 0 k1). intros k2 C2.
  eapply calm_trans; [exact C1|]. eapply calm_trans; [exact C2|]. apply calm_notify, C2.
Qed.

Lemma inv_proc_exit k c status : I k -> running k c -> I (proc_exit k status).1.
Proof.
  intros Hk R. pose proof (running_slot k c Hk R) as Hc. unfold proc_exit. rewrite (proj1 R).
  pose proof (calm_exit k c Hk Hc) as C. cbv zeta in C |- *. revert C.
  generalize (notify_parent (for_each (reparent_step (tpid (tk (fd_table_close_all k c) c))) all_slots 0 (fd_table_close_all k c)) c).
  intros k1 C. pose proof (calm_running k k1 c Hk C R) as R1. apply inv_schedule, calm_unblock_pid.
  apply ki_keeps; [apply C|done|]. eapply (keeps_trans _ (set_exit (tk k1 c) status true)); [by constructor|].
  apply keeps_state; [apply R1|done].
Qed.

Lemma inv_collect k c i : I k -> running k c -> slot i -> state (tk k i) = PROC_ZOMBIE -> parent_pid (tk k i) = tpid (tk k c) ->
  I (collect k i).1.1.
Proof.
  intros Hk R Hi Hz Hp. unfold collect. cbn [fst]. pose proof (calm_reap i k Hk Hi) as C. revert C.
  generalize (proc_reap k i). intros k1 C. pose proof (calm_running k k1 c Hk C R) as R1.
  destruct (kp_zombie _ _ (cm_keeps _ _ C i Hi) Hz) as [Hz1 Hp1].
  apply (ki_collect k1 c i); try done; [apply C|apply R1|apply R1| |].
  - rewrite Hp1, Hp. symmetry. apply (cm_keeps _ _ C). by eapply running_slot.
  - apply (so_task k1); [|done]. apply (ki_ok k1), C.
Qed.

Lemma inv_proc_wait k c p : I k -> running k c -> I (proc_wait k p).1.1.
Proof.
  intros Hk R. unfold proc_wait. rewrite (proj1 R). destruct (find_from _ _ _) as [i|] eqn:E; [|done].
  apply find_slot in E as [Hi Hm]. apply andb_true_iff in Hm as [_ Hp]. apply Z.eqb_eq in Hp.
  destruct (Z.eqb_spec (state (tk k i)) PROC_ZOMBIE); [|done]. by apply (inv_collect k c).
Qed.

Lemma inv_wait_resume k c p : I k -> running k c -> I (proc_wait_resume k p).1.
Proof.
  intros Hk R. unfold proc_wait_resume. rewrite (proj1 R).
  assert (I (set_wait_target k c 0)) as Hk1 by (apply (ki_ext k); try done; simpl; by autorewrite with arr).
  pose proof (inv_proc_wait (set_wait_target k c 0) c p Hk1 R) as Hw. by destruct (proc_wait _ _) as [[k1 v] st].
Qed.

Lemma wait_scan_stop k me p i : for_loop (wait_scan_step k me p) all_slots 0 false = Stop i ->
  slot i /\ state (tk k i) = PROC_ZOMBIE /\ parent_pid (tk k i) = me.
Proof.
  intros E. pose proof (for_loop_ind (wait_scan_step k me p) (fun _ _ => True)
    (fun i => slot i /\ state (tk k i) = PROC_ZOMBIE /\ parent_pid (tk k i) = me) all_slots 0 false Logic.I) as L.
  rewrite E in L. apply L. intros j t Hj _. unfold wait_scan_step.
  destruct (Z.eqb_spec (parent_pid (tk k j)) me); [|done]. destruct (_ && _); [done|].
  destruct (Z.eqb_spec (state (tk k j)) PROC_ZOMBIE); [done|]. by destruct (negb _).
Qed.

Lemma inv_wait_blocking k c p : I k -> running k c -> I (proc_wait_blocking k p).1.
Proof.
  intros Hk R. unfold proc_wait_blocking. rewrite (proj1 R).
  destruct (for_loop _ _ _ _) as [[]|i] eqn:E; [|done|].
  - set (k1 := set_wait_target _ _ _).
    assert (calm k k1) as C1.
    { eapply calm_trans; [by apply (calm_block k c)|]. apply calm_ext; [by apply (calm_block k c)|done..|]. simpl. by autorewrite with arr. }
    pose proof (calm_running k k1 c Hk C1 R) as R1. clearbody k1.
    pose proof (inv_schedule k1 (cm_inv _ _ C1)) as Hs. unfold schedule in *. destruct (negb _); [by eapply inv_wait_resume; [apply C1|]|].
    destruct (pick_next k1); [|by eapply inv_wait_resume; [apply C1|]]. case_decide; [by eapply inv_wait_resume; [apply C1|]|done].
  - apply wait_scan_stop in E as (Hi & Hz & Hp). pose proof (inv_collect k c i Hk R Hi Hz Hp) as Hc.
    by destruct (collect k i) as [[k1 v] st].
Qed.

(** A free slot given to a fresh task. *)
Lemma inv_alloc k k1 i t : I k -> find_free_proc k = (k1, Some i) ->
  tpid t = next_pid k1 -> task_ok t -> state t = PROC_RUNNABLE ->
  slot i /\ I k1 /\ cur k1 = cur k /\ I (set_task (set_next_pid k1 (next_pid k1 + 1)) i t).
Proof.
  intros Hk E Hp Hok Hst. unfold find_free_proc in E. destruct (find_from _ _ _) as [j|] eqn:Ef; [|done]. injection E as <- ->.
  apply find_slot in Ef as [Hi Hs]. apply Z.eqb_eq in Hs. set (k1 := set_task k i _) in *.
  assert (I k1) as Hk1 by (apply ki_keeps; [done..|by constructor]). split; [done|]. split; [done|]. split; [done|].
  apply ki_fresh; try done. unfold k1. rewrite tk_set_eq by (try done; apply so_tasks, (ki_ok k Hk)). done.
Qed.

Lemma find_free_none k k1 : find_free_proc k = (k1, None) -> k1 = k.
Proof. unfold find_free_proc. destruct (find_from _ _ _); [done|]. by intros [= <-]. Qed.

Lemma inv_finish k i t : I k -> slot i -> state (tk k i) = PROC_RUNNABLE -> tpid t = tpid (tk k i) -> task_ok t ->
  state t = PROC_RUNNABLE \/ state t = PROC_FREE -> I (set_task k i t).
Proof.
  intros Hk Hi Hs Hp Hok Ht. apply ki_keeps; [done..|]. constructor; try done.
  - intros E. rewrite E in Ht. by destruct Ht.
  - intros E. by rewrite E in Hs.
  - intros E. by rewrite E in Hs.
Qed.

Lemma fresh_ok p parent nm : task_ok (fresh_task p parent nm).
Proof. done. Qed.

Lemma fd_table_init_ok t : task_ok t -> task_ok (fd_table_init t).
Proof. by intros [_ H2]. Qed.

Lemma len_copy_fds (src : list fd_entry) n i l : len (for_each (fun i l => l.[i <- src.[i]]) n i l) = len l.
Proof.
  revert i l. induction n as [|n IH]; intros i l; simpl; [done|]. rewrite IH. by autorewrite with arr.
Qed.

Lemma fd_table_copy_ok p t : task_ok t -> task_ok (fd_table_copy p t).
Proof. intros [H1 H2]. split; [|done]. unfold fd_table_copy. cbn [fds set_fds]. by rewrite len_copy_fds. Qed.

Lemma inv_proc_create k nm data : I k -> I (proc_create k nm data).1.
Proof.
  intros Hk. unfold proc_create. destruct (find_free_proc k) as [k1 [i|]] eqn:E; [|by rewrite (find_free_none _ _ E)].
  unfold sched_alloc_pid. set (t := fresh_task _ _ nm).
  destruct (inv_alloc k k1 i t Hk E) as (Hi & Hk1 & _ & Hk2); [done..|].
  revert Hk2. set (k2 := set_task _ i t). intros Hk2.
  assert (tk k2 i = t) as Et by (apply tk_set_eq; [apply (so_tasks k1), ki_ok, Hk1|done]).
  destruct (elf_load (mach k2) data) as [m r]. assert (I (set_mach k2 m)) as Hk3 by by apply (ki_ext k2).
  destruct r as [[[entry pml] stack]|].
  2: { apply inv_finish; [done|done|change (tk _ i) with (tk k2 i); by rewrite Et|done| |by right].
       change (task_ok (set_state (tk k2 i) PROC_FREE)). by rewrite Et. }
  destruct (kmalloc (mach (set_mach k2 m)) KSTACK) as [m' ks].
  assert (I (set_mach (set_mach k2 m) m')) as Hk4 by by apply (ki_ext (set_mach k2 m)).
  change (tk (set_mach (set_mach k2 m) m') i) with (tk k2 i). rewrite Et. destruct (ks =? 0); cbn [fst].
  - set (k5 := set_task _ i (set_spc t _)). assert (I k5) as Hk5.
    { apply inv_finish; try done; [change (tk _ i) with (tk k2 i); by rewrite Et..|by left]. }
    assert (tk k5 i = set_spc t (mkSpace pml 0 0 entry stack STACK_BOTTOM)) as Et5.
    { apply tk_set_eq; [|done]. apply (so_tasks (set_mach (set_mach k2 m) m')), ki_ok, Hk4. }
    apply inv_finish; [by apply (ki_ext k5)|done|change (tk _ i) with (tk k5 i); by rewrite Et5..|by right].
  - apply inv_finish; try done; [change (tk _ i) with (tk k2 i); by rewrite Et..|by left].
Qed.

Lemma inherit_ok parent child : task_ok parent -> task_ok child -> task_ok (inherit parent child).
Proof. by intros [] []. Qed.

Lemma inv_proc_fork k g : I k -> I (proc_fork k g).1.
Proof.
  intros Hk. unfold proc_fork. destruct (cur k) as [c|] eqn:Ec; [|done].
  destruct (find_free_proc k) as [k1 [i|]] eqn:E; [|by rewrite (find_free_none _ _ E)].
  unfold sched_alloc_pid. change (tk (set_next_pid k1 (next_pid k1 + 1)) c) with (tk k1 c). set (parent := tk k1 c).
  set (t := inherit parent _).
  assert (I k1 /\ slot c) as [Hk1 Hc].
  { split; [by apply (inv_alloc k k1 i (fresh_task (next_pid k1) 0 []) Hk E)|]. apply (so_cur k (ki_ok k Hk) c Ec). }
  assert (task_ok t) as Hok by (apply inherit_ok; [by apply so_task; [apply ki_ok|]|done]).
  destruct (inv_alloc k k1 i t Hk E) as (Hi & _ & _ & Hk2); [done..|].
  revert Hk2. set (k2 := set_task _ i t). intros Hk2.
  assert (tk k2 i = t) as Et by (apply tk_set_eq; [apply (so_tasks k1), ki_ok, Hk1|done]).
  unfold create_proc_pml4. destruct (create_user_address_space (mach k2)) as [m a].
  assert (I (set_mach k2 m)) as Hk3 by by apply (ki_ext k2). destruct (a =? 0).
  { apply inv_finish; [done|done|change (tk _ i) with (tk k2 i); by rewrite Et|done| |by right].
    change (task_ok (set_state (tk k2 i) PROC_FREE)). by rewrite Et. }
  set (k4 := set_mach (set_mach k2 m) _). assert (I k4) as Hk4 by by apply (ki_ext (set_mach k2 m)).
  destruct (kmalloc (mach k4) KSTACK) as [m' ks]. assert (I (set_mach k4 m')) as Hk5 by by apply (ki_ext k4).
  change (tk (set_mach k4 m') i) with (tk k2 i). rewrite Et. destruct (ks =? 0); cbn [fst].
  - set (k6 := set_task _ i (set_spc t _)). assert (I k6) as Hk6.
    { apply inv_finish; try done; [change (tk _ i) with (tk k2 i); by rewrite Et..|by left]. }
    assert (tk k6 i = set_spc t (mkSpace a 0 0 0 0 (stack_bottom (spc parent)))) as Et6.
    { apply tk_set_eq; [|done]. apply (so_tasks (set_mach k4 m')), ki_ok, Hk5. }
    apply inv_finish; [by apply (ki_ext k6)|done|change (tk _ i) with (tk k6 i); by rewrite Et6..|by right].
  - apply inv_finish; [done..|change (tk _ i) with (tk k2 i); by rewrite Et|change (tk _ i) with (tk k2 i); by rewrite Et| |by left].
    by apply fd_table_copy_ok.
Qed.

Lemma inv_kill k p status : I k -> I (sched_kill_and_unload k p status).
Proof.
  intros Hk. unfold sched_kill_and_unload. destruct (sched_find_by_pid_impl k p) as [i|] eqn:E; [|done].
  apply find_pid_slot in E as (Hi & Hf & _). apply ki_keeps; [done..|]. constructor; try done.
Qed.

Lemma inv_set_linux k l : I k -> I (proc_set_linux_process k l).
Proof.
  intros Hk. unfold proc_set_linux_process. destruct (cur k) as [c|] eqn:Ec; [|done].
  apply ki_keeps; [done|by apply (so_cur k (ki_ok k Hk))|by constructor].
Qed.

Lemma inv_set_ctid k p a : I k -> I (sched_set_clear_child_tid k p a).
Proof.
  intros Hk. unfold sched_set_clear_child_tid. destruct (sched_find_by_pid_impl k p) as [i|] eqn:E; [|done].
  apply find_pid_slot in E as (Hi & _). apply ki_keeps; [done..|by constructor].
Qed.

Lemma inv_tick k now : I k -> I (sched_tick k now).
Proof. intros Hk. unfold sched_tick. destruct (scheduler_enabled k); [|done]. by apply inv_schedule, calm_wakeups. Qed.

Lemma inv_yield k : I k -> I (sched_yield k).
Proof. intros Hk. unfold sched_yield. destruct (scheduler_enabled k); [|done]. by apply inv_schedule. Qed.

End operations.

(** ** Runs *)

(** The calls of scheduler.c; [CResume] calls continue a function after the
    [schedule()] that switched away from its process. *)
Inductive call :=
| CCreate (nm elf_data : list Z)
| CFork (g : user_regs)
| CExit (status : Z)
| CWait (p : Z)
| CWaitBlocking (p : Z)
| CWaitResume (p : Z)
| CBlock
| CBlockResume
| CUnblock (i : option Z)
| CUnblockPid (p : Z)
| CSleepStart (now ms : Z)
| CSleepRound (now deadline : Z)
| CSetPriority (p : Z)
| CSetLinux (l : bool)
| CSetChildTid (p a : Z)
| CKill (p status : Z)
| CTick (now : Z)
| CYield.

Definition exec (k : kernel) (c : call) : kernel :=
  match c with
  | CCreate nm d => (proc_create k nm d).1
  | CFork g => (proc_fork k g).1
  | CExit st => (proc_exit k st).1
  | CWait p => (proc_wait k p).1.1
  | CWaitBlocking p => (proc_wait_blocking k p).1
  | CWaitResume p => (proc_wait_resume k p).1
  | CBlock => (task_block k).1
  | CBlockResume => task_block_resume k
  | CUnblock i => task_unblock k i
  | CUnblockPid p => task_unblock_pid k p
  | CSleepStart now ms => (task_sleep_start k now ms).1
  | CSleepRound now d => (task_sleep_round k now d).1
  | CSetPriority p => task_set_priority k p
  | CSetLinux l => proc_set_linux_process k l
  | CSetChildTid p a => sched_set_clear_child_tid k p a
  | CKill p st => sched_kill_and_unload k p st
  | CTick now => sched_tick k now
  | CYield => sched_yield k
  end.

(** Calls a process makes for itself are made by a live current process; slots
    passed to [task_unblock] are slots. *)
Definition call_ok (k : kernel) (c : call) : Prop :=
  match c with
  | CExit _ | CWait _ | CWaitBlocking _ | CWaitResume _ | CBlock | CSleepRound _ _ => exists i, running k i
  | CUnblock (Some i) => slot i
  | _ => True
  end.

Lemma exec_inv I `{!KernelInv I} k c : I k -> call_ok k c -> I (exec k c).
Proof.
  intros Hk Hok. destruct c as [| |st|p|p|p| |i|i|p| |now d|p|l|p a|p st|now|]; simpl in *; try destruct Hok as [i' R].
  - by apply inv_proc_create.
  - by apply inv_proc_fork.
  - by eapply inv_proc_exit.
  - by eapply inv_proc_wait.
  - by eapply inv_wait_blocking.
  - by eapply inv_wait_resume.
  - by eapply inv_task_block.
  - by apply inv_block_resume.
  - destruct i; [|done]. by apply (calm_unblock I).
  - by apply (calm_unblock_pid I).
  - by apply inv_task_sleep_start.
  - by eapply inv_task_sleep_round.
  - by apply inv_set_priority.
  - by apply inv_set_linux.
  - by apply inv_set_ctid.
  - by apply inv_kill.
  - by apply inv_tick.
  - by apply inv_yield.
Qed.


Fixpoint runs (k : kernel) (cs : list call) : Prop :=
  match cs with [] => True | c :: rest => call_ok k c /\ runs (exec k c) rest end.

Lemma runs_inv I `{!KernelInv I} cs : forall k, I k -> runs k cs -> I (fold_left exec cs k).
Proof.
  induction cs as [|c cs IH]; intros k Hk; [done|]. intros [Hc Hr]. apply IH; [|done]. by apply exec_inv.
Qed.

Lemma sched_init_ok k : sched_ok (sched_init k).
Proof.
  assert (forall i, slot i -> tk (sched_init k) i = zero_task) as E by (intros i Hi; apply geti_replicate; exact Hi).
  assert (forall i, slot i -> state (tk (sched_init k) i) = PROC_FREE) as Ef by (intros i Hi; by rewrite E).
  constructor; [done|done|done|..].
  - intros i Hi. by rewrite E.
  - intros i Hi []. by apply Ef.
  - done.
  - intros i j Hi Hj []. by apply Ef.
  - intros i Hi. by rewrite Ef.
Qed.

Lemma proc_create_post k nm data k' p : sched_ok k -> proc_create k nm data = (k', p) -> 0 <= p ->
  cur k' = cur k /\ exists i, slot i /\ state (tk k' i) = PROC_RUNNABLE /\ tpid (tk k' i) = p.
Proof.
  intros Hk. unfold proc_create. destruct (find_free_proc k) as [k1 [i|]] eqn:E; [|intros [= <- <-]; lia].
  unfold sched_alloc_pid. set (t := fresh_task _ _ nm).
  destruct (inv_alloc sched_ok k k1 i t Hk E) as (Hi & Hk1 & Ec & Hk2); [done..|].
  revert Hk2. set (k2 := set_task _ i t). intros Hk2.
  assert (tk k2 i = t) as Et by (apply tk_set_eq; [apply (so_tasks k1), Hk1|done]).
  destruct (elf_load (mach k2) data) as [m r]. destruct r as [[[entry pml] stack]|]; [|intros [= <- <-]; lia].
  destruct (kmalloc _ KSTACK) as [m' ks]. destruct (ks =? 0); [intros [= <- <-]; lia|]. intros [= <- <-] _.
  split; [done|]. exists i. split; [done|]. rewrite tk_set_eq by (try done; apply (so_tasks k2), Hk2).
  change (tk _ i) with (tk k2 i). by rewrite Et.
Qed.

Lemma sched_start_ok k0 nm data k1 c : sched_start_first (sched_init k0) nm data = (k1, Some c) -> sched_ok k1.
Proof.
  unfold sched_start_first.
  pose proof (inv_proc_create sched_ok (sched_init k0) nm data (sched_init_ok k0)) as Hk.
  destruct (proc_create (sched_init k0) nm data) as [k p] eqn:Ep. cbn [fst] in Hk.
  destruct (Z.ltb_spec p 0); [done|]. destruct (proc_create_post _ _ _ _ _ (sched_init_ok k0) Ep) as (Ec & j & Hj & Hjs & Hjp); [done|].
  destruct (sched_find_by_pid_impl k p) as [i|] eqn:Ef; [|done]. apply find_pid_slot in Ef as (Hi & Hif & Hip).
  assert (i = j) as -> by (apply (so_inj k Hk); try done; [by rewrite Hjs|congruence]).
  assert (sched_ok (set_cur k (Some j))) as Hk1.
  { destruct Hk as [T W C K P N J R]. constructor; try done; [by intros ? [= <-]|]. intros a Ha Hra.
    specialize (R a Ha Hra). by rewrite Ec in R. }
  intros [= <- <-]. set (k2 := sched_enable _). assert (sched_ok k2) as Hk2.
  { apply (ki_ext (set_task (set_cur k (Some j)) j (set_state (tk k j) PROC_RUNNING))); try done.
    apply ki_run; [done|done| |apply keeps_refl]. change (tk (set_cur k (Some j)) j) with (tk k j). by eapply running_live. }
  pose proof (calm_free_kstack sched_ok k2 (spc (tk k2 j)) Hk2) as C.
  apply ki_keeps; [apply C|done|]. assert (tk (free_kstack k2 (spc (tk k2 j))) j = tk k2 j) as ->; [|by constructor].
  unfold free_kstack. by case_match.
Qed.

(** C15: From boot on, over any sequence of calls in any order, the process
    table stays well formed: processes that are not free have pids of their own
    below [next_pid], no process but the current one is RUNNING, and every
    descriptor and signal table keeps its size. *)
Theorem sched_reachable k0 nm data k1 c cs :
  sched_start_first (sched_init k0) nm data = (k1, Some c) -> runs k1 cs -> sched_ok (fold_left exec cs k1).
Proof. intros E Hr. apply runs_inv; [apply _|by eapply sched_start_ok|done]. Qed.

(** ** Switching between ready tasks *)

Lemma switch_spec k n : sched_ok k -> slot n -> state (tk k n) = PROC_RUNNABLE ->
  cur (switch_to k n) = Some n /\ scheduler_enabled (switch_to k n) = scheduler_enabled k /\
  forall i, slot i ->
    priority (tk (switch_to k n) i) = priority (tk k i) /\
    state (tk (switch_to k n) i) =
      if decide (i = n) then PROC_RUNNING else if state (tk k i) =? PROC_RUNNING then PROC_RUNNABLE else state (tk k i).
Proof.
  intros Hk Hn Hst. pose proof (so_tasks k Hk) as HT. unfold switch_to. set (k1 := match cur k with Some c => _ | None => _ end).
  assert (len (tasks k1) = MAX_PROCS /\ scheduler_enabled k1 = scheduler_enabled k /\ forall i, slot i ->
    priority (tk k1 i) = priority (tk k i) /\
    state (tk k1 i) = if state (tk k i) =? PROC_RUNNING then PROC_RUNNABLE else state (tk k i)) as (HT1 & He & H1).
  { assert (forall i, slot i -> cur k <> Some i -> (state (tk k i) =? PROC_RUNNING) = false) as Hother.
    { intros i Hi Hne. apply Z.eqb_neq. intros E. by apply Hne, (so_run k Hk). }
    unfold k1. destruct (cur k) as [c|] eqn:Ec.
    2: { split; [done|]. split; [done|]. intros i Hi. by rewrite Hother. }
    pose proof (so_cur k Hk c Ec) as Hc. destruct (Z.eqb_spec (state (tk k c)) PROC_RUNNING) as [E|E].
    - split; [simpl; by autorewrite with arr|]. split; [done|]. intros i Hi. rewrite tk_set by done. case_decide; subst.
      + by rewrite E.
      + by rewrite Hother by congruence.
    - split; [done|]. split; [done|]. intros i Hi. destruct (decide (i = c)) as [->|]; [by rewrite (proj2 (Z.eqb_neq _ _) E)|].
      by rewrite Hother by congruence. }
  clearbody k1. split; [done|]. split; [done|]. intros i Hi. rewrite tk_set by done. change (tk (set_cur k1 (Some n)) n) with (tk k1 n).
  change (tk (set_cur k1 (Some n)) i) with (tk k1 i). destruct (H1 i Hi) as [Hp Hs]. case_decide; subst.
  - by rewrite decide_True.
  - by rewrite decide_False.
Qed.

Definition next (k : kernel) : kernel := (schedule k).1.

(** The scheduler runs [c]. *)
Record scheduling (k : kernel) (c : Z) : Prop := {
  sg_ok : sched_ok k;
  sg_on : scheduler_enabled k = true;
  sg_cur : cur k = Some c;
  sg_run : state (tk k c) = PROC_RUNNING;
}.

Lemma next_spec k c n : scheduling k c -> pick_next k = Some n ->
  n <> c /\ scheduling (next k) n /\
  forall i, slot i -> priority (tk (next k) i) = priority (tk k i) /\
    state (tk (next k) i) = if decide (i = n) then PROC_RUNNING else if decide (i = c) then PROC_RUNNABLE else state (tk k i).
Proof.
  intros [O E C R] Hp. destruct (pick_next_ready k n Hp) as [Hn Hst].
  assert (n <> c) as Hne by (intros ->; by rewrite R in Hst). split; [done|].
  destruct (switch_spec k n O Hn Hst) as (Hc & He & Hs).
  assert (next k = switch_to k n) as ->.
  { unfold next, schedule. rewrite E, Hp, C. simpl. by rewrite decide_False by congruence. }
  split.
  - constructor; [by apply ki_switch|by rewrite He|done|]. destruct (Hs n Hn) as [_ ->]. by rewrite decide_True.
  - intros i Hi. destruct (Hs i Hi) as [-> ->]. split; [done|]. repeat case_decide; subst; try done.
    + by rewrite R.
    + destruct (Z.eqb_spec (state (tk k i)) PROC_RUNNING) as [Ei|]; [|done].
      pose proof (so_run k O i Hi Ei). congruence.
Qed.

Lemma ready_state k i : ready k i = true <-> state (tk k i) = PROC_RUNNABLE.
Proof. apply Z.eqb_eq. Qed.

(** C14: Equal priorities are served in turn.  When the scheduler runs and all
    tasks that can run have the same priority, every ready task is the current
    one after at most 32 switches. *)
Theorem round_robin_fair k c p i :
  scheduling k c -> (forall j, slot j -> ready k j = true \/ j = c -> priority (tk k j) = p) ->
  slot i -> ready k i = true -> exists n, (n <= 32)%nat /\ cur (Nat.iter n next k) = Some i.
Proof.
  intros Hk Hp Hi Hr. assert (exists n, Z.of_nat n <= place k i + 1 /\ cur (Nat.iter n next k) = Some i) as (n & Hn & H').
  2: { exists n. split; [|done]. destruct (nth_place k i Hi). unfold MAX_PROCS in *. lia. }
  remember (Z.to_nat (place k i)) as d eqn:Ed. revert k c Hk Hp Hr Ed. induction (lt_wf d) as [d _ IH]. intros k c Hk Hp Hr ->.
  destruct (nth_place k i Hi) as [Hpl Epl].
  destruct (pick_next k) as [n|] eqn:En.
  2: { pose proof (pick_next_inv k) as P. rewrite En in P. specialize (P _ Hpl). by rewrite Epl, Hr in P. }
  destruct (proj1 (pick_next_iff k n) En) as (Hn & Hrn & Hbest). destruct (next_spec k c n Hk En) as (Hne & Hk' & Hs).
  destruct (decide (i = n)) as [->|Hin].
  { exists 1%nat. split; [lia|]. exact (sg_cur _ _ Hk'). }
  assert (place k n <= place k i) as Hle.
  { destruct (Hbest i Hi Hr) as [Hlt|[_ ?]]; [|done]. rewrite !Hp in Hlt by auto. lia. }
  assert (place (next k) i = place k i - place k n - 1) as Epl'.
  { destruct (nth_place k n Hn) as [Hpn Epn]. unfold place, nth_slot in *.
    assert (start_slot (next k) = n + 1) as -> by (unfold start_slot; by rewrite (sg_cur _ _ Hk')).
    set (st := start_slot k) in *. unfold slot, MAX_PROCS in *.
    assert ((n - st) mod 32 <> (i - st) mod 32) by (intros E; apply Hin; zlia). zlia. }
  destruct (nth_place (next k) i Hi) as [Hpl' _]. destruct (nth_place k n Hn) as [Hpln _].
  destruct (IH (Z.to_nat (place (next k) i)) ltac:(lia) (next k) n Hk') as (m & Hm & Hcur); [..|done|].
  - intros j Hj Hor. destruct (Hs j Hj) as [-> Hst]. apply Hp; [done|]. destruct Hor as [Hrj| ->]; [|by left].
    rewrite ready_state, Hst in Hrj. repeat case_decide; subst; [done|by right|left; by apply ready_state].
  - rewrite ready_state. destruct (Hs i Hi) as [_ ->]. rewrite decide_False by done. apply ready_state in Hr.
    case_decide; [done|done].
  - exists (S m). split; [lia|]. by rewrite Nat.iter_succ_r.
Qed.

(** But not between three tasks of two priorities.  [pick_next] never
    considers the running task, so with a task [a] and two tasks [b] and [c] of
    a common weaker priority the scheduler alternates between [a] and the first
    of the two: [c], as important as [b] and always ready, never runs. *)
Theorem tie_starves k a b c n :
  scheduling k a -> slot a -> slot b -> slot c -> a <> b -> a <> c -> b <> c ->
  (forall i, slot i -> ready k i = true <-> i = b \/ i = c) ->
  priority (tk k a) < priority (tk k b) -> priority (tk k b) = priority (tk k c) -> place k b < place k c ->
  cur (Nat.iter n next k) = Some (if Nat.even n then a else b).
Proof.
  intros Hk Ha Hb Hc Hab Hac Hbc Hr Hpa Hpc Hpl.
  assert (forall m, let k' := Nat.iter m next k in let r := if Nat.even m then a else b in
    scheduling k' r /\ (forall i, slot i -> priority (tk k' i) = priority (tk k i)) /\
    (forall i, slot i -> ready k' i = true <-> (i = (if Nat.even m then b else a) \/ i = c))) as HI.
  2: { apply (sg_cur _ _ (proj1 (HI n))). }
  assert (forall k', cur k' = Some a -> place k' b < place k' c) as Hpl'.
  { intros k' E'. unfold place, start_slot in *. rewrite E'. by rewrite (sg_cur _ _ Hk) in Hpl. }
  induction m as [|m IH]; [by split|]. cbv zeta in *. rewrite Nat.iter_succ, Nat.even_succ, <- Nat.negb_even.
  revert IH. generalize (Nat.iter m next k). intros k' (Hk' & Hp' & Hr').
  assert (pick_next k' = Some (if Nat.even m then b else a)) as En.
  { apply pick_next_iff. destruct (Nat.even m).
    - split; [done|]. split; [by apply Hr'; [|left]|]. intros i Hi Hri%Hr'; [|done]. destruct Hri as [->| ->]; [right; split; [done|lia]|].
      right. rewrite !Hp' by done. split; [done|]. pose proof (Hpl' k' (sg_cur _ _ Hk')). lia.
    - split; [done|]. split; [by apply Hr'; [|left]|]. intros i Hi Hri%Hr'; [|done]. destruct Hri as [->| ->]; [right; split; [done|lia]|].
      left. rewrite !Hp' by done. lia. }
  destruct (next_spec _ _ _ Hk' En) as (_ & Hk2 & Hs). split_and!.
  - by destruct (Nat.even m).
  - intros i Hi. destruct (Hs i Hi) as [-> _]. by apply Hp'.
  - intros i Hi. rewrite ready_state. destruct (Hs i Hi) as [_ ->]. pose proof (Hr' i Hi) as Hri. rewrite ready_state in Hri.
    destruct (Nat.even m); simpl negb; cbv iota in *; repeat case_decide; subst; split; try done; try (by intros; left);
      try (by intros [?|?]); try (intros Hx%Hri; by destruct Hx as [?|?]; [|right]); intros [?|?]; try done; by apply Hri; right.
Qed.

(** ** Fork *)

(** The fields of the child. *)
Record child_of (k : kernel) (g : user_regs) (c p : Z) (t : task) : Prop := {
  ch_pid : tpid t = p /\ parent_pid t = tpid (tk k c) /\ state t = PROC_RUNNABLE;
  ch_regs : saved_state (sig t) = Some (fork_cpu g);
  ch_sigs : sigactions (sig t) = sigactions (sig (tk k c)) /\ signal_pending (sig t) = 0 /\ in_signal_handler (sig t) = false;
  ch_fds : fds t = fds (tk k c);
  ch_img : let pi := img (tk k c) in
    img t = mkImage (take 31 (name pi)) (fs_base pi) (is_linux_process pi) (exe_path pi) (brk pi) (brk_base pi)
              (mmap_next_addr pi) (cwd pi) (root pi) (umask pi) 0 0;
  ch_prio : priority t = priority (tk k c);
}.

Lemma copy_all_fds (src l : list fd_entry) : len src = MAX_FD_PER_PROC -> len l = MAX_FD_PER_PROC ->
  for_each (fun i l => l.[i <- src.[i]]) (Z.to_nat MAX_FD_PER_PROC) 0 l = src.
Proof.
  intros Hs Hl.
  assert (let l' := for_each (fun i l => l.[i <- src.[i]]) (Z.to_nat MAX_FD_PER_PROC) 0 l in
    len l' = MAX_FD_PER_PROC /\ forall i, 0 <= i < 0 + Z.of_nat (Z.to_nat MAX_FD_PER_PROC) -> l'.[i] = src.[i]) as [L E].
  { apply (for_each_ind _ (fun n l' => len l' = MAX_FD_PER_PROC /\ forall i, 0 <= i < n -> l'.[i] = src.[i])).
    - split; [done|lia].
    - intros j l' Hj [L E]. split; [by autorewrite with arr|]. intros i Hi.
      assert (j < MAX_FD_PER_PROC) by (unfold MAX_FD_PER_PROC in *; lia).
      rewrite geti_seti by lia. case_decide; [by subst|]. apply E. lia. }
  apply list_ext_geti; [by rewrite L, Hs|]. intros i Hi. apply E. rewrite L in Hi. unfold MAX_FD_PER_PROC in *. lia.
Qed.

Lemma proc_fork_spec k c g k' p :
  sched_ok k -> running k c -> proc_fork k g = (k', p) -> 0 < p ->
  exists i, slot i /\ i <> c /\ state (tk k i) = PROC_FREE /\ p = next_pid k /\ child_of k g c p (tk k' i) /\
    (forall j, slot j -> j <> i -> tk k' j = tk k j) /\ cur k' = cur k /\ kpipes k' = kpipes k.
Proof.
  intros Hk R. pose proof (running_slot sched_ok k c Hk R) as Hc. unfold proc_fork. rewrite (proj1 R).
  unfold find_free_proc. destruct (find_from _ _ _) as [i|] eqn:E; [|intros [= <- <-]; lia].
  apply find_slot in E as [Hi Hf]. apply Z.eqb_eq in Hf.
  assert (i <> c) as Hic by (intros ->; by destruct R as [_ [? _]]).
  set (k1 := set_task k i _). assert (tk k1 c = tk k c) as Ec by (by apply tk_set_ne; [apply so_tasks|..]).
  assert (len (tasks k1) = MAX_PROCS) as HT by (simpl; autorewrite with arr; by apply so_tasks).
  assert (forall j, slot j -> j <> i -> tk k1 j = tk k j) as H1 by (intros; apply tk_set_ne; [by apply so_tasks|done..|congruence]).
  assert (cur k1 = cur k /\ kpipes k1 = kpipes k /\ next_pid k1 = next_pid k) as (Ecur & Epipes & Enext) by done. clearbody k1.
  unfold sched_alloc_pid, create_proc_pml4. change (tk (set_next_pid k1 (next_pid k1 + 1)) c) with (tk k1 c). rewrite Ec.
  set (t := inherit (tk k c) _). set (k2 := set_task (set_next_pid k1 (next_pid k1 + 1)) i t).
  destruct (create_user_address_space (mach k2)) as [m a]. destruct (a =? 0); [intros [= <- <-]; lia|].
  set (k4 := set_mach (set_mach k2 m) _). destruct (kmalloc (mach k4) KSTACK) as [m' ks].
  destruct (ks =? 0); [intros [= <- <-]; lia|]. intros [= <- <-] _.
  change (tk (set_mach k4 m') i) with (tk (set_task k1 i t) i). rewrite tk_set_eq by done.
  exists i. split; [done|]. split; [done|]. split; [done|]. split; [done|].
  assert (len (tasks (set_mach k4 m')) = MAX_PROCS) as HT4 by (simpl; by autorewrite with arr).
  split; [|split; [|split; [by rewrite <- (proj1 R)|exact Epipes]]].
  - rewrite tk_set_eq by done. constructor; try done.
    unfold fd_table_copy. cbn [fds set_fds]. apply copy_all_fds; [by apply so_task|done].
  - intros j Hj Hne. rewrite tk_set_ne by (done || congruence). change (tk (set_mach k4 m') j) with (tk (set_task k1 i t) j).
    rewrite tk_set_ne by (done || congruence). by apply H1.
Qed.

(** C16: [proc_fork] makes a copy of the caller in a free slot and changes no
    other process: a fresh pid, the caller's pid as parent, its descriptors,
    signal actions, directories, heap bounds, priority and name, no pending
    signal, the registers of the system call with result 0.  But the user and
    group of the child are root whatever the caller's are. *)
Theorem proc_fork_copies k c g k' p :
  sched_ok k -> running k c -> proc_fork k g = (k', p) -> 0 < p ->
  exists i, slot i /\ i <> c /\ state (tk k i) = PROC_FREE /\ p = next_pid k /\ child_of k g c p (tk k' i) /\
    (forall j, slot j -> j <> i -> tk k' j = tk k j) /\ uid (img (tk k' i)) = 0 /\ gid (img (tk k' i)) = 0.
Proof.
  intros Hk R E Hp. destruct (proc_fork_spec k c g k' p Hk R E Hp) as (i & Hi & Hne & Hf & En & Hch & Ho & _).
  exists i. split_and!; try done; try apply Hi; by rewrite (ch_img _ _ _ _ _ Hch).
Qed.

(** ** Shared pipes *)

(** Closing never opens. *)
Lemma pipe_close_fds s fd r : pipe_is_pipe_fd s r = false -> pipe_is_pipe_fd (pipe_close s fd).1 r = false.
Proof.
  intros Hr. unfold pipe_close. destruct (negb _) eqn:E; [done|]. cbn [fst]. unfold pipe_is_pipe_fd in *. simpl.
  apply negb_false_iff in E. apply andb_true_iff in E as [E _]. apply andb_true_iff in E as [E1 E2].
  apply Z.leb_le in E1. apply Z.ltb_lt in E2.
  destruct ((PIPE_FD_BASE <=? r) && (r <? PIPE_FD_BASE + MAX_PIPE_FDS)) eqn:Er; [|done]. simpl in *. apply andb_true_iff in Er as [Er1 Er2]. apply Z.leb_le in Er1. apply Z.ltb_lt in Er2.
  destruct (decide (fd - PIPE_FD_BASE < len (pipe_fds s))) as [Hlt|Hge].
  - rewrite geti_seti by lia. case_decide; [done|done].
  - unfold seti. rewrite list_insert_ge; [done|]. unfold len in Hge. lia.
Qed.

Lemma pipe_close_closes s fd : len (pipe_fds s) = MAX_PIPE_FDS -> pipe_is_pipe_fd (pipe_close s fd).1 fd = false.
Proof.
  intros HL. unfold pipe_close. destruct (pipe_is_pipe_fd s fd) eqn:E; simpl; [|done]. unfold pipe_is_pipe_fd in *. simpl.
  apply andb_true_iff in E as [E _]. apply andb_true_iff in E as [E1 E2]. apply Z.leb_le in E1. apply Z.ltb_lt in E2.
  rewrite geti_seti_eq by (rewrite HL; unfold MAX_PIPE_FDS in *; lia). by rewrite andb_false_r.
Qed.

Lemma pipe_close_len s fd : len (pipe_fds (pipe_close s fd).1) = len (pipe_fds s).
Proof. unfold pipe_close. destruct (negb _); [done|]. simpl. by autorewrite with arr. Qed.

(** The loop of [fd_table_close_all] at place [n]: the entries from [n] on are
    as before, and the pipe descriptors of those before are closed. *)
Record closing (k : kernel) (p n : Z) (k' : kernel) : Prop := {
  cg_ok : sched_ok k';
  cg_len : len (pipe_fds (kpipes k')) = MAX_PIPE_FDS;
  cg_rest : forall i, n <= i < MAX_FD_PER_PROC -> (fds (tk k' p)).[i] = (fds (tk k p)).[i];
  cg_closed : forall i, 0 <= i < n -> fd_type (fds (tk k p)).[i] = FD_PIPE ->
    pipe_is_pipe_fd (kpipes k') (resource (fds (tk k p)).[i]) = false;
}.

Lemma close_fd_closing k p n k' : slot p -> 0 <= n < MAX_FD_PER_PROC -> closing k p n k' -> closing k p (n + 1) (close_fd p n k').
Proof.
  intros Hp Hn [O L Rs C]. assert (sched_ok (close_fd p n k')) as O' by apply (calm_close_fd sched_ok p n k' O Hp).
  pose proof (proj1 (so_task k' O p Hp)) as HL. unfold close_fd in *. rewrite (Rs n ltac:(lia)) in *. set (f := (fds (tk k p)).[n]) in *.
  destruct (Z.eqb_spec (fd_type f) FD_UNUSED) as [Eu|Eu].
  { constructor; try done; [intros i Hi; apply Rs; lia|]. intros i Hi Ht. destruct (decide (i = n)) as [->|]; [|apply C; [lia|done]].
    fold f in Ht. by rewrite Eu in Ht. }
  set (k1 := if fd_type f =? FD_VFS then _ else _) in *.
  assert (tk k1 p = tk k' p /\ len (tasks k1) = MAX_PROCS) as [Et HT] by (unfold k1; repeat case_match; split; try done; apply O).
  assert (len (pipe_fds (kpipes k1)) = MAX_PIPE_FDS) as L1 by (unfold k1; repeat case_match; simpl; by rewrite ?pipe_close_len).
  assert (forall i, 0 <= i < n + 1 -> fd_type (fds (tk k p)).[i] = FD_PIPE ->
    pipe_is_pipe_fd (kpipes k1) (resource (fds (tk k p)).[i]) = false) as C1.
  { intros i Hi Ht. destruct (decide (i = n)) as [->|].
    - fold f in Ht |- *. unfold k1. rewrite Ht. simpl. by apply pipe_close_closes.
    - unfold k1. repeat case_match; simpl; [|apply pipe_close_fds|]; apply C; lia || done. }
  constructor; [done|done| |done]. intros i Hi. rewrite tk_set_eq by done. simpl. rewrite Et, geti_seti_ne by lia. apply Rs. lia.
Qed.

Lemma close_all_pipes k p i : sched_ok k -> slot p -> len (pipe_fds (kpipes k)) = MAX_PIPE_FDS ->
  0 <= i < MAX_FD_PER_PROC -> fd_type (fds (tk k p)).[i] = FD_PIPE ->
  pipe_is_pipe_fd (kpipes (fd_table_close_all k p)) (resource (fds (tk k p)).[i]) = false.
Proof.
  intros Hk Hp HL Hi Ht. unfold fd_table_close_all.
  pose proof (for_each_ind (close_fd p) (closing k p) (Z.to_nat MAX_FD_PER_PROC) 0 k) as L.
  destruct L as [_ _ _ C]; [constructor; try done; intros; lia| |].
  - intros j t Hj. apply close_fd_closing; [done|]. unfold MAX_FD_PER_PROC in *. lia.
  - apply C; [|done]. unfold MAX_FD_PER_PROC in *. lia.
Qed.

Lemma notify_pipes k c : kpipes (notify_parent k c) = kpipes k.
Proof. unfold notify_parent. by destruct (0 <? _). Qed.

Lemma reparent_pipes dead n i k : kpipes (for_each (reparent_step dead) n i k) = kpipes k.
Proof.
  apply (for_each_ind (reparent_step dead) (fun _ t => kpipes t = kpipes k) n i k); [done|].
  intros j t _ <-. unfold reparent_step. by repeat case_match.
Qed.

Lemma unblock_pipes k p : kpipes (task_unblock_pid k p) = kpipes k.
Proof. unfold task_unblock_pid, unblock_slot. by repeat case_match. Qed.

Lemma schedule_pipes k : kpipes (schedule k).1 = kpipes k.
Proof. unfold schedule, switch_to. repeat case_match; done. Qed.

Lemma set_task_pipes k i t : kpipes (set_task k i t) = kpipes k.
Proof. done. Qed.

Lemma proc_exit_pipes k c st : cur k = Some c -> kpipes (proc_exit k st).1 = kpipes (fd_table_close_all k c).
Proof.
  intros Ec. unfold proc_exit. rewrite Ec. cbv zeta. rewrite schedule_pipes, unblock_pipes, set_task_pipes.
  rewrite notify_pipes, reparent_pipes. reflexivity.
Qed.

(** The exit of a child takes the pipes of its parent.  Descriptors are
    copied on fork without counting, so once a child with an inherited pipe
    descriptor exits, every read and write of the parent through the same
    descriptor fails. *)
Theorem child_exit_closes_parents_pipe k c g k1 p j :
  sched_ok k -> running k c -> proc_fork k g = (k1, p) -> 0 < p ->
  0 <= j < MAX_FD_PER_PROC -> fd_type (fds (tk k c)).[j] = FD_PIPE ->
  exists i, slot i /\ tpid (tk k1 i) = p /\
    forall k2 st, sched_ok k2 -> cur k2 = Some i -> fds (tk k2 i) = fds (tk k1 i) ->
      len (pipe_fds (kpipes k2)) = MAX_PIPE_FDS ->
      let r := resource (fds (tk k c)).[j] in
      let s := kpipes (proc_exit k2 st).1 in
      (forall pid bytes, pipe_write s r pid bytes = inl (-1)) /\ (forall pid count, pipe_read s r pid count = inl (-1)).
Proof.
  intros Hk R E Hp Hj Ht. destruct (proc_fork_spec k c g k1 p Hk R E Hp) as (i & Hi & _ & _ & _ & Hch & _).
  exists i. split; [done|]. split; [apply Hch|]. intros k2 st Hk2 Ec Ef HL. cbv zeta.
  rewrite (proc_exit_pipes k2 i st Ec). rewrite <- (ch_fds _ _ _ _ _ Hch), <- Ef in Ht |- *.
  pose proof (close_all_pipes k2 i j Hk2 Hi HL Hj Ht) as Ec2. split; intros; [unfold pipe_write|unfold pipe_read]; by rewrite Ec2.
Qed.

(** ** Zombies nobody waits for *)

(** The state in which a process that exits becomes a zombie. *)
Definition dying (k : kernel) (c status : Z) : kernel :=
  let k1 := fd_table_close_all k c in
  let k2 := notify_parent (for_each (reparent_step (tpid (tk k1 c))) all_slots 0 k1) c in
  set_task k2 c (set_state (set_exit (tk k2 c) status true) PROC_ZOMBIE).

Lemma proc_exit_eq k c st : cur k = Some c ->
  proc_exit k st = schedule (task_unblock_pid (dying k c st) (parent_pid (tk (dying k c st) c))).
Proof. intros E. unfold proc_exit, dying. by rewrite E. Qed.

Lemma dying_orphan k c z st : sched_ok k -> running k c -> slot z -> state (tk k z) = PROC_ZOMBIE ->
  parent_pid (tk k z) = tpid (tk k c) -> orphan z (tpid (tk k c)) (dying k c st).
Proof.
  intros Hk R Hz Hzs Hzp. pose proof (running_slot sched_ok k c Hk R) as Hc. unfold dying.
  pose proof (calm_exit sched_ok k c Hk Hc) as C. cbv zeta in C |- *. revert C.
  generalize (notify_parent (for_each (reparent_step (tpid (tk (fd_table_close_all k c) c))) all_slots 0 (fd_table_close_all k c)) c).
  intros k1 C. pose proof (calm_running sched_ok k k1 c Hk C R) as R1. destruct C as [O Ec Kp Lv].
  set (t := set_state _ PROC_ZOMBIE). assert (keeps (tk k1 c) t) as Kt.
  { eapply (keeps_trans _ (set_exit (tk k1 c) st true)); [by constructor|]. apply keeps_state; [apply R1|done]. }
  assert (z <> c) as Hne by (intros ->; destruct R as [_ [_ Hn]]; done).
  split; [by apply ki_keeps|]. pose proof (so_tasks k1 O) as HT. constructor.
  - simpl. by autorewrite with arr.
  - split; [done|]. rewrite tk_set_ne by done. destruct (kp_zombie _ _ (Kp z Hz) Hzs). split; congruence.
  - rewrite <- (kp_pid _ _ (Kp c Hc)). apply (so_pid k1 O c Hc). apply R1.
  - intros i Hi. rewrite tk_set by done. case_decide; [by intros [_ []]|]. intros [Hl _] Ep.
    rewrite (kp_pid _ _ (Kp i Hi)) in Ep. assert (i = c); [|congruence].
    apply (so_inj k Hk); try done; [|by apply R]. intros Hf. by apply Hl, (kp_free _ _ (Kp i Hi)).
Qed.

(** A zombie whose parent exits before waiting for it stays for ever.
    Only children that are not zombies are handed to init, so over any sequence
    of calls after the exit of the parent the slot keeps its zombie. *)
Theorem zombie_outlives_parent k c z st cs :
  sched_ok k -> running k c -> slot z -> state (tk k z) = PROC_ZOMBIE -> parent_pid (tk k z) = tpid (tk k c) ->
  runs (proc_exit k st).1 cs -> state (tk (fold_left exec cs (proc_exit k st).1) z) = PROC_ZOMBIE.
Proof.
  intros Hk R Hz Hzs Hzp Hr. pose proof (dying_orphan k c z st Hk R Hz Hzs Hzp) as Ho.
  assert (orphan z (tpid (tk k c)) (proc_exit k st).1) as H1.
  { rewrite (proc_exit_eq k c st (proj1 R)). apply (inv_schedule (orphan z (tpid (tk k c)))), (calm_unblock_pid (orphan z (tpid (tk k c)))), Ho. }
  destruct (runs_inv (orphan z (tpid (tk k c))) cs _ H1 Hr) as [_ L]. apply L.
Qed.

(** A wait for any child that had to block collects no child: the second look
    searches for the pid 0 or -1 itself. *)
Lemma wait_any_fails k c p : sched_ok k -> running k c -> p <= 0 ->
  exists v, proc_wait_resume k p = (set_wait_target k c 0, WaitRet v None) /\ v <= 0.
Proof.
  intros Hk R Hp. unfold proc_wait_resume. rewrite (proj1 R). unfold proc_wait. cbn [cur set_wait_target]. rewrite (proj1 R).
  destruct (find_from _ _ _) as [i|] eqn:E; [|by exists (-1)]. apply find_slot in E as [Hi Hm].
  apply andb_true_iff in Hm as [Hm _]. apply Z.eqb_eq in Hm. change (tk (set_wait_target k c 0) i) with (tk k i) in *.
  destruct (Z.eqb_spec (state (tk k i)) PROC_ZOMBIE) as [Es|]; [|by exists 0].
  pose proof (so_pid k Hk i Hi ltac:(by rewrite Es)). lia.
Qed.

End sched.

(** ** Examples *)

(** A machine that hands out addresses in turn. *)
#[export] Instance bump_machine : Machine Z := {
  elf_load m data := (m + 4096, if len data =? 0 then None else Some (0x400000, m, 0x7000));
  create_user_address_space m := (m + 4096, m);
  deep_copy_user_pages m _ _ := m;
  vmm_destroy_address_space m _ := m;
  kmalloc m n := (m + n, m);
  kfree m _ := m;
  vfs_close m _ := m;
  pid1_kstack := 0x1000;
  child_kstack := 0x5000;
}.

Definition blank : @kernel Z := sched_init (mkKernel [] None 0 false [] init_pstate (fun _ => 0) 0x100000).
Definition booted : @kernel Z := (sched_start_first blank [105] [127]).1.
Definition demo_regs : user_regs := mkRegs 0x401000 0x46 0x7fff0 1 2 3 4 5 6.
(** Two forks, the exit of a child, and its parent waits for it. *)
Definition demo_calls : list call :=
  [CFork demo_regs; CFork demo_regs; CTick 10; CExit 3; CYield; CWait 2; CBlock].

Lemma sched_reachable_witness : sched_ok (fold_left exec demo_calls booted).
Proof.
  apply (sched_reachable blank [105] [127] booted 0 demo_calls); [by vm_compute|].
  unfold demo_calls. cbn [runs].
  repeat match goal with
  | |- _ /\ _ => split
  | |- True => exact I
  | |- call_ok _ (CExit _) => exists 1; vm_compute; split_and!; [done|discriminate..]
  | |- call_ok _ (CWait _) => exists 0; vm_compute; split_and!; [done|discriminate..]
  | |- call_ok _ CBlock => exists 0; vm_compute; split_and!; [done|discriminate..]
  | |- call_ok _ _ => exact I
  end.
Defined.

(** Kernels in the middle of a run. *)
Definition three_tasks : @kernel Z := fold_left exec [CFork demo_regs; CFork demo_regs] booted.

Lemma slot_cases (P : Z -> Prop) : (forall i, In i (seqZ 0 MAX_PROCS) -> P i) -> forall i, slot i -> P i.
Proof. intros HP i Hi. apply HP. apply list_elem_of_In, elem_of_seqZ. unfold slot in Hi. lia. Qed.

Lemma booted_ok : sched_ok booted.
Proof. apply (sched_start_ok blank [105] [127] booted 0). by vm_compute. Qed.

Lemma three_tasks_scheduling : scheduling three_tasks 0.
Proof.
  constructor; [|by vm_compute..]. unfold three_tasks.
  refine (runs_inv sched_ok [CFork demo_regs; CFork demo_regs] booted _ _); [exact booted_ok|exact (conj I (conj I I))].
Qed.

Lemma pick_next_best_witness : pick_next three_tasks = Some 1.
Proof. apply (pick_next_best three_tasks 1). split; [done|]. split; [by vm_compute|].
  apply (slot_cases (fun i => ready three_tasks i = true -> _)). intros i Hi. vm_compute in Hi.
  repeat (destruct Hi as [<-|Hi]; [vm_compute; intros; first [discriminate|right; split; [done|discriminate]]|]). done.
Defined.

Lemma round_robin_fair_witness : exists n, (n <= 32)%nat /\ cur (Nat.iter n next three_tasks) = Some 2.
Proof.
  apply (round_robin_fair three_tasks 0 20 2 three_tasks_scheduling); [|done|by vm_compute].
  apply (slot_cases (fun j => ready three_tasks j = true \/ j = 0 -> priority (tk three_tasks j) = 20)).
  intros i Hi. vm_compute in Hi. repeat (destruct Hi as [<-|Hi]; [vm_compute; intros [?|?]; done|]). done.
Defined.

(** The first of the tasks raises its priority. *)
Definition raised : @kernel Z := task_set_priority three_tasks 5.

Lemma tie_starves_witness : cur (Nat.iter 7 next raised) = Some (if Nat.even 7 then 0 else 1).
Proof.
  apply (tie_starves raised 0 1 2 7); [|by vm_compute|by vm_compute|by vm_compute|lia|lia|lia| |by vm_compute..].
  - constructor; [|by vm_compute..]. apply (inv_set_priority sched_ok), three_tasks_scheduling.
  - apply (slot_cases (fun i => ready raised i = true <-> i = 1 \/ i = 2)). intros i Hi. vm_compute in Hi.
    repeat (destruct Hi as [<-|Hi]; [vm_compute; split; first [discriminate|intros [?|?]; discriminate|by intros _; left|by intros _; right|done]|]). done.
Defined.

Lemma proc_fork_copies_witness :
  exists i, slot i /\ i <> 0 /\ state (tk booted i) = PROC_FREE /\ 2 = next_pid booted /\
    child_of booted demo_regs 0 2 (tk (proc_fork booted demo_regs).1 i) /\
    (forall j, slot j -> j <> i -> tk (proc_fork booted demo_regs).1 j = tk booted j) /\
    uid (img (tk (proc_fork booted demo_regs).1 i)) = 0 /\ gid (img (tk (proc_fork booted demo_regs).1 i)) = 0.
Proof.
  apply (proc_fork_copies booted 0 demo_regs (proc_fork booted demo_regs).1 2); [exact booted_ok| |by vm_compute|done].
  vm_compute. by split.
Defined.

(** A process opens a pipe under descriptors 3 and 4. *)
Definition open_pipe {M : Type} (k : @kernel M) (c : Z) : @kernel M :=
  let k := set_pipes k (pipe_create (kpipes k)).1 in
  set_task k c (set_fds (tk k c) (fds (tk k c)).[3 <- mkFdEntry FD_PIPE 200 0 O_RDONLY].[4 <- mkFdEntry FD_PIPE 201 0 O_WRONLY]).

Lemma open_pipe_ok {M : Type} (k : @kernel M) c : sched_ok k -> slot c -> sched_ok (open_pipe k c).
Proof.
  intros Hk Hc. unfold open_pipe. set (k1 := set_pipes k _). assert (sched_ok k1) as Hk1 by by apply (ki_ext k).
  apply ki_keeps; [done..|]. constructor; try done. intros [Hf Ha]. split; [|done]. simpl. by autorewrite with arr.
Qed.

Definition piped : @kernel Z := open_pipe booted 0.

Lemma piped_ok : sched_ok piped.
Proof. exact (open_pipe_ok booted 0 booted_ok (conj (Z.le_refl 0) eq_refl)). Qed.

Lemma child_exit_closes_parents_pipe_witness :
  exists i, slot i /\ tpid (tk (proc_fork piped demo_regs).1 i) = 2 /\
    forall k2 st, sched_ok k2 -> cur k2 = Some i -> fds (tk k2 i) = fds (tk (proc_fork piped demo_regs).1 i) ->
      len (pipe_fds (kpipes k2)) = MAX_PIPE_FDS ->
      let r := resource (fds (tk piped 0)).[4] in
      let s := kpipes (proc_exit k2 st).1 in
      (forall pid bytes, pipe_write s r pid bytes = inl (-1)) /\ (forall pid count, pipe_read s r pid count = inl (-1)).
Proof.
  apply (child_exit_closes_parents_pipe piped 0 demo_regs (proc_fork piped demo_regs).1 2 4);
    [exact piped_ok|vm_compute; by split|by vm_compute|done|done|by vm_compute].
Defined.

(** A parent whose child 2 is a zombie. *)
Definition with_zombie : @kernel Z := fold_left exec [CFork demo_regs; CTick 10; CExit 3] booted.

Lemma zombie_outlives_parent_witness :
  state (tk (fold_left exec [CTick 5; CYield] (proc_exit with_zombie 0).1) 1) = PROC_ZOMBIE.
Proof.
  apply (zombie_outlives_parent with_zombie 0 1 0 [CTick 5; CYield]); try by vm_compute.
  - unfold with_zombie. refine (runs_inv sched_ok [CFork demo_regs; CTick 10; CExit 3] booted _ _); [exact booted_ok|].
    cbn [runs]. split; [exact I|]. split; [exact I|]. split; [|exact I]. exists 1. vm_compute. by split.
Defined.
