(* ===== verification/LibcString.v ===== *)
(** * String functions: libc/src/string.c

    Memory is a function from addresses to bytes, and the loops store one byte
    after the other, so overlapping operands behave as in C.  A loop that runs
    to the end of a string takes fuel; the theorems show that one more than the
    length of the string is enough.  [strdup] is in [Malloc]. *)

From S2P Require Import Prelude.

Definition memory : Type := Z -> Z.
Definition poke (m : memory) (a v : Z) : memory := fun x => if x =? a then v else m x.

(** ** Blocks of memory *)

Definition memset (m : memory) (s c n : Z) : memory := for_each (fun i m => poke m (s + i) (u8 c)) (Z.to_nat n) 0 m.

Definition memcpy (m : memory) (dest src n : Z) : memory :=
  for_each (fun i m => poke m (dest + i) (m (src + i))) (Z.to_nat n) 0 m.

(** Forwards if the destination is below the source, else backwards. *)
Definition memmove (m : memory) (dest src n : Z) : memory :=
  if dest <? src then memcpy m dest src n
  else for_each (fun i m => poke m (dest + n - 1 - i) (m (src + n - 1 - i))) (Z.to_nat n) 0 m.

Definition memcmp (m : memory) (s1 s2 n : Z) : Z :=
  match for_loop (fun i (_ : unit) => if negb (m (s1 + i) =? m (s2 + i)) then Stop (m (s1 + i) - m (s2 + i)) else Next ())
          (Z.to_nat n) 0 () with
  | Next _ => 0
  | Stop r => r
  end.

(** ** Strings *)

Fixpoint strcmp (fuel : nat) (m : memory) (s1 s2 : Z) : option Z :=
  match fuel with
  | O => None
  | S fuel =>
      if negb (m s1 =? 0) && (m s1 =? m s2) then strcmp fuel m (s1 + 1) (s2 + 1)
      else Some (m s1 - m s2)
  end.

(** [n] counts down. *)
Fixpoint strncmp (m : memory) (s1 s2 : Z) (n : nat) : Z :=
  match n with
  | O => 0
  | S n =>
      if negb (m s1 =? 0) && (m s1 =? m s2) then strncmp m (s1 + 1) (s2 + 1) n
      else m s1 - m s2
  end.

Fixpoint strlen_loop (fuel : nat) (m : memory) (s len : Z) : option Z :=
  match fuel with
  | O => None
  | S fuel => if m (s + len) =? 0 then Some len else strlen_loop fuel m s (len + 1)
  end.
Definition strlen (fuel : nat) (m : memory) (s : Z) : option Z := strlen_loop fuel m s 0.

Definition strnlen (m : memory) (s maxlen : Z) : Z :=
  default maxlen (find_from (fun i => m (s + i) =? 0) (Z.to_nat maxlen) 0).

(** Copies up to and including the terminator. *)
Fixpoint copy_string (fuel : nat) (m : memory) (d src : Z) : option memory :=
  match fuel with
  | O => None
  | S fuel =>
      let c := m src in
      let m := poke m d c in
      if c =? 0 then Some m else copy_string fuel m (d + 1) (src + 1)
  end.
Definition strcpy (fuel : nat) (m : memory) (dest src : Z) : option memory := copy_string fuel m dest src.

(** The first loop of [strncpy] and the loop of [strlcat]: [Stop] at the
    terminator, with the index. *)
Definition copy_bounded (m : memory) (dest src n : Z) : memory * Z :=
  match for_loop (fun i m => if m (src + i) =? 0 then Stop (m, i) else Next (poke m (dest + i) (m (src + i))))
          (Z.to_nat n) 0 m with
  | Next m => (m, n)
  | Stop r => r
  end.

Definition strncpy (m : memory) (dest src n : Z) : memory :=
  let '(m, i) := copy_bounded m dest src n in
  for_each (fun j m => poke m (dest + j) 0) (Z.to_nat (n - i)) i m.

Definition strcat (fuel : nat) (m : memory) (dest src : Z) : option memory :=
  l ← strlen fuel m dest; copy_string fuel m (dest + l) src.

Definition strncat (fuel : nat) (m : memory) (dest src n : Z) : option memory :=
  l ← strlen fuel m dest;
  let '(m, i) := copy_bounded m (dest + l) src n in
  Some (poke m (dest + l + i) 0).

(** The result is 0 for NULL. *)
Fixpoint strchr (fuel : nat) (m : memory) (s c : Z) : option Z :=
  match fuel with
  | O => None
  | S fuel => if m s =? 0 then Some 0 else if m s =? u8 c then Some s else strchr fuel m (s + 1) c
  end.

Fixpoint strrchr_loop (fuel : nat) (m : memory) (s c last : Z) : option Z :=
  match fuel with
  | O => None
  | S fuel => if m s =? 0 then Some last else strrchr_loop fuel m (s + 1) c (if m s =? u8 c then s else last)
  end.
Definition strrchr (fuel : nat) (m : memory) (s c : Z) : option Z := strrchr_loop fuel m s c 0.

Fixpoint strstr_loop (fuel : nat) (m : memory) (haystack needle nlen : Z) : option Z :=
  match fuel with
  | O => None
  | S fuel =>
      if m haystack =? 0 then Some 0
      else if strncmp m haystack needle (Z.to_nat nlen) =? 0 then Some haystack
      else strstr_loop fuel m (haystack + 1) needle nlen
  end.
Definition strstr (fuel : nat) (m : memory) (haystack needle : Z) : option Z :=
  nlen ← strlen fuel m needle;
  if nlen =? 0 then Some haystack else strstr_loop fuel m haystack needle nlen.

Definition strlcpy (fuel : nat) (m : memory) (dest src size : Z) : option memory :=
  src_len ← strlen fuel m src;
  if 0 <? size then
    let copy_len := if size <=? src_len then size - 1 else src_len in
    Some (poke (memcpy m dest src copy_len) (dest + copy_len) 0)
  else Some m.

Definition strlcat (fuel : nat) (m : memory) (dest src size : Z) : option memory :=
  dest_len ← strlen fuel m dest;
  if size <=? dest_len then Some m
  else
    let '(m, i) := copy_bounded m (dest + dest_len) src (size - dest_len - 1) in
    Some (poke m (dest + dest_len + i) 0).

(** ** Copies *)

(** [n] bytes from [src] of memory [m], all at once. *)
Definition copied (m : memory) (dest src n : Z) (m' : memory) : Prop :=
  forall x, m' x = if (dest <=? x) && (x <? dest + n) then m (x - dest + src) else m x.

Lemma poke_eq m a v : poke m a v a = v.
Proof. unfold poke. by rewrite Z.eqb_refl. Qed.

Lemma poke_ne m a v x : x <> a -> poke m a v x = m x.
Proof. intros. unfold poke. by rewrite (proj2 (Z.eqb_neq _ _)). Qed.

Lemma in_range_spec d n x : reflect (d <= x < d + n) ((d <=? x) && (x <? d + n)).
Proof. apply iff_reflect. rewrite andb_true_iff, Z.leb_le, Z.ltb_lt. lia. Qed.

Ltac in_range := repeat match goal with
  | |- context [(?d <=? ?x) && (?x <? ?d + ?n)] => destruct (in_range_spec d n x)
  | H : context [(?d <=? ?x) && (?x <? ?d + ?n)] |- _ => destruct (in_range_spec d n x)
  end.

Lemma memcpy_copied m d s n : 0 <= n -> d <= s \/ s + n <= d -> copied m d s n (memcpy m d s n).
Proof.
  intros Hn Hov. unfold memcpy. set (body := fun i m => _).
  assert (copied m d s (0 + Z.of_nat (Z.to_nat n)) (for_each body (Z.to_nat n) 0 m)) as H.
  2: { by replace (0 + Z.of_nat (Z.to_nat n)) with n in H by lia. }
  apply (for_each_ind body (fun i m' => copied m d s i m')).
  - intros x. in_range; [lia|done].
  - intros j m' Hj Hc x. unfold body. destruct (decide (x = d + j)) as [->|Hne].
    + rewrite poke_eq, Hc. in_range; try lia; f_equal; lia.
    + rewrite poke_ne, Hc by done. in_range; try lia; done.
Qed.

Lemma memset_filled m s c n x : 0 <= n -> memset m s c n x = if (s <=? x) && (x <? s + n) then u8 c else m x.
Proof.
  intros Hn. unfold memset. set (body := fun i m => _). revert x.
  assert (forall x, for_each body (Z.to_nat n) 0 m x = if (s <=? x) && (x <? s + (0 + Z.of_nat (Z.to_nat n))) then u8 c else m x) as HH.
  2: { intros x. rewrite HH. by replace (0 + Z.of_nat (Z.to_nat n)) with n by lia. }
  apply (for_each_ind body (fun i m' => forall x, m' x = if (s <=? x) && (x <? s + i) then u8 c else m x)).
  - intros x. in_range; [lia|done].
  - intros j m' Hj Hc x. unfold body. destruct (decide (x = s + j)) as [->|Hne].
    + rewrite poke_eq. in_range; [done|lia].
    + rewrite poke_ne, Hc by done. in_range; try lia; done.
Qed.

Lemma memmove_copied m d s n : 0 <= n -> copied m d s n (memmove m d s n).
Proof.
  intros Hn. unfold memmove. destruct (Z.ltb_spec d s); [apply memcpy_copied; [done|lia]|]. set (body := fun i m => _).
  assert (forall x, for_each body (Z.to_nat n) 0 m x =
    if (d + n - (0 + Z.of_nat (Z.to_nat n)) <=? x) && (x <? d + n) then m (x - d + s) else m x) as HH.
  2: { by replace (d + n - (0 + Z.of_nat (Z.to_nat n))) with d in HH by lia. }
  apply (for_each_ind body (fun i m' => forall x, m' x = if (d + n - i <=? x) && (x <? d + n) then m (x - d + s) else m x)).
  - intros x. destruct (Z.leb_spec (d + n - 0) x), (Z.ltb_spec x (d + n)); done || lia.
  - intros j m' Hj Hc x. unfold body. destruct (decide (x = d + n - 1 - j)) as [->|Hne].
    + rewrite poke_eq, Hc.
      destruct (Z.leb_spec (d + n - j) (s + n - 1 - j)), (Z.ltb_spec (s + n - 1 - j) (d + n)); simpl; try lia;
        (destruct (Z.leb_spec (d + n - (j + 1)) (d + n - 1 - j)), (Z.ltb_spec (d + n - 1 - j) (d + n)); simpl; try lia; f_equal; lia).
    + rewrite poke_ne, Hc by done.
      destruct (Z.leb_spec (d + n - j) x), (Z.leb_spec (d + n - (j + 1)) x), (Z.ltb_spec x (d + n)); simpl; try lia; done.
Qed.

(** [memmove] copies as if all bytes were read before the first is
    written, whether and however the operands overlap, and touches nothing but
    the destination; [memcpy] does the same unless the destination starts inside
    the source. *)
Theorem memmove_correct m d s n :
  0 <= n -> copied m d s n (memmove m d s n) /\ (d <= s \/ s + n <= d -> copied m d s n (memcpy m d s n)).
Proof. intros Hn. split; [by apply memmove_copied|by apply memcpy_copied]. Qed.

Definition demo_memory : memory := fun x => if (0 <=? x) && (x <? 8) then x + 65 else 0.

Lemma memmove_correct_witness :
  copied demo_memory 2 0 6 (memmove demo_memory 2 0 6) /\ (2 <= 0 \/ 0 + 6 <= 2 -> copied demo_memory 2 0 6 (memcpy demo_memory 2 0 6)).
Proof. apply (memmove_correct demo_memory 2 0 6). lia. Defined.

(** ** Strings in memory *)

(** The string [l] at [a]: its bytes, none of them 0, and the terminator. *)
Fixpoint cstr (m : memory) (a : Z) (l : list Z) : Prop :=
  match l with
  | [] => m a = 0
  | c :: l => m a = c /\ 0 < c < 256 /\ cstr m (a + 1) l
  end.

Lemma cstr_nonzero m a c l : cstr m a (c :: l) -> (m a =? 0) = false.
Proof. intros (-> & Hc & _). apply Z.eqb_neq. lia. Qed.

Lemma strlen_loop_ok m a l fuel k : cstr m (a + k) l -> (length l < fuel)%nat -> strlen_loop fuel m a k = Some (k + len l).
Proof.
  revert k fuel. induction l as [|c l IH]; intros k [|fuel] Hs Hf; simpl in *; try lia.
  - rewrite Hs. simpl. f_equal. rewrite len_nil. lia.
  - rewrite (cstr_nonzero m (a + k) c l Hs). destruct Hs as (_ & _ & Hs).
    rewrite (IH (k + 1) fuel); [f_equal; rewrite len_cons; lia|by rewrite Z.add_assoc|lia].
Qed.

Lemma strlen_ok m a l fuel : cstr m a l -> (length l < fuel)%nat -> strlen fuel m a = Some (len l).
Proof. intros Hs Hf. unfold strlen. by rewrite (strlen_loop_ok m a l) by (rewrite ?Z.add_0_r; done). Qed.

(** ** Comparison *)

(** Lexicographic order on bytes. *)
Fixpoint lex_lt (a b : list Z) : Prop :=
  match a, b with
  | _, [] => False
  | [], _ :: _ => True
  | x :: a, y :: b => x < y \/ (x = y /\ lex_lt a b)
  end.

(** The difference of the first bytes that differ, of the terminator if one
    string is a prefix of the other. *)
Fixpoint first_diff (a b : list Z) : Z :=
  match a, b with
  | [], [] => 0
  | [], y :: _ => - y
  | x :: _, [] => x
  | x :: a, y :: b => if x =? y then first_diff a b else x - y
  end.

Lemma strcmp_diff m fuel : forall s1 s2 l1 l2, cstr m s1 l1 -> cstr m s2 l2 -> (length l1 < fuel)%nat ->
  strcmp fuel m s1 s2 = Some (first_diff l1 l2).
Proof.
  induction fuel as [|fuel IH]; intros s1 s2 l1 l2 H1 H2 Hf; [lia|]. simpl.
  destruct l1 as [|x l1], l2 as [|y l2]; simpl in *.
  - by rewrite H1, H2.
  - destruct H2 as (-> & Hy & H2). rewrite H1. simpl. f_equal; lia.
  - destruct H1 as (-> & Hx & H1). rewrite H2. rewrite (proj2 (Z.eqb_neq x 0)) by lia. simpl. f_equal; lia.
  - destruct H1 as (-> & Hx & H1), H2 as (-> & Hy & H2). rewrite (proj2 (Z.eqb_neq x 0)) by lia. simpl.
    destruct (x =? y); [apply IH; [done..|lia]|done].
Qed.

Definition bytes_ok (l : list Z) : Prop := Forall (fun c => 0 < c < 256) l.

Lemma cstr_bytes m a l : cstr m a l -> bytes_ok l.
Proof. revert a. induction l as [|c l IH]; intros a; [by constructor|]. intros (_ & Hc & Hs). constructor; [done|by eapply IH]. Qed.

Lemma first_diff_sign a b : bytes_ok a -> bytes_ok b ->
  (first_diff a b = 0 <-> a = b) /\ (first_diff a b < 0 <-> lex_lt a b) /\ (0 < first_diff a b <-> lex_lt b a).
Proof.
  intros Ha. revert b. induction Ha as [|x a Hx Ha IH]; intros b Hb; destruct Hb as [|y b Hy Hb]; simpl.
  - split_and!; split; intros; try done; lia.
  - split_and!; split; intros; try done; lia.
  - split_and!; split; intros; try done; lia.
  - destruct (Z.eqb_spec x y) as [->|Hne].
    + destruct (IH b Hb) as (E & L & G). rewrite E, L, G. split_and!; split; intros H; try (by right); try (by injection H);
        try (by rewrite H); destruct H as [?|[_ ?]]; [lia|done|lia|done].
    + split_and!; split; intros H; try lia; try (injection H; congruence); destruct H as [?|[? _]]; lia.
Qed.

(** [strcmp] is the lexicographic order of unsigned bytes: with fuel beyond
    the length of the first string it returns 0 exactly for equal strings, a
    negative value exactly if the first comes first, a positive one exactly if
    the second does. *)
Theorem strcmp_lexicographic m s1 s2 l1 l2 fuel :
  cstr m s1 l1 -> cstr m s2 l2 -> (length l1 < fuel)%nat ->
  exists r, strcmp fuel m s1 s2 = Some r /\
    (r = 0 <-> l1 = l2) /\ (r < 0 <-> lex_lt l1 l2) /\ (0 < r <-> lex_lt l2 l1).
Proof.
  intros H1 H2 Hf. exists (first_diff l1 l2). split; [by apply strcmp_diff|].
  apply first_diff_sign; by eapply cstr_bytes.
Qed.

(** "ABCDEFGH" and "CDEFGH". *)
Lemma strcmp_lexicographic_witness : exists r, strcmp 9 demo_memory 0 2 = Some r /\
  (r = 0 <-> [65; 66; 67; 68; 69; 70; 71; 72] = [67; 68; 69; 70; 71; 72]) /\
  (r < 0 <-> lex_lt [65; 66; 67; 68; 69; 70; 71; 72] [67; 68; 69; 70; 71; 72]) /\
  (0 < r <-> lex_lt [67; 68; 69; 70; 71; 72] [65; 66; 67; 68; 69; 70; 71; 72]).
Proof.
  apply (strcmp_lexicographic demo_memory 0 2 [65; 66; 67; 68; 69; 70; 71; 72] [67; 68; 69; 70; 71; 72] 9);
    [vm_compute; split_and!; done|vm_compute; split_and!; done|simpl; lia].
Defined.

(** ** Search *)

Definition prefix_at (needle l : list Z) (i : nat) : Prop := exists rest, drop i l = needle ++ rest.

Lemma strncmp_prefix m : forall needle s1 s2 l, cstr m s1 l -> cstr m s2 needle ->
  strncmp m s1 s2 (length needle) = 0 <-> prefix_at needle l 0.
Proof.
  unfold prefix_at. intros needle. induction needle as [|y n IH]; intros s1 s2 l H1 H2; simpl.
  - split; [intros _; by exists l|done].
  - destruct H2 as (E2 & Hy & H2). destruct l as [|x l].
    + simpl in H1. rewrite H1, E2. simpl. split; [lia|]. intros (rest & Hr). done.
    + destruct H1 as (E1 & Hx & H1). rewrite E1, E2, (proj2 (Z.eqb_neq x 0)) by lia. simpl.
      destruct (Z.eqb_spec x y) as [->|Hne].
      * rewrite (IH _ _ l H1 H2). rewrite !drop_0. split; intros (rest & Hr); exists rest; [by rewrite Hr|by injection Hr].
      * split; [lia|]. intros (rest & Hr). simpl in Hr. injection Hr. congruence.
Qed.

Lemma strstr_loop_ok m needle nd fuel : forall l h, cstr m h l -> cstr m nd needle -> needle <> [] ->
  (length l < fuel)%nat -> exists p, strstr_loop fuel m h nd (len needle) = Some p /\
    ((p = 0 /\ forall i, ~ prefix_at needle l i) \/
     exists i, p = h + Z.of_nat i /\ prefix_at needle l i /\ forall j, (j < i)%nat -> ~ prefix_at needle l j).
Proof.
  induction fuel as [|fuel IH]; intros l h Hl Hn Hne Hf; [lia|]. simpl.
  assert (Z.to_nat (len needle) = length needle) as -> by (unfold len; lia).
  destruct l as [|x l].
  - simpl in Hl. rewrite Hl. simpl. exists 0. split; [done|]. left. split; [done|]. intros i (rest & Hr).
    rewrite drop_nil in Hr. by destruct needle.
  - rewrite (cstr_nonzero m h x l Hl). pose proof (strncmp_prefix m needle h nd (x :: l) Hl Hn) as HP.
    destruct (Z.eqb_spec (strncmp m h nd (length needle)) 0) as [E|E].
    + exists h. split; [done|]. right. exists 0%nat. split; [lia|]. split; [by apply HP|]. intros j Hj. lia.
    + destruct Hl as (_ & _ & Hl). destruct (IH l (h + 1) Hl Hn Hne ltac:(simpl in Hf; lia)) as (p & Ep & Hp).
      exists p. split; [done|]. destruct Hp as [[-> Hno]|(i & -> & Hi & Hmin)].
      * left. split; [done|]. intros [|i]; [by intros H%HP|]. apply (Hno i).
      * right. exists (S i). split; [lia|]. split; [done|]. intros [|j] Hj; [by intros H%HP|]. apply (Hmin j). lia.
Qed.

(** [strstr] returns the first place where the needle occurs, the haystack
    itself for an empty needle, and NULL exactly when there is none. *)
Theorem strstr_first m haystack needle h n fuel :
  cstr m haystack h -> cstr m needle n -> (length h < fuel)%nat -> (length n < fuel)%nat -> 0 < haystack ->
  exists p, strstr fuel m haystack needle = Some p /\
    ((p = 0 /\ forall i, ~ prefix_at n h i) \/
     exists i, p = haystack + Z.of_nat i /\ prefix_at n h i /\ forall j, (j < i)%nat -> ~ prefix_at n h j).
Proof.
  intros Hh Hn Hfh Hfn Hpos. unfold strstr. rewrite (strlen_ok m needle n fuel Hn Hfn). cbn [mbind option_bind].
  destruct (Z.eqb_spec (len n) 0) as [E|E].
  - destruct n; [|rewrite len_cons in E; pose proof (len_nonneg n); lia]. exists haystack. split; [done|]. right. exists 0%nat.
    split; [lia|]. split; [by exists h|]. intros j Hj. lia.
  - apply strstr_loop_ok; try done. by intros ->.
Qed.

(** The same string at 8, searched for "DE" at 20. *)
Definition search_memory : memory := fun x => if (8 <=? x) && (x <? 16) then x + 57 else if x =? 20 then 68 else if x =? 21 then 69 else 0.

Lemma strstr_first_witness : exists p, strstr 9 search_memory 8 20 = Some p /\
  ((p = 0 /\ forall i, ~ prefix_at [68; 69] [65; 66; 67; 68; 69; 70; 71; 72] i) \/
   exists i, p = 8 + Z.of_nat i /\ prefix_at [68; 69] [65; 66; 67; 68; 69; 70; 71; 72] i /\
     forall j, (j < i)%nat -> ~ prefix_at [68; 69] [65; 66; 67; 68; 69; 70; 71; 72] j).
Proof.
  apply (strstr_first search_memory 8 20 [65; 66; 67; 68; 69; 70; 71; 72] [68; 69] 9);
    [vm_compute; split_and!; done|vm_compute; split_and!; done|simpl; lia|simpl; lia|lia].
Defined.

(** ** Bounded copies *)

Lemma cstr_points m a l :
  cstr m a l <-> (forall i, 0 <= i < len l -> m (a + i) = l.[i] /\ 0 < l.[i] < 256) /\ m (a + len l) = 0.
Proof.
  revert a. induction l as [|c l IH]; intros a; simpl.
  - change (len (@nil Z)) with 0. rewrite Z.add_0_r. split; [|by intros [_ ?]]. intros H. split; [|done]. intros i Hi. lia.
  - rewrite IH, len_cons. pose proof (len_nonneg l). split.
    + intros (E & Hc & Hp & Hz). split; [|by replace (a + (1 + len l)) with (a + 1 + len l) by lia].
      intros i Hi. destruct (decide (i = 0)) as [->|]; [by rewrite Z.add_0_r|].
      destruct (Hp (i - 1) ltac:(lia)) as [H1 H2]. replace (a + 1 + (i - 1)) with (a + i) in H1 by lia.
      assert ((c :: l).[i] = l.[i - 1]) as ->; [|done].
      replace i with (1 + (i - 1)) at 1 by lia. unfold geti. by rewrite Z2Nat.inj_add by lia.
    + intros (Hp & Hz). destruct (Hp 0 ltac:(lia)) as [E Hc]. rewrite Z.add_0_r in E. split; [done|]. split; [done|].
      split; [|by replace (a + 1 + len l) with (a + (1 + len l)) by lia]. intros i Hi.
      destruct (Hp (1 + i) ltac:(lia)) as [H1 H2]. replace (a + (1 + i)) with (a + 1 + i) in H1 by lia.
      assert ((c :: l).[1 + i] = l.[i]) as E1 by (unfold geti; by rewrite Z2Nat.inj_add by lia). by rewrite E1 in *.
Qed.

(** The string at [src] is away from the [n] bytes at [dest]. *)
Definition apart (dest n src : Z) (l : list Z) : Prop := src + len l < dest \/ dest + n <= src.

Lemma copy_bounded_ok m d s n l : 0 <= n -> cstr m s l -> apart d n s l ->
  exists m', copy_bounded m d s n = (m', Z.min n (len l)) /\ copied m d s (Z.min n (len l)) m'.
Proof.
  intros Hn Hs Hap. apply cstr_points in Hs as [Hp Hz]. unfold apart in Hap. unfold copy_bounded. set (body := fun i m => _).
  assert (forall j t, 0 <= j < 0 + Z.of_nat (Z.to_nat n) -> j <= len l /\ copied m d s j t ->
    match body j t with
    | Next t' => j + 1 <= len l /\ copied m d s (j + 1) t'
    | Stop r => r.2 = len l /\ len l < n /\ copied m d s (len l) r.1
    end) as Hstep.
  { intros j t Hj [Hjl Hc]. unfold body. rewrite Hc. in_range; [lia|]. destruct (decide (j = len l)) as [->|Hne].
    { rewrite Hz. simpl. split; [done|]. split; [lia|done]. }
    destruct (Hp j ltac:(lia)) as [E Hb]. rewrite E, (proj2 (Z.eqb_neq _ 0)) by lia. split; [lia|].
    intros x. destruct (decide (x = d + j)) as [->|Hx].
    - rewrite poke_eq. in_range; [|lia]. rewrite <- E. f_equal. lia.
    - rewrite poke_ne, Hc by done. in_range; try lia; done. }
  pose proof (for_loop_ind body (fun i m' => i <= len l /\ copied m d s i m') (fun r => r.2 = len l /\ len l < n /\ copied m d s (len l) r.1)
    (Z.to_nat n) 0 m) as L.
  assert (0 <= len l /\ copied m d s 0 m) as H0 by (split; [apply len_nonneg|intros x; in_range; [lia|done]]).
  specialize (L H0 Hstep). destruct (for_loop body (Z.to_nat n) 0 m) as [m'|[m' i]].
  - destruct L as [Hle Hc]. replace (0 + Z.of_nat (Z.to_nat n)) with n in * by lia. exists m'. by rewrite Z.min_l by lia.
  - simpl in L. destruct L as (-> & Hlt & Hc). exists m'. by rewrite Z.min_r by lia.
Qed.

(** The string at [dest] grew by the first [i] bytes of [l2] and is terminated. *)
Lemma cstr_extend m d s l1 l2 i m' :
  cstr m d l1 -> cstr m s l2 -> 0 <= i <= len l2 -> copied m (d + len l1) s i m' ->
  cstr (poke m' (d + len l1 + i) 0) d (l1 ++ take (Z.to_nat i) l2).
Proof.
  intros H1 H2 Hi Hc. apply cstr_points in H1 as [P1 Z1]. apply cstr_points in H2 as [P2 Z2]. pose proof (len_nonneg l1).
  assert (len (take (Z.to_nat i) l2) = i) as Et by (unfold len in *; rewrite length_take; lia).
  apply cstr_points. rewrite len_app, Et. split; [|by rewrite Z.add_assoc, poke_eq].
  intros j Hj. rewrite poke_ne, Hc by lia. rewrite geti_app by lia. case_decide.
  - in_range; [lia|]. apply P1; lia.
  - in_range; [|lia]. replace (d + j - (d + len l1) + s) with (s + (j - len l1)) by lia.
    assert ((take (Z.to_nat i) l2).[j - len l1] = l2.[j - len l1]) as ->.
    { unfold geti. rewrite lookup_total_take_lt; [done|lia]. }
    apply P2. lia.
Qed.

(** [strlcat] never writes outside the [size] bytes of the destination and
    leaves there the longest prefix of the concatenation that fits with its
    terminator. *)
Theorem strlcat_bounded m dest src size l1 l2 fuel :
  cstr m dest l1 -> cstr m src l2 -> len l1 < size -> apart dest size src l2 -> (length l1 < fuel)%nat ->
  exists m', strlcat fuel m dest src size = Some m' /\
    cstr m' dest (take (Z.to_nat (size - 1)) (l1 ++ l2)) /\
    forall x, ~ (dest <= x < dest + size) -> m' x = m x.
Proof.
  intros H1 H2 Hsz Hap Hf. pose proof (len_nonneg l1). pose proof (len_nonneg l2). unfold strlcat.
  rewrite (strlen_ok m dest l1 fuel H1 Hf). cbn [mbind option_bind]. rewrite (proj2 (Z.leb_gt _ _)) by done.
  destruct (copy_bounded_ok m (dest + len l1) src (size - len l1 - 1) l2) as (m' & -> & Hc); [lia|done|unfold apart in *; lia|].
  set (i := Z.min _ _) in *. exists (poke m' (dest + len l1 + i) 0). split; [done|]. split.
  - assert (take (Z.to_nat (size - 1)) (l1 ++ l2) = l1 ++ take (Z.to_nat i) l2) as ->.
    { rewrite take_app_ge by (unfold len in *; lia). f_equal. unfold i.
      destruct (decide (size - len l1 - 1 <= len l2)); [rewrite Z.min_l by lia; f_equal; unfold len in *; lia|].
      rewrite Z.min_r by lia. rewrite !take_ge by (unfold len in *; lia). done. }
    apply (cstr_extend m dest src l1 l2 i m'); try done. unfold i. lia.
  - intros x Hx. rewrite poke_ne, Hc by (unfold i; lia). in_range; [unfold i in *; lia|done].
Qed.

Definition cat_memory : memory := fun x => if (8 <=? x) && (x <? 16) then x + 57 else if x =? 20 then 68 else if x =? 21 then 69 else 0.

Lemma strlcat_bounded_witness : exists m', strlcat 9 cat_memory 20 8 6 = Some m' /\
  cstr m' 20 (take (Z.to_nat (6 - 1)) ([68; 69] ++ [65; 66; 67; 68; 69; 70; 71; 72])) /\
  forall x, ~ (20 <= x < 20 + 6) -> m' x = cat_memory x.
Proof.
  apply (strlcat_bounded cat_memory 20 8 6 [68; 69] [65; 66; 67; 68; 69; 70; 71; 72] 9);
    [vm_compute; split_and!; done|vm_compute; split_and!; done|done|vm_compute; left; done|simpl; lia].
Defined.
