(* ===== verification/Malloc.v ===== *)
(** * The user heap: libc/src/stdlib.c

    malloc, calloc, realloc and free over the block headers and the bytes of
    the blocks, sbrk over the system call brk, and the other functions of the
    file.  A header is stored apart from the bytes; what a header leaves in
    memory after its block is merged counts as uninitialised payload.  The
    kernel's brk is an operation of the class [Kernel]. *)

From stdpp Require Import gmap.
From S2P Require Import Prelude LibcString.

(** ** Data *)

Definition HDR : Z := 24.   (* sizeof(struct block) *)

Record block := mkBlock { size : Z; is_free : bool; next : Z }.
#[export] Instance block_inhabited : Inhabited block := populate (mkBlock 0 false 0).

(** What the heap needs of brk.  Results are 64-bit signed values.  A program
    starts in a state [kernel_init]; its first brk(0) fixes the lowest break
    [lo], and as long as the program asks for no less, the break is never set
    higher than asked.  (Error codes can exceed the lowest addresses.) *)
Class Kernel (K : Type) := {
  sys_brk : K -> Z -> K * Z;
  kernel_init : K -> Prop;
  kernel_ok : K -> Z -> Prop;
  brk_range k a : - 2 ^ 63 <= (sys_brk k a).2 < 2 ^ 63;
  brk_first k lo : kernel_init k -> 0 < lo -> (0 < (sys_brk k 0).2 -> lo = (sys_brk k 0).2) -> kernel_ok (sys_brk k 0).1 lo;
  brk_law k lo a : kernel_ok k lo -> lo <= a < 2 ^ 64 -> 32 <= a -> kernel_ok (sys_brk k a).1 lo /\ (sys_brk k a).2 <= a;
}.

(** The static 1 MB array of [sbrk] starts at [fallback_heap]. *)
Definition FALLBACK_SIZE : Z := 1024 * 1024.

Section malloc.
Context {K : Type} `{Kernel K} (fallback_heap : Z).

Record heap := mkHeap {
  blocks : gmap Z block;
  bytes : memory;
  free_list : Z;
  heap_brk : Z;
  kern : K;
}.

Definition hdr (h : heap) (a : Z) : block := default inhabitant (blocks h !! a).
Definition put (h : heap) (a : Z) (b : block) : heap :=
  mkHeap (<[a := b]> (blocks h)) (bytes h) (free_list h) (heap_brk h) (kern h).
Definition set_list (h : heap) (a : Z) : heap := mkHeap (blocks h) (bytes h) a (heap_brk h) (kern h).
Definition set_brk (h : heap) (b : Z) : heap := mkHeap (blocks h) (bytes h) (free_list h) b (kern h).
Definition set_kern (h : heap) (k : K) : heap := mkHeap (blocks h) (bytes h) (free_list h) (heap_brk h) k.
Definition set_bytes (h : heap) (m : memory) : heap := mkHeap (blocks h) m (free_list h) (heap_brk h) (kern h).
Definition set_next (b : block) (n : Z) : block := mkBlock (size b) (is_free b) n.
Definition set_free (b : block) (f : bool) : block := mkBlock (size b) f (next b).

(** ** sbrk *)

(** [None] is [(void* )-1]. *)
Definition sbrk_more (h : heap) (increment : Z) : heap * option Z :=
  if increment =? 0 then (h, Some (heap_brk h))
  else
    let old_brk := heap_brk h in
    let requested := u64 (old_brk + increment) in
    let '(k, new_brk) := sys_brk (kern h) requested in
    let h := set_kern h k in
    if (new_brk <=? 0) || (new_brk <? requested) then (h, None)
    else (set_brk h new_brk, Some old_brk).

Definition sbrk (h : heap) (increment : Z) : heap * option Z :=
  if heap_brk h =? 0 then
    let '(k, cur) := sys_brk (kern h) 0 in
    let h := set_kern h k in
    if cur <=? 0 then
      let h := set_brk h fallback_heap in
      if increment =? 0 then (h, Some (heap_brk h))
      else
        let old := heap_brk h in
        if fallback_heap + FALLBACK_SIZE <? heap_brk h + increment then (h, None)
        else (set_brk h (heap_brk h + increment), Some old)
    else sbrk_more (set_brk h cur) increment
  else sbrk_more h increment.

(** ** malloc *)

(** The list has no more members than there are headers. *)
Definition list_fuel (h : heap) : nat := S (base.size (blocks h)).

(** The first free block of [total] bytes from [curr] on with its predecessor,
    or 0 with the last block. *)
Fixpoint first_fit (fuel : nat) (h : heap) (total prev curr : Z) : option (Z * Z) :=
  match fuel with
  | O => None
  | S fuel =>
      if curr =? 0 then Some (prev, 0)
      else if is_free (hdr h curr) && (total <=? size (hdr h curr)) then Some (prev, curr)
      else first_fit fuel h total curr (next (hdr h curr))
  end.

Definition take_block (h : heap) (total curr : Z) : heap :=
  let b := hdr h curr in
  if u64 (total + HDR + 16) <=? size b then
    let split := curr + total in
    let h := put h split (mkBlock (size b - total) true (next b)) in
    put h curr (mkBlock total false split)
  else put h curr (set_free b false).

(** The new block at the break is linked behind the last one. *)
Definition append (h : heap) (prev mem total : Z) : heap :=
  let h := put h mem (mkBlock total false 0) in
  if negb (prev =? 0) then put h prev (set_next (hdr h prev) mem) else set_list h mem.

Definition malloc_total (n : Z) : Z := u64 (HDR + ALIGN_UP n 16).

(** [None] is a list that does not end; the pointer is 0 for NULL. *)
Definition malloc (h : heap) (n : Z) : option (heap * Z) :=
  if n =? 0 then Some (h, 0)
  else
    let total := malloc_total n in
    '(prev, curr) ← first_fit (list_fuel h) h total 0 (free_list h);
    if negb (curr =? 0) then Some (take_block h total curr, curr + HDR)
    else
      let '(h, mem) := sbrk h (swrap 64 total) in
      match mem with
      | None => Some (h, 0)
      | Some mem => Some (append h prev mem total, mem + HDR)
      end.

Definition SIZE_MAX : Z := 2 ^ 64 - 1.

Definition calloc (h : heap) (nmemb n : Z) : option (heap * Z) :=
  if negb (nmemb =? 0) && (SIZE_MAX / nmemb <? n) then Some (h, 0)
  else
    let total := u64 (nmemb * n) in
    '(h, ptr) ← malloc h total;
    Some (if ptr =? 0 then h else set_bytes h (memset (bytes h) ptr 0 total), ptr).

(** ** free *)

(** Merges the successor into the block if it is free and adjacent. *)
Definition merge_next (h : heap) (a : Z) : heap :=
  let b := hdr h a in
  let succ := next b in
  if negb (succ =? 0) && is_free (hdr h succ) && (succ =? a + size b)
  then put h a (mkBlock (u64 (size b + size (hdr h succ))) (is_free b) (next (hdr h succ)))
  else h.

(** The member of the list before [a], 0 if there is none. *)
Fixpoint find_pred (fuel : nat) (h : heap) (a pred c : Z) : option Z :=
  match fuel with
  | O => None
  | S fuel => if (c =? 0) || (c =? a) then Some pred else find_pred fuel h a c (next (hdr h c))
  end.

Definition free (h : heap) (ptr : Z) : option heap :=
  if ptr =? 0 then Some h
  else
    let a := ptr - HDR in
    let h := put h a (set_free (hdr h a) true) in
    let h := merge_next h a in
    pred ← find_pred (list_fuel h) h a 0 (free_list h);
    Some (if negb (pred =? 0) && is_free (hdr h pred) && (a =? pred + size (hdr h pred))
          then put h pred (mkBlock (u64 (size (hdr h pred) + size (hdr h a))) (is_free (hdr h pred)) (next (hdr h a)))
          else h).

(** ** realloc *)

Definition realloc (h : heap) (ptr n : Z) : option (heap * Z) :=
  if ptr =? 0 then malloc h n
  else if n =? 0 then (h ← free h ptr; Some (h, 0))
  else
    let a := ptr - HDR in
    let needed := malloc_total n in
    let b := hdr h a in
    let succ := next b in
    if needed <=? size b then Some (h, ptr)
    else if negb (succ =? 0) && is_free (hdr h succ) && (succ =? a + size b) && (needed <=? u64 (size b + size (hdr h succ)))
    then Some (put h a (mkBlock (u64 (size b + size (hdr h succ))) (is_free b) (next (hdr h succ))), ptr)
    else
      '(h, new_ptr) ← malloc h n;
      if new_ptr =? 0 then Some (h, 0)
      else
        let copy := u64 (size (hdr h a) - HDR) in
        let copy := if n <? copy then n else copy in
        h ← free (set_bytes h (memcpy (bytes h) new_ptr ptr copy)) ptr;
        Some (h, new_ptr).

(** strdup of string.c. *)
Definition strdup (fuel : nat) (h : heap) (s : Z) : option (heap * Z) :=
  n ← strlen fuel (bytes h) s;
  let len := u64 (n + 1) in
  '(h, d) ← malloc h len;
  Some (if negb (d =? 0) then set_bytes h (memcpy (bytes h) d s len) else h, d).

(** ** The abstract heap

    A list of segments that tile the heap from its base: their sizes and
    whether they are free. *)

Definition segment : Type := Z * bool.
Definition total_size (l : list segment) : Z := foldr (fun s n => s.1 + n) 0 l.

(** The first free segment that fits, with what is before and after it. *)
Fixpoint spec_fit (total : Z) (l : list segment) : option (list segment * Z * list segment) :=
  match l with
  | [] => None
  | (sz, f) :: l =>
      if f && (total <=? sz) then Some ([], sz, l)
      else '(pre, s, post) ← spec_fit total l; Some ((sz, f) :: pre, s, post)
  end.

Definition spec_take (total sz : Z) : list segment :=
  if total + HDR + 16 <=? sz then [(total, false); (sz - total, true)] else [(sz, false)].

(** Every run of free segments becomes one. *)
Fixpoint coalesce (l : list segment) : list segment :=
  match l with
  | [] => []
  | (s, false) :: l => (s, false) :: coalesce l
  | (s, true) :: l =>
      match coalesce l with
      | (t, true) :: l => (s + t, true) :: l
      | l => (s, true) :: l
      end
  end.

Definition head_free (l : list segment) : bool := match l with (_, f) :: _ => f | [] => false end.

(** No two neighbours are free. *)
Fixpoint coalesced (l : list segment) : Prop :=
  match l with
  | [] => True
  | (_, f) :: l => f && head_free l = false /\ coalesced l
  end.

(** The blocks from [a] on are the segments, linked in order; the last one
    points to [nx]. *)
Fixpoint chain (b : gmap Z block) (a : Z) (l : list segment) (nx : Z) : Prop :=
  match l with
  | [] => True
  | (sz, f) :: l =>
      b !! a = Some (mkBlock sz f (match l with [] => nx | _ => a + sz end)) /\ HDR <= sz /\ chain b (a + sz) l nx
  end.

(** Where the heap starts: the kernel's break, or the static array. *)
Definition start (k : K) : Z := if (sys_brk k 0).2 <=? 0 then fallback_heap else (sys_brk k 0).2.

Record rep (h : heap) (base : Z) (l : list segment) : Prop := {
  rp_base : 0 < base;
  rp_list : free_list h = match l with [] => 0 | _ => base end;
  rp_chain : chain (blocks h) base l 0;
  rp_brk : (heap_brk h = 0 /\ l = [] /\ start (kern h) = base) \/ heap_brk h = base + total_size l;
  rp_end : base + total_size l < 2 ^ 63;
  rp_kern : if heap_brk h =? 0 then kernel_init (kern h) else kernel_ok (kern h) base;
}.

(** The payloads of the segments in use: where they start and how long they
    are. *)
Fixpoint in_use (a : Z) (l : list segment) : list (Z * Z) :=
  match l with
  | [] => []
  | (sz, f) :: l => (if f then [] else [(a + HDR, sz - HDR)]) ++ in_use (a + sz) l
  end.

Context (fallback_ok : 0 < fallback_heap /\ fallback_heap + FALLBACK_SIZE < 2 ^ 63).

(** ** Lists of blocks *)

Lemma total_nil a : a + total_size [] = a.
Proof. apply Z.add_0_r. Qed.

Lemma total_cons x l : total_size (x :: l) = x.1 + total_size l.
Proof. done. Qed.

Lemma total_app l1 l2 : total_size (l1 ++ l2) = total_size l1 + total_size l2.
Proof. induction l1 as [|[s f] l1 IH]; simpl in *; lia. Qed.

Lemma chain_total b a l nx : chain b a l nx -> 0 <= HDR * len l <= total_size l.
Proof.
  revert a. induction l as [|[s f] l IH]; intros a; [done|].
  intros (_ & Hs & Hl). apply IH in Hl. unfold HDR in *.
  rewrite total_cons, len_cons. cbn [fst]. lia.
Qed.

Lemma chain_nonneg b a l nx : chain b a l nx -> Forall (fun s => 0 <= s.1) l.
Proof.
  revert a. induction l as [|[s f] l IH]; intros a; [constructor|]. intros (_ & Hs & Hl). unfold HDR in Hs.
  constructor; [cbn [fst]; lia|]. by eapply IH.
Qed.

Lemma chain_ext b b' a l nx :
  (forall x, a <= x < a + total_size l -> b' !! x = b !! x) -> chain b a l nx -> chain b' a l nx.
Proof.
  revert a. induction l as [|[s f] l IH]; intros a Hx; [done|].
  intros (Hb & Hs & Hl). pose proof (chain_total _ _ _ _ Hl). unfold HDR in *. rewrite total_cons in Hx. cbn [fst] in Hx.
  split_and!; [rewrite Hx; [done|lia]|done|]. apply IH; [|done]. intros x ?. apply Hx. lia.
Qed.

Lemma chain_app b a l1 l2 nx :
  chain b a (l1 ++ l2) nx <->
  chain b a l1 (match l2 with [] => nx | _ => a + total_size l1 end) /\ chain b (a + total_size l1) l2 nx.
Proof.
  revert a. induction l1 as [|[s f] l1 IH]; intros a; simpl.
  - rewrite Z.add_0_r. tauto.
  - rewrite IH, Z.add_assoc. destruct l1; simpl; [|tauto]. rewrite Z.add_0_r. destruct l2; tauto.
Qed.

(** Rewriting the end of the list. *)
Lemma chain_suffix b b' a pre rest rest' nx :
  chain b a (pre ++ rest) nx -> rest <> [] -> rest' <> [] ->
  (forall x, x < a + total_size pre -> b' !! x = b !! x) ->
  chain b' (a + total_size pre) rest' nx -> chain b' a (pre ++ rest') nx.
Proof.
  rewrite !chain_app. intros [Hp _] ?? Hx Hr. split; [|done].
  destruct rest, rest'; try done. eapply chain_ext; [|exact Hp]. intros x ?. apply Hx. lia.
Qed.

Lemma links_length b a l nx : chain b a l nx -> (length l <= base.size b)%nat.
Proof.
  revert b a. induction l as [|[s f] l IH]; intros b a; [simpl; lia|].
  intros (Hb & Hs & Hl). unfold HDR in *.
  assert (Hd : chain (delete a b) (a + s) l nx).
  { eapply chain_ext; [|exact Hl]. intros x ?. apply lookup_delete_ne. lia. }
  apply IH in Hd. rewrite map_size_delete_Some in Hd by eauto.
  assert (base.size b <> 0%nat) by (apply map_size_ne_0_lookup; eauto). simpl. lia.
Qed.

Lemma chain_at b a pre s f post nx :
  chain b a (pre ++ (s, f) :: post) nx ->
  b !! (a + total_size pre) = Some (mkBlock s f (match post with [] => nx | _ => a + total_size pre + s end)) /\
  HDR <= s /\ chain b (a + total_size pre + s) post nx.
Proof. intros [_ H']%chain_app. exact H'. Qed.

(** A chain split at a segment: its sizes. *)
Lemma chain_sizes b a pre s f post nx :
  chain b a (pre ++ (s, f) :: post) nx -> 0 <= total_size pre /\ 24 <= s /\ 0 <= total_size post.
Proof.
  intros Hc. pose proof (chain_at _ _ _ _ _ _ _ Hc) as (_ & Hs & Hp%chain_total).
  pose proof (proj1 (chain_app _ _ _ _ _) Hc) as [Hq%chain_total _]. unfold HDR in *. lia.
Qed.

Lemma total_end s f : total_size [(s, f)] = s.
Proof. apply Z.add_0_r. Qed.

(** ** Searching the list *)

(** The last block of the list, or [prev]. *)
Fixpoint last_block (prev a : Z) (l : list segment) : Z :=
  match l with [] => prev | (s, _) :: l => last_block a (a + s) l end.

Definition head_of (a : Z) (l : list segment) : Z := match l with [] => 0 | _ => a end.

Lemma last_block_snoc prev a pre s f : last_block prev a (pre ++ [(s, f)]) = a + total_size pre.
Proof.
  revert prev a. induction pre as [|[s' f'] pre IH]; intros prev a; cbn [app last_block].
  - unfold total_size. simpl. lia.
  - rewrite IH, total_cons. cbn [fst]. lia.
Qed.

Lemma first_fit_ok h total a l prev fuel :
  chain (blocks h) a l 0 -> 0 < a -> (length l < fuel)%nat ->
  first_fit fuel h total prev (head_of a l) =
  Some match spec_fit total l with
       | Some (pre, _, _) => (last_block prev a pre, a + total_size pre)
       | None => (last_block prev a l, 0)
       end.
Proof.
  revert a l prev. induction fuel as [|fuel IH]; intros a l prev Hc Ha Hf; [lia|].
  destruct l as [|[s f] l]; [done|]. destruct Hc as (Hb & Hs & Hc). unfold HDR in Hs.
  cbn [first_fit head_of spec_fit last_block]. rewrite (proj2 (Z.eqb_neq a 0)) by lia.
  unfold hdr at 1 2. rewrite Hb. cbn [default id is_free size].
  destruct (f && (total <=? s)); [cbn [last_block]; by rewrite total_nil|].
  unfold hdr. rewrite Hb. cbn [default id next].
  change (match l with [] => 0 | _ => a + s end) with (head_of (a + s) l).
  rewrite IH; [|done|lia|simpl in Hf; lia].
  destruct (spec_fit total l) as [[[pre sz] post]|]; [|done]. cbn [mbind option_bind last_block].
  rewrite total_cons. cbn [fst]. by rewrite Z.add_assoc.
Qed.

Lemma spec_fit_split total l pre sz post :
  spec_fit total l = Some (pre, sz, post) ->
  l = pre ++ (sz, true) :: post /\ total <= sz /\ spec_fit total pre = None.
Proof.
  revert pre. induction l as [|[s f] l IH]; intros pre; cbn [spec_fit]; [done|].
  destruct (f && (total <=? s)) eqn:Hf.
  - intros [= <- <- <-]. apply andb_true_iff in Hf as [-> Hf]. apply Z.leb_le in Hf. done.
  - destruct (spec_fit total l) as [[[pre' sz'] post']|]; [|done]. intros [= <- <- <-].
    destruct (IH pre' eq_refl) as (-> & ? & Hn). cbn [app spec_fit]. by rewrite Hf, Hn.
Qed.

(** The predecessor walk of free. *)
Lemma find_pred_ok h a l target pre x post prev fuel :
  l = pre ++ x :: post -> target = a + total_size pre ->
  chain (blocks h) a l 0 -> 0 < a -> (length l < fuel)%nat ->
  find_pred fuel h target prev (head_of a l) = Some (last_block prev a pre).
Proof.
  intros -> ->. revert a pre prev. induction fuel as [|fuel IH]; intros a pre prev Hc Ha Hf; [lia|].
  destruct pre as [|[s f] pre]; cbn [find_pred app head_of].
  - by rewrite total_nil, Z.eqb_refl, orb_true_r.
  - destruct Hc as (Hb & Hs & Hc). pose proof (chain_total _ _ _ _ Hc) as Ht. unfold HDR in *.
    rewrite total_app in Ht. rewrite total_cons. cbn [fst last_block].
    pose proof (proj1 (chain_app _ _ _ _ _) Hc) as [Hp _]. apply chain_total in Hp. unfold HDR in Hp.
    rewrite (proj2 (Z.eqb_neq a 0)), (proj2 (Z.eqb_neq a _)) by lia. cbn [orb].
    unfold hdr. rewrite Hb. cbn [default id next].
    replace (match pre ++ x :: post with [] => 0 | _ => a + s end) with (head_of (a + s) (pre ++ x :: post)) by done.
    rewrite Z.add_assoc. apply IH; [done|lia|]. simpl in Hf. lia.
Qed.

(** ** malloc *)

(** Nothing but the headers differs. *)
Definition headers_only (h h' : heap) : Prop :=
  bytes h' = bytes h /\ free_list h' = free_list h /\ heap_brk h' = heap_brk h /\ kern h' = kern h.

Lemma rep_headers h h' base l l' :
  rep h base l -> headers_only h h' -> chain (blocks h') base l' 0 ->
  total_size l' = total_size l -> l <> [] -> l' <> [] -> rep h' base l'.
Proof.
  intros [Hb Hl Hc Hk He Hkern] (_ & Ef & Ek & En) Hc' Et ??. destruct l as [|x l], l' as [|x' l']; try done.
  constructor; [done|by rewrite Ef|done| |lia|by rewrite Ek, En].
  right. destruct Hk as [(_ & ? & _)|Hk]; [done|]. lia.
Qed.

Lemma take_block_chain h total base pre sz post :
  chain (blocks h) base (pre ++ (sz, true) :: post) 0 -> HDR <= total <= sz -> sz < 2 ^ 63 ->
  let h' := take_block h total (base + total_size pre) in
  chain (blocks h') base (pre ++ spec_take total sz ++ post) 0 /\ headers_only h h'.
Proof.
  intros Hc Ht Hs. pose proof (chain_at _ _ _ _ _ _ _ Hc) as (Hb & _ & Hp). unfold HDR in *.
  unfold take_block, spec_take, hdr. rewrite Hb. cbn [default id size next is_free].
  rewrite wrap_small by (unfold HDR; lia). set (a := base + total_size pre) in *.
  unfold HDR. destruct (total + 24 + 16 <=? sz) eqn:E.
  - apply Z.leb_le in E. cbv zeta. split; [|done]. apply (chain_suffix _ _ _ _ _ _ _ Hc); [done|done| |].
    + intros x ?. cbn [put blocks]. rewrite !lookup_insert_ne by lia. done.
    + fold a. cbn [app chain put blocks]. unfold HDR. rewrite lookup_insert_eq.
      split_and!; [done|lia| |lia|].
      * rewrite lookup_insert_ne, lookup_insert_eq by lia.
        destruct post; [done|]. do 2 f_equal. lia.
      * replace (a + total + (sz - total)) with (a + sz) by lia.
        eapply chain_ext; [|exact Hp]. intros x ?. rewrite !lookup_insert_ne by lia. done.
  - cbv zeta. split; [|done]. apply (chain_suffix _ _ _ _ _ _ _ Hc); [done|done| |].
    + intros x ?. cbn [put blocks]. rewrite !lookup_insert_ne by lia. done.
    + fold a. cbn [app chain put blocks]. unfold HDR. rewrite lookup_insert_eq. split_and!; [done|lia|].
      eapply chain_ext; [|exact Hp]. intros x ?. rewrite !lookup_insert_ne by lia. done.
Qed.

Lemma spec_take_total total sz : total_size (spec_take total sz) = sz.
Proof. unfold spec_take. destruct (_ <=? _); rewrite !total_cons, total_nil || unfold total_size; simpl; lia. Qed.

(** The end of the heap, or failure with the segments left alone. *)
Definition sbrk_post (h : heap) (base : Z) (l : list segment) (inc : Z) (r : heap * option Z) : Prop :=
  blocks r.1 = blocks h /\ bytes r.1 = bytes h /\ free_list r.1 = free_list h /\
  match r.2 with
  | None => rep r.1 base l
  | Some mem => mem = base + total_size l /\ heap_brk r.1 = mem + inc /\ mem + inc < 2 ^ 63 /\ kernel_ok (kern r.1) base
  end.

Lemma sbrk_more_ok h h0 base l inc :
  rep h base l -> 32 <= inc < 2 ^ 63 -> heap_brk h0 = base + total_size l -> kernel_ok (kern h0) base ->
  blocks h0 = blocks h -> bytes h0 = bytes h -> free_list h0 = free_list h ->
  sbrk_post h base l inc (sbrk_more h0 inc).
Proof.
  intros [Hb Hl Hc Hk He _] Hi Ek Hkern Eb Em Ef. unfold sbrk_post, sbrk_more. rewrite (proj2 (Z.eqb_neq inc 0)) by lia.
  pose proof (chain_total _ _ _ _ Hc). unfold HDR in *. rewrite Ek, wrap_small by lia.
  destruct (sys_brk (kern h0) _) as [k nb] eqn:E. cbn [fst snd].
  pose proof (brk_range (kern h0) (base + total_size l + inc)) as Hr.
  destruct (brk_law (kern h0) base (base + total_size l + inc) Hkern ltac:(lia) ltac:(lia)) as [Hok Hle].
  rewrite E in Hr, Hok, Hle. cbn [fst snd] in *.
  destruct ((nb <=? 0) || (nb <? _)) eqn:F; cbn [fst snd]; split_and!; try done.
  - constructor; cbn [set_kern free_list blocks heap_brk kern]; try done; [congruence|by rewrite Eb|by right|].
    by rewrite Ek, (proj2 (Z.eqb_neq _ 0)) by lia.
  - apply orb_false_iff in F as [F1 F2]. apply Z.leb_gt in F1. apply Z.ltb_ge in F2. cbn. lia.
  - apply orb_false_iff in F as [F1 F2]. apply Z.ltb_ge in F2. lia.
Qed.

Lemma start_kern k : kernel_init k -> kernel_ok (sys_brk k 0).1 (start k).
Proof.
  intros Hk. apply brk_first; [done| |]; unfold start; destruct (Z.leb_spec (sys_brk k 0).2 0); lia.
Qed.

Lemma sbrk_ok h base l inc : rep h base l -> 32 <= inc < 2 ^ 63 -> sbrk_post h base l inc (sbrk h inc).
Proof.
  intros Hr Hi. pose proof (fun h0 => sbrk_more_ok h h0 base l inc Hr Hi) as Hmore. destruct Hr as [Hb Hl Hc Hk He Hkern].
  pose proof (chain_total _ _ _ _ Hc) as Ht. unfold HDR in Ht.
  unfold sbrk. destruct (heap_brk h =? 0) eqn:E0.
  2: { apply Z.eqb_neq in E0. destruct Hk as [(? & _)|Hk]; [lia|]. by apply Hmore. }
  destruct Hk as [(_ & -> & Hs)|Hk]; [|apply Z.eqb_eq in E0; lia]. rewrite total_nil in *.
  pose proof (start_kern _ Hkern) as Hok. rewrite Hs in Hok.
  unfold start in Hs. destruct (sys_brk (kern h) 0) as [k cur]. cbn [fst snd] in Hs, Hok.
  destruct (cur <=? 0); [|by apply Hmore].
  subst base. rewrite (proj2 (Z.eqb_neq inc 0)) by lia. unfold sbrk_post. cbn [set_brk set_kern heap_brk].
  destruct (_ <? _) eqn:F; cbn [fst snd]; split_and!; try done.
  - constructor; cbn [set_brk set_kern heap_brk blocks free_list kern];
      [done|done|done|right; by rewrite total_nil|rewrite total_nil; unfold FALLBACK_SIZE in *; lia|].
    by rewrite (proj2 (Z.eqb_neq _ 0)) by lia.
  - by rewrite total_nil.
  - apply Z.ltb_ge in F. lia.
Qed.

Lemma malloc_total_ok n : 0 < n <= 2 ^ 63 - 64 -> malloc_total n = HDR + (n + 15) / 16 * 16 /\ HDR + n <= malloc_total n < 2 ^ 63 /\ 40 <= malloc_total n.
Proof.
  intros Hn. unfold malloc_total, ALIGN_UP, HDR. rewrite (wrap_small _ (n + 16 - 1)) by lia.
  rewrite (land_lnot_ones _ 4) by lia. change (2 ^ 4) with 16. replace (n + 16 - 1) with (n + 15) by lia.
  pose proof (Z.div_mod (n + 15) 16 ltac:(lia)). pose proof (Z.mod_pos_bound (n + 15) 16 ltac:(lia)).
  rewrite wrap_small by lia. lia.
Qed.

(** What malloc does to the segments. *)
Definition malloc_spec (base n : Z) (l : list segment) (ptr : Z) (l' : list segment) : Prop :=
  match spec_fit (malloc_total n) l with
  | Some (pre, sz, post) => ptr = base + total_size pre + HDR /\ l' = pre ++ spec_take (malloc_total n) sz ++ post
  | None => (ptr = 0 /\ l' = l) \/ (ptr = base + total_size l + HDR /\ l' = l ++ [(malloc_total n, false)])
  end.

Lemma append_ok h h1 base l T :
  rep h base l -> blocks h1 = blocks h -> free_list h1 = free_list h -> kernel_ok (kern h1) base -> HDR <= T ->
  heap_brk h1 = base + total_size l + T -> base + total_size l + T < 2 ^ 63 ->
  rep (append h1 (last_block 0 base l) (base + total_size l) T) base (l ++ [(T, false)]).
Proof.
  intros [Hb Hl Hc _ _ _] Eb Ef Hkern HT Hbrk Hend. unfold append. cbv zeta.
  destruct l as [|[s f] l0 _] using rev_ind.
  - cbn [last_block Z.eqb negb app]. rewrite !total_nil in *.
    constructor; cbn [set_list put blocks free_list heap_brk kern]; [done|done| |right; rewrite total_end; lia|rewrite total_end; lia|].
    2: { by rewrite (proj2 (Z.eqb_neq _ 0)) by (unfold HDR in HT; lia). }
    cbn [chain]. rewrite lookup_insert_eq. done.
  - rewrite last_block_snoc.
    pose proof (chain_at _ _ _ _ _ _ _ Hc) as (Hx & Hs & _). pose proof (chain_sizes _ _ _ _ _ _ _ Hc).
    rewrite (proj2 (Z.eqb_neq (base + total_size l0) 0)) by lia. cbn [negb].
    rewrite total_app, total_end in *.
    assert (Hfin : base + total_size ((l0 ++ [(s, f)]) ++ [(T, false)]) = base + (total_size l0 + s) + T)
      by (rewrite !total_app, !total_end; lia).
    constructor; cbn [put set_next blocks free_list heap_brk kern];
      [done| | |right; refine (eq_trans Hbrk (eq_sym Hfin))|refine (eq_ind_r (fun z => z < _) Hend Hfin)|].
    3: { by rewrite (proj2 (Z.eqb_neq _ 0)) by (unfold HDR in HT; lia). }
    + rewrite Ef, Hl. by destruct l0.
    + rewrite <- app_assoc. cbn [app]. refine (chain_suffix _ _ _ _ _ _ _ Hc _ _ _ _); [done|done| |].
      * intros y ?. rewrite !lookup_insert_ne by lia. by rewrite Eb.
      * cbn [chain]. rewrite lookup_insert_eq. unfold hdr. cbn [put blocks].
        rewrite lookup_insert_ne by lia. rewrite Eb, Hx. cbn [default id set_next size is_free].
        split_and!; [do 2 f_equal; lia|done| |done|done].
        rewrite lookup_insert_ne by lia. by rewrite Z.add_assoc, lookup_insert_eq.
Qed.

Lemma malloc_ok h base l n :
  rep h base l -> 0 < n <= 2 ^ 63 - 64 ->
  exists h' ptr l', malloc h n = Some (h', ptr) /\ bytes h' = bytes h /\ rep h' base l' /\ malloc_spec base n l ptr l'.
Proof.
  intros Hr Hn. destruct (malloc_total_ok n Hn) as [_ Ht]. unfold malloc, malloc_spec. cbv zeta.
  rewrite (proj2 (Z.eqb_neq n 0)) by lia. set (T := malloc_total n) in *. clearbody T.
  pose proof Hr as [Hb Hl Hc Hk He _]. unfold HDR in Ht.
  replace (free_list h) with (head_of base l) by (rewrite Hl; done).
  rewrite (first_fit_ok h T base l 0);
    [|exact Hc|done|unfold list_fuel; apply Nat.lt_succ_r; exact (links_length _ _ _ _ Hc)].
  cbn [mbind option_bind].
  destruct (spec_fit T l) as [[[pre sz] post]|] eqn:Hf.
  - destruct (spec_fit_split _ _ _ _ _ Hf) as (-> & Hsz & _).
    pose proof (chain_sizes _ _ _ _ _ _ _ Hc). rewrite total_app, total_cons in He. cbn [fst] in He.
    rewrite (proj2 (Z.eqb_neq (base + total_size pre) 0)) by lia. cbn [negb].
    destruct (take_block_chain h T base pre sz post Hc) as [Hc' Hh]; [unfold HDR; lia|lia|].
    eexists _, _, _. split; [reflexivity|]. split; [apply Hh|]. split; [|done].
    refine (rep_headers h _ base _ _ Hr Hh Hc' _ _ _).
    + by rewrite !total_app, spec_take_total, total_cons.
    + by destruct pre.
    + destruct pre; [|done]. unfold spec_take. by destruct (_ <=? _).
  - cbn [Z.eqb negb]. rewrite swrap_small by lia.
    destruct (sbrk_ok h base l T Hr) as (Eb & Em & Ef & Hs); [lia|].
    destruct (sbrk h T) as [h1 [mem|]]; cbn [fst snd] in *; [|exists h1, 0, l; split; [done|]; split; [done|]; split; [exact Hs|by left]].
    destruct Hs as (-> & Hbrk & Hend & Hkern).
    eexists (append h1 _ _ T), _, _. split; [reflexivity|]. split; [unfold append; by destruct (negb _)|].
    split; [|right; split; reflexivity]. apply (append_ok h); try done. unfold HDR. lia.
Qed.

(** ** Coalescing *)

Lemma coalesce_id l : coalesced l -> coalesce l = l.
Proof.
  induction l as [|[s [|]] l IH]; [done| |]; intros [Hf Hl]; cbn [coalesce]; rewrite (IH Hl); [|done].
  destruct l as [|[t [|]] l]; done.
Qed.

Lemma coalesce_total l : total_size (coalesce l) = total_size l.
Proof.
  induction l as [|[s [|]] l IH]; [done| |]; cbn [coalesce].
  - rewrite (total_cons _ l), <- IH. destruct (coalesce l) as [|[t [|]] l']; rewrite !total_cons; cbn [fst]; lia.
  - by rewrite !total_cons, IH.
Qed.

Lemma coalesce_coalesced l : coalesced (coalesce l).
Proof.
  induction l as [|[s [|]] l IH]; [done| |]; cbn [coalesce]; [|done].
  destruct (coalesce l) as [|[t [|]] l']; [done| |by split].
  destruct IH as [Hf Hl]. split; [exact Hf|done].
Qed.

(** The free block [sz] in front of [post], its successor merged into it. *)
Definition merge_right (sz : Z) (post : list segment) : list segment :=
  match post with (s, true) :: post => (sz + s, true) :: post | _ => (sz, true) :: post end.

Lemma coalesce_right sz post : coalesced post -> coalesce ((sz, true) :: post) = merge_right sz post.
Proof. intros H'. cbn [coalesce]. rewrite (coalesce_id _ H'). by destruct post as [|[s [|]] post]. Qed.

Lemma merge_right_cons sz post : exists sz' post', merge_right sz post = (sz', true) :: post' /\ total_size (merge_right sz post) = sz + total_size post.
Proof.
  destruct post as [|[s [|]] post]; eexists _, _; (split; [reflexivity|]); cbn [merge_right]; rewrite !total_cons; cbn [fst]; lia.
Qed.

Lemma coalesced_app l1 l2 : coalesced (l1 ++ l2) -> coalesced l1 /\ coalesced l2.
Proof.
  induction l1 as [|[s f] l1 IH]; [done|]. intros [Hf Hl]. apply IH in Hl as [H1 H2]. split; [|done].
  split; [|done]. destruct l1; [apply andb_false_r|done].
Qed.

(** Merging stops at a segment in use, and at a free one already merged. *)
Lemma coalesce_used pre s l : coalesced pre -> coalesce (pre ++ (s, false) :: l) = pre ++ (s, false) :: coalesce l.
Proof.
  induction pre as [|[t [|]] pre IH]; [done| |]; intros [Hf Hp]; cbn [app coalesce]; rewrite (IH Hp); [|done].
  destruct pre as [|[u [|]] pre]; done.
Qed.

Lemma coalesce_free pre s l : coalesced (pre ++ [(s, true)]) -> coalesce (pre ++ (s, true) :: l) = pre ++ coalesce ((s, true) :: l).
Proof.
  induction pre as [|[t [|]] pre IH]; [done| |]; intros [Hf Hp]; cbn [app] in *; cbn [coalesce]; rewrite (IH Hp); [|done].
  destruct pre as [|[u [|]] pre]; done.
Qed.

(** ** free *)

Lemma rep_put h a b : headers_only h (put h a b).
Proof. done. Qed.

Lemma hdr_at h a b : blocks h !! a = Some b -> hdr h a = b.
Proof. unfold hdr. by intros ->. Qed.

(** Replacing the block [(s, f)] between [pre] and [post]. *)
Lemma put_chain h base pre s f rest s' f' rest' nx :
  chain (blocks h) base (pre ++ (s, f) :: rest) 0 -> 24 <= s' ->
  nx = head_of (base + total_size pre + s') rest' ->
  chain (blocks h) (base + total_size pre + s') rest' 0 ->
  chain (blocks (put h (base + total_size pre) (mkBlock s' f' nx))) base (pre ++ (s', f') :: rest') 0.
Proof.
  intros Hc Hs -> Hr. apply (chain_suffix _ _ _ _ _ _ _ Hc); [done|done| |].
  - intros x ?. cbn [put blocks]. by rewrite lookup_insert_ne by lia.
  - cbn [chain put blocks]. rewrite lookup_insert_eq. split_and!; [done|exact Hs|].
    eapply chain_ext; [|exact Hr]. intros x ?. by rewrite lookup_insert_ne by lia.
Qed.

Lemma merge_next_chain h base pre sz post :
  chain (blocks h) base (pre ++ (sz, true) :: post) 0 -> 0 < base -> base + total_size (pre ++ (sz, true) :: post) < 2 ^ 63 ->
  let h' := merge_next h (base + total_size pre) in
  chain (blocks h') base (pre ++ merge_right sz post) 0 /\ headers_only h h'.
Proof.
  intros Hc Hb He. pose proof (chain_at _ _ _ _ _ _ _ Hc) as (Ha & Hs & Hp).
  pose proof (chain_sizes _ _ _ _ _ _ _ Hc). rewrite total_app, total_cons in He. cbn [fst] in He.
  unfold merge_next. cbv zeta. rewrite (hdr_at _ _ _ Ha). cbn [next size is_free].
  destruct post as [|[s f] post]; [done|].
  destruct Hp as (Hn & Hs' & Hp). pose proof (chain_total _ _ _ _ Hp). unfold HDR in *.
  rewrite total_cons in *. cbn [fst] in *.
  rewrite (proj2 (Z.eqb_neq (base + total_size pre + sz) 0)) by lia.
  rewrite (hdr_at _ _ _ Hn). cbn [next size is_free negb andb]. rewrite Z.eqb_refl, andb_true_r.
  destruct f; [|done]. rewrite wrap_small by lia. cbn [merge_right]. split; [|done].
  apply (put_chain _ _ _ _ _ _ _ _ _ _ Hc); [lia| |]; by rewrite Z.add_assoc.
Qed.

Lemma headers_trans h1 h2 h3 : headers_only h1 h2 -> headers_only h2 h3 -> headers_only h1 h3.
Proof. intros (?&?&?&?) (?&?&?&?). unfold headers_only. split_and!; congruence. Qed.

Lemma coalesce_freed pre s f sz post :
  coalesced ((pre ++ [(s, f)]) ++ (sz, false) :: post) ->
  coalesce ((pre ++ [(s, f)]) ++ (sz, true) :: post) =
  pre ++ (if f then match merge_right sz post with (z, _) :: post => (s + z, true) :: post | [] => [] end
          else (s, false) :: merge_right sz post).
Proof.
  intros [Hpre [_ Hpost]]%coalesced_app. rewrite <- app_assoc. cbn [app]. destruct f.
  - rewrite (coalesce_free _ _ _ Hpre). f_equal. cbn [coalesce]. fold (coalesce ((sz, true) :: post)).
    pose proof (coalesce_right sz post Hpost) as E. cbn [coalesce] in E. rewrite E.
    destruct (merge_right_cons sz post) as (z & p & -> & _). done.
  - apply coalesced_app in Hpre as [Hpre _]. by rewrite (coalesce_used _ _ _ Hpre), (coalesce_right _ _ Hpost).
Qed.

Lemma free_ok h base pre sz post :
  rep h base (pre ++ (sz, false) :: post) -> coalesced (pre ++ (sz, false) :: post) ->
  exists h', free h (base + total_size pre + HDR) = Some h' /\ headers_only h h' /\
             rep h' base (coalesce (pre ++ (sz, true) :: post)).
Proof.
  intros Hr Hn. pose proof Hr as [Hb Hl Hc _ He _].
  pose proof (chain_at _ _ _ _ _ _ _ Hc) as (Ha & Hs & Hp). pose proof (chain_sizes _ _ _ _ _ _ _ Hc) as Hz. unfold HDR in Hs.
  set (a := base + total_size pre) in *. unfold free.
  rewrite (proj2 (Z.eqb_neq (a + HDR) 0)) by (unfold HDR, a; lia). replace (a + HDR - HDR) with a by lia. cbv zeta.
  rewrite (hdr_at _ _ _ Ha). unfold set_free. cbn [size next].
  set (h1 := put h a _).
  assert (Hc1 : chain (blocks h1) base (pre ++ (sz, true) :: post) 0).
  { apply (put_chain _ _ _ _ _ _ _ _ _ _ Hc); [lia|done|exact Hp]. }
  assert (Hh1 : headers_only h h1) by done.
  assert (He1 : base + total_size (pre ++ (sz, true) :: post) < 2 ^ 63) by (rewrite total_app, total_cons in *; exact He).
  clearbody h1. destruct (merge_next_chain _ _ _ _ _ Hc1 Hb He1) as [Hc2 Hh2]. fold a in Hc2, Hh2.
  set (h2 := merge_next h1 a) in *. clearbody h2. pose proof (headers_trans _ _ _ Hh1 Hh2) as Hh.
  destruct (merge_right_cons sz post) as (z & post' & Em & Et). rewrite Em in Hc2.
  replace (free_list h2) with (head_of base (pre ++ (z, true) :: post'))
    by (destruct Hh as (_ & -> & _); rewrite Hl; by destruct pre).
  rewrite (find_pred_ok h2 base _ a pre (z, true) post' 0 _ eq_refl eq_refl Hc2 Hb)
    by (unfold list_fuel; apply Nat.lt_succ_r; exact (links_length _ _ _ _ Hc2)).
  cbn [mbind option_bind].
  assert (Hdone : forall h3 l3, headers_only h2 h3 -> chain (blocks h3) base l3 0 -> l3 = coalesce (pre ++ (sz, true) :: post) ->
    exists h', Some h3 = Some h' /\ headers_only h h' /\ rep h' base (coalesce (pre ++ (sz, true) :: post))).
  { intros h3 l3 Hh3 Hc3 ->. exists h3. split; [done|]. pose proof (headers_trans _ _ _ Hh Hh3) as Hh'. split; [done|].
    assert (Ht : total_size (coalesce (pre ++ (sz, true) :: post)) = total_size (pre ++ (sz, false) :: post))
      by (by rewrite coalesce_total, !total_app, !total_cons).
    refine (rep_headers h h3 base _ _ Hr Hh' Hc3 Ht _ _); [by destruct pre|]. intros E. rewrite E in Ht.
    rewrite total_app, total_cons in Ht. cbn [fst] in Ht. unfold total_size at 1 in Ht. cbn [foldr] in Ht. lia. }
  destruct pre as [|[s f] pre0 _] using rev_ind.
  - cbn [last_block Z.eqb negb andb]. refine (Hdone h2 _ _ Hc2 _); [done|].
    cbn [app]. rewrite <- Em. symmetry. apply coalesce_right. by destruct Hn.
  - rewrite last_block_snoc. rewrite <- app_assoc in Hc2. cbn [app] in Hc2.
    pose proof (chain_at _ _ _ _ _ _ _ Hc2) as (Hq & Hs' & Hw). pose proof (chain_sizes _ _ _ _ _ _ _ Hc2) as Hz'.
    rewrite (proj2 (Z.eqb_neq (base + total_size pre0) 0)) by lia.
    assert (Ea : a = base + total_size pre0 + s) by (unfold a; rewrite total_app, total_end; lia).
    rewrite (hdr_at _ _ _ Hq). cbn [negb andb is_free size]. rewrite Ea, Z.eqb_refl, andb_true_r.
    pose proof (coalesce_freed _ _ _ _ _ Hn) as Eco. rewrite Em in Eco.
    destruct f; [|refine (Hdone h2 _ _ Hc2 _); [done|by rewrite Eco]].
    destruct Hw as (Hw & Hsz & Hpost). rewrite (hdr_at _ _ _ Hw). cbn [size next].
    rewrite !total_app, total_end, total_cons in He1. rewrite Em, total_cons in Et. cbn [fst] in He1, Et.
    pose proof (chain_total _ _ _ _ Hpost). unfold HDR in *.
    rewrite wrap_small by lia. refine (Hdone _ _ _ _ (eq_sym Eco)); [done|].
    apply (put_chain _ _ _ _ _ _ _ _ _ _ Hc2); [lia| |]; by rewrite Z.add_assoc.
Qed.

(** ** Payloads *)

Lemma in_use_app a l1 l2 : in_use a (l1 ++ l2) = in_use a l1 ++ in_use (a + total_size l1) l2.
Proof.
  revert a. induction l1 as [|[s f] l1 IH]; intros a; cbn [app in_use].
  - by rewrite total_nil.
  - by rewrite IH, total_cons, Z.add_assoc, app_assoc.
Qed.

Lemma in_use_coalesce a l : in_use a (coalesce l) = in_use a l.
Proof.
  revert a. induction l as [|[s [|]] l IH]; intros a; [done| |]; cbn [coalesce in_use]; rewrite <- IH; [|done].
  destruct (coalesce l) as [|[t [|]] l']; [done| |done]. cbn [in_use app]. by rewrite Z.add_assoc.
Qed.

Lemma in_use_at a pre sz post :
  in_use a (pre ++ (sz, false) :: post) ≡ₚ
  (a + total_size pre + HDR, sz - HDR) :: in_use a pre ++ in_use (a + total_size pre + sz) post.
Proof. rewrite in_use_app. cbn [in_use app]. symmetry. apply Permutation_middle. Qed.

Lemma in_use_free a pre sz post :
  in_use a (pre ++ (sz, true) :: post) = in_use a pre ++ in_use (a + total_size pre + sz) post.
Proof. by rewrite in_use_app. Qed.

Lemma in_use_split a l p u :
  (p, u) ∈ in_use a l -> exists pre sz post, l = pre ++ (sz, false) :: post /\ p = a + total_size pre + HDR /\ u = sz - HDR.
Proof.
  revert a. induction l as [|[s f] l IH]; intros a; cbn [in_use]; [by intros ?%elem_of_nil|].
  rewrite elem_of_app. intros [Hp|Hp].
  - destruct f; [by apply elem_of_nil in Hp|]. apply list_elem_of_singleton in Hp as [= -> ->].
    exists [], s, l. by rewrite total_nil.
  - destruct (IH _ Hp) as (pre & sz & post & -> & -> & ->). exists ((s, f) :: pre), sz, post.
    split_and!; [done| |done]. rewrite total_cons. cbn [fst]. lia.
Qed.

Lemma spec_take_used a total sz post :
  in_use a (spec_take total sz ++ post) = (a + HDR, (if total + HDR + 16 <=? sz then total else sz) - HDR) :: in_use (a + sz) post.
Proof.
  unfold spec_take. destruct (_ <=? _); cbn [app in_use]; [|done]. do 2 f_equal. lia.
Qed.

(** What malloc hands out is added to the payloads in use. *)
Lemma malloc_spec_used h base n l ptr l' :
  malloc_spec base n l ptr l' -> 0 < n <= 2 ^ 63 - 64 -> rep h base l ->
  (ptr = 0 /\ l' = l) \/ (base + HDR <= ptr /\ exists u, n <= u /\ in_use base l' ≡ₚ (ptr, u) :: in_use base l).
Proof.
  intros Hm Hn [Hb _ Hc _ _ _]. destruct (malloc_total_ok n Hn) as [_ Ht]. unfold malloc_spec in Hm.
  pose proof (chain_total _ _ _ _ Hc) as Hl. unfold HDR in Hl.
  set (T := malloc_total n) in *. clearbody T. unfold HDR in Ht.
  destruct (spec_fit T l) as [[[pre sz] post]|] eqn:Hf.
  - destruct Hm as [-> ->]. destruct (spec_fit_split _ _ _ _ _ Hf) as (-> & Hsz & _). right.
    pose proof (chain_sizes _ _ _ _ _ _ _ Hc). split; [lia|].
    eexists. split; [|rewrite in_use_app, spec_take_used, in_use_free; symmetry; apply Permutation_middle].
    unfold HDR. destruct (_ <=? _); lia.
  - destruct Hm as [?|[-> ->]]; [by left|right]. split; [lia|]. exists (T - HDR). split; [unfold HDR; lia|].
    rewrite in_use_app. cbn [in_use app]. symmetry. apply Permutation_cons_append.
Qed.

Lemma coalesced_join l1 x l2 : coalesced (l1 ++ [x]) -> coalesced (x :: l2) -> coalesced (l1 ++ x :: l2).
Proof.
  induction l1 as [|[s f] l1 IH]; [done|]. intros [Hf Hl] Hx. split; [|by apply IH].
  by destruct l1.
Qed.

Lemma coalesced_snoc l s : coalesced l -> coalesced (l ++ [(s, false)]).
Proof.
  induction l as [|[t f] l IH]; [done|]. intros [Hf Hl]. split; [|by apply IH].
  destruct l; [apply andb_false_r|done].
Qed.

Lemma malloc_spec_coalesced base n l ptr l' : malloc_spec base n l ptr l' -> coalesced l -> coalesced l'.
Proof.
  unfold malloc_spec. intros Hm Hl. destruct (spec_fit _ l) as [[[pre sz] post]|] eqn:Hf.
  - destruct Hm as [_ ->]. destruct (spec_fit_split _ _ _ _ _ Hf) as (-> & _ & _).
    apply coalesced_app in Hl as [Hpre [Hh Hpost]]. unfold spec_take.
    destruct (_ <=? _); (apply coalesced_join; [by apply coalesced_snoc|]); [|by split].
    split; [done|]. by split.
  - destruct Hm as [[_ ->]|[_ ->]]; [done|]. by apply coalesced_snoc.
Qed.

Lemma in_use_bounds b a l nx x :
  chain b a l nx -> x ∈ in_use a l -> a + HDR <= x.1 /\ 0 <= x.2 /\ x.1 + x.2 <= a + total_size l.
Proof.
  intros Hc Hx. destruct x as [p u]. destruct (in_use_split _ _ _ _ Hx) as (pre & sz & post & -> & -> & ->).
  pose proof (chain_sizes _ _ _ _ _ _ _ Hc). rewrite total_app, total_cons. unfold HDR. cbn [fst snd]. lia.
Qed.

Lemma in_use_apart b a l nx :
  chain b a l nx ->
  NoDup (in_use a l).*1 /\ (forall x y, x ∈ in_use a l -> y ∈ in_use a l -> x.1 < y.1 -> x.1 + x.2 + HDR <= y.1).
Proof.
  revert a. induction l as [|[s f] l IH]; intros a Hc.
  { split; [constructor|by intros x y ?%elem_of_nil]. }
  destruct Hc as (_ & Hs & Hc). destruct (IH _ Hc) as [Hn Hd]. unfold HDR in Hs.
  destruct f; cbn [in_use app]; [by split|]. pose proof (fun x => in_use_bounds b (a + s) l nx x Hc) as Hx.
  unfold HDR in *. split.
  - cbn [fmap list_fmap]. constructor; [|done]. intros ([q v] & Hq & Hin)%list_elem_of_fmap.
    apply Hx in Hin. cbn [fst snd] in *. lia.
  - intros x y [->|Hx']%elem_of_cons [->|Hy]%elem_of_cons; cbn [fst snd]; try lia.
    + intros _. apply Hx in Hy. lia.
    + intros ?. apply Hx in Hx'. lia.
    + by apply Hd.
Qed.

(** ** What the heap promises

    [used]: the payloads that have been handed out. *)
Definition heap_ok (h : heap) (used : list (Z * Z)) : Prop :=
  exists base l, rep h base l /\ coalesced l /\ used ≡ₚ in_use base l.

Lemma heap_ok_start m k : kernel_init k -> heap_ok (mkHeap ∅ m 0 0 k) [].
Proof.
  intros Hk. exists (start k), []. split; [|by split]. pose proof (brk_range k 0). unfold start, FALLBACK_SIZE in *.
  constructor; cbn [free_list blocks heap_brk kern]; [|done|done|by left| |done]; rewrite ?total_nil; unfold start;
    destruct (Z.leb_spec (sys_brk k 0).2 0); lia.
Qed.

Lemma heap_ok_perm h used used' : used ≡ₚ used' -> heap_ok h used -> heap_ok h used'.
Proof. intros Hp (base & l & Hr & Hc & Hu). exists base, l. by rewrite <- Hp. Qed.

Lemma heap_ok_bytes h used m : heap_ok h used -> heap_ok (set_bytes h m) used.
Proof. intros (base & l & [] & ? & ?). exists base, l. by split_and!. Qed.

Lemma heap_ok_apart h used :
  heap_ok h used ->
  NoDup used.*1 /\ (forall x, x ∈ used -> 0 < x.1 /\ 0 <= x.2 /\ x.1 + x.2 < 2 ^ 63) /\
  (forall x y, x ∈ used -> y ∈ used -> x.1 <> y.1 -> x.1 + x.2 + HDR <= y.1 \/ y.1 + y.2 + HDR <= x.1).
Proof.
  intros (base & l & [Hb _ Hc _ He _] & _ & Hp). destruct (in_use_apart _ _ _ _ Hc) as [Hn Hd].
  split; [by rewrite Hp|]. split.
  - intros x Hx. rewrite Hp in Hx. apply (in_use_bounds _ _ _ _ _ Hc) in Hx. unfold HDR in Hx. lia.
  - intros x y. rewrite !Hp. intros Hx Hy Hne. pose proof (Hd x y Hx Hy). pose proof (Hd y x Hy Hx). lia.
Qed.

Lemma malloc_used h used n :
  heap_ok h used -> 0 < n <= 2 ^ 63 - 64 ->
  exists h' p, malloc h n = Some (h', p) /\ bytes h' = bytes h /\
    ((p = 0 /\ heap_ok h' used) \/ (0 < p /\ exists u, n <= u /\ heap_ok h' ((p, u) :: used))).
Proof.
  intros (base & l & Hr & Hc & Hp) Hn. destruct (malloc_ok h base l n Hr Hn) as (h' & p & l' & E & Em & Hr' & Hm).
  exists h', p. split; [done|]. split; [done|]. pose proof (malloc_spec_coalesced _ _ _ _ _ Hm Hc) as Hc'.
  destruct (malloc_spec_used _ _ _ _ _ _ Hm Hn Hr) as [[-> ->]|(Hb & u & Hu & Hp')]; [left|right].
  - split; [done|]. by exists base, l.
  - pose proof (rp_base _ _ _ Hr). split; [unfold HDR in Hb; lia|]. exists u. split; [done|].
    exists base, l'. split_and!; [done|done|]. by rewrite Hp', Hp.
Qed.

Lemma heap_ok_split h p u used :
  heap_ok h ((p, u) :: used) ->
  exists base pre sz post, rep h base (pre ++ (sz, false) :: post) /\ coalesced (pre ++ (sz, false) :: post) /\
    p = base + total_size pre + HDR /\ u = sz - HDR /\
    used ≡ₚ in_use base pre ++ in_use (base + total_size pre + sz) post.
Proof.
  intros (base & l & Hr & Hc & Hp). assert (Hin : (p, u) ∈ in_use base l) by (rewrite <- Hp; left).
  destruct (in_use_split _ _ _ _ Hin) as (pre & sz & post & -> & -> & ->).
  exists base, pre, sz, post. split_and!; try done. rewrite in_use_at in Hp. by apply Permutation_cons_inv in Hp.
Qed.

Lemma free_used h p u used :
  heap_ok h ((p, u) :: used) -> exists h', free h p = Some h' /\ bytes h' = bytes h /\ heap_ok h' used.
Proof.
  intros (base & pre & sz & post & Hr & Hc & -> & -> & Hp)%heap_ok_split.
  destruct (free_ok _ _ _ _ _ Hr Hc) as (h' & E & (Em & _) & Hr'). exists h'. split_and!; [done|done|].
  exists base, (coalesce (pre ++ (sz, true) :: post)). split_and!; [done|apply coalesce_coalesced|].
  by rewrite in_use_coalesce, in_use_free.
Qed.

Lemma calloc_used h used nmemb n :
  heap_ok h used -> 0 <= nmemb < 2 ^ 64 -> 0 <= n < 2 ^ 64 -> nmemb * n <= 2 ^ 63 - 64 \/ 2 ^ 64 <= nmemb * n ->
  exists h' p, calloc h nmemb n = Some (h', p) /\
    ((p = 0 /\ bytes h' = bytes h /\ heap_ok h' used) \/
     (0 < p /\ (exists u, nmemb * n <= u /\ heap_ok h' ((p, u) :: used)) /\
      forall x, bytes h' x = if (p <=? x) && (x <? p + nmemb * n) then 0 else bytes h x)).
Proof.
  intros Hh Hm Hn Hc. unfold calloc, SIZE_MAX.
  destruct (negb (nmemb =? 0) && ((2 ^ 64 - 1) / nmemb <? n)) eqn:E; [exists h, 0; split; [done|by left]|].
  assert (Hle : nmemb * n < 2 ^ 64).
  { destruct (Z.eqb_spec nmemb 0) as [->|]; [lia|]. cbn [negb andb] in E. apply Z.ltb_ge in E.
    pose proof (Z.mul_div_le (2 ^ 64 - 1) nmemb ltac:(lia)). nia. }
  cbv zeta. rewrite wrap_small by nia. destruct (Z.eq_dec (nmemb * n) 0) as [->|].
  { exists h, 0. split; [done|by left]. }
  destruct (malloc_used h used (nmemb * n) Hh) as (h' & p & -> & Em & Hp); [nia|]. cbn [mbind option_bind].
  destruct Hp as [[-> Hp]|(Hp0 & u & Hu & Hp)]; [exists h', 0; split; [done|by left]|].
  rewrite (proj2 (Z.eqb_neq p 0)) by lia. eexists _, p. split; [done|]. right. split; [done|]. split.
  - exists u. split; [done|]. by apply heap_ok_bytes.
  - intros x. cbn [set_bytes bytes]. rewrite memset_filled by nia. by rewrite Em.
Qed.

(** A block takes the free one behind it. *)
Lemma absorb_ok h base pre sz s post :
  rep h base (pre ++ (sz, false) :: (s, true) :: post) -> coalesced (pre ++ (sz, false) :: (s, true) :: post) ->
  let a := base + total_size pre in
  let h' := put h a (mkBlock (sz + s) false (head_of (a + (sz + s)) post)) in
  rep h' base (pre ++ (sz + s, false) :: post) /\ coalesced (pre ++ (sz + s, false) :: post).
Proof.
  intros Hr Hc. pose proof (rp_chain _ _ _ Hr) as Hch. pose proof (chain_sizes _ _ _ _ _ _ _ Hch) as (_ & Hs & _).
  pose proof (chain_at _ _ _ _ _ _ _ Hch) as (_ & _ & (_ & Hs' & Hp)). unfold HDR in Hs'. cbv zeta. split.
  - refine (rep_headers h _ base _ _ Hr (rep_put _ _ _) _ _ _ _); [| |by destruct pre|by destruct pre].
    + apply (put_chain _ _ _ _ _ _ _ _ _ _ Hch); [lia|done|]. by rewrite Z.add_assoc.
    + rewrite !total_app, !total_cons. cbn [fst]. lia.
  - apply coalesced_app in Hc as [Hpre (_ & Hh & Hpost)]. apply coalesced_join; [by apply coalesced_snoc|]. by split.
Qed.

Lemma NoDup_head {A} (x : A) l : NoDup (x :: l) -> x ∉ l.
Proof. by inversion 1. Qed.

Lemma size_used h p u used : heap_ok h ((p, u) :: used) -> p <> 0 /\ size (hdr h (p - HDR)) = u + HDR /\ 0 <= u < 2 ^ 63 - HDR.
Proof.
  intros Hh. pose proof Hh as (base & pre & sz & post & Hr & _ & -> & -> & _)%heap_ok_split.
  pose proof (chain_at _ _ _ _ _ _ _ (rp_chain _ _ _ Hr)) as (Ha & _ & _).
  pose proof (chain_sizes _ _ _ _ _ _ _ (rp_chain _ _ _ Hr)). destruct Hr as [Hb _ _ _ He _].
  rewrite total_app, total_cons in He. cbn [fst] in He. unfold HDR in *.
  replace (base + total_size pre + 24 - 24) with (base + total_size pre) by lia. rewrite (hdr_at _ _ _ Ha). cbn [size]. lia.
Qed.

(** realloc in place, when its test succeeds. *)
Lemma grow_in_place h p u used T :
  heap_ok h ((p, u) :: used) ->
  (let b := hdr h (p - HDR) in
   negb (next b =? 0) && is_free (hdr h (next b)) && (next b =? p - HDR + size b) &&
   (T <=? u64 (size b + size (hdr h (next b))))) = true ->
  exists v, T - HDR <= v /\
    heap_ok (put h (p - HDR) (mkBlock (u64 (size (hdr h (p - HDR)) + size (hdr h (next (hdr h (p - HDR))))))
               (is_free (hdr h (p - HDR))) (next (hdr h (next (hdr h (p - HDR))))))) ((p, v) :: used).
Proof.
  intros (base & pre & sz & post & Hr & Hc & -> & -> & Hp)%heap_ok_split. cbv zeta.
  rewrite !andb_true_iff, negb_true_iff, Z.eqb_neq, Z.eqb_eq, Z.leb_le. intros (((En0 & Ef) & Ea) & Es).
  set (a := base + total_size pre) in *. replace (a + HDR - HDR) with a in * by lia.
  pose proof (chain_at _ _ _ _ _ _ _ (rp_chain _ _ _ Hr)) as (Ha & _ & Hch). fold a in Ha, Hch.
  pose proof (rp_end _ _ _ Hr) as He. pose proof (rp_base _ _ _ Hr) as Hb.
  rewrite (hdr_at _ _ _ Ha) in *. cbn [next size is_free] in *. destruct post as [|[s f] post]; [done|].
  destruct Hch as (Hs & Hs24 & _). rewrite (hdr_at _ _ _ Hs) in *. cbn [next size is_free] in *. subst f.
  destruct (absorb_ok _ _ _ _ _ _ Hr Hc) as [Hr' Hc']. fold a in Hr'.
  pose proof (chain_sizes _ _ _ _ _ _ _ (rp_chain _ _ _ Hr)) as (Hpre & Hsz24 & Hpost).
  pose proof (chain_sizes _ _ _ _ _ _ _ (rp_chain _ _ _ Hr')) as (_ & _ & Hpost').
  rewrite !total_app, !total_cons in He. cbn [fst] in He. unfold HDR in Hs24.
  rewrite wrap_small in * by lia. exists (sz + s - HDR). split; [lia|].
  exists base, (pre ++ (sz + s, false) :: post). split_and!; [|done|].
  - rewrite Z.add_assoc in Hr'. exact Hr'.
  - rewrite in_use_at, Hp. fold a. cbn [in_use app]. by rewrite <- Z.add_assoc.
Qed.

Lemma realloc_used h p u used n :
  heap_ok h ((p, u) :: used) -> 0 < n <= 2 ^ 63 - 64 ->
  exists h' q, realloc h p n = Some (h', q) /\
    ((q = 0 /\ bytes h' = bytes h /\ heap_ok h' ((p, u) :: used)) \/
     (0 < q /\ (exists v, n <= v /\ heap_ok h' ((q, v) :: used)) /\
      (forall i, 0 <= i < Z.min n u -> bytes h' (q + i) = bytes h (p + i)) /\
      forall x i, x ∈ used -> 0 <= i < x.2 -> bytes h' (x.1 + i) = bytes h (x.1 + i))).
Proof.
  intros Hh Hn. destruct (size_used _ _ _ _ Hh) as (Hp0 & Hsz & Hu). destruct (malloc_total_ok n Hn) as [_ HT].
  unfold realloc. cbv zeta. rewrite (proj2 (Z.eqb_neq p 0)), (proj2 (Z.eqb_neq n 0)) by lia. rewrite Hsz.
  pose proof (heap_ok_apart _ _ Hh) as (_ & Hpos & _). pose proof (Hpos (p, u) ltac:(left)) as Hpos'. cbn [fst snd] in Hpos'.
  set (T := malloc_total n) in *. clearbody T. destruct (Z.leb_spec T (u + HDR)).
  { exists h, p. split; [done|]. right. split; [lia|]. split; [exists u; split; [lia|done]|done]. }
  destruct (negb _ && _ && _ && _) eqn:E.
  - destruct (grow_in_place h p u used T Hh) as (v & Hv & Hh'); [cbv zeta; rewrite Hsz; exact E|].
    rewrite Hsz in Hh'. eexists _, p. split; [reflexivity|]. right. split; [lia|]. split; [|done].
    exists v. split; [lia|exact Hh'].
  - destruct (malloc_used h _ n Hh Hn) as (h1 & q & -> & Em & Hq). cbn [mbind option_bind].
    destruct Hq as [[-> Hq]|(Hq0 & v & Hv & Hq)]; [exists h1, 0; split; [done|by left]|].
    rewrite (proj2 (Z.eqb_neq q 0)) by lia.
    pose proof (heap_ok_perm _ _ _ (perm_swap _ _ _) Hq) as Hq'.
    destruct (size_used _ _ _ _ Hq') as (_ & -> & _). replace (u + HDR - HDR) with u by lia.
    rewrite wrap_small by (unfold HDR in *; lia).
    set (c := if n <? u then n else u). assert (Hcmin : c = Z.min n u) by (unfold c; destruct (Z.ltb_spec n u); lia).
    set (m := memcpy _ _ _ _).
    destruct (free_used (set_bytes h1 m) p u ((q, v) :: used)) as (h2 & -> & Em2 & Hh2); [by apply heap_ok_bytes|].
    cbn [mbind option_bind]. exists h2, q. split; [done|]. right. split; [done|]. split; [by exists v|].
    rewrite Em2. cbn [set_bytes bytes].
    destruct (heap_ok_apart _ _ Hq) as (Hnd & _ & Hap).
    assert (Hne : q <> p) by (cbn [fmap list_fmap fst] in Hnd; intros ->; apply NoDup_head in Hnd; apply Hnd; left).
    pose proof (Hap (q, v) (p, u) ltac:(left) ltac:(right; left) Hne) as Hqp. cbn [fst snd] in Hqp. unfold HDR in *.
    assert (Hcp : copied (bytes h1) q p c m) by (apply memcpy_copied; lia).
    split.
    + intros i Hi. rewrite Hcp, Em. in_range; [f_equal; lia|lia].
    + intros x i Hx Hi. rewrite Hcp, Em. in_range; [|done].
      pose proof (Hap (q, v) x ltac:(left) ltac:(right; by right)) as Hqx. cbn [fst snd] in Hqx.
      destruct Hqx; [|lia|lia]. cbn [fmap list_fmap fst] in Hnd. apply NoDup_head in Hnd.
      intros ->. apply Hnd. right. by apply list_elem_of_fmap_2.
Qed.

(** ** Programs using the heap *)

(** [live]: the pointers the program holds with the sizes it asked for.  A
    program frees and reallocates live pointers and writes to live blocks. *)
Inductive runs : heap -> list (Z * Z) -> Prop :=
  | runs_start m k : kernel_init k -> runs (mkHeap ∅ m 0 0 k) []
  | runs_malloc h live n h' p :
      runs h live -> 0 < n <= 2 ^ 63 - 64 -> malloc h n = Some (h', p) ->
      runs h' (if p =? 0 then live else (p, n) :: live)
  | runs_calloc h live k n h' p :
      runs h live -> 0 <= k < 2 ^ 64 -> 0 <= n < 2 ^ 64 -> k * n <= 2 ^ 63 - 64 \/ 2 ^ 64 <= k * n ->
      calloc h k n = Some (h', p) -> runs h' (if p =? 0 then live else (p, k * n) :: live)
  | runs_realloc h l1 l2 p m n h' q :
      runs h (l1 ++ (p, m) :: l2) -> 0 < n <= 2 ^ 63 - 64 -> realloc h p n = Some (h', q) ->
      runs h' (if q =? 0 then l1 ++ (p, m) :: l2 else (q, n) :: l1 ++ l2)
  | runs_free h l1 l2 p m h' :
      runs h (l1 ++ (p, m) :: l2) -> free h p = Some h' -> runs h' (l1 ++ l2)
  | runs_write h live p m i v :
      runs h live -> (p, m) ∈ live -> 0 <= i < m -> runs (set_bytes h (poke (bytes h) (p + i) v)) live.

(** The payloads have room for what was asked. *)
Definition serves (used live : list (Z * Z)) : Prop := Forall2 (fun u r => u.1 = r.1 /\ r.2 <= u.2) used live.

Lemma serves_fst used live : serves used live -> used.*1 = live.*1.
Proof. induction 1 as [|x y used live [E _] _ IH]; [done|]. cbn [fmap list_fmap]. by rewrite E, IH. Qed.

Lemma serves_in used live x : serves used live -> x ∈ live -> exists u, u ∈ used /\ u.1 = x.1 /\ x.2 <= u.2.
Proof.
  intros Hs [i Hx]%list_elem_of_lookup. destruct (Forall2_lookup_r _ _ _ _ _ Hs Hx) as (u & Hu & Heq).
  exists u. split; [by eapply list_elem_of_lookup_2|done].
Qed.

Lemma serves_middle used l1 p m l2 :
  serves used (l1 ++ (p, m) :: l2) ->
  exists u rest, used ≡ₚ (p, u) :: rest /\ m <= u /\ serves rest (l1 ++ l2).
Proof.
  intros (k1 & k2' & H1 & (x & k2 & Hx & H2 & ->)%Forall2_cons_inv_r & ->)%Forall2_app_inv_r.
  destruct x as [q u]. cbn [fst snd] in Hx. destruct Hx as [-> Hm].
  exists u, (k1 ++ k2). split_and!; [symmetry; apply Permutation_middle|done|by apply Forall2_app].
Qed.

(** Where the live blocks are. *)
Lemma heap_ok_base h used :
  heap_ok h used -> used = [] \/ exists base, kernel_ok (kern h) base /\ 0 < base /\
    forall x, x ∈ used -> base <= x.1 /\ x.1 + x.2 <= heap_brk h.
Proof.
  intros (base & l & [Hb _ Hc Hk _ Hkern] & _ & Hp). destruct Hk as [(_ & -> & _)|Hk].
  { left. by apply Permutation_nil_r. }
  right. exists base. pose proof (chain_total _ _ _ _ Hc). unfold HDR in *.
  rewrite (proj2 (Z.eqb_neq (heap_brk h) 0)) in Hkern by lia. split; [done|]. split; [done|].
  intros x Hx. rewrite Hp in Hx. apply (in_use_bounds _ _ _ _ _ Hc) in Hx. unfold HDR in Hx. lia.
Qed.

Lemma runs_ok h live : runs h live -> exists used, heap_ok h used /\ serves used live.
Proof.
  induction 1 as [m k Hk|h live n h' p _ (used & Hh & Hs) Hn E|h live k n h' p _ (used & Hh & Hs) Hk Hn Hkn E
    |h l1 l2 p m n h' q _ (used & Hh & Hs) Hn E|h l1 l2 p m h' _ (used & Hh & Hs) E|h live p m i v _ (used & Hh & Hs) _ _].
  - exists []. split; [by apply heap_ok_start|constructor].
  - destruct (malloc_used h used n Hh Hn) as (h1 & q & E1 & _ & Hq). rewrite E in E1. injection E1 as <- <-.
    destruct Hq as [[-> ?]|(? & u & ? & ?)]; [by exists used|]. rewrite (proj2 (Z.eqb_neq p 0)) by lia.
    exists ((p, u) :: used). split; [done|]. by constructor.
  - destruct (calloc_used h used k n Hh Hk Hn Hkn) as (h1 & q & E1 & Hq). rewrite E in E1. injection E1 as <- <-.
    destruct Hq as [(-> & _ & ?)|(? & (u & ? & ?) & _)]; [by exists used|]. rewrite (proj2 (Z.eqb_neq p 0)) by lia.
    exists ((p, u) :: used). split; [done|]. by constructor.
  - destruct (serves_middle _ _ _ _ _ Hs) as (u & rest & Hp & Hm & Hrest).
    destruct (realloc_used h p u rest n (heap_ok_perm _ _ _ Hp Hh) Hn) as (h1 & r & E1 & Hr).
    rewrite E in E1. injection E1 as <- <-.
    destruct Hr as [(-> & _ & Hr)|(? & (v & ? & ?) & _)].
    + exists used. split; [by apply (heap_ok_perm _ ((p, u) :: rest))|done].
    + rewrite (proj2 (Z.eqb_neq q 0)) by lia. exists ((q, v) :: rest). split; [done|]. by constructor.
  - destruct (serves_middle _ _ _ _ _ Hs) as (u & rest & Hp & Hm & Hrest).
    destruct (free_used h p u rest (heap_ok_perm _ _ _ Hp Hh)) as (h1 & E1 & _ & Hr).
    rewrite E in E1. injection E1 as <-. by exists rest.
  - exists used. split; [by apply heap_ok_bytes|done].
Qed.

(** ** Theorems *)

(** C17: [malloc] of up to 2^63 - 64 bytes is first fit over the segments that tile
    the heap, whatever the kernel's break does: it always returns, takes the first free segment
    that is large enough and splits it when a header and 16 bytes remain, else
    appends a segment at the break or returns NULL and changes no segment; no
    two free neighbours arise, no payload byte changes, and what it hands out
    has room for the request and is added to the payloads in use. *)
Theorem malloc_first_fit h base l n :
  rep h base l -> coalesced l -> 0 < n <= 2 ^ 63 - 64 ->
  exists h' ptr l', malloc h n = Some (h', ptr) /\ rep h' base l' /\ coalesced l' /\ bytes h' = bytes h /\
    malloc_spec base n l ptr l' /\
    (ptr <> 0 -> exists u, n <= u /\ in_use base l' ≡ₚ (ptr, u) :: in_use base l).
Proof.
  intros Hr Hc Hn. destruct (malloc_ok h base l n Hr Hn) as (h' & ptr & l' & E & Em & Hr' & Hm).
  exists h', ptr, l'. split_and!; try done; [exact (malloc_spec_coalesced _ _ _ _ _ Hm Hc)|].
  intros Hp. by destruct (malloc_spec_used _ _ _ _ _ _ Hm Hn Hr) as [[? _]|[_ ?]].
Qed.

(** C18: [free] gives back a segment and coalesces: the heap is then the old
    one with that segment free and every run of free segments merged into one,
    though [free] only looks at the two neighbours. *)
Theorem free_coalesces h base pre sz post :
  rep h base (pre ++ (sz, false) :: post) -> coalesced (pre ++ (sz, false) :: post) ->
  exists h', free h (base + total_size pre + HDR) = Some h' /\ headers_only h h' /\
             rep h' base (coalesce (pre ++ (sz, true) :: post)) /\ coalesced (coalesce (pre ++ (sz, true) :: post)).
Proof.
  intros Hr Hc. destruct (free_ok h base pre sz post Hr Hc) as (h' & E & Hh & Hr'). exists h'.
  split_and!; try done. apply coalesce_coalesced.
Qed.

(** In every state a program reaches with malloc, calloc, realloc, free
    and writes to its blocks, the segments tile the heap with no two free
    neighbours, the blocks it holds are distinct and do not overlap, and the
    allocator's loops end. *)
Theorem heap_runs_safe h live :
  runs h live ->
  (exists base l, rep h base l /\ coalesced l) /\
  NoDup live.*1 /\
  (forall x y, x ∈ live -> y ∈ live -> x.1 <> y.1 -> x.1 + x.2 <= y.1 \/ y.1 + y.2 <= x.1) /\
  (forall n, 0 < n <= 2 ^ 63 - 64 -> malloc h n <> None) /\
  (forall x, x ∈ live -> free h x.1 <> None).
Proof.
  intros (used & Hh & Hs)%runs_ok. destruct (heap_ok_apart _ _ Hh) as (Hnd & _ & Hap).
  pose proof (serves_fst _ _ Hs) as Hfst. pose proof (fun x => serves_in _ _ x Hs) as Hin.
  split_and!.
  - destruct Hh as (base & l & ? & ? & _). by exists base, l.
  - by rewrite <- Hfst.
  - intros x y (u & Hu & <- & ?)%Hin (v & Hv & <- & ?)%Hin Hne. pose proof (Hap u v Hu Hv Hne). unfold HDR in *. lia.
  - intros n Hn. by destruct (malloc_used h used n Hh Hn) as (? & ? & -> & _).
  - intros x ([p u] & [l1 [l2 ->]]%list_elem_of_split & <- & _)%Hin.
    destruct (free_used h p u (l1 ++ l2)) as (? & E & _); [|cbn [fst]; by rewrite E].
    apply (heap_ok_perm _ (l1 ++ (p, u) :: l2)); [symmetry; apply Permutation_middle|done].
Qed.

(** [realloc] of a live block never loses data: it returns NULL and leaves
    the block and every byte as they were, or a block with room for the new size
    that starts with the old contents, cut to the new size, and replaces the old
    block; the contents of all other blocks stay. *)
Theorem realloc_keeps_contents h p u used n :
  heap_ok h ((p, u) :: used) -> 0 < n <= 2 ^ 63 - 64 ->
  exists h' q, realloc h p n = Some (h', q) /\
    ((q = 0 /\ bytes h' = bytes h /\ heap_ok h' ((p, u) :: used)) \/
     (0 < q /\ (exists v, n <= v /\ heap_ok h' ((q, v) :: used)) /\
      (forall i, 0 <= i < Z.min n u -> bytes h' (q + i) = bytes h (p + i)) /\
      forall x i, x ∈ used -> 0 <= i < x.2 -> bytes h' (x.1 + i) = bytes h (x.1 + i))).
Proof. apply realloc_used. Qed.

(** [calloc] returns NULL, changing nothing, when the product of its
    arguments does not fit 64 bits, and else a block of zero bytes with room for
    the product, all other bytes unchanged, or NULL. *)
Theorem calloc_zeroed h used k n :
  heap_ok h used -> 0 <= k < 2 ^ 64 -> 0 <= n < 2 ^ 64 -> k * n <= 2 ^ 63 - 64 \/ 2 ^ 64 <= k * n ->
  (2 ^ 64 <= k * n -> calloc h k n = Some (h, 0)) /\
  exists h' p, calloc h k n = Some (h', p) /\
    ((p = 0 /\ bytes h' = bytes h /\ heap_ok h' used) \/
     (0 < p /\ (exists u, k * n <= u /\ heap_ok h' ((p, u) :: used)) /\
      forall x, bytes h' x = if (p <=? x) && (x <? p + k * n) then 0 else bytes h x)).
Proof.
  intros Hh Hk Hn Hkn. split; [|by apply calloc_used]. intros Hbig. unfold calloc, SIZE_MAX.
  rewrite (proj2 (Z.eqb_neq k 0)) by nia. rewrite (proj2 (Z.ltb_lt _ _)); [done|].
  apply Z.div_lt_upper_bound; lia.
Qed.

Lemma cstr_copied m d s l m' :
  copied m d s (len l + 1) m' -> cstr m s l -> s + len l + 1 <= d \/ d + len l + 1 <= s -> cstr m' d l /\ cstr m' s l.
Proof.
  rewrite !cstr_points. intros Hc [Hp Hz] Hd. pose proof (len_nonneg l). split; split.
  - intros i Hi. rewrite Hc. in_range; [|lia]. replace (d + i - d + s) with (s + i) by lia. by apply Hp.
  - rewrite Hc. in_range; [|lia]. by replace (d + len l - d + s) with (s + len l) by lia.
  - intros i Hi. rewrite Hc. in_range; [lia|]. by apply Hp.
  - rewrite Hc. in_range; [lia|done].
Qed.

(** [strdup] of a string in a live block returns NULL or a new block that
    holds the same string; the original and all other blocks stay. *)
Theorem strdup_copies fuel h used p u s l :
  heap_ok h used -> (p, u) ∈ used -> cstr (bytes h) s l -> p <= s -> s + len l + 1 <= p + u -> len l < 2 ^ 62 -> (length l < fuel)%nat ->
  exists h' d, strdup fuel h s = Some (h', d) /\
    ((d = 0 /\ bytes h' = bytes h /\ heap_ok h' used) \/
     (0 < d /\ cstr (bytes h') d l /\ cstr (bytes h') s l /\
      (exists v, len l + 1 <= v /\ heap_ok h' ((d, v) :: used)) /\
      forall x i, x ∈ used -> 0 <= i < x.2 -> bytes h' (x.1 + i) = bytes h (x.1 + i))).
Proof.
  intros Hh Hin Hs Hlo Hhi Hlen Hf. pose proof (len_nonneg l). unfold strdup. rewrite (strlen_ok _ _ _ _ Hs Hf). cbn [mbind option_bind].
  destruct (heap_ok_apart _ _ Hh) as (_ & Hpos & _). pose proof (Hpos _ Hin) as Hp. cbn [fst snd] in Hp. unfold HDR in *.
  cbv zeta. rewrite wrap_small by lia.
  destruct (malloc_used h used (len l + 1) Hh) as (h1 & d & -> & Em & Hd); [lia|]. cbn [mbind option_bind].
  destruct Hd as [[-> Hd]|(Hd0 & v & Hv & Hd)]; [exists h1, 0; split; [done|by left]|].
  rewrite (proj2 (Z.eqb_neq d 0)) by lia. eexists _, d. split; [reflexivity|]. right. split; [done|].
  cbn [set_bytes bytes]. destruct (heap_ok_apart _ _ Hd) as (Hnd & _ & Hap). apply NoDup_head in Hnd. change (d ∉ used.*1) in Hnd.
  assert (Hne : forall x, x ∈ used -> d <> x.1) by (intros x Hx ->; apply Hnd, list_elem_of_fmap_2, Hx).
  assert (Hsep : forall x, x ∈ used -> d + v + HDR <= x.1 \/ x.1 + x.2 + HDR <= d).
  { intros x Hx. exact (Hap (d, v) x ltac:(left) ltac:(by right) (Hne x Hx)). }
  unfold HDR in *. pose proof (Hsep _ Hin) as Hsp. cbn [fst snd] in Hsp.
  assert (Hcp : copied (bytes h1) d s (len l + 1) (memcpy (bytes h1) d s (len l + 1))) by (apply memcpy_copied; lia).
  set (m' := memcpy _ _ _ _) in *. clearbody m'.
  rewrite <- Em in Hs. destruct (cstr_copied _ _ _ _ _ Hcp Hs) as [H1 H2]; [lia|].
  split; [exact H1|]. split; [exact H2|]. split; [exists v; split; [done|by apply heap_ok_bytes]|].
  intros x i Hx Hi. rewrite Hcp, Em. in_range; [|done]. pose proof (Hsep x Hx). lia.
Qed.

Lemma spec_fit_none total l : total_size l < total -> Forall (fun s => 0 <= s.1) l -> spec_fit total l = None.
Proof.
  intros Ht Hp. revert Ht. induction Hp as [|[s f] l Hs Hp IH]; [done|]. rewrite total_cons. cbn [fst] in *. intros Ht.
  assert (0 <= total_size l) by (clear - Hp; induction Hp as [|x l Hx Hp IH]; [done|]; rewrite total_cons; lia).
  cbn [spec_fit]. rewrite (proj2 (Z.leb_gt _ _)), andb_false_r, IH by lia. done.
Qed.

(** [malloc] has no overflow check, so for a size just below 2^64 the
    increment it passes to sbrk is negative: if the kernel grants the break, the
    heap shrinks into the blocks in use, and the caller still gets a pointer,
    to memory behind the new break. *)
Theorem malloc_huge_shrinks h base l m k :
  rep h base l -> l <> [] -> 40 <= m <= 2 ^ 62 -> m mod 16 = 0 -> m < heap_brk h ->
  sys_brk (kern h) (heap_brk h - (m - HDR)) = (k, heap_brk h - (m - HDR)) ->
  exists h', malloc h (2 ^ 64 - m) = Some (h', heap_brk h + HDR) /\ heap_brk h' = heap_brk h - (m - HDR).
Proof.
  intros [Hb Hl Hc Hk He _] Hne Hm Hdiv Hlt Hsys. unfold HDR in Hsys.
  destruct Hk as [(_ & ? & _)|Hk]; [done|].
  assert (HT : malloc_total (2 ^ 64 - m) = 2 ^ 64 - (m - 24)).
  { unfold malloc_total, ALIGN_UP, HDR. rewrite (wrap_small _ (2 ^ 64 - m + 16 - 1)), (land_lnot_ones _ 4) by lia.
    assert (Hq : (2 ^ 64 - m + 16 - 1) / 2 ^ 4 * 2 ^ 4 = 2 ^ 64 - m) by (Z.div_mod_to_equations; lia).
    rewrite Hq, wrap_small; lia. }
  unfold malloc. cbv zeta. rewrite (proj2 (Z.eqb_neq (2 ^ 64 - m) 0)), HT by lia.
  pose proof (chain_total _ _ _ _ Hc) as Ht. unfold HDR in Ht.
  replace (free_list h) with (head_of base l) by (by rewrite Hl).
  rewrite (first_fit_ok h _ base l 0);
    [|exact Hc|done|unfold list_fuel; apply Nat.lt_succ_r; exact (links_length _ _ _ _ Hc)].
  rewrite spec_fit_none by (lia || exact (chain_nonneg _ _ _ _ Hc)). cbn [mbind option_bind Z.eqb negb].
  assert (Hinc : swrap 64 (2 ^ 64 - (m - 24)) = - (m - 24)).
  { unfold swrap. change (64 - 1) with 63.
    replace (2 ^ 64 - (m - 24) + 2 ^ 63) with (2 ^ 63 - (m - 24) + 1 * 2 ^ 64) by lia.
    rewrite Z.mod_add, Z.mod_small by lia. lia. }
  rewrite Hinc. unfold sbrk. rewrite (proj2 (Z.eqb_neq (heap_brk h) 0)) by lia.
  unfold sbrk_more. rewrite (proj2 (Z.eqb_neq (- (m - 24)) 0)), Z.add_opp_r, wrap_small, Hsys by lia.
  rewrite (proj2 (Z.leb_gt _ _)), Z.ltb_irrefl by lia. cbn [orb].
  eexists. split; [reflexivity|]. unfold append; by destruct (negb _).
Qed.

End malloc.

(** ** A kernel that grants every break *)

Definition granting (k a : Z) : Z * Z := if a =? 0 then (k, s64 k) else (s64 a, s64 a).

Lemma granting_range k a : - 2 ^ 63 <= (granting k a).2 < 2 ^ 63.
Proof. unfold granting. destruct (a =? 0); cbn [snd]; apply (swrap_range 64); lia. Qed.

Lemma granting_law k a : 32 <= a -> True /\ (granting k a).2 <= a.
Proof.
  intros Ha. split; [done|]. unfold granting. rewrite (proj2 (Z.eqb_neq a 0)) by lia. cbn [snd]. unfold swrap. change (64 - 1) with 63.
  pose proof (Z.div_mod (a + 2 ^ 63) (2 ^ 64) ltac:(lia)). pose proof (Z.div_pos (a + 2 ^ 63) (2 ^ 64) ltac:(lia) ltac:(lia)). lia.
Qed.

#[export] Instance granting_kernel : Kernel Z := {|
  sys_brk := granting; kernel_init _ := True; kernel_ok _ _ := True; brk_range := granting_range;
  brk_first _ _ _ _ _ := I; brk_law k lo a _ _ H2 := granting_law k a H2
|}.

Definition demo_blocks : gmap Z block :=
  <[4096 := mkBlock 40 false 4136]> (<[4136 := mkBlock 104 true 4240]> (<[4240 := mkBlock 40 false 0]> ∅)).
Definition demo_heap : heap := mkHeap demo_blocks (fun x => x mod 251) 4096 4280 4280.
Definition demo_segments : list segment := [(40, false); (104, true); (40, false)].

Lemma demo_rep : rep 8192 demo_heap 4096 demo_segments.
Proof.
  constructor; [lia|done| |by right|vm_compute; done|done].
  cbn [chain demo_segments]. split_and!; vm_compute; done.
Qed.

Lemma fallback_8192 : 0 < 8192 /\ 8192 + FALLBACK_SIZE < 2 ^ 63.
Proof. done. Qed.

Lemma malloc_first_fit_witness :
  exists h' ptr l', malloc 8192 demo_heap 20 = Some (h', ptr) /\ rep 8192 h' 4096 l' /\ coalesced l' /\
    bytes h' = bytes demo_heap /\ malloc_spec 4096 20 demo_segments ptr l' /\
    (ptr <> 0 -> exists u, 20 <= u /\ in_use 4096 l' ≡ₚ (ptr, u) :: in_use 4096 demo_segments).
Proof.
  apply (malloc_first_fit 8192 fallback_8192 demo_heap 4096 demo_segments 20); [exact demo_rep|vm_compute; auto|lia].
Defined.

Lemma free_coalesces_witness :
  exists h', free demo_heap 4264 = Some h' /\ headers_only demo_heap h' /\
    rep 8192 h' 4096 [(40, false); (144, true)] /\ coalesced [(40, false); (144, true)].
Proof.
  exact (free_coalesces 8192 fallback_8192 demo_heap 4096 [(40, false); (104, true)] 40 [] demo_rep ltac:(vm_compute; auto)).
Defined.

(** A block is allocated, written and grown, another one allocated and freed. *)
Definition first (r : option (heap * Z)) : heap := match r with Some (h, _) => h | None => demo_heap end.
Definition demo0 : heap := mkHeap ∅ (fun _ => 0) 0 0 4096.
Definition demo1 : heap := first (malloc 8192 demo0 10).
Definition demo2 : heap := set_bytes demo1 (poke (bytes demo1) (4120 + 3) 65).
Definition demo3 : heap := first (realloc 8192 demo2 4120 100).
Definition demo4 : heap := first (malloc 8192 demo3 8).
Definition demo5 : heap := match free demo4 4120 with Some h => h | None => demo4 end.

Lemma demo_runs : runs 8192 demo5 [(4160, 100)].
Proof.
  assert (H1 : runs 8192 demo1 [(4120, 10)]).
  { refine (runs_malloc 8192 demo0 [] 10 demo1 4120 (runs_start 8192 _ _ I) _ _); [lia|vm_compute; reflexivity]. }
  assert (H2 : runs 8192 demo2 [(4120, 10)]) by (refine (runs_write 8192 _ _ 4120 10 3 65 H1 _ _); [left|lia]).
  assert (H3 : runs 8192 demo3 [(4160, 100)]).
  { refine (runs_realloc 8192 demo2 [] [] 4120 10 100 demo3 4160 H2 _ _); [lia|vm_compute; reflexivity]. }
  assert (H4 : runs 8192 demo4 [(4120, 8); (4160, 100)]).
  { refine (runs_malloc 8192 demo3 [(4160, 100)] 8 demo4 4120 H3 _ _); [lia|vm_compute; reflexivity]. }
  refine (runs_free 8192 demo4 [] [(4160, 100)] 4120 8 demo5 H4 _). vm_compute. reflexivity.
Qed.

Lemma heap_runs_safe_witness :
  (exists base l, rep 8192 demo5 base l /\ coalesced l) /\
  NoDup [(4160, 100)].*1 /\
  (forall x y, x ∈ [(4160, 100)] -> y ∈ [(4160, 100)] -> x.1 <> y.1 -> x.1 + x.2 <= y.1 \/ y.1 + y.2 <= x.1) /\
  (forall n, 0 < n <= 2 ^ 63 - 64 -> malloc 8192 demo5 n <> None) /\
  (forall x, x ∈ [(4160, 100)] -> free demo5 x.1 <> None).
Proof. exact (heap_runs_safe 8192 fallback_8192 demo5 [(4160, 100)] demo_runs). Defined.

Lemma demo_heap_ok : heap_ok 8192 demo_heap [(4120, 16); (4264, 16)].
Proof. exists 4096, demo_segments. split_and!; [exact demo_rep|vm_compute; auto|done]. Qed.

Lemma realloc_keeps_contents_witness :
  exists h' q, realloc 8192 demo_heap 4120 100 = Some (h', q) /\
    ((q = 0 /\ bytes h' = bytes demo_heap /\ heap_ok 8192 h' [(4120, 16); (4264, 16)]) \/
     (0 < q /\ (exists v, 100 <= v /\ heap_ok 8192 h' [(q, v); (4264, 16)]) /\
      (forall i, 0 <= i < Z.min 100 16 -> bytes h' (q + i) = bytes demo_heap (4120 + i)) /\
      forall x i, x ∈ [(4264, 16)] -> 0 <= i < x.2 -> bytes h' (x.1 + i) = bytes demo_heap (x.1 + i))).
Proof. apply (realloc_keeps_contents 8192 fallback_8192 demo_heap 4120 16 [(4264, 16)] 100 demo_heap_ok). lia. Defined.

Lemma calloc_zeroed_witness :
  (2 ^ 64 <= 4 * 25 -> calloc 8192 demo_heap 4 25 = Some (demo_heap, 0)) /\
  exists h' p, calloc 8192 demo_heap 4 25 = Some (h', p) /\
    ((p = 0 /\ bytes h' = bytes demo_heap /\ heap_ok 8192 h' [(4120, 16); (4264, 16)]) \/
     (0 < p /\ (exists u, 4 * 25 <= u /\ heap_ok 8192 h' [(p, u); (4120, 16); (4264, 16)]) /\
      forall x, bytes h' x = if (p <=? x) && (x <? p + 4 * 25) then 0 else bytes demo_heap x)).
Proof. apply (calloc_zeroed 8192 fallback_8192 demo_heap _ 4 25 demo_heap_ok); lia. Defined.

Definition text_heap : heap := set_bytes demo_heap (fun x => if x =? 4120 then 72 else if x =? 4121 then 105 else 0).

Lemma strdup_copies_witness :
  exists h' d, strdup 8192 3 text_heap 4120 = Some (h', d) /\
    ((d = 0 /\ bytes h' = bytes text_heap /\ heap_ok 8192 h' [(4120, 16); (4264, 16)]) \/
     (0 < d /\ cstr (bytes h') d [72; 105] /\ cstr (bytes h') 4120 [72; 105] /\
      (exists v, len [72; 105] + 1 <= v /\ heap_ok 8192 h' [(d, v); (4120, 16); (4264, 16)]) /\
      forall x i, x ∈ [(4120, 16); (4264, 16)] -> 0 <= i < x.2 -> bytes h' (x.1 + i) = bytes text_heap (x.1 + i))).
Proof.
  apply (strdup_copies 8192 fallback_8192 3 text_heap [(4120, 16); (4264, 16)] 4120 16 4120 [72; 105]).
  - apply heap_ok_bytes, demo_heap_ok.
  - left.
  - vm_compute. done.
  - lia.
  - vm_compute. done.
  - vm_compute. done.
  - simpl. lia.
Defined.

Lemma malloc_huge_shrinks_witness :
  exists h', malloc 8192 demo_heap (2 ^ 64 - 48) = Some (h', 4280 + HDR) /\ heap_brk h' = 4280 - (48 - HDR).
Proof.
  apply (malloc_huge_shrinks 8192 demo_heap 4096 demo_segments 48 4256 demo_rep); [done|lia|done|vm_compute; done|vm_compute; reflexivity].
Defined.
