(* ===== verification/LibcStdlib.v ===== *)
(** * The rest of libc/src/stdlib.c

    atoi, the pseudo-random numbers, and the handlers that exit runs.  A
    handler is the value of its pointer; what it does to the table is the
    parameter [handler] of the section. *)

From stdpp Require Import list.
From S2P Require Import Prelude LibcString.

Definition INT_MAX : Z := 2 ^ 31 - 1.
Definition INT_MIN : Z := - 2 ^ 31.

(** ** atoi

    Characters are bytes; the code's [char] is signed, which no test below can
    tell apart. *)

Definition is_digit (c : Z) : bool := (48 <=? c) && (c <=? 57).

Fixpoint skip_blanks (fuel : nat) (m : memory) (p : Z) : option Z :=
  match fuel with
  | O => None
  | S fuel => if (m p =? 32) || (m p =? 9) then skip_blanks fuel m (p + 1) else Some p
  end.

Fixpoint atoi_digits (fuel : nat) (m : memory) (p sign result : Z) : option Z :=
  match fuel with
  | O => None
  | S fuel =>
      if is_digit (m p) then
        let digit := m p - 48 in
        if (INT_MAX - digit) / 10 <? result then Some (if sign =? 1 then INT_MAX else INT_MIN)
        else atoi_digits fuel m (p + 1) sign (s32 (s32 (result * 10) + digit))
      else Some (s32 (sign * result))
  end.

Definition atoi (fuel : nat) (m : memory) (nptr : Z) : option Z :=
  p ← skip_blanks fuel m nptr;
  if m p =? 45 then atoi_digits fuel m (p + 1) (-1) 0
  else if m p =? 43 then atoi_digits fuel m (p + 1) 1 0
  else atoi_digits fuel m p 1 0.

(** ** rand *)

Definition rand (rand_seed : Z) : Z * Z :=
  let rand_seed := u32 (u32 (rand_seed * 1103515245) + 12345) in
  (rand_seed, Z.land (Z.shiftr rand_seed 16) 0x7FFF).

Definition srand (seed : Z) : Z := seed.

(** ** atexit *)

Definition MAX_ATEXIT : Z := 32.

Record atexit_table := mkAtexit { atexit_handlers : list Z; atexit_count : Z }.

Definition atexit (t : atexit_table) (func : Z) : atexit_table * Z :=
  if (func =? 0) || (MAX_ATEXIT <=? atexit_count t) then (t, -1)
  else (mkAtexit (<[Z.to_nat (atexit_count t) := func]> (atexit_handlers t)) (atexit_count t + 1), 0).

Section exit.
Context (handler : Z -> atexit_table -> atexit_table).

(** The calls of the handlers, in order; [None] is a table that handlers keep
    filling. *)
Fixpoint __call_atexit (fuel : nat) (t : atexit_table) : option (list Z * atexit_table) :=
  match fuel with
  | O => None
  | S fuel =>
      if 0 <? atexit_count t then
        let t := mkAtexit (atexit_handlers t) (atexit_count t - 1) in
        let f := atexit_handlers t !!! Z.to_nat (atexit_count t) in
        if negb (f =? 0) then '(fs, t) ← __call_atexit fuel (handler f t); Some (f :: fs, t)
        else __call_atexit fuel t
      else Some ([], t)
  end.

(** The handlers called, and the status given to the kernel. *)
Definition exit (fuel : nat) (t : atexit_table) (status : Z) : option (list Z * Z) :=
  '(fs, _) ← __call_atexit fuel t; Some (fs, u64 status).

Definition abort (fuel : nat) (t : atexit_table) : option (list Z * Z) := exit fuel t 1.

End exit.

(** ** atoi saturates *)

(** The bytes [l] at [a]. *)
Fixpoint bytes_at (m : memory) (a : Z) (l : list Z) : Prop :=
  match l with [] => True | c :: l => m a = c /\ bytes_at m (a + 1) l end.

Definition digits (l : list Z) : Prop := Forall (fun c => 48 <= c <= 57) l.
Definition value_from (v : Z) (l : list Z) : Z := fold_left (fun v c => v * 10 + (c - 48)) l v.
Definition clamp (v : Z) : Z := Z.max INT_MIN (Z.min INT_MAX v).

Lemma bytes_at_app m a l1 l2 : bytes_at m a (l1 ++ l2) <-> bytes_at m a l1 /\ bytes_at m (a + len l1) l2.
Proof.
  revert a. induction l1 as [|c l1 IH]; intros a; cbn [app bytes_at].
  - rewrite len_nil, Z.add_0_r. tauto.
  - rewrite IH, len_cons, Z.add_assoc. tauto.
Qed.

Lemma is_digit_ok c : is_digit c = true <-> 48 <= c <= 57.
Proof. unfold is_digit. rewrite andb_true_iff, !Z.leb_le. done. Qed.

Lemma value_from_ge v l : digits l -> 0 <= v -> v <= value_from v l.
Proof.
  intros Hl. revert v. induction Hl as [|c l Hc Hl IH]; intros v Hv; [done|].
  cbn [value_from fold_left]. specialize (IH (v * 10 + (c - 48)) ltac:(lia)). unfold value_from in IH. lia.
Qed.

Lemma skip_blanks_ok fuel m a ws :
  bytes_at m a ws -> Forall (fun c => c = 32 \/ c = 9) ws -> m (a + len ws) <> 32 -> m (a + len ws) <> 9 ->
  (length ws < fuel)%nat -> skip_blanks fuel m a = Some (a + len ws).
Proof.
  intros Hb Hw. revert fuel a Hb. induction Hw as [|c ws Hc Hw IH]; intros fuel a Hb H1 H2 Hf;
    (destruct fuel as [|fuel]; [simpl in Hf; lia|]); cbn [skip_blanks].
  - rewrite len_nil, Z.add_0_r in *. by rewrite (proj2 (Z.eqb_neq (m a) 32)), (proj2 (Z.eqb_neq (m a) 9)).
  - destruct Hb as [-> Hb]. rewrite len_cons, Z.add_assoc in *.
    replace ((c =? 32) || (c =? 9)) with true by (destruct Hc as [-> | ->]; done).
    apply IH; try done. simpl in Hf. lia.
Qed.

Lemma atoi_digits_ok fuel m a l sign r :
  bytes_at m a l -> digits l -> is_digit (m (a + len l)) = false -> sign = 1 \/ sign = -1 ->
  0 <= r <= INT_MAX -> (length l < fuel)%nat ->
  atoi_digits fuel m a sign r = Some (clamp (sign * value_from r l)).
Proof.
  intros Hb Hl. revert fuel a r Hb. induction Hl as [|c l Hc Hl IH]; intros fuel a r Hb He Hs Hr Hf;
    (destruct fuel as [|fuel]; [simpl in Hf; lia|]); cbn [atoi_digits]; unfold clamp, INT_MAX, INT_MIN in *.
  - rewrite len_nil, Z.add_0_r in He. rewrite He. cbn [value_from fold_left].
    destruct Hs as [-> | ->]; (rewrite swrap_small by lia); f_equal; lia.
  - destruct Hb as [-> Hb]. rewrite len_cons, Z.add_assoc in He.
    rewrite (proj2 (is_digit_ok c)) by done. cbv zeta. cbn [value_from fold_left]. fold (value_from (r * 10 + (c - 48)) l).
    destruct (Z.ltb_spec ((2 ^ 31 - 1 - (c - 48)) / 10) r) as [Hlt|Hle].
    + assert (2 ^ 31 - 1 < r * 10 + (c - 48)) by (Z.div_mod_to_equations; lia).
      pose proof (value_from_ge (r * 10 + (c - 48)) l Hl ltac:(lia)). f_equal.
      destruct Hs as [-> | ->]; cbn [Z.eqb Pos.eqb]; lia.
    + assert (r * 10 + (c - 48) <= 2 ^ 31 - 1) by (Z.div_mod_to_equations; lia).
      rewrite (swrap_small 32 (r * 10)), swrap_small by lia. apply IH; try done; [lia|]. simpl in Hf. lia.
Qed.

(** [atoi] skips blanks, reads an optional sign and decimal digits up to the
    first other character, and returns the number they denote cut to the range
    of int. *)
Theorem atoi_saturates fuel m a ws sg l :
  bytes_at m a (ws ++ sg ++ l) -> Forall (fun c => c = 32 \/ c = 9) ws -> (sg = [] \/ sg = [45] \/ sg = [43]) ->
  digits l -> l <> [] -> is_digit (m (a + len (ws ++ sg ++ l))) = false -> (length (ws ++ l) < fuel)%nat ->
  atoi fuel m a = Some (clamp ((if decide (sg = [45]) then -1 else 1) * value_from 0 l)).
Proof.
  rewrite !bytes_at_app, !len_app, length_app. intros (Hw & Hg & Hl) Hws Hsg Hd Hne He Hf. unfold atoi.
  assert (Hfirst : exists c k, l = c :: k /\ 48 <= c <= 57) by (destruct Hd as [|c k]; [done|by exists c, k]).
  destruct Hfirst as (c & k & -> & Hc).
  assert (Hnext : m (a + len ws) = match sg with s :: _ => s | [] => c end).
  { destruct Hsg as [-> | [-> | ->]]; cbn [bytes_at app] in *; rewrite ?len_nil, ?Z.add_0_r in *; tauto. }
  rewrite (skip_blanks_ok fuel m a ws); [|done|done| | |lia].
  2, 3: rewrite Hnext; destruct Hsg as [-> | [-> | ->]]; lia.
  cbn [mbind option_bind]. rewrite Hnext.
  destruct Hsg as [-> | [-> | ->]]; rewrite ?len_nil, ?len_cons, ?len_nil, ?Z.add_0_r in *.
  - rewrite (proj2 (Z.eqb_neq c 45)), (proj2 (Z.eqb_neq c 43)) by lia. rewrite decide_False by done.
    apply atoi_digits_ok; try done; [by rewrite <- Z.add_assoc; rewrite len_cons in *|by left|lia].
  - cbn [Z.eqb Pos.eqb]. rewrite decide_True by done.
    apply atoi_digits_ok; try done; [by rewrite <- !Z.add_assoc in *; rewrite len_cons in *|by right|lia].
  - cbn [Z.eqb Pos.eqb]. rewrite decide_False by done.
    apply atoi_digits_ok; try done; [by rewrite <- !Z.add_assoc in *; rewrite len_cons in *|by left|lia].
Qed.

Definition text : memory := fun x => nth (Z.to_nat x) [32; 9; 45; 52; 50; 120] 0.

Lemma atoi_saturates_witness : atoi 6 text 0 = Some (clamp (-1 * value_from 0 [52; 50])).
Proof.
  refine (atoi_saturates 6 text 0 [32; 9] [45] [52; 50] _ _ _ _ _ _ _).
  - vm_compute. tauto.
  - constructor; [by left|]. constructor; [by right|constructor].
  - right. by left.
  - constructor; [lia|]. constructor; [lia|constructor].
  - done.
  - reflexivity.
  - simpl. lia.
Defined.

Example atoi_text : atoi 6 text 0 = Some (-42).
Proof. reflexivity. Qed.

(** ** Handlers run last in, first out *)

Definition registered (fs : list Z) : atexit_table :=
  fold_left (fun t f => (atexit t f).1) fs (mkAtexit (replicate 32 0) 0).

Lemma registered_ok fs :
  Forall (fun f => f <> 0) fs -> (length fs <= 32)%nat ->
  registered fs = mkAtexit (fs ++ replicate (32 - length fs) 0) (len fs).
Proof.
  unfold registered. induction fs as [|f fs IH] using rev_ind; [done|].
  intros [Hfs Hf%Forall_inv]%Forall_app Hlen. rewrite fold_left_app, IH by (done || (rewrite length_app in Hlen; simpl in Hlen; lia)).
  rewrite length_app in *. cbn [length fold_left] in *. unfold atexit, MAX_ATEXIT, len. cbn [atexit_count atexit_handlers].
  rewrite (proj2 (Z.eqb_neq f 0)) by done. rewrite (proj2 (Z.leb_gt 32 _)) by lia. cbn [orb fst]. rewrite Nat2Z.id.
  f_equal; [|rewrite length_app; simpl; lia].
  replace (32 - length fs)%nat with (S (32 - (length fs + 1))) by lia. cbn [replicate].
  rewrite insert_app_r_alt, Nat.sub_diag by lia. by rewrite <- app_assoc.
Qed.

Section lifo.
Context (handler : Z -> atexit_table -> atexit_table) (handler_ok : forall f t, handler f t = t).

Lemma call_registered fs rest fuel :
  Forall (fun f => f <> 0) fs -> (length fs < fuel)%nat ->
  exists t, __call_atexit handler fuel (mkAtexit (fs ++ rest) (len fs)) = Some (rev fs, t) /\ atexit_count t = 0.
Proof.
  revert rest fuel. induction fs as [|f fs IH] using rev_ind; intros rest fuel Hfs Hf; (destruct fuel as [|fuel]; [lia|]).
  - by eexists.
  - apply Forall_app in Hfs as [Hfs Hf0%Forall_inv]. rewrite length_app in Hf. cbn [length] in Hf.
    assert (El : len (fs ++ [f]) = len fs + 1) by (by rewrite len_app, len_cons, len_nil). rewrite El.
    cbn [__call_atexit atexit_count atexit_handlers].
    rewrite (proj2 (Z.ltb_lt 0 (len fs + 1))) by (unfold len; lia). replace (len fs + 1 - 1) with (len fs) by lia.
    replace (((fs ++ [f]) ++ rest) !!! Z.to_nat (len fs)) with f.
    + rewrite (proj2 (Z.eqb_neq f 0)), handler_ok by done. cbn [negb]. rewrite <- app_assoc.
      destruct (IH ([f] ++ rest) fuel Hfs ltac:(lia)) as (t & -> & Ht). exists t. by rewrite rev_app_distr.
    + unfold len. rewrite Nat2Z.id, <- app_assoc. cbn [app]. symmetry. apply list_lookup_total_middle. done.
Qed.

(** [exit] calls the registered handlers in reverse order and passes the status
    on; a thirty-third handler is refused. *)
Theorem atexit_lifo fs status fuel :
  Forall (fun f => f <> 0) fs -> (length fs <= 32)%nat -> (32 < fuel)%nat ->
  exit handler fuel (registered fs) status = Some (rev fs, u64 status) /\
  (length fs = 32%nat -> forall f, atexit (registered fs) f = (registered fs, -1)).
Proof.
  intros Hfs Hlen Hf. rewrite registered_ok by done. unfold exit. split.
  - destruct (call_registered fs (replicate (32 - length fs) 0) fuel Hfs ltac:(lia)) as (t & -> & _). done.
  - intros H32 f. unfold atexit, MAX_ATEXIT, len. cbn [atexit_count]. by rewrite H32, orb_true_r.
Qed.

End lifo.
