(* ===== verification/Printf.v ===== *)
(** * Formatted output: libc/src/stdio.c

    vsnprintf with its conversions.  The format is the list of its characters, memory
    is that of [LibcString], and the arguments are words of 64 bits or strings by
    their characters; an argument that is missing or of the other sort has no
    result ([None]).  The streams of stdio.c are in [Stdio]. *)

From stdpp Require Import list.
From S2P Require Import Prelude LibcString LibcStdlib.

(** ** Conversion specifications *)

Record fmt_spec := mkSpec {
  left_align : bool; plus_sign : bool; space_sign : bool; alt_form : bool; zero_pad : bool;
  width : Z; precision : Z; flen : Z
}.

Definition LEN_NONE : Z := 0.
Definition LEN_l : Z := 1.
Definition LEN_ll : Z := 2.
Definition LEN_h : Z := 3.
Definition LEN_hh : Z := 4.
Definition LEN_z : Z := 5.
Definition LEN_j : Z := 6.
Definition LEN_t : Z := 7.

Definition set_left (s : fmt_spec) : fmt_spec :=
  mkSpec true (plus_sign s) (space_sign s) (alt_form s) (zero_pad s) (width s) (precision s) (flen s).
Definition set_plus (s : fmt_spec) : fmt_spec :=
  mkSpec (left_align s) true (space_sign s) (alt_form s) (zero_pad s) (width s) (precision s) (flen s).
Definition set_space (s : fmt_spec) : fmt_spec :=
  mkSpec (left_align s) (plus_sign s) true (alt_form s) (zero_pad s) (width s) (precision s) (flen s).
Definition set_alt (s : fmt_spec) : fmt_spec :=
  mkSpec (left_align s) (plus_sign s) (space_sign s) true (zero_pad s) (width s) (precision s) (flen s).
Definition set_zero (s : fmt_spec) : fmt_spec :=
  mkSpec (left_align s) (plus_sign s) (space_sign s) (alt_form s) true (width s) (precision s) (flen s).
Definition set_width (w : Z) (s : fmt_spec) : fmt_spec :=
  mkSpec (left_align s) (plus_sign s) (space_sign s) (alt_form s) (zero_pad s) w (precision s) (flen s).
Definition set_precision (p : Z) (s : fmt_spec) : fmt_spec :=
  mkSpec (left_align s) (plus_sign s) (space_sign s) (alt_form s) (zero_pad s) (width s) p (flen s).
Definition set_len (l : Z) (s : fmt_spec) : fmt_spec :=
  mkSpec (left_align s) (plus_sign s) (space_sign s) (alt_form s) (zero_pad s) (width s) (precision s) l.

(** ** Arguments *)

Inductive va := VInt (w : Z) | VStr (s : option (list Z)).

Definition va_word (ap : list va) : option (Z * list va) :=
  match ap with VInt w :: ap => Some (w, ap) | _ => None end.
Definition va_int (ap : list va) : option (Z * list va) :=
  '(w, ap) ← va_word ap; Some (s32 w, ap).
Definition va_str (ap : list va) : option (option (list Z) * list va) :=
  match ap with VStr s :: ap => Some (s, ap) | _ => None end.

(** ** Parsing *)

(** Flags '-', '+', ' ', '#' and '0'. *)
Fixpoint parse_flags (p : list Z) (s : fmt_spec) : list Z * fmt_spec :=
  match p with
  | c :: q =>
      if c =? 45 then parse_flags q (set_left s)
      else if c =? 43 then parse_flags q (set_plus s)
      else if c =? 32 then parse_flags q (set_space s)
      else if c =? 35 then parse_flags q (set_alt s)
      else if c =? 48 then parse_flags q (set_zero s)
      else (p, s)
  | [] => (p, s)
  end.

Fixpoint parse_number (p : list Z) (w : Z) : list Z * Z :=
  match p with
  | c :: q => if is_digit c then parse_number q (s32 (s32 (w * 10) + (c - 48))) else (p, w)
  | [] => (p, w)
  end.

Definition parse_width (p : list Z) (s : fmt_spec) (ap : list va) : option (list Z * fmt_spec * list va) :=
  match p with
  | c :: q =>
      if c =? 42 then
        '(w, ap) ← va_int ap;
        let '(s, w) := if w <? 0 then (set_left s, s32 (- w)) else (s, w) in
        Some (q, set_width w s, ap)
      else if is_digit c then let '(p, w) := parse_number p 0 in Some (p, set_width w s, ap)
      else Some (p, s, ap)
  | [] => Some (p, s, ap)
  end.

Definition parse_precision (p : list Z) (s : fmt_spec) (ap : list va) : option (list Z * fmt_spec * list va) :=
  match p with
  | c :: p =>
      if c =? 46 then
        let s := set_precision 0 s in
        let number := let '(p, pr) := parse_number p 0 in Some (p, set_precision pr s, ap) in
        match p with
        | c :: q =>
            if c =? 42 then
              '(pr, ap) ← va_int ap;
              let pr := if pr <? 0 then -1 else pr in
              Some (q, set_precision pr s, ap)
            else number
        | [] => number
        end
      else Some (c :: p, s, ap)
  | [] => Some ([], s, ap)
  end.

(** [p[1]] of a format that has [p[0]] *)
Definition next_is (c : Z) (q : list Z) : bool := match q with d :: _ => d =? c | [] => false end.

Definition parse_length (p : list Z) (s : fmt_spec) : list Z * fmt_spec :=
  match p with
  | c :: q =>
      if c =? 104 then if next_is 104 q then (drop 1 q, set_len LEN_hh s) else (q, set_len LEN_h s)
      else if c =? 108 then if next_is 108 q then (drop 1 q, set_len LEN_ll s) else (q, set_len LEN_l s)
      else if c =? 122 then (q, set_len LEN_z s)
      else if c =? 106 then (q, set_len LEN_j s)
      else if c =? 116 then (q, set_len LEN_t s)
      else (p, s)
  | [] => (p, s)
  end.

Definition parse_spec (p : list Z) (ap : list va) : option (list Z * fmt_spec * list va) :=
  let '(p, sp) := parse_flags p (mkSpec false false false false false (-1) (-1) 0) in
  '(p, sp, ap) ← parse_width p sp ap;
  '(p, sp, ap) ← parse_precision p sp ap;
  let '(p, sp) := parse_length p sp in
  Some (p, sp, ap).

(** ** Digits *)

Definition DIGITS (uppercase : bool) : list Z :=
  if uppercase then [48; 49; 50; 51; 52; 53; 54; 55; 56; 57; 65; 66; 67; 68; 69; 70]
  else [48; 49; 50; 51; 52; 53; 54; 55; 56; 57; 97; 98; 99; 100; 101; 102].

(** The digits, the lowest first; [n] is the room left in the buffer. *)
Fixpoint digit_loop (n : nat) (val base : Z) (uppercase : bool) : list Z :=
  match n with
  | O => []
  | S n => if 0 <? val then (DIGITS uppercase).[val mod base] :: digit_loop n (val / base) base uppercase else []
  end.

Definition swap_ends (n i : Z) (buf : list Z) : list Z :=
  let t := buf.[i] in buf.[i <- buf.[n - 1 - i]].[n - 1 - i <- t].

Definition format_uint (val base : Z) (uppercase : bool) (bufsz : Z) : list Z :=
  if val =? 0 then [48]
  else
    let buf := digit_loop (Z.to_nat bufsz) val base uppercase in
    let n := len buf in
    for_each (swap_ends n) (Z.to_nat (n / 2)) 0 buf.

(** ** Output

    The characters go to [out], as far as there is room, and are counted. *)

Record output := mkOutput { mem : memory; written : Z }.

Section out.
Context (out size : Z).
Implicit Types (o : output).

Definition emit (c : Z) o : output :=
  mkOutput (if negb (out =? 0) && (written o <? u64 (size - 1)) then poke (mem o) (out + written o) c else mem o)
    (u64 (written o + 1)).

Definition emit_padding (c n : Z) o : output := for_each (fun _ => emit c) (Z.to_nat n) 0 o.

Fixpoint emit_chars (s : list Z) (n : nat) o : output :=
  match n, s with
  | S n, c :: s => if c =? 0 then o else emit_chars s n (emit c o)
  | _, _ => o
  end.
Definition emit_str (s : list Z) (n : Z) o : output := emit_chars s (Z.to_nat n) o.

Definition emit_string_field (s : option (list Z)) (sp : fmt_spec) o : output :=
  let s := default [40; 110; 117; 108; 108; 41] s in
  let slen := len s in
  let slen := if (0 <=? precision sp) && (precision sp <? slen) then precision sp else slen in
  let pad := s32 (width sp - slen) in
  let pad := if pad <? 0 then 0 else pad in
  if left_align sp then emit_padding 32 pad (emit_str s slen o)
  else emit_str s slen (emit_padding 32 pad o).

Definition emit_sign (is_negative has_sign_char : bool) (sign_char : Z) o : output :=
  if is_negative then emit_str [45] 1 o else if has_sign_char then emit_str [sign_char] 1 o else o.

Definition emit_int_field (uv : Z) (is_negative : bool) (base : Z) (uppercase alt has_sign_char : bool) (sign_char : Z)
    (sp : fmt_spec) o : output :=
  let digits := format_uint uv base uppercase 32 in
  let ndig := len digits in
  let min_digits := if 0 <=? precision sp then precision sp else -1 in
  let zeros := if (0 <=? min_digits) && (ndig <? min_digits) then min_digits - ndig else 0 in
  let ndig := if (min_digits =? 0) && (uv =? 0) then 0 else ndig in
  let prefix :=
    if alt && (base =? 16) && negb (uv =? 0) then [48; if uppercase then 88 else 120]
    else if alt && (base =? 8) && negb (uv =? 0) && (0 <? ndig) && negb (digits.[0] =? 48) then [48]
    else [] in
  let prefix_len := len prefix in
  let sign_len := if is_negative then 1 else if has_sign_char then 1 else 0 in
  let content_len := s32 (sign_len + prefix_len + zeros + ndig) in
  let pad := s32 (width sp - content_len) in
  let pad := if pad <? 0 then 0 else pad in
  let use_zero := zero_pad sp && negb (left_align sp) && (min_digits <? 0) in
  let sign := emit_sign is_negative has_sign_char sign_char in
  if left_align sp then
    emit_padding 32 pad (emit_str digits ndig (emit_padding 48 zeros (emit_str prefix prefix_len (sign o))))
  else if use_zero then
    emit_str digits ndig (emit_padding 48 (s32 (pad + zeros)) (emit_str prefix prefix_len (sign o)))
  else
    emit_str digits ndig (emit_padding 48 zeros (emit_str prefix prefix_len (sign (emit_padding 32 pad o)))).

(** ** Conversions *)

(** "va_arg" of a signed and of an unsigned integer of the given length *)
Definition arg_signed (l : Z) (ap : list va) : option (Z * list va) :=
  '(w, ap) ← va_word ap;
  Some (if (l =? LEN_l) || (l =? LEN_ll) || (l =? LEN_z) || (l =? LEN_j) || (l =? LEN_t) then s64 w
        else if l =? LEN_h then swrap 16 w
        else if l =? LEN_hh then swrap 8 w
        else s32 w, ap).

Definition arg_unsigned (l : Z) (ap : list va) : option (Z * list va) :=
  '(w, ap) ← va_word ap;
  Some (if (l =? LEN_l) || (l =? LEN_ll) || (l =? LEN_z) || (l =? LEN_j) || (l =? LEN_t) then u64 w
        else if l =? LEN_h then u16 w
        else if l =? LEN_hh then u8 w
        else u32 w, ap).

(** [bytes] bytes of [v] at [a], the lowest first. *)
Fixpoint store (bytes : nat) (m : memory) (a v : Z) : memory :=
  match bytes with O => m | S n => store n (poke m a (v mod 256)) (a + 1) (v / 256) end.

Definition count_bytes (l : Z) : nat :=
  if l =? LEN_h then 2%nat else if l =? LEN_hh then 1%nat else if l =? LEN_NONE then 4%nat else 8%nat.

(** One conversion character. *)
Definition convert (spec : Z) (sp : fmt_spec) (ap : list va) o : option (list va * output) :=
  if (spec =? 100) || (spec =? 105) then
    '(val, ap) ← arg_signed (flen sp) ap;
    let neg := val <? 0 in
    let uv := if neg then u64 (u64 (- (val + 1)) + 1) else u64 val in
    let has_sign := neg || plus_sign sp || space_sign sp in
    Some (ap, emit_int_field uv neg 10 false false (has_sign && negb neg) (if plus_sign sp then 43 else 32) sp o)
  else if spec =? 117 then
    '(val, ap) ← arg_unsigned (flen sp) ap; Some (ap, emit_int_field val false 10 false false false 0 sp o)
  else if (spec =? 120) || (spec =? 88) then
    '(val, ap) ← arg_unsigned (flen sp) ap; Some (ap, emit_int_field val false 16 (spec =? 88) (alt_form sp) false 0 sp o)
  else if spec =? 111 then
    '(val, ap) ← arg_unsigned (flen sp) ap; Some (ap, emit_int_field val false 8 false (alt_form sp) false 0 sp o)
  else if spec =? 99 then
    '(c, ap) ← va_int ap;
    let pad := s32 (width sp - 1) in
    let pad := if pad <? 0 then 0 else pad in
    Some (ap, if left_align sp then emit_padding 32 pad (emit_str [u8 c] 1 o) else emit_str [u8 c] 1 (emit_padding 32 pad o))
  else if spec =? 115 then
    '(s, ap) ← va_str ap; Some (ap, emit_string_field s sp o)
  else if spec =? 112 then
    '(val, ap) ← va_word ap; Some (ap, emit_int_field (u64 val) false 16 false true false 0 (set_alt sp) o)
  else if spec =? 37 then Some (ap, emit_str [37] 1 o)
  else if spec =? 110 then
    '(ptr, ap) ← va_word ap; Some (ap, mkOutput (store (count_bytes (flen sp)) (mem o) ptr (written o)) (written o))
  else Some (ap, emit_str [spec] 1 (emit_str [37] 1 o)).

(** What is left of the format after a specification; [None] inside when it ends too early. *)
Definition handle_specifier (p : list Z) (ap : list va) o : option (option (list Z * list va) * output) :=
  '(p, sp, ap) ← parse_spec p ap;
  match p with
  | [] => Some (None, o)
  | spec :: p => '(ap, o) ← convert spec sp ap o; Some (Some (p, ap), o)
  end.

Fixpoint format_loop (fuel : nat) (p : list Z) (ap : list va) o : option output :=
  match fuel, p with
  | _, [] => Some o
  | O, _ => None
  | S fuel, c :: p =>
      if negb (c =? 37) then format_loop fuel p ap (emit c o)
      else
        '(rest, o) ← handle_specifier p ap o;
        match rest with None => Some o | Some (p, ap) => format_loop fuel p ap o end
  end.
End out.

(** The new memory and the result. *)
Definition vsnprintf (str size : Z) (fmt : list Z) (ap : list va) (m : memory) : option (memory * Z) :=
  o ← format_loop str size (length fmt) fmt ap (mkOutput m 0);
  let m :=
    if negb (str =? 0) && (0 <? size) then
      let term := if written o <? u64 (size - 1) then written o else u64 (size - 1) in
      poke (mem o) (str + term) 0
    else mem o in
  Some (m, s32 (written o)).

Definition snprintf (str size : Z) (fmt : list Z) (args : list va) (m : memory) : option (memory * Z) :=
  vsnprintf str size fmt args m.
Definition sprintf (str : Z) (fmt : list Z) (args : list va) (m : memory) : option (memory * Z) :=
  vsnprintf str (2 ^ 64 - 1) fmt args m.
Definition vsprintf (str : Z) (fmt : list Z) (ap : list va) (m : memory) : option (memory * Z) :=
  vsnprintf str (2 ^ 64 - 1) fmt ap m.

(** ** Texts

    What each conversion writes, as a text; [ideal] is the whole output when nothing
    is cut off. *)

(** Characters put one after the other. *)
Definition put_all (out size : Z) (l : list Z) (o : output) : output := foldl (fun o c => emit out size c o) o l.

Definition rep (c n : Z) : list Z := replicate (Z.to_nat n) c.

(** [text] in a field of [w] characters. *)
Definition field (left : bool) (w : Z) (text : list Z) : list Z :=
  if left then text ++ rep 32 (w - len text) else rep 32 (w - len text) ++ text.

(** The digits of a number, the highest first. *)
Definition numeral (base : Z) (uppercase : bool) (v : Z) : list Z :=
  if v =? 0 then [48] else reverse (digit_loop 32 v base uppercase).

Definition number_text (v : Z) (sign : list Z) (base : Z) (uppercase alt : bool) (sp : fmt_spec) : list Z :=
  let digits := if (precision sp =? 0) && (v =? 0) then [] else numeral base uppercase v in
  let prefix := if alt && negb (v =? 0) then if base =? 16 then [48; if uppercase then 88 else 120] else if base =? 8 then [48] else [] else [] in
  let zeros := rep 48 (precision sp - len digits) in
  if negb (left_align sp) && zero_pad sp && (precision sp <? 0) then
    sign ++ prefix ++ rep 48 (width sp - len (sign ++ prefix ++ digits)) ++ digits
  else field (left_align sp) (width sp) (sign ++ prefix ++ zeros ++ digits).

Definition NULL_TEXT : list Z := [40; 110; 117; 108; 108; 41].

Definition string_text (s : list Z) (sp : fmt_spec) : list Z :=
  field (left_align sp) (width sp) (if 0 <=? precision sp then take (Z.to_nat (precision sp)) s else s).

Definition char_text (c : Z) (sp : fmt_spec) : list Z :=
  let text := if c =? 0 then [] else [c] in
  if left_align sp then text ++ rep 32 (width sp - 1) else rep 32 (width sp - 1) ++ text.

Definition sign_text (v : Z) (sp : fmt_spec) : list Z :=
  if v <? 0 then [45] else if plus_sign sp then [43] else if space_sign sp then [32] else [].

(** Widths within int, and strings of characters. *)
Definition plain (sp : fmt_spec) : bool := (-1 <=? width sp) && (width sp <? 2 ^ 31 - 4) && (precision sp <? 2 ^ 31 - 4).
Definition plain_string (s : list Z) : bool := forallb (fun c => 0 <? c) s && (len s <? 2 ^ 31 - 4).

(** The text of a conversion; [None] where C gives no meaning, and for "%n". *)
Definition conv_text (spec : Z) (sp : fmt_spec) (ap : list va) : option (list va * list Z) :=
  if negb (plain sp) then None
  else if (spec =? 100) || (spec =? 105) then
    '(v, ap) ← arg_signed (flen sp) ap; Some (ap, number_text (Z.abs v) (sign_text v sp) 10 false false sp)
  else if spec =? 117 then '(v, ap) ← arg_unsigned (flen sp) ap; Some (ap, number_text v [] 10 false false sp)
  else if spec =? 120 then '(v, ap) ← arg_unsigned (flen sp) ap; Some (ap, number_text v [] 16 false (alt_form sp) sp)
  else if spec =? 88 then '(v, ap) ← arg_unsigned (flen sp) ap; Some (ap, number_text v [] 16 true (alt_form sp) sp)
  else if spec =? 111 then '(v, ap) ← arg_unsigned (flen sp) ap; Some (ap, number_text v [] 8 false (alt_form sp) sp)
  else if spec =? 99 then '(c, ap) ← va_int ap; Some (ap, char_text (u8 c) sp)
  else if spec =? 115 then
    '(s, ap) ← va_str ap; let s := default NULL_TEXT s in if plain_string s then Some (ap, string_text s sp) else None
  else if spec =? 112 then '(v, ap) ← va_word ap; Some (ap, number_text (u64 v) [] 16 false true sp)
  else if spec =? 37 then Some (ap, [37])
  else if (spec =? 110) || (spec <=? 0) then None
  else Some (ap, [37; spec]).

Fixpoint ideal_loop (fuel : nat) (p : list Z) (ap : list va) : option (list Z) :=
  match fuel, p with
  | _, [] => Some []
  | O, _ => None
  | S fuel, c :: p =>
      if negb (c =? 37) then t ← ideal_loop fuel p ap; Some (c :: t)
      else
        '(p, sp, ap) ← parse_spec p ap;
        match p with
        | [] => Some []
        | spec :: p => '(ap, t) ← conv_text spec sp ap; r ← ideal_loop fuel p ap; Some (t ++ r)
        end
  end.
Definition ideal (fmt : list Z) (ap : list va) : option (list Z) := ideal_loop (length fmt) fmt ap.

(** ** Numerals *)

Lemma digit_loop_length n v base up : (length (digit_loop n v base up) <= n)%nat.
Proof. revert v. induction n as [|n IH]; intros v; cbn [digit_loop]; [done|]. destruct (0 <? v); simpl; [specialize (IH (v / base)); lia|lia]. Qed.

(** Turning an array around in place. *)
Lemma swap_loop_reverse (l : list Z) : for_each (swap_ends (len l)) (Z.to_nat (len l / 2)) 0 l = reverse l.
Proof.
  pose proof (len_nonneg l) as Hl0.
  assert (Hr : forall i, 0 <= i < len l -> (reverse l).[i] = l.[len l - 1 - i]).
  { intros i Hi. unfold geti. rewrite !list_lookup_total_alt, reverse_lookup by (unfold len in *; lia). do 2 f_equal. unfold len in *. lia. }
  assert (Hlen : len (reverse l) = len l) by (unfold len; by rewrite length_reverse).
  pose proof (for_each_ind (swap_ends (len l)) (fun j b => len b = len l /\ forall i, 0 <= i < len l ->
    b.[i] = if (i <? j) || (len l - 1 - i <? j) then l.[len l - 1 - i] else l.[i]) (Z.to_nat (len l / 2)) 0 l) as L.
  destruct L as [Lb Hb].
  - split; [done|]. intros i Hi. destruct (Z.ltb_spec i 0); [lia|]. destruct (Z.ltb_spec (len l - 1 - i) 0); [lia|]. done.
  - intros j b Hj [Lb Hb]. assert (Hj2 : j < len l - 1 - j) by zlia. unfold swap_ends. split; [by rewrite !len_seti|].
    intros i Hi. rewrite geti_seti by (rewrite ?len_seti; lia). destruct (decide (len l - 1 - j = i)) as [<-|Hne].
    { rewrite Hb by lia. rewrite (proj2 (Z.ltb_ge j j)), (proj2 (Z.ltb_ge (len l - 1 - j) j)) by lia. cbn [orb].
      rewrite (proj2 (Z.ltb_lt (len l - 1 - (len l - 1 - j)) (j + 1))), orb_true_r by lia. f_equal. lia. }
    rewrite geti_seti by lia. destruct (decide (j = i)) as [<-|Hne2].
    { rewrite Hb by lia. destruct (Z.ltb_spec (len l - 1 - j) j); [lia|]. destruct (Z.ltb_spec (len l - 1 - (len l - 1 - j)) j); [lia|].
      cbn [orb]. by rewrite (proj2 (Z.ltb_lt j (j + 1))) by lia. }
    rewrite Hb by lia. destruct (Z.ltb_spec i j), (Z.ltb_spec i (j + 1)), (Z.ltb_spec (len l - 1 - i) j), (Z.ltb_spec (len l - 1 - i) (j + 1)); done || lia.
  - apply list_ext_geti; [lia|]. intros i Hi. rewrite Hb, Hr by lia.
    destruct (Z.ltb_spec i (0 + Z.of_nat (Z.to_nat (len l / 2)))), (Z.ltb_spec (len l - 1 - i) (0 + Z.of_nat (Z.to_nat (len l / 2)))); try done.
    cbn [orb]. f_equal. zlia.
Qed.

Lemma format_uint_numeral v base up : format_uint v base up 32 = numeral base up v.
Proof. unfold format_uint, numeral. destruct (v =? 0); [done|]. apply swap_loop_reverse. Qed.

Definition digit_of (c : Z) : Z := if c <=? 57 then c - 48 else if c <=? 70 then c - 55 else c - 87.

(** The number that digits denote, the highest first. *)
Definition place_value (base : Z) (l : list Z) : Z := fold_left (fun v c => v * base + digit_of c) l 0.

Lemma digit_char up d : 0 <= d < 16 ->
  digit_of (DIGITS up).[d] = d /\ 0 < (DIGITS up).[d] < 256 /\ (d < 10 -> 48 <= (DIGITS up).[d] <= 57) /\ (d <> 0 -> (DIGITS up).[d] <> 48).
Proof.
  intros Hd. assert (Hall : Forall (fun d => digit_of (DIGITS up).[d] = d /\ 0 < (DIGITS up).[d] < 256 /\
    (d < 10 -> 48 <= (DIGITS up).[d] <= 57) /\ (d <> 0 -> (DIGITS up).[d] <> 48)) (seqZ 0 16)).
  { destruct up; repeat (apply List.Forall_cons; [vm_compute; intuition (try done; try congruence)|]); apply List.Forall_nil. }
  rewrite List.Forall_forall in Hall. apply Hall, list_elem_of_In, elem_of_seqZ. lia.
Qed.

Section numerals.
Context (base : Z) (up : bool).
Hypothesis Hbase : 4 <= base <= 16.

Lemma digit_loop_ok n v : 0 <= v < base ^ Z.of_nat n ->
  foldr (fun c r => r * base + digit_of c) 0 (digit_loop n v base up) = v /\
  Forall (fun c => 0 <= digit_of c < base /\ 0 < c < 256 /\ (base <= 10 -> 48 <= c <= 57)) (digit_loop n v base up) /\
  (v <> 0 -> exists l c, digit_loop n v base up = l ++ [c] /\ c <> 48).
Proof.
  revert v. induction n as [|n IH]; intros v Hv; cbn [digit_loop].
  { change (base ^ Z.of_nat 0) with 1 in Hv. assert (v = 0) as -> by lia. split; [done|]. split; [constructor|done]. }
  rewrite Nat2Z.inj_succ, Z.pow_succ_r in Hv by lia. destruct (Z.ltb_spec 0 v) as [Hlt|Hge].
  2: { assert (v = 0) as -> by lia. split; [done|]. split; [constructor|done]. }
  pose proof (Z.mod_pos_bound v base ltac:(lia)) as Hm. pose proof (Z.div_mod v base ltac:(lia)) as Ed.
  assert (Hq : 0 <= v / base < base ^ Z.of_nat n) by (split; [apply Z.div_pos; lia|apply Z.div_lt_upper_bound; lia]).
  destruct (digit_char up (v mod base) ltac:(lia)) as (Dv & Dr & Dd & Dz). destruct (IH (v / base) Hq) as (I1 & I2 & I3). split; [|split].
  - cbn [foldr]. rewrite I1, Dv. lia.
  - constructor; [|done]. rewrite Dv. split; [lia|]. split; [done|]. intros. apply Dd. lia.
  - intros _. destruct (decide (v / base = 0)) as [E0|Hne].
    + rewrite E0. exists [], (DIGITS up).[v mod base]. split; [by destruct n|]. apply Dz. intros Em. rewrite E0, Em in Ed. lia.
    + destruct (I3 Hne) as (l & c & -> & Hc). by exists ((DIGITS up).[v mod base] :: l), c.
Qed.

(** The numeral is the positional notation of the number, without leading zeros. *)
Lemma numeral_ok v : 0 <= v < 2 ^ 64 ->
  place_value base (numeral base up v) = v /\
  Forall (fun c => 0 <= digit_of c < base /\ 0 < c < 256 /\ (base <= 10 -> 48 <= c <= 57)) (numeral base up v) /\
  0 < len (numeral base up v) <= 32 /\ (v <> 0 -> (numeral base up v).[0] <> 48).
Proof.
  intros Hv. unfold numeral. destruct (Z.eqb_spec v 0) as [E0|Hne].
  { rewrite E0. split; [done|]. split; [constructor; [unfold digit_of; cbn; lia|constructor]|]. split; [by vm_compute|done]. }
  assert (Hb : 0 <= v < base ^ Z.of_nat 32).
  { split; [lia|]. pose proof (Z.pow_le_mono_l 4 base 32 ltac:(lia)). change (Z.of_nat 32) with 32. change (2 ^ 64) with (4 ^ 32) in Hv. lia. }
  destruct (digit_loop_ok 32 v Hb) as (D1 & D2 & D3). destruct (D3 Hne) as (l & c & E & Hc). unfold reverse. rewrite <- rev_alt. split; [|split; [|split]].
  - unfold place_value. rewrite <- D1 at 2. rewrite <- (rev_involutive (digit_loop 32 v base up)) at 2. by rewrite fold_left_rev_right.
  - by apply Forall_rev.
  - unfold len. rewrite length_rev. split; [rewrite E, length_app; simpl; lia|]. pose proof (digit_loop_length 32 v base up). lia.
  - intros _. by rewrite E, rev_app_distr.
Qed.
End numerals.

(** ** The output functions write their texts *)

Section emits.
Context (out size : Z).
Implicit Types (o : output).
Notation put := (put_all out size).

Lemma put_app l l' o : put (l ++ l') o = put l' (put l o).
Proof. apply foldl_app. Qed.

Lemma rep_len c n : 0 <= n -> len (rep c n) = n.
Proof. intros Hn. unfold len, rep. rewrite length_replicate. lia. Qed.

Lemma rep_none c n : n <= 0 -> rep c n = [].
Proof. intros Hn. unfold rep. by replace (Z.to_nat n) with 0%nat by lia. Qed.

Lemma emit_padding_ok c n o : emit_padding out size c n o = put (rep c n) o.
Proof.
  unfold emit_padding, rep. generalize 0. generalize (Z.to_nat n). intros k. revert o. induction k as [|k IH]; intros o i; [done|]. cbn. apply IH.
Qed.

(** A padding computed by the code from an int difference. *)
Lemma pad_ok c d o : - 2 ^ 31 <= d < 2 ^ 31 ->
  emit_padding out size c (if s32 d <? 0 then 0 else s32 d) o = put (rep c d) o.
Proof.
  intros Hd. rewrite swrap_small, emit_padding_ok by lia. destruct (Z.ltb_spec d 0); [|done]. by rewrite !rep_none by lia.
Qed.

Lemma emit_str_ok s n o : Forall (fun c => 0 < c) s -> emit_str out size s n o = put (take (Z.to_nat n) s) o.
Proof.
  intros Hs. unfold emit_str. generalize (Z.to_nat n). intros k. revert k o. induction Hs as [|c s Hc Hs IH]; intros k o; destruct k as [|k]; try done.
  cbn. rewrite (proj2 (Z.eqb_neq c 0)) by lia. apply IH.
Qed.

Lemma emit_str_all s n o : Forall (fun c => 0 < c) s -> n = len s -> emit_str out size s n o = put s o.
Proof. intros Hs ->. rewrite emit_str_ok by done. unfold len. by rewrite Nat2Z.id, take_ge by done. Qed.

Lemma emit_field (left : bool) w (l : list Z) o (e : output -> output) :
  (forall o, e o = put l o) -> -1 <= w < 2 ^ 31 -> len l < 2 ^ 31 - 1 ->
  (let pad := s32 (w - len l) in let pad := if pad <? 0 then 0 else pad in
   if left then emit_padding out size 32 pad (e o) else e (emit_padding out size 32 pad o)) = put (field left w l) o.
Proof.
  intros He Hw Hl. pose proof (len_nonneg l). cbv zeta. unfold field. destruct left; rewrite pad_ok, !He, put_app by lia; done.
Qed.

Lemma emit_string_field_ok s sp o : plain sp = true -> plain_string (default NULL_TEXT s) = true ->
  emit_string_field out size s sp o = put (string_text (default NULL_TEXT s) sp) o.
Proof.
  unfold plain, plain_string, emit_string_field, string_text. rewrite !andb_true_iff, forallb_forall, !Z.leb_le, !Z.ltb_lt. fold NULL_TEXT.
  intros [[Hw1 Hw2] Hp] [Hs Hls]. set (t := default NULL_TEXT s) in *.
  assert (Ht : Forall (fun c => 0 < c) t) by (apply List.Forall_forall; intros c Hc; by apply Z.ltb_lt, Hs).
  set (n := if (0 <=? precision sp) && (precision sp <? len t) then precision sp else len t).
  assert (En : take (Z.to_nat n) t = if 0 <=? precision sp then take (Z.to_nat (precision sp)) t else t).
  { unfold n. destruct (Z.leb_spec 0 (precision sp)); cbn [andb]; [|apply take_ge; unfold len; lia].
    destruct (Z.ltb_spec (precision sp) (len t)); [done|]. rewrite !take_ge by (unfold len in *; lia). done. }
  rewrite <- En. assert (Eln : len (take (Z.to_nat n) t) = n).
  { pose proof (len_nonneg t). unfold len. rewrite length_take. unfold n, len in *. destruct (Z.leb_spec 0 (precision sp)); cbn [andb]; [|lia].
    destruct (Z.ltb_spec (precision sp) (Z.of_nat (length t))); lia. }
  pose proof (emit_field (left_align sp) (width sp) (take (Z.to_nat n) t) o (emit_str out size t n)) as F. cbv zeta in F |- *. rewrite Eln in F.
  apply F; [|lia|]. { intros o'. by apply emit_str_ok. }
  unfold n. pose proof (len_nonneg t). destruct (_ && _) eqn:E; [|lia]. apply andb_true_iff in E as [_ E%Z.ltb_lt]. lia.
Qed.

Lemma emit_sign_ok neg has c o : 0 < c -> emit_sign out size neg has c o = put (if neg then [45] else if has then [c] else []) o.
Proof. intros Hc. unfold emit_sign. destruct neg; [done|]. destruct has; [|done]. by apply emit_str_all; [constructor|]. Qed.

Lemma emit_int_field_ok uv neg base up alt has c sp o :
  (base = 8 \/ base = 10 \/ base = 16) -> 0 <= uv < 2 ^ 64 -> 0 < c -> plain sp = true ->
  emit_int_field out size uv neg base up alt has c sp o =
  put (number_text uv (if neg then [45] else if has then [c] else []) base up alt sp) o.
Proof.
  intros Hbase Huv Hc. unfold plain. rewrite !andb_true_iff, !Z.leb_le, !Z.ltb_lt. intros [[Hw1 Hw2] Hp].
  destruct (numeral_ok base up ltac:(lia) uv Huv) as (_ & Hd & Hln & Hz). unfold emit_int_field, number_text. rewrite format_uint_numeral. cbv zeta.
  set (D := numeral base up uv) in *. set (sign := if neg then [45] else if has then [c] else []).
  set (z0 := (precision sp =? 0) && (uv =? 0)). set (digits := if z0 then [] else D).
  set (prefix := if alt && negb (uv =? 0) then if base =? 16 then [48; if up then 88 else 120] else if base =? 8 then [48] else [] else []).
  assert (HD : Forall (fun c => 0 < c) D) by (eapply Forall_impl; [|exact Hd]; simpl; lia).
  assert (Hzd : z0 = true -> precision sp = 0) by (unfold z0; rewrite andb_true_iff; lia).
  set (md := if 0 <=? precision sp then precision sp else -1).
  assert (Emd : md = Z.max (-1) (precision sp)) by (unfold md; destruct (Z.leb_spec 0 (precision sp)); lia).
  set (zeros := if (0 <=? md) && (len D <? md) then md - len D else 0).
  assert (Ezeros : zeros = Z.max 0 (precision sp - len digits)).
  { unfold zeros, digits. destruct (Z.leb_spec 0 md), (Z.ltb_spec (len D) md); cbn [andb]; destruct z0; try (specialize (Hzd eq_refl)); change (len (@nil Z)) with 0; lia. }
  assert (Erz : rep 48 (precision sp - len digits) = rep 48 zeros) by (rewrite Ezeros; unfold rep; f_equal; lia).
  assert (Endig : (if (md =? 0) && (uv =? 0) then 0 else len D) = len digits).
  { unfold digits, z0. assert ((md =? 0) = (precision sp =? 0)) as -> by (destruct (Z.eqb_spec md 0), (Z.eqb_spec (precision sp) 0); lia). by destruct (_ && _). }
  rewrite Endig.
  assert (Epre : (if alt && (base =? 16) && negb (uv =? 0) then [48; if up then 88 else 120]
     else if alt && (base =? 8) && negb (uv =? 0) && (0 <? len digits) && negb (D.[0] =? 48) then [48] else []) = prefix).
  { unfold prefix. destruct alt; cbn [andb]; [|done]. destruct (Z.eqb_spec uv 0) as [E0|Hne]; cbn [negb]; rewrite ?andb_false_r; [done|].
    rewrite !andb_true_r. destruct (base =? 16); [done|]. destruct (base =? 8); cbn [andb]; [|done].
    assert (z0 = false) as Ez by (unfold z0; rewrite ?(proj2 (Z.eqb_neq uv 0)) by done; apply andb_false_r). unfold digits. rewrite Ez.
    rewrite (proj2 (Z.ltb_lt 0 (len D))) by lia. by rewrite (proj2 (Z.eqb_neq D.[0] 48)) by by apply Hz. }
  rewrite Epre.
  assert (Esign : (if neg then 1 else if has then 1 else 0) = len sign) by (unfold sign; by destruct neg, has).
  rewrite Esign. assert (Hls : 0 <= len sign <= 1) by (unfold sign; destruct neg, has; by vm_compute).
  assert (Hlp : 0 <= len prefix <= 2) by (unfold prefix; destruct (alt && _), (base =? 16), (base =? 8); by vm_compute).
  assert (Hldg : 0 <= len digits <= 32) by (unfold digits; destruct z0; [by vm_compute|lia]).
  assert (Ec : s32 (len sign + len prefix + zeros + len digits) = len (sign ++ prefix ++ rep 48 zeros ++ digits)).
  { rewrite !len_app, rep_len, swrap_small by lia. lia. }
  rewrite Ec. assert (Hct : 0 <= len (sign ++ prefix ++ rep 48 zeros ++ digits) < 2 ^ 31 - 1) by (rewrite !len_app, rep_len by lia; lia).
  assert (Hes : forall o, emit_sign out size neg has c o = put sign o) by (intros o'; by apply emit_sign_ok).
  assert (Hep : forall o, emit_str out size prefix (len prefix) o = put prefix o).
  { intros o'. apply emit_str_all; [|done]. unfold prefix. destruct (alt && _), (base =? 16), (base =? 8), up; repeat constructor. }
  assert (Hed : forall o, emit_str out size D (len digits) o = put digits o).
  { intros o'. rewrite emit_str_ok by done. unfold digits. destruct z0; [done|]. unfold len. by rewrite Nat2Z.id, take_ge. }
  assert (Euz : zero_pad sp && negb (left_align sp) && (md <? 0) = negb (left_align sp) && zero_pad sp && (precision sp <? 0)).
  { destruct (zero_pad sp), (left_align sp); try done. cbn. destruct (Z.ltb_spec md 0), (Z.ltb_spec (precision sp) 0); lia. }
  rewrite Euz, Erz. set (text := sign ++ prefix ++ rep 48 zeros ++ digits) in *.
  destruct (left_align sp) eqn:EL; cbn [negb andb].
  - rewrite pad_ok, Hed, emit_padding_ok, Hep, Hes by lia. unfold field. rewrite <- !put_app. unfold text. by rewrite <- !app_assoc.
  - destruct (zero_pad sp && (precision sp <? 0)) eqn:EZ.
    + apply andb_true_iff in EZ as [_ EZ%Z.ltb_lt]. assert (zeros = 0) as Hz0 by lia. rewrite Hz0, Z.add_0_r.
      assert (Et : text = sign ++ prefix ++ digits) by (unfold text; by rewrite Hz0). rewrite <- Et.
      rewrite (swrap_small 32 (width sp - len text)) by lia.
      assert (Hs : s32 (if width sp - len text <? 0 then 0 else width sp - len text) = Z.max 0 (width sp - len text)).
      { destruct (Z.ltb_spec (width sp - len text) 0); rewrite swrap_small; lia. }
      rewrite Hs, Hed, emit_padding_ok, Hep, Hes, <- !put_app. do 4 f_equal. unfold rep. f_equal. lia.
    + rewrite Hed, emit_padding_ok, Hep, Hes, pad_ok by lia. unfold field. by rewrite <- !put_app.
Qed.

Lemma arg_signed_range l ap v ap' : arg_signed l ap = Some (v, ap') -> - 2 ^ 63 <= v < 2 ^ 63.
Proof.
  unfold arg_signed. destruct (va_word ap) as [[w r]|]; [|done]. cbn [mbind option_bind]. intros [= <- _].
  pose proof (swrap_range 64 w ltac:(lia)). pose proof (swrap_range 32 w ltac:(lia)). pose proof (swrap_range 16 w ltac:(lia)). pose proof (swrap_range 8 w ltac:(lia)).
  destruct (_ || _); [lia|]. destruct (_ =? _); [lia|]. destruct (_ =? _); lia.
Qed.

Lemma arg_unsigned_range l ap v ap' : arg_unsigned l ap = Some (v, ap') -> 0 <= v < 2 ^ 64.
Proof.
  unfold arg_unsigned. destruct (va_word ap) as [[w r]|]; [|done]. cbn [mbind option_bind]. intros [= <- _].
  pose proof (wrap_range 64 w ltac:(lia)). pose proof (wrap_range 32 w ltac:(lia)). pose proof (wrap_range 16 w ltac:(lia)). pose proof (wrap_range 8 w ltac:(lia)).
  destruct (_ || _); [lia|]. destruct (_ =? _); [lia|]. destruct (_ =? _); lia.
Qed.

Lemma convert_signed v sp o : - 2 ^ 63 <= v < 2 ^ 63 -> plain sp = true ->
  emit_int_field out size (if v <? 0 then u64 (u64 (- (v + 1)) + 1) else u64 v) (v <? 0) 10 false false
    (((v <? 0) || plus_sign sp || space_sign sp) && negb (v <? 0)) (if plus_sign sp then 43 else 32) sp o =
  put (number_text (Z.abs v) (sign_text v sp) 10 false false sp) o.
Proof.
  intros Hv Hsp. assert (Ev : (if v <? 0 then u64 (u64 (- (v + 1)) + 1) else u64 v) = Z.abs v).
  { destruct (Z.ltb_spec v 0); [rewrite (wrap_small 64 (- (v + 1))), wrap_small by lia; lia|rewrite wrap_small by lia; lia]. }
  rewrite Ev, emit_int_field_ok; [|by right; left|lia|destruct (plus_sign sp); lia|done]. do 2 f_equal. unfold sign_text.
  by destruct (v <? 0), (plus_sign sp), (space_sign sp).
Qed.

Lemma convert_char c sp o : plain sp = true ->
  (let pad := s32 (width sp - 1) in let pad := if pad <? 0 then 0 else pad in
   if left_align sp then emit_padding out size 32 pad (emit_str out size [c] 1 o)
   else emit_str out size [c] 1 (emit_padding out size 32 pad o)) = put (char_text c sp) o.
Proof.
  unfold plain. rewrite !andb_true_iff, !Z.leb_le, !Z.ltb_lt. intros [[Hw1 Hw2] Hp]. cbv zeta. unfold char_text.
  assert (He : forall o, emit_str out size [c] 1 o = put (if c =? 0 then [] else [c]) o) by (intros o'; unfold emit_str; cbn; by destruct (c =? 0)).
  destruct (left_align sp); rewrite pad_ok, !He, put_app by lia; done.
Qed.

Lemma convert_ok spec sp ap ap' t o :
  conv_text spec sp ap = Some (ap', t) -> convert out size spec sp ap o = Some (ap', put t o).
Proof.
  unfold conv_text, convert. destruct (plain sp) eqn:Hsp; cbn [negb]; [|done].
  destruct ((spec =? 100) || (spec =? 105)).
  { destruct (arg_signed (flen sp) ap) as [[v r]|] eqn:Ea; [|done]. cbn [mbind option_bind]. intros [= <- <-].
    f_equal. f_equal. apply convert_signed; [by eapply arg_signed_range|done]. }
  assert (Hu : forall v r base up alt, arg_unsigned (flen sp) ap = Some (v, r) -> (base = 8 \/ base = 10 \/ base = 16) ->
    emit_int_field out size v false base up alt false 0 sp o = put (number_text v [] base up alt sp) o).
  { intros v r base up alt Ha Hb. pose proof (arg_unsigned_range _ _ _ _ Ha).
    pose proof (emit_int_field_ok v false base up alt false 1 sp o Hb ltac:(done) ltac:(lia) Hsp) as E. cbn iota in E. rewrite <- E. done. }
  destruct (Z.eqb_spec spec 117) as [E117|_].
  { destruct (arg_unsigned (flen sp) ap) as [[v r]|] eqn:Ea; [|done]. cbn [mbind option_bind]. intros [= <- <-]. rewrite (Hu v r) by tauto. done. }
  destruct (Z.eqb_spec spec 120) as [E120|_]; cbn [orb].
  { rewrite E120. destruct (arg_unsigned (flen sp) ap) as [[v r]|] eqn:Ea; [|done]. cbn [mbind option_bind]. intros [= <- <-]. rewrite (Hu v r) by tauto. done. }
  destruct (Z.eqb_spec spec 88) as [E88|_].
  { destruct (arg_unsigned (flen sp) ap) as [[v r]|] eqn:Ea; [|done]. cbn [mbind option_bind]. intros [= <- <-]. rewrite (Hu v r) by tauto. done. }
  destruct (Z.eqb_spec spec 111) as [E111|_].
  { destruct (arg_unsigned (flen sp) ap) as [[v r]|] eqn:Ea; [|done]. cbn [mbind option_bind]. intros [= <- <-]. rewrite (Hu v r) by tauto. done. }
  destruct (Z.eqb_spec spec 99) as [E99|_].
  { destruct (va_int ap) as [[c r]|]; [|done]. cbn [mbind option_bind]. intros [= <- <-]. f_equal. f_equal. by apply convert_char. }
  destruct (Z.eqb_spec spec 115) as [E115|_].
  { destruct (va_str ap) as [[s r]|]; [|done]. cbn [mbind option_bind]. destruct (plain_string _) eqn:Es; [|done]. intros [= <- <-].
    by rewrite emit_string_field_ok. }
  destruct (Z.eqb_spec spec 112) as [E112|_].
  { destruct (va_word ap) as [[w r]|]; [|done]. cbn [mbind option_bind]. intros [= <- <-].
    pose proof (emit_int_field_ok (u64 w) false 16 false true false 1 (set_alt sp) o ltac:(tauto) (wrap_range 64 w ltac:(lia)) ltac:(lia) Hsp) as E.
    cbn iota in E. f_equal. f_equal. exact E. }
  destruct (Z.eqb_spec spec 37) as [E37|_]; [by intros [= <- <-]|].
  destruct (Z.eqb_spec spec 110) as [E110|_]; cbn [orb]; [done|]. destruct (Z.leb_spec spec 0); [done|]. intros [= <- <-].
  assert (Es : forall o, emit_str out size [spec] 1 o = put [spec] o) by (intros o'; apply emit_str_all; [by repeat constructor|done]).
  rewrite Es. done.
Qed.

Lemma format_loop_ok fuel p ap t o :
  ideal_loop fuel p ap = Some t -> format_loop out size fuel p ap o = Some (put t o).
Proof.
  revert p ap t o. induction fuel as [|fuel IH]; intros p ap t o; (destruct p as [|c p]; cbn [ideal_loop format_loop]; [by intros [= <-]|]); [done|].
  destruct (negb (c =? 37)).
  - destruct (ideal_loop fuel p ap) as [t'|] eqn:E; [|done]. cbn [mbind option_bind]. intros [= <-]. by rewrite (IH _ _ _ _ E).
  - unfold handle_specifier. destruct (parse_spec p ap) as [[[q sp] r]|]; [|done]. cbn [mbind option_bind]. destruct q as [|spec q]; [by intros [= <-]|].
    destruct (conv_text spec sp r) as [[r' t1]|] eqn:E1; [|done]. cbn [mbind option_bind]. rewrite (convert_ok _ _ _ _ _ _ E1). cbn [mbind option_bind].
    destruct (ideal_loop fuel q r') as [t2|] eqn:E2; [|done]. intros [= <-]. rewrite (IH _ _ _ _ E2). by rewrite put_app.
Qed.

(** Memory after the characters [l]: those with room are stored. *)
Lemma put_mem l o : 0 <= written o -> written o + len l < 2 ^ 64 ->
  let o' := put l o in written o' = written o + len l /\
  forall x, mem o' x = if (out + written o <=? x) && (x <? out + Z.min (written o + len l) (u64 (size - 1))) && negb (out =? 0)
                       then l.[x - out - written o] else mem o x.
Proof.
  revert o. induction l as [|c l IH]; intros o Hw Hb.
  { cbn. change (len []) with 0 in *. rewrite Z.add_0_r. split; [done|]. intros x.
    destruct (Z.leb_spec (out + written o) x), (Z.ltb_spec x (out + Z.min (written o) (u64 (size - 1)))); cbn [andb]; try done. lia. }
  pose proof (len_nonneg l). rewrite len_cons in Hb. cbn [put_all foldl]. destruct (IH (emit out size c o)) as [E1 E2].
  { apply wrap_range. lia. } { unfold emit. cbn [written]. rewrite wrap_small by lia. lia. }
  unfold put_all in E1, E2. split.
  - rewrite E1, len_cons. unfold emit. cbn [written]. rewrite wrap_small by lia. lia.
  - intros x. rewrite E2, len_cons. unfold emit. cbn [written mem]. rewrite (wrap_small 64 (written o + 1)) by lia.
    replace (written o + (1 + len l)) with (written o + 1 + len l) by lia. set (cap := u64 (size - 1)).
    destruct (negb (out =? 0)) eqn:En; cbn [andb]; [|by rewrite !andb_false_r]. rewrite !andb_true_r.
    destruct (Z.leb_spec (out + (written o + 1)) x) as [H1|H1]; cbn [andb].
    + rewrite (proj2 (Z.leb_le (out + written o) x)) by lia. cbn [andb].
      assert (Eg : (c :: l).[x - out - written o] = l.[x - out - (written o + 1)]).
      { unfold geti. by replace (Z.to_nat (x - out - written o)) with (S (Z.to_nat (x - out - (written o + 1)))) by lia. }
      rewrite Eg. destruct (x <? out + Z.min (written o + 1 + len l) cap); [done|]. destruct (written o <? cap); [|done].
      unfold poke. by rewrite (proj2 (Z.eqb_neq x (out + written o))) by lia.
    + destruct (Z.ltb_spec (written o) cap) as [Hc|Hc].
      * unfold poke. destruct (Z.eqb_spec x (out + written o)) as [E|Hne].
        { rewrite (proj2 (Z.leb_le _ _)), (proj2 (Z.ltb_lt _ _)) by lia. cbn [andb]. by replace (x - out - written o) with 0 by lia. }
        by rewrite (proj2 (Z.leb_gt (out + written o) x)) by lia.
      * destruct (Z.leb_spec (out + written o) x), (Z.ltb_spec x (out + Z.min (written o + 1 + len l) cap)); cbn [andb]; try done. lia.
Qed.
End emits.

Lemma put_null size l o : mem (put_all 0 size l o) = mem o.
Proof. revert o. induction l as [|c l IH]; intros o; [done|]. cbn [put_all foldl]. exact (IH (emit 0 size c o)). Qed.

(** The memory and the result of vsnprintf. *)
Lemma vsnprintf_text str size fmt ap m t :
  ideal fmt ap = Some t -> len t < 2 ^ 31 -> 0 <= size < 2 ^ 64 ->
  exists m', vsnprintf str size fmt ap m = Some (m', len t) /\
    (str = 0 -> m' = m) /\
    (str <> 0 -> 0 < size -> forall x, m' x =
       let k := Z.min (len t) (size - 1) in if (str <=? x) && (x <? str + k) then t.[x - str] else if x =? str + k then 0 else m x) /\
    (str <> 0 -> size = 0 -> forall x, m' x = if (str <=? x) && (x <? str + len t) then t.[x - str] else m x).
Proof.
  intros Hi Hl Hs. pose proof (len_nonneg t). unfold vsnprintf. rewrite (format_loop_ok str size _ _ _ _ _ Hi). cbn [mbind option_bind].
  destruct (put_mem str size t (mkOutput m 0)) as [Ew Em]; [cbn; lia|cbn; lia|]. cbn [written mem] in *. rewrite Z.add_0_l in *.
  rewrite Ew, swrap_small by lia. eexists. split; [done|].
  assert (Em0 : str <> 0 -> forall x, mem (put_all str size t (mkOutput m 0)) x = if (str <=? x) && (x <? str + Z.min (len t) (u64 (size - 1))) then t.[x - str] else m x).
  { intros Hne x. by rewrite Em, (proj2 (Z.eqb_neq str 0)), Z.add_0_r, Z.sub_0_r, andb_true_r. }
  split; [|split].
  - intros ->. cbn [Z.eqb negb andb]. apply put_null.
  - intros Hne Hpos x. rewrite (proj2 (Z.eqb_neq str 0)), (proj2 (Z.ltb_lt 0 size)) by done. cbn [negb andb].
    rewrite (wrap_small 64 (size - 1)) in * by lia. specialize (Em0 Hne x). cbv zeta. set (k := Z.min (len t) (size - 1)) in *.
    replace (if len t <? size - 1 then len t else size - 1) with k by (subst k; destruct (Z.ltb_spec (len t) (size - 1)); lia).
    unfold poke. destruct (Z.eqb_spec x (str + k)) as [Ex|]; [|exact Em0]. by rewrite (proj2 (Z.ltb_ge x (str + k))), andb_false_r by lia.
  - intros Hne -> x. rewrite (proj2 (Z.ltb_ge 0 0)), andb_false_r by done. rewrite (Em0 Hne). change (u64 (0 - 1)) with (2 ^ 64 - 1). by rewrite Z.min_l by lia.
Qed.

(** C32: vsnprintf stores the characters of the ideal text that fit into [size] - 1
    bytes, then a terminator, changes no other byte, and returns the length of the whole
    text; without a buffer it only measures.  For [size] 0 the bound wraps around:
    the whole text is stored, without a terminator. *)
Theorem vsnprintf_writes_text str size fmt ap m t :
  ideal fmt ap = Some t -> len t < 2 ^ 31 -> 0 <= size < 2 ^ 64 ->
  exists m', vsnprintf str size fmt ap m = Some (m', len t) /\
    (str = 0 -> m' = m) /\
    (str <> 0 -> 0 < size -> forall x, m' x =
       let k := Z.min (len t) (size - 1) in if (str <=? x) && (x <? str + k) then t.[x - str] else if x =? str + k then 0 else m x) /\
    (str <> 0 -> size = 0 -> forall x, m' x = if (str <=? x) && (x <? str + len t) then t.[x - str] else m x).
Proof. apply vsnprintf_text. Qed.

(** ** Numbers that are printed read back *)

Definition is_flag (c : Z) : Prop := c = 45 \/ c = 43 \/ c = 32 \/ c = 35 \/ c = 48.

Lemma parse_flags_ok fl r s : Forall is_flag fl -> match r with c :: _ => ~ is_flag c | [] => True end ->
  exists sp, parse_flags (fl ++ r) s = (r, sp) /\ width sp = width s /\ precision sp = precision s /\ flen sp = flen s.
Proof.
  intros Hfl Hr. revert s. induction Hfl as [|c fl Hc Hfl IH]; intros s; cbn [app].
  - exists s. split; [|done]. destruct r as [|c r]; [done|]. unfold is_flag in Hr. cbn [parse_flags].
    by rewrite (proj2 (Z.eqb_neq c 45)), (proj2 (Z.eqb_neq c 43)), (proj2 (Z.eqb_neq c 32)), (proj2 (Z.eqb_neq c 35)), (proj2 (Z.eqb_neq c 48)) by lia.
  - destruct Hc as [-> | [-> | [-> | [-> | ->]]]]; cbn [parse_flags Z.eqb Pos.eqb].
    + destruct (IH (set_left s)) as (sp & ? & ? & ? & ?). by exists sp.
    + destruct (IH (set_plus s)) as (sp & ? & ? & ? & ?). by exists sp.
    + destruct (IH (set_space s)) as (sp & ? & ? & ? & ?). by exists sp.
    + destruct (IH (set_alt s)) as (sp & ? & ? & ? & ?). by exists sp.
    + destruct (IH (set_zero s)) as (sp & ? & ? & ? & ?). by exists sp.
Qed.

Lemma parse_number_ok ws r w : digits ws -> match r with c :: _ => is_digit c = false | [] => True end ->
  0 <= w -> value_from w ws < 2 ^ 31 -> parse_number (ws ++ r) w = (r, value_from w ws).
Proof.
  intros Hws Hr. revert w. induction Hws as [|c ws Hc Hws IH]; intros w Hw Hv; cbn [app].
  - destruct r as [|c r]; [done|]. cbn [parse_number]. by rewrite Hr.
  - cbn [parse_number]. rewrite (proj2 (is_digit_ok c)) by done. cbn [value_from fold_left] in *. fold (value_from (w * 10 + (c - 48)) ws) in *.
    pose proof (value_from_ge (w * 10 + (c - 48)) ws Hws ltac:(lia)). rewrite (swrap_small 32 (w * 10)), swrap_small by lia. apply IH; lia.
Qed.

(** The specification "%<flags><width>d". *)
Lemma parse_spec_d fl ws ap : Forall is_flag fl -> digits ws -> match ws with c :: _ => c <> 48 | [] => True end ->
  value_from 0 ws < 2 ^ 31 - 4 ->
  exists sp, parse_spec (fl ++ ws ++ [100]) ap = Some ([100], sp, ap) /\ plain sp = true /\ precision sp = -1 /\ flen sp = 0.
Proof.
  intros Hfl Hws Hnz Hv. unfold parse_spec. set (s0 := mkSpec _ _ _ _ _ _ _ _).
  destruct (parse_flags_ok fl (ws ++ [100]) s0 Hfl) as (sp & E & Ew & Ep & El).
  { destruct Hws as [|c ws Hc Hws]; unfold is_flag; [cbn|]; cbn; lia. }
  rewrite E. cbn [width precision flen s0] in *. destruct Hws as [|c ws Hc Hws].
  - exists sp. cbn [app parse_width parse_precision parse_length mbind option_bind Z.eqb Pos.eqb]. split; [done|]. split; [|done].
    unfold plain. by rewrite Ew, Ep.
  - assert (Hpw : parse_width ((c :: ws) ++ [100]) sp ap = Some ([100], set_width (value_from 0 (c :: ws)) sp, ap)).
    { cbn [app parse_width]. rewrite (proj2 (Z.eqb_neq c 42)), (proj2 (is_digit_ok c)) by lia.
      change (c :: ws ++ [100]) with ((c :: ws) ++ [100]). rewrite (parse_number_ok (c :: ws) [100] 0); [done|by constructor|done|lia|lia]. }
    rewrite Hpw. cbn [mbind option_bind parse_precision parse_length Z.eqb Pos.eqb]. eexists. split; [done|]. cbn [width precision flen set_width]. split; [|done].
    pose proof (value_from_ge 0 (c :: ws) ltac:(by constructor) ltac:(lia)). unfold plain. cbn [width precision set_width]. rewrite Ep.
    rewrite (proj2 (Z.leb_le _ _)), (proj2 (Z.ltb_lt _ _)) by lia. done.
Qed.

Lemma place_value_10 l : digits l -> place_value 10 l = value_from 0 l.
Proof.
  unfold place_value, value_from. generalize 0. intros v Hl. revert v. induction Hl as [|c l Hc Hl IH]; intros v; [done|]. cbn [fold_left].
  assert (digit_of c = c - 48) as -> by (unfold digit_of; by rewrite (proj2 (Z.leb_le c 57)) by lia). apply IH.
Qed.

Lemma value_from_app v l l' : value_from v (l ++ l') = value_from (value_from v l) l'.
Proof. apply fold_left_app. Qed.

Lemma value_from_zeros n : value_from 0 (rep 48 n) = 0.
Proof. unfold rep. induction (Z.to_nat n) as [|k IH]; [done|]. exact IH. Qed.

Lemma rep_length c n : len (rep c n) = Z.max 0 n.
Proof. unfold len, rep. rewrite length_replicate. lia. Qed.

Lemma rep_all c n : Forall (fun d => d = c) (rep c n).
Proof. by apply Forall_replicate. Qed.

(** The text of a signed decimal: blanks, a sign, digits, blanks. *)
Lemma number_text_shape v sp : - 2 ^ 31 <= v < 2 ^ 31 -> plain sp = true -> precision sp = -1 ->
  exists ws sg l tl, number_text (Z.abs v) (sign_text v sp) 10 false false sp = ws ++ sg ++ l ++ tl /\
    Forall (fun c => c = 32) ws /\ Forall (fun c => c = 32) tl /\ (sg = [] \/ sg = [45] \/ sg = [43]) /\ (sg = [45] <-> v < 0) /\
    digits l /\ l <> [] /\ value_from 0 l = Z.abs v /\ len (ws ++ sg ++ l ++ tl) < 2 ^ 31.
Proof.
  intros Hv Hp Hpr. unfold plain in Hp. rewrite !andb_true_iff, !Z.leb_le, !Z.ltb_lt in Hp. destruct Hp as [[Hw1 Hw2] _].
  destruct (numeral_ok 10 false ltac:(lia) (Z.abs v) ltac:(lia)) as (Nv & Nd & Nl & _). unfold number_text. rewrite Hpr. cbn [Z.eqb andb app].
  set (D := numeral 10 false (Z.abs v)) in *. cbn [Z.ltb Z.compare]. rewrite andb_true_r, (rep_none 48 (-1 - len D)) by lia. cbn [app].
  assert (HD : digits D) by (eapply Forall_impl; [|exact Nd]; cbn; intros c Hc; by apply Hc).
  assert (HDn : D <> []) by (intros E; rewrite E in Nl; change (len []) with 0 in Nl; lia).
  rewrite place_value_10 in Nv by done.
  assert (Hsg : exists b sg, sign_text v sp = b ++ sg /\ Forall (fun c => c = 32) b /\ (sg = [] \/ sg = [45] \/ sg = [43]) /\ (sg = [45] <-> v < 0) /\ len (b ++ sg) <= 1).
  { unfold sign_text. destruct (Z.ltb_spec v 0); [exists [], [45]|destruct (plus_sign sp); [exists [], [43]|destruct (space_sign sp); [exists [32], []|exists [], []]]].
    all: (split; [done|]; split; [by repeat constructor|]; split; [tauto|]; split; [|by vm_compute]); split; (done || lia). }
  destruct Hsg as (b & sg & -> & Hb & Hsg & Hs & Hlb).
  destruct (negb (left_align sp) && zero_pad sp).
  - exists b, sg, (rep 48 (width sp - len ((b ++ sg) ++ D)) ++ D), []. rewrite app_nil_r, <- !app_assoc. split; [done|]. split; [done|]. split; [constructor|].
    split; [done|]. split; [done|]. split; [|split; [by destruct (rep _ _)|split]].
    + apply Forall_app. split; [|done]. eapply Forall_impl; [|apply rep_all]. cbn. lia.
    + by rewrite value_from_app, value_from_zeros.
    + rewrite !len_app in *. rewrite rep_length, ?len_app. change (len (@nil Z)) with 0 in *. lia.
  - unfold field. pose proof (len_nonneg (b ++ sg)) as Hl0. destruct (left_align sp).
    + exists b, sg, D, (rep 32 (width sp - len ((b ++ sg) ++ D))). rewrite <- !app_assoc. do 2 (split; [done|]). split; [apply rep_all|].
      do 5 (split; [done|]). rewrite !len_app in *. rewrite rep_length, ?len_app. change (len (@nil Z)) with 0 in *. lia.
    + exists (rep 32 (width sp - len ((b ++ sg) ++ D)) ++ b), sg, D, []. rewrite app_nil_r, <- !app_assoc. split; [done|]. split; [by apply Forall_app; split; [apply rep_all|]|].
      split; [constructor|]. do 5 (split; [done|]). rewrite !len_app in *. rewrite rep_length, ?len_app. change (len (@nil Z)) with 0 in *. lia.
Qed.

Lemma bytes_at_geti m a l : (forall i, 0 <= i < len l -> m (a + i) = l.[i]) -> bytes_at m a l.
Proof.
  revert a. induction l as [|c l IH]; intros a Hm; [done|]. pose proof (len_nonneg l). rewrite len_cons in Hm. split.
  - rewrite <- (Z.add_0_r a). by rewrite Hm by lia.
  - apply IH. intros i Hi. rewrite <- Z.add_assoc, Hm by lia. unfold geti. by replace (Z.to_nat (1 + i)) with (S (Z.to_nat i)) by lia.
Qed.

(** What snprintf prints of an int with "%<flags><width>d" atoi reads back, whatever
    the flags and the width, when the result says that it was not cut off. *)
Theorem snprintf_atoi_roundtrip str size fl ws w m :
  Forall is_flag fl -> digits ws -> match ws with c :: _ => c <> 48 | [] => True end -> value_from 0 ws < 2 ^ 31 - 4 ->
  str <> 0 -> 0 < size < 2 ^ 64 ->
  exists m' n, snprintf str size (37 :: fl ++ ws ++ [100]) [VInt w] m = Some (m', n) /\
    (n < size -> atoi (S (Z.to_nat n)) m' str = Some (s32 w)).
Proof.
  intros Hfl Hws Hnz Hv Hstr Hsize. destruct (parse_spec_d fl ws [VInt w] Hfl Hws Hnz Hv) as (sp & Esp & Hpl & Hpr & Hln).
  pose proof (swrap_range 32 w ltac:(lia)) as Hw. destruct (number_text_shape (s32 w) sp Hw Hpl Hpr) as (b & sg & l & tl & Et & Hb & Htl & Hsg & Hneg & Hl & Hne & Hval & Hlen).
  assert (Hi : ideal (37 :: fl ++ ws ++ [100]) [VInt w] = Some (b ++ sg ++ l ++ tl)).
  { unfold ideal. cbn [length ideal_loop Z.eqb Pos.eqb negb]. rewrite Esp. cbn [mbind option_bind]. unfold conv_text. rewrite Hpl. cbn [negb Z.eqb Pos.eqb orb].
    unfold arg_signed. cbn [va_word mbind option_bind]. rewrite Hln. cbn [Z.eqb Pos.eqb orb LEN_l LEN_ll LEN_z LEN_j LEN_t LEN_h LEN_hh]. rewrite Et.
    destruct (length _); cbn [ideal_loop mbind option_bind]; by rewrite app_nil_r. }
  destruct (vsnprintf_text str size _ _ m _ Hi Hlen ltac:(lia)) as (m' & E & _ & Hm & _). exists m', (len (b ++ sg ++ l ++ tl)).
  split; [exact E|]. clear E. intros Hn. specialize (Hm Hstr ltac:(lia)). set (t := b ++ sg ++ l ++ tl) in *. cbv zeta in Hm. rewrite Z.min_l in Hm by lia.
  assert (Hmt : forall i, 0 <= i < len t -> m' (str + i) = t.[i]).
  { intros i Hi'. rewrite Hm, (proj2 (Z.leb_le _ _)), (proj2 (Z.ltb_lt _ _)) by lia. cbn [andb]. f_equal. lia. }
  assert (Hend : m' (str + len t) = 0) by (rewrite Hm, (proj2 (Z.ltb_ge _ _)), andb_false_r, Z.eqb_refl by lia; done).
  pose proof (bytes_at_geti m' str t Hmt) as Hbt. assert (Etx : t = (b ++ sg ++ l) ++ tl) by (unfold t; by rewrite <- !app_assoc).
  assert (Hbt2 := Hbt). rewrite Etx, bytes_at_app in Hbt2. destruct Hbt2 as [Hb1 Hb2].
  rewrite (atoi_saturates (S (Z.to_nat (len t))) m' str b sg l Hb1); try done.
  - rewrite Hval. f_equal. unfold clamp, INT_MAX, INT_MIN. destruct (decide (sg = [45])) as [E45|E45]; [pose proof (proj1 Hneg E45); lia|].
    assert (~ s32 w < 0) by tauto. lia.
  - eapply Forall_impl; [|exact Hb]. intros c ->. by left.
  - destruct Htl as [|c tl Hc Htl]; [by rewrite app_nil_r in Etx; rewrite <- Etx, Hend|]. destruct Hb2 as [-> _]. by rewrite Hc.
  - rewrite Etx. unfold len. rewrite Nat2Z.id, !length_app. lia.
Qed.

(** ** Examples *)

(** "%5d|%-4s|%#x" *)
Definition demo_fmt : list Z := [37; 53; 100; 124; 37; 45; 52; 115; 124; 37; 35; 120].
Definition demo_args : list va := [VInt (2 ^ 64 - 42); VStr (Some [97; 98]); VInt 255].
(** "  -42|ab  |0xff" *)
Definition demo_text : list Z := [32; 32; 45; 52; 50; 124; 97; 98; 32; 32; 124; 48; 120; 102; 102].

Lemma vsnprintf_writes_text_witness :
  ideal demo_fmt demo_args = Some demo_text /\
  exists m', vsnprintf 100 8 demo_fmt demo_args (fun _ => 7) = Some (m', 15) /\ m' 106 = 97 /\ m' 107 = 0 /\ m' 108 = 7.
Proof.
  assert (Hi : ideal demo_fmt demo_args = Some demo_text) by by vm_compute. split; [done|].
  destruct (vsnprintf_writes_text 100 8 demo_fmt demo_args (fun _ => 7) demo_text Hi) as (m' & E & _ & Hm & _); [by vm_compute|lia|].
  exists m'. split; [exact E|]. rewrite !Hm by lia. by vm_compute.
Defined.

(** "%+06d" of -42 *)
Lemma snprintf_atoi_roundtrip_witness : exists m' n,
  snprintf 100 64 [37; 43; 48; 54; 100] [VInt (2 ^ 64 - 42)] (fun _ => 7) = Some (m', n) /\ (n < 64 -> atoi (S (Z.to_nat n)) m' 100 = Some (-42)).
Proof.
  apply (snprintf_atoi_roundtrip 100 64 [43; 48] [54] (2 ^ 64 - 42) (fun _ => 7)); try done.
  - repeat constructor; unfold is_flag; lia.
  - repeat constructor; lia.
Defined.

(** With a size of 0 the text goes past the end of the buffer. *)
Example snprintf_size_0 : exists m', snprintf 100 0 [37; 100] [VInt 12345] (fun _ => 7) = Some (m', 5) /\ m' 104 = 53.
Proof. eexists. split; [by vm_compute|]. by vm_compute. Qed.

(** "%c" of the character 0 writes nothing. *)
Example print_char_0 : ideal [97; 37; 99; 98] [VInt 0] = Some [97; 98].
Proof. done. Qed.
