(* ===== verification/Stdio.v ===== *)
(** * Streams: libc/src/stdio.c

    The FILE layer over the system calls.  What the kernel does on read and write is
    the class [Kernel]; what malloc returns is an argument, the bytes of a call too
    (with its null checks left out where a call is given its stream or string).
    A stream is the value of its pointer in a table, its buffer a list of bytes; the
    list by the field next is [open_files], the fields err and eof, which fopen clears
    and nothing reads, are left out.  A loop that does not end has no result
    ([None]).  [stream_write_fifo] and [stream_read_fifo] say that a stream is
    a queue between its caller and its file; [slow] is a kernel that cuts
    every transfer. *)

From stdpp Require Import list.
From S2P Require Import Prelude LibcString LibcStdlib Printf.

(** ** The system calls *)

(** [sent k fd] are the bytes the file has got, [input k fd] those it still has to give;
    [writable k fd] says that writing makes progress. *)
Class Kernel (K : Type) := {
  sys_write : K -> Z -> list Z -> K * Z;
  sys_read : K -> Z -> Z -> K * Z * list Z;
  sys_open : K -> list Z -> Z -> K * Z;
  sys_close : K -> Z -> K * Z;
  sent : K -> Z -> list Z;
  input : K -> Z -> list Z;
  writable : K -> Z -> Prop;
  sys_write_law k fd bytes : bytes <> [] ->
    let '(k', r) := sys_write k fd bytes in
    r <= len bytes /\ sent k' fd = sent k fd ++ take (Z.to_nat r) bytes /\
    (forall fd', fd' <> fd -> sent k' fd' = sent k fd') /\ (forall fd', input k' fd' = input k fd') /\
    (writable k fd -> 0 < r) /\ (forall fd', writable k fd' -> writable k' fd');
  sys_read_law k fd n : 0 < n ->
    let '(k', r, bytes) := sys_read k fd n in
    r <= n /\ len bytes = Z.max 0 r /\ input k fd = bytes ++ input k' fd /\ (r = 0 -> input k fd = []) /\
    (forall fd', fd' <> fd -> input k' fd' = input k fd') /\ (forall fd', sent k' fd' = sent k fd');
}.

(** ** Streams *)

Definition IO_READ : Z := 1.
Definition IO_WRITE : Z := 2.
Definition IO_BUF_OWNER : Z := 4.
Definition IO_BUF_DIRTY : Z := 8.
Definition IO_EOF_FLAG : Z := 16.
Definition IO_ERR_FLAG : Z := 32.
Definition EOF : Z := -1.
Definition EBADF : Z := 9.
Definition ENOMEM : Z := 12.
Definition EINVAL : Z := 22.
Definition BUFSIZ_STD : Z := 512.

Record FILE := mkFILE { fd : Z; flags : Z; buf : option (list Z); buf_size : Z; buf_pos : Z; buf_len : Z }.

Definition flag (f : FILE) (b : Z) : bool := negb (Z.land (flags f) b =? 0).
Definition set_flags (f : FILE) (v : Z) : FILE := mkFILE (fd f) v (buf f) (buf_size f) (buf_pos f) (buf_len f).
Definition set_flag (f : FILE) (b : Z) : FILE := set_flags f (Z.lor (flags f) b).
Definition clear_flag (f : FILE) (b : Z) : FILE := set_flags f (Z.land (flags f) (Z.lnot b)).
Definition set_buf (f : FILE) (b : option (list Z)) : FILE := mkFILE (fd f) (flags f) b (buf_size f) (buf_pos f) (buf_len f).
Definition set_pos (f : FILE) (p : Z) : FILE := mkFILE (fd f) (flags f) (buf f) (buf_size f) p (buf_len f).
Definition set_blen (f : FILE) (l : Z) : FILE := mkFILE (fd f) (flags f) (buf f) (buf_size f) (buf_pos f) l.

Definition stdin_file : FILE := mkFILE 0 IO_READ None 0 0 0.
Definition stdout_file : FILE := mkFILE 1 IO_WRITE None 0 0 0.
Definition stderr_file : FILE := mkFILE 2 IO_WRITE None 0 0 0.

(** [p] is what malloc returns: the bytes of the block, or nothing. *)
Definition file_alloc_buf (p : option (list Z)) (f : FILE) : FILE * Z :=
  match buf f with
  | Some _ => (f, 1)
  | None =>
      match p with
      | None => (f, 0)
      | Some b => (set_flag (mkFILE (fd f) (flags f) (Some b) BUFSIZ_STD 0 0) IO_BUF_OWNER, 1)
      end
  end.

Section stdio.
Context {K : Type} `{Kernel K}.

(** The kernel and errno. *)
Record io := mkIo { kern : K; errno : Z }.
Definition set_errno (w : io) (e : Z) : io := mkIo (kern w) e.

(** Writes until [bytes] are gone, from [off]; with the result of the last write, or 1 when
    all are written. *)
Fixpoint write_loop (fuel : nat) (d : Z) (bytes : list Z) (off : Z) (w : io) : option (io * Z * Z) :=
  match fuel with
  | O => None
  | S fuel =>
      if off <? len bytes then
        let '(k, r) := sys_write (kern w) d (drop (Z.to_nat off) bytes) in
        let w := mkIo k (errno w) in
        if r <? 0 then Some (set_errno w (s32 (- r)), off, r)
        else if r =? 0 then Some (w, off, 0)
        else write_loop fuel d bytes (off + r) w
      else Some (w, off, 1)
  end.

(** A loop over [n] bytes that makes progress in every round. *)
Definition rounds (n : Z) : nat := S (Z.to_nat n).

Definition file_flush_write (f : FILE) (w : io) : option (FILE * io * Z) :=
  if negb (flag f IO_BUF_DIRTY) then Some (f, w, 0)
  else
    match buf f with
    | None => Some (clear_flag f IO_BUF_DIRTY, w, 0)
    | Some b =>
        if buf_pos f =? 0 then Some (clear_flag f IO_BUF_DIRTY, w, 0)
        else
          '(w, _, r) ← write_loop (rounds (buf_pos f)) (fd f) (take (Z.to_nat (buf_pos f)) b) 0 w;
          if r <? 0 then Some (set_pos (clear_flag (set_flag f IO_ERR_FLAG) IO_BUF_DIRTY) 0, w, EOF)
          else Some (clear_flag (set_pos f 0) IO_BUF_DIRTY, w, 0)
    end.

Definition fflush_stream (f : FILE) (w : io) : option (FILE * io * Z) :=
  if flag f IO_WRITE then file_flush_write f w else Some (f, w, 0).

(** ** Reading *)

(** The bytes still in the buffer, at most [n]. *)
Fixpoint drain (n : nat) (b : list Z) (f : FILE) (dst : list Z) : FILE * list Z :=
  match n with
  | O => (f, dst)
  | S n => if buf_pos f <? buf_len f then drain n b (set_pos f (buf_pos f + 1)) (dst ++ [b.[buf_pos f]]) else (f, dst)
  end.

(** [bytes] at the start of the buffer. *)
Definition refill (b bytes : list Z) : list Z := bytes ++ drop (length bytes) b.

Fixpoint read_loop (fuel : nat) (want : Z) (f : FILE) (dst : list Z) (w : io) : option (FILE * list Z * io) :=
  match fuel with
  | O => None
  | S fuel =>
      if len dst <? want then
        let remaining := want - len dst in
        match buf f with
        | Some b =>
            if buf_size f <=? remaining then
              let '(k, r, bytes) := sys_read (kern w) (fd f) remaining in
              let w := mkIo k (errno w) in
              if r <? 0 then Some (set_flag f IO_ERR_FLAG, dst, set_errno w (s32 (- r)))
              else if r =? 0 then Some (set_flag f IO_EOF_FLAG, dst, w)
              else read_loop fuel want f (dst ++ bytes) w
            else
              let '(k, r, bytes) := sys_read (kern w) (fd f) (buf_size f) in
              let w := mkIo k (errno w) in
              if r <? 0 then Some (set_flag f IO_ERR_FLAG, dst, set_errno w (s32 (- r)))
              else if r =? 0 then Some (set_flag f IO_EOF_FLAG, dst, w)
              else
                let b := refill b bytes in
                let f := set_pos (set_blen (set_buf f (Some b)) r) 0 in
                let '(f, dst) := drain (Z.to_nat remaining) b f dst in
                read_loop fuel want f dst w
        | None =>
            let '(k, r, bytes) := sys_read (kern w) (fd f) remaining in
            let w := mkIo k (errno w) in
            if r <? 0 then Some (set_flag f IO_ERR_FLAG, dst, set_errno w (s32 (- r)))
            else if r =? 0 then Some (set_flag f IO_EOF_FLAG, dst, w)
            else read_loop fuel want f (dst ++ bytes) w
        end
      else Some (f, dst, w)
  end.

(** The bytes put at [ptr] and the number of elements. *)
Definition fread (size nmemb : Z) (f : FILE) (w : io) : option (FILE * io * list Z * Z) :=
  if (size =? 0) || (nmemb =? 0) then Some (f, w, [], 0)
  else if negb (flag f IO_READ) then Some (set_flag f IO_ERR_FLAG, set_errno w EBADF, [], 0)
  else
    let want := u64 (size * nmemb) in
    let '(f, dst) := match buf f with Some b => drain (Z.to_nat want) b f [] | None => (f, []) end in
    '(f, dst, w) ← read_loop (rounds (want - len dst)) want f dst w;
    Some (f, w, dst, len dst / size).

Definition fgetc (f : FILE) (w : io) : option (FILE * io * Z) :=
  if negb (flag f IO_READ) then Some (set_flag f IO_ERR_FLAG, set_errno w EBADF, EOF)
  else
    match buf f with
    | None =>
        let '(k, r, bytes) := sys_read (kern w) (fd f) 1 in
        let w := mkIo k (errno w) in
        if r <? 0 then Some (set_flag f IO_ERR_FLAG, set_errno w (s32 (- r)), EOF)
        else if r =? 0 then Some (set_flag f IO_EOF_FLAG, w, EOF)
        else Some (f, w, u8 bytes.[0])
    | Some b =>
        if buf_len f <=? buf_pos f then
          let '(k, r, bytes) := sys_read (kern w) (fd f) (buf_size f) in
          let w := mkIo k (errno w) in
          if r <? 0 then Some (set_flag f IO_ERR_FLAG, set_errno w (s32 (- r)), EOF)
          else if r =? 0 then Some (set_flag f IO_EOF_FLAG, w, EOF)
          else let b := refill b bytes in Some (set_pos (set_blen (set_buf f (Some b)) r) 1, w, u8 b.[0])
        else Some (set_pos f (buf_pos f + 1), w, u8 b.[buf_pos f])
    end.

(** ** Writing *)

(** The rest of [src], from [put], through the buffer; the new [put]. *)
Fixpoint append_loop (fuel : nat) (src : list Z) (put : Z) (f : FILE) (b : list Z) (w : io) : option (FILE * io * Z) :=
  match fuel with
  | O => None
  | S fuel =>
      if put <? len src then
        let space := u64 (buf_size f - buf_pos f) in
        '(f, w, space, ok) ← (if space =? 0 then
            '(f, w, r) ← file_flush_write f w; Some (f, w, buf_size f, negb (r =? EOF))
          else Some (f, w, space, true));
        if negb ok then Some (f, w, put)
        else
          let chunk := len src - put in
          let chunk := if space <? chunk then space else chunk in
          let b := take (Z.to_nat (buf_pos f)) b ++ take (Z.to_nat chunk) (drop (Z.to_nat put) src) ++ drop (Z.to_nat (buf_pos f + chunk)) b in
          append_loop fuel src (put + chunk) (set_flag (set_pos (set_buf f (Some b)) (buf_pos f + chunk)) IO_BUF_DIRTY) b w
      else Some (f, w, put)
  end.

(** [src] are the [size * nmemb] bytes at [ptr]. *)
Definition fwrite (src : list Z) (size nmemb : Z) (f : FILE) (w : io) : option (FILE * io * Z) :=
  if (size =? 0) || (nmemb =? 0) then Some (f, w, 0)
  else if negb (flag f IO_WRITE) then Some (set_flag f IO_ERR_FLAG, set_errno w EBADF, 0)
  else
    let want := u64 (size * nmemb) in
    let src := take (Z.to_nat want) src in
    match buf f with
    | None =>
        '(w, put, r) ← write_loop (rounds want) (fd f) src 0 w;
        Some (if r <? 0 then set_flag f IO_ERR_FLAG else f, w, put / size)
    | Some b =>
        '(f, w, put) ← append_loop (rounds want) src 0 f b w;
        Some (f, w, put / size)
    end.

(** [std] says that the stream is stdout or stderr. *)
Definition fputc (std : bool) (c : Z) (f : FILE) (w : io) : option (FILE * io * Z) :=
  if negb (flag f IO_WRITE) then Some (set_flag f IO_ERR_FLAG, set_errno w EBADF, EOF)
  else
    let ch := u8 c in
    match buf f with
    | None =>
        let '(k, r) := sys_write (kern w) (fd f) [ch] in
        let w := mkIo k (errno w) in
        if r <? 0 then Some (set_flag f IO_ERR_FLAG, set_errno w (s32 (- r)), EOF)
        else if r =? 0 then Some (f, w, EOF)
        else Some (f, w, ch)
    | Some _ =>
        '(f, w, ok) ← (if buf_size f <=? buf_pos f then '(f, w, r) ← file_flush_write f w; Some (f, w, negb (r =? EOF)) else Some (f, w, true));
        if negb ok then Some (f, w, EOF)
        else
          let b := default [] (buf f) in
          let f := set_flag (set_pos (set_buf f (Some (<[Z.to_nat (buf_pos f) := ch]> b))) (buf_pos f + 1)) IO_BUF_DIRTY in
          if (ch =? 10) && std then '(f, w, _) ← file_flush_write f w; Some (f, w, ch) else Some (f, w, ch)
    end.

(** [s] are the characters of the string. *)
Definition fputs (s : list Z) (f : FILE) (w : io) : option (FILE * io * Z) :=
  let n := len s in
  '(f, w, r) ← fwrite s 1 n f w;
  Some (f, w, if r <? n then EOF else s32 n).

Definition feof (f : FILE) : Z := if flag f IO_EOF_FLAG then 1 else 0.
Definition ferror (f : FILE) : Z := if flag f IO_ERR_FLAG then 1 else 0.
Definition clearerr (f : FILE) : FILE := clear_flag f (Z.lor IO_EOF_FLAG IO_ERR_FLAG).

Definition puts (s : list Z) (stdout : FILE) (w : io) : option (FILE * io * Z) :=
  let n := len s in
  '(f, w, r) ← fwrite s 1 n stdout w;
  if r <? n then Some (f, w, EOF)
  else
    '(f, w, c) ← fputc true 10 f w;
    if c =? EOF then Some (f, w, EOF) else Some (f, w, s32 (n + 1)).

Definition putchar (c : Z) (stdout : FILE) (w : io) : option (FILE * io * Z) := fputc true c stdout w.
Definition getchar (stdin : FILE) (w : io) : option (FILE * io * Z) := fgetc stdin w.

(** The array [buf] of the code is at the address [stack] of [m]. *)
Definition vfprintf (stack : Z) (m : memory) (fmt : list Z) (ap : list va) (f : FILE) (w : io) : option (FILE * io * Z) :=
  '(m, n) ← vsnprintf stack 1024 fmt ap m;
  if n <? 0 then Some (f, w, -1)
  else
    let to_write := if 1023 <? n then 1023 else n in
    '(f, w, r) ← fwrite ((fun i => m (stack + i)) <$> seqZ 0 to_write) 1 to_write f w;
    Some (f, w, if r <? to_write then -1 else n).

(** ** The table of streams *)

Record libc := mkLibc { streams : Z -> FILE; open_files : list Z; world : io }.

Definition set_stream (l : libc) (p : Z) (f : FILE) (w : io) : libc :=
  mkLibc (fun q => if q =? p then f else streams l q) (open_files l) w.

Section table.
Context (stdin stdout stderr : Z).

Definition fflush (p : Z) (l : libc) : option (libc * Z) :=
  if p =? 0 then
    '(l, rc) ← foldl (fun acc q =>
        '(l, rc) ← acc;
        if flag (streams l q) IO_WRITE then
          '(f, w, r) ← file_flush_write (streams l q) (world l); Some (set_stream l q f w, if r =? EOF then EOF else rc)
        else Some (l, rc)) (Some (l, 0)) (open_files l);
    '(f, w, r) ← file_flush_write (streams l stdout) (world l);
    let '(l, rc) := (set_stream l stdout f w, if r =? EOF then EOF else rc) in
    '(f, w, r) ← file_flush_write (streams l stderr) (world l);
    Some (set_stream l stderr f w, if r =? EOF then EOF else rc)
  else '(f, w, r) ← fflush_stream (streams l p) (world l); Some (set_stream l p f w, r).

(** The flags of "open" in include/fcntl.h. *)
Definition O_RDONLY : Z := 0.
Definition O_WRONLY : Z := 1.
Definition O_RDWR : Z := 2.
Definition O_CREAT : Z := 64.
Definition O_TRUNC : Z := 512.
Definition O_APPEND : Z := 1024.

(** The flags of the stream and of open. *)
Definition parse_mode (mode : list Z) : option (Z * Z) :=
  match mode with
  | [] => None
  | c :: rest =>
      '(io_flags, oflags) ← (if c =? 114 then Some (IO_READ, 0)
        else if c =? 119 then Some (IO_WRITE, Z.lor (Z.lor O_WRONLY O_CREAT) O_TRUNC)
        else if c =? 97 then Some (IO_WRITE, Z.lor (Z.lor O_WRONLY O_CREAT) O_APPEND)
        else None);
      let has_plus := existsb (fun d => d =? 43) rest in
      let io_flags := if has_plus then Z.lor io_flags (Z.lor IO_READ IO_WRITE) else io_flags in
      let oflags :=
        if c =? 114 then if has_plus then O_RDWR else O_RDONLY
        else if has_plus then Z.lor (Z.land oflags (Z.lnot (Z.lor O_WRONLY O_RDONLY))) O_RDWR else oflags in
      Some (io_flags, oflags)
  end.

(** open and close of libc/src/unistd.c *)
Definition libc_open (path : list Z) (oflags : Z) (w : io) : io * Z :=
  let '(k, r) := sys_open (kern w) path oflags in
  if r <? 0 then (mkIo k (s32 (- r)), -1) else (mkIo k (errno w), s32 r).
Definition libc_close (d : Z) (w : io) : io * Z :=
  let '(k, r) := sys_close (kern w) d in
  if r <? 0 then (mkIo k (s32 (- r)), -1) else (mkIo k (errno w), 0).

(** [ptr] is the stream malloc returns (0 for none), [block] its buffer. *)
Definition fopen (ptr : Z) (block : option (list Z)) (path mode : list Z) (l : libc) : libc * Z :=
  match parse_mode mode with
  | None => (mkLibc (streams l) (open_files l) (set_errno (world l) EINVAL), 0)
  | Some (io_flags, oflags) =>
      let '(w, d) := libc_open path oflags (world l) in
      if d <? 0 then (mkLibc (streams l) (open_files l) w, 0)
      else if ptr =? 0 then
        let '(w, _) := libc_close d w in (mkLibc (streams l) (open_files l) (set_errno w ENOMEM), 0)
      else
        let '(f, _) := file_alloc_buf block (mkFILE d io_flags None 0 0 0) in
        let l := set_stream l ptr f w in
        (mkLibc (streams l) (ptr :: open_files l) (world l), ptr)
  end.

Fixpoint remove_first (p : Z) (l : list Z) : list Z :=
  match l with [] => [] | q :: l => if q =? p then l else q :: remove_first p l end.

Definition fclose (p : Z) (l : libc) : option (libc * Z) :=
  if p =? 0 then Some (mkLibc (streams l) (open_files l) (set_errno (world l) EBADF), EOF)
  else if (p =? stdin) || (p =? stdout) || (p =? stderr) then '(l, _) ← fflush p l; Some (l, 0)
  else
    '(l, r) ← fflush p l;
    let rc := if r =? EOF then EOF else 0 in
    let '(w, c) := libc_close (fd (streams l p)) (world l) in
    let rc := if c <? 0 then EOF else rc in
    Some (mkLibc (streams l) (remove_first p (open_files l)) w, rc).

Definition fprintf (p stack : Z) (m : memory) (fmt : list Z) (args : list va) (l : libc) : option (libc * Z) :=
  if p =? 0 then Some (l, -1)
  else '(f, w, r) ← vfprintf stack m fmt args (streams l p) (world l); Some (set_stream l p f w, r).

Definition printf (stack : Z) (m : memory) (fmt : list Z) (args : list va) (l : libc) : option (libc * Z) :=
  fprintf stdout stack m fmt args l.
Definition vprintf (stack : Z) (m : memory) (fmt : list Z) (ap : list va) (l : libc) : option (libc * Z) :=
  fprintf stdout stack m fmt ap l.
End table.
End stdio.

(** ** What reaches the kernel *)

Section proofs.
Context {K : Type} `{Kernel K}.
Implicit Types (f : FILE) (w : @io K).

(** From [w] to [w'] the bytes [l] were written to [d], and nothing else happened. *)
Record wrote (d : Z) (l : list Z) w w' : Prop := {
  wr_sent : sent (kern w') d = sent (kern w) d ++ l;
  wr_other : forall e, e <> d -> sent (kern w') e = sent (kern w) e;
  wr_input : forall e, input (kern w') e = input (kern w) e;
  wr_writable : forall e, writable (kern w) e -> writable (kern w') e;
}.

Lemma wrote_nil d w w' : kern w' = kern w -> wrote d [] w w'.
Proof. intros E. constructor; rewrite ?E; try done. by rewrite app_nil_r. Qed.

Lemma wrote_trans d a b w1 w2 w3 : wrote d a w1 w2 -> wrote d b w2 w3 -> wrote d (a ++ b) w1 w3.
Proof.
  intros [A1 A2 A3 A4] [B1 B2 B3 B4]. constructor.
  - by rewrite B1, A1, app_assoc.
  - intros e He. by rewrite B2, A2.
  - intros e. by rewrite B3, A3.
  - intros e He. by apply B4, A4.
Qed.

Lemma sys_write_ok d bytes w e : bytes <> [] ->
  let '(k, r) := sys_write (kern w) d bytes in
  r <= len bytes /\ wrote d (take (Z.to_nat r) bytes) w (mkIo k e) /\ (writable (kern w) d -> 0 < r).
Proof.
  intros Hb. pose proof (sys_write_law (kern w) d bytes Hb) as L. destruct (sys_write (kern w) d bytes) as [k r].
  destruct L as (L1 & L2 & L3 & L4 & L5 & L6). split; [done|]. split; [by constructor|done].
Qed.

Lemma take_drop_split (l : list Z) i j : 0 <= i -> 0 <= j ->
  take (Z.to_nat j) (drop (Z.to_nat i) l) ++ drop (Z.to_nat (i + j)) l = drop (Z.to_nat i) l.
Proof.
  intros Hi Hj. replace (Z.to_nat (i + j)) with (Z.to_nat i + Z.to_nat j)%nat by lia. rewrite <- drop_drop. apply take_drop.
Qed.

Lemma write_loop_ok fuel d bytes off w :
  0 <= off <= len bytes -> len bytes - off < Z.of_nat fuel ->
  exists w' off' r, write_loop fuel d bytes off w = Some (w', off', r) /\ off <= off' <= len bytes /\
    wrote d (take (Z.to_nat (off' - off)) (drop (Z.to_nat off) bytes)) w w' /\
    (writable (kern w) d -> r = 1 /\ off' = len bytes).
Proof.
  revert off w. induction fuel as [|fuel IH]; intros off w Ho Hf; [lia|]. cbn [write_loop].
  destruct (Z.ltb_spec off (len bytes)) as [Hlt|Hge].
  2: { exists w, off, 1. split; [done|]. split; [lia|]. rewrite Z.sub_diag. split; [by apply wrote_nil|]. split; [done|lia]. }
  assert (Hne : drop (Z.to_nat off) bytes <> []) by (intros E; apply (f_equal length) in E; rewrite length_drop in E; unfold len in *; simpl in E; lia).
  assert (Hld : len (drop (Z.to_nat off) bytes) = len bytes - off) by (unfold len in *; rewrite length_drop; lia).
  pose proof (sys_write_ok d (drop (Z.to_nat off) bytes) w (errno w) Hne) as L.
  destruct (sys_write (kern w) d (drop (Z.to_nat off) bytes)) as [k r]. destruct L as (L1 & L2 & L3). rewrite Hld in L1.
  destruct (Z.ltb_spec r 0).
  { eexists _, off, r. split; [done|]. split; [lia|]. rewrite Z.sub_diag. split; [|intros Hw; specialize (L3 Hw); lia].
    destruct L2 as [A1 A2 A3 A4]. replace (Z.to_nat r) with 0%nat in A1 by lia. by constructor. }
  destruct (Z.eqb_spec r 0) as [E0|Hr0].
  { eexists _, off, 0. split; [done|]. split; [lia|]. rewrite Z.sub_diag. rewrite E0 in L2. split; [exact L2|]. intros Hw. specialize (L3 Hw). lia. }
  destruct (IH (off + r) (mkIo k (errno w))) as (w' & off' & r' & E & Hoff & Hw & Hall); [lia|lia|].
  exists w', off', r'. split; [done|]. split; [lia|]. split.
  - pose proof (wrote_trans _ _ _ _ _ _ L2 Hw) as T. assert (Eb : take (Z.to_nat r) (drop (Z.to_nat off) bytes) ++ take (Z.to_nat (off' - (off + r))) (drop (Z.to_nat (off + r)) bytes)
      = take (Z.to_nat (off' - off)) (drop (Z.to_nat off) bytes)); [|by rewrite Eb in T].
    replace (Z.to_nat (off + r)) with (Z.to_nat off + Z.to_nat r)%nat by lia. rewrite <- drop_drop, take_take_drop. f_equal. lia.
  - intros Hwr. apply Hall. by apply L2.
Qed.

(** ** Streams that write *)

(** The bytes of the buffer that are not written yet. *)
Definition pending f : list Z := match buf f with Some b => take (Z.to_nat (buf_pos f)) b | None => [] end.

Record writer f : Prop := {
  ws_write : flag f IO_WRITE = true;
  ws_buf : forall b, buf f = Some b -> len b = buf_size f /\ 0 < buf_size f < 2 ^ 64 /\ 0 <= buf_pos f <= buf_size f;
  ws_dirty : is_Some (buf f) -> flag f IO_BUF_DIRTY = false -> buf_pos f = 0;
}.

(** What an operation that was given the bytes [l] did: with a file that takes bytes, what was pending and [l] have been
    written or are pending, in this order. *)
Record appended f w (l : list Z) f' w' : Prop := {
  ap_writer : writer f';
  ap_fd : fd f' = fd f /\ (buf f = None <-> buf f' = None);
  ap_wrote : exists out, wrote (fd f) out w w' /\ (writable (kern w) (fd f) -> out ++ pending f' = pending f ++ l);
}.

Lemma appended_trans f1 w1 a f2 w2 b f3 w3 : appended f1 w1 a f2 w2 -> appended f2 w2 b f3 w3 -> appended f1 w1 (a ++ b) f3 w3.
Proof.
  intros [A1 [A2 A2'] (oa & A3 & A4)] [B1 [B2 B2'] (ob & B3 & B4)]. rewrite A2 in B3, B4. constructor; [done|split; [congruence|tauto]|].
  exists (oa ++ ob). split; [by eapply wrote_trans|]. intros Hw. rewrite <- app_assoc, (B4 (wr_writable _ _ _ _ A3 _ Hw)), !app_assoc. by rewrite (A4 Hw).
Qed.

Lemma flag_set f a b : 0 <= a -> 0 <= b -> Z.land a b = 0 -> flag (set_flag f a) b = flag f b.
Proof.
  intros Ha Hb E. unfold flag, set_flag, set_flags. cbn [flags]. by rewrite Z.land_lor_distr_l, E, Z.lor_0_r.
Qed.

Lemma flag_clear f a b : Z.land (Z.lnot a) b = b -> flag (clear_flag f a) b = flag f b.
Proof. intros E. unfold flag, clear_flag, set_flags. cbn [flags]. by rewrite <- Z.land_assoc, E. Qed.

Lemma flag_set_same f a : a <> 0 -> flag (set_flag f a) a = true.
Proof.
  intros Ha. unfold flag, set_flag, set_flags. cbn [flags]. rewrite Z.land_lor_distr_l, Z.land_diag. apply negb_true_iff, Z.eqb_neq. intros E. apply Z.lor_eq_0_iff in E as [_ E]. done.
Qed.

Lemma flag_pos f p a : flag (set_pos f p) a = flag f a.
Proof. done. Qed.
Lemma flag_buf f b a : flag (set_buf f b) a = flag f a.
Proof. done. Qed.

(** A stream whose buffer is emptied. *)
Lemma emptied_writer f f' : writer f -> flags f' = Z.land (flags f) (Z.lnot IO_BUF_DIRTY) \/ flags f' = Z.land (Z.lor (flags f) IO_ERR_FLAG) (Z.lnot IO_BUF_DIRTY) ->
  buf f' = buf f -> buf_size f' = buf_size f -> buf_pos f' = 0 -> writer f' /\ pending f' = [].
Proof.
  intros [W1 W2 W3] Hfl Eb Es Ep. split; [constructor|].
  - assert (flag f' IO_WRITE = flag f IO_WRITE) as ->; [|done]. unfold flag. destruct Hfl as [-> | ->].
    + by rewrite <- Z.land_assoc.
    + rewrite <- Z.land_assoc, Z.land_lor_distr_l. change (Z.land IO_ERR_FLAG _) with 0. by rewrite Z.lor_0_r.
  - intros b. rewrite Eb, Es, Ep. intros Hb. destruct (W2 b Hb) as (? & ? & ?). split; [done|]. split; [done|lia].
  - intros _ _. done.
  - unfold pending. by rewrite Ep; destruct (buf f').
Qed.

Lemma pending_len f b : writer f -> buf f = Some b -> len (pending f) = buf_pos f.
Proof.
  intros W E. destruct (ws_buf f W b E) as (? & _ & ?). unfold pending. rewrite E. unfold len in *. rewrite length_take. lia.
Qed.

Lemma file_flush_write_ok f w : writer f ->
  exists f' w' r, file_flush_write f w = Some (f', w', r) /\ appended f w [] f' w' /\ buf f' = buf f /\ buf_size f' = buf_size f /\
    (is_Some (buf f) -> buf_pos f' = 0) /\ (writable (kern w) (fd f) -> r = 0).
Proof.
  intros W. unfold file_flush_write. destruct (flag f IO_BUF_DIRTY) eqn:Ed; cbn [negb].
  2: { exists f, w, 0. split; [done|]. split; [|split; [done|]; split; [done|]; split; [|done]; intros Hb; by apply W].
       constructor; [done|done|]. exists []. split; [by apply wrote_nil|]. by rewrite app_nil_r. }
  assert (Hcl : forall f0, flags f0 = flags f -> flags (clear_flag f0 IO_BUF_DIRTY) = Z.land (flags f) (Z.lnot IO_BUF_DIRTY)) by (intros f0 E; cbn; by rewrite E).
  destruct (buf f) as [b|] eqn:Eb.
  2: { exists (clear_flag f IO_BUF_DIRTY), w, 0. split; [done|]. split; [|split; [done|]; split; [done|]; split; [by intros []|done]].
       constructor; [|by rewrite Eb|].
       - constructor; [rewrite flag_clear by done; apply W|intros b; cbn; by rewrite Eb|cbn; rewrite Eb; by intros []].
       - exists []. split; [by apply wrote_nil|]. intros _. rewrite app_nil_r. unfold pending. cbn. by rewrite Eb. }
  pose proof (pending_len f b W Eb) as Hpl. destruct (ws_buf f W b Eb) as (Hlb & Hsz & Hpos).
  destruct (Z.eqb_spec (buf_pos f) 0) as [E0|Hne].
  - exists (clear_flag f IO_BUF_DIRTY), w, 0. destruct (emptied_writer f (clear_flag f IO_BUF_DIRTY) W) as [W' P']; [by left|done..|].
    split; [done|]. split; [|split; [done|]; split; [done|]; split; [done|done]].
    constructor; [exact W'|split; [done|cbn; by rewrite Eb]|]. exists []. split; [by apply wrote_nil|]. intros _. rewrite app_nil_r, P'. symmetry. apply length_zero_iff_nil. unfold len in Hpl. lia.
  - assert (Ep : take (Z.to_nat (buf_pos f)) b = pending f) by (unfold pending; by rewrite Eb). rewrite Ep.
    destruct (write_loop_ok (rounds (buf_pos f)) (fd f) (pending f) 0 w) as (w' & off & r & -> & Hoff & Hw & Hall); [lia|unfold rounds; lia|].
    cbn [mbind option_bind]. rewrite Z.sub_0_r, drop_0 in Hw.
    assert (Happ : forall f', writer f' -> fd f' = fd f -> buf f' = buf f -> pending f' = [] -> appended f w [] f' w').
    { intros f' W' E1 E2 E3. constructor; [done|split; [done|by rewrite E2]|]. exists (take (Z.to_nat off) (pending f)). split; [exact Hw|].
      intros Hwr. destruct (Hall Hwr) as [_ ->]. rewrite E3, !app_nil_r. apply take_ge. unfold len. lia. }
    destruct (Z.ltb_spec r 0).
    + set (f' := set_pos (clear_flag (set_flag f IO_ERR_FLAG) IO_BUF_DIRTY) 0).
      destruct (emptied_writer f f' W (or_intror eq_refl) eq_refl eq_refl eq_refl) as [W' P'].
      exists f', w', EOF. split; [done|]. split; [by apply Happ|]. split; [exact Eb|]. split; [done|]. split; [done|]. intros Hwr. destruct (Hall Hwr). lia.
    + set (f' := clear_flag (set_pos f 0) IO_BUF_DIRTY).
      destruct (emptied_writer f f' W (or_introl eq_refl) eq_refl eq_refl eq_refl) as [W' P'].
      exists f', w', 0. split; [done|]. split; [by apply Happ|]. split; [exact Eb|]. split; [done|]. split; [done|]. done.
Qed.

(** ** Putting bytes into the buffer *)

(** The bytes [l] stored at the position, where there is room. *)
Lemma buffered f b l (b' := take (Z.to_nat (buf_pos f)) b ++ l ++ drop (Z.to_nat (buf_pos f + len l)) b) :
  writer f -> buf f = Some b -> len l <= buf_size f - buf_pos f ->
  let f' := set_flag (set_pos (set_buf f (Some b')) (buf_pos f + len l)) IO_BUF_DIRTY in
  writer f' /\ pending f' = pending f ++ l /\ fd f' = fd f /\ buf f' = Some b' /\ buf_size f' = buf_size f /\ buf_pos f' = buf_pos f + len l.
Proof.
  intros W Eb Hl. pose proof (len_nonneg l). destruct (ws_buf f W b Eb) as (Hlb & Hsz & Hpos). cbv zeta.
  assert (Hlt : len (take (Z.to_nat (buf_pos f)) b) = buf_pos f) by (unfold len in *; rewrite length_take; lia).
  assert (Hlb' : len b' = buf_size f).
  { unfold b'. rewrite !len_app, Hlt. unfold len in *. rewrite length_drop. lia. }
  split; [constructor|split; [|done]].
  - rewrite flag_set by (done || unfold IO_BUF_DIRTY; lia). apply W.
  - intros c [= <-]. cbn [buf_size buf_pos set_flag set_flags set_pos set_buf]. split; [done|]. split; [done|lia].
  - intros _ Hd. rewrite flag_set_same in Hd by done. done.
  - unfold pending. cbn [buf buf_pos set_flag set_flags set_pos set_buf]. rewrite Eb. unfold b'. rewrite app_assoc. apply take_app_length'.
    unfold len in *. rewrite length_app. lia.
Qed.

Lemma appended_refl f w : writer f -> appended f w [] f w.
Proof. intros W. constructor; [done|done|]. exists []. split; [by apply wrote_nil|]. by rewrite app_nil_r. Qed.

Lemma appended_writable f w l f' w' d : appended f w l f' w' -> writable (kern w) d -> writable (kern w') d.
Proof. intros [_ _ (out & A & _)]. apply A. Qed.

(** A full buffer is flushed. *)
Lemma full_ok f b w : writer f -> buf f = Some b -> buf_pos f = buf_size f ->
  exists f1 w1 r, file_flush_write f w = Some (f1, w1, r) /\ appended f w [] f1 w1 /\ buf f1 = Some b /\
    buf_pos f1 = 0 /\ buf_size f1 = buf_size f /\ (writable (kern w) (fd f) -> negb (r =? EOF) = true).
Proof.
  intros W Eb Ep. destruct (file_flush_write_ok f w W) as (f1 & w1 & r & E & A & E1 & E2 & E3 & E4).
  exists f1, w1, r. split; [done|]. split; [done|]. split; [by rewrite E1|]. split; [apply E3; rewrite Eb; by eexists|]. split; [done|].
  intros Hw. by rewrite (E4 Hw).
Qed.

(** Room for at least one byte. *)
Lemma room_ok f b w : writer f -> buf f = Some b ->
  exists f1 w1 (ok : bool),
    (if u64 (buf_size f - buf_pos f) =? 0 then
       '(f, w, r) ← file_flush_write f w; Some (f, w, buf_size f, negb (r =? EOF))
     else Some (f, w, u64 (buf_size f - buf_pos f), true)) = Some (f1, w1, buf_size f1 - buf_pos f1, ok) /\
    (if buf_size f <=? buf_pos f then '(f, w, r) ← file_flush_write f w; Some (f, w, negb (r =? EOF)) else Some (f, w, true)) = Some (f1, w1, ok) /\
    appended f w [] f1 w1 /\ buf f1 = Some b /\ (ok = true -> 0 < buf_size f1 - buf_pos f1) /\ (writable (kern w) (fd f) -> ok = true).
Proof.
  intros W Eb. destruct (ws_buf f W b Eb) as (_ & Hsz & Hpos). rewrite wrap_small by lia.
  destruct (Z.eqb_spec (buf_size f - buf_pos f) 0).
  - destruct (full_ok f b w W Eb) as (f1 & w1 & r & -> & A & E1 & E2 & E3 & E4); [lia|]. rewrite (proj2 (Z.leb_le _ _)) by lia. cbn [mbind option_bind].
    exists f1, w1, (negb (r =? EOF)). rewrite E2, Z.sub_0_r, E3. split; [done|]. split; [done|]. split; [done|]. split; [done|]. split; [lia|done].
  - rewrite (proj2 (Z.leb_gt _ _)) by lia. exists f, w, true. split; [done|]. split; [done|]. split; [by apply appended_refl|]. split; [done|]. split; [lia|done].
Qed.

Lemma append_loop_ok fuel src put f b w : writer f -> buf f = Some b -> 0 <= put <= len src -> len src - put < Z.of_nat fuel ->
  exists f' w' put', append_loop fuel src put f b w = Some (f', w', put') /\ put <= put' <= len src /\
    appended f w (take (Z.to_nat (put' - put)) (drop (Z.to_nat put) src)) f' w' /\ (writable (kern w) (fd f) -> put' = len src).
Proof.
  revert put f b w. induction fuel as [|fuel IH]; intros put f b w W Eb Hp Hf; [lia|]. cbn [append_loop].
  destruct (Z.ltb_spec put (len src)) as [Hlt|].
  2: { exists f, w, put. split; [done|]. split; [lia|]. rewrite Z.sub_diag. split; [by apply appended_refl|lia]. }
  destruct (room_ok f b w W Eb) as (f1 & w1 & ok & -> & _ & A & Eb1 & Hroom & Hok). cbn [mbind option_bind].
  destruct ok; cbn [negb].
  2: { exists f1, w1, put. split; [done|]. split; [lia|]. rewrite Z.sub_diag. split; [done|]. intros Hw. by specialize (Hok Hw). }
  specialize (Hroom eq_refl). set (space := buf_size f1 - buf_pos f1) in *.
  set (chunk := if space <? len src - put then space else len src - put).
  assert (Hc : 0 < chunk <= len src - put /\ chunk <= space) by (unfold chunk; destruct (Z.ltb_spec space (len src - put)); lia).
  set (l := take (Z.to_nat chunk) (drop (Z.to_nat put) src)).
  assert (Hl : len l = chunk) by (unfold l, len in *; rewrite length_take, length_drop; lia).
  destruct (buffered f1 b l (ap_writer _ _ _ _ _ A) Eb1) as (W2 & P2 & F2 & B2 & S2 & Q2); [lia|]. rewrite Hl in W2, P2, F2, B2, S2, Q2.
  set (b2 := take _ b ++ l ++ _) in *. set (f2 := set_flag _ IO_BUF_DIRTY) in *.
  assert (A2 : appended f1 w1 l f2 w1).
  { constructor; [exact W2|split; [done|rewrite B2, Eb1; done]|]. exists []. split; [by apply wrote_nil|]. intros _. exact P2. }
  pose proof (appended_trans _ _ _ _ _ _ _ _ A A2) as T.
  destruct (IH (put + chunk) f2 b2 w1 W2 B2) as (f' & w' & put' & E & Hp' & A' & Hall); [lia|lia|].
  exists f', w', put'. split; [exact E|]. split; [lia|]. split.
  - pose proof (appended_trans _ _ _ _ _ _ _ _ T A') as T'. cbn [app] in T'.
    assert (El : l ++ take (Z.to_nat (put' - (put + chunk))) (drop (Z.to_nat (put + chunk)) src) = take (Z.to_nat (put' - put)) (drop (Z.to_nat put) src)); [|by rewrite El in T'].
    unfold l. replace (Z.to_nat (put + chunk)) with (Z.to_nat put + Z.to_nat chunk)%nat by lia. rewrite <- drop_drop, take_take_drop. f_equal. lia.
  - intros Hw. apply Hall. rewrite F2, (proj1 (ap_fd _ _ _ _ _ A)). by eapply appended_writable.
Qed.

(** fwrite of byte elements. *)
Lemma fwrite_ok src f w : writer f -> len src < 2 ^ 64 ->
  exists f' w' r, fwrite src 1 (len src) f w = Some (f', w', r) /\ 0 <= r <= len src /\
    appended f w (take (Z.to_nat r) src) f' w' /\ (writable (kern w) (fd f) -> r = len src).
Proof.
  intros W Hlen. pose proof (len_nonneg src). unfold fwrite. cbn [orb Z.eqb]. destruct (Z.eqb_spec (len src) 0) as [E0|].
  { exists f, w, 0. split; [done|]. split; [lia|]. split; [by apply appended_refl|lia]. }
  rewrite (ws_write f W), Z.mul_1_l, wrap_small by lia. cbn [negb]. cbv zeta.
  assert (Et : take (Z.to_nat (len src)) src = src) by (apply take_ge; unfold len; lia). rewrite Et.
  destruct (buf f) as [b|] eqn:Eb.
  - destruct (append_loop_ok (rounds (len src)) src 0 f b w W Eb) as (f' & w' & r & -> & Hr & A & Hall); [lia|unfold rounds; lia|].
    cbn [mbind option_bind]. exists f', w', r. rewrite Z.div_1_r. split; [done|]. split; [lia|]. rewrite Z.sub_0_r in A. done.
  - destruct (write_loop_ok (rounds (len src)) (fd f) src 0 w) as (w' & off & r & -> & Hoff & Hw & Hall); [lia|unfold rounds; lia|].
    cbn [mbind option_bind]. rewrite Z.div_1_r. eexists _, w', off. split; [done|]. split; [lia|]. rewrite Z.sub_0_r in Hw. split; [|by intros Hwr; destruct (Hall Hwr)].
    set (f' := if r <? 0 then set_flag f IO_ERR_FLAG else f).
    assert (F : flag f' IO_WRITE = flag f IO_WRITE /\ flag f' IO_BUF_DIRTY = flag f IO_BUF_DIRTY /\ fd f' = fd f /\ buf f' = None).
    { unfold f'. destruct (r <? 0); rewrite ?flag_set by (done || unfold IO_ERR_FLAG, IO_BUF_DIRTY, IO_WRITE; lia); by cbn. }
    destruct F as (F1 & F2 & F3 & F4). constructor; [|by rewrite F4|].
    + constructor; [rewrite F1; apply W|by rewrite F4|rewrite F4; by intros []].
    + exists (take (Z.to_nat off) src). split; [exact Hw|]. intros _. unfold pending. by rewrite F4, Eb, app_nil_r.
Qed.

Lemma fputc_ok std c f w : writer f ->
  exists f' w' r, fputc std c f w = Some (f', w', r) /\ appended f w (if r =? EOF then [] else [u8 c]) f' w' /\
    (writable (kern w) (fd f) -> r = u8 c).
Proof.
  intros W. pose proof (wrap_range 8 c ltac:(lia)) as Hc. unfold fputc. rewrite (ws_write f W). cbn [negb]. cbv zeta.
  assert (Hce : (u8 c =? EOF) = false) by (apply Z.eqb_neq; unfold EOF; lia).
  destruct (buf f) as [b|] eqn:Eb.
  - destruct (room_ok f b w W Eb) as (f1 & w1 & ok & _ & -> & A & Eb1 & Hroom & Hok). cbn [mbind option_bind].
    destruct ok; cbn [negb]; [|exists f1, w1, EOF; split; [done|]; split; [done|]; intros Hw; by specialize (Hok Hw)].
    specialize (Hroom eq_refl). destruct (ws_buf f1 (ap_writer _ _ _ _ _ A) b Eb1) as (Hlb & Hsz & Hpos).
    destruct (buffered f1 b [u8 c] (ap_writer _ _ _ _ _ A) Eb1) as (W2 & P2 & F2 & B2 & _ & _); [change (len [u8 c]) with 1; lia|].
    assert (Ei : <[Z.to_nat (buf_pos f1) := u8 c]> b = take (Z.to_nat (buf_pos f1)) b ++ [u8 c] ++ drop (Z.to_nat (buf_pos f1 + len [u8 c])) b).
    { rewrite insert_take_drop by (unfold len in *; lia). f_equal. cbn [app]. f_equal. f_equal. change (len [u8 c]) with 1. lia. }
    rewrite Eb1. cbn [default from_option id]. rewrite Ei. clear Ei. cbn [len length] in W2, P2, F2, B2. set (f2 := set_flag _ IO_BUF_DIRTY) in *.
    assert (A2 : appended f1 w1 [u8 c] f2 w1).
    { constructor; [exact W2|split; [done|rewrite B2, Eb1; done]|]. exists []. split; [by apply wrote_nil|]. intros _. exact P2. }
    pose proof (appended_trans _ _ _ _ _ _ _ _ A A2) as T. cbn [app] in T. change (len [u8 c]) with 1. change (set_flag (set_pos _ _) _) with f2.
    destruct ((u8 c =? 10) && std); [|exists f2, w1, (u8 c); rewrite Hce; done].
    destruct (file_flush_write_ok f2 w1 W2) as (f3 & w3 & r & -> & A3 & _). cbn [mbind option_bind]. exists f3, w3, (u8 c). rewrite Hce. split; [done|]. split; [|done].
    exact (appended_trans _ _ _ _ _ _ _ _ T A3).
  - pose proof (sys_write_ok (fd f) [u8 c] w (errno w) ltac:(done)) as L. destruct (sys_write (kern w) (fd f) [u8 c]) as [k r]. destruct L as (L1 & L2 & L3). change (len _) with 1 in L1.
    destruct (Z.ltb_spec r 0) as [Hr|Hr].
    { eexists _, _, EOF. split; [done|]. split; [|intros Hw; specialize (L3 Hw); lia]. cbn [Z.eqb EOF Pos.eqb].
      destruct L2 as [A1 A2 A3 A4]. replace (Z.to_nat r) with 0%nat in A1 by lia.
      constructor; [|cbn; rewrite Eb; done|].
      - constructor; [rewrite flag_set by (done || unfold IO_ERR_FLAG, IO_WRITE; lia); apply W|cbn; by rewrite Eb|cbn; rewrite Eb; by intros []].
      - exists []. split; [by constructor|]. intros _. unfold pending. cbn. by rewrite Eb. }
    assert (Aw : forall r', r' = r -> appended f w (take (Z.to_nat r') [u8 c]) f (mkIo k (errno w))).
    { intros r' ->. constructor; [done|done|]. eexists. split; [exact L2|]. intros _. unfold pending. by rewrite Eb, app_nil_r. }
    destruct (Z.eqb_spec r 0) as [E0|].
    + eexists _, _, EOF. split; [done|]. split; [exact (Aw 0 (eq_sym E0))|]. intros Hw. specialize (L3 Hw). lia.
    + eexists _, _, _. split; [done|]. rewrite Hce. split; [exact (Aw 1 ltac:(lia))|done].
Qed.

(** ** Streams that read *)

(** The bytes that are in the buffer and not handed out. *)
Definition unread f : list Z :=
  match buf f with Some b => take (Z.to_nat (buf_len f - buf_pos f)) (drop (Z.to_nat (buf_pos f)) b) | None => [] end.

Record reader f : Prop := {
  rs_read : flag f IO_READ = true;
  rs_buf : forall b, buf f = Some b -> len b = buf_size f /\ 0 < buf_size f < 2 ^ 64 /\ 0 <= buf_pos f <= buf_len f /\ buf_len f <= buf_size f;
}.

(** [l] was handed out: it and what is left are what there was. *)
Record delivered f w (l : list Z) f' w' : Prop := {
  dl_reader : reader f';
  dl_fd : fd f' = fd f /\ (buf f = None <-> buf f' = None);
  dl_bytes : unread f ++ input (kern w) (fd f) = l ++ unread f' ++ input (kern w') (fd f);
  dl_other : forall e, e <> fd f -> input (kern w') e = input (kern w) e;
  dl_sent : forall e, sent (kern w') e = sent (kern w) e;
  dl_flags : forall a, flag f a = true -> flag f' a = true;
}.

Lemma delivered_trans f1 w1 a f2 w2 b f3 w3 : delivered f1 w1 a f2 w2 -> delivered f2 w2 b f3 w3 -> delivered f1 w1 (a ++ b) f3 w3.
Proof.
  intros [A1 [A2 A2'] A3 A4 A5 A6] [B1 [B2 B2'] B3 B4 B5 B6]. rewrite A2 in B2, B3, B4. constructor; [done|split; [congruence|tauto]| | | |by intros fl Hfl; apply B6, A6].
  - by rewrite A3, B3, <- app_assoc.
  - intros e He. by rewrite B4, A4.
  - intros e. by rewrite B5, A5.
Qed.

Lemma delivered_refl f w : reader f -> delivered f w [] f w.
Proof. intros R. by constructor. Qed.

Lemma flag_keeps f a b : flag f b = true -> flag (set_flag f a) b = true.
Proof.
  unfold flag, set_flag, set_flags. cbn [flags]. rewrite !negb_true_iff, !Z.eqb_neq, Z.land_lor_distr_l, Z.lor_eq_0_iff. tauto.
Qed.

(** A flag that is set, and a new errno. *)
Lemma delivered_flag f w l f' w' a w'' : delivered f w l f' w' -> kern w'' = kern w' -> 0 <= a -> Z.land a IO_READ = 0 ->
  delivered f w l (set_flag f' a) w''.
Proof.
  intros [A1 A2 A3 A4 A5 A6] Ek Ha Hr. constructor; rewrite ?Ek; try done; [|by intros b Hb; apply flag_keeps, A6].
  constructor; [rewrite flag_set by (done || unfold IO_READ; lia); apply A1|]. intros b. cbn [set_flag set_flags buf buf_size buf_pos buf_len]. apply A1.
Qed.

(** A byte that comes out of the buffer. *)
Lemma unread_step f b w : reader f -> buf f = Some b -> buf_pos f < buf_len f ->
  delivered f w [b.[buf_pos f]] (set_pos f (buf_pos f + 1)) w.
Proof.
  intros R Eb Hp. destruct (rs_buf f R b Eb) as (Hb & Hs & Hpos & Hl). constructor; try done.
  - constructor; [apply R|]. intros c Hc. cbn [buf set_pos] in Hc. rewrite Eb in Hc. injection Hc as <-. cbn [set_pos buf_size buf_pos buf_len]. split; [done|]. split; [done|lia].
  - unfold unread. cbn [set_pos buf buf_pos buf_len]. rewrite Eb. rewrite app_assoc. f_equal.
    replace (Z.to_nat (buf_pos f + 1)) with (S (Z.to_nat (buf_pos f))) by lia.
    rewrite (drop_S b (b.[buf_pos f]) (Z.to_nat (buf_pos f))) by (apply geti_lookup; lia).
    replace (Z.to_nat (buf_len f - buf_pos f)) with (S (Z.to_nat (buf_len f - (buf_pos f + 1)))) by lia. done.
Qed.

Lemma drain_ok n b f dst w : reader f -> buf f = Some b ->
  exists f' l, drain n b f dst = (f', dst ++ l) /\ delivered f w l f' w /\ buf f' = Some b /\ len l <= Z.of_nat n /\ (len l < Z.of_nat n -> unread f' = []).
Proof.
  revert f dst. induction n as [|n IH]; intros f dst R Eb; cbn [drain].
  { exists f, []. rewrite app_nil_r. split; [done|]. split; [by apply delivered_refl|]. split; [done|]. change (len []) with 0. lia. }
  destruct (Z.ltb_spec (buf_pos f) (buf_len f)) as [Hp|Hp].
  - pose proof (unread_step f b w R Eb Hp) as D. destruct (IH (set_pos f (buf_pos f + 1)) (dst ++ [b.[buf_pos f]]) (dl_reader _ _ _ _ _ D) Eb) as (f' & l & -> & D' & E' & Hl & Hu).
    exists f', (b.[buf_pos f] :: l). rewrite <- app_assoc. split; [done|]. split; [exact (delivered_trans _ _ _ _ _ _ _ _ D D')|]. split; [done|].
    rewrite len_cons. split; [lia|]. intros Hlt. apply Hu. lia.
  - exists f, []. rewrite app_nil_r. split; [done|]. split; [by apply delivered_refl|]. split; [done|]. change (len []) with 0. split; [lia|]. intros _.
    unfold unread. rewrite Eb. by replace (Z.to_nat (buf_len f - buf_pos f)) with 0%nat by lia.
Qed.

(** What a read of the kernel gives to a stream with nothing unread. *)
Lemma sys_read_ok f w n e : 0 < n -> reader f -> unread f = [] ->
  let '(k, r, bytes) := sys_read (kern w) (fd f) n in
  r <= n /\ len bytes = Z.max 0 r /\ (r = 0 -> input (kern w) (fd f) = []) /\ delivered f w bytes f (mkIo k e) /\
  (forall b, buf f = Some b -> n <= buf_size f -> 0 < r -> delivered f w [] (set_pos (set_blen (set_buf f (Some (refill b bytes))) r) 0) (mkIo k e)).
Proof.
  intros Hn R Hu. pose proof (sys_read_law (kern w) (fd f) n Hn) as L. destruct (sys_read (kern w) (fd f) n) as [[k r] bytes].
  destruct L as (L1 & L2 & L3 & L4 & L5 & L6). split; [done|]. split; [done|]. split; [done|]. split; [by constructor; rewrite ?Hu|].
  intros b Eb Hs Hr. destruct (rs_buf f R b Eb) as (Hb & Hs' & Hp & Hl). unfold len in *.
  assert (Hlr : length (refill b bytes) = length b) by (unfold refill; rewrite length_app, length_drop; lia).
  constructor; try done; cycle 2.
  - cbn [kern]. rewrite Hu. cbn [app]. rewrite L3. unfold unread. cbn [set_pos set_blen set_buf buf buf_pos buf_len]. f_equal. rewrite Z.sub_0_r. cbn [Z.to_nat drop].
    unfold refill. assert (Et : take (Z.to_nat r) (bytes ++ drop (length bytes) b) = bytes) by (apply take_app_length'; lia). rewrite drop_0, Et. done.
  - constructor; [apply R|]. cbn [set_pos set_blen set_buf buf buf_size buf_pos buf_len]. intros c [= <-]. unfold len. rewrite Hlr. split; [done|]. split; [done|lia].
  - cbn. by rewrite Eb.
Qed.

(** Why a read is short: an error, or nothing is left. *)
Definition stopped f w : Prop := flag f IO_ERR_FLAG = true \/ flag f IO_EOF_FLAG = true /\ unread f = [] /\ input (kern w) (fd f) = [].

(** A read that gives nothing. *)
Lemma read_end f w k r bytes e : unread f = [] -> len bytes = Z.max 0 r -> (r = 0 -> input (kern w) (fd f) = []) ->
  delivered f w bytes f (mkIo k e) -> r <= 0 ->
  exists f' w', delivered f w [] f' w' /\ stopped f' w' /\ forall X (g : FILE -> io -> X) rest,
    (if r <? 0 then g (set_flag f IO_ERR_FLAG) (set_errno (mkIo k e) (s32 (- r)))
     else if r =? 0 then g (set_flag f IO_EOF_FLAG) (mkIo k e) else rest) = g f' w'.
Proof.
  intros Hu Hb H0 D Hr. assert (bytes = []) as -> by (apply length_zero_iff_nil; unfold len in Hb; lia).
  destruct (Z.ltb_spec r 0); [exists (set_flag f IO_ERR_FLAG), (set_errno (mkIo k e) (s32 (- r)))
    |rewrite (proj2 (Z.eqb_eq r 0)) by lia; exists (set_flag f IO_EOF_FLAG), (mkIo k e)]; (split; [by eapply delivered_flag|split; [|done]]).
  - left. by apply flag_set_same.
  - right. split; [by apply flag_set_same|]. assert (E0 : input (kern w) (fd f) = []) by (apply H0; lia).
    pose proof (dl_bytes _ _ _ _ _ D) as B. rewrite Hu, E0 in B. by split.
Qed.

Lemma read_loop_ok fuel want f dst w : reader f -> len dst <= want -> (len dst < want -> unread f = []) -> want - len dst < Z.of_nat fuel ->
  exists f' l w', read_loop fuel want f dst w = Some (f', dst ++ l, w') /\ delivered f w l f' w' /\ len dst + len l <= want /\
    (len dst + len l < want -> stopped f' w').
Proof.
  revert f dst w. induction fuel as [|fuel IH]; intros f dst w R Hd Hu Hf; [lia|]. cbn [read_loop].
  destruct (Z.ltb_spec (len dst) want) as [Hlt|].
  2: { exists f, [], w. rewrite app_nil_r. split; [done|]. split; [by apply delivered_refl|]. change (len []) with 0. lia. }
  specialize (Hu Hlt). cbv zeta. set (remaining := want - len dst).
  (* a read into the caller's memory *)
  assert (Hdirect : exists f' l w', (let '(k, r, bytes) := sys_read (kern w) (fd f) remaining in
      if r <? 0 then Some (set_flag f IO_ERR_FLAG, dst, set_errno (mkIo k (errno w)) (s32 (- r)))
      else if r =? 0 then Some (set_flag f IO_EOF_FLAG, dst, mkIo k (errno w)) else read_loop fuel want f (dst ++ bytes) (mkIo k (errno w)))
      = Some (f', dst ++ l, w') /\ delivered f w l f' w' /\ len dst + len l <= want /\ (len dst + len l < want -> stopped f' w')).
  { pose proof (sys_read_ok f w remaining (errno w) ltac:(lia) R Hu) as L. destruct (sys_read _ _ remaining) as [[k r] bytes]. destruct L as (L1 & L2 & L3 & L4 & _).
    destruct (Z.leb_spec r 0) as [Hr|Hr].
    - destruct (read_end f w k r bytes _ Hu L2 L3 L4 Hr) as (f' & w' & D & S & E). exists f', [], w'. rewrite app_nil_r.
      split; [exact (E _ (fun f w => Some (f, dst, w)) _)|]. split; [done|]. split; [change (len []) with 0; lia|]. by intros _.
    - rewrite (proj2 (Z.ltb_ge r 0)), (proj2 (Z.eqb_neq r 0)) by lia.
      destruct (IH f (dst ++ bytes) (mkIo k (errno w)) R) as (f' & l & w' & E & D & H1 & H2); [rewrite len_app; lia|done|rewrite len_app; lia|].
      rewrite len_app in H1, H2. exists f', (bytes ++ l), w'. rewrite app_assoc, len_app. split; [exact E|]. split; [exact (delivered_trans _ _ _ _ _ _ _ _ L4 D)|].
      split; [lia|]. intros Hs. apply H2. lia. }
  destruct (buf f) as [b|] eqn:Eb; [|exact Hdirect]. destruct (Z.leb_spec (buf_size f) remaining) as [Hsz|Hsz]; [exact Hdirect|]. clear Hdirect.
  destruct (rs_buf f R b Eb) as (Hb & Hs' & Hp & Hl).
  pose proof (sys_read_ok f w (buf_size f) (errno w) ltac:(lia) R Hu) as L. destruct (sys_read _ _ (buf_size f)) as [[k r] bytes]. destruct L as (L1 & L2 & L3 & L4 & L5).
  destruct (Z.leb_spec r 0) as [Hr|Hr].
  - destruct (read_end f w k r bytes _ Hu L2 L3 L4 Hr) as (f' & w' & D & S & E). exists f', [], w'. rewrite app_nil_r.
    split; [exact (E _ (fun f w => Some (f, dst, w)) _)|]. split; [done|]. split; [change (len []) with 0; lia|]. by intros _.
  - rewrite (proj2 (Z.ltb_ge r 0)), (proj2 (Z.eqb_neq r 0)) by lia. specialize (L5 b Eb ltac:(lia) Hr). set (f1 := set_pos _ 0) in *. cbv zeta.
    destruct (drain_ok (Z.to_nat remaining) (refill b bytes) f1 dst (mkIo k (errno w)) (dl_reader _ _ _ _ _ L5) eq_refl) as (f2 & l1 & -> & D1 & _ & Hl1 & Hu1).
    assert (Hl1' : 0 < len l1).
    { destruct (decide (l1 = [])) as [->|Hne]; [|destruct l1; [done|]; rewrite len_cons; pose proof (len_nonneg l1); lia]. exfalso.
      pose proof (Hu1 ltac:(change (len []) with 0; lia)) as Hu2. pose proof (dl_bytes _ _ _ _ _ D1) as B. rewrite Hu2 in B. cbn [app] in B.
      pose proof (dl_bytes _ _ _ _ _ L4) as B4. rewrite (proj1 (dl_fd _ _ _ _ _ L5)) in B. pose proof (dl_bytes _ _ _ _ _ L5) as B5. cbn [app] in B5. rewrite B in B5. rewrite B4, Hu in B5. cbn [app] in B5.
      apply (f_equal length) in B5. rewrite length_app in B5. unfold len in L2. lia. }
    destruct (IH f2 (dst ++ l1) (mkIo k (errno w)) (dl_reader _ _ _ _ _ D1)) as (f' & l & w' & E & D & H1 & H2); [rewrite len_app; lia|rewrite len_app; intros; apply Hu1; lia|rewrite len_app; lia|].
    rewrite len_app in H1, H2. exists f', (l1 ++ l), w'. rewrite app_assoc, len_app. split; [exact E|].
    split; [exact (delivered_trans _ _ _ _ _ _ _ _ L5 (delivered_trans _ _ _ _ _ _ _ _ D1 D))|]. split; [lia|]. intros Hs. apply H2. lia.
Qed.

Lemma fread_ok size nmemb f w : reader f -> 0 < size -> 0 < nmemb -> size * nmemb < 2 ^ 64 ->
  exists f' w' l, fread size nmemb f w = Some (f', w', l, len l / size) /\ delivered f w l f' w' /\ len l <= size * nmemb /\
    (len l < size * nmemb -> stopped f' w').
Proof.
  intros R Hs Hn Hb. unfold fread. rewrite !(proj2 (Z.eqb_neq _ 0)), (rs_read f R), wrap_small by lia. cbn [orb negb]. cbv zeta. set (want := size * nmemb) in *.
  assert (Hwant : 0 < want) by (unfold want; nia).
  assert (Hd : exists f1 l1, match buf f with Some b => drain (Z.to_nat want) b f [] | None => (f, []) end = (f1, l1) /\ delivered f w l1 f1 w /\
    len l1 <= want /\ (len l1 < want -> unread f1 = [])).
  { destruct (buf f) as [b|] eqn:Eb.
    - destruct (drain_ok (Z.to_nat want) b f [] w R Eb) as (f1 & l1 & -> & D & _ & H1 & H2). exists f1, l1. split; [done|]. split; [done|]. split; [lia|]. intros. apply H2. lia.
    - exists f, []. split; [done|]. split; [by apply delivered_refl|]. change (len []) with 0. split; [lia|]. intros _. unfold unread. by rewrite Eb. }
  destruct Hd as (f1 & l1 & -> & D & H1 & H2).
  destruct (read_loop_ok (rounds (want - len l1)) want f1 l1 w (dl_reader _ _ _ _ _ D) H1 H2) as (f' & l & w' & -> & D' & H3 & H4); [unfold rounds; lia|].
  cbn [mbind option_bind]. exists f', w', (l1 ++ l). rewrite len_app. split; [done|]. split; [exact (delivered_trans _ _ _ _ _ _ _ _ D D')|]. done.
Qed.

Lemma fgetc_ok f w : reader f ->
  exists f' w' r l, fgetc f w = Some (f', w', r) /\ delivered f w l f' w' /\
    (r = EOF /\ l = [] /\ stopped f' w' \/ exists c, l = [c] /\ r = u8 c).
Proof.
  intros R. unfold fgetc. rewrite (rs_read f R). cbn [negb].
  destruct (buf f) as [b|] eqn:Eb.
  - destruct (rs_buf f R b Eb) as (Hb & Hs' & Hp & Hl). destruct (Z.leb_spec (buf_len f) (buf_pos f)) as [He|He].
    2: { eexists _, w, _, _. split; [done|]. split; [by apply unread_step|]. right. by eexists. }
    assert (Hu : unread f = []) by (unfold unread; rewrite Eb; by replace (Z.to_nat (buf_len f - buf_pos f)) with 0%nat by lia).
    pose proof (sys_read_ok f w (buf_size f) (errno w) ltac:(lia) R Hu) as L. destruct (sys_read _ _ (buf_size f)) as [[k r] bytes]. destruct L as (L1 & L2 & L3 & L4 & L5).
    destruct (Z.leb_spec r 0) as [Hr|Hr].
    + destruct (read_end f w k r bytes _ Hu L2 L3 L4 Hr) as (f' & w' & D & S & E). exists f', w', EOF, [].
      split; [exact (E _ (fun f w => Some (f, w, EOF)) _)|]. split; [done|]. by left.
    + rewrite (proj2 (Z.ltb_ge r 0)), (proj2 (Z.eqb_neq r 0)) by lia. specialize (L5 b Eb ltac:(lia) Hr). cbv zeta.
      pose proof (unread_step _ (refill b bytes) (mkIo k (errno w)) (dl_reader _ _ _ _ _ L5) eq_refl ltac:(cbn [set_pos set_blen set_buf buf_pos buf_len]; lia)) as D1.
      eexists _, _, _, _. split; [done|]. split; [exact (delivered_trans _ _ _ _ _ _ _ _ L5 D1)|]. right. by eexists.
  - assert (Hu : unread f = []) by (unfold unread; by rewrite Eb).
    pose proof (sys_read_ok f w 1 (errno w) ltac:(lia) R Hu) as L. destruct (sys_read _ _ 1) as [[k r] bytes]. destruct L as (L1 & L2 & L3 & L4 & _).
    destruct (Z.leb_spec r 0) as [Hr|Hr].
    + destruct (read_end f w k r bytes _ Hu L2 L3 L4 Hr) as (f' & w' & D & S & E). exists f', w', EOF, [].
      split; [exact (E _ (fun f w => Some (f, w, EOF)) _)|]. split; [done|]. by left.
    + rewrite (proj2 (Z.ltb_ge r 0)), (proj2 (Z.eqb_neq r 0)) by lia. cbv zeta. eexists _, _, _, bytes. split; [done|]. split; [exact L4|]. right.
      destruct bytes as [|c [|d l]]; rewrite ?len_cons in L2; [change (len []) with 0 in L2; lia| |pose proof (len_nonneg l); lia]. by exists c.
Qed.

(** ** Sequences of calls *)

Inductive wop := WWrite (l : list Z) | WPuts (s : list Z) | WPutc (c : Z) | WPrintf (fmt : list Z) (args : list va) | WFlush.

(** The bytes the call gives to the stream, what it returns, and where that holds. *)
Definition accepted (op : wop) : list Z :=
  match op with
  | WWrite l | WPuts l => l
  | WPutc c => [u8 c]
  | WPrintf fmt args => take 1023 (default [] (ideal fmt args))
  | WFlush => []
  end.
Definition result (op : wop) : Z :=
  match op with WWrite l | WPuts l => len l | WPutc c => u8 c | WPrintf fmt args => len (default [] (ideal fmt args)) | WFlush => 0 end.
Definition wop_ok (op : wop) : Prop :=
  match op with
  | WWrite l => len l < 2 ^ 64
  | WPuts l => len l < 2 ^ 31
  | WPrintf fmt args => is_Some (ideal fmt args) /\ len (default [] (ideal fmt args)) < 2 ^ 31
  | _ => True
  end.

Section sequences.
Context (std : bool) (stack : Z) (m : memory).

Definition wstep (op : wop) f w : option (FILE * @io K * Z) :=
  match op with
  | WWrite l => fwrite l 1 (len l) f w
  | WPuts s => fputs s f w
  | WPutc c => fputc std c f w
  | WPrintf fmt args => vfprintf stack m fmt args f w
  | WFlush => fflush_stream f w
  end.

Fixpoint wrun (ops : list wop) f w : option (FILE * @io K * list Z) :=
  match ops with
  | [] => Some (f, w, [])
  | op :: ops => '(f, w, r) ← wstep op f w; '(f, w, rs) ← wrun ops f w; Some (f, w, r :: rs)
  end.

Lemma fwrite_all src f w : writer f -> writable (kern w) (fd f) -> len src < 2 ^ 64 ->
  exists f' w', fwrite src 1 (len src) f w = Some (f', w', len src) /\ appended f w src f' w'.
Proof.
  intros W Hw Hl. destruct (fwrite_ok src f w W Hl) as (f' & w' & r & E & Hr & A & Hall). specialize (Hall Hw). subst r.
  exists f', w'. split; [done|]. rewrite take_ge in A; [done|unfold len; lia].
Qed.

Lemma flush_ok f w : writer f -> writable (kern w) (fd f) ->
  exists f' w', fflush_stream f w = Some (f', w', 0) /\ appended f w [] f' w' /\ pending f' = [].
Proof.
  intros W Hw. unfold fflush_stream. rewrite (ws_write f W). destruct (file_flush_write_ok f w W) as (f' & w' & r & -> & A & E1 & _ & E2 & E3).
  rewrite (E3 Hw). exists f', w'. split; [done|]. split; [done|]. unfold pending. rewrite E1. destruct (buf f) as [b|]; [|done]. rewrite E2 by (by exists b). done.
Qed.

Lemma vfprintf_ok fmt ap t f w : stack <> 0 -> ideal fmt ap = Some t -> len t < 2 ^ 31 -> writer f -> writable (kern w) (fd f) ->
  exists f' w', vfprintf stack m fmt ap f w = Some (f', w', len t) /\ appended f w (take 1023 t) f' w'.
Proof.
  intros Hs Ei Ht W Hw. pose proof (len_nonneg t). unfold vfprintf. destruct (vsnprintf_text stack 1024 fmt ap m t Ei Ht) as (m' & -> & _ & Hm & _); [lia|].
  specialize (Hm Hs ltac:(lia)). cbn [mbind option_bind]. rewrite (proj2 (Z.ltb_ge (len t) 0)) by lia. cbv zeta in *.
  set (n := if 1023 <? len t then 1023 else len t). assert (Hn : n = Z.min (len t) 1023) by (unfold n; destruct (Z.ltb_spec 1023 (len t)); lia).
  assert (El : (fun i => m' (stack + i)) <$> seqZ 0 n = take 1023 t).
  { assert (Hlt : len (take 1023 t) = n) by (unfold len in *; rewrite length_take; lia).
    apply list_ext_geti; [rewrite Hlt; unfold len; rewrite length_fmap, length_seqZ; lia|]. unfold len at 1. rewrite length_fmap, length_seqZ. intros i Hi.
    rewrite geti_fmap by (unfold len; rewrite length_seqZ; lia). assert (Eq : (seqZ 0 n).[i] = i) by (unfold geti; rewrite lookup_total_seqZ_lt by lia; lia).
    rewrite Eq, Hm. unfold geti.
    rewrite (proj2 (Z.leb_le _ _)), (proj2 (Z.ltb_lt _ _)) by lia. cbn [andb]. rewrite !list_lookup_total_alt, lookup_take_lt by lia. do 2 f_equal. lia. }
  rewrite El. assert (En : n = len (take 1023 t)) by (unfold len in *; rewrite length_take; lia). rewrite En.
  destruct (fwrite_all (take 1023 t) f w W Hw) as (f' & w' & -> & A); [rewrite <- En; lia|]. cbn [mbind option_bind]. rewrite Z.ltb_irrefl. by exists f', w'.
Qed.

Lemma wstep_ok op f w : stack <> 0 -> wop_ok op -> writer f -> writable (kern w) (fd f) ->
  exists f' w', wstep op f w = Some (f', w', result op) /\ appended f w (accepted op) f' w'.
Proof.
  intros Hs Ho W Hw. destruct op as [l|l|c|fmt args|]; cbn [wop_ok wstep result accepted] in *.
  - by apply fwrite_all.
  - pose proof (len_nonneg l). destruct (fwrite_all l f w W Hw) as (f' & w' & E & A); [lia|]. unfold fputs. rewrite E. cbn [mbind option_bind].
    rewrite Z.ltb_irrefl, swrap_small by lia. by exists f', w'.
  - destruct (fputc_ok std c f w W) as (f' & w' & r & E & A & Hr). rewrite (Hr Hw) in E, A. exists f', w'. split; [done|].
    pose proof (wrap_range 8 c ltac:(lia)). by rewrite (proj2 (Z.eqb_neq (u8 c) EOF)) in A by (unfold EOF; lia).
  - destruct Ho as [[t Et] Hl]. rewrite Et in Hl |- *. by apply vfprintf_ok.
  - destruct (flush_ok f w W Hw) as (f' & w' & E & A & _). by exists f', w'.
Qed.

Lemma wrun_ok ops f w : stack <> 0 -> Forall wop_ok ops -> writer f -> writable (kern w) (fd f) ->
  exists f' w', wrun ops f w = Some (f', w', result <$> ops) /\ appended f w (concat (accepted <$> ops)) f' w'.
Proof.
  intros Hs Ho. revert f w. induction Ho as [|op ops Hop Ho IH]; intros f w W Hw; [exists f, w; split; [done|by apply appended_refl]|].
  destruct (wstep_ok op f w Hs Hop W Hw) as (f1 & w1 & E1 & A1).
  destruct (IH f1 w1 (ap_writer _ _ _ _ _ A1)) as (f2 & w2 & E2 & A2); [rewrite (proj1 (ap_fd _ _ _ _ _ A1)); by eapply appended_writable|].
  exists f2, w2. cbn [wrun]. rewrite E1. cbn [mbind option_bind]. rewrite E2. split; [done|]. exact (appended_trans _ _ _ _ _ _ _ _ A1 A2).
Qed.
End sequences.

(** C33: A writing stream is a queue in front of its file: after any sequence of fwrite,
    fputs, fputc, fprintf (of which 1023 characters count) and fflush calls, buffered or not,
    and however the kernel cuts the writes, every call has returned its success value; the
    file's bytes and then the pending ones are the old ones followed by everything that was
    written, in the order of the calls; and a last flush leaves nothing pending. *)
Theorem stream_write_fifo std stack m ops f w :
  stack <> 0 -> Forall wop_ok ops -> writer f -> writable (kern w) (fd f) ->
  exists f1 w1 f2 w2,
    wrun std stack m ops f w = Some (f1, w1, result <$> ops) /\ fflush_stream f1 w1 = Some (f2, w2, 0) /\
    (sent (kern w1) (fd f) ++ pending f1 = sent (kern w) (fd f) ++ pending f ++ concat (accepted <$> ops)) /\
    sent (kern w2) (fd f) = sent (kern w) (fd f) ++ pending f ++ concat (accepted <$> ops) /\ pending f2 = [] /\
    (forall d, d <> fd f -> sent (kern w2) d = sent (kern w) d).
Proof.
  intros Hs Ho W Hw. destruct (wrun_ok std stack m ops f w Hs Ho W Hw) as (f1 & w1 & E1 & A1). pose proof (appended_writable _ _ _ _ _ _ A1 Hw) as Hw1.
  pose proof (proj1 (ap_fd _ _ _ _ _ A1)) as Efd. destruct (flush_ok f1 w1 (ap_writer _ _ _ _ _ A1)) as (f2 & w2 & E2 & A2 & P2); [by rewrite Efd|].
  exists f1, w1, f2, w2. split; [done|]. split; [done|].
  destruct (ap_wrote _ _ _ _ _ A1) as (o1 & W1 & H1). specialize (H1 Hw). split; [by rewrite (wr_sent _ _ _ _ W1), <- app_assoc, H1|].
  destruct (ap_wrote _ _ _ _ _ (appended_trans _ _ _ _ _ _ _ _ A1 A2)) as (o2 & W2 & H2). specialize (H2 Hw). rewrite P2, !app_nil_r in H2.
  split; [by rewrite (wr_sent _ _ _ _ W2), H2|]. split; [done|]. exact (wr_other _ _ _ _ W2).
Qed.

Inductive rop := RRead (size nmemb : Z) | RGetc.

Definition rop_ok (op : rop) : Prop := match op with RRead s n => 0 < s /\ 0 < n /\ s * n < 2 ^ 64 | RGetc => True end.
Definition wanted (op : rop) : Z := match op with RRead s n => s * n | RGetc => 1 end.

(** The bytes the caller gets. *)
Definition rstep (op : rop) f w : option (FILE * @io K * list Z) :=
  match op with
  | RRead s n => '(f, w, l, _) ← fread s n f w; Some (f, w, l)
  | RGetc => '(f, w, r) ← fgetc f w; Some (f, w, if r =? EOF then [] else [r])
  end.

Fixpoint rrun (ops : list rop) f w : option (FILE * @io K * list Z) :=
  match ops with
  | [] => Some (f, w, [])
  | op :: ops => '(f, w, l) ← rstep op f w; '(f, w, l') ← rrun ops f w; Some (f, w, l ++ l')
  end.

Lemma u8_idem c : u8 (u8 c) = u8 c.
Proof. apply wrap_small, wrap_range. lia. Qed.

Lemma rstep_ok op f w : rop_ok op -> reader f ->
  exists f' w' l l', rstep op f w = Some (f', w', l') /\ u8 <$> l' = u8 <$> l /\ delivered f w l f' w' /\ len l <= wanted op /\
    (len l < wanted op -> stopped f' w').
Proof.
  intros Ho R. destruct op as [s n|]; cbn [rop_ok rstep wanted] in *.
  - destruct Ho as (H1 & H2 & H3). destruct (fread_ok s n f w R H1 H2 H3) as (f' & w' & l & -> & D & Hl). cbn [mbind option_bind]. by exists f', w', l, l.
  - destruct (fgetc_ok f w R) as (f' & w' & r & l & -> & D & [(-> & -> & S) | (c & -> & ->)]); cbn [mbind option_bind].
    + exists f', w', [], []. split; [done|]. split; [done|]. split; [done|]. split; [by vm_compute|done].
    + exists f', w', [c], [u8 c]. pose proof (wrap_range 8 c ltac:(lia)). rewrite (proj2 (Z.eqb_neq (u8 c) EOF)) by (unfold EOF; lia). split; [done|].
      split; [cbn; by rewrite u8_idem|]. split; [done|]. by split.
Qed.

(** A stream that has stopped stays so. *)
Lemma stopped_stays f w l f' w' : stopped f w -> delivered f w l f' w' -> stopped f' w'.
Proof.
  intros [S | (S & Hu & Hi)] D; [left; by apply D|right]. split; [by apply D|]. pose proof (dl_bytes _ _ _ _ _ D) as B. rewrite Hu, Hi in B.
  symmetry in B. apply app_eq_nil in B as [_ [B1 B2]%app_eq_nil]. by rewrite (proj1 (dl_fd _ _ _ _ _ D)).
Qed.

Definition requested (ops : list rop) : Z := foldr (fun op n => wanted op + n) 0 ops.

Lemma rrun_ok ops f w : Forall rop_ok ops -> reader f ->
  exists f' w' l l', rrun ops f w = Some (f', w', l') /\ u8 <$> l' = u8 <$> l /\ delivered f w l f' w' /\ len l <= requested ops /\
    (len l < requested ops -> stopped f' w').
Proof.
  intros Ho. revert f w. induction Ho as [|op ops Hop Ho IH]; intros f w R.
  { exists f, w, [], []. split; [done|]. split; [done|]. split; [by apply delivered_refl|]. split; [by vm_compute|]. intros Hc. by vm_compute in Hc. }
  destruct (rstep_ok op f w Hop R) as (f1 & w1 & l1 & l1' & E1 & M1 & D1 & H1 & S1).
  destruct (IH f1 w1 (dl_reader _ _ _ _ _ D1)) as (f2 & w2 & l2 & l2' & E2 & M2 & D2 & H2 & S2).
  exists f2, w2, (l1 ++ l2), (l1' ++ l2'). cbn [rrun requested foldr]. rewrite E1. cbn [mbind option_bind]. rewrite E2. split; [done|].
  split; [by rewrite !fmap_app, M1, M2|]. split; [exact (delivered_trans _ _ _ _ _ _ _ _ D1 D2)|]. fold (requested ops). rewrite len_app. split; [lia|].
  intros Hlt. destruct (Z.ltb_spec (len l1) (wanted op)); [|apply S2; lia]. eapply stopped_stays; [by apply S1|exact D2].
Qed.

(** C34: A reading stream is a queue behind its file: any sequence of fread and fgetc calls,
    buffered or not, and however the kernel cuts the reads, hands out exactly the next bytes of
    the file, in order, none lost and none twice; and when it hands out fewer than were asked
    for, the error flag is set, or the end-of-file flag is and nothing is left. *)
Theorem stream_read_fifo ops f w :
  Forall rop_ok ops -> reader f ->
  exists f' w' l, rrun ops f w = Some (f', w', l) /\
    u8 <$> (unread f ++ input (kern w) (fd f)) = (u8 <$> l) ++ (u8 <$> (unread f' ++ input (kern w') (fd f))) /\
    len l <= requested ops /\
    (len l < requested ops -> ferror f' = 1 \/ feof f' = 1 /\ unread f' = [] /\ input (kern w') (fd f) = []).
Proof.
  intros Ho R. destruct (rrun_ok ops f w Ho R) as (f' & w' & l & l' & E & M & D & Hl & S). exists f', w', l'. split; [done|].
  assert (El : len l' = len l) by (apply (f_equal length) in M; rewrite !length_fmap in M; unfold len; lia). rewrite El.
  split; [by rewrite (dl_bytes _ _ _ _ _ D), fmap_app, M|]. split; [done|]. intros Hlt. unfold feof, ferror.
  destruct (S Hlt) as [-> | (-> & Hu & Hi)]; [by left|right]. rewrite (proj1 (dl_fd _ _ _ _ _ D)) in Hi. by split.
Qed.
End proofs.

(** ** Examples *)

(** A kernel that takes at most three bytes and gives at most two at a time. *)
Record slow_kernel := mkSlow { slow_sent : Z -> list Z; slow_input : Z -> list Z }.

Definition slow_write (k : slow_kernel) (d : Z) (bytes : list Z) : slow_kernel * Z :=
  (mkSlow (fun e => if e =? d then slow_sent k e ++ take 3 bytes else slow_sent k e) (slow_input k), len (take 3 bytes)).
Definition slow_read (k : slow_kernel) (d n : Z) : slow_kernel * Z * list Z :=
  let bytes := take (Z.to_nat (Z.min 2 n)) (slow_input k d) in
  (mkSlow (slow_sent k) (fun e => if e =? d then drop (Z.to_nat (Z.min 2 n)) (slow_input k e) else slow_input k e), len bytes, bytes).

#[export] Instance slow : Kernel slow_kernel.
Proof.
  refine {| sys_write := slow_write; sys_read := slow_read; sys_open k _ _ := (k, 3); sys_close k _ := (k, 0);
    sent := slow_sent; input := slow_input; writable _ _ := True |}.
  - intros k d bytes Hb. cbn. split; [unfold len; rewrite length_take; lia|]. split.
    { rewrite Z.eqb_refl. f_equal. unfold len. rewrite Nat2Z.id, length_take, <- take_take. by rewrite (take_ge bytes (length bytes)). }
    split; [intros e He; by rewrite (proj2 (Z.eqb_neq e d))|]. split; [done|]. split; [|done]. intros _. destruct bytes; [done|]. cbn [take]. rewrite len_cons. pose proof (len_nonneg (take 2 bytes)). lia.
  - intros k d n Hn. cbn. split; [unfold len; rewrite length_take; lia|]. split; [unfold len; lia|]. split; [by rewrite Z.eqb_refl, take_drop|].
    split; [|split; [intros e He; by rewrite (proj2 (Z.eqb_neq e d))|done]]. intros E. destruct (slow_input k d); [done|].
    replace (Z.to_nat (Z.min 2 n)) with (S (Z.to_nat (Z.min 2 n - 1))) in E by lia. cbn [take] in E. rewrite len_cons in E. pose proof (len_nonneg (take (Z.to_nat (Z.min 2 n - 1)) l)). lia.
Defined.

Definition demo_world : io := mkIo (mkSlow (fun _ => [7]) (fun _ => [104; 101; 108; 108; 111])) 0.
Definition demo_writer : FILE := mkFILE 3 (Z.lor IO_WRITE IO_BUF_OWNER) (Some (replicate 4 0)) 4 0 0.
Definition demo_reader : FILE := mkFILE 3 (Z.lor IO_READ IO_BUF_OWNER) (Some (replicate 4 0)) 4 0 0.
Definition demo_writes : list wop := [WWrite [1; 2; 3]; WPutc 260; WPrintf [120; 37; 100] [VInt 42]; WFlush; WPuts [65; 66]].
Definition demo_reads : list rop := [RGetc; RRead 1 3; RGetc; RGetc].

Lemma stream_write_fifo_witness : exists f1 w1 f2 w2,
  wrun false 4096 (fun _ => 0) demo_writes demo_writer demo_world = Some (f1, w1, [3; 4; 3; 0; 2]) /\ fflush_stream f1 w1 = Some (f2, w2, 0) /\
  sent (kern w2) 3 = [7; 1; 2; 3; 4; 120; 52; 50; 65; 66].
Proof.
  destruct (stream_write_fifo false 4096 (fun _ => 0) demo_writes demo_writer demo_world) as (f1 & w1 & f2 & w2 & E1 & E2 & _ & E3 & _).
  - discriminate.
  - repeat constructor.
    all: first [exact I | by eexists | by vm_compute].
  - split; [reflexivity| |intros _ _; reflexivity]. intros b [= <-]. vm_compute. by intuition congruence.
  - exact I.
  - exists f1, w1, f2, w2. split; [exact E1|]. split; [exact E2|]. etransitivity; [exact E3|]. vm_compute. reflexivity.
Defined.

Lemma stream_read_fifo_witness : exists f' w', rrun demo_reads demo_reader demo_world = Some (f', w', [104; 101; 108; 108; 111]) /\ feof f' = 1.
Proof.
  destruct (stream_read_fifo demo_reads demo_reader demo_world) as (f' & w' & l & E & Hl & _ & Hs).
  - repeat constructor; lia.
  - split; [reflexivity|]. intros b [= <-]. vm_compute. by intuition congruence.
  - assert (El : l = [104; 101; 108; 108; 111]).
    { assert (E' := E). vm_compute in E'. by injection E' as _ _ <-. }
    subst l. exists f', w'. split; [exact E|]. destruct Hs as [He | [He _]]; [reflexivity| |exact He].
    assert (E' := E). vm_compute in E'. injection E' as <- _. discriminate He.
Defined.
