(* ===== verification/UserPage.v ===== *)
(** * Mapping a fresh page

    What the callers of [vmm_map_page] and of the loader's user_map_page share: a
    page just allocated and filled is put into a slot of the user part of an
    address space. *)

From S2P Require Import Prelude Pmm PageAlloc Vmm Signals PageFault.

(** The contents of a zeroed page. *)
Definition zeros : Z -> Z := fun _ => 0.

Section proofs.
Context {A : Type} `{PageAllocator A}.
Implicit Types (s : vm A).

(** The flags of a user page. *)
Definition user_flags (f : Z) : Prop :=
  0 <= f < 2 ^ 64 /\ Z.land f PTE_PHYS_MASK = 0 /\ has f PAGE_HUGE = false /\ has f PAGE_USER = true.

Definition leaf_at (m : Z -> Z) (root v : Z) : option Z := uleaf m root (path1 v) (idx 0 v).
Definition huge_above (m : Z -> Z) (root v : Z) : bool := huge_at m root (idx 2 v) (path3 v).

(** The page is mapped by an entry without the large-page bit. *)
Definition small_at (m : Z -> Z) (root v : Z) : bool :=
  match tab m root (path1 v) with Some t => negb (has (m (slot t (idx 0 v))) PAGE_HUGE) | None => false end.

Lemma leaf_at_page m root v w : v / 4096 = w / 4096 -> leaf_at m root v = leaf_at m root w.
Proof. intros E. unfold leaf_at. by rewrite (path1_page v w E), (idx_page 0 v w) by (lia || done). Qed.

Lemma leaf_path v : pt_path (path1 v) (idx 0 v).
Proof. split; [apply path1_ok|split; [done|apply idx_ok]]. Qed.

Lemma set_leaf_write root s v pt p flags :
  tab (pm s) root (path1 v) = Some pt -> leaf_at (pm s) root v = None ->
  set_leaf s (slot pt (idx 0 v)) p flags = write s (slot pt (idx 0 v)) (Z.lor (Z.lor p flags) PAGE_PRESENT).
Proof.
  intros Hpt Hn. unfold leaf_at, uleaf in Hn. rewrite Hpt in Hn. cbn [mbind option_bind] in Hn. unfold set_leaf.
  destruct (_ && (_ =? _)); [done|]. destruct (has _ PAGE_PRESENT && has _ PAGE_USER); [discriminate Hn|]. done.
Qed.

(** Setting the entry of a page that no user entry maps yet. *)
Lemma set_leaf_new root s v pt p flags :
  vm_ok s root -> tab (pm s) root (path1 v) = Some pt -> may_map root s v p flags -> leaf_at (pm s) root v = None ->
  has flags PAGE_USER = true ->
  let s' := set_leaf s (slot pt (idx 0 v)) p flags in
  pa s' = pa s /\ (forall Q, path_ok Q -> tab (pm s') root Q = tab (pm s) root Q) /\
  (forall Q i, path_ok (i :: Q) -> huge_at (pm s') root i Q = huge_at (pm s) root i Q) /\
  (forall Q k, pt_path Q k -> (Q, k) <> (path1 v, idx 0 v) -> uleaf (pm s') root Q k = uleaf (pm s) root Q k) /\
  leaf_at (pm s') root v = Some p /\ small_at (pm s') root v = true /\
  (forall w, (path1 w, idx 0 w) <> (path1 v, idx 0 v) -> small_at (pm s) root w = true -> small_at (pm s') root w = true).
Proof.
  intros Hs Hpt (Hp & Hf & Hm & Hh & _) Hn Hu. cbv zeta.
  destruct (leaf_entry_view p flags Hp Hf Hm Hh) as (Hw & Hv & Hue). set (entry := Z.lor (Z.lor p flags) PAGE_PRESENT) in *.
  rewrite (set_leaf_write root s v pt p flags Hpt Hn). fold entry. unfold write, set_pm.
  cbn [pa pm]. split; [done|].
  pose proof (leaf_tab root s v pt Hs Hpt (pa s) entry) as HT. cbn [pm] in HT. split; [exact HT|]. split; [|split; [|split; [|split]]].
  - intros Q i HQ. destruct (path_ok_cons _ _ HQ) as (HQ' & Hi & Hl). unfold huge_at. rewrite (HT Q HQ').
    destruct (tab (pm s) root Q) as [t|] eqn:Et; [|done].
    pose proof (leaf_slot root s v pt Hs Hpt (pa s) entry Q t i HQ' Hi Et) as E. cbn [pm] in E.
    rewrite E; [done|]. intros [= -> _]. simpl in Hl. lia.
  - exact (leaf_uleaf root s v pt Hs Hpt (pa s) entry).
  - unfold leaf_at. pose proof (leaf_uleaf_here root s v pt Hs Hpt (pa s) entry) as E. cbn [pm] in E. rewrite E.
    destruct (view_inv entry (Z.lor p 1)) as (Ep & _ & Ef); [rewrite Hv; symmetry; apply view_table; [done|by repeat split]|].
    rewrite Hue, Hu, Ep, Ef, !has_lor, (page_frame p 1) by done. by rewrite orb_true_r.
  - unfold small_at. rewrite (HT _ (path1_ok v)), Hpt. unfold mset. rewrite Z.eqb_refl. by injection Hv as _ -> _.
  - intros w Hne. unfold small_at. rewrite (HT _ (path1_ok w)). destruct (tab (pm s) root (path1 w)) as [t|] eqn:Et; [|done].
    pose proof (leaf_slot root s v pt Hs Hpt (pa s) entry (path1 w) t (idx 0 w) (path1_ok w) (idx_ok 0 w) Et Hne) as E. cbn [pm] in E.
    by rewrite E.
Qed.

(** What mapping a new page with contents [c] at [v] does; [None] when only
    tables were built. *)
Record extends (c : Z -> Z) (root : Z) s s' (v : Z) (o : option Z) : Prop := {
  ex_ok : vm_ok s' root;
  ex_leaf : leaf_at (pm s') root v = o;
  ex_page : forall p, o = Some p -> ~ in_use (pa s) p /\ data_page root s' p /\
    (forall x, in_page p x = true -> pm s' x = c (x - p)) /\
    (forall w, w / 4096 = v / 4096 -> vmm_get_phys s' root w = p + w mod 4096) /\ small_at (pm s') root v = true /\ p <> 0;
  ex_small : forall w, (path1 w, idx 0 w) <> (path1 v, idx 0 v) -> small_at (pm s) root w = true -> small_at (pm s') root w = true;
  ex_none : o = None -> forall w, vmm_get_phys s' root w = vmm_get_phys s root w;
  ex_other : forall w, 0 <= w < 2 ^ 48 -> w / 4096 <> v / 4096 -> vmm_get_phys s' root w = vmm_get_phys s root w;
  ex_uleaf : forall Q k, pt_path Q k -> (Q, k) <> (path1 v, idx 0 v) -> uleaf (pm s') root Q k = uleaf (pm s) root Q k;
  ex_huge : forall w, huge_above (pm s') root w = true -> huge_above (pm s) root w = true;
  ex_use : forall q, is_page q -> in_use (pa s) q -> in_use (pa s') q;
  ex_data : forall q, data_page root s q -> data_page root s' q;
  ex_mem : forall q x, data_page root s q -> in_page q x = true -> pm s' x = pm s x;
}.

Lemma path3_huge v : path_ok (idx 2 v :: path3 v).
Proof. by destruct (path_ok_cons _ _ (path1_ok v)). Qed.

Lemma small_kept root s s' w : tables_kept root s s' -> small_at (pm s) root w = true -> small_at (pm s') root w = true.
Proof.
  intros K. unfold small_at. destruct (tab (pm s) root (path1 w)) as [t|] eqn:Et; [|done].
  rewrite (tk_tab _ _ _ K _ _ (path1_ok w) Et). by rewrite (tk_entry _ _ _ K _ _ _ (leaf_path w) Et).
Qed.

Lemma tables_extend c root s s' v : tables_kept root s s' -> leaf_at (pm s) root v = None -> extends c root s s' v None.
Proof.
  intros K Hn. pose proof K as [O P U T N L G M E]. constructor; try done.
  - unfold leaf_at. by rewrite (L _ _ (leaf_path v)).
  - intros w _. by apply (small_kept root s).
  - intros _ w. by rewrite !get_phys_tab.
  - intros w _ _. by rewrite !get_phys_tab.
  - intros Q k HQ _. by apply L.
  - intros w. apply G, path3_huge.
  - intros q. by apply data_page_kept.
Qed.


(** The walk has found the table [pt], [s2]; the entry of a fresh page is set in it. *)
Lemma place_spec c root s a m p v f s2 pt :
  vm_ok s root -> 0 <= v < 2 ^ 48 -> allocator_ok a -> (forall q, is_page q -> in_use (pa s) q -> in_use a q) ->
  is_page p -> p <> 0 -> ~ in_use (pa s) p -> in_use a p ->
  (forall x, in_page p x = false -> m x = pm s x) -> (forall x, 0 <= m x < 2 ^ 64) ->
  (forall x, in_page p x = true -> m x = c (x - p)) ->
  user_flags f -> leaf_at (pm s) root v = None ->
  tables_kept root (mkVm a m) s2 -> tab (pm s2) root (path1 v) = Some pt ->
  extends c root s (set_leaf s2 (slot pt (idx 0 v)) p f) v (Some p) /\ pa (set_leaf s2 (slot pt (idx 0 v)) p f) = pa s2.
Proof.
  intros Hs Hv Ha1 Hmono Hpp Hp0 Hfr Huse Hout Hword Hc (Hf & Hm & Hh & Hu) Hn K2 T.
  destruct (fresh_page_kept root s a p m Hs Ha1 Hmono Hpp Hfr Hout Hword) as [K HT].
  pose proof (data_page_fresh root s a p _ HT Hs Hpp Hfr Huse) as Hd. set (s1 := mkVm a m) in *.
  assert (Hmm : may_map root s1 v p f).
  { split; [done|]. do 3 (split; [done|]). intros _. destruct Hd as (_ & Hu1 & Hnt). split; [done|]. split; [done|].
    intros Q k HQ Hl. exfalso. rewrite (tk_user _ _ _ K Q k HQ) in Hl. by apply Hfr, (vo_user s root Hs Q k). }
  pose proof (tables_kept_trans root s s1 s2 Hs K K2) as K12.
  pose proof (may_map_kept root s1 s2 v p f K2 Hmm) as Hmm2. pose proof (tk_ok _ _ _ K2) as O2.
  pose proof (data_page_kept root s1 s2 p K2 Hd) as Hd2.
  assert (Hn2 : leaf_at (pm s2) root v = None) by (unfold leaf_at; by rewrite (tk_user _ _ _ K12 _ _ (leaf_path v))).
  destruct (set_leaf_spec root s2 v pt p f O2 T Hmm2) as (O3 & P3 & Q3 & M3).
  destruct (set_leaf_new root s2 v pt p f O2 T Hmm2 Hn2 Hu) as (Ea & HT3 & Hh3 & Hu3 & Hl3 & Hsm & Hsmo).
  set (s3 := set_leaf s2 (slot pt (idx 0 v)) p f) in *.
  assert (Hkeep : forall q, data_page root s2 q -> data_page root s3 q).
  { intros q (Hq & Hq2 & Hq3). split; [done|]. split; [by rewrite Ea|]. intros Q HQ. rewrite (HT3 Q HQ). by apply Hq3. }
  split; [|done]. constructor; [done|done| | |done| | | | | |].
  - intros q [= <-]. split; [done|]. split; [by apply Hkeep|]. split; [|split; [|done]].
    + intros x Hx. rewrite (M3 p x Hd2 Hx), (tk_mem _ _ _ K2 p x Hd Hx). by apply Hc.
    + intros w E. rewrite get_phys_tab. by apply P3.
  - intros w Hne Hw. apply Hsmo; [done|]. by apply (small_kept root s).
  - intros w Hw Hne. rewrite !get_phys_tab, Q3 by (by apply other_page). apply K12.
  - intros Q k HQ Hne. rewrite (Hu3 Q k HQ Hne). by apply (tk_user _ _ _ K12).
  - intros w. unfold huge_above. rewrite (Hh3 _ _ (path3_huge w)). apply (tk_huge _ _ _ K12), path3_huge.
  - intros q Hq Hi. rewrite Ea. by apply (tk_use _ _ _ K12).
  - intros q Hq. apply Hkeep. by apply (data_page_kept root s).
  - intros q x Hq Hx. rewrite (M3 q x); [by apply (tk_mem _ _ _ K12 q)|by apply (data_page_kept root s)|done].
Qed.

(** The same for the whole of [vmm_map_page]. *)
Lemma place_map_page c root s a m p v f :
  vm_ok s root -> 0 <= v < 2 ^ 48 -> allocator_ok a -> (forall q, is_page q -> in_use (pa s) q -> in_use a q) ->
  is_page p -> p <> 0 -> ~ in_use (pa s) p -> in_use a p ->
  (forall x, in_page p x = false -> m x = pm s x) -> (forall x, 0 <= m x < 2 ^ 64) ->
  (forall x, in_page p x = true -> m x = c (x - p)) ->
  user_flags f -> leaf_at (pm s) root v = None ->
  exists o, extends c root s (vmm_map_page (mkVm a m) root v p f) v o /\ (o = None \/ o = Some p) /\
    (4 <= avail a -> huge_above (pm s) root v = false ->
     o <> None /\ avail a - 4 <= avail (pa (vmm_map_page (mkVm a m) root v p f))).
Proof.
  intros Hs Hv Ha1 Hmono Hpp Hp0 Hfr Huse Hout Hword Hc Hf Hn.
  destruct (fresh_page_kept root s a p m Hs Ha1 Hmono Hpp Hfr Hout Hword) as [K _]. set (s1 := mkVm a m) in *.
  rewrite map_page_walk. pose proof Hf as (_ & _ & _ & Hu). rewrite Hu. cbv zeta.
  set (tf := Z.lor (Z.lor PAGE_PRESENT PAGE_WRITABLE) PAGE_USER).
  assert (Htf : table_flags_ok tf) by by repeat split.
  pose proof (map_walk_spec root s1 v true tf (tk_ok _ _ _ K) Htf) as W.
  assert (Hg : huge_above (pm s) root v = false -> huge_above (pm s1) root v = false).
  { intros Hg. apply not_true_iff_false. intros Hh1. apply (tk_huge _ _ _ K) in Hh1; [|apply path3_huge].
    unfold huge_above in Hg. by rewrite Hg in Hh1. }
  destruct (map_walk s1 root v true tf) as [s2 [pt|]]; destruct W as [K2 T Hsome Wa]; cbn [fst snd] in *.
  - destruct (place_spec c root s a m p v f s2 pt) as [E Ea]; [done..|by apply T|].
    exists (Some p). split; [exact E|]. split; [by right|]. intros Ha _. split; [done|]. rewrite Ea. by apply Wa.
  - exists None. split; [apply tables_extend; [exact (tables_kept_trans root s s1 s2 Hs K K2)|done]|]. split; [by left|].
    intros Ha Hg0. destruct Hsome; [|by apply Hg|done]. simpl. lia.
Qed.
(** ** Many pages *)

(** The user pages an address space has got since [s0]: by page number, their contents. *)
Definition pagemap : Type := Z -> option (Z -> Z).
Definition no_pages : pagemap := fun _ => None.
Definition add_page (F : pagemap) (n : Z) (c : Z -> Z) : pagemap := fun k => if k =? n then Some c else F k.
Definition page_no (n : Z) : Prop := 0 <= n < 2 ^ 36.

(** Page [n] is mapped to a page with contents [c] that was free in [s0] and is no table. *)
Definition page_holds root s0 s (n : Z) (c : Z -> Z) : Prop :=
  exists p, leaf_at (pm s) root (n * 4096) = Some p /\ ~ in_use (pa s0) p /\ data_page root s p /\
    (forall x, in_page p x = true -> pm s x = c (x - p)) /\
    (forall w, w / 4096 = n -> vmm_get_phys s root w = p + w mod 4096).

Record pages_hold root s0 s (F : pagemap) : Prop := {
  ph_ok : vm_ok s root;
  ph_page : forall n c, page_no n -> F n = Some c -> page_holds root s0 s n c;
  ph_none : forall n, page_no n -> F n = None -> leaf_at (pm s) root (n * 4096) = leaf_at (pm s0) root (n * 4096) /\
    forall w, w / 4096 = n -> vmm_get_phys s root w = vmm_get_phys s0 root w;
  ph_huge : forall w, huge_above (pm s) root w = true -> huge_above (pm s0) root w = true;
  ph_use : forall q, is_page q -> in_use (pa s0) q -> in_use (pa s) q;
  ph_data : forall q, data_page root s0 q -> data_page root s q;
  ph_mem : forall q x, data_page root s0 q -> in_page q x = true -> pm s x = pm s0 x;
}.

Lemma pages_hold_start root s : vm_ok s root -> pages_hold root s s no_pages.
Proof. by constructor. Qed.

Lemma page_addr n w : page_no n -> w / 4096 = n -> 0 <= w < 2 ^ 48.
Proof. unfold page_no. change (2 ^ 48) with (2 ^ 36 * 4096). intros. zlia. Qed.

Lemma page_div n : n * 4096 / 4096 = n.
Proof. by rewrite Z.div_mul. Qed.

Definition extend_map (F : pagemap) (n : Z) (c : Z -> Z) (o : option Z) : pagemap :=
  if o then add_page F n c else F.

Lemma pages_hold_step root s0 s s' F n c o :
  pages_hold root s0 s F -> page_no n -> F n = None -> extends c root s s' (n * 4096) o ->
  leaf_at (pm s0) root (n * 4096) = None ->
  pages_hold root s0 s' (extend_map F n c o).
Proof.
  intros [O P N G U D M] Hn Fn E H0.
  assert (Hother : forall k, page_no k -> k <> n ->
    leaf_at (pm s') root (k * 4096) = leaf_at (pm s) root (k * 4096) /\
    forall w, w / 4096 = k -> vmm_get_phys s' root w = vmm_get_phys s root w).
  { intros k Hk Hne. split.
    - apply (ex_uleaf _ _ _ _ _ _ E); [apply leaf_path|]. apply other_page; rewrite ?page_div; [by apply (page_addr n), page_div|by apply (page_addr k), page_div|done].
    - intros w Hw. apply (ex_other _ _ _ _ _ _ E); [by apply (page_addr k)|rewrite page_div; congruence]. }
  assert (Hold : forall k d, page_no k -> k <> n -> F k = Some d -> page_holds root s0 s' k d).
  { intros k d Hk Hne Fk. destruct (P k d Hk Fk) as (p & Hl & Hf & Hd & Hc & Hp). destruct (Hother k Hk Hne) as [Hl' Hp'].
    exists p. split_and!; [by rewrite Hl'|done|by apply (ex_data _ _ _ _ _ _ E)| |].
    - intros x Hx. rewrite (ex_mem _ _ _ _ _ _ E p) by done. by apply Hc.
    - intros w Hw. rewrite Hp' by done. by apply Hp. }
  assert (Hnone : forall k, page_no k -> k <> n -> F k = None -> leaf_at (pm s') root (k * 4096) = leaf_at (pm s0) root (k * 4096) /\
    forall w, w / 4096 = k -> vmm_get_phys s' root w = vmm_get_phys s0 root w).
  { intros k Hk Hne Fk. destruct (N k Hk Fk) as [Hl Hp]. destruct (Hother k Hk Hne) as [Hl' Hp'].
    split; [congruence|]. intros w Hw. rewrite Hp' by done. by apply Hp. }
  constructor.
  - apply E.
  - intros k d Hk. destruct o as [p|]; cbn [extend_map].
    + unfold add_page. destruct (Z.eqb_spec k n) as [->|Hne]; [|by apply Hold]. intros [= <-].
      destruct (ex_page _ _ _ _ _ _ E p eq_refl) as (Hf & Hd & Hc & Hp & _). exists p. split_and!; [apply E| |done|done|].
      * intros Hu. by apply Hf, U; [apply Hd|].
      * intros w Hw. apply Hp. by rewrite page_div.
    + intros Fk. apply Hold; [done| |done]. intros ->. congruence.
  - intros k Hk. destruct (decide (k = n)) as [->|Hne].
    + destruct o as [p|]; cbn [extend_map]; [unfold add_page; by rewrite Z.eqb_refl|]. intros _. split; [rewrite H0; apply E|].
      intros w Hw. rewrite (ex_none _ _ _ _ _ _ E eq_refl). by apply (N n Hn Fn).
    + destruct o as [p|]; cbn [extend_map]; [unfold add_page; rewrite (proj2 (Z.eqb_neq k n)) by done|]; by apply Hnone.
  - intros w Hw. by apply G, (ex_huge _ _ _ _ _ _ E).
  - intros q Hq Hi. by apply (ex_use _ _ _ _ _ _ E), U.
  - intros q Hq. by apply (ex_data _ _ _ _ _ _ E), D.
  - intros q x Hq Hx. rewrite (ex_mem _ _ _ _ _ _ E q x); [by apply (M q)|by apply D|done].
Qed.

(** Pages allocated but not mapped change nothing. *)
Lemma pages_hold_alloc root s0 s F a :
  pages_hold root s0 s F -> allocator_ok a -> (forall q, is_page q -> in_use (pa s) q -> in_use a q) ->
  pages_hold root s0 (mkVm a (pm s)) F.
Proof.
  intros [O P N G U D M] Ha Hm. pose proof (alloc_only_kept root s a O Ha Hm) as K.
  assert (Hd : forall q, data_page root s q -> data_page root (mkVm a (pm s)) q) by (intros q; by apply data_page_kept).
  constructor; [apply K| | |done| | |done].
  - intros n c Hn Fn. destruct (P n c Hn Fn) as (p & Hl & Hf & Hp & Hc & Hw). exists p. split_and!; [done|done|by apply Hd|done|done].
  - intros n Hn Fn. destruct (N n Hn Fn). done.
  - intros q Hq Hi. by apply Hm, U.
  - intros q Hq. by apply Hd, D.
Qed.
End proofs.

(** Pages [n0 .. n0 + k - 1] with the contents [c]. *)
Definition add_range (F : pagemap) (n0 k : Z) (c : Z -> Z -> Z) : pagemap :=
  fun n => if (n0 <=? n) && (n <? n0 + k) then Some (c (n - n0)) else F n.

Lemma add_range_in F n0 k c n : n0 <= n < n0 + k -> add_range F n0 k c n = Some (c (n - n0)).
Proof. intros Hn. unfold add_range. by rewrite (proj2 (Z.leb_le _ _)), (proj2 (Z.ltb_lt _ _)) by lia. Qed.

Lemma add_range_out F n0 k c n : ~ n0 <= n < n0 + k -> add_range F n0 k c n = F n.
Proof. intros Hn. unfold add_range. destruct (Z.leb_spec n0 n), (Z.ltb_spec n (n0 + k)); done || lia. Qed.

Section ranges.
Context {A : Type} `{PageAllocator A}.
Implicit Types (s : vm A).

Lemma pages_hold_ext root s0 s F F' :
  (forall n, page_no n -> F n = F' n) -> pages_hold root s0 s F -> pages_hold root s0 s F'.
Proof.
  intros E [O P N G U D M]. constructor; try done.
  - intros n c Hn. rewrite <- E by done. by apply P.
  - intros n Hn. rewrite <- E by done. by apply N.
Qed.

(** Contents count by their words. *)
Lemma pages_hold_equiv root s0 s F F' :
  (forall n, page_no n -> option_Forall2 (fun c c' : Z -> Z => forall o, c o = c' o) (F n) (F' n)) ->
  pages_hold root s0 s F -> pages_hold root s0 s F'.
Proof.
  intros E [O P N G U D M]. constructor; try done.
  - intros n c' Hn Fn. specialize (E n Hn). rewrite Fn in E. inversion E as [c ? Hc Ec|]; subst.
    destruct (P n c Hn (eq_sym Ec)) as (p & H1 & H2 & H3 & H4 & H5). exists p. split_and!; try done.
    intros x Hx. rewrite <- Hc. by apply H4.
  - intros n Hn Fn. specialize (E n Hn). rewrite Fn in E. inversion E as [|Ec]. by apply N.
Qed.

Lemma add_range_0 root s0 s F n0 c : pages_hold root s0 s F -> pages_hold root s0 s (add_range F n0 0 c).
Proof. apply pages_hold_ext. intros n _. by rewrite add_range_out by lia. Qed.

Lemma add_range_snoc root s0 s F n0 k c :
  0 <= k -> pages_hold root s0 s (add_page (add_range F n0 k c) (n0 + k) (c k)) -> pages_hold root s0 s (add_range F n0 (k + 1) c).
Proof.
  intros Hk. apply pages_hold_ext. intros n _. unfold add_page. destruct (Z.eqb_spec n (n0 + k)) as [->|Hne].
  - rewrite add_range_in by lia. by rewrite Z.add_simpl_l.
  - destruct (decide (n0 <= n < n0 + k)); [rewrite !add_range_in by lia; done|]. by rewrite !add_range_out by lia.
Qed.

(** No page is mapped for the user yet, and none is below a 1 GB page. *)
Definition clean s root : Prop :=
  forall n, page_no n -> leaf_at (pm s) root (n * 4096) = None /\ huge_above (pm s) root (n * 4096) = false.

Definition fills (fill : Z -> Z -> Z) (c : Z -> Z) s : Prop :=
  forall p, is_page p -> (forall x, in_page p x = false -> fill p x = pm s x) /\ (forall x, 0 <= fill p x < 2 ^ 64) /\
    (forall x, in_page p x = true -> fill p x = c (x - p)).

Lemma zero_fills root s : vm_ok s root -> fills (zero_page (pm s)) zeros s.
Proof.
  intros Hs p Hp. split; [intros x; apply zero_page_out|]. split; [apply zero_page_word, Hs|].
  intros x Hx. unfold zero_page. by rewrite Hx.
Qed.
End ranges.
