(* ===== verification/UserSpace.v ===== *)
(** * Address spaces of programs: exec/elf.c

    A fresh address space is a private copy of the boot page tables;
    user_map_page puts user pages into it.  Pages are allocated by any
    [PageAllocator]; memory is that of [Vmm].  Switching CR3 and SMAP toggling have no
    effect on this state, since tables and pages are reached by their physical
    addresses. *)

From stdpp Require Import gmap.
From S2P Require Import Prelude Pmm PageAlloc Vmm Signals PageFault UserPage.

Definition no_user (e : Z) : Z := Z.land e (Z.lnot PAGE_USER).

Section space.
Context {A : Type} `{PageAllocator A}.
Implicit Types (s : vm A).

(** ** A fresh address space *)

(** The new page directory, or 0. *)
Definition deep_copy_pd s (boot_pd : Z) : vm A * Z :=
  let '(a, pd) := alloc_page (pa s) in
  let s := mkVm a (pm s) in
  if pd =? 0 then (s, 0)
  else (for_each (fun i s => write s (slot pd i) (no_user (pm s (slot boot_pd i)))) 512 0 s, pd).

Definition copy_pdpt_entry (boot_pdpt pdpt i : Z) s : vm A :=
  let e := pm s (slot boot_pdpt i) in
  if negb (has e PAGE_PRESENT) then write s (slot pdpt i) 0
  else if has e PAGE_HUGE then write s (slot pdpt i) (no_user e)
  else
    let '(s, new_pd) := deep_copy_pd s (frame_of e) in
    if new_pd =? 0 then write s (slot pdpt i) 0
    else
      let e := pm s (slot boot_pdpt i) in
      write s (slot pdpt i) (Z.lor (Z.lor new_pd (Z.land (no_user e) (Z.lnot PTE_PHYS_MASK))) PAGE_PRESENT).

Definition deep_copy_pdpt s (boot_pdpt : Z) : vm A * Z :=
  let '(a, pdpt) := alloc_page (pa s) in
  let s := mkVm a (pm s) in
  if pdpt =? 0 then (s, 0) else (for_each (copy_pdpt_entry boot_pdpt pdpt) 512 0 s, pdpt).

Definition copy_pml4_entry (boot_pml4 pml4 i : Z) s : vm A :=
  let e := pm s (slot boot_pml4 i) in
  if negb (has e PAGE_PRESENT) then s
  else
    let '(s, new_pdpt) := deep_copy_pdpt s (frame_of e) in
    if new_pdpt =? 0 then s
    else
      let e := pm s (slot boot_pml4 i) in
      write s (slot pml4 i) (Z.lor (Z.lor new_pdpt (Z.land (no_user e) (Z.lnot PTE_PHYS_MASK))) PAGE_PRESENT).

Definition create_user_address_space s (boot_pml4 : Z) : vm A * Z :=
  let '(a, pml4) := alloc_page (pa s) in
  let s := mkVm a (pm s) in
  if pml4 =? 0 then (s, 0)
  else (for_each (copy_pml4_entry boot_pml4 pml4) 4 0 (set_pm s (zero_page (pm s) pml4)), pml4).

(** ** Mapping a page for the user *)

(** The new page table, or 0. *)
Definition split_2mb_huge_page s (pd pd_idx old_pd_entry : Z) : vm A * Z :=
  let '(a, pt) := alloc_page (pa s) in
  if pt =? 0 then (mkVm a (pm s), 0)
  else
    let huge_base := Z.land old_pd_entry PTE_PHYS_MASK in
    let huge_flags := Z.land (Z.land old_pd_entry (Z.lnot PTE_PHYS_MASK)) (Z.lnot PAGE_HUGE) in
    let huge_flags := Z.land huge_flags (Z.lnot PAGE_USER) in
    let s := mkVm a (fill_pt (pm s) pt huge_base huge_flags) in
    let entry := Z.lor (Z.lor pt (Z.land (Z.land old_pd_entry (Z.lnot PAGE_HUGE)) (Z.lnot PTE_PHYS_MASK))) PAGE_PRESENT in
    (write s (slot pd pd_idx) entry, pt).

Definition user_map_page s (pml4 vaddr phys flags : Z) : vm A :=
  let pml4_idx := Z.land (Z.shiftr vaddr 39) 0x1FF in
  let pdpt_idx := Z.land (Z.shiftr vaddr 30) 0x1FF in
  let pd_idx := Z.land (Z.shiftr vaddr 21) 0x1FF in
  let pt_idx := Z.land (Z.shiftr vaddr 12) 0x1FF in
  let table_flags := Z.lor (Z.land flags (Z.lnot PAGE_NX)) PAGE_PRESENT in
  let is_user := has flags PAGE_USER in
  let leaf := Z.lor (Z.lor phys flags) PAGE_PRESENT in
  let '(s, ok) := map_table s (slot pml4 pml4_idx) is_user table_flags in
  if negb ok then s
  else
    let pdpt := frame_of (pm s (slot pml4 pml4_idx)) in
    let '(s, ok) := map_table s (slot pdpt pdpt_idx) is_user table_flags in
    if negb ok then s
    else if has (pm s (slot pdpt pdpt_idx)) PAGE_HUGE then s
    else
      let pd := frame_of (pm s (slot pdpt pdpt_idx)) in
      if has (pm s (slot pd pd_idx)) PAGE_HUGE then
        let '(s, pt) := split_2mb_huge_page s pd pd_idx (pm s (slot pd pd_idx)) in
        if pt =? 0 then s
        else
          let s := or_user s (slot pd pd_idx) is_user in
          write s (slot pt pt_idx) leaf
      else
        let '(s, ok) := map_table s (slot pd pd_idx) is_user table_flags in
        if negb ok then s
        else
          let pt := frame_of (pm s (slot pd pd_idx)) in
          write s (slot pt pt_idx) leaf.
End space.

(** ** [user_map_page] maps one page *)

Section map.
Context {A : Type} `{PageAllocator A}.
Implicit Types (s : vm A).

Lemma split_2mb_ok s root pd i u :
  vm_ok s root -> let e := slot pd i in
  match split_2mb_huge_page s pd i (pm s e) with
  | (s1, pt) =>
      split_huge s e u = (if pt =? 0 then s1 else or_user s1 e u, negb (pt =? 0)) /\
      (pt <> 0 -> frame_of (pm (or_user s1 e u) e) = pt)
  end.
Proof.
  intros Hs e. unfold split_2mb_huge_page, split_huge. fold e. pose proof (alloc_page_law (pa s) (vo_alloc _ _ Hs)) as L.
  destruct (alloc_page (pa s)) as [a pt]. destruct L as (_ & _ & _ & Hp & _). destruct (Z.eqb_spec pt 0) as [->|Hne]; cbn [negb]; [done|].
  rewrite (proj2 (Z.eqb_neq pt 0)) by done. split; [done|]. intros _. destruct Hp as [|(Hp & _)]; [done|].
  destruct (view_inv _ _ (or_user_view (write (mkVm a (fill_pt (pm s) pt (Z.land (pm s e) PTE_PHYS_MASK)
    (Z.land (Z.land (Z.land (pm s e) (Z.lnot PTE_PHYS_MASK)) (Z.lnot PAGE_HUGE)) (Z.lnot PAGE_USER)))) e
    (Z.lor (Z.lor pt (Z.land (Z.land (pm s e) (Z.lnot PAGE_HUGE)) (Z.lnot PTE_PHYS_MASK))) PAGE_PRESENT)) e u)) as (_ & _ & ->).
  cbn [write set_pm pm]. rewrite mset_same, <- Z.lor_assoc. apply page_frame; [done|].
  rewrite Z.land_lor_distr_l, <- Z.land_assoc. by rewrite Z.land_0_r.
Qed.

(** The part of [user_map_page] before the entry of the page is set. *)
Definition user_walk s (root v : Z) (u : bool) (tf : Z) : vm A * option Z :=
  match pd_walk s root v u tf with
  | (s, None) => (s, None)
  | (s, Some pd) =>
      if has (pm s (slot pd (idx 1 v))) PAGE_HUGE then
        let '(s, pt) := split_2mb_huge_page s pd (idx 1 v) (pm s (slot pd (idx 1 v))) in
        if pt =? 0 then (s, None) else (or_user s (slot pd (idx 1 v)) u, Some pt)
      else
        let '(s, ok) := map_table s (slot pd (idx 1 v)) u tf in
        if negb ok then (s, None) else (s, Some (frame_of (pm s (slot pd (idx 1 v)))))
  end.

Lemma user_map_walk s root v p f :
  user_map_page s root v p f =
    match user_walk s root v (has f PAGE_USER) (Z.lor (Z.land f (Z.lnot PAGE_NX)) PAGE_PRESENT) with
    | (s, Some pt) => write s (slot pt (idx 0 v)) (Z.lor (Z.lor p f) PAGE_PRESENT)
    | (s, None) => s
    end.
Proof.
  unfold user_map_page, user_walk, pd_walk. change (Z.land (Z.shiftr v 39) 0x1FF) with (idx 3 v).
  change (Z.land (Z.shiftr v 30) 0x1FF) with (idx 2 v). change (Z.land (Z.shiftr v 21) 0x1FF) with (idx 1 v).
  change (Z.land (Z.shiftr v 12) 0x1FF) with (idx 0 v). cbv zeta. by repeat case_match; simplify_eq/=.
Qed.

Lemma user_walk_spec root s v u tf :
  vm_ok s root -> table_flags_ok tf -> walk_ok root s v 3 3 (path1 v) (user_walk s root v u tf).
Proof.
  intros Hs Htf. unfold user_walk. pose proof (path1_ok v) as H1. destruct (path_ok_cons _ _ H1) as (H2 & _).
  pose proof (pd_walk_spec root s v u tf Hs Htf) as W. destruct (pd_walk s root v u tf) as [s2 [pd|]]; destruct W as [K2 T2 N2 A2]; cbn [fst snd] in *.
  2: { split; cbn [fst snd]; [done|done| |]; intros Ha; [apply N2|specialize (A2 ltac:(lia))]; lia. }
  specialize (T2 pd eq_refl). pose proof (tk_ok _ _ _ K2) as O2. set (e2 := slot pd (idx 1 v)).
  destruct (has (pm s2 e2) PAGE_HUGE) eqn:EH.
  - pose proof (split_huge_spec root s2 (path2 v) pd (idx 1 v) u O2 H1 eq_refl T2 EH) as M3. cbv zeta in M3.
    pose proof (split_2mb_ok s2 root pd (idx 1 v) u O2) as M. cbv zeta in M. fold e2 in M, M3.
    destruct (split_2mb_huge_page s2 pd (idx 1 v) (pm s2 e2)) as [s3 pt]. destruct M as [E Ef]. rewrite E in M3.
    destruct M3 as (K3 & A3 & E3). destruct (Z.eqb_spec pt 0) as [E0|Hne]; cbn [negb] in *;
      pose proof (tables_kept_trans root s s2 _ Hs K2 K3) as K13; (split; cbn [fst snd]; [done| | |]).
    + done.
    + intros Ha. specialize (A2 ltac:(lia)). by destruct (A3 ltac:(lia)).
    + intros Ha. specialize (A2 ltac:(lia)). by destruct (A3 ltac:(lia)).
    + intros t [= <-]. destruct (E3 eq_refl) as [P3 Hh3]. rewrite <- (Ef Hne).
      apply (tab_child _ root (idx 1 v) (path2 v) pd); [by apply (tk_tab _ _ _ K3)|done|by right].
    + done.
    + intros Ha. specialize (A2 ltac:(lia)). destruct (A3 ltac:(lia)). lia.
  - pose proof (map_table_spec root s2 (path2 v) pd (idx 1 v) u tf O2 H1 T2 Htf) as M4. cbv zeta in M4. fold e2 in M4.
    destruct (map_table s2 e2 u tf) as [s4 ok4]. destruct M4 as (K4 & A4 & E4).
    pose proof (tables_kept_trans root s s2 s4 Hs K2 K4) as K14. assert (3 <= avail (pa s) -> ok4 = true /\ avail (pa s) - 3 <= avail (pa s4)) as Hav.
    { intros Ha. specialize (A2 ltac:(lia)). destruct A4; [right; lia|]. split; [done|lia]. }
    destruct ok4; cbn [negb]; (split; cbn [fst snd]; [done| | |by apply Hav]); [|done|done|intros Ha; by destruct (Hav Ha)].
    intros pt [= <-]. destruct (E4 eq_refl) as [P4 Hh4]. rewrite EH, andb_false_r in Hh4.
    apply (tab_child (pm s4) root (idx 1 v) (path2 v) pd); [by apply (tk_tab _ _ _ K4)|done|by right].
Qed.
Lemma place_user_page c root s a m p v f :
  vm_ok s root -> 0 <= v < 2 ^ 48 -> allocator_ok a -> (forall q, is_page q -> in_use (pa s) q -> in_use a q) ->
  is_page p -> p <> 0 -> ~ in_use (pa s) p -> in_use a p ->
  (forall x, in_page p x = false -> m x = pm s x) -> (forall x, 0 <= m x < 2 ^ 64) ->
  (forall x, in_page p x = true -> m x = c (x - p)) ->
  user_flags f -> leaf_at (pm s) root v = None ->
  exists o, extends c root s (user_map_page (mkVm a m) root v p f) v o /\
    (3 <= avail a -> huge_above (pm s) root v = false ->
     o <> None /\ avail a - 3 <= avail (pa (user_map_page (mkVm a m) root v p f))).
Proof.
  intros Hs Hv Ha1 Hmono Hpp Hp0 Hfr Huse Hout Hword Hc Hf Hn.
  destruct (fresh_page_kept root s a p m Hs Ha1 Hmono Hpp Hfr Hout Hword) as [K _]. set (s1 := mkVm a m) in *.
  rewrite user_map_walk. pose proof Hf as (Hf1 & Hf2 & Hf3 & Hu). rewrite Hu.
  set (tf := Z.lor (Z.land f (Z.lnot PAGE_NX)) PAGE_PRESENT).
  assert (Htf : table_flags_ok tf).
  { unfold tf. split; [apply lor_word; [by apply land_word|unfold PAGE_PRESENT; lia]|]. rewrite !has_lor. split_and!.
    - rewrite Z.land_lor_distr_l, <- Z.land_assoc, (Z.land_comm (Z.lnot PAGE_NX)), Z.land_assoc, Hf2. done.
    - apply orb_true_r.
    - rewrite (has_land_id f) by done. by rewrite Hf3. }
  pose proof (user_walk_spec root s1 v true tf (tk_ok _ _ _ K) Htf) as W.
  assert (Hg : huge_above (pm s) root v = false -> huge_above (pm s1) root v = false).
  { intros Hg. apply not_true_iff_false. intros Hh1. apply (tk_huge _ _ _ K) in Hh1; [|apply path3_huge].
    unfold huge_above in Hg. by rewrite Hg in Hh1. }
  destruct (user_walk s1 root v true tf) as [s2 [pt|]]; destruct W as [K2 T Hsome Wa]; cbn [fst snd] in *;
    pose proof (tables_kept_trans root s s1 s2 Hs K K2) as K12.
  - destruct (place_spec c root s a m p v f s2 pt) as [E Ea]; [done..|by apply T|].
    rewrite (set_leaf_write root) in E by (by apply T || (unfold leaf_at; by rewrite (tk_user _ _ _ K12 _ _ (leaf_path v)))).
    exists (Some p). split; [exact E|]. intros Ha _. split; [done|]. by apply Wa.
  - exists None. split; [by apply tables_extend|]. intros Ha Hg0. destruct Hsome; [|by apply Hg|done]. simpl. lia.
Qed.
End map.

(** The entry of a 1 GB page is opened to the user before the call gives up. *)
Lemma user_map_page_opens_1gb {A} `{PageAllocator A} (s : vm A) root v p f :
  has f PAGE_USER = true -> huge_above (pm s) root v = true ->
  exists t, tab (pm s) root (path3 v) = Some t /\ has (pm (user_map_page s root v p f) (slot t (idx 2 v))) PAGE_USER = true.
Proof.
  intros Hu Hh. unfold huge_above, huge_at in Hh. destruct (tab (pm s) root (path3 v)) as [t|] eqn:Et; [|done]. exists t. split; [done|].
  apply andb_true_iff in Hh as [Hp Hh]. cbn [tab path3 mbind option_bind length] in Et. unfold child in Et.
  destruct (has (pm s (slot root (idx 3 v))) PAGE_PRESENT) eqn:P4; [|done]. injection Et as Et.
  rewrite user_map_walk, Hu. unfold user_walk, pd_walk, map_table. rewrite P4. cbn [negb].
  destruct (view_inv _ _ (or_user_view s (slot root (idx 3 v)) true)) as (_ & _ & ->). rewrite Et.
  set (s1 := or_user s (slot root (idx 3 v)) true).
  assert (Hv : view (pm s1 (slot t (idx 2 v))) = view (pm s (slot t (idx 2 v)))).
  { cbn [s1 or_user write set_pm pm]. unfold mset. destruct (Z.eqb_spec (slot t (idx 2 v)) (slot root (idx 3 v))) as [->|]; [apply view_or_user|done]. }
  destruct (view_inv _ _ Hv) as (E1 & E2 & _). rewrite E1, Hp. cbn [negb].
  destruct (view_inv _ _ (or_user_view s1 (slot t (idx 2 v)) true)) as (_ & -> & _). rewrite E2, Hh.
  cbn [or_user write set_pm pm]. rewrite mset_same, has_lor. apply orb_true_r.
Qed.

(** ** The copy of the boot tables

    [D] maps the path of each table copied so far to its page. *)

Section create.
Context {A : Type} `{PageAllocator A} (s0 : vm A) (B : Z) (ts : list (list Z)).
Implicit Types (s : vm A) (D : gmap (list Z) Z).
Hypothesis Hs : vm_ok s0 B.
Hypothesis Hts : forall P t, path_ok P -> (1 <= length P <= 2)%nat -> tab (pm s0) B P = Some t -> P ∈ ts.

Definition enough : Prop := 1 + len ts <= avail (pa s0).

(** An empty entry has nothing to copy, when there is memory enough, or is one of
    the entries of the PML4 from [n] on. *)
Definition gone (n : Z) (P : list Z) (k : Z) : Prop :=
  enough -> (P = [] /\ n <= k) \/ exists t, tab (pm s0) B P = Some t /\ has (pm s0 (slot t k)) PAGE_PRESENT = false.

Definition copied_entry (n : Z) D (P : list Z) (k e : Z) : Prop :=
  0 <= e < 2 ^ 64 /\
  match D !! (k :: P) with
  | Some d => view e = (true, false, d)
  | None => e = 0 /\ gone n P k \/
      P <> [] /\ child (length P) e = None /\ exists t, tab (pm s0) B P = Some t /\ e = no_user (pm s0 (slot t k))
  end.

(** The entries [dn] are done. *)
Record building (n : Z) (dn : list Z -> Z -> Prop) D s : Prop := {
  b_alloc : allocator_ok (pa s);
  b_mono : forall q, is_page q -> in_use (pa s0) q -> in_use (pa s) q;
  b_word : forall x, 0 <= pm s x < 2 ^ 64;
  b_new : forall P p, D !! P = Some p -> is_page p /\ ~ in_use (pa s0) p /\ in_use (pa s) p;
  b_src : forall P p, D !! P = Some p -> path_ok P /\ (P = [] \/ P ∈ ts) /\ exists t, tab (pm s0) B P = Some t;
  b_up : forall i P, is_Some (D !! (i :: P)) -> is_Some (D !! P);
  b_inj : forall P Q p, D !! P = Some p -> D !! Q = Some p -> P = Q;
  b_mem : forall x, (forall P p, D !! P = Some p -> in_page p x = false) -> pm s x = pm s0 x;
  b_entry : forall P t k, D !! P = Some t -> index_ok k -> dn P k -> copied_entry n D P k (pm s (slot t k));
  b_avail : enough -> avail (pa s0) - Z.of_nat (size D) <= avail (pa s);
}.

Lemma building_weaken n (dn dn' : list Z -> Z -> Prop) D s :
  (forall P k, is_Some (D !! P) -> index_ok k -> dn' P k -> dn P k) -> building n dn D s -> building n dn' D s.
Proof. intros Hd [? ? ? ? ? ? ? ? E ?]. constructor; try done. intros P t k HP Hk Hdn. apply E; [done..|by apply Hd]. Qed.

Lemma tables_size D : (forall P, is_Some (D !! P) -> P = [] \/ P ∈ ts) -> Z.of_nat (size D) <= 1 + len ts.
Proof.
  intros HD. assert (elements (dom D) ⊆+ [] :: ts) as Hsub.
  { apply NoDup_submseteq; [apply NoDup_elements|]. intros Q. rewrite elem_of_elements, elem_of_dom, elem_of_cons. apply HD. }
  apply submseteq_length in Hsub. change (length (elements (dom D))) with (size (dom D)) in Hsub. rewrite size_dom in Hsub.
  unfold len. cbn [length] in *. lia.
Qed.

Lemma building_size n dn D s P : building n dn D s -> D !! P = None -> P = [] \/ P ∈ ts -> Z.of_nat (size D) < 1 + len ts.
Proof.
  intros Hb HP Hin. pose proof (tables_size (<[P := 0]> D)) as Hs'. rewrite map_size_insert_None in Hs' by done.
  assert (Z.of_nat (S (size D)) <= 1 + len ts); [|lia]. apply Hs'. intros Q HQ. apply lookup_insert_is_Some in HQ.
  destruct HQ as [<-|[_ [q HQ]]]; [done|]. by apply (b_src _ _ _ _ Hb Q q).
Qed.

(** A page for the table at [P]. *)
Lemma building_alloc n dn D s P t :
  building n dn D s -> D !! P = None -> path_ok P -> P = [] \/ P ∈ ts -> tab (pm s0) B P = Some t ->
  (forall k, index_ok k -> ~ dn P k) -> (forall i up, P = i :: up -> is_Some (D !! up) /\ ~ dn up i) ->
  let '(a, p) := alloc_page (pa s) in
  if p =? 0 then ~ enough /\ building n dn D (mkVm a (pm s))
  else building n dn (<[P := p]> D) (mkVm a (pm s)).
Proof.
  intros Hb HP Hpo Hin Ht Hdn Hup. pose proof (building_size n dn D s P Hb HP Hin) as Hsz.
  destruct Hb as [Al Mo W N S U I M E Av]. pose proof (alloc_page_law (pa s) Al) as L. destruct (alloc_page (pa s)) as [a p].
  destruct L as (Ha & Hm & _ & Hp & Hav). destruct (Z.eqb_spec p 0) as [->|Hp0].
  - assert (~ enough) as Hne by (intros He; specialize (Av He); destruct Hav; [unfold enough in He; lia|done]).
    split; [done|]. constructor; try done.
    + intros q Hq Hi. by apply Hm, Mo.
    + intros Q q HQ. destruct (N Q q HQ) as (H1 & H2 & H3). split_and!; [done..|by apply Hm].
  - destruct Hp as [|(Hpp & _ & Hf & Hu & _)]; [done|].
    assert (Hf0 : ~ in_use (pa s0) p) by (intros Hi; by apply Hf, Mo).
    constructor; cbn [pa pm]; try done.
    + intros q Hq Hi. by apply Hm, Mo.
    + intros Q q [[<- <-]|[_ HQ]]%lookup_insert_Some; [done|]. destruct (N Q q HQ) as (H1 & H2 & H3). split_and!; [done..|by apply Hm].
    + intros Q q [[<- <-]|[_ HQ]]%lookup_insert_Some; [|by apply (S Q q)]. split_and!; [done|done|by exists t].
    + intros i Q [q [[-> _]|[_ HQ]]%lookup_insert_Some]; apply lookup_insert_is_Some'; right; [by destruct (Hup i Q eq_refl)|].
      apply (U i). by exists q.
    + intros Q R q [[<- <-]|[_ HQ]]%lookup_insert_Some [[<- E']|[_ HR]]%lookup_insert_Some; [done| | |by apply (I Q R q)].
      * exfalso. by apply Hf, (N R p).
      * exfalso. subst. by apply Hf, (N Q q).
    + intros x Hx. apply M. intros Q q HQ. apply (Hx Q). rewrite lookup_insert_ne; [done|]. intros ->. by rewrite HQ in HP.
    + intros Q q k [[<- <-]|[Hne HQ]]%lookup_insert_Some Hk Hd; [by destruct (Hdn k Hk)|]. destruct (E Q q k HQ Hk Hd) as [Hw Hc].
      split; [done|]. rewrite lookup_insert_ne; [done|]. intros ->. by destruct (Hup k Q).
    + intros He. specialize (Av He). rewrite map_size_insert_None by done. destruct Hav; [unfold enough in He; lia|]. lia.
Qed.
(** The entry [k] of the table at [P] is set. *)
Lemma building_write n dn D s P t k e :
  building n dn D s -> D !! P = Some t -> index_ok k -> copied_entry n D P k e ->
  building n (fun Q l => dn Q l \/ (Q = P /\ l = k)) D (write s (slot t k) e).
Proof.
  intros [Al Mo W N S U I M E Av] HP Hk He. assert (Hpage : forall Q p, D !! Q = Some p -> is_page p) by (intros Q p HQ; by apply (N Q p)).
  constructor; try done.
  - intros x. cbn [write set_pm pm]. unfold mset. destruct (x =? slot t k); [apply He|done].
  - intros x Hx. cbn [write set_pm pm]. unfold mset. destruct (Z.eqb_spec x (slot t k)) as [->|]; [|by apply M].
    specialize (Hx P t HP). by rewrite slot_in in Hx.
  - intros Q q l HQ Hl Hd. cbn [write set_pm pm]. unfold mset. destruct (Z.eqb_spec (slot q l) (slot t k)) as [Es|Hne].
    + apply slot_inj in Es as [-> ->]; [|by eapply Hpage|by eapply Hpage|done|done].
      assert (Q = P) as -> by by apply (I Q P t). done.
    + destruct Hd as [Hd|[-> ->]]; [by apply E|]. rewrite HP in HQ. by injection HQ as ->.
Qed.

(** The tables copied from are not written. *)
Lemma building_read n dn D s P t k :
  building n dn D s -> path_ok P -> tab (pm s0) B P = Some t -> index_ok k -> pm s (slot t k) = pm s0 (slot t k).
Proof.
  intros Hb HP Ht Hk. apply (b_mem _ _ _ _ Hb). intros Q p HQ. destruct (vo_tab s0 B Hs P t HP Ht) as [Htp Htu].
  destruct (b_new _ _ _ _ Hb Q p HQ) as (Hp & Hf & _). apply slot_out; [done|done| |done]. by intros ->.
Qed.

Lemma view_no_user e : view (no_user e) = view e.
Proof.
  unfold view, no_user. rewrite !has_land_id by done. f_equal. unfold frame_of. rewrite <- Z.land_assoc. f_equal.
Qed.

Lemma no_user_word e : 0 <= e < 2 ^ 64 -> 0 <= no_user e < 2 ^ 64.
Proof. apply land_word. Qed.

Hypothesis Hnopt : forall P, path_ok P -> length P = 3%nat -> tab (pm s0) B P = None.
Hypothesis Hroot : forall i, index_ok i -> has (pm s0 (slot B i)) PAGE_HUGE = false.

Lemma deep_copy_pd_ok n dn D s P boot_pd :
  building n dn D s -> D !! P = None -> path_ok P -> length P = 2%nat -> P ∈ ts -> tab (pm s0) B P = Some boot_pd ->
  (forall k, index_ok k -> ~ dn P k) -> (forall i up, P = i :: up -> is_Some (D !! up) /\ ~ dn up i) ->
  let '(s', pd) := deep_copy_pd s boot_pd in
  if pd =? 0 then ~ enough /\ building n dn D s'
  else building n (fun Q l => dn Q l \/ Q = P) (<[P := pd]> D) s'.
Proof.
  intros Hb HP Hpo HlP Hin Ht Hdn Hup. unfold deep_copy_pd.
  pose proof (building_alloc n dn D s P boot_pd Hb HP Hpo (or_intror Hin) Ht Hdn Hup) as Ha.
  destruct (alloc_page (pa s)) as [a pd]. destruct (Z.eqb_spec pd 0) as [E0|Hne]; [exact Ha|].
  rewrite (proj2 (Z.eqb_neq pd 0)) by done.
  eapply building_weaken; [|apply (for_each_ind (fun i s => write s (slot pd i) (no_user (pm s (slot boot_pd i))))
    (fun k s => building n (fun Q l => dn Q l \/ (Q = P /\ l < k)) (<[P := pd]> D) s) 512 0 (mkVm a (pm s)))].
  - cbn beta. unfold index_ok. intros Q l _ Hl [Hd| ->]; [by left|]. right. split; [done|lia].
  - eapply building_weaken; [|exact Ha]. intros Q l _ Hl [Hd|[-> Hl0]]; [done|]. unfold index_ok in Hl. lia.
  - intros k s1 Hk Hb1. assert (Hki : index_ok k) by (unfold index_ok; lia).
    eapply building_weaken; [|apply (building_write _ _ _ _ P pd k _ Hb1); [by rewrite lookup_insert_eq|done|]].
    + cbn beta. intros Q l _ Hl [Hd|[-> Hl0]]; [by left; left|]. destruct (decide (l = k)) as [->|]; [by right|]. left. right. split; [done|lia].
    + rewrite (building_read _ _ _ _ P boot_pd k Hb1) by done. pose proof (vo_word s0 B Hs (slot boot_pd k)) as Hw.
      split; [by apply no_user_word|].
      assert (Hc : child (length P) (pm s0 (slot boot_pd k)) = None).
      { pose proof (Hnopt (k :: P)) as Hn. cbn [tab] in Hn. rewrite Ht in Hn. apply Hn; [split; [constructor; [done|apply Hpo]|simpl; lia]|simpl; lia]. }
      destruct (<[P := pd]> D !! (k :: P)) as [q|] eqn:Eq.
      * exfalso. destruct (b_src _ _ _ _ Hb1 _ _ Eq) as (_ & _ & t & Htab). cbn [tab] in Htab. rewrite Ht in Htab. cbn [mbind option_bind] in Htab. congruence.
      * right. split; [intros ->; done|]. split; [by rewrite (child_view _ _ _ (view_no_user _))|]. by exists boot_pd.
Qed.
(** Copying entry [j] of the table at [i]: what is done, and which tables there are. *)
Definition stage (i j : Z) (Q : list Z) (l : Z) : Prop :=
  match Q with [] => l <> i | [i'] => i' <> i \/ l < j | [j'; i'] => i' <> i \/ j' < j | _ => False end.

Definition keys_to (i j : Z) D : Prop := forall Q, is_Some (D !! Q) ->
  match Q with [] => True | [i'] => i' <= i | [j'; i'] => i' < i \/ (i' = i /\ j' < j) | _ => False end.

Lemma tab_entry P t k : tab (pm s0) B P = Some t -> tab (pm s0) B (k :: P) = child (length P) (pm s0 (slot t k)).
Proof. intros Ht. cbn [tab]. by rewrite Ht. Qed.

Lemma table_entry_ok q e0 : is_page q -> 0 <= e0 < 2 ^ 64 -> has e0 PAGE_HUGE = false ->
  let e := Z.lor (Z.lor q (Z.land (no_user e0) (Z.lnot PTE_PHYS_MASK))) PAGE_PRESENT in
  0 <= e < 2 ^ 64 /\ view e = (true, false, q).
Proof.
  intros Hq Hw Hh. cbv zeta. rewrite <- Z.lor_assoc.
  assert (Ht : table_flags_ok (Z.lor (Z.land (no_user e0) (Z.lnot PTE_PHYS_MASK)) PAGE_PRESENT)).
  { split; [apply lor_word; [by do 2 apply land_word|unfold PAGE_PRESENT; lia]|]. rewrite !has_lor. split_and!.
    - rewrite Z.land_lor_distr_l, <- Z.land_assoc. by rewrite Z.land_0_r.
    - apply orb_true_r.
    - rewrite has_land_id by done. destruct (view_inv _ _ (view_no_user e0)) as (_ & -> & _). by rewrite Hh. }
  split; [apply lor_word; [by apply page_word|apply Ht]|by apply view_table].
Qed.

Lemma copy_pdpt_entry_ok n i j D s pdpt boot_pdpt :
  building n (stage i j) D s -> keys_to i j D -> D !! [i] = Some pdpt -> index_ok j -> tab (pm s0) B [i] = Some boot_pdpt ->
  exists D', building n (stage i (j + 1)) D' (copy_pdpt_entry boot_pdpt pdpt j s) /\ keys_to i (j + 1) D' /\
    D' !! [i] = Some pdpt /\ D' !! [] = D !! [].
Proof.
  intros Hb Hk Hi Hj Ht. destruct (b_src _ _ _ _ Hb _ _ Hi) as (Hpi & _ & _).
  assert (Hji : path_ok [j; i]) by (split; [constructor; [done|apply Hpi]|simpl; lia]).
  assert (HN : D !! [j; i] = None).
  { apply eq_None_not_Some. intros Hs'. specialize (Hk _ Hs'). cbn in Hk. lia. }
  assert (Hkey : keys_to i (j + 1) D) by (intros Q HQ; specialize (Hk Q HQ); destruct Q as [|? [|? [|]]]; lia).
  assert (Hst : forall D1, D1 !! [j; i] = None -> forall Q l, is_Some (D1 !! Q) -> index_ok l -> stage i (j + 1) Q l -> stage i j Q l \/ (Q = [i] /\ l = j)).
  { intros D1 HD1 Q l HQ Hl. destruct Q as [|j' [|i' [|]]]; cbn; [by left| |destruct (decide (i' = i /\ j' = j)) as [[-> ->]|]; [by rewrite HD1 in HQ; destruct HQ|lia]|done].
    destruct (decide (j' = i /\ l = j)) as [[-> ->]|]; [by right|lia]. }
  assert (Hread : pm s (slot boot_pdpt j) = pm s0 (slot boot_pdpt j)) by (by apply (building_read _ _ _ _ [i] boot_pdpt j Hb)).
  pose proof (vo_word s0 B Hs (slot boot_pdpt j)) as Hw.
  assert (Hempty : forall D1 s1, building n (stage i j) D1 s1 -> D1 !! [i] = Some pdpt -> D1 !! [j; i] = None ->
    gone n [i] j -> building n (stage i (j + 1)) D1 (write s1 (slot pdpt j) 0)).
  { intros D1 s1 Hb1 Hi1 Hn1 Hg. eapply building_weaken; [by apply Hst|]. apply building_write; [done..|].
    split; [lia|]. rewrite Hn1. by left. }
  unfold copy_pdpt_entry. rewrite Hread. set (e := pm s0 (slot boot_pdpt j)) in *.
  destruct (has e PAGE_PRESENT) eqn:Ep; cbn [negb].
  2: { exists D. split; [|done]. apply Hempty; [done..|]. intros _. right. by exists boot_pdpt. }
  pose proof (tab_entry [i] boot_pdpt j Ht) as Hte. fold e in Hte. unfold child in Hte. rewrite Ep in Hte. cbn [length Nat.eqb negb andb] in Hte.
  destruct (has e PAGE_HUGE) eqn:Eh; cbn [negb] in Hte.
  { exists D. split; [|done]. eapply building_weaken; [by apply Hst|]. apply building_write; [done..|].
    split; [by apply no_user_word|]. rewrite HN. right. split; [done|]. split; [|by exists boot_pdpt].
    rewrite (child_view _ _ _ (view_no_user e)). unfold child. rewrite Ep, Eh. done. }
  assert (Hin : [j; i] ∈ ts) by (apply (Hts _ _ Hji) in Hte; [done|simpl; lia]).
  pose proof (deep_copy_pd_ok n (stage i j) D s [j; i] (frame_of e) Hb HN Hji eq_refl Hin Hte) as Hpd.
  destruct (deep_copy_pd s (frame_of e)) as [s1 pd].
  assert (Hpd' := Hpd ltac:(intros k _; cbn; lia) ltac:(intros k up [= <- <-]; split; [by exists pdpt|cbn; lia])). clear Hpd.
  destruct (Z.eqb_spec pd 0) as [E0|Hne].
  - destruct Hpd' as [Hne Hb1]. exists D. split; [|done]. apply Hempty; [done..|]. by intros He.
  - exists (<[[j; i] := pd]> D). split; [|split; [|split]].
    + rewrite (building_read _ _ _ _ [i] boot_pdpt j Hpd') by done. fold e.
      destruct (b_new _ _ _ _ Hpd' [j; i] pd) as (Hpp & _); [by rewrite lookup_insert_eq|].
      destruct (table_entry_ok pd e Hpp Hw Eh) as [Hew Hev].
      eapply building_weaken; [|apply (building_write _ _ _ _ [i] pdpt j _ Hpd'); [by rewrite lookup_insert_ne by done|done|]].
      * cbn beta. intros Q l HQ Hl. destruct Q as [|j' [|i' [|]]]; cbn; [tauto| |destruct (decide (i' = i /\ j' = j)) as [[-> ->]|]; [tauto|lia]|done].
        destruct (decide (j' = i /\ l = j)) as [[-> ->]|]; [tauto|lia].
      * split; [done|]. by rewrite lookup_insert_eq.
    + intros Q [q Hq]. apply lookup_insert_Some in Hq as [[<- _]|[_ Hq]]; [lia|]. apply Hkey. by exists q.
    + by rewrite lookup_insert_ne by done.
    + by rewrite lookup_insert_ne by done.
Qed.
Definition keys_below (i : Z) D : Prop := forall Q, is_Some (D !! Q) ->
  match Q with [] => True | [i'] => i' < i | [_; i'] => i' < i | _ => False end.

Lemma deep_copy_pdpt_ok n i D s boot_pdpt :
  building n (stage i 0) D s -> keys_below i D -> is_Some (D !! []) -> index_ok i -> [i] ∈ ts -> tab (pm s0) B [i] = Some boot_pdpt ->
  let '(s', pdpt) := deep_copy_pdpt s boot_pdpt in
  if pdpt =? 0 then ~ enough /\ building n (stage i 0) D s' /\ pm s' = pm s
  else exists D', building n (stage i 512) D' s' /\ keys_to i 512 D' /\ D' !! [i] = Some pdpt /\ D' !! [] = D !! [].
Proof.
  intros Hb Hk HD0 Hi Hin Ht. assert (Hpi : path_ok [i]) by (split; [by constructor|simpl; lia]).
  assert (HN : D !! [i] = None) by (apply eq_None_not_Some; intros Hs'; specialize (Hk _ Hs'); cbn in Hk; lia).
  assert (Hbi : building n (stage i 0) D s) by done.
  unfold deep_copy_pdpt. pose proof (building_alloc n (stage i 0) D s [i] boot_pdpt Hb HN Hpi (or_intror Hin) Ht) as Ha.
  destruct (alloc_page (pa s)) as [a pdpt].
  assert (Ha' := Ha ltac:(unfold index_ok; intros k Hk0; cbn; lia) ltac:(intros k up [= <- <-]; split; [done|cbn; lia])). clear Ha.
  destruct (Z.eqb_spec pdpt 0) as [E0|Hne]; [by destruct Ha'|]. rewrite (proj2 (Z.eqb_neq pdpt 0)) by done.
  apply (for_each_ind (copy_pdpt_entry boot_pdpt pdpt) (fun j s => exists D', building n (stage i j) D' s /\ keys_to i j D' /\
    D' !! [i] = Some pdpt /\ D' !! [] = D !! []) 512 0 (mkVm a (pm s))).
  - exists (<[[i] := pdpt]> D). split; [done|]. split; [|by rewrite lookup_insert_eq, lookup_insert_ne by done].
    intros Q [q Hq]. apply lookup_insert_Some in Hq as [[<- _]|[_ Hq]]; [lia|]. specialize (Hk Q (mk_is_Some _ _ Hq)).
    destruct Q as [|? [|? [|]]]; lia.
  - intros j s1 Hj (D1 & Hb1 & Hk1 & Hi1 & H01).
    destruct (copy_pdpt_entry_ok n i j D1 s1 pdpt boot_pdpt Hb1 Hk1 Hi1 ltac:(unfold index_ok; lia) Ht) as (D2 & ? & ? & ? & ?).
    exists D2. split_and!; congruence || done.
Qed.

Lemma building_add n dn D s P t k :
  building n dn D s -> D !! P = Some t -> copied_entry n D P k (pm s (slot t k)) ->
  building n (fun Q l => dn Q l \/ (Q = P /\ l = k)) D s.
Proof.
  intros [Al Mo W N S U I M E Av] HP He. constructor; try done. intros Q q l HQ Hl [Hd|[-> ->]]; [by apply E|]. congruence.
Qed.

(** The bound of the entries of the PML4 moves on. *)
Lemma building_next i dn D s :
  building i dn D s -> (forall k, dn [] k -> k <> i) -> building (i + 1) dn D s.
Proof.
  intros [Al Mo W N S U I M E Av] Hd. constructor; try done. intros P t k HP Hk Hdn. destruct (E P t k HP Hk Hdn) as [Hw Hc].
  split; [done|]. destruct (D !! (k :: P)); [done|]. destruct Hc as [[E0 Hg]|Hc]; [left|by right]. split; [done|].
  intros He. destruct (Hg He) as [[-> Hik]|]; [left|by right]. split; [done|]. specialize (Hd k Hdn). lia.
Qed.

Definition all_done (Q : list Z) (l : Z) : Prop := True.

Lemma copy_pml4_entry_ok i D s root :
  building i all_done D s -> keys_below i D -> D !! [] = Some root -> 0 <= i < 4 ->
  exists D', building (i + 1) all_done D' (copy_pml4_entry B root i s) /\ keys_below (i + 1) D' /\ D' !! [] = Some root.
Proof.
  intros Hb Hk H0 Hi. assert (Hii : index_ok i) by (unfold index_ok; lia).
  assert (HN : D !! [i] = None) by (apply eq_None_not_Some; intros Hs'; specialize (Hk _ Hs'); cbn in Hk; lia).
  assert (Hread : pm s (slot B i) = pm s0 (slot B i)) by (apply (building_read _ _ _ _ [] B i Hb); [split; [constructor|simpl; lia]|done|done]).
  pose proof (vo_word s0 B Hs (slot B i)) as Hw. set (e := pm s0 (slot B i)) in *.
  destruct (b_entry _ _ _ _ Hb [] root i H0 Hii I) as [_ He]. rewrite HN in He. destruct He as [[He _]|[? _]]; [|done].
  assert (Hkey : keys_below (i + 1) D) by (intros Q HQ; specialize (Hk Q HQ); destruct Q as [|? [|? [|]]]; lia).
  assert (Hst : forall Q l, is_Some (D !! Q) -> index_ok l -> all_done Q l -> stage i 0 Q l \/ (Q = [] /\ l = i)).
  { intros Q l HQ _ _. specialize (Hk Q HQ). destruct Q as [|? [|? [|]]]; cbn; [|lia|lia|done]. destruct (decide (l = i)) as [->|]; [by right|by left]. }
  assert (Hbi : building i (stage i 0) D s) by (by apply (building_weaken i all_done)).
  assert (Hskip : forall s1, building i (stage i 0) D s1 -> pm s1 = pm s -> gone (i + 1) [] i ->
    building (i + 1) all_done D s1).
  { intros s1 Hb1 Em Hg. eapply building_weaken; [apply Hst|]. eapply building_add; [|exact H0|].
    - apply building_next; [done|]. cbn. done.
    - rewrite Em, He. split; [lia|]. rewrite HN. by left. }
  unfold copy_pml4_entry. rewrite Hread. destruct (has e PAGE_PRESENT) eqn:Ep; cbn [negb].
  2: { exists D. split; [|done]. apply Hskip; [done|done|]. intros _. right. by exists B. }
  pose proof (tab_entry [] B i eq_refl) as Hte. fold e in Hte. unfold child in Hte. rewrite Ep in Hte. cbn [length Nat.eqb negb andb] in Hte.
  assert (Hpi : path_ok [i]) by (split; [by constructor|simpl; lia]).
  pose proof (deep_copy_pdpt_ok i i D s (frame_of e) Hbi Hk (mk_is_Some _ _ H0) Hii (Hts _ _ Hpi ltac:(simpl; lia) Hte) Hte) as Hpd.
  destruct (deep_copy_pdpt s (frame_of e)) as [s1 pdpt]. destruct (Z.eqb_spec pdpt 0) as [E0|Hne].
  { destruct Hpd as (Hne & Hb1 & Em). exists D. split; [|done]. apply Hskip; [done|done|]. intros Hen. done. }
  destruct Hpd as (D1 & Hb1 & Hk1 & Hi1 & H01). exists D1. split; [|split; [|congruence]].
  - rewrite (building_read _ _ _ _ [] B i Hb1) by (done || (split; [constructor|simpl; lia])). fold e.
    destruct (b_new _ _ _ _ Hb1 [i] pdpt Hi1) as (Hpp & _). rewrite H0 in H01.
    destruct (table_entry_ok pdpt e Hpp Hw (Hroot i Hii)) as [Hew Hev].
    eapply building_weaken; [|apply (building_write (i + 1) (stage i 512) D1 s1 [] root i); [|done|done|]].
    + intros Q l HQ Hl _. specialize (Hk1 Q HQ). unfold index_ok in Hl. destruct Q as [|? [|? [|]]]; cbn; [|lia|lia|done].
      destruct (decide (l = i)) as [->|]; [by right|by left].
    + apply building_next; [done|]. cbn. done.
    + split; [done|]. by rewrite Hi1.
  - intros Q HQ. specialize (Hk1 Q HQ). destruct Q as [|? [|? [|]]]; lia.
Qed.

(** The tables and the entries of the copy. *)
Lemma create_builds :
  let '(s', root) := create_user_address_space s0 B in
  if root =? 0 then ~ enough
  else exists D, building 4 all_done D s' /\ keys_below 4 D /\ D !! [] = Some root.
Proof.
  unfold create_user_address_space.
  assert (Hb0 : building 0 (fun _ _ => False) ∅ s0).
  { constructor; try done; try (by apply Hs); try (by intros ? ? ?%lookup_empty_Some). rewrite map_size_empty. lia. }
  pose proof (building_alloc 0 (fun _ _ => False) ∅ s0 [] B Hb0 (lookup_empty _) ltac:(split; [constructor|simpl; lia]) (or_introl eq_refl) eq_refl
    ltac:(intros; tauto) ltac:(intros; done)) as Ha.
  destruct (alloc_page (pa s0)) as [a root]. destruct (Z.eqb_spec root 0) as [E0|Hne]; [by destruct Ha|].
  rewrite (proj2 (Z.eqb_neq root 0)) by done.
  apply (for_each_ind (copy_pml4_entry B root) (fun i s => exists D, building i all_done D s /\ keys_below i D /\ D !! [] = Some root) 4 0
    (set_pm (mkVm a (pm s0)) (zero_page (pm s0) root))).
  - exists (<[[] := root]> ∅). split; [|split; [|by rewrite lookup_insert_eq]].
    + destruct Ha as [Al Mo W N S U I M E Av]. constructor; try done.
      * apply zero_page_word, Hs.
      * intros x Hx. cbn [set_pm pm]. apply zero_page_out. apply (Hx []). by rewrite lookup_insert_eq.
      * intros P t k [[<- <-]|[_ []%lookup_empty_Some]]%lookup_insert_Some Hk _. cbn [set_pm pm]. rewrite zero_page_in by done.
        split; [lia|]. rewrite lookup_insert_ne, lookup_empty by done. left. split; [done|]. intros _. left. unfold index_ok in Hk. split; [done|lia].
    + intros Q [q [[<- _]|[_ []%lookup_empty_Some]]%lookup_insert_Some]. done.
  - intros i s1 Hi (D & Hb & Hk & H0). by apply (copy_pml4_entry_ok i D).
Qed.

(** ** The copy is an address space *)

Section built.
Context (s' : vm A) (root : Z) (D : gmap (list Z) Z).
Hypothesis Hb : building 4 all_done D s'.
Hypothesis Hk : keys_below 4 D.
Hypothesis H0 : D !! [] = Some root.

Lemma built_entry P t k : D !! P = Some t -> index_ok k -> copied_entry 4 D P k (pm s' (slot t k)).
Proof. intros HP Hi. by apply (b_entry _ _ _ _ Hb). Qed.

Lemma built_tab P : path_ok P -> tab (pm s') root P = D !! P.
Proof.
  induction P as [|i up IH]; intros HP; [done|]. destruct (path_ok_cons _ _ HP) as (Hup & Hi & _). cbn [tab]. rewrite (IH Hup).
  destruct (D !! up) as [t|] eqn:Et; cbn [mbind option_bind].
  - destruct (built_entry up t i Et Hi) as [_ He]. destruct (D !! (i :: up)) as [d|].
    + injection He as E1 E2 E3. unfold child. rewrite E1, E2, E3. by rewrite andb_false_r.
    + destruct He as [[-> _]|(_ & Hc & _)]; done.
  - symmetry. apply eq_None_not_Some. intros Hs'. apply (b_up _ _ _ _ Hb) in Hs'. rewrite Et in Hs'. by destruct Hs'.
Qed.

Lemma built_deep P : (3 <= length P)%nat -> D !! P = None.
Proof.
  intros Hl. apply eq_None_not_Some. intros Hs'. specialize (Hk P Hs'). destruct P as [|? [|? [|]]]; simpl in *; lia || done.
Qed.

Lemma built_ok : vm_ok s' root.
Proof.
  constructor.
  - apply Hb.
  - apply Hb.
  - intros P t HP. rewrite built_tab by done. intros HD. destruct (b_new _ _ _ _ Hb P t HD) as (? & _ & ?). done.
  - intros P Q t HP HQ. rewrite !built_tab by done. apply (b_inj _ _ _ _ Hb).
  - intros P t i HP HlP. destruct (path_ok_cons _ _ HP) as (HP' & Hi & _). rewrite built_tab by done. intros HD.
    destruct (built_entry P t i HD Hi) as [_ He]. rewrite built_deep in He by (simpl; lia).
    destruct He as [[-> _]|(_ & _ & t0 & Ht0 & ->)]; [done|]. destruct (view_inv _ _ (view_no_user (pm s0 (slot t0 i)))) as (_ & -> & ->).
    by apply (vo_huge s0 B Hs P t0 i).
  - intros P j p (HP & HlP & _). unfold uleaf. rewrite built_tab, built_deep by (done || lia). done.
  - intros P j Q k p (HP & HlP & _) _. unfold uleaf at 1. rewrite built_tab, built_deep by (done || lia). done.
Qed.

Lemma built_no_leaf v : leaf_at (pm s') root v = None.
Proof. unfold leaf_at, uleaf. by rewrite built_tab, built_deep by (apply path1_ok || done). Qed.

Lemma built_phys v : enough -> idx 3 v < 4 -> phys_of (pm s') root v = phys_of (pm s0) B v.
Proof.
  intros He Hv. pose proof (path1_ok v) as H1. destruct (path_ok_cons _ _ H1) as (H2 & _). destruct (path_ok_cons _ _ H2) as (H3 & _).
  unfold phys_of. rewrite !built_tab by done. rewrite (built_deep (path1 v)), (Hnopt (path1 v)) by done.
  assert (Hsame : forall P t t0 k, D !! P = Some t -> tab (pm s0) B P = Some t0 -> index_ok k -> P <> [] \/ k < 4 -> D !! (k :: P) = None ->
    tab (pm s0) B (k :: P) = None /\ forall l, leaf_phys (pm s' (slot t k)) l v = leaf_phys (pm s0 (slot t0 k)) l v).
  { intros P t t0 k HD Ht0 Hki Hor HN. rewrite (tab_entry P t0 k Ht0). destruct (built_entry P t k HD Hki) as [_ Hc]. rewrite HN in Hc.
    destruct Hc as [[-> Hg]|(_ & Hc & t1 & Ht1 & E)].
    - destruct (Hg He) as [[-> ?]|(t1 & Ht1 & Hp)]; [destruct Hor; [done|lia]|]. assert (t1 = t0) as -> by congruence.
      unfold child, leaf_phys. by rewrite Hp.
    - assert (t1 = t0) as -> by congruence. rewrite E in *. split; [by rewrite <- (child_view _ _ _ (view_no_user _))|].
      intros l. apply leaf_phys_view, view_no_user. }
  destruct (D !! path2 v) as [pd|] eqn:E2.
  - destruct (b_src _ _ _ _ Hb _ _ E2) as (_ & _ & pd0 & Hpd0). rewrite Hpd0.
    destruct (Hsame (path2 v) pd pd0 (idx 1 v)) as [_ E]; [done|done|apply idx_ok|by left|by apply built_deep|apply E].
  - destruct (D !! path3 v) as [pdpt|] eqn:E3.
    + destruct (b_src _ _ _ _ Hb _ _ E3) as (_ & _ & t0 & Ht0).
      destruct (Hsame (path3 v) pdpt t0 (idx 2 v)) as [E E']; [done|done|apply idx_ok|by left|done|].
      change (tab (pm s0) B (path2 v) = None) in E. rewrite E, Ht0. apply E'.
    + destruct (Hsame [] root B (idx 3 v)) as [E _]; [done|done|apply idx_ok|by right|done|].
      change (tab (pm s0) B (path3 v) = None) in E. rewrite E. cbn [path2 tab]. rewrite E. done.
Qed.

Lemma built_high v : 4 <= idx 3 v -> phys_of (pm s') root v = 0.
Proof.
  intros Hv. pose proof (path1_ok v) as H1. destruct (path_ok_cons _ _ H1) as (H2 & _). destruct (path_ok_cons _ _ H2) as (H3 & _).
  unfold phys_of. rewrite !built_tab, built_deep by done.
  assert (E3 : D !! path3 v = None) by (apply eq_None_not_Some; intros Hs'; specialize (Hk _ Hs'); cbn in Hk; lia).
  assert (E2 : D !! path2 v = None) by (apply eq_None_not_Some; intros Hs'; specialize (Hk _ Hs'); cbn in Hk; lia).
  by rewrite E2, E3.
Qed.

(** No entry that maps a page lets user code in. *)
Lemma built_supervisor v p l : get_pte_level (pm s') root v = Some (p, l) -> has (pm s' p) PAGE_USER = false.
Proof.
  pose proof (path1_ok v) as H1. destruct (path_ok_cons _ _ H1) as (H2 & _). destruct (path_ok_cons _ _ H2) as (H3 & _).
  assert (Hent : forall P t k, D !! P = Some t -> index_ok k -> D !! (k :: P) = None -> has (pm s' (slot t k)) PAGE_USER = false).
  { intros P t k HD Hki HN. destruct (built_entry P t k HD Hki) as [_ Hc]. rewrite HN in Hc.
    destruct Hc as [[-> _]|(_ & _ & t0 & _ & ->)]; [done|]. by apply has_land. }
  assert (Htab : forall P t k, path_ok (k :: P) -> tab (pm s') root P = Some t -> has (pm s' (slot t k)) PAGE_HUGE = true -> (length P <> 0)%nat ->
    D !! P = Some t /\ D !! (k :: P) = None).
  { intros P t k HP Ht Hh Hl. destruct (path_ok_cons _ _ HP) as (HP' & _). rewrite <- !built_tab by done. split; [done|].
    cbn [tab]. rewrite Ht. cbn [mbind option_bind]. unfold child. rewrite Hh. destruct (length P); [done|]. cbn. by rewrite andb_false_r. }
  unfold get_pte_level. destruct (has (pm s' (slot root (idx 3 v))) PAGE_PRESENT) eqn:P4; cbn [negb]; [|done].
  pose proof (tab_child (pm s') root (idx 3 v) [] root eq_refl P4 ltac:(by left)) as T3. change [idx 3 v] with (path3 v) in T3.
  set (pdpt := frame_of (pm s' (slot root (idx 3 v)))) in *.
  destruct (has (pm s' (slot pdpt (idx 2 v))) PAGE_PRESENT) eqn:P3; cbn [negb]; [|done].
  destruct (has (pm s' (slot pdpt (idx 2 v))) PAGE_HUGE) eqn:Hh3.
  { intros [= <- <-]. destruct (Htab (path3 v) pdpt (idx 2 v)) as [Ht Hn]; [done..|]. by apply (Hent (path3 v)); [|apply idx_ok|]. }
  pose proof (tab_child (pm s') root (idx 2 v) (path3 v) pdpt T3 P3 ltac:(by right)) as T2. change (idx 2 v :: path3 v) with (path2 v) in T2.
  set (pd := frame_of (pm s' (slot pdpt (idx 2 v)))) in *.
  destruct (has (pm s' (slot pd (idx 1 v))) PAGE_PRESENT) eqn:P2; cbn [negb]; [|done].
  destruct (has (pm s' (slot pd (idx 1 v))) PAGE_HUGE) eqn:Hh2.
  { intros [= <- <-]. destruct (Htab (path2 v) pd (idx 1 v)) as [Ht Hn]; [done..|]. by apply (Hent (path2 v)); [|apply idx_ok|]. }
  pose proof (tab_child (pm s') root (idx 1 v) (path2 v) pd T2 P2 ltac:(by right)) as T1. change (idx 1 v :: path2 v) with (path1 v) in T1.
  rewrite built_tab, built_deep in T1 by done. done.
Qed.
End built.
End create.

(** ** What a new address space is *)

Section spaces.
Context {A : Type} `{PageAllocator A}.
Implicit Types (s : vm A).

(** The tables the kernel boots with map 2 MB pages; [ts] lists the paths of its
    page directories and their parents. *)
Record boot_tables s (boot : Z) (ts : list (list Z)) : Prop := {
  bt_ok : vm_ok s boot;
  bt_list : forall P t, path_ok P -> (1 <= length P <= 2)%nat -> tab (pm s) boot P = Some t -> P ∈ ts;
  bt_large : forall P, path_ok P -> length P = 3%nat -> tab (pm s) boot P = None;
  bt_root : forall i, index_ok i -> has (pm s (slot boot i)) PAGE_HUGE = false;
  bt_no_1gb : forall v, huge_above (pm s) boot v = false;
}.

(** Nothing is mapped for the user yet, and no table is a page in use before. *)
Record new_space s s' (root : Z) : Prop := {
  ns_ok : vm_ok s' root;
  ns_page : is_page root /\ ~ in_use (pa s) root;
  ns_leaf : forall v, leaf_at (pm s') root v = None;
  ns_supervisor : forall v p l, get_pte_level (pm s') root v = Some (p, l) -> has (pm s' p) PAGE_USER = false;
  ns_data : forall q, is_page q -> in_use (pa s) q -> data_page root s' q /\ forall x, in_page q x = true -> pm s' x = pm s x;
}.

Lemma create_user_address_space_ok s boot ts :
  boot_tables s boot ts ->
  let '(s', root) := create_user_address_space s boot in
  (root = 0 -> avail (pa s) < 1 + len ts) /\
  (root <> 0 -> new_space s s' root /\
     (forall v, huge_above (pm s') root v = false) /\
     (1 + len ts <= avail (pa s) ->
        avail (pa s) - (1 + len ts) <= avail (pa s') /\
        forall v, vmm_get_phys s' root v = if idx 3 v <? 4 then vmm_get_phys s boot v else 0)).
Proof.
  intros [Hs Hts Hn Hr Hg]. pose proof (create_builds s boot ts Hs Hts Hn Hr) as C.
  destruct (create_user_address_space s boot) as [s' root]. destruct (Z.eqb_spec root 0) as [E0|Hne].
  { split; [|done]. unfold enough in C. lia. }
  split; [done|]. intros _. destruct C as (D & Hb & Hk & H0). split; [constructor|split].
  - by apply (built_ok s boot ts Hs s' root D).
  - destruct (b_new _ _ _ _ _ _ _ Hb [] root H0) as (? & ? & _). done.
  - by apply (built_no_leaf s boot ts s' root D).
  - by apply (built_supervisor s boot ts s' root D).
  - intros q Hq Hu. split.
    + split; [done|]. split; [by apply (b_mono _ _ _ _ _ _ _ Hb)|]. intros Q HQ. rewrite (built_tab s boot ts s' root D Hb H0 Q HQ).
      intros HD. by destruct (b_new _ _ _ _ _ _ _ Hb Q q HD) as (_ & Hf & _).
    + intros x Hx. apply (b_mem _ _ _ _ _ _ _ Hb). intros P p HD. destruct (b_new _ _ _ _ _ _ _ Hb P p HD) as (Hp & Hf & _).
      apply not_true_iff_false. rewrite in_page_spec in Hx |- *. assert (q <> p) by (by intros ->). unfold is_page in *. zlia.
  - intros v. apply not_true_iff_false. intros Hh. cut (huge_above (pm s) boot v = true); [by rewrite Hg|]. revert Hh.
    destruct (path_ok_cons _ _ (path1_ok v)) as (H2 & _). destruct (path_ok_cons _ _ H2) as (H3 & _).
    unfold huge_above, huge_at. rewrite (built_tab s boot ts s' root D Hb H0 _ H3). destruct (D !! path3 v) as [t|] eqn:Et; [|done].
    destruct (b_src _ _ _ _ _ _ _ Hb _ _ Et) as (_ & _ & t0 & Ht0). rewrite Ht0. destruct (built_entry s boot ts s' D Hb (path3 v) t (idx 2 v) Et (idx_ok 2 v)) as [_ Hc].
    destruct (D !! (idx 2 v :: path3 v)) as [d|].
    + injection Hc as _ -> _. by rewrite andb_false_r.
    + destruct Hc as [[-> _]|(_ & _ & t1 & Ht1 & ->)]; [done|]. destruct (view_inv _ _ (view_no_user (pm s (slot t1 (idx 2 v))))) as (-> & -> & _).
      by assert (t1 = t0) as -> by congruence.
  - intros He. split.
    + pose proof (b_avail _ _ _ _ _ _ _ Hb He) as Ha. pose proof (tables_size ts D) as Hz.
      assert (Z.of_nat (size D) <= 1 + len ts); [|lia]. apply Hz. intros P [p HP]. by apply (b_src _ _ _ _ _ _ _ Hb P p).
    + intros v. rewrite !get_phys_tab. destruct (Z.ltb_spec (idx 3 v) 4).
      * by apply (built_phys s boot ts Hn s' root D).
      * by apply (built_high s boot ts s' root D).
Qed.
End spaces.

(** C29: A new address space is a private copy of the first four entries of the boot
    tables: with memory enough every address below 2^41 translates as in the boot
    tables and nothing is mapped above; no page of it is open to user code, its
    tables are pages that were free, and memory in use keeps its contents.
    Without memory enough the copy has gaps or is refused, but is still a well-formed
    address space. *)
Theorem create_user_address_space_copies {A} `{PageAllocator A} (s : vm A) boot ts :
  boot_tables s boot ts ->
  let '(s', root) := create_user_address_space s boot in
  (root = 0 -> avail (pa s) < 1 + len ts) /\
  (root <> 0 -> new_space s s' root /\
     (1 + len ts <= avail (pa s) ->
        forall v, vmm_get_phys s' root v = if idx 3 v <? 4 then vmm_get_phys s boot v else 0)).
Proof.
  intros Hb. pose proof (create_user_address_space_ok s boot ts Hb) as C. destruct (create_user_address_space s boot) as [s' root].
  destruct C as [C0 C]. split; [done|]. intros Hne. destruct (C Hne) as (Hn & _ & Hp). split; [done|]. intros He. by apply Hp.
Qed.

(** The demonstration tables of [Vmm] are such boot tables. *)
Lemma demo_tables_boot (a : pmm) : pmm_allocator_ok a -> (forall q, is_page q -> page_in_use demo q -> page_in_use a q) ->
  boot_tables (mkVm a demo_mem) 0x100000 [[0]; [0; 0]].
Proof.
  intros Ha Hin. constructor.
  - by apply demo_tables_ok.
  - intros P t HP Hl Ht. destruct (demo_tab P t HP Ht) as [[-> _]|[[-> _]|[-> _]]]; [simpl in Hl; lia|constructor|repeat constructor].
  - intros P HP Hl. destruct (tab (pm (mkVm a demo_mem)) 0x100000 P) as [t|] eqn:Et; [|done].
    by destruct (demo_tab P t HP Et) as [[-> _]|[[-> _]|[-> _]]].
  - intros i Hi. unfold index_ok in Hi. cbn [pm]. unfold demo_mem, mset, slot.
    destruct (Z.eqb_spec (0x100000 + 8 * i) 0x102000); [lia|]. destruct (Z.eqb_spec (0x100000 + 8 * i) 0x101000); [lia|].
    by destruct (Z.eqb_spec (0x100000 + 8 * i) 0x100000).
  - intros v. unfold huge_above, huge_at. destruct (path_ok_cons _ _ (path1_ok v)) as (H2 & _). destruct (path_ok_cons _ _ H2) as (H3 & Hi & _).
    unfold index_ok in Hi. destruct (tab (pm (mkVm a demo_mem)) 0x100000 (path3 v)) as [t|] eqn:Et; [|done].
    destruct (demo_tab _ _ H3 Et) as [[? _]|[[_ ->]|[? _]]]; [done| |done]. cbn [pm]. unfold demo_mem, mset, slot.
    destruct (Z.eqb_spec (0x101000 + 8 * idx 2 v) 0x102000); [lia|]. destruct (Z.eqb_spec (0x101000 + 8 * idx 2 v) 0x101000); [done|].
    destruct (Z.eqb_spec (0x101000 + 8 * idx 2 v) 0x100000); [lia|done].
Qed.

Lemma demo_boot_tables : boot_tables demo_vm 0x100000 [[0]; [0; 0]].
Proof. apply demo_tables_boot; [apply demo_allocator_ok|done]. Qed.

Lemma create_user_address_space_copies_witness :
  let '(s', root) := create_user_address_space demo_vm 0x100000 in
  root <> 0 /\ vmm_get_phys s' root 0x5123 = 0x5123 /\ leaf_at (pm s') root 0x5123 = None.
Proof.
  pose proof (create_user_address_space_copies demo_vm 0x100000 [[0]; [0; 0]] demo_boot_tables) as C.
  destruct (create_user_address_space demo_vm 0x100000) as [s' root]. destruct C as [C0 C].
  assert (He : 1 + len [[0]; [0; 0]] <= avail (pa demo_vm)) by by vm_compute.
  assert (Hne : root <> 0) by (intros E; specialize (C0 E); lia). destruct (C Hne) as [Hn Hp]. split; [done|]. split; [|apply Hn].
  rewrite (Hp He). by vm_compute.
Defined.
