(* ===== verification/Elf.v ===== *)
(** * Loading programs: exec/elf.c

    The segments of an ELF image, the zeroed memory behind them and a stack are
    mapped into a new address space of [UserSpace].  The image is the list of its bytes; a
    load that reads outside it has no result ([None]).  What csprng_u64 returns is
    an argument.  elf_exec, which reads the file, sets up the kernel stack and
    jumps, is not modelled. *)

From S2P Require Import Prelude Pmm PageAlloc Vmm Signals PageFault UserPage UserSpace.

Definition PT_LOAD : Z := 1.
Definition PF_X : Z := 1.
Definition PF_W : Z := 2.
Definition ELF_MAGIC : list Z := [0x7f; 69; 76; 70].
Definition USER_STACK_SIZE_DEFAULT : Z := 256 * 1024.
Definition ASLR_STACK_BITS : Z := 12.

(** ** The image *)

(** A number of [n] bytes, the lowest first. *)
Definition le (l : list Z) : Z := foldr (fun b v => b + 256 * v) 0 l.

Definition le_at (img : list Z) (off n : Z) : option Z :=
  if off + n <=? len img then Some (le (take (Z.to_nat n) (drop (Z.to_nat off) img))) else None.

Record elf64_hdr := mkHdr { e_class : Z; e_type : Z; e_machine : Z; e_entry : Z; e_phoff : Z; e_phnum : Z }.

Definition read_hdr (img : list Z) : option elf64_hdr :=
  c ← le_at img 4 1; ty ← le_at img 16 2; m ← le_at img 18 2; en ← le_at img 24 8; po ← le_at img 32 8; pn ← le_at img 56 2;
  Some (mkHdr c ty m en po pn).

Definition SIZEOF_HDR : Z := 64.

Record elf64_phdr := mkPhdr { p_type : Z; p_flags : Z; p_offset : Z; p_vaddr : Z; p_filesz : Z; p_memsz : Z }.

#[export] Instance phdr_inhabited : Inhabited elf64_phdr := populate (mkPhdr 0 0 0 0 0 0).

Definition SIZEOF_PHDR : Z := 56.

(** [phdrs[i]] *)
Definition read_phdr (img : list Z) (phoff i : Z) : option elf64_phdr :=
  let o := phoff + i * SIZEOF_PHDR in
  ty ← le_at img o 4; f ← le_at img (o + 4) 4; po ← le_at img (o + 8) 8; va ← le_at img (o + 16) 8;
  fs ← le_at img (o + 32) 8; ms ← le_at img (o + 40) 8;
  Some (mkPhdr ty f po va fs ms).

(** ** Bytes in memory *)

Definition byte_of (w i : Z) : Z := w / 2 ^ (8 * i) mod 256.

(** "memcpy(dst, bytes, ...)" into the words of memory. *)
Definition put_bytes (m : Z -> Z) (dst : Z) (bytes : list Z) : Z -> Z := fun x =>
  if (x mod 8 =? 0) && (dst <=? x) && (x <? dst + len bytes)
  then le ((fun i => if x + i <? dst + len bytes then bytes.[x + i - dst] else byte_of (m x) i) <$> seqZ 0 8)
  else m x.

Section load.
Context {A : Type} `{PageAllocator A}.
Implicit Types (s : vm A).

(** ** Segments *)

Definition data_flags (writable executable : bool) : Z :=
  let flags := Z.lor PAGE_PRESENT PAGE_USER in
  let flags := if writable then Z.lor flags PAGE_WRITABLE else flags in
  if executable then flags else Z.lor flags PAGE_NX.

(** One page of [user_map_data]; the loop ends without memory ([Some]) or outside
    the image ([None]). *)
Definition data_step (img : list Z) (off pml4 vaddr data_len flags i : Z) s : ctl (vm A) (option (vm A)) :=
  let '(a, phys) := alloc_page (pa s) in
  if phys =? 0 then Stop (Some (mkVm a (pm s)))
  else
    let offset := i * PAGE_SIZE in
    let to_copy := data_len - offset in
    let to_copy := if PAGE_SIZE <? to_copy then PAGE_SIZE else to_copy in
    if len img <? off + offset + to_copy then Stop None
    else
      let bytes := take (Z.to_nat to_copy) (drop (Z.to_nat (off + offset)) img) in
      Next (user_map_page (mkVm a (put_bytes (zero_page (pm s) phys) phys bytes)) pml4 (u64 (vaddr + offset)) phys flags).

Definition page_count (n : Z) : Z := u64 (n + PAGE_SIZE - 1) / PAGE_SIZE.

Definition user_map_data (img : list Z) (pml4 vaddr off data_len : Z) (writable executable : bool) s : option (vm A) :=
  match for_loop (data_step img off pml4 vaddr data_len (data_flags writable executable)) (Z.to_nat (page_count data_len)) 0 s with
  | Next s => Some s
  | Stop r => r
  end.

(** A zeroed page at [start + i * PAGE_SIZE], if there is memory. *)
Definition zero_step (pml4 start flags i : Z) s : vm A :=
  let '(a, phys) := alloc_page (pa s) in
  if phys =? 0 then mkVm a (pm s)
  else user_map_page (mkVm a (zero_page (pm s) phys)) pml4 (u64 (start + i * PAGE_SIZE)) phys flags.

Definition round_page (a : Z) : Z := Z.land (u64 (a + PAGE_SIZE - 1)) (Z.lnot (PAGE_SIZE - 1)).

Definition bss_start (ph : elf64_phdr) : Z := round_page (u64 (p_vaddr ph + p_filesz ph)).
Definition bss_pages (ph : elf64_phdr) : Z := page_count (u64 (u64 (p_vaddr ph + p_memsz ph) - bss_start ph)).
Definition bss_flags (executable : bool) : Z :=
  let flags := Z.lor (Z.lor PAGE_PRESENT PAGE_USER) PAGE_WRITABLE in
  if executable then flags else Z.lor flags PAGE_NX.

Definition load_segment (img : list Z) (pml4 : Z) (ph : elf64_phdr) s : option (vm A) :=
  if negb (p_type ph =? PT_LOAD) then Some s
  else
    let writable := negb (Z.land (p_flags ph) PF_W =? 0) in
    let executable := negb (Z.land (p_flags ph) PF_X =? 0) in
    s ← user_map_data img pml4 (p_vaddr ph) (p_offset ph) (p_filesz ph) writable executable s;
    Some (if p_filesz ph <? p_memsz ph
          then for_each (zero_step pml4 (bss_start ph) (bss_flags executable)) (Z.to_nat (bss_pages ph)) 0 s
          else s).

Definition phdr_step (img : list Z) (pml4 phoff i : Z) s : ctl (vm A) unit :=
  match read_phdr img phoff i with
  | None => Stop tt
  | Some ph => match load_segment img pml4 ph s with Some s => Next s | None => Stop tt end
  end.

(** ** The stack and the whole load *)

Definition stack_top (rnd : Z) : Z :=
  USER_STACK_TOP_DEFAULT - Z.shiftl (Z.land rnd (Z.shiftl 1 ASLR_STACK_BITS - 1)) 12.

Definition STACK_FLAGS : Z := Z.lor (Z.lor (Z.lor PAGE_PRESENT PAGE_USER) PAGE_WRITABLE) PAGE_NX.

Definition map_stack (pml4 rnd : Z) s : vm A :=
  let stack_bottom := stack_top rnd - USER_STACK_SIZE_DEFAULT in
  for_each (zero_step pml4 stack_bottom STACK_FLAGS) (Z.to_nat (USER_STACK_SIZE_DEFAULT / PAGE_SIZE)) 0 s.

(** The static variables of the loader. *)
Record loader := mkLoader { user_pml4 : Z; user_entry : Z; user_stack_ptr : Z }.

Definition hdr_ok (img : list Z) (h : elf64_hdr) : bool :=
  bool_decide (take 4 img = ELF_MAGIC) && (e_class h =? 2) && (e_machine h =? 0x3E) && ((e_type h =? 2) || (e_type h =? 3)).

(** The new state and the entry point, 0 for an image it refuses. *)
Definition elf_load (boot rnd : Z) (img : list Z) (l : loader) s : option (vm A * loader * Z) :=
  if len img <? SIZEOF_HDR then Some (s, l, 0)
  else
    h ← read_hdr img;
    if negb (hdr_ok img h) then Some (s, l, 0)
    else
      let '(s, pml4) := create_user_address_space s boot in
      if pml4 =? 0 then Some (s, mkLoader 0 (user_entry l) (user_stack_ptr l), 0)
      else
        match for_loop (phdr_step img pml4 (e_phoff h)) (Z.to_nat (e_phnum h)) 0 s with
        | Stop _ => None
        | Next s =>
            Some (map_stack pml4 rnd s, mkLoader pml4 (e_entry h) (stack_top rnd - 16), e_entry h)
        end.
End load.

(** ** Bytes read back *)

Definition is_byte (b : Z) : Prop := 0 <= b < 256.

Lemma le_bound l : Forall is_byte l -> 0 <= le l < 256 ^ len l.
Proof.
  induction 1 as [|b l Hb _ IH]; [done|]. rewrite len_cons, Z.pow_add_r by (lia || apply len_nonneg). unfold is_byte in Hb. cbn [le foldr]. fold (le l). change (256 ^ 1) with 256. lia.
Qed.

Lemma byte_of_step b v i : is_byte b -> 0 <= i -> byte_of (b + 256 * v) (i + 1) = byte_of v i.
Proof.
  unfold is_byte, byte_of. intros Hb Hi. replace (8 * (i + 1)) with (8 + 8 * i) by lia. rewrite Z.pow_add_r, <- Z.div_div by lia.
  do 2 f_equal. change (2 ^ 8) with 256. zlia.
Qed.

Lemma byte_of_le l i : Forall is_byte l -> 0 <= i < len l -> byte_of (le l) i = l.[i].
Proof.
  intros Hl. revert i. induction Hl as [|b l Hb _ IH]; intros i Hi; [unfold len in Hi; simpl in Hi; lia|]. rewrite len_cons in Hi.
  cbn [le foldr]. fold (le l). destruct (decide (i = 0)) as [->|Hne].
  - unfold byte_of. rewrite Z.mul_0_r, Z.pow_0_r, Z.div_1_r. rewrite (Z.mul_comm 256), Z.mod_add by lia. by apply Z.mod_small.
  - replace i with (i - 1 + 1) by lia. rewrite byte_of_step by (done || lia). rewrite IH by lia.
    unfold geti. replace (Z.to_nat (i - 1 + 1)) with (S (Z.to_nat (i - 1))) by lia. done.
Qed.

Lemma byte_of_range w i : is_byte (byte_of w i).
Proof. unfold is_byte, byte_of. apply Z.mod_pos_bound. lia. Qed.

(** A page with the bytes at its start, zeros behind. *)
Definition data_page_of (bytes : list Z) : Z -> Z := put_bytes zeros 0 bytes.

Lemma eight_at i : 0 <= i < 8 -> (seqZ 0 8).[i] = i.
Proof. intros Hi. assert (i = 0 \/ i = 1 \/ i = 2 \/ i = 3 \/ i = 4 \/ i = 5 \/ i = 6 \/ i = 7) as E by lia. by destruct_or! E; subst. Qed.

Lemma eight_bytes (f : Z -> Z) i : (forall j, 0 <= j < 8 -> is_byte (f j)) -> 0 <= i < 8 ->
  byte_of (le (f <$> seqZ 0 8)) i = f i /\ 0 <= le (f <$> seqZ 0 8) < 2 ^ 64.
Proof.
  intros Hf Hi. assert (Hl : Forall is_byte (f <$> seqZ 0 8)).
  { apply Forall_fmap, List.Forall_forall. intros j Hj%list_elem_of_In%elem_of_seqZ. apply Hf. lia. }
  split; [|exact (le_bound _ Hl)]. rewrite byte_of_le by done. rewrite geti_fmap, eight_at by done. done.
Qed.

Lemma bytes_at l i : Forall is_byte l -> 0 <= i < len l -> is_byte l.[i].
Proof. intros Hl Hi. exact (proj1 (Forall_lookup _ _) Hl _ _ (geti_lookup l i Hi)). Qed.

Lemma put_byte m dst bytes x j : Forall is_byte bytes -> dst <= x -> 0 <= j < 8 ->
  is_byte (if x + j <? dst + len bytes then bytes.[x + j - dst] else byte_of (m x) j).
Proof.
  intros Hb Hx Hj. destruct (Z.ltb_spec (x + j) (dst + len bytes)); [apply bytes_at; [done|lia]|apply byte_of_range].
Qed.

Lemma put_bytes_out m p bytes x : len bytes <= 4096 -> in_page p x = false -> put_bytes m p bytes x = m x.
Proof.
  intros Hl Hx. unfold put_bytes. apply not_true_iff_false in Hx. rewrite in_page_spec in Hx.
  destruct (Z.leb_spec p x), (Z.ltb_spec x (p + len bytes)); rewrite ?andb_false_r; try done. lia.
Qed.

Lemma put_bytes_word m p bytes x : Forall is_byte bytes -> 0 <= m x < 2 ^ 64 -> 0 <= put_bytes m p bytes x < 2 ^ 64.
Proof.
  intros Hb Hm. unfold put_bytes. destruct (x mod 8 =? 0); [|done]. destruct (Z.leb_spec p x); [|done]. cbn [andb].
  destruct (Z.ltb_spec x (p + len bytes)); [|done].
  refine (proj2 (eight_bytes (fun i => if x + i <? p + len bytes then bytes.[x + i - p] else byte_of (m x) i) 0 _ _)); [|lia].
  intros j. by apply put_byte.
Qed.

Lemma put_bytes_page m p bytes x : is_page p -> in_page p x = true -> put_bytes (zero_page m p) p bytes x = data_page_of bytes (x - p).
Proof.
  intros [_ Hp] Hx. pose proof Hx as Hx'. rewrite in_page_spec in Hx'. unfold data_page_of, put_bytes, zero_page, zeros. rewrite Hx.
  assert ((x - p) mod 8 = x mod 8) as -> by zlia. rewrite (proj2 (Z.leb_le p x)), (proj2 (Z.leb_le 0 (x - p))) by lia.
  assert ((x - p <? 0 + len bytes) = (x <? p + len bytes)) as -> by (destruct (Z.ltb_spec x (p + len bytes)), (Z.ltb_spec (x - p) (0 + len bytes)); lia).
  destruct (_ && _); [|done]. f_equal. apply list_fmap_ext. intros _ i _.
  assert ((x - p + i <? 0 + len bytes) = (x + i <? p + len bytes)) as -> by (destruct (Z.ltb_spec (x + i) (p + len bytes)), (Z.ltb_spec (x - p + i) (0 + len bytes)); lia).
  destruct (_ <? _); [|done]. f_equal. lia.
Qed.

Lemma data_page_byte bytes o : Forall is_byte bytes -> 0 <= o ->
  byte_of (data_page_of bytes (o - o mod 8)) (o mod 8) = if o <? len bytes then bytes.[o] else 0.
Proof.
  intros Hb Ho. unfold data_page_of, put_bytes, zeros. set (x := o - o mod 8). set (i := o mod 8).
  assert (0 <= i < 8) by (subst i; apply Z.mod_pos_bound; lia). assert (x mod 8 = 0 /\ 0 <= x /\ x + i = o) as (-> & Hx & Ei) by (subst x i; zlia).
  rewrite (proj2 (Z.leb_le 0 x)) by done. cbn [andb Z.eqb]. destruct (Z.ltb_spec x (0 + len bytes)) as [Hlt|Hge].
  - refine (eq_trans (proj1 (eight_bytes (fun i => if x + i <? 0 + len bytes then bytes.[x + i - 0] else byte_of 0 i) i _ _)) _); [|done|].
    + intros j. by apply (put_byte (fun _ => 0)).
    + cbn beta. rewrite Ei, Z.sub_0_r, Z.add_0_l. destruct (o <? len bytes); [done|]. unfold byte_of. by rewrite Z.div_0_l by (apply Z.pow_nonzero; lia).
  - rewrite (proj2 (Z.ltb_ge o (len bytes))) by lia. unfold byte_of. by rewrite Z.div_0_l by (apply Z.pow_nonzero; lia).
Qed.

(** ** Pages of the new space *)

Section pages.
Context {A : Type} `{PageAllocator A}.
Implicit Types (s : vm A).

Definition user_byte s (root w : Z) : Z :=
  let a := vmm_get_phys s root w in byte_of (pm s (a - a mod 8)) (a mod 8).

Lemma page_byte root s0 s n c w : page_holds root s0 s n c -> w / 4096 = n ->
  let o := w mod 4096 in user_byte s root w = byte_of (c (o - o mod 8)) (o mod 8).
Proof.
  intros (p & _ & _ & (Hp & _) & Hc & Hw) Hn o. unfold user_byte. rewrite Hw by done. fold o. destruct Hp as [_ Hp].
  assert (0 <= o < 4096) by (subst o; apply Z.mod_pos_bound; lia).
  assert ((p + o) mod 8 = o mod 8) as -> by zlia. rewrite Hc; [|apply in_page_spec; zlia]. do 2 f_equal. lia.
Qed.

Lemma data_byte root s0 s n bytes w : page_holds root s0 s n (data_page_of bytes) -> Forall is_byte bytes -> w / 4096 = n ->
  user_byte s root w = if w mod 4096 <? len bytes then bytes.[w mod 4096] else 0.
Proof.
  intros Hp Hb Hn. rewrite (page_byte _ _ _ _ _ _ Hp Hn). apply data_page_byte; [done|]. apply Z.mod_pos_bound. lia.
Qed.

Lemma user_map_aligned s root v p f : 0 <= v -> user_map_page s root v p f = user_map_page s root (v / 4096 * 4096) p f.
Proof.
  intros Hv. rewrite !user_map_walk. unfold user_walk, pd_walk. by rewrite !(idx_align _ v) by lia.
Qed.

Lemma step_ok c root s0 s F n v f fill :
  clean s0 root -> pages_hold root s0 s F -> page_no n -> F n = None -> v / 4096 = n -> 0 <= v -> user_flags f ->
  fills fill c s -> 4 <= avail (pa s) ->
  let '(a, p) := alloc_page (pa s) in
  is_page p /\ p <> 0 /\ let s' := user_map_page (mkVm a (fill p)) root v p f in
  pages_hold root s0 s' (add_page F n c) /\ avail (pa s) - 4 <= avail (pa s').
Proof.
  intros Hcl Hph Hn Fn Hv Hv0 Hf Hfill Hav. pose proof (ph_ok _ _ _ _ Hph) as Ho.
  pose proof (alloc_page_law (pa s) (vo_alloc _ _ Ho)) as L. destruct (alloc_page (pa s)) as [a p].
  destruct L as (Ha1 & Hmono & _ & Hp & Hz). destruct (Hz ltac:(lia)) as [Hp0 Haa].
  destruct Hp as [|(Hpp & _ & Hfr & Huse & _)]; [done|]. split; [done|]. split; [done|]. destruct (Hfill p Hpp) as (F1 & F2 & F3).
  destruct (Hcl n Hn) as [Hl0 Hh0]. destruct (ph_none _ _ _ _ Hph n Hn Fn) as [Hl _]. rewrite Hl0 in Hl.
  assert (Hh : huge_above (pm s) root (n * 4096) = false).
  { apply not_true_iff_false. intros Hh. apply (ph_huge _ _ _ _ Hph) in Hh. congruence. }
  destruct (place_user_page c root s a (fill p) p (n * 4096) f) as (o & E & Hsome); try done.
  { apply (page_addr n); [done|apply page_div]. }
  destruct (Hsome ltac:(lia) Hh) as [Hne Hav2]. rewrite user_map_aligned, Hv by done. split; [|lia].
  pose proof (pages_hold_step root s0 s _ F n c o Hph Hn Fn E Hl0) as R. by destruct o.
Qed.

(** The range of pages of a loop: free in [F]. *)
Definition free_range (F : pagemap) (n0 k : Z) : Prop := forall n, n0 <= n < n0 + k -> page_no n /\ F n = None.

Lemma page_at_v v i : 0 <= v -> 0 <= i -> v + i * 4096 < 2 ^ 64 -> u64 (v + i * PAGE_SIZE) / 4096 = v / 4096 + i /\ 0 <= u64 (v + i * PAGE_SIZE).
Proof. intros Hv Hi Hb. unfold PAGE_SIZE. rewrite wrap_small by lia. split; [|lia]. by rewrite Z.div_add by lia. Qed.

Lemma zero_step_ok root s0 s F v f i :
  clean s0 root -> pages_hold root s0 s F -> page_no (v / 4096 + i) -> F (v / 4096 + i) = None -> 0 <= v -> 0 <= i -> v + i * 4096 < 2 ^ 64 ->
  user_flags f -> 4 <= avail (pa s) ->
  pages_hold root s0 (zero_step root v f i s) (add_page F (v / 4096 + i) zeros) /\ avail (pa s) - 4 <= avail (pa (zero_step root v f i s)).
Proof.
  intros Hcl Hph Hn Fn Hv Hi Hb Hf Hav. destruct (page_at_v v i Hv Hi Hb) as [Ev Hv0]. unfold zero_step.
  pose proof (step_ok zeros root s0 s F _ _ f (zero_page (pm s)) Hcl Hph Hn Fn Ev Hv0 Hf (zero_fills root s (ph_ok _ _ _ _ Hph)) Hav) as S.
  destruct (alloc_page (pa s)) as [a p]. destruct S as (_ & Hp0 & S). by rewrite (proj2 (Z.eqb_neq p 0)).
Qed.

Lemma zero_loop_ok root s0 s F v f k :
  clean s0 root -> pages_hold root s0 s F -> free_range F (v / 4096) k -> 0 <= v -> v + k * 4096 < 2 ^ 64 -> 0 <= k -> user_flags f -> 4 * k <= avail (pa s) ->
  let s' := for_each (zero_step root v f) (Z.to_nat k) 0 s in
  pages_hold root s0 s' (add_range F (v / 4096) k (fun _ => zeros)) /\ avail (pa s) - 4 * k <= avail (pa s').
Proof.
  intros Hcl Hph Hfr Hv Hb Hk Hf Hav. cbv zeta.
  pose proof (for_each_ind (zero_step root v f) (fun i t => pages_hold root s0 t (add_range F (v / 4096) i (fun _ => zeros)) /\
    avail (pa s) - 4 * i <= avail (pa t)) (Z.to_nat k) 0 s) as L. rewrite Z2Nat.id in L by lia. apply L; clear L.
  - split; [by apply add_range_0|lia].
  - intros i t Hi [Ht Ha]. destruct (Hfr (v / 4096 + i)) as [Hn Fn]; [lia|].
    destruct (zero_step_ok root s0 t (add_range F (v / 4096) i (fun _ => zeros)) v f i) as [H1 H2]; try done; try lia.
    { by rewrite add_range_out by lia. }
    split; [|lia]. apply add_range_snoc; [lia|done].
Qed.
(** The bytes of page [i] of a segment. *)
Definition seg_bytes (img : list Z) (off data_len i : Z) : list Z :=
  take (Z.to_nat (Z.min PAGE_SIZE (data_len - i * PAGE_SIZE))) (drop (Z.to_nat (off + i * PAGE_SIZE)) img).

Lemma seg_bytes_ok img off data_len i :
  Forall is_byte img -> Forall is_byte (seg_bytes img off data_len i) /\ len (seg_bytes img off data_len i) <= 4096.
Proof.
  intros Hb. split; [by apply Forall_take, Forall_drop|]. unfold seg_bytes, len, PAGE_SIZE. rewrite length_take. lia.
Qed.

Lemma data_flags_ok w x : user_flags (data_flags w x).
Proof. destruct w, x; (split; [by vm_compute|done]). Qed.

Lemma bss_flags_ok x : user_flags (bss_flags x).
Proof. destruct x; (split; [by vm_compute|done]). Qed.

Lemma page_count_ok n : 0 <= n < 2 ^ 63 -> page_count n = (n + 4095) / 4096.
Proof. intros Hn. unfold page_count, PAGE_SIZE. rewrite wrap_small by lia. f_equal. lia. Qed.

Lemma data_step_ok root s0 s F img v off data_len w x i :
  clean s0 root -> pages_hold root s0 s F -> Forall is_byte img -> off + data_len <= len img -> i * 4096 < data_len ->
  page_no (v / 4096 + i) -> F (v / 4096 + i) = None -> 0 <= v -> 0 <= i -> v + i * 4096 < 2 ^ 64 -> 4 <= avail (pa s) ->
  match data_step img off root v data_len (data_flags w x) i s with
  | Next s' => pages_hold root s0 s' (add_page F (v / 4096 + i) (data_page_of (seg_bytes img off data_len i))) /\
      avail (pa s) - 4 <= avail (pa s')
  | Stop _ => False
  end.
Proof.
  intros Hcl Hph Himg Hin Hlast Hn Fn Hv Hi Hb Hav. destruct (page_at_v v i Hv Hi Hb) as [Ev Hv0].
  set (bytes := seg_bytes img off data_len i). destruct (seg_bytes_ok img off data_len i Himg) as [Hby Hbl]. fold bytes in Hby, Hbl.
  assert (Hfill : fills (fun p => put_bytes (zero_page (pm s) p) p bytes) (data_page_of bytes) s).
  { intros p Hp. split_and!; intros y.
    - intros Hy. rewrite put_bytes_out by done. by apply zero_page_out.
    - apply put_bytes_word; [done|]. apply zero_page_word, (ph_ok _ _ _ _ Hph).
    - by apply put_bytes_page. }
  pose proof (step_ok (data_page_of bytes) root s0 s F _ _ (data_flags w x) _ Hcl Hph Hn Fn Ev Hv0 (data_flags_ok w x) Hfill Hav) as S.
  unfold data_step. destruct (alloc_page (pa s)) as [a p]. destruct S as (_ & Hp0 & S). rewrite (proj2 (Z.eqb_neq p 0)) by done.
  assert ((if PAGE_SIZE <? data_len - i * PAGE_SIZE then PAGE_SIZE else data_len - i * PAGE_SIZE) = Z.min PAGE_SIZE (data_len - i * PAGE_SIZE)) as ->
    by (destruct (Z.ltb_spec PAGE_SIZE (data_len - i * PAGE_SIZE)); lia).
  rewrite (proj2 (Z.ltb_ge _ _)) by (unfold PAGE_SIZE; lia). exact S.
Qed.

Lemma user_map_data_ok root s0 s F img v off data_len w x :
  clean s0 root -> pages_hold root s0 s F -> Forall is_byte img -> 0 <= data_len < 2 ^ 63 -> off + data_len <= len img ->
  0 <= v -> v + page_count data_len * 4096 < 2 ^ 64 -> free_range F (v / 4096) (page_count data_len) -> 4 * page_count data_len <= avail (pa s) ->
  exists s', user_map_data img root v off data_len w x s = Some s' /\
    pages_hold root s0 s' (add_range F (v / 4096) (page_count data_len) (fun i => data_page_of (seg_bytes img off data_len i))) /\
    avail (pa s) - 4 * page_count data_len <= avail (pa s').
Proof.
  intros Hcl Hph Himg Hlen Hin Hv Hb Hfr Hav. unfold user_map_data. set (k := page_count data_len) in *.
  assert (Hk : 0 <= k) by (subst k; rewrite page_count_ok by done; apply Z.div_pos; lia).
  set (G := fun i => add_range F (v / 4096) i (fun i => data_page_of (seg_bytes img off data_len i))).
  pose proof (for_loop_ind (data_step img off root v data_len (data_flags w x)) (fun i t =>
    pages_hold root s0 t (G i) /\ avail (pa s) - 4 * i <= avail (pa t)) (fun _ => False) (Z.to_nat k) 0 s) as L.
  assert (L' := L ltac:(split; [by apply add_range_0|lia])). clear L. rewrite Z2Nat.id in L' by lia.
  assert (Hstep : forall i t, 0 <= i < 0 + k -> pages_hold root s0 t (G i) /\ avail (pa s) - 4 * i <= avail (pa t) ->
    match data_step img off root v data_len (data_flags w x) i t with
    | Next t' => pages_hold root s0 t' (G (i + 1)) /\ avail (pa s) - 4 * (i + 1) <= avail (pa t')
    | Stop _ => False end).
  { intros i t Hi [Ht Ha]. destruct (Hfr (v / 4096 + i)) as [Hn Fn]; [lia|].
    assert (Hl : i * 4096 < data_len) by (subst k; rewrite page_count_ok in Hi by done; zlia).
    pose proof (data_step_ok root s0 t (G i) img v off data_len w x i Hcl Ht Himg Hin Hl Hn) as S. unfold G in S at 1.
    rewrite add_range_out in S by lia. specialize (S Fn Hv ltac:(lia) ltac:(lia) ltac:(lia)).
    destruct (data_step _ _ _ _ _ _ i t) as [t'|]; [|done]. destruct S as [S1 S2]. split; [apply add_range_snoc; [lia|exact S1]|lia]. }
  specialize (L' Hstep). destruct (for_loop _ _ _ _) as [s'|r]; [|done]. exists s'. split; [done|]. exact L'.
Qed.
End pages.

(** ** Segments in the address space *)

Definition seg_size (ph : elf64_phdr) : Z := Z.max (p_filesz ph) (p_memsz ph).
Definition seg_pages (ph : elf64_phdr) : Z := if p_type ph =? PT_LOAD then (seg_size ph + 4095) / 4096 else 0.
Definition seg_page (ph : elf64_phdr) : Z := p_vaddr ph / 4096.

(** The lowest address a stack can have. *)
Definition STACK_LOW : Z := USER_STACK_TOP_DEFAULT - 2 ^ 24 - USER_STACK_SIZE_DEFAULT.

(** A segment to load starts at a page, lies below the stack, and its bytes are in
    the image. *)
Definition seg_ok (img : list Z) (ph : elf64_phdr) : Prop :=
  p_type ph = PT_LOAD ->
  0 <= p_vaddr ph /\ p_vaddr ph mod 4096 = 0 /\ 0 <= p_filesz ph /\ 0 <= p_memsz ph /\
  p_vaddr ph + seg_size ph <= STACK_LOW /\ 0 <= p_offset ph /\ p_offset ph + p_filesz ph <= len img.

Definition seg_content (img : list Z) (ph : elf64_phdr) (i : Z) : Z -> Z :=
  data_page_of (seg_bytes img (p_offset ph) (p_filesz ph) i).

Definition seg_map (img : list Z) (F : pagemap) (ph : elf64_phdr) : pagemap :=
  add_range F (seg_page ph) (seg_pages ph) (seg_content img ph).

Lemma data_page_of_nil o : data_page_of [] o = 0.
Proof.
  unfold data_page_of, put_bytes, zeros. destruct (o mod 8 =? 0); [|done]. destruct (Z.leb_spec 0 o); [|done].
  cbn [andb]. change (len (@nil Z)) with 0. by rewrite (proj2 (Z.ltb_ge o (0 + 0))) by lia.
Qed.

Lemma seg_bytes_end img off n i : 0 <= n < 2 ^ 63 -> page_count n <= i -> seg_bytes img off n i = [].
Proof.
  intros Hn Hi. rewrite page_count_ok in Hi by done. unfold seg_bytes, PAGE_SIZE.
  assert (Z.to_nat (Z.min 4096 (n - i * 4096)) = 0%nat) as -> by zlia. done.
Qed.

Lemma bss_ok img ph : seg_ok img ph -> p_type ph = PT_LOAD -> p_filesz ph < p_memsz ph ->
  bss_start ph = p_vaddr ph + page_count (p_filesz ph) * 4096 /\ bss_pages ph = seg_pages ph - page_count (p_filesz ph) /\ 0 <= bss_pages ph.
Proof.
  intros Hok Ht Hlt. destruct (Hok Ht) as (Hv & Hvm & Hf & Hm & Hb & _). unfold seg_size in Hb. rewrite Z.max_r in Hb by lia.
  assert (STACK_LOW < 2 ^ 47) by by vm_compute.
  assert (Es : bss_start ph = p_vaddr ph + page_count (p_filesz ph) * 4096).
  { unfold bss_start. rewrite (wrap_small 64) by lia. change (round_page ?a) with (ALIGN_UP a PAGE_SIZE).
    rewrite ALIGN_UP_page, page_count_ok by (unfold PAGE_SIZE; lia). unfold PAGE_SIZE. zlia. }
  split; [done|]. unfold bss_pages, seg_pages. rewrite Ht, Es. cbn [Z.eqb Pos.eqb PT_LOAD]. unfold seg_size. rewrite Z.max_r by lia.
  rewrite (page_count_ok (p_filesz ph)) by lia. set (k := (p_filesz ph + 4095) / 4096). rewrite (wrap_small 64 (_ + _)) by lia.
  replace (p_vaddr ph + p_memsz ph - (p_vaddr ph + k * 4096)) with (p_memsz ph - k * 4096) by lia.
  assert (Hk : k * 4096 < p_filesz ph + 4096 /\ 0 <= k) by (subst k; zlia). unfold page_count, PAGE_SIZE.
  destruct (decide (k * 4096 <= p_memsz ph)) as [Hle|Hgt].
  - rewrite !wrap_small by (rewrite ?wrap_small; lia). assert (E : (p_memsz ph - k * 4096 + 4096 - 1) / 4096 = (p_memsz ph + 4095) / 4096 - k) by zlia. rewrite E. split; [done|zlia].
  - assert (E : u64 (u64 (p_memsz ph - k * 4096) + 4096 - 1) = p_memsz ph - k * 4096 + 4095).
    { unfold wrap. rewrite <- Z.add_sub_assoc, Zplus_mod_idemp_l. apply Z.mod_small. lia. }
    rewrite E. split; zlia.
Qed.

Lemma seg_byte img off n k : 0 <= off -> off + n <= len img -> 0 <= k ->
  let bytes := seg_bytes img off n (k / 4096) in
  (if k mod 4096 <? len bytes then bytes.[k mod 4096] else 0) = if k <? n then img.[off + k] else 0.
Proof.
  intros Ho Hin Hk. cbv zeta. unfold seg_bytes, PAGE_SIZE.
  pose proof (Z.div_mod k 4096 ltac:(lia)) as Ek. pose proof (Z.mod_pos_bound k 4096 ltac:(lia)) as Hm.
  set (i := k / 4096) in *. assert (0 <= i) by (subst i; apply Z.div_pos; lia). set (o := k mod 4096) in *.
  destruct (Z.ltb_spec k n) as [Hlt|Hge].
  - assert (o < len (take (Z.to_nat (Z.min 4096 (n - i * 4096))) (drop (Z.to_nat (off + i * 4096)) img))) as Hol.
    { unfold len in *. rewrite length_take, length_drop. lia. }
    rewrite (proj2 (Z.ltb_lt _ _)) by done. unfold geti. rewrite !list_lookup_total_alt, lookup_take_lt, lookup_drop by lia. do 2 f_equal. lia.
  - rewrite (proj2 (Z.ltb_ge _ _)); [done|]. unfold len. rewrite length_take. lia.
Qed.

Section segments.
Context {A : Type} `{PageAllocator A}.
Implicit Types (s : vm A).

Lemma load_segment_ok root s0 s F img ph :
  clean s0 root -> pages_hold root s0 s F -> Forall is_byte img -> seg_ok img ph ->
  free_range F (seg_page ph) (seg_pages ph) -> 4 * seg_pages ph <= avail (pa s) ->
  exists s', load_segment img root ph s = Some s' /\ pages_hold root s0 s' (seg_map img F ph) /\
    avail (pa s) - 4 * seg_pages ph <= avail (pa s').
Proof.
  intros Hcl Hph Himg Hok Hfr Hav. unfold load_segment, seg_map. destruct (Z.eqb_spec (p_type ph) PT_LOAD) as [Ht|Ht]; cbn [negb].
  2: { assert (seg_pages ph = 0) as -> by (unfold seg_pages; by rewrite (proj2 (Z.eqb_neq _ _))).
       exists s. split; [done|]. split; [by apply add_range_0|lia]. }
  destruct (Hok Ht) as (Hv & Hvm & Hf & Hm & Hb & Ho & Hin). assert (STACK_LOW < 2 ^ 47) by by vm_compute. unfold seg_size in Hb.
  set (k1 := page_count (p_filesz ph)).
  assert (Hk1 : 0 <= k1 /\ k1 * 4096 < p_filesz ph + 4096) by (subst k1; rewrite page_count_ok by lia; zlia).
  assert (Hk2 : seg_pages ph = (seg_size ph + 4095) / 4096) by (unfold seg_pages; by rewrite Ht).
  assert (Hk12 : k1 <= seg_pages ph) by (rewrite Hk2; subst k1; rewrite page_count_ok by lia; unfold seg_size; zlia).
  destruct (user_map_data_ok root s0 s F img (p_vaddr ph) (p_offset ph) (p_filesz ph) (negb (Z.land (p_flags ph) PF_W =? 0))
    (negb (Z.land (p_flags ph) PF_X =? 0))) as (s1 & -> & H1 & A1); try done; try lia.
  { intros n Hn. apply Hfr. unfold seg_page. fold k1 in Hn. lia. }
  cbn [mbind option_bind]. fold k1 in H1, A1. eexists. split; [done|]. destruct (Z.ltb_spec (p_filesz ph) (p_memsz ph)) as [Hlt|Hge].
  - destruct (bss_ok img ph Hok Ht Hlt) as (Es & Ek & Hk0). fold k1 in Es, Ek.
    assert (En : bss_start ph / 4096 = seg_page ph + k1) by (rewrite Es; by apply Z.div_add).
    assert (Hend : seg_pages ph * 4096 < seg_size ph + 4096) by (rewrite Hk2; zlia). unfold seg_size in Hend.
    destruct (zero_loop_ok root s0 s1 (add_range F (seg_page ph) k1 (seg_content img ph)) (bss_start ph) (bss_flags (negb (Z.land (p_flags ph) PF_X =? 0))) (bss_pages ph))
      as [H2 A2]; try done; try lia.
    { intros n Hn. rewrite En in Hn. destruct (Hfr n) as [Hp Fn]; [lia|]. split; [done|]. by rewrite add_range_out by lia. }
    { apply bss_flags_ok. }
    split; [|lia]. eapply pages_hold_equiv; [|exact H2]. intros n Hn. rewrite En.
    destruct (decide (seg_page ph + k1 <= n < seg_page ph + k1 + bss_pages ph)) as [Hi|Hno].
    + rewrite (add_range_in _ (seg_page ph + k1)), add_range_in by lia. constructor. intros o. unfold seg_content.
      rewrite seg_bytes_end, data_page_of_nil by (fold k1; lia). done.
    + rewrite (add_range_out _ (seg_page ph + k1)) by done. destruct (decide (seg_page ph <= n < seg_page ph + k1)).
      * rewrite !add_range_in by lia. by constructor.
      * rewrite !add_range_out by lia. by destruct (F n); constructor.
  - assert (k1 = seg_pages ph) as <-; [|done]. rewrite Hk2. subst k1. rewrite page_count_ok by lia. unfold seg_size. by rewrite Z.max_l by lia.
Qed.
Definition in_seg (ph : elf64_phdr) (n : Z) : Prop := seg_page ph <= n < seg_page ph + seg_pages ph.
Definition total_pages (phs : list elf64_phdr) : Z := foldr (fun ph t => seg_pages ph + t) 0 phs.

(** An image the loader takes, with its header and its program headers. *)
Record elf_image (img : list Z) (h : elf64_hdr) (phs : list elf64_phdr) : Prop := {
  ei_bytes : Forall is_byte img;
  ei_len : SIZEOF_HDR <= len img;
  ei_hdr : read_hdr img = Some h /\ hdr_ok img h = true;
  ei_num : len phs = e_phnum h;
  ei_phdr : forall i, 0 <= i < len phs -> read_phdr img (e_phoff h) i = Some phs.[i];
  ei_seg : forall i, 0 <= i < len phs -> seg_ok img phs.[i];
  ei_disjoint : forall i j n, 0 <= i < j -> j < len phs -> ~ (in_seg phs.[i] n /\ in_seg phs.[j] n);
}.

Lemma seg_pages_nonneg img ph : seg_ok img ph -> 0 <= seg_pages ph.
Proof.
  intros Hok. unfold seg_pages. destruct (Z.eqb_spec (p_type ph) PT_LOAD) as [E|]; [|done]. destruct (Hok E) as (_ & _ & ? & _).
  unfold seg_size. zlia.
Qed.

Lemma in_seg_low img ph n : seg_ok img ph -> in_seg ph n -> page_no n /\ n < STACK_LOW / 4096.
Proof.
  intros Hok. unfold in_seg, seg_pages, seg_page. destruct (Z.eqb_spec (p_type ph) PT_LOAD) as [E|]; [|lia].
  destruct (Hok E) as (Hv & Hvm & Hf & _ & Hb & _). unfold page_no. assert (STACK_LOW < 2 ^ 47) by by vm_compute.
  assert (STACK_LOW mod 4096 = 0) by by vm_compute. change (2 ^ 36) with 68719476736. change (2 ^ 47) with 140737488355328 in *. intros Hn. split; zlia.
Qed.

Lemma fold_out img F phs n : (forall ph, ph ∈ phs -> ~ in_seg ph n) -> foldl (seg_map img) F phs n = F n.
Proof.
  revert F. induction phs as [|ph phs IH]; intros F Hn; [done|]. cbn [foldl]. rewrite IH by (intros ph' Hph; apply Hn; by right).
  unfold seg_map. apply add_range_out. apply Hn. by left.
Qed.

Lemma geti_elem (phs : list elf64_phdr) i ph : phs !! i = Some ph -> phs.[Z.of_nat i] = ph /\ Z.of_nat i < len phs.
Proof.
  intros E. pose proof (lookup_lt_Some _ _ _ E). unfold geti, len. rewrite Nat2Z.id. split; [by apply list_lookup_total_correct|lia].
Qed.

Section image.
Context (img : list Z) (h : elf64_hdr) (phs : list elf64_phdr) (Himg : elf_image img h phs).

Lemma elem_index ph : ph ∈ phs -> exists i, 0 <= i < len phs /\ phs.[i] = ph /\ seg_ok img ph.
Proof.
  intros (i & Hi)%list_elem_of_lookup. destruct (geti_elem phs i ph Hi) as [E Hl]. exists (Z.of_nat i). split; [lia|]. split; [done|].
  rewrite <- E. apply (ei_seg _ _ _ Himg). lia.
Qed.

Lemma fold_free i n : 0 <= i < len phs -> in_seg phs.[i] n -> foldl (seg_map img) no_pages (take (Z.to_nat i) phs) n = None.
Proof.
  intros Hi Hn. rewrite fold_out; [done|]. intros ph (j & Hj)%list_elem_of_lookup Hph.
  apply lookup_take_Some in Hj as [Hj Hlt]. destruct (geti_elem phs j ph Hj) as [E Hl].
  apply (ei_disjoint _ _ _ Himg (Z.of_nat j) i n); [lia|lia|]. by rewrite E.
Qed.

Lemma fold_in ph n : ph ∈ phs -> in_seg ph n -> foldl (seg_map img) no_pages phs n = Some (seg_content img ph (n - seg_page ph)).
Proof.
  intros (i & Hi)%list_elem_of_lookup Hn. destruct (geti_elem phs i ph Hi) as [E Hl].
  rewrite <- (take_drop_middle phs i ph Hi), foldl_app. cbn [foldl]. rewrite fold_out.
  - unfold seg_map at 1. by apply add_range_in.
  - intros ph' (j & Hj)%list_elem_of_lookup Hph. rewrite lookup_drop in Hj. destruct (geti_elem phs _ ph' Hj) as [E' Hl'].
    apply (ei_disjoint _ _ _ Himg (Z.of_nat i) (Z.of_nat (S i + j)) n); [lia|lia|]. by rewrite E, E'.
Qed.

Lemma total_take i : 0 <= i < len phs -> total_pages (take (Z.to_nat (i + 1)) phs) = total_pages (take (Z.to_nat i) phs) + seg_pages phs.[i].
Proof.
  intros Hi. replace (Z.to_nat (i + 1)) with (S (Z.to_nat i)) by lia. rewrite (take_S_r _ _ _ (geti_lookup phs i Hi)).
  unfold total_pages. rewrite foldr_app. cbn [foldr]. rewrite Z.add_0_r.
  generalize (take (Z.to_nat i) phs) as l. induction l as [|ph l IH]; cbn [foldr]; lia.
Qed.

Lemma total_take_le i : 0 <= i <= len phs -> total_pages (take (Z.to_nat i) phs) <= total_pages phs.
Proof.
  intros Hi. rewrite <- (take_drop (Z.to_nat i) phs) at 2. unfold total_pages. rewrite foldr_app.
  assert (Hd : 0 <= foldr (fun ph t => seg_pages ph + t) 0 (drop (Z.to_nat i) phs)).
  { assert (Hall : forall l, (forall ph, ph ∈ l -> ph ∈ phs) -> 0 <= foldr (fun ph t => seg_pages ph + t) 0 l).
    { induction l as [|ph l IH]; intros Hl; [done|]. cbn [foldr]. specialize (IH ltac:(intros p Hp; apply Hl; by right)).
      destruct (elem_index ph) as (_ & _ & _ & Hok); [apply Hl; by left|]. pose proof (seg_pages_nonneg img ph Hok). lia. }
    apply Hall. intros ph (j & Hj)%list_elem_of_lookup. rewrite lookup_drop in Hj. by apply list_elem_of_lookup; eexists. }
  revert Hd. generalize (foldr (fun ph t => seg_pages ph + t) 0 (drop (Z.to_nat i) phs)) as d. intros d Hd.
  induction (take (Z.to_nat i) phs) as [|ph l IH]; cbn [foldr]; lia.
Qed.

Lemma phdrs_ok root s0 s :
  clean s0 root -> pages_hold root s0 s no_pages -> 4 * total_pages phs <= avail (pa s) ->
  exists s', for_loop (phdr_step img root (e_phoff h)) (Z.to_nat (e_phnum h)) 0 s = Next s' /\
    pages_hold root s0 s' (foldl (seg_map img) no_pages phs) /\ avail (pa s) - 4 * total_pages phs <= avail (pa s').
Proof.
  intros Hcl Hph Hav. rewrite <- (ei_num _ _ _ Himg). pose proof (len_nonneg phs).
  set (G := fun i => foldl (seg_map img) no_pages (take (Z.to_nat i) phs)).
  pose proof (for_loop_ind (phdr_step img root (e_phoff h)) (fun i t => pages_hold root s0 t (G i) /\
    avail (pa s) - 4 * total_pages (take (Z.to_nat i) phs) <= avail (pa t)) (fun _ => False) (Z.to_nat (len phs)) 0 s) as L.
  assert (L' := L ltac:(split; [done|change (total_pages (take (Z.to_nat 0) phs)) with 0; lia])). clear L. rewrite Z2Nat.id in L' by lia.
  assert (Hstep : forall i t, 0 <= i < 0 + len phs -> pages_hold root s0 t (G i) /\ avail (pa s) - 4 * total_pages (take (Z.to_nat i) phs) <= avail (pa t) ->
    match phdr_step img root (e_phoff h) i t with
    | Next t' => pages_hold root s0 t' (G (i + 1)) /\ avail (pa s) - 4 * total_pages (take (Z.to_nat (i + 1)) phs) <= avail (pa t')
    | Stop _ => False end).
  { intros i t Hi [Ht Ha]. assert (Hi' : 0 <= i < len phs) by lia. pose proof (total_take i Hi') as Et. pose proof (total_take_le (i + 1) ltac:(lia)).
    pose proof (ei_seg _ _ _ Himg i Hi') as Hok. unfold phdr_step. rewrite (ei_phdr _ _ _ Himg i Hi').
    destruct (load_segment_ok root s0 t (G i) img phs.[i] Hcl Ht (ei_bytes _ _ _ Himg) Hok) as (t' & -> & S1 & S2).
    - intros n Hn. split; [by apply (in_seg_low img phs.[i])|]. by apply fold_free.
    - lia.
    - split; [|lia]. unfold G. replace (Z.to_nat (i + 1)) with (S (Z.to_nat i)) by lia. rewrite (take_S_r _ _ _ (geti_lookup phs i Hi')), foldl_app. exact S1. }
  specialize (L' Hstep). destruct (for_loop _ _ _ _) as [s'|]; [|done]. exists s'. split; [done|].
  unfold G in L'. rewrite Z.add_0_l, !take_ge in L' by (unfold len; lia). exact L'.
Qed.

End image.
End segments.

(** The bytes of a segment are put at the start of its first page, wherever in the
    page the segment starts. *)
Lemma user_map_data_unaligned {A} `{PageAllocator A} root s0 (s : vm A) F img v off n w x s' k :
  clean s0 root -> pages_hold root s0 s F -> Forall is_byte img -> 0 <= off -> 0 <= n < 2 ^ 63 -> off + n <= len img ->
  0 <= v -> v + page_count n * 4096 < 2 ^ 64 -> free_range F (v / 4096) (page_count n) -> 4 * page_count n <= avail (pa s) ->
  user_map_data img root v off n w x s = Some s' -> 0 <= k < n ->
  user_byte s' root (v / 4096 * 4096 + k) = img.[off + k].
Proof.
  intros Hcl Hph Himg Hoff Hn Hin Hv Hb Hfr Hav Hs Hk.
  destruct (user_map_data_ok root s0 s F img v off n w x) as (s1 & E & H1 & _); try done. rewrite Hs in E. injection E as <-.
  assert (Hi : 0 <= k / 4096 < page_count n) by (rewrite page_count_ok by done; zlia).
  assert (Ew : (v / 4096 * 4096 + k) / 4096 = v / 4096 + k / 4096 /\ (v / 4096 * 4096 + k) mod 4096 = k mod 4096) by (split; zlia). destruct Ew as [Ew Eo].
  assert (Hp : page_holds root s0 s' (v / 4096 + k / 4096) (data_page_of (seg_bytes img off n (k / 4096)))).
  { apply (ph_page _ _ _ _ H1); [apply Hfr; lia|]. rewrite add_range_in by lia. by rewrite Z.add_simpl_l. }
  rewrite (data_byte root s0 s' _ _ _ Hp (proj1 (seg_bytes_ok _ _ _ _ Himg)) Ew), Eo, seg_byte by lia.
  by rewrite (proj2 (Z.ltb_lt _ _)) by lia.
Qed.

(** ** The whole load *)

Lemma stack_top_ok rnd :
  STACK_LOW + USER_STACK_SIZE_DEFAULT <= stack_top rnd <= USER_STACK_TOP_DEFAULT /\ stack_top rnd mod 4096 = 0.
Proof.
  unfold stack_top, STACK_LOW. change (Z.shiftl 1 ASLR_STACK_BITS - 1) with (Z.ones 12). rewrite Z.land_ones, Z.shiftl_mul_pow2 by lia.
  pose proof (Z.mod_pos_bound rnd (2 ^ 12) ltac:(lia)) as Hr. set (r := rnd mod 2 ^ 12) in *. unfold USER_STACK_TOP_DEFAULT, USER_STACK_SIZE_DEFAULT.
  change (2 ^ 12) with 4096 in *. change (2 ^ 24) with 16777216. split; [lia|].
  replace (0x00007FFFFFE00000 - r * 4096) with ((0x7FFFFFE00 - r) * 4096) by lia. apply Z_mod_mult.
Qed.

#[local] Instance in_seg_dec ph n : Decision (in_seg ph n).
Proof. unfold in_seg. apply _. Defined.

Definition in_stack (rnd w : Z) : Prop := stack_top rnd - USER_STACK_SIZE_DEFAULT <= w < stack_top rnd.
#[local] Instance in_stack_dec rnd w : Decision (in_stack rnd w).
Proof. unfold in_stack. apply _. Defined.

Section whole.
Context {A : Type} `{PageAllocator A}.
Implicit Types (s : vm A).

(** What a program finds in its address space. *)
Record loaded s s' (boot root rnd : Z) (img : list Z) (phs : list elf64_phdr) : Prop := {
  ld_ok : vm_ok s' root;
  ld_segment : forall ph k, ph ∈ phs -> p_type ph = PT_LOAD -> 0 <= k < seg_size ph ->
    user_byte s' root (p_vaddr ph + k) = if k <? p_filesz ph then img.[p_offset ph + k] else 0;
  ld_stack : forall w, in_stack rnd w -> user_byte s' root w = 0;
  ld_mapped : forall w, 0 <= w < 2 ^ 48 ->
    is_Some (leaf_at (pm s') root w) <-> in_stack rnd w \/ exists ph, ph ∈ phs /\ in_seg ph (w / 4096);
  ld_rest : forall w, 0 <= w < 2 ^ 48 -> leaf_at (pm s') root w = None ->
    vmm_get_phys s' root w = if idx 3 w <? 4 then vmm_get_phys s boot w else 0;
  ld_memory : forall q x, is_page q -> in_use (pa s) q -> in_page q x = true -> pm s' x = pm s x;
}.

Lemma map_stack_ok root s0 s F rnd :
  clean s0 root -> pages_hold root s0 s F -> (forall n, STACK_LOW / 4096 <= n -> F n = None) -> 4 * 64 <= avail (pa s) ->
  pages_hold root s0 (map_stack root rnd s) (add_range F (stack_top rnd / 4096 - 64) 64 (fun _ => zeros)).
Proof.
  intros Hcl Hph HF Hav. destruct (stack_top_ok rnd) as [Hst Hm]. assert (0 < STACK_LOW /\ STACK_LOW mod 4096 = 0) as [HL HLm] by by vm_compute.
  assert (USER_STACK_TOP_DEFAULT < 2 ^ 47) by by vm_compute. unfold map_stack. change (USER_STACK_SIZE_DEFAULT / PAGE_SIZE) with 64.
  change USER_STACK_SIZE_DEFAULT with (64 * 4096) in *. set (v := stack_top rnd - 64 * 4096).
  assert (Ev : v / 4096 = stack_top rnd / 4096 - 64) by (subst v; zlia). rewrite <- Ev.
  change (2 ^ 47) with 140737488355328 in *.
  apply (zero_loop_ok root s0 s F v STACK_FLAGS 64 Hcl Hph); [|lia|lia|lia|by split|lia].
  intros n Hn. split; [unfold page_no; change (2 ^ 36) with 68719476736; zlia|]. apply HF. zlia.
Qed.

Lemma loaded_ok s0 s s' boot root rnd img h phs :
  elf_image img h phs -> clean s0 root ->
  (forall w, vmm_get_phys s0 root w = if idx 3 w <? 4 then vmm_get_phys s boot w else 0) ->
  (forall q, is_page q -> in_use (pa s) q -> data_page root s0 q /\ forall x, in_page q x = true -> pm s0 x = pm s x) ->
  pages_hold root s0 s' (add_range (foldl (seg_map img) no_pages phs) (stack_top rnd / 4096 - 64) 64 (fun _ => zeros)) ->
  loaded s s' boot root rnd img phs.
Proof.
  intros Himg Hcl Hphys Hdata Hph. destruct (stack_top_ok rnd) as [Hst Hm].
  assert (0 < STACK_LOW /\ STACK_LOW mod 4096 = 0) as [HL HLm] by by vm_compute. assert (USER_STACK_TOP_DEFAULT < 2 ^ 47) by by vm_compute.
  change USER_STACK_SIZE_DEFAULT with (64 * 4096) in Hst. change (2 ^ 47) with 140737488355328 in *.
  assert (Hstack : forall w, in_stack rnd w <-> stack_top rnd / 4096 - 64 <= w / 4096 < stack_top rnd / 4096 - 64 + 64)
    by (intros w; unfold in_stack; change USER_STACK_SIZE_DEFAULT with (64 * 4096); split; intros; zlia).
  assert (Hlow : forall ph n, ph ∈ phs -> in_seg ph n -> page_no n /\ ~ stack_top rnd / 4096 - 64 <= n < stack_top rnd / 4096 - 64 + 64).
  { intros ph n Hin Hn. destruct (elem_index img h phs Himg ph Hin) as (_ & _ & _ & Hok). destruct (in_seg_low img ph n Hok Hn). split; [done|zlia]. }
  assert (Hseg : forall ph n, ph ∈ phs -> in_seg ph n -> page_no n /\ page_holds root s0 s' n (seg_content img ph (n - seg_page ph))).
  { intros ph n Hin Hn. destruct (Hlow ph n Hin Hn) as [Hp Hns]. split; [done|]. apply (ph_page _ _ _ _ Hph); [done|].
    rewrite add_range_out by done. by apply (fold_in img h phs Himg). }
  assert (Hmap : forall w, 0 <= w < 2 ^ 48 -> (in_stack rnd w \/ exists ph, ph ∈ phs /\ in_seg ph (w / 4096)) -> is_Some (leaf_at (pm s') root w)).
  { intros w Hw Hc. rewrite (leaf_at_page _ _ w (w / 4096 * 4096)) by (by rewrite Z.div_mul).
    assert (page_no (w / 4096)) by (unfold page_no; change (2 ^ 48) with (2 ^ 36 * 4096) in Hw; zlia).
    destruct Hc as [Hs|(ph & Hin & Hn)]; [|destruct (Hseg ph _ Hin Hn) as (_ & p & -> & _); by eexists].
    destruct (ph_page _ _ _ _ Hph (w / 4096) zeros) as (p & -> & _); [done| |by eexists]. apply add_range_in. by apply Hstack. }
  assert (Hun : forall w, 0 <= w < 2 ^ 48 -> ~ (in_stack rnd w \/ exists ph, ph ∈ phs /\ in_seg ph (w / 4096)) ->
    leaf_at (pm s') root w = None /\ vmm_get_phys s' root w = if idx 3 w <? 4 then vmm_get_phys s boot w else 0).
  { intros w Hw Hc. assert (Hn : page_no (w / 4096)) by (unfold page_no; change (2 ^ 48) with (2 ^ 36 * 4096) in Hw; zlia).
    destruct (ph_none _ _ _ _ Hph (w / 4096) Hn) as [Hl Hp].
    { rewrite add_range_out by (rewrite <- Hstack; tauto). rewrite fold_out; [done|]. intros ph Hin Hs. apply Hc. right. by exists ph. }
    rewrite (leaf_at_page _ _ w (w / 4096 * 4096)), Hl by (by rewrite Z.div_mul). split; [by apply Hcl|]. by rewrite Hp. }
  constructor.
  - apply (ph_ok _ _ _ _ Hph).
  - intros ph k Hin Ht Hk. destruct (elem_index img h phs Himg ph Hin) as (_ & _ & _ & Hok). destruct (Hok Ht) as (Hv & Hvm & _ & _ & _ & Hoff & Hin').
    assert (Ew : (p_vaddr ph + k) / 4096 = seg_page ph + k / 4096 /\ (p_vaddr ph + k) mod 4096 = k mod 4096) by (unfold seg_page; split; zlia).
    destruct Ew as [Ew Eo].
    destruct (Hseg ph (seg_page ph + k / 4096) Hin) as [_ Hpg]; [unfold in_seg, seg_pages; rewrite Ht; cbn [Z.eqb Pos.eqb PT_LOAD]; zlia|].
    rewrite Z.add_simpl_l in Hpg. unfold seg_content in Hpg.
    rewrite (data_byte root s0 s' _ _ _ Hpg (proj1 (seg_bytes_ok _ _ _ _ (ei_bytes _ _ _ Himg))) Ew), Eo. apply seg_byte; lia.
  - intros w Hw. assert (page_holds root s0 s' (w / 4096) zeros) as Hpg.
    { pose proof (proj1 (Hstack w) Hw) as Hw'. apply (ph_page _ _ _ _ Hph); [unfold page_no; change (2 ^ 36) with 68719476736; zlia|]. by apply add_range_in. }
    rewrite (page_byte root s0 s' _ _ w Hpg eq_refl). unfold byte_of, zeros. rewrite Z.div_0_l; [done|]. apply Z.pow_nonzero; [lia|].
    pose proof (Z.mod_pos_bound (w mod 4096) 8 ltac:(lia)). lia.
  - intros w Hw. split; [|by apply Hmap]. intros [p Hp]. destruct (decide (in_stack rnd w)); [by left|].
    destruct (decide (Exists (fun ph => in_seg ph (w / 4096)) phs)) as [Hex|Hno]; [right; by apply list.Exists_exists|].
    destruct (Hun w Hw) as [Hl _]; [|congruence]. intros [?|Hex]; [done|]. by apply Hno, list.Exists_exists.
  - intros w Hw Hl. apply Hun; [done|]. intros Hc. destruct (Hmap w Hw Hc) as [p Hp]. congruence.
  - intros q x Hq Hu Hx. destruct (Hdata q Hq Hu) as [Hd Hm']. rewrite (ph_mem _ _ _ _ Hph q x Hd Hx). by apply Hm'.
Qed.
End whole.

(** C30: With memory enough (four pages for each page of the program, its stacks and
    the copied tables), loading an ELF image gives the program a new address space that holds exactly
    its segments and its stack: every byte of a segment's file part is the byte of
    the image, every byte behind it and of the stack is 0, every other address
    translates as in the boot tables, closed to the user, and memory in use keeps its
    contents.  Segments start at a page, lie below the stacks and share no page. *)
Theorem elf_load_correct {A} `{PageAllocator A} (s : vm A) boot ts rnd img h phs l :
  boot_tables s boot ts -> elf_image img h phs -> 1 + len ts + 4 * (total_pages phs + 64) <= avail (pa s) ->
  exists s' root, elf_load boot rnd img l s = Some (s', mkLoader root (e_entry h) (stack_top rnd - 16), e_entry h) /\
    loaded s s' boot root rnd img phs.
Proof.
  intros Hb Himg Hav. destruct (ei_hdr _ _ _ Himg) as [Hh Hok].
  unfold elf_load. rewrite (proj2 (Z.ltb_ge _ _)) by apply Himg. rewrite Hh. cbn [mbind option_bind]. rewrite Hok. cbn [negb].
  assert (Htot : 0 <= total_pages phs) by (pose proof (total_take_le img h phs Himg 0) as Ht; apply Ht; pose proof (len_nonneg phs); lia).
  pose proof (create_user_address_space_ok s boot ts Hb) as C. destruct (create_user_address_space s boot) as [s1 root]. destruct C as [C0 C].
  destruct (Z.eqb_spec root 0) as [E0|Hne]; [specialize (C0 E0); lia|]. destruct (C Hne) as (Hn & Hg & Hc). destruct (Hc ltac:(lia)) as [Ha1 Hphys].
  assert (Hcl : clean s1 root) by (intros n _; split; [apply Hn|apply Hg]).
  destruct (phdrs_ok img h phs Himg root s1 s1 Hcl) as (s2 & -> & H2 & A2); [apply pages_hold_start, Hn|lia|].
  exists (map_stack root rnd s2), root. split; [done|]. apply (loaded_ok s1 s _ boot root rnd img h phs Himg Hcl Hphys).
  - apply Hn.
  - apply map_stack_ok; [done|done| |lia]. intros n Hsn. apply fold_out. intros ph Hin Hs.
    destruct (elem_index img h phs Himg ph Hin) as (_ & _ & _ & Hok'). destruct (in_seg_low img ph n Hok' Hs). lia.
Qed.

(** An image with one segment of five bytes at 0x400000, two pages in memory. *)
Definition demo_phdr : elf64_phdr := mkPhdr 1 5 120 0x400000 5 0x1004.
Definition demo_hdr : elf64_hdr := mkHdr 2 2 0x3E 0x400000 64 1.
Definition demo_image : list Z :=
  ELF_MAGIC ++ [2] ++ replicate 11 0 ++ [2; 0; 0x3E; 0; 0; 0; 0; 0] ++ [0; 0; 0x40; 0; 0; 0; 0; 0] ++ [64; 0; 0; 0; 0; 0; 0; 0] ++
  replicate 16 0 ++ [1; 0] ++ replicate 6 0 ++
  [1; 0; 0; 0; 5; 0; 0; 0] ++ [120; 0; 0; 0; 0; 0; 0; 0] ++ [0; 0; 0x40; 0; 0; 0; 0; 0] ++ replicate 8 0 ++
  [5; 0; 0; 0; 0; 0; 0; 0] ++ [4; 0x10; 0; 0; 0; 0; 0; 0] ++ replicate 8 0 ++ [10; 20; 30; 40; 50].

Lemma demo_elf : elf_image demo_image demo_hdr [demo_phdr].
Proof.
  assert (Hone : forall i, 0 <= i < len [demo_phdr] -> i = 0) by (intros i; change (len [demo_phdr]) with 1; lia).
  constructor.
  - apply (bool_decide_unpack (Forall (fun b => 0 <= b < 256) demo_image)). by vm_compute.
  - by vm_compute.
  - split; by vm_compute.
  - done.
  - intros i ->%Hone. by vm_compute.
  - intros i ->%Hone _. split_and!; by vm_compute.
  - intros i j n Hi Hj. pose proof (Hone j ltac:(lia)). lia.
Qed.

Lemma elf_load_correct_witness : exists s' root,
  elf_load 0x100000 0x321 demo_image (mkLoader 0 0 0) demo_vm = Some (s', mkLoader root 0x400000 (stack_top 0x321 - 16), 0x400000) /\
  user_byte s' root (p_vaddr demo_phdr + 3) = 40 /\ user_byte s' root (p_vaddr demo_phdr + 0x1000) = 0 /\ leaf_at (pm s') root 0x402000 = None.
Proof.
  destruct (elf_load_correct demo_vm 0x100000 [[0]; [0; 0]] 0x321 demo_image demo_hdr [demo_phdr] (mkLoader 0 0 0) demo_boot_tables demo_elf)
    as (s' & root & E & L); [by vm_compute|].
  exists s', root. split; [exact E|]. clear E. split_and!.
  - rewrite (ld_segment _ _ _ _ _ _ _ L demo_phdr 3); [by vm_compute|by constructor|done|by vm_compute].
  - rewrite (ld_segment _ _ _ _ _ _ _ L demo_phdr 0x1000); [by vm_compute|by constructor|done|by vm_compute].
  - apply eq_None_not_Some. intros Hs. apply (ld_mapped _ _ _ _ _ _ _ L) in Hs; [|by vm_compute].
    destruct Hs as [[Hs _]|(ph & Hin & [_ Hs])]; [by vm_compute in Hs|]. apply list_elem_of_singleton in Hin as ->. by vm_compute in Hs.
Defined.
