(* ===== verification/Fork.v ===== *)
(** * Memory of a forked process: sched/scheduler.c

    proc_fork gives the child a new address space of [UserSpace] and copies every
    user page of the parent into it.  The allocator is any [PageMarker]; the switch
    to the boot tables and back has no effect on this state. *)

From S2P Require Import Prelude Pmm PageAlloc Vmm Signals PageFault UserPage UserSpace Elf.

Section fork.
Context {A : Type} `{PageMarker A}.
Implicit Types (s : vm A).

(** ** The code *)

Definition mark_table (table : Z) s : vm A := mkVm (mark_used (pa s) table) (pm s).

(** The tables of the child are marked used, level by level. *)
Definition mark_tables (pml4 : Z) s : vm A :=
  each_entry 0 false (fun pdpt s =>
    each_entry 0 true (fun pd s =>
      each_entry 0 true (fun pt s => mark_table pt s) pd (mark_table pd s)) pdpt (mark_table pdpt s)) pml4 (mark_table pml4 s).

Definition KERNEL_REGION (p : Z) : bool := (0x100000 <=? p) && (p <? 0x400000).

(** One attempt at a page for the copy; the loop ends with a page or without memory. *)
Definition alloc_step (child_pml4 i : Z) (a : A) : ctl A (A * Z) :=
  let '(a, new_phys) := alloc_page a in
  if new_phys =? 0 then Stop (a, 0)
  else if KERNEL_REGION new_phys then Next (mark_used a new_phys)
  else if new_phys =? child_pml4 then Next (mark_used a new_phys)
  else Stop (a, new_phys).

Definition alloc_copy (child_pml4 : Z) (a : A) : A * Z :=
  match for_loop (alloc_step child_pml4) 8 0 a with Next a => (a, 0) | Stop r => r end.

(** Memory and [pages_copied]. *)
Definition copying : Type := vm A * Z.

(** The entries of a table that lead to a lower one. *)
Definition each_index (skip_huge : bool) (body : Z -> Z -> copying -> copying) (table : Z) (st : copying) : copying :=
  for_each (fun i st =>
    let e := pm st.1 (slot table i) in
    if negb (has e PAGE_PRESENT) then st
    else if skip_huge && has e PAGE_HUGE then st
    else body i (frame_of e) st) 512 0 st.

Definition page_vaddr (p4 p3 p2 p1 : Z) : Z :=
  Z.lor (Z.lor (Z.lor (Z.shiftl p4 39) (Z.shiftl p3 30)) (Z.shiftl p2 21)) (Z.shiftl p1 12).

Definition copy_flags (e : Z) : Z := Z.lor (Z.land e 0xFFF) (Z.land e 0xFF00000000000000).

Definition copy_pte (child_pml4 p4 p3 p2 pt p1 : Z) (st : copying) : copying :=
  let '(s, n) := st in
  let e := pm s (slot pt p1) in
  if negb (has e PAGE_PRESENT) then (s, n)
  else if negb (has e PAGE_USER) then (s, n)
  else
    let old_phys := Z.land e 0x000FFFFFFFFFF000 in
    let '(a, new_phys) := alloc_copy child_pml4 (pa s) in
    if new_phys =? 0 then (mkVm a (pm s), n)
    else (vmm_map_page (mkVm a (copy_page (pm s) new_phys old_phys)) child_pml4 (page_vaddr p4 p3 p2 p1) new_phys (copy_flags e), n + 1).

Definition deep_copy_user_pages (parent_pml4 child_pml4 : Z) s : copying :=
  each_index false (fun p4 pdpt =>
    each_index true (fun p3 pd =>
      each_index true (fun p2 pt =>
        for_each (copy_pte child_pml4 p4 p3 p2 pt) 512 0) pd) pdpt) parent_pml4 (mark_tables child_pml4 s, 0).

Definition create_proc_pml4 (boot_pml4 : Z) s : vm A * Z := create_user_address_space s boot_pml4.

(** The part of proc_fork that makes the child's memory: the address space, 0 when
    there is none, and the number of pages copied. *)
Definition fork_memory (boot_pml4 parent_pml4 : Z) s : vm A * Z * Z :=
  let '(s, pml4) := create_proc_pml4 boot_pml4 s in
  if pml4 =? 0 then (s, 0, 0)
  else let '(s, n) := deep_copy_user_pages parent_pml4 pml4 s in (s, pml4, n).

(** ** Marking changes no page *)

Record marked s t : Prop := {
  md_ok : allocator_ok (pa t);
  md_use : forall q, is_page q -> in_use (pa t) q <-> in_use (pa s) q;
  md_avail : avail (pa t) = avail (pa s);
  md_mem : pm t = pm s;
}.

Lemma mark_table_marked s t p : marked s t -> is_page p -> in_use (pa s) p -> marked s (mark_table p t).
Proof.
  intros [O U V M] Hp Hi. destruct (mark_used_law (pa t) p O Hp) as (O' & U' & V'); [by apply U|].
  constructor; [done| |by simpl; rewrite V'|done]. intros q Hq. simpl. rewrite U' by done. by apply U.
Qed.

Lemma each_entry_marked root s path table skip body t :
  vm_ok s root -> path_ok (0 :: path) -> tab (pm s) root path = Some table -> skip = negb (length path =? 0)%nat ->
  (forall i p u, path_ok (i :: path) -> tab (pm s) root (i :: path) = Some p -> marked s u -> marked s (body p u)) ->
  marked s t -> marked s (each_entry 0 skip body table t).
Proof.
  intros Hs Hpath Ht -> Hb Hm. unfold each_entry. apply (for_each_ind _ (fun _ u => marked s u)); [done|].
  intros i u Hi Hu. destruct (path_ok_cons _ _ Hpath) as (HP & _ & Hl). assert (Hio : index_ok i) by (unfold index_ok; lia).
  assert (Hpi : path_ok (i :: path)) by (split; [apply Forall_cons; [done|apply HP]|simpl; lia]).
  rewrite (md_mem _ _ Hu). destruct (has _ PAGE_PRESENT) eqn:Ep; cbn [negb]; [|done].
  destruct (negb _ && has _ PAGE_HUGE) eqn:Eh; [done|]. apply (Hb i); [done| |done].
  cbn [tab]. rewrite Ht. cbn [mbind option_bind]. unfold child. by rewrite Ep, Eh.
Qed.

Lemma mark_tables_marked root s : vm_ok s root -> marked s (mark_tables root s).
Proof.
  intros Hs. assert (Hss : marked s s) by (constructor; [apply Hs|done..]).
  assert (Hm : forall path p u, path_ok path -> tab (pm s) root path = Some p -> marked s u -> marked s (mark_table p u)).
  { intros path p u HP Ht Hu. destruct (vo_tab _ _ Hs path p HP Ht). by apply mark_table_marked. }
  assert (Hnil : path_ok [0]) by (split; [apply Forall_cons; [unfold index_ok; lia|by apply Forall_nil]|simpl; lia]).
  unfold mark_tables. apply (each_entry_marked root s []); [done..| |by apply (Hm []); [split; [apply Forall_nil|simpl; lia]|..]].
  intros i pdpt u HP Ht Hu. assert (Hcons : forall Q, path_ok Q -> (length Q <= 2)%nat -> path_ok (0 :: Q)).
  { intros Q [HQ _] Hl. split; [apply Forall_cons; [unfold index_ok; lia|done]|simpl; lia]. }
  apply (each_entry_marked root s [i]); [done|apply Hcons; [done|simpl; lia]|done|done| |by apply (Hm [i])].
  intros j pd u' HP' Ht' Hu'. apply (each_entry_marked root s [j; i]); [done|apply Hcons; [done|simpl; lia]|done|done| |by apply (Hm [j; i])].
  intros k pt u2 HP2 Ht2 Hu2. by apply (Hm [k; j; i]).
Qed.

(** ** Pages for the copies *)

(** With these the first attempt gives a page. *)
Definition first_try (child : Z) (a : A) : Prop :=
  0 < avail a /\ in_use a child /\ forall q, is_page q -> KERNEL_REGION q = true -> in_use a q.

Definition keeps_pages (a t : A) : Prop := allocator_ok t /\ forall q, is_page q -> in_use a q -> in_use t q.

Definition page_got (child : Z) (a : A) (r : A * Z) : Prop :=
  keeps_pages a r.1 /\ (r.2 = 0 \/ is_page r.2 /\ r.2 <> 0 /\ ~ in_use a r.2 /\ in_use r.1 r.2) /\
  (first_try child a -> r.2 <> 0 /\ avail r.1 = avail a - 1).

Lemma alloc_step_ok child a i t :
  keeps_pages a t -> t = a \/ ~ first_try child a ->
  match alloc_step child i t with
  | Next t' => keeps_pages a t' /\ ~ first_try child a
  | Stop r => page_got child a r
  end.
Proof.
  intros [Ot Mt] D. unfold alloc_step. pose proof (alloc_page_law t Ot) as L. destruct (alloc_page t) as [t1 p].
  destruct L as (O1 & M1 & _ & Hp & Hz).
  assert (K1 : keeps_pages a t1) by (split; [done|]; intros q Hq Hi; by apply M1, Mt).
  assert (Hz' : first_try child a -> p <> 0 /\ avail t1 = avail a - 1) by (intros F; destruct D as [->|D]; [apply Hz, F|done]).
  destruct (Z.eqb_spec p 0) as [E0|Hne]; [split; [done|]; split; [by left|]; intros F; by destruct (Hz' F)|].
  destruct Hp as [|(Hpp & _ & Hf & Hu & _)]; [done|].
  assert (Hfa : ~ in_use a p) by (intros Hi; by apply Hf, Mt).
  assert (Hmark : keeps_pages a (mark_used t1 p)).
  { destruct (mark_used_law t1 p O1 Hpp Hu) as (O2 & U2 & _). split; [done|]. intros q Hq Hi. by apply U2, K1. }
  destruct (KERNEL_REGION p) eqn:ER; [split; [done|]; intros (_ & _ & Hr); by apply Hfa, Hr|].
  destruct (Z.eqb_spec p child) as [->|Hnc]; [split; [done|]; by intros (_ & Hc & _)|].
  split; [done|]. split; [by right|done].
Qed.

Lemma alloc_copy_ok child a : allocator_ok a -> page_got child a (alloc_copy child a).
Proof.
  intros Ha. unfold alloc_copy. assert (Ka : keeps_pages a a) by done. assert (Ha0 := alloc_step_ok child a 0 a Ka (or_introl eq_refl)).
  pose proof (for_loop_ind (alloc_step child) (fun i t => keeps_pages a t /\ (t = a /\ i = 0 \/ ~ first_try child a)) (page_got child a) 8 0 a) as L.
  specialize (L ltac:(split; [done|by left])).
  assert (Hstep : forall j t, 0 <= j < 0 + Z.of_nat 8 -> keeps_pages a t /\ (t = a /\ j = 0 \/ ~ first_try child a) ->
    match alloc_step child j t with Next t' => keeps_pages a t' /\ (t' = a /\ j + 1 = 0 \/ ~ first_try child a) | Stop r => page_got child a r end).
  { intros j t Hj [Kt D]. pose proof (alloc_step_ok child a j t Kt ltac:(tauto)) as S. destruct (alloc_step child j t); tauto. }
  specialize (L Hstep). destruct (for_loop _ 8 0 a) as [t|r]; [|done]. destruct L as [K [[_ D]|D]]; [lia|]. split; [done|]. split; [by left|done].
Qed.

(** ** Indices and pages *)

(** The page an entry of a page table maps. *)
Definition page_of (p4 p3 p2 p1 : Z) : Z := ((p4 * 512 + p3) * 512 + p2) * 512 + p1.

Lemma page_vaddr_ok p4 p3 p2 p1 : index_ok p4 -> index_ok p3 -> index_ok p2 -> index_ok p1 ->
  page_vaddr p4 p3 p2 p1 = page_of p4 p3 p2 p1 * 4096.
Proof.
  unfold index_ok, page_vaddr, page_of. intros H4 H3 H2 H1. rewrite !Z.shiftl_mul_pow2 by lia.
  change (2 ^ 39) with 549755813888. change (2 ^ 30) with 1073741824. change (2 ^ 21) with 2097152. change (2 ^ 12) with 4096.
  rewrite (lor_low _ (p3 * 1073741824) 39); [|lia|change (2 ^ 39) with 549755813888; zlia|change (2 ^ 39) with 549755813888; lia].
  rewrite (lor_low _ (p2 * 2097152) 30); [|lia|change (2 ^ 30) with 1073741824; zlia|change (2 ^ 30) with 1073741824; lia].
  rewrite (lor_low _ (p1 * 4096) 21); [|lia|change (2 ^ 21) with 2097152; zlia|change (2 ^ 21) with 2097152; lia]. lia.
Qed.

Lemma page_of_no p4 p3 p2 p1 : index_ok p4 -> index_ok p3 -> index_ok p2 -> index_ok p1 -> page_no (page_of p4 p3 p2 p1).
Proof. unfold index_ok, page_of, page_no. change (2 ^ 36) with 68719476736. lia. Qed.

Lemma idx_page_no l n : 0 <= l -> idx l (n * 4096) = n / 2 ^ (9 * l) mod 512.
Proof.
  intros Hl. rewrite idx_div by done. rewrite Z.pow_add_r by lia. change (2 ^ 12) with 4096.
  by rewrite <- Z.div_div, Z.div_mul by (done || apply Z.pow_pos_nonneg; lia || lia).
Qed.

Lemma page_of_idx n : page_no n -> n = page_of (idx 3 (n * 4096)) (idx 2 (n * 4096)) (idx 1 (n * 4096)) (idx 0 (n * 4096)).
Proof.
  unfold page_no, page_of. rewrite !idx_page_no by lia. change (2 ^ (9 * 3)) with 134217728. change (2 ^ (9 * 2)) with 262144.
  change (2 ^ (9 * 1)) with 512. change (2 ^ (9 * 0)) with 1. change (2 ^ 36) with 68719476736. intros. zlia.
Qed.

Lemma page_of_inj p4 p3 p2 p1 q4 q3 q2 q1 :
  index_ok p3 -> index_ok p2 -> index_ok p1 -> index_ok q3 -> index_ok q2 -> index_ok q1 ->
  page_of p4 p3 p2 p1 = page_of q4 q3 q2 q1 -> p4 = q4 /\ p3 = q3 /\ p2 = q2 /\ p1 = q1.
Proof. unfold index_ok, page_of. intros. lia. Qed.

Lemma page_paths p4 p3 p2 p1 : index_ok p4 -> index_ok p3 -> index_ok p2 -> index_ok p1 ->
  let v := page_of p4 p3 p2 p1 * 4096 in path1 v = [p2; p3; p4] /\ idx 0 v = p1.
Proof.
  intros H4 H3 H2 H1 v. pose proof (page_of_idx _ (page_of_no _ _ _ _ H4 H3 H2 H1)) as E. fold v in E.
  apply page_of_inj in E as (E4 & E3 & E2 & E1); try done; try apply idx_ok. unfold path1, path2, path3. by rewrite <- E4, <- E3, <- E2, <- E1.
Qed.

(** ** The copy *)

Lemma filter_same (P Q : Z -> Prop) `{!forall n, Decision (P n), !forall n, Decision (Q n)} (l : list Z) :
  (forall n, n ∈ l -> P n <-> Q n) -> filter P l = filter Q l.
Proof.
  induction l as [|n l IH]; [done|]. intros HP. rewrite !filter_cons, IH by (intros k Hk; apply HP; by constructor).
  destruct (HP n ltac:(by constructor)). repeat case_decide; tauto.
Qed.

Lemma filter_all (P : Z -> Prop) `{!forall n, Decision (P n)} (l : list Z) : (forall n, n ∈ l -> P n) -> filter P l = l.
Proof.
  induction l as [|n l IH]; [done|]. intros HP. rewrite filter_cons, IH by (intros k Hk; apply HP; by constructor).
  by rewrite decide_True by (apply HP; constructor).
Qed.

(** The contents of a page of the parent. *)
Definition parent_page s (parent n : Z) : option (Z -> Z) :=
  (fun p o => pm s (p + o)) <$> leaf_at (pm s) parent (n * 4096).

(** [l] lists the pages of the parent. *)
Definition lists_pages s (parent : Z) (l : list Z) : Prop :=
  NoDup l /\ forall n, n ∈ l <-> page_no n /\ is_Some (parent_page s parent n).

Section copy.
Context (s0 s1 : vm A) (parent child : Z) (l : list Z).
Hypothesis Hp : vm_ok s0 parent.
Hypothesis Hsm : forall v, is_Some (leaf_at (pm s0) parent v) -> small_at (pm s0) parent v = true.
Hypothesis Hn : new_space s0 s1 child.
Hypothesis Hg : forall v, huge_above (pm s1) child v = false.
Hypothesis Hl : lists_pages s0 parent l.

Notation par := (parent_page s0 parent).

Definition plenty : Prop :=
  5 * len l <= avail (pa s1) /\ forall q, is_page q -> KERNEL_REGION q = true -> in_use (pa s0) q.

(** The pages from [K] on. *)
Definition left (K : Z) : Z := len (filter (fun n => K <= n) l).

Lemma left_skip K K' : K <= K' -> (forall n, page_no n -> K <= n < K' -> par n = None) -> left K' = left K.
Proof.
  intros HK Hno. unfold left. f_equal. apply filter_same. intros n Hin. destruct (proj1 (proj2 Hl n) Hin) as [Hpn [c Hc]].
  split; [lia|]. intros Hle. destruct (decide (K' <= n)); [done|]. rewrite (Hno n) in Hc by (done || lia). done.
Qed.

Lemma left_next n : page_no n -> is_Some (par n) -> left n = left (n + 1) + 1.
Proof.
  intros Hpn Hs. unfold left. destruct Hl as [Hnd Hin].
  assert (E : filter (fun k => n <= k) l ≡ₚ n :: filter (fun k => n + 1 <= k) l).
  { apply list.NoDup_Permutation; [by apply list.NoDup_filter| |].
    - constructor; [rewrite list_elem_of_filter; lia|by apply list.NoDup_filter].
    - intros k. rewrite elem_of_cons, !list_elem_of_filter. split.
      + intros [Hk Hkl]. destruct (decide (k = n)); [by left|right]. split; [lia|done].
      + intros [->|[Hk Hkl]]; [split; [lia|by apply Hin]|split; [lia|done]]. }
  unfold len. rewrite (Permutation_length E). simpl. lia.
Qed.

(** All pages below [K] are done. *)
Definition copied_to (K : Z) (st : copying) : Prop := exists F, pages_hold child s1 st.1 F /\
  (forall n c, page_no n -> F n = Some c -> par n = Some c) /\ (forall n, K <= n -> F n = None) /\
  (plenty -> (forall n, page_no n -> n < K -> F n = par n) /\ 5 * left K <= avail (pa st.1) /\ st.2 = len l - left K).

Lemma copied_skip K K' st : K <= K' -> (forall n, page_no n -> K <= n < K' -> par n = None) -> copied_to K st -> copied_to K' st.
Proof.
  intros HK Hno (F & Ph & Pf & Pn & Pp). exists F. split; [done|]. split; [done|]. split; [intros n Hle; apply Pn; lia|].
  intros Hpl. destruct (Pp Hpl) as (P1 & P2 & P3). rewrite (left_skip K K') by done. split; [|done].
  intros n Hpn Hlt. destruct (decide (n < K)); [by apply P1|]. rewrite Pn by lia. symmetry. apply Hno; [done|lia].
Qed.

Lemma copied_word K st q x : copied_to K st -> is_page q -> in_use (pa s0) q -> in_page q x = true -> pm st.1 x = pm s0 x.
Proof.
  intros (F & Ph & _) Hq Hu Hx. destruct (ns_data _ _ _ Hn q Hq Hu) as [Hd Hm]. rewrite (ph_mem _ _ _ _ Ph q x Hd Hx). by apply Hm.
Qed.

Lemma copied_entry K st P t i : copied_to K st -> path_ok P -> tab (pm s0) parent P = Some t -> index_ok i ->
  pm st.1 (slot t i) = pm s0 (slot t i).
Proof. intros Hc HP Ht Hi. destruct (vo_tab _ _ Hp P t HP Ht). by apply (copied_word K st t); [..|apply slot_in]. Qed.

Lemma copied_first_try n st : copied_to n st -> page_no n -> is_Some (par n) -> plenty -> first_try child (pa st.1).
Proof.
  intros (F & Ph & _ & _ & Pp) Hpn Hs Hpl. destruct (Pp Hpl) as (_ & P2 & _). rewrite (left_next n) in P2 by done.
  pose proof (len_nonneg (filter (fun k => n + 1 <= k) l)) as Hz. fold (left (n + 1)) in Hz. split; [lia|]. destruct (ns_page _ _ _ Hn) as [Hpc _].
  assert (Hpath : path_ok []) by (split; [apply Forall_nil|simpl; lia]). split.
  - apply (ph_use _ _ _ _ Ph); [done|]. apply (vo_tab _ _ (ns_ok _ _ _ Hn) [] child); done.
  - intros q Hq Hr. apply (ph_use _ _ _ _ Ph); [done|]. destruct (ns_data _ _ _ Hn q Hq) as [(_ & Hu & _) _]; [by apply Hpl|done].
Qed.

Lemma copy_flags_ok e : 0 <= e < 2 ^ 64 -> has e PAGE_HUGE = false -> has e PAGE_USER = true -> user_flags (copy_flags e).
Proof.
  intros He Hh Hu. unfold copy_flags. split; [|split; [|split]].
  - apply lor_word; by apply land_word.
  - rewrite Z.land_lor_distr_l, <- !Z.land_assoc. change (Z.land 0xFFF PTE_PHYS_MASK) with 0. change (Z.land 0xFF00000000000000 PTE_PHYS_MASK) with 0.
    by rewrite Z.land_0_r.
  - rewrite has_lor, (has_land_id e), Hh by done. by apply has_land.
  - rewrite has_lor, (has_land_id e), Hu by done. done.
Qed.

(** A page of the parent and a page for its copy. *)
Lemma copy_page_ok n st old a new e :
  copied_to n st -> page_no n -> leaf_at (pm s0) parent (n * 4096) = Some old ->
  0 <= e < 2 ^ 64 -> has e PAGE_HUGE = false -> has e PAGE_USER = true ->
  page_got child (pa st.1) (a, new) -> new <> 0 ->
  copied_to (n + 1) (vmm_map_page (mkVm a (copy_page (pm st.1) new old)) child (n * 4096) new (copy_flags e), st.2 + 1).
Proof.
  intros Hc Hpn Hold He Hh Hu G Hne. pose proof (uleaf_page parent s0 _ _ old Hp Hold) as Hpo.
  destruct (vo_user _ _ Hp _ _ old (leaf_path _) Hold) as [Huo _]. destruct G as ([Ha Hm] & [|(Hpn' & _ & Hf & Hi)] & Hz); [done|]. cbn [fst snd] in *.
  assert (Hpar : par n = Some (fun o => pm s0 (old + o))) by (unfold parent_page; by rewrite Hold).
  assert (Hft := copied_first_try n st Hc Hpn ltac:(by rewrite Hpar)). pose proof Hc as (F & Ph & Pf & Pn & Pp).
  pose proof (ph_ok _ _ _ _ Ph) as Ho. pose proof (vo_word _ _ Ho) as Hw.
  destruct (ph_none _ _ _ _ Ph n Hpn (Pn n ltac:(lia))) as [Hl1 _]. rewrite (ns_leaf _ _ _ Hn) in Hl1.
  assert (Hh1 : huge_above (pm st.1) child (n * 4096) = false).
  { apply not_true_iff_false. intros Ht. apply (ph_huge _ _ _ _ Ph) in Ht. by rewrite Hg in Ht. }
  assert (Hv : 0 <= n * 4096 < 2 ^ 48) by (apply (page_addr n); [done|apply page_div]).
  assert (Hcopy : forall x, in_page new x = true -> copy_page (pm st.1) new old x = pm s0 (old + (x - new))).
  { intros x Hx. unfold copy_page. rewrite Hx. rewrite (copied_word n st old) by (rewrite ?in_page_spec in *; done || lia). f_equal. lia. }
  destruct (place_map_page (fun o => pm s0 (old + o)) child st.1 a (copy_page (pm st.1) new old) new (n * 4096) (copy_flags e))
    as (o & E & _ & Hsome); try done.
  { intros x Hx. unfold copy_page. by rewrite Hx. }
  { intros x. unfold copy_page. by destruct (in_page new x). }
  { by apply copy_flags_ok. }
  pose proof (pages_hold_step child s1 st.1 _ F n _ o Ph Hpn (Pn n ltac:(lia)) E (ns_leaf _ _ _ Hn _)) as R. exists (extend_map F n (fun o => pm s0 (old + o)) o).
  split; [exact R|]. split; [|split].
  - intros k c Hk. destruct o; cbn [extend_map]; [|by apply Pf]. unfold add_page. destruct (Z.eqb_spec k n) as [->|]; [|by apply Pf]. by rewrite Hpar.
  - intros k Hk. destruct o; cbn [extend_map]; [|apply Pn; lia]. unfold add_page. rewrite (proj2 (Z.eqb_neq k n)) by lia. apply Pn. lia.
  - intros Hpl. destruct (Pp Hpl) as (P1 & P2 & P3). destruct (Hz (Hft Hpl)) as [_ Hav]. pose proof (left_next n Hpn ltac:(by rewrite Hpar)) as Hleft.
    pose proof (len_nonneg (filter (fun k => n + 1 <= k) l)) as Hge. fold (left (n + 1)) in Hge.
    destruct (Hsome ltac:(lia) Hh1) as [Hon Hav2]. cbn [fst snd]. split; [|split; [lia|lia]]. intros k Hk Hlt.
    destruct o as [p|]; [|done]. cbn [extend_map]. unfold add_page. destruct (Z.eqb_spec k n) as [->|]; [by rewrite Hpar|]. apply P1; [done|lia].
Qed.

Lemma copy_pte_ok p4 p3 p2 p1 pt st :
  index_ok p4 -> index_ok p3 -> index_ok p2 -> index_ok p1 -> tab (pm s0) parent [p2; p3; p4] = Some pt ->
  copied_to (page_of p4 p3 p2 p1) st -> copied_to (page_of p4 p3 p2 p1 + 1) (copy_pte child p4 p3 p2 pt p1 st).
Proof.
  intros H4 H3 H2 H1 Hpt Hc. pose proof (page_of_no p4 p3 p2 p1 H4 H3 H2 H1) as Hpn. pose proof (page_vaddr_ok p4 p3 p2 p1 H4 H3 H2 H1) as Ev.
  destruct (page_paths p4 p3 p2 p1 H4 H3 H2 H1) as [Epath Eidx]. set (n := page_of p4 p3 p2 p1) in *.
  assert (HP : path_ok [p2; p3; p4]) by (rewrite <- Epath; apply path1_ok).
  assert (Hleaf : leaf_at (pm s0) parent (n * 4096) = let e := pm s0 (slot pt p1) in if has e PAGE_PRESENT && has e PAGE_USER then Some (frame_of e) else None).
  { unfold leaf_at, uleaf. rewrite Epath, Eidx, Hpt. done. }
  assert (Hskip : leaf_at (pm s0) parent (n * 4096) = None -> forall k, page_no k -> n <= k < n + 1 -> par k = None).
  { intros E k _ Hk. assert (k = n) as -> by lia. unfold parent_page. by rewrite E. }
  unfold copy_pte. rewrite (surjective_pairing st). pose proof (copied_entry n st _ pt p1 Hc HP Hpt H1) as Ee. cbn [fst snd] in Ee |- *. rewrite Ee.
  set (e := pm s0 (slot pt p1)) in *. rewrite <- (surjective_pairing st). cbv zeta in Hleaf.
  destruct (has e PAGE_PRESENT) eqn:EP; cbn [negb andb] in *; [|by apply (copied_skip n); [lia|apply Hskip|]].
  destruct (has e PAGE_USER) eqn:EU; cbn [negb andb] in *; [|by apply (copied_skip n); [lia|apply Hskip|]].
  assert (Hss : is_Some (par n)) by (unfold parent_page; by rewrite Hleaf). pose proof (copied_first_try n st Hc Hpn Hss) as Hft.
  assert (Ha : allocator_ok (pa st.1)) by (destruct Hc as (F & Ph & _); apply (ph_ok _ _ _ _ Ph)).
  pose proof (alloc_copy_ok child (pa st.1) Ha) as G. destruct (alloc_copy child (pa st.1)) as [a new].
  destruct (Z.eqb_spec new 0) as [E0|Hne].
  - destruct Hc as (F & Ph & Pf & Pn & Pp). destruct G as ([Ha1 Hm1] & _ & Hz). exists F. split; [by apply pages_hold_alloc|]. split; [done|].
    split; [intros k Hk; apply Pn; lia|]. intros Hpl. by destruct (Hz (Hft Hpl)).
  - rewrite Ev. change (Z.land e 0x000FFFFFFFFFF000) with (frame_of e). apply copy_page_ok; try done.
    + apply (vo_word _ _ Hp).
    + specialize (Hsm (n * 4096)). rewrite Hleaf in Hsm. specialize (Hsm ltac:(done)). unfold small_at in Hsm. rewrite Epath, Eidx, Hpt in Hsm.
      by apply negb_true_iff.
Qed.

(** The loop over a table of the parent; each entry covers [size] pages. *)
Lemma each_index_ok path table skip body base size st :
  path_ok (0 :: path) -> tab (pm s0) parent path = Some table -> skip = negb (length path =? 0)%nat -> 0 <= size ->
  (forall i t u, index_ok i -> tab (pm s0) parent (i :: path) = Some t -> copied_to (base + i * size) u -> copied_to (base + i * size + size) (body i t u)) ->
  (forall i n, index_ok i -> tab (pm s0) parent (i :: path) = None -> page_no n -> base + i * size <= n < base + i * size + size -> par n = None) ->
  copied_to base st -> copied_to (base + 512 * size) (each_index skip body table st).
Proof.
  intros Hpath Ht -> Hz Hb Hno Hc. unfold each_index.
  pose proof (for_each_ind (fun i u => let e := pm u.1 (slot table i) in
    if negb (has e PAGE_PRESENT) then u else if negb (length path =? 0)%nat && has e PAGE_HUGE then u else body i (frame_of e) u)
    (fun i u => copied_to (base + i * size) u) 512 0 st) as L. cbn [Z.of_nat] in L.
  apply L; [by rewrite Z.mul_0_l, Z.add_0_r|]. clear L. intros i u Hi Hu. assert (Hio : index_ok i) by (unfold index_ok; lia).
  destruct (path_ok_cons _ _ Hpath) as (HP & _ & _). cbv zeta. rewrite (copied_entry _ u path table i Hu HP Ht Hio). set (e := pm s0 (slot table i)).
  replace (base + (i + 1) * size) with (base + i * size + size) by lia.
  assert (Et : tab (pm s0) parent (i :: path) = Vmm.child (length path) e) by (cbn [tab]; by rewrite Ht).
  unfold Vmm.child in Et. destruct (has e PAGE_PRESENT); cbn [negb andb] in *; [|apply (copied_skip (base + i * size)); [lia|intros n; by apply Hno|done]].
  destruct (_ && has e PAGE_HUGE); cbn [negb] in *; [apply (copied_skip (base + i * size)); [lia|intros n; by apply Hno|done]|]. by apply Hb.
Qed.

Lemma par_none n : tab (pm s0) parent (path1 (n * 4096)) = None -> par n = None.
Proof. intros E. unfold parent_page, leaf_at, uleaf. by rewrite E. Qed.

Lemma parent_page_range n : page_no n -> exists p4 p3 p2 p1, (index_ok p4 /\ index_ok p3 /\ index_ok p2 /\ index_ok p1) /\
  n = page_of p4 p3 p2 p1 /\ path1 (n * 4096) = [p2; p3; p4].
Proof.
  intros Hpn. exists (idx 3 (n * 4096)), (idx 2 (n * 4096)), (idx 1 (n * 4096)), (idx 0 (n * 4096)).
  split; [split_and!; apply idx_ok|]. split; [by apply page_of_idx|done].
Qed.

Lemma tab_none_cons i P : tab (pm s0) parent P = None -> tab (pm s0) parent (i :: P) = None.
Proof. intros E. cbn [tab]. by rewrite E. Qed.

Lemma index_path i P : index_ok i -> path_ok P -> (length P <= 2)%nat -> path_ok (i :: P).
Proof. intros Hi [HP _] Hl'. split; [by apply Forall_cons|simpl; lia]. Qed.

Lemma index_0 : index_ok 0.
Proof. unfold index_ok. lia. Qed.

Lemma copy_pt_ok p4 p3 p2 pt u : index_ok p4 -> index_ok p3 -> index_ok p2 -> tab (pm s0) parent [p2; p3; p4] = Some pt ->
  copied_to (page_of p4 p3 p2 0) u -> copied_to (page_of p4 p3 p2 0 + 512) (for_each (copy_pte child p4 p3 p2 pt) 512 0 u).
Proof.
  intros H4 H3 H2 Hpt Hu. pose proof (for_each_ind (copy_pte child p4 p3 p2 pt) (fun i u => copied_to (page_of p4 p3 p2 0 + i) u) 512 0 u) as L.
  apply L; [by rewrite Z.add_0_r|]. intros i w Hi Hw.
  replace (page_of p4 p3 p2 0 + (i + 1)) with (page_of p4 p3 p2 i + 1) by (unfold page_of; lia). apply copy_pte_ok; [done..|unfold index_ok; lia|done|].
  by replace (page_of p4 p3 p2 i) with (page_of p4 p3 p2 0 + i) by (unfold page_of; lia).
Qed.

Lemma copy_pd_ok p4 p3 pd u : index_ok p4 -> index_ok p3 -> tab (pm s0) parent [p3; p4] = Some pd ->
  copied_to (page_of p4 p3 0 0) u ->
  copied_to (page_of p4 p3 0 0 + 262144) (each_index true (fun p2 pt => for_each (copy_pte child p4 p3 p2 pt) 512 0) pd u).
Proof.
  intros H4 H3 Hpd Hu. change 262144 with (512 * 512). assert (Hnil : path_ok []) by (split; [apply Forall_nil|simpl; lia]).
  assert (HP : path_ok [p3; p4]) by (apply index_path; [done|by apply index_path; [..|simpl; lia]|simpl; lia]).
  apply (each_index_ok [p3; p4]); [apply index_path; [apply index_0|done|simpl; lia]|done|done|lia| | |done].
  - intros i t w Hi Ht Hw. replace (page_of p4 p3 0 0 + i * 512) with (page_of p4 p3 i 0) in * by (unfold page_of; lia). by apply copy_pt_ok.
  - intros i n Hi Ht Hpn Hr. apply par_none. destruct (parent_page_range n Hpn) as (q4 & q3 & q2 & q1 & Hq & -> & ->).
    cut (q4 = p4 /\ q3 = p3 /\ q2 = i); [by intros (-> & -> & ->)|]. unfold page_of, index_ok in *. lia.
Qed.

Lemma copy_pdpt_ok p4 pdpt u : index_ok p4 -> tab (pm s0) parent [p4] = Some pdpt -> copied_to (page_of p4 0 0 0) u ->
  copied_to (page_of p4 0 0 0 + 134217728) (each_index true (fun p3 pd =>
    each_index true (fun p2 pt => for_each (copy_pte child p4 p3 p2 pt) 512 0) pd) pdpt u).
Proof.
  intros H4 Hpdpt Hu. change 134217728 with (512 * 262144). assert (Hnil : path_ok []) by (split; [apply Forall_nil|simpl; lia]).
  assert (HP : path_ok [p4]) by by apply index_path; [..|simpl; lia].
  apply (each_index_ok [p4]); [apply index_path; [apply index_0|done|simpl; lia]|done|done|lia| | |done].
  - intros i t w Hi Ht Hw. replace (page_of p4 0 0 0 + i * 262144) with (page_of p4 i 0 0) in * by (unfold page_of; lia). by apply copy_pd_ok.
  - intros i n Hi Ht Hpn Hr. apply par_none. destruct (parent_page_range n Hpn) as (q4 & q3 & q2 & q1 & Hq & -> & ->).
    apply tab_none_cons. cut (q4 = p4 /\ q3 = i); [by intros (-> & ->)|]. unfold page_of, index_ok in *. lia.
Qed.

Lemma deep_copy_ok : copied_to (2 ^ 36) (deep_copy_user_pages parent child s1).
Proof.
  unfold deep_copy_user_pages. assert (Hnil : path_ok []) by (split; [apply Forall_nil|simpl; lia]).
  change (2 ^ 36) with (0 + 512 * 134217728). apply (each_index_ok []); [apply index_path; [apply index_0|done|simpl; lia]|done|done|lia| | |].
  - intros i t w Hi Ht Hw. rewrite Z.add_0_l in *. replace (i * 134217728) with (page_of i 0 0 0) in * by (unfold page_of; lia). by apply copy_pdpt_ok.
  - intros i n Hi Ht Hpn Hr. apply par_none. destruct (parent_page_range n Hpn) as (q4 & q3 & q2 & q1 & Hq & -> & ->).
    do 2 apply tab_none_cons. cut (q4 = i); [by intros ->|]. unfold page_of, index_ok in *. lia.
  - destruct (mark_tables_marked child s1 (ns_ok _ _ _ Hn)) as [O U V M]. exists no_pages. cbn [fst snd]. split; [|split; [done|split; [done|]]].
    + assert (E : mark_tables child s1 = mkVm (pa (mark_tables child s1)) (pm s1)) by (rewrite <- M; by destruct (mark_tables child s1)).
      rewrite E. apply pages_hold_alloc; [apply pages_hold_start, Hn|done|]. intros q Hq Hi. by apply U.
    + intros [Hpl _]. split; [unfold page_no; lia|]. rewrite V. assert (left 0 = len l) as ->; [|lia]. unfold left. f_equal.
      apply filter_all. intros n Hin. by destruct (proj1 (proj2 Hl n) Hin) as [[Hpn _] _].
Qed.
End copy.

(** ** Address spaces whose pages are left alone *)

(** The pages in use in [s] are as they were. *)
Record pages_kept s s' : Prop := {
  pk_alloc : allocator_ok (pa s');
  pk_word : forall x, 0 <= pm s' x < 2 ^ 64;
  pk_use : forall q, is_page q -> in_use (pa s) q -> in_use (pa s') q;
  pk_mem : forall q x, is_page q -> in_use (pa s) q -> in_page q x = true -> pm s' x = pm s x;
}.

Section kept.
Context (s s' : vm A) (root : Z).
Hypothesis Hs : vm_ok s root.
Hypothesis Hk : pages_kept s s'.

Lemma kept_entry P t i : path_ok P -> tab (pm s) root P = Some t -> index_ok i -> pm s' (slot t i) = pm s (slot t i).
Proof. intros HP Ht Hi. destruct (vo_tab _ _ Hs P t HP Ht). apply (pk_mem _ _ Hk t); [done..|by apply slot_in]. Qed.

Lemma kept_tab P : path_ok P -> tab (pm s') root P = tab (pm s) root P.
Proof.
  induction P as [|i P IH]; intros HP; [done|]. destruct (path_ok_cons _ _ HP) as (HP' & Hi & _). cbn [tab]. rewrite IH by done.
  destruct (tab (pm s) root P) as [t|] eqn:Et; [|done]. cbn [mbind option_bind]. by rewrite (kept_entry P t i).
Qed.

Lemma kept_uleaf P j : path_ok P -> index_ok j -> uleaf (pm s') root P j = uleaf (pm s) root P j.
Proof.
  intros HP Hj. unfold uleaf. rewrite kept_tab by done. destruct (tab (pm s) root P) as [t|] eqn:Et; [|done]. cbn [mbind option_bind].
  by rewrite (kept_entry P t j).
Qed.

Lemma kept_leaf v : leaf_at (pm s') root v = leaf_at (pm s) root v.
Proof. apply kept_uleaf; [apply path1_ok|apply idx_ok]. Qed.

Lemma kept_ok : vm_ok s' root.
Proof.
  constructor.
  - apply Hk.
  - apply Hk.
  - intros P t HP. rewrite kept_tab by done. intros Ht. destruct (vo_tab _ _ Hs P t HP Ht). split; [done|by apply Hk].
  - intros P Q t HP HQ. rewrite !kept_tab by done. by apply (vo_inj _ _ Hs).
  - intros P t i HP Hl Ht. destruct (path_ok_cons _ _ HP) as (HP' & Hi & _). rewrite kept_tab in Ht by done. rewrite (kept_entry P t i) by done.
    by apply (vo_huge _ _ Hs P t i).
  - intros P j p HPj Hp. pose proof HPj as (HP & _ & Hj). rewrite kept_uleaf in Hp by done. destruct (vo_user _ _ Hs P j p HPj Hp) as [Hu Hn].
    split; [apply Hk; [by apply (uleaf_page root s P j)|done]|]. intros Q HQ. rewrite kept_tab by done. by apply Hn.
  - intros P j Q k p HPj HQk. pose proof HPj as (HP & _ & Hj). pose proof HQk as (HQ & _ & Hk'). rewrite !kept_uleaf by done. by apply (vo_sole _ _ Hs).
Qed.

Lemma kept_phys v : phys_of (pm s') root v = phys_of (pm s) root v.
Proof.
  pose proof (path1_ok v) as H1. destruct (path_ok_cons _ _ H1) as (H2 & _). destruct (path_ok_cons _ _ H2) as (H3 & _).
  unfold phys_of. rewrite !kept_tab by done. destruct (tab (pm s) root (path1 v)) as [t|] eqn:E1; [by rewrite (kept_entry _ _ _ H1 E1) by apply idx_ok|].
  destruct (tab (pm s) root (path2 v)) as [t|] eqn:E2; [by rewrite (kept_entry _ _ _ H2 E2) by apply idx_ok|].
  destruct (tab (pm s) root (path3 v)) as [t|] eqn:E3; [by rewrite (kept_entry _ _ _ H3 E3) by apply idx_ok|done].
Qed.

Lemma kept_huge v : huge_above (pm s') root v = huge_above (pm s) root v.
Proof.
  destruct (path_ok_cons _ _ (path1_ok v)) as (H2 & _). destruct (path_ok_cons _ _ H2) as (H3 & _). unfold huge_above, huge_at.
  rewrite kept_tab by done. destruct (tab (pm s) root (path3 v)) as [t|] eqn:E3; [|done]. by rewrite (kept_entry _ _ _ H3 E3) by apply idx_ok.
Qed.
End kept.

Lemma kept_boot s s' boot ts : boot_tables s boot ts -> pages_kept s s' -> boot_tables s' boot ts.
Proof.
  intros [Hs Hts Hl Hr Hg] Hk. constructor.
  - by apply (kept_ok s).
  - intros P t HP. rewrite (kept_tab s s') by done. by apply Hts.
  - intros P HP HlP. rewrite (kept_tab s s') by done. by apply Hl.
  - intros i Hi. rewrite (kept_entry s s' boot Hs Hk [] boot i); [by apply Hr|split; [apply Forall_nil|simpl; lia]|done|done].
  - intros v. rewrite (kept_huge s s') by done. apply Hg.
Qed.

(** ** What fork gives the child *)

(** No address space of [s] sees the child: the parent's is as before, and every page of
    the child is a new one with the contents of the parent's page. *)
Record forked s s' (parent child : Z) : Prop := {
  fk_kept : pages_kept s s';
  fk_parent : vm_ok s' parent /\ forall v, leaf_at (pm s') parent v = leaf_at (pm s) parent v /\ vmm_get_phys s' parent v = vmm_get_phys s parent v;
  fk_child : vm_ok s' child;
  fk_page : forall v p', 0 <= v < 2 ^ 48 -> leaf_at (pm s') child v = Some p' ->
    exists p, leaf_at (pm s) parent v = Some p /\ ~ in_use (pa s) p' /\
      (forall w, w / 4096 = v / 4096 -> vmm_get_phys s' child w = p' + w mod 4096) /\
      forall o, 0 <= o < 4096 -> pm s' (p' + o) = pm s (p + o);
}.

Definition kernel_used s : Prop := forall q, is_page q -> KERNEL_REGION q = true -> in_use (pa s) q.

(** Each user page is mapped by an entry without the large-page bit. *)
Definition small_pages s (root : Z) : Prop := forall v, is_Some (leaf_at (pm s) root v) -> small_at (pm s) root v = true.

Lemma new_space_kept s s1 s2 child F : vm_ok s child -> new_space s1 s child -> pages_hold child s s2 F -> pages_kept s1 s2.
Proof.
  intros Hs Hn Ph. pose proof (ph_ok _ _ _ _ Ph) as Ho. constructor; [apply Ho|apply Ho| |].
  - intros q Hq Hu. destruct (ns_data _ _ _ Hn q Hq Hu) as [(_ & Hu1 & _) _]. by apply (ph_use _ _ _ _ Ph).
  - intros q x Hq Hu Hx. destruct (ns_data _ _ _ Hn q Hq Hu) as [Hd Hm]. rewrite (ph_mem _ _ _ _ Ph q x Hd Hx). by apply Hm.
Qed.

Lemma page_of_addr v : 0 <= v < 2 ^ 48 -> page_no (v / 4096) /\ v / 4096 * 4096 / 4096 = v / 4096.
Proof. unfold page_no. change (2 ^ 48) with (2 ^ 36 * 4096). intros Hv. split; [zlia|apply page_div]. Qed.

Lemma forked_ok s s1 s2 parent child l n :
  vm_ok s parent -> new_space s s1 child -> copied_to s s1 parent child l (2 ^ 36) (s2, n) -> forked s s2 parent child.
Proof.
  intros Hp Hn (F & Ph & Pf & Pn & _). cbn [fst] in *. pose proof (new_space_kept s1 s s2 child F (ns_ok _ _ _ Hn) Hn Ph) as K.
  constructor; [done| |apply Ph|].
  - split; [by apply (kept_ok s)|]. intros v. rewrite !get_phys_tab. split; [by apply kept_leaf|by apply kept_phys].
  - intros v p' Hv Hleaf. destruct (page_of_addr v Hv) as [Hpn Hd]. set (k := v / 4096) in *.
    rewrite (leaf_at_page _ _ v (k * 4096)) in Hleaf by done. destruct (F k) as [c|] eqn:EF.
    + destruct (ph_page _ _ _ _ Ph k c Hpn EF) as (q & Hq & Hf & (Hqp & _) & Hc & Hw). assert (p' = q) as -> by congruence.
      pose proof (Pf k c Hpn EF) as Epar. unfold parent_page in Epar. rewrite (leaf_at_page _ _ v (k * 4096)) by done.
      destruct (leaf_at (pm s) parent (k * 4096)) as [p|]; [|done]. injection Epar as <-. exists p. split; [done|]. split; [|split; [done|]].
      * intros Hu. apply Hf. by destruct (ns_data _ _ _ Hn q Hqp Hu) as [(_ & ? & _) _].
      * intros o Ho. rewrite Hc by (apply in_page_spec; lia). f_equal. lia.
    + destruct (ph_none _ _ _ _ Ph k Hpn EF) as [E _]. rewrite E, (ns_leaf _ _ _ Hn) in Hleaf. done.
Qed.
End fork.

(** C31: fork isolates: the child's address space is its own.  Whatever the memory left,
    every page in use before, and so the parent's address space, is as it was, and
    every user page of the child is a new page with the contents of the parent's page at
    the same address.  With memory enough, and no free page in the region the copy
    avoids, the child has all pages of the parent and sees the boot tables elsewhere. *)
Theorem fork_isolates {A} `{PageMarker A} (s : vm A) boot ts parent l :
  boot_tables s boot ts -> vm_ok s parent -> small_pages s parent -> lists_pages s parent l ->
  let '(s', child, n) := fork_memory boot parent s in
  (child = 0 -> avail (pa s) < 1 + len ts) /\
  (child <> 0 -> forked s s' parent child /\
    (1 + len ts + 5 * len l <= avail (pa s) -> kernel_used s ->
       n = len l /\ forall v, 0 <= v < 2 ^ 48 ->
         (is_Some (leaf_at (pm s) parent v) -> is_Some (leaf_at (pm s') child v)) /\
         (leaf_at (pm s) parent v = None -> vmm_get_phys s' child v = if idx 3 v <? 4 then vmm_get_phys s boot v else 0))).
Proof.
  intros Hb Hp Hsm Hl. unfold fork_memory, create_proc_pml4. pose proof (create_user_address_space_ok s boot ts Hb) as C.
  destruct (create_user_address_space s boot) as [s1 child]. destruct C as [C0 C]. destruct (Z.eqb_spec child 0) as [E0|Hne].
  { split; [intros _; by apply C0|intros Hc; by destruct Hc]. }
  destruct (C Hne) as (Hn & Hg & Hphys). pose proof (deep_copy_ok s s1 parent child l Hp Hsm Hn Hg Hl) as D.
  destruct (deep_copy_user_pages parent child s1) as [s2 n]. split; [done|]. intros _. split; [by apply (forked_ok s s1 s2 parent child l n)|].
  intros Hav Hku. pose proof (len_nonneg l). destruct (Hphys ltac:(lia)) as [Hav1 Hph]. destruct D as (F & Ph & Pf & Pn & Pp).
  assert (Hpl : plenty s s1 l) by (split; [lia|done]). destruct (Pp Hpl) as (P1 & _ & P3). cbn [fst snd] in *. split.
  - rewrite P3. unfold left. destruct (filter _ l) as [|k r] eqn:Ef; [unfold len; simpl; lia|].
    assert (Hk : k ∈ filter (fun n => 2 ^ 36 <= n) l) by (rewrite Ef; constructor). apply list_elem_of_filter in Hk as [Hle Hin].
    destruct (proj1 (proj2 Hl k) Hin) as [Hpn _]. unfold page_no in Hpn. lia.
  - intros v Hv. destruct (page_of_addr v Hv) as [Hpn Hd]. set (k := v / 4096) in *.
    assert (EF : F k = parent_page s parent k) by (apply P1; [done|apply Hpn]). unfold parent_page in EF.
    rewrite !(leaf_at_page _ _ v (k * 4096)) by done. split.
    + intros [p Ep]. rewrite Ep in EF. destruct (ph_page _ _ _ _ Ph k _ Hpn EF) as (q & Hq & _). by exists q.
    + intros Ep. rewrite Ep in EF. destruct (ph_none _ _ _ _ Ph k Hpn EF) as [_ E]. rewrite E by done. apply Hph.
Qed.

(** ** A parent with one page *)

(** A machine whose kernel fills the region the copy avoids. *)
Definition full_demo : pmm := pmm_init demo_map 0x100000 0x1FE000.
Definition full_vm : vm pmm := mkVm full_demo demo_mem.
Definition demo_space : vm pmm * Z := create_user_address_space full_vm 0x100000.
Definition demo_parent : Z := demo_space.2.
Definition demo_page : pmm * Z := alloc_page (pa demo_space.1).
Definition demo_state : vm pmm :=
  user_map_page (mkVm demo_page.1 (zero_page (pm demo_space.1) demo_page.2)) demo_parent 0x400000 demo_page.2 STACK_FLAGS.

Lemma full_demo_ok : pmm_allocator_ok full_demo.
Proof.
  assert (I : init_ok demo_map 0x100000 0x1FE000 full_demo) by (apply pmm_init_ok; [apply demo_map_ok|done|lia|lia]).
  constructor; [exact (in_wf _ _ _ _ I)|by vm_compute| |by vm_compute].
  exists (default [] (phys_refcount full_demo)). split; [by vm_compute|].
  assert (Forall (fun x => 0 <= x < 2 ^ 32) (default [] (phys_refcount full_demo))) as HF by (apply (bool_decide_unpack _); by vm_compute).
  intros i Hi. rewrite Forall_lookup in HF. apply (HF (Z.to_nat i)), geti_lookup.
  assert (highest_pfn full_demo <= len (default [] (phys_refcount full_demo))) by (by vm_compute). lia.
Qed.

Lemma full_demo_pages (P : Z -> bool) q : is_page q ->
  forallb (fun p => negb (P (p * 4096)) || bitmap_test full_demo p) (seqZ 0 512) = true -> P q = true -> page_in_use full_demo q.
Proof.
  intros Hq Hall HP. pose proof (page_pfn_range q Hq) as Hr. unfold page_in_use. set (p := addr_to_pfn q) in *.
  assert (Eq : p * 4096 = q) by (destruct Hq; subst p; unfold addr_to_pfn, PAGE_SIZE; zlia).
  destruct (decide (p < 512)) as [Hp|Hp]; [|apply bitmap_test_out; change (highest_pfn full_demo) with 512; lia].
  rewrite forallb_forall in Hall. specialize (Hall p). rewrite Eq, HP in Hall. apply Hall, list_elem_of_In, elem_of_seqZ. lia.
Qed.

Lemma full_demo_used q : is_page q -> page_in_use demo q -> page_in_use full_demo q.
Proof. intros Hq Hu. apply (full_demo_pages (fun q => bitmap_test demo (addr_to_pfn q)) q Hq); [by vm_compute|exact Hu]. Qed.

Lemma full_boot_tables : boot_tables full_vm 0x100000 [[0]; [0; 0]].
Proof. apply demo_tables_boot; [apply full_demo_ok|apply full_demo_used]. Qed.

Lemma full_kernel_used : kernel_used full_vm.
Proof. intros q Hq HR. apply (full_demo_pages KERNEL_REGION q Hq); [by vm_compute|exact HR]. Qed.

Lemma demo_parent_space : demo_parent <> 0 /\ new_space full_vm demo_space.1 demo_parent /\ clean demo_space.1 demo_parent /\
  pages_kept full_vm demo_space.1.
Proof.
  pose proof (create_user_address_space_ok full_vm 0x100000 _ full_boot_tables) as C.
  unfold demo_parent, demo_space. destruct (create_user_address_space full_vm 0x100000) as [s root]. cbn [fst snd]. destruct C as [C0 C].
  assert (He : 1 + len [[0]; [0; 0]] <= avail (pa full_vm)) by by vm_compute.
  assert (Hne : root <> 0) by (intros E; specialize (C0 E); lia). destruct (C Hne) as (Hn & Hg & _). split; [done|]. split; [done|]. split.
  - intros n _. split; [apply Hn|apply Hg].
  - apply (new_space_kept s full_vm s root no_pages); [apply Hn|done|]. apply pages_hold_start, Hn.
Qed.

Lemma demo_state_ok : pages_hold demo_parent demo_space.1 demo_state (add_page no_pages 0x400 zeros).
Proof.
  destruct demo_parent_space as (_ & Hn & Hcl & _).
  pose proof (step_ok zeros demo_parent demo_space.1 demo_space.1 no_pages 0x400 0x400000 STACK_FLAGS (zero_page (pm demo_space.1)) Hcl
    (pages_hold_start _ _ (ns_ok _ _ _ Hn))) as S.
  assert (Hav : 4 <= avail (pa demo_space.1)) by by vm_compute.
  specialize (S ltac:(by split) eq_refl eq_refl ltac:(lia) ltac:(by repeat split) (zero_fills demo_parent _ (ns_ok _ _ _ Hn)) Hav).
  unfold demo_state, demo_page. destruct (alloc_page (pa demo_space.1)) as [a p]. cbn [fst snd]. apply S.
Qed.

(** Every address is looked up like the first address of a page. *)
Lemma page_index v : exists n, page_no n /\ forall m root,
  leaf_at m root v = leaf_at m root (n * 4096) /\ small_at m root v = small_at m root (n * 4096).
Proof.
  exists (page_of (idx 3 v) (idx 2 v) (idx 1 v) (idx 0 v)). split; [apply page_of_no; apply idx_ok|]. intros m root.
  destruct (page_paths (idx 3 v) (idx 2 v) (idx 1 v) (idx 0 v)) as [E1 E0]; try apply idx_ok.
  change [idx 1 v; idx 2 v; idx 3 v] with (path1 v) in E1. unfold leaf_at, small_at. by rewrite E1, E0.
Qed.

Lemma demo_fork_ready : boot_tables demo_state 0x100000 [[0]; [0; 0]] /\ vm_ok demo_state demo_parent /\
  small_pages demo_state demo_parent /\ lists_pages demo_state demo_parent [0x400] /\ kernel_used demo_state.
Proof.
  destruct demo_parent_space as (_ & Hn & Hcl & K1). pose proof demo_state_ok as Ph.
  pose proof (new_space_kept demo_space.1 full_vm demo_state demo_parent _ (ns_ok _ _ _ Hn) Hn Ph) as K.
  assert (Hno : forall n, page_no n -> n <> 0x400 -> leaf_at (pm demo_state) demo_parent (n * 4096) = None).
  { intros n Hpn Hne. destruct (ph_none _ _ _ _ Ph n Hpn) as [E _]; [unfold add_page; by rewrite (proj2 (Z.eqb_neq n 0x400))|].
    rewrite E. by apply Hcl. }
  assert (Hyes : is_Some (leaf_at (pm demo_state) demo_parent (0x400 * 4096))).
  { destruct (ph_page _ _ _ _ Ph 0x400 zeros) as (q & Hq & _); [by split|done|by exists q]. }
  split; [by apply (kept_boot full_vm); [apply full_boot_tables|]|]. split; [apply Ph|]. split; [|split].
  - intros v Hv. destruct (page_index v) as (n & Hpn & Hsame). destruct (Hsame (pm demo_state) demo_parent) as [El Es].
    rewrite El in Hv. rewrite Es. destruct (decide (n = 0x400)) as [->|Hne]; [by vm_compute|]. rewrite Hno in Hv by done. destruct (is_Some_None Hv).
  - split; [repeat constructor; by intros []%elem_of_nil|]. intros n. rewrite list_elem_of_singleton. unfold parent_page. rewrite fmap_is_Some. split.
    + intros ->. split; [by split|exact Hyes].
    + intros [Hpn Hl]. destruct (decide (n = 0x400)); [done|]. rewrite Hno in Hl by done. destruct (is_Some_None Hl).
  - intros q Hq HR. apply K; [done|]. by apply full_kernel_used.
Qed.

Lemma fork_isolates_witness :
  let '(s', child, n) := fork_memory 0x100000 demo_parent demo_state in
  n = 1 /\ forked demo_state s' demo_parent child /\ is_Some (leaf_at (pm s') child 0x400123) /\ vmm_get_phys s' child 0x5123 = 0x5123.
Proof.
  destruct demo_fork_ready as (Hb & Hp & Hs & Hl & Hk). pose proof (fork_isolates demo_state 0x100000 _ demo_parent [0x400] Hb Hp Hs Hl) as W.
  destruct (fork_memory 0x100000 demo_parent demo_state) as [[s' child] n]. destruct W as [W0 W].
  assert (Hav : 1 + len [[0]; [0; 0]] + 5 * len [0x400] <= avail (pa demo_state)) by by vm_compute.
  assert (Hne : child <> 0) by (intros E; specialize (W0 E); change (len [0x400]) with 1 in Hav; lia).
  destruct (W Hne) as [Hf Hc]. destruct (Hc Hav Hk) as [-> Hv]. split; [done|]. split; [done|]. split.
  - apply Hv; [lia|]. vm_compute. by eexists.
  - rewrite (proj2 (Hv 0x5123 ltac:(lia))); by vm_compute.
Defined.
