(* ===== verification/UserMem.v ===== *)
(** * Memory system calls: syscall/syscall.c

    brk, mmap and munmap over the address spaces of [Vmm].  What csprng_u64
    would return is an argument ([rnd]); the running process is [None] when
    task_current() is NULL.  The last part makes brk the [Kernel] of the user
    heap of [Malloc]. *)

From stdpp Require Import gmap.
From S2P Require Import Prelude LibcString Malloc Pmm PageAlloc Vmm Signals PageFault UserPage.

(** The values of include/lestra/types.h; syscall.c defines the positive POSIX
    values only where a name is not defined yet. *)
Definition ENOMEM : Z := -1.
Definition EINVAL : Z := -2.
Definition ENOSYS : Z := -6.
Definition EFAULT : Z := -14.

Definition BRK_HEAP_BASE : Z := 0x40000000.
Definition BRK_MAX_GROW : Z := 16 * 1024 * 1024.
Definition ASLR_BRK_BITS : Z := 8.
Definition ASLR_MMAP_BITS : Z := 8.
Definition MMAP_ANONYMOUS : Z := 0x20.
Definition MMAP_REGION_BASE : Z := 0x60000000.
Definition MMAP_REGION_END : Z := 0x7FFFFFFFFFFF.
Definition PAGE_USER_RW : Z := Z.lor (Z.lor PAGE_PRESENT PAGE_WRITABLE) PAGE_USER.

(** The memory fields of struct process. *)
Record proc := mkProc { pr_pml4 : Z; pr_brk_base : Z; pr_brk : Z; mmap_next_addr : Z }.

(** A random offset of whole pages below 2^bits pages. *)
Definition slide (rnd bits : Z) : Z := Z.shiftl (Z.land rnd (Z.shiftl 1 bits - 1)) 12.

Section syscalls.
Context {A : Type} `{PageAllocator A}.
Implicit Types (s : vm A) (cur : option proc).

(** ** brk *)

(** "pmm_alloc_page", "memset", "vmm_map_page": false when there is no page. *)
Definition map_new s (root va flags : Z) : vm A * bool :=
  let '(a, phys) := alloc_page (pa s) in
  if phys =? 0 then (mkVm a (pm s), false)
  else (vmm_map_page (mkVm a (zero_page (pm s) phys)) root va phys flags, true).

Definition BRK_FLAGS : Z := Z.lor (Z.lor (Z.lor PAGE_PRESENT PAGE_USER) PAGE_WRITABLE) PAGE_NX.

(** [Stop]: out of memory at this address. *)
Definition brk_grow_step (root old i : Z) s : ctl (vm A) (vm A * Z) :=
  let va := old + i * PAGE_SIZE in
  if negb (vmm_get_phys s root va =? 0) then Next s
  else
    match map_new s root va BRK_FLAGS with
    | (s, true) => Next s
    | (s, false) => Stop (s, va)
    end.

(** "pmm_free_page(phys); vmm_unmap_page(...)" of the pages that are mapped. *)
Definition release_page (root va : Z) s : vm A :=
  let phys := vmm_get_phys s root va in
  if phys =? 0 then s else vmm_unmap_page (pa_free s phys) root va.

Definition release_pages (root start count : Z) s : vm A :=
  for_each (fun i s => release_page root (start + i * PAGE_SIZE) s) (Z.to_nat count) 0 s.

Definition set_pbrk (p : proc) (b : Z) : proc := mkProc (pr_pml4 p) (pr_brk_base p) b (mmap_next_addr p).

Definition brk_init (p : proc) (rnd : Z) : proc :=
  if pr_brk_base p =? 0 then
    let base := BRK_HEAP_BASE + slide rnd ASLR_BRK_BITS in mkProc (pr_pml4 p) base base (mmap_next_addr p)
  else p.

(** The page-aligned target: capped, and not below the base. *)
Definition brk_target (p : proc) (new_brk : Z) : Z :=
  let old_brk_aligned := ALIGN_DOWN (pr_brk p) PAGE_SIZE in
  let new_brk_aligned := ALIGN_UP new_brk PAGE_SIZE in
  let new_brk_aligned :=
    if u64 (old_brk_aligned + BRK_MAX_GROW) <? new_brk_aligned then u64 (old_brk_aligned + BRK_MAX_GROW) else new_brk_aligned in
  if new_brk_aligned <? pr_brk_base p then pr_brk_base p else new_brk_aligned.

Definition sys_brk s cur (rnd addr : Z) : vm A * option proc * Z :=
  match cur with
  | None => (s, None, - EFAULT)
  | Some p =>
      if pr_pml4 p =? 0 then (s, cur, - EFAULT)
      else
        let p := brk_init p rnd in
        if addr =? 0 then (s, Some p, s64 (pr_brk p))
        else
          let old := ALIGN_DOWN (pr_brk p) PAGE_SIZE in
          let new := brk_target p addr in
          if old <? new then
            match for_loop (brk_grow_step (pr_pml4 p) old) (Z.to_nat ((new - old + 4095) / PAGE_SIZE)) 0 s with
            | Next s => (s, Some (set_pbrk p addr), s64 addr)
            | Stop (s, va) => (s, Some (set_pbrk p va), s64 va)
            end
          else if new <? old then
            (release_pages (pr_pml4 p) new ((old - new + 4095) / PAGE_SIZE) s, Some (set_pbrk p addr), s64 addr)
          else (s, Some (set_pbrk p addr), s64 addr)
  end.

(** ** mmap *)

Definition set_mmap_next (p : proc) (n : Z) : proc := mkProc (pr_pml4 p) (pr_brk_base p) (pr_brk p) n.

Definition mmap_start (p : proc) (rnd : Z) : Z :=
  if mmap_next_addr p =? 0 then MMAP_REGION_BASE + slide rnd ASLR_MMAP_BITS else mmap_next_addr p.

(** 0 when the region has no room. *)
Definition mmap_alloc_vaddr (p : proc) (rnd num_pages : Z) : proc * Z :=
  let start := mmap_start p rnd in
  let next := u64 (start + num_pages * PAGE_SIZE) in
  if (MMAP_REGION_END <? next) || (next <? start) then (set_mmap_next p start, 0) else (set_mmap_next p next, start).

Definition mmap_flags (prot : Z) : Z :=
  let page_flags := PAGE_USER_RW in
  let page_flags := if Z.land prot 2 =? 0 then Z.land page_flags (Z.lnot PAGE_WRITABLE) else page_flags in
  if Z.land prot 4 =? 0 then Z.lor page_flags PAGE_NX else page_flags.

(** [Stop]: out of memory, and the pages mapped so far given back. *)
Definition mmap_step (root vaddr flags i : Z) s : ctl (vm A) (vm A) :=
  match map_new s root (vaddr + i * PAGE_SIZE) flags with
  | (s, true) => Next s
  | (s, false) => Stop (for_each (fun j s =>
      let va := vaddr + j * PAGE_SIZE in
      let p := vmm_get_phys s root va in
      vmm_unmap_page (if p =? 0 then s else pa_free s p) root va) (Z.to_nat i) 0 s)
  end.

Definition pages_of (length : Z) : Z := u64 (length + PAGE_SIZE - 1) / PAGE_SIZE.

Definition sys_mmap s cur (rnd addr length prot flags : Z) : vm A * option proc * Z :=
  if Z.land flags MMAP_ANONYMOUS =? 0 then (s, cur, - ENOSYS)
  else if length =? 0 then (s, cur, - EINVAL)
  else if negb (addr =? 0) && negb (Z.land flags 0x10 =? 0) then (s, cur, - ENOSYS)
  else
    match cur with
    | None => (s, cur, - EFAULT)
    | Some p =>
        if pr_pml4 p =? 0 then (s, cur, - EFAULT)
        else
          let num_pages := pages_of length in
          let '(p, vaddr) := mmap_alloc_vaddr p rnd num_pages in
          if vaddr =? 0 then (s, Some p, - ENOMEM)
          else
            match for_loop (mmap_step (pr_pml4 p) vaddr (mmap_flags prot)) (Z.to_nat num_pages) 0 s with
            | Next s => (s, Some p, s64 vaddr)
            | Stop s => (s, Some p, - ENOMEM)
            end
    end.

(** ** munmap *)

Definition sys_munmap s cur (addr length : Z) : vm A * Z :=
  if addr =? 0 then (s, - EINVAL)
  else if length =? 0 then (s, - EINVAL)
  else
    let start := ALIGN_DOWN addr PAGE_SIZE in
    let fin := ALIGN_DOWN (u64 (addr + length + PAGE_SIZE - 1)) PAGE_SIZE in
    let num_pages := u64 (fin - start) / PAGE_SIZE in
    match cur with
    | None => (s, - EFAULT)
    | Some p => if pr_pml4 p =? 0 then (s, - EFAULT) else (release_pages (pr_pml4 p) start num_pages s, 0)
    end.
End syscalls.

(** ** Mapping one new page *)

Section proofs.
Context {A : Type} `{HR : PageReclaim A}.
Implicit Types (s : vm A).

(** Mapping allocates tables, and the pages the allocator manages stay managed. *)
Definition stay_managed s s' : Prop := forall q, managed (pa s) q -> managed (pa s') q.

Lemma alloc_stays s : allocator_ok (pa s) ->
  let a := (alloc_page (pa s)).1 in allocator_ok a /\ forall q, managed (pa s) q -> managed a q.
Proof.
  intros Ha. pose proof (alloc_page_law (pa s) Ha) as L. pose proof (alloc_managed (pa s) Ha) as M.
  destruct (alloc_page (pa s)) as [a p]. by destruct L, M.
Qed.

Lemma map_table_stays s e u f : allocator_ok (pa s) ->
  let r := map_table s e u f in allocator_ok (pa r.1) /\ stay_managed s r.1.
Proof.
  intros Ha. destruct (alloc_stays s Ha) as [Ha' M]. unfold map_table, or_user, stay_managed.
  destruct (negb _); [|destruct u; by split]. destruct (alloc_page (pa s)) as [a p]. destruct (p =? 0), u; by split.
Qed.

Lemma split_huge_stays s e u : allocator_ok (pa s) ->
  let r := split_huge s e u in allocator_ok (pa r.1) /\ stay_managed s r.1.
Proof.
  intros Ha. destruct (alloc_stays s Ha) as [Ha' M]. unfold split_huge, or_user, stay_managed.
  destruct (alloc_page (pa s)) as [a p]. destruct (p =? 0), u; by split.
Qed.

Lemma set_leaf_stays s e p f : stay_managed s (set_leaf s e p f).
Proof.
  unfold set_leaf. destruct (_ && (_ =? _)); [by intros q|]. destruct (_ && _); [|by intros q].
  intros q Hq. apply (ref_dec_managed _ (frame_of (pm s e))) in Hq. destruct (ref_dec _ _) as [a n].
  destruct (n =? 0); [by apply free_managed|done].
Qed.

Lemma map_page_stays s root v p f : allocator_ok (pa s) -> stay_managed s (vmm_map_page s root v p f).
Proof.
  intros Ha q Hq. unfold vmm_map_page. set (u := has f PAGE_USER). set (tf := if u then _ else _).
  destruct (map_table_stays s (slot root (idx 3 v)) u tf Ha) as [Ha1 M1]. destruct (map_table s _ u tf) as [s1 [|]]; [|by apply M1].
  cbn [fst negb] in *. set (e3 := slot _ _). destruct (map_table_stays s1 e3 u tf Ha1) as [Ha2 M2].
  destruct (map_table s1 e3 u tf) as [s2 [|]]; [|by apply M2, M1]. cbn [fst negb] in *.
  destruct (has (pm s2 e3) PAGE_HUGE); [by apply M2, M1|]. set (e2 := slot (frame_of (pm s2 e3)) _).
  set (r3 := if has (pm s2 e2) PAGE_HUGE then _ else _).
  assert (allocator_ok (pa r3.1) /\ stay_managed s2 r3.1) as [Ha3 M3].
  { unfold r3. destruct (has (pm s2 e2) PAGE_HUGE); [by apply split_huge_stays|split; [done|by intros x]]. }
  destruct r3 as [s3 [|]]; [|by apply M3, M2, M1]. cbn [fst negb] in *.
  destruct (map_table_stays s3 e2 u tf Ha3) as [Ha4 M4]. destruct (map_table s3 e2 u tf) as [s4 [|]]; [|by apply M4, M3, M2, M1].
  cbn [fst negb] in *. by apply set_leaf_stays, M4, M3, M2, M1.
Qed.

Lemma unmap_pa s root v : pa (vmm_unmap_page s root v) = pa s.
Proof. unfold vmm_unmap_page. by repeat case_match. Qed.

Lemma mmap_flags_ok prot : user_flags (mmap_flags prot).
Proof.
  unfold mmap_flags. destruct (Z.land prot 2 =? 0), (Z.land prot 4 =? 0); (split; [by vm_compute|done]).
Qed.

Lemma brk_flags_ok : user_flags BRK_FLAGS.
Proof. by split. Qed.

Lemma map_new_spec root s v f :
  vm_ok s root -> 0 <= v < 2 ^ 48 -> user_flags f -> leaf_at (pm s) root v = None ->
  let r := map_new s root v f in
  (0 < avail (pa s) -> r.2 = true) /\ (r.2 = false -> tables_kept root s r.1) /\
  stay_managed s r.1 /\
  exists o, extends zeros root s r.1 v o /\ (forall p, o = Some p -> managed (pa r.1) p) /\
    (5 <= avail (pa s) -> huge_above (pm s) root v = false -> o <> None /\ avail (pa s) - 5 <= avail (pa r.1)).
Proof.
  intros Hs Hv Hf Hn. unfold map_new.
  pose proof (alloc_page_law (pa s) (vo_alloc _ _ Hs)) as L. pose proof (alloc_managed (pa s) (vo_alloc _ _ Hs)) as Lm.
  destruct (alloc_page (pa s)) as [a p]. destruct Lm as [Hpm Hkeep]. destruct L as (Ha1 & Hmono & _ & Hp & Hz). destruct (Z.eqb_spec p 0) as [->|Hp0]; cbn [fst snd].
  { assert (E : tables_kept root s (mkVm a (pm s))) by by apply alloc_only_kept.
    split; [intros Ha; by destruct (Hz Ha)|]. split; [done|]. split; [done|]. exists None. split; [by apply tables_extend|]. split; [done|]. intros Ha. by destruct (Hz ltac:(lia)). }
  destruct Hp as [|(Hpp & _ & Hfr & Huse & _)]; [done|]. destruct Hpm as [|Hpm]; [done|]. split; [done|]. split; [done|].
  pose proof (map_page_stays (mkVm a (zero_page (pm s) p)) root v p f Ha1) as Hst. split; [intros q Hq; by apply Hst, Hkeep|].
  destruct (place_map_page zeros root s a (zero_page (pm s) p) p v f) as (o & E & Hop & Ho); try done.
  - intros x. apply zero_page_out.
  - apply zero_page_word, Hs.
  - intros x Hx. unfold zero_page. by rewrite Hx.
  - exists o. split; [exact E|]. split; [intros q ->; destruct Hop as [|[= ->]]; [done|by apply Hst]|].
    intros Ha Hg. destruct (Hz ltac:(lia)). destruct (Ho ltac:(lia) Hg). split; [done|]. lia.
Qed.

(** ** Mapping a range *)

(** The pages from [v] on got the frames [fs]; [None] is a page whose tables
    could not be built. *)
Record mapped (root : Z) s s' (v : Z) (fs : list (option Z)) : Prop := {
  md_ok : vm_ok s' root;
  md_leaf : forall i o, fs !! i = Some o -> leaf_at (pm s') root (v + Z.of_nat i * 4096) = o;
  md_page : forall i p, fs !! i = Some (Some p) -> ~ in_use (pa s) p /\ data_page root s' p /\
    (forall x, in_page p x = true -> pm s' x = 0) /\
    (forall w, w / 4096 = v / 4096 + Z.of_nat i -> vmm_get_phys s' root w = p + w mod 4096) /\
    small_at (pm s') root (v + Z.of_nat i * 4096) = true /\ p <> 0;
  md_none : forall i w, fs !! i = Some None -> w / 4096 = v / 4096 + Z.of_nat i -> vmm_get_phys s' root w = vmm_get_phys s root w;
  md_sole : forall i j p, fs !! i = Some (Some p) -> fs !! j = Some (Some p) -> i = j;
  md_other : forall w, 0 <= w < 2 ^ 48 -> ~ v / 4096 <= w / 4096 < v / 4096 + len fs -> vmm_get_phys s' root w = vmm_get_phys s root w;
  md_uleaf : forall w, 0 <= w < 2 ^ 48 -> ~ v / 4096 <= w / 4096 < v / 4096 + len fs -> leaf_at (pm s') root w = leaf_at (pm s) root w;
  md_huge : forall w, huge_above (pm s') root w = true -> huge_above (pm s) root w = true;
  md_use : forall q, is_page q -> in_use (pa s) q -> in_use (pa s') q;
  md_data : forall q, data_page root s q -> data_page root s' q;
  md_mem : forall q x, data_page root s q -> in_page q x = true -> pm s' x = pm s x;
}.

Definition range_ok (v n : Z) : Prop := 0 <= v /\ v mod 4096 = 0 /\ v + n * 4096 <= 2 ^ 48.

Lemma page_at v i : v mod 4096 = 0 -> (v + i * 4096) / 4096 = v / 4096 + i.
Proof. intros. rewrite Z.div_add by lia. done. Qed.

Lemma mapped_nil root s v : vm_ok s root -> mapped root s s v [].
Proof. intros Hs. by constructor; try done. Qed.

Lemma lookup_snoc {B} (l : list B) x i y :
  (l ++ [x]) !! i = Some y -> (l !! i = Some y /\ (i < length l)%nat) \/ (i = length l /\ x = y).
Proof.
  intros E. destruct (decide (i < length l)%nat).
  - left. by rewrite lookup_app_l in E.
  - right. rewrite lookup_app_r in E by lia. destruct (i - length l)%nat eqn:Ei; [|done]. injection E as ->. split; [lia|done].
Qed.

Lemma mapped_snoc root s s1 s2 v fs o :
  range_ok v (len fs + 1) -> mapped root s s1 v fs -> extends zeros root s1 s2 (v + len fs * 4096) o ->
  mapped root s s2 v (fs ++ [o]).
Proof.
  intros (Hv & Hvm & Hend) M E. set (u := v + len fs * 4096) in *. pose proof (len_nonneg fs) as Hlen.
  assert (Hu : u / 4096 = v / 4096 + len fs) by (by apply page_at).
  assert (Hi : forall i, (i < length fs)%nat -> 0 <= v + Z.of_nat i * 4096 < 2 ^ 48 /\ (v + Z.of_nat i * 4096) / 4096 <> u / 4096).
  { intros i Hi. rewrite Hu, page_at by done. unfold len in *. lia. }
  assert (Hur : 0 <= u < 2 ^ 48) by lia.
  assert (Hleaf : forall w, 0 <= w < 2 ^ 48 -> w / 4096 <> u / 4096 -> leaf_at (pm s2) root w = leaf_at (pm s1) root w).
  { intros w Hw Hne. apply (ex_uleaf _ _ _ _ _ _ E); [apply leaf_path|]. by apply other_page. }
  assert (Hpage : forall i w, (i < length fs)%nat -> w / 4096 = v / 4096 + Z.of_nat i -> 0 <= w < 2 ^ 48 /\ w / 4096 <> u / 4096).
  { intros i w Hil Hw. destruct (Hi i Hil) as [Hr _]. unfold len in *. split; [|lia].
    pose proof (Z.div_mod w 4096 ltac:(lia)). pose proof (Z.mod_pos_bound w 4096 ltac:(lia)).
    pose proof (Z.div_mod v 4096 ltac:(lia)). lia. }
  constructor.
  - apply E.
  - intros i y [[Hy Hil]|[-> ->]]%lookup_snoc.
    + destruct (Hi i Hil). rewrite Hleaf by done. by apply (md_leaf _ _ _ _ _ M).
    + apply E.
  - intros i p [[Hy Hil]|[-> ->]]%lookup_snoc.
    + destruct (md_page _ _ _ _ _ M i p Hy) as (Hf & Hd & Hz & Hp & Hsm). split; [done|]. split; [by apply (ex_data _ _ _ _ _ _ E)|]. split; [|split].
      * intros x Hx. rewrite (ex_mem _ _ _ _ _ _ E p x Hd Hx). by apply Hz.
      * intros w Hw. destruct (Hpage i w Hil Hw). rewrite (ex_other _ _ _ _ _ _ E) by done. by apply Hp.
      * destruct (Hi i Hil). split; [|apply Hsm]. apply (ex_small _ _ _ _ _ _ E); [by apply other_page|apply Hsm].
    + destruct (ex_page _ _ _ _ _ _ E p eq_refl) as (Hf & Hd & Hz & Hp & Hsm). split; [|split; [done|]; split; [done|]; split; [|done]].
      * intros Hin. apply Hf, (md_use _ _ _ _ _ M); [apply Hd|done].
      * intros w Hw. apply Hp. by rewrite Hu.
  - intros i w [[Hy Hil]|[-> ->]]%lookup_snoc Hw.
    + destruct (Hpage i w Hil Hw). rewrite (ex_other _ _ _ _ _ _ E) by done. by apply (md_none _ _ _ _ _ M i).
    + rewrite (ex_none _ _ _ _ _ _ E eq_refl). fold (len fs) in Hw.
      assert (0 <= w < 2 ^ 48) by (pose proof (Z.div_mod w 4096 ltac:(lia)); pose proof (Z.mod_pos_bound w 4096 ltac:(lia));
        pose proof (Z.div_mod v 4096 ltac:(lia)); lia).
      apply (md_other _ _ _ _ _ M); [done|lia].
  - intros i j p [[Hy Hil]|[-> ->]]%lookup_snoc [[Hy' Hil']|[-> E']]%lookup_snoc; [by apply (md_sole _ _ _ _ _ M i j p)| | |done].
    + subst o. exfalso. destruct (ex_page _ _ _ _ _ _ E p eq_refl) as (Hf & _). apply Hf. by apply (md_page _ _ _ _ _ M i p).
    + exfalso. destruct (ex_page _ _ _ _ _ _ E p eq_refl) as (Hf & _). apply Hf. by apply (md_page _ _ _ _ _ M j p).
  - intros w Hw Hn. rewrite len_app, len_cons, len_nil in Hn. rewrite (ex_other _ _ _ _ _ _ E) by (lia || done). apply (md_other _ _ _ _ _ M); [done|lia].
  - intros w Hw Hn. rewrite len_app, len_cons, len_nil in Hn. rewrite Hleaf by (lia || done). apply (md_uleaf _ _ _ _ _ M); [done|lia].
  - intros w Hh. by apply (md_huge _ _ _ _ _ M), (ex_huge _ _ _ _ _ _ E).
  - intros q Hq Hin. by apply (ex_use _ _ _ _ _ _ E), (md_use _ _ _ _ _ M).
  - intros q Hq. by apply (ex_data _ _ _ _ _ _ E), (md_data _ _ _ _ _ M).
  - intros q x Hq Hx. rewrite (ex_mem _ _ _ _ _ _ E q x); [by apply (md_mem _ _ _ _ _ M q)|by apply (md_data _ _ _ _ _ M)|done].
Qed.

(** ** Unmapped pages *)

Definition unmapped s (root v n : Z) : Prop :=
  forall w, 0 <= w < 2 ^ 48 -> v / 4096 <= w / 4096 < v / 4096 + n -> vmm_get_phys s root w = 0.

Lemma leaf_phys_odd e l v : has e PAGE_PRESENT = true -> 0 <= e -> v mod 4096 = 1 -> leaf_phys e l v <> 0.
Proof.
  intros Hp He Hv. unfold leaf_phys. rewrite Hp.
  assert (Hb : Z.testbit v 0 = true) by (rewrite Z.bit0_odd, Zodd_mod; zlia).
  assert (Hor : forall x m, Z.testbit m 0 = true -> Z.lor x (Z.land v m) <> 0).
  { intros x m Hm E. apply (f_equal (fun z => Z.testbit z 0)) in E. rewrite Z.lor_spec, Z.land_spec, Hb, Hm, Z.bits_0 in E.
    by rewrite orb_true_r in E. }
  destruct (has e PAGE_HUGE); [destruct l|]; by apply Hor.
Qed.

Lemma unmapped_page s root v :
  vm_ok s root -> v mod 4096 = 0 -> (forall w, w / 4096 = v / 4096 -> vmm_get_phys s root w = 0) ->
  leaf_at (pm s) root v = None /\ huge_above (pm s) root v = false /\ vmm_unmap_page s root v = s.
Proof.
  intros Hs Hv Hz. assert (Ew : (v + 1) / 4096 = v / 4096) by zlia. assert (Hodd : (v + 1) mod 4096 = 1) by zlia.
  pose proof (Hz (v + 1) Ew) as H1. rewrite get_phys_tab in H1.
  assert (Hleaf : forall t, tab (pm s) root (path1 v) = Some t -> has (pm s (slot t (idx 0 v))) PAGE_PRESENT = false).
  { intros t Et. apply not_true_iff_false. intros Hp. unfold phys_of in H1.
    rewrite (path1_page _ v Ew), (idx_page 0 _ v), Et in H1 by (done || lia).
    by apply leaf_phys_odd in H1; [|done|apply (vo_word s root Hs)|]. }
  split; [|split].
  - unfold leaf_at, uleaf. destruct (tab (pm s) root (path1 v)) as [t|] eqn:Et; [|done]. cbn [mbind option_bind].
    by rewrite (Hleaf t eq_refl).
  - apply not_true_iff_false. unfold huge_above, huge_at. destruct (tab (pm s) root (path3 v)) as [t|] eqn:Et; [|done].
    intros [Hp Hh]%andb_true_iff. unfold phys_of in H1.
    assert (E2 : tab (pm s) root (path2 v) = None).
    { unfold path2. cbn [tab]. rewrite Et. cbn [mbind option_bind]. unfold child. rewrite Hp, Hh. done. }
    assert (E1 : tab (pm s) root (path1 v) = None) by (unfold path1; cbn [tab]; by rewrite E2).
    assert (P3 : path3 (v + 1) = path3 v) by (unfold path3; by rewrite (idx_page 3 (v + 1) v)).
    assert (P2 : path2 (v + 1) = path2 v) by (unfold path2; by rewrite P3, (idx_page 2 (v + 1) v)).
    rewrite (path1_page _ v Ew), P2, P3, E1, E2, Et, (idx_page 2 _ v) in H1 by (done || lia).
    by apply leaf_phys_odd in H1; [|done|apply (vo_word s root Hs)|].
  - unfold vmm_unmap_page. destruct (get_pte_level (pm s) root v) as [[e l]|] eqn:E; [|done].
    destruct (get_pte_inv _ _ _ _ _ E) as [(-> & t & Et & ->)|[_ Hh]].
    + by rewrite (Hleaf t Et).
    + rewrite Hh. by destruct (has _ PAGE_PRESENT).
Qed.

Lemma mapped_kept root s s1 s2 v fs : mapped root s s1 v fs -> tables_kept root s1 s2 -> mapped root s s2 v fs.
Proof.
  intros M K. constructor.
  - apply K.
  - intros i o Hi. unfold leaf_at. rewrite (tk_user _ _ _ K _ _ (leaf_path _)). by apply (md_leaf _ _ _ _ _ M).
  - intros i p Hi. destruct (md_page _ _ _ _ _ M i p Hi) as (Hf & Hd & Hz & Hp & Hsm). split; [done|].
    split; [by apply (data_page_kept root s1)|]. split; [|split].
    + intros x Hx. rewrite (tk_mem _ _ _ K p x Hd Hx). by apply Hz.
    + intros w Hw. rewrite get_phys_tab, (tk_phys _ _ _ K), <- get_phys_tab. by apply Hp.
    + split; [|apply Hsm]. by apply (small_kept root s1); [|apply Hsm].
  - intros i w Hi Hw. rewrite get_phys_tab, (tk_phys _ _ _ K), <- get_phys_tab. by apply (md_none _ _ _ _ _ M i).
  - apply M.
  - intros w Hw Hn. rewrite get_phys_tab, (tk_phys _ _ _ K), <- get_phys_tab. by apply (md_other _ _ _ _ _ M).
  - intros w Hw Hn. unfold leaf_at. rewrite (tk_user _ _ _ K _ _ (leaf_path _)). by apply (md_uleaf _ _ _ _ _ M).
  - intros w Hh. apply (md_huge _ _ _ _ _ M), (tk_huge _ _ _ K); [apply path3_huge|done].
  - intros q Hq Hi. by apply (tk_use _ _ _ K), (md_use _ _ _ _ _ M).
  - intros q Hq. by apply (data_page_kept root s1), (md_data _ _ _ _ _ M).
  - intros q x Hq Hx. rewrite (tk_mem _ _ _ K q x); [by apply (md_mem _ _ _ _ _ M q)|by apply (md_data _ _ _ _ _ M)|done].
Qed.

(** Which pages of the range got a frame. *)
Definition all_mapped (fs : list (option Z)) : Prop := forall i, fs !! i <> Some None.

Lemma mapped_page_kept root s s1 v fs i :
  range_ok v (len fs + 1) -> mapped root s s1 v fs -> i = len fs -> unmapped s root (v + i * 4096) 1 ->
  let u := v + i * 4096 in
  0 <= u < 2 ^ 48 /\ u mod 4096 = 0 /\ (forall w, w / 4096 = u / 4096 -> vmm_get_phys s1 root w = 0).
Proof.
  intros (Hv & Hvm & Hend) M -> Hun. cbv zeta. pose proof (len_nonneg fs). split; [lia|]. split; [rewrite Z.mod_add; lia|].
  intros w Hw. rewrite page_at in Hw by done.
  assert (0 <= w < 2 ^ 48) by (pose proof (Z.div_mod w 4096 ltac:(lia)); pose proof (Z.mod_pos_bound w 4096 ltac:(lia));
    pose proof (Z.div_mod v 4096 ltac:(lia)); lia).
  rewrite (md_other _ _ _ _ _ M) by (done || lia). apply Hun; [done|]. rewrite page_at by done. lia.
Qed.

(** The loop of mmap up to its [i]-th page. *)
Definition mmap_inv (root : Z) s (v f : Z) (i : Z) s' : Prop :=
  for_loop (mmap_step root v f) (Z.to_nat i) 0 s = Next s' /\
  exists fs, len fs = i /\ mapped root s s' v fs /\ (forall k p, fs !! k = Some (Some p) -> managed (pa s') p) /\
    (5 * i <= avail (pa s) -> all_mapped fs /\ avail (pa s) - 5 * i <= avail (pa s')).

Lemma mmap_inv_step root s v n f i s1 :
  range_ok v n -> unmapped s root v n -> user_flags f -> 0 <= i < n -> mmap_inv root s v f i s1 ->
  let r := map_new s1 root (v + i * PAGE_SIZE) f in
  (r.2 = true -> mmap_inv root s v f (i + 1) r.1) /\
  (r.2 = false -> avail (pa s) < 5 * n /\ exists fs, len fs = i /\ mapped root s s1 v fs /\ mapped root s r.1 v fs /\
     forall k p, fs !! k = Some (Some p) -> managed (pa r.1) p).
Proof.
  intros (Hv & Hvm & Hend) Hun Hf Hi (Hrun & fs & Hlen & M & Hmg & Hav). unfold PAGE_SIZE.
  assert (Hr : range_ok v (len fs + 1)) by (split; [done|split; [done|lia]]).
  destruct (mapped_page_kept root s s1 v fs i Hr M (eq_sym Hlen)) as (Hu & Hum & Hz).
  { intros w Hw Hww. rewrite page_at in Hww by done. apply Hun; [done|lia]. }
  destruct (unmapped_page s1 root (v + i * 4096) (md_ok _ _ _ _ _ M) Hum Hz) as (Hl & Hg & _).
  destruct (map_new_spec root s1 (v + i * 4096) f (md_ok _ _ _ _ _ M) Hu Hf Hl) as (Ht & Hfail & Hst & o & E & Hom & Ho).
  cbv zeta. split.
  - intros Hr0. split.
    { replace (Z.to_nat (i + 1)) with (Z.to_nat i + 1)%nat by lia. rewrite for_loop_app, Hrun. cbn [for_loop].
      unfold mmap_step at 1, PAGE_SIZE. replace (0 + Z.of_nat (Z.to_nat i)) with i by lia.
      by destruct (map_new s1 root (v + i * 4096) f) as [t [|]]. }
    exists (fs ++ [o]). rewrite len_app, len_cons, len_nil, Hlen. split; [lia|]. split; [|split].
    + apply (mapped_snoc root s s1); [done|done|by rewrite Hlen].
    + intros k p [[Hk _]|[_ ->]]%lookup_snoc; [by apply Hst, (Hmg k)|by apply Hom].
    + intros Ha. destruct (Hav ltac:(lia)) as [Hall Hrest]. destruct (Ho ltac:(lia) Hg) as [Hsome Hrest'].
      split; [|lia]. intros j [[Hj _]|[_ ->]]%lookup_snoc; [by apply (Hall j)|done].
  - intros Hr0. split.
    + destruct (Z.lt_ge_cases (avail (pa s)) (5 * n)); [done|]. destruct (Hav ltac:(lia)) as [_ Hrest].
      rewrite Ht in Hr0 by lia. done.
    + exists fs. split; [done|]. split; [done|]. split; [by apply (mapped_kept root s s1); [|apply Hfail]|].
      intros k p Hk. by apply Hst, (Hmg k).
Qed.

(** ** Giving a page back *)

Lemma tab_get_pte m root v pt : tab m root (path1 v) = Some pt -> get_pte_level m root v = Some (slot pt (idx 0 v), LEVEL_PT).
Proof.
  unfold get_pte_level, path1, path2, path3. cbn [tab length mbind option_bind]. unfold child. cbn [Nat.eqb negb andb].
  destruct (has (m (slot root (idx 3 v))) PAGE_PRESENT); cbn [negb andb mbind option_bind]; [|done].
  set (e3 := m (slot (frame_of _) (idx 2 v))).
  destruct (has e3 PAGE_PRESENT); cbn [negb andb mbind option_bind]; [|done].
  destruct (has e3 PAGE_HUGE); cbn [negb andb mbind option_bind]; [done|].
  set (e2 := m (slot (frame_of e3) (idx 1 v))).
  destruct (has e2 PAGE_PRESENT); cbn [negb andb]; [|done].
  destruct (has e2 PAGE_HUGE); cbn [negb andb]; [done|]. by intros [= <-].
Qed.

Record released (root : Z) s s' (v p : Z) : Prop := {
  rl_ok : vm_ok s' root;
  rl_page : forall w, w / 4096 = v / 4096 -> vmm_get_phys s' root w = 0;
  rl_other : forall w, 0 <= w < 2 ^ 48 -> w / 4096 <> v / 4096 ->
    vmm_get_phys s' root w = vmm_get_phys s root w /\ leaf_at (pm s') root w = leaf_at (pm s) root w /\
    (small_at (pm s) root w = true -> small_at (pm s') root w = true);
  rl_use : forall q, is_page q -> q <> p -> in_use (pa s') q <-> in_use (pa s) q;
  rl_managed : stay_managed s s';
  rl_freed : managed (pa s) p -> ~ in_use (pa s') p;
}.

Lemma release_ok root s v p :
  vm_ok s root -> 0 <= v < 2 ^ 48 -> leaf_at (pm s) root v = Some p -> small_at (pm s) root v = true ->
  released root s (vmm_unmap_page (pa_free s p) root v) v p.
Proof.
  intros Hs Hv Hl Hsm. pose proof (uleaf_page root s _ _ p Hs Hl) as Hpp.
  destruct (vo_user s root Hs _ _ p (leaf_path v) Hl) as [_ Hnt].
  destruct (free_page_law (pa s) p (vo_alloc _ _ Hs) Hpp) as [Hal Hfree].
  pose proof Hl as Hl'. unfold leaf_at, uleaf in Hl'. unfold small_at in Hsm.
  destruct (tab (pm s) root (path1 v)) as [pt|] eqn:Et; [|done]. cbn [mbind option_bind] in Hl'.
  destruct (has (pm s (slot pt (idx 0 v))) PAGE_PRESENT) eqn:Ep; [|done]. apply negb_true_iff in Hsm.
  assert (vmm_unmap_page (pa_free s p) root v = mkVm (free_page (pa s) p) (mset (pm s) (slot pt (idx 0 v)) 0)) as ->.
  { unfold vmm_unmap_page. cbn [pa_free pm]. rewrite (tab_get_pte _ _ _ _ Et). cbn [pm]. by rewrite Ep, Hsm. }
  constructor.
  - apply (leaf_write_ok root s v pt Hs Et (free_page (pa s) p) 0 Hal); [| |done|done].
    + intros Q t HQ Ht. destruct (vo_tab s root Hs Q t HQ Ht) as [Hpt Hut]. apply Hfree; [done| |done]. intros ->. by apply (Hnt Q).
    + intros Q k q HQ Hne Hq. destruct (vo_user s root Hs Q k q HQ Hq) as [Huq _]. apply Hfree; [by apply (uleaf_page root s Q k)| |done].
      intros ->. apply Hne. destruct (vo_sole s root Hs Q k _ _ p HQ (leaf_path v) Hq Hl) as [-> ->]. done.
  - intros w Hw. rewrite get_phys_tab. exact (leaf_phys_here root s v pt Hs Et (free_page (pa s) p) 0 w Hw).
  - intros w Hw Hne. assert (Hpne : (path1 w, idx 0 w) <> (path1 v, idx 0 v)) by by apply other_page.
    split; [rewrite !get_phys_tab; exact (leaf_phys_other root s v pt Hs Et (free_page (pa s) p) 0 w Hpne)|].
    split; [exact (leaf_uleaf root s v pt Hs Et (free_page (pa s) p) 0 _ _ (leaf_path w) Hpne)|].
    unfold small_at. pose proof (leaf_tab root s v pt Hs Et (free_page (pa s) p) 0 _ (path1_ok w)) as ET. cbn [pm] in ET |- *. rewrite ET.
    destruct (tab (pm s) root (path1 w)) as [t|] eqn:Ew; [|done].
    pose proof (leaf_slot root s v pt Hs Et (free_page (pa s) p) 0 (path1 w) t (idx 0 w) (path1_ok w) (idx_ok 0 w) Ew Hpne) as E.
    cbn [pm] in E. by rewrite E.
  - intros q Hq Hne. by apply Hfree.
  - intros q. apply free_managed.
  - by apply reclaim_law; [apply Hs|].
Qed.

(** Each page of the range is mapped to a page of its own or not at all. *)
Definition user_page s (root u : Z) : Prop :=
  (exists p, leaf_at (pm s) root u = Some p /\ small_at (pm s) root u = true /\ p <> 0 /\
     forall w, w / 4096 = u / 4096 -> vmm_get_phys s root w = p + w mod 4096) \/
  (forall w, w / 4096 = u / 4096 -> vmm_get_phys s root w = 0).

Definition user_pages s (root v n : Z) : Prop := forall j, 0 <= j < n -> user_page s root (v + j * 4096).

(** The pages of the range in front of the [j]-th are given back. *)
Record clearing (root : Z) s (v : Z) (j : Z) t : Prop := {
  cl_ok : vm_ok t root;
  cl_done : forall w, 0 <= w < 2 ^ 48 -> v / 4096 <= w / 4096 < v / 4096 + j -> vmm_get_phys t root w = 0;
  cl_rest : forall w, 0 <= w < 2 ^ 48 -> ~ v / 4096 <= w / 4096 < v / 4096 + j ->
    vmm_get_phys t root w = vmm_get_phys s root w /\ leaf_at (pm t) root w = leaf_at (pm s) root w /\
    (small_at (pm s) root w = true -> small_at (pm t) root w = true);
  cl_use : forall q, is_page q -> (forall i p, 0 <= i < j -> leaf_at (pm s) root (v + i * 4096) = Some p -> q <> p) ->
    in_use (pa t) q <-> in_use (pa s) q;
  cl_managed : stay_managed s t;
  cl_freed : forall i p, 0 <= i < j -> leaf_at (pm s) root (v + i * 4096) = Some p -> managed (pa s) p -> ~ in_use (pa t) p;
}.

Lemma page_range v n j w : range_ok v n -> 0 <= j < n -> w / 4096 = v / 4096 + j -> 0 <= w < 2 ^ 48.
Proof.
  intros (Hv & Hvm & Hend) Hj Hw. pose proof (Z.div_mod w 4096 ltac:(lia)). pose proof (Z.mod_pos_bound w 4096 ltac:(lia)).
  pose proof (Z.div_mod v 4096 ltac:(lia)). lia.
Qed.

Lemma clear_step root s v n j t :
  range_ok v n -> user_pages s root v n -> vm_ok s root -> 0 <= j < n -> clearing root s v j t ->
  let u := v + j * 4096 in let p := vmm_get_phys t root u in
  clearing root s v (j + 1) (vmm_unmap_page (if p =? 0 then t else pa_free t p) root u) /\
  (p = 0 -> vmm_unmap_page t root u = t).
Proof.
  intros Hr Hus Hs Hj C. cbv zeta. set (u := v + j * 4096). pose proof Hr as (Hv & Hvm & Hend).
  assert (Hu : u / 4096 = v / 4096 + j) by (by apply page_at).
  assert (Hur : 0 <= u < 2 ^ 48) by lia. assert (Hum : u mod 4096 = 0) by (unfold u; by rewrite Z.mod_add).
  assert (Hin : forall w, w / 4096 = u / 4096 -> 0 <= w < 2 ^ 48) by (intros w Hw; apply (page_range v n j w Hr Hj); lia).
  assert (Hsame : forall w, w / 4096 = u / 4096 -> vmm_get_phys t root w = vmm_get_phys s root w).
  { intros w Hw. apply (cl_rest _ _ _ _ _ C); [by apply Hin|lia]. }
  destruct (Hus j Hj) as [(p & Hl & Hsm & Hp0 & Hp)|Hz]; fold u in Hl, Hsm, Hp || fold u in Hz.
  - assert (vmm_get_phys t root u = p) as -> by (rewrite Hsame by done; rewrite Hp by done; lia).
    rewrite (proj2 (Z.eqb_neq p 0)) by done. split; [|done].
    destruct (cl_rest _ _ _ _ _ C u Hur ltac:(lia)) as (_ & El & Esm). rewrite <- El in Hl.
    pose proof (release_ok root t u p (cl_ok _ _ _ _ _ C) Hur Hl (Esm Hsm)) as L. constructor.
    + apply L.
    + intros w Hw Hww. destruct (decide (w / 4096 = u / 4096)) as [E|Hne]; [by apply (rl_page _ _ _ _ _ L)|].
      destruct (rl_other _ _ _ _ _ L w) as (-> & _); [done|done|]. apply (cl_done _ _ _ _ _ C); [done|lia].
    + intros w Hw Hn. destruct (rl_other _ _ _ _ _ L w) as (E1 & E2 & E3); [done|lia|].
      destruct (cl_rest _ _ _ _ _ C w Hw) as (F1 & F2 & F3); [lia|]. split; [by rewrite E1|]. split; [by rewrite E2|]. auto.
    + intros q Hq Hne. rewrite (rl_use _ _ _ _ _ L q Hq).
      * apply (cl_use _ _ _ _ _ C); [done|]. intros i r Hi. apply Hne. lia.
      * apply (Hne j p); [lia|]. fold u. by rewrite <- El.
    + intros q Hq. by apply (rl_managed _ _ _ _ _ L), (cl_managed _ _ _ _ _ C).
    + intros i q Hi Hq Hm. destruct (decide (q = p)) as [->|Hne]; [by apply (rl_freed _ _ _ _ _ L), (cl_managed _ _ _ _ _ C)|].
      rewrite (rl_use _ _ _ _ _ L) by (done || by apply (uleaf_page root s _ _ q Hs Hq)).
      apply (cl_freed _ _ _ _ _ C i); [|done|done]. destruct (decide (i = j)) as [->|]; [|lia]. fold u in Hq. congruence.
  - assert (Ht : forall w, w / 4096 = u / 4096 -> vmm_get_phys t root w = 0) by (intros w Hw; by rewrite Hsame, Hz).
    rewrite (Ht u eq_refl). cbn [Z.eqb].
    destruct (unmapped_page t root u (cl_ok _ _ _ _ _ C) Hum Ht) as (El & _ & Eun). rewrite Eun. split; [|done].
    destruct (cl_rest _ _ _ _ _ C u Hur ltac:(lia)) as (_ & El' & _).
    destruct C as [Co Cd Cr Cu Cm Cf]. constructor; [done| | | |done|].
    + intros w Hw Hww. destruct (decide (w / 4096 = u / 4096)) as [E|Hne]; [by apply Ht|]. apply Cd; [done|lia].
    + intros w Hw Hn. apply Cr; [done|lia].
    + intros q Hq Hne. apply Cu; [done|]. intros i r Hi. apply Hne. lia.
    + intros i q Hi Hq. destruct (decide (i = j)) as [->|]; [|apply (Cf i); [lia|done]]. fold u in Hq. congruence.
Qed.

Lemma clearing_0 root s v : vm_ok s root -> clearing root s v 0 s.
Proof. intros Hs. constructor; [done|intros; lia|done|done|by intros q|intros; lia]. Qed.

(** Both loops that give pages back. *)
Lemma clear_loop root s v n body :
  range_ok v n -> 0 <= n -> user_pages s root v n -> vm_ok s root ->
  (forall j t, let u := v + j * 4096 in let p := vmm_get_phys t root u in
     (p = 0 -> vmm_unmap_page t root u = t) -> body j t = vmm_unmap_page (if p =? 0 then t else pa_free t p) root u) ->
  clearing root s v n (for_each body (Z.to_nat n) 0 s).
Proof.
  intros Hr Hn Hus Hs Hb. pose proof (for_each_ind body (clearing root s v) (Z.to_nat n) 0 s) as L.
  rewrite Z2Nat.id, Z.add_0_l in L by done. apply L; [by apply clearing_0|].
  intros j t Hj C. destruct (clear_step root s v n j t Hr Hus Hs Hj C) as [C' Hz]. by rewrite Hb.
Qed.

Lemma release_pages_ok root s v n :
  range_ok v n -> 0 <= n -> user_pages s root v n -> vm_ok s root -> clearing root s v n (release_pages root v n s).
Proof.
  intros Hr Hn Hus Hs. apply (clear_loop root s v n (fun i s => release_page root (v + i * PAGE_SIZE) s)); try done.
  intros j t u p Hz. unfold release_page, PAGE_SIZE. fold u p. destruct (Z.eqb_spec p 0); [by rewrite Hz|done].
Qed.

Lemma mapped_user root s s' v fs :
  range_ok v (len fs) -> unmapped s root v (len fs) -> mapped root s s' v fs -> user_pages s' root v (len fs).
Proof.
  intros Hr Hun M j Hj. pose proof Hr as (Hv & Hvm & Hend).
  assert (Hu : (v + j * 4096) / 4096 = v / 4096 + j) by (by apply page_at).
  destruct (fs !! Z.to_nat j) as [[p|]|] eqn:Ej; [| |apply lookup_ge_None in Ej; unfold len in Hj; lia].
  - left. exists p. destruct (md_page _ _ _ _ _ M _ _ Ej) as (_ & _ & _ & Hp & Hsm & Hp0).
    pose proof (md_leaf _ _ _ _ _ M _ _ Ej) as Hl. rewrite Z2Nat.id in * by lia. split_and!; try done.
    intros w Hw. apply Hp. lia.
  - right. intros w Hw. rewrite (md_none _ _ _ _ _ M _ w Ej) by (rewrite Z2Nat.id by lia; lia).
    apply Hun; [apply (page_range v (len fs) j w Hr Hj)|]; lia.
Qed.

(** Giving back what was mapped leaves the address space as it was. *)
Lemma cleared_back root s s1 v fs t :
  unmapped s root v (len fs) -> mapped root s s1 v fs -> clearing root s1 v (len fs) t ->
  vm_ok t root /\ (forall w, 0 <= w < 2 ^ 48 -> vmm_get_phys t root w = vmm_get_phys s root w) /\
  (forall q, is_page q -> in_use (pa s) q -> in_use (pa t) q) /\
  (forall k p, fs !! k = Some (Some p) -> managed (pa s1) p -> ~ in_use (pa t) p).
Proof.
  intros Hun M [Co Cd Cr Cu _ Cf]. split; [done|]. split; [|split].
  - intros w Hw. destruct (decide (v / 4096 <= w / 4096 < v / 4096 + len fs)) as [Hi|Ho].
    + rewrite (Cd w Hw Hi), (Hun w Hw Hi). done.
    + destruct (Cr w Hw Ho) as (-> & _). by apply (md_other _ _ _ _ _ M).
  - intros q Hq Hi. apply Cu; [done| |by apply (md_use _ _ _ _ _ M)]. intros i p Hir Hl ->.
    destruct (fs !! Z.to_nat i) as [[r|]|] eqn:Ei; [| |apply lookup_ge_None in Ei; unfold len in Hir; lia];
      pose proof (md_leaf _ _ _ _ _ M _ _ Ei) as E; rewrite Z2Nat.id, Hl in E by lia; [|done].
    injection E as <-. destruct (md_page _ _ _ _ _ M _ _ Ei) as (Hf & _). by apply Hf.
  - intros k p Hk. apply (Cf (Z.of_nat k)); [apply lookup_lt_Some in Hk; unfold len; lia|by apply (md_leaf _ _ _ _ _ M)].
Qed.

Lemma rollback_ok root s s1 v fs :
  range_ok v (len fs) -> unmapped s root v (len fs) -> mapped root s s1 v fs ->
  let s' := for_each (fun j s =>
      let va := v + j * PAGE_SIZE in
      let p := vmm_get_phys s root va in
      vmm_unmap_page (if p =? 0 then s else pa_free s p) root va) (Z.to_nat (len fs)) 0 s1 in
  vm_ok s' root /\ (forall w, 0 <= w < 2 ^ 48 -> vmm_get_phys s' root w = vmm_get_phys s root w) /\
  (forall q, is_page q -> in_use (pa s) q -> in_use (pa s') q) /\
  (forall k p, fs !! k = Some (Some p) -> managed (pa s1) p -> ~ in_use (pa s') p).
Proof.
  intros Hr Hun M. apply (cleared_back root s s1 v fs); [done|done|].
  apply (clear_loop root s1 v (len fs)); [done|apply len_nonneg|by apply (mapped_user root s)|apply M|by intros j t].
Qed.

(** ** mmap *)

Definition mmap_ok (p : proc) : Prop := 0 <= mmap_next_addr p <= MMAP_REGION_END /\ mmap_next_addr p mod 4096 = 0.

Lemma slide_ok rnd bits : 0 <= bits -> 0 <= slide rnd bits < 2 ^ bits * 4096 /\ slide rnd bits mod 4096 = 0.
Proof.
  intros Hb. unfold slide. rewrite Z.shiftl_1_l, Z.sub_1_r, <- Z.ones_equiv, Z.land_ones, Z.shiftl_mul_pow2 by lia.
  pose proof (Z.mod_pos_bound rnd (2 ^ bits) ltac:(lia)). change (2 ^ 12) with 4096. split; [nia|apply Z.mod_mul; lia].
Qed.

Lemma mmap_start_ok p rnd : mmap_ok p -> 0 < mmap_start p rnd <= MMAP_REGION_END /\ mmap_start p rnd mod 4096 = 0.
Proof.
  unfold mmap_ok, mmap_start, MMAP_REGION_END, MMAP_REGION_BASE, ASLR_MMAP_BITS. intros [Hr Hm].
  destruct (slide_ok rnd 8 ltac:(lia)) as [Hs Hsm]. change (2 ^ 8 * 4096) with 1048576 in Hs.
  destruct (Z.eqb_spec (mmap_next_addr p) 0); [|split; [lia|done]]. split; [lia|]. rewrite <- Z.add_mod_idemp_r, Hsm by lia. done.
Qed.

(** Memory ran out at the [i]-th page of the range, in the state [t] in which the
    pages before it were mapped to the frames [fs]; in [s'] those frames are free
    again, every page in use before is in use, and every address translates as
    before. *)
Definition gave_back (root : Z) s (v f n : Z) s' : Prop :=
  vm_ok s' root /\ (forall w, 0 <= w < 2 ^ 48 -> vmm_get_phys s' root w = vmm_get_phys s root w) /\
  (forall q, is_page q -> in_use (pa s) q -> in_use (pa s') q) /\
  exists i t fs, 0 <= i < n /\ for_loop (mmap_step root v f) (Z.to_nat i) 0 s = Next t /\
    (map_new t root (v + i * PAGE_SIZE) f).2 = false /\ len fs = i /\ mapped root s t v fs /\
    forall k p, fs !! k = Some (Some p) -> ~ in_use (pa s') p.

Lemma mmap_loop_ok root s v n f :
  range_ok v n -> 0 <= n -> unmapped s root v n -> user_flags f -> vm_ok s root ->
  match for_loop (mmap_step root v f) (Z.to_nat n) 0 s with
  | Next s' => exists fs, len fs = n /\ mapped root s s' v fs /\ (5 * n <= avail (pa s) -> all_mapped fs)
  | Stop s' => avail (pa s) < 5 * n /\ gave_back root s v f n s'
  end.
Proof.
  intros Hr Hn Hun Hf Hs.
  pose proof (for_loop_ind (mmap_step root v f) (mmap_inv root s v f)
    (fun s' => avail (pa s) < 5 * n /\ gave_back root s v f n s') (Z.to_nat n) 0 s) as L.
  rewrite Z2Nat.id, Z.add_0_l in L by done.
  assert (H0 : mmap_inv root s v f 0 s).
  { split; [done|]. exists []. split; [done|]. split; [by apply mapped_nil|]. split; [done|]. intros _. split; [by intros i|lia]. }
  assert (Hstep : forall j t, 0 <= j < n -> mmap_inv root s v f j t ->
    match mmap_step root v f j t with
    | Next t' => mmap_inv root s v f (j + 1) t'
    | Stop s' => avail (pa s) < 5 * n /\ gave_back root s v f n s'
    end).
  { intros j t Hj I. pose proof (proj1 I) as Hrun. destruct (mmap_inv_step root s v n f j t Hr Hun Hf Hj I) as [Hok Hfail].
    unfold mmap_step. destruct (map_new t root (v + j * PAGE_SIZE) f) as [t' b] eqn:Em. destruct b; cbn [fst snd] in *; [by apply Hok|].
    destruct (Hfail eq_refl) as (Hav & fs & <- & M & M' & Hmg). split; [done|]. destruct Hr as (H1 & H2 & H3).
    destruct (rollback_ok root s t' v fs) as (B1 & B2 & B3 & B4); [split_and!; [done|done|lia]| |done|].
    { intros w Hw Hww. apply Hun; [done|lia]. }
    split; [exact B1|]. split; [exact B2|]. split; [exact B3|]. exists (len fs), t, fs.
    split; [done|]. split; [exact Hrun|]. split; [by rewrite Em|]. split; [done|]. split; [exact M|].
    intros k p Hk. apply (B4 k p Hk). by apply (Hmg k). }
  specialize (L H0 Hstep). destruct (for_loop _ _ 0 s) as [s'|s']; [|exact L].
  destruct L as (_ & fs & ? & ? & _ & Hav). exists fs. split; [done|]. split; [done|]. intros Ha; by apply Hav.
Qed.

Lemma mmap_ok_spec s p root rnd addr length prot flags :
  vm_ok s root -> root <> 0 -> pr_pml4 p = root -> mmap_ok p ->
  Z.land flags MMAP_ANONYMOUS <> 0 -> addr = 0 \/ Z.land flags 0x10 = 0 -> 0 < length <= 2 ^ 64 - 4096 ->
  let n := (length + 4095) / 4096 in let v := mmap_start p rnd in
  v + n * 4096 <= MMAP_REGION_END -> unmapped s root v n ->
  let r := sys_mmap s (Some p) rnd addr length prot flags in
  r.1.2 = Some (set_mmap_next p (v + n * 4096)) /\
  ((r.2 = v /\ exists fs, len fs = n /\ mapped root s r.1.1 v fs /\ (5 * n <= avail (pa s) -> all_mapped fs)) \/
   (r.2 = 1 /\ avail (pa s) < 5 * n /\ gave_back root s v (mmap_flags prot) n r.1.1)).
Proof.
  intros Hs Hroot Hp Hm Hanon Hfix Hlen n v Hend Hun. destruct (mmap_start_ok p rnd Hm) as [Hv Hva]. fold v in Hv, Hva.
  assert (Hn : 0 < n) by (unfold n; zlia). unfold MMAP_REGION_END in *.
  unfold sys_mmap. rewrite (proj2 (Z.eqb_neq _ 0)) by done. rewrite (proj2 (Z.eqb_neq length 0)) by lia.
  assert (negb (addr =? 0) && negb (Z.land flags 16 =? 0) = false) as ->
    by (destruct Hfix as [-> | ->]; [done|apply andb_false_r]).
  rewrite Hp, (proj2 (Z.eqb_neq root 0)) by done. cbv zeta.
  assert (pages_of length = n) as -> by (unfold pages_of, PAGE_SIZE; rewrite wrap_small by lia; unfold n; f_equal; lia).
  assert (mmap_alloc_vaddr p rnd n = (set_mmap_next p (v + n * 4096), v)) as ->.
  { unfold mmap_alloc_vaddr, PAGE_SIZE, MMAP_REGION_END. fold v. cbv zeta. rewrite wrap_small by lia.
    by rewrite (proj2 (Z.ltb_ge _ _)), (proj2 (Z.ltb_ge _ v)) by lia. }
  cbn [set_mmap_next pr_pml4]. rewrite (proj2 (Z.eqb_neq v 0)), Hp by lia.
  assert (Hr : range_ok v n) by (split_and!; [lia|done|change (2 ^ 48) with 281474976710656; lia]).
  pose proof (mmap_loop_ok root s v n (mmap_flags prot) Hr ltac:(lia) Hun (mmap_flags_ok prot) Hs) as L.
  destruct (for_loop _ _ 0 s) as [s'|s']; cbn [fst snd]; (split; [done|]); [left|right].
  - rewrite swrap_small by (change (2 ^ (64 - 1)) with 9223372036854775808; lia). done.
  - done.
Qed.

(** C19: An anonymous mmap of a free range that returns its start has mapped each
    page of it that it maps to a page of its own that nobody used, zeroed; with
    five free pages for each page of the range (the page and at most four tables)
    it maps them all.  With fewer it may leave out a page whose tables could not be
    built.  Every other address translates as before and no page of the process is
    written.  When there is no memory for a page of the range, the pages mapped
    before it are unmapped and their frames are free again: every address
    translates as before and every page in use stays in use (the tables built on
    the way stay too), but the result, -ENOMEM with ENOMEM = -1, is the positive
    number 1, which the library takes for an address. *)
Theorem mmap_maps_zeroed s p root rnd addr length prot flags :
  vm_ok s root -> root <> 0 -> pr_pml4 p = root -> mmap_ok p ->
  Z.land flags MMAP_ANONYMOUS <> 0 -> addr = 0 \/ Z.land flags 0x10 = 0 -> 0 < length <= 2 ^ 64 - 4096 ->
  let n := (length + 4095) / 4096 in let v := mmap_start p rnd in
  v + n * 4096 <= MMAP_REGION_END -> unmapped s root v n ->
  let r := sys_mmap s (Some p) rnd addr length prot flags in
  r.1.2 = Some (set_mmap_next p (v + n * 4096)) /\
  ((r.2 = v /\ exists fs, len fs = n /\ mapped root s r.1.1 v fs /\ (5 * n <= avail (pa s) -> all_mapped fs)) \/
   (r.2 = 1 /\ avail (pa s) < 5 * n /\ gave_back root s v (mmap_flags prot) n r.1.1)).
Proof. apply mmap_ok_spec. Qed.

(** ** munmap *)

Lemma munmap_range s p root v n length :
  pr_pml4 p = root -> root <> 0 -> range_ok v n -> 0 < v -> 0 < length -> n = (length + 4095) / 4096 ->
  sys_munmap s (Some p) v length = (release_pages root v n s, 0).
Proof.
  intros Hp Hroot (Hv & Hvm & Hend) Hv0 Hl ->. change (2 ^ 48) with 281474976710656 in Hend. unfold sys_munmap.
  rewrite (proj2 (Z.eqb_neq v 0)), (proj2 (Z.eqb_neq length 0)), Hp, (proj2 (Z.eqb_neq root 0)) by lia.
  rewrite !ALIGN_DOWN_page. unfold PAGE_SIZE. rewrite (wrap_small _ (v + length + 4096 - 1)) by zlia.
  replace (v / 4096 * 4096) with v by zlia. rewrite wrap_small by zlia. do 2 f_equal. zlia.
Qed.

(** munmap undoes mmap: unmapping the range a successful anonymous mmap
    returned restores the translation of every address, and keeps every page in
    use that was in use before the mmap. *)
Theorem mmap_munmap_roundtrip s p root rnd length prot flags s' p' v :
  vm_ok s root -> root <> 0 -> pr_pml4 p = root -> mmap_ok p ->
  Z.land flags MMAP_ANONYMOUS <> 0 -> 0 < length <= 2 ^ 64 - 4096 ->
  mmap_start p rnd + (length + 4095) / 4096 * 4096 <= MMAP_REGION_END ->
  unmapped s root (mmap_start p rnd) ((length + 4095) / 4096) ->
  sys_mmap s (Some p) rnd 0 length prot flags = (s', Some p', v) -> v <> 1 ->
  let r := sys_munmap s' (Some p') v length in
  r.2 = 0 /\ vm_ok r.1 root /\ (forall w, 0 <= w < 2 ^ 48 -> vmm_get_phys r.1 root w = vmm_get_phys s root w) /\
  (forall q, is_page q -> in_use (pa s) q -> in_use (pa r.1) q).
Proof.
  intros Hs Hroot Hp Hm Hanon Hlen Hend Hun E Hv1.
  destruct (mmap_ok_spec s p root rnd 0 length prot flags) as [Hp' Hr]; try done; [by left|].
  rewrite E in Hp', Hr. cbn [fst snd] in *. injection Hp' as ->.
  destruct (mmap_start_ok p rnd Hm) as [Hst Hsta].
  destruct Hr as [(-> & fs & Hn & M & _)|(-> & _)]; [|done]. set (v := mmap_start p rnd) in *.
  assert (Hr : range_ok v (len fs)) by (unfold MMAP_REGION_END in *; split_and!; [lia|done|change (2 ^ 48) with 281474976710656; lia]).
  rewrite <- Hn in Hun. cbv zeta. rewrite (munmap_range s' _ root v (len fs) length) by (done || lia).
  cbn [fst snd]. split; [done|].
  destruct (cleared_back root s s' v fs (release_pages root v (len fs) s')) as (? & ? & ? & _); [done|done| |done].
  apply release_pages_ok; [done|apply len_nonneg|by apply (mapped_user root s)|apply M].
Qed.

(** ** brk *)

(** The first [i] pages from [u] on are mapped now: as they were, or to new,
    zeroed pages. *)
Record grown (root : Z) s (u i : Z) s' : Prop := {
  gw_ok : vm_ok s' root;
  gw_other : forall w, 0 <= w < 2 ^ 48 -> ~ u / 4096 <= w / 4096 < u / 4096 + i -> vmm_get_phys s' root w = vmm_get_phys s root w;
  gw_old : forall j w, 0 <= j < i -> w / 4096 = u / 4096 + j -> vmm_get_phys s root (u + j * 4096) <> 0 ->
    vmm_get_phys s' root w = vmm_get_phys s root w;
  gw_new : forall j, 0 <= j < i -> vmm_get_phys s root (u + j * 4096) = 0 ->
    exists p, ~ in_use (pa s) p /\ data_page root s' p /\ p <> 0 /\ (forall x, in_page p x = true -> pm s' x = 0) /\
      forall w, w / 4096 = u / 4096 + j -> vmm_get_phys s' root w = p + w mod 4096;
  gw_avail : avail (pa s) - 5 * i <= avail (pa s');
  gw_use : forall q, is_page q -> in_use (pa s) q -> in_use (pa s') q;
  gw_data : forall q, data_page root s q -> data_page root s' q;
  gw_mem : forall q x, data_page root s q -> in_page q x = true -> pm s' x = pm s x;
}.

(** Physical address 0 does not count as mapped. *)
Definition brk_pages s (root u n : Z) : Prop :=
  forall j, 0 <= j < n -> vmm_get_phys s root (u + j * 4096) <> 0 \/
    forall w, w / 4096 = u / 4096 + j -> vmm_get_phys s root w = 0.

Lemma grown_step root s u n i s1 :
  range_ok u n -> brk_pages s root u n -> 5 * n <= avail (pa s) -> 0 <= i < n -> grown root s u i s1 ->
  match brk_grow_step root u i s1 with Next s2 => grown root s u (i + 1) s2 | Stop _ => False end.
Proof.
  intros Hr Hbp Hav Hi G. pose proof Hr as (Hu & Hum & Hend). unfold brk_grow_step, PAGE_SIZE. cbv zeta. set (a := u + i * 4096).
  assert (Ha : a / 4096 = u / 4096 + i) by (by apply page_at).
  assert (Har : 0 <= a < 2 ^ 48) by lia. assert (Ham : a mod 4096 = 0) by (unfold a; by rewrite Z.mod_add).
  assert (Hin : forall w, w / 4096 = u / 4096 + i -> 0 <= w < 2 ^ 48) by (intros w Hw; by apply (page_range u n i w Hr Hi)).
  assert (Hsame : forall w, w / 4096 = u / 4096 + i -> vmm_get_phys s1 root w = vmm_get_phys s root w).
  { intros w Hw. apply (gw_other _ _ _ _ _ G); [by apply Hin|lia]. }
  assert (Hcase : forall j, 0 <= j < i + 1 -> j = i \/ 0 <= j < i) by lia.
  rewrite (Hsame a Ha). destruct (Z.eqb_spec (vmm_get_phys s root a) 0) as [Hz|Hnz]; cbn [negb].
  2: { destruct G as [Go Gk Gold Gnew Ga Gu Gd Gm]. constructor; try done.
       - intros w Hw Hn. apply Gk; [done|lia].
       - intros j w Hj Hw Hm. destruct (Hcase j Hj) as [->|Hj']; [by apply Hsame|by apply (Gold j)].
       - intros j Hj Hm. destruct (Hcase j Hj) as [->|Hj']; [done|by apply Gnew].
       - lia. }
  assert (Hun : forall w, w / 4096 = a / 4096 -> vmm_get_phys s1 root w = 0).
  { intros w Hw. rewrite Ha in Hw. rewrite (Hsame w Hw). destruct (Hbp i Hi) as [Hc|Hc]; [done|by apply Hc]. }
  destruct (unmapped_page s1 root a (gw_ok _ _ _ _ _ G) Ham Hun) as (Hl & Hg & _).
  destruct (map_new_spec root s1 a BRK_FLAGS (gw_ok _ _ _ _ _ G) Har brk_flags_ok Hl) as (Ht & _ & _ & o & E & _ & Ho).
  pose proof (gw_avail _ _ _ _ _ G) as Hav1. specialize (Ht ltac:(lia)). destruct (Ho ltac:(lia) Hg) as [Hsome Hav2].
  destruct (map_new s1 root a BRK_FLAGS) as [s2 b]. cbn [fst snd] in *. subst b. destruct o as [p|]; [|done].
  destruct (ex_page _ _ _ _ _ _ E p eq_refl) as (Hf & Hd & Hzero & Hp & _ & Hp0).
  destruct G as [Go Gk Gold Gnew Ga Gu Gd Gm]. destruct E as [Eo _ _ _ _ Eoth _ _ Eu Ed Em].
  constructor.
  - done.
  - intros w Hw Hn. rewrite Eoth by (done || lia). apply Gk; [done|lia].
  - intros j w Hj Hw Hm. destruct (Hcase j Hj) as [->|Hj']; [done|].
    rewrite Eoth by (lia || (apply (page_range u n j w Hr); lia)). by apply (Gold j).
  - intros j Hj Hm. destruct (Hcase j Hj) as [->|Hj'].
    + exists p. split; [intros Hp1; apply Hf, Gu; [apply Hd|done]|]. split_and!; try done. intros w Hw. apply Hp. lia.
    + destruct (Gnew j Hj' Hm) as (r & Hrf & Hrd & Hr0 & Hrz & Hrp). exists r. split_and!; [done|by apply Ed|done| |].
      * intros x Hx. rewrite (Em r x Hrd Hx). by apply Hrz.
      * intros w Hw. rewrite Eoth by (lia || (apply (page_range u n j w Hr); lia)). by apply Hrp.
  - lia.
  - intros q Hq Hi'. by apply Eu, Gu.
  - intros q Hq. by apply Ed, Gd.
  - intros q x Hq Hx. rewrite (Em q x); [by apply (Gm q)|by apply Gd|done].
Qed.

Lemma brk_grow_ok root s u n :
  range_ok u n -> 0 <= n -> brk_pages s root u n -> 5 * n <= avail (pa s) -> vm_ok s root ->
  exists s', for_loop (brk_grow_step root u) (Z.to_nat n) 0 s = Next s' /\ grown root s u n s'.
Proof.
  intros Hr Hn Hbp Hav Hs.
  pose proof (for_loop_ind (brk_grow_step root u) (grown root s u) (fun _ => False) (Z.to_nat n) 0 s) as L.
  rewrite Z2Nat.id, Z.add_0_l in L by done. destruct (for_loop _ _ 0 s) as [s'|r].
  - exists s'. split; [done|]. apply L.
    + constructor; try done; lia.
    + intros j t Hj G. pose proof (grown_step root s u n j t Hr Hbp Hav Hj G) as St. by destruct (brk_grow_step root u j t).
  - exfalso. apply L.
    + constructor; try done; lia.
    + intros j t Hj G. pose proof (grown_step root s u n j t Hr Hbp Hav Hj G) as St. by destruct (brk_grow_step root u j t).
Qed.

Lemma ALIGN_UP_top a : 2 ^ 64 - 4096 < a < 2 ^ 64 -> ALIGN_UP a PAGE_SIZE = 0.
Proof.
  intros Ha. unfold ALIGN_UP, PAGE_SIZE, wrap. replace (a + 4096 - 1) with (a + 4095 - 2 ^ 64 + 1 * 2 ^ 64) by lia.
  rewrite Z.mod_add, Z.mod_small, (land_lnot_ones _ 12) by lia. change (2 ^ 12) with 4096. zlia.
Qed.

(** Growing the break maps the heap: with memory enough, brk returns the
    break asked for, every page between the old break and the new one that was not
    mapped gets a page nobody used, zeroed, mapped pages and every other address
    translate as before.  But only 16 MB above the old break are mapped, while the
    break and the result are those of the request. *)
Theorem brk_maps_heap s p root rnd addr :
  vm_ok s root -> root <> 0 -> pr_pml4 p = root -> 0 < pr_brk_base p <= pr_brk p -> pr_brk_base p mod 4096 = 0 ->
  pr_brk p < addr <= 2 ^ 47 ->
  let old := pr_brk p / 4096 * 4096 in
  let new := Z.min ((addr + 4095) / 4096 * 4096) (old + BRK_MAX_GROW) in
  let n := (new - old) / 4096 in
  brk_pages s root old n -> 5 * n <= avail (pa s) ->
  let r := sys_brk s (Some p) rnd addr in
  r.2 = addr /\ r.1.2 = Some (set_pbrk p addr) /\ grown root s old n r.1.1.
Proof.
  intros Hs Hroot Hp Hb Hba Ha old new n Hbp Hav. change (2 ^ 47) with 140737488355328 in Ha.
  assert (Hold : old <= pr_brk p < old + 4096 /\ old mod 4096 = 0) by (unfold old; zlia).
  assert (Hnew : old < new <= 140737488355328 + 4096 /\ new mod 4096 = 0).
  { unfold new, BRK_MAX_GROW. destruct (Z.min_spec ((addr + 4095) / 4096 * 4096) (old + 16 * 1024 * 1024)) as [[? ->]|[? ->]]; zlia. }
  assert (Htgt : brk_target p addr = new).
  { unfold brk_target. rewrite ALIGN_DOWN_page, ALIGN_UP_page by (unfold PAGE_SIZE; lia). unfold PAGE_SIZE. fold old.
    unfold new, BRK_MAX_GROW in *. rewrite wrap_small by lia.
    destruct (Z.ltb_spec (old + 16 * 1024 * 1024) ((addr + 4095) / 4096 * 4096)).
    - rewrite (proj2 (Z.ltb_ge _ _)) by zlia. lia.
    - rewrite (proj2 (Z.ltb_ge _ _)) by zlia. lia. }
  cbv zeta. unfold sys_brk, brk_init. rewrite Hp, (proj2 (Z.eqb_neq root 0)), (proj2 (Z.eqb_neq (pr_brk_base p) 0)) by lia.
  rewrite (proj2 (Z.eqb_neq addr 0)), Htgt, ALIGN_DOWN_page by lia. unfold PAGE_SIZE. fold old. cbv zeta.
  rewrite (proj2 (Z.ltb_lt old new)), Hp by lia.
  replace ((new - old + 4095) / 4096) with n by (unfold n; zlia).
  assert (Hr : range_ok old n) by (unfold n; split_and!; [lia|lia|change (2 ^ 48) with 281474976710656; zlia]).
  destruct (brk_grow_ok root s old n Hr ltac:(unfold n; zlia) Hbp Hav Hs) as (s' & -> & G). cbn [fst snd].
  split; [|done]. rewrite swrap_small by (change (2 ^ (64 - 1)) with 9223372036854775808; lia). done.
Qed.

(** Failures of the memory calls come back as positive numbers. *)
Theorem mem_errors_positive s cur rnd addr length prot flags :
  (Z.land flags MMAP_ANONYMOUS = 0 -> sys_mmap s cur rnd addr length prot flags = (s, cur, 6)) /\
  (Z.land flags MMAP_ANONYMOUS <> 0 -> length = 0 -> sys_mmap s cur rnd addr length prot flags = (s, cur, 2)) /\
  (sys_munmap s cur 0 length = (s, 2)) /\ sys_brk s None rnd addr = (s, None, 14).
Proof.
  split_and!; try done.
  - intros E. unfold sys_mmap. by rewrite E.
  - intros E ->. unfold sys_mmap. by rewrite (proj2 (Z.eqb_neq _ 0)).
Qed.

End proofs.

(** ** The heap of a user program on this kernel *)

Section user_heap.
Context {A : Type} `{PageAllocator A} (rnd : Z).

Definition brk_call (k : vm A * option proc) (a : Z) : (vm A * option proc) * Z := sys_brk k.1 k.2 rnd (u64 a).

(** A process that has not called brk yet. *)
Definition fresh_proc (k : vm A * option proc) : Prop :=
  match k.2 with None => True | Some p => pr_pml4 p = 0 \/ pr_brk_base p = 0 end.

Definition heap_above (k : vm A * option proc) (lo : Z) : Prop :=
  match k.2 with
  | None => True
  | Some p => pr_pml4 p = 0 \/ (0 < pr_brk_base p <= lo /\ pr_brk_base p mod 4096 = 0 /\ pr_brk_base p <= pr_brk p < 2 ^ 64)
  end.

Lemma brk_call_range k a : - 2 ^ 63 <= (brk_call k a).2 < 2 ^ 63.
Proof.
  assert (Hs : forall z, - 2 ^ 63 <= s64 z < 2 ^ 63) by (intros z; apply (swrap_range 64); lia).
  unfold brk_call, sys_brk. destruct k as [s [p|]]; cbn [fst snd]; [|done]. destruct (pr_pml4 p =? 0); [done|].
  destruct (_ =? 0); [apply Hs|]. cbv zeta. destruct (_ <? _); [|by destruct (_ <? _); apply Hs].
  destruct (for_loop _ _ _ _) as [s'|[s' va]]; apply Hs.
Qed.

Lemma brk_call_first k lo : fresh_proc k -> 0 < lo -> (0 < (brk_call k 0).2 -> lo = (brk_call k 0).2) -> heap_above (brk_call k 0).1 lo.
Proof.
  unfold fresh_proc, heap_above, brk_call, sys_brk. destruct k as [s [p|]]; cbn [fst snd]; [|done].
  intros Hp Hlo Hr. destruct (Z.eqb_spec (pr_pml4 p) 0); [by left|]. destruct Hp as [|Hb]; [done|].
  unfold brk_init in *. rewrite Hb in *. cbn [Z.eqb fst snd pr_brk_base pr_brk pr_pml4] in *. change (u64 0 =? 0) with true in *.
  cbn [fst snd pr_brk pr_brk_base] in *. unfold BRK_HEAP_BASE, ASLR_BRK_BITS in *. destruct (slide_ok rnd 8 ltac:(lia)) as [Hs Hsm].
  change (2 ^ 8 * 4096) with 1048576 in Hs. rewrite swrap_small in Hr by (change (2 ^ (64 - 1)) with 9223372036854775808; lia).
  right. rewrite (Hr ltac:(lia)). split; [lia|]. split; [|lia]. rewrite <- Z.add_mod_idemp_r, Hsm by lia. done.
Qed.

Lemma brk_target_le p a :
  0 < pr_brk_base p <= a -> a < 2 ^ 64 -> pr_brk_base p mod 4096 = 0 -> pr_brk_base p <= pr_brk p < 2 ^ 64 ->
  pr_brk p / 4096 * 4096 < brk_target p a -> brk_target p a < a + 4096 /\ brk_target p a mod 4096 = 0.
Proof.
  intros Hb Ha Hbm Hbrk. unfold brk_target. rewrite ALIGN_DOWN_page. unfold PAGE_SIZE. set (old := pr_brk p / 4096 * 4096).
  assert (Hold : pr_brk_base p <= old < 2 ^ 64 /\ old mod 4096 = 0) by (unfold old; zlia).
  destruct (Z.le_gt_cases a (2 ^ 64 - 4096)) as [Hsmall|Hbig].
  2: { fold PAGE_SIZE. rewrite (ALIGN_UP_top a) by lia. cbv zeta.
       assert (0 <= u64 (old + BRK_MAX_GROW)) by (apply wrap_range; lia).
       rewrite (proj2 (Z.ltb_ge (u64 _) 0)) by lia. destruct (0 <? pr_brk_base p); lia. }
  fold PAGE_SIZE. rewrite (ALIGN_UP_page a) by (unfold PAGE_SIZE; lia). unfold PAGE_SIZE. cbv zeta.
  set (up := (a + 4095) / 4096 * 4096). assert (Hup : a <= up < a + 4096 /\ up mod 4096 = 0) by (unfold up; zlia).
  assert (Hcap : u64 (old + BRK_MAX_GROW) mod 4096 = 0).
  { unfold wrap, BRK_MAX_GROW. change (2 ^ 64) with (4096 * 2 ^ 52). rewrite Z.rem_mul_r by lia.
    rewrite (Z.mul_comm 4096), Z.mod_add, Z.mod_mod by lia. zlia. }
  set (cap := u64 _) in *. clearbody up cap old.
  destruct (Z.ltb_spec cap up); destruct (_ <? pr_brk_base p); lia.
Qed.

Lemma brk_call_law k lo a :
  heap_above k lo -> lo <= a < 2 ^ 64 -> 32 <= a -> heap_above (brk_call k a).1 lo /\ (brk_call k a).2 <= a.
Proof.
  assert (Hs64 : forall z, 0 <= z < 2 ^ 64 -> s64 z <= z).
  { intros z Hz. unfold swrap. change (64 - 1) with 63. pose proof (Z.div_mod (z + 2 ^ 63) (2 ^ 64) ltac:(lia)).
    pose proof (Z.div_pos (z + 2 ^ 63) (2 ^ 64) ltac:(lia) ltac:(lia)). lia. }
  unfold heap_above, brk_call, sys_brk. destruct k as [s [p|]]; cbn [fst snd]; intros Hh Ha H32; [|split; [done|unfold EFAULT; lia]].
  rewrite wrap_small by lia. destruct (Z.eqb_spec (pr_pml4 p) 0) as [E|Hp]; [split; [by left|cbn [snd]; unfold EFAULT; lia]|].
  destruct Hh as [|(Hb & Hbm & Hbrk)]; [done|].
  unfold brk_init. rewrite (proj2 (Z.eqb_neq (pr_brk_base p) 0)), (proj2 (Z.eqb_neq a 0)) by lia. cbv zeta.
  assert (Hset : forall b, pr_brk_base p <= b < 2 ^ 64 -> b <= a ->
    (pr_pml4 (set_pbrk p b) = 0 \/ (0 < pr_brk_base (set_pbrk p b) <= lo /\ pr_brk_base (set_pbrk p b) mod 4096 = 0 /\
       pr_brk_base (set_pbrk p b) <= pr_brk (set_pbrk p b) < 2 ^ 64)) /\ s64 b <= a).
  { intros b Hb' Hba. cbn [set_pbrk pr_pml4 pr_brk_base pr_brk]. split; [right; lia|]. pose proof (Hs64 b ltac:(lia)). lia. }
  rewrite ALIGN_DOWN_page. unfold PAGE_SIZE. set (old := pr_brk p / 4096 * 4096).
  assert (Hold : pr_brk_base p <= old /\ old mod 4096 = 0) by (unfold old; zlia).
  destruct (Z.ltb_spec old (brk_target p a)) as [Hlt|_]; [|destruct (_ <? _); apply Hset; lia].
  destruct (brk_target_le p a) as [Hle Hm]; [lia|lia|done|done|done|].
  pose proof (for_loop_ind (brk_grow_step (pr_pml4 p) old) (fun _ _ => True)
    (fun r => exists i, 0 <= i < (brk_target p a - old + 4095) / 4096 /\ r.2 = old + i * 4096)
    (Z.to_nat ((brk_target p a - old + 4095) / 4096)) 0 s I) as L.
  destruct (for_loop _ _ 0 s) as [s'|[s' va]]; cbn [fst snd] in *; [apply Hset; lia|].
  destruct L as (i & Hi & ->); [|apply Hset; zlia].
  intros j t Hj _. unfold brk_grow_step. destruct (negb _); [done|]. destruct (map_new t _ _ _) as [t' [|]]; [done|].
  exists j. split; [zlia|done].
Qed.

#[export] Instance brk_kernel : Kernel (vm A * option proc) := {|
  Malloc.sys_brk := brk_call; kernel_init := fresh_proc; kernel_ok := heap_above;
  brk_range := brk_call_range; brk_first := brk_call_first; brk_law := brk_call_law
|}.

(** The heap of the user program that process [p] runs. *)
Definition process_heap (h : @heap (vm A * option proc)) (p : proc) : Prop := (kern h).2 = Some p /\ pr_pml4 p <> 0.

(** C20: The library's heap over the kernel's brk: in every state a program
    reaches from its start with malloc, calloc, realloc, free and writes to its
    blocks, the live blocks are disjoint and lie between the base the kernel chose
    for the break and the library's break. *)
Theorem user_heap_on_brk fb h live p :
  0 < fb /\ fb + FALLBACK_SIZE < 2 ^ 63 -> runs fb h live -> process_heap h p ->
  (forall x, x ∈ live -> pr_brk_base p <= x.1 /\ x.1 + x.2 <= heap_brk h) /\
  NoDup live.*1 /\
  (forall x y, x ∈ live -> y ∈ live -> x.1 <> y.1 -> x.1 + x.2 <= y.1 \/ y.1 + y.2 <= x.1).
Proof.
  intros Hfb (used & Hh & Hs)%(runs_ok fb Hfb) [Ek Hp]. destruct (heap_ok_apart fb Hfb _ _ Hh) as (Hnd & _ & Hap).
  pose proof (fun x => serves_in _ _ x Hs) as Hin. split; [|split].
  - intros x (u & Hu & E & Hle)%Hin. destruct (heap_ok_base fb Hfb _ _ Hh) as [->|(base & Hk & _ & Hb)]; [by apply elem_of_nil in Hu|].
    destruct (kern h) as [s o]; simpl in Ek; subst o. destruct Hk as [|(Hlo & _)]; [done|]. destruct (Hb u Hu). rewrite <- E. lia.
  - by rewrite <- (serves_fst _ _ Hs).
  - intros x y (u & Hu & <- & ?)%Hin (v & Hv & <- & ?)%Hin Hne. pose proof (Hap u v Hu Hv Hne). unfold HDR in *. lia.
Qed.

End user_heap.

(** ** munmap of kernel memory *)

(** munmap does not check that the range is the process's own: for an
    address of the kernel's identity map (a large page, which vmm_unmap_page leaves
    alone) it frees the physical page behind it, whoever uses it, reports success,
    and the address stays mapped. *)
Theorem munmap_frees_kernel (s : vm pmm) p root v e l :
  pr_pml4 p = root -> root <> 0 -> 0 < v < 2 ^ 47 -> v mod 4096 = 0 ->
  get_pte_level (pm s) root v = Some (e, l) -> has (pm s e) PAGE_PRESENT = true -> has (pm s e) PAGE_HUGE = true ->
  pmm_wf (pa s) -> 0 < vmm_get_phys s root v < highest_pfn (pa s) * 4096 -> page_in_use (pa s) (vmm_get_phys s root v) ->
  let r := sys_munmap s (Some p) v 4096 in
  r.2 = 0 /\ ~ page_in_use (pa r.1) (vmm_get_phys s root v) /\ vmm_get_phys r.1 root v = vmm_get_phys s root v.
Proof.
  intros Hp Hroot Hv Hvm Hg Hpr Hh Hwf Hq Hu. change (2 ^ 47) with 140737488355328 in Hv.
  cbv zeta. rewrite (munmap_range s p root v 1 4096) by (done || lia || (split_and!; [lia|done|change (2 ^ 48) with 281474976710656; lia])).
  cbn [fst snd]. unfold release_pages. change (Z.to_nat 1) with 1%nat. cbn [for_each]. rewrite Z.add_0_r.
  unfold release_page. set (q := vmm_get_phys s root v) in *. rewrite (proj2 (Z.eqb_neq q 0)) by lia.
  assert (vmm_unmap_page (pa_free s q) root v = pa_free s q) as ->.
  { unfold vmm_unmap_page. cbn [pa_free pm]. by rewrite Hg, Hpr, Hh. }
  split; [done|]. split; [|done]. unfold page_in_use in *. cbn [pa_free pa]. unfold addr_to_pfn, PAGE_SIZE in *.
  change (free_page (pa s) q) with (pmm_free_page (pa s) q). unfold pmm_free_page.
  rewrite (proj2 (Z.eqb_neq q 0)) by lia. unfold addr_to_pfn, PAGE_SIZE. rewrite Hu, (proj2 (Z.ltb_lt _ _)) by zlia. cbn [andb].
  rewrite set_refcount_test, inc_used_test, bitmap_test_clear by (done || zlia). by rewrite decide_True.
Qed.

(** ** Witnesses *)

Definition demo_proc : proc := mkProc 0x100000 0 0 0.

(** The page table at 0x101000 is freed by a munmap of its own address. *)
Lemma munmap_frees_kernel_witness :
  (sys_munmap demo_vm (Some demo_proc) 0x101000 4096).2 = 0 /\
  ~ page_in_use (pa (sys_munmap demo_vm (Some demo_proc) 0x101000 4096).1) 0x101000.
Proof.
  destruct (munmap_frees_kernel demo_vm demo_proc 0x100000 0x101000 0x102000 LEVEL_PD) as (H1 & H2 & _);
    [done|done|lia|done|by vm_compute|by vm_compute|by vm_compute|exact (in_wf _ _ _ _ demo_ok)|by vm_compute|by vm_compute|].
  split; [exact H1|]. replace 0x101000 with (vmm_get_phys demo_vm 0x100000 0x101000) at 2 by (by vm_compute). exact H2.
Defined.

Lemma get_pte_page m root v w : v / 4096 = w / 4096 -> get_pte_level m root v = get_pte_level m root w.
Proof.
  intros E. unfold get_pte_level. by rewrite (idx_page 3 v w), (idx_page 2 v w), (idx_page 1 v w), (idx_page 0 v w).
Qed.

Lemma no_pte_unmapped {A} (s : vm A) root v :
  get_pte_level (pm s) root v = None -> forall w, w / 4096 = v / 4096 -> vmm_get_phys s root w = 0.
Proof. intros E w Hw. unfold vmm_get_phys. by rewrite (get_pte_page _ _ _ _ Hw), E. Qed.

Lemma demo_unmapped v : v mod 4096 = 0 -> get_pte_level (pm demo_vm) 0x100000 v = None -> unmapped demo_vm 0x100000 v 1.
Proof. intros Hv E w _ Hw. apply (no_pte_unmapped demo_vm 0x100000 v E). lia. Qed.

Lemma demo_mmap_ok : mmap_ok demo_proc.
Proof. by split; [vm_compute|]. Qed.

Lemma mmap_maps_zeroed_witness :
  let r := sys_mmap demo_vm (Some demo_proc) 5 0 100 3 0x22 in
  r.2 = 0x60005000 /\ exists fs, len fs = 1 /\ mapped 0x100000 demo_vm r.1.1 0x60005000 fs /\ (5 * 1 <= avail (pa demo_vm) -> all_mapped fs).
Proof.
  destruct (mmap_maps_zeroed demo_vm demo_proc 0x100000 5 0 100 3 0x22 demo_vm_ok) as (_ & [H|(_ & H & _)]);
    [done|done|exact demo_mmap_ok|done|by left|lia|by vm_compute|by apply demo_unmapped; vm_compute|exact H|].
  exfalso. revert H. apply Z.le_ngt. by vm_compute.
Defined.

Lemma brk_maps_heap_witness :
  let p := mkProc 0x100000 0x40000000 0x40000000 0 in
  let r := sys_brk demo_vm (Some p) 5 0x40000010 in
  r.2 = 0x40000010 /\ r.1.2 = Some (set_pbrk p 0x40000010) /\ grown 0x100000 demo_vm 0x40000000 1 r.1.1.
Proof.
  apply (brk_maps_heap demo_vm (mkProc 0x100000 0x40000000 0x40000000 0) 0x100000 5 0x40000010 demo_vm_ok).
  - done.
  - done.
  - by vm_compute.
  - done.
  - by vm_compute.
  - intros j Hj. right. intros w Hw. apply (no_pte_unmapped demo_vm 0x100000 0x40000000); [by vm_compute|].
    assert (0 <= j < 1) as Hj1 by exact Hj. replace j with 0 in Hw by lia. exact Hw.
  - by vm_compute.
Defined.

Abbreviation demo_mapped := (sys_mmap demo_vm (Some demo_proc) 5 0 100 3 0x22).

Lemma triple_eta {X Y V} (r : X * Y * V) y v : r.1.2 = y -> r.2 = v -> r = (r.1.1, y, v).
Proof. destruct r as [[? ?] ?]. cbn [fst snd]. by intros -> ->. Qed.

Lemma mmap_munmap_roundtrip_witness :
  let r := sys_munmap demo_mapped.1.1 (Some (set_mmap_next demo_proc 0x60006000)) 0x60005000 100 in
  r.2 = 0 /\ (forall w, 0 <= w < 2 ^ 48 -> vmm_get_phys r.1 0x100000 w = vmm_get_phys demo_vm 0x100000 w).
Proof.
  destruct (mmap_ok_spec demo_vm demo_proc 0x100000 5 0 100 3 0x22 demo_vm_ok) as [Ep Er];
    [done|done|exact demo_mmap_ok|done|by left|lia|by vm_compute|by apply demo_unmapped; vm_compute|].
  change (mmap_start demo_proc 5) with 0x60005000 in Ep, Er. change ((100 + 4095) / 4096) with 1 in Ep, Er.
  change (0x60005000 + 1 * 4096) with 0x60006000 in Ep.
  assert (Ev : demo_mapped.2 = 0x60005000).
  { destruct Er as [[E _]|(_ & Hav & _)]; [exact E|]. exfalso. revert Hav. apply Z.le_ngt. by vm_compute. }
  destruct (mmap_munmap_roundtrip demo_vm demo_proc 0x100000 5 100 3 0x22 demo_mapped.1.1 (set_mmap_next demo_proc 0x60006000) 0x60005000 demo_vm_ok)
    as (H1 & _ & H3 & _); [done|done|exact demo_mmap_ok|done|lia|by vm_compute|by apply demo_unmapped; vm_compute| |done|exact (conj H1 H3)].
  refine (triple_eta demo_mapped _ _ Ep Ev).
Defined.

(** A program that allocates ten bytes. *)
Definition demo_user : @heap (vm pmm * option proc) := mkHeap ∅ (fun _ => 0) 0 0 (demo_vm, Some demo_proc).

Lemma user_heap_on_brk_witness :
  exists h p, @runs _ (brk_kernel 5) 8192 h [(0x40005018, 10)] /\ process_heap h p /\
    (forall x, x ∈ [(0x40005018, 10)] -> pr_brk_base p <= x.1 /\ x.1 + x.2 <= heap_brk h).
Proof.
  assert (Hr0 : @runs _ (brk_kernel 5) 8192 demo_user []) by (apply (@runs_start _ (brk_kernel 5) 8192); by right).
  destruct (@malloc_used _ (brk_kernel 5) 8192 fallback_8192 demo_user [] 10) as (h & ptr & E & _);
    [apply (@heap_ok_start _ (brk_kernel 5) 8192 fallback_8192); by right|lia|].
  assert (Eptr : option_map snd (@malloc _ (brk_kernel 5) 8192 demo_user 10) = Some 0x40005018) by by vm_compute.
  assert (Ek : option_map (fun r => (option_map pr_pml4 (kern r.1).2)) (@malloc _ (brk_kernel 5) 8192 demo_user 10) = Some (Some 0x100000))
    by by vm_compute.
  rewrite E in Eptr, Ek. injection Eptr as ->. cbn [option_map fst] in Ek.
  destruct (kern h).2 as [p|] eqn:Ekern; [|done]. injection Ek as Ep.
  assert (Hp : process_heap h p) by (split; [exact Ekern|by rewrite Ep]).
  assert (Hr : @runs _ (brk_kernel 5) 8192 h [(0x40005018, 10)]).
  { refine (@runs_malloc _ (brk_kernel 5) 8192 demo_user [] 10 h 0x40005018 Hr0 _ E). lia. }
  exists h, p. split; [exact Hr|]. split; [exact Hp|].
  apply (user_heap_on_brk 5 8192 h [(0x40005018, 10)] p fallback_8192 Hr Hp).
Defined.
