(* ===== verification/Bignum.v ===== *)
(** * Big numbers as arrays of bytes

    The arithmetic that kernel/net/p256.c (32 bytes) and kernel/net/rsa.c (256
    bytes) share: numbers are arrays of bytes, the most significant first, and
    every loop runs from the last byte to the first with a carry.  [val] is the
    number an array stands for.  The reduction subtracts the modulus as long as it
    can; it takes fuel, and the theorem on [reduce] says exactly how much. *)

From S2P Require Import Prelude.

(** ** Operations *)

(** memcmp of libc/src/string.c on arrays. *)
Fixpoint memcmp (a b : list Z) : Z :=
  match a, b with
  | x :: a, y :: b => if negb (x =? y) then x - y else memcmp a b
  | _, _ => 0
  end.

(** "for (i = n - 1; i >= 0; i--)": [step] takes the two bytes at i and the carry
    and gives the byte written at i and the next carry. *)
Fixpoint ripple (step : Z -> Z -> Z -> Z * Z) (a b : list Z) (c : Z) : list Z * Z :=
  match a, b with
  | x :: a, y :: b =>
      let '(r, c) := ripple step a b c in
      let '(d, c) := step x y c in (d :: r, c)
  | _, _ => ([], c)
  end.

Definition add_step (x y carry : Z) : Z * Z :=
  let sum := u32 (x + y + carry) in (Z.land sum 0xFF, Z.shiftr sum 8).

(** With an unsigned difference, as in fe_add. *)
Definition usub_step (x y carry : Z) : Z * Z :=
  let diff := u32 (x - y - carry) in (Z.land diff 0xFF, Z.land (Z.shiftr diff 8) 1).

(** With a signed difference and a borrow. *)
Definition sub_step (x y borrow : Z) : Z * Z :=
  let diff := x - y - borrow in if diff <? 0 then (u8 (diff + 256), 1) else (u8 diff, 0).

(** The product of one byte [x] of a with the bytes [y] of b, added to prod. *)
Definition mac_step (x y p carry : Z) : Z * Z :=
  let v := u32 (x * y + p + carry) in (Z.land v 0xFF, Z.shiftr v 8).

(** "for (k = i; k >= 0 && carry; k--)" *)
Fixpoint propagate (l : list Z) (carry : Z) : list Z * Z :=
  match l with
  | [] => ([], carry)
  | x :: l =>
      let '(l, carry) := propagate l carry in
      if carry =? 0 then (x :: l, 0)
      else let v := u32 (x + carry) in (Z.land v 0xFF :: l, Z.shiftr v 8)
  end.

(** Row [i] of the product: prod[i+1 ..] and then the carry into prod[i .. 0]. *)
Definition mul_row (x : Z) (b : list Z) (i : nat) (prod : list Z) : list Z :=
  let n := length b in
  let '(w, carry) := ripple (mac_step x) b (take n (drop (i + 1) prod)) 0 in
  let '(h, _) := propagate (take (i + 1) prod) carry in
  h ++ w ++ drop (i + 1 + n) prod.

(** The rows from the last byte of a to its byte [i]; [a] holds the bytes from i. *)
Fixpoint mul_rows (a b : list Z) (i : nat) (prod : list Z) : list Z :=
  match a with
  | [] => prod
  | x :: a => mul_row x b i (mul_rows a b (S i) prod)
  end.

Definition product (a b : list Z) : list Z := mul_rows a b 0 (replicate (length a + length b) 0).

(** "mshift[i + shift] = m[i]" in an array of 2n zeros.  The arrays are big-endian:
    a shift of n is the modulus itself, a shift of 0 is m * 256^n. *)
Definition mshift (m : list Z) (shift : nat) : list Z :=
  replicate shift 0 ++ m ++ replicate (length m - shift) 0.

(** "while (prod >= mshift) prod -= mshift" *)
Fixpoint reduce_while (fuel : nat) (prod ms : list Z) : option (list Z) :=
  match fuel with
  | O => None
  | S fuel => if memcmp prod ms <? 0 then Some prod else reduce_while fuel (ripple sub_step prod ms 0).1 ms
  end.

(** "for (shift = n; shift >= 0; shift--)" *)
Fixpoint reduce (fuel : nat) (m : list Z) (shift : nat) (prod : list Z) : option (list Z) :=
  match reduce_while fuel prod (mshift m shift) with
  | None => None
  | Some prod => match shift with O => Some prod | S shift => reduce fuel m shift prod end
  end.

(** (a * b) mod m: the low half of what the reduction leaves. *)
Definition mod_mul (fuel : nat) (a b m : list Z) : option (list Z) :=
  drop (length m) <$> reduce fuel m (length m) (product a b).

(** ** The number an array stands for *)

Definition base (l : list Z) : Z := 256 ^ Z.of_nat (length l).

Fixpoint val (l : list Z) : Z := match l with [] => 0 | x :: l => x * base l + val l end.

(** An array of [n] bytes. *)
Definition bytes (n : nat) (l : list Z) : Prop := length l = n /\ Forall (fun x => 0 <= x < 256) l.

Lemma base_cons x l : base (x :: l) = 256 * base l.
Proof. unfold base. simpl length. rewrite Nat2Z.inj_succ, Z.pow_succ_r by lia. done. Qed.

Lemma base_app a b : base (a ++ b) = base a * base b.
Proof. unfold base. rewrite length_app, Nat2Z.inj_add. apply Z.pow_add_r; lia. Qed.

Lemma base_pos l : 0 < base l.
Proof. apply Z.pow_pos_nonneg; lia. Qed.

Lemma base_length a b : length a = length b -> base a = base b.
Proof. unfold base. by intros ->. Qed.

Lemma val_app a b : val (a ++ b) = val a * base b + val b.
Proof. induction a as [|x a IH]; simpl; [lia|]. rewrite IH, base_app. lia. Qed.

Lemma val_zeros n : val (replicate n 0) = 0.
Proof. induction n as [|n IH]; simpl; [done|]. rewrite IH. lia. Qed.

Lemma bytes_nil : bytes 0 [].
Proof. done. Qed.

Lemma bytes_cons n x l : bytes (S n) (x :: l) <-> 0 <= x < 256 /\ bytes n l.
Proof. unfold bytes. rewrite List.Forall_cons_iff. simpl. split; [intros ([= <-] & ? & ?); done|intros (? & <- & ?); done]. Qed.

Lemma bytes_app n k a b : bytes n a -> bytes k b -> bytes (n + k) (a ++ b).
Proof. intros [<- Ha] [<- Hb]. split; [apply length_app|by apply Forall_app]. Qed.

Lemma bytes_take n k l : bytes n l -> (k <= n)%nat -> bytes k (take k l).
Proof. intros [<- Hl] Hk. split; [rewrite length_take; lia|by apply Forall_take]. Qed.

Lemma bytes_drop n k l : bytes n l -> bytes (n - k) (drop k l).
Proof. intros [<- Hl]. split; [apply length_drop|by apply Forall_drop]. Qed.

Lemma bytes_zeros n : bytes n (replicate n 0).
Proof. split; [apply length_replicate|apply Forall_replicate; lia]. Qed.

(** [bytes] by evaluation. *)
Definition bytes_check (n : nat) (l : list Z) : bool :=
  Nat.eqb (length l) n && forallb (fun x => (0 <=? x) && (x <? 256)) l.

Lemma bytes_check_ok n l : bytes_check n l = true -> bytes n l.
Proof.
  intros [El Hl]%andb_true_iff. apply Nat.eqb_eq in El. rewrite forallb_forall in Hl.
  split; [done|]. apply List.Forall_forall. intros x Hx. apply Hl in Hx. lia.
Qed.

Lemma val_range n l : bytes n l -> 0 <= val l < base l.
Proof.
  intros [_ Hl]. induction Hl as [|x l Hx _ IH]; [done|]. rewrite base_cons. simpl.
  pose proof (base_pos l). nia.
Qed.

Lemma val_inj n a b : bytes n a -> bytes n b -> val a = val b -> a = b.
Proof.
  revert a b. induction n as [|n IH]; intros a b Ha Hb.
  { destruct Ha as [?%nil_length_inv _], Hb as [?%nil_length_inv _]. by subst. }
  destruct a as [|x a]; [by destruct Ha|]. destruct b as [|y b]; [by destruct Hb|].
  apply bytes_cons in Ha as [Hx Ha]. apply bytes_cons in Hb as [Hy Hb]. simpl.
  pose proof (val_range _ _ Ha). pose proof (val_range _ _ Hb).
  assert (base a = base b) as Eb by (apply base_length; destruct Ha as [-> _], Hb as [-> _]; done).
  rewrite Eb in *. intros E. assert (x = y) by nia. subst. f_equal. apply IH; [done..|lia].
Qed.

(** The [k] bytes of a number. *)
Fixpoint to_bytes (k : nat) (v : Z) : list Z :=
  match k with O => [] | S k => to_bytes k (v / 256) ++ [v mod 256] end.

Lemma to_bytes_ok n v : bytes n (to_bytes n v) /\ val (to_bytes n v) = v mod 256 ^ Z.of_nat n.
Proof.
  revert v. induction n as [|n IH]; intros v; cbn [to_bytes]; [rewrite Z.pow_0_r, Z.mod_1_r; done|].
  destruct (IH (v / 256)) as [Hb E]. split.
  - replace (S n) with (n + 1)%nat by lia. apply bytes_app; [done|]. split; [done|].
    constructor; [apply Z.mod_pos_bound; lia|constructor].
  - rewrite val_app, E. cbn [val]. unfold base. cbn [length].
    change (256 ^ Z.of_nat 1) with 256. change (256 ^ Z.of_nat 0) with 1.
    rewrite (Nat2Z.inj_succ n), Z.pow_succ_r by lia.
    pose proof (Z.pow_pos_nonneg 256 (Z.of_nat n)). rewrite Z.rem_mul_r by lia. lia.
Qed.

(** ** The loops *)

(** A step whose digit and next carry keep [x * X + y * Y + c]. *)
Definition step_ok (X Y S : Z) (C : Z -> Prop) (step : Z -> Z -> Z -> Z * Z) : Prop :=
  forall x y c, 0 <= x < 256 -> 0 <= y < 256 -> C c ->
    0 <= (step x y c).1 < 256 /\ C (step x y c).2 /\
    (step x y c).1 + S * 256 * (step x y c).2 = X * x + Y * y + S * c.

Lemma ripple_ok X Y S C step n a b c :
  step_ok X Y S C step -> bytes n a -> bytes n b -> C c ->
  bytes n (ripple step a b c).1 /\ C (ripple step a b c).2 /\
  val (ripple step a b c).1 + S * base a * (ripple step a b c).2 = X * val a + Y * val b + S * c.
Proof.
  intros Hs. revert a b. induction n as [|n IH]; intros a b Ha Hb Hc.
  { destruct Ha as [?%nil_length_inv _], Hb as [?%nil_length_inv _]. subst. unfold base. simpl. split_and!; [done..|lia]. }
  destruct a as [|x a]; [by destruct Ha|]. destruct b as [|y b]; [by destruct Hb|].
  apply bytes_cons in Ha as [Hx Ha]. apply bytes_cons in Hb as [Hy Hb].
  destruct (IH a b Ha Hb Hc) as (Hr & Hc' & E). simpl. destruct (ripple step a b c) as [r c']. cbn [fst snd] in *.
  destruct (Hs x y c' Hx Hy Hc') as (Hd & Hc'' & E'). destruct (step x y c') as [d c'']. cbn [fst snd val] in *.
  assert (base r = base a) as -> by (apply base_length; destruct Hr as [-> _], Ha as [-> _]; done).
  assert (base b = base a) as -> by (apply base_length; destruct Hb as [-> _], Ha as [-> _]; done).
  split_and!; [by apply bytes_cons|done|]. rewrite base_cons. nia.
Qed.

Lemma low_byte v : 0 <= v -> 0 <= Z.land v 0xFF < 256 /\ Z.land v 0xFF + 256 * Z.shiftr v 8 = v.
Proof.
  intros Hv. change 0xFF with (Z.ones 8). rewrite Z.land_ones, Z.shiftr_div_pow2 by lia.
  change (2 ^ 8) with 256. zlia.
Qed.

Lemma add_step_ok : step_ok 1 1 1 (fun c => 0 <= c <= 1) add_step.
Proof.
  intros x y c Hx Hy Hc. unfold add_step. cbn [fst snd]. rewrite wrap_small by lia.
  destruct (low_byte (x + y + c)); lia.
Qed.

Lemma sub_step_ok : step_ok 1 (-1) (-1) (fun c => 0 <= c <= 1) sub_step.
Proof.
  intros x y c Hx Hy Hc. unfold sub_step. case_match eqn:E; cbn [fst snd]; rewrite wrap_small by lia; lia.
Qed.

Lemma usub_step_ok : step_ok 1 (-1) (-1) (fun c => 0 <= c <= 1) usub_step.
Proof.
  intros x y c Hx Hy Hc. unfold usub_step. cbn [fst snd].
  rewrite (Z.land_ones _ 8), (Z.land_ones _ 1), Z.shiftr_div_pow2 by lia. unfold wrap.
  change (2 ^ 32) with 4294967296. change (2 ^ 8) with 256. change (2 ^ 1) with 2. zlia.
Qed.

Lemma mac_step_ok x : 0 <= x < 256 -> step_ok x 1 1 (fun c => 0 <= c < 256) (mac_step x).
Proof.
  intros Hx y p c Hy Hp Hc. unfold mac_step. cbn [fst snd]. assert (0 <= x * y <= 255 * 255) by nia.
  rewrite wrap_small by lia. destruct (low_byte (x * y + p + c)); lia.
Qed.

Lemma propagate_ok n l c :
  bytes n l -> 0 <= c < 256 ->
  bytes n (propagate l c).1 /\ 0 <= (propagate l c).2 < 256 /\
  val (propagate l c).1 + base l * (propagate l c).2 = val l + c.
Proof.
  revert l. induction n as [|n IH]; intros l Hl Hc.
  { destruct Hl as [?%nil_length_inv _]. subst. unfold base. simpl. split_and!; [done|lia..]. }
  destruct l as [|x l]; [by destruct Hl|]. apply bytes_cons in Hl as [Hx Hl].
  destruct (IH l Hl Hc) as (Hr & Hc' & E). simpl. destruct (propagate l c) as [r c']. cbn [fst snd] in *.
  assert (base r = base l) as Eb by (apply base_length; destruct Hr as [-> _], Hl as [-> _]; done).
  case_match eqn:E0; cbn [fst snd val]; rewrite base_cons, Eb.
  - apply Z.eqb_eq in E0. subst. split_and!; [by apply bytes_cons|lia..].
  - rewrite wrap_small by lia. destruct (low_byte (x + c')) as [Hd Ev]; [lia|].
    split_and!; [by apply bytes_cons|lia|lia|nia].
Qed.

Lemma val_compare n a b :
  bytes n a -> bytes n b ->
  (memcmp a b < 0 <-> val a < val b) /\ (memcmp a b = 0 <-> val a = val b).
Proof.
  revert a b. induction n as [|n IH]; intros a b Ha Hb.
  { destruct Ha as [?%nil_length_inv _], Hb as [?%nil_length_inv _]. subst. simpl. lia. }
  destruct a as [|x a]; [by destruct Ha|]. destruct b as [|y b]; [by destruct Hb|].
  apply bytes_cons in Ha as [Hx Ha]. apply bytes_cons in Hb as [Hy Hb]. simpl.
  pose proof (val_range _ _ Ha). pose proof (val_range _ _ Hb).
  assert (base b = base a) as Eb by (apply base_length; destruct Hb as [-> _], Ha as [-> _]; done). rewrite Eb in *.
  destruct (Z.eqb_spec x y) as [->|Hne]; simpl; [destruct (IH a b Ha Hb); nia|]. nia.
Qed.

Lemma memcmp_lt n a b : bytes n a -> bytes n b -> (memcmp a b <? 0) = (val a <? val b).
Proof. intros Ha Hb. destruct (val_compare n a b Ha Hb). blia. Qed.

Lemma memcmp_eq n a b : bytes n a -> bytes n b -> (memcmp a b =? 0) = (val a =? val b).
Proof. intros Ha Hb. destruct (val_compare n a b Ha Hb). blia. Qed.

(** ** The product *)

(** Row [i]: the bytes of prod up to i, the window of the row, and the rest. *)
Lemma mul_row_ok n b x i h w l :
  0 <= x < 256 -> bytes n b -> bytes (S i) h -> bytes n w -> Forall (fun x => 0 <= x < 256) l ->
  val (h ++ w ++ l) + x * val b * base l < base (h ++ w ++ l) ->
  bytes (S i + (n + length l)) (mul_row x b i (h ++ w ++ l)) /\
  val (mul_row x b i (h ++ w ++ l)) = val (h ++ w ++ l) + x * val b * base l.
Proof.
  intros Hx Hb Hh Hw Hl Hlt. unfold mul_row.
  assert (Nat.add i 1 = length h) as -> by (destruct Hh; lia). assert (length b = length w) as -> by (destruct Hb, Hw; lia).
  rewrite drop_app_length, take_app_length, take_app_length.
  replace (length h + length w)%nat with (length (h ++ w)) by apply length_app. rewrite (app_assoc h w l), drop_app_length.
  destruct (ripple_ok x 1 1 _ _ n b w 0 (mac_step_ok x Hx) Hb Hw) as (Hw' & Hc & Ew); [lia|].
  destruct (ripple _ b w 0) as [w' c]. cbn [fst snd] in *.
  destruct (propagate_ok _ h c Hh Hc) as (Hh' & Hc' & Eh). destruct (propagate h c) as [h' c']. cbn [fst snd] in *.
  assert (bytes (length l) l) as Hl' by done.
  split; [by repeat apply bytes_app|]. revert Hlt. rewrite <- !app_assoc, !val_app, !base_app.
  assert (base w' = base w) as -> by (apply base_length; destruct Hw' as [-> _], Hw as [-> _]; done).
  assert (base b = base w) as Eb by (apply base_length; destruct Hb as [-> _], Hw as [-> _]; done). rewrite Eb in *.
  pose proof (val_range _ _ (bytes_app _ _ _ _ Hw' Hl')) as Hr. rewrite val_app, base_app in Hr.
  assert (base w' = base w) as Ew' by (apply base_length; destruct Hw' as [-> _], Hw as [-> _]; done). rewrite Ew' in Hr.
  pose proof (val_range _ _ Hh') as Hrh. pose proof (base_pos w). pose proof (base_pos l). pose proof (base_pos h).
  assert (val w' = x * val b + val w - base w * c) as -> by lia. intros Hlt.
  assert (val h' = val h + c - base h * c') as Eh' by lia.
  assert (c' = 0) as ->; [|nia].
  destruct (Z.eq_dec c' 0) as [|Hne]; [done|exfalso].
  assert (base h * 1 <= base h * c') by (apply Z.mul_le_mono_nonneg_l; lia). nia.
Qed.

Lemma split3 n i k l : bytes (i + (n + k)) l -> exists h w t, l = h ++ w ++ t /\ bytes i h /\ bytes n w /\ bytes k t.
Proof.
  intros Hl. exists (take i l), (take n (drop i l)), (drop n (drop i l)). split; [by rewrite !take_drop|].
  pose proof (bytes_drop _ i _ Hl) as Hd. replace (i + (n + k) - i)%nat with (n + k)%nat in Hd by lia.
  split_and!; [eapply bytes_take; [done|lia]|eapply bytes_take; [done|lia]|].
  apply (bytes_drop _ n) in Hd. by replace (n + k - n)%nat with k in Hd by lia.
Qed.

Lemma mul_rows_ok k n a b i prod :
  bytes k a -> bytes n b -> bytes (i + (k + n)) prod -> val prod + val a * val b < base prod ->
  bytes (i + (k + n)) (mul_rows a b i prod) /\ val (mul_rows a b i prod) = val prod + val a * val b.
Proof.
  revert k i. induction a as [|x a IH]; intros k i Ha Hb Hp Hlt; simpl in *; [split; [done|lia]|].
  destruct k as [|k]; [by destruct Ha|]. apply bytes_cons in Ha as [Hx Ha].
  pose proof (val_range _ _ Ha). pose proof (val_range _ _ Hb). pose proof (val_range _ _ Hp). pose proof (base_pos a).
  assert (0 <= x * base a * val b) by (apply Z.mul_nonneg_nonneg; nia).
  replace (i + (S k + n))%nat with (S i + (k + n))%nat in * by lia.
  destruct (IH k (S i) Ha Hb Hp) as (Hr & Er); [lia|].
  assert (base (mul_rows a b (S i) prod) = base prod) as Eb by (apply base_length; destruct Hr as [-> _], Hp as [-> _]; done).
  replace (k + n)%nat with (n + k)%nat in Hr by lia. destruct (split3 _ _ _ _ Hr) as (h & w & t & E & Hh & Hw & Ht).
  assert (base t = base a) as Et by (apply base_length; destruct Ht as [-> _], Ha as [-> _]; done).
  rewrite E in Er, Eb |- *. destruct (mul_row_ok n b x i h w t Hx Hb Hh Hw (proj2 Ht)) as (Hm & Em).
  { rewrite Eb, Er, Et. lia. }
  split; [|rewrite Em, Er, Et; lia]. destruct Ht as [Lt _]. rewrite Lt in Hm. by replace (k + n)%nat with (n + k)%nat by lia.
Qed.

Lemma product_ok n a b :
  bytes n a -> bytes n b -> bytes (n + n) (product a b) /\ val (product a b) = val a * val b.
Proof.
  intros Ha Hb. unfold product. destruct Ha as [La Ha'], Hb as [Lb Hb']. rewrite La, Lb.
  destruct (mul_rows_ok n n a b 0 (replicate (n + n) 0)) as (Hr & E); [done|done|apply bytes_zeros| |].
  - rewrite val_zeros. pose proof (val_range n a (conj La Ha')). pose proof (val_range n b (conj Lb Hb')).
    assert (base (replicate (n + n) 0) = base a * base b) as ->.
    { rewrite <- base_app. apply base_length. rewrite length_replicate, length_app. lia. }
    nia.
  - split; [exact Hr|]. rewrite E, val_zeros. lia.
Qed.

(** ** The reduction *)

Lemma mshift_ok n m s :
  bytes n m -> (s <= n)%nat -> bytes (n + n) (mshift m s) /\ val (mshift m s) = val m * 256 ^ Z.of_nat (n - s).
Proof.
  intros Hm Hs. unfold mshift. destruct Hm as [Lm Hm']. rewrite Lm. split.
  - replace (n + n)%nat with (s + (n + (n - s)))%nat by lia.
    repeat apply bytes_app; [apply bytes_zeros|done|apply bytes_zeros].
  - rewrite !val_app, !val_zeros. unfold base. rewrite length_replicate. lia.
Qed.

(** Exactly [val p / val ms] subtractions. *)
Lemma reduce_while_ok n fuel p ms :
  bytes n p -> bytes n ms -> 0 < val ms ->
  match reduce_while fuel p ms with
  | Some r => val p / val ms < Z.of_nat fuel /\ bytes n r /\ val r = val p mod val ms
  | None => Z.of_nat fuel <= val p / val ms
  end.
Proof.
  intros Hp Hms Hpos. revert p Hp. induction fuel as [|fuel IH]; intros p Hp; simpl.
  { pose proof (val_range _ _ Hp). apply Z.div_pos; lia. }
  rewrite (memcmp_lt n) by done. pose proof (val_range _ _ Hp). destruct (val p <? val ms) eqn:E.
  { apply Z.ltb_lt in E. rewrite Z.div_small, Z.mod_small by lia. split_and!; [lia|done|done]. }
  apply Z.ltb_ge in E.
  destruct (ripple_ok 1 (-1) (-1) _ _ n p ms 0 sub_step_ok Hp Hms) as (Hr & Hc & Ev); [lia|].
  assert ((ripple sub_step p ms 0).2 = 0) as E0.
  { pose proof (val_range _ _ Hr) as Hrr.
    assert (base (ripple sub_step p ms 0).1 = base p) as Eb by (apply base_length; destruct Hr as [-> _], Hp as [-> _]; done).
    rewrite Eb in Hrr. nia. }
  rewrite E0 in Ev. assert (val p = val (ripple sub_step p ms 0).1 + 1 * val ms) as -> by lia.
  rewrite Z.div_add, Z.mod_add by lia. specialize (IH _ Hr). destruct (reduce_while fuel _ ms) as [r|]; [|lia].
  destruct IH as (? & ? & ?). split_and!; [lia|done|done].
Qed.

(** The first round reduces below the modulus, the others find nothing to subtract. *)
Lemma reduce_rest n fuel m s p :
  (0 < fuel)%nat -> bytes n m -> (s <= n)%nat -> bytes (n + n) p -> val p < val m -> reduce fuel m s p = Some p.
Proof.
  intros Hf Hm. destruct fuel as [|fuel]; [lia|]. induction s as [|s IH]; intros Hs Hp Hlt; simpl.
  all: rewrite (memcmp_lt (n + n)) by (done || by apply mshift_ok); destruct (mshift_ok n m _ Hm Hs) as [_ ->].
  all: pose proof (Z.pow_pos_nonneg 256 (Z.of_nat (n - 0)) ltac:(lia) ltac:(lia)); pose proof (val_range _ _ Hp).
  - rewrite (proj2 (Z.ltb_lt _ _)); [done|]. nia.
  - pose proof (Z.pow_pos_nonneg 256 (Z.of_nat (n - S s)) ltac:(lia) ltac:(lia)).
    rewrite (proj2 (Z.ltb_lt _ _)); [|nia]. apply IH; [lia|done|done].
Qed.

Lemma reduce_ok n fuel m p :
  bytes n m -> 0 < val m -> bytes (n + n) p ->
  match reduce fuel m n p with
  | Some r => val p / val m < Z.of_nat fuel /\ bytes (n + n) r /\ val r = val p mod val m
  | None => Z.of_nat fuel <= val p / val m
  end.
Proof.
  intros Hm Hpos Hp. destruct (mshift_ok n m n Hm) as [Hms Ems]; [lia|]. rewrite Nat.sub_diag, Z.mul_1_r in Ems.
  pose proof (reduce_while_ok _ fuel p _ Hp Hms) as H. rewrite Ems in H. specialize (H Hpos).
  destruct n as [|n']; simpl reduce; destruct (reduce_while _ _ _) as [r|]; try done.
  destruct H as (Hq & Hr & E). rewrite (reduce_rest (S n')); [done| |done|lia|done|].
  - pose proof (val_range _ _ Hp). pose proof (Z.div_pos (val p) (val m)). lia.
  - rewrite E. by apply Z.mod_pos_bound.
Qed.

(** The product modulo [m], after exactly [a * b / m] subtractions. *)
Lemma mod_mul_ok n fuel a b m :
  bytes n a -> bytes n b -> bytes n m -> 0 < val m ->
  match mod_mul fuel a b m with
  | Some r => val a * val b / val m < Z.of_nat fuel /\ bytes n r /\ val r = val a * val b mod val m
  | None => Z.of_nat fuel <= val a * val b / val m
  end.
Proof.
  intros Ha Hb Hm Hpos. unfold mod_mul. destruct (product_ok n a b Ha Hb) as [Hp Ep].
  assert (length m = n) as -> by by destruct Hm. pose proof (reduce_ok n fuel m _ Hm Hpos Hp) as H. rewrite Ep in H.
  destruct (reduce fuel m n (product a b)) as [r|]; simpl; [|done]. destruct H as (Hq & Hr & E).
  split; [done|]. pose proof (bytes_drop _ n _ Hr) as Hd. replace (n + n - n)%nat with n in Hd by lia. split; [done|].
  rewrite <- E. rewrite <- (take_drop n r) at 2. rewrite val_app.
  assert (val (take n r) = 0) as ->; [|lia].
  assert (val r < base m) as Hlt. { rewrite E. pose proof (val_range _ _ Hm). pose proof (Z.mod_pos_bound (val a * val b) (val m) Hpos). lia. }
  rewrite <- (take_drop n r), val_app in Hlt.
  assert (base (drop n r) = base m) as Eb by (apply base_length; destruct Hd as [-> _], Hm as [-> _]; done). rewrite Eb in Hlt.
  pose proof (val_range _ _ (bytes_take _ n _ Hr ltac:(lia))). pose proof (val_range _ _ Hd). pose proof (base_pos m). nia.
Qed.
