(* ===== verification/P256.v ===== *)
(** * The P-256 curve: kernel/net/p256.c

    Field elements are arrays of 32 bytes.  The reduction of a product takes fuel,
    so everything that multiplies returns an option; local buffers that the code
    leaves uninitialised are arguments.  The theorems relate each function to the
    same formula over the integers modulo [p], for any fuel above [FUEL]; what the
    formulas compute is then a matter of evaluation. *)

From S2P Require Import Prelude Bignum.
From Stdlib Require Import Zpow_facts.

(** ** Curve constants *)

Definition p256_p : list Z :=
  [0xFF;0xFF;0xFF;0xFF;0x00;0x00;0x00;0x01;0x00;0x00;0x00;0x00;0x00;0x00;0x00;0x00;
   0x00;0x00;0x00;0xFF;0xFF;0xFF;0xFF;0xFF;0xFF;0xFF;0xFF;0xFF;0xFF;0xFF;0xFF;0xFF].

Definition p256_n : list Z :=
  [0xFF;0xFF;0xFF;0xFF;0x00;0x00;0x00;0x00;0xFF;0xFF;0xFF;0xFF;0xFF;0xFF;0xFF;0xFF;
   0xBC;0xE6;0xFA;0xAD;0xA7;0x17;0x9E;0x84;0xF3;0xB9;0xCA;0xC2;0xFC;0x63;0x25;0x51].

Definition p256_a : list Z :=
  [0xFF;0xFF;0xFF;0xFF;0x00;0x00;0x00;0x01;0x00;0x00;0x00;0x00;0x00;0x00;0x00;0x00;
   0x00;0x00;0x00;0xFF;0xFF;0xFF;0xFF;0xFF;0xFF;0xFF;0xFF;0xFF;0xFF;0xFF;0xFF;0xFC].

Definition p256_b : list Z :=
  [0x5A;0xC6;0x35;0xD8;0xAA;0x3A;0x93;0xE7;0xB3;0xEB;0xBD;0x55;0x76;0x98;0x86;0xBC;
   0x65;0x1D;0x06;0xB0;0xCC;0x53;0xB0;0xF6;0x3B;0xCE;0x3C;0xE2;0x7D;0x26;0x04;0x4B].

Definition p256_Gx : list Z :=
  [0x6B;0x17;0xD1;0xF2;0xE1;0x2C;0x42;0x47;0xF8;0xBC;0xE6;0xE5;0x63;0xA4;0x40;0xF2;
   0x77;0x03;0x7D;0x81;0x2D;0xEB;0x33;0xA0;0xF4;0xA1;0x39;0x45;0xD8;0x98;0xC2;0x96].

Definition p256_Gy : list Z :=
  [0x4F;0xE3;0x42;0xE2;0xFE;0x1A;0x7F;0x9B;0x8E;0xE7;0xEB;0x4A;0x7C;0x0F;0x9E;0x16;
   0x2B;0xCE;0x33;0x57;0x6B;0x31;0x5E;0xCE;0xCB;0xB6;0x40;0x68;0x37;0xBF;0x51;0xF5].

Definition expected_2G_x : list Z :=
  [0x7C;0xF2;0x7B;0x18;0x8D;0x63;0x42;0x9E;0xF3;0x65;0x03;0x09;0xC1;0x71;0x39;0x9F;
   0x29;0x39;0xFA;0xC1;0x8F;0xA4;0xE2;0x09;0x4B;0x44;0xF9;0xD3;0x4F;0x16;0x5C;0x78].

(** ** Field arithmetic *)

Definition fe_gte (a b : list Z) : bool := 0 <=? memcmp a b.

Definition fe_add (a b m : list Z) : list Z :=
  let '(t, carry) := ripple add_step a b 0 in
  if negb (carry =? 0) || fe_gte t m then (ripple usub_step t m 0).1 else t.

Definition fe_sub (a b m : list Z) : list Z :=
  let '(t, borrow) := ripple sub_step a b 0 in
  if negb (borrow =? 0) then (ripple add_step t m 0).1 else t.

Definition fe_mul (fuel : nat) (a b m : list Z) : option (list Z) := mod_mul fuel a b m.

(** "m - 2" *)
Definition inv_exp (m : list Z) : list Z := (ripple sub_step m (replicate 31 0 ++ [2]) 0).1.

(** One bit of the exponent, on the pair of result and base. *)
Definition inv_bit (fuel : nat) (m : list Z) (e : Z) (k : nat) (st : list Z * list Z) : option (list Z * list Z) :=
  result ← (if test_bit e (Z.of_nat k) then fe_mul fuel st.1 st.2 m else Some st.1);
  base ← fe_mul fuel st.2 st.2 m;
  Some (result, base).

(** "for (bit = n - 1; bit >= 0; bit--)" *)
Fixpoint inv_byte (fuel : nat) (m : list Z) (e : Z) (n : nat) (st : list Z * list Z) : option (list Z * list Z) :=
  match n with
  | O => Some st
  | S k => st ← inv_bit fuel m e k st; inv_byte fuel m e k st
  end.

(** "for (i = 31; i >= 0; i--)": the last byte first. *)
Fixpoint inv_bytes (fuel : nat) (m exp : list Z) (st : list Z * list Z) : option (list Z * list Z) :=
  match exp with
  | [] => Some st
  | e :: exp => st ← inv_bytes fuel m exp st; inv_byte fuel m e 8 st
  end.

Definition fe_inv (fuel : nat) (a m : list Z) : option (list Z) :=
  st ← inv_bytes fuel m (inv_exp m) (replicate 31 0 ++ [1], a); Some st.1.

(** ** Points *)

Record p256_point := mkPoint { px : list Z; py : list Z; is_infinity : bool }.

(** "R->is_infinity = 1" *)
Definition set_infinity (R : p256_point) : p256_point := mkPoint (px R) (py R) true.

(** [R] is what the result held before. *)
Definition p256_double (fuel : nat) (P R : p256_point) : option p256_point :=
  if is_infinity P || (memcmp (py P) (replicate 32 0) =? 0) then Some (set_infinity R)
  else
    t1 ← fe_mul fuel (px P) (px P) p256_p;
    let t2 := fe_add t1 t1 p256_p in
    let t2 := fe_add t2 t1 p256_p in
    let t2 := fe_add t2 p256_a p256_p in
    let t1 := fe_add (py P) (py P) p256_p in
    t1 ← fe_inv fuel t1 p256_p;
    slope ← fe_mul fuel t2 t1 p256_p;
    xR ← fe_mul fuel slope slope p256_p;
    let xR := fe_sub xR (px P) p256_p in
    let xR := fe_sub xR (px P) p256_p in
    let tmp := fe_sub (px P) xR p256_p in
    yR ← fe_mul fuel slope tmp p256_p;
    let yR := fe_sub yR (py P) p256_p in
    Some (mkPoint xR yR false).

Definition p256_add (fuel : nat) (P Q R : p256_point) : option p256_point :=
  if is_infinity P then Some Q
  else if is_infinity Q then Some P
  else if memcmp (px P) (px Q) =? 0 then
    if memcmp (py P) (py Q) =? 0 then p256_double fuel P R else Some (set_infinity R)
  else
    let dx := fe_sub (px Q) (px P) p256_p in
    let dy := fe_sub (py Q) (py P) p256_p in
    dx ← fe_inv fuel dx p256_p;
    slope ← fe_mul fuel dy dx p256_p;
    xR ← fe_mul fuel slope slope p256_p;
    let xR := fe_sub xR (px P) p256_p in
    let xR := fe_sub xR (px Q) p256_p in
    let tmp := fe_sub (px P) xR p256_p in
    yR ← fe_mul fuel slope tmp p256_p;
    let yR := fe_sub yR (py P) p256_p in
    Some (mkPoint xR yR false).

Fixpoint mult_byte (fuel : nat) (e : Z) (P : p256_point) (n : nat) (Q : p256_point) : option p256_point :=
  match n with
  | O => Some Q
  | S k =>
      Q ← p256_double fuel Q Q;
      Q ← (if test_bit e (Z.of_nat k) then p256_add fuel Q P Q else Some Q);
      mult_byte fuel e P k Q
  end.

Fixpoint mult_bytes (fuel : nat) (k : list Z) (P Q : p256_point) : option p256_point :=
  match k with
  | [] => Some Q
  | e :: k => Q ← mult_byte fuel e P 8 Q; mult_bytes fuel k P Q
  end.

(** [Q] is the uninitialised local variable. *)
Definition p256_scalar_mult (fuel : nat) (k : list Z) (P Q : p256_point) : option p256_point :=
  mult_bytes fuel k P (set_infinity Q).

(** ** The interface *)

Definition p256_G : p256_point := mkPoint p256_Gx p256_Gy false.

(** The random bytes are an argument; the secret and the coordinates of the public key. *)
Definition p256_keygen (fuel : nat) (rnd : list Z) (Q : p256_point) : option (list Z * list Z * list Z) :=
  let secret := rnd.[31 <- Z.lor (Z.land rnd.[31] 0xFE) 0x01] in
  let secret := secret.[0 <- Z.land secret.[0] 0x7F] in
  Q ← p256_scalar_mult fuel secret p256_G Q;
  Some (secret, px Q, py Q).

Definition p256_point_on_curve (fuel : nat) (x y : list Z) : option bool :=
  lhs ← fe_mul fuel y y p256_p;
  t1 ← fe_mul fuel x x p256_p;
  t2 ← fe_mul fuel t1 x p256_p;
  let t1 := fe_add t2 p256_a p256_p in
  t1 ← fe_mul fuel t1 x p256_p;
  let rhs := fe_add t1 p256_b p256_p in
  Some (memcmp lhs rhs =? 0).

(** The return value and shared_x. *)
Definition p256_ecdh (fuel : nat) (secret peer_x peer_y : list Z) (R : p256_point) : option (Z * list Z) :=
  ok ← p256_point_on_curve fuel peer_x peer_y;
  if negb ok then Some (0, replicate 32 0)
  else
    R ← p256_scalar_mult fuel secret (mkPoint peer_x peer_y false) R;
    if is_infinity R then Some (0, replicate 32 0) else Some (1, px R).

Definition p256_selftest (fuel : nat) (G2 : p256_point) : option Z :=
  G2 ← p256_double fuel p256_G G2;
  Some (Z.b2z (memcmp (px G2) expected_2G_x =? 0)).

(** ** Field arithmetic is arithmetic modulo m *)

(** More subtractions than any product of two arrays can need. *)
Definition FUEL (m : list Z) : Z := 2 ^ 512 / val m.

(** The array [l] holds the number [v]. *)
Definition fe (v : Z) (l : list Z) : Prop := bytes 32 l /\ val l = v.

(** The array [l] holds the element [v] of the field. *)
Definition elt (m : list Z) (v : Z) (l : list Z) : Prop := fe v l /\ 0 <= v < val m.

Lemma base32 l : bytes 32 l -> base l = 2 ^ 256.
Proof. intros [E _]. unfold base. by rewrite E. Qed.

Lemma fe_gte_val a b : bytes 32 a -> bytes 32 b -> fe_gte a b = (val b <=? val a).
Proof. intros Ha Hb. unfold fe_gte. destruct (val_compare 32 a b Ha Hb). blia. Qed.

Lemma fe_add_ok m a b v w : bytes 32 m -> elt m v a -> elt m w b -> elt m ((v + w) mod val m) (fe_add a b m).
Proof.
  intros Hm [[Ha <-] Hv] [[Hb <-] Hw]. unfold fe_add.
  destruct (ripple_ok 1 1 1 _ _ 32 a b 0 add_step_ok Ha Hb) as (Ht & Hc & E); [lia|].
  destruct (ripple add_step a b 0) as [t c]. cbn [fst snd] in *.
  pose proof (val_range _ _ Ht) as Rt. rewrite base32 in Rt, E by done.
  pose proof (val_range _ _ Hm) as Rm. rewrite base32 in Rm by done.
  assert (0 <= (val a + val b) mod val m < val m) as R by (apply Z.mod_pos_bound; lia).
  rewrite fe_gte_val by done. destruct (negb (c =? 0) || (val m <=? val t)) eqn:G; simpl.
  - destruct (ripple_ok 1 (-1) (-1) _ _ 32 t m 0 usub_step_ok Ht Hm) as (Hr & Hc' & E'); [lia|].
    pose proof (val_range _ _ Hr) as Rr. rewrite base32 in Rr, E' by done.
    split; [split; [done|]|done]. rewrite <- (Z.mod_unique_pos (val a + val b) (val m) 1 (val (ripple usub_step t m 0).1)); [done|..].
    + apply orb_true_iff in G. lia.
    + apply orb_true_iff in G. lia.
  - apply orb_false_iff in G as [Gc Gt]. apply negb_false_iff, Z.eqb_eq in Gc. apply Z.leb_gt in Gt. subst c.
    split; [split; [done|]|done]. rewrite Z.mod_small; lia.
Qed.

Lemma fe_sub_ok m a b v w : bytes 32 m -> elt m v a -> elt m w b -> elt m ((v - w) mod val m) (fe_sub a b m).
Proof.
  intros Hm [[Ha <-] Hv] [[Hb <-] Hw]. unfold fe_sub.
  destruct (ripple_ok 1 (-1) (-1) _ _ 32 a b 0 sub_step_ok Ha Hb) as (Ht & Hc & E); [lia|].
  destruct (ripple sub_step a b 0) as [t c]. cbn [fst snd] in *.
  pose proof (val_range _ _ Ht) as Rt. rewrite base32 in Rt, E by done.
  pose proof (val_range _ _ Hm) as Rm. rewrite base32 in Rm by done.
  assert (0 <= (val a - val b) mod val m < val m) as R by (apply Z.mod_pos_bound; lia).
  destruct (Z.eqb_spec c 0) as [->|Hc0]; simpl.
  - split; [split; [done|]|done]. rewrite Z.mod_small; lia.
  - destruct (ripple_ok 1 1 1 _ _ 32 t m 0 add_step_ok Ht Hm) as (Hr & Hc' & E'); [lia|].
    pose proof (val_range _ _ Hr) as Rr. rewrite base32 in Rr, E' by done.
    split; [split; [done|]|done].
    rewrite <- (Z.mod_unique_pos (val a - val b) (val m) (-1) (val (ripple add_step t m 0).1)); [done|lia|lia].
Qed.

Lemma fe_mul_fe fuel m a b v w :
  bytes 32 m -> 0 < val m -> FUEL m < Z.of_nat fuel -> fe v a -> fe w b ->
  exists r, fe_mul fuel a b m = Some r /\ elt m (v * w mod val m) r.
Proof.
  intros Hm Hpos Hf [Ha <-] [Hb <-]. pose proof (mod_mul_ok 32 fuel a b m Ha Hb Hm Hpos) as H. unfold fe_mul.
  destruct (mod_mul fuel a b m) as [r|].
  - destruct H as (_ & Hr & E). exists r. split; [done|]. split; [done|]. by apply Z.mod_pos_bound.
  - exfalso. pose proof (val_range _ _ Ha) as Ra. pose proof (val_range _ _ Hb) as Rb. rewrite base32 in Ra, Rb by done.
    assert (val a * val b / val m <= FUEL m); [|lia]. apply Z.div_le_mono; [lia|].
    change (2 ^ 512) with (2 ^ 256 * 2 ^ 256). apply Z.mul_le_mono_nonneg; lia.
Qed.

(** ** The inverse *)

Definition rev8 (e : Z) : Z := foldl (fun v k => 2 * v + Z.b2z (test_bit e k)) 0 [0; 1; 2; 3; 4; 5; 6; 7].

(** a^k mod m, and the base after j squarings. *)
Definition powers (m : list Z) (v k j : Z) (st : list Z * list Z) : Prop :=
  elt m (v ^ k mod val m) st.1 /\ bytes 32 st.2 /\ val st.2 mod val m = v ^ 2 ^ j mod val m.

Lemma inv_exp_ok m : bytes 32 m -> 2 <= val m -> fe (val m - 2) (inv_exp m).
Proof.
  intros Hm H2. unfold inv_exp. assert (bytes 32 (replicate 31 0 ++ [2])) as Hb by (split; [done|by repeat constructor]).
  destruct (ripple_ok 1 (-1) (-1) _ _ 32 m _ 0 sub_step_ok Hm Hb) as (Hr & Hc & E); [lia|].
  pose proof (val_range _ _ Hr) as Rr. pose proof (val_range _ _ Hm) as Rm. rewrite base32 in Rr, E, Rm by done.
  change (val (replicate 31 0 ++ [2])) with 2 in E. split; [done|]. nia.
Qed.

Section inverse.
Context (fuel : nat) (m : list Z) (Hm : bytes 32 m) (Hpos : 0 < val m) (Hf : FUEL m < Z.of_nat fuel).
Context (v : Z).

Lemma inv_bit_ok e n st k j :
  0 <= k -> 0 <= j -> powers m v k j st ->
  exists st', inv_bit fuel m e n st = Some st' /\
    powers m v (k + Z.b2z (test_bit e (Z.of_nat n)) * 2 ^ j) (j + 1) st'.
Proof.
  intros Hk Hj (Hr & Hb & Eb). unfold inv_bit. pose proof (Z.pow_nonneg 2 j ltac:(lia)).
  destruct (fe_mul_fe fuel m st.2 st.2 _ _ Hm Hpos Hf (conj Hb eq_refl) (conj Hb eq_refl)) as (b' & E & Hb').
  assert (val b' mod val m = v ^ 2 ^ (j + 1) mod val m) as Eb'.
  { destruct Hb' as [[_ ->] _]. rewrite Z.mod_mod by lia. rewrite Z.mul_mod, Eb, <- Z.mul_mod, <- Z.pow_add_r by lia.
    do 2 f_equal. rewrite Z.pow_add_r by lia. lia. }
  destruct (test_bit e (Z.of_nat n)); simpl Z.b2z.
  - destruct (fe_mul_fe fuel m st.1 st.2 _ _ Hm Hpos Hf (proj1 Hr) (conj Hb eq_refl)) as (r' & E' & Hr'). rewrite E'. simpl. rewrite E. simpl.
    eexists. split; [done|]. split; [|split; [by destruct Hb' as [[]]|done]]. simpl.
    rewrite Z.mul_1_l, Z.pow_add_r by lia. rewrite <- Z.mul_mod_idemp_r, Eb in Hr' by lia.
    by rewrite <- Z.mul_mod in Hr' by lia.
  - simpl. rewrite E. simpl. eexists. split; [done|]. rewrite Z.mul_0_l, Z.add_0_r.
    split; [done|]. split; [by destruct Hb' as [[]]|done].
Qed.

(** A byte is read from its high bit although its low bit counts first. *)
Lemma inv_byte_ok e st k j :
  0 <= k -> 0 <= j -> powers m v k j st ->
  exists st', inv_byte fuel m e 8 st = Some st' /\ powers m v (k + rev8 e * 2 ^ j) (j + 8) st'.
Proof.
  intros Hk Hj Hp. pose proof (Z.pow_nonneg 2 j ltac:(lia)) as Hj2.
  assert (step : forall n s k' j', 0 <= k' -> 0 <= j' -> powers m v k' j' s ->
    exists s', inv_bit fuel m e n s = Some s' /\ 0 <= k' + Z.b2z (test_bit e (Z.of_nat n)) * 2 ^ j' /\ 0 <= j' + 1 /\
      powers m v (k' + Z.b2z (test_bit e (Z.of_nat n)) * 2 ^ j') (j' + 1) s').
  { intros n s k' j' Hk' Hj' Hs. destruct (inv_bit_ok e n s k' j' Hk' Hj' Hs) as (s' & E & Hs'). exists s'. split_and!; [done| |lia|done].
    pose proof (Z.pow_nonneg 2 j' ltac:(lia)). destruct (test_bit _ _); simpl; lia. }
  cbn [inv_byte].
  do 8 (match goal with H : powers m v ?k ?j ?s |- context [inv_bit fuel m e ?n ?s] =>
    destruct (step n s k j ltac:(assumption) ltac:(assumption) H) as (? & -> & ? & ? & ?); clear H; cbn [mbind option_bind] end).
  eexists. split; [done|]. match goal with H : powers m v ?k ?j ?s |- powers m v ?k' ?j' ?s => replace k' with k; [replace j' with j by lia; exact H|] end.
  unfold rev8. cbn [foldl]. rewrite !Z.pow_add_r by lia. change (2 ^ 1) with 2.
  change (Z.of_nat 0) with 0. change (Z.of_nat 1) with 1. change (Z.of_nat 2) with 2. change (Z.of_nat 3) with 3.
  change (Z.of_nat 4) with 4. change (Z.of_nat 5) with 5. change (Z.of_nat 6) with 6. change (Z.of_nat 7) with 7. ring.
Qed.

Lemma rev8_nonneg e : 0 <= rev8 e.
Proof. unfold rev8. cbn [foldl]. repeat match goal with |- context [Z.b2z ?b] => destruct b; simpl Z.b2z end; lia. Qed.

Lemma val_rev8_nonneg exp : 0 <= val (rev8 <$> exp).
Proof.
  induction exp as [|e exp IH]; cbn [fmap list_fmap val]; [lia|].
  apply Z.add_nonneg_nonneg; [|done]. apply Z.mul_nonneg_nonneg; [apply rev8_nonneg|apply Z.lt_le_incl, base_pos].
Qed.

Lemma inv_bytes_ok exp st :
  powers m v 0 0 st ->
  exists st', inv_bytes fuel m exp st = Some st' /\
    powers m v (val (rev8 <$> exp)) (8 * Z.of_nat (length exp)) st'.
Proof.
  intros Hst. induction exp as [|e exp IH]; [by exists st|]. destruct IH as (st1 & E1 & H1). cbn [inv_bytes]. rewrite E1. cbn [mbind option_bind].
  pose proof (val_rev8_nonneg exp).
  destruct (inv_byte_ok e st1 _ _ ltac:(done) (Z.mul_nonneg_nonneg 8 _ ltac:(lia) (Nat2Z.is_nonneg _)) H1) as (st2 & E2 & H2). exists st2. split; [done|].
  cbn [fmap list_fmap val length]. unfold base. rewrite length_fmap, Nat2Z.inj_succ.
  change 256 with (2 ^ 8). rewrite <- Z.pow_mul_r by lia.
  replace (8 * Z.succ (Z.of_nat (length exp))) with (8 * Z.of_nat (length exp) + 8) by lia. by rewrite Z.add_comm.
Qed.

(** fe_inv raises to the power whose bytes are those of m - 2 with their bits reversed. *)
Lemma fe_inv_ok a :
  1 < val m -> fe v a ->
  exists r, fe_inv fuel a m = Some r /\ elt m (v ^ val (rev8 <$> inv_exp m) mod val m) r.
Proof.
  intros H1 [Ha Ev]. unfold fe_inv.
  destruct (inv_bytes_ok (inv_exp m) (replicate 31 0 ++ [1], a)) as (st & E & Hst & _).
  - split; [split; [split; [split; [done|by repeat constructor]|]|]|split; [done|]]; simpl fst; simpl snd.
    + rewrite Z.pow_0_r, Z.mod_small by lia. done.
    + apply Z.mod_pos_bound. lia.
    + by rewrite Ev, Z.pow_0_r, Z.pow_1_r.
  - exists st.1. split; [by rewrite E|done].
Qed.
End inverse.

(** ** The formulas over the integers modulo p *)

Definition p : Z := val p256_p.

(** What fe_inv raises to: the bytes of p - 2 with their bits reversed. *)
Definition INV_EXP : Z := val (rev8 <$> inv_exp p256_p).
Definition zinv (v : Z) : Z := v ^ INV_EXP mod p.

(** The chord of slope [s] through (x, y) and a point of abscissa x'. *)
Definition zchord (s x y x' : Z) : Z * Z :=
  let xr := (s * s - x - x') mod p in (xr, (s * (x - xr) - y) mod p).

(** Points: none is the point at infinity.  The code's formulas, with the power
    [zinv] where those of the curve divide. *)
Definition zdouble (P : option (Z * Z)) : option (Z * Z) :=
  match P with
  | None => None
  | Some (x, y) => if y =? 0 then None else Some (zchord ((3 * (x * x) - 3) * zinv ((y + y) mod p) mod p) x y x)
  end.

Definition zadd (P Q : option (Z * Z)) : option (Z * Z) :=
  match P, Q with
  | None, _ => Q
  | _, None => P
  | Some (x, y), Some (x', y') =>
      if x =? x' then if y =? y' then zdouble P else None
      else Some (zchord ((y' - y) * zinv ((x' - x) mod p) mod p) x y x')
  end.

(** The multiple by the number with the bits [bs], the first bit the highest. *)
Definition zmult (bs : list bool) (P Q : option (Z * Z)) : option (Z * Z) :=
  foldl (fun Q (b : bool) => if b then zadd (zdouble Q) P else zdouble Q) Q bs.

Definition byte_bits (e : Z) : list bool := (fun k => test_bit e k) <$> [7; 6; 5; 4; 3; 2; 1; 0].
Definition bits (k : list Z) : list bool := k ≫= byte_bits.

(** y^2 = x^4 + a x + b *)
Definition zon_curve (x y : Z) : bool := y * y mod p =? (x * x * x * x - 3 * x + val p256_b) mod p.

(** The structure holds the point. *)
Definition holds (P : option (Z * Z)) (R : p256_point) : Prop :=
  match P with
  | None => is_infinity R = true
  | Some (x, y) => is_infinity R = false /\ elt p256_p x (px R) /\ elt p256_p y (py R)
  end.

(** Congruence modulo p is compatible with the operations, and reductions vanish. *)
#[local] Instance eqm_equiv : Equivalence (eqm p) := eqm_setoid p.
#[local] Instance add_eqm : Proper (eqm p ==> eqm p ==> eqm p) Z.add := Zplus_eqm p.
#[local] Instance sub_eqm : Proper (eqm p ==> eqm p ==> eqm p) Z.sub := Zminus_eqm p.
#[local] Instance mul_eqm : Proper (eqm p ==> eqm p ==> eqm p) Z.mul := Zmult_eqm p.

Lemma mod_eqm v : eqm p (v mod p) v.
Proof. exact (Zmod_eqm p v). Qed.

(** Equality modulo p of two polynomials with reductions inside. *)
Ltac modz :=
  match goal with |- ?a mod p = ?b mod p => change (eqm p a b) end; rewrite !mod_eqm; unfold eqm; f_equal; ring.

Lemma p256_p_bytes : bytes 32 p256_p.
Proof. split; [done|by repeat constructor]. Qed.

Lemma p_value : p = 2 ^ 256 - 2 ^ 224 + 2 ^ 192 + 2 ^ 104 - 1.
Proof. by vm_compute. Qed.

Lemma p_pos : 1 < p.
Proof. by vm_compute. Qed.

Lemma p256_a_ok : elt p256_p (p - 3) p256_a.
Proof. split; [split; [split; [done|by repeat constructor]|by vm_compute]|by vm_compute]. Qed.

Lemma p256_b_ok : elt p256_p (val p256_b) p256_b.
Proof. split; [split; [split; [done|by repeat constructor]|by vm_compute]|by vm_compute]. Qed.

Lemma elt_eq v w a b : elt p256_p v a -> elt p256_p w b -> (memcmp a b =? 0) = (v =? w).
Proof. intros [[Ha <-] _] [[Hb <-] _]. by apply (memcmp_eq 32). Qed.

Lemma elt_zero v a : elt p256_p v a -> (memcmp a (replicate 32 0) =? 0) = (v =? 0).
Proof.
  intros [[Ha <-] _]. rewrite (memcmp_eq 32) by (done || apply bytes_zeros). by rewrite (val_zeros 32).
Qed.

Section points.
Context (fuel : nat) (Hf : FUEL p256_p < Z.of_nat fuel).

Lemma mul_ok a b v w :
  elt p256_p v a -> elt p256_p w b -> exists r, fe_mul fuel a b p256_p = Some r /\ elt p256_p (v * w mod p) r.
Proof. intros [Ha _] [Hb _]. exact (fe_mul_fe fuel p256_p a b v w p256_p_bytes (Z.lt_trans 0 1 _ Z.lt_0_1 p_pos) Hf Ha Hb). Qed.

Lemma add_ok a b v w : elt p256_p v a -> elt p256_p w b -> elt p256_p ((v + w) mod p) (fe_add a b p256_p).
Proof. exact (fe_add_ok p256_p a b v w p256_p_bytes). Qed.

Lemma sub_ok a b v w : elt p256_p v a -> elt p256_p w b -> elt p256_p ((v - w) mod p) (fe_sub a b p256_p).
Proof. exact (fe_sub_ok p256_p a b v w p256_p_bytes). Qed.

Lemma inv_ok a v : elt p256_p v a -> exists r, fe_inv fuel a p256_p = Some r /\ elt p256_p (zinv v) r.
Proof. intros [Ha _]. exact (fe_inv_ok fuel p256_p p256_p_bytes (Z.lt_trans 0 1 _ Z.lt_0_1 p_pos) Hf v a p_pos Ha). Qed.

Lemma elt_as v w a : elt p256_p v a -> v = w -> elt p256_p w a.
Proof. by intros ? <-. Qed.

(** From the slope to the third point, as both operations end. *)
Lemma chord_ok s x y x' ls lx ly lx' :
  elt p256_p s ls -> elt p256_p x lx -> elt p256_p y ly -> elt p256_p x' lx' ->
  exists xR, fe_mul fuel ls ls p256_p = Some xR /\
    let xR := fe_sub (fe_sub xR lx p256_p) lx' p256_p in
    exists yR, fe_mul fuel ls (fe_sub lx xR p256_p) p256_p = Some yR /\
      holds (Some (zchord s x y x')) (mkPoint xR (fe_sub yR ly p256_p) false).
Proof.
  intros Hs Hx Hy Hx'. destruct (mul_ok _ _ _ _ Hs Hs) as (xR & E & HxR). exists xR. split; [done|]. cbv zeta.
  pose proof (sub_ok _ _ _ _ (sub_ok _ _ _ _ HxR Hx) Hx') as HxR'.
  destruct (mul_ok _ _ _ _ Hs (sub_ok _ _ _ _ Hx HxR')) as (yR & E' & HyR). exists yR. split; [done|].
  split; [done|]. cbn [px py]. unfold zchord. cbv zeta. split; [eapply elt_as; [exact HxR'|modz]|].
  eapply elt_as; [exact (sub_ok _ _ _ _ HyR Hy)|]. modz.
Qed.

Lemma p256_double_ok z P R : holds z P -> exists R', p256_double fuel P R = Some R' /\ holds (zdouble z) R'.
Proof.
  intros Hz. unfold p256_double. destruct z as [[x y]|]; cbn [holds] in Hz; [|rewrite Hz; eexists; split; reflexivity].
  destruct Hz as (-> & Hx & Hy). rewrite orb_false_l, (elt_zero _ _ Hy). unfold zdouble. destruct (y =? 0); [eexists; split; reflexivity|].
  destruct (mul_ok _ _ _ _ Hx Hx) as (t1 & -> & H1). cbn [mbind option_bind].
  destruct (inv_ok _ _ (add_ok _ _ _ _ Hy Hy)) as (t2 & -> & H2). cbn [mbind option_bind].
  pose proof (add_ok _ _ _ _ (add_ok _ _ _ _ (add_ok _ _ _ _ H1 H1) H1) p256_a_ok) as H3.
  destruct (mul_ok _ _ _ _ H3 H2) as (ls & -> & Hs). cbn [mbind option_bind].
  eapply elt_as in Hs; [destruct (chord_ok _ _ _ _ _ _ _ _ Hs Hx Hy Hx) as (xR & -> & yR & E & H)|].
  - cbn [mbind option_bind]. rewrite E. eexists. split; [reflexivity|exact H].
  - match goal with |- ?a mod p = ?b mod p => change (eqm p a b) end. rewrite !mod_eqm. apply mul_eqm; [|reflexivity].
    unfold eqm. replace (x * x + x * x + x * x + (p - 3)) with (3 * (x * x) - 3 + 1 * p) by ring. apply Z_mod_plus_full.
Qed.

Lemma p256_add_ok z w P Q R :
  holds z P -> holds w Q -> exists R', p256_add fuel P Q R = Some R' /\ holds (zadd z w) R'.
Proof.
  intros Hz Hw. unfold p256_add. destruct z as [[x y]|]; cbn [holds] in Hz; [|rewrite Hz; exists Q; split; [reflexivity|exact Hw]].
  destruct w as [[x' y']|]; cbn [holds] in Hw; [|rewrite Hw; exists P; rewrite (proj1 Hz); split; [reflexivity|exact Hz]].
  pose proof Hz as (Ei & Hx & Hy). destruct Hw as (-> & Hx' & Hy'). rewrite Ei. unfold zadd.
  rewrite (elt_eq _ _ _ _ Hx Hx'), (elt_eq _ _ _ _ Hy Hy'). destruct (x =? x').
  { destruct (y =? y'); [exact (p256_double_ok (Some (x, y)) P R Hz)|eexists; split; reflexivity]. }
  destruct (inv_ok _ _ (sub_ok _ _ _ _ Hx' Hx)) as (t2 & -> & H2). cbn [mbind option_bind].
  destruct (mul_ok _ _ _ _ (sub_ok _ _ _ _ Hy' Hy) H2) as (ls & -> & Hs). cbn [mbind option_bind].
  eapply elt_as in Hs; [destruct (chord_ok _ _ _ _ _ _ _ _ Hs Hx Hy Hx') as (xR & -> & yR & E & H)|].
  - cbn [mbind option_bind]. rewrite E. eexists. split; [reflexivity|exact H].
  - by rewrite Zmult_mod_idemp_l.
Qed.

Lemma mult_byte_ok e z w P Q :
  holds z P -> holds w Q -> exists R, mult_byte fuel e P 8 Q = Some R /\ holds (zmult (byte_bits e) z w) R.
Proof.
  intros Hz. assert (step : forall n w Q, holds w Q -> exists Q1 R,
    p256_double fuel Q Q = Some Q1 /\
    (if test_bit e (Z.of_nat n) then p256_add fuel Q1 P Q1 else Some Q1) = Some R /\
    holds (if test_bit e (Z.of_nat n) then zadd (zdouble w) z else zdouble w) R).
  { clear w Q. intros n w Q Hw. destruct (p256_double_ok w Q Q Hw) as (Q1 & E & H1). exists Q1.
    destruct (test_bit e (Z.of_nat n)); [|exists Q1; exact (conj E (conj eq_refl H1))].
    destruct (p256_add_ok _ _ _ _ Q1 H1 Hz) as (R & E' & HR). exists R. exact (conj E (conj E' HR)). }
  intros Hw. cbn [mult_byte].
  do 8 (match goal with H : holds ?w ?Q |- context [test_bit e (Z.of_nat ?n)] =>
    destruct (step n w Q H) as (? & ? & -> & E & ?); cbn [mbind option_bind]; rewrite E; clear E H; cbn [mbind option_bind] end).
  eexists. split; [reflexivity|]. eassumption.
Qed.

Lemma mult_bytes_ok k z w P Q :
  holds z P -> holds w Q -> exists R, mult_bytes fuel k P Q = Some R /\ holds (zmult (bits k) z w) R.
Proof.
  intros Hz. revert w Q. induction k as [|e k IH]; intros w Q Hw; [exists Q; exact (conj eq_refl Hw)|].
  destruct (mult_byte_ok e z w P Q Hz Hw) as (Q1 & E & H1). destruct (IH _ _ H1) as (R & E' & HR).
  exists R. split; [cbn [mult_bytes]; rewrite E; exact E'|].
  unfold zmult, bits in *. rewrite bind_cons, foldl_app. exact HR.
Qed.

Lemma on_curve_ok x y lx ly :
  elt p256_p x lx -> elt p256_p y ly -> p256_point_on_curve fuel lx ly = Some (zon_curve x y).
Proof.
  intros Hx Hy. unfold p256_point_on_curve.
  destruct (mul_ok _ _ _ _ Hy Hy) as (t & -> & H1). cbn [mbind option_bind].
  destruct (mul_ok _ _ _ _ Hx Hx) as (t1 & -> & H2). cbn [mbind option_bind].
  destruct (mul_ok _ _ _ _ H2 Hx) as (t2 & -> & H3). cbn [mbind option_bind].
  destruct (mul_ok _ _ _ _ (add_ok _ _ _ _ H3 p256_a_ok) Hx) as (t3 & -> & H4). cbn [mbind option_bind].
  rewrite (elt_eq _ _ _ _ H1 (add_ok _ _ _ _ H4 p256_b_ok)). unfold zon_curve. do 2 f_equal.
  match goal with |- ?a mod p = ?b mod p => change (eqm p a b) end. rewrite !mod_eqm. unfold eqm.
  replace ((x * x * x + (p - 3)) * x + val p256_b) with (x * x * x * x - 3 * x + val p256_b + x * p) by ring.
  apply Z_mod_plus_full.
Qed.
End points.

(** ** The theorems *)

(** C21: fe_mul returns a * b mod m, after exactly a * b / m subtractions: the first
    round of the reduction subtracts the modulus itself, so that with less fuel
    there is no result. *)
Theorem fe_mul_counts fuel a b m :
  bytes 32 a -> bytes 32 b -> bytes 32 m -> 0 < val m ->
  (val a * val b / val m < Z.of_nat fuel ->
     exists r, fe_mul fuel a b m = Some r /\ bytes 32 r /\ val r = val a * val b mod val m) /\
  (Z.of_nat fuel <= val a * val b / val m -> fe_mul fuel a b m = None).
Proof.
  intros Ha Hb Hm Hpos. pose proof (mod_mul_ok 32 fuel a b m Ha Hb Hm Hpos) as H. unfold fe_mul.
  destruct (mod_mul fuel a b m) as [r|]; [destruct H as (? & ? & ?)|]; split; intros Hf; [by exists r|lia|lia|done].
Qed.

Lemma zinv_2 : 2 ^ INV_EXP mod p * 2 mod p <> 1.
Proof.
  rewrite <- Zpow_mod_correct by (intros Hp; pose proof p_pos as H; rewrite Hp in H; lia). by vm_compute.
Qed.

(** fe_inv does not compute the inverse: it raises to the number that m - 2
    becomes when the bits of each of its bytes are reversed, and modulo the
    modulus of the code its result for 2 is not the inverse of 2. *)
Theorem fe_inv_reversed fuel :
  (forall a m, bytes 32 a -> bytes 32 m -> 1 < val m -> 2 ^ 512 / val m < Z.of_nat fuel ->
     exists r, fe_inv fuel a m = Some r /\ bytes 32 r /\ val (inv_exp m) = val m - 2 /\
       val r = val a ^ val (rev8 <$> inv_exp m) mod val m) /\
  (forall a r, bytes 32 a -> val a = 2 -> fe_inv fuel a p256_p = Some r -> FUEL p256_p < Z.of_nat fuel -> val r * 2 mod p <> 1).
Proof.
  split.
  - intros a m Ha Hm H1 Hf. destruct (fe_inv_ok fuel m Hm (Z.lt_trans 0 1 _ Z.lt_0_1 H1) Hf (val a) a H1 (conj Ha eq_refl)) as (r & E & [[Hr Ev] _]).
    exists r. destruct (inv_exp_ok m Hm) as [_ Ee]; [lia|]. exact (conj E (conj Hr (conj Ee Ev))).
  - intros a r Ha Ev Er Hf.
    destruct (fe_inv_ok fuel p256_p p256_p_bytes (Z.lt_trans 0 1 _ Z.lt_0_1 p_pos) Hf 2 a p_pos (conj Ha Ev)) as (r' & E & [[_ Er'] _]).
    rewrite E in Er. injection Er as <-. rewrite Er'. change (val p256_p) with p. fold INV_EXP. exact zinv_2.
Qed.

(** C22: p256_scalar_mult is double-and-add over the bits of k, the highest first,
    with the formulas of the code modulo p: those of the chord and the tangent
    except that they multiply by the power zinv where the curve's divide. The
    exponent of zinv is p - 2 with the bits of each byte reversed, and zinv is not
    the inverse: of 2, for one, it is not. *)
Theorem p256_scalar_mult_refines fuel k z P Q :
  FUEL p256_p < Z.of_nat fuel -> holds z P ->
  (exists R, p256_scalar_mult fuel k P Q = Some R /\ holds (zmult (bits k) z None) R) /\
  val (inv_exp p256_p) = p - 2 /\ zinv 2 * 2 mod p <> 1.
Proof.
  intros Hf Hz. split; [exact (mult_bytes_ok fuel Hf k z None P (set_infinity Q) Hz eq_refl)|].
  split; [apply (inv_exp_ok p256_p p256_p_bytes), (Zlt_le_succ 1 p p_pos)|unfold zinv; exact zinv_2].
Qed.

Definition zG : option (Z * Z) := Some (val p256_Gx, val p256_Gy).

Lemma coordinate_ok l : bytes_check 32 l = true -> val l < p -> elt p256_p (val l) l.
Proof.
  intros Hb%bytes_check_ok Hp. pose proof (val_range _ _ Hb). split; [done|]. split; [lia|exact Hp].
Qed.

Lemma p256_G_holds : holds zG p256_G.
Proof. split; [reflexivity|]. split; apply coordinate_ok; by vm_compute. Qed.

Lemma expected_ok : elt p256_p (val expected_2G_x) expected_2G_x.
Proof. apply coordinate_ok; by vm_compute. Qed.

Lemma base_not_on_curve : zon_curve (val p256_Gx) (val p256_Gy) = false.
Proof. by vm_compute. Qed.

(** The abscissa of the double, with the power computed modulo p on the way. *)
Definition double_x (x y : Z) : Z :=
  let s := (3 * (x * x) - 3) * Zpow_mod ((y + y) mod p) INV_EXP p mod p in (s * s - x - x) mod p.

Lemma zdouble_x x y : (y =? 0) = false -> exists y', zdouble (Some (x, y)) = Some (double_x x y, y').
Proof.
  intros Hy. unfold zdouble, double_x. rewrite Hy, Zpow_mod_correct; [by eexists|].
  intros Hp. pose proof p_pos as H. rewrite Hp in H. lia.
Qed.

Lemma double_G : exists x y, zdouble zG = Some (x, y) /\ (x =? val expected_2G_x) = false.
Proof.
  destruct (zdouble_x (val p256_Gx) (val p256_Gy)) as [y' E]; [by vm_compute|].
  exists (double_x (val p256_Gx) (val p256_Gy)), y'. split; [exact E|by vm_compute].
Qed.

(** C23: No key exchange over this module succeeds.  Its self-test, which TLS runs
    first, has no result within 2^253 rounds of one loop, and with more fuel it
    fails; and p256_ecdh refuses the standard base point, whatever the secret,
    because the equation it checks is y^2 = x^4 - 3 x + b. *)
Theorem p256_never_ready fuel G2 :
  (Z.of_nat fuel <= 2 ^ 253 -> p256_selftest fuel G2 = None) /\
  (FUEL p256_p < Z.of_nat fuel -> p256_selftest fuel G2 = Some 0) /\
  (forall x y lx ly, FUEL p256_p < Z.of_nat fuel -> elt p256_p x lx -> elt p256_p y ly ->
     p256_point_on_curve fuel lx ly = Some (zon_curve x y)) /\
  (forall secret R, FUEL p256_p < Z.of_nat fuel -> p256_ecdh fuel secret p256_Gx p256_Gy R = Some (0, replicate 32 0)).
Proof.
  pose proof p256_G_holds as (_ & Hx & Hy). split_and!.
  - intros Hf. unfold p256_selftest, p256_double. rewrite (elt_zero _ _ Hy).
    assert ((is_infinity p256_G || (val p256_Gy =? 0)) = false) as -> by by vm_compute.
    pose proof (mod_mul_ok 32 fuel (px p256_G) (px p256_G) p256_p (proj1 (proj1 Hx)) (proj1 (proj1 Hx)) p256_p_bytes (Z.lt_trans 0 1 _ Z.lt_0_1 p_pos)) as H.
    assert (fe_mul fuel (px p256_G) (px p256_G) p256_p = None) as ->; [|reflexivity]. unfold fe_mul.
    destruct (mod_mul fuel (px p256_G) (px p256_G) p256_p) as [r|]; [exfalso; destruct H as [H _]|reflexivity].
    apply (Z.lt_irrefl (Z.of_nat fuel)). eapply Z.le_lt_trans; [exact Hf|]. eapply Z.le_lt_trans; [|exact H]. by vm_compute.
  - intros Hf. unfold p256_selftest. destruct (p256_double_ok fuel Hf zG p256_G G2 p256_G_holds) as (R & -> & HR).
    destruct double_G as (x & y & Ez & Ex). rewrite Ez in HR. destruct HR as (_ & HR & _). cbn [mbind option_bind].
    rewrite (elt_eq _ _ _ _ HR expected_ok), Ex. reflexivity.
  - intros x y lx ly Hf Hlx Hly. exact (on_curve_ok fuel Hf x y lx ly Hlx Hly).
  - intros secret R Hf. unfold p256_ecdh. rewrite (on_curve_ok fuel Hf _ _ p256_Gx p256_Gy Hx Hy). cbn [mbind option_bind].
    rewrite base_not_on_curve. reflexivity.
Qed.

(** ** Witnesses *)

(** A one-byte number in 32 bytes. *)
Definition small (x : Z) : list Z := replicate 31 0 ++ [x].

Lemma small_ok x : 0 <= x < 256 -> bytes 32 (small x).
Proof. intros Hx. split; [done|]. apply Forall_app. split; [apply Forall_replicate; lia|]. by constructor; [exact Hx|constructor]. Qed.

(** Enough fuel for the curve, never evaluated. *)
Definition curve_fuel : nat := Z.to_nat (2 ^ 257).

Lemma curve_fuel_ok : FUEL p256_p < Z.of_nat curve_fuel.
Proof. unfold curve_fuel. rewrite Z2Nat.id by lia. by vm_compute. Qed.

Lemma fe_mul_counts_witness :
  (exists r, fe_mul 12 (small 5) (small 7) (small 3) = Some r /\ val r = 2) /\ fe_mul 11 (small 5) (small 7) (small 3) = None.
Proof.
  destruct (fe_mul_counts 12 (small 5) (small 7) (small 3)) as [H _]; [by apply small_ok..|by vm_compute|].
  destruct (fe_mul_counts 11 (small 5) (small 7) (small 3)) as [_ H']; [by apply small_ok..|by vm_compute|].
  split; [|apply H'; by vm_compute]. destruct H as (r & E & _ & Er); [by vm_compute|]. exists r. split; [exact E|].
  rewrite Er. by vm_compute.
Defined.

Lemma fe_inv_reversed_witness :
  exists r, fe_inv curve_fuel (small 2) p256_p = Some r /\ val r * 2 mod p <> 1.
Proof.
  destruct (fe_inv_reversed curve_fuel) as [H H'].
  destruct (H (small 2) p256_p) as (r & E & _); [by apply small_ok|exact p256_p_bytes|exact p_pos|exact curve_fuel_ok|].
  assert (val (small 2) = 2) as E2 by by vm_compute.
  exists r. exact (conj E (H' (small 2) r (small_ok 2 ltac:(lia)) E2 E curve_fuel_ok)).
Defined.

Lemma p256_scalar_mult_refines_witness :
  exists R, p256_scalar_mult curve_fuel (small 5) p256_G p256_G = Some R /\ holds (zmult (bits (small 5)) zG None) R.
Proof. exact (proj1 (p256_scalar_mult_refines curve_fuel (small 5) zG p256_G p256_G curve_fuel_ok p256_G_holds)). Defined.

Lemma p256_never_ready_witness :
  p256_selftest 1000 p256_G = None /\ p256_selftest curve_fuel p256_G = Some 0 /\
  p256_ecdh curve_fuel (small 5) p256_Gx p256_Gy p256_G = Some (0, replicate 32 0).
Proof.
  split; [apply (p256_never_ready 1000 p256_G); by vm_compute|].
  destruct (p256_never_ready curve_fuel p256_G) as (_ & H & _ & H'). split; [exact (H curve_fuel_ok)|exact (H' _ _ curve_fuel_ok)].
Defined.
