(* ===== verification/Rsa.v ===== *)
(** * RSA signature verification: kernel/net/rsa.c

    Numbers are arrays of 256 bytes, the most significant first.  The product
    modulo the modulus is the loop of [Bignum.mod_mul], with its fuel. *)

From S2P Require Import Prelude Bignum.
From Stdlib Require Import Zpow_facts.

(** ** Big numbers *)

Definition bn_zero : list Z := replicate 256 0.
Definition bn_is_zero (a : list Z) : bool := forallb (fun x => x =? 0) a.

Fixpoint bn_cmp (a b : list Z) : Z :=
  match a, b with
  | x :: a, y :: b => if x <? y then -1 else if y <? x then 1 else bn_cmp a b
  | _, _ => 0
  end.

Definition bn_mod_mul (fuel : nat) (a b m : list Z) : option (list Z) := mod_mul fuel a b m.

(** "for (bit = n - 1; bit >= 0; bit--) if ((e >> bit) & 1)" *)
Fixpoint high_bit (e : Z) (n : nat) : option Z :=
  match n with
  | O => None
  | S k => if test_bit e (Z.of_nat k) then Some (Z.of_nat k) else high_bit e k
  end.

(** The position of the first bit found, from byte [i] on. *)
Fixpoint exp_start (i : Z) (exp : list Z) : Z :=
  match exp with
  | [] => -1
  | e :: exp => match high_bit e 8 with Some bit => i * 8 + bit | None => exp_start (i + 1) exp end
  end.

(** "for (pos = n - 1; pos >= 0; pos--)" *)
Fixpoint exp_loop (fuel : nat) (base exp m : list Z) (n : nat) (result : list Z) : option (list Z) :=
  match n with
  | O => Some result
  | S k =>
      let pos := Z.of_nat k in
      let byte_idx := pos / 8 in
      let bit_idx := pos mod 8 in
      result ← bn_mod_mul fuel result result m;
      result ← (if test_bit exp.[byte_idx] bit_idx then bn_mod_mul fuel result base m else Some result);
      exp_loop fuel base exp m k result
  end.

Definition bn_one : list Z := bn_zero.[255 <- 1].

Definition bn_mod_exp (fuel : nat) (base exp m : list Z) : option (list Z) :=
  if bn_is_zero exp then Some bn_one
  else
    let start := exp_start 0 exp in
    if start <? 0 then Some bn_one else exp_loop fuel base exp m (Z.to_nat (start + 1)) bn_one.

(** ** PKCS#1 v1.5 *)

Definition digest_info_sha256 : list Z :=
  [0x30; 0x31; 0x30; 0x0D; 0x06; 0x09; 0x60; 0x86;
   0x48; 0x01; 0x65; 0x03; 0x04; 0x02; 0x01; 0x05;
   0x00; 0x04; 0x20].

(** The exponent in the last four bytes. *)
Definition exponent_bytes (pubkey_e : Z) : list Z :=
  bn_zero.[255 <- Z.land pubkey_e 0xFF].[254 <- Z.land (Z.shiftr pubkey_e 8) 0xFF]
         .[253 <- Z.land (Z.shiftr pubkey_e 16) 0xFF].[252 <- Z.land (Z.shiftr pubkey_e 24) 0xFF].

(** "expected": 0, 1, 202 bytes 0xFF from index 2, 0 at 204, the digest info at 205, the hash at 224. *)
Definition expected (msg_hash : list Z) : list Z :=
  [0; 1] ++ replicate 202 0xFF ++ [0] ++ digest_info_sha256 ++ msg_hash.

(** "diff |= m[i] ^ expected[i]" *)
Definition diff_bytes (m e : list Z) : Z :=
  for_each (fun i diff => Z.lor diff (Z.lxor m.[i] e.[i])) 256 0 0.

Definition rsa_verify_pkcs1_v15 (fuel : nat) (msg_hash sig pubkey_n : list Z) (pubkey_e : Z) : option Z :=
  m ← bn_mod_exp fuel sig (exponent_bytes pubkey_e) pubkey_n;
  Some (if diff_bytes m (expected msg_hash) =? 0 then 1 else 0).

(** ** The exponent that is used *)

(** The first byte that is not zero, times 256 to the power of its index. *)
Fixpoint used_exponent (i : Z) (exp : list Z) : Z :=
  match exp with
  | [] => 0
  | e :: exp => if e =? 0 then used_exponent (i + 1) exp else e * 2 ^ (8 * i)
  end.

(** What the loop over the positions below [n] makes of the exponent [k]. *)
Fixpoint expo (exp : list Z) (n : nat) (k : Z) : Z :=
  match n with
  | O => k
  | S n => expo exp n (2 * k + Z.b2z (test_bit exp.[Z.of_nat n / 8] (Z.of_nat n mod 8)))
  end.

Lemma bn_one_ok : bytes 256 bn_one /\ val bn_one = 1.
Proof. split; [split; [done|]|by vm_compute]. unfold bn_one, seti. apply Forall_insert; [apply Forall_replicate|]; lia. Qed.

Lemma expo_nonneg exp n k : 0 <= k -> 0 <= expo exp n k.
Proof. revert k. induction n as [|n IH]; intros k Hk; simpl; [done|]. apply IH. destruct (test_bit _ _); simpl; lia. Qed.

Section exponent.
Context (fuel : nat) (m : list Z) (Hm : bytes 256 m) (Hpos : 0 < val m) (Hf : 2 ^ 4096 / val m < Z.of_nat fuel).

Lemma bn_mod_mul_ok a b :
  bytes 256 a -> bytes 256 b ->
  exists r, bn_mod_mul fuel a b m = Some r /\ bytes 256 r /\ val r = val a * val b mod val m.
Proof.
  intros Ha Hb. pose proof (mod_mul_ok 256 fuel a b m Ha Hb Hm Hpos) as H. unfold bn_mod_mul.
  destruct (mod_mul fuel a b m) as [r|]; [exists r; destruct H as (_ & H1 & H2); exact (conj eq_refl (conj H1 H2))|].
  exfalso. assert (E : forall l, bytes 256 l -> base l = 2 ^ 2048).
  { intros l [El _]. unfold base. rewrite El. change (Z.of_nat 256) with 256. change 256 with (2 ^ 8) at 1. by rewrite <- Z.pow_mul_r by lia. }
  pose proof (val_range _ _ Ha) as Ra. pose proof (val_range _ _ Hb) as Rb. rewrite (E a Ha) in Ra. rewrite (E b Hb) in Rb.
  assert (val a * val b / val m <= 2 ^ 4096 / val m); [|lia]. apply Z.div_le_mono; [lia|].
  replace (2 ^ 4096) with (2 ^ 2048 * 2 ^ 2048) by (rewrite <- Z.pow_add_r by lia; done). apply Z.mul_le_mono_nonneg; lia.
Qed.

Lemma exp_loop_ok base exp n k r :
  bytes 256 base -> bytes 256 r -> 0 <= k -> val r = val base ^ k mod val m ->
  exists r', exp_loop fuel base exp m n r = Some r' /\ bytes 256 r' /\ val r' = val base ^ expo exp n k mod val m.
Proof.
  intros Hb. revert k r. induction n as [|n IH]; intros k r Hr Hk Ev; cbn [exp_loop expo]; [by exists r|]. cbv zeta.
  destruct (bn_mod_mul_ok r r Hr Hr) as (r1 & -> & H1 & E1). cbn [mbind option_bind].
  assert (val r1 = val base ^ (2 * k) mod val m) as E2.
  { rewrite E1, Ev, <- Z.mul_mod, <- Z.pow_add_r by lia. do 2 f_equal. lia. }
  destruct (test_bit _ _); simpl Z.b2z; [|apply IH; [done|lia|by rewrite Z.add_0_r]].
  destruct (bn_mod_mul_ok r1 base H1 Hb) as (r2 & -> & H2 & E3). cbn [mbind option_bind]. apply IH; [done|lia|].
  rewrite E3, E2, Zmult_mod_idemp_l, Z.pow_add_r, Z.pow_1_r by lia. done.
Qed.
End exponent.

Lemma expo_byte exp i h k :
  (h <= 8)%nat ->
  expo exp (8 * i + h) k = expo exp (8 * i) (k * 2 ^ Z.of_nat h + exp.[Z.of_nat i] mod 2 ^ Z.of_nat h).
Proof.
  revert k. induction h as [|h IH]; intros k Hh.
  { rewrite Nat.add_0_r, Z.pow_0_r, Z.mod_1_r. f_equal. lia. }
  rewrite Nat.add_succ_r. cbn [expo]. rewrite IH by lia. f_equal.
  replace (Z.of_nat (8 * i + h) / 8) with (Z.of_nat i) by zlia.
  replace (Z.of_nat (8 * i + h) mod 8) with (Z.of_nat h) by zlia.
  rewrite test_bit_testbit by lia. rewrite Nat2Z.inj_succ. unfold Z.succ.
  assert (forall e, e mod 2 ^ (Z.of_nat h + 1) = Z.b2z (Z.testbit e (Z.of_nat h)) * 2 ^ Z.of_nat h + e mod 2 ^ Z.of_nat h) as ->.
  { intros e. rewrite Z.testbit_spec', Z.pow_add_r, Z.rem_mul_r by lia. change (2 ^ 1) with 2. lia. }
  rewrite Z.pow_add_r by lia. lia.
Qed.

Lemma expo_zeros exp i k :
  (forall j, 0 <= j < Z.of_nat i -> exp.[j] = 0) -> expo exp (8 * i) k = k * 2 ^ (8 * Z.of_nat i).
Proof.
  revert k. induction i as [|i IH]; intros k Hz; [rewrite Z.mul_0_r, Z.pow_0_r, Z.mul_1_r; done|].
  replace (8 * S i)%nat with (8 * i + 8)%nat by lia. rewrite expo_byte, Hz, Z.mod_0_l, Z.add_0_r by lia.
  rewrite IH by (intros; apply Hz; lia). rewrite <- Z.mul_assoc, <- Z.pow_add_r by lia. do 2 f_equal. lia.
Qed.

Lemma high_bit_ok e n :
  0 <= e < 2 ^ Z.of_nat n ->
  match high_bit e n with
  | Some h => 0 <= h < Z.of_nat n /\ 0 < e < 2 ^ (h + 1)
  | None => e = 0
  end.
Proof.
  induction n as [|n IH]; cbn [high_bit]; [rewrite Z.pow_0_r; lia|]. rewrite Nat2Z.inj_succ. intros He.
  rewrite test_bit_testbit by lia. destruct (Z.testbit e (Z.of_nat n)) eqn:Et.
  - split; [lia|]. split; [|exact (proj2 He)]. destruct (decide (e = 0)) as [->|]; [by rewrite Z.bits_0 in Et|lia].
  - assert (e < 2 ^ Z.of_nat n) as Hlt.
    { apply word_of_bits; [lia|lia|]. intros i Hi. destruct (decide (i = Z.of_nat n)) as [->|]; [done|].
      apply (testbit_high (Z.succ (Z.of_nat n))); lia. }
    specialize (IH (conj (proj1 He) Hlt)). destruct (high_bit e n); [|done]. destruct IH. split; [lia|done].
Qed.

Lemma start_ok pre exp n :
  Forall (fun x => x = 0) pre -> bytes n exp ->
  let s := exp_start (len pre) exp in
  (bn_is_zero exp = true /\ used_exponent (len pre) exp = 0) \/
  (bn_is_zero exp = false /\ 0 <= s /\ expo (pre ++ exp) (Z.to_nat (s + 1)) 0 = used_exponent (len pre) exp).
Proof.
  revert pre n. induction exp as [|e exp IH]; intros pre n Hz Hb; cbv zeta; [by left|].
  destruct n as [|n]; [by destruct Hb|]. apply bytes_cons in Hb as [He Hb]. cbn [bn_is_zero forallb exp_start used_exponent].
  pose proof (high_bit_ok e 8 He) as Hh. pose proof (len_nonneg pre) as Hp.
  destruct (high_bit e 8) as [h|].
  - right. destruct Hh as [Hh Heh]. rewrite (proj2 (Z.eqb_neq e 0)) by lia. split; [done|]. split; [lia|].
    replace (Z.to_nat (len pre * 8 + h + 1)) with (8 * length pre + Z.to_nat (h + 1))%nat by (unfold len; lia).
    rewrite expo_byte, expo_zeros by (try lia; intros j Hj; rewrite geti_app by lia; rewrite decide_True by (unfold len; lia);
      pose proof (geti_lookup pre j ltac:(unfold len; lia)) as E; exact (proj1 (Forall_lookup _ _) Hz _ _ E)).
    fold (len pre). rewrite geti_app, decide_False, Z.sub_diag by lia. change ((e :: exp).[0]) with e.
    rewrite Z2Nat.id, Z.mod_small by lia. lia.
  - subst e. rewrite Z.eqb_refl. destruct (IH (pre ++ [0]) n) as [H|H]; [apply Forall_app; split; [done|by repeat constructor]|done|..].
    all: cbv zeta in H; replace (len (pre ++ [0])) with (len pre + 1) in H by (rewrite len_app; done).
    + by left.
    + right. destruct H as (? & ? & H). rewrite <- app_assoc in H. done.
Qed.

(** ** The check of the signature *)

Lemma diff_bytes_ok m e : bytes 256 m -> bytes 256 e -> (diff_bytes m e =? 0) = bool_decide (m = e).
Proof.
  intros Hm He. assert (Hg : forall l i, bytes 256 l -> 0 <= i < 256 -> 0 <= l.[i] < 256).
  { intros l i [El Hl] Hi. exact (proj1 (Forall_lookup _ _) Hl _ _ (geti_lookup l i ltac:(unfold len; lia))). }
  assert (0 <= diff_bytes m e /\ (diff_bytes m e = 0 <-> forall i, 0 <= i < 256 -> m.[i] = e.[i])) as [_ Hd].
  { unfold diff_bytes. pattern (for_each (fun i diff => Z.lor diff (Z.lxor m.[i] e.[i])) 256 0 0).
    apply (for_each_ind _ (fun j d => 0 <= d /\ (d = 0 <-> forall i, 0 <= i < j -> m.[i] = e.[i]))).
    { split; [lia|]. split; [intros _ i Hi; lia|done]. }
    intros j d Hj [Hd0 Hd]. assert (0 <= Z.lxor m.[j] e.[j]) as Hx.
    { apply Z.lxor_nonneg. pose proof (Hg m j Hm ltac:(lia)). pose proof (Hg e j He ltac:(lia)). lia. }
    split; [by apply Z.lor_nonneg|]. rewrite Z.lor_eq_0_iff, Hd, Z.lxor_eq_0_iff. split.
    - intros [Hi Hj'] i Hi'. destruct (decide (i = j)) as [->|]; [done|apply Hi; lia].
    - intros Hi. split; [intros; apply Hi; lia|apply Hi; lia]. }
  apply eq_true_iff_eq. rewrite Z.eqb_eq, bool_decide_eq_true, Hd. split; [|by intros ->].
  intros H. apply list_ext_geti; unfold len; rewrite (proj1 Hm); [by rewrite (proj1 He)|exact H].
Qed.

Lemma encoding_ok h : bytes 32 h -> bytes 256 (expected h).
Proof.
  intros Hh. unfold expected. apply (bytes_app 2 254); [split; [done|by repeat constructor]|].
  apply (bytes_app 202 52); [split; [apply length_replicate|apply Forall_replicate; lia]|].
  apply (bytes_app 1 51); [split; [done|by repeat constructor]|].
  apply (bytes_app 19 32); [split; [done|by repeat constructor]|done].
Qed.

Lemma exponent_bytes_ok e : bytes 256 (exponent_bytes e).
Proof.
  assert (H : forall x, 0 <= Z.land x 0xFF < 256).
  { intros x. change 0xFF with (Z.ones 8). rewrite Z.land_ones by lia. apply Z.mod_pos_bound. lia. }
  unfold exponent_bytes, bn_zero, seti. split; [by rewrite !length_insert, length_replicate|].
  repeat (apply Forall_insert; [|apply H]). apply Forall_replicate. lia.
Qed.

Lemma bn_mod_exp_ok fuel base exp m :
  bytes 256 base -> bytes 256 exp -> bytes 256 m -> 1 < val m -> 2 ^ 4096 / val m < Z.of_nat fuel ->
  exists r, bn_mod_exp fuel base exp m = Some r /\ bytes 256 r /\ val r = val base ^ used_exponent 0 exp mod val m.
Proof.
  intros Hb He Hm H1 Hf. destruct bn_one_ok as [Ho Eo]. unfold bn_mod_exp.
  destruct (start_ok [] exp 256 (Forall_nil_2 _) He) as [(-> & E)|(-> & Hs & E)].
  { exists bn_one. change (len []) with 0 in E. rewrite E, Eo, Z.pow_0_r, Z.mod_small by lia. done. }
  cbv zeta. change (len []) with 0 in Hs, E. rewrite (proj2 (Z.ltb_ge _ 0)) by exact Hs.
  change ([] ++ exp) with exp in E. rewrite <- E.
  apply exp_loop_ok; [done|lia|done|done|done|lia|]. rewrite Eo, Z.pow_0_r, Z.mod_small by lia. done.
Qed.

(** ** The theorems *)

(** bn_mod_exp uses one byte of the exponent: with [i] the index of the first
    byte that is not zero and [e] that byte, it returns base^(e * 2^(8 i)) mod m,
    because it walks from that byte to the most significant one. *)
Theorem bn_mod_exp_first_byte fuel base exp m :
  bytes 256 base -> bytes 256 exp -> bytes 256 m -> 1 < val m -> 2 ^ 4096 / val m < Z.of_nat fuel ->
  exists r, bn_mod_exp fuel base exp m = Some r /\ bytes 256 r /\ val r = val base ^ used_exponent 0 exp mod val m.
Proof. exact (bn_mod_exp_ok fuel base exp m). Qed.

(** C24: The check accepts exactly the signatures whose power, with the exponent
    bn_mod_exp uses (2^2024 for 65537), is the PKCS#1 encoding of the hash.  So it
    refuses valid signatures: modulo n = 2 (E - 1), E the encoding of a hash, the
    signature E satisfies sig^65537 mod n = E and is refused. *)
Theorem rsa_verify_wrong_power fuel hash sig n e :
  bytes 32 hash -> bytes 256 sig -> bytes 256 n -> 1 < val n -> 2 ^ 4096 / val n < Z.of_nat fuel ->
  rsa_verify_pkcs1_v15 fuel hash sig n e =
    Some (if val sig ^ used_exponent 0 (exponent_bytes e) mod val n =? val (expected hash) then 1 else 0) /\
  used_exponent 0 (exponent_bytes 65537) = 2 ^ 2024 /\
  (sig = expected hash -> Z.odd (val sig) = true -> val n = 2 * (val sig - 1) ->
     val sig ^ 65537 mod val n = val (expected hash) /\ rsa_verify_pkcs1_v15 fuel hash sig n 65537 = Some 0).
Proof.
  intros Hh Hs Hn H1 Hf. pose proof (encoding_ok hash Hh) as He.
  assert (H : forall e, rsa_verify_pkcs1_v15 fuel hash sig n e =
    Some (if val sig ^ used_exponent 0 (exponent_bytes e) mod val n =? val (expected hash) then 1 else 0)).
  { intros e'. unfold rsa_verify_pkcs1_v15.
    destruct (bn_mod_exp_ok fuel sig (exponent_bytes e') n Hs (exponent_bytes_ok e') Hn H1 Hf) as (r & -> & Hr & <-).
    cbn [mbind option_bind]. rewrite diff_bytes_ok by done. do 2 f_equal.
    case_bool_decide as Ed; [by rewrite Ed, Z.eqb_refl|]. destruct (Z.eqb_spec (val r) (val (expected hash))) as [Ev|]; [|done].
    by apply (val_inj 256) in Ev. }
  assert (used_exponent 0 (exponent_bytes 65537) = 2 ^ 2024) as E65537 by by vm_compute.
  split; [exact (H e)|]. split; [exact E65537|]. intros Es Ho En. rewrite (H 65537), E65537, <- Es. clear H E65537.
  set (x := val sig) in *. apply Zodd_bool_iff, Zodd_ex in Ho as [y Ey].
  assert (x * x mod val n = 1) as E2.
  { rewrite En. replace (x * x) with (1 + (y + 1) * (2 * (x - 1))) by (rewrite Ey; ring). rewrite Z.mod_add, Z.mod_small; lia. }
  assert (Hpow : forall k, 0 <= k -> x ^ (2 * k) mod val n = 1).
  { intros k Hk. rewrite Z.pow_mul_r, Z.pow_2_r by lia. rewrite Zpower_mod, E2, Z.pow_1_l, Z.mod_small by lia. done. }
  assert (1 < x) as Hx by lia. split.
  - change 65537 with (2 * 32768 + 1). rewrite Z.pow_add_r, Z.pow_1_r, <- Zmult_mod_idemp_l, Hpow, Z.mul_1_l by lia. apply Z.mod_small. lia.
  - replace (2 ^ 2024) with (2 * 2 ^ 2023) by (rewrite <- Z.pow_succ_r by lia; reflexivity).
    rewrite Hpow by (apply Z.pow_nonneg; lia). by rewrite (proj2 (Z.eqb_neq 1 x)) by lia.
Qed.

(** ** Witnesses *)

Definition demo_hash : list Z := replicate 31 0 ++ [1].
Definition demo_sig : list Z := expected demo_hash.
Definition demo_n : list Z := to_bytes 256 (2 * (val demo_sig - 1)).

(** Enough fuel for any modulus, never evaluated. *)
Definition rsa_fuel : nat := Z.to_nat (2 ^ 4097).

Lemma rsa_fuel_ok : 2 ^ 4096 / val demo_n < Z.of_nat rsa_fuel.
Proof. unfold rsa_fuel. rewrite Z2Nat.id by lia. by vm_compute. Qed.

Lemma bn_mod_exp_first_byte_witness :
  exists r, bn_mod_exp rsa_fuel demo_sig (exponent_bytes 3) demo_n = Some r /\
    val r = val demo_sig ^ used_exponent 0 (exponent_bytes 3) mod val demo_n.
Proof.
  destruct (bn_mod_exp_first_byte rsa_fuel demo_sig (exponent_bytes 3) demo_n) as (r & E & _ & Er);
    [apply bytes_check_ok; by vm_compute..|by vm_compute|exact rsa_fuel_ok|]. exists r. exact (conj E Er).
Defined.

Lemma rsa_verify_wrong_power_witness :
  val demo_sig ^ 65537 mod val demo_n = val (expected demo_hash) /\
  rsa_verify_pkcs1_v15 rsa_fuel demo_hash demo_sig demo_n 65537 = Some 0.
Proof.
  destruct (rsa_verify_wrong_power rsa_fuel demo_hash demo_sig demo_n 65537) as (_ & _ & H);
    [apply bytes_check_ok; by vm_compute..|by vm_compute|exact rsa_fuel_ok|].
  apply H; [reflexivity|by vm_compute|by vm_compute].
Defined.
