(* ===== verification/Csprng.v ===== *)
(** * The random generator: kernel/net/csprng.c and kernel/net/entropy.c

    AES-256, the generator in counter mode over it, the collection of entropy and
    the pool the interrupt handlers fill.  The hardware's random numbers, the
    clocks and the address on the stack are arguments. *)

From S2P Require Import Prelude Bignum.
From Stdlib Require Import Btauto.

(** ** AES-256 *)

Definition aes_sbox : list Z :=
  [0x63;0x7c;0x77;0x7b;0xf2;0x6b;0x6f;0xc5;0x30;0x01;0x67;0x2b;0xfe;0xd7;0xab;0x76;
   0xca;0x82;0xc9;0x7d;0xfa;0x59;0x47;0xf0;0xad;0xd4;0xa2;0xaf;0x9c;0xa4;0x72;0xc0;
   0xb7;0xfd;0x93;0x26;0x36;0x3f;0xf7;0xcc;0x34;0xa5;0xe5;0xf1;0x71;0xd8;0x31;0x15;
   0x04;0xc7;0x23;0xc3;0x18;0x96;0x05;0x9a;0x07;0x12;0x80;0xe2;0xeb;0x27;0xb2;0x75;
   0x09;0x83;0x2c;0x1a;0x1b;0x6e;0x5a;0xa0;0x52;0x3b;0xd6;0xb3;0x29;0xe3;0x2f;0x84;
   0x53;0xd1;0x00;0xed;0x20;0xfc;0xb1;0x5b;0x6a;0xcb;0xbe;0x39;0x4a;0x4c;0x58;0xcf;
   0xd0;0xef;0xaa;0xfb;0x43;0x4d;0x33;0x85;0x45;0xf9;0x02;0x7f;0x50;0x3c;0x9f;0xa8;
   0x51;0xa3;0x40;0x8f;0x92;0x9d;0x38;0xf5;0xbc;0xb6;0xda;0x21;0x10;0xff;0xf3;0xd2;
   0xcd;0x0c;0x13;0xec;0x5f;0x97;0x44;0x17;0xc4;0xa7;0x7e;0x3d;0x64;0x5d;0x19;0x73;
   0x60;0x81;0x4f;0xdc;0x22;0x2a;0x90;0x88;0x46;0xee;0xb8;0x14;0xde;0x5e;0x0b;0xdb;
   0xe0;0x32;0x3a;0x0a;0x49;0x06;0x24;0x5c;0xc2;0xd3;0xac;0x62;0x91;0x95;0xe4;0x79;
   0xe7;0xc8;0x37;0x6d;0x8d;0xd5;0x4e;0xa9;0x6c;0x56;0xf4;0xea;0x65;0x7a;0xae;0x08;
   0xba;0x78;0x25;0x2e;0x1c;0xa6;0xb4;0xc6;0xe8;0xdd;0x74;0x1f;0x4b;0xbd;0x8b;0x8a;
   0x70;0x3e;0xb5;0x66;0x48;0x03;0xf6;0x0e;0x61;0x35;0x57;0xb9;0x86;0xc1;0x1d;0x9e;
   0xe1;0xf8;0x98;0x11;0x69;0xd9;0x8e;0x94;0x9b;0x1e;0x87;0xe9;0xce;0x55;0x28;0xdf;
   0x8c;0xa1;0x89;0x0d;0xbf;0xe6;0x42;0x68;0x41;0x99;0x2d;0x0f;0xb0;0x54;0xbb;0x16].

Definition xtime (x : Z) : Z := Z.lxor (u8 (Z.shiftl x 1)) (Z.shiftr x 7 * 0x1b).

Definition sub_bytes (s : list Z) : list Z := (fun x => aes_sbox.[x]) <$> s.

(** "a[i] ^= b[i]" *)
Definition xor_bytes (a b : list Z) : list Z := zip_with Z.lxor a b.

Definition rot_word (t : list Z) : list Z := [t.[1]; t.[2]; t.[3]; t.[0]].

(** "t[0] ^= 0x01 << ((wn / 8 - 1) & 7)" *)
Definition xor_rcon (wn : Z) (t : list Z) : list Z :=
  t.[0 <- Z.lxor t.[0] (u8 (Z.shiftl 1 (Z.land (wn / 8 - 1) 7)))].

Definition next_word (wn : Z) (t : list Z) : list Z :=
  if wn mod 8 =? 0 then xor_rcon wn (sub_bytes (rot_word t))
  else if wn mod 4 =? 0 then sub_bytes t
  else t.

(** One word of the key schedule, appended to the words before it. *)
Definition expand_word (wn : Z) (round_keys : list Z) : list Z :=
  let i := 4 * wn in
  let t := next_word wn (take 4 (drop (Z.to_nat (i - 4)) round_keys)) in
  round_keys ++ xor_bytes (take 4 (drop (Z.to_nat (i - 32)) round_keys)) t.

Definition aes256_key_expansion (key : list Z) : list Z := for_each expand_word 52 8 key.

Definition shift_rows (s : list Z) : list Z :=
  let t := s.[1] in
  let s := s.[1 <- s.[5]] in let s := s.[5 <- s.[9]] in let s := s.[9 <- s.[13]] in let s := s.[13 <- t] in
  let t := s.[2] in let s := s.[2 <- s.[10]] in let s := s.[10 <- t] in
  let t := s.[6] in let s := s.[6 <- s.[14]] in let s := s.[14 <- t] in
  let t := s.[15] in
  let s := s.[15 <- s.[11]] in let s := s.[11 <- s.[7]] in let s := s.[7 <- s.[3]] in s.[3 <- t].

(** One column. *)
Definition mix_column (a0 a1 a2 a3 : Z) : list Z :=
  [Z.lxor (Z.lxor (Z.lxor (Z.lxor (xtime a0) (xtime a1)) a1) a2) a3;
   Z.lxor (Z.lxor (Z.lxor (Z.lxor a0 (xtime a1)) (xtime a2)) a2) a3;
   Z.lxor (Z.lxor (Z.lxor (Z.lxor a0 a1) (xtime a2)) (xtime a3)) a3;
   Z.lxor (Z.lxor (Z.lxor (Z.lxor (xtime a0) a0) a1) a2) (xtime a3)].

(** "for (c = 0; c < 4; c++)" *)
Fixpoint mix_columns (s : list Z) : list Z :=
  match s with
  | a0 :: a1 :: a2 :: a3 :: s => mix_column a0 a1 a2 a3 ++ mix_columns s
  | _ => []
  end.

Definition round_key (round_keys : list Z) (round : Z) : list Z := take 16 (drop (Z.to_nat (round * 16)) round_keys).

Definition aes_round (round_keys : list Z) (round : Z) (state : list Z) : list Z :=
  let state := shift_rows (sub_bytes state) in
  let state := if round <? 14 then mix_columns state else state in
  xor_bytes state (round_key round_keys round).

Definition aes256_encrypt_block (input round_keys : list Z) : list Z :=
  for_each (aes_round round_keys) 14 1 (xor_bytes input (round_key round_keys 0)).

(** ** The generator *)

(** "for (i = 15; i >= 0; i--) if (++v[i] != 0) break": the bytes and whether all wrapped. *)
Fixpoint increment (v : list Z) : list Z * bool :=
  match v with
  | [] => ([], true)
  | x :: v =>
      let '(v, carry) := increment v in
      if carry then (u8 (x + 1) :: v, u8 (x + 1) =? 0) else (x :: v, false)
  end.

Definition increment_counter (v : list Z) : list Z := (increment v).1.

Definition RESEED_BYTES : Z := 1024 * 1024.
Definition RESEED_MS : Z := 60000.

Record drbg := mkDrbg {
  drbg_key : list Z; drbg_v : list Z; reseed_counter : Z; last_reseed_ms : Z; initialized : bool }.

Definition with_key (s : drbg) (k v : list Z) : drbg := mkDrbg k v (reseed_counter s) (last_reseed_ms s) (initialized s).
Definition set_counter (s : drbg) (c : Z) : drbg := mkDrbg (drbg_key s) (drbg_v s) c (last_reseed_ms s) (initialized s).

Definition drbg_generate_block (s : drbg) : drbg * list Z :=
  let v := increment_counter (drbg_v s) in
  (with_key s (drbg_key s) v, aes256_encrypt_block v (aes256_key_expansion (drbg_key s))).

(** "for (i = 0; i < n; i++)": blocks one after the other. *)
Fixpoint generate_blocks (n : nat) (s : drbg) : drbg * list Z :=
  match n with
  | O => (s, [])
  | S n =>
      let '(s, block) := drbg_generate_block s in
      let '(s, rest) := generate_blocks n s in (s, block ++ rest)
  end.

Definition drbg_update (s : drbg) (provided_data : list Z) : drbg :=
  let '(s, temp) := generate_blocks 3 s in
  let k := xor_bytes (drbg_key s) (take 32 provided_data) in
  let v := xor_bytes (drbg_v s) (drop 32 provided_data) in
  with_key s (xor_bytes k (take 32 temp)) (xor_bytes v (drop 32 temp)).

Definition drbg_instantiate (s : drbg) (entropy : list Z) : drbg :=
  drbg_update (with_key s (replicate 32 0) (replicate 16 0)) entropy.

(** [now] is timer_get_ms. *)
Definition drbg_reseed_internal (s : drbg) (entropy : list Z) (now : Z) : drbg :=
  let s := drbg_update s entropy in mkDrbg (drbg_key s) (drbg_v s) 0 now (initialized s).

Definition csprng_init (s : drbg) (entropy : list Z) (now : Z) : drbg :=
  let s := drbg_instantiate s entropy in mkDrbg (drbg_key s) (drbg_v s) 0 now true.

Definition csprng_reseed := drbg_reseed_internal.

(** "while (remaining > 0)": [fuel] bounds the blocks. *)
Fixpoint generate_loop (fuel : nat) (s : drbg) (remaining : Z) : option (drbg * list Z) :=
  if remaining <=? 0 then Some (s, [])
  else
    match fuel with
    | O => None
    | S fuel =>
        let '(s, block) := drbg_generate_block s in
        let chunk := if remaining <? 16 then remaining else 16 in
        let s := set_counter s (u64 (reseed_counter s + chunk)) in
        '(s, out) ← generate_loop fuel s (remaining - chunk);
        Some (s, take (Z.to_nat chunk) block ++ out)
    end.

(** What one call reads of its surroundings: the entropy and the time if it has to
    initialise, the time of the call, and both again if it has to reseed. *)
Record surroundings := mkSur {
  init_entropy : list Z; init_now : Z; now : Z; reseed_entropy : list Z; reseed_now : Z }.

(** The state in which the bytes are generated. *)
Definition prepare (s : drbg) (e : surroundings) : drbg :=
  let s := if negb (initialized s) then csprng_init s (init_entropy e) (init_now e) else s in
  if (RESEED_BYTES <=? reseed_counter s) || (RESEED_MS <=? u64 (now e - last_reseed_ms s))
  then csprng_reseed s (reseed_entropy e) (reseed_now e) else s.

Definition csprng_generate (fuel : nat) (s : drbg) (e : surroundings) (len : Z) : option (drbg * list Z) :=
  '(s, out) ← generate_loop fuel (prepare s e) len;
  let '(s, update_data) := generate_blocks 3 s in
  Some (drbg_update s update_data, out).

(** ** Entropy *)

Definition ENTROPY_SLOTS : Z := 16.

(** The pool and the rotating slot. *)
Definition entropy_mix_irq (pool : list Z) (slot irq_num tsc_delta : Z) : list Z * Z :=
  let slot := Z.land (slot + 1) (ENTROPY_SLOTS - 1) in
  (pool.[slot <- Z.lxor pool.[slot] (Z.lxor (Z.lxor tsc_delta (u64 (Z.shiftl (u64 irq_num) 48))) (u64 (Z.shiftl slot 32)))], slot).

Fixpoint le_bytes (n : nat) (v : Z) : list Z :=
  match n with O => [] | S n => Z.land v 0xFF :: le_bytes n (Z.shiftr v 8) end.

Fixpoint le_value (l : list Z) : Z :=
  match l with [] => 0 | x :: l => x + 256 * le_value l end.

(** What a slot adds to each accumulator. *)
Definition fold_slot (v : Z) : list Z :=
  [v; Z.lxor (Z.shiftr v 3) (u64 (Z.shiftl v 5)); Z.lxor (Z.shiftr v 11) (u64 (Z.shiftl v 13));
   Z.lxor (Z.shiftr v 17) (u64 (Z.shiftl v 15)); Z.lxor (Z.shiftr v 23) (u64 (Z.shiftl v 9));
   Z.lxor (Z.shiftr v 29) (u64 (Z.shiftl v 19))].

Definition accumulate (pool : list Z) : list Z :=
  foldl (fun acc v => xor_bytes acc (fold_slot v)) (replicate 6 0) pool.

(** The first [len] of the 48 bytes of the accumulators, then zeros. *)
Definition entropy_drain (pool : list Z) (len : Z) : list Z :=
  let out := take (Z.to_nat len) (accumulate pool ≫= le_bytes 8) in
  out ++ replicate (Z.to_nat len - length out) 0.

(** A number and whether the instruction delivered it. *)
Definition hw : Type := Z * bool.

(** Also says whether the hardware delivered at least six words. *)
Definition collect_entropy (rdrand : list hw) (has_rdseed : bool) (rdseed : list hw) (pool : list Z) (tsc ms sp : Z) : list Z * bool :=
  let buf := rdrand.*1 in
  let have_hw := len (filter (fun r : hw => r.2 = true) rdrand) in
  let buf := if has_rdseed
    then imap (fun i b => match rdseed !! i with Some (seed, true) => Z.lxor b seed | _ => b end) buf else buf in
  let pool_bytes := entropy_drain pool 48 in
  let buf := imap (fun i b => Z.lxor b (le_value (take 4 (drop (4 * i) pool_bytes)))) buf in
  let buf := if have_hw <? 6
    then imap (fun i b => Z.lxor b (Z.lxor (Z.lxor (Z.lxor (u32 (Z.shiftr tsc (Z.of_nat i * 5))) (u32 (Z.shiftl ms (Z.of_nat i)))) sp)
                            (u32 (Z.of_nat i * 0x61C88647)))) buf else buf in
  (buf ≫= le_bytes 4, 6 <=? have_hw).

(** ** Bytes *)

Definition is_byte (x : Z) : Prop := 0 <= x < 256.

Lemma is_byte_lxor x y : is_byte x -> is_byte y -> is_byte (Z.lxor x y).
Proof.
  unfold is_byte. intros Hx Hy. assert (0 <= Z.lxor x y) by (apply Z.lxor_nonneg; lia). split; [done|].
  apply (word_of_bits 8); [lia|done|]. intros i Hi. by rewrite Z.lxor_spec, !(testbit_high 8) by lia.
Qed.

(** A test on all bytes, by evaluation. *)
Lemma all_bytes (f : Z -> bool) : forallb f (seqZ 0 256) = true -> forall x, is_byte x -> f x = true.
Proof. intros H x Hx. rewrite forallb_forall in H. apply H, list_elem_of_In, elem_of_seqZ. unfold is_byte in Hx. lia. Qed.

Lemma is_byte_xtime x : is_byte x -> is_byte (xtime x).
Proof.
  intros Hx. apply (all_bytes (fun x => (0 <=? xtime x) && (xtime x <? 256))) in Hx; [unfold is_byte; lia|by vm_compute].
Qed.

Create HintDb aes.
#[local] Hint Resolve is_byte_lxor is_byte_xtime : aes.

Definition xtime_linear (x : Z) : bool :=
  forallb (fun y => xtime (Z.lxor x y) =? Z.lxor (xtime x) (xtime y)) (seqZ 0 256).

Lemma xtime_lxor x y : is_byte x -> is_byte y -> xtime (Z.lxor x y) = Z.lxor (xtime x) (xtime y).
Proof.
  intros Hx Hy. assert (forallb xtime_linear (seqZ 0 256) = true) as H by by vm_compute.
  pose proof (all_bytes xtime_linear H x Hx) as H'. unfold xtime_linear in H'.
  exact (proj1 (Z.eqb_eq _ _) (all_bytes _ H' y Hy)).
Qed.

(** Equality of two sums of the same terms. *)
Ltac xor_eq := apply Z.bits_inj; intros ?i; rewrite ?Z.lxor_spec;
  repeat match goal with |- context [Z.testbit ?a ?i] => generalize (Z.testbit a i); intros ?b end; btauto.

(** ** The columns

    Mixing four times gives the column back. *)

Lemma mix_column_twice a0 a1 a2 a3 :
  is_byte a0 -> is_byte a1 -> is_byte a2 -> is_byte a3 ->
  let q := xtime (xtime (Z.lxor a0 a2)) in let r := xtime (xtime (Z.lxor a1 a3)) in
  mix_columns (mix_column a0 a1 a2 a3) = [Z.lxor a0 q; Z.lxor a1 r; Z.lxor a2 q; Z.lxor a3 r].
Proof.
  intros H0 H1 H2 H3. cbv zeta. unfold mix_column. cbn [mix_columns]. unfold mix_column. cbn [app].
  rewrite !xtime_lxor by eauto 10 with aes. do 4 (apply (f_equal2 cons); [xor_eq|]). reflexivity.
Qed.

Lemma mix_app l s : length l = 4%nat -> mix_columns (l ++ s) = mix_columns l ++ mix_columns s.
Proof. intros H. do 5 (destruct l as [|? l]; [done|]). done. Qed.

(** A state of [n] columns, one at a time. *)
Lemma columns_ind (P : list Z -> Prop) :
  P [] ->
  (forall a0 a1 a2 a3 s, is_byte a0 -> is_byte a1 -> is_byte a2 -> is_byte a3 -> P s -> P (a0 :: a1 :: a2 :: a3 :: s)) ->
  forall n s, bytes (4 * n) s -> P s.
Proof.
  intros P0 P4 n. induction n as [|n IH]; intros s Hs.
  { destruct Hs as [?%nil_length_inv _]. by subst. }
  replace (4 * S n)%nat with (S (S (S (S (4 * n)))))%nat in Hs by lia.
  do 4 (destruct s as [|? s]; [by destruct Hs|]; apply bytes_cons in Hs as [? Hs]). apply P4; auto.
Qed.

Lemma bytes_push n x l : is_byte x -> bytes n l -> bytes (S n) (x :: l).
Proof. intros. by apply bytes_cons. Qed.
#[local] Hint Resolve bytes_push : aes.

Lemma mix_bytes n s : bytes (4 * n) s -> bytes (4 * n) (mix_columns s).
Proof.
  intros Hs. enough (bytes (length s) (mix_columns s)) as H by (by destruct Hs as [<- _]).
  revert n s Hs. apply columns_ind; [done|]. intros a0 a1 a2 a3 s H0 H1 H2 H3 IH.
  cbn [mix_columns mix_column app length]. do 4 (apply bytes_push; [eauto 10 with aes|]). exact IH.
Qed.

Lemma mix_four n s : bytes (4 * n) s -> mix_columns (mix_columns (mix_columns (mix_columns s))) = s.
Proof.
  revert n s. apply columns_ind; [done|]. intros a0 a1 a2 a3 s H0 H1 H2 H3 IH.
  change (mix_columns (a0 :: a1 :: a2 :: a3 :: s)) with (mix_column a0 a1 a2 a3 ++ mix_columns s).
  rewrite mix_app, mix_column_twice by done.
  set (q := xtime (xtime (Z.lxor a0 a2))). set (r := xtime (xtime (Z.lxor a1 a3))).
  assert (is_byte q /\ is_byte r) as [Hq Hr] by (unfold q, r; eauto 10 with aes).
  change (mix_columns ([Z.lxor a0 q; Z.lxor a1 r; Z.lxor a2 q; Z.lxor a3 r] ++ mix_columns (mix_columns s)))
    with (mix_column (Z.lxor a0 q) (Z.lxor a1 r) (Z.lxor a2 q) (Z.lxor a3 r) ++ mix_columns (mix_columns (mix_columns s))).
  rewrite mix_app, mix_column_twice, IH by eauto with aes.
  assert (Hc : forall x y z, Z.lxor (Z.lxor x z) (Z.lxor y z) = Z.lxor x y) by (intros; xor_eq). rewrite !Hc. fold q r.
  assert (Hc' : forall x z, Z.lxor (Z.lxor x z) z = x) by (intros; xor_eq). by rewrite !Hc'.
Qed.

(** ** The block cipher is injective *)

Lemma xor_cancel a k : length a = length k -> xor_bytes (xor_bytes a k) k = a.
Proof.
  revert k. induction a as [|x a IH]; intros [|y k] H; try done. simpl. f_equal; [xor_eq|]. apply IH. by injection H.
Qed.

Lemma xor_bytes_ok n a b : bytes n a -> bytes n b -> bytes n (xor_bytes a b).
Proof.
  revert a b. induction n as [|n IH]; intros [|x a] [|y b] Ha Hb; try (by destruct Ha); try (by destruct Hb).
  apply bytes_cons in Ha as [Hx Ha]. apply bytes_cons in Hb as [Hy Hb].
  apply bytes_push; [by apply is_byte_lxor|by apply IH].
Qed.

Lemma xor_inj n k a b : bytes n k -> bytes n a -> bytes n b -> xor_bytes a k = xor_bytes b k -> a = b.
Proof.
  intros [Hk _] [Ha _] [Hb _] E. rewrite <- (xor_cancel a k), <- (xor_cancel b k) by congruence. by rewrite E.
Qed.

Lemma sbox_byte x : is_byte x -> is_byte aes_sbox.[x].
Proof.
  intros Hx. assert (forallb (fun x => (0 <=? aes_sbox.[x]) && (aes_sbox.[x] <? 256)) (seqZ 0 256) = true) as H by by vm_compute.
  pose proof (all_bytes _ H x Hx) as H'. cbv beta in H'. unfold is_byte. lia.
Qed.
#[local] Hint Resolve sbox_byte : aes.

Lemma sbox_inj x y : is_byte x -> is_byte y -> aes_sbox.[x] = aes_sbox.[y] -> x = y.
Proof.
  unfold is_byte. intros Hx Hy E. assert (NoDup aes_sbox) as Hn by (apply (bool_decide_unpack _); by vm_compute).
  assert (len aes_sbox = 256) as Hl by done.
  pose proof (geti_lookup aes_sbox x ltac:(lia)) as Lx. pose proof (geti_lookup aes_sbox y ltac:(lia)) as Ly. rewrite E in Lx.
  pose proof (NoDup_lookup _ _ _ _ Hn Lx Ly). lia.
Qed.

Lemma sub_bytes_ok n s : bytes n s -> bytes n (sub_bytes s).
Proof.
  intros [<- Hs]. split; [apply length_fmap|]. apply Forall_fmap. exact (List.Forall_impl _ sbox_byte Hs).
Qed.

Lemma sub_inj n a b : bytes n a -> bytes n b -> sub_bytes a = sub_bytes b -> a = b.
Proof.
  revert a b. induction n as [|n IH]; intros [|x a] [|y b] Ha Hb; try (by destruct Ha); try (by destruct Hb).
  apply bytes_cons in Ha as [Hx Ha]. apply bytes_cons in Hb as [Hy Hb]. intros [= E1 E2].
  f_equal; [by apply sbox_inj|by apply IH].
Qed.

(** The rows shifted, written out. *)
Lemma shift_rows_list s0 s1 s2 s3 s4 s5 s6 s7 s8 s9 s10 s11 s12 s13 s14 s15 :
  shift_rows [s0;s1;s2;s3;s4;s5;s6;s7;s8;s9;s10;s11;s12;s13;s14;s15] =
  [s0;s5;s10;s15;s4;s9;s14;s3;s8;s13;s2;s7;s12;s1;s6;s11].
Proof. reflexivity. Qed.

(** A list of sixteen is written out. *)
Ltac sixteen s := do 16 (destruct s as [|? s]; [done|]); destruct s; [|done].

Lemma shift_ok s : bytes 16 s -> bytes 16 (shift_rows s).
Proof.
  intros [Hl Hs]. sixteen s. rewrite shift_rows_list. split; [done|]. rewrite !List.Forall_cons_iff in *. tauto.
Qed.

Lemma shift_inj a b : length a = 16%nat -> length b = 16%nat -> shift_rows a = shift_rows b -> a = b.
Proof. intros Ha Hb. sixteen a. sixteen b. rewrite !shift_rows_list. intros H. injection H. intros. by subst. Qed.

Lemma round_key_ok rk round : bytes 240 rk -> 0 <= round <= 14 -> bytes 16 (round_key rk round).
Proof. intros Hr Hb. unfold round_key. eapply bytes_take; [apply (bytes_drop 240); exact Hr|]. lia. Qed.

Lemma aes_round_ok rk round s : bytes 240 rk -> 0 <= round <= 14 -> bytes 16 s -> bytes 16 (aes_round rk round s).
Proof.
  intros Hr Hb Hs. unfold aes_round. apply xor_bytes_ok; [|by apply round_key_ok].
  assert (bytes 16 (shift_rows (sub_bytes s))) as H by by apply shift_ok, sub_bytes_ok.
  destruct (round <? 14); [exact (mix_bytes 4 _ H)|exact H].
Qed.

Lemma aes_round_inj rk round a b :
  bytes 240 rk -> 0 <= round <= 14 -> bytes 16 a -> bytes 16 b -> aes_round rk round a = aes_round rk round b -> a = b.
Proof.
  intros Hr Hround Ha Hb. pose proof (sub_bytes_ok _ _ Ha) as Ha1. pose proof (sub_bytes_ok _ _ Hb) as Hb1.
  pose proof (shift_ok _ Ha1) as Ha2. pose proof (shift_ok _ Hb1) as Hb2. unfold aes_round. intros E.
  apply (sub_inj 16); [done..|]. apply shift_inj; [apply Ha1|apply Hb1|]. destruct (round <? 14).
  - apply (xor_inj 16) in E; [|by apply round_key_ok|exact (mix_bytes 4 _ Ha2)|exact (mix_bytes 4 _ Hb2)].
    rewrite <- (mix_four 4 _ Ha2), <- (mix_four 4 _ Hb2). by rewrite E.
  - apply (xor_inj 16) in E; [done|by apply round_key_ok|done|done].
Qed.

Lemma rounds_inj rk n i a b :
  bytes 240 rk -> 0 <= i -> i + Z.of_nat n <= 15 -> bytes 16 a -> bytes 16 b ->
  for_each (aes_round rk) n i a = for_each (aes_round rk) n i b -> a = b.
Proof.
  intros Hr. revert i a b. induction n as [|n IH]; intros i a b Hi Hn Ha Hb E; [done|]. cbn [for_each] in E.
  apply IH in E; [by apply (aes_round_inj rk i) in E; [|done|lia|..]|lia|lia|apply aes_round_ok; [done|lia|done]..].
Qed.

Lemma rounds_ok rk n i s :
  bytes 240 rk -> 0 <= i -> i + Z.of_nat n <= 15 -> bytes 16 s -> bytes 16 (for_each (aes_round rk) n i s).
Proof.
  intros Hr Hi Hn Hs. apply (for_each_ind _ (fun _ s => bytes 16 s)); [done|]. intros j t Hj Ht. apply aes_round_ok; [done|lia|done].
Qed.

(** The kernel unfolds the loop last. *)
Local Strategy 1000 [for_each].

Lemma encrypt_ok rk s : bytes 240 rk -> bytes 16 s -> bytes 16 (aes256_encrypt_block s rk).
Proof.
  intros Hr Hs. apply rounds_ok; [done|lia|lia|]. apply xor_bytes_ok; [done|]. apply round_key_ok; [done|lia].
Qed.

Lemma encrypt_inj rk a b :
  bytes 240 rk -> bytes 16 a -> bytes 16 b -> aes256_encrypt_block a rk = aes256_encrypt_block b rk -> a = b.
Proof.
  intros Hr Ha Hb E. assert (bytes 16 (round_key rk 0)) as H0 by (apply round_key_ok; [done|lia]).
  refine (xor_inj 16 (round_key rk 0) a b H0 Ha Hb (rounds_inj rk 14 1 _ _ Hr _ _ _ _ E)); [lia|lia|by apply xor_bytes_ok..].
Qed.

(** ** The key schedule *)

Lemma word_at_ok n k rk : bytes n rk -> (4 * (k + 1) <= n)%nat -> bytes 4 (take 4 (drop (4 * k) rk)).
Proof. intros H Hk. eapply bytes_take; [apply bytes_drop, H|lia]. Qed.

Lemma byte_at n l i : bytes n l -> 0 <= i < Z.of_nat n -> is_byte l.[i].
Proof. intros [<- Hl] Hi. exact (proj1 (Forall_lookup _ _) Hl _ _ (geti_lookup l i Hi)). Qed.

Lemma rot_word_ok t : bytes 4 t -> bytes 4 (rot_word t).
Proof. intros Ht. do 4 (apply bytes_push; [apply (byte_at 4); [exact Ht|lia]|]). exact bytes_nil. Qed.

Lemma xor_rcon_ok wn t : bytes 4 t -> bytes 4 (xor_rcon wn t).
Proof.
  intros Ht. unfold xor_rcon, seti. split; [rewrite length_insert; apply Ht|]. apply Forall_insert; [apply Ht|].
  apply is_byte_lxor; [|apply wrap_range; lia]. apply (byte_at 4); [exact Ht|lia].
Qed.

Lemma next_word_ok wn t : bytes 4 t -> bytes 4 (next_word wn t).
Proof.
  intros Ht. unfold next_word. destruct (wn mod 8 =? 0); [exact (xor_rcon_ok wn _ (sub_bytes_ok 4 _ (rot_word_ok _ Ht)))|].
  destruct (wn mod 4 =? 0); [exact (sub_bytes_ok 4 _ Ht)|exact Ht].
Qed.

Lemma expand_word_ok wn rk : (8 <= wn)%nat -> bytes (4 * wn) rk -> bytes (4 * (wn + 1)) (expand_word (Z.of_nat wn) rk).
Proof.
  intros Hw Hr. replace (4 * (wn + 1))%nat with (4 * wn + 4)%nat by lia. unfold expand_word.
  apply bytes_app; [done|]. apply xor_bytes_ok.
  - replace (Z.to_nat (4 * Z.of_nat wn - 32)) with (4 * (wn - 8))%nat by lia. eapply word_at_ok; [exact Hr|lia].
  - apply next_word_ok. replace (Z.to_nat (4 * Z.of_nat wn - 4)) with (4 * (wn - 1))%nat by lia. eapply word_at_ok; [exact Hr|lia].
Qed.

Lemma key_expansion_ok key : bytes 32 key -> bytes 240 (aes256_key_expansion key).
Proof.
  intros Hk. unfold aes256_key_expansion.
  assert (forall j s, bytes (Z.to_nat (4 * j)) s -> 8 <= j -> bytes (Z.to_nat (4 * (j + 1))) (expand_word j s)) as H.
  { intros j s Hs Hj. replace (Z.to_nat (4 * (j + 1))) with (4 * (Z.to_nat j + 1))%nat by lia.
    replace j with (Z.of_nat (Z.to_nat j)) at 2 by lia. apply expand_word_ok; [lia|]. by replace (4 * Z.to_nat j)%nat with (Z.to_nat (4 * j)) by lia. }
  apply (for_each_ind expand_word (fun j s => bytes (Z.to_nat (4 * j)) s) 52 8 key Hk).
  intros j s Hj Hs. apply H; [done|lia].
Qed.

(** ** The standard

    AES-256 as FIPS 197 states it: bytes are polynomials modulo
    x^8 + x^4 + x^3 + x + 1, and a state has four rows and four columns, the
    byte in row r and column c at r + 4 c. *)

(** The product of two polynomials, and its remainder. *)
Definition gf_product (a b : Z) : Z :=
  foldl (fun acc i => if Z.testbit b i then Z.lxor acc (Z.shiftl a i) else acc) 0 (seqZ 0 8).

Definition gf_reduce (v : Z) : Z :=
  foldl (fun v i => if Z.testbit v (i + 8) then Z.lxor v (Z.shiftl 0x11b i) else v) v [6; 5; 4; 3; 2; 1; 0].

Definition gmul (a b : Z) : Z := gf_reduce (gf_product a b).

(** The inverse, 0 for 0, and the affine map of its bits. *)
Definition gf_inv (x : Z) : Z := default 0 (find_from (fun y => gmul x y =? 1) 256 0).

Definition affine (b : Z) : Z :=
  foldl (fun acc i =>
    let bit i := Z.testbit b (i mod 8) in
    acc + Z.b2z (xorb (xorb (xorb (xorb (xorb (bit i) (bit (i + 4))) (bit (i + 5))) (bit (i + 6))) (bit (i + 7))) (Z.testbit 0x63 i)) * 2 ^ i)
    0 (seqZ 0 8).

Definition SubBytes (s : list Z) : list Z := (fun x => affine (gf_inv x)) <$> s.

Definition ShiftRows (s : list Z) : list Z :=
  (fun i => let r := i mod 4 in let c := i / 4 in s.[r + 4 * ((c + r) mod 4)]) <$> seqZ 0 16.

Definition MixColumn (s : list Z) : list Z :=
  let m a b c d := Z.lxor (Z.lxor (Z.lxor (gmul a s.[0]) (gmul b s.[1])) (gmul c s.[2])) (gmul d s.[3]) in
  [m 2 3 1 1; m 1 2 3 1; m 1 1 2 3; m 3 1 1 2].

Definition MixColumns (s : list Z) : list Z := [0; 1; 2; 3]%nat ≫= (fun c => MixColumn (take 4 (drop (4 * c) s))).

(** The words of the key schedule. *)
Definition Rcon (j : nat) : list Z := [Nat.iter (j - 1) (gmul 2) 1; 0; 0; 0].

Definition next_temp (i : nat) (temp : list Z) : list Z :=
  if (i mod 8 =? 0)%nat then xor_bytes (SubBytes (drop 1 temp ++ take 1 temp)) (Rcon (i / 8))
  else if (i mod 8 =? 4)%nat then SubBytes temp
  else temp.

Definition KeyExpansion (key : list Z) : list (list Z) :=
  foldl (fun w i => w ++ [xor_bytes (w !!! (i - 8)%nat) (next_temp i (w !!! (i - 1)%nat))])
    ((fun k => take 4 (drop (4 * k) key)) <$> seq 0 8) (seq 8 52).

Definition AddRoundKey (w : list (list Z)) (round : nat) (s : list Z) : list Z :=
  xor_bytes s (concat (take 4 (drop (4 * round) w))).

Definition Cipher (key input : list Z) : list Z :=
  let w := KeyExpansion key in
  let s := foldl (fun s round => AddRoundKey w round (MixColumns (ShiftRows (SubBytes s)))) (AddRoundKey w 0 input) (seq 1 13) in
  AddRoundKey w 14 (ShiftRows (SubBytes s)).

Lemma sbox_spec x : is_byte x -> aes_sbox.[x] = affine (gf_inv x).
Proof.
  intros Hx. assert (forallb (fun x => aes_sbox.[x] =? affine (gf_inv x)) (seqZ 0 256) = true) as H by by vm_compute.
  exact (proj1 (Z.eqb_eq _ _) (all_bytes _ H x Hx)).
Qed.

Lemma sub_bytes_spec n s : bytes n s -> sub_bytes s = SubBytes s.
Proof. intros [_ Hs]. unfold sub_bytes, SubBytes. apply list_fmap_ext. intros i x Hx. apply sbox_spec. exact (proj1 (Forall_lookup _ _) Hs _ _ Hx). Qed.

Lemma shift_rows_spec s : length s = 16%nat -> shift_rows s = ShiftRows s.
Proof. intros H. sixteen s. rewrite shift_rows_list. reflexivity. Qed.

Lemma gmul_small x : is_byte x -> gmul 1 x = x /\ gmul 2 x = xtime x /\ gmul 3 x = Z.lxor (xtime x) x.
Proof.
  intros Hx. assert (forallb (fun x => (gmul 1 x =? x) && (gmul 2 x =? xtime x) && (gmul 3 x =? Z.lxor (xtime x) x)) (seqZ 0 256) = true) as H by by vm_compute.
  pose proof (all_bytes _ H x Hx) as H'. cbv beta in H'. rewrite !andb_true_iff, !Z.eqb_eq in H'. tauto.
Qed.

Lemma MixColumn_spec a0 a1 a2 a3 :
  is_byte a0 -> is_byte a1 -> is_byte a2 -> is_byte a3 -> MixColumn [a0; a1; a2; a3] = mix_column a0 a1 a2 a3.
Proof.
  intros H0 H1 H2 H3. unfold MixColumn. cbv zeta.
  change ([a0; a1; a2; a3].[0]) with a0. change ([a0; a1; a2; a3].[1]) with a1.
  change ([a0; a1; a2; a3].[2]) with a2. change ([a0; a1; a2; a3].[3]) with a3.
  pose proof (gmul_small a0 H0) as (-> & -> & ->). pose proof (gmul_small a1 H1) as (-> & -> & ->).
  pose proof (gmul_small a2 H2) as (-> & -> & ->). pose proof (gmul_small a3 H3) as (-> & -> & ->).
  unfold mix_column. do 4 (apply (f_equal2 cons); [xor_eq|]). reflexivity.
Qed.

Lemma MixColumns_spec s : bytes 16 s -> mix_columns s = MixColumns s.
Proof.
  intros [Hl Hs]. sixteen s. rewrite !List.Forall_cons_iff in Hs.
  change (MixColumns [z; z0; z1; z2; z3; z4; z5; z6; z7; z8; z9; z10; z11; z12; z13; z14])
    with (MixColumn [z; z0; z1; z2] ++ MixColumn [z3; z4; z5; z6] ++ MixColumn [z7; z8; z9; z10] ++ MixColumn [z11; z12; z13; z14] ++ []).
  rewrite !MixColumn_spec by (unfold is_byte; tauto). reflexivity.
Qed.

Lemma drop_words w k : Forall (bytes 4) w -> drop (4 * k) (concat w) = concat (drop k w).
Proof.
  intros Hw. revert k. induction Hw as [|x w Hx _ IH]; intros k; [cbn [concat]; by rewrite !drop_nil|].
  destruct k as [|k]; [done|]. replace (4 * S k)%nat with (length x + 4 * k)%nat by (destruct Hx; lia).
  cbn [concat]. rewrite <- drop_drop, drop_app_length. exact (IH k).
Qed.

Lemma take_words w k : Forall (bytes 4) w -> take (4 * k) (concat w) = concat (take k w).
Proof.
  intros Hw. revert k. induction Hw as [|x w Hx _ IH]; intros k; [cbn [concat]; by rewrite !take_nil|].
  destruct k as [|k]; [done|]. replace (4 * S k)%nat with (length x + 4 * k)%nat by (destruct Hx; lia).
  cbn [concat]. rewrite take_app_add, IH. reflexivity.
Qed.

Lemma word_of w k : Forall (bytes 4) w -> (k < length w)%nat -> take 4 (drop (4 * k) (concat w)) = w !!! k.
Proof.
  intros Hw Hk. rewrite drop_words by done. etrans; [exact (take_words (drop k w) 1 (Forall_drop _ k w Hw))|].
  destruct (lookup_lt_is_Some_2 w k Hk) as [x Ex]. rewrite (drop_S _ _ _ Ex). simpl. rewrite app_nil_r.
  by rewrite (list_lookup_total_correct _ _ _ Ex).
Qed.

Lemma words_length w : Forall (bytes 4) w -> length (concat w) = (4 * length w)%nat.
Proof. induction 1 as [|x w Hx _ IH]; [done|]. simpl. rewrite length_app, IH. destruct Hx. lia. Qed.

Lemma next_word_spec n t : (8 <= n < 60)%nat -> bytes 4 t -> next_word (Z.of_nat n) t = next_temp n t.
Proof.
  intros Hn Ht. unfold next_word, next_temp.
  assert (Z.of_nat n mod 8 = Z.of_nat (n mod 8)) as E by (rewrite Nat2Z.inj_mod; done).
  replace (Z.of_nat n mod 8 =? 0) with (n mod 8 =? 0)%nat by (apply eq_true_iff_eq; rewrite Nat.eqb_eq, Z.eqb_eq; lia).
  destruct (n mod 8 =? 0)%nat eqn:E8.
  - pose proof (rot_word_ok t Ht) as Hr. rewrite (sub_bytes_spec 4) by done.
    assert (rot_word t = drop 1 t ++ take 1 t) as Er by (destruct Ht as [Hl _]; do 4 (destruct t as [|? t]; [done|]); by destruct t).
    rewrite <- Er. unfold xor_rcon, Rcon.
    assert (exists a b c d, SubBytes (rot_word t) = [a; b; c; d]) as (a & b & c & d & ->) by by eexists _, _, _, _.
    change ([a; b; c; d].[0]) with a. cbn [xor_bytes zip_with]. rewrite !Z.lxor_0_r.
    change ([a; b; c; d].[0 <- ?x]) with [x; b; c; d]. do 2 f_equal.
    assert (n / 8 < 8)%nat as Hd by (apply Nat.Div0.div_lt_upper_bound; lia).
    assert (1 <= n / 8)%nat as Hd' by (apply Nat.div_le_lower_bound; lia).
    replace (Z.of_nat n / 8) with (Z.of_nat (n / 8)) by (rewrite Nat2Z.inj_div; done).
    generalize dependent (n / 8)%nat. intros k Hk Hk'. do 8 (destruct k as [|k]; [try lia; by vm_compute|]). lia.
  - replace (Z.of_nat n mod 4 =? 0) with (n mod 8 =? 4)%nat; [|apply eq_true_iff_eq; rewrite Nat.eqb_eq, Z.eqb_eq; apply Nat.eqb_neq in E8; split; intros; zlia].
    destruct (n mod 8 =? 4)%nat; [by apply (sub_bytes_spec 4)|done].
Qed.

(** The words so far. *)
Definition schedule (n : nat) (w : list (list Z)) (rk : list Z) : Prop := length w = n /\ Forall (bytes 4) w /\ concat w = rk.

Lemma schedule_step n w rk :
  (8 <= n < 60)%nat -> schedule n w rk ->
  schedule (S n) (w ++ [xor_bytes (w !!! (n - 8)%nat) (next_temp n (w !!! (n - 1)%nat))]) (expand_word (Z.of_nat n) rk).
Proof.
  intros Hn (Hl & Hw & <-). unfold expand_word. cbv zeta.
  replace (Z.to_nat (4 * Z.of_nat n - 4)) with (4 * (n - 1))%nat by lia.
  replace (Z.to_nat (4 * Z.of_nat n - 32)) with (4 * (n - 8))%nat by lia. rewrite !word_of by (done || lia).
  assert (forall k, (k < n)%nat -> bytes 4 (w !!! k)) as Hb.
  { intros k Hk. destruct (lookup_lt_is_Some_2 w k ltac:(lia)) as [x Ex]. rewrite (list_lookup_total_correct _ _ _ Ex).
    exact (proj1 (Forall_lookup _ _) Hw _ _ Ex). }
  pose proof (Hb (n - 1)%nat ltac:(lia)) as H1. pose proof (next_word_ok (Z.of_nat n) _ H1) as H2.
  rewrite (next_word_spec n) in * by done. split; [rewrite length_app; simpl; lia|]. split.
  - apply Forall_app. split; [done|]. constructor; [|done]. apply xor_bytes_ok; [apply Hb; lia|done].
  - rewrite concat_app. simpl. by rewrite app_nil_r.
Qed.

Lemma schedule_loop k n w rk :
  (8 <= n)%nat -> (n + k <= 60)%nat -> schedule n w rk ->
  schedule (n + k) (foldl (fun w i => w ++ [xor_bytes (w !!! (i - 8)%nat) (next_temp i (w !!! (i - 1)%nat))]) w (seq n k))
    (for_each expand_word k (Z.of_nat n) rk).
Proof.
  revert n w rk. induction k as [|k IH]; intros n w rk Hn Hk Hs; simpl; [by rewrite Nat.add_0_r|].
  rewrite Nat.add_succ_r. replace (Z.of_nat n + 1) with (Z.of_nat (S n)) by lia.
  apply (IH (S n)); [lia|lia|]. apply schedule_step; [lia|done].
Qed.

Lemma KeyExpansion_spec key : bytes 32 key -> schedule 60 (KeyExpansion key) (aes256_key_expansion key).
Proof.
  intros Hk. apply (schedule_loop 52 8); [lia|lia|]. split; [done|]. split.
  - apply Forall_fmap, List.Forall_forall. intros k Hin%in_seq. unfold compose. apply (word_at_ok 32); [done|lia].
  - cbn [seq fmap list_fmap concat]. rewrite app_nil_r.
    destruct Hk as [Hl _]. do 32 (destruct key as [|? key]; [done|]). destruct key; done.
Qed.

Lemma round_key_spec key round :
  bytes 32 key -> (round <= 14)%nat ->
  concat (take 4 (drop (4 * round) (KeyExpansion key))) = round_key (aes256_key_expansion key) (Z.of_nat round).
Proof.
  intros Hk Hr. destruct (KeyExpansion_spec key Hk) as (Hl & Hw & <-). unfold round_key.
  replace (Z.to_nat (Z.of_nat round * 16)) with (4 * (4 * round))%nat by lia. rewrite drop_words by done.
  symmetry. exact (take_words _ 4 (Forall_drop _ (4 * round) _ Hw)).
Qed.

Lemma for_each_snoc {S} (body : Z -> S -> S) n i s :
  for_each body (Datatypes.S n) i s = body (i + Z.of_nat n) (for_each body n i s).
Proof.
  revert i s. induction n as [|n IH]; intros i s; [by rewrite Z.add_0_r|].
  change (for_each body (Datatypes.S n) (i + 1) (body i s) = body (i + Z.of_nat (Datatypes.S n)) (for_each body n (i + 1) (body i s))).
  rewrite IH. f_equal. lia.
Qed.

Section cipher.
Context (key : list Z) (Hk : bytes 32 key).
Abbreviation rk := (aes256_key_expansion key).
Abbreviation w := (KeyExpansion key).

Lemma sub_shift_spec s : bytes 16 s -> bytes 16 (shift_rows (sub_bytes s)) /\ shift_rows (sub_bytes s) = ShiftRows (SubBytes s).
Proof.
  intros Hs. pose proof (sub_bytes_ok _ _ Hs) as H1. split; [by apply shift_ok|].
  rewrite shift_rows_spec by apply H1. by rewrite (sub_bytes_spec 16).
Qed.

Lemma round_spec i s :
  (i < 14)%nat -> bytes 16 s -> aes_round rk (Z.of_nat i) s = AddRoundKey w i (MixColumns (ShiftRows (SubBytes s))).
Proof.
  intros Hi Hs. destruct (sub_shift_spec s Hs) as [H1 E]. unfold aes_round, AddRoundKey.
  rewrite (proj2 (Z.ltb_lt _ 14)) by lia. rewrite round_key_spec by (done || lia). by rewrite <- E, MixColumns_spec.
Qed.

Lemma rounds_spec n i s :
  (i + n <= 14)%nat -> bytes 16 s ->
  for_each (aes_round rk) n (Z.of_nat i) s =
  foldl (fun s round => AddRoundKey w round (MixColumns (ShiftRows (SubBytes s)))) s (seq i n).
Proof.
  revert i s. induction n as [|n IH]; intros i s Hn Hs; [done|]. cbn [for_each seq foldl].
  replace (Z.of_nat i + 1) with (Z.of_nat (S i)) by lia. rewrite <- round_spec by (done || lia). apply IH; [lia|].
  apply aes_round_ok; [by apply key_expansion_ok|lia|done].
Qed.

Lemma encrypt_spec input : bytes 16 input -> aes256_encrypt_block input rk = Cipher key input.
Proof.
  intros Hi. pose proof (key_expansion_ok key Hk) as Hrk. unfold aes256_encrypt_block, Cipher. cbv zeta.
  assert (bytes 16 (xor_bytes input (round_key rk 0))) as H0 by (apply xor_bytes_ok; [done|apply round_key_ok; [done|lia]]).
  assert (AddRoundKey w 0 input = xor_bytes input (round_key rk 0)) as ->.
  { unfold AddRoundKey. f_equal. apply (round_key_spec key 0 Hk). lia. }
  rewrite <- (rounds_spec 13 1) by (done || lia). rewrite for_each_snoc.
  change (Z.of_nat 1) with 1. change (1 + Z.of_nat 13) with 14.
  assert (bytes 16 (for_each (aes_round rk) 13 1 (xor_bytes input (round_key rk 0)))) as Hs by (apply rounds_ok; [done|lia|lia|done]).
  generalize dependent (for_each (aes_round rk) 13 1 (xor_bytes input (round_key rk 0))). intros s Hs.
  destruct (sub_shift_spec s Hs) as [H1 E]. unfold aes_round, AddRoundKey. change (14 <? 14) with false. cbv iota zeta. rewrite E. f_equal.
  symmetry. apply (round_key_spec key 14 Hk). lia.
Qed.
End cipher.

Local Strategy 500 [Cipher KeyExpansion aes256_encrypt_block aes256_key_expansion].

(** ** The counter *)

Lemma increment_ok n v :
  bytes n v ->
  bytes n (increment v).1 /\ val (increment v).1 + (if (increment v).2 then base v else 0) = val v + 1.
Proof.
  revert v. induction n as [|n IH]; intros [|x v] Hv; try (by destruct Hv).
  apply bytes_cons in Hv as [Hx Hv]. destruct (IH v Hv) as [Hr E]. cbn [increment]. destruct (increment v) as [r c]. cbn [fst snd] in *.
  assert (base r = base v) as Eb by (apply base_length; destruct Hr as [-> _], Hv as [-> _]; done).
  destruct c; cbn [fst snd val]; rewrite Eb.
  - unfold wrap. change (2 ^ 8) with 256. split; [apply bytes_cons; split; [zlia|done]|]. rewrite base_cons.
    destruct (Z.eqb_spec ((x + 1) mod 256) 0) as [E0|E0].
    + assert (x = 255) as -> by zlia. rewrite E0. lia.
    + rewrite Z.mod_small by zlia. lia.
  - split; [by apply bytes_cons|]. lia.
Qed.

Lemma increment_counter_ok v : bytes 16 v -> increment_counter v = to_bytes 16 (val v + 1).
Proof.
  intros Hv. destruct (increment_ok 16 v Hv) as [Hr E]. destruct (to_bytes_ok 16 (val v + 1)) as [Hb Eb].
  apply (val_inj 16); [done..|]. rewrite Eb. unfold increment_counter. pose proof (val_range _ _ Hr) as R.
  assert (base v = 256 ^ Z.of_nat 16) as B by (destruct Hv as [Hl _]; unfold base; by rewrite Hl).
  assert (base (increment v).1 = 256 ^ Z.of_nat 16) as B' by (destruct Hr as [Hl _]; unfold base; by rewrite Hl).
  rewrite B' in R. rewrite B in E. destruct (increment v).2.
  - apply (Z.mod_unique_pos _ _ 1); lia.
  - rewrite Z.mod_small; lia.
Qed.

(** ** Counter mode *)

(** The cipher of the counter [z]. *)
Definition ctr_block (key : list Z) (z : Z) : list Z := Cipher key (to_bytes 16 z).

(** [n] blocks, from the counter after [z] on. *)
Fixpoint ctr_stream (key : list Z) (z : Z) (n : nat) : list Z :=
  match n with O => [] | S n => ctr_block key (z + 1) ++ ctr_stream key (z + 1) n end.

Definition drbg_ok (s : drbg) : Prop := bytes 32 (drbg_key s) /\ bytes 16 (drbg_v s).

(** The state holds the key and, modulo 2^128, the counter. *)
Definition drbg_at (s : drbg) (key : list Z) (z : Z) : Prop := bytes 32 key /\ drbg_key s = key /\ drbg_v s = to_bytes 16 z.

Lemma drbg_at_ok s key z : drbg_at s key z -> drbg_ok s.
Proof. intros (Hk & <- & Ev). split; [done|]. rewrite Ev. apply to_bytes_ok. Qed.

Lemma drbg_ok_at s : drbg_ok s -> drbg_at s (drbg_key s) (val (drbg_v s)).
Proof.
  intros [Hk Hv]. split; [done|]. split; [done|]. destruct (to_bytes_ok 16 (val (drbg_v s))) as [Hb Eb].
  apply (val_inj 16); [done..|]. rewrite Eb, Z.mod_small; [done|].
  pose proof (val_range _ _ Hv) as R. destruct Hv as [Hl _]. unfold base in R. by rewrite Hl in R.
Qed.

Lemma to_bytes_mod z w : z mod 256 ^ Z.of_nat 16 = w mod 256 ^ Z.of_nat 16 -> to_bytes 16 z = to_bytes 16 w.
Proof.
  intros E. destruct (to_bytes_ok 16 z) as [Hz Ez], (to_bytes_ok 16 w) as [Hw Ew]. apply (val_inj 16); [done..|]. by rewrite Ez, Ew.
Qed.

Lemma generate_block_ok s key z :
  drbg_at s key z ->
  (drbg_generate_block s).2 = ctr_block key (z + 1) /\ length (ctr_block key (z + 1)) = 16%nat /\
  drbg_at (drbg_generate_block s).1 key (z + 1).
Proof.
  intros (Hk & Ek & Ev). destruct (to_bytes_ok 16 z) as [Hb Eb].
  assert (increment_counter (drbg_v s) = to_bytes 16 (z + 1)) as E.
  { rewrite Ev, increment_counter_ok by done. apply to_bytes_mod. rewrite Eb. apply Zplus_mod_idemp_l. }
  unfold drbg_generate_block, ctr_block. cbn [fst snd]. rewrite E, Ek, <- encrypt_spec by (done || apply to_bytes_ok).
  split; [done|]. split; [|by split].
  refine (proj1 (encrypt_ok _ _ (key_expansion_ok key Hk) (proj1 (to_bytes_ok 16 (z + 1))))).
Qed.

Lemma generate_blocks_ok n s key z :
  drbg_at s key z ->
  (generate_blocks n s).2 = ctr_stream key z n /\ drbg_at (generate_blocks n s).1 key (z + Z.of_nat n).
Proof.
  revert s z. induction n as [|n IH]; intros s z Hs; cbn [generate_blocks ctr_stream]; [by rewrite Z.add_0_r|].
  destruct (generate_block_ok s key z Hs) as (E & _ & H1). destruct (drbg_generate_block s) as [s1 b]. cbn [fst snd] in *.
  destruct (IH s1 _ H1) as (E' & H2). destruct (generate_blocks n s1) as [s2 r]. cbn [fst snd] in *. subst. split; [done|].
  replace (z + Z.of_nat (S n)) with (z + 1 + Z.of_nat n) by lia. done.
Qed.

Lemma ctr_block_ok key z : bytes 32 key -> bytes 16 (ctr_block key z).
Proof.
  intros Hk. unfold ctr_block. destruct (to_bytes_ok 16 z) as [Hb _]. rewrite <- encrypt_spec by done.
  exact (encrypt_ok _ _ (key_expansion_ok key Hk) Hb).
Qed.

Lemma ctr_stream_ok key z n : bytes 32 key -> bytes (16 * n) (ctr_stream key z n).
Proof.
  intros Hk. revert z. induction n as [|n IH]; intros z; [done|]. replace (16 * S n)%nat with (16 + 16 * n)%nat by lia.
  apply bytes_app; [by apply ctr_block_ok|apply IH].
Qed.

(** Counters that differ modulo 2^128 have different blocks. *)
Lemma ctr_block_inj key i j : bytes 32 key -> i < j -> j - i < 2 ^ 128 -> ctr_block key i <> ctr_block key j.
Proof.
  intros Hk Hij Hd E. destruct (to_bytes_ok 16 i) as [Hi Ei], (to_bytes_ok 16 j) as [Hj Ej]. unfold ctr_block in E.
  rewrite <- !encrypt_spec in E by done. pose proof (encrypt_inj _ _ _ (key_expansion_ok key Hk) Hi Hj E) as E'.
  rewrite E' in Ei. rewrite Ei in Ej. change (256 ^ Z.of_nat 16) with (2 ^ 128) in Ej.
  pose proof (Z.div_mod i (2 ^ 128) ltac:(lia)). pose proof (Z.div_mod j (2 ^ 128) ltac:(lia)). rewrite Ej in *. nia.
Qed.

Lemma drbg_update_ok s data : drbg_ok s -> bytes 48 data -> drbg_ok (drbg_update s data).
Proof.
  intros Hs Hd. unfold drbg_update. destruct (generate_blocks_ok 3 s _ _ (drbg_ok_at s Hs)) as [E H].
  pose proof (ctr_stream_ok (drbg_key s) (val (drbg_v s)) 3 (proj1 Hs)) as Ht. rewrite <- E in Ht. apply drbg_at_ok in H.
  destruct (generate_blocks 3 s) as [s1 temp]. cbn [fst snd] in *. destruct H as [Hk Hv].
  assert (bytes 32 (take 32 data) /\ bytes 32 (take 32 temp)) as [Hd1 Ht1] by (split; eapply bytes_take; eauto; lia).
  pose proof (bytes_drop 48 32 _ Hd) as Hd2. pose proof (bytes_drop 48 32 _ Ht) as Ht2.
  exact (conj (xor_bytes_ok 32 _ _ (xor_bytes_ok 32 _ _ Hk Hd1) Ht1) (xor_bytes_ok 16 _ _ (xor_bytes_ok 16 _ _ Hv Hd2) Ht2)).
Qed.

Lemma drbg_ok_mk s c t b : drbg_ok s -> drbg_ok (mkDrbg (drbg_key s) (drbg_v s) c t b).
Proof. intros [Hk Hv]. split; cbn [drbg_key drbg_v]; [exact Hk|exact Hv]. Qed.

Lemma csprng_init_ok s entropy t : bytes 48 entropy -> drbg_ok (csprng_init s entropy t).
Proof.
  intros He. unfold csprng_init, drbg_instantiate. cbv zeta. apply drbg_ok_mk, drbg_update_ok; [|exact He].
  exact (conj (bytes_zeros 32) (bytes_zeros 16)).
Qed.

Lemma csprng_reseed_ok s entropy t : drbg_ok s -> bytes 48 entropy -> drbg_ok (csprng_reseed s entropy t).
Proof. intros Hs He. unfold csprng_reseed, drbg_reseed_internal. cbv zeta. by apply drbg_ok_mk, drbg_update_ok. Qed.

Lemma prepare_ok s e : drbg_ok s -> bytes 48 (init_entropy e) -> bytes 48 (reseed_entropy e) -> drbg_ok (prepare s e).
Proof.
  intros Hs Hi Hr. unfold prepare. cbv zeta.
  assert (drbg_ok (if negb (initialized s) then csprng_init s (init_entropy e) (init_now e) else s)) as H.
  { destruct (negb _); [by apply csprng_init_ok|exact Hs]. }
  revert H. generalize (if negb (initialized s) then csprng_init s (init_entropy e) (init_now e) else s). intros s' H.
  destruct (_ || _); [by apply csprng_reseed_ok|exact H].
Qed.

Lemma generate_loop_ok fuel s key z rem :
  drbg_at s key z -> 0 <= rem -> (rem + 15) / 16 <= Z.of_nat fuel ->
  exists s', generate_loop fuel s rem = Some (s', take (Z.to_nat rem) (ctr_stream key z (Z.to_nat ((rem + 15) / 16)))) /\ drbg_ok s'.
Proof.
  revert s z rem. induction fuel as [|fuel IH]; intros s z rem Hs Hr Hf; cbn [generate_loop].
  { assert (rem = 0) as -> by zlia. exists s. split; [done|by eapply drbg_at_ok]. }
  destruct (rem <=? 0) eqn:E0; [apply Z.leb_le in E0; assert (rem = 0) as -> by lia; exists s; split; [done|by eapply drbg_at_ok]|].
  apply Z.leb_gt in E0. destruct (generate_block_ok s key z Hs) as (E & Hl & H1). destruct (drbg_generate_block s) as [s1 b]. cbn [fst snd] in *.
  set (chunk := if rem <? 16 then rem else 16). assert (Hc : chunk = Z.min rem 16) by (unfold chunk; destruct (Z.ltb_spec rem 16); lia).
  destruct (IH (set_counter s1 (u64 (reseed_counter s1 + chunk))) (z + 1) (rem - chunk)) as (s' & E' & H'); [exact H1|lia|zlia|].
  exists s'. split; [|exact H']. cbv zeta. rewrite E'. cbn [mbind option_bind]. do 2 f_equal.
  replace (Z.to_nat ((rem + 15) / 16)) with (S (Z.to_nat ((rem - chunk + 15) / 16))) by zlia. cbn [ctr_stream]. rewrite E.
  destruct (Z.ltb_spec rem 16).
  - replace (rem - chunk) with 0 by lia. change (Z.to_nat 0) with 0%nat. rewrite take_0, app_nil_r.
    rewrite take_app_le by lia. f_equal; lia.
  - rewrite (take_ge (ctr_block key (z + 1))) by lia. rewrite take_app_ge by lia. do 2 f_equal; lia.
Qed.

(** ** The pool *)

Definition is_word (x : Z) : Prop := 0 <= x < 2 ^ 64.

(** All slots together. *)
Definition xor_all (pool : list Z) : Z := foldr Z.lxor 0 pool.

Lemma u64_shiftl_lxor x y n : 0 <= n -> u64 (Z.shiftl (Z.lxor x y) n) = Z.lxor (u64 (Z.shiftl x n)) (u64 (Z.shiftl y n)).
Proof.
  intros Hn. unfold wrap. rewrite Z.shiftl_lxor. apply Z.bits_inj'. intros i Hi. rewrite Z.lxor_spec.
  destruct (decide (i < 64)); [rewrite !Z.mod_pow2_bits_low, Z.lxor_spec by lia; done|by rewrite !Z.mod_pow2_bits_high by lia].
Qed.

Lemma fold_slot_lxor x y : fold_slot (Z.lxor x y) = xor_bytes (fold_slot x) (fold_slot y).
Proof.
  unfold fold_slot. cbn [xor_bytes zip_with]. rewrite !u64_shiftl_lxor, !Z.shiftr_lxor by lia.
  do 6 (apply (f_equal2 cons); [xor_eq|]). reflexivity.
Qed.

Lemma xor_bytes_assoc a b c : xor_bytes (xor_bytes a b) c = xor_bytes a (xor_bytes b c).
Proof.
  revert b c. induction a as [|x a IH]; intros [|y b] [|z c]; try done. unfold xor_bytes in *. cbn [zip_with]. by rewrite Z.lxor_assoc, IH.
Qed.

Lemma accumulate_all pool : accumulate pool = fold_slot (xor_all pool).
Proof.
  unfold accumulate. assert (forall acc, length acc = 6%nat ->
    foldl (fun acc v => xor_bytes acc (fold_slot v)) acc pool = xor_bytes acc (fold_slot (xor_all pool))) as H.
  { induction pool as [|v pool IH]; intros acc Hl; cbn [foldl xor_all foldr].
    - do 6 (destruct acc as [|? acc]; [done|]). destruct acc; [|done]. cbn. by rewrite !Z.lxor_0_r.
    - rewrite IH; [|unfold xor_bytes; rewrite length_zip_with, Hl; done]. fold (xor_all pool). by rewrite xor_bytes_assoc, fold_slot_lxor. }
  by rewrite H by done.
Qed.

(** ** The theorems *)

(** C25: The block cipher with its table, in-place row shifts and byte-wise key
    schedule is AES-256 of FIPS 197, and no two blocks have the same image. *)
Theorem aes256_is_fips197 key a :
  bytes 32 key -> bytes 16 a ->
  aes256_encrypt_block a (aes256_key_expansion key) = Cipher key a /\
  (forall b, bytes 16 b -> aes256_encrypt_block b (aes256_key_expansion key) = aes256_encrypt_block a (aes256_key_expansion key) -> b = a).
Proof.
  intros Hk Ha. split; [by apply encrypt_spec|]. intros b Hb E. exact (encrypt_inj _ b a (key_expansion_ok key Hk) Hb Ha E).
Qed.

(** csprng_generate returns, and what it returns is the stream of AES-256 in
    counter mode cut to the length asked for, with the key and the counter it has
    after initialising and reseeding; no two blocks of a stream are the same. *)
Theorem csprng_generate_stream fuel s e n :
  drbg_ok s -> bytes 48 (init_entropy e) -> bytes 48 (reseed_entropy e) -> 0 <= n -> (n + 15) / 16 <= Z.of_nat fuel ->
  exists s' out, csprng_generate fuel s e n = Some (s', out) /\ drbg_ok s' /\ len out = n /\
    let key := drbg_key (prepare s e) in let v := val (drbg_v (prepare s e)) in
    out = take (Z.to_nat n) (ctr_stream key v (Z.to_nat ((n + 15) / 16))) /\
    (forall i j, i < j -> j - i < 2 ^ 128 -> ctr_block key (v + i) <> ctr_block key (v + j)).
Proof.
  intros Hs Hi Hr Hn Hf. pose proof (prepare_ok s e Hs Hi Hr) as Hp. unfold csprng_generate.
  generalize dependent (prepare s e). intros p Hp. cbv zeta. pose proof Hp as [Hk _].
  destruct (generate_loop_ok fuel p _ _ n (drbg_ok_at p Hp) Hn Hf) as (s1 & -> & H1). cbn [mbind option_bind].
  destruct (generate_blocks_ok 3 s1 _ _ (drbg_ok_at s1 H1)) as (E2 & H2). pose proof (ctr_stream_ok (drbg_key s1) (val (drbg_v s1)) 3 (proj1 H1)) as H3.
  rewrite <- E2 in H3. apply drbg_at_ok in H2. destruct (generate_blocks 3 s1) as [s2 data]. cbn [fst snd] in *.
  eexists _, _. split; [reflexivity|]. split; [by apply drbg_update_ok|]. split.
  - unfold len. rewrite length_take, (proj1 (ctr_stream_ok _ _ _ Hk)). zlia.
  - split; [reflexivity|]. intros i j Hij Hd. apply ctr_block_inj; [exact Hk|lia|lia].
Qed.

(** The pool of 16 slots carries 64 bits: what entropy_drain gives depends on the
    exclusive or of the slots only. *)
Theorem entropy_pool_64_bits pool pool' n : xor_all pool = xor_all pool' -> entropy_drain pool n = entropy_drain pool' n.
Proof. intros E. unfold entropy_drain. by rewrite !accumulate_all, E. Qed.

(** ** Witnesses *)

(** The test vector of FIPS 197, C.3. *)
Definition fips_key : list Z := seqZ 0 32.
Definition fips_input : list Z :=
  [0x00; 0x11; 0x22; 0x33; 0x44; 0x55; 0x66; 0x77; 0x88; 0x99; 0xaa; 0xbb; 0xcc; 0xdd; 0xee; 0xff].
Definition fips_output : list Z :=
  [0x8e; 0xa2; 0xb7; 0xca; 0x51; 0x67; 0x45; 0xbf; 0xea; 0xfc; 0x49; 0x90; 0x4b; 0x49; 0x60; 0x89].

Lemma aes256_is_fips197_witness :
  aes256_encrypt_block fips_input (aes256_key_expansion fips_key) = fips_output /\ Cipher fips_key fips_input = fips_output.
Proof.
  assert (aes256_encrypt_block fips_input (aes256_key_expansion fips_key) = fips_output) as E by by vm_compute.
  split; [exact E|]. rewrite <- E. symmetry.
  assert (bytes 32 fips_key /\ bytes 16 fips_input) as [Hk Hi] by (split; apply bytes_check_ok; by vm_compute).
  exact (proj1 (aes256_is_fips197 fips_key fips_input Hk Hi)).
Defined.

(** The state before the first call. *)
Definition drbg0 : drbg := mkDrbg (replicate 32 0) (replicate 16 0) 0 0 false.
Definition demo_surroundings : surroundings := mkSur (seqZ 0 48) 5 6 (seqZ 100 48) 7.

Lemma csprng_generate_stream_witness :
  exists s' out, csprng_generate 3 drbg0 demo_surroundings 40 = Some (s', out) /\ len out = 40.
Proof.
  destruct (csprng_generate_stream 3 drbg0 demo_surroundings 40) as (s' & out & E & _ & Hl & _);
    [split; apply bytes_zeros|apply bytes_check_ok; by vm_compute..|lia|by vm_compute|].
  exists s', out. exact (conj E Hl).
Defined.

Lemma entropy_pool_64_bits_witness : entropy_drain (replicate 16 7) 48 = replicate 48 0.
Proof.
  rewrite (entropy_pool_64_bits (replicate 16 7) (replicate 16 0) 48); by vm_compute.
Defined.
