(* ===== verification/Rtc.v ===== *)
(** * The real-time clock: kernel/drivers/clock/rtc.c

    [cmos t reg] is what the [t]-th read of register [reg] returns; a function
    that reads the clock takes the number of reads before it and returns the number
    after it.  The calendar at the end is pure arithmetic. *)

From S2P Require Import Prelude.

(** ** Registers and modes *)

Definition CMOS_SEC : Z := 0x00.
Definition CMOS_MIN : Z := 0x02.
Definition CMOS_HOUR : Z := 0x04.
Definition CMOS_DAY : Z := 0x07.
Definition CMOS_MONTH : Z := 0x08.
Definition CMOS_YEAR : Z := 0x09.
Definition CMOS_CENTURY : Z := 0x32.
Definition CMOS_STATUS_A : Z := 0x0A.
Definition CMOS_STATUS_B : Z := 0x0B.
Definition STB_24HOUR : Z := 0x02.
Definition STB_BINARY : Z := 0x04.
Definition STA_UPDATING : Z := 0x80.

Record rtc := mkRtc { initialized : bool; use_binary : bool; use_24hour : bool }.

Definition bcd_to_binary (bcd : Z) : Z := u8 (Z.land (Z.shiftr bcd 4) 0x0F * 10 + Z.land bcd 0x0F).

Definition decode (r : rtc) (raw : Z) : Z := if negb (use_binary r) then bcd_to_binary raw else raw.

(** ** The calendar *)

Definition is_leap_year (year : Z) : bool :=
  ((year mod 4 =? 0) && negb (year mod 100 =? 0)) || (year mod 400 =? 0).

Definition dim : list Z := [31; 28; 31; 30; 31; 30; 31; 31; 30; 31; 30; 31].

Definition days_in_month (month year : Z) : Z :=
  if (month <? 1) || (12 <? month) then 30
  else if (month =? 2) && is_leap_year year then 29
  else dim.[month - 1].

(** Days from 1970-01-01 to the date. *)
Definition unix_days (year month day : Z) : Z :=
  let days := for_each (fun y days => days + (if is_leap_year y then 366 else 365)) (Z.to_nat (year - 1970)) 1970 0 in
  let days := for_each (fun m days => days + days_in_month m year) (Z.to_nat (month - 1)) 1 days in
  if 1 <=? day then days + (day - 1) else days.

(** ** Reading the clock *)

Section clock.
Context (cmos : Z -> Z -> Z).

Definition cmos_read (t reg : Z) : Z * Z := (u8 (cmos t (Z.land reg 0x7F)), t + 1).

(** "while (tries-- > 0)" *)
Definition wait_ready (t : Z) : bool * Z :=
  match for_loop (fun _ t =>
          let '(v, t) := cmos_read t CMOS_STATUS_A in
          if Z.land v STA_UPDATING =? 0 then Stop t else Next t) (Z.to_nat 65536) 0 t with
  | Stop t => (true, t)
  | Next t => (false, t)
  end.

Fixpoint read_regs (regs : list Z) (t : Z) : list Z * Z :=
  match regs with
  | [] => ([], t)
  | r :: regs => let '(v, t) := cmos_read t r in let '(vs, t) := read_regs regs t in (v :: vs, t)
  end.

(** "do ... while (tries-- > 0 && ...)": the registers are read twice until both
    readings agree; [first] holds the first reading. *)
Fixpoint stable_read (tries : nat) (regs first : list Z) (t : Z) : list Z * Z :=
  let '(ready, t) := wait_ready t in
  if negb ready then (first, t)
  else
    let '(first, t) := read_regs regs t in
    let '(ready, t) := wait_ready t in
    if negb ready then (first, t)
    else
      let '(second, t) := read_regs regs t in
      match tries with
      | O => (first, t)
      | S tries => if bool_decide (first = second) then (first, t) else stable_read tries regs first t
      end.

Definition rtc_init (t : Z) : rtc * Z :=
  let '(stb, t) := cmos_read t CMOS_STATUS_B in
  (mkRtc true (negb (Z.land stb STB_BINARY =? 0)) (negb (Z.land stb STB_24HOUR =? 0)), t).

(** Hour, minute and second. *)
Definition rtc_get_time (r : rtc) (t : Z) : (Z * Z * Z) * Z :=
  if initialized r then
    let '(raw, t) := stable_read 4 [CMOS_SEC; CMOS_MIN; CMOS_HOUR] [0; 0; 0] t in
    let s1 := raw.[0] in let m1 := raw.[1] in let h1 := raw.[2] in
    let pm := negb (use_24hour r) && negb (Z.land h1 0x80 =? 0) in
    let h1 := if pm then Z.land h1 0x7F else h1 in
    let s := decode r s1 in
    let m := decode r m1 in
    let h := decode r h1 in
    let h :=
      if negb (use_24hour r) then
        if pm && (h <? 12) then u8 (h + 12) else if negb pm && (h =? 12) then 0 else h
      else h in
    ((h, m, s), t)
  else ((0, 0, 0), t).

(** Year, month and day. *)
Definition rtc_get_date (r : rtc) (t : Z) : (Z * Z * Z) * Z :=
  if initialized r then
    let '(raw, t) := stable_read 4 [CMOS_DAY; CMOS_MONTH; CMOS_YEAR; CMOS_CENTURY] [0; 0; 0; 0] t in
    let d1 := decode r raw.[0] in
    let mo1 := decode r raw.[1] in
    let y1 := decode r raw.[2] in
    let c1 := decode r raw.[3] in
    let y := if (c1 =? 0) || (c1 =? 0xFF) then u16 ((if y1 <? 70 then 2000 else 1900) + y1) else u16 (c1 * 100 + y1) in
    ((y, mo1, d1), t)
  else ((1970, 1, 1), t).

Definition rtc_get_unix_time (r : rtc) (t : Z) : Z * Z :=
  let '((year, month, day), t) := rtc_get_date r t in
  let '((hour, min, sec), t) := rtc_get_time r t in
  let year := if year <? 1970 then 1970 else year in
  (u64 (unix_days year month day * 86400 + hour * 3600 + min * 60 + sec), t).
End clock.

(** ** The calendar in closed form *)

(** Leap years up to [y]. *)
Definition leaps (y : Z) : Z := y / 4 - y / 100 + y / 400.

Lemma leaps_step y : leaps y = leaps (y - 1) + Z.b2z (is_leap_year y).
Proof.
  unfold leaps, is_leap_year.
  destruct (Z.eqb_spec (y mod 4) 0), (Z.eqb_spec (y mod 100) 0), (Z.eqb_spec (y mod 400) 0); simpl; zlia.
Qed.

(** Days before the month. *)
Definition days_before (month year : Z) : Z :=
  [0; 31; 59; 90; 120; 151; 181; 212; 243; 273; 304; 334].[month - 1] + (if 3 <=? month then Z.b2z (is_leap_year year) else 0).

(** The Gregorian calendar: every fourth year is a leap year, of the centuries
    every fourth; February has 29 days in a leap year and 28 in others, April,
    June, September and November have 30 and the other months 31. *)
Definition gregorian_leap (year : Z) : Prop := year mod 4 = 0 /\ (year mod 100 = 0 -> year mod 400 = 0).

Definition month_length (month year : Z) : Z :=
  if decide (month = 2) then if decide (gregorian_leap year) then 29 else 28
  else if decide (month = 4 \/ month = 6 \/ month = 9 \/ month = 11) then 30 else 31.

(** A valid date from 1970 on. *)
Definition valid_date (year month day : Z) : Prop :=
  1970 <= year /\ 1 <= month <= 12 /\ 1 <= day <= month_length month year.

Lemma is_leap_year_gregorian year : is_leap_year year = bool_decide (gregorian_leap year).
Proof.
  unfold is_leap_year, gregorian_leap.
  destruct (Z.eqb_spec (year mod 4) 0), (Z.eqb_spec (year mod 100) 0), (Z.eqb_spec (year mod 400) 0); simpl;
    case_bool_decide; try done; exfalso; try tauto; zlia.
Qed.

Lemma year_days n :
  for_each (fun y days => days + (if is_leap_year y then 366 else 365)) n 1970 0 =
  365 * Z.of_nat n + leaps (1969 + Z.of_nat n) - leaps 1969.
Proof.
  assert (for_each (fun y days => days + (if is_leap_year y then 366 else 365)) n 1970 0 =
    365 * (1970 + Z.of_nat n - 1970) + leaps (1970 + Z.of_nat n - 1) - leaps 1969) as ->.
  { apply (for_each_ind _ (fun j days => days = 365 * (j - 1970) + leaps (j - 1) - leaps 1969)); [by vm_compute|].
    intros j t Hj ->. replace (j + 1 - 1) with j by lia. rewrite (leaps_step j). destruct (is_leap_year j); simpl; lia. }
  replace (1970 + Z.of_nat n - 1) with (1969 + Z.of_nat n) by lia. lia.
Qed.

(** Only the kind of the year matters for its months. *)
Lemma days_in_month_kind month year : days_in_month month year = days_in_month month (if is_leap_year year then 2000 else 2001).
Proof. unfold days_in_month. by destruct (is_leap_year year) eqn:E. Qed.

Lemma days_before_kind month year : days_before month year = days_before month (if is_leap_year year then 2000 else 2001).
Proof. unfold days_before. by destruct (is_leap_year year) eqn:E. Qed.

(** One of the twelve months. *)
Ltac months m :=
  let H := fresh in
  assert (m = 1 \/ m = 2 \/ m = 3 \/ m = 4 \/ m = 5 \/ m = 6 \/ m = 7 \/ m = 8 \/ m = 9 \/ m = 10 \/ m = 11 \/ m = 12) as H by lia;
  repeat destruct H as [->|H]; [..|subst m].

(** Evaluates the lengths of months in a year of either kind. *)
Ltac month_lengths year :=
  rewrite ?(days_in_month_kind _ year), ?(days_before_kind _ year); destruct (is_leap_year year);
  repeat match goal with
  | |- context [days_in_month ?a ?b] => let v := eval vm_compute in (days_in_month a b) in change (days_in_month a b) with v
  | |- context [days_before ?a ?b] => let v := eval vm_compute in (days_before a b) in change (days_before a b) with v
  end.

Lemma month_days month year days :
  1 <= month <= 12 ->
  for_each (fun m days => days + days_in_month m year) (Z.to_nat (month - 1)) 1 days = days + days_before month year.
Proof.
  intros Hm.
  months month; match goal with |- context [Z.to_nat ?e] => let v := eval vm_compute in (Z.to_nat e) in change (Z.to_nat e) with v end;
    cbn [for_each]; month_lengths year; lia.
Qed.

Lemma unix_days_closed year month day :
  valid_date year month day ->
  unix_days year month day = 365 * (year - 1970) + leaps (year - 1) - leaps 1969 + days_before month year + (day - 1).
Proof.
  intros (Hy & Hm & Hd). unfold unix_days. rewrite year_days, month_days by done.
  rewrite (proj2 (Z.leb_le 1 day)) by lia. replace (1969 + Z.of_nat (Z.to_nat (year - 1970))) with (year - 1) by lia. lia.
Qed.

Lemma days_in_month_gregorian month year : 1 <= month <= 12 -> days_in_month month year = month_length month year.
Proof.
  intros Hm. unfold month_length. unfold days_in_month. rewrite (is_leap_year_gregorian year).
  destruct (decide (gregorian_leap year)) as [Hl|Hl];
    rewrite ?(bool_decide_eq_true_2 _ Hl), ?(bool_decide_eq_false_2 _ Hl); months month; reflexivity.
Qed.

(** The day after. *)
Definition next_date (year month day : Z) : Z * Z * Z :=
  if day <? month_length month year then (year, month, day + 1)
  else if month <? 12 then (year, month + 1, 1) else (year + 1, 1, 1).

Lemma next_date_valid year month day :
  valid_date year month day -> let '(y, m, d) := next_date year month day in valid_date y m d.
Proof.
  intros (Hy & Hm & Hd). unfold next_date, valid_date.
  assert (forall m y, 1 <= month_length m y) as Hdim by (intros m y; unfold month_length; repeat case_decide; lia).
  destruct (Z.ltb_spec day (month_length month year)); [lia|]. destruct (Z.ltb_spec month 12).
  - pose proof (Hdim (month + 1) year). lia.
  - pose proof (Hdim 1 (year + 1)). lia.
Qed.

(** C26: unix_days counts the days of the Gregorian calendar from 1970-01-01: that
    date is 0, and the day after a date (by the lengths of the months and the rule
    of the leap years, centuries included) is one more. *)
Theorem unix_days_counts :
  unix_days 1970 1 1 = 0 /\
  forall year month day, valid_date year month day ->
    let '(y, m, d) := next_date year month day in valid_date y m d /\ unix_days y m d = unix_days year month day + 1.
Proof.
  split; [by vm_compute|]. intros year month day H. pose proof (next_date_valid _ _ _ H) as Hn.
  destruct (next_date year month day) as [[y m] d] eqn:E. split; [done|].
  rewrite !unix_days_closed by done. destruct H as (Hy & Hm & Hd). revert E. unfold next_date.
  rewrite <- (days_in_month_gregorian month year Hm) in Hd |- *.
  destruct (Z.ltb_spec day (days_in_month month year)) as [Hlt|Hge]; [intros [= <- <- <-]; lia|].
  assert (day = days_in_month month year) as -> by lia. clear Hd Hge. destruct (Z.ltb_spec month 12).
  - intros [= <- <- <-]. clear Hn.
    months month; try lia; month_lengths year; lia.
  - assert (month = 12) as -> by lia. intros [= <- <- <-]. replace (year + 1 - 1) with year by lia. rewrite (leaps_step year).
    change (days_before 1 (year + 1)) with 0. unfold Z.b2z. month_lengths year; lia.
Qed.

(** ** A clock that stands still is read right *)

(** What the clock stores for a number, and for an hour. *)
Definition encode (r : rtc) (v : Z) : Z := if use_binary r then v else Z.lor (Z.shiftl (v / 10) 4) (v mod 10).

Definition encode_hour (r : rtc) (h : Z) : Z :=
  if use_24hour r then encode r h
  else Z.lor (encode r (if h mod 12 =? 0 then 12 else h mod 12)) (if 12 <=? h then 0x80 else 0).

Section still.
Context (cmos : Z -> Z -> Z) (r : rtc).
Context (Hinit : initialized r = true).
Context (Hready : forall t, Z.land (u8 (cmos t CMOS_STATUS_A)) STA_UPDATING = 0).

Lemma wait_ready_still t : wait_ready cmos t = (true, t + 1).
Proof.
  unfold wait_ready. assert (exists n, Z.to_nat 65536 = S n) as [n ->] by (exists (Z.to_nat 65535); lia).
  cbn [for_loop]. unfold cmos_read. change (Z.land CMOS_STATUS_A 127) with CMOS_STATUS_A. by rewrite Hready.
Qed.

Lemma read_regs_still regs vs t :
  Forall2 (fun reg v => forall t, u8 (cmos t (Z.land reg 0x7F)) = v) regs vs ->
  read_regs cmos regs t = (vs, t + len regs).
Proof.
  intros H. revert t. induction H as [|reg v regs vs Hv _ IH]; intros t; cbn [read_regs]; [by rewrite Z.add_0_r|].
  unfold cmos_read. rewrite IH, Hv, len_cons. f_equal. lia.
Qed.

Lemma stable_read_still regs vs first t :
  Forall2 (fun reg v => forall t, u8 (cmos t (Z.land reg 0x7F)) = v) regs vs ->
  exists t', stable_read cmos 4 regs first t = (vs, t').
Proof.
  intros H. cbn [stable_read]. rewrite !wait_ready_still. cbn [negb]. rewrite (read_regs_still regs vs) by done.
  rewrite !wait_ready_still. cbn [negb]. rewrite (read_regs_still regs vs) by done.
  rewrite bool_decide_eq_true_2 by done. by eexists.
Qed.

(** A test on the numbers below a bound, by evaluation. *)
Lemma all_below n (f : Z -> bool) : forallb f (seqZ 0 n) = true -> forall x, 0 <= x < n -> f x = true.
Proof. intros H x Hx. rewrite forallb_forall in H. apply H, list_elem_of_In, elem_of_seqZ. lia. Qed.

Lemma bcd_roundtrip v :
  0 <= v < 100 -> bcd_to_binary (u8 (Z.lor (Z.shiftl (v / 10) 4) (v mod 10))) = v /\ Z.land (u8 (Z.lor (Z.shiftl (v / 10) 4) (v mod 10))) 0x80 = (if v <? 80 then 0 else 0x80).
Proof.
  intros Hv. assert (forallb (fun v => (bcd_to_binary (u8 (Z.lor (Z.shiftl (v / 10) 4) (v mod 10))) =? v) &&
    (Z.land (u8 (Z.lor (Z.shiftl (v / 10) 4) (v mod 10))) 0x80 =? if v <? 80 then 0 else 0x80)) (seqZ 0 100) = true) as H by by vm_compute.
  pose proof (all_below 100 _ H v Hv) as H'. cbv beta in H'. rewrite andb_true_iff, !Z.eqb_eq in H'. exact H'.
Qed.

Lemma decode_encode v : 0 <= v < 100 -> decode r (u8 (encode r v)) = v.
Proof.
  intros Hv. unfold decode, encode. destruct (use_binary r); cbn [negb]; [apply wrap_small; lia|apply bcd_roundtrip, Hv].
Qed.

(** The decoding of the hour register, as in rtc_get_time. *)
Definition decode_hour (h1 : Z) : Z :=
  let pm := negb (use_24hour r) && negb (Z.land h1 0x80 =? 0) in
  let h := decode r (if pm then Z.land h1 0x7F else h1) in
  if negb (use_24hour r) then if pm && (h <? 12) then u8 (h + 12) else if negb pm && (h =? 12) then 0 else h else h.

Lemma decode_hour_ok h : 0 <= h < 24 -> decode_hour (u8 (encode_hour r h)) = h.
Proof.
  intros Hh. apply Z.eqb_eq. revert h Hh. apply (all_below 24 (fun h => decode_hour (u8 (encode_hour r h)) =? h)).
  unfold decode_hour, encode_hour, decode, encode. destruct (use_24hour r), (use_binary r); by vm_compute.
Qed.

(** With a clock that keeps its registers while they are read, in either format
    and with 12 or 24 hours, rtc_get_time and rtc_get_date return the time and the
    date the registers encode. *)
Theorem rtc_reads_clock t h m s year month day :
  0 <= h < 24 -> 0 <= m < 60 -> 0 <= s < 60 -> 100 <= year < 10000 -> 1 <= month <= 12 -> 1 <= day <= 31 ->
  (forall t, cmos t CMOS_SEC = encode r s) -> (forall t, cmos t CMOS_MIN = encode r m) ->
  (forall t, cmos t CMOS_HOUR = encode_hour r h) ->
  (forall t, cmos t CMOS_DAY = encode r day) -> (forall t, cmos t CMOS_MONTH = encode r month) ->
  (forall t, cmos t CMOS_YEAR = encode r (year mod 100)) -> (forall t, cmos t CMOS_CENTURY = encode r (year / 100)) ->
  (rtc_get_time cmos r t).1 = (h, m, s) /\ (rtc_get_date cmos r t).1 = (year, month, day).
Proof.
  intros Hh Hm Hs Hy Hmo Hd Es Em Eh Ed Emo Ey Ec. split.
  - unfold rtc_get_time. rewrite Hinit.
    destruct (stable_read_still [CMOS_SEC; CMOS_MIN; CMOS_HOUR] [u8 (encode r s); u8 (encode r m); u8 (encode_hour r h)] [0; 0; 0] t) as [t' ->].
    { repeat constructor; intros u; [by rewrite <- (Es u)|by rewrite <- (Em u)|by rewrite <- (Eh u)]. }
    cbv zeta. cbn [fst]. change ([?a; ?b; ?c].[0]) with a. change ([?a; ?b; ?c].[1]) with b. change ([?a; ?b; ?c].[2]) with c.
    rewrite !decode_encode by lia. f_equal. f_equal. exact (decode_hour_ok h Hh).
  - unfold rtc_get_date. rewrite Hinit.
    destruct (stable_read_still [CMOS_DAY; CMOS_MONTH; CMOS_YEAR; CMOS_CENTURY]
      [u8 (encode r day); u8 (encode r month); u8 (encode r (year mod 100)); u8 (encode r (year / 100))] [0; 0; 0; 0] t) as [t' ->].
    { repeat constructor; intros u; [by rewrite <- (Ed u)|by rewrite <- (Emo u)|by rewrite <- (Ey u)|by rewrite <- (Ec u)]. }
    cbv zeta. cbn [fst]. change ([?a; ?b; ?c; ?d].[0]) with a. change ([?a; ?b; ?c; ?d].[1]) with b.
    change ([?a; ?b; ?c; ?d].[2]) with c. change ([?a; ?b; ?c; ?d].[3]) with d.
    rewrite !decode_encode by zlia. rewrite (proj2 (Z.eqb_neq (year / 100) 0)), (proj2 (Z.eqb_neq (year / 100) 0xFF)) by zlia.
    cbn [orb]. do 2 f_equal. rewrite wrap_small by zlia. zlia.
Qed.
End still.

(** The century register that a machine without one reads as 0xFF: in BCD it is
    decoded before it is compared, and the year is 16500 and more. *)
Lemma rtc_century_missing : decode (mkRtc true false true) 0xFF = 165 /\ (decode (mkRtc true false true) 0xFF =? 0xFF) = false.
Proof. by vm_compute. Qed.

(** ** Witnesses *)

(** 2024-02-29, 23:59:58, BCD with 12 hours. *)
Definition demo_rtc : rtc := mkRtc true false false.
Definition demo_cmos (t reg : Z) : Z :=
  if reg =? CMOS_SEC then 0x58 else if reg =? CMOS_MIN then 0x59 else if reg =? CMOS_HOUR then 0x91
  else if reg =? CMOS_DAY then 0x29 else if reg =? CMOS_MONTH then 0x02 else if reg =? CMOS_YEAR then 0x24
  else if reg =? CMOS_CENTURY then 0x20 else 0.

Lemma rtc_reads_clock_witness :
  (rtc_get_time demo_cmos demo_rtc 0).1 = (23, 59, 58) /\ (rtc_get_date demo_cmos demo_rtc 0).1 = (2024, 2, 29).
Proof. apply (rtc_reads_clock demo_cmos demo_rtc); try lia; try (intros; by vm_compute). Defined.

Lemma unix_days_counts_witness : unix_days 2024 3 1 = unix_days 2024 2 29 + 1.
Proof. apply (proj2 unix_days_counts 2024 2 29). split_and!; by vm_compute. Defined.
