(* ===== verification/Cron.v ===== *)
(** * Scheduled tasks: kernel/sys/cron.c

    Strings are lists of characters that are not 0.  The table of tasks is a
    state; running a command calls the shell, which may come back and change the
    table, so the shell is a function on the state.  The clock is that of [Rtc]. *)

From S2P Require Import Prelude Rtc.

Definition CRON_MAX_TASKS : Z := 16.
Definition CRON_STR_LEN : Z := 128.
Definition CRON_WILDCARD : Z := -1.

(** A minute of a day: year, month, day, hour, minute. *)
Record stamp := mkStamp { s_year : Z; s_month : Z; s_day : Z; s_hour : Z; s_min : Z }.

#[export] Instance stamp_eq_dec : EqDecision stamp.
Proof. solve_decision. Defined.

Record cron_task := mkTask {
  active : bool; id : Z; minute : Z; hour : Z; day : Z; month : Z; weekday : Z;
  schedule : list Z; command : list Z; last : stamp }.

Definition zero_stamp : stamp := mkStamp 0 0 0 0 0.
Definition zero_task : cron_task := mkTask false 0 0 0 0 0 0 [] [] zero_stamp.
#[export] Instance cron_task_inhabited : Inhabited cron_task := populate zero_task.

Record cron := mkCron { tasks : list cron_task; next_id : Z; initialized : bool }.

Definition with_tasks (c : cron) (ts : list cron_task) : cron := mkCron ts (next_id c) (initialized c).

(** ** Schedules *)

(** "v = v * 10 + (*p - '0')" in an int; [None] at another character. *)
Fixpoint field_digits (p : list Z) (v : Z) : option Z :=
  match p with
  | [] => Some v
  | c :: p => if (c <? 48) || (57 <? c) then None else field_digits p (s32 (s32 (v * 10) + (c - 48)))
  end.

Definition parse_field (tok : list Z) (min_val max_val : Z) : Z :=
  match tok with
  | [] => -2
  | _ =>
      if bool_decide (tok = [42]) then CRON_WILDCARD
      else
        match field_digits tok 0 with
        | None => -2
        | Some v => if (v <? min_val) || (max_val <? v) then -2 else v
        end
  end.

Definition is_blank (c : Z) : bool := (c =? 32) || (c =? 9).

Fixpoint skip_blanks (p : list Z) : list Z :=
  match p with [] => [] | c :: q => if is_blank c then skip_blanks q else p end.

(** A token and what follows it; the blank after it is replaced by its end. *)
Fixpoint take_token (p : list Z) : list Z * list Z :=
  match p with
  | [] => ([], [])
  | c :: q => if is_blank c then ([], q) else let '(tok, rest) := take_token q in (c :: tok, rest)
  end.

(** "while (*p && nf < 5)" *)
Fixpoint split_fields (n : nat) (p : list Z) : list (list Z) :=
  match n with
  | O => []
  | S n =>
      match skip_blanks p with
      | [] => []
      | q => let '(tok, rest) := take_token q in tok :: split_fields n rest
      end
  end.

(** The fields of the task are set until one is wrong; 0 or -1. *)
Definition parse_schedule (t : cron_task) (sched : list Z) : cron_task * Z :=
  if CRON_STR_LEN <=? len sched then (t, -1)
  else
    match split_fields 5 sched with
    | [f0; f1; f2; f3; f4] =>
        let '(mkTask a i mi h d mo wd s c l) := t in
        let v := parse_field f0 0 59 in if v <? -1 then (t, -1) else
        let mi := v in
        let v := parse_field f1 0 23 in if v <? -1 then (mkTask a i mi h d mo wd s c l, -1) else
        let h := v in
        let v := parse_field f2 1 31 in if v <? -1 then (mkTask a i mi h d mo wd s c l, -1) else
        let d := v in
        let v := parse_field f3 1 12 in if v <? -1 then (mkTask a i mi h d mo wd s c l, -1) else
        let mo := v in
        let v := parse_field f4 0 6 in if v <? -1 then (mkTask a i mi h d mo wd s c l, -1) else
        (mkTask a i mi h d mo v s c l, 0)
    | _ => (t, -1)
    end.

(** Zeller's congruence, with the divisions of C. *)
Definition compute_weekday (year month day : Z) : Z :=
  let m := if month <? 3 then month + 12 else month in
  let y := if month <? 3 then year - 1 else year in
  let k := Z.rem y 100 in
  let j := Z.quot y 100 in
  let h := Z.rem (day + Z.quot (13 * (m + 1)) 5 + k + Z.quot k 4 + Z.quot j 4 + 5 * j) 7 in
  Z.rem (h + 6) 7.

(** ** The table *)

Definition cron_init : cron := mkCron (replicate 16 zero_task) 1 true.

Definition cron_add (c : cron) (sched cmd : list Z) : cron * Z :=
  if negb (initialized c) then (c, -1)
  else
    match find_from (fun i => negb (active (tasks c).[i])) 16 0 with
    | None => (c, -1)
    | Some slot =>
        if (CRON_STR_LEN <=? len sched) || (CRON_STR_LEN <=? len cmd) then (c, -1)
        else
          let '(t, r) := parse_schedule zero_task sched in
          if negb (r =? 0) then (with_tasks c (tasks c).[slot <- t], -1)
          else
            let i := next_id c in
            let t := mkTask true i (minute t) (hour t) (day t) (month t) (weekday t) sched cmd (last t) in
            (mkCron (tasks c).[slot <- t] (s32 (next_id c + 1)) (initialized c), i)
    end.

Definition cron_remove (c : cron) (i : Z) : cron * Z :=
  if negb (initialized c) then (c, -1)
  else
    match find_from (fun k => active (tasks c).[k] && (id (tasks c).[k] =? i)) 16 0 with
    | Some k => (with_tasks c (tasks c).[k <- zero_task], 0)
    | None => (c, -1)
    end.

Definition cron_count (c : cron) : Z := count_from (fun i => active (tasks c).[i]) 16 0.

(** ** Ticks *)

(** The guards of cron_check_task. *)
Definition field_matches (f v : Z) : bool := (f =? CRON_WILDCARD) || (f =? v).

Definition task_matches (t : cron_task) (now : stamp) : bool :=
  field_matches (minute t) (s_min now) && field_matches (hour t) (s_hour now) &&
  field_matches (day t) (s_day now) && field_matches (month t) (s_month now) &&
  field_matches (weekday t) (compute_weekday (s_year now) (s_month now) (s_day now)).

Definition set_last (t : cron_task) (now : stamp) : cron_task :=
  mkTask (active t) (id t) (minute t) (hour t) (day t) (month t) (weekday t) (schedule t) (command t) now.

Section ticks.
(** Running a command. *)
Context (shell_execute_line : list Z -> cron -> cron).

(** The new state, and whether the command of slot [i] ran. *)
Definition cron_check_task (c : cron) (i : Z) (now : stamp) : cron * bool :=
  let t := (tasks c).[i] in
  if negb (task_matches t now) then (c, false)
  else if decide (last t = now) then (c, false)
  else (shell_execute_line (command t) (with_tasks c (tasks c).[i <- set_last t now]), true).

(** The slots whose commands ran, in order. *)
Definition tick_slot (now : stamp) (i : Z) (st : cron * list Z) : cron * list Z :=
  let '(c, log) := st in
  if negb (active (tasks c).[i]) then (c, log)
  else
    let '(c, fired) := cron_check_task c i now in
    (c, if fired then log ++ [i] else log).

Definition tick_at (c : cron) (now : stamp) : cron * list Z :=
  if negb (initialized c) then (c, []) else for_each (tick_slot now) 16 0 (c, []).

(** The time is read before the date. *)
Definition cron_tick (cmos : Z -> Z -> Z) (r : rtc) (c : cron) (t : Z) : (cron * list Z) * Z :=
  if negb (initialized c) then ((c, []), t)
  else
    let '((h, mi, _), t) := rtc_get_time cmos r t in
    let '((y, mo, d), t) := rtc_get_date cmos r t in
    (tick_at c (mkStamp y mo d h mi), t).
End ticks.

(** ** The day of the week *)

(** The year's part of the congruence. *)
Lemma zeller_year y :
  0 <= y -> Z.rem y 100 + Z.quot (Z.rem y 100) 4 + Z.quot (Z.quot y 100) 4 + 5 * Z.quot y 100 = y + leaps y - 119 * (y / 100).
Proof.
  intros Hy. rewrite !Z.quot_div_nonneg, !Z.rem_mod_nonneg by (rewrite ?Z.rem_mod_nonneg; zlia). unfold leaps. zlia.
Qed.

(** compute_weekday is the day of the week: 1970-01-01 was a Thursday (4), and
    the days of the week follow the days of the calendar. *)
Theorem compute_weekday_correct y m d :
  valid_date y m d -> compute_weekday y m d = (unix_days y m d + 4) mod 7.
Proof.
  intros H. rewrite unix_days_closed by done. destruct H as (Hy & Hm & Hd). pose proof (leaps_step y) as El.
  change (leaps 1969) with 477. unfold compute_weekday. set (y' := if m <? 3 then y - 1 else y).
  assert (0 <= y') as Hy' by (unfold y'; destruct (m <? 3); lia). pose proof (zeller_year y' Hy') as Ez.
  assert (Z.quot (13 * ((if m <? 3 then m + 12 else m) + 1)) 5 = [36; 39; 10; 13; 15; 18; 20; 23; 26; 28; 31; 33].[m - 1]) as Em by (months m; reflexivity).
  rewrite Em. clear Em. set (c := geti _ (m - 1)).
  replace (d + c + Z.rem y' 100 + Z.quot (Z.rem y' 100) 4 + Z.quot (Z.quot y' 100) 4 + 5 * Z.quot y' 100)
    with (d + c + (y' + leaps y' - 119 * (y' / 100))) by lia. clear Ez.
  assert (0 <= d + c + (y' + leaps y' - 119 * (y' / 100))) as Hpos.
  { unfold leaps. assert (0 <= c) by (unfold c; months m; by vm_compute). zlia. }
  rewrite (Z.rem_mod_nonneg _ 7 Hpos) by lia. rewrite Z.rem_mod_nonneg by zlia.
  clear Hpos. generalize (y' / 100). intros j. unfold y', c, days_before. clear y' c Hy'. revert El.
  assert (leaps (if m <? 3 then y - 1 else y) = if m <? 3 then leaps (y - 1) else leaps y) as -> by by destruct (m <? 3).
  generalize (leaps y) (leaps (y - 1)) (Z.b2z (is_leap_year y)).
  intros a b e ->. clear Hd.
  months m; repeat match goal with
    | |- context [geti ?l ?e] => let v := eval vm_compute in (geti l e) in change (geti l e) with v
    | |- context [?x <? 3] => let v := eval vm_compute in (x <? 3) in change (x <? 3) with v
    | |- context [3 <=? ?x] => let v := eval vm_compute in (3 <=? x) in change (3 <=? x) with v
    end; cbv iota; zlia.
Qed.

(** ** Schedules are read back *)

(** A number below 100, a field and a schedule, as text. *)
Definition dec (v : Z) : list Z := if v <? 10 then [48 + v] else [48 + v / 10; 48 + v mod 10].
Definition print_field (f : Z) : list Z := if f =? CRON_WILDCARD then [42] else dec f.
Definition print_schedule (f0 f1 f2 f3 f4 : Z) : list Z :=
  print_field f0 ++ [32] ++ print_field f1 ++ [32] ++ print_field f2 ++ [32] ++ print_field f3 ++ [32] ++ print_field f4.

Definition field_ok (lo hi f : Z) : Prop := f = CRON_WILDCARD \/ lo <= f <= hi.

Lemma parse_dec v : 0 <= v < 100 -> parse_field (dec v) 0 99 = v /\ field_digits (dec v) 0 = Some v /\ dec v <> [42].
Proof.
  intros Hv. assert (forallb (fun v => (parse_field (dec v) 0 99 =? v) && bool_decide (field_digits (dec v) 0 = Some v) && bool_decide (dec v <> [42])) (seqZ 0 100) = true) as H by by vm_compute.
  pose proof (all_below 100 _ H v Hv) as H'. cbv beta in H'. rewrite !andb_true_iff, Z.eqb_eq in H'.
  destruct H' as [[E1 E2%bool_decide_eq_true] E3%bool_decide_eq_true]. done.
Qed.

Lemma parse_print lo hi f : 0 <= lo -> hi < 100 -> field_ok lo hi f -> parse_field (print_field f) lo hi = f.
Proof.
  intros Hlo Hhi [->|Hf]; [done|]. unfold print_field. rewrite (proj2 (Z.eqb_neq f _)) by (unfold CRON_WILDCARD; lia).
  destruct (parse_dec f ltac:(lia)) as (_ & E & Hne). unfold parse_field. rewrite E, bool_decide_eq_false_2 by done.
  destruct (dec f) eqn:Ed; [by unfold dec in Ed; destruct (f <? 10)|].
  rewrite (proj2 (Z.ltb_ge f lo)), (proj2 (Z.ltb_ge hi f)) by lia. done.
Qed.

(** Text of a field: not empty and without blanks. *)
Definition is_token (l : list Z) : Prop := l <> [] /\ Forall (fun c => is_blank c = false) l.

Lemma print_field_token lo hi f : 0 <= lo -> hi < 100 -> field_ok lo hi f -> is_token (print_field f) /\ len (print_field f) <= 2.
Proof.
  intros Hlo Hhi Hf. unfold print_field. destruct (Z.eqb_spec f CRON_WILDCARD); [split; [split; [done|by repeat constructor]|by vm_compute]|].
  assert (0 <= f < 100) as Hb by (destruct Hf; [done|lia]). clear Hf n.
  assert (forallb (fun f => forallb (fun c => negb (is_blank c)) (dec f)) (seqZ 0 100) = true) as H by by vm_compute.
  pose proof (all_below 100 _ H f Hb) as H'. cbv beta in H'. rewrite forallb_forall in H'. split; [split|].
  - unfold dec. by destruct (f <? 10).
  - apply List.Forall_forall. intros c Hc. apply negb_true_iff, H', Hc.
  - unfold dec. destruct (f <? 10); by vm_compute.
Qed.

Lemma skip_token l rest : is_token l -> skip_blanks (l ++ rest) = l ++ rest.
Proof. intros [Hne Hl]. destruct l as [|c l]; [done|]. cbn [app skip_blanks]. by rewrite (Forall_inv Hl). Qed.

Lemma take_token_end l : is_token l -> take_token l = (l, []).
Proof.
  intros [_ Hl]. induction Hl as [|c l Hc _ IH]; [done|]. cbn [take_token]. by rewrite Hc, IH.
Qed.

Lemma take_token_blank l c rest : is_token l -> is_blank c = true -> take_token (l ++ c :: rest) = (l, rest).
Proof.
  intros [_ Hl] Hc. induction Hl as [|x l Hx _ IH]; cbn [app take_token]; [by rewrite Hc|]. by rewrite Hx, IH.
Qed.

Lemma split_cons n l rest : is_token l -> split_fields (S n) (l ++ 32 :: rest) = l :: split_fields n rest.
Proof.
  intros Hl. cbn [split_fields]. rewrite skip_token by done. pose proof (take_token_blank l 32 rest Hl eq_refl) as E.
  destruct l as [|c l]; [by destruct Hl|]. cbn [app] in *. by rewrite E.
Qed.

Lemma split_last n l : is_token l -> split_fields (S n) l = [l].
Proof.
  intros Hl. cbn [split_fields]. pose proof (skip_token l [] Hl) as E. rewrite app_nil_r in E. rewrite E.
  pose proof (take_token_end l Hl) as E'. destruct l as [|c l]; [by destruct Hl|]. rewrite E'. by destruct n.
Qed.

(** A schedule written as five fields (a star or a number in the range of the
    field) separated by blanks is read back as those fields. *)
Theorem schedule_roundtrip t f0 f1 f2 f3 f4 :
  field_ok 0 59 f0 -> field_ok 0 23 f1 -> field_ok 1 31 f2 -> field_ok 1 12 f3 -> field_ok 0 6 f4 ->
  parse_schedule t (print_schedule f0 f1 f2 f3 f4) =
    (mkTask (active t) (id t) f0 f1 f2 f3 f4 (schedule t) (command t) (last t), 0).
Proof.
  intros H0 H1 H2 H3 H4.
  destruct (print_field_token 0 59 f0) as [T0 L0]; [lia|lia|done|]. destruct (print_field_token 0 23 f1) as [T1 L1]; [lia|lia|done|].
  destruct (print_field_token 1 31 f2) as [T2 L2]; [lia|lia|done|]. destruct (print_field_token 1 12 f3) as [T3 L3]; [lia|lia|done|].
  destruct (print_field_token 0 6 f4) as [T4 L4]; [lia|lia|done|].
  assert (forall lo hi f, 0 <= lo -> field_ok lo hi f -> (f <? -1) = false) as Hge.
  { intros lo hi f Hlo [->|Hf]; apply Z.ltb_ge; [done|lia]. }
  unfold parse_schedule. rewrite (proj2 (Z.leb_gt _ _)) by (unfold print_schedule, CRON_STR_LEN; autorewrite with lens; lia).
  unfold print_schedule. cbn [app]. rewrite !split_cons, split_last by done. destruct t. cbv zeta. cbn [active id schedule command last].
  rewrite (parse_print 0 59 f0), (Hge 0 59 f0) by (done || lia). rewrite (parse_print 0 23 f1), (Hge 0 23 f1) by (done || lia).
  rewrite (parse_print 1 31 f2), (Hge 1 31 f2) by (done || lia). rewrite (parse_print 1 12 f3), (Hge 1 12 f3) by (done || lia).
  rewrite (parse_print 0 6 f4), (Hge 0 6 f4) by (done || lia). done.
Qed.

(** What follows the fifth field is ignored, and a number that overflows an int is
    reduced before its range is checked. *)
Lemma schedule_accepts_more :
  (parse_schedule zero_task (print_schedule (-1) (-1) (-1) (-1) (-1) ++ [32; 120])).2 = 0 /\
  parse_field [52; 50; 57; 52; 57; 54; 55; 50; 57; 55] 0 59 = 1.
Proof. by vm_compute. Qed.

(** ** Every matching minute fires once *)

Definition stamp_lt (a b : stamp) : Prop :=
  s_year a < s_year b \/ s_year a = s_year b /\
  (s_month a < s_month b \/ s_month a = s_month b /\
  (s_day a < s_day b \/ s_day a = s_day b /\
  (s_hour a < s_hour b \/ s_hour a = s_hour b /\ s_min a < s_min b))).

Definition stamp_le (a b : stamp) : Prop := stamp_lt a b \/ a = b.

Lemma stamp_lt_irrefl a : ~ stamp_lt a a.
Proof. unfold stamp_lt. lia. Qed.

Lemma stamp_lt_le a b c : stamp_lt a b -> stamp_le b c -> stamp_lt a c.
Proof. unfold stamp_le, stamp_lt. intros H [H'| <-]; lia. Qed.

Lemma stamp_le_trans a b c : stamp_le a b -> stamp_le b c -> stamp_le a c.
Proof. intros [H| ->] H'; [left; by eapply stamp_lt_le|done]. Qed.

(** A clock that never goes back. *)
Fixpoint forward (ts : list stamp) : Prop :=
  match ts with [] => True | now :: ts => Forall (stamp_le now) ts /\ forward ts end.

(** The slot holds a task that the minute is meant for, as the code tests it. *)
Definition due (c : cron) (i : Z) (now : stamp) : bool := active (tasks c).[i] && task_matches (tasks c).[i] now.

(** The schedule of a task selects a minute: each field is a star or has the value
    of that part of the time.  1970-01-01 was a Thursday, day 4 of the week. *)
Definition selected (field value : Z) : Prop := field = -1 \/ field = value.

Record scheduled (t : cron_task) (now : stamp) : Prop := {
  sc_active : active t = true;
  sc_minute : selected (minute t) (s_min now);
  sc_hour : selected (hour t) (s_hour now);
  sc_day : selected (day t) (s_day now);
  sc_month : selected (month t) (s_month now);
  sc_weekday : selected (weekday t) ((unix_days (s_year now) (s_month now) (s_day now) + 4) mod 7);
}.

Definition on_calendar (now : stamp) : Prop := valid_date (s_year now) (s_month now) (s_day now).

Lemma field_matches_selected f v : field_matches f v = true <-> selected f v.
Proof. unfold field_matches, selected. by rewrite orb_true_iff, !Z.eqb_eq. Qed.

Lemma due_scheduled c i now : on_calendar now -> due c i now = true <-> scheduled (tasks c).[i] now.
Proof.
  intros Hd. unfold due, task_matches. rewrite compute_weekday_correct by done.
  rewrite !andb_true_iff, !field_matches_selected. split; [intros (? & [[[[]]]]); by constructor|by intros []].
Qed.

Section firing.
Context (shell_execute_line : list Z -> cron -> cron).

(** The commands of the tasks leave the table of tasks alone. *)
Definition harmless (c : cron) : Prop :=
  forall i c', 0 <= i < 16 -> active (tasks c).[i] = true -> shell_execute_line (command (tasks c).[i]) c' = c'.

(** Ticks at the given minutes, and the slots that ran, with their minutes. *)
Fixpoint run_ticks (c : cron) (ts : list stamp) : cron * list (stamp * Z) :=
  match ts with
  | [] => (c, [])
  | now :: ts =>
      let '(c, slots) := tick_at shell_execute_line c now in
      let '(c, log) := run_ticks c ts in
      (c, ((fun i => (now, i)) <$> slots) ++ log)
  end.

(** The state after some slots of a tick. *)
Definition ticked (now : stamp) (c : cron) (j : Z) (st : cron * list Z) : Prop :=
  initialized st.1 = initialized c /\ len (tasks st.1) = len (tasks c) /\ NoDup st.2 /\
  (forall i, i ∈ st.2 <-> 0 <= i < j /\ due c i now = true /\ last (tasks c).[i] <> now) /\
  (forall i, 0 <= i -> (tasks st.1).[i] = if decide (i ∈ st.2) then set_last (tasks c).[i] now else (tasks c).[i]).

Lemma tick_slot_ok now c j st :
  0 <= j < 16 -> len (tasks c) = 16 -> harmless c -> ticked now c j st -> ticked now c (j + 1) (tick_slot shell_execute_line now j st).
Proof.
  destruct st as [c' log]. intros Hj H16 Hh (Hi & Hl & Hn & Hin & Ht). cbn [fst snd] in *.
  assert (j ∉ log) as Hfresh by (rewrite Hin; lia).
  assert ((tasks c').[j] = (tasks c).[j]) as Ej by (rewrite Ht, decide_False by (done || lia); done).
  assert (skip : (due c j now = false \/ last (tasks c).[j] = now) -> ticked now c (j + 1) (c', log)).
  { intros Hs. split_and!; [done..| |done]. intros i. cbn [snd]. rewrite Hin. split; intros (H1 & H2 & H3); [split_and!; [lia..|done|done]|].
    assert (i <> j) by (intros ->; destruct Hs; congruence). split_and!; [lia..|done|done]. }
  unfold tick_slot. rewrite Ej. unfold due in skip. destruct (active (tasks c).[j]) eqn:Ea; cbn [negb]; [|apply skip; by left].
  unfold cron_check_task. rewrite Ej. destruct (task_matches (tasks c).[j] now) eqn:Em; cbn [negb]; [|apply skip; by left].
  destruct (decide (last (tasks c).[j] = now)) as [El|El]; [apply skip; by right|]. rewrite (Hh j _ Hj Ea).
  split_and!; cbn [fst snd].
  - done.
  - cbn [with_tasks tasks]. by rewrite len_seti.
  - apply list.NoDup_app. split_and!; [done| |by apply NoDup_singleton]. intros i Hi' ->%list_elem_of_singleton. done.
  - intros i. rewrite elem_of_app, list_elem_of_singleton, Hin. split.
    + intros [(H1 & H2 & H3)| ->]; split_and!; try lia; try done. unfold due. by rewrite Ea.
    + intros (H1 & H2 & H3). destruct (decide (i = j)); [by right|left; split_and!; [lia..|done|done]].
  - intros i Hi'. cbn [with_tasks tasks]. rewrite geti_seti by lia. destruct (decide (j = i)) as [<-|Hne].
    + rewrite decide_True by (apply elem_of_app; right; by apply list_elem_of_singleton). done.
    + rewrite Ht by done. destruct (decide (i ∈ log)) as [Hm|Hm].
      * by rewrite decide_True by (apply elem_of_app; by left).
      * rewrite decide_False; [done|]. rewrite elem_of_app, list_elem_of_singleton. intros [?|?]; congruence.
Qed.

Lemma tick_at_ok now c :
  initialized c = true -> len (tasks c) = 16 -> harmless c -> ticked now c 16 (tick_at shell_execute_line c now).
Proof.
  intros Hi Hl Hh. unfold tick_at. rewrite Hi. cbn [negb].
  apply (for_each_ind (tick_slot shell_execute_line now) (ticked now c) 16 0 (c, [])).
  - split_and!; cbn [fst snd]; [done|done|constructor|intros i; rewrite elem_of_nil; split; [done|lia]|].
    intros i Hi'. cbn [fst snd]. rewrite decide_False; [done|apply not_elem_of_nil].
  - intros j t Hj. by apply tick_slot_ok; [lia|..].
Qed.

Lemma run_ticks_ok c ts :
  initialized c = true -> len (tasks c) = 16 -> harmless c -> forward ts ->
  (forall now i, now ∈ ts -> 0 <= i < 16 -> stamp_le (last (tasks c).[i]) now) ->
  NoDup (run_ticks c ts).2 /\
  (forall now i, (now, i) ∈ (run_ticks c ts).2 <-> now ∈ ts /\ 0 <= i < 16 /\ due c i now = true /\ last (tasks c).[i] <> now).
Proof.
  revert c. induction ts as [|now ts IH]; intros c Hi Hl Hh Hf Hle; cbn [run_ticks].
  { split; [by apply list.NoDup_nil|]. intros t i. cbn [snd]. rewrite !elem_of_nil. tauto. }
  destruct Hf as [Hnow Hf]. pose proof (tick_at_ok now c Hi Hl Hh) as Ht. destruct (tick_at shell_execute_line c now) as [c1 slots].
  destruct Ht as (Hi1 & Hl1 & Hn & Hin & Ht). cbn [fst snd] in *. rewrite Hi in Hi1. rewrite Hl in Hl1.
  assert (Hlast : forall i, 0 <= i -> last (tasks c1).[i] = if decide (i ∈ slots) then now else last (tasks c).[i]).
  { intros i Hi'. rewrite Ht by done. by destruct (decide (i ∈ slots)). }
  assert (Hdue : forall i t, 0 <= i -> due c1 i t = due c i t).
  { intros i t Hi'. unfold due. rewrite Ht by done. by destruct (decide (i ∈ slots)). }
  assert (Hh1 : harmless c1).
  { intros i c' Hi' Ha. specialize (Ht i ltac:(lia)). specialize (Hh i c' Hi'). rewrite Ht in Ha |- *. destruct (decide (i ∈ slots)); by apply Hh. }
  assert (Hafter : forall t, t ∈ ts -> stamp_le now t) by (intros t; by apply (proj1 (list.Forall_forall _ _) Hnow)).
  destruct (IH c1 Hi1 Hl1 Hh1 Hf) as [Hnd Hmem].
  { intros t i Ht' Hi'. rewrite Hlast by lia. destruct (decide (i ∈ slots)); [by apply Hafter|apply Hle; [by right|done]]. }
  destruct (run_ticks c1 ts) as [c2 log]. cbn [fst snd] in *.
  assert (Hpair : forall t i, (t, i) ∈ ((fun i => (now, i)) <$> slots) <-> t = now /\ i ∈ slots).
  { intros t i. rewrite list_elem_of_fmap. split; [intros (k & [= -> ->] & Hk); done|intros [-> Hk]; by exists i]. }
  assert (Hnew : forall t i, (t, i) ∈ log <-> t ∈ ts /\ 0 <= i < 16 /\ due c i t = true /\ (if decide (i ∈ slots) then now else last (tasks c).[i]) <> t).
  { intros t i. rewrite Hmem. split; intros (H1 & H2 & H3 & H4); (split_and!; [done|lia|lia| |]);
      [by rewrite Hdue in H3 by lia|by rewrite Hlast in H4 by lia|by rewrite Hdue by lia|by rewrite Hlast by lia]. }
  assert (Hnot : forall t i, i ∉ slots -> t = now -> 0 <= i < 16 -> due c i t = true -> last (tasks c).[i] = t).
  { intros t i Hs -> Hi' Hd. destruct (decide (last (tasks c).[i] = now)); [done|]. destruct Hs. by apply Hin. }
  split.
  - apply list.NoDup_app. split_and!; [by apply NoDup_fmap_2; [intros ??[=]|]| |done].
    intros [t i] [-> Hs]%Hpair (_ & _ & _ & Hne)%Hnew. by rewrite decide_True in Hne.
  - intros t i. rewrite elem_of_app, Hpair, Hnew, elem_of_cons. destruct (decide (i ∈ slots)) as [Hs|Hs].
    + apply Hin in Hs as Hs'. destruct Hs' as (Hi' & Hd & Hne).
      assert (stamp_lt (last (tasks c).[i]) now) as Hlt by (destruct (Hle now i) as [|]; [by left|done|done|done]).
      split.
      * intros [[-> _]|(Ht' & _ & Hd' & _)]; [by split_and!; [left|lia|lia|..]|]. split_and!; [by right|lia|lia|done|].
        intros E. apply (stamp_lt_irrefl t). rewrite <- E at 1. eapply stamp_lt_le; [exact Hlt|by apply Hafter].
      * intros (Ht' & _ & Hd' & _). destruct (decide (t = now)) as [->|Hne']; [by left|]. right.
        destruct Ht' as [|Ht']; [done|]. split_and!; [done|lia|lia|done|congruence].
    + split.
      * intros [[_ ?]|(Ht' & Hi' & Hd & Hne)]; [done|]. split_and!; [by right|lia|lia|done|done].
      * intros (Ht' & Hi' & Hd & Hne). right. destruct Ht' as [->|Ht']; [by destruct Hne; apply Hnot|]. split_and!; [done|lia|lia|done|done].
Qed.

(** C27: When the clock shows dates of the calendar and never goes back, and the
    commands of the tasks do not change the table of tasks (the shell could: it has
    cron add and cron remove), each task runs exactly once in every minute of a
    tick that its schedule selects (minute, hour, day, month and day of the week
    each a star or equal), and in no other, however many ticks fall into a minute. *)
Theorem cron_fires_once c ts :
  initialized c = true -> len (tasks c) = 16 -> harmless c -> forward ts ->
  (forall now, now ∈ ts -> on_calendar now) ->
  (forall now i, now ∈ ts -> 0 <= i < 16 -> stamp_lt (last (tasks c).[i]) now) ->
  NoDup (run_ticks c ts).2 /\
  (forall now i, (now, i) ∈ (run_ticks c ts).2 <-> now ∈ ts /\ 0 <= i < 16 /\ scheduled (tasks c).[i] now).
Proof.
  intros Hi Hl Hh Hf Hc Hlt. destruct (run_ticks_ok c ts Hi Hl Hh Hf) as [Hn Hm]; [intros; left; by apply Hlt|]. split; [done|].
  intros now i. rewrite Hm. split.
  - intros (Ht & Hi' & Hd & _). split; [done|]. split; [done|]. by apply due_scheduled; [apply Hc|].
  - intros (Ht & Hi' & Hd). split; [done|]. split; [done|]. split; [by apply due_scheduled; [apply Hc|]|].
    intros E. apply (stamp_lt_irrefl now). rewrite <- E at 1. by apply Hlt.
Qed.
End firing.

(** ** Witnesses *)

Lemma compute_weekday_correct_witness : compute_weekday 2024 2 29 = (unix_days 2024 2 29 + 4) mod 7.
Proof. apply (compute_weekday_correct 2024 2 29). split_and!; by vm_compute. Defined.

Lemma schedule_roundtrip_witness :
  parse_schedule zero_task (print_schedule 30 (-1) 1 12 (-1)) = (mkTask false 0 30 (-1) 1 12 (-1) [] [] zero_stamp, 0).
Proof.
  apply (schedule_roundtrip zero_task 30 (-1) 1 12 (-1)); [right|left|right|right|left]; try done; lia.
Defined.

(** One task at half past every hour, and two ticks in that minute. *)
Definition demo_cron : cron := (cron_add cron_init (print_schedule 30 (-1) (-1) (-1) (-1)) [108; 115]).1.
Definition demo_minute : stamp := mkStamp 2024 2 29 11 30.
Definition demo_ticks : list stamp := [mkStamp 2024 2 29 11 29; demo_minute; demo_minute; mkStamp 2024 2 29 11 31].

Lemma cron_fires_once_witness :
  (demo_minute, 0) ∈ (run_ticks (fun _ c => c) demo_cron demo_ticks).2 /\ NoDup (run_ticks (fun _ c => c) demo_cron demo_ticks).2.
Proof.
  assert (forall now, now ∈ demo_ticks -> s_year now = 2024 /\ s_month now = 2 /\ s_day now = 29) as Hday.
  { intros now Hnow. repeat (apply elem_of_cons in Hnow as [->|Hnow]; [done|]). by apply elem_of_nil in Hnow. }
  destruct (cron_fires_once (fun _ c => c) demo_cron demo_ticks) as [Hn Hm]; [done|done|done|..].
  - repeat (split; [repeat constructor; unfold stamp_le, stamp_lt; cbn; first [right; reflexivity|left; lia]|]). done.
  - intros now (Ey & Em & Ed)%Hday. unfold on_calendar. rewrite Ey, Em, Ed. split_and!; by vm_compute.
  - intros now i (Ey & _)%Hday Hi. assert (last (tasks demo_cron).[i] = zero_stamp) as ->.
    { assert (forallb (fun i => bool_decide (last (tasks demo_cron).[i] = zero_stamp)) (seqZ 0 16) = true) as H by by vm_compute.
      exact (bool_decide_eq_true_1 _ (all_below 16 _ H i Hi)). }
    unfold stamp_lt. rewrite Ey. cbn. lia.
  - split; [|exact Hn]. apply Hm. split; [right; by left|]. split; [lia|]. constructor; by first [by left|by right|by vm_compute].
Defined.
