(* ===== verification/Tarfs.v ===== *)
(** * The archive file system: kernel/fs/tar_extract.c

    Strings are lists of characters that are not 0, the archive is a list of
    bytes.  A function that writes past one of its buffers or reads past the archive
    has no result ([None]). *)

From S2P Require Import Prelude.

Definition MAX_TARFS_ENTRIES : Z := 8192.
Definition MAX_TARFS_OPEN : Z := 128.
Definition TAR_BLOCK_SIZE : Z := 512.
Definition TARFS_FD_BASE : Z := 200.
Definition MAX_SYMLINK_DEPTH : nat := 10.

Record tarfs_entry := mkEntry {
  e_used : bool; name : list Z; offset : Z; size : Z; is_symlink : bool; link_target : list Z }.
#[export] Instance tarfs_entry_inhabited : Inhabited tarfs_entry := populate (mkEntry false [] 0 0 false []).

Record tarfs_open_file := mkOpen { o_used : bool; entry_idx : Z; pos : Z }.
#[export] Instance tarfs_open_inhabited : Inhabited tarfs_open_file := populate (mkOpen false 0 0).

Record tarfs := mkTarfs {
  entries : list tarfs_entry; opens : list tarfs_open_file; blob : list Z; mounted : bool; file_count : Z }.

Definition with_opens (t : tarfs) (os : list tarfs_open_file) : tarfs :=
  mkTarfs (entries t) os (blob t) (mounted t) (file_count t).

(** ** Names *)

Definition SLASH : Z := 47.
Definition DOT : Z := 46.

(** The string at the start of an array. *)
Fixpoint c_string (l : list Z) : list Z :=
  match l with [] => [] | c :: l => if c =? 0 then [] else c :: c_string l end.

(** "./" and then one "/" are dropped. *)
Definition strip_dot (src : list Z) : list Z :=
  match src with a :: b :: rest => if (a =? DOT) && (b =? SLASH) then rest else src | _ => src end.

Definition strip_slash (src : list Z) : list Z :=
  match src with a :: rest => if a =? SLASH then rest else src | _ => src end.

(** dst has 256 characters: "memmove(dst + 1, dst, strlen(dst) + 1)" needs one
    more for a string of 255. *)
Definition normalize_name (src : list Z) : option (list Z) :=
  let dst := take 255 (strip_slash (strip_dot src)) in
  match dst with
  | c :: _ => if c =? SLASH then Some dst else if len dst =? 255 then None else Some (SLASH :: dst)
  | [] => Some [SLASH]
  end.

Definition find_entry (t : tarfs) (path : list Z) : option Z :=
  norm ← normalize_name path;
  Some (default (-1) (find_from (fun i => e_used (entries t).[i] && bool_decide (name (entries t).[i] = norm)) (Z.to_nat MAX_TARFS_ENTRIES) 0)).

(** Up to the last slash, "/" if there is none. *)
Fixpoint last_slash (l : list Z) : option nat :=
  match l with
  | [] => None
  | c :: l => match last_slash l with Some k => Some (S k) | None => if c =? SLASH then Some O else None end
  end.

Definition dir_of (current : list Z) : list Z :=
  match last_slash current with Some k => take (S k) current | None => [SLASH] end.

(** The path in [resolved], or -1. *)
Fixpoint resolve_loop (depth : nat) (t : tarfs) (current : list Z) : option (list Z + Z) :=
  match depth with
  | O => Some (inr (-1))
  | S depth =>
      idx ← find_entry t current;
      if idx <? 0 then Some (inr (-1))
      else
        let e := (entries t).[idx] in
        if negb (is_symlink e) then Some (inl (take 255 current))
        else
          let target := link_target e in
          if match target with c :: _ => c =? SLASH | [] => false end then resolve_loop depth t (take 255 target)
          else
            let dir := dir_of (take 255 current) in
            if 256 <=? len dir + len target then Some (inr (-1)) else resolve_loop depth t (dir ++ target)
  end.

Definition tarfs_resolve_symlink (t : tarfs) (path : list Z) : option (list Z + Z) :=
  current ← normalize_name path; resolve_loop MAX_SYMLINK_DEPTH t current.

(** The target, or -1; [bufsz] > 0. *)
Definition tarfs_readlink (t : tarfs) (path : list Z) (bufsz : Z) : option (list Z + Z) :=
  idx ← find_entry t path;
  Some (if (idx <? 0) || negb (is_symlink (entries t).[idx]) then inr (-1)
        else inl (take (Z.to_nat (bufsz - 1)) (link_target (entries t).[idx]))).

(** ** Files *)

(** The path the symbolic links lead to, the path itself if they do not. *)
Definition resolved_path (t : tarfs) (path : list Z) : option (list Z) :=
  r ← tarfs_resolve_symlink t path;
  Some (match r with inl resolved => resolved | inr _ => path end).

Definition tarfs_open (t : tarfs) (path : list Z) : option (tarfs * Z) :=
  path ← resolved_path t path;
  idx ← find_entry t path;
  Some (if (idx <? 0) || is_symlink (entries t).[idx] then (t, -1)
        else
          match find_from (fun i => negb (o_used (opens t).[i])) (Z.to_nat MAX_TARFS_OPEN) 0 with
          | Some i => (with_opens t (opens t).[i <- mkOpen true idx 0], i + TARFS_FD_BASE)
          | None => (t, -1)
          end).

Definition tarfs_close (t : tarfs) (fd : Z) : tarfs * Z :=
  let fd := fd - TARFS_FD_BASE in
  if (fd <? 0) || (MAX_TARFS_OPEN <=? fd) then (t, -1)
  else
    let o := (opens t).[fd] in (with_opens t (opens t).[fd <- mkOpen false (entry_idx o) (pos o)], 0).

(** "memcpy(buf, tarfs_blob + off, n)" *)
Definition blob_bytes (t : tarfs) (off n : Z) : option (list Z) :=
  if off + n <=? len (blob t) then Some (take (Z.to_nat n) (drop (Z.to_nat off) (blob t))) else None.

(** The new state, the result, and the bytes in the buffer. *)
Definition tarfs_read (t : tarfs) (fd count : Z) : option (tarfs * Z * list Z) :=
  let fd := fd - TARFS_FD_BASE in
  if (fd <? 0) || (MAX_TARFS_OPEN <=? fd) || negb (o_used (opens t).[fd]) then Some (t, -1, [])
  else
    let o := (opens t).[fd] in
    let e := (entries t).[entry_idx o] in
    if size e <=? pos o then Some (t, 0, [])
    else
      let avail := size e - pos o in
      let count := if avail <? count then avail else count in
      bytes ← blob_bytes t (offset e + pos o) count;
      Some (with_opens t (opens t).[fd <- mkOpen true (entry_idx o) (pos o + count)], count, bytes).

(** The result and the size. *)
Definition tarfs_stat (t : tarfs) (path : list Z) : option (Z * Z) :=
  path ← resolved_path t path;
  idx ← find_entry t path;
  Some (if idx <? 0 then (-1, 0) else (0, size (entries t).[idx])).

(** ** Reading the archive *)

(** Eleven octal digits, up to the first other character. *)
Fixpoint octal (l : list Z) (v : Z) : Z :=
  match l with
  | [] => v
  | c :: l => if (48 <=? c) && (c <=? 55) then octal l (u64 (v * 8 + (c - 48))) else v
  end.

Definition header_size (header : list Z) : Z := octal (take 11 (drop 124 header)) 0.
Definition round_block (v : Z) : Z := Z.land (u64 (v + TAR_BLOCK_SIZE - 1)) (u64 (Z.lnot (TAR_BLOCK_SIZE - 1))).

(** The first free slot; without one the entry is dropped. *)
Definition add_entry (es : list tarfs_entry) (n : list Z) (data_offset file_size : Z) (symlink : bool) (target : list Z) : option (list tarfs_entry) :=
  i ← find_from (fun i => negb (e_used es.[i])) (Z.to_nat MAX_TARFS_ENTRIES) 0;
  Some es.[i <- if symlink then mkEntry true (take 255 n) 0 0 true (take 255 target)
                else mkEntry true (take 255 n) data_offset file_size false []].

(** "while (ptr + TAR_BLOCK_SIZE <= end)": the entries and their number.  [fuel] is
    the number of blocks. *)
Fixpoint scan (fuel : nat) (b : list Z) (ptr : Z) (es : list tarfs_entry) (count : Z) : option (list tarfs_entry * Z) :=
  match fuel with
  | O => None
  | S fuel =>
      if len b <? ptr + TAR_BLOCK_SIZE then Some (es, count)
      else
        let header := take 512 (drop (Z.to_nat ptr) b) in
        if header.[0] =? 0 then Some (es, count)
        else
          let typeflag := header.[156] in
          let skip := round_block (header_size header) in
          let regular := (typeflag =? 48) || (typeflag =? 0) || (typeflag =? 55) in
          let symlink := typeflag =? 50 in
          if (typeflag =? 120) || (typeflag =? 103) || (negb regular && negb symlink)
          then scan fuel b (ptr + TAR_BLOCK_SIZE + skip) es count
          else
            n ← normalize_name (c_string header);
            if bool_decide (n = [SLASH]) then scan fuel b (ptr + TAR_BLOCK_SIZE) es count
            else
              match add_entry es n (ptr + TAR_BLOCK_SIZE) (header_size header) symlink (c_string (drop 157 header)) with
              | Some es => scan fuel b (ptr + TAR_BLOCK_SIZE + skip) es (count + 1)
              | None => scan fuel b (ptr + TAR_BLOCK_SIZE + skip) es count
              end
  end.

Definition no_entries : list tarfs_entry := replicate (Z.to_nat MAX_TARFS_ENTRIES) (mkEntry false [] 0 0 false []).
Definition no_opens : list tarfs_open_file := replicate (Z.to_nat MAX_TARFS_OPEN) (mkOpen false 0 0).

Definition tarfs_init (t : tarfs) (b : list Z) : option tarfs :=
  if len b <? TAR_BLOCK_SIZE then Some t
  else
    '(es, count) ← scan (S (Z.to_nat (len b / TAR_BLOCK_SIZE))) b 0 no_entries 0;
    Some (mkTarfs es no_opens b true count).

(** ** Archives *)

(** What an archive holds: files and symbolic links, by their paths. *)
Inductive item : Type :=
| File (path data : list Z)
| Link (path target : list Z).

Definition item_path (x : item) : list Z := match x with File p _ => p | Link p _ => p end.
Definition item_data (x : item) : list Z := match x with File _ d => d | Link _ _ => [] end.
Definition item_target (x : item) : list Z := match x with File _ _ => [] | Link _ t => t end.
Definition item_type (x : item) : Z := match x with File _ _ => 48 | Link _ _ => 50 end.

Definition pad (n : nat) (l : list Z) : list Z := l ++ replicate (n - length l) 0.

(** The [k] octal digits of a number. *)
Fixpoint oct (k : nat) (v : Z) : list Z :=
  match k with O => [] | S k => oct k (v / 8) ++ [48 + v mod 8] end.

Definition header_of (x : item) : list Z :=
  pad 100 (item_path x) ++ replicate 24 0 ++ oct 11 (len (item_data x)) ++ replicate 21 0 ++
  [item_type x] ++ pad 100 (item_target x) ++ replicate 255 0.

(** Blocks of 512 bytes. *)
Definition padding (d : list Z) : nat := Z.to_nat (- len d mod 512).
Definition item_blocks (x : item) : list Z := header_of x ++ item_data x ++ replicate (padding (item_data x)) 0.
Definition archive (xs : list item) : list Z := (xs ≫= item_blocks) ++ replicate 1024 0.

(** A string of less than 100 characters. *)
Definition is_name (l : list Z) : Prop := Forall (fun c => c <> 0) l /\ (length l < 100)%nat.

(** A relative path without "./" in front. *)
Definition is_path (p : list Z) : Prop :=
  is_name p /\ strip_slash (strip_dot p) = p /\ match p with c :: _ => c <> SLASH | [] => False end.

Definition item_ok (x : item) : Prop :=
  is_path (item_path x) /\ is_name (item_target x) /\ len (item_data x) < 8 ^ 11.

(** The entry of an item whose header is at [off], and those of a list of items. *)
Definition entry_of (off : Z) (x : item) : tarfs_entry :=
  match x with
  | File p d => mkEntry true (SLASH :: p) (off + 512) (len d) false []
  | Link p t => mkEntry true (SLASH :: p) 0 0 true t
  end.

Fixpoint layout (off : Z) (xs : list item) : list tarfs_entry :=
  match xs with [] => [] | x :: xs => entry_of off x :: layout (off + len (item_blocks x)) xs end.

(** ** The header is read back *)

Lemma oct_length k v : length (oct k v) = k.
Proof. revert v. induction k as [|k IH]; intros v; [done|]. cbn [oct]. rewrite length_app, IH. simpl. lia. Qed.

Lemma octal_app l m v : Forall (fun c => 48 <= c <= 55) l -> octal (l ++ m) v = octal m (octal l v).
Proof.
  intros Hl. revert v. induction Hl as [|c l Hc _ IH]; intros v; [done|]. cbn [app octal].
  rewrite (proj2 (Z.leb_le 48 c)), (proj2 (Z.leb_le c 55)) by lia. apply IH.
Qed.

Lemma oct_digits k v : Forall (fun c => 48 <= c <= 55) (oct k v).
Proof.
  revert v. induction k as [|k IH]; intros v; [constructor|]. apply Forall_app. split; [apply IH|].
  constructor; [zlia|constructor].
Qed.

Lemma octal_oct k v : 0 <= v < 8 ^ Z.of_nat k -> (k <= 20)%nat -> octal (oct k v) 0 = v.
Proof.
  revert v. induction k as [|k IH]; intros v Hv Hk; [cbn in *; lia|]. cbn [oct].
  rewrite Nat2Z.inj_succ, Z.pow_succ_r in Hv by lia. rewrite octal_app by apply oct_digits. rewrite IH by (zlia || lia).
  cbn [octal]. rewrite (proj2 (Z.leb_le 48 _)), (proj2 (Z.leb_le _ 55)) by zlia. cbn [andb].
  assert (8 ^ Z.of_nat k <= 8 ^ 19) by (apply Z.pow_le_mono_r; lia). rewrite wrap_small by zlia. zlia.
Qed.

Lemma pad_length n l : (length l <= n)%nat -> length (pad n l) = n.
Proof. intros H. unfold pad. rewrite length_app, length_replicate. lia. Qed.

Lemma c_string_pad n l rest : Forall (fun c => c <> 0) l -> (length l < n)%nat -> c_string (pad n l ++ rest) = l.
Proof.
  intros Hl Hn. unfold pad. rewrite <- app_assoc. destruct (n - length l)%nat as [|k] eqn:E; [lia|]. clear Hn E. cbn [replicate app].
  induction Hl as [|c l Hc _ IH]; [done|]. cbn [app c_string]. rewrite (proj2 (Z.eqb_neq c 0)) by done. by rewrite IH.
Qed.

Lemma drop_header n (a b : list Z) : length a = n -> drop n (a ++ b) = b.
Proof. intros <-. apply drop_app_length. Qed.

Section header.
Context (x : item) (Hx : item_ok x).

Lemma header_length : length (header_of x) = 512%nat.
Proof.
  destruct Hx as (((_ & Hp) & _) & (_ & Ht) & _). unfold header_of.
  rewrite !length_app, !length_replicate, oct_length, !pad_length by lia. done.
Qed.

Lemma header_size_ok rest : header_size (header_of x ++ rest) = len (item_data x).
Proof.
  destruct Hx as (((_ & Hp) & _) & _ & Hd). unfold header_size, header_of.
  rewrite <- !app_assoc. change 124%nat with (100 + 24)%nat. rewrite <- drop_drop, drop_header by (apply pad_length; lia).
  rewrite drop_header by apply length_replicate. rewrite take_app_length' by by rewrite oct_length.
  apply octal_oct; [|lia]. unfold len in *. change (8 ^ Z.of_nat 11) with (8 ^ 11). lia.
Qed.

Lemma header_type rest : (header_of x ++ rest).[156] = item_type x.
Proof.
  destruct Hx as (((_ & Hp) & _) & _ & Hd). unfold geti. change (Z.to_nat 156) with (100 + (24 + (11 + (21 + 0))))%nat.
  rewrite list_lookup_total_alt, <- lookup_drop. unfold header_of. rewrite <- !app_assoc.
  rewrite drop_header by (apply pad_length; lia). rewrite <- lookup_drop, drop_header by apply length_replicate.
  rewrite <- lookup_drop, drop_header by apply oct_length. rewrite <- lookup_drop, drop_header by apply length_replicate. done.
Qed.

Lemma header_name rest : c_string (header_of x ++ rest) = item_path x.
Proof.
  destruct Hx as (((Hn & Hp) & _) & _ & _). unfold header_of. rewrite <- app_assoc. apply c_string_pad; [done|lia].
Qed.

Lemma header_target rest : c_string (drop 157 (header_of x ++ rest)) = item_target x.
Proof.
  destruct Hx as (((_ & Hp) & _) & (Hn & Ht) & _). unfold header_of. rewrite <- !app_assoc.
  change 157%nat with (100 + (24 + (11 + (21 + 1))))%nat.
  rewrite <- drop_drop, drop_header by (apply pad_length; lia). rewrite <- drop_drop, drop_header by apply length_replicate.
  rewrite <- drop_drop, drop_header by apply oct_length. rewrite <- drop_drop, drop_header by apply length_replicate.
  rewrite drop_header by done. apply c_string_pad; [done|lia].
Qed.

Lemma header_first rest : (header_of x ++ rest).[0] <> 0.
Proof.
  destruct Hx as (((Hn & Hp) & _ & Hc) & _ & _). unfold header_of, pad. destruct (item_path x) as [|c p]; [done|].
  by apply Forall_inv in Hn.
Qed.
End header.

(** ** The table is filled in order *)

(** The first slots taken, the others free. *)
Definition filled (es : list tarfs_entry) : list tarfs_entry :=
  es ++ replicate (Z.to_nat MAX_TARFS_ENTRIES - length es) (mkEntry false [] 0 0 false []).

Definition used (es : list tarfs_entry) : Prop := Forall (fun e => e_used e = true) es.

Lemma filled_at es i : 0 <= i < len es -> (filled es).[i] = es.[i].
Proof. intros Hi. unfold filled. rewrite geti_app, decide_True by lia. done. Qed.

Lemma filled_free es i : len es <= i < MAX_TARFS_ENTRIES -> (filled es).[i] = mkEntry false [] 0 0 false [].
Proof.
  intros Hi. pose proof (len_nonneg es). unfold filled. rewrite geti_app, decide_False by lia. apply geti_replicate.
  unfold len, MAX_TARFS_ENTRIES in *. lia.
Qed.

Lemma used_at es i : used es -> 0 <= i < len es -> e_used es.[i] = true.
Proof. intros Hu Hi. exact (proj1 (Forall_lookup _ _) Hu _ _ (geti_lookup es i Hi)). Qed.

Lemma filled_snoc es e : len es < MAX_TARFS_ENTRIES -> (filled es).[len es <- e] = filled (es ++ [e]).
Proof.
  unfold len, MAX_TARFS_ENTRIES. intros Hl. unfold filled, seti. rewrite Nat2Z.id, insert_app_r_alt, Nat.sub_diag by lia.
  rewrite <- app_assoc. f_equal. rewrite length_app. cbn [length].
  replace (Z.to_nat MAX_TARFS_ENTRIES - length es)%nat with (S (Z.to_nat MAX_TARFS_ENTRIES - (length es + 1)))%nat by (unfold MAX_TARFS_ENTRIES; lia).
  done.
Qed.

Lemma free_slot es : used es -> len es < MAX_TARFS_ENTRIES ->
  find_from (fun i => negb (e_used (filled es).[i])) (Z.to_nat MAX_TARFS_ENTRIES) 0 = Some (len es).
Proof.
  intros Hu Hl. pose proof (len_nonneg es). apply find_from_Some. split; [unfold MAX_TARFS_ENTRIES in *; lia|]. split.
  - by rewrite filled_free by lia.
  - intros k Hk. by rewrite filled_at, used_at by (done || lia).
Qed.

Lemma find_entry_ok t es path norm i :
  entries t = filled es -> len es <= MAX_TARFS_ENTRIES -> used es -> NoDup (name <$> es) ->
  normalize_name path = Some norm -> 0 <= i < len es -> name es.[i] = norm -> find_entry t path = Some i.
Proof.
  intros He Hl Hu Hn Hp Hi Ei. unfold find_entry. rewrite Hp, He. cbn [mbind option_bind]. do 1 f_equal.
  assert (find_from (fun i => e_used (filled es).[i] && bool_decide (name (filled es).[i] = norm)) (Z.to_nat MAX_TARFS_ENTRIES) 0 = Some i) as ->; [|done].
  apply find_from_Some. split; [unfold MAX_TARFS_ENTRIES in *; lia|]. split.
  - rewrite filled_at, used_at by (done || lia). by rewrite bool_decide_eq_true_2.
  - intros k Hk. rewrite filled_at by lia. apply andb_false_iff. right. apply bool_decide_eq_false_2. intros Ek.
    pose proof (geti_lookup es k ltac:(lia)) as Lk. pose proof (geti_lookup es i ltac:(lia)) as Li.
    assert (Z.to_nat k = Z.to_nat i); [|lia].
    refine (NoDup_lookup _ _ _ norm Hn _ _); rewrite list_lookup_fmap; [rewrite Lk|rewrite Li]; cbn; congruence.
Qed.

(** ** The scan *)

Lemma normalize_path p : is_path p -> normalize_name p = Some (SLASH :: p).
Proof.
  intros ((_ & Hl) & Hs & Hc). unfold normalize_name. rewrite Hs. rewrite take_ge by lia. destruct p as [|c p]; [done|].
  rewrite (proj2 (Z.eqb_neq c SLASH)) by done. rewrite (proj2 (Z.eqb_neq _ 255)) by (unfold len; lia). done.
Qed.

Lemma round_block_ok d : len d < 8 ^ 11 -> round_block (len d) = len d + Z.of_nat (padding d).
Proof.
  intros Hd. pose proof (len_nonneg d). unfold round_block, padding, TAR_BLOCK_SIZE. rewrite (wrap_small 64 (len d + 512 - 1)) by lia.
  rewrite Z2Nat.id by (apply Z.mod_pos_bound; lia).
  replace (u64 (Z.lnot (512 - 1))) with (Z.ldiff (Z.ones 64) (Z.ones 9)) by by vm_compute.
  rewrite Z.ldiff_land, Z.land_assoc, (Z.land_ones _ 64), Z.mod_small, <- Z.ldiff_land by lia.
  rewrite Z.ldiff_ones_r, Z.shiftl_mul_pow2, Z.shiftr_div_pow2 by lia. change (2 ^ 9) with 512. zlia.
Qed.

Lemma blocks_length x : item_ok x -> len (item_blocks x) = 512 + round_block (len (item_data x)).
Proof.
  intros Hx. pose proof (header_length x Hx) as Hh. destruct Hx as (_ & _ & Hd). rewrite round_block_ok by done. unfold item_blocks.
  unfold len in *. rewrite !length_app, length_replicate. lia.
Qed.

Lemma scan_item fuel pre x rest es count :
  item_ok x -> used es -> len es < MAX_TARFS_ENTRIES ->
  scan (S fuel) (pre ++ item_blocks x ++ rest) (len pre) (filled es) count =
  scan fuel (pre ++ item_blocks x ++ rest) (len pre + len (item_blocks x)) (filled (es ++ [entry_of (len pre) x])) (count + 1).
Proof.
  intros Hx Hu Hl. pose proof (header_length x Hx) as Hh. pose proof (blocks_length x Hx) as Hb.
  pose proof Hx as (Hp & Ht & Hd). cbn [scan].
  assert (0 <= round_block (len (item_data x))) as Hr by (rewrite round_block_ok by done; pose proof (len_nonneg (item_data x)); lia).
  rewrite (proj2 (Z.ltb_ge _ _)) by (unfold TAR_BLOCK_SIZE; rewrite !len_app, Hb; pose proof (len_nonneg rest); lia).
  assert (take 512 (drop (Z.to_nat (len pre)) (pre ++ item_blocks x ++ rest)) = header_of x ++ []) as ->.
  { unfold len. rewrite Nat2Z.id, drop_app_length. unfold item_blocks. rewrite <- app_assoc, <- Hh, take_app_length. by rewrite app_nil_r. }
  rewrite (proj2 (Z.eqb_neq _ 0)) by by apply header_first. rewrite header_type, header_size_ok, header_name, header_target by done.
  rewrite normalize_path by done. cbn [mbind option_bind].
  assert ((item_type x =? 120) || (item_type x =? 103) ||
    (negb ((item_type x =? 48) || (item_type x =? 0) || (item_type x =? 55)) && negb (item_type x =? 50)) = false) as -> by by destruct x.
  rewrite bool_decide_eq_false_2; [|intros [= E]; destruct Hp as (_ & _ & Hc); by rewrite E in Hc].
  unfold add_entry. rewrite free_slot by done. cbn [mbind option_bind].
  assert (length (SLASH :: item_path x) <= 255)%nat as Hlen by (destruct Hp as ((_ & ?) & _); simpl; lia).
  assert (length (item_target x) <= 255)%nat as Hlen' by (destruct Ht; lia).
  rewrite (take_ge (SLASH :: item_path x)), (take_ge (item_target x)) by done.
  rewrite filled_snoc by done. rewrite Hb. unfold TAR_BLOCK_SIZE. rewrite Z.add_assoc. by destruct x.
Qed.

Lemma scan_end fuel pre es count :
  scan (S fuel) (pre ++ replicate 1024 0) (len pre) es count = Some (es, count).
Proof.
  cbn [scan]. rewrite (proj2 (Z.ltb_ge _ _)) by (rewrite len_app; unfold len, TAR_BLOCK_SIZE; rewrite length_replicate; lia).
  assert (take 512 (drop (Z.to_nat (len pre)) (pre ++ replicate 1024 0)) = replicate 512 0) as ->.
  { unfold len. by rewrite Nat2Z.id, drop_app_length. }
  done.
Qed.

Lemma entry_of_used off x : e_used (entry_of off x) = true.
Proof. by destruct x. Qed.

Lemma scan_items fuel pre xs es count :
  Forall item_ok xs -> used es -> len es + len xs <= MAX_TARFS_ENTRIES -> (length xs < fuel)%nat ->
  scan fuel (pre ++ archive xs) (len pre) (filled es) count = Some (filled (es ++ layout (len pre) xs), count + len xs).
Proof.
  intros Hxs. revert fuel pre es count. induction Hxs as [|x xs Hx _ IH]; intros fuel pre es count Hu Hl Hf.
  - destruct fuel as [|fuel]; [simpl in Hf; lia|]. change (archive []) with (replicate 1024 0). rewrite scan_end.
    cbn [layout]. by rewrite app_nil_r, Z.add_0_r.
  - destruct fuel as [|fuel]; [lia|]. rewrite len_cons in Hl. pose proof (len_nonneg xs).
    assert (archive (x :: xs) = item_blocks x ++ archive xs) as -> by (unfold archive; cbn [mbind list_bind]; by rewrite app_assoc).
    rewrite scan_item by (done || lia). rewrite app_assoc, <- len_app. rewrite IH.
    + cbn [layout]. rewrite <- app_assoc, len_app, len_cons. cbn [app]. do 2 f_equal. lia.
    + apply Forall_app. split; [done|]. constructor; [apply entry_of_used|constructor].
    + rewrite len_app, len_cons, len_nil. lia.
    + simpl in Hf. lia.
Qed.

Lemma layout_app off xs ys : layout off (xs ++ ys) = layout off xs ++ layout (off + len (xs ≫= item_blocks)) ys.
Proof.
  revert off. induction xs as [|x xs IH]; intros off; cbn [app layout mbind list_bind]; [by rewrite Z.add_0_r|].
  rewrite IH, len_app. by rewrite Z.add_assoc.
Qed.

Lemma layout_length off xs : len (layout off xs) = len xs.
Proof. revert off. induction xs as [|x xs IH]; intros off; [done|]. cbn [layout]. by rewrite !len_cons, IH. Qed.

Lemma layout_names off xs : name <$> layout off xs = (fun x => SLASH :: item_path x) <$> xs.
Proof. revert off. induction xs as [|x xs IH]; intros off; [done|]. cbn [layout fmap list_fmap]. rewrite IH. by destruct x. Qed.

Lemma layout_used off xs : used (layout off xs).
Proof. revert off. induction xs as [|x xs IH]; intros off; [constructor|]. constructor; [apply entry_of_used|apply IH]. Qed.

(** An archive of distinct items that fits the table. *)
Definition archive_ok (xs : list item) : Prop :=
  Forall item_ok xs /\ NoDup (item_path <$> xs) /\ len xs <= MAX_TARFS_ENTRIES.

(** The file system of an archive. *)
Definition tarfs_of (xs : list item) : tarfs := mkTarfs (filled (layout 0 xs)) no_opens (archive xs) true (len xs).

Lemma blocks_lower xs : Forall item_ok xs -> 512 * len xs <= len (xs ≫= item_blocks).
Proof.
  induction 1 as [|x xs Hx _ IH]; [done|]. cbn [mbind list_bind]. rewrite len_cons, len_app, blocks_length by done.
  assert (0 <= round_block (len (item_data x))); [|lia]. destruct Hx as (_ & _ & Hd). rewrite round_block_ok by done.
  pose proof (len_nonneg (item_data x)). lia.
Qed.

Lemma tarfs_init_ok t xs : archive_ok xs -> tarfs_init t (archive xs) = Some (tarfs_of xs).
Proof.
  intros (Hxs & _ & Hl). pose proof (blocks_lower xs Hxs) as Hb. pose proof (len_nonneg xs).
  assert (len (archive xs) = len (xs ≫= item_blocks) + 1024) as Ha by (unfold archive; rewrite len_app; f_equal; by vm_compute).
  unfold tarfs_init. rewrite (proj2 (Z.ltb_ge _ _)) by (unfold TAR_BLOCK_SIZE; lia).
  pose proof (scan_items (S (Z.to_nat (len (archive xs) / TAR_BLOCK_SIZE))) [] xs [] 0 Hxs) as E.
  change ([] ++ archive xs) with (archive xs) in E. change (len []) with 0 in E. change (filled []) with no_entries in E. rewrite E; [done|constructor|done|].
  unfold TAR_BLOCK_SIZE. apply Nat.lt_succ_r. unfold len in *. zlia.
Qed.

Lemma names_NoDup xs : archive_ok xs -> NoDup (name <$> layout 0 xs).
Proof.
  intros (_ & Hn & _). rewrite layout_names.
  change (NoDup ((cons SLASH ∘ item_path) <$> xs)). rewrite list_fmap_compose. apply NoDup_fmap_2; [by intros ?? [=]|done].
Qed.

Lemma find_item xs ys x zs t :
  archive_ok xs -> xs = ys ++ x :: zs -> entries t = filled (layout 0 xs) ->
  find_entry t (item_path x) = Some (len ys) /\ find_entry t (SLASH :: item_path x) = Some (len ys) /\
  (entries t).[len ys] = entry_of (len (ys ≫= item_blocks)) x.
Proof.
  intros Hok E Ht. pose proof (names_NoDup xs Hok) as Hn. pose proof Hok as (Hxs & _ & Hl).
  assert (item_ok x) as (Hp & _) by (rewrite E in Hxs; apply Forall_app in Hxs as [_ Hxs]; exact (Forall_inv Hxs)).
  pose proof (len_nonneg ys). pose proof (len_nonneg zs).
  assert (0 <= len ys < len (layout 0 xs)) as Hi by (rewrite layout_length, E, len_app, len_cons; lia).
  assert ((layout 0 xs).[len ys] = entry_of (len (ys ≫= item_blocks)) x) as Ee.
  { rewrite E, layout_app, geti_app, layout_length, decide_False, Z.sub_diag by lia. done. }
  assert (name (layout 0 xs).[len ys] = SLASH :: item_path x) as En by (rewrite Ee; by destruct x).
  split_and!.
  - eapply find_entry_ok; [done|by rewrite layout_length|apply layout_used|done|by apply normalize_path|done|done].
  - eapply find_entry_ok; [done|by rewrite layout_length|apply layout_used|done| |done|done].
    destruct Hp as ((_ & Hlp) & Hs & Hc). unfold normalize_name.
    assert (strip_slash (strip_dot (SLASH :: item_path x)) = item_path x) as -> by by destruct (item_path x) as [|c p].
    rewrite take_ge by lia. destruct (item_path x) as [|c p]; [done|]. rewrite (proj2 (Z.eqb_neq c SLASH)) by done.
    by rewrite (proj2 (Z.eqb_neq _ 255)) by (unfold len; lia).
  - rewrite Ht, filled_at by done. exact Ee.
Qed.

(** ** Reading a file *)

(** Reads one after the other, what they give put together. *)
Fixpoint reads (t : tarfs) (fd : Z) (counts : list Z) : option (tarfs * list Z) :=
  match counts with
  | [] => Some (t, [])
  | count :: counts =>
      '(t, _, bytes) ← tarfs_read t fd count;
      '(t, rest) ← reads t fd counts;
      Some (t, bytes ++ rest)
  end.

Definition total (counts : list Z) : Z := foldr Z.add 0 counts.

(** The blob of [t] holds [d] where its entry [i] says. *)
Definition holds (t : tarfs) (i : Z) (d : list Z) : Prop :=
  size (entries t).[i] = len d /\ 0 <= offset (entries t).[i] <= len (blob t) /\
  exists rest, drop (Z.to_nat (offset (entries t).[i])) (blob t) = d ++ rest.

Lemma blob_bytes_ok t i d q n :
  holds t i d -> 0 <= q -> 0 <= n -> q + n <= len d ->
  blob_bytes t (offset (entries t).[i] + q) n = Some (take (Z.to_nat n) (drop (Z.to_nat q) d)).
Proof.
  intros (_ & Ho & rest & E) Hq Hn Hl. unfold blob_bytes.
  assert (len d <= len (blob t) - offset (entries t).[i]) as Hb.
  { pose proof (f_equal length E) as El. rewrite length_drop, length_app in El. unfold len in *. lia. }
  rewrite (proj2 (Z.leb_le _ _)) by lia. f_equal. rewrite Z2Nat.inj_add by lia. rewrite <- drop_drop, E.
  unfold len in *. rewrite drop_app_le by lia. by rewrite take_app_le by (rewrite length_drop; lia).
Qed.

Lemma tarfs_read_ok t fd i q d count :
  0 <= fd < MAX_TARFS_OPEN -> len (opens t) = MAX_TARFS_OPEN -> (opens t).[fd] = mkOpen true i q -> holds t i d ->
  0 <= q -> 0 <= count ->
  let bytes := take (Z.to_nat count) (drop (Z.to_nat q) d) in
  tarfs_read t (fd + TARFS_FD_BASE) count = Some (with_opens t (opens t).[fd <- mkOpen true i (q + len bytes)], len bytes, bytes).
Proof.
  intros Hfd Hlen Ho Hh Hq Hc. cbn zeta. unfold tarfs_read. rewrite Z.add_simpl_r, Ho. cbn [o_used entry_idx pos negb].
  rewrite (proj2 (Z.ltb_ge _ _)), (proj2 (Z.leb_gt _ _)) by lia. cbn [orb]. rewrite (proj1 Hh).
  destruct (Z.leb_spec (len d) q) as [Hge|Hlt].
  - rewrite drop_ge, take_nil by (unfold len in *; lia). change (len (@nil Z)) with 0. rewrite Z.add_0_r. do 2 f_equal. rewrite <- Ho, seti_id by lia. by destruct t.
  - set (n := if len d - q <? count then len d - q else count).
    assert (0 <= n <= len d - q) as Hn by (subst n; destruct (Z.ltb_spec (len d - q) count); lia).
    rewrite (blob_bytes_ok t i d q n) by (done || lia). cbn [mbind option_bind].
    assert (take (Z.to_nat n) (drop (Z.to_nat q) d) = take (Z.to_nat count) (drop (Z.to_nat q) d)) as ->.
    { subst n. destruct (Z.ltb_spec (len d - q) count); [|done]. rewrite !take_ge; [done|rewrite length_drop; unfold len in *; lia..]. }
    assert (len (take (Z.to_nat count) (drop (Z.to_nat q) d)) = n) as ->; [|done].
    unfold len. rewrite length_take, length_drop. subst n. unfold len in *. destruct (Z.ltb_spec (Z.of_nat (length d) - q) count); lia.
Qed.

Lemma drop_length_take {A} n (l : list A) : drop (length (take n l)) l = drop n l.
Proof.
  rewrite length_take. destruct (decide (n <= length l)%nat); [by rewrite Nat.min_l by lia|]. rewrite !drop_ge by lia. done.
Qed.

Lemma reads_ok t fd i q d counts :
  0 <= fd < MAX_TARFS_OPEN -> len (opens t) = MAX_TARFS_OPEN -> (opens t).[fd] = mkOpen true i q -> holds t i d ->
  0 <= q -> Forall (fun c => 0 <= c) counts ->
  snd <$> reads t (fd + TARFS_FD_BASE) counts = Some (take (Z.to_nat (total counts)) (drop (Z.to_nat q) d)).
Proof.
  intros Hfd Hlen Ho Hh Hq Hc. revert t q Hlen Ho Hh Hq. induction Hc as [|c counts Hc Hcs IH]; intros t q Hlen Ho Hh Hq; [done|].
  cbn [reads]. rewrite (tarfs_read_ok t fd i q d c) by done. cbn [mbind option_bind].
  set (bytes := take (Z.to_nat c) _). pose proof (len_nonneg bytes) as Hb.
  set (t' := with_opens t _).
  assert (snd <$> reads t' (fd + TARFS_FD_BASE) counts = Some (take (Z.to_nat (total counts)) (drop (Z.to_nat (q + len bytes)) d))) as E.
  { apply IH; [by cbn; rewrite len_seti|by cbn; rewrite geti_seti_eq by lia|done|lia]. }
  destruct (reads t' _ counts) as [[t2 rest]|]; [|done]. injection E as E. rewrite E. cbn [fmap option_fmap option_map snd mbind option_bind].
  assert (0 <= total counts) as Ht by (clear -Hcs; induction Hcs as [|c counts Hc _ IH]; [done|]; cbn; unfold total in IH; lia).
  change (total (c :: counts)) with (c + total counts). rewrite (Z2Nat.inj_add c) by lia. rewrite <- take_take_drop. do 3 f_equal.
  subst bytes. unfold len. rewrite Z2Nat.inj_add, Nat2Z.id, <- drop_drop by lia. apply drop_length_take.
Qed.

(** ** Symbolic links *)

(** Where a link at the relative path [l] with target [t] leads: an absolute
    target replaces the path, a relative one the part after its last slash. *)
Definition link_path (l t : list Z) : list Z :=
  match t with c :: t' => if c =? SLASH then t' else tail (dir_of (SLASH :: l)) ++ t | [] => tail (dir_of (SLASH :: l)) end.

(** From [p] there are [n] links to the file at [q] with data [d]. *)
Inductive leads (xs : list item) (d : list Z) : nat -> list Z -> list Z -> Prop :=
| leads_file p : File p d ∈ xs -> leads xs d O p p
| leads_link n l t q : Link l t ∈ xs -> leads xs d n (link_path l t) q -> leads xs d (S n) l q.

Lemma dir_of_abs l : exists k, dir_of (SLASH :: l) = SLASH :: take k l.
Proof. unfold dir_of. cbn [last_slash]. destruct (last_slash l) as [k|]; [by exists (S k)|by exists O]. Qed.

Section files.
Context (xs : list item) (Hok : archive_ok xs).

Lemma item_index x : x ∈ xs -> item_ok x /\ exists i off,
  0 <= i < MAX_TARFS_ENTRIES /\ 0 <= off /\
  find_entry (tarfs_of xs) (item_path x) = Some i /\ find_entry (tarfs_of xs) (SLASH :: item_path x) = Some i /\
  (entries (tarfs_of xs)).[i] = entry_of off x /\
  exists rest, drop (Z.to_nat off) (archive xs) = header_of x ++ item_data x ++ rest.
Proof.
  intros Hin. apply list_elem_of_split in Hin as (ys & zs & E).
  destruct (find_item xs ys x zs (tarfs_of xs) Hok E eq_refl) as (F1 & F2 & F3). destruct Hok as (Hxs & _ & Hl).
  rewrite E in Hl. rewrite len_app, len_cons in Hl. pose proof (len_nonneg ys). pose proof (len_nonneg zs).
  split; [rewrite E in Hxs; apply Forall_app in Hxs as [_ Hxs]; exact (Forall_inv Hxs)|].
  exists (len ys), (len (ys ≫= item_blocks)). split_and!; [lia|lia|apply len_nonneg|done|done|done|].
  unfold archive. rewrite E, bind_app. cbn [mbind list_bind]. eexists. unfold len. rewrite Nat2Z.id, <- !app_assoc, drop_app_length.
  unfold item_blocks at 1. by rewrite <- !app_assoc.
Qed.

Lemma resolve_loop_ok d n p q depth :
  leads xs d n p q -> (n < depth)%nat ->
  resolve_loop depth (tarfs_of xs) (SLASH :: p) = Some (inl (SLASH :: q)) /\ is_path p /\ File q d ∈ xs.
Proof.
  intros Hp. revert depth. induction Hp as [p Hp|n l t q Hl _ IH]; intros depth Hd; (destruct depth as [|depth]; [lia|]); cbn [resolve_loop].
  - destruct (item_index _ Hp) as ((Hpath & _) & i & off & Hi & _ & _ & F & E & _). cbn [item_path] in F. rewrite F. cbn [mbind option_bind]. rewrite E.
    rewrite (proj2 (Z.ltb_ge _ _)) by lia. cbn [entry_of is_symlink negb].
    split; [|done]. rewrite take_ge; [done|]. destruct Hpath as ((_ & Hlen) & _). simpl in *. lia.
  - destruct (item_index _ Hl) as ((Hpath & (_ & Ht) & _) & i & off & Hi & _ & _ & F & E & _). cbn [item_path] in F. rewrite F. cbn [mbind option_bind]. rewrite E.
    rewrite (proj2 (Z.ltb_ge _ _)) by lia. cbn [entry_of is_symlink negb link_target item_path item_target] in *.
    destruct (IH depth ltac:(lia)) as (IHr & _ & IHf). split; [|done].
    assert (length l < 100)%nat as Hlen by by destruct Hpath as ((_ & ?) & _).
    destruct (dir_of_abs l) as [k Hk]. rewrite (take_ge (SLASH :: l)) by (simpl; lia).
    assert (256 <=? len (dir_of (SLASH :: l)) + len t = false) as Hfit.
    { apply Z.leb_gt. rewrite Hk. unfold len. cbn [length]. rewrite length_take. lia. }
    unfold link_path in IHr. rewrite Hfit. rewrite (take_ge t) by lia. rewrite Hk in *. cbn [tail] in IHr.
    destruct t as [|c t]; [by rewrite app_nil_r|]. destruct (Z.eqb_spec c SLASH) as [->|Hne]; exact IHr.
Qed.

Lemma resolved_ok d n p q : leads xs d n p q -> (n < MAX_SYMLINK_DEPTH)%nat ->
  resolved_path (tarfs_of xs) p = Some (SLASH :: q) /\ File q d ∈ xs.
Proof.
  intros Hp Hn. destruct (resolve_loop_ok d n p q _ Hp Hn) as (Hr & Hpath & Hf).
  unfold resolved_path, tarfs_resolve_symlink. rewrite normalize_path by done. cbn [mbind option_bind]. rewrite Hr. done.
Qed.

Lemma file_holds q d i off :
  (entries (tarfs_of xs)).[i] = entry_of off (File q d) -> item_ok (File q d) -> 0 <= off ->
  (exists rest, drop (Z.to_nat off) (archive xs) = header_of (File q d) ++ d ++ rest) -> holds (tarfs_of xs) i d.
Proof.
  intros E Hq Hoff (rest & Er). unfold holds. rewrite E. cbn [entry_of size offset blob tarfs_of].
  pose proof (header_length _ Hq) as Hh. pose proof (f_equal length Er) as El. rewrite length_drop, !length_app in El.
  split_and!; [done|lia|unfold len; lia|]. exists rest. rewrite Z2Nat.inj_add, <- drop_drop, Er by lia.
  change (Z.to_nat 512) with 512%nat. by apply drop_header.
Qed.

Lemma open_ok d n p q :
  leads xs d n p q -> (n < MAX_SYMLINK_DEPTH)%nat ->
  exists i, holds (tarfs_of xs) i d /\
  tarfs_open (tarfs_of xs) p = Some (with_opens (tarfs_of xs) no_opens.[0 <- mkOpen true i 0], TARFS_FD_BASE).
Proof.
  intros Hp Hn. destruct (resolved_ok d n p q Hp Hn) as [Hr Hf].
  destruct (item_index _ Hf) as (Hq & i & off & Hi & Hoff & _ & Hfind & He & Hdata).
  exists i. split; [by eapply file_holds|]. unfold tarfs_open. rewrite Hr. cbn [mbind option_bind item_path] in *. rewrite Hfind. cbn [mbind option_bind].
  rewrite He, (proj2 (Z.ltb_ge _ _)) by lia. cbn [entry_of is_symlink orb opens tarfs_of].
  assert (find_from (fun i => negb (o_used no_opens.[i])) (Z.to_nat MAX_TARFS_OPEN) 0 = Some 0) as -> by by vm_compute. done.
Qed.
End files.

(** C28: An archive is mounted and read back: every file of the archive, reached
    by its path or through fewer than ten symbolic links (absolute ones or ones
    relative to their directory), opens, and any reads give its bytes in order
    until its end. *)
Theorem tarfs_roundtrip t xs d n p q counts :
  archive_ok xs -> leads xs d n p q -> (n < MAX_SYMLINK_DEPTH)%nat -> Forall (fun c => 0 <= c) counts ->
  exists t1 t2 fd,
    tarfs_init t (archive xs) = Some t1 /\ tarfs_open t1 p = Some (t2, fd) /\ TARFS_FD_BASE <= fd /\
    snd <$> reads t2 fd counts = Some (take (Z.to_nat (total counts)) d) /\
    tarfs_stat t1 p = Some (0, len d).
Proof.
  intros Hok Hp Hn Hc. destruct (open_ok xs Hok d n p q Hp Hn) as (i & Hh & Ho). exists (tarfs_of xs). eexists. exists TARFS_FD_BASE.
  split_and!; [by apply tarfs_init_ok|exact Ho|done| |].
  - apply (reads_ok _ 0 i 0 d); [done|by vm_compute|by vm_compute|exact Hh|done|done].
  - destruct (resolved_ok xs Hok d n p q Hp Hn) as [Hr Hf]. destruct (item_index xs Hok _ Hf) as (_ & j & off & Hj & _ & _ & Hfind & He & _).
    unfold tarfs_stat. rewrite Hr. cbn [mbind option_bind item_path] in *. rewrite Hfind. cbn [mbind option_bind].
    rewrite He, (proj2 (Z.ltb_ge _ _)) by lia. done.
Qed.

(** Two files and two links, one relative to its directory, the other absolute:
    "etc/a" = "hello", "b" -> "c", "etc/d" -> "a", "c" -> "/etc/d". *)
Definition etc (c : Z) : list Z := [101; 116; 99; SLASH; c].
Definition sample : list item :=
  [File (etc 97) [104; 101; 108; 108; 111]; Link [98] [99]; Link (etc 100) [97]; Link [99] (SLASH :: etc 100); File [102] []].

Lemma sample_ok : archive_ok sample.
Proof.
  split_and!; [|apply (bool_decide_unpack _); by vm_compute|done].
  repeat constructor; try done; try (simpl; lia); try (by vm_compute).
Qed.

Lemma sample_leads : leads sample [104; 101; 108; 108; 111] 3 [98] (etc 97).
Proof.
  apply leads_link with [99]; [by repeat constructor|]. apply leads_link with (SLASH :: etc 100); [by repeat constructor|].
  apply leads_link with [97]; [by repeat constructor|]. apply leads_file. repeat constructor.
Qed.

Lemma tarfs_roundtrip_witness : exists t1 t2 fd,
    tarfs_init (mkTarfs no_entries no_opens [] false 0) (archive sample) = Some t1 /\ tarfs_open t1 [98] = Some (t2, fd) /\ TARFS_FD_BASE <= fd /\
    snd <$> reads t2 fd [2; 0; 1000] = Some [104; 101; 108; 108; 111] /\
    tarfs_stat t1 [98] = Some (0, 5).
Proof.
  apply (tarfs_roundtrip (mkTarfs no_entries no_opens [] false 0) sample [104; 101; 108; 108; 111] 3 [98] (etc 97) [2; 0; 1000]).
  - exact sample_ok.
  - exact sample_leads.
  - unfold MAX_SYMLINK_DEPTH. lia.
  - repeat constructor; lia.
Defined.

(** ** Any archive *)

(** A stripped path of 255 characters or more does not fit the array. *)
Lemma normalize_name_None src : normalize_name src = None <->
  (255 <= length (strip_slash (strip_dot src)))%nat /\ head (strip_slash (strip_dot src)) <> Some SLASH.
Proof.
  unfold normalize_name. destruct (strip_slash (strip_dot src)) as [|c l] eqn:E; [split; [done|simpl; lia]|].
  change (take 255 (c :: l)) with (c :: take 254 l). cbn [head length].
  destruct (Z.eqb_spec c SLASH) as [->|Hne]; [split; [done|by intros [_ []]]|].
  rewrite len_cons. unfold len. rewrite length_take. destruct (Z.eqb_spec (1 + Z.of_nat (254 `min` length l)) 255); split; try done; intros; [|lia].
  split; [lia|congruence].
Qed.

Lemma tarfs_open_overflow t path : normalize_name path = None -> tarfs_open t path = None /\ tarfs_stat t path = None.
Proof. intros E. unfold tarfs_open, tarfs_stat, resolved_path, tarfs_resolve_symlink. by rewrite E. Qed.

(** The size is the header's, whatever the length of the archive. *)
Lemma tarfs_read_outside t fd i count :
  0 <= fd < MAX_TARFS_OPEN -> (opens t).[fd] = mkOpen true i 0 -> 0 < count -> 0 < size (entries t).[i] ->
  len (blob t) < offset (entries t).[i] + Z.min count (size (entries t).[i]) ->
  tarfs_read t (fd + TARFS_FD_BASE) count = None.
Proof.
  intros Hfd Ho Hc Hs Hb. unfold tarfs_read. rewrite Z.add_simpl_r, Ho. cbn [o_used entry_idx pos negb].
  rewrite (proj2 (Z.ltb_ge _ _)), !(proj2 (Z.leb_gt _ _)) by lia. cbn [orb]. unfold blob_bytes. rewrite Z.sub_0_r, Z.add_0_r.
  rewrite (proj2 (Z.leb_gt _ _)); [done|]. destruct (Z.ltb_spec (size (entries t).[i]) count); lia.
Qed.

Lemma round_block_nonneg v : 0 <= round_block v.
Proof. unfold round_block. apply Z.land_nonneg. left. unfold u64, wrap. apply Z.mod_pos_bound. lia. Qed.

(** Some block that starts at a position of the archive has a name too long for the array. *)
Definition long_name (b : list Z) : Prop := exists ptr, normalize_name (c_string (take 512 (drop ptr b))) = None.

Lemma scan_total fuel b ptr es count :
  0 <= ptr -> len b < ptr + 512 * Z.of_nat (S fuel) -> scan (S fuel) b ptr es count = None -> long_name b.
Proof.
  revert ptr es count. induction fuel as [|fuel IH]; intros ptr es count Hp Hb.
  { cbn [scan]. by rewrite (proj2 (Z.ltb_lt (len b) _)) by (unfold TAR_BLOCK_SIZE; lia). }
  remember (S fuel) as fuel' eqn:Ef. cbn [scan].
  destruct (Z.ltb_spec (len b) (ptr + TAR_BLOCK_SIZE)); [done|]. destruct (_ =? 0); [done|].
  pose proof (round_block_nonneg (header_size (take 512 (drop (Z.to_nat ptr) b)))) as Hr.
  assert (Hnext : forall k es count, 0 <= k -> scan fuel' b (ptr + TAR_BLOCK_SIZE + k) es count = None -> long_name b).
  { intros k es' count' Hk. apply IH; unfold TAR_BLOCK_SIZE; lia. }
  destruct (_ || _); [by apply Hnext|]. destruct (normalize_name _) as [n|] eqn:En; [|intros _; by eexists].
  cbn [mbind option_bind]. destruct (bool_decide _); [rewrite <- (Z.add_0_r (ptr + _)); by apply Hnext|].
  by destruct (add_entry _ _ _ _ _ _); apply Hnext.
Qed.

(** Reading any archive, well formed or not, ends: each round moves on by at
    least one block, and the only way not to have a result is a header whose name
    runs past the array of 256 characters. *)
Theorem tarfs_init_total t b : tarfs_init t b = None -> long_name b.
Proof.
  unfold tarfs_init. destruct (_ <? _); [done|]. destruct (scan _ _ _ _ _) as [[es count]|] eqn:E; [done|]. intros _.
  refine (scan_total _ b 0 no_entries 0 _ _ E); [done|]. unfold TAR_BLOCK_SIZE. pose proof (len_nonneg b). zlia.
Qed.

Lemma tarfs_init_total_witness : long_name (replicate 156 65 ++ [48] ++ replicate 355 65).
Proof. apply (tarfs_init_total (mkTarfs no_entries no_opens [] false 0)). by vm_compute. Defined.
